(* ===== verification/_CoqProject ===== *)
-Q . S2P
Prelude.v
GoStrings.v
GoText.v
Wire.v
Authz.v
Registry.v
EdgeConfig.v
Ports.v
Hub.v
Usage.v
Edge.v
EdgeInv.v
EdgeBind.v
EdgeSafety.v
EdgeSessions.v
EdgeExamples.v
UdpFlows.v
UdpFlowsSafety.v
Ingress.v
IngressSafety.v
Store.v
StoreInv.v
Billing.v
BillingSafety.v
Entitle.v
EntitleSafety.v
Inspect.v
InspectSafety.v
AgentConf.v
Agent.v
AgentSafety.v
AgentStreams.v
AgentStreamsSafety.v
LocalApi.v
LocalApiSafety.v
Login.v
LoginSafety.v
SessionSafety.v
ApiConfig.v
ApiAuth.v
Listings.v
ApiResources.v
ApiSafety.v
ApiAdmin.v
ApiAuthSafety.v
RateLimit.v
RateLimitSafety.v
CertStore.v
CertStoreSafety.v
Remote.v
RemoteSafety.v
Console.v
ConsoleCmds.v
ConsoleLoop.v
ConsoleInv.v
ConsoleSafety.v
ConsoleExamples.v
SelfUpdate.v
SelfUpdateSafety.v
Launcher.v
LauncherSafety.v
Geo.v
GeoSafety.v
ApiRouter.v
ApiRouterSafety.v
Pg.v
PgSafety.v
PgQueries.v
Upstream.v
Transport.v
TransportSafety.v
ControlStream.v
Certs.v
EdgeRun.v
Weld.v
Rpc.v
StripeClient.v
Uninstall.v
ApiProcess.v
CliUi.v
