(* ===== verification/Prelude.v ===== *)
(** * trqsh: the tunnel edge, its control plane and its agent

    trqsh exposes local services on public names.  An agent
    (src/internal/agent) keeps one authenticated session with an edge
    (src/internal/server) and binds tunnels on it; the edge routes public HTTP
    requests by host, and raw TCP and UDP by port, to the agent that bound them;
    several edges share a registry of routes and hand connections to each other;
    the control plane (src/internal/api, src/internal/billing) owns accounts,
    API keys, reserved names, plans, quotas, usage and payments, and decides
    every bind.

    ** Files, and the code they model

    - [Prelude]: time, int64 wrap-around, results and the state-and-error monad,
      iteration over Go maps in an unknown order ([RangeOrder]), tactics.
    - [GoStrings]: the functions of strings, strconv, net, encoding/hex and
      encoding/base64 that the code calls; [GoText]: those of strings, unicode and
      fmt that work on runes, fields and substrings.
    - [Wire]: proto/rift.proto's messages, pkg/proto/codec.go (frames with a
      32-bit length), pkg/proto/errors.go, the datagram frames of
      internal/server/ingress_udp.go.  The protobuf codec itself is generated
      code: a parameter with the law [CodecOk].
    - [Authz]: pkg/authz, the interface [Entitlements] between the edge and
      whoever decides, and the development stub.
    - [Registry]: internal/server/registry.go, the interface [Registry] with
      its laws [RegistryLaws], the in-memory implementation and the one on Redis
      commands ([RedisOps], with the documented behaviour of SET, GET, EXPIRE and
      DEL as [RedisLaws]); both satisfy the laws.
    - [EdgeConfig]: internal/server/config.go.
    - [Ports]: the port pool of internal/server/ingress_tcp.go and
      ingress_udp.go.
    - [Hub]: internal/server/hub.go.  Tunnels and sessions are objects in a
      store ([World]) and the hub's maps hold references to them, since the code
      compares and shares pointers.
    - [Usage]: internal/server/usage.go.
    - [Edge]: internal/server/server.go and session.go: the server's state as
      a record, binds, unbinds, releases, teardown, whole sessions over the
      messages an agent sends.  [EdgeInv], [EdgeBind], [EdgeSafety],
      [EdgeSessions] and [EdgeExamples] hold its invariant, its theorems and its
      concrete runs.
    - [UdpFlows], [UdpFlowsSafety]: the flow table of
      internal/server/ingress_udp.go; streams are objects, the reader of the
      socket, the sweeper and the readers of the streams are events.
    - [Ingress], [IngressSafety]: internal/server/ingress_http.go,
      ingress_h3.go, forward.go, forward_listener.go.  [Upstream]: the reverse proxy
      of the same files to the control plane.
    - [Transport], [TransportSafety]: pkg/tunnel: dialling, and the listener whose two
      accept loops, handshakes and hand-over channel are the events of [step].
    - [ControlStream]: goroutines that write frames to one control stream
      (writeControl of internal/server/hub.go, writeFramed of pkg/proto/codec.go).
    - [Certs]: internal/server/tls.go and tls_acme.go.
    - [EdgeRun]: construction, start, heartbeat and drain of the edge
      (internal/server/server.go, session.go, cmd/trqshd/main.go), as the effects they
      have in their order.
    - [Weld]: internal/server/weld.go and the accept loop of ingress_tcp.go.
    - [Store], [StoreInv]: internal/api/store/store.go and mem.go.
    - [Pg]: internal/api/store/postgres.go on the tables of
      internal/api/db/migrations, every operation as the statement it executes, with
      the unique and foreign keys it runs into and a connection that may fail.
      [PgSafety] and [PgQueries] relate tables and maps call by call; the latter ends
      with runs of both stores and where they differ.
    - [Billing], [BillingSafety]: internal/billing: plans, quota, Stripe
      webhooks (with internal/billing/stripe's signatures and objects), metering.
    - [StripeClient]: the requests to Stripe (internal/billing/stripe) and
      internal/billing/config.go.
    - [Entitle], [EntitleSafety]: internal/api/entitlements.go, the API keys of
      internal/api/auth, and internal/entitlerpc's caching client, which is
      again an [Entitlements] for the edge.  [Rpc]: that client over JSON and HTTP, with
      internal/api/rpc.go at the other end.
    - [Inspect], [InspectSafety]: internal/agent/inspect, and the bounded body
      capture of internal/agent/forward.go.
    - [AgentConf]: internal/agent/config.go and version.go; the YAML library is
      the interface [Yaml] with the law of reading back what was written.
    - [Agent], [AgentSafety]: internal/agent/core.go, session.go, reconnect.go,
      errors.go.
    - [AgentStreams], [AgentStreamsSafety]: internal/agent/forward.go; a handler
      is the list of the atomic effects of each of its goroutines, and a run is an
      interleaving of them ([interleave]).
    - [LocalApi], [LocalApiSafety]: internal/agent/localapi.go, cloudapi.go,
      remoteapi.go, update.go.
    - [Login]: sessions of the control plane: the signed tokens and middleware of
      internal/api/auth/auth.go and middleware.go, revocation (auth/revoke.go,
      token_revoke_redis.go), the device flow (auth/device.go, device_redis.go) and
      the OAuth state nonces (oauth_state.go); each store is an interface
      ([DeviceStore], [Revoker], [oauthStateStore]) with its in-process and its
      Redis instance.  [LoginSafety] and [SessionSafety] hold the laws of the
      interfaces, their instances and the theorems.
    - [ApiConfig]: internal/api/config.go, the response helpers of server.go and
      the JSON of the stored records.
    - [ApiAuth], [ApiAuthSafety]: internal/api/auth/oauth.go and
      handlers_auth.go.
    - [Listings]: the read-only listings of mem.go.
    - [ApiResources], [ApiSafety]: handlers_resources.go, handlers_history.go,
      handlers_plans_public.go, rpc.go, and internal/billing/checkout.go.
    - [ApiAdmin]: handlers_admin.go and handlers_admin_dash.go.
    - [RateLimit], [RateLimitSafety]: internal/api/middleware.go and
      ratelimit_redis.go.
    - [CertStore], [CertStoreSafety]: internal/server/tls_storage_redis.go.
    - [Remote], [RemoteSafety]: internal/api/remote.go; sessions and channels are
      objects on a heap and a panic is a value.
    - [ApiRouter], [ApiRouterSafety]: internal/api/server.go:
      the table of routes with their middlewares, and a request from the router
      through its guards to its handler, on the state of the whole process.
    - [Geo], [GeoSafety]: internal/geo and internal/api/handlers_geo.go.
    - [Console], [ConsoleCmds], [ConsoleLoop]: internal/agent/cli/tui: the state of
      the terminal interface and what it draws; its commands and the work they defer;
      keys, menu, messages and the runtime ([run], [exec]) that interleaves
      them.  [ConsoleInv], [ConsoleSafety] and [ConsoleExamples] hold its invariant,
      theorems and runs.
    - [SelfUpdate], [SelfUpdateSafety]: internal/agent/cli/update.go and sigstore.go; the file system
      is a map from paths, and replacing the program the list of its states after
      every call.
    - [Launcher], [LauncherSafety]: internal/agent/cli/cli.go, control.go, daemon.go,
      dashboard.go and helpers.go.
    - [Uninstall]: internal/agent/cli/uninstall.go, on a file system of paths.
    - [ApiProcess]: the stream loops of internal/api/remote.go under the timeout of
      every request, internal/api/metrics.go, what internal/api/server.go and
      cmd/trqshapi start.
    - [CliUi]: internal/agent/cli/help.go and internal/agent/cli/ui.

    ** State, effects and errors

    Every operation keeps the name it has in the source, prefixed where two
    components share one.  Stateful code is a function of the state it changes;
    [M S E A] is [S] to a result and a state, and an error keeps the effects
    before it.  What the code reads from outside (clock, random bytes, the
    operating system's answer to a listen, whether a peer can be dialed, what
    the other end sends) is an argument, so a theorem quantifies over it.  int64
    counters wrap.  The operations of concurrent goroutines are steps in any order:
    [edge_step], [hub_op], [store_op], [cp_step], [agent_step], [dev_history],
    [st_history], [fleet_step], [cluster_step] and [relay_op] are the steps, with
    reachability and rule induction over them.  An operation of the hub, the store,
    the relay or a bucket holds its lock throughout and is a step for that reason.
    A bind, an unbind and a teardown of the edge take several locks one after the
    other, and a reconnection of the agent runs beside its API: they are single steps
    here all the same, so that what may happen inside one of them, between two of its
    locks, is outside the theorems ([stop_during_outage_is_undone] is an example of
    a call made while the agent has no session).  A call of the entitlements client
    is two: the control plane answers, and the client takes the answer up to its
    timeout later.  The requests of one public connection are served on a state that
    no other session changes in between; each request alone is an instance.

    ** What the theorems show

    - Routing ([EdgeSafety], [EdgeSessions], [Hub]): in every reachable state a
      host or port leads to exactly the tunnels tracked by a live session,
      reserved ports are the bound ones and the gauge counts them; sessions do
      not disturb each other's routes; a bind is refused without a trace or adds
      exactly the route it announces; a finished session leaves nothing.  The
      invariant needs what rift.proto asks of an agent, tunnel ids unique per
      session, and that a session does not bind one custom domain twice;
      [EdgeExamples] shows what the code does otherwise.
    - The edge as a process ([TransportSafety], [ControlStream], [EdgeRun], [Weld],
      [Certs]): the listener hands every session over once or closes it, and comes to
      rest after Close; a dial falls back from QUIC to TCP; frames written under the
      mutex arrive whole and in order; a raw connection is welded to the tunnel of its
      port and metered there; what the edge opens it closes.
    - Wire and registry: frames and datagrams round-trip, oversized and
      truncated frames are refused, route keys are faithful, every lawful
      registry refines a table of leases, a heartbeat keeps a route.
    - Public requests ([IngressSafety]): a request reaches a tunnel only by its
      own host, with its credentials and the true client address; guessing is
      throttled; the inter-edge hop is authenticated and single.  What the proxy passes
      on to the control plane names the true client ([Upstream]).
    - Money and accounts ([Usage], [StoreInv], [BillingSafety]): traffic is
      neither lost nor billed twice on the edge, the quota is exact, webhooks are
      authentic and handled at most once, names are owned by one row; a request to
      Stripe decodes to what was meant ([StripeClient]).
    - The production store ([PgQueries]): over any sequence of operations and queries
      that the two are meant to agree on, PostgreSQL refines the in-memory store; the
      other theorems about the control plane are stated over the latter.
    - Entitlements ([EntitleSafety]): a bind is allowed exactly when key, plan,
      names and quota permit; keys verify as minted and die when revoked, behind
      the edge's cache at most thirty-five seconds later: the five a call may take and
      the thirty its answer is kept.  The wire between edge and control
      plane is transparent ([Rpc]).
    - The agent ([AgentSafety], [AgentStreamsSafety], [InspectSafety],
      [LocalApiSafety]): bounded reconnection delays, and exactly the granted
      tunnels afterwards; the counters of a tunnel are what passed through it in
      every interleaving of its streams, but for what a broken exchange had already
      copied and the head of an upgrade, which are not counted; a local service gets the public request
      and the inspector a true record of the exchange, of which it shows the newest
      ones; the local interfaces answer loopback hosts and who knows the token;
      signing out forgets the stored key.
    - UDP ([UdpFlowsSafety]): the datagrams of a client reach the tunnel on its own
      streams only, in order, all of them while the streams are healthy, and the
      metering counts exactly those.
    - Signing in ([LoginSafety], [SessionSafety], [ApiAuthSafety]): a device key is
      delivered only to a flow a member approved, once and in time, and both
      backends agree; an OAuth session belongs to an address the provider vouches
      for, a nonce is spent once, redirects stay on the dashboard; after a logout that
      the revocation store took down, no refresh token of the session is worth
      anything while that store answers (the Redis one fails open).
    - The API ([ApiSafety], [ApiAdmin], [Listings], [ApiConfig]): what a principal
      does changes its own org only, limits and grants are exact, admin sessions
      verify as signed, usage series add up, a production configuration that loads
      has no development secret.
    - Limits and locks ([RateLimitSafety], [CertStoreSafety]): a client gets its
      burst and its rate whatever the number of replicas, as long as their clocks
      agree, and is admitted again after a pause; the shared certificate storage is one tree of files, its lock
      excludes, and taking it terminates.
    - The relay ([RemoteSafety]): no interleaving panics, late viewers catch up, the
      console side is reserved to its org.
    - The control plane as one server ([ApiRouterSafety]): no request changes the data
      of an org without the credential its route demands; routes do not overlap and
      carry the guards of their kind.
    - The user's side ([ConsoleSafety], [SelfUpdateSafety], [LauncherSafety]): the
      console keeps its invariant under every key and message, and does not panic but
      for the case the invariant names; a paired phone can neither sign in or out nor
      update, uninstall or end it (its /whoami posts the key the console already has),
      and sees what is printed; an update installs
      only what is signed, newer and complete, and never loses the program; the daemon
      runs with the settings of the command line but for the two that are not
      forwarded, is waited for a bounded time and lets the console in.  Uninstalling
      removes the program's own files ([Uninstall]); the help lists every command, and
      colours change nothing but colours ([CliUi]).
    - The relay's streams and the metrics of the API ([ApiProcess]).
    - Geolocation ([GeoSafety]): what is sent to the provider, and that the cache
      changes no answer.
    - Behaviours that contradict what the code or its comments intend are
      theorems too: a custom domain bound twice and a reused tunnel id on the
      edge, the tunnel limit that nothing reads, client headers over HTTP/2 and
      HTTP/3, reserved hosts, upper-case base domains, early and out-of-order
      Stripe events, metering after the first tick, re-binds of tunnels without a
      reserved name, a device key polled from two replicas, keys minted for refused
      approvals, overlapping reservations, relay sessions that expire unnoticed, UDP
      streams left open and flows closed while answers flow, the key an agent keeps
      after signing out, a pairing lost to a pump, replays of replays, local
      addresses given as URLs, the index panic of the console's menu, a sign-out that
      /whoami undoes, the oldest requests shown as the recent ones, older releases
      announced as updates, accounts that differ in capitals and the other differences
      between the two stores ([PgQueries]), a control frame torn by drain, traffic and
      ports of the drain window, tokens handed out by replicas whose clocks differ, tunnels
      stopped during an outage that come back, an edge that advertises itself after it left, expired
      development certificates, relay streams cut every half a minute, an uninstallation
      that deletes the home directory.

    ** Bounds and fuel

    [udp_read_loop] gives its loop one turn more than the stream has bytes,
    which is enough because every turn but the last consumes at least two, and so
    does the agent's [udp_to_local]; the frame and datagram theorems state the
    results themselves.  [allocateHost]
    tries eight names as the code does.  [lock_loop] has one unit of fuel per
    attempt, each of which may take time; [cert_lock_returns] proves that the attempts
    until the deadline, or 62 of them against a lease of sixty seconds that nobody
    prolongs, are enough.  The connection, control
    and reconnection loops recur over the list of what arrives from outside.
    [wait_ready] and [waitDaemonExit] recur over the polls the clock grants, and
    [console_is_let_in] proves that 51 of them end the wait.  After Close the listener
    takes at most [work_left] more steps, the weight of its unfinished connections, its
    loops and the QUIC connections that were queued before Close.

    ** Parameters

    The protobuf codec, JSON of the stored device request (for valid UTF-8), YAML and the
    JWT library are codecs with round-trip laws; JSON decoders of request bodies and the answers
    of the control plane are functions without laws; argon2 and HMAC are functions with the injectivity
    the code relies on; Redis is a type with commands whose laws are their
    documented behaviour, including commands that fail before or after they take
    effect; Stripe, OAuth providers, DNS and the geolocation provider are functions or
    the answers they give; chi ([Mux]) finds an entry whose pattern matches, a parameter
    that is not the last one matching an empty segment too; pflag
    reads back the flags it is given; lipgloss, the text area and the viewport of the
    console ([Terminal]) have the laws of their documented measures; archives,
    SHA-256 and the sigstore library ([Sigstore]) are functions of the updater ([Updater]); the order of
    unordered rows and the session's time zone are parameters of the SQL store; what QUIC,
    TLS, yamux and the operating system answer are events or arguments of the transports
    and of the edge's start; CertMagic, the signing of certificates, url.Parse and
    time.ParseDuration are functions.  Every law has a concrete instance, used by the witnesses.

    ** Not modelled

    TLS, QUIC and the parsing of HTTP, the ACME protocol, the copying of bodies;
    PostgreSQL's collations beyond ASCII; the read and write timeouts of the HTTP servers
    of the API; float64 rounding in the rate limiter; the desktop user interface, CORS headers, the static pages, the declaration of the
    Prometheus collectors and the load test.  Unknown values of the protobuf enum
    TunnelType, which the edge treats as HTTP, are not represented. *)
From Stdlib Require Export Sorted.
From stdpp Require Export base gmap strings list pretty numbers.

(** * Time
    [time.Time] is a count of nanoseconds since the zero instant of Go
    (year 1), so that [time.Time{}] is 0 and [IsZero] is a test for 0. *)
Definition Time := Z.
Definition Duration := Z.
Definition zero_time : Time := 0%Z.
Definition IsZero (t : Time) : bool := Z.eqb t 0.
Definition After (a b : Time) : bool := Z.ltb b a.
Definition Before (a b : Time) : bool := Z.ltb a b.

Definition Millisecond : Duration := 1000000%Z.
Definition Second : Duration := (1000 * Millisecond)%Z.
Definition Minute : Duration := (60 * Second)%Z.
Definition Hour : Duration := (60 * Minute)%Z.

(** * Machine integers: Go's int64 wraps around. *)
Definition wrap64 (z : Z) : Z := ((z + 2 ^ 63) mod 2 ^ 64 - 2 ^ 63)%Z.
Definition add64 (a b : Z) : Z := wrap64 (a + b).
Definition in64 (z : Z) : Prop := (- 2 ^ 63 <= z < 2 ^ 63)%Z.

Lemma wrap64_id z : in64 z → wrap64 z = z.
Proof.
  unfold in64, wrap64. intros H. rewrite Z.mod_small; lia.
Qed.

Lemma wrap64_range z : in64 (wrap64 z).
Proof.
  unfold in64, wrap64.
  pose proof (Z.mod_pos_bound (z + 2 ^ 63) (2 ^ 64)). lia.
Qed.

Lemma add64_exact a b : in64 (a + b) → add64 a b = (a + b)%Z.
Proof. apply wrap64_id. Qed.

(** * Results of fallible code, and the state-and-error monad in which the
    stateful operations are written.  An error does not undo the effects that
    came before it, exactly as in the source. *)
Inductive result (E A : Type) : Type :=
| Ok (a : A)
| Err (e : E).
Arguments Ok {E A} a.
Arguments Err {E A} e.

Definition is_ok {E A} (r : result E A) : bool :=
  match r with Ok _ => true | Err _ => false end.

Definition M (S E A : Type) : Type := S → result E A * S.

#[export] Instance M_ret S E : MRet (M S E) := λ A a s, (Ok a, s).
#[export] Instance M_bind S E : MBind (M S E) := λ A B k c s,
  match c s with
  | (Ok a, s') => k a s'
  | (Err e, s') => (Err e, s')
  end.

Definition throw {S E A} (e : E) : M S E A := λ s, (Err e, s).
Definition get {S E} : M S E S := λ s, (Ok s, s).
Definition put {S E} (s : S) : M S E unit := λ _, (Ok tt, s).
Definition modify {S E} (f : S → S) : M S E unit := λ s, (Ok tt, f s).
(** [try c] makes the result of [c] a value: the caller inspects the error. *)
Definition try {S E F A} (c : M S E A) : M S F (result E A) :=
  λ s, let '(r, s') := c s in (Ok r, s').

Lemma bind_ok {S E A B} (c : M S E A) (k : A → M S E B) s a s' :
  c s = (Ok a, s') → (c ≫= k) s = k a s'.
Proof. intros H. unfold mbind, M_bind. by rewrite H. Qed.

Lemma bind_err {S E A B} (c : M S E A) (k : A → M S E B) s e s' :
  c s = (Err e, s') → (c ≫= k) s = (Err e, s').
Proof. intros H. unfold mbind, M_bind. by rewrite H. Qed.

Lemma bind_inv {S E A B} (c : M S E A) (k : A → M S E B) s r s'' :
  (c ≫= k) s = (r, s'') →
  (∃ a s', c s = (Ok a, s') ∧ k a s' = (r, s'')) ∨
  (∃ e, c s = (Err e, s'') ∧ r = Err e).
Proof.
  unfold mbind, M_bind. destruct (c s) as [[a|e] s'] eqn:Hc; intros H.
  - left; eauto.
  - right. exists e. naive_solver.
Qed.

(** * Iterating over a Go map
    [for k, v := range m] visits the entries in an unspecified order.  The
    order is a parameter of the model, constrained only to be a permutation of
    the entries, so that no theorem can depend on it. *)
Class RangeOrder := {
  range_map : ∀ {K : Type} `{Countable K} {V : Type}, gmap K V → list (K * V);
  range_map_perm : ∀ {K} `{Countable K} {V} (m : gmap K V), range_map m ≡ₚ map_to_list m;
}.

Definition sorted_range : RangeOrder :=
  {| range_map := λ K _ _ V m, map_to_list m; range_map_perm := λ K _ _ V m, reflexivity _ |}.

Section range.
  Context `{RangeOrder} {K : Type} `{Countable K} {V : Type}.

Lemma elem_of_range (m : gmap K V) k v : (k, v) ∈ range_map m ↔ m !! k = Some v.
Proof. rewrite range_map_perm. apply elem_of_map_to_list. Qed.

Lemma range_nodup (m : gmap K V) : NoDup (range_map m).*1.
Proof. rewrite range_map_perm. apply NoDup_fst_map_to_list. Qed.

Lemma range_length (m : gmap K V) : length (range_map m) = size m.
Proof. by rewrite range_map_perm, length_map_to_list. Qed.

Lemma range_empty : range_map (∅ : gmap K V) = [].
Proof. apply Permutation_nil. by rewrite range_map_perm, map_to_list_empty. Qed.

Lemma list_to_map_range (m : gmap K V) : list_to_map (range_map m) = m.
Proof.
  rewrite <- (list_to_map_to_list m) at 2. symmetry. apply list_to_map_proper.
  - apply NoDup_fst_map_to_list.
  - symmetry. apply range_map_perm.
Qed.
End range.

(** * First match of a loop with an early return. *)
Fixpoint find_first {A} (p : A → bool) (l : list A) : option A :=
  match l with
  | [] => None
  | x :: r => if p x then Some x else find_first p r
  end.

Lemma find_first_Some {A} (p : A → bool) l x :
  find_first p l = Some x → x ∈ l ∧ p x = true.
Proof.
  induction l as [|y l IH]; simpl; [done|].
  destruct (p y) eqn:Hp; intros Hf.
  - simplify_eq. split; [left|done].
  - destruct (IH Hf). split; [by right|done].
Qed.

Lemma find_first_None {A} (p : A → bool) l :
  find_first p l = None ↔ ∀ x, x ∈ l → p x = false.
Proof.
  induction l as [|y l IH]; simpl.
  - split; [|done]. intros _ x Hx. by apply not_elem_of_nil in Hx.
  - destruct (p y) eqn:Hp; split.
    + done.
    + intros Hall. specialize (Hall y). rewrite Hall in Hp; [done|left].
    + intros Hf x Hx. apply elem_of_cons in Hx as [->|Hx]; [done|]. by apply IH.
    + intros Hall. apply IH. intros x Hx. apply Hall. by right.
Qed.

(** * Sorting
    [sort.Slice] orders by [less] and leaves the order of ties open: a stable
    sort of a list whose order is itself unspecified. *)
Section sorting.
  Context {A : Type} (less : A → A → bool).

Fixpoint insert_by (x : A) (l : list A) : list A :=
  match l with
  | [] => [x]
  | y :: r => if less y x then y :: insert_by x r else x :: l
  end.
Definition sort_by (l : list A) : list A := foldr insert_by [] l.

Lemma insert_by_perm x l : insert_by x l ≡ₚ x :: l.
Proof.
  induction l as [|y l IH]; simpl; [done|]. destruct (less y x); [|done].
  rewrite IH. constructor.
Qed.

Lemma sort_by_perm l : sort_by l ≡ₚ l.
Proof. induction l as [|x l IH]; simpl; [done|]. by rewrite insert_by_perm, IH. Qed.

Lemma insert_by_sorted x l :
  (∀ a b, less a b = true → less b a = false) →
  Sorted (λ a b, less b a = false) l → Sorted (λ a b, less b a = false) (insert_by x l).
Proof.
  intros Has. induction 1 as [|y l Hl IH Hhd]; simpl; [by repeat constructor|].
  destruct (less y x) eqn:Hlt; [|by repeat constructor].
  constructor; [done|]. destruct Hhd as [|z l Hyz]; simpl.
  - constructor. by apply Has.
  - destruct (less z x); constructor; [done|by apply Has].
Qed.

Lemma sort_by_sorted l :
  (∀ a b, less a b = true → less b a = false) → Sorted (λ a b, less b a = false) (sort_by l).
Proof. intros Has. induction l as [|x l IH]; simpl; [constructor|by apply insert_by_sorted]. Qed.
End sorting.

(** * Automation *)
Create HintDb trqsh discriminated.
#[export] Hint Resolve wrap64_range : trqsh.

(** Case analysis on the scrutinee of the first [match] or [if] found. *)
Ltac case_step :=
  match goal with
  | |- context [match ?x with _ => _ end] => destruct x eqn:?
  | H : context [match ?x with _ => _ end] |- _ => destruct x eqn:?
  end.

(** Turns boolean tests in the hypotheses into propositions. *)
Ltac bool_simpl :=
  repeat match goal with
  | H : (_ && _) = true |- _ => apply andb_true_iff in H as [??]
  | H : (_ || _) = false |- _ => apply orb_false_iff in H as [??]
  | H : negb _ = true |- _ => apply negb_true_iff in H
  | H : negb _ = false |- _ => apply negb_false_iff in H
  | H : String.eqb _ _ = true |- _ => apply String.eqb_eq in H
  | H : String.eqb _ _ = false |- _ => apply String.eqb_neq in H
  | H : Z.eqb _ _ = true |- _ => apply Z.eqb_eq in H
  | H : Z.eqb _ _ = false |- _ => apply Z.eqb_neq in H
  | H : Z.ltb _ _ = true |- _ => apply Z.ltb_lt in H
  | H : Z.ltb _ _ = false |- _ => apply Z.ltb_ge in H
  | H : Z.leb _ _ = true |- _ => apply Z.leb_le in H
  | H : Z.leb _ _ = false |- _ => apply Z.leb_gt in H
  | H : bool_decide _ = true |- _ => apply bool_decide_eq_true in H
  | H : bool_decide _ = false |- _ => apply bool_decide_eq_false in H
  end.

(** Symbolic execution of a straight-line operation given by a hypothesis. *)
Ltac run_op := repeat (case_step; simplify_eq/=); simplify_eq/=.
