(* ===== verification/GoStrings.v ===== *)
(** The functions of Go's [strings], [strconv], [fmt] and [net] packages that
    the program uses, on byte strings.

    Letters are folded as ASCII: on a non-ASCII byte [ToLower], [ToUpper] and
    [TrimSpace] leave the string as it is, where Go folds the Unicode code
    point.  Host names, codes and plan names, which is what the program folds,
    are ASCII. *)
From S2P Require Import Prelude.
From Stdlib Require Import Ascii.

Definition lower_ascii (a : ascii) : ascii :=
  let n := N_of_ascii a in
  if (65 <=? n)%N && (n <=? 90)%N then ascii_of_N (n + 32) else a.

Definition upper_ascii (a : ascii) : ascii :=
  let n := N_of_ascii a in
  if (97 <=? n)%N && (n <=? 122)%N then ascii_of_N (n - 32) else a.

Definition is_space (a : ascii) : bool :=
  let n := N_of_ascii a in
  ((9 <=? n)%N && (n <=? 13)%N) || (n =? 32)%N.

Fixpoint map_string (f : ascii → ascii) (s : string) : string :=
  match s with
  | EmptyString => EmptyString
  | String a r => String (f a) (map_string f r)
  end.

Definition ToLower (s : string) : string := map_string lower_ascii s.
Definition ToUpper (s : string) : string := map_string upper_ascii s.
Definition EqualFold (s t : string) : bool := String.eqb (ToLower s) (ToLower t).

Fixpoint trim_left (s : string) : string :=
  match s with
  | String a r => if is_space a then trim_left r else s
  | EmptyString => EmptyString
  end.
Fixpoint trim_right (s : string) : string :=
  match s with
  | EmptyString => EmptyString
  | String a r =>
      match trim_right r with
      | EmptyString => if is_space a then EmptyString else String a EmptyString
      | r' => String a r'
      end
  end.
Definition TrimSpace (s : string) : string := trim_right (trim_left s).

Definition HasPrefix (s p : string) : bool := String.prefix p s.
Definition drop_string (n : nat) (s : string) : string :=
  String.substring n (String.length s - n) s.
Definition take_string (n : nat) (s : string) : string := String.substring 0 n s.
Definition HasSuffix (s p : string) : bool :=
  (String.length p <=? String.length s)%nat &&
  String.eqb (drop_string (String.length s - String.length p) s) p.
Definition TrimSuffix (s p : string) : string :=
  if HasSuffix s p then take_string (String.length s - String.length p) s else s.
Definition TrimPrefix (s p : string) : string :=
  if HasPrefix s p then drop_string (String.length p) s else s.

Fixpoint Contains (s sub : string) : bool :=
  String.prefix sub s ||
  match s with EmptyString => false | String _ r => Contains r sub end.

(** [IndexByte] and [LastIndexByte], with [None] for -1. *)
Fixpoint IndexByte (s : string) (c : ascii) : option nat :=
  match s with
  | EmptyString => None
  | String a r => if Ascii.eqb a c then Some 0%nat else S <$> IndexByte r c
  end.
Fixpoint LastIndexByte (s : string) (c : ascii) : option nat :=
  match s with
  | EmptyString => None
  | String a r =>
      match LastIndexByte r c with
      | Some i => Some (S i)
      | None => if Ascii.eqb a c then Some 0%nat else None
      end
  end.

(** [Cut s c]: the text before and after the first [c]; the whole string and
    the empty one when [c] does not occur. *)
Fixpoint Cut (s : string) (c : ascii) : string * string * bool :=
  match s with
  | EmptyString => (EmptyString, EmptyString, false)
  | String a r =>
      if Ascii.eqb a c then (EmptyString, r, true)
      else let '(x, y, found) := Cut r c in (String a x, y, found)
  end.

(** [Split s c] for a one-byte separator: never empty. *)
Fixpoint Split (s : string) (c : ascii) : list string :=
  match s with
  | EmptyString => [EmptyString]
  | String a r =>
      if Ascii.eqb a c then EmptyString :: Split r c
      else match Split r c with
           | [] => [String a EmptyString]
           | x :: xs => String a x :: xs
           end
  end.

(** The decimal text of an integer, as [strconv.Itoa] and [%d] print it. *)
Definition Itoa (n : Z) : string := pretty n.

(** Occurrence of a byte. *)
Fixpoint has_byte (s : string) (c : ascii) : bool :=
  match s with EmptyString => false | String a r => Ascii.eqb a c || has_byte r c end.

(** [strconv.Atoi] and [ParseInt(s, 10, 64)]: an optional sign and decimal
    digits, within int64; [None] stands for their error. *)
Definition digit_val (a : ascii) : option Z :=
  let n := Z.of_N (N_of_ascii a) in
  if (48 <=? n)%Z && (n <=? 57)%Z then Some (n - 48)%Z else None.
Fixpoint parse_digits (acc : Z) (s : string) : option Z :=
  match s with
  | EmptyString => Some acc
  | String a r => d ← digit_val a; parse_digits (acc * 10 + d)%Z r
  end.
Definition parse_uint (s : string) : option Z :=
  if String.eqb s "" then None else parse_digits 0 s.
Definition Atoi (s : string) : option Z :=
  n ← (if HasPrefix s "-" then Z.opp <$> parse_uint (drop_string 1 s)
       else if HasPrefix s "+" then parse_uint (drop_string 1 s)
       else parse_uint s);
  if (- 2 ^ 63 <=? n)%Z && (n <? 2 ^ 63)%Z then Some n else None.

(** [net.SplitHostPort]: [None] stands for its error. *)
Definition SplitHostPort (hp : string) : option (string * string) :=
  match LastIndexByte hp ":" with
  | None => None
  | Some i =>
      let port := drop_string (i + 1) hp in
      if HasPrefix hp "[" then
        match IndexByte hp "]" with
        | None => None
        | Some e =>
            if (e + 1 =? i)%nat then
              if has_byte (drop_string 1 hp) "[" then None
              else if has_byte (drop_string (e + 1) hp) "]" then None
              else Some (String.substring 1 (e - 1) hp, port)
            else None
        end
      else
        let host := take_string i hp in
        if has_byte host ":" then None
        else if has_byte hp "[" then None
        else if has_byte hp "]" then None
        else Some (host, port)
  end.

(** [hex.EncodeToString] of bytes given as integers. *)
Definition hex_digit (d : Z) : ascii :=
  match String.get (Z.to_nat (d mod 16)) "0123456789abcdef" with Some a => a | None => "0"%char end.
Fixpoint EncodeToString (b : list Z) : string :=
  match b with
  | [] => ""
  | x :: b => String (hex_digit (Z.shiftr x 4)) (String (hex_digit x) (EncodeToString b))
  end.

(** fmt's [%q] of a string without characters that need escaping. *)
Definition Quote (s : string) : string :=
  String (Ascii.ascii_of_nat 34) s +:+ String (Ascii.ascii_of_nat 34) "".

(** [strings.Join]. *)
Fixpoint Join (sep : string) (l : list string) : string :=
  match l with
  | [] => EmptyString
  | [x] => x
  | x :: l => x +:+ sep +:+ Join sep l
  end.

(** [base64.StdEncoding.DecodeString]: line ends are skipped, the length is a
    multiple of four with padding; [None] stands for its error. *)
Definition b64_val (a : ascii) : option Z :=
  let n := Z.of_N (N_of_ascii a) in
  if (65 <=? n)%Z && (n <=? 90)%Z then Some (n - 65)%Z
  else if (97 <=? n)%Z && (n <=? 122)%Z then Some (n - 71)%Z
  else if (48 <=? n)%Z && (n <=? 57)%Z then Some (n + 4)%Z
  else if (n =? 43)%Z then Some 62%Z else if (n =? 47)%Z then Some 63%Z else None.
Definition byte_char (z : Z) : ascii := ascii_of_N (Z.to_N (z mod 256)).
Fixpoint b64_strip (s : string) : string :=
  match s with
  | EmptyString => EmptyString
  | String a r => let n := N_of_ascii a in
      if (n =? 10)%N || (n =? 13)%N then b64_strip r else String a (b64_strip r)
  end.
Fixpoint b64_groups (s : string) : option string :=
  match s with
  | EmptyString => Some EmptyString
  | String a (String b (String c (String d r))) =>
      x ← b64_val a; y ← b64_val b;
      let c1 := byte_char (x * 4 + y / 16) in
      if Ascii.eqb c "=" then
        if Ascii.eqb d "=" then
          match r with EmptyString => Some (String c1 EmptyString) | _ => None end
        else None
      else
        z ← b64_val c;
        let c2 := byte_char ((y mod 16) * 16 + z / 4) in
        if Ascii.eqb d "=" then
          match r with EmptyString => Some (String c1 (String c2 EmptyString)) | _ => None end
        else
          w ← b64_val d;
          rest ← b64_groups r;
          Some (String c1 (String c2 (String (byte_char ((z mod 4) * 64 + w)) rest)))
  | _ => None
  end.
Definition DecodeBase64 (s : string) : option string := b64_groups (b64_strip s).

(** [strings.TrimRight(s, "/")]. *)
Fixpoint trim_right_slash (s : string) : string :=
  match s with
  | EmptyString => EmptyString
  | String a r =>
      match trim_right_slash r with
      | EmptyString => if Ascii.eqb a "/" then EmptyString else String a EmptyString
      | r' => String a r'
      end
  end.

(** * Lemmas *)
Lemma app_string_cons a s t : String a s +:+ t = String a (s +:+ t).
Proof. done. Qed.

Lemma map_string_app f s t : map_string f (s +:+ t) = map_string f s +:+ map_string f t.
Proof. induction s as [|a s IH]; simpl; [done|]. by rewrite IH. Qed.

Lemma lower_ascii_idem a : lower_ascii (lower_ascii a) = lower_ascii a.
Proof. destruct a as [[] [] [] [] [] [] [] []]; vm_compute; reflexivity. Qed.

Lemma ToLower_idem s : ToLower (ToLower s) = ToLower s.
Proof.
  unfold ToLower. induction s as [|a s IH]; simpl; [done|].
  by rewrite lower_ascii_idem, IH.
Qed.

Lemma ToLower_app s t : ToLower (s +:+ t) = ToLower s +:+ ToLower t.
Proof. apply map_string_app. Qed.

Lemma ToLower_length s : String.length (ToLower s) = String.length s.
Proof. unfold ToLower. induction s as [|a s IH]; simpl; congruence. Qed.

Lemma ToLower_nonempty s : s ≠ "" → ToLower s ≠ "".
Proof. by destruct s. Qed.

Lemma has_byte_app s t c : has_byte (s +:+ t) c = has_byte s c || has_byte t c.
Proof. induction s as [|a s IH]; simpl; [done|]. by rewrite IH, orb_assoc. Qed.

Lemma Cut_app s t c :
  has_byte s c = false → Cut (s +:+ String c t) c = (s, t, true).
Proof.
  induction s as [|a s IH]; simpl.
  - by rewrite Ascii.eqb_refl.
  - intros [Ha Hs]%orb_false_iff. by rewrite Ha, IH.
Qed.

Lemma app_cut_inj s1 t1 s2 t2 c :
  has_byte s1 c = false → has_byte s2 c = false →
  s1 +:+ String c t1 = s2 +:+ String c t2 → s1 = s2 ∧ t1 = t2.
Proof.
  intros H1 H2 Heq.
  pose proof (Cut_app s1 t1 c H1) as E1. pose proof (Cut_app s2 t2 c H2) as E2.
  rewrite Heq in E1. rewrite E1 in E2. by simplify_eq.
Qed.

Lemma app_string_assoc s t u : (s +:+ t) +:+ u = s +:+ (t +:+ u).
Proof. induction s as [|a s IH]; [done|]. by rewrite !app_string_cons, IH. Qed.

Lemma app_string_nil_r s : s +:+ "" = s.
Proof. induction s as [|a s IH]; [done|]. by rewrite app_string_cons, IH. Qed.

Lemma length_app_string s t :
  String.length (s +:+ t) = (String.length s + String.length t)%nat.
Proof. induction s as [|a s IH]; [done|]. rewrite app_string_cons. simpl. by rewrite IH. Qed.

Lemma substring_full s : String.substring 0 (String.length s) s = s.
Proof. induction s as [|a s IH]; simpl; [done|]. by rewrite IH. Qed.

Lemma take_string_app s t : take_string (String.length s) (s +:+ t) = s.
Proof.
  unfold take_string. induction s as [|a s IH]; [by destruct t|].
  rewrite app_string_cons. simpl. by rewrite IH.
Qed.

Lemma drop_string_app s t : drop_string (String.length s) (s +:+ t) = t.
Proof.
  unfold drop_string. rewrite length_app_string.
  replace (String.length s + String.length t - String.length s)%nat
    with (String.length t) by lia.
  induction s as [|a s IH]; [apply substring_full|].
  by rewrite app_string_cons.
Qed.

Lemma HasPrefix_app s t : HasPrefix (s +:+ t) s = true.
Proof.
  unfold HasPrefix. induction s as [|a s IH]; [by destruct t|].
  rewrite app_string_cons. simpl. destruct (ascii_dec a a); done.
Qed.

Lemma HasPrefix_spec s p : HasPrefix s p = true → ∃ t, s = p +:+ t.
Proof.
  unfold HasPrefix. revert s. induction p as [|a p IH]; intros s; simpl.
  - eauto.
  - destruct s as [|b s]; [done|]. simpl.
    destruct (ascii_dec a b) as [->|]; [|done].
    intros [t ->]%IH. by exists t.
Qed.

Lemma HasSuffix_app s t : HasSuffix (s +:+ t) t = true.
Proof.
  unfold HasSuffix. rewrite length_app_string.
  replace (String.length s + String.length t - String.length t)%nat
    with (String.length s) by lia.
  rewrite drop_string_app, String.eqb_refl, andb_true_r.
  apply Nat.leb_le. lia.
Qed.

Lemma IndexByte_app s t c :
  has_byte s c = false → IndexByte (s +:+ String c t) c = Some (String.length s).
Proof.
  induction s as [|a s IH]; simpl.
  - by rewrite Ascii.eqb_refl.
  - intros [Ha Hs]%orb_false_iff. by rewrite Ha, IH.
Qed.

Lemma IndexByte_None s c : IndexByte s c = None ↔ has_byte s c = false.
Proof.
  induction s as [|a s IH]; simpl; [done|].
  destruct (Ascii.eqb a c); simpl; [done|].
  rewrite <-IH. destruct (IndexByte s c); done.
Qed.

Lemma Itoa_inj n m : Itoa n = Itoa m → n = m.
Proof. apply (inj pretty). Qed.

Create Rewrite HintDb go_strings.
#[export] Hint Rewrite ToLower_idem ToLower_app app_string_nil_r : go_strings.

(** * Lower-case strings *)
Definition lowered (s : string) : Prop := ToLower s = s.

Lemma lowered_ToLower s : lowered (ToLower s).
Proof. apply ToLower_idem. Qed.

Lemma lowered_cons a s : lowered (String a s) ↔ lower_ascii a = a ∧ lowered s.
Proof. unfold lowered, ToLower. simpl. split; [by intros [= -> ->]|intros [-> ->]; done]. Qed.

Lemma lowered_app s t : lowered (s +:+ t) ↔ lowered s ∧ lowered t.
Proof.
  induction s as [|a s IH]; [simpl; split; [done|tauto]|].
  rewrite app_string_cons, !lowered_cons, IH. tauto.
Qed.

Lemma lowered_substring n m s : lowered s → lowered (String.substring n m s).
Proof.
  revert n m. induction s as [|a s IH]; intros n m Hl; [by destruct n, m|].
  apply lowered_cons in Hl as [Ha Hl].
  destruct n as [|n]; [|by apply IH]. destruct m as [|m]; [done|]. simpl.
  apply lowered_cons. split; [done|]. by apply IH.
Qed.

Lemma lowered_SplitHostPort s h p : lowered s → SplitHostPort s = Some (h, p) → lowered h.
Proof.
  intros Hl. unfold SplitHostPort. intros Hs.
  repeat (case_match; simplify_eq/=); by apply lowered_substring.
Qed.

(** * Strings of characters with a property *)
Fixpoint all_chars (p : ascii → bool) (s : string) : bool :=
  match s with EmptyString => true | String a r => p a && all_chars p r end.

Lemma all_chars_impl (p q : ascii → bool) s :
  (∀ a, p a = true → q a = true) → all_chars p s = true → all_chars q s = true.
Proof.
  intros Hpq. induction s as [|a s IH]; [done|]. simpl. intros H. bool_simpl.
  rewrite Hpq, IH by done. done.
Qed.

Lemma all_chars_app p s t : all_chars p (s +:+ t) = all_chars p s && all_chars p t.
Proof. induction s as [|a s IH]; [done|]. rewrite app_string_cons. simpl. by rewrite IH, andb_assoc. Qed.

Definition no_space (a : ascii) : bool := negb (is_space a).

Lemma trim_right_id s : all_chars no_space s = true → trim_right s = s.
Proof.
  induction s as [|a s IH]; [done|]. simpl. unfold no_space at 1. intros H. bool_simpl.
  rewrite IH by done. destruct s; [|done]. by match goal with Hs : is_space a = false |- _ => rewrite Hs end.
Qed.

Lemma TrimSpace_id s : all_chars no_space s = true → TrimSpace s = s.
Proof.
  intros Hs. unfold TrimSpace.
  assert (trim_left s = s) as ->; [|by apply trim_right_id].
  destruct s as [|a s]; [done|]. simpl in *. unfold no_space at 1 in Hs. bool_simpl.
  by match goal with Ha : is_space a = false |- _ => rewrite Ha end.
Qed.

(** * Decimal numbers: [Atoi] inverts [Itoa] *)
Definition is_digit (a : ascii) : bool := match digit_val a with Some _ => true | None => false end.

Lemma digit_val_char x : (x < 10)%N → digit_val (pretty_N_char x) = Some (Z.of_N x).
Proof.
  intros Hx. assert (x = 0 ∨ x = 1 ∨ x = 2 ∨ x = 3 ∨ x = 4 ∨ x = 5 ∨ x = 6 ∨ x = 7 ∨ x = 8 ∨ x = 9)%N by lia.
  naive_solver.
Qed.

Lemma parse_digits_pretty x s : parse_digits 0 (pretty_N_go x s) = parse_digits (Z.of_N x) s.
Proof.
  revert s. induction (N.lt_wf_0 x) as [x _ IH]; intros s.
  destruct (decide (x = 0%N)) as [->|Hx]; [done|].
  rewrite pretty_N_go_step by lia. rewrite IH by (apply N.div_lt; lia). simpl.
  rewrite digit_val_char by (apply N.mod_lt; lia). simpl. f_equal.
  pose proof (N.div_mod x 10 ltac:(lia)). lia.
Qed.

Lemma pretty_N_digits x s : all_chars is_digit s = true → all_chars is_digit (pretty_N_go x s) = true.
Proof.
  revert s. induction (N.lt_wf_0 x) as [x _ IH]; intros s Hs.
  destruct (decide (x = 0%N)) as [->|Hx]; [done|].
  rewrite pretty_N_go_step by lia. apply IH; [apply N.div_lt; lia|]. simpl. unfold is_digit at 1.
  by rewrite digit_val_char by (apply N.mod_lt; lia).
Qed.

Lemma Itoa_nonneg n : (0 <= n)%Z →
  Itoa n ≠ "" ∧ all_chars is_digit (Itoa n) = true ∧ parse_digits 0 (Itoa n) = Some n.
Proof.
  intros Hn. destruct n as [|p|p]; [done| |lia].
  change (Itoa (Z.pos p)) with (pretty_N_go (N.pos p) "").
  split_and!; [|by apply pretty_N_digits|by rewrite parse_digits_pretty].
  intros Heq. pose proof (parse_digits_pretty (N.pos p) "") as Hp. rewrite Heq in Hp. done.
Qed.

Lemma digits_no_byte c s : is_digit c = false → all_chars is_digit s = true → has_byte s c = false.
Proof.
  intros Hc. induction s as [|a s IH]; [done|]. simpl. intros H. bool_simpl.
  rewrite IH by done. destruct (Ascii.eqb_spec a c) as [->|]; [congruence|done].
Qed.

Lemma has_byte_prefix s c : has_byte s c = false → HasPrefix s (String c "") = false.
Proof.
  unfold HasPrefix. destruct s as [|a s]; simpl; [done|]. intros [Ha _]%orb_false_iff.
  destruct (ascii_dec c a) as [->|]; [|done]. by rewrite Ascii.eqb_refl in Ha.
Qed.

Lemma Atoi_Itoa n : (0 <= n < 2 ^ 63)%Z → Atoi (Itoa n) = Some n.
Proof.
  intros Hn. destruct (Itoa_nonneg n) as (He & Hd & Hp); [lia|]. unfold Atoi, parse_uint.
  rewrite !has_byte_prefix by (by apply digits_no_byte). apply String.eqb_neq in He as ->. rewrite Hp. simpl.
  destruct (Z.leb_spec (- 2 ^ 63) n), (Z.ltb_spec n (2 ^ 63)); simpl; (done || lia).
Qed.

(** * Last separator *)
Lemma LastIndexByte_app s t c :
  has_byte t c = false → LastIndexByte (s +:+ String c t) c = Some (String.length s).
Proof.
  intros Ht. induction s as [|a s IH].
  - simpl. assert (LastIndexByte t c = None) as ->; [|by rewrite Ascii.eqb_refl].
    induction t as [|b t IHt]; [done|]. simpl in *. apply orb_false_iff in Ht as [Hb Ht].
    by rewrite IHt, Hb.
  - rewrite app_string_cons. simpl. by rewrite IH.
Qed.

Lemma LastIndexByte_split s c i :
  LastIndexByte s c = Some i →
  s = take_string i s +:+ String c (drop_string (i + 1) s) ∧ String.length (take_string i s) = i ∧
  has_byte (drop_string (i + 1) s) c = false.
Proof.
  revert i. induction s as [|a s IH]; intros i; [done|]. simpl.
  destruct (LastIndexByte s c) as [j|] eqn:Hj.
  - intros [= <-]. destruct (IH j eq_refl) as (Hs & Hl & Hb).
    unfold take_string, drop_string in *. simpl. rewrite Hl. split_and!; [|done|done].
    rewrite app_string_cons. by f_equal.
  - destruct (Ascii.eqb_spec a c) as [->|]; [|done]. intros [= <-].
    unfold take_string, drop_string. simpl. rewrite Nat.sub_0_r, substring_full. split_and!; [by destruct s|done|].
    clear IH. induction s as [|b s IHs]; [done|]. simpl in *.
    destruct (LastIndexByte s c) eqn:Hl; [done|]. destruct (Ascii.eqb b c); [done|]. by apply IHs.
Qed.

Lemma IndexByte_split s c i :
  IndexByte s c = Some i →
  ∃ a b, s = a +:+ String c b ∧ has_byte a c = false ∧ i = String.length a.
Proof.
  revert i. induction s as [|x s IH]; intros i; simpl; [done|].
  destruct (Ascii.eqb_spec x c) as [->|Hne].
  - intros [= <-]. by exists "", s.
  - destruct (IndexByte s c) as [j|]; simpl; [|done]. intros [= <-].
    destruct (IH j eq_refl) as (a & b & -> & Ha & ->). exists (String x a), b. split; [done|]. split; [|done].
    simpl. rewrite Ha. destruct (Ascii.eqb_spec x c); done.
Qed.

(** * Splitting *)
Lemma Split_app s t c : has_byte s c = false → Split (s +:+ String c t) c = s :: Split t c.
Proof.
  induction s as [|a s IH]; simpl; [by rewrite Ascii.eqb_refl|].
  intros [Ha Hs]%orb_false_iff. by rewrite Ha, (IH Hs).
Qed.

Lemma Split_whole s c : has_byte s c = false → Split s c = [s].
Proof.
  induction s as [|a s IH]; simpl; [done|].
  intros [Ha Hs]%orb_false_iff. by rewrite Ha, (IH Hs).
Qed.

Lemma Split_ne s c : Split s c ≠ [].
Proof. destruct s as [|a s]; simpl; [done|]. destruct (Ascii.eqb a c); [done|]. by destruct (Split s c). Qed.

Lemma Join_Split s c : Join (String c "") (Split s c) = s.
Proof.
  induction s as [|a s IH]; [done|]. simpl. pose proof (Split_ne s c) as Hne.
  destruct (Ascii.eqb_spec a c) as [->|Ha].
  - destruct (Split s c) as [|x l]; [done|]. trans (String c (Join (String c "") (x :: l))); [done|by rewrite IH].
  - destruct (Split s c) as [|x l]; [done|]. trans (String a (Join (String c "") (x :: l))); [by destruct l|by rewrite IH].
Qed.

(** * Hosts with a port *)
Definition plain_part (s : string) : Prop :=
  has_byte s ":" = false ∧ has_byte s "[" = false ∧ has_byte s "]" = false.

Lemma SplitHostPort_plain h p :
  plain_part h → plain_part p → SplitHostPort (h +:+ String ":" p) = Some (h, p).
Proof.
  intros (Hc & Hl & Hr) (Pc & Pl & Pr). unfold SplitHostPort.
  assert (E : ∀ c, c ≠ ":"%char → has_byte h c = false → has_byte p c = false →
                   has_byte (h +:+ String ":" p) c = false).
  { intros c Hne Hh Hp. rewrite has_byte_app, Hh. cbn [has_byte orb]. apply orb_false_iff. split; [by apply Ascii.eqb_neq|done]. }
  rewrite LastIndexByte_app, has_byte_prefix, take_string_app, Hc, !E; [|done..|by apply E|done]. do 2 f_equal.
  replace (h +:+ String ":" p) with ((h +:+ ":") +:+ p) by (by rewrite app_string_assoc).
  replace (String.length h + 1)%nat with (String.length (h +:+ ":")); [apply drop_string_app|].
  by rewrite length_app_string.
Qed.

Lemma SplitHostPort_none h : has_byte h ":" = false → SplitHostPort h = None.
Proof.
  intros Hc. unfold SplitHostPort. destruct (LastIndexByte h ":") eqn:E; [|done].
  apply LastIndexByte_split in E as (E & _). rewrite E, has_byte_app in Hc. apply orb_false_iff in Hc as [_ Hc]. done.
Qed.

Lemma app_string_inj_l (s s' t t' : string) :
  String.length s = String.length s' → s +:+ t = s' +:+ t' → s = s' ∧ t = t'.
Proof.
  revert s'. induction s as [|a s IH]; intros [|b s'] Hl; try done. rewrite !app_string_cons. intros [= -> E].
  injection Hl as Hl. by destruct (IH s' Hl E) as [-> ->].
Qed.

(** A host it splits off stood before a colon, bare or in brackets. *)
Lemma SplitHostPort_inv hp h p :
  SplitHostPort hp = Some (h, p) → hp = h +:+ String ":" p ∨ hp = "[" +:+ h +:+ "]:" +:+ p.
Proof.
  unfold SplitHostPort. destruct (LastIndexByte hp ":") as [i|] eqn:Hi; [|done].
  apply LastIndexByte_split in Hi as (Hs & Hl & _). destruct (HasPrefix hp "[") eqn:Hb.
  - destruct (IndexByte hp "]") as [e|] eqn:He; [|done]. destruct (Nat.eqb_spec (e + 1) i) as [Hei|]; [|done].
    destruct (has_byte _ "["); [done|]. destruct (has_byte _ "]"); [done|]. intros [= <- <-]. right.
    apply IndexByte_split in He as (a & b & E & _ & ->). apply HasPrefix_spec in Hb as [r Er].
    destruct a as [|x a]; [rewrite E in Er; done|]. rewrite app_string_cons in E.
    assert (x = "["%char) as -> by (rewrite Er in E; by injection E).
    assert (Et : hp = (String "[" a +:+ "]") +:+ b) by (by rewrite E, app_string_assoc).
    destruct (app_string_inj_l (String "[" a +:+ "]") (take_string i hp) b (String ":" (drop_string (i + 1) hp))) as [E1 E2].
    { rewrite Hl, length_app_string, <-Hei. done. }
    { congruence. }
    assert (Hsub : String.substring 1 (String.length (String "[" a) - 1) hp = a).
    { rewrite E. cbn. rewrite Nat.sub_0_r. exact (take_string_app a (String "]" b)). }
    rewrite Hsub. rewrite Et at 1. rewrite E2 at 1. by rewrite !app_string_assoc.
  - destruct (has_byte _ ":"); [done|]. destruct (has_byte hp "["); [done|]. destruct (has_byte hp "]"); [done|].
    intros [= <- <-]. by left.
Qed.
