(* ===== verification/GoText.v ===== *)
(** More of Go's text functions, for the components that print to a terminal or
    read from one: [strings.Fields], [Index], [Repeat] and [TrimRight], the runes
    of a UTF-8 string, and the [%3d] and [%.1f] verbs of [fmt].

    White space is ASCII, as in [GoStrings]. *)
From S2P Require Import Prelude GoStrings.
From Stdlib Require Import Ascii.

(** * Words *)

(** [fields_from cur s]: the words of [s], [cur] being the word read so far. *)
Fixpoint fields_from (cur s : string) : list string :=
  match s with
  | EmptyString => if String.eqb cur "" then [] else [cur]
  | String a r =>
      if is_space a then (if String.eqb cur "" then fields_from "" r else cur :: fields_from "" r)
      else fields_from (cur +:+ String a "") r
  end.
Definition Fields (s : string) : list string := fields_from "" s.

(** [strings.Index], with [None] for -1. *)
Fixpoint Index (s sub : string) : option nat :=
  if String.prefix sub s then Some 0%nat
  else match s with EmptyString => None | String _ r => S <$> Index r sub end.

Fixpoint Repeat (s : string) (n : nat) : string :=
  match n with O => "" | S n => s +:+ Repeat s n end.

(** [strings.TrimRight(s, c)] for a one-byte cutset. *)
Fixpoint TrimRight (s : string) (c : ascii) : string :=
  match s with
  | EmptyString => EmptyString
  | String a r =>
      match TrimRight r c with
      | EmptyString => if Ascii.eqb a c then EmptyString else String a EmptyString
      | r' => String a r'
      end
  end.

Definition newline : ascii := "010".
Definition nl : string := String newline "".
(** [strings.Split(s, nl)] and [strings.Join(l, nl)]. *)
Definition lines_of (s : string) : list string := Split s newline.
Definition unlines (l : list string) : string := Join nl l.

(** [strings.ReplaceAll] for a nonempty pattern; [skip] bytes of a match are left. *)
Fixpoint replace_from (skip : nat) (s old new : string) : string :=
  match s with
  | EmptyString => EmptyString
  | String a r =>
      match skip with
      | S k => replace_from k r old new
      | O => if String.prefix old s then new +:+ replace_from (String.length old - 1) r old new
             else String a (replace_from 0 r old new)
      end
  end.
Definition ReplaceAll (s old new : string) : string := replace_from 0 s old new.

(** * Runes *)
Definition byte_of (a : ascii) : N := N_of_ascii a.
Definition in_range (lo hi : N) (a : ascii) : bool := (lo <=? byte_of a)%N && (byte_of a <=? hi)%N.
(** What [string(r)] yields for the rune that stands for an invalid byte. *)
Definition RuneError : string := "�".

(** The second byte a three- or four-byte encoding may have after [a]. *)
Definition second3 (a b : ascii) : bool :=
  if (byte_of a =? 224)%N then in_range 160 191 b
  else if (byte_of a =? 237)%N then in_range 128 159 b
  else in_range 225 239 a && in_range 128 191 b.
Definition second4 (a b : ascii) : bool :=
  if (byte_of a =? 240)%N then in_range 144 191 b
  else if (byte_of a =? 244)%N then in_range 128 143 b
  else in_range 241 243 a && in_range 128 191 b.
Definition cont (a : ascii) : bool := in_range 128 191 a.

(** [[]rune(s)]: each rune by the text it is written back as. *)
Fixpoint runes (s : string) : list string :=
  match s with
  | EmptyString => []
  | String a s1 =>
      if (byte_of a <? 128)%N then String a "" :: runes s1
      else match s1 with
      | EmptyString => [RuneError]
      | String b s2 =>
          if in_range 194 223 a && cont b then String a (String b "") :: runes s2
          else match s2 with
          | EmptyString => RuneError :: runes s1
          | String c s3 =>
              if second3 a b && cont c then String a (String b (String c "")) :: runes s3
              else match s3 with
              | EmptyString => RuneError :: runes s1
              | String d s4 =>
                  if second4 a b && cont c && cont d
                  then String a (String b (String c (String d ""))) :: runes s4
                  else RuneError :: runes s1
              end
          end
      end
  end.
(** [string(r)] for a slice of runes. *)
Definition of_runes (l : list string) : string := Join "" l.

(** * Numbers *)

(** The value [strconv.Atoi] returns, also beside an error: 0 when the text is no
    number, the nearest int64 when it is out of range (the digits that follow an
    overflow are not read). *)
Fixpoint uint_value (acc : Z) (s : string) : option Z :=
  match s with
  | EmptyString => Some acc
  | String a r =>
      d ← digit_val a;
      if (2 ^ 64 <=? acc * 10 + d)%Z then Some (2 ^ 64 - 1)%Z else uint_value (acc * 10 + d)%Z r
  end.
Definition atoi_value (s : string) : Z :=
  let neg := HasPrefix s "-" in
  let digits := if neg || HasPrefix s "+" then drop_string 1 s else s in
  if String.eqb digits "" then 0%Z
  else match uint_value 0 digits with
  | None => 0%Z
  | Some n => if neg then Z.max (- 2 ^ 63) (- n) else Z.min (2 ^ 63 - 1) n
  end.

(** * Formatting *)

(** [%3d] *)
Definition fmt_3d (n : Z) : string :=
  let s := Itoa n in Repeat " " (3 - String.length s) +:+ s.

(** The integer nearest to [a / b], the even one when two are. *)
Definition round_half_even (a b : Z) : Z :=
  let q := (a / b)%Z in
  let r := (a mod b)%Z in
  if (2 * r <? b)%Z then q else if (b <? 2 * r)%Z then (q + 1)%Z
  else if Z.even q then q else (q + 1)%Z.

(** [float64(n)] for a nonnegative integer: 53 significant bits. *)
Definition float64_of_int (n : Z) : Z :=
  if (n <? 2 ^ 53)%Z then n
  else let e := (Z.log2 n - 52)%Z in (round_half_even n (2 ^ e) * 2 ^ e)%Z.

(** [%.1f] of [f / div], a quotient that a float64 holds exactly. *)
Definition fmt_f1 (f div : Z) : string :=
  let q := round_half_even (10 * f) div in
  Itoa (q / 10) +:+ "." +:+ Itoa (q mod 10).

(** * Lemmas *)
#[local] Arguments is_space : simpl never.
#[local] Arguments String.eqb : simpl never.

Lemma fields_from_word cur s :
  all_chars no_space s = true → fields_from cur s = if String.eqb (cur +:+ s) "" then [] else [cur +:+ s].
Proof.
  revert cur; induction s as [|a s IH]; intros cur Hs; cbn.
  - by rewrite app_string_nil_r.
  - cbn in Hs. apply andb_prop in Hs as [Ha Hs]. unfold no_space in Ha.
    destruct (is_space a); [done|].
    rewrite (IH _ Hs), app_string_assoc. done.
Qed.

Lemma fields_from_space cur w a s :
  all_chars no_space w = true → is_space a = true →
  fields_from cur (w +:+ String a s) =
    if String.eqb (cur +:+ w) "" then fields_from "" s else (cur +:+ w) :: fields_from "" s.
Proof.
  revert cur; induction w as [|b w IH]; intros cur Hw Ha.
  - change ("" +:+ String a s) with (String a s). cbn. rewrite Ha, app_string_nil_r. done.
  - cbn in Hw. apply andb_prop in Hw as [Hb Hw]. unfold no_space in Hb.
    rewrite app_string_cons. cbn. destruct (is_space b); [done|]. rewrite (IH _ Hw Ha), app_string_assoc. done.
Qed.

Definition word (w : string) : Prop := w ≠ "" ∧ all_chars no_space w = true.

(** Words joined by a space are read back. *)
Lemma Fields_Join ws : Forall word ws → Fields (Join " " ws) = ws.
Proof.
  unfold Fields. induction 1 as [|w ws [Hne Hw] Hws IH]; [done|].
  destruct ws as [|w' ws].
  - cbn. rewrite fields_from_word by done. change ("" +:+ w) with w. by apply String.eqb_neq in Hne as ->.
  - change (Join " " (w :: w' :: ws)) with (w +:+ String " " (Join " " (w' :: ws))).
    rewrite fields_from_space by done. apply String.eqb_neq in Hne.
    change ("" +:+ w) with w. by rewrite Hne, IH.
Qed.

Lemma fields_from_nonempty cur s : cur ≠ "" → fields_from cur s ≠ [].
Proof.
  revert cur; induction s as [|a s IH]; intros cur Hc; cbn.
  - by apply String.eqb_neq in Hc as ->.
  - destruct (is_space a).
    + by apply String.eqb_neq in Hc as ->.
    + apply IH. by destruct cur.
Qed.

Lemma Fields_nil s : Fields s = [] ↔ all_chars is_space s = true.
Proof.
  unfold Fields. induction s as [|a s IH]; [done|]. cbn [fields_from all_chars].
  destruct (is_space a); cbn [andb]; [done|].
  split; [|done]. intros H. by apply (fields_from_nonempty ("" +:+ String a "")) in H.
Qed.

Lemma fields_from_words cur s :
  all_chars no_space cur = true → Forall word (fields_from cur s).
Proof.
  revert cur; induction s as [|a s IH]; intros cur Hc; cbn.
  - destruct (String.eqb cur "") eqn:E; constructor; [|done]. split; [by apply String.eqb_neq|done].
  - destruct (is_space a) eqn:Ha.
    + destruct (String.eqb cur "") eqn:E; [by apply IH|].
      constructor; [split; [by apply String.eqb_neq|done]|by apply IH].
    + apply IH. rewrite all_chars_app, Hc. cbn. unfold no_space. by rewrite Ha.
Qed.
Lemma Fields_words s : Forall word (Fields s).
Proof. by apply fields_from_words. Qed.

Lemma round_half_even_bounds a b : (0 <= a)%Z → (0 < b)%Z →
  (0 <= round_half_even a b <= a / b + 1)%Z.
Proof.
  intros Ha Hb. unfold round_half_even. pose proof (Z.div_pos a b Ha Hb).
  repeat case_match; lia.
Qed.

Lemma Repeat_length s n : String.length (Repeat s n) = (n * String.length s)%nat.
Proof. induction n as [|n IH]; [done|]. cbn [Repeat]. rewrite length_app_string, IH. lia. Qed.

Lemma substring_0 s : String.substring 0 0 s = "".
Proof. by destruct s. Qed.
Lemma take_drop_string n s : (n <= String.length s)%nat → take_string n s +:+ drop_string n s = s.
Proof.
  unfold take_string, drop_string. revert n; induction s as [|a s IH]; intros [|n] Hn; try done.
  - cbn [String.substring String.length Nat.sub]. rewrite substring_full. done.
  - cbn in Hn. cbn [String.substring String.length Nat.sub]. rewrite app_string_cons, IH by lia. done.
Qed.
Lemma HasSuffix_spec s t : HasSuffix s t = true → ∃ p, s = p +:+ t.
Proof.
  unfold HasSuffix. intros [Hl He]%andb_prop. apply Nat.leb_le in Hl. apply String.eqb_eq in He.
  exists (take_string (String.length s - String.length t) s). rewrite <- He at 2. symmetry. apply take_drop_string. lia.
Qed.
Lemma trim_right_end s p : trim_right s ≠ p +:+ " ".
Proof.
  revert p; induction s as [|a s IH]; intros p; cbn; [by destruct p|].
  destruct (trim_right s) as [|b r] eqn:E.
  - destruct (is_space a) eqn:Ha; [by destruct p|]. intros He. destruct p as [|c p]; [by injection He as ->|].
    rewrite app_string_cons in He. injection He as _ He. by destruct p.
  - intros He. destruct p as [|c p]; [done|]. rewrite app_string_cons in He. injection He as _ He. by apply (IH p).
Qed.
(** Trimmed text does not end in a space. *)
Lemma TrimSpace_end s : HasSuffix (TrimSpace s) " " = false.
Proof.
  destruct (HasSuffix (TrimSpace s) " ") eqn:E; [|done]. apply HasSuffix_spec in E as [p Hp].
  by apply trim_right_end in Hp.
Qed.

Lemma trim_right_idem s : trim_right (trim_right s) = trim_right s.
Proof.
  induction s as [|a s IH]; [done|]. cbn. destruct (trim_right s) as [|b r] eqn:E.
  - destruct (is_space a) eqn:Ea; [done|]. cbn. by rewrite Ea.
  - cbn in IH |- *. by rewrite IH.
Qed.
Lemma TrimSpace_idem s : TrimSpace (TrimSpace s) = TrimSpace s.
Proof.
  unfold TrimSpace. assert (Hl : trim_left (trim_right (trim_left s)) = trim_right (trim_left s)); [|by rewrite Hl, trim_right_idem].
  induction s as [|a s IH]; [done|]. cbn. destruct (is_space a) eqn:Ea; [done|]. cbn.
  destruct (trim_right s); cbn; rewrite ?Ea; cbn; by rewrite ?Ea.
Qed.
