(* ===== verification/Wire.v ===== *)
(** The wire: control messages, the length-prefixed frames of [pkg/proto]
    and the datagram frames of the UDP tunnels.

    [proto.Marshal] and [proto.Unmarshal] (google.golang.org/protobuf) are
    parameters of the codec. *)
From S2P Require Import Prelude.
From Stdlib Require Import Strings.Byte.

Open Scope Z_scope.

(** * Messages (proto/rift.proto) *)
Inductive TunnelType := HTTP | HTTPS | TLS | TCP | UDP.
#[export] Instance TunnelType_eq_dec : EqDecision TunnelType.
Proof. solve_decision. Defined.

Record ErrorMsg := { em_code : string; em_message : string }.

Record Hello := {
  h_protocol_version : string;
  h_agent_version : string;
  h_os : string;
  h_arch : string;
  h_api_key : string;
  h_region_hint : string;
  h_features : list string;
}.

Record AuthResp := {
  ar_ok : bool;
  ar_account_id : string;
  ar_plan : string;
  ar_session_id : string;
  ar_error : option ErrorMsg;
}.

Record BindTunnel := {
  b_client_tunnel_id : string;
  b_type : TunnelType;
  b_subdomain : string;
  b_custom_domain : string;
  b_remote_port : Z; (* uint32 *)
  b_options : gmap string string;
}.

Record BindResp := {
  br_client_tunnel_id : string;
  br_ok : bool;
  br_public_url : string;
  br_assigned_host : string;
  br_assigned_port : Z; (* uint32 *)
  br_error : option ErrorMsg;
}.

Record StreamInit := {
  si_client_tunnel_id : string;
  si_remote_addr : string;
  si_proto : string;
  si_meta : gmap string string;
}.

(** [Envelope]'s oneof. *)
Inductive Envelope :=
| EnvHello (h : Hello)
| EnvAuthResp (r : AuthResp)
| EnvBind (b : BindTunnel)
| EnvBindResp (r : BindResp)
| EnvUnbind (client_tunnel_id : string)
| EnvPing (ts_unix_ms : Z)
| EnvPong (ts_unix_ms : Z)
| EnvError (e : ErrorMsg)
| EnvShutdown (reason : string) (drain_deadline_unix_ms : Z).

(** * Error codes (pkg/proto/errors.go) *)
Definition CodeAuthRequired := "ERR_AUTH_REQUIRED".
Definition CodeAuthInvalid := "ERR_AUTH_INVALID".
Definition CodeVersionUnsupported := "ERR_VERSION_UNSUPPORTED".
Definition CodeQuotaTunnels := "ERR_QUOTA_TUNNELS".
Definition CodeQuotaBandwidth := "ERR_QUOTA_BANDWIDTH".
Definition CodeQuotaRequests := "ERR_QUOTA_REQUESTS".
Definition CodeSubdomainTaken := "ERR_SUBDOMAIN_TAKEN".
Definition CodeSubdomainForbidden := "ERR_SUBDOMAIN_FORBIDDEN".
Definition CodeDomainUnverified := "ERR_DOMAIN_UNVERIFIED".
Definition CodePlanForbids := "ERR_PLAN_FORBIDS".
Definition CodeProtoUnsupported := "ERR_PROTO_UNSUPPORTED".
Definition CodePortUnavailable := "ERR_PORT_UNAVAILABLE".
Definition CodeRateLimited := "ERR_RATE_LIMITED".
Definition CodeInternal := "ERR_INTERNAL".
Definition CodeUpstreamUnreachable := "ERR_UPSTREAM_UNREACHABLE".

Definition NewError (code msg : string) : ErrorMsg :=
  {| em_code := code; em_message := msg |}.

(** * Bytes and big-endian integers (encoding/binary) *)
Definition byte_of (z : Z) : byte :=
  default x00 (Byte.of_N (Z.to_N (z mod 256))).
Definition byte_val (b : byte) : Z := Z.of_N (Byte.to_N b).

Definition PutUint32 (v : Z) : list byte :=
  [byte_of (Z.shiftr v 24); byte_of (Z.shiftr v 16); byte_of (Z.shiftr v 8); byte_of v].
Definition Uint32 (b : list byte) : Z :=
  match b with
  | [b0; b1; b2; b3] =>
      Z.lor (byte_val b3)
        (Z.lor (Z.shiftl (byte_val b2) 8)
           (Z.lor (Z.shiftl (byte_val b1) 16) (Z.shiftl (byte_val b0) 24)))
  | _ => 0
  end.

Definition PutUint16 (v : Z) : list byte := [byte_of (Z.shiftr v 8); byte_of v].
Definition Uint16 (b : list byte) : Z :=
  match b with
  | [b0; b1] => Z.lor (byte_val b1) (Z.shiftl (byte_val b0) 8)
  | _ => 0
  end.

(** * Byte streams
    A reader is the list of bytes that are still to come; a writer the bytes
    it has accepted and the number it will still accept before its connection
    breaks ([None]: it does not break). *)
Inductive IOErr := EOF | ErrUnexpectedEOF | ErrClosed | ErrFrameTooLarge | ErrMarshal | ErrUnmarshal.

Definition ReadFull (n : nat) : M (list byte) IOErr (list byte) := λ s,
  if decide (n ≤ length s)%nat then (Ok (take n s), drop n s)
  else (Err (if decide (s = []) then EOF else ErrUnexpectedEOF), []).

Record Writer := { w_out : list byte; w_room : option nat }.

Definition Write (p : list byte) : M Writer IOErr unit := λ w,
  match w_room w with
  | None => (Ok tt, {| w_out := w_out w ++ p; w_room := None |})
  | Some n =>
      if decide (length p ≤ n)%nat
      then (Ok tt, {| w_out := w_out w ++ p; w_room := Some (n - length p)%nat |})
      else (Err ErrClosed, {| w_out := w_out w ++ take n p; w_room := Some 0%nat |})
  end.

(** * The codec (pkg/proto/codec.go) *)
Definition MaxFrameSize : Z := 1048576.

Section codec.
  Context {Msg : Type}.
  Variable Marshal : Msg → option (list byte).
  Variable Unmarshal : list byte → option Msg.

Definition writeFramed (m : Msg) : M Writer IOErr unit :=
  match Marshal m with
  | None => throw ErrMarshal
  | Some b =>
      if (Z.of_nat (length b) >? MaxFrameSize) then throw ErrFrameTooLarge
      else
        _ ← Write (PutUint32 (Z.of_nat (length b)));
        _ ← Write b;
        mret tt
  end.

Definition readFramed : M (list byte) IOErr Msg :=
  hdr ← ReadFull 4;
  let n := Uint32 hdr in
  if (n >? MaxFrameSize) then throw ErrFrameTooLarge
  else
    buf ← ReadFull (Z.to_nat n);
    match Unmarshal buf with
    | None => throw ErrUnmarshal
    | Some m => mret m
    end.
End codec.

(** [WriteMsg]/[ReadMsg] and [WriteStreamInit]/[ReadStreamInit] are the codec
    at the two message types that travel in frames. *)
Definition WriteMsg (Marshal : Envelope → option (list byte)) := writeFramed Marshal.
Definition ReadMsg (Unmarshal : list byte → option Envelope) := readFramed Unmarshal.
Definition WriteStreamInit (Marshal : StreamInit → option (list byte)) := writeFramed Marshal.
Definition ReadStreamInit (Unmarshal : list byte → option StreamInit) := readFramed Unmarshal.

(** A sequence of frames on one stream. *)
Fixpoint write_all {Msg} (Marshal : Msg → option (list byte)) (ms : list Msg)
    : M Writer IOErr unit :=
  match ms with
  | [] => mret tt
  | m :: ms => _ ← writeFramed Marshal m; write_all Marshal ms
  end.
Fixpoint read_n {Msg} (Unmarshal : list byte → option Msg) (n : nat)
    : M (list byte) IOErr (list Msg) :=
  match n with
  | O => mret []
  | S n =>
      m ← readFramed Unmarshal;
      ms ← read_n Unmarshal n;
      mret (m :: ms)
  end.

(** * Datagram frames
    The edge ([writeUDPFrame]) and the agent (the local-to-stream loop of
    [forwardUDP]) write a two-byte length and then the payload; [udpReadBack]
    and the agent's stream-to-local loop read them until the stream ends. *)
Definition writeUDPFrame (payload : list byte) : M Writer IOErr unit :=
  _ ← Write (PutUint16 (Z.of_nat (length payload) mod 65536));
  Write payload.

Definition readUDPFrame : M (list byte) IOErr (list byte) :=
  hdr ← ReadFull 2;
  ReadFull (Z.to_nat (Uint16 hdr)).

(** The reading loop delivers datagrams until the stream ends; the datagrams
    delivered and the error that ended it.  Each turn reads at least the two
    header bytes, so the stream's length bounds the number of turns. *)
Fixpoint read_loop (fuel : nat) (s : list byte) : list (list byte) * option IOErr :=
  match fuel with
  | O => ([], None)
  | S fuel =>
      match readUDPFrame s with
      | (Err e, _) => ([], Some e)
      | (Ok p, s') => let '(ps, e) := read_loop fuel s' in (p :: ps, e)
      end
  end.
Definition udp_read_loop (s : list byte) := read_loop (S (length s)) s.

Fixpoint write_datagrams (ps : list (list byte)) : M Writer IOErr unit :=
  match ps with
  | [] => mret tt
  | p :: ps => _ ← writeUDPFrame p; write_datagrams ps
  end.

(** * Byte arithmetic *)
Lemma byte_val_range b : 0 <= byte_val b < 256.
Proof. unfold byte_val. pose proof (Byte.to_N_bounded b). lia. Qed.

Lemma byte_val_of z : byte_val (byte_of z) = z mod 256.
Proof.
  unfold byte_val, byte_of.
  pose proof (Z.mod_pos_bound z 256 ltac:(lia)) as Hb.
  destruct (Byte.of_N (Z.to_N (z mod 256))) as [b|] eqn:Hof; simpl.
  - apply Byte.to_of_N in Hof. rewrite Hof. lia.
  - apply Byte.of_N_None_iff in Hof. lia.
Qed.

Lemma lor_low a b k : 0 <= k → 0 <= a < 2 ^ k → Z.lor a (Z.shiftl b k) = a + b * 2 ^ k.
Proof.
  intros Hk Ha. rewrite Z.shiftl_mul_pow2 by lia.
  rewrite <-Z.add_nocarry_lor; [done|].
  apply Z.bits_inj'. intros n Hn. rewrite Z.land_spec, Z.bits_0.
  destruct (decide (n < k)).
  - rewrite Z.mul_pow2_bits_low by lia. apply andb_false_r.
  - destruct (decide (a = 0)) as [->|]; [by rewrite Z.bits_0|].
    rewrite (Z.bits_above_log2 a n); [done|lia|].
    apply Z.log2_lt_pow2; [lia|]. pose proof (Z.pow_le_mono_r 2 k n). lia.
Qed.

Lemma Uint16_Put v : 0 <= v < 2 ^ 16 → Uint16 (PutUint16 v) = v.
Proof.
  intros Hv. unfold Uint16, PutUint16.
  rewrite !byte_val_of, lor_low, Z.shiftr_div_pow2 by (pose proof (Z.mod_pos_bound v 256); lia).
  change (2 ^ 8) with 256. change (2 ^ 16) with 65536 in Hv.
  pose proof (Z.div_mod v 256). rewrite (Z.mod_small (v / 256)); [lia|].
  split; [apply Z.div_pos; lia|apply Z.div_lt_upper_bound; lia].
Qed.

Lemma Uint32_Put v : 0 <= v < 2 ^ 32 → Uint32 (PutUint32 v) = v.
Proof.
  intros Hv. unfold Uint32, PutUint32. rewrite !byte_val_of, !Z.shiftr_div_pow2 by lia.
  assert (Hsh : ∀ a j k, 0 <= j → 0 <= k → Z.shiftl a (j + k) = Z.shiftl (Z.shiftl a j) k)
    by (intros; rewrite Z.shiftl_shiftl by lia; done).
  change 24 with (8 + 8 + 8). change 16 with (8 + 8).
  rewrite !Hsh, <-!Z.shiftl_lor by lia.
  rewrite !lor_low by (try lia; apply Z.mod_pos_bound; lia).
  change (8 + 8 + 8) with 24. change (8 + 8) with 16.
  change (2 ^ 24) with (256 * 256 * 256). change (2 ^ 16) with (256 * 256).
  change (2 ^ 8) with 256. change (2 ^ 32) with (256 * 256 * 256 * 256) in Hv.
  rewrite <-!Z.div_div by lia.
  pose proof (Z.div_mod v 256). pose proof (Z.div_mod (v / 256) 256).
  pose proof (Z.div_mod (v / 256 / 256) 256).
  rewrite (Z.mod_small (v / 256 / 256 / 256)); [lia|].
  rewrite !Z.div_div by lia.
  split; [apply Z.div_pos; lia|apply Z.div_lt_upper_bound; lia].
Qed.

Lemma Uint32_range b : 0 <= Uint32 b.
Proof.
  unfold Uint32. repeat case_match; try lia.
  rewrite !Z.lor_nonneg, !Z.shiftl_nonneg. repeat split; apply byte_val_range.
Qed.

Lemma length_PutUint32 v : length (PutUint32 v) = 4%nat.
Proof. done. Qed.
Lemma length_PutUint16 v : length (PutUint16 v) = 2%nat.
Proof. done. Qed.

(** * Streams *)
Lemma ReadFull_app n a b : length a = n → ReadFull n (a ++ b) = (Ok a, b).
Proof.
  intros <-. unfold ReadFull. rewrite decide_True by (rewrite length_app; lia).
  by rewrite take_app_length, drop_app_length.
Qed.

Lemma ReadFull_inv n s p s' : ReadFull n s = (Ok p, s') → s = p ++ s' ∧ length p = n.
Proof.
  unfold ReadFull. case_decide; intros; simplify_eq.
  split; [by rewrite take_drop|]. rewrite length_take. lia.
Qed.

Lemma ReadFull_short n s : (length s < n)%nat →
  ReadFull n s = (Err (if decide (s = []) then EOF else ErrUnexpectedEOF), []).
Proof. intros. unfold ReadFull. by rewrite decide_False by lia. Qed.

Lemma Write_healthy p w : w_room w = None →
  Write p w = (Ok tt, {| w_out := w_out w ++ p; w_room := None |}).
Proof. unfold Write. by intros ->. Qed.

(** * Frames *)
Section frames.
  Context {Msg : Type} (Marshal : Msg → option (list byte)) (Unmarshal : list byte → option Msg).

(** The bytes of one frame. *)
Definition frame (b : list byte) : list byte := PutUint32 (Z.of_nat (length b)) ++ b.

Lemma writeFramed_healthy m b out :
  Marshal m = Some b → Z.of_nat (length b) <= MaxFrameSize →
  writeFramed Marshal m {| w_out := out; w_room := None |}
  = (Ok tt, {| w_out := out ++ frame b; w_room := None |}).
Proof.
  intros Hm Hlen. unfold writeFramed. rewrite Hm.
  destruct (Z.gtb_spec (Z.of_nat (length b)) MaxFrameSize); [lia|].
  unfold frame. rewrite app_assoc. done.
Qed.

Lemma frame_length_small (b : list byte) : Z.of_nat (length b) <= MaxFrameSize →
  0 <= Z.of_nat (length b) < 2 ^ 32.
Proof. unfold MaxFrameSize. lia. Qed.

Lemma readFramed_frame m b rest :
  Unmarshal b = Some m → Z.of_nat (length b) <= MaxFrameSize →
  readFramed Unmarshal (frame b ++ rest) = (Ok m, rest).
Proof.
  intros Hu Hlen. unfold readFramed, frame. rewrite <-app_assoc.
  rewrite (bind_ok _ _ _ _ _ (ReadFull_app 4 _ (b ++ rest) (length_PutUint32 _))).
  rewrite Uint32_Put by (by apply frame_length_small).
  destruct (Z.gtb_spec (Z.of_nat (length b)) MaxFrameSize); [lia|].
  rewrite Nat2Z.id, (bind_ok _ _ _ _ _ (ReadFull_app _ b rest eq_refl)).
  by rewrite Hu.
Qed.

(** What a successful read consumed. *)
Lemma readFramed_inv s m rest :
  readFramed Unmarshal s = (Ok m, rest) →
  ∃ hdr b, s = hdr ++ b ++ rest ∧ length hdr = 4%nat ∧
    Z.of_nat (length b) = Uint32 hdr ∧ Uint32 hdr <= MaxFrameSize ∧ Unmarshal b = Some m.
Proof.
  unfold readFramed. intros H.
  apply bind_inv in H as [(hdr & s1 & Hhdr & H)|(e & _ & ?)]; [|done].
  apply ReadFull_inv in Hhdr as [-> Hlen].
  destruct (Z.gtb_spec (Uint32 hdr) MaxFrameSize) as [|Hmax]; [done|].
  apply bind_inv in H as [(b & s2 & Hb & H)|(e & _ & ?)]; [|done].
  apply ReadFull_inv in Hb as [-> Hb].
  destruct (Unmarshal b) eqn:Hu; simplify_eq/=.
  inversion H; subst. exists hdr, b. pose proof (Uint32_range hdr).
  split_and!; try done. lia.
Qed.
End frames.

(** A protobuf codec whose decoder inverts its encoder. *)
Class CodecOk {Msg} (Marshal : Msg → option (list byte)) (Unmarshal : list byte → option Msg) :=
  unmarshal_marshal : ∀ m b, Marshal m = Some b → Unmarshal b = Some m.

(** [fits Marshal m]: [m] can be encoded and its encoding fits in a frame. *)
Definition fits {Msg} (Marshal : Msg → option (list byte)) (m : Msg) : Prop :=
  ∃ b, Marshal m = Some b ∧ Z.of_nat (length b) <= MaxFrameSize.

Lemma write_all_frames {Msg} (Marshal : Msg → option (list byte)) ms out :
  Forall (fits Marshal) ms →
  ∃ bs, Forall2 (λ m b, Marshal m = Some b ∧ Z.of_nat (length b) <= MaxFrameSize) ms bs ∧
    write_all Marshal ms {| w_out := out; w_room := None |}
    = (Ok tt, {| w_out := out ++ concat (frame <$> bs); w_room := None |}).
Proof.
  intros Hfit. revert out. induction Hfit as [|m ms (b & Hb & Hlen) _ IH]; intros out.
  - exists []. split; [constructor|]. simpl. by rewrite app_nil_r.
  - destruct (IH (out ++ frame b)) as (bs & Hbs & Hw). exists (b :: bs).
    split; [by constructor|]. rewrite fmap_cons. cbn [write_all concat].
    rewrite (bind_ok _ _ _ _ _ (writeFramed_healthy Marshal m b out Hb Hlen)), Hw.
    by rewrite <-app_assoc.
Qed.

Lemma read_n_frames {Msg} (Unmarshal : list byte → option Msg) ms bs rest :
  Forall2 (λ m b, Unmarshal b = Some m ∧ Z.of_nat (length b) <= MaxFrameSize) ms bs →
  read_n Unmarshal (length ms) (concat (frame <$> bs) ++ rest) = (Ok ms, rest).
Proof.
  induction 1 as [|m b ms bs [Hu Hlen] _ IH]; [done|].
  rewrite fmap_cons. cbn [length concat read_n].
  rewrite <-app_assoc, (bind_ok _ _ _ _ _ (readFramed_frame _ m b _ Hu Hlen)).
  by rewrite (bind_ok _ _ _ _ _ IH).
Qed.

(** C37: every sequence of messages written on a working connection is read
    back, in order and exactly, and the reader stops at the first byte after
    the last frame, whatever follows it. *)
Theorem frames_roundtrip {Msg} (Marshal : Msg → option (list byte)) (Unmarshal : list byte → option Msg)
    (Hcodec : CodecOk Marshal Unmarshal) (ms : list Msg) (rest : list byte) :
  Forall (fits Marshal) ms →
  ∃ w, write_all Marshal ms {| w_out := []; w_room := None |} = (Ok tt, w) ∧
    read_n Unmarshal (length ms) (w_out w ++ rest) = (Ok ms, rest).
Proof.
  intros Hfit. destruct (write_all_frames Marshal ms [] Hfit) as (bs & Hbs & Hw).
  eexists. split; [exact Hw|]. simpl. apply read_n_frames.
  eapply Forall2_impl; [|exact Hbs]. intros m b [Hm Hlen]. split; [|done].
  by apply unmarshal_marshal.
Qed.

(** A frame that declares more than [MaxFrameSize] bytes is refused after
    its four header bytes: nothing of the body is read (or allocated). *)
Theorem oversized_frame_refused {Msg} (Unmarshal : list byte → option Msg) hdr rest :
  length hdr = 4%nat → MaxFrameSize < Uint32 hdr →
  readFramed Unmarshal (hdr ++ rest) = (Err ErrFrameTooLarge, rest).
Proof.
  intros Hlen Hbig. unfold readFramed.
  rewrite (bind_ok _ _ _ _ _ (ReadFull_app 4 hdr rest Hlen)).
  by destruct (Z.gtb_spec (Uint32 hdr) MaxFrameSize); [|lia].
Qed.

(** A connection that ends inside a frame never yields a message: every
    strict prefix of a frame makes the reader fail with an end-of-file error. *)
Theorem truncated_frame_fails {Msg} (Unmarshal : list byte → option Msg) b k :
  Z.of_nat (length b) <= MaxFrameSize → (k < length (frame b))%nat →
  readFramed Unmarshal (take k (frame b)) = (Err EOF, []) ∨
  readFramed Unmarshal (take k (frame b)) = (Err ErrUnexpectedEOF, []).
Proof.
  intros Hlen Hk. unfold frame in *. rewrite length_app, length_PutUint32 in Hk.
  destruct (decide (k < 4)%nat) as [Hlt|Hge].
  - unfold readFramed. erewrite bind_err; [|apply ReadFull_short; rewrite length_take; lia].
    case_decide; auto.
  - unfold readFramed. rewrite take_app, take_ge by (rewrite length_PutUint32; lia).
    rewrite length_PutUint32.
    rewrite (bind_ok _ _ _ _ _ (ReadFull_app 4 _ _ (length_PutUint32 _))).
    rewrite Uint32_Put by (by apply frame_length_small).
    destruct (Z.gtb_spec (Z.of_nat (length b)) MaxFrameSize); [lia|].
    rewrite Nat2Z.id.
    erewrite bind_err; [|apply ReadFull_short; rewrite length_take; lia].
    case_decide; auto.
Qed.

(** * Datagrams *)
Definition udp_frame (p : list byte) : list byte := PutUint16 (Z.of_nat (length p)) ++ p.

Lemma writeUDPFrame_healthy p out :
  Z.of_nat (length p) < 65536 →
  writeUDPFrame p {| w_out := out; w_room := None |}
  = (Ok tt, {| w_out := out ++ udp_frame p; w_room := None |}).
Proof.
  intros Hp. unfold writeUDPFrame, udp_frame.
  rewrite Z.mod_small by lia. by rewrite app_assoc.
Qed.

Lemma readUDPFrame_frame p rest :
  Z.of_nat (length p) < 65536 → readUDPFrame (udp_frame p ++ rest) = (Ok p, rest).
Proof.
  intros Hp. unfold readUDPFrame, udp_frame. rewrite <-app_assoc.
  rewrite (bind_ok _ _ _ _ _ (ReadFull_app 2 _ _ (length_PutUint16 _))).
  rewrite Uint16_Put, Nat2Z.id by lia. by apply ReadFull_app.
Qed.

Lemma write_datagrams_out ps out :
  Forall (λ p, Z.of_nat (length p) < 65536) ps →
  write_datagrams ps {| w_out := out; w_room := None |}
  = (Ok tt, {| w_out := out ++ concat (udp_frame <$> ps); w_room := None |}).
Proof.
  intros Hps. revert out. induction Hps as [|p ps Hp _ IH]; intros out.
  - simpl. by rewrite app_nil_r.
  - rewrite fmap_cons. cbn [write_datagrams concat]. rewrite (bind_ok _ _ _ _ _ (writeUDPFrame_healthy p out Hp)), IH.
    by rewrite <-app_assoc.
Qed.

Lemma read_loop_frames ps fuel :
  Forall (λ p, Z.of_nat (length p) < 65536) ps → (length (concat (udp_frame <$> ps)) < fuel)%nat →
  read_loop fuel (concat (udp_frame <$> ps)) = (ps, Some EOF).
Proof.
  intros Hps. revert fuel. induction Hps as [|p ps Hp _ IH]; intros fuel Hf.
  - destruct fuel; [simpl in Hf; lia|]. done.
  - rewrite fmap_cons in *. cbn [concat] in *.
    destruct fuel as [|fuel]; [lia|]. cbn [read_loop]. rewrite readUDPFrame_frame by done.
    rewrite length_app in Hf. unfold udp_frame in Hf at 1.
    rewrite length_app, length_PutUint16 in Hf. rewrite IH by lia. done.
Qed.

(** Any sequence of datagrams of at most 65535 bytes sent by one end of a
    UDP flow is delivered by the other end's loop, in order and with its
    boundaries, and the loop ends with the stream. *)
Theorem datagrams_roundtrip (ps : list (list byte)) :
  Forall (λ p, Z.of_nat (length p) < 65536) ps →
  ∃ w, write_datagrams ps {| w_out := []; w_room := None |} = (Ok tt, w) ∧
    udp_read_loop (w_out w) = (ps, Some EOF).
Proof.
  intros Hps. eexists. split; [by apply write_datagrams_out|]. simpl.
  unfold udp_read_loop. apply read_loop_frames; [done|lia].
Qed.

(** * Witnesses *)
Definition bytes_marshal (b : list byte) : option (list byte) := Some b.

Lemma frames_roundtrip_witness :
  ∃ w, write_all bytes_marshal [[x01; x02]; []; [x03]] {| w_out := []; w_room := None |} = (Ok tt, w) ∧
    read_n Some 3 (w_out w ++ [xff]) = (Ok [[x01; x02]; []; [x03]], [xff]).
Proof.
  apply (frames_roundtrip bytes_marshal Some).
  - intros m b H. by inversion H.
  - repeat constructor; eexists; (split; [reflexivity|by vm_compute]).
Defined.

Lemma oversized_frame_refused_witness :
  readFramed (Some : list byte → option (list byte)) ([x00; x10; x00; x01] ++ [x05])
  = (Err ErrFrameTooLarge, [x05]).
Proof. apply (oversized_frame_refused Some); vm_compute; reflexivity. Defined.

Lemma truncated_frame_fails_witness :
  readFramed (Some : list byte → option (list byte)) (take 5 (frame [x01; x02])) = (Err EOF, []) ∨
  readFramed (Some : list byte → option (list byte)) (take 5 (frame [x01; x02])) = (Err ErrUnexpectedEOF, []).
Proof. apply (truncated_frame_fails Some); [by vm_compute|vm_compute; lia]. Defined.

Lemma datagrams_roundtrip_witness :
  ∃ w, write_datagrams [[x01]; []] {| w_out := []; w_room := None |} = (Ok tt, w) ∧
    udp_read_loop (w_out w) = ([[x01]; []], Some EOF).
Proof. apply (datagrams_roundtrip [[x01]; []]). repeat constructor; simpl; lia. Defined.
