(* ===== verification/Authz.v ===== *)
(** The entitlements seam (pkg/authz): limits, bind requests, decisions,
    usage windows, the interface the edge programs against, and the allow-all
    stub used in development. *)
From S2P Require Import Prelude.

Open Scope Z_scope.

Record Limits := {
  MaxConcurrentTunnels : Z;
  MaxBandwidthBytesMo : Z; (* 0 = unlimited *)
  MaxRequestsMo : Z;       (* 0 = unlimited *)
  AllowCustomDomains : bool;
  AllowReservedSubdomain : bool;
  AllowTCP : bool;
  AllowUDP : bool;
  RateLimitRPS : Z;        (* 0 = unlimited *)
}.

(** The zero value of the struct: no allowance. *)
Definition no_limits : Limits :=
  {| MaxConcurrentTunnels := 0; MaxBandwidthBytesMo := 0; MaxRequestsMo := 0;
     AllowCustomDomains := false; AllowReservedSubdomain := false;
     AllowTCP := false; AllowUDP := false; RateLimitRPS := 0 |}.

Record BindRequest := {
  APIKey : string;
  Type_ : string; (* "http|https|tls|tcp|udp" *)
  Subdomain : string;
  CustomHost : string;
  RemotePort : Z;
  Region : string;
}.

Record Decision := {
  Allow : bool;
  d_AccountID : string;
  d_Plan : string;
  d_Limits : Limits;
  AssignedSubdomain : string;
  ErrorCode : string;
  ErrorMessage : string;
}.

Record Usage := {
  u_AccountID : string;
  u_TunnelID : string;
  u_BytesIn : Z;
  u_BytesOut : Z;
  u_Requests : Z;
  u_WindowStart : Time;
  u_WindowEnd : Time;
}.

(** [Entitlements E]: the interface over a service whose state is an [E].  A
    call reads the clock ([now]), may change the service's state, and may
    fail; an error carries no information the edge looks at. *)
Class Entitlements (E : Type) := {
  Authenticate : Time → string → M E unit (string * string);
  CheckBind : Time → BindRequest → M E unit Decision;
  ReportUsage : Time → Usage → M E unit unit;
}.

(** * StubEntitlements (pkg/authz/stub.go) *)
Definition stub_Authenticate (apiKey : string) : M unit unit (string * string) :=
  if String.eqb apiKey "" then throw tt else mret ("dev", "pro").

Definition stub_CheckBind (_ : BindRequest) : M unit unit Decision :=
  mret {| Allow := true; d_AccountID := "dev"; d_Plan := "pro";
          d_Limits := {| MaxConcurrentTunnels := 100; MaxBandwidthBytesMo := 0;
                         MaxRequestsMo := 0; AllowCustomDomains := true;
                         AllowReservedSubdomain := true; AllowTCP := true;
                         AllowUDP := true; RateLimitRPS := 0 |};
          AssignedSubdomain := ""; ErrorCode := ""; ErrorMessage := "" |}.

Definition stub_ReportUsage (_ : Usage) : M unit unit unit := mret tt.

#[export] Instance StubEntitlements : Entitlements unit :=
  {| Authenticate := λ _ k, stub_Authenticate k;
     CheckBind := λ _ r, stub_CheckBind r;
     ReportUsage := λ _ u, stub_ReportUsage u |}.
