(* ===== verification/Registry.v ===== *)
(** The shared route registry (internal/server/registry.go): routes and their
    keys, the process-local registry, the Redis registry over an abstract
    Redis, and the interface both implement: a table of leases. *)
From S2P Require Import Prelude GoStrings.
From Stdlib Require Import Ascii.

Open Scope Z_scope.

(** * Routes *)
Record Route := { Host : string; Proto : string; Port : Z }.
Definition host_route (h : string) : Route := {| Host := h; Proto := ""; Port := 0 |}.
Definition port_route (proto : string) (port : Z) : Route :=
  {| Host := ""; Proto := proto; Port := port |}.

Definition Key (r : Route) : string :=
  if negb (String.eqb (Host r) "") then "host:" +:+ ToLower (Host r)
  else "port:" +:+ Proto r +:+ ":" +:+ Itoa (Port r).

Record Binding := { EdgeID : string; SessionID : string }.

(** * The interface
    A registry answers errors of its backend; [view r t k] is what a lookup of
    key [k] finds at time [t].  [Bind] and [RegisterEdge] take a lease for
    their TTL (no TTL: for ever), [Unbind] drops it, and no call on one key
    touches another. *)
Inductive RegErr := ErrBackend.

Class Registry (R : Type) := {
  reg_Bind : Time → Route → Binding → Duration → M R RegErr unit;
  reg_Refresh : Time → Route → Duration → M R RegErr unit;
  reg_Lookup : Time → Route → M R RegErr (option Binding);
  reg_Unbind : Time → Route → M R RegErr unit;
  reg_RegisterEdge : Time → string → string → Duration → M R RegErr unit;
  reg_LookupEdge : Time → string → M R RegErr (option string);
  reg_UnregisterEdge : Time → string → M R RegErr unit;
}.

(** [leased now ttl t]: at [t], a lease taken at [now] is surely live. *)
Definition leased (now : Time) (ttl : Duration) (t : Time) : Prop := ttl = 0 ∨ t < now + ttl.
Definition lapsed (now : Time) (ttl : Duration) (t : Time) : Prop := ttl ≠ 0 ∧ now + ttl < t.

(** The laws: what the edge may rely on, whatever the backend.  [valid b]
    restricts the bindings the backend can carry. *)
Class RegistryLaws (R : Type) `{Registry R} := {
  valid_binding : Binding → Prop;
  view : R → Time → string → option Binding;
  edge_view : R → Time → string → option string;
  law_lookup : ∀ now r s res s',
    reg_Lookup now r s = (Ok res, s') → s' = s ∧ res = view s now (Key r);
  law_bind : ∀ now r b ttl s s' t,
    valid_binding b → 0 < now → 0 <= ttl → reg_Bind now r b ttl s = (Ok tt, s') → now <= t →
    (leased now ttl t → view s' t (Key r) = Some b) ∧
    (lapsed now ttl t → view s' t (Key r) = None);
  law_bind_other : ∀ now r b ttl s res s' t k,
    reg_Bind now r b ttl s = (res, s') → k ≠ Key r → now <= t → view s' t k = view s t k;
  law_refresh : ∀ now r ttl s s' b t,
    0 < now → 0 < ttl → view s now (Key r) = Some b → reg_Refresh now r ttl s = (Ok tt, s') → now <= t →
    (leased now ttl t → view s' t (Key r) = Some b) ∧
    (lapsed now ttl t → view s' t (Key r) = None);
  law_refresh_other : ∀ now r ttl s res s' t k,
    reg_Refresh now r ttl s = (res, s') → k ≠ Key r → now <= t → view s' t k = view s t k;
  law_unbind : ∀ now r s s' t,
    reg_Unbind now r s = (Ok tt, s') → now <= t → view s' t (Key r) = None;
  law_unbind_other : ∀ now r s res s' t k,
    reg_Unbind now r s = (res, s') → k ≠ Key r → now <= t → view s' t k = view s t k;
  law_edge_lookup : ∀ now e s res s',
    reg_LookupEdge now e s = (Ok res, s') → s' = s ∧ res = edge_view s now e;
  law_edge_register : ∀ now e a ttl s s' t,
    0 < now → 0 <= ttl → reg_RegisterEdge now e a ttl s = (Ok tt, s') → now <= t →
    (leased now ttl t → edge_view s' t e = Some a) ∧
    (lapsed now ttl t → edge_view s' t e = None);
  law_edge_unregister : ∀ now e s s' t,
    reg_UnregisterEdge now e s = (Ok tt, s') → now <= t → edge_view s' t e = None;
}.

(** * The process-local registry *)
Definition expiryFrom (now : Time) (ttl : Duration) : Time :=
  if ttl <=? 0 then zero_time else now + ttl.

Record memEntry := { me_b : Binding; me_expiry : Time }.
Record edgeEntry := { ee_addr : string; ee_expiry : Time }.
Record InMemoryRegistry := {
  im_m : gmap string memEntry;
  im_edges : gmap string edgeEntry;
}.

Definition NewInMemoryRegistry : InMemoryRegistry := {| im_m := ∅; im_edges := ∅ |}.

Definition im_Bind (now : Time) (r : Route) (b : Binding) (ttl : Duration)
    : M InMemoryRegistry RegErr unit := λ s,
  (Ok tt, {| im_m := <[Key r := {| me_b := b; me_expiry := expiryFrom now ttl |}]> (im_m s);
             im_edges := im_edges s |}).

Definition im_Refresh (now : Time) (r : Route) (ttl : Duration)
    : M InMemoryRegistry RegErr unit := λ s,
  match im_m s !! Key r with
  | Some e =>
      (Ok tt, {| im_m := <[Key r := {| me_b := me_b e; me_expiry := expiryFrom now ttl |}]> (im_m s);
                 im_edges := im_edges s |})
  | None => (Ok tt, s)
  end.

Definition im_Lookup (now : Time) (r : Route)
    : M InMemoryRegistry RegErr (option Binding) := λ s,
  match im_m s !! Key r with
  | None => (Ok None, s)
  | Some e =>
      if negb (IsZero (me_expiry e)) && After now (me_expiry e) then (Ok None, s)
      else (Ok (Some (me_b e)), s)
  end.

Definition im_Unbind (now : Time) (r : Route) : M InMemoryRegistry RegErr unit := λ s,
  (Ok tt, {| im_m := delete (Key r) (im_m s); im_edges := im_edges s |}).

Definition im_RegisterEdge (now : Time) (edgeID addr : string) (ttl : Duration)
    : M InMemoryRegistry RegErr unit := λ s,
  (Ok tt, {| im_m := im_m s;
             im_edges := <[edgeID := {| ee_addr := addr; ee_expiry := expiryFrom now ttl |}]> (im_edges s) |}).

Definition im_LookupEdge (now : Time) (edgeID : string)
    : M InMemoryRegistry RegErr (option string) := λ s,
  match im_edges s !! edgeID with
  | None => (Ok None, s)
  | Some e =>
      if negb (IsZero (ee_expiry e)) && After now (ee_expiry e) then (Ok None, s)
      else (Ok (Some (ee_addr e)), s)
  end.

Definition im_UnregisterEdge (now : Time) (edgeID : string)
    : M InMemoryRegistry RegErr unit := λ s,
  (Ok tt, {| im_m := im_m s; im_edges := delete edgeID (im_edges s) |}).

#[export] Instance InMemory : Registry InMemoryRegistry :=
  {| reg_Bind := im_Bind; reg_Refresh := im_Refresh; reg_Lookup := im_Lookup;
     reg_Unbind := im_Unbind; reg_RegisterEdge := im_RegisterEdge;
     reg_LookupEdge := im_LookupEdge; reg_UnregisterEdge := im_UnregisterEdge |}.

(** * The Redis registry
    go-redis and the server behind it are abstract: a store [D] with the
    commands the registry issues.  The laws are Redis's documented behaviour of
    SET with a TTL, GET, DEL and EXPIRE; any command may fail. *)
Class RedisOps (D : Type) := {
  rdb_Set : Time → string → string → Duration → M D RegErr unit;
  rdb_Get : Time → string → M D RegErr (option string);
  rdb_Del : Time → string → M D RegErr unit;
  rdb_Expire : Time → string → Duration → M D RegErr unit;
  rdb_Publish : string → string → D → D;
}.

Class RedisLaws (D : Type) `{RedisOps D} := {
  (** the value a GET at time [t] finds *)
  rdb_at : D → Time → string → option string;
  rdb_get_at : ∀ now k s res s', rdb_Get now k s = (Ok res, s') → s' = s ∧ res = rdb_at s now k;
  rdb_set_at : ∀ now k v ttl s s' t,
    0 <= ttl → rdb_Set now k v ttl s = (Ok tt, s') → now <= t →
    (leased now ttl t → rdb_at s' t k = Some v) ∧ (lapsed now ttl t → rdb_at s' t k = None);
  rdb_set_other : ∀ now k v ttl s res s' t j,
    rdb_Set now k v ttl s = (res, s') → j ≠ k → now <= t → rdb_at s' t j = rdb_at s t j;
  rdb_del_at : ∀ now k s s' t,
    rdb_Del now k s = (Ok tt, s') → now <= t → rdb_at s' t k = None;
  rdb_del_other : ∀ now k s res s' t j,
    rdb_Del now k s = (res, s') → j ≠ k → now <= t → rdb_at s' t j = rdb_at s t j;
  rdb_expire_at : ∀ now k ttl s s' v t,
    0 < ttl → rdb_at s now k = Some v → rdb_Expire now k ttl s = (Ok tt, s') → now <= t →
    (leased now ttl t → rdb_at s' t k = Some v) ∧ (lapsed now ttl t → rdb_at s' t k = None);
  rdb_expire_absent : ∀ now k ttl s s' t,
    rdb_at s now k = None → rdb_Expire now k ttl s = (Ok tt, s') → now <= t →
    rdb_at s' t k = None;
  rdb_expire_other : ∀ now k ttl s res s' t j,
    rdb_Expire now k ttl s = (res, s') → j ≠ k → now <= t → rdb_at s' t j = rdb_at s t j;
  rdb_publish_at : ∀ ch m s t k, rdb_at (rdb_Publish ch m s) t k = rdb_at s t k;
}.

Definition redisRoutePrefix := "trqsh:route:".
Definition redisRouteEvents := "trqsh:routes".
Definition redisEdgePrefix := "trqsh:edge:".

Section redis.
  Context {D : Type} `{RedisOps D}.

Definition redis_key (r : Route) : string := redisRoutePrefix +:+ Key r.

Definition redis_Bind (now : Time) (r : Route) (b : Binding) (ttl : Duration) : M D RegErr unit :=
  _ ← rdb_Set now (redis_key r) (EdgeID b +:+ "|" +:+ SessionID b) ttl;
  modify (rdb_Publish redisRouteEvents ("bind " +:+ Key r)).

Definition redis_Refresh (now : Time) (r : Route) (ttl : Duration) : M D RegErr unit :=
  rdb_Expire now (redis_key r) ttl.

Definition redis_Lookup (now : Time) (r : Route) : M D RegErr (option Binding) :=
  v ← rdb_Get now (redis_key r);
  match v with
  | None => mret None
  | Some v =>
      let '(edge, sess, _) := Cut v "|" in
      mret (Some {| EdgeID := edge; SessionID := sess |})
  end.

Definition redis_Unbind (now : Time) (r : Route) : M D RegErr unit :=
  _ ← rdb_Del now (redis_key r);
  modify (rdb_Publish redisRouteEvents ("unbind " +:+ Key r)).

Definition redis_RegisterEdge (now : Time) (edgeID addr : string) (ttl : Duration) : M D RegErr unit :=
  rdb_Set now (redisEdgePrefix +:+ edgeID) addr ttl.

Definition redis_LookupEdge (now : Time) (edgeID : string) : M D RegErr (option string) :=
  rdb_Get now (redisEdgePrefix +:+ edgeID).

Definition redis_UnregisterEdge (now : Time) (edgeID : string) : M D RegErr unit :=
  rdb_Del now (redisEdgePrefix +:+ edgeID).

#[export] Instance RedisRegistry : Registry D :=
  {| reg_Bind := redis_Bind; reg_Refresh := redis_Refresh; reg_Lookup := redis_Lookup;
     reg_Unbind := redis_Unbind; reg_RegisterEdge := redis_RegisterEdge;
     reg_LookupEdge := redis_LookupEdge; reg_UnregisterEdge := redis_UnregisterEdge |}.
End redis.

(** * Route keys *)

(** Two routes are the same entry point: the same host up to case, or the same
    protocol and port. *)
Definition same_entry (r1 r2 : Route) : Prop :=
  (Host r1 ≠ "" ∧ Host r2 ≠ "" ∧ ToLower (Host r1) = ToLower (Host r2)) ∨
  (Host r1 = "" ∧ Host r2 = "" ∧ Proto r1 = Proto r2 ∧ Port r1 = Port r2).

Lemma Key_host h : h ≠ "" → Key (host_route h) = "host:" +:+ ToLower h.
Proof. intros Hh. unfold Key; simpl. by apply String.eqb_neq in Hh as ->. Qed.

Lemma Key_port p n : Key (port_route p n) = "port:" +:+ p +:+ ":" +:+ Itoa n.
Proof. done. Qed.

(** Registry keys are faithful: two routes share a key exactly when they
    are the same public entry point, so a lease of one entry point is never
    taken for, or dropped with, another's.  (The protocol names the edge uses,
    "tcp" and "udp", contain no colon.) *)
Theorem route_key_faithful r1 r2 :
  has_byte (Proto r1) ":" = false → has_byte (Proto r2) ":" = false →
  Key r1 = Key r2 ↔ same_entry r1 r2.
Proof.
  intros Hp1 Hp2. unfold Key, same_entry.
  destruct (String.eqb_spec (Host r1) ""), (String.eqb_spec (Host r2) ""); simpl.
  - split.
    + intros Heq. right. apply (inj (String.append "port:")) in Heq.
      apply (app_cut_inj _ _ _ _ ":" Hp1 Hp2) in Heq as [? ?%Itoa_inj]. done.
    + intros [?|(_ & _ & -> & ->)]; [tauto|done].
  - split; [done|tauto].
  - split; [done|tauto].
  - split.
    + intros Heq. left. by apply (inj (String.append "host:")) in Heq.
    + intros [(_ & _ & ->)|?]; [done|tauto].
Qed.

(** * The process-local registry implements the interface *)
Definition im_view (s : InMemoryRegistry) (t : Time) (k : string) : option Binding :=
  match im_m s !! k with
  | None => None
  | Some e => if negb (IsZero (me_expiry e)) && After t (me_expiry e) then None else Some (me_b e)
  end.
Definition im_edge_view (s : InMemoryRegistry) (t : Time) (e : string) : option string :=
  match im_edges s !! e with
  | None => None
  | Some x => if negb (IsZero (ee_expiry x)) && After t (ee_expiry x) then None else Some (ee_addr x)
  end.

(** The lazy expiry test on a fresh lease. *)
Lemma expiry_test now ttl t :
  0 < now → 0 <= ttl → now <= t →
  (leased now ttl t →
     negb (IsZero (expiryFrom now ttl)) && After t (expiryFrom now ttl) = false) ∧
  (lapsed now ttl t →
     negb (IsZero (expiryFrom now ttl)) && After t (expiryFrom now ttl) = true).
Proof.
  intros Hnow Httl Ht. unfold expiryFrom, leased, lapsed, IsZero, After, zero_time.
  destruct (Z.leb_spec ttl 0); simpl; [split; [done|lia]|].
  destruct (Z.eqb_spec (now + ttl) 0); [lia|]. simpl.
  split; intros; [apply Z.ltb_ge|apply Z.ltb_lt]; lia.
Qed.

Ltac lease_cases now ttl t :=
  let H1 := fresh in let H2 := fresh in
  destruct (expiry_test now ttl t) as [H1 H2]; [lia..|];
  split; intros ?; simpl; [by rewrite H1|by rewrite H2].

#[export] Instance InMemoryLaws : RegistryLaws InMemoryRegistry.
Proof.
  refine {| valid_binding := λ _, True; view := im_view; edge_view := im_edge_view |};
    simpl; unfold im_view, im_edge_view.
  - intros now r s res s'. unfold im_Lookup. intros; repeat case_match; by simplify_eq.
  - intros now r b ttl s s' t _ Hn Ht Hb Hle. unfold im_Bind in Hb. simplify_eq. simpl.
    rewrite lookup_insert_eq. lease_cases now ttl t.
  - intros now r b ttl s res s' t k Hb Hk Hle. unfold im_Bind in Hb. simplify_eq. simpl.
    by rewrite lookup_insert_ne.
  - intros now r ttl s s' b t Hn Ht Hv Hr Hle. unfold im_Refresh in Hr.
    destruct (im_m s !! Key r) as [e|] eqn:He; [|done]. simplify_eq. simpl.
    rewrite lookup_insert_eq. simpl. case_match; simplify_eq. lease_cases now ttl t.
  - intros now r ttl s res s' t k Hr Hk Hle. unfold im_Refresh in Hr.
    case_match; simplify_eq; simpl; [by rewrite lookup_insert_ne|done].
  - intros now r s s' t Hu Hle. unfold im_Unbind in Hu. simplify_eq. simpl.
    by rewrite lookup_delete_eq.
  - intros now r s res s' t k Hu Hk Hle. unfold im_Unbind in Hu. simplify_eq. simpl.
    by rewrite lookup_delete_ne.
  - intros now e s res s'. unfold im_LookupEdge. intros; repeat case_match; by simplify_eq.
  - intros now e a ttl s s' t Hn Ht Hr Hle. unfold im_RegisterEdge in Hr. simplify_eq. simpl.
    rewrite lookup_insert_eq. lease_cases now ttl t.
  - intros now e s s' t Hu Hle. unfold im_UnregisterEdge in Hu. simplify_eq. simpl.
    by rewrite lookup_delete_eq.
Defined.

(** * The Redis registry implements the interface *)
Section redis_laws.
  Context {D : Type} `{RedisLaws D}.

Definition decode_binding (v : string) : Binding :=
  let '(edge, sess, _) := Cut v "|" in {| EdgeID := edge; SessionID := sess |}.
Definition redis_view (s : D) (t : Time) (k : string) : option Binding :=
  decode_binding <$> rdb_at s t (redisRoutePrefix +:+ k).
Definition redis_edge_view (s : D) (t : Time) (e : string) : option string :=
  rdb_at s t (redisEdgePrefix +:+ e).

Lemma decode_encode b :
  has_byte (EdgeID b) "|" = false →
  decode_binding (EdgeID b +:+ "|" +:+ SessionID b) = b.
Proof.
  intros Hb. unfold decode_binding.
  change ("|" +:+ SessionID b) with (String "|" (SessionID b)).
  rewrite Cut_app by done. by destruct b.
Qed.

Lemma redis_Bind_inv now r b ttl s res s' :
  redis_Bind now r b ttl s = (res, s') →
  ∃ s1, rdb_Set now (redis_key r) (EdgeID b +:+ "|" +:+ SessionID b) ttl s = (res, s1) ∧
    ∀ t k, redis_view s' t k = redis_view s1 t k.
Proof.
  unfold redis_Bind. intros Hb.
  apply bind_inv in Hb as [([] & s1 & Hs & Hk)|(e & Hs & ->)].
  - unfold modify in Hk. simplify_eq. exists s1. split; [done|].
    intros t k. unfold redis_view. by rewrite rdb_publish_at.
  - eauto.
Qed.

Lemma redis_Unbind_inv now r s res s' :
  redis_Unbind now r s = (res, s') →
  ∃ s1, rdb_Del now (redis_key r) s = (res, s1) ∧
    ∀ t k, redis_view s' t k = redis_view s1 t k.
Proof.
  unfold redis_Unbind. intros Hb.
  apply bind_inv in Hb as [([] & s1 & Hs & Hk)|(e & Hs & ->)].
  - unfold modify in Hk. simplify_eq. exists s1. split; [done|].
    intros t k. unfold redis_view. by rewrite rdb_publish_at.
  - eauto.
Qed.

Lemma redis_key_ne r k : k ≠ Key r → redisRoutePrefix +:+ k ≠ redis_key r.
Proof. intros Hk Heq. by apply (inj (String.append redisRoutePrefix)) in Heq. Qed.

#[export] Instance RedisRegistryLaws : RegistryLaws D.
Proof.
  refine {| valid_binding := λ b, has_byte (EdgeID b) "|" = false;
            view := redis_view; edge_view := redis_edge_view |}; simpl.
  - intros now r s res s' Hl. unfold redis_Lookup in Hl.
    apply bind_inv in Hl as [(v & s1 & Hg & Hk)|(e & _ & ?)]; [|done].
    apply rdb_get_at in Hg as [-> ->]. unfold redis_view, redis_key, decode_binding in *.
    destruct (rdb_at s now _) as [v|]; [|by inversion Hk]. simpl.
    destruct (Cut v "|") as [[edge sess] ok]. by inversion Hk.
  - intros now r b ttl s s' t Hv _ Httl (s1 & Hs & Hview)%redis_Bind_inv Ht.
    destruct (rdb_set_at _ _ _ _ _ _ t Httl Hs Ht) as [H1 H2].
    rewrite Hview. unfold redis_view, redis_key in *.
    split; intros Hl; [rewrite (H1 Hl); simpl; by rewrite decode_encode|by rewrite (H2 Hl)].
  - intros now r b ttl s res s' t k (s1 & Hs & Hview)%redis_Bind_inv Hk Ht.
    rewrite Hview. unfold redis_view.
    by rewrite (rdb_set_other _ _ _ _ _ _ _ t _ Hs (redis_key_ne _ _ Hk) Ht).
  - intros now r ttl s s' b t _ Httl Hv Hr Ht. unfold redis_view in *.
    apply fmap_Some in Hv as (v & Hv & ->).
    destruct (rdb_expire_at _ _ _ _ _ _ t Httl Hv Hr Ht) as [H1 H2].
    split; intros Hl; [by rewrite (H1 Hl)|by rewrite (H2 Hl)].
  - intros now r ttl s res s' t k Hr Hk Ht. unfold redis_view.
    by rewrite (rdb_expire_other _ _ _ _ _ _ t _ Hr (redis_key_ne _ _ Hk) Ht).
  - intros now r s s' t (s1 & Hs & Hview)%redis_Unbind_inv Ht.
    rewrite Hview. unfold redis_view. by rewrite (rdb_del_at _ _ _ _ t Hs Ht).
  - intros now r s res s' t k (s1 & Hs & Hview)%redis_Unbind_inv Hk Ht.
    rewrite Hview. unfold redis_view.
    by rewrite (rdb_del_other _ _ _ _ _ t _ Hs (redis_key_ne _ _ Hk) Ht).
  - intros now e s res s' Hl. by apply rdb_get_at in Hl.
  - intros now e a ttl s s' t _ Httl Hr Ht. by apply (rdb_set_at _ _ _ _ _ _ t Httl Hr Ht).
  - intros now e s s' t Hr Ht. by apply (rdb_del_at _ _ _ _ t Hr Ht).
Defined.
End redis_laws.

(** * The abstract specification: a table of leases *)
Record Lease := { l_binding : Binding; l_start : Time; l_ttl : Duration }.
Abbreviation LeaseTable := (gmap string Lease).

Inductive reg_op :=
| OpBind (r : Route) (b : Binding) (ttl : Duration)
| OpRefresh (r : Route) (ttl : Duration)
| OpUnbind (r : Route).

Definition op_time (o : Time * reg_op) : Time := fst o.

Definition spec_op (now : Time) (o : reg_op) (T : LeaseTable) : LeaseTable :=
  match o with
  | OpBind r b ttl => <[Key r := {| l_binding := b; l_start := now; l_ttl := ttl |}]> T
  | OpRefresh r ttl =>
      alter (λ l, {| l_binding := l_binding l; l_start := now; l_ttl := ttl |}) (Key r) T
  | OpUnbind r => delete (Key r) T
  end.

(** An operation the edge issues: well-formed, and a refresh is of a lease that
    is still live. *)
Definition op_ok `{RegistryLaws R} (T : LeaseTable) (now : Time) (o : reg_op) : Prop :=
  match o with
  | OpBind _ b ttl => valid_binding b ∧ 0 <= ttl
  | OpRefresh r ttl =>
      0 < ttl ∧ ∃ l, T !! Key r = Some l ∧ leased (l_start l) (l_ttl l) now
  | OpUnbind _ => True
  end.

Definition run_op {R} `{Registry R} (now : Time) (o : reg_op) : M R RegErr unit :=
  match o with
  | OpBind r b ttl => reg_Bind now r b ttl
  | OpRefresh r ttl => reg_Refresh now r ttl
  | OpUnbind r => reg_Unbind now r
  end.

(** [agrees s T now]: from [now] on, every lookup in [s] is what [T] says. *)
Definition agrees {R} `{RegistryLaws R} (s : R) (T : LeaseTable) (now : Time) : Prop :=
  ∀ t k, now <= t →
    match T !! k with
    | None => view s t k = None
    | Some l =>
        (leased (l_start l) (l_ttl l) t → view s t k = Some (l_binding l)) ∧
        (lapsed (l_start l) (l_ttl l) t → view s t k = None)
    end.

(** A run: operations at non-decreasing times, all of which succeed. *)
Inductive reg_run {R} `{RegistryLaws R} : Time → R → LeaseTable → Time → R → LeaseTable → Prop :=
| run_nil now s T : reg_run now s T now s T
| run_step now s T now1 o s1 now2 s2 T2 :
    now <= now1 → op_ok T now1 o → run_op now1 o s = (Ok tt, s1) →
    reg_run now1 s1 (spec_op now1 o T) now2 s2 T2 →
    reg_run now s T now2 s2 T2.

Section refinement.
  Context {R : Type} `{RegistryLaws R}.

Lemma agrees_later s T now now' : now <= now' → agrees s T now → agrees s T now'.
Proof. intros Hle Ha t k Ht. apply Ha. lia. Qed.

Lemma agrees_step now o s s1 T :
  0 < now → agrees s T now → op_ok T now o → run_op now o s = (Ok tt, s1) →
  agrees s1 (spec_op now o T) now.
Proof.
  intros Hnow Ha Hok Hrun t k Ht. destruct o as [r b ttl|r ttl|r]; simpl in *.
  - destruct Hok as [Hv Httl]. destruct (decide (k = Key r)) as [->|Hne].
    + rewrite lookup_insert_eq. by apply (law_bind now r b ttl s).
    + rewrite lookup_insert_ne by done. rewrite (law_bind_other _ _ _ _ _ _ _ t k Hrun) by done.
      by apply Ha.
  - destruct Hok as (Httl & l & Hl & Hlive). destruct (decide (k = Key r)) as [->|Hne].
    + rewrite lookup_alter_eq, Hl. simpl.
      pose proof (Ha now (Key r) ltac:(lia)) as Hv. rewrite Hl in Hv. destruct Hv as [Hv _].
      by apply (law_refresh now r ttl s s1 _ t Hnow Httl (Hv Hlive)).
    + rewrite lookup_alter_ne by done. rewrite (law_refresh_other _ _ _ _ _ _ t k Hrun) by done.
      by apply Ha.
  - destruct (decide (k = Key r)) as [->|Hne].
    + rewrite lookup_delete_eq. by apply (law_unbind now r s).
    + rewrite lookup_delete_ne by done. rewrite (law_unbind_other _ _ _ _ _ t k Hrun) by done.
      by apply Ha.
Qed.

Lemma run_refines now s T now' s' T' :
  0 < now → agrees s T now → reg_run now s T now' s' T' → agrees s' T' now'.
Proof.
  intros Hnow Ha Hrun. induction Hrun as [now s T|now s T now1 o s1 now2 s2 T2 Hle Hok Hop Hrun IH]; [done|].
  apply IH; [lia|]. apply (agrees_step now1 o s); [lia|by apply (agrees_later _ _ now)|done|done].
Qed.

(** Registry [R] implements the lease table: after a run, a lookup that succeeds gives
    the binding of a live lease and nothing for one that lapsed or is not in the table. *)
Definition implements_leases : Prop := ∀ now s T now' s' T' t r res s'',
  0 < now → agrees s T now → reg_run now s T now' s' T' →
  now' <= t → reg_Lookup t r s' = (Ok res, s'') →
  match T' !! Key r with
  | None => res = None
  | Some l =>
      (leased (l_start l) (l_ttl l) t → res = Some (l_binding l)) ∧
      (lapsed (l_start l) (l_ttl l) t → res = None)
  end.
Lemma laws_implement_leases : implements_leases.
Proof.
  intros now s T now' s' T' t r res s'' Hnow Ha Hrun Ht Hl. apply law_lookup in Hl as [-> ->].
  by apply (run_refines now s T now' s' T').
Qed.
End refinement.
Arguments implements_leases : clear implicits.
Arguments implements_leases R {_ _}.


(** * A lease kept alive by the presence loop
    [runPresence] refreshes every local route each heartbeat [h] with the TTL
    [2 * h] the bind took. *)
Section presence.
  Context {R : Type} `{RegistryLaws R}.

Fixpoint refresh_each (now h : Z) (r : Route) (n : nat) : M R RegErr unit :=
  match n with
  | O => mret tt
  | S n => _ ← reg_Refresh (now + h) r (2 * h); refresh_each (now + h) h r n
  end.

Lemma refresh_each_live now h r n s s' b :
  0 < now → 0 < h → view s (now + h) (Key r) = Some b →
  (0 < n)%nat → refresh_each now h r n s = (Ok tt, s') →
  ∀ t, now + Z.of_nat n * h <= t < now + Z.of_nat n * h + 2 * h →
    view s' t (Key r) = Some b.
Proof.
  intros Hnow Hh Hv Hn. revert now s Hnow Hv.
  induction n as [|n IH]; intros now s Hnow Hv Hrun t Ht; [lia|]. simpl in Hrun.
  apply bind_inv in Hrun as [([] & s1 & Hs1 & Hrun)|(e & _ & ?)]; [|done].
  assert (Hlive : ∀ t', now + h <= t' < now + h + 2 * h → view s1 t' (Key r) = Some b).
  { intros t' Ht'.
    destruct (law_refresh (now + h) r (2 * h) s s1 b t') as [Hl _]; [lia..|done|done|lia|].
    apply Hl. right. lia. }
  destruct n as [|n].
  - cbn in Hrun. inversion Hrun; subst. apply Hlive. lia.
  - apply (IH ltac:(lia) (now + h) s1); [lia|apply Hlive; lia|done|lia].
Qed.

(** A route bound for two heartbeats and then refreshed on each of the next
    [n] heartbeats is found, with its own binding, by every lookup from the last
    refresh (the bind when [n] is 0) until two heartbeats after it: one missed
    heartbeat never loses a route. *)
Theorem presence_keeps_route now h r b n s s1 s2 :
  0 < now → 0 < h → valid_binding b →
  reg_Bind now r b (2 * h) s = (Ok tt, s1) →
  refresh_each now h r n s1 = (Ok tt, s2) →
  ∀ t res s3, now + Z.of_nat n * h <= t < now + Z.of_nat n * h + 2 * h →
    reg_Lookup t r s2 = (Ok res, s3) → res = Some b.
Proof.
  intros Hnow Hh Hb Hbind Hrun t res s3 Ht [_ ->]%law_lookup.
  assert (Hlive : ∀ t', now <= t' < now + 2 * h → view s1 t' (Key r) = Some b).
  { intros t' Ht'. destruct (law_bind now r b (2 * h) s s1 t') as [Hl _]; [done|lia..|done|lia|].
    apply Hl. right. lia. }
  destruct n as [|n].
  - cbn in Hrun. inversion Hrun; subst. apply Hlive. lia.
  - apply (refresh_each_live now h r (S n) s1 s2 b); [done|done|apply Hlive; lia|lia|done|lia].
Qed.
End presence.

(** * Where the two implementations differ
    A refresh after the lease has lapsed revives the entry of the process-local
    registry (expiry is only tested on lookup) and does nothing in Redis. *)
Lemma im_refresh_revives now r ttl s e :
  0 < now → 0 < ttl → im_m s !! Key r = Some e →
  im_view (snd (im_Refresh now r ttl s)) now (Key r) = Some (me_b e).
Proof.
  intros Hnow Httl He. unfold im_Refresh. rewrite He. unfold im_view. simpl.
  rewrite lookup_insert_eq. simpl.
  destruct (expiry_test now ttl now) as [H1 _]; [lia..|]. rewrite H1; [done|]. right. lia.
Qed.

Lemma redis_refresh_lapsed `{RedisLaws D} now r ttl (s s' : D) t :
  view s now (Key r) = None → redis_Refresh now r ttl s = (Ok tt, s') → now <= t →
  view s' t (Key r) = None.
Proof.
  simpl. unfold redis_view. intros Hv%fmap_None Hr Ht.
  by rewrite (rdb_expire_absent _ _ _ _ _ t Hv Hr Ht).
Qed.

(** * Witnesses *)

(** A concrete Redis: values with their expiry. *)
Record toy_redis := { tr_db : gmap string (string * option Time); tr_log : list (string * string) }.
Definition tr_live (e : string * option Time) (t : Time) : bool :=
  match snd e with None => true | Some x => t <? x end.
Definition tr_at (s : toy_redis) (t : Time) (k : string) : option string :=
  match tr_db s !! k with Some e => if tr_live e t then Some (fst e) else None | None => None end.
Definition tr_exp (now : Time) (ttl : Duration) : option Time :=
  if ttl =? 0 then None else Some (now + ttl).
#[export] Instance toy_ops : RedisOps toy_redis :=
  {| rdb_Set := λ now k v ttl s, (Ok tt, {| tr_db := <[k := (v, tr_exp now ttl)]> (tr_db s); tr_log := tr_log s |});
     rdb_Get := λ now k s, (Ok (tr_at s now k), s);
     rdb_Del := λ now k s, (Ok tt, {| tr_db := delete k (tr_db s); tr_log := tr_log s |});
     rdb_Expire := λ now k ttl s,
       match tr_at s now k with
       | Some v => (Ok tt, {| tr_db := <[k := (v, tr_exp now ttl)]> (tr_db s); tr_log := tr_log s |})
       | None => (Ok tt, {| tr_db := delete k (tr_db s); tr_log := tr_log s |})
       end;
     rdb_Publish := λ ch m s, {| tr_db := tr_db s; tr_log := tr_log s ++ [(ch, m)] |} |}.

Lemma tr_live_exp now ttl t v :
  (leased now ttl t → tr_live (v, tr_exp now ttl) t = true) ∧
  (lapsed now ttl t → tr_live (v, tr_exp now ttl) t = false).
Proof.
  unfold tr_live, tr_exp, leased, lapsed. simpl.
  destruct (Z.eqb_spec ttl 0); simpl; [split; [done|lia]|].
  split; intros; [apply Z.ltb_lt|apply Z.ltb_ge]; lia.
Qed.

Ltac toy_lease now ttl t v :=
  unfold tr_at; simpl; rewrite lookup_insert_eq;
  let H1 := fresh in let H2 := fresh in
  destruct (tr_live_exp now ttl t v) as [H1 H2];
  split; intros ?; [by rewrite H1|by rewrite H2].

#[export] Instance toy_laws : RedisLaws toy_redis.
Proof.
  refine {| rdb_at := tr_at |}.
  - intros. simpl in *. by simplify_eq.
  - intros now k v ttl s s' t _ Hs _. simpl in Hs. simplify_eq. toy_lease now ttl t v.
  - intros now k v ttl s res s' t j Hs Hj _. simpl in Hs. simplify_eq.
    unfold tr_at. simpl. by rewrite lookup_insert_ne.
  - intros now k s s' t Hs _. simpl in Hs. simplify_eq. unfold tr_at. simpl. by rewrite lookup_delete_eq.
  - intros now k s res s' t j Hs Hj _. simpl in Hs. simplify_eq.
    unfold tr_at. simpl. by rewrite lookup_delete_ne.
  - intros now k ttl s s' v t _ Hv Hs _. simpl in Hs. rewrite Hv in Hs. simplify_eq. toy_lease now ttl t v.
  - intros now k ttl s s' t Hv Hs _. simpl in Hs. rewrite Hv in Hs. simplify_eq.
    unfold tr_at. simpl. by rewrite lookup_delete_eq.
  - intros now k ttl s res s' t j Hs Hj _. simpl in Hs. case_match; simplify_eq;
      unfold tr_at; simpl; [by rewrite lookup_insert_ne|by rewrite lookup_delete_ne].
  - done.
Defined.

Definition ex_binding : Binding := {| EdgeID := "edge-a"; SessionID := "sess_1" |}.
Definition empty_redis : toy_redis := {| tr_db := ∅; tr_log := [] |}.

Lemma route_key_faithful_witness :
  Key (host_route "App.Example.com") = Key (host_route "app.example.COM") ∧
  Key (port_route "tcp" 20001) ≠ Key (port_route "udp" 20001).
Proof.
  split.
  - apply (route_key_faithful (host_route "App.Example.com") (host_route "app.example.COM"));
      [reflexivity..|]. left. done.
  - intros Heq. apply (route_key_faithful (port_route "tcp" 20001) (port_route "udp" 20001)) in Heq;
      [|reflexivity..]. destruct Heq as [(? & _)|(_ & _ & ? & _)]; done.
Defined.

Lemma presence_keeps_route_witness :
  fst (reg_Lookup (R := toy_redis) 175 (host_route "a.b")
    (snd (refresh_each 100 20 (host_route "a.b") 2
       (snd (reg_Bind 100 (host_route "a.b") ex_binding (2 * 20) empty_redis))))) = Ok (Some ex_binding).
Proof.
  destruct (reg_Lookup 175 _ _) as [[res|e] s3] eqn:Hl; [|by vm_compute in Hl]. simpl fst. f_equal.
  eapply (presence_keeps_route (R := toy_redis) 100 20 (host_route "a.b") ex_binding 2 empty_redis);
    [lia|lia|reflexivity|reflexivity|reflexivity| |exact Hl].
  simpl. lia.
Defined.

