(* ===== verification/EdgeConfig.v ===== *)
(** The edge's configuration (internal/server/config.go): defaults, the
    overlay of environment variables, and the checks that make a production
    edge refuse to start on a development default. *)
From S2P Require Import Prelude GoStrings.

Open Scope Z_scope.

Record Config := {
  Env : string;
  QUICAddr : string;
  TCPAddr : string;
  HTTPAddr : string;
  HTTPSAddr : string;
  H3Addr : string;
  H3AdvertisePort : Z;
  EnableH2 : bool;
  BaseDomain : string;
  cfg_Region : string;
  cfg_EdgeID : string;
  RedisURL : string;
  EntitlementsMode : string;
  APIURL : string;
  InternalToken : string;
  ACMEStaging : bool;
  ACMEEmail : string;
  CloudflareToken : string;
  TLSStorageDir : string;
  PortMin : Z;
  PortMax : Z;
  MetricsAddr : string;
  ForwardAddr : string;
  ForwardAdvertiseAddr : string;
  SiteUpstream : string;
  AppUpstream : string;
  APIUpstream : string;
  HeartbeatInterval : Duration;
  SessionIdle : Duration;
  DrainTimeout : Duration;
}.

(** [os.Hostname]'s answer is an argument ("" when it fails). *)
Definition DefaultConfig (hostname : string) : Config :=
  let host := if String.eqb hostname "" then "edge" else hostname in
  {| Env := "development"; QUICAddr := ":4443"; TCPAddr := ":4443";
     HTTPAddr := ":80"; HTTPSAddr := ":443"; H3Addr := ""; H3AdvertisePort := 0;
     EnableH2 := false; BaseDomain := "lvh.me"; cfg_Region := "local";
     cfg_EdgeID := host; RedisURL := ""; EntitlementsMode := "stub"; APIURL := "";
     InternalToken := ""; ACMEStaging := false; ACMEEmail := "";
     CloudflareToken := ""; TLSStorageDir := ""; PortMin := 20000; PortMax := 20099;
     MetricsAddr := ":9090"; ForwardAddr := ""; ForwardAdvertiseAddr := "";
     SiteUpstream := ""; AppUpstream := ""; APIUpstream := "";
     HeartbeatInterval := 20 * Second; SessionIdle := 60 * Second;
     DrainTimeout := 25 * Second |}.

(** The process environment. *)
Abbreviation Environ := (gmap string string).

Definition envStr (env : Environ) (key dst : string) : string :=
  match env !! key with
  | Some v => if negb (String.eqb (TrimSpace v) "") then TrimSpace v else dst
  | None => dst
  end.

Definition envBool (env : Environ) (key : string) (def : bool) : bool :=
  match env !! key with
  | None => def
  | Some v =>
      let x := ToLower (TrimSpace v) in
      if bool_decide (x ∈ ["1"; "true"; "yes"; "on"]) then true
      else if bool_decide (x ∈ ["0"; "false"; "no"; "off"; ""]) then false
      else def
  end.

Definition envInt (env : Environ) (key : string) (dst : Z) : Z :=
  match env !! key with
  | Some v => default dst (Atoi (TrimSpace v))
  | None => dst
  end.

(** The overlay, before validation. *)
Definition overlay (hostname : string) (env : Environ) : Config :=
  let c := DefaultConfig hostname in
  {| Env := envStr env "TRQSH_ENV" (Env c);
     QUICAddr := envStr env "TRQSH_QUIC_ADDR" (QUICAddr c);
     TCPAddr := envStr env "TRQSH_TCP_ADDR" (TCPAddr c);
     HTTPAddr := envStr env "TRQSH_HTTP_ADDR" (HTTPAddr c);
     HTTPSAddr := envStr env "TRQSH_HTTPS_ADDR" (HTTPSAddr c);
     H3Addr := envStr env "TRQSH_H3_ADDR" (H3Addr c);
     H3AdvertisePort := envInt env "TRQSH_H3_ADVERTISE_PORT" (H3AdvertisePort c);
     EnableH2 := envBool env "TRQSH_ENABLE_H2" (EnableH2 c);
     BaseDomain := envStr env "TRQSH_BASE_DOMAIN" (BaseDomain c);
     cfg_Region := envStr env "TRQSH_REGION" (cfg_Region c);
     cfg_EdgeID := envStr env "TRQSH_EDGE_ID" (cfg_EdgeID c);
     RedisURL := envStr env "TRQSH_REDIS_URL" (RedisURL c);
     EntitlementsMode := envStr env "TRQSH_ENTITLEMENTS" (EntitlementsMode c);
     APIURL := envStr env "TRQSH_API_URL" (APIURL c);
     InternalToken := envStr env "TRQSH_INTERNAL_TOKEN" (InternalToken c);
     ACMEStaging := envBool env "TRQSH_ACME_STAGING" (ACMEStaging c);
     ACMEEmail := envStr env "TRQSH_ACME_EMAIL" (ACMEEmail c);
     CloudflareToken := envStr env "TRQSH_CLOUDFLARE_API_TOKEN" (CloudflareToken c);
     TLSStorageDir := envStr env "TRQSH_TLS_STORAGE_DIR" (TLSStorageDir c);
     PortMin := envInt env "TRQSH_PORT_MIN" (PortMin c);
     PortMax := envInt env "TRQSH_PORT_MAX" (PortMax c);
     MetricsAddr := envStr env "TRQSH_METRICS_ADDR" (MetricsAddr c);
     ForwardAddr := envStr env "TRQSH_FORWARD_ADDR" (ForwardAddr c);
     ForwardAdvertiseAddr := envStr env "TRQSH_FORWARD_ADVERTISE_ADDR" (ForwardAdvertiseAddr c);
     SiteUpstream := envStr env "TRQSH_SITE_UPSTREAM" (SiteUpstream c);
     AppUpstream := envStr env "TRQSH_APP_UPSTREAM" (AppUpstream c);
     APIUpstream := envStr env "TRQSH_API_UPSTREAM" (APIUpstream c);
     HeartbeatInterval := HeartbeatInterval c;
     SessionIdle := SessionIdle c;
     DrainTimeout := DrainTimeout c |}.

Definition production_problems (c : Config) : list string :=
  (if negb (String.eqb (EntitlementsMode c) "api")
   then ["TRQSH_ENTITLEMENTS must be 'api' in production — 'stub' allows every bind unauthenticated"]
   else []) ++
  (if String.eqb (InternalToken c) "" || String.eqb (InternalToken c) "dev-internal-token"
   then ["TRQSH_INTERNAL_TOKEN must be set to a strong value matching the control API"]
   else []) ++
  (if String.eqb (ACMEEmail c) ""
   then ["TRQSH_ACME_EMAIL must be set for automatic TLS certificate issuance"]
   else []).

(** [LoadConfig]: the configuration, or the message of the error it returns
    beside it (the process exits on it). *)
Definition LoadConfig (hostname : string) (env : Environ) : result string Config :=
  let c := overlay hostname env in
  if String.eqb (BaseDomain c) "" then Err "server: TRQSH_BASE_DOMAIN must not be empty"
  else if String.eqb (EntitlementsMode c) "api" && String.eqb (APIURL c) "" then
    Err "server: TRQSH_ENTITLEMENTS=api requires TRQSH_API_URL"
  else if PortMin c >? PortMax c then
    Err ("server: TRQSH_PORT_MIN(" +:+ Itoa (PortMin c) +:+ ") > TRQSH_PORT_MAX("
         +:+ Itoa (PortMax c) +:+ ")")
  else if EqualFold (Env c) "production" then
    match production_problems c with
    | [] => Ok c
    | problems => Err ("server: insecure production configuration:
  - " +:+ Join "
  - " problems)
    end
  else Ok c.

(** An edge that starts in production is authenticated and encrypted: its
    entitlements come from the control API at a configured URL, its internal
    token is set and is not the development one, it has an ACME account, and
    its public port pool is not empty. *)
Theorem production_edge_is_safe hostname env c :
  LoadConfig hostname env = Ok c → EqualFold (Env c) "production" = true →
  EntitlementsMode c = "api" ∧ APIURL c ≠ "" ∧
  InternalToken c ≠ "" ∧ InternalToken c ≠ "dev-internal-token" ∧
  ACMEEmail c ≠ "" ∧ BaseDomain c ≠ "" ∧ PortMin c <= PortMax c.
Proof.
  unfold LoadConfig, production_problems. intros HL Hprod.
  destruct (String.eqb_spec (BaseDomain (overlay hostname env)) ""); [done|].
  destruct (String.eqb (EntitlementsMode _) "api" && _) eqn:Hmode; [done|].
  destruct (Z.gtb_spec (PortMin (overlay hostname env)) (PortMax (overlay hostname env))); [done|].
  destruct (EqualFold (Env (overlay hostname env)) "production") eqn:Henv; simplify_eq.
  - destruct (String.eqb_spec (EntitlementsMode (overlay hostname env)) "api"); [|done].
    destruct (String.eqb_spec (InternalToken (overlay hostname env)) ""); [done|].
    destruct (String.eqb_spec (InternalToken (overlay hostname env)) "dev-internal-token"); [done|].
    destruct (String.eqb_spec (ACMEEmail (overlay hostname env)) ""); [done|].
    simplify_eq/=. bool_simpl. simpl in Hmode. bool_simpl. done.
  - by rewrite Henv in Hprod.
Qed.

Definition prod_env : Environ := list_to_map
  [("TRQSH_ENV", "Production"); ("TRQSH_ENTITLEMENTS", "api"); ("TRQSH_API_URL", "https://api.trqsh.uz");
   ("TRQSH_INTERNAL_TOKEN", "s3cret"); ("TRQSH_ACME_EMAIL", "ops@trqsh.uz");
   ("TRQSH_BASE_DOMAIN", "trqsh.uz"); ("TRQSH_PORT_MAX", " 20010 ")].

Lemma production_edge_is_safe_witness :
  ∃ c, LoadConfig "edge-1" prod_env = Ok c ∧ PortMax c = 20010 ∧ EntitlementsMode c = "api".
Proof.
  eexists. split; [vm_compute; reflexivity|]. split; [reflexivity|].
  eapply (production_edge_is_safe "edge-1" prod_env); vm_compute; reflexivity.
Defined.
