(* ===== verification/Ports.v ===== *)
(** The public TCP/UDP port pool (portManager, internal/server/ingress_tcp.go)
    and the opening of a tunnel's port. *)
From S2P Require Import Prelude.

Open Scope Z_scope.

(** [usedTCP] and [usedUDP] only ever hold [true]: they are the sets of their
    keys.  The listeners are known by the port they are open on. *)
Record portManager := {
  pm_min : Z;
  pm_max : Z;
  usedTCP : gset Z;
  usedUDP : gset Z;
  pm_tcp : gset Z;
  pm_udp : gset Z;
}.

Definition newPortManager (min max : Z) : portManager :=
  {| pm_min := min; pm_max := max; usedTCP := ∅; usedUDP := ∅; pm_tcp := ∅; pm_udp := ∅ |}.

Inductive PortErr := errPortUnavailable | errListen.

Definition used (proto : string) (pm : portManager) : gset Z :=
  if String.eqb proto "udp" then usedUDP pm else usedTCP pm.
Definition set_used (proto : string) (u : gset Z) (pm : portManager) : portManager :=
  if String.eqb proto "udp"
  then {| pm_min := pm_min pm; pm_max := pm_max pm; usedTCP := usedTCP pm; usedUDP := u;
          pm_tcp := pm_tcp pm; pm_udp := pm_udp pm |}
  else {| pm_min := pm_min pm; pm_max := pm_max pm; usedTCP := u; usedUDP := usedUDP pm;
          pm_tcp := pm_tcp pm; pm_udp := pm_udp pm |}.

(** The loop [for p := pm.min; p <= pm.max; p++]. *)
Definition port_range (pm : portManager) : list Z :=
  seqZ (pm_min pm) (pm_max pm - pm_min pm + 1).

Definition reserve (proto : string) (want : Z) : M portManager PortErr Z := λ pm,
  let u := used proto pm in
  if negb (want =? 0) then
    if (want <? pm_min pm) || (want >? pm_max pm) || bool_decide (want ∈ u)
    then (Err errPortUnavailable, pm)
    else (Ok want, set_used proto ({[want]} ∪ u) pm)
  else
    match find_first (λ p, bool_decide (p ∉ u)) (port_range pm) with
    | Some p => (Ok p, set_used proto ({[p]} ∪ u) pm)
    | None => (Err errPortUnavailable, pm)
    end.

Definition setTCP (port : Z) (pm : portManager) : portManager :=
  {| pm_min := pm_min pm; pm_max := pm_max pm; usedTCP := usedTCP pm; usedUDP := usedUDP pm;
     pm_tcp := {[port]} ∪ pm_tcp pm; pm_udp := pm_udp pm |}.
Definition setUDP (port : Z) (pm : portManager) : portManager :=
  {| pm_min := pm_min pm; pm_max := pm_max pm; usedTCP := usedTCP pm; usedUDP := usedUDP pm;
     pm_tcp := pm_tcp pm; pm_udp := {[port]} ∪ pm_udp pm |}.

Definition release (proto : string) (port : Z) (pm : portManager) : portManager :=
  let pm := set_used proto (used proto pm ∖ {[port]}) pm in
  if String.eqb proto "udp"
  then {| pm_min := pm_min pm; pm_max := pm_max pm; usedTCP := usedTCP pm; usedUDP := usedUDP pm;
          pm_tcp := pm_tcp pm; pm_udp := pm_udp pm ∖ {[port]} |}
  else {| pm_min := pm_min pm; pm_max := pm_max pm; usedTCP := usedTCP pm; usedUDP := usedUDP pm;
          pm_tcp := pm_tcp pm ∖ {[port]}; pm_udp := pm_udp pm |}.

Definition closeAll (pm : portManager) : portManager :=
  {| pm_min := pm_min pm; pm_max := pm_max pm; usedTCP := usedTCP pm; usedUDP := usedUDP pm;
     pm_tcp := ∅; pm_udp := ∅ |}.

(** Opening a port asks the operating system to listen on it: [listen p] is
    its answer for this call. *)
Definition openTCPPort (listen : Z → bool) (want : Z) : M portManager PortErr Z :=
  port ← reserve "tcp" want;
  if listen port then _ ← modify (setTCP port); mret port
  else _ ← modify (release "tcp" port); throw errListen.

Definition openUDPPort (listen : Z → bool) (want : Z) : M portManager PortErr Z :=
  port ← reserve "udp" want;
  if listen port then _ ← modify (setUDP port); mret port
  else _ ← modify (release "udp" port); throw errListen.

Definition openPort (listen : Z → bool) (proto : string) (want : Z) : M portManager PortErr Z :=
  if String.eqb proto "udp" then openUDPPort listen want else openTCPPort listen want.

(** The listeners of a protocol. *)
Definition open_ports (proto : string) (pm : portManager) : gset Z :=
  if String.eqb proto "udp" then pm_udp pm else pm_tcp pm.

(** * Invariant: what is open is reserved, what is reserved is in the pool. *)
Definition pm_ok (pm : portManager) : Prop :=
  ∀ proto p, (p ∈ open_ports proto pm → p ∈ used proto pm) ∧
             (p ∈ used proto pm → pm_min pm <= p <= pm_max pm).

Lemma elem_of_port_range pm p : p ∈ port_range pm ↔ pm_min pm <= p <= pm_max pm.
Proof. unfold port_range. rewrite elem_of_seqZ. lia. Qed.

Lemma used_set_used proto u pm : used proto (set_used proto u pm) = u.
Proof. unfold used, set_used. by destruct (String.eqb proto "udp"). Qed.

Definition same_proto (p q : string) : Prop := String.eqb p "udp" = String.eqb q "udp".

#[export] Instance same_proto_dec p q : Decision (same_proto p q).
Proof. unfold same_proto. apply _. Defined.

Lemma used_same p q pm : same_proto p q → used p pm = used q pm.
Proof. unfold same_proto, used. by intros ->. Qed.

Lemma used_set_used_other p q u pm : ¬ same_proto p q → used q (set_used p u pm) = used q pm.
Proof.
  unfold same_proto, used, set_used.
  destruct (String.eqb p "udp"), (String.eqb q "udp"); done.
Qed.

Lemma set_used_fields proto u pm :
  pm_min (set_used proto u pm) = pm_min pm ∧ pm_max (set_used proto u pm) = pm_max pm ∧
  pm_tcp (set_used proto u pm) = pm_tcp pm ∧ pm_udp (set_used proto u pm) = pm_udp pm.
Proof. unfold set_used. by destruct (String.eqb proto "udp"). Qed.

(** What a successful reservation did. *)
Lemma reserve_Ok proto want pm p pm' :
  reserve proto want pm = (Ok p, pm') →
  pm_min pm <= p <= pm_max pm ∧ (p ∉ used proto pm) ∧
  pm' = set_used proto ({[p]} ∪ used proto pm) pm ∧ (want ≠ 0 → p = want) ∧
  (want = 0 → ∀ q, pm_min pm <= q < p → q ∈ used proto pm).
Proof.
  unfold reserve. destruct (Z.eqb_spec want 0) as [->|Hw]; simpl.
  - destruct (find_first _ _) as [q|] eqn:Hf; intros; simplify_eq.
    pose proof (find_first_Some _ _ _ Hf) as [Hin%elem_of_port_range Hfree].
    bool_simpl. do 3 (split; [done|]). split; [lia|]. intros _ q Hq.
    destruct (decide (q ∈ used proto pm)) as [|Hnu]; [done|exfalso].
    revert Hf. assert (Hmin : ∀ a n, a <= q < p → 
      find_first (λ p, bool_decide (p ∉ used proto pm)) (seqZ a n) ≠ Some p).
    { intros a n. remember (Z.to_nat n) as k eqn:Hk. revert a n Hk.
      induction k as [|k IH]; intros a n Hk Ha.
      - rewrite seqZ_nil by lia. done.
      - rewrite seqZ_cons by lia. simpl. case_bool_decide as Hb; [intros [= ->]; lia|].
        destruct (decide (a = q)) as [->|]; [done|]. apply (IH (Z.succ a) (Z.pred n)); lia. }
    apply Hmin. lia.
  - destruct ((want <? pm_min pm) || _ || _) eqn:Hb; intros; simplify_eq.
    apply orb_false_iff in Hb as [[Hb1 Hb2]%orb_false_iff Hb3].
    bool_simpl. rewrite Z.gtb_ltb in Hb2. bool_simpl. split_and!; try done; lia.
Qed.

Lemma reserve_Err proto want pm e pm' :
  reserve proto want pm = (Err e, pm') →
  e = errPortUnavailable ∧ pm' = pm ∧
  (want = 0 → ∀ q, pm_min pm <= q <= pm_max pm → q ∈ used proto pm) ∧
  (want ≠ 0 → want < pm_min pm ∨ pm_max pm < want ∨ want ∈ used proto pm).
Proof.
  unfold reserve. destruct (Z.eqb_spec want 0) as [->|Hw]; simpl.
  - destruct (find_first _ _) as [q|] eqn:Hf; [done|]. intros [= <- <-].
    split; [done|]. split; [done|]. split; [|lia]. intros _ q Hq%elem_of_port_range.
    pose proof (proj1 (find_first_None _ _) Hf q Hq) as Hn. simpl in Hn. bool_simpl.
    by destruct (decide (q ∈ used proto pm)).
  - destruct ((want <? pm_min pm) || _ || _) eqn:Hb; [|done]. intros [= <- <-].
    split; [done|]. split; [done|]. split; [lia|]. intros _.
    apply orb_true_iff in Hb as [[Hb|Hb]%orb_true_iff|Hb]; [left|right; left|right; right];
      rewrite ?Z.gtb_ltb in Hb; bool_simpl; done || lia.
Qed.

(** A pool that is not exhausted always yields a port. *)
Lemma reserve_any_total proto pm q :
  pm_min pm <= q <= pm_max pm → q ∉ used proto pm →
  ∃ p pm', reserve proto 0 pm = (Ok p, pm').
Proof.
  intros Hq Hf. destruct (reserve proto 0 pm) as [[p|e] pm'] eqn:Hr; [eauto|].
  apply reserve_Err in Hr as (_ & _ & Hall & _). by destruct Hf; apply Hall.
Qed.

(** * Releasing *)
Lemma release_used proto port pm :
  used proto (release proto port pm) = used proto pm ∖ {[port]}.
Proof. unfold release, used, set_used. by destruct (String.eqb proto "udp"). Qed.

Lemma release_used_other p q port pm :
  ¬ same_proto p q → used q (release p port pm) = used q pm.
Proof.
  unfold same_proto, used, release, set_used, used.
  destruct (String.eqb p "udp"), (String.eqb q "udp"); done.
Qed.

Lemma release_range proto port pm :
  pm_min (release proto port pm) = pm_min pm ∧ pm_max (release proto port pm) = pm_max pm.
Proof. unfold release, set_used. by destruct (String.eqb proto "udp"). Qed.

Lemma release_ok proto port pm : pm_ok pm → pm_ok (release proto port pm).
Proof.
  intros Hok q p. destruct (Hok q p) as [H1 H2].
  unfold open_ports, used, release, set_used, used in *.
  destruct (String.eqb proto "udp"), (String.eqb q "udp"); simpl in *; set_solver.
Qed.

(** * Opening *)
Lemma openPort_inv listen proto want pm r pm' :
  openPort listen proto want pm = (r, pm') →
  match r with
  | Ok p => ∃ pm1, reserve proto want pm = (Ok p, pm1) ∧ listen p = true ∧
              pm' = (if String.eqb proto "udp" then setUDP p pm1 else setTCP p pm1)
  | Err errPortUnavailable => reserve proto want pm = (Err errPortUnavailable, pm')
  | Err errListen => ∃ p pm1, reserve proto want pm = (Ok p, pm1) ∧ listen p = false ∧
              pm' = release proto p pm1
  end.
Proof.
  assert (Hr : ∀ q, same_proto q proto → reserve q want pm = reserve proto want pm).
  { intros q Hq. unfold reserve, used, set_used. by rewrite Hq. }
  unfold openPort, openUDPPort, openTCPPort. unfold mbind, M_bind, modify, mret, M_ret, throw.
  destruct (String.eqb proto "udp") eqn:Hp.
  - rewrite (Hr "udp") by done. apply String.eqb_eq in Hp as ->.
    destruct (reserve "udp" want pm) as [[p|e] pm1] eqn:Hres.
    + destruct (listen p) eqn:Hl; intros [= <- <-]; eauto 10.
    + intros [= <- <-]. apply reserve_Err in Hres as (-> & _). done.
  - rewrite (Hr "tcp") by done. destruct (reserve proto want pm) as [[p|e] pm1] eqn:Hres.
    + destruct (listen p) eqn:Hl; intros [= <- <-]; [by eauto|].
      exists p, pm1. split_and!; try done. unfold release, used, set_used. by rewrite Hp.
    + intros [= <- <-]. apply reserve_Err in Hres as (-> & _). done.
Qed.

Lemma openPort_other_used listen proto want pm r pm' q :
  openPort listen proto want pm = (r, pm') → ¬ same_proto proto q → used q pm' = used q pm.
Proof.
  intros Hop Hs. apply openPort_inv in Hop. destruct r as [p|[]].
  - destruct Hop as (pm1 & Hres & _ & ->). apply reserve_Ok in Hres as (_ & _ & -> & _).
    rewrite <- (used_set_used_other _ _ ({[p]} ∪ used proto pm) pm Hs).
    unfold used. by destruct (String.eqb proto "udp"), (String.eqb q "udp").
  - apply reserve_Err in Hop as (_ & -> & _). done.
  - destruct Hop as (p & pm1 & Hres & _ & ->). apply reserve_Ok in Hres as (_ & _ & -> & _).
    by rewrite release_used_other, used_set_used_other.
Qed.

Lemma newPortManager_ok min max : pm_ok (newPortManager min max).
Proof.
  intros q n. unfold open_ports, used, newPortManager. simpl.
  destruct (String.eqb q "udp"); set_solver.
Qed.

Lemma openPort_ok listen proto want pm r pm' :
  pm_ok pm → openPort listen proto want pm = (r, pm') →
  pm_ok pm' ∧ pm_min pm' = pm_min pm ∧ pm_max pm' = pm_max pm ∧
  match r with
  | Ok p =>
      pm_min pm <= p <= pm_max pm ∧ (p ∉ used proto pm) ∧ (want ≠ 0 → p = want) ∧
      used proto pm' = {[p]} ∪ used proto pm ∧ open_ports proto pm' = {[p]} ∪ open_ports proto pm
  | Err _ => used proto pm' = used proto pm ∧ open_ports proto pm' = open_ports proto pm
  end.
Proof.
  intros Hok Hop. apply openPort_inv in Hop. destruct r as [p|[]].
  - destruct Hop as (pm1 & Hres & _ & ->). apply reserve_Ok in Hres as (Hr & Hf & -> & Hw & _).
    assert (∀ q n, (n ∈ open_ports q pm → n ∈ used q pm) ∧
       (n ∈ used q pm → pm_min pm <= n <= pm_max pm)) as Hok' by exact Hok.
    unfold pm_ok, open_ports, used, setUDP, setTCP, set_used in *.
    destruct (String.eqb proto "udp") eqn:Hp; simpl in *;
      (split; [|split_and!; done || lia]);
      intros q n; destruct (Hok' q n); destruct (String.eqb q "udp"); simpl in *;
      rewrite ?elem_of_union, ?elem_of_singleton; (split; [naive_solver|]);
      intros Hin; try destruct Hin as [->|]; auto.
  - apply reserve_Err in Hop as (_ & -> & _). done.
  - destruct Hop as (p & pm1 & Hres & _ & ->). apply reserve_Ok in Hres as (Hr & Hf & -> & _).
    assert (Hrest : ({[p]} ∪ used proto pm) ∖ {[p]} = used proto pm) by set_solver.
    assert (Hop : open_ports proto pm ∖ {[p]} = open_ports proto pm).
    { destruct (Hok proto p). set_solver. }
    unfold pm_ok, open_ports, used, release, set_used, used in *.
    destruct (String.eqb proto "udp") eqn:Hp; simpl in *; rewrite ?Hrest, ?Hop;
      (split; [|done]); intros q n; specialize (Hok q n);
      destruct (String.eqb q "udp"); simpl in *; done.
Qed.

Lemma openPort_failed_used listen proto want pm e pm' :
  pm_ok pm → openPort listen proto want pm = (Err e, pm') → ∀ q, used q pm' = used q pm.
Proof.
  intros Hok Hop q. pose proof (openPort_ok _ _ _ _ _ _ Hok Hop) as (_ & _ & _ & Hu & _).
  destruct (decide (same_proto proto q)) as [Hs|Hs].
  { by rewrite <- !(used_same _ _ _ Hs). }
  apply openPort_inv in Hop. destruct e.
  - apply reserve_Err in Hop as (_ & -> & _). done.
  - destruct Hop as (p & pm1 & Hres & _ & ->). apply reserve_Ok in Hres as (_ & _ & -> & _).
    by rewrite release_used_other, used_set_used_other.
Qed.

(** Opening a port never breaks the pool's invariant (listeners are on
    reserved ports, reserved ports are in the configured range); on success the
    port is in range, was free, is the requested one when one was requested,
    and is now reserved and open; on any failure, also when the operating
    system refuses to listen, no port stays reserved or open that was not. *)
Theorem openPort_spec listen proto want pm r pm' :
  pm_ok pm → openPort listen proto want pm = (r, pm') →
  pm_ok pm' ∧ pm_min pm' = pm_min pm ∧ pm_max pm' = pm_max pm ∧
  match r with
  | Ok p =>
      pm_min pm <= p <= pm_max pm ∧ (p ∉ used proto pm) ∧ (want ≠ 0 → p = want) ∧
      used proto pm' = {[p]} ∪ used proto pm ∧ open_ports proto pm' = {[p]} ∪ open_ports proto pm
  | Err _ => used proto pm' = used proto pm ∧ open_ports proto pm' = open_ports proto pm
  end.
Proof. apply openPort_ok. Qed.

Definition ex_pool : portManager :=
  snd (openPort (λ _, true) "tcp" 0 (newPortManager 20000 20001)).

Lemma openPort_spec_witness :
  ∃ pm', openPort (λ _, true) "tcp" 20001 ex_pool = (Ok 20001, pm') ∧
    used "tcp" pm' = {[20001]} ∪ used "tcp" ex_pool.
Proof.
  assert (Hok : pm_ok ex_pool).
  { eapply (openPort_spec (λ _, true) "tcp" 0 (newPortManager 20000 20001));
      [apply newPortManager_ok|vm_compute; reflexivity]. }
  set (pm' := snd (openPort (λ _, true) "tcp" 20001 ex_pool)).
  assert (Hrun : openPort (λ _, true) "tcp" 20001 ex_pool = (Ok 20001, pm'))
    by (vm_compute; reflexivity).
  exists pm'. split; [exact Hrun|].
  pose proof (openPort_spec (λ _, true) "tcp" 20001 ex_pool (Ok 20001) pm' Hok Hrun)
    as (_ & _ & _ & _ & _ & _ & Hu & _).
  exact Hu.
Defined.
