(* ===== verification/Hub.v ===== *)
(** The edge's in-process routing table (internal/server/hub.go): bound
    tunnels and agent sessions as objects in a store, the hub's maps of
    pointers to them, and every operation of the hub.  Each operation runs
    under the hub's lock, so a run of the edge is, for the hub, a sequence of
    these operations by any sessions in any order. *)
From S2P Require Import Prelude GoStrings Wire Registry.

Open Scope Z_scope.

(** * Objects *)
Definition tref := nat. (* *boundTunnel *)
Definition sref := nat. (* *agentSession *)

Record boundTunnel := {
  clientTunnelID : string;
  bt_accountID : string;
  bt_plan : string;
  ttype : TunnelType;
  host : string; (* routing key; empty for tcp/udp *)
  port : Z;      (* assigned port; 0 for http/https/tls *)
  options : gmap string string;
  session : sref;
  publicURL : string;
  startedAt : Time;
  bytesIn : Z;
  bytesOut : Z;
  requests : Z;
}.

Record agentSession := {
  sessionID : string;
  accountID : string;
  plan : string;
  apiKey : string;
  tunnels : gmap string tref; (* by clientTunnelID *)
}.

Record Hub := {
  byHost : gmap string tref;
  byPort : gmap string tref;
  sessions : gmap string sref;
}.

(** The hub together with the objects its pointers lead to. *)
Record World := {
  hub : Hub;
  tuns : gmap tref boundTunnel;
  asess : gmap sref agentSession;
}.

Definition NewHub : Hub := {| byHost := ∅; byPort := ∅; sessions := ∅ |}.

(** Field updates. *)
Definition with_hub (f : Hub → Hub) (w : World) : World :=
  {| hub := f (hub w); tuns := tuns w; asess := asess w |}.
Definition with_tun (t : tref) (f : boundTunnel → boundTunnel) (w : World) : World :=
  {| hub := hub w; tuns := alter f t (tuns w); asess := asess w |}.
Definition with_sess (a : sref) (f : agentSession → agentSession) (w : World) : World :=
  {| hub := hub w; tuns := tuns w; asess := alter f a (asess w) |}.
Definition set_tunnels (ts : gmap string tref) (s : agentSession) : agentSession :=
  {| sessionID := sessionID s; accountID := accountID s; plan := plan s; apiKey := apiKey s;
     tunnels := ts |}.
Definition set_host (h : string) (bt : boundTunnel) : boundTunnel :=
  {| clientTunnelID := clientTunnelID bt; bt_accountID := bt_accountID bt; bt_plan := bt_plan bt;
     ttype := ttype bt; host := h; port := port bt; options := options bt; session := session bt;
     publicURL := publicURL bt; startedAt := startedAt bt; bytesIn := bytesIn bt;
     bytesOut := bytesOut bt; requests := requests bt |}.
Definition set_port (p : Z) (bt : boundTunnel) : boundTunnel :=
  {| clientTunnelID := clientTunnelID bt; bt_accountID := bt_accountID bt; bt_plan := bt_plan bt;
     ttype := ttype bt; host := host bt; port := p; options := options bt; session := session bt;
     publicURL := publicURL bt; startedAt := startedAt bt; bytesIn := bytesIn bt;
     bytesOut := bytesOut bt; requests := requests bt |}.
Definition set_public (url : string) (at_ : Time) (bt : boundTunnel) : boundTunnel :=
  {| clientTunnelID := clientTunnelID bt; bt_accountID := bt_accountID bt; bt_plan := bt_plan bt;
     ttype := ttype bt; host := host bt; port := port bt; options := options bt;
     session := session bt; publicURL := url; startedAt := at_; bytesIn := bytesIn bt;
     bytesOut := bytesOut bt; requests := requests bt |}.

(** [addTraffic]: the counters are atomic int64s. *)
Definition addTraffic (in_ out req : Z) (bt : boundTunnel) : boundTunnel :=
  {| clientTunnelID := clientTunnelID bt; bt_accountID := bt_accountID bt; bt_plan := bt_plan bt;
     ttype := ttype bt; host := host bt; port := port bt; options := options bt;
     session := session bt; publicURL := publicURL bt; startedAt := startedAt bt;
     bytesIn := add64 (bytesIn bt) in_; bytesOut := add64 (bytesOut bt) out;
     requests := add64 (requests bt) req |}.

Definition protoForType (t : TunnelType) : string :=
  match t with
  | UDP => "udp" | TCP => "tcp" | TLS => "tls" | HTTPS => "https" | HTTP => "http"
  end.

Definition portKey (proto : string) (port : Z) : string := proto +:+ ":" +:+ Itoa port.

(** * Operations *)
Definition addSession (a : sref) (w : World) : World :=
  match asess w !! a with
  | Some s => with_hub (λ h, {| byHost := byHost h; byPort := byPort h;
                                sessions := <[sessionID s := a]> (sessions h) |}) w
  | None => w
  end.

(** Removing a tunnel's routes, the body shared by [unbind] and the loop of
    [removeSession]. *)
Definition drop_routes (bt : boundTunnel) (h : Hub) : Hub :=
  let h := if negb (String.eqb (host bt) "")
           then {| byHost := delete (host bt) (byHost h); byPort := byPort h; sessions := sessions h |}
           else h in
  if negb (port bt =? 0)
  then {| byHost := byHost h; byPort := delete (portKey (protoForType (ttype bt)) (port bt)) (byPort h);
          sessions := sessions h |}
  else h.

Definition unbind (t : tref) (w : World) : World :=
  match tuns w !! t with
  | Some bt => with_hub (drop_routes bt) w
  | None => w
  end.

Section hub.
  Context `{RangeOrder}.

Definition removeSession (a : sref) (w : World) : World :=
  match asess w !! a with
  | Some s =>
      let w := with_hub (λ h, {| byHost := byHost h; byPort := byPort h;
                                 sessions := delete (sessionID s) (sessions h) |}) w in
      foldl (λ w e, unbind (snd e) w) w (range_map (tunnels s))
  | None => w
  end.

(** The session of the tunnel a route leads to ([existing.session]). *)
Definition owner (w : World) (r : option tref) : option sref :=
  t ← r; session <$> tuns w !! t.

(** [bindHost] refuses a host whose tunnel belongs to another session. *)
Definition bindHost (t : tref) (w : World) : result string World :=
  match tuns w !! t with
  | None => Ok w
  | Some bt =>
      if bool_decide (is_Some (byHost (hub w) !! host bt)) &&
         negb (bool_decide (owner w (byHost (hub w) !! host bt) = Some (session bt)))
      then Err ("host " +:+ Quote (host bt) +:+ " already bound")
      else Ok (with_hub (λ h, {| byHost := <[host bt := t]> (byHost h); byPort := byPort h;
                                 sessions := sessions h |}) w)
  end.

Definition bindPort (t : tref) (w : World) : result string World :=
  match tuns w !! t with
  | None => Ok w
  | Some bt =>
      let key := portKey (protoForType (ttype bt)) (port bt) in
      if bool_decide (is_Some (byPort (hub w) !! key)) &&
         negb (bool_decide (owner w (byPort (hub w) !! key) = Some (session bt)))
      then Err ("port " +:+ key +:+ " already bound")
      else Ok (with_hub (λ h, {| byHost := byHost h; byPort := <[key := t]> (byPort h);
                                 sessions := sessions h |}) w)
  end.

Definition LookupHost (h : string) (w : World) : option tref := byHost (hub w) !! h.
Definition LookupPort (proto : string) (port : Z) (w : World) : option tref :=
  byPort (hub w) !! portKey proto port.

Definition Stats (w : World) : nat * nat :=
  (size (sessions (hub w)), (size (byHost (hub w)) + size (byPort (hub w)))%nat).

Definition SnapshotRoutes (w : World) : list Route :=
  map (λ e, host_route (fst e)) (range_map (byHost (hub w))) ++
  omap (λ e, bt ← tuns w !! snd e; Some (port_route (protoForType (ttype bt)) (port bt)))
       (range_map (byPort (hub w))).

Definition SnapshotSessions (w : World) : list sref := (range_map (sessions (hub w))).*2.
End hub.

(** * Runs of the hub *)
Inductive hub_op :=
| OAddSession (a : sref)
| ORemoveSession (a : sref)
| OBindHost (t : tref)
| OBindPort (t : tref)
| OUnbind (t : tref).

Section runs.
  Context `{RangeOrder}.

(** A refused bind leaves the hub as it was. *)
Definition hub_exec (w : World) (o : hub_op) : World :=
  match o with
  | OAddSession a => addSession a w
  | ORemoveSession a => removeSession a w
  | OBindHost t => match bindHost t w with Ok w' => w' | Err _ => w end
  | OBindPort t => match bindPort t w with Ok w' => w' | Err _ => w end
  | OUnbind t => unbind t w
  end.

Definition has_host (w : World) (h : string) (t : tref) : Prop :=
  host <$> tuns w !! t = Some h.

(** [o] gives up host [h]: it unbinds a tunnel of that host. *)
Definition gives_up (w : World) (h : string) (o : hub_op) : Prop :=
  match o with
  | OUnbind t => has_host w h t
  | ORemoveSession a => ∃ s id t, asess w !! a = Some s ∧ tunnels s !! id = Some t ∧ has_host w h t
  | _ => False
  end.

(** No operation of the hub touches an object. *)
Definition same_objects (w w' : World) : Prop := tuns w' = tuns w ∧ asess w' = asess w.

Lemma unbind_objects t w : same_objects w (unbind t w).
Proof. unfold unbind. by destruct (tuns w !! t). Qed.

Lemma foldl_unbind_objects l w : same_objects w (foldl (λ w e, unbind (snd e) w) w (l : list (string * tref))).
Proof.
  revert w. induction l as [|e l IH]; intros w; simpl; [done|].
  destruct (IH (unbind (snd e) w)) as [H1 H2], (unbind_objects (snd e) w) as [H3 H4].
  split; congruence.
Qed.

Lemma hub_exec_objects w o : same_objects w (hub_exec w o).
Proof.
  destruct o as [a|a|t|t|t]; simpl.
  - unfold addSession. by destruct (asess w !! a).
  - unfold removeSession. destruct (asess w !! a) as [s|]; [|done].
    by apply (foldl_unbind_objects _ (with_hub _ w)).
  - unfold bindHost. destruct (tuns w !! t); [|done]. by destruct (_ && _).
  - unfold bindPort. destruct (tuns w !! t); [|done]. by destruct (_ && _).
  - apply unbind_objects.
Qed.

Lemma drop_routes_byHost bt h k : host bt ≠ k → byHost (drop_routes bt h) !! k = byHost h !! k.
Proof.
  intros Hne. unfold drop_routes.
  destruct (negb (String.eqb (host bt) "")), (negb (port bt =? 0)); simpl; try done;
    by rewrite lookup_delete_ne.
Qed.

Lemma unbind_byHost t w k : ¬ has_host w k t → byHost (hub (unbind t w)) !! k = byHost (hub w) !! k.
Proof.
  unfold has_host, unbind. destruct (tuns w !! t) as [bt|]; [|done]. simpl. intros Hne.
  apply drop_routes_byHost. congruence.
Qed.

Lemma foldl_unbind_byHost (l : list (string * tref)) w k :
  (∀ e, e ∈ l → ¬ has_host w k (snd e)) →
  byHost (hub (foldl (λ w e, unbind (snd e) w) w l)) !! k = byHost (hub w) !! k.
Proof.
  revert w. induction l as [|e l IH]; intros w Hl; simpl; [done|].
  rewrite IH.
  - apply unbind_byHost, Hl. left.
  - intros e' He'. unfold has_host. rewrite (proj1 (unbind_objects (snd e) w)). apply Hl. by right.
Qed.

(** One operation that does not give up [h] leaves it with its session. *)
Lemma hub_exec_owner w o h s :
  owner w (byHost (hub w) !! h) = Some s → ¬ gives_up w h o →
  owner (hub_exec w o) (byHost (hub (hub_exec w o)) !! h) = Some s.
Proof.
  intros Hown Hng. pose proof (hub_exec_objects w o) as [Ht _].
  assert (Hsame : byHost (hub (hub_exec w o)) !! h = byHost (hub w) !! h →
    owner (hub_exec w o) (byHost (hub (hub_exec w o)) !! h) = Some s).
  { intros ->. unfold owner. by rewrite Ht. }
  destruct o as [a|a|t|t|t]; simpl in *.
  - apply Hsame. unfold addSession. by destruct (asess w !! a).
  - apply Hsame. unfold removeSession in *. destruct (asess w !! a) as [s'|] eqn:Ha; [|done].
    rewrite foldl_unbind_byHost; [done|]. intros [id t] Hin Hh. apply Hng.
    apply elem_of_range in Hin. by exists s', id, t.
  - unfold bindHost in *. destruct (tuns w !! t) as [bt|] eqn:Hbt; [|done].
    destruct (_ && _) eqn:Hc; [done|]. simpl in *.
    destruct (decide (host bt = h)) as [<-|Hne]; [|by rewrite lookup_insert_ne in *; auto].
    rewrite lookup_insert. rewrite decide_True by done. unfold owner. simpl. rewrite Hbt. simpl.
    rewrite Hown in Hc. destruct (byHost (hub w) !! host bt) as [t'|] eqn:Hl; [|done].
    rewrite (bool_decide_true (is_Some (Some t'))) in Hc by eauto. simpl in Hc. bool_simpl. congruence.
  - apply Hsame. unfold bindPort. destruct (tuns w !! t); [|done]. by destruct (_ && _).
  - apply Hsame. by apply unbind_byHost.
Qed.

(** C9: routes cannot be hijacked.  In every run of the hub, whatever the
    interleaving of the sessions' operations, a host that belongs to a session
    stays with it until a tunnel of that host is unbound; and until then a bind
    of that host by any other session is refused. *)
Theorem host_never_hijacked w ops h s :
  owner w (byHost (hub w) !! h) = Some s → Forall (λ o, ¬ gives_up w h o) ops →
  let w' := foldl hub_exec w ops in
  owner w' (byHost (hub w') !! h) = Some s ∧
  (∀ t bt, tuns w !! t = Some bt → host bt = h → session bt ≠ s → ∃ e, bindHost t w' = Err e).
Proof.
  intros Hown Hops w'. assert (Hgo : same_objects w w' ∧ owner w' (byHost (hub w') !! h) = Some s).
  { subst w'. revert w Hown Hops. induction ops as [|o ops IH]; intros w Hown Hops; simpl; [done|].
    apply Forall_cons_1 in Hops as [Ho Hops]. destruct (hub_exec_objects w o) as [Ht Ha].
    destruct (IH (hub_exec w o)) as [[Ht' Ha'] Hw'].
    - by apply hub_exec_owner.
    - revert Hops. apply Forall_impl. intros o' Hng Hg. apply Hng. clear -Hg Ht Ha.
      unfold gives_up, has_host in *. by rewrite Ht, Ha in Hg.
    - split; [split; congruence|done]. }
  destruct Hgo as [[Ht _] Hw']. split; [done|]. intros t bt Hbt <- Hne.
  unfold bindHost. rewrite Ht, Hbt, Hw'.
  destruct (byHost (hub w') !! host bt) as [t'|] eqn:Hl; [|done].
  rewrite (bool_decide_true (is_Some (Some t'))) by eauto.
  rewrite bool_decide_false by congruence. simpl. eauto.
Qed.
End runs.

Definition ex_tunnel (s : sref) (h : string) : boundTunnel :=
  {| clientTunnelID := "t"; bt_accountID := "acc"; bt_plan := "pro"; ttype := HTTP; host := h;
     port := 0; options := ∅; session := s; publicURL := ""; startedAt := 0; bytesIn := 0;
     bytesOut := 0; requests := 0 |}.

Definition ex_world : World :=
  {| hub := {| byHost := {[ "a.lvh.me" := 1%nat ]}; byPort := ∅; sessions := ∅ |};
     tuns := {[ 1%nat := ex_tunnel 7%nat "a.lvh.me"; 2%nat := ex_tunnel 8%nat "a.lvh.me";
                3%nat := ex_tunnel 8%nat "b.lvh.me" ]};
     asess := ∅ |}.

Lemma host_never_hijacked_witness :
  owner ex_world (Some 1%nat) = Some 7%nat ∧
  ∃ e, bindHost 2%nat (foldl (hub_exec (H:=sorted_range)) ex_world
         [OBindHost 2%nat; OBindHost 3%nat; OUnbind 3%nat]) = Err e.
Proof.
  split; [reflexivity|].
  destruct (host_never_hijacked (H:=sorted_range) ex_world
    [OBindHost 2%nat; OBindHost 3%nat; OUnbind 3%nat] "a.lvh.me" 7%nat) as [_ Hno].
  - reflexivity.
  - repeat constructor; vm_compute; congruence.
  - apply (Hno 2%nat (ex_tunnel 8%nat "a.lvh.me")); [reflexivity|reflexivity|done].
Defined.
