(* ===== verification/Usage.v ===== *)
(** Usage metering on the edge (internal/server/usage.go): per-account,
    per-tunnel windows that accumulate traffic and are flushed to the
    entitlements service. *)
From S2P Require Import Prelude GoStrings Authz.

Open Scope Z_scope.

Abbreviation usageKey := (string * string)%type.

Record usageAgg := { windows : gmap usageKey Usage }.
Definition newUsageAgg : usageAgg := {| windows := ∅ |}.

Definition new_window (now : Time) (accountID tunnelID : string) : Usage :=
  {| u_AccountID := accountID; u_TunnelID := tunnelID; u_BytesIn := 0; u_BytesOut := 0;
     u_Requests := 0; u_WindowStart := now; u_WindowEnd := zero_time |}.

Definition add_usage (w : Usage) (bytesIn bytesOut requests : Z) : Usage :=
  {| u_AccountID := u_AccountID w; u_TunnelID := u_TunnelID w;
     u_BytesIn := add64 (u_BytesIn w) bytesIn; u_BytesOut := add64 (u_BytesOut w) bytesOut;
     u_Requests := add64 (u_Requests w) requests;
     u_WindowStart := u_WindowStart w; u_WindowEnd := u_WindowEnd w |}.

Definition record (now : Time) (accountID tunnelID : string) (bytesIn bytesOut requests : Z)
    (u : usageAgg) : usageAgg :=
  if String.eqb accountID "" then u
  else
    let k := (accountID, tunnelID) in
    let w := default (new_window now accountID tunnelID) (windows u !! k) in
    {| windows := <[k := add_usage w bytesIn bytesOut requests]> (windows u) |}.

Definition end_window (now : Time) (w : Usage) : Usage :=
  {| u_AccountID := u_AccountID w; u_TunnelID := u_TunnelID w; u_BytesIn := u_BytesIn w;
     u_BytesOut := u_BytesOut w; u_Requests := u_Requests w;
     u_WindowStart := u_WindowStart w; u_WindowEnd := now |}.

Definition empty_window (w : Usage) : bool :=
  (u_BytesIn w =? 0) && (u_BytesOut w =? 0) && (u_Requests w =? 0).

Section usage.
  Context `{RangeOrder}.

(** What a flush reports: every window with traffic, closed at [now]. *)
Definition flush_reports (now : Time) (u : usageAgg) : list Usage :=
  map (end_window now) (List.filter (λ w, negb (empty_window w)) (range_map (windows u)).*2).

(** [ReportUsage]'s error is dropped. *)
Fixpoint report_all {E} `{Entitlements E} (now : Time) (ws : list Usage) (ent : E) : E :=
  match ws with
  | [] => ent
  | w :: ws => report_all now ws (snd (ReportUsage now w ent))
  end.

Definition flush {E} `{Entitlements E} (now : Time) (s : usageAgg * E) : usageAgg * E :=
  ({| windows := ∅ |}, report_all now (flush_reports now (fst s)) (snd s)).

(** * Conservation *)
Inductive usage_event :=
| URecord (now : Time) (accountID tunnelID : string) (bytesIn bytesOut requests : Z)
| UFlush (now : Time).

(** The service behind a ledger: every report that reaches it, with whether it took it. *)
Record Ledger E := { lg_service : E; lg_reports : list (Usage * bool) }.
#[global] Arguments lg_service {E} _.
#[global] Arguments lg_reports {E} _.
Definition through {E A} (m : M E unit A) (log : result unit A → list (Usage * bool)) : M (Ledger E) unit A := λ l,
  let '(r, e) := m (lg_service l) in (r, {| lg_service := e; lg_reports := lg_reports l ++ log r |}).
#[global] Instance LedgerEntitlements {E} `{Entitlements E} : Entitlements (Ledger E) :=
  {| Authenticate := λ now key, through (Authenticate now key) (λ _, []);
     CheckBind := λ now b, through (CheckBind now b) (λ _, []);
     ReportUsage := λ now u, through (ReportUsage now u) (λ r, [(u, is_ok r)]) |}.

Definition usage_step {E} `{Entitlements E} (s : usageAgg * E) (e : usage_event) : usageAgg * E :=
  match e with
  | URecord now acc tun i o r => (record now acc tun i o r (fst s), snd s)
  | UFlush now => flush now s
  end.

(** The reports the service took, and those whose error the flush dropped. *)
Definition taken {E} (l : Ledger E) : list Usage := (List.filter (λ x, snd x) (lg_reports l)).*1.
Definition dropped {E} (l : Ledger E) : list Usage := (List.filter (λ x, negb (snd x)) (lg_reports l)).*1.

Inductive counter := BytesIn | BytesOut | Requests.
Definition amount (c : counter) (u : Usage) : Z :=
  match c with BytesIn => u_BytesIn u | BytesOut => u_BytesOut u | Requests => u_Requests u end.

Definition ukey (u : Usage) : usageKey := (u_AccountID u, u_TunnelID u).

(** What is billed to key [k] on counter [c]. *)
Fixpoint billed (c : counter) (k : usageKey) (us : list Usage) : Z :=
  match us with
  | [] => 0
  | u :: us => (if bool_decide (ukey u = k) then amount c u else 0) + billed c k us
  end.

Definition event_amount (c : counter) (k : usageKey) (e : usage_event) : Z :=
  match e with
  | URecord _ acc tun i o r =>
      if bool_decide ((acc, tun) = k)
      then match c with BytesIn => i | BytesOut => o | Requests => r end else 0
  | UFlush _ => 0
  end.

Fixpoint recorded (c : counter) (k : usageKey) (es : list usage_event) : Z :=
  match es with [] => 0 | e :: es => event_amount c k e + recorded c k es end.

Lemma billed_app c k us vs : billed c k (us ++ vs) = billed c k us + billed c k vs.
Proof. induction us as [|u us IH]; simpl; [done|]. rewrite IH. lia. Qed.

(** The ledger hears of every report once, and changes nothing of the service. *)
Lemma report_all_ledger {E} `{Entitlements E} now us (l : Ledger E) :
  (lg_reports (report_all now us l)).*1 = (lg_reports l).*1 ++ us ∧
  lg_service (report_all now us l) = report_all now us (lg_service l).
Proof.
  revert l. induction us as [|u us IH]; intros l; simpl; [by rewrite app_nil_r|].
  unfold through. destruct (ReportUsage now u (lg_service l)) as [r e] eqn:Hr. simpl.
  destruct (IH {| lg_service := e; lg_reports := lg_reports l ++ [(u, is_ok r)] |}) as [-> ->]. simpl.
  by rewrite fmap_app, <- (assoc_L (++)).
Qed.

Lemma billed_split c k (l : list (Usage * bool)) :
  billed c k (List.filter (λ x, snd x) l).*1 + billed c k (List.filter (λ x, negb (snd x)) l).*1 = billed c k l.*1.
Proof. induction l as [|[u []] l IH]; csimpl in *; [done|lia..]. Qed.

(** Closing the windows with traffic bills what the windows hold. *)
Lemma billed_closed c k now us :
  billed c k (map (end_window now) (List.filter (λ w, negb (empty_window w)) us)) = billed c k us.
Proof.
  induction us as [|u us IH]; simpl; [done|].
  destruct (empty_window u) eqn:He; simpl; [|by rewrite IH; destruct c].
  rewrite IH. unfold empty_window in He. bool_simpl.
  case_bool_decide; destruct c; simpl; lia.
Qed.

Definition keyed (m : gmap usageKey Usage) : Prop := ∀ k w, m !! k = Some w → ukey w = k.
Definition in_window (c : counter) (k : usageKey) (m : gmap usageKey Usage) : Z :=
  match m !! k with Some w => amount c w | None => 0 end.

Lemma billed_list c k (l : list (usageKey * Usage)) :
  NoDup l.*1 → (∀ e, e ∈ l → ukey (snd e) = fst e) →
  billed c k l.*2 = in_window c k (list_to_map l).
Proof.
  unfold in_window. induction l as [|[k' w] l IH]; intros Hnd Hk; csimpl; [by rewrite lookup_empty|].
  apply list.NoDup_cons in Hnd as [Hni Hnd].
  assert (Hw : ukey w = k') by (apply (Hk (k', w)); left).
  rewrite IH by (try done; intros e He; apply Hk; by right). rewrite Hw. case_bool_decide as Hkk.
  - subst k. rewrite lookup_insert_eq. rewrite not_elem_of_list_to_map_1 by done. lia.
  - rewrite lookup_insert_ne by done. lia.
Qed.

Lemma billed_flush c k now u :
  keyed (windows u) → billed c k (flush_reports now u) = in_window c k (windows u).
Proof.
  intros Hk. unfold flush_reports. rewrite billed_closed, billed_list.
  - by rewrite list_to_map_range.
  - apply range_nodup.
  - intros [k' w] Hin%elem_of_range. simpl. by apply Hk.
Qed.

(** The books balance: reported plus pending is what was recorded. *)
Definition balanced {E} (c : counter) (k : usageKey) (s : usageAgg * Ledger E) (tot : Z) : Prop :=
  let reported := billed c k (lg_reports (snd s)).*1 in
  keyed (windows (fst s)) ∧ 0 <= in_window c k (windows (fst s)) ∧ 0 <= reported ∧
  reported + in_window c k (windows (fst s)) = tot.

Lemma record_in_window c k now acc tun i o r u :
  acc ≠ "" →
  in_window c k (windows (record now acc tun i o r u)) =
  if bool_decide ((acc, tun) = k)
  then add64 (in_window c k (windows u)) (event_amount c k (URecord now acc tun i o r))
  else in_window c k (windows u).
Proof.
  intros Hacc. unfold record, in_window. apply String.eqb_neq in Hacc as ->. simpl.
  case_bool_decide as Hk.
  - subst k. rewrite lookup_insert_eq. destruct (windows u !! (acc, tun)); by destruct c.
  - by rewrite lookup_insert_ne.
Qed.

Lemma record_keyed now acc tun i o r u :
  keyed (windows u) → keyed (windows (record now acc tun i o r u)).
Proof.
  intros Hk k w. unfold record. destruct (String.eqb acc ""); [apply Hk|]. simpl.
  rewrite lookup_insert_Some. intros [[<- <-]|[_ Hw]]; [|by apply Hk].
  destruct (windows u !! (acc, tun)) as [w|] eqn:Hw; [by apply Hk in Hw|done].
Qed.

Lemma usage_step_balanced {E} `{Entitlements E} c k (s : usageAgg * Ledger E) e tot :
  fst k ≠ "" → balanced c k s tot → 0 <= event_amount c k e → tot + event_amount c k e < 2 ^ 63 →
  balanced c k (usage_step s e) (tot + event_amount c k e).
Proof.
  intros Hne (Hk & H1 & H2 & H3) Hpos Hmax. destruct s as [u us], e as [now acc tun i o r|now].
  - simpl fst in *. simpl snd in *. unfold balanced. simpl fst. simpl snd.
    split; [by apply record_keyed|]. destruct (String.eqb acc "") eqn:Hacc.
    + bool_simpl. subst acc. unfold record. simpl. rewrite bool_decide_false by naive_solver. lia.
    + bool_simpl. rewrite record_in_window by done.
      simpl event_amount in *. case_bool_decide as Hkk; [|lia].
      rewrite add64_exact; [lia|]. unfold in64. lia.
  - simpl in *. split; [by intros ??|].
    unfold in_window at 1 2. simpl. rewrite lookup_empty.
    rewrite (proj1 (report_all_ledger _ _ _)), billed_app, billed_flush by done. lia.
Qed.

(** C10: metering conserves traffic.  Record non-negative amounts and flush, in any order
    and however often: for every account, tunnel and counter, what the entitlements
    service took in reports, plus what was in reports it refused or that did not reach it
    (a flush drops the error, so these are lost), plus what the current window still holds,
    is exactly what was recorded, as long as the total fits an int64.  So nothing is billed
    twice, and nothing is lost but in a report that failed: when all reports succeed, billed
    and pending traffic is the recorded traffic. *)
Theorem usage_conserved {E} `{Entitlements E} c k es (e0 : E) :
  fst k ≠ "" → (∀ e, e ∈ es → 0 <= event_amount c k e) → recorded c k es < 2 ^ 63 →
  let s := foldl usage_step (newUsageAgg, {| lg_service := e0; lg_reports := [] |}) es in
  billed c k (taken (snd s)) + billed c k (dropped (snd s)) + in_window c k (windows (fst s)) = recorded c k es ∧
  (Forall (λ x, snd x = true) (lg_reports (snd s)) →
   billed c k (taken (snd s)) + in_window c k (windows (fst s)) = recorded c k es).
Proof.
  intros Hne Hpos Hmax s.
  assert (Hgo : ∀ (s0 : usageAgg * Ledger E) tot, balanced c k s0 tot → tot + recorded c k es < 2 ^ 63 →
            balanced c k (foldl usage_step s0 es) (tot + recorded c k es)).
  { clear s Hmax. induction es as [|e es IH]; intros s0 tot Hb Hlt; simpl in *.
    - by rewrite Z.add_0_r.
    - assert (Hsum : ∀ l, (∀ e, e ∈ l → 0 <= event_amount c k e) → 0 <= recorded c k l).
      { induction l as [|x l IHl]; intros Hl; simpl; [lia|].
        specialize (Hl x (list_elem_of_here x l)) as Hx. specialize (IHl (λ e He, Hl e (list_elem_of_further _ _ _ He))). lia. }
      assert (0 <= recorded c k es) by (apply Hsum; intros; apply Hpos; by right).
      pose proof (Hpos e (list_elem_of_here e es)).
      rewrite Z.add_assoc. apply IH; [|apply usage_step_balanced; auto; lia|lia].
      intros x Hx. apply Hpos. by right. }
  destruct (Hgo (newUsageAgg, {| lg_service := e0; lg_reports := [] |}) 0) as (_ & _ & _ & Hsum);
    [by split; [intros ??|]|done|]. fold s in Hsum.
  assert (Hall : billed c k (taken (snd s)) + billed c k (dropped (snd s)) +
                 in_window c k (windows (fst s)) = recorded c k es)
    by (pose proof (billed_split c k (lg_reports (snd s))); unfold taken, dropped; lia).
  split; [done|]. intros Hok. rewrite <- Hall. unfold dropped.
  replace (List.filter (λ x, negb (snd x)) (lg_reports (snd s))) with (@nil (Usage * bool)); [simpl; lia|].
  clear -Hok. by induction Hok as [|x l Hx _ IH]; simpl; [|rewrite Hx].
Qed.
End usage.

(** A service that fails at time 3. *)
#[local] Instance flaky : Entitlements unit :=
  {| Authenticate := λ _ _, mret ("dev", "pro"); CheckBind := λ _, stub_CheckBind;
     ReportUsage := λ now _, if now =? 3 then throw tt else mret tt |}.

Definition ex_usage : list usage_event :=
  [URecord 1 "acc" "t1" 10 20 1; URecord 2 "acc" "t2" 5 5 1; UFlush 3; URecord 4 "acc" "t1" 7 0 1; UFlush 5;
   URecord 6 "acc" "t1" 2 0 1].

Lemma usage_conserved_witness :
  let s := foldl (usage_step (H:=sorted_range)) (newUsageAgg, {| lg_service := tt; lg_reports := [] |}) ex_usage in
  billed BytesIn ("acc", "t1") (taken (snd s)) = 7 ∧ billed BytesIn ("acc", "t1") (dropped (snd s)) = 10 ∧
  billed BytesIn ("acc", "t1") (taken (snd s)) + billed BytesIn ("acc", "t1") (dropped (snd s)) +
    in_window BytesIn ("acc", "t1") (windows (fst s)) = 19.
Proof.
  split; [reflexivity|]. split; [reflexivity|].
  apply (usage_conserved (H:=sorted_range) BytesIn ("acc", "t1") ex_usage tt);
    [done| |vm_compute; reflexivity].
  intros e He. unfold ex_usage in He. rewrite !elem_of_cons, elem_of_nil in He.
  destruct He as [->|[->|[->|[->|[->|[->|[]]]]]]]; vm_compute; congruence.
Defined.
