(* ===== verification/Edge.v ===== *)
(** The edge's tunnel lifecycle (internal/server/server.go and session.go):
    bind, host and port allocation, unbind, release, session handshake, control
    loop and teardown, over any registry and any entitlements service. *)
From S2P Require Import Prelude GoStrings Wire Authz Registry EdgeConfig Ports Hub Usage.
From Stdlib Require Import Ascii.

Open Scope Z_scope.

Record TunnelReport := {
  tr_Action : string;
  tr_EdgeID : string;
  tr_SessionID : string;
  tr_TunnelID : string;
  tr_AccountID : string;
  tr_Type : string;
  tr_PublicURL : string;
  tr_Host : string;
  tr_Port : Z;
  tr_Region : string;
  tr_ClientIP : string;
  tr_BytesIn : Z;
  tr_BytesOut : Z;
  tr_Requests : Z;
  tr_At : Time;
}.

(** The server, over a registry [R] and an entitlements service [E].  The
    history reports are sent by goroutines of their own: [reports] lists those
    started, their delivery order is not part of the model. *)
Record Server (R E : Type) := mkServer {
  cfg : Config;
  ent : E;
  reporting : bool; (* s.reporter != nil *)
  world : World;
  reg : R;
  ports : portManager;
  usage : usageAgg;
  TunnelsActive : Z;
  SessionsActive : Z;
  reports : list TunnelReport;
}.
Arguments mkServer {R E}.
Arguments cfg {R E}. Arguments ent {R E}. Arguments reporting {R E}. Arguments world {R E}.
Arguments reg {R E}. Arguments ports {R E}. Arguments usage {R E}.
Arguments TunnelsActive {R E}. Arguments SessionsActive {R E}. Arguments reports {R E}.

(** What a call reads from outside: the clock, [crypto/rand]'s successive
    draws, the operating system's answer to a listen, the peer's address. *)
Record Call := {
  now : Time;
  rnd : nat → list Z;
  listen : Z → bool;
  remoteAddr : option string;
}.

(** * Pure helpers *)
Definition firstNonEmpty (a b : string) : string := if negb (String.eqb a "") then a else b.

Definition bindErr (b : BindTunnel) (code msg : string) : BindResp :=
  {| br_client_tunnel_id := b_client_tunnel_id b; br_ok := false; br_public_url := "";
     br_assigned_host := ""; br_assigned_port := 0; br_error := Some (NewError code msg) |}.

Definition subdomainAlphabet : string := "abcdefghijklmnopqrstuvwxyz0123456789".

Definition alphabet_at (x : Z) : ascii :=
  match String.get (Z.to_nat (x mod 36)) subdomainAlphabet with Some a => a | None => "a"%char end.

Fixpoint chars (buf : list Z) : string :=
  match buf with [] => "" | x :: buf => String (alphabet_at x) (chars buf) end.

Definition randSubdomain (buf : list Z) : string :=
  match chars buf with
  | "" => ""
  | String a r => if ((48 <=? nat_of_ascii a) && (nat_of_ascii a <=? 57))%nat
                  then String "r" r else String a r
  end.

Definition hostOnly (hostport : string) : string :=
  let h := ToLower (TrimSpace hostport) in
  if Contains h ":" then
    match SplitHostPort h with Some (host, _) => host | None => h end
  else h.

Definition newSessionID (buf : list Z) : string := "sess_" +:+ EncodeToString buf.

(** [allocateHost]: the host, or an error code. *)
Definition allocateHost (c : Config) (w : World) (draw : nat → list Z) (b : BindTunnel) (dec : Decision)
    : result string string :=
  if negb (String.eqb (b_custom_domain b) "") then
    if negb (AllowCustomDomains (d_Limits dec)) then Err CodePlanForbids
    else Ok (ToLower (b_custom_domain b))
  else
    let sub := if String.eqb (b_subdomain b) "" && negb (String.eqb (AssignedSubdomain dec) "")
               then AssignedSubdomain dec else b_subdomain b in
    if negb (String.eqb sub "") then
      if negb (AllowReservedSubdomain (d_Limits dec)) then Err CodeSubdomainForbidden
      else
        let host := ToLower sub +:+ "." +:+ BaseDomain c in
        match LookupHost host w with Some _ => Err CodeSubdomainTaken | None => Ok host end
    else
      let hosts := map (λ i, randSubdomain (draw i) +:+ "." +:+ BaseDomain c) (seq 0 8) in
      match find_first (λ host, negb (bool_decide (is_Some (LookupHost host w)))) hosts with
      | Some host => Ok host
      | None => Err CodeInternal
      end.

Section edge.
  Context `{RangeOrder} {R : Type} `{Registry R} {E : Type} `{Entitlements E}.
  Implicit Types (s : Server R E) (c : Call) (a : sref) (t : tref).

(** * State updates *)
Definition with_world (f : World → World) s : Server R E :=
  mkServer (cfg s) (ent s) (reporting s) (f (world s)) (reg s) (ports s) (usage s)
    (TunnelsActive s) (SessionsActive s) (reports s).
Definition with_ent (e : E) s : Server R E :=
  mkServer (cfg s) e (reporting s) (world s) (reg s) (ports s) (usage s)
    (TunnelsActive s) (SessionsActive s) (reports s).
Definition with_reg (r : R) s : Server R E :=
  mkServer (cfg s) (ent s) (reporting s) (world s) r (ports s) (usage s)
    (TunnelsActive s) (SessionsActive s) (reports s).
Definition with_ports (p : portManager) s : Server R E :=
  mkServer (cfg s) (ent s) (reporting s) (world s) (reg s) p (usage s)
    (TunnelsActive s) (SessionsActive s) (reports s).
Definition with_usage (u : usageAgg) s : Server R E :=
  mkServer (cfg s) (ent s) (reporting s) (world s) (reg s) (ports s) u
    (TunnelsActive s) (SessionsActive s) (reports s).
Definition add_gauges (tun sess : Z) s : Server R E :=
  mkServer (cfg s) (ent s) (reporting s) (world s) (reg s) (ports s) (usage s)
    (TunnelsActive s + tun) (SessionsActive s + sess) (reports s).
Definition send_report (r : TunnelReport) s : Server R E :=
  mkServer (cfg s) (ent s) (reporting s) (world s) (reg s) (ports s) (usage s)
    (TunnelsActive s) (SessionsActive s) (reports s ++ [r]).

(** A fresh object. *)
Definition alloc_tunnel (t : tref) (bt : boundTunnel) (w : World) : World :=
  {| hub := hub w; tuns := <[t := bt]> (tuns w); asess := asess w |}.
Definition alloc_session (a : sref) (ss : agentSession) (w : World) : World :=
  {| hub := hub w; tuns := tuns w; asess := <[a := ss]> (asess w) |}.

Definition trackTunnel a t (w : World) : World :=
  match tuns w !! t with
  | Some bt => with_sess a (λ ss, set_tunnels (<[clientTunnelID bt := t]> (tunnels ss)) ss) w
  | None => w
  end.

Definition reportTunnelOpen c (ss : agentSession) (bt : boundTunnel) s : Server R E :=
  if negb (reporting s) then s
  else send_report
    {| tr_Action := "open"; tr_EdgeID := cfg_EdgeID (cfg s); tr_SessionID := sessionID ss;
       tr_TunnelID := clientTunnelID bt; tr_AccountID := bt_accountID bt;
       tr_Type := protoForType (ttype bt); tr_PublicURL := publicURL bt; tr_Host := host bt;
       tr_Port := port bt; tr_Region := cfg_Region (cfg s);
       tr_ClientIP := match remoteAddr c with Some addr => hostOnly addr | None => "" end;
       tr_BytesIn := 0; tr_BytesOut := 0; tr_Requests := 0; tr_At := startedAt bt |} s.

Definition reportTunnelClose (now : Time) (bt : boundTunnel) s : Server R E :=
  if negb (reporting s) then s
  else
    match asess (world s) !! session bt with
    | None => s
    | Some ss => send_report
        {| tr_Action := "close"; tr_EdgeID := cfg_EdgeID (cfg s); tr_SessionID := sessionID ss;
           tr_TunnelID := clientTunnelID bt; tr_AccountID := bt_accountID bt;
           tr_Type := protoForType (ttype bt); tr_PublicURL := ""; tr_Host := ""; tr_Port := 0;
           tr_Region := cfg_Region (cfg s); tr_ClientIP := ""; tr_BytesIn := bytesIn bt;
           tr_BytesOut := bytesOut bt; tr_Requests := requests bt; tr_At := now |} s
    end.

(** Errors of the registry are dropped by the handlers ([_ = s.reg.Bind(...)]). *)
Definition reg_bind_quiet (now : Time) (r : Route) (ss : agentSession) s : Server R E :=
  with_reg (snd (reg_Bind now r {| EdgeID := cfg_EdgeID (cfg s); SessionID := sessionID ss |}
                   (2 * HeartbeatInterval (cfg s)) (reg s))) s.
Definition reg_unbind_quiet (now : Time) (r : Route) s : Server R E :=
  with_reg (snd (reg_Unbind now r (reg s))) s.

(** * Binding *)

(** The common tail of both binds: publish, track, register, count, report. *)
Definition publish c a t (ss : agentSession) (url : string) (r : Route) s : Server R E :=
  let s := with_world (with_tun t (set_public url (now c))) s in
  let s := with_world (trackTunnel a t) s in
  let s := reg_bind_quiet (now c) r ss s in
  let s := add_gauges 1 0 s in
  match tuns (world s) !! t with
  | Some bt => reportTunnelOpen c ss bt s
  | None => s
  end.

Definition bindHostTunnel c a (ss : agentSession) (b : BindTunnel) t (dec : Decision) s
    : BindResp * Server R E :=
  match allocateHost (cfg s) (world s) (rnd c) b dec with
  | Err code => (bindErr b code "could not allocate hostname", s)
  | Ok host =>
      let s := with_world (with_tun t (set_host host)) s in
      match bindHost t (world s) with
      | Err e => (bindErr b CodeSubdomainTaken e, s)
      | Ok w =>
          let s := with_world (λ _, w) s in
          let url := "https://" +:+ host in
          let s := publish c a t ss url (host_route host) s in
          ({| br_client_tunnel_id := b_client_tunnel_id b; br_ok := true; br_public_url := url;
              br_assigned_host := host; br_assigned_port := 0; br_error := None |}, s)
      end
  end.

Definition bindPortTunnel c a (ss : agentSession) (b : BindTunnel) t (typ : string) s
    : BindResp * Server R E :=
  match openPort (listen c) typ (b_remote_port b) (ports s) with
  | (Err errPortUnavailable, pm) =>
      (bindErr b CodePortUnavailable "no ports available", with_ports pm s)
  | (Err errListen, pm) => (bindErr b CodeInternal "listen", with_ports pm s)
  | (Ok port, pm) =>
      let s := with_ports pm s in
      let s := with_world (with_tun t (set_port port)) s in
      match bindPort t (world s) with
      | Err e => (bindErr b CodePortUnavailable e, with_ports (release typ port (ports s)) s)
      | Ok w =>
          let s := with_world (λ _, w) s in
          let url := typ +:+ "://" +:+ BaseDomain (cfg s) +:+ ":" +:+ Itoa port in
          let s := publish c a t ss url (port_route typ port) s in
          ({| br_client_tunnel_id := b_client_tunnel_id b; br_ok := true; br_public_url := url;
              br_assigned_host := BaseDomain (cfg s); br_assigned_port := port;
              br_error := None |}, s)
      end
  end.

Definition fresh_tref (w : World) : tref := fresh (dom (tuns w)).

Definition handleBind c a (b : BindTunnel) s : BindResp * Server R E :=
  match asess (world s) !! a with
  | None => (bindErr b CodeInternal "", s) (* no such object: [a] is never dangling *)
  | Some ss =>
    let typ := protoForType (b_type b) in
    let req := {| APIKey := apiKey ss; Type_ := typ; Subdomain := b_subdomain b;
                  CustomHost := b_custom_domain b; RemotePort := b_remote_port b;
                  Region := cfg_Region (cfg s) |} in
    let '(r, e) := CheckBind (now c) req (ent s) in
    let s := with_ent e s in
    match r with
    | Err _ => (bindErr b CodeInternal "entitlement check failed", s)
    | Ok dec =>
      if negb (Allow dec) then
        (bindErr b (if String.eqb (ErrorCode dec) "" then CodePlanForbids else ErrorCode dec)
           (ErrorMessage dec), s)
      else if bool_decide (b_type b = TCP) && negb (AllowTCP (d_Limits dec)) then
        (bindErr b CodePlanForbids "TCP tunnels not allowed on this plan", s)
      else if bool_decide (b_type b = UDP) && negb (AllowUDP (d_Limits dec)) then
        (bindErr b CodePlanForbids "UDP tunnels not allowed on this plan", s)
      else
        let t := fresh_tref (world s) in
        let bt := {| clientTunnelID := b_client_tunnel_id b;
                     bt_accountID := firstNonEmpty (d_AccountID dec) (accountID ss);
                     bt_plan := firstNonEmpty (d_Plan dec) (plan ss);
                     ttype := b_type b; host := ""; port := 0; options := b_options b;
                     session := a; publicURL := ""; startedAt := zero_time;
                     bytesIn := 0; bytesOut := 0; requests := 0 |} in
        let s := with_world (alloc_tunnel t bt) s in
        match b_type b with
        | TCP | UDP => bindPortTunnel c a ss b t typ s
        | _ => bindHostTunnel c a ss b t dec s
        end
    end
  end.

(** * Releasing *)
Definition releaseTunnel (now : Time) t s : Server R E :=
  match tuns (world s) !! t with
  | None => s
  | Some bt =>
      let s := with_world (unbind t) s in
      let s := if negb (String.eqb (host bt) "")
               then reg_unbind_quiet now (host_route (host bt)) s else s in
      let s := if negb (port bt =? 0) then
                 let typ := protoForType (ttype bt) in
                 let s := with_ports (release typ (port bt) (ports s)) s in
                 reg_unbind_quiet now (port_route typ (port bt)) s
               else s in
      let s := add_gauges (-1) 0 s in
      reportTunnelClose now bt s
  end.

Definition handleUnbind (now : Time) a (clientTunnelID : string) s : Server R E :=
  match asess (world s) !! a with
  | None => s
  | Some ss =>
      let s := with_world (with_sess a (λ ss, set_tunnels (delete clientTunnelID (tunnels ss)) ss)) s in
      match tunnels ss !! clientTunnelID with
      | None => s
      | Some t => releaseTunnel now t s
      end
  end.

Definition release_all (now : Time) (ts : list tref) s : Server R E :=
  foldl (λ s t, releaseTunnel now t s) s ts.

Definition teardownSession (now : Time) a s : Server R E :=
  match asess (world s) !! a with
  | None => s
  | Some ss =>
      let ts := (range_map (tunnels ss)).*2 in
      let s := with_world (with_sess a (set_tunnels ∅)) s in
      let s := release_all now ts s in
      with_world (removeSession a) s
  end.

Definition recordUsage (now : Time) t (in_ out req : Z) s : Server R E :=
  match tuns (world s) !! t with
  | None => s
  | Some bt =>
      let s := with_usage (record now (bt_accountID bt) (clientTunnelID bt) in_ out req (usage s)) s in
      with_world (with_tun t (addTraffic in_ out req)) s
  end.

(** * Sessions
    The control stream is the list of messages the agent sends before the read
    fails; each comes with the outside of its handling and whether the reply
    could be written.  The result lists what the edge wrote. *)
Record Incoming := { in_env : Envelope; in_call : Call; in_writable : bool }.

Fixpoint controlLoop a (msgs : list Incoming) s : list Envelope * Server R E :=
  match msgs with
  | [] => ([], s)
  | m :: msgs =>
      match in_env m with
      | EnvBind b =>
          let '(resp, s) := handleBind (in_call m) a b s in
          if in_writable m then
            let '(out, s) := controlLoop a msgs s in (EnvBindResp resp :: out, s)
          else ([], s)
      | EnvUnbind id => controlLoop a msgs (handleUnbind (now (in_call m)) a id s)
      | EnvPing ts =>
          let '(out, s) := controlLoop a msgs s in
          ((if in_writable m then [EnvPong ts] else []) ++ out, s)
      | EnvPong _ => controlLoop a msgs s
      | _ => controlLoop a msgs s
      end
  end.

Definition protocolVersion : string := "1".

Definition authErr (code msg : string) : Envelope :=
  EnvAuthResp {| ar_ok := false; ar_account_id := ""; ar_plan := ""; ar_session_id := "";
                 ar_error := Some (NewError code msg) |}.

(** The Hello, when the first control message is one. *)
Definition readHello (first : option Envelope) : option Hello :=
  match first with Some (EnvHello h) => Some h | _ => None end.

Definition fresh_sref (w : World) : sref := fresh (dom (asess w)).

(** [first]: the first message, if the control stream came up and one was
    read.  [rest]: the following ones.  [cend]: the outside at teardown. *)
Definition serveSession c (first : option Envelope) (authWritable : bool) (rest : list Incoming)
    (cend : Time) s : list Envelope * Server R E :=
  match readHello first with
  | None => ([], s)
  | Some hello =>
    if negb (String.eqb (h_protocol_version hello) "") &&
       negb (String.eqb (h_protocol_version hello) protocolVersion)
    then ([authErr CodeVersionUnsupported "unsupported protocol version"], s)
    else
      let '(r, e) := Authenticate (now c) (h_api_key hello) (ent s) in
      let s := with_ent e s in
      match r with
      | Err _ =>
          ([authErr (if String.eqb (h_api_key hello) "" then CodeAuthRequired else CodeAuthInvalid)
              "authentication failed"], s)
      | Ok (accountID, plan) =>
          let ss := {| sessionID := newSessionID (rnd c 0%nat); accountID := accountID; plan := plan;
                       apiKey := h_api_key hello; tunnels := ∅ |} in
          let a := fresh_sref (world s) in
          let s := with_world (alloc_session a ss) s in
          if negb authWritable then ([], s)
          else
            let s := with_world (addSession a) s in
            let s := add_gauges 0 1 s in
            let '(out, s) := controlLoop a rest s in
            let s := teardownSession cend a s in
            let s := add_gauges 0 (-1) s in
            (EnvAuthResp {| ar_ok := true; ar_account_id := accountID; ar_plan := plan;
                            ar_session_id := sessionID ss; ar_error := None |} :: out, s)
      end
  end.

(** * Certificate issuance is gated on the name being ours or bound. *)
Definition allowTLSName (now : Time) (name : string) s : bool :=
  let name := ToLower (TrimSuffix name ".") in
  let base := ToLower (BaseDomain (cfg s)) in
  if String.eqb name base || HasSuffix name ("." +:+ base) then true
  else match LookupHost name (world s) with
       | Some _ => true
       | None => match fst (reg_Lookup now (host_route name) (reg s)) with
                 | Ok (Some _) => true
                 | _ => false
                 end
       end.
End edge.
