(* ===== verification/EdgeInv.v ===== *)
(** The invariant of the edge's routing state, and that every operation of the
    tunnel lifecycle keeps it: a session's tracked tunnels, the hub's routes
    and the reserved ports are one and the same set. *)
From S2P Require Import Prelude GoStrings Wire Authz Registry EdgeConfig Ports Hub Usage Edge.
From Stdlib Require Import Ascii.

Open Scope Z_scope.

(** * Vocabulary *)
Definition tracked (w : World) (a : sref) (id : string) (t : tref) : Prop :=
  ∃ ss, asess w !! a = Some ss ∧ tunnels ss !! id = Some t.

Definition is_host_tunnel (bt : boundTunnel) : Prop := host bt ≠ "" ∧ port bt = 0.
Definition is_port_tunnel (bt : boundTunnel) : Prop :=
  host bt = "" ∧ port bt ≠ 0 ∧ (ttype bt = TCP ∨ ttype bt = UDP).
Definition bt_key (bt : boundTunnel) : string := portKey (protoForType (ttype bt)) (port bt).

(** The hub routes [bt]'s own entry point to it. *)
Definition routed (w : World) (t : tref) (bt : boundTunnel) : Prop :=
  (is_host_tunnel bt ∧ byHost (hub w) !! host bt = Some t) ∨
  (is_port_tunnel bt ∧ byPort (hub w) !! bt_key bt = Some t).

(** [t] is tracked by a session, or awaits its release ([pend]: the tunnels a
    session's teardown, or an unbind, has taken out of the session already). *)
Definition attached (w : World) (pend : list tref) (t : tref) : Prop :=
  (∃ a id, tracked w a id t) ∨ t ∈ pend.

Definition net_proto (proto : string) : Prop := proto = "tcp" ∨ proto = "udp".

Record routes_ok (pend : list tref) (w : World) (pm : portManager) : Prop := {
  ro_tracked : ∀ a id t, tracked w a id t →
    (t ∉ pend) ∧ ∃ bt, tuns w !! t = Some bt ∧ session bt = a ∧ clientTunnelID bt = id;
  ro_attached : ∀ t, attached w pend t → ∃ bt, tuns w !! t = Some bt ∧ routed w t bt;
  ro_host : ∀ h t, byHost (hub w) !! h = Some t →
    attached w pend t ∧ ∃ bt, tuns w !! t = Some bt ∧ host bt = h ∧ is_host_tunnel bt;
  ro_port : ∀ k t, byPort (hub w) !! k = Some t →
    attached w pend t ∧ ∃ bt, tuns w !! t = Some bt ∧ bt_key bt = k ∧ is_port_tunnel bt;
  ro_used : ∀ proto p, net_proto proto →
    p ∈ used proto pm ↔ is_Some (byPort (hub w) !! portKey proto p);
  ro_pm : pm_ok pm ∧ 0 < pm_min pm;
}.

(** The number of live routes: what the gauge of active tunnels counts. *)
Definition live (w : World) : Z := Z.of_nat (snd (Stats w)).

Lemma tracked_fun w a id t t' : tracked w a id t → tracked w a id t' → t = t'.
Proof. intros (? & ? & ?) (? & ? & ?). congruence. Qed.

Lemma proto_no_colon proto : net_proto proto → has_byte proto ":" = false.
Proof. by intros [->| ->]. Qed.

Lemma portKey_inj p1 n1 p2 n2 :
  net_proto p1 → net_proto p2 → portKey p1 n1 = portKey p2 n2 → p1 = p2 ∧ n1 = n2.
Proof.
  intros H1%proto_no_colon H2%proto_no_colon Heq. unfold portKey in Heq.
  rewrite !app_string_cons in Heq. apply app_cut_inj in Heq as [-> Heq]; [|done|done].
  split; [done|]. by apply Itoa_inj.
Qed.

Lemma port_tunnel_net bt : is_port_tunnel bt → net_proto (protoForType (ttype bt)).
Proof. intros (_ & _ & [-> | ->]); [by left|by right]. Qed.

Lemma net_proto_same p q : net_proto p → net_proto q → same_proto p q → p = q.
Proof. by intros [->| ->] [->| ->]. Qed.

Lemma byPort_not_host w pend pm t bt :
  routes_ok pend w pm → tuns w !! t = Some bt → is_host_tunnel bt →
  ∀ k, byPort (hub w) !! k ≠ Some t.
Proof.
  intros Hok Hbt [Hh _] k Hk. apply (ro_port _ _ _ Hok) in Hk as (_ & bt' & Hbt' & _ & Hp & _).
  congruence.
Qed.

(** * Two tunnels never share an entry point *)
Lemma routed_inj w t1 bt1 t2 bt2 :
  routed w t1 bt1 → routed w t2 bt2 →
  (host bt1 = host bt2 ∧ host bt1 ≠ "") ∨ (host bt1 = "" ∧ host bt2 = "" ∧ bt_key bt1 = bt_key bt2) →
  t1 = t2.
Proof.
  unfold routed, is_host_tunnel, is_port_tunnel.
  intros [[[? ?] ?]|[(? & ? & ?) ?]] [[[? ?] ?]|[(? & ? & ?) ?]] [[? ?]|(? & ? & ?)]; congruence.
Qed.

(** * Taking a tunnel out of its session *)
Definition untrack (a : sref) (id : string) (w : World) : World :=
  with_sess a (λ ss, set_tunnels (delete id (tunnels ss)) ss) w.

Lemma tracked_untrack w a id b i t :
  tracked (untrack a id w) b i t ↔ tracked w b i t ∧ ¬ (b = a ∧ i = id).
Proof.
  unfold tracked, untrack, with_sess. simpl.
  destruct (decide (b = a)) as [->|Hne]; split.
  - intros (ss & Hss & Hi). rewrite lookup_alter_eq in Hss.
    apply fmap_Some in Hss as (ss0 & Hss0 & ->). simpl in Hi.
    apply lookup_delete_Some in Hi as [Hne Hi]. split; [eauto|naive_solver].
  - intros [(ss & Hss & Hi) Hne]. exists (set_tunnels (delete id (tunnels ss)) ss).
    rewrite lookup_alter_eq, Hss. split; [done|]. simpl.
    rewrite lookup_delete_ne; [done|naive_solver].
  - intros (ss & Hss & Hi). rewrite lookup_alter_ne in Hss by done. split; [by exists ss|naive_solver].
  - intros [(ss & Hss & Hi) _]. exists ss. by rewrite lookup_alter_ne.
Qed.

Lemma tracked_clear w a b i t :
  tracked (with_sess a (set_tunnels ∅) w) b i t ↔ tracked w b i t ∧ b ≠ a.
Proof.
  unfold tracked, with_sess. simpl. destruct (decide (b = a)) as [->|Hne]; split.
  - intros (ss & Hss & Hi). rewrite lookup_alter_eq in Hss.
    apply fmap_Some in Hss as (ss0 & _ & ->). done.
  - naive_solver.
  - intros (ss & Hss & Hi). rewrite lookup_alter_ne in Hss by done. split; [by exists ss|done].
  - intros [(ss & Hss & Hi) _]. exists ss. by rewrite lookup_alter_ne.
Qed.

(** Moving tracked tunnels to the pending ones keeps the invariant. *)
Lemma detach_ok pend pend' w w' pm :
  routes_ok pend w pm → hub w' = hub w → tuns w' = tuns w →
  (∀ a id t, tracked w' a id t → tracked w a id t ∧ t ∉ pend') →
  (∀ t, attached w' pend' t ↔ attached w pend t) →
  routes_ok pend' w' pm.
Proof.
  intros Hok Hh Ht Htr Hatt. destruct Hok as [H1 H2 H3 H4 H5 H6].
  split; unfold routed in *; rewrite ?Hh, ?Ht in *; try done.
  - intros a id t Hi. destruct (Htr a id t Hi) as [Hi' Hn]. destruct (H1 _ _ _ Hi'). done.
  - intros t Hi. apply H2. by apply Hatt.
  - intros h t Hi. rewrite Hatt. by apply H3.
  - intros k t Hi. rewrite Hatt. by apply H4.
Qed.

Lemma untrack_ok pend w pm a id t :
  routes_ok pend w pm → tracked w a id t → routes_ok (t :: pend) (untrack a id w) pm.
Proof.
  intros Hok Ht. apply (detach_ok pend _ w); [done..| |].
  - intros b i u Hu. apply tracked_untrack in Hu as [Hu Hne]. split; [done|].
    destruct (ro_tracked _ _ _ Hok _ _ _ Hu) as [Hnp (bt & Hbt & <- & <-)].
    rewrite not_elem_of_cons. split; [|done]. intros ->.
    destruct (ro_tracked _ _ _ Hok _ _ _ Ht) as [_ (bt' & Hbt' & <- & <-)].
    apply Hne. by simplify_eq.
  - intros u. unfold attached. rewrite elem_of_cons. split.
    + intros [(b & i & Hu)|[->|Hu]]; [|by eauto|by eauto].
      apply tracked_untrack in Hu as [Hu _]. eauto.
    + intros [(b & i & Hu)|Hu]; [|by eauto].
      destruct (decide (u = t)) as [->|Hne]; [by eauto|]. left. exists b, i.
      apply tracked_untrack. split; [done|]. intros [-> ->]. by destruct Hne; eapply tracked_fun.
Qed.

Lemma clear_ok `{RangeOrder} w pm a ss :
  routes_ok [] w pm → asess w !! a = Some ss →
  routes_ok (range_map (tunnels ss)).*2 (with_sess a (set_tunnels ∅) w) pm ∧
  NoDup (range_map (tunnels ss)).*2.
Proof.
  intros Hok Ha.
  assert (Hin : ∀ t, t ∈ (range_map (tunnels ss)).*2 ↔ ∃ id, tracked w a id t).
  { intros t. rewrite list_elem_of_fmap. split.
    - intros ([id t'] & -> & Hi%elem_of_range). exists id, ss. done.
    - intros (id & ss' & Hss & Hi). simplify_eq. exists (id, t). split; [done|].
      by apply elem_of_range. }
  split.
  - apply (detach_ok [] _ w); [done..| |].
    + intros b i u Hu. apply tracked_clear in Hu as [Hu Hne]. split; [done|].
      rewrite Hin. intros (id & Hid).
      destruct (ro_tracked _ _ _ Hok _ _ _ Hu) as [_ (bt & Hbt & <- & <-)].
      destruct (ro_tracked _ _ _ Hok _ _ _ Hid) as [_ (bt' & Hbt' & <- & <-)]. by simplify_eq.
    + intros u. unfold attached. rewrite Hin. split.
      * intros [(b & i & Hu)|(i & Hu)]; [apply tracked_clear in Hu as [Hu _]|]; eauto.
      * intros [(b & i & Hu)|Hu]; [|by apply not_elem_of_nil in Hu].
        destruct (decide (b = a)) as [->|Hne]; [by eauto|]. left. exists b, i. by apply tracked_clear.
  - pose proof (range_nodup (tunnels ss)) as Hnd.
    assert (Hid : ∀ e, e ∈ range_map (tunnels ss) → ∃ bt, tuns w !! snd e = Some bt ∧ clientTunnelID bt = fst e).
    { intros [id t] Hi%elem_of_range. assert (Ht : tracked w a id t) by by exists ss.
      destruct (ro_tracked _ _ _ Hok _ _ _ Ht) as [_ (bt & Hbt & _ & Hid)]. eauto. }
    clear Hin. induction (range_map (tunnels ss)) as [|[id t] l IH]; csimpl; [constructor|].
    apply list.NoDup_cons in Hnd as [Hni Hnd]. constructor.
    + rewrite list_elem_of_fmap. intros ([id' t'] & -> & Hl). apply Hni.
      destruct (Hid (id, t')) as (bt & Hbt & Hb); [left|].
      destruct (Hid (id', t')) as (bt' & Hbt' & Hb'); [by right|]. simpl in *. simplify_eq.
      apply list_elem_of_fmap. by exists (clientTunnelID bt, t').
    + apply IH; [done|]. intros e He. apply Hid. by right.
Qed.

(** * Releasing a tunnel *)
Definition drop_ports (bt : boundTunnel) (pm : portManager) : portManager :=
  if negb (port bt =? 0) then release (protoForType (ttype bt)) (port bt) pm else pm.

Lemma unbind_host w t bt :
  tuns w !! t = Some bt → is_host_tunnel bt →
  hub (unbind t w) = {| byHost := delete (host bt) (byHost (hub w)); byPort := byPort (hub w);
                        sessions := sessions (hub w) |}.
Proof.
  intros Hbt [Hh Hp]. unfold unbind. rewrite Hbt. simpl. unfold drop_routes.
  apply String.eqb_neq in Hh as ->. by rewrite Hp.
Qed.

Lemma unbind_port w t bt :
  tuns w !! t = Some bt → is_port_tunnel bt →
  hub (unbind t w) = {| byHost := byHost (hub w); byPort := delete (bt_key bt) (byPort (hub w));
                        sessions := sessions (hub w) |}.
Proof.
  intros Hbt (Hh & Hp & _). unfold unbind. rewrite Hbt. simpl. unfold drop_routes.
  rewrite Hh. simpl. by apply Z.eqb_neq in Hp as ->.
Qed.

Lemma attached_cons w pend t u : attached w (t :: pend) u ↔ u = t ∨ attached w pend u.
Proof. unfold attached. rewrite elem_of_cons. naive_solver. Qed.

(** The part of the proof both kinds of tunnel share. *)
Lemma release_ok_core pend w w' pm pm' t bt :
  routes_ok (t :: pend) w pm → t ∉ pend → tuns w !! t = Some bt →
  tuns w' = tuns w → asess w' = asess w →
  (∀ h u, byHost (hub w') !! h = Some u ↔ byHost (hub w) !! h = Some u ∧ u ≠ t) →
  (∀ k u, byPort (hub w') !! k = Some u ↔ byPort (hub w) !! k = Some u ∧ u ≠ t) →
  (∀ proto p, net_proto proto →
     p ∈ used proto pm' ↔ is_Some (byPort (hub w') !! portKey proto p)) →
  pm_ok pm' → pm_min pm' = pm_min pm →
  routes_ok pend w' pm'.
Proof.
  intros Hok Hnp Hbt Ht Ha Hh Hp Hu Hpm Hmin. destruct Hok as [H1 H2 H3 H4 H5 H6].
  assert (Htr : ∀ a id u, tracked w' a id u ↔ tracked w a id u) by (unfold tracked; by rewrite Ha).
  assert (Hatt : ∀ u, attached w' pend u ↔ attached w (t :: pend) u ∧ u ≠ t).
  { intros u. rewrite attached_cons. unfold attached. setoid_rewrite Htr. split.
    - intros Hu'. split; [by right|]. intros ->. destruct Hu' as [(a & id & Hi)|]; [|done].
      apply H1 in Hi as [Hn _]. apply Hn. left.
    - intros [[->|Hu'] Hne]; done. }
  split; rewrite ?Ht, ?Hmin.
  - intros a id u Hi%Htr. apply H1 in Hi as [Hn Hi]. split; [|done].
    intros Hin. apply Hn. by right.
  - intros u [Hau Hne]%Hatt. destruct (H2 u Hau) as (bt' & Hbt' & Hr). exists bt'. split; [done|].
    destruct Hr as [[Hk Hr]|[Hk Hr]]; [left; rewrite Hh|right; rewrite Hp]; done.
  - intros h u [Hu' Hne]%Hh. rewrite Hatt. destruct (H3 h u Hu') as [Hau Hx]. done.
  - intros k u [Hu' Hne]%Hp. rewrite Hatt. destruct (H4 k u Hu') as [Hau Hx]. done.
  - done.
  - split; [done|lia].
Qed.

(** Unbinding a routed tunnel drops its route and no other. *)
Definition drops_only (t : tref) (w w' : World) : Prop :=
  (∀ h u, byHost (hub w') !! h = Some u ↔ byHost (hub w) !! h = Some u ∧ u ≠ t) ∧
  (∀ k u, byPort (hub w') !! k = Some u ↔ byPort (hub w) !! k = Some u ∧ u ≠ t).

Lemma unbind_drops_only pend w pm t bt :
  routes_ok (t :: pend) w pm → tuns w !! t = Some bt → routed w t bt → drops_only t w (unbind t w).
Proof.
  intros Hok Hbt [[Hk Hr]|[Hk Hr]];
    [unfold drops_only; rewrite (unbind_host _ _ _ Hbt Hk)|unfold drops_only; rewrite (unbind_port _ _ _ Hbt Hk)];
    simpl; split; intros x u.
  - rewrite lookup_delete_Some. split.
    + intros [Hne Hu]. split; [done|]. intros ->.
      apply (ro_host _ _ _ Hok) in Hu as (_ & bt' & Hbt' & <- & _). congruence.
    + intros [Hu Hne]. split; [|done]. intros <-. congruence.
  - split; [|naive_solver]. intros Hu. split; [done|]. intros ->. by eapply byPort_not_host.
  - split; [|naive_solver]. intros Hu. split; [done|]. intros ->.
    apply (ro_host _ _ _ Hok) in Hu as (_ & bt' & Hbt' & _ & [Hh _]). simplify_eq.
    by destruct Hk.
  - rewrite lookup_delete_Some. split.
    + intros [Hne Hu]. split; [done|]. intros ->.
      apply (ro_port _ _ _ Hok) in Hu as (_ & bt' & Hbt' & <- & _). congruence.
    + intros [Hu Hne]. split; [|done]. intros <-. congruence.
Qed.

(** ... and frees its port and no other. *)
Lemma unbind_frees_only pend w pm t bt :
  routes_ok (t :: pend) w pm → tuns w !! t = Some bt → routed w t bt →
  ∀ proto p, net_proto proto →
    p ∈ used proto (drop_ports bt pm) ↔ is_Some (byPort (hub (unbind t w)) !! portKey proto p).
Proof.
  intros Hok Hbt [[Hk Hr]|[Hk Hr]] proto p Hproto; unfold drop_ports.
  { rewrite (unbind_host _ _ _ Hbt Hk), (proj2 Hk). by apply (ro_used _ _ _ Hok). }
  rewrite (unbind_port _ _ _ Hbt Hk). pose proof (port_tunnel_net _ Hk) as Hnet. simpl.
  destruct (Z.eqb_spec (port bt) 0) as [|Hp]; [by destruct Hk as (_ & ? & _)|]. simpl.
  destruct (decide (same_proto (protoForType (ttype bt)) proto)) as [Hs|Hs].
  - apply net_proto_same in Hs as <-; [|done|done].
    rewrite release_used, elem_of_difference, elem_of_singleton, (ro_used _ _ _ Hok) by done.
    unfold bt_key. split.
    + intros [Hi Hne]. rewrite lookup_delete_ne; [done|]. intros Heq.
      by apply portKey_inj in Heq as [_ <-].
    + intros [u [Hne Hu]%lookup_delete_Some]. split; [by exists u|]. by intros ->.
  - rewrite release_used_other, (ro_used _ _ _ Hok) by done. unfold bt_key.
    rewrite lookup_delete_ne; [done|]. intros Heq. apply Hs. by apply portKey_inj in Heq as [<- _].
Qed.

Lemma unbind_live w t bt :
  tuns w !! t = Some bt → routed w t bt → live (unbind t w) = live w - 1.
Proof.
  intros Hbt [[Hk Hr]|[Hk Hr]]; unfold live, Stats;
    [rewrite (unbind_host _ _ _ Hbt Hk)|rewrite (unbind_port _ _ _ Hbt Hk)]; simpl;
    rewrite map_size_delete_Some by done.
  - assert (size (byHost (hub w)) ≠ 0%nat); [|lia].
    apply map_size_non_empty_iff. intros Hem. by rewrite Hem in Hr.
  - assert (size (byPort (hub w)) ≠ 0%nat); [|lia].
    apply map_size_non_empty_iff. intros Hem. by rewrite Hem in Hr.
Qed.

Lemma release_world_ok pend w pm t :
  routes_ok (t :: pend) w pm → t ∉ pend →
  ∃ bt, tuns w !! t = Some bt ∧ drops_only t w (unbind t w) ∧
    routes_ok pend (unbind t w) (drop_ports bt pm) ∧ live (unbind t w) = live w - 1.
Proof.
  intros Hok Hnp. destruct (ro_attached _ _ _ Hok t) as (bt & Hbt & Hr); [right; left|].
  pose proof (unbind_drops_only _ _ _ _ _ Hok Hbt Hr) as Hdo.
  destruct (unbind_objects t w) as [Ht Ha]. destruct (ro_pm _ _ _ Hok) as [Hpm _].
  exists bt. split; [done|]. split; [done|]. split; [|by eapply unbind_live].
  apply (release_ok_core pend w _ pm _ t bt); try done; try apply Hdo.
  - by eapply unbind_frees_only.
  - unfold drop_ports. destruct (negb _); [by apply release_ok|done].
  - unfold drop_ports. destruct (negb _); [apply release_range|done].
Qed.

(** * Releasing on the server *)
Section server.
  Context `{RangeOrder} {R : Type} `{Registry R} {E : Type} `{Entitlements E}.
  Implicit Types (s : Server R E) (c : Call) (a : sref) (t : tref).

(** The routing state is sound and the gauge counts it. *)
Definition server_ok (pend : list tref) s : Prop :=
  routes_ok pend (world s) (ports s) ∧ TunnelsActive s = live (world s).

Lemma reportTunnelClose_view now bt s :
  let s' := reportTunnelClose now bt s in
  world s' = world s ∧ ports s' = ports s ∧ TunnelsActive s' = TunnelsActive s ∧ cfg s' = cfg s ∧
  reg s' = reg s.
Proof.
  unfold reportTunnelClose. destruct (negb _); [done|]. by destruct (asess _ !! _).
Qed.

Lemma releaseTunnel_view now t s bt :
  tuns (world s) !! t = Some bt →
  let s' := releaseTunnel now t s in
  world s' = unbind t (world s) ∧ ports s' = drop_ports bt (ports s) ∧
  TunnelsActive s' = TunnelsActive s - 1 ∧ cfg s' = cfg s.
Proof.
  intros Hbt. unfold releaseTunnel. rewrite Hbt.
  match goal with |- context [reportTunnelClose now bt ?x] =>
    destruct (reportTunnelClose_view now bt x) as (-> & -> & -> & -> & _) end.
  unfold drop_ports, reg_unbind_quiet.
  destruct (negb (String.eqb (host bt) "")), (negb (port bt =? 0)); simpl; split_and!; done || lia.
Qed.

(** What is left after releasing the tunnels of [ts]. *)
Definition keeps_rest (ts : list tref) (w w' : World) : Prop :=
  tuns w' = tuns w ∧ asess w' = asess w ∧ sessions (hub w') = sessions (hub w) ∧
  (∀ h u, byHost (hub w') !! h = Some u ↔ byHost (hub w) !! h = Some u ∧ u ∉ ts) ∧
  (∀ k u, byPort (hub w') !! k = Some u ↔ byPort (hub w) !! k = Some u ∧ u ∉ ts).

Lemma unbind_sessions t w : sessions (hub (unbind t w)) = sessions (hub w).
Proof.
  unfold unbind. destruct (tuns w !! t) as [bt|]; [|done]. simpl. unfold drop_routes.
  by destruct (negb (String.eqb (host bt) "")), (negb (port bt =? 0)).
Qed.

Lemma release_all_ok now ts s :
  server_ok ts s → NoDup ts →
  let s' := release_all now ts s in
  server_ok [] s' ∧ keeps_rest ts (world s) (world s') ∧ cfg s' = cfg s.
Proof.
  revert s. induction ts as [|t ts IH]; intros s Hok Hnd; simpl.
  { split; [done|]. split; [|done]. split_and!; try done; intros; split; set_solver. }
  apply list.NoDup_cons in Hnd as [Hni Hnd]. destruct Hok as [Hok Hg].
  destruct (release_world_ok _ _ _ _ Hok Hni) as (bt & Hbt & [Hdh Hdp] & Hok' & Hlive).
  destruct (releaseTunnel_view now t s bt Hbt) as (Hw & Hp & Hg' & Hc).
  destruct (IH (releaseTunnel now t s)) as (Hs & (Ht & Ha & Hss & Hh & Hk) & Hcfg);
    [split; rewrite ?Hw, ?Hp; [done|lia]|done|].
  destruct (unbind_objects t (world s)) as [Ht' Ha'].
  split; [done|]. split; [|congruence]. unfold release_all in *. rewrite Hw in *.
  split_and!; [congruence|congruence|by rewrite Hss, unbind_sessions| |];
    intros x u; rewrite ?Hh, ?Hk, ?Hdh, ?Hdp, not_elem_of_cons; tauto.
Qed.

(** * Unbinding *)
Lemma handleUnbind_ok now a id s :
  server_ok [] s →
  let s' := handleUnbind now a id s in
  server_ok [] s' ∧ cfg s' = cfg s ∧
  tuns (world s') = tuns (world s) ∧ sessions (hub (world s')) = sessions (hub (world s)) ∧
  (∀ b i u, tracked (world s') b i u ↔ tracked (world s) b i u ∧ ¬ (b = a ∧ i = id)) ∧
  (∀ h u, byHost (hub (world s')) !! h = Some u ↔
     byHost (hub (world s)) !! h = Some u ∧ ¬ tracked (world s) a id u) ∧
  (∀ k u, byPort (hub (world s')) !! k = Some u ↔
     byPort (hub (world s)) !! k = Some u ∧ ¬ tracked (world s) a id u).
Proof.
  intros [Hok Hg]. unfold handleUnbind. destruct (asess (world s) !! a) as [ss|] eqn:Ha.
  2:{ assert (Hno : ∀ u, ¬ tracked (world s) a id u) by (intros u (ss & Hss & _); congruence).
      split_and!; try done; intros; split; try tauto; naive_solver. }
  change (with_sess a _) with (untrack a id). destruct (tunnels ss !! id) as [t|] eqn:Ht.
  - assert (Htr : tracked (world s) a id t) by by exists ss.
    destruct (release_all_ok now [t] (with_world (untrack a id) s)) as ([Hok' Hg'] & Hk & Hc).
    { split; [by apply untrack_ok|done]. }
    { repeat constructor. set_solver. }
    simpl in *. destruct Hk as (Ht' & Ha' & Hs' & Hh' & Hp').
    split; [done|]. split; [done|]. split; [done|]. split; [done|]. split.
    + intros b i u. rewrite <- tracked_untrack. unfold tracked. by rewrite Ha'.
    + assert (Hx : ∀ u, u ∉ [t] ↔ ¬ tracked (world s) a id u).
      { intros u. rewrite elem_of_cons, elem_of_nil. split; [|naive_solver].
        intros Hn Hu. apply Hn. left. by eapply tracked_fun. }
      split; intros; rewrite <- Hx; auto.
  - assert (Hno : ∀ u, ¬ tracked (world s) a id u).
    { intros u (ss' & Hss & Hu). congruence. }
    assert (Htr : ∀ b i u, tracked (untrack a id (world s)) b i u ↔ tracked (world s) b i u).
    { intros b i u. rewrite tracked_untrack. split; [tauto|]. intros Hu. split; [done|].
      intros [-> ->]. by apply (Hno u). }
    split; [|split_and!; try done].
    + split; [|done]. apply (detach_ok [] [] (world s)); try done.
      * intros b i u Hu. split; [by apply Htr|apply not_elem_of_nil].
      * intros u. unfold attached. by setoid_rewrite Htr.
    + intros. apply tracked_untrack.
    + intros h u. simpl. naive_solver.
    + intros k u. simpl. naive_solver.
Qed.

(** * Tearing a session down *)
Lemma teardownSession_ok now a ss s :
  server_ok [] s → asess (world s) !! a = Some ss →
  let s' := teardownSession now a s in
  server_ok [] s' ∧ cfg s' = cfg s ∧ tuns (world s') = tuns (world s) ∧
  sessions (hub (world s')) = delete (sessionID ss) (sessions (hub (world s))) ∧
  (∀ b i u, tracked (world s') b i u ↔ tracked (world s) b i u ∧ b ≠ a) ∧
  (∀ h u, byHost (hub (world s')) !! h = Some u ↔
     byHost (hub (world s)) !! h = Some u ∧ ¬ ∃ id, tracked (world s) a id u) ∧
  (∀ k u, byPort (hub (world s')) !! k = Some u ↔
     byPort (hub (world s)) !! k = Some u ∧ ¬ ∃ id, tracked (world s) a id u).
Proof.
  intros [Hok Hg] Ha. unfold teardownSession. rewrite Ha.
  destruct (clear_ok _ _ _ _ Hok Ha) as [Hcl Hnd].
  set (ts := (range_map (tunnels ss)).*2) in *.
  destruct (release_all_ok now ts (with_world (with_sess a (set_tunnels ∅)) s))
    as ([Hok' Hg'] & (Ht' & Ha' & Hs' & Hh' & Hp') & Hc); [by split|done|].
  set (s1 := release_all now ts _) in *. simpl in *.
  assert (Hrm : removeSession a (world s1) = with_hub (λ h, {| byHost := byHost h;
      byPort := byPort h; sessions := delete (sessionID ss) (sessions h) |}) (world s1)).
  { unfold removeSession. rewrite Ha', lookup_alter_eq, Ha. simpl. by rewrite range_empty. }
  rewrite Hrm. simpl. rewrite Hs'.
  assert (Hin : ∀ u, u ∉ ts ↔ ¬ ∃ id, tracked (world s) a id u).
  { intros u. unfold ts. rewrite list_elem_of_fmap. split.
    - intros Hn (id & ss' & Hss & Hu). simplify_eq. apply Hn. exists (id, u).
      split; [done|]. by apply elem_of_range.
    - intros Hn ([id u'] & -> & Hu%elem_of_range). apply Hn. by exists id, ss. }
  split.
  { unfold server_ok. simpl. rewrite Hrm. split; [|exact Hg']. destruct Hok' as [O1 O2 O3 O4 O5 O6]. by split. }
  split_and!; try done.
  - intros b i u. rewrite <- tracked_clear. unfold tracked. simpl. by rewrite Ha'.
  - intros h u. by rewrite Hh', Hin.
  - intros k u. by rewrite Hp', Hin.
Qed.

(** * Adding a route *)
Lemma add_ok_core w w' pm pm' a t bt :
  routes_ok [] w pm → tuns w !! t = None → tuns w' = <[t := bt]> (tuns w) → session bt = a →
  (∀ h u, byHost (hub w') !! h = Some u ↔
     byHost (hub w) !! h = Some u ∨ (is_host_tunnel bt ∧ h = host bt ∧ u = t)) →
  (∀ k u, byPort (hub w') !! k = Some u ↔
     byPort (hub w) !! k = Some u ∨ (is_port_tunnel bt ∧ k = bt_key bt ∧ u = t)) →
  (∀ b i u, tracked w' b i u ↔ tracked w b i u ∨ (b = a ∧ i = clientTunnelID bt ∧ u = t)) →
  is_host_tunnel bt ∨ is_port_tunnel bt →
  (∀ proto p, net_proto proto →
     p ∈ used proto pm' ↔ is_Some (byPort (hub w') !! portKey proto p)) →
  pm_ok pm' → pm_min pm' = pm_min pm →
  routes_ok [] w' pm'.
Proof.
  intros Hok Hfr Ht Hs Hh Hp Htr Hk Hu Hpm Hmin. destruct Hok as [H1' H2' H3' H4' H5' H6'].
  assert (Hatt : ∀ u, attached w' [] u ↔ attached w [] u ∨ u = t).
  { intros u. unfold attached. setoid_rewrite Htr. rewrite elem_of_nil. naive_solver. }
  assert (Hold : ∀ u bt', tuns w !! u = Some bt' → tuns w' !! u = Some bt').
  { intros u bt' Hb. rewrite Ht. rewrite lookup_insert_ne; [done|]. congruence. }
  assert (Hnew : tuns w' !! t = Some bt) by (by rewrite Ht, lookup_insert_eq).
  split; try done.
  - intros b i u [Hi|(-> & -> & ->)]%Htr.
    + destruct (H1' _ _ _ Hi) as [? (bt' & Hb & ? & ?)]. split; [done|]. exists bt'. auto.
    + split; [apply not_elem_of_nil|]. by exists bt.
  - intros u [Hau| ->]%Hatt.
    + destruct (H2' u Hau) as (bt' & Hb & Hr). exists bt'. split; [by auto|].
      destruct Hr as [[? ?]|[? ?]]; [left|right]; (split; [done|]); [apply Hh|apply Hp]; by left.
    + exists bt. split; [done|]. destruct Hk as [Hk|Hk]; [left|right]; (split; [done|]);
        [apply Hh|apply Hp]; by right.
  - intros h u [Hi|(Hk' & -> & ->)]%Hh; rewrite Hatt.
    + destruct (H3' h u Hi) as [? (bt' & Hb & ? & ?)]. split; [by left|]. exists bt'. auto.
    + split; [by right|]. by exists bt.
  - intros k u [Hi|(Hk' & -> & ->)]%Hp; rewrite Hatt.
    + destruct (H4' k u Hi) as [? (bt' & Hb & ? & ?)]. split; [by left|]. exists bt'. auto.
    + split; [by right|]. by exists bt.
  - split; [done|lia].
Qed.

(** Inserting under a free key, as the cores want it. *)
Lemma insert_iff {V} (m : gmap string V) k0 v0 k v :
  m !! k0 = None → <[k0 := v0]> m !! k = Some v ↔ m !! k = Some v ∨ (k = k0 ∧ v = v0).
Proof. intros Hn. rewrite lookup_insert_Some. split; [|]; naive_solver. Qed.

(** [grows a t bt s s']: the new tunnel [bt], at [t], is routed and tracked by
    session [a]; nothing else of the routing state changed. *)
Record grows (a : sref) (t : tref) (bt : boundTunnel) s s' : Prop := {
  g_fresh : tuns (world s) !! t = None;
  g_tuns : tuns (world s') = <[t := bt]> (tuns (world s));
  g_asess : asess (world s') =
    alter (λ ss, set_tunnels (<[clientTunnelID bt := t]> (tunnels ss)) ss) a (asess (world s));
  g_sessions : sessions (hub (world s')) = sessions (hub (world s));
  g_session : session bt = a;
  g_gauge : TunnelsActive s' = TunnelsActive s + 1;
  g_cfg : cfg s' = cfg s;
}.

Lemma grows_tracked a t bt s s' ss :
  grows a t bt s s' → asess (world s) !! a = Some ss → tunnels ss !! clientTunnelID bt = None →
  ∀ b i u, tracked (world s') b i u ↔
    tracked (world s) b i u ∨ (b = a ∧ i = clientTunnelID bt ∧ u = t).
Proof.
  intros Hg Ha Hid b i u. unfold tracked. rewrite (g_asess _ _ _ _ _ Hg).
  destruct (decide (b = a)) as [->|Hne].
  - rewrite lookup_alter_eq, Ha. simpl. split.
    + intros (ss' & [= <-] & Hi). simpl in Hi. apply insert_iff in Hi as [Hi|[-> ->]]; [|by right|done].
      left. eauto.
    + intros [(ss' & [= <-] & Hi)|(_ & -> & ->)];
        (eexists; split; [done|]; simpl; apply insert_iff; [done|]); [by left|by right].
  - rewrite lookup_alter_ne by done. naive_solver.
Qed.
End server.
