(* ===== verification/EdgeBind.v ===== *)
(** What [handleBind] does, branch by branch: a refused bind changes no route,
    no reservation and no lease; an accepted one adds exactly one route. *)
From S2P Require Import Prelude GoStrings Wire Authz Registry EdgeConfig Ports Hub Usage Edge EdgeInv.

Open Scope Z_scope.

(** * Host allocation *)
Lemma dotted_nonempty x y : x +:+ "." +:+ y ≠ "".
Proof. by destruct x. Qed.

Lemma allocateHost_nonempty cf w draw b dec h : allocateHost cf w draw b dec = Ok h → h ≠ "".
Proof.
  unfold allocateHost. destruct (String.eqb (b_custom_domain b) "") eqn:Hc; cbn [negb].
  - destruct (negb (String.eqb _ "")); [destruct (negb _); [done|]|].
    + destruct (LookupHost _ w); [done|]. intros [= <-]. apply dotted_nonempty.
    + destruct (find_first _ _) as [h'|] eqn:Hf; [|done]. intros [= <-].
      apply find_first_Some in Hf as [Hin _]. apply list_elem_of_fmap in Hin as (i & -> & _).
      apply dotted_nonempty.
  - destruct (negb _); [done|]. intros [= <-]. apply ToLower_nonempty. by bool_simpl.
Qed.

(** A host that is not a custom domain is free when it is allocated. *)
Lemma allocateHost_free cf w draw b dec h :
  allocateHost cf w draw b dec = Ok h → b_custom_domain b = "" → byHost (hub w) !! h = None.
Proof.
  unfold allocateHost. intros Ha Hc. rewrite Hc in Ha. cbn [negb String.eqb] in Ha.
  destruct (negb (String.eqb _ "")); [destruct (negb _); [done|]|].
  - destruct (LookupHost _ w) eqn:Hl; [done|]. by simplify_eq.
  - destruct (find_first _ _) as [h'|] eqn:Hf; [|done]. simplify_eq.
    apply find_first_Some in Hf as [_ Hn]. bool_simpl. by apply eq_None_not_Some in Hn.
Qed.

Lemma allocateHost_hub cf w w' draw b dec :
  hub w' = hub w → allocateHost cf w' draw b dec = allocateHost cf w draw b dec.
Proof. intros Hh. unfold allocateHost, LookupHost. by rewrite Hh. Qed.

(** * Worlds with a new tunnel *)
Lemma routes_ok_more pend w w' pm pm' :
  routes_ok pend w pm → hub w' = hub w → asess w' = asess w → tuns w ⊆ tuns w' →
  (∀ proto, used proto pm' = used proto pm) → pm_ok pm' → pm_min pm' = pm_min pm →
  routes_ok pend w' pm'.
Proof.
  intros [H1 H2 H3 H4 H5 H6] Hh Ha Ht Hu Hpm Hmin.
  assert (Htr : ∀ a id u, tracked w' a id u ↔ tracked w a id u) by (unfold tracked; by rewrite Ha).
  assert (Hatt : ∀ u, attached w' pend u ↔ attached w pend u).
  { intros u. unfold attached. by setoid_rewrite Htr. }
  assert (Hl : ∀ u bt, tuns w !! u = Some bt → tuns w' !! u = Some bt).
  { intros u bt Hb. by eapply lookup_weaken. }
  split; unfold routed in *; rewrite ?Hh, ?Hmin.
  - intros a id u Hi%Htr. destruct (H1 _ _ _ Hi) as [? (bt & ? & ?)]. eauto.
  - intros u Hi%Hatt. destruct (H2 _ Hi) as (bt & ? & ?). eauto.
  - intros h u Hi. rewrite Hatt. destruct (H3 _ _ Hi) as [? (bt & ? & ?)]. eauto.
  - intros k u Hi. rewrite Hatt. destruct (H4 _ _ Hi) as [? (bt & ? & ?)]. eauto.
  - intros proto p Hp. rewrite Hu. by apply H5.
  - split; [done|lia].
Qed.

Section bind.
  Context `{RangeOrder} {R : Type} `{Registry R} {E : Type} `{Entitlements E}.
  Implicit Types (s : Server R E) (c : Call) (a : sref) (t : tref).

(** Nothing but garbage and the entitlements service's state changed. *)
Record quiet s s' : Prop := {
  q_hub : hub (world s') = hub (world s);
  q_asess : asess (world s') = asess (world s);
  q_tuns : tuns (world s) ⊆ tuns (world s');
  q_used : ∀ proto, used proto (ports s') = used proto (ports s);
  q_pm : pm_ok (ports s') ∧ pm_min (ports s') = pm_min (ports s);
  q_gauge : TunnelsActive s' = TunnelsActive s;
  q_cfg : cfg s' = cfg s;
  q_reg : reg s' = reg s;
  q_reports : reports s' = reports s;
}.

Lemma quiet_ok s s' : server_ok [] s → quiet s s' → server_ok [] s'.
Proof.
  intros [Hok Hg] [Q1 Q2 Q3 Q4 [Q5 Q6] Q7 _ _ _]. split.
  - by eapply routes_ok_more.
  - unfold live, Stats. by rewrite Q7, Q1, Hg.
Qed.

Lemma publish_view c a t ss url r s bt :
  tuns (world s) !! t = Some bt →
  let s' := publish c a t ss url r s in
  hub (world s') = hub (world s) ∧
  tuns (world s') = <[t := set_public url (now c) bt]> (tuns (world s)) ∧
  asess (world s') = alter (λ ss, set_tunnels (<[clientTunnelID bt := t]> (tunnels ss)) ss) a
                       (asess (world s)) ∧
  ports s' = ports s ∧ TunnelsActive s' = TunnelsActive s + 1 ∧ cfg s' = cfg s ∧
  reg s' = snd (reg_Bind (now c) r {| EdgeID := cfg_EdgeID (cfg s); SessionID := sessionID ss |}
                  (2 * HeartbeatInterval (cfg s)) (reg s)).
Proof.
  intros Hbt. unfold publish. simpl.
  assert (Hal : alter (set_public url (now c)) t (tuns (world s)) !! t = Some (set_public url (now c) bt)).
  { by rewrite lookup_alter_eq, Hbt. }
  assert (Htr : trackTunnel a t (with_tun t (set_public url (now c)) (world s)) =
    {| hub := hub (world s); tuns := alter (set_public url (now c)) t (tuns (world s));
       asess := alter (λ ss, set_tunnels (<[clientTunnelID bt := t]> (tunnels ss)) ss) a
                  (asess (world s)) |}).
  { unfold trackTunnel. simpl. by rewrite Hal. }
  rewrite !Htr. simpl. rewrite Hal.
  assert (Hins : alter (set_public url (now c)) t (tuns (world s)) =
                 <[t := set_public url (now c) bt]> (tuns (world s))).
  { apply map_eq. intros i. destruct (decide (i = t)) as [->|Hne].
    - by rewrite Hal, lookup_insert_eq.
    - by rewrite lookup_alter_ne, lookup_insert_ne. }
  unfold reportTunnelOpen. destruct (negb _); simpl; rewrite ?Htr; simpl; rewrite Hins; split_and!; done || lia.
Qed.

(** The request [handleBind] submits. *)
Definition bind_request (ss : agentSession) (b : BindTunnel) s : BindRequest :=
  {| APIKey := apiKey ss; Type_ := protoForType (b_type b); Subdomain := b_subdomain b;
     CustomHost := b_custom_domain b; RemotePort := b_remote_port b; Region := cfg_Region (cfg s) |}.

Definition lease_taken c (ss : agentSession) (r : Route) s s' : Prop :=
  reg s' = snd (reg_Bind (now c) r {| EdgeID := cfg_EdgeID (cfg s); SessionID := sessionID ss |}
                  (2 * HeartbeatInterval (cfg s)) (reg s)).

(** An accepted host tunnel. *)
Record bound_host c a (ss : agentSession) (b : BindTunnel) (dec : Decision) (t : tref)
    (bt : boundTunnel) (resp : BindResp) s s' : Prop := {
  bh_kind : is_host_tunnel bt;
  bh_host : allocateHost (cfg s) (world s) (rnd c) b dec = Ok (host bt);
  bh_owner : byHost (hub (world s)) !! host bt = None ∨
             owner (world s) (byHost (hub (world s)) !! host bt) = Some a;
  bh_byHost : byHost (hub (world s')) = <[host bt := t]> (byHost (hub (world s)));
  bh_byPort : byPort (hub (world s')) = byPort (hub (world s));
  bh_ports : ports s' = ports s;
  bh_lease : lease_taken c ss (host_route (host bt)) s s';
  bh_resp : resp = {| br_client_tunnel_id := b_client_tunnel_id b; br_ok := true;
                      br_public_url := "https://" +:+ host bt; br_assigned_host := host bt;
                      br_assigned_port := 0; br_error := None |};
}.

(** An accepted port tunnel. *)
Record bound_port c a (ss : agentSession) (b : BindTunnel) (t : tref)
    (bt : boundTunnel) (resp : BindResp) s s' : Prop := {
  bp_kind : is_port_tunnel bt;
  bp_open : openPort (listen c) (protoForType (ttype bt)) (b_remote_port b) (ports s)
            = (Ok (port bt), ports s');
  bp_byHost : byHost (hub (world s')) = byHost (hub (world s));
  bp_byPort : byPort (hub (world s')) = <[bt_key bt := t]> (byPort (hub (world s)));
  bp_lease : lease_taken c ss (port_route (protoForType (ttype bt)) (port bt)) s s';
  bp_resp : resp = {| br_client_tunnel_id := b_client_tunnel_id b; br_ok := true;
                      br_public_url := protoForType (ttype bt) +:+ "://" +:+ BaseDomain (cfg s)
                                       +:+ ":" +:+ Itoa (port bt);
                      br_assigned_host := BaseDomain (cfg s); br_assigned_port := port bt;
                      br_error := None |};
}.

(** The server just after the allocation of the tunnel object. *)
Definition allocated (e : E) t (bt : boundTunnel) s : Server R E :=
  with_world (alloc_tunnel t bt) (with_ent e s).

Lemma allocated_quiet e t bt s f :
  server_ok [] s → tuns (world s) !! t = None →
  quiet s (with_world (with_tun t f) (allocated e t bt s)) ∧ quiet s (allocated e t bt s) ∧
  quiet s (with_ent e s).
Proof.
  intros [Hok _] Hfr. destruct (ro_pm _ _ _ Hok) as [Hpm _].
  split_and!; split; try done; simpl.
  - apply map_subseteq_spec. intros i x Hi.
    destruct (decide (i = t)) as [->|Hne]; [congruence|].
    by rewrite lookup_alter_ne, lookup_insert_ne.
  - by apply insert_subseteq.
Qed.

Lemma bindHost_inv t bt w w' :
  tuns w !! t = Some bt → bindHost t w = Ok w' →
  (byHost (hub w) !! host bt = None ∨ owner w (byHost (hub w) !! host bt) = Some (session bt)) ∧
  hub w' = {| byHost := <[host bt := t]> (byHost (hub w)); byPort := byPort (hub w);
              sessions := sessions (hub w) |} ∧ same_objects w w'.
Proof.
  intros Hbt. unfold bindHost. rewrite Hbt. destruct (_ && _) eqn:Hc; intros [= <-].
  split; [|done]. apply andb_false_iff in Hc as [Hc|Hc]; bool_simpl; [left|by right].
  by apply eq_None_not_Some.
Qed.

Lemma bindPort_inv t bt w w' :
  tuns w !! t = Some bt → bindPort t w = Ok w' →
  hub w' = {| byHost := byHost (hub w); byPort := <[bt_key bt := t]> (byPort (hub w));
              sessions := sessions (hub w) |} ∧ same_objects w w'.
Proof.
  intros Hbt. unfold bindPort. rewrite Hbt. by destruct (_ && _); intros [= <-].
Qed.

(** The tunnel [handleBind] allocates. *)
Definition fresh_tunnel a (ss : agentSession) (b : BindTunnel) (dec : Decision) : boundTunnel :=
  {| clientTunnelID := b_client_tunnel_id b;
     bt_accountID := firstNonEmpty (d_AccountID dec) (accountID ss);
     bt_plan := firstNonEmpty (d_Plan dec) (plan ss);
     ttype := b_type b; host := ""; port := 0; options := b_options b;
     session := a; publicURL := ""; startedAt := zero_time;
     bytesIn := 0; bytesOut := 0; requests := 0 |}.

Lemma lookup_allocated e t bt f s :
  tuns (world (with_world (with_tun t f) (allocated e t bt s))) = <[t := f bt]> (tuns (world s)).
Proof.
  simpl. apply map_eq. intros i. destruct (decide (i = t)) as [->|Hne].
  - by rewrite lookup_alter_eq, !lookup_insert_eq.
  - by rewrite lookup_alter_ne, !lookup_insert_ne.
Qed.

(** The fields of a tunnel that a bind leaves at their allocated value. *)
Definition same_identity (bt0 bt : boundTunnel) : Prop :=
  clientTunnelID bt = clientTunnelID bt0 ∧ ttype bt = ttype bt0 ∧ session bt = session bt0 ∧
  bt_accountID bt = bt_accountID bt0 ∧ bt_plan bt = bt_plan bt0.

Lemma bindHostTunnel_inv c a ss b dec e t bt0 s resp s' :
  server_ok [] s → tuns (world s) !! t = None → session bt0 = a → port bt0 = 0 →
  bindHostTunnel c a ss b t dec (allocated e t bt0 s) = (resp, s') →
  (br_ok resp = false ∧ quiet s s') ∨
  (∃ bt, same_identity bt0 bt ∧ grows a t bt s s' ∧ bound_host c a ss b dec t bt resp s s').
Proof.
  intros Hok Hfr Hsess Hport. unfold bindHostTunnel.
  destruct (allocateHost _ _ _ _ _) as [h|code] eqn:Hah.
  2:{ intros [= <- <-]. left. split; [done|]. by apply (allocated_quiet e t bt0 s id Hok Hfr). }
  set (s1 := with_world (with_tun t (set_host h)) (allocated e t bt0 s)).
  assert (Ht1 : tuns (world s1) = <[t := set_host h bt0]> (tuns (world s))) by apply lookup_allocated.
  destruct (bindHost t (world s1)) as [w|err] eqn:Hbh.
  2:{ intros [= <- <-]. left. split; [done|]. by apply (allocated_quiet e t bt0 s). }
  assert (Hl1 : tuns (world s1) !! t = Some (set_host h bt0)) by (by rewrite Ht1, lookup_insert_eq).
  destruct (bindHost_inv _ _ _ _ Hl1 Hbh) as (Hown & Hhub & Ht & Ha).
  intros [= <- <-]. right. exists (set_public ("https://" +:+ h) (now c) (set_host h bt0)).
  split; [done|].
  destruct (publish_view c a t ss ("https://" +:+ h) (host_route h) (with_world (λ _, w) s1)
    (set_host h bt0)) as (P1 & P2 & P3 & P4 & P5 & P6 & P7); [simpl; by rewrite Ht|].
  simpl in P1, P2, P3, P4, P5, P6, P7.
  set (s2 := publish _ _ _ _ _ _ _) in *. rewrite Hhub in P1. simpl in P1.
  rewrite allocateHost_hub with (w := world s) in Hah by done. split; split; simpl; try done.
  - rewrite P2, Ht, Ht1. by rewrite insert_insert_eq.
  - rewrite P3, Ha. done.
  - by rewrite P1.
  - split; [|done]. by eapply allocateHost_nonempty.
  - destruct Hown as [Hn|Hown]; [by left|right].
    unfold owner in *. simpl in Hown. destruct (byHost (hub (world s)) !! h) as [t'|] eqn:Hl; [|done].
    simpl in *. rewrite Ht1 in Hown. destruct (decide (t' = t)) as [->|Hne].
    + apply (ro_host _ _ _ (proj1 Hok)) in Hl as (_ & bt' & Hbt' & _). congruence.
    + rewrite lookup_insert_ne in Hown by done. by rewrite <- Hsess.
  - by rewrite P1.
  - by rewrite P1.
Qed.

Lemma bindPortTunnel_inv c a ss b e t bt0 s resp s' :
  server_ok [] s → tuns (world s) !! t = None → session bt0 = a → host bt0 = "" →
  ttype bt0 = TCP ∨ ttype bt0 = UDP →
  bindPortTunnel c a ss b t (protoForType (ttype bt0)) (allocated e t bt0 s) = (resp, s') →
  (br_ok resp = false ∧ quiet s s') ∨
  (∃ bt, same_identity bt0 bt ∧ grows a t bt s s' ∧ bound_port c a ss b t bt resp s s').
Proof.
  intros Hok Hfr Hsess Hhost Htype. unfold bindPortTunnel. simpl ports.
  assert (Hnet : net_proto (protoForType (ttype bt0))) by (destruct Htype as [-> | ->]; [by left|by right]).
  destruct (openPort _ _ _ _) as [r pm] eqn:Hop.
  destruct (ro_pm _ _ _ (proj1 Hok)) as [Hpm Hmin].
  pose proof (openPort_ok _ _ _ _ _ _ Hpm Hop) as (Hpm' & Hmin' & _ & Hspec).
  destruct r as [p|err].
  2:{ assert (Hq : quiet s (with_ports pm (allocated e t bt0 s))).
      { destruct (allocated_quiet e t bt0 s id Hok Hfr) as (_ & [Q1 Q2 Q3 _ _ Q6 Q7 Q8 Q9] & _).
        split; try done. intros proto. simpl. eapply openPort_failed_used; eauto. }
      destruct err; intros [= <- <-]; left; done. }
  destruct Hspec as (Hr & Hfree & _). cbv zeta.
  set (s1 := with_world (with_tun t (set_port p)) (with_ports pm (allocated e t bt0 s))).
  assert (Ht1 : tuns (world s1) = <[t := set_port p bt0]> (tuns (world s)))
    by apply (lookup_allocated e t bt0 (set_port p) s).
  assert (Hl1 : tuns (world s1) !! t = Some (set_port p bt0)) by (by rewrite Ht1, lookup_insert_eq).
  assert (Hnone : byPort (hub (world s)) !! bt_key (set_port p bt0) = None).
  { apply eq_None_not_Some. change (bt_key _) with (portKey (protoForType (ttype bt0)) p).
    by rewrite <- (ro_used _ _ _ (proj1 Hok)). }
  destruct (bindPort t (world s1)) as [w|err] eqn:Hbp.
  2:{ exfalso. unfold bindPort in Hbp. rewrite Hl1 in Hbp.
      change (portKey _ _) with (bt_key (set_port p bt0)) in Hbp. simpl hub in Hbp.
      rewrite Hnone in Hbp. done. }
  destruct (bindPort_inv _ _ _ _ Hl1 Hbp) as (Hhub & Ht & Ha).
  intros [= <- <-]. right.
  set (url := _ +:+ "://" +:+ _).
  exists (set_public url (now c) (set_port p bt0)). split; [done|].
  destruct (publish_view c a t ss url (port_route (protoForType (ttype bt0)) p)
    (with_world (λ _, w) s1) (set_port p bt0)) as (P1 & P2 & P3 & P4 & P5 & P6 & P7);
    [simpl; by rewrite Ht|].
  simpl in P1, P2, P3, P4, P5, P6, P7.
  set (s2 := publish _ _ _ _ _ _ _) in *. rewrite Hhub in P1. simpl in P1.
  split; split; simpl; try done.
  - rewrite P2, Ht, Ht1. by rewrite insert_insert_eq.
  - by rewrite P3, Ha.
  - by rewrite P1.
  - split; [done|]. simpl. split; [lia|done].
  - by rewrite P4, Hop.
  - by rewrite P1.
  - by rewrite P1.
  - by rewrite P6.
Qed.
End bind.
