(* ===== verification/EdgeSafety.v ===== *)
(** Safety of the edge's tunnel lifecycle: its reachable states, isolation
    between sessions, complete cleanup when a session ends, and the two uses of
    the control protocol under which these fail. *)
From S2P Require Import Prelude GoStrings Wire Authz Registry EdgeConfig Ports Hub Usage Edge EdgeInv EdgeBind.

Open Scope Z_scope.

Section safety.
  Context `{RangeOrder} {R : Type} `{Registry R} {E : Type} `{Entitlements E}.
  Implicit Types (s : Server R E) (c : Call) (a : sref) (t : tref).

(** * Bind *)

(** An accepted bind: what was decided and what was done. *)
Record bound c a (ss : agentSession) (b : BindTunnel) (dec : Decision) t (bt : boundTunnel)
    (resp : BindResp) s s' : Prop := {
  bd_decision : ∃ e, CheckBind (now c) (bind_request ss b s) (ent s) = (Ok dec, e);
  bd_allow : Allow dec = true;
  bd_tcp : b_type b = TCP → AllowTCP (d_Limits dec) = true;
  bd_udp : b_type b = UDP → AllowUDP (d_Limits dec) = true;
  bd_identity : same_identity (fresh_tunnel a ss b dec) bt;
  bd_grows : grows a t bt s s';
  bd_route : match b_type b with
             | TCP | UDP => bound_port c a ss b t bt resp s s'
             | _ => bound_host c a ss b dec t bt resp s s'
             end;
}.

Lemma fresh_tref_free w : tuns w !! fresh_tref w = None.
Proof. unfold fresh_tref. apply not_elem_of_dom. apply is_fresh. Qed.

Lemma handleBind_inv c a b s ss resp s' :
  server_ok [] s → asess (world s) !! a = Some ss → handleBind c a b s = (resp, s') →
  (br_ok resp = false ∧ quiet s s') ∨
  (∃ dec t bt, bound c a ss b dec t bt resp s s').
Proof.
  intros Hok Ha. unfold handleBind. rewrite Ha.
  change ({| APIKey := apiKey ss; Type_ := _; Subdomain := _; CustomHost := _; RemotePort := _;
             Region := _ |}) with (bind_request ss b s).
  destruct (CheckBind _ _ _) as [r e] eqn:Hcb. pose proof (fresh_tref_free (world s)) as Hfr.
  assert (Hq : quiet s (with_ent e s)).
  { split; try done. split; [apply (ro_pm _ _ _ (proj1 Hok))|done]. }
  destruct r as [dec|]; [|by intros [= <- <-]; left].
  destruct (negb (Allow dec)) eqn:Hal; [by intros [= <- <-]; left|].
  destruct (_ && negb (AllowTCP _)) eqn:Htcp; [by intros [= <- <-]; left|].
  destruct (_ && negb (AllowUDP _)) eqn:Hudp; [by intros [= <- <-]; left|].
  change (with_world _ (with_ent e s)) with (allocated e (fresh_tref (world s)) (fresh_tunnel a ss b dec) s).
  set (t := fresh_tref (world s)) in *. bool_simpl.
  assert (Hgate : (b_type b = TCP → AllowTCP (d_Limits dec) = true) ∧
                  (b_type b = UDP → AllowUDP (d_Limits dec) = true)).
  { split; intros Hty; rewrite Hty in *; simpl in *; by bool_simpl. }
  destruct Hgate as [Hg1 Hg2]. destruct (b_type b) eqn:Hty; intros Hrun.
  all: try (eapply bindHostTunnel_inv in Hrun as [Hrun|(bt & Hid & Hg & Hb)]; [by left| |done..];
            right; exists dec, t, bt; split; rewrite ?Hty; try done; by eexists).
  all: change (protoForType _) with (protoForType (b_type b)) in Hrun at 1 || idtac.
  all: rewrite <- Hty in Hrun;
       eapply (bindPortTunnel_inv c a ss b e t (fresh_tunnel a ss b dec)) in Hrun
         as [Hrun|(bt & Hid & Hg & Hb)]; [by left| |done..|simpl; rewrite Hty; by auto];
       right; exists dec, t, bt; split; rewrite ?Hty; try done; by eexists.
Qed.

(** A bind that reuses neither a tunnel id nor a custom domain of its session. *)
Definition fresh_bind a (b : BindTunnel) s : Prop :=
  ∀ ss, asess (world s) !! a = Some ss →
    tunnels ss !! b_client_tunnel_id b = None ∧
    owner (world s) (byHost (hub (world s)) !! ToLower (b_custom_domain b)) ≠ Some a.

Lemma bound_host_free c a ss b dec t bt resp s s' :
  bound_host c a ss b dec t bt resp s s' →
  owner (world s) (byHost (hub (world s)) !! ToLower (b_custom_domain b)) ≠ Some a →
  byHost (hub (world s)) !! host bt = None.
Proof.
  intros Hb Hne. destruct (String.eqb_spec (b_custom_domain b) "") as [Hc|Hc].
  - eapply allocateHost_free; [apply (bh_host _ _ _ _ _ _ _ _ _ _ Hb)|done].
  - destruct (bh_owner _ _ _ _ _ _ _ _ _ _ Hb) as [|Ho]; [done|].
    pose proof (bh_host _ _ _ _ _ _ _ _ _ _ Hb) as Hh. unfold allocateHost in Hh.
    apply String.eqb_neq in Hc. rewrite Hc in Hh. cbn [negb] in Hh.
    destruct (negb _); simplify_eq. congruence.
Qed.

(** The routes of everyone but session [a]. *)
Definition rest_host a (w : World) (h : string) (u : tref) : Prop :=
  byHost (hub w) !! h = Some u ∧ ¬ ∃ id, tracked w a id u.
Definition rest_port a (w : World) (k : string) (u : tref) : Prop :=
  byPort (hub w) !! k = Some u ∧ ¬ ∃ id, tracked w a id u.
Definition same_rest a (w w' : World) : Prop :=
  (∀ h u, rest_host a w' h u ↔ rest_host a w h u) ∧ (∀ k u, rest_port a w' k u ↔ rest_port a w k u).

Lemma same_rest_refl a w : same_rest a w w.
Proof. done. Qed.
Lemma same_rest_trans a w1 w2 w3 : same_rest a w1 w2 → same_rest a w2 w3 → same_rest a w1 w3.
Proof. intros [A1 A2] [B1 B2]. split; intros; by rewrite ?B1, ?A1, ?B2, ?A2. Qed.

(** What adding a route under a free key amounts to. *)
Lemma host_added c a ss b dec t bt resp s s' :
  bound_host c a ss b dec t bt resp s s' → byHost (hub (world s)) !! host bt = None →
  (∀ h u, byHost (hub (world s')) !! h = Some u ↔
     byHost (hub (world s)) !! h = Some u ∨ (is_host_tunnel bt ∧ h = host bt ∧ u = t)) ∧
  (∀ k u, byPort (hub (world s')) !! k = Some u ↔
     byPort (hub (world s)) !! k = Some u ∨ (is_port_tunnel bt ∧ k = bt_key bt ∧ u = t)) ∧
  live (world s') = live (world s) + 1.
Proof.
  intros [Hk _ _ Hbh Hbp _ _ _] Hn. split_and!.
  - intros h u. rewrite Hbh, insert_iff by done. naive_solver.
  - intros k u. rewrite Hbp. split; [by left|]. intros [?|[Hp _]]; [done|].
    by destruct Hk, Hp.
  - unfold live, Stats. rewrite Hbh, Hbp. simpl. rewrite map_size_insert_None by done. lia.
Qed.

Lemma port_added c a ss b t bt resp s s' :
  server_ok [] s → bound_port c a ss b t bt resp s s' →
  (∀ h u, byHost (hub (world s')) !! h = Some u ↔
     byHost (hub (world s)) !! h = Some u ∨ (is_host_tunnel bt ∧ h = host bt ∧ u = t)) ∧
  (∀ k u, byPort (hub (world s')) !! k = Some u ↔
     byPort (hub (world s)) !! k = Some u ∨ (is_port_tunnel bt ∧ k = bt_key bt ∧ u = t)) ∧
  live (world s') = live (world s) + 1.
Proof.
  intros [Hok _] [Hk Hop Hbh Hbp _ _].
  assert (Hn : byPort (hub (world s)) !! bt_key bt = None).
  { apply eq_None_not_Some. unfold bt_key. rewrite <- (ro_used _ _ _ Hok) by by apply port_tunnel_net.
    by apply (openPort_ok _ _ _ _ _ _ (proj1 (ro_pm _ _ _ Hok))) in Hop as (_ & _ & _ & _ & Hf & _). }
  split_and!.
  - intros h u. rewrite Hbh. split; [by left|]. intros [?|[Hp _]]; [done|]. by destruct Hk, Hp.
  - intros k u. rewrite Hbp, insert_iff by done. naive_solver.
  - unfold live, Stats. rewrite Hbh, Hbp. simpl. rewrite map_size_insert_None by done. lia.
Qed.

(** After opening a port, the used ports are the bound ones again. *)
Lemma port_used c a ss b t bt resp s s' :
  server_ok [] s → bound_port c a ss b t bt resp s s' →
  ∀ proto p, net_proto proto →
    p ∈ used proto (ports s') ↔ is_Some (byPort (hub (world s')) !! portKey proto p).
Proof.
  intros [Hok _] [Hk Hop _ Hbp _ _] proto p Hproto. rewrite Hbp.
  pose proof (openPort_ok _ _ _ _ _ _ (proj1 (ro_pm _ _ _ Hok)) Hop) as (_ & _ & _ & _ & _ & _ & Hu & _).
  pose proof (port_tunnel_net _ Hk) as Hnet.
  destruct (decide (same_proto (protoForType (ttype bt)) proto)) as [Hs|Hs].
  - apply net_proto_same in Hs as <-; [|done|done].
    rewrite Hu, elem_of_union, elem_of_singleton, (ro_used _ _ _ Hok) by done. unfold bt_key.
    destruct (decide (p = port bt)) as [->|Hne].
    + rewrite lookup_insert_eq. split; [eauto|by left].
    + rewrite lookup_insert_ne; [naive_solver|]. intros Heq. by apply portKey_inj in Heq as [_ <-].
  - rewrite (openPort_other_used _ _ _ _ _ _ _ Hop Hs), (ro_used _ _ _ Hok) by done. unfold bt_key.
    rewrite lookup_insert_ne; [done|]. intros Heq. apply Hs. by apply portKey_inj in Heq as [<- _].
Qed.

Lemma bound_ok c a ss b dec t bt resp s s' :
  server_ok [] s → asess (world s) !! a = Some ss → fresh_bind a b s →
  bound c a ss b dec t bt resp s s' →
  server_ok [] s' ∧ same_rest a (world s) (world s') ∧
  (∀ x i u, tracked (world s') x i u ↔
     tracked (world s) x i u ∨ (x = a ∧ i = clientTunnelID bt ∧ u = t)).
Proof.
  intros Hok Ha Hfb Hb. destruct (Hfb ss Ha) as [Hid Hcust].
  pose proof (bd_grows _ _ _ _ _ _ _ _ _ _ Hb) as Hg.
  assert (Hidb : clientTunnelID bt = b_client_tunnel_id b) by apply (bd_identity _ _ _ _ _ _ _ _ _ _ Hb).
  rewrite <- Hidb in Hid. pose proof (grows_tracked _ _ _ _ _ _ Hg Ha Hid) as Htr.
  assert (Hsh : (∀ h u, byHost (hub (world s')) !! h = Some u ↔
     byHost (hub (world s)) !! h = Some u ∨ (is_host_tunnel bt ∧ h = host bt ∧ u = t)) ∧
    (∀ k u, byPort (hub (world s')) !! k = Some u ↔
     byPort (hub (world s)) !! k = Some u ∨ (is_port_tunnel bt ∧ k = bt_key bt ∧ u = t)) ∧
    live (world s') = live (world s) + 1).
  { pose proof (bd_route _ _ _ _ _ _ _ _ _ _ Hb) as Hr.
    destruct (b_type b); [eapply host_added; [done|by eapply bound_host_free]..| |];
      by eapply port_added. }
  destruct Hsh as (Hh & Hp & Hlive).
  split; [split; [|rewrite (g_gauge _ _ _ _ _ Hg), Hlive; by rewrite (proj2 Hok)]|split; [|done]].
  - destruct (ro_pm _ _ _ (proj1 Hok)) as [Hpm Hmin].
    apply (add_ok_core (world s) _ (ports s) _ a t bt);
      try apply Hg; try apply Hok; try done;
      pose proof (bd_route _ _ _ _ _ _ _ _ _ _ Hb) as Hr;
      destruct (b_type b);
      try (by left; apply Hr); try (by right; apply Hr);
      try (by rewrite (bh_ports _ _ _ _ _ _ _ _ _ _ Hr));
      try (by eapply port_used);
      try (rewrite (bh_ports _ _ _ _ _ _ _ _ _ _ Hr), (bh_byPort _ _ _ _ _ _ _ _ _ _ Hr);
           by apply (ro_used _ _ _ (proj1 Hok)));
      by apply (openPort_ok _ _ _ _ _ _ Hpm (bp_open _ _ _ _ _ _ _ _ _ Hr)).
  - assert (Hnew : ∀ u, attached (world s) [] u → u ≠ t).
    { intros u Hu ->. apply (ro_attached _ _ _ (proj1 Hok)) in Hu as (bt' & Hbt' & _).
      pose proof (g_fresh _ _ _ _ _ Hg). congruence. }
    split; intros x u; unfold rest_host, rest_port; rewrite ?Hh, ?Hp; setoid_rewrite Htr; split.
    + intros [[Hx|(_ & _ & ->)] Hn]; [|destruct Hn; by eauto 10]. split; [done|]. naive_solver.
    + intros [Hx Hn]. split; [by left|]. intros (i & [Hi|(_ & _ & ->)]); [by eauto|].
      apply (ro_host _ _ _ (proj1 Hok)) in Hx as [Hx _]. by apply Hnew in Hx.
    + intros [[Hx|(_ & _ & ->)] Hn]; [|destruct Hn; by eauto 10]. split; [done|]. naive_solver.
    + intros [Hx Hn]. split; [by left|]. intros (i & [Hi|(_ & _ & ->)]); [by eauto|].
      apply (ro_port _ _ _ (proj1 Hok)) in Hx as [Hx _]. by apply Hnew in Hx.
Qed.

(** * Steps of the edge *)

(** [New]: no tunnel, no session. *)
Definition NewServer (cf : Config) (e : E) (r : R) (hasReporter : bool) : Server R E :=
  mkServer cf e hasReporter {| hub := NewHub; tuns := ∅; asess := ∅ |} r
    (newPortManager (PortMin cf) (PortMax cf)) newUsageAgg 0 0 [].

(** A session that completed its handshake joins the hub ([serveSession]). *)
Definition connect a (ss : agentSession) s : Server R E :=
  add_gauges 0 1 (with_world (λ w, addSession a (alloc_session a ss w)) s).

(** One step of the edge, by session [a].  The code takes and releases the locks of the
    hub, the ports and the session several times within a bind, an unbind or a
    teardown; here each of them is one step, so an interleaving inside one is not
    represented. *)
Inductive edge_step a : Server R E → Server R E → Prop :=
| step_connect ss s :
    asess (world s) !! a = None → tunnels ss = ∅ → sessions (hub (world s)) !! sessionID ss = None →
    edge_step a s (connect a ss s)
| step_bind c b s ss :
    asess (world s) !! a = Some ss → sessions (hub (world s)) !! sessionID ss = Some a →
    fresh_bind a b s →
    edge_step a s (snd (handleBind c a b s))
| step_unbind now id s :
    edge_step a s (handleUnbind now a id s)
| step_teardown now s ss :
    asess (world s) !! a = Some ss → sessions (hub (world s)) !! sessionID ss = Some a →
    edge_step a s (teardownSession now a s)
| step_traffic now t in_ out req s :
    edge_step a s (recordUsage now t in_ out req s).

Inductive reachable (s0 : Server R E) : Server R E → Prop :=
| reach_init : reachable s0 s0
| reach_step a s s' : reachable s0 s → edge_step a s s' → reachable s0 s'.

Lemma NewServer_ok cf e r rep : 0 < PortMin cf → server_ok [] (NewServer cf e r rep).
Proof.
  intros Hmin. split; [|done]. split; simpl.
  - by intros a id t (ss & Hss & _).
  - intros t [(a & id & ss & Hss & _)|Hin%not_elem_of_nil]; done.
  - done.
  - done.
  - intros proto p _. unfold used. simpl. rewrite lookup_empty.
    split; [destruct (String.eqb _ _); set_solver|by intros [? ?]].
  - split; [apply newPortManager_ok|done].
Qed.

Lemma connect_world a ss s :
  world (connect a ss s) =
  {| hub := {| byHost := byHost (hub (world s)); byPort := byPort (hub (world s));
               sessions := <[sessionID ss := a]> (sessions (hub (world s))) |};
     tuns := tuns (world s); asess := <[a := ss]> (asess (world s)) |}.
Proof.
  unfold connect. simpl. unfold addSession. simpl. by rewrite lookup_insert_eq.
Qed.

Lemma connect_tracked a ss s b i u :
  asess (world s) !! a = None → tunnels ss = ∅ →
  tracked (world (connect a ss s)) b i u ↔ tracked (world s) b i u.
Proof.
  intros Ha Hts. unfold tracked. rewrite connect_world. simpl.
  destruct (decide (b = a)) as [->|Hne]; [|by rewrite lookup_insert_ne].
  rewrite lookup_insert_eq, Ha. split; intros (ss' & Hss & Hi); simplify_eq. by rewrite Hts in Hi.
Qed.

Lemma connect_ok a ss s :
  server_ok [] s → asess (world s) !! a = None → tunnels ss = ∅ → server_ok [] (connect a ss s).
Proof.
  intros [[O1 O2 O3 O4 O5 O6] Hg] Ha Hts. pose proof (connect_tracked a ss s) as Htr.
  assert (Hatt : ∀ u, attached (world (connect a ss s)) [] u ↔ attached (world s) [] u).
  { intros u. unfold attached. setoid_rewrite Htr; done. }
  split.
  - split; unfold routed in *.
    + intros b i u Hi. apply Htr in Hi; [|done|done]. rewrite connect_world. by apply O1.
    + intros u Hi%Hatt. rewrite connect_world. by apply O2.
    + intros h u. rewrite Hatt, connect_world. apply O3.
    + intros k u. rewrite Hatt, connect_world. apply O4.
    + rewrite connect_world. apply O5.
    + done.
  - unfold live, Stats. rewrite connect_world. simpl. unfold live, Stats in Hg. simpl in Hg. lia.
Qed.

(** Counters are not part of the routing state. *)
Lemma traffic_ok now t in_ out req s :
  server_ok [] s → server_ok [] (recordUsage now t in_ out req s).
Proof.
  intros [[O1 O2 O3 O4 O5 O6] Hg]. unfold recordUsage.
  destruct (tuns (world s) !! t) as [bt0|] eqn:Hbt0; [|by split].
  assert (Hl : ∀ u bt, tuns (world s) !! u = Some bt →
    ∃ bt', alter (addTraffic in_ out req) t (tuns (world s)) !! u = Some bt' ∧
      session bt' = session bt ∧ clientTunnelID bt' = clientTunnelID bt ∧ host bt' = host bt ∧
      port bt' = port bt ∧ ttype bt' = ttype bt).
  { intros u bt Hu. destruct (decide (u = t)) as [->|Hne].
    - exists (addTraffic in_ out req bt). by rewrite lookup_alter_eq, Hu.
    - exists bt. by rewrite lookup_alter_ne. }
  unfold routed, is_host_tunnel, is_port_tunnel, bt_key in *.
  split; [|done]. split; simpl; try done.
  - intros a id u Hi. destruct (O1 a id u Hi) as [? (bt & Hu & <- & <-)]. split; [done|].
    destruct (Hl u bt Hu) as (bt' & ? & ? & ? & _). by exists bt'.
  - intros u Hi. destruct (O2 u Hi) as (bt & Hu & Hr). destruct (Hl u bt Hu) as (bt' & Hu' & E1 & E2 & E3 & E4 & E5).
    exists bt'. unfold routed, is_host_tunnel, is_port_tunnel, bt_key. by rewrite E3, E4, E5.
  - intros h u Hi. destruct (O3 h u Hi) as [Ha (bt & Hu & Hr)]. split; [exact Ha|].
    destruct (Hl u bt Hu) as (bt' & Hu' & E1 & E2 & E3 & E4 & E5). exists bt'.
    unfold is_host_tunnel. by rewrite E3, E4.
  - intros k u Hi. destruct (O4 k u Hi) as [Ha (bt & Hu & Hr)]. split; [exact Ha|].
    destruct (Hl u bt Hu) as (bt' & Hu' & E1 & E2 & E3 & E4 & E5). exists bt'.
    unfold is_port_tunnel, bt_key. by rewrite E3, E4, E5.
Qed.

Lemma handleBind_ok c a b s ss :
  server_ok [] s → asess (world s) !! a = Some ss → fresh_bind a b s →
  server_ok [] (snd (handleBind c a b s)).
Proof.
  intros Hok Ha Hfb. destruct (handleBind c a b s) as [resp s'] eqn:Hb.
  destruct (handleBind_inv _ _ _ _ _ _ _ Hok Ha Hb) as [[_ Hq]|(dec & t & bt & Hbd)].
  - by eapply quiet_ok.
  - by eapply bound_ok.
Qed.

Lemma edge_step_ok a s s' : server_ok [] s → edge_step a s s' → server_ok [] s'.
Proof.
  intros Hok Hst. destruct Hst.
  - by apply connect_ok.
  - by eapply handleBind_ok.
  - by apply handleUnbind_ok.
  - by eapply teardownSession_ok.
  - by apply traffic_ok.
Qed.

Lemma reachable_ok cf e r rep s :
  0 < PortMin cf → reachable (NewServer cf e r rep) s → server_ok [] s.
Proof. intros Hmin Hr. induction Hr; [by apply NewServer_ok|by eapply edge_step_ok]. Qed.

(** C1: in every state the edge can reach from its start, through any
    interleaving of connects, binds, unbinds, teardowns and traffic of any
    sessions whose binds use a tunnel id, and a custom domain, that the session
    has not bound at the moment, and with a public port range that starts above 0,
    the routing state is sound. A tunnel a session tracks belongs to that session,
    carries the id it is tracked under, and is routed: by its host or, without one,
    by its port. Conversely a host or a port leads only to a tunnel that some session
    tracks, with that host, or that port and its protocol. A port is reserved exactly when it
    leads to a tunnel, and the gauge of active tunnels is the number of routes. Each
    operation of a session is one step. *)
Theorem reachable_routes_sound cf e r rep s :
  0 < PortMin cf → reachable (NewServer cf e r rep) s →
  (∀ a id t, tracked (world s) a id t →
     ∃ bt, tuns (world s) !! t = Some bt ∧ session bt = a ∧ clientTunnelID bt = id ∧
       ((host bt ≠ "" ∧ port bt = 0 ∧ LookupHost (host bt) (world s) = Some t) ∨
        (host bt = "" ∧ (ttype bt = TCP ∨ ttype bt = UDP) ∧ LookupPort (protoForType (ttype bt)) (port bt) (world s) = Some t))) ∧
  (∀ h t, LookupHost h (world s) = Some t →
     ∃ a id bt, tracked (world s) a id t ∧ tuns (world s) !! t = Some bt ∧ session bt = a ∧ host bt = h ∧ h ≠ "") ∧
  (∀ p n t, net_proto p → LookupPort p n (world s) = Some t →
     ∃ a id bt, tracked (world s) a id t ∧ tuns (world s) !! t = Some bt ∧ session bt = a ∧ host bt = "" ∧ port bt = n ∧
                protoForType (ttype bt) = p) ∧
  (∀ p n, net_proto p → n ∈ used p (ports s) ↔ is_Some (LookupPort p n (world s))) ∧
  TunnelsActive s = Z.of_nat (snd (Stats (world s))).
Proof.
  intros Hmin Hr. destruct (reachable_ok cf e r rep s Hmin Hr) as [Hok Hg]. split_and!; [| | | |done].
  - intros a id t Hi. destruct (ro_tracked _ _ _ Hok _ _ _ Hi) as (_ & bt & Hbt & <- & <-). exists bt. split_and!; [done..|].
    destruct (ro_attached _ _ _ Hok t) as (bt' & Hbt' & Hrt); [left; eauto|]. simplify_eq.
    destruct Hrt as [[[? ?] ?]|[(? & _ & ?) ?]]; [by left|by right].
  - intros h t Hl. destruct (ro_host _ _ _ Hok _ _ Hl) as ([(a & id & Hi)|Hn] & bt & Hbt & <- & Hk).
    2: by apply not_elem_of_nil in Hn.
    destruct (ro_tracked _ _ _ Hok _ _ _ Hi) as (_ & bt' & Hbt' & Hs & _). simplify_eq.
    by exists (session bt), id, bt; destruct Hk.
  - intros p n t Hp Hl. destruct (ro_port _ _ _ Hok _ _ Hl) as ([(a & id & Hi)|Hn] & bt & Hbt & Hkey & Hk).
    2: by apply not_elem_of_nil in Hn.
    destruct (ro_tracked _ _ _ Hok _ _ _ Hi) as (_ & bt' & Hbt' & Hs & _). simplify_eq.
    apply portKey_inj in Hkey as [Hpr Hn]; [|by apply port_tunnel_net|done].
    destruct Hk as (? & _ & _). by exists (session bt), id, bt.
  - intros p n Hp. by rewrite (ro_used _ _ _ Hok).
Qed.

(** * Isolation *)

(** A tunnel of session [b] is not tracked by another session. *)
Lemma foreign_untracked s a b t :
  server_ok [] s → owner (world s) (Some t) = Some b → b ≠ a → ∀ id, ¬ tracked (world s) a id t.
Proof.
  intros [Hok _] Ho Hne id Hi. destruct (ro_tracked _ _ _ Hok _ _ _ Hi) as (_ & bt & Hbt & <- & _).
  unfold owner in Ho. simpl in Ho. rewrite Hbt in Ho. simpl in Ho. congruence.
Qed.

Lemma step_keeps_routes a s s' b t :
  server_ok [] s → edge_step a s s' → owner (world s) (Some t) = Some b → b ≠ a →
  (∀ h, byHost (hub (world s)) !! h = Some t → byHost (hub (world s')) !! h = Some t) ∧
  (∀ k, byPort (hub (world s)) !! k = Some t → byPort (hub (world s')) !! k = Some t) ∧
  owner (world s') (Some t) = Some b.
Proof.
  intros Hok Hst Ho Hne. pose proof (foreign_untracked _ _ _ _ Hok Ho Hne) as Hnt.
  destruct Hst as [ss s Ha Hts Hsid|c bd s ss Ha Hss Hfb|now id s|now s ss Ha Hss|now u i o r s].
  - rewrite connect_world. done.
  - destruct (handleBind c a bd s) as [resp s'] eqn:Hb. simpl.
    destruct (handleBind_inv _ _ _ _ _ _ _ Hok Ha Hb) as [[_ Hq]|(dec & t' & bt & Hbd)].
    + rewrite (q_hub _ _ Hq). split; [done|]. split; [done|]. unfold owner in *. simpl in *.
      apply fmap_Some in Ho as (bt & Hbt & ->).
      by rewrite (lookup_weaken _ _ _ _ Hbt (q_tuns _ _ Hq)).
    + destruct (bound_ok _ _ _ _ _ _ _ _ _ _ Hok Ha Hfb Hbd) as (_ & [Hr1 Hr2] & _).
      pose proof (bd_grows _ _ _ _ _ _ _ _ _ _ Hbd) as Hg. split_and!.
      * intros h Hl. apply (proj2 (Hr1 h t)). split; [done|]. intros (id & Hi). by apply (Hnt id).
      * intros k Hl. apply (proj2 (Hr2 k t)). split; [done|]. intros (id & Hi). by apply (Hnt id).
      * unfold owner in *. simpl in *. rewrite (g_tuns _ _ _ _ _ Hg), lookup_insert_ne; [done|].
        intros ->. by rewrite (g_fresh _ _ _ _ _ Hg) in Ho.
  - destruct (handleUnbind_ok now a id s Hok) as (_ & _ & Ht & _ & _ & Hh & Hp).
    unfold owner. rewrite Ht. split_and!; [| |done]; intros x Hl; [apply Hh|apply Hp]; auto.
  - destruct (teardownSession_ok now a ss s Hok Ha) as (_ & _ & Ht & _ & _ & Hh & Hp).
    unfold owner. rewrite Ht. split_and!; [| |done]; intros x Hl; [apply Hh|apply Hp];
      (split; [done|]); intros (id & Hi); by apply (Hnt id).
  - unfold recordUsage. destruct (tuns (world s) !! u) eqn:Hu; [|done]. simpl.
    split_and!; [done|done|]. unfold owner in *. simpl in *.
    destruct (decide (u = t)) as [->|Hut].
    + rewrite lookup_alter_eq. rewrite Hu in *. done.
    + by rewrite lookup_alter_ne.
Qed.

(** C2: sessions are isolated.  In any state reachable as in the soundness of
    routes, such a step of one session (its connect, bind, unbind, teardown or
    traffic) neither removes nor redirects a route of any other session. *)
Theorem sessions_are_isolated cf e r rep s a s' b t :
  0 < PortMin cf → reachable (NewServer cf e r rep) s → edge_step a s s' →
  owner (world s) (Some t) = Some b → b ≠ a →
  (∀ h, LookupHost h (world s) = Some t → LookupHost h (world s') = Some t) ∧
  (∀ p n, LookupPort p n (world s) = Some t → LookupPort p n (world s') = Some t) ∧
  owner (world s') (Some t) = Some b.
Proof.
  intros Hmin Hr Hst Ho Hne. pose proof (reachable_ok _ _ _ _ _ Hmin Hr) as Hok.
  destruct (step_keeps_routes _ _ _ _ _ Hok Hst Ho Hne) as (H1' & H2' & H3').
  split_and!; [done| |done]. intros p n. apply H2'.
Qed.

(** * A session's end *)
Lemma session_routes_tracked s a t :
  server_ok [] s → owner (world s) (Some t) = Some a → attached (world s) [] t →
  ∃ id, tracked (world s) a id t.
Proof.
  intros [Hok _] Ho [(b & id & Hi)|Hn%not_elem_of_nil]; [|done]. exists id.
  destruct (ro_tracked _ _ _ Hok _ _ _ Hi) as (_ & bt & Hbt & <- & _).
  unfold owner in Ho. simpl in Ho. rewrite Hbt in Ho. by simplify_eq/=.
Qed.

(** Teardown is complete.  After a session's teardown no host and no port
    leads to a tunnel of it, the hub has forgotten the session, every port it
    held is free again, and every other route is as it was. *)
Theorem teardown_leaves_nothing cf e r rep s now a ss :
  0 < PortMin cf → reachable (NewServer cf e r rep) s → asess (world s) !! a = Some ss →
  let s' := teardownSession now a s in
  (∀ h, owner (world s') (LookupHost h (world s')) ≠ Some a) ∧
  (∀ p n, owner (world s') (LookupPort p n (world s')) ≠ Some a) ∧
  sessions (hub (world s')) !! sessionID ss = None ∧
  (∀ p n, net_proto p → owner (world s) (LookupPort p n (world s)) = Some a → n ∉ used p (ports s')) ∧
  (∀ h t, owner (world s) (Some t) ≠ Some a →
     LookupHost h (world s') = Some t ↔ LookupHost h (world s) = Some t).
Proof.
  intros Hmin Hr Ha s'. pose proof (reachable_ok _ _ _ _ _ Hmin Hr) as Hok.
  destruct (teardownSession_ok now a ss s Hok Ha) as ([Hok' _] & _ & Ht & Hss & _ & Hh & Hp).
  fold s' in Hok', Ht, Hss, Hh, Hp.
  assert (Hown : ∀ x, owner (world s') x = owner (world s) x) by (intros; unfold owner; by rewrite Ht).
  assert (Hport : ∀ k t, byPort (hub (world s')) !! k = Some t → owner (world s) (Some t) ≠ Some a).
  { intros k t [Hl Hn]%Hp Ho. apply Hn. apply session_routes_tracked; [done|done|].
    by apply (ro_port _ _ _ (proj1 Hok)) in Hl as [Hl _]. }
  split_and!.
  - intros h. unfold LookupHost. destruct (byHost (hub (world s')) !! h) as [t|] eqn:Hl; [|done].
    rewrite Hown. apply Hh in Hl as [Hl Hn]. intros Ho. apply Hn.
    apply session_routes_tracked; [done|done|]. by apply (ro_host _ _ _ (proj1 Hok)) in Hl as [Hl _].
  - intros p n. unfold LookupPort. destruct (byPort (hub (world s')) !! _) as [t|] eqn:Hl; [|done].
    rewrite Hown. by eapply Hport.
  - rewrite Hss. apply lookup_delete_eq.
  - intros p n Hnp Ho. rewrite (ro_used _ _ _ Hok') by done. intros [t Hl].
    pose proof Hl as [Hl0 _]%Hp. unfold LookupPort in Ho. rewrite Hl0 in Ho. by apply Hport in Hl.
  - intros h t Hno. unfold LookupHost. rewrite Hh. split; [tauto|]. intros Hl. split; [done|].
    intros (id & Hi). apply Hno. destruct (ro_tracked _ _ _ (proj1 Hok) _ _ _ Hi) as (_ & bt & Hbt & <- & _).
    unfold owner. simpl. by rewrite Hbt.
Qed.

(** * A whole session *)

(** Every bind of the script is fresh when its turn comes. *)
Fixpoint disciplined a (msgs : list Incoming) s : Prop :=
  match msgs with
  | [] => True
  | m :: msgs =>
      match in_env m with
      | EnvBind b =>
          fresh_bind a b s ∧
          (in_writable m = true → disciplined a msgs (snd (handleBind (in_call m) a b s)))
      | EnvUnbind id => disciplined a msgs (handleUnbind (now (in_call m)) a id s)
      | _ => disciplined a msgs s
      end
  end.

(** What the control loop of [a] maintains. *)
Definition loop_inv a s s' : Prop :=
  server_ok [] s' ∧ same_rest a (world s) (world s') ∧
  sessions (hub (world s')) = sessions (hub (world s)) ∧ cfg s' = cfg s ∧
  (sessionID <$> asess (world s') !! a) = (sessionID <$> asess (world s) !! a).

Lemma loop_inv_trans a s1 s2 s3 : loop_inv a s1 s2 → loop_inv a s2 s3 → loop_inv a s1 s3.
Proof.
  intros (_ & A2 & A3 & A4 & A5) (B1 & B2 & B3 & B4 & B5).
  split_and!; [done|by eapply same_rest_trans|congruence..].
Qed.

Lemma handleBind_loop c a b s ss :
  server_ok [] s → asess (world s) !! a = Some ss → fresh_bind a b s →
  loop_inv a s (snd (handleBind c a b s)).
Proof.
  intros Hok Ha Hfb. destruct (handleBind c a b s) as [resp s'] eqn:Hb. simpl.
  destruct (handleBind_inv _ _ _ _ _ _ _ Hok Ha Hb) as [[_ Hq]|(dec & t & bt & Hbd)].
  - split_and!; [by eapply quiet_ok| |by rewrite (q_hub _ _ Hq)|apply Hq|by rewrite (q_asess _ _ Hq)].
    split; intros x u; unfold rest_host, rest_port, tracked;
      by rewrite (q_hub _ _ Hq), (q_asess _ _ Hq).
  - destruct (bound_ok _ _ _ _ _ _ _ _ _ _ Hok Ha Hfb Hbd) as (Hok' & Hsr & _).
    pose proof (bd_grows _ _ _ _ _ _ _ _ _ _ Hbd) as Hg.
    split_and!; [done|done|apply Hg|apply Hg|].
    rewrite (g_asess _ _ _ _ _ Hg), lookup_alter_eq, Ha. done.
Qed.

Lemma handleUnbind_loop now a id s : server_ok [] s → loop_inv a s (handleUnbind now a id s).
Proof.
  intros Hok. destruct (handleUnbind_ok now a id s Hok) as (Hok' & Hc & Ht & Hs & Htr & Hh & Hp).
  split_and!; [done| |done|done|].
  - split; intros x u; unfold rest_host, rest_port; rewrite ?Hh, ?Hp; setoid_rewrite Htr; split.
    + intros [[Hl Hn1] Hn2]. split; [done|]. intros (i & Hi). apply Hn2. exists i.
      split; [done|]. intros [_ ->]. by apply Hn1.
    + intros [Hl Hn]. split; [|naive_solver]. split; [done|]. intros Hi. apply Hn. eauto.
    + intros [[Hl Hn1] Hn2]. split; [done|]. intros (i & Hi). apply Hn2. exists i.
      split; [done|]. intros [_ ->]. by apply Hn1.
    + intros [Hl Hn]. split; [|naive_solver]. split; [done|]. intros Hi. apply Hn. eauto.
  - unfold handleUnbind. destruct (asess (world s) !! a) as [ss|] eqn:Ha; [|by rewrite Ha].
    assert (Hx : sessionID <$> asess (world (with_world (untrack a id) s)) !! a = Some (sessionID ss)).
    { simpl. rewrite lookup_alter_eq, Ha. done. }
    destruct (tunnels ss !! id) as [t|]; [|exact Hx].
    destruct (tuns (world (with_world (untrack a id) s)) !! t) as [bt|] eqn:Hbt.
    + change (with_sess a _) with (untrack a id).
      destruct (releaseTunnel_view now t _ bt Hbt) as (-> & _).
      by rewrite (proj2 (unbind_objects t _)).
    + unfold releaseTunnel. change (with_sess a _) with (untrack a id). by rewrite Hbt.
Qed.

Lemma controlLoop_inv a msgs s ss :
  server_ok [] s → asess (world s) !! a = Some ss → disciplined a msgs s →
  loop_inv a s (snd (controlLoop a msgs s)).
Proof.
  revert s ss. induction msgs as [|m msgs IH]; intros s ss Hok Ha Hd; simpl in *; [done|].
  assert (Hnext : ∀ s1, loop_inv a s s1 → disciplined a msgs s1 →
            loop_inv a s (snd (controlLoop a msgs s1))).
  { intros s1 Hl Hd1. pose proof Hl as (Hok1 & _ & _ & _ & Hid). rewrite Ha in Hid.
    apply fmap_Some in Hid as (ss1 & Ha1 & _).
    eapply loop_inv_trans; [done|]. by eapply IH. }
  destruct (in_env m) as [h|ar|b|br|id|ts|ts|em|rs dl]; try (by apply Hnext).
  - destruct Hd as [Hfb Hd]. pose proof (handleBind_loop (in_call m) a b s ss Hok Ha Hfb) as Hl.
    destruct (handleBind (in_call m) a b s) as [resp s1] eqn:Hb. simpl in *.
    destruct (in_writable m); [|done]. specialize (Hnext s1 Hl (Hd eq_refl)).
    by destruct (controlLoop a msgs s1).
  - apply Hnext; [by apply handleUnbind_loop|done].
  - specialize (Hnext s). destruct (controlLoop a msgs s). by apply Hnext.
Qed.
End safety.
