(* ===== verification/EdgeSessions.v ===== *)
(** Whole sessions and whole binds of the edge: what a session leaves behind,
    what a bind promises to the agent and to the peer edges, and the uses of the
    control protocol for which isolation and cleanup fail. *)
From S2P Require Import Prelude GoStrings Wire Authz Registry EdgeConfig Ports Hub Usage Edge EdgeInv EdgeBind EdgeSafety.

Open Scope Z_scope.

Section sessions.
  Context `{RangeOrder} {R : Type} `{Registry R} {E : Type} `{Entitlements E}.
  Implicit Types (s : Server R E) (c : Call) (a : sref) (t : tref).

(** The session [serveSession] creates after a successful handshake. *)
Definition new_session c (hello : Hello) (acct pl : string) : agentSession :=
  {| sessionID := newSessionID (rnd c 0%nat); accountID := acct; plan := pl;
     apiKey := h_api_key hello; tunnels := ∅ |}.

Definition connected c (hello : Hello) (acct pl : string) (e : E) s : Server R E :=
  connect (fresh_sref (world s)) (new_session c hello acct pl) (with_ent e s).

(** The session behaves: its id is new to the hub and its binds are fresh. *)
Definition well_behaved c (first : option Envelope) (rest : list Incoming) s : Prop :=
  ∀ hello acct pl e,
    readHello first = Some hello → Authenticate (now c) (h_api_key hello) (ent s) = (Ok (acct, pl), e) →
    sessions (hub (world s)) !! newSessionID (rnd c 0%nat) = None ∧
    disciplined (fresh_sref (world s)) rest (connected c hello acct pl e s).

Lemma fresh_sref_free w : asess w !! fresh_sref w = None.
Proof. unfold fresh_sref. apply not_elem_of_dom. apply is_fresh. Qed.

(** From a connected session's rest to the hub before it connected. *)
Lemma session_end_hub now a ss s s1 :
  server_ok [] s → asess (world s) !! a = None → tunnels ss = ∅ →
  sessions (hub (world s)) !! sessionID ss = None →
  loop_inv a (connect a ss s) s1 →
  let s2 := teardownSession now a s1 in
  hub (world s2) = hub (world s) ∧ server_ok [] s2.
Proof.
  intros Hok Ha Hts Hsid (Hok1 & [Hr1 Hr2] & Hs1 & _ & Hid) s2.
  rewrite connect_world in Hid. simpl in Hid. rewrite lookup_insert_eq in Hid.
  apply fmap_Some in Hid as (ss1 & Ha1 & Hid).
  destruct (teardownSession_ok now a ss1 s1 Hok1 Ha1) as (Hok2 & _ & _ & Hs2 & _ & Hh2 & Hp2).
  split; [|done]. fold s2 in Hs2, Hh2, Hp2.
  assert (Hnone : ∀ u, ¬ ∃ id, tracked (world (connect a ss s)) a id u).
  { intros u (id & Hi%connect_tracked); [|done|done]. destruct Hi as (ss' & Hss & _). congruence. }
  assert (Hbh : byHost (hub (world s2)) = byHost (hub (world s))).
  { apply map_eq. intros h. apply option_eq. intros u. rewrite Hh2.
    change (rest_host a (world s1) h u ↔ byHost (hub (world s)) !! h = Some u).
    rewrite Hr1. unfold rest_host.
    replace (byHost (hub (world (connect a ss s)))) with (byHost (hub (world s)))
      by (by rewrite connect_world). specialize (Hnone u). tauto. }
  assert (Hbp : byPort (hub (world s2)) = byPort (hub (world s))).
  { apply map_eq. intros k. apply option_eq. intros u. rewrite Hp2.
    change (rest_port a (world s1) k u ↔ byPort (hub (world s)) !! k = Some u).
    rewrite Hr2. unfold rest_port.
    replace (byPort (hub (world (connect a ss s)))) with (byPort (hub (world s)))
      by (by rewrite connect_world). specialize (Hnone u). tauto. }
  assert (Hse : sessions (hub (world s2)) = sessions (hub (world s))).
  { rewrite Hs2, Hs1, connect_world. simpl. rewrite <- Hid. by apply delete_insert_id. }
  destruct (hub (world s2)), (hub (world s)). simpl in Hbh, Hbp, Hse. congruence.
Qed.

(** C4: a session leaves no trace.  Whatever a well-behaved agent sends, and
    whenever its connection dies (also in mid-handshake, or when a reply cannot
    be written), once [serveSession] returns the hub has exactly the routes and
    sessions it had before, the same ports are reserved, and the gauge of
    active tunnels is back at its value. *)
Theorem session_leaves_no_trace cf e0 r0 rep c first aw rest cend s :
  0 < PortMin cf → reachable (NewServer cf e0 r0 rep) s → well_behaved c first rest s →
  let s' := snd (serveSession c first aw rest cend s) in
  hub (world s') = hub (world s) ∧
  (∀ proto, net_proto proto → used proto (ports s') = used proto (ports s)) ∧
  TunnelsActive s' = TunnelsActive s.
Proof.
  intros Hmin Hr Hwb s'. pose proof (reachable_ok _ _ _ _ _ Hmin Hr) as Hok.
  assert (Hgo : hub (world s') = hub (world s) ∧
    (server_ok [] s' ∨ ports s' = ports s ∧ TunnelsActive s' = TunnelsActive s)).
  { subst s'. unfold serveSession. destruct (readHello first) as [hello|] eqn:Hh; [|by eauto].
    destruct (_ && _); [by eauto|].
    destruct (Authenticate _ _ _) as [[[acct pl]|] e] eqn:Hau; [|by eauto].
    destruct (Hwb hello acct pl e Hh Hau) as [Hsid Hd].
    destruct aw; cbn [negb]; [|by eauto].
    change (add_gauges 0 1 _) with (connected c hello acct pl e s).
    change (fresh_sref (world (with_ent e s))) with (fresh_sref (world s)).
    pose proof (fresh_sref_free (world s)) as Hfree.
    assert (Hoc : server_ok [] (connected c hello acct pl e s)) by by apply connect_ok.
    assert (Hac : asess (world (connected c hello acct pl e s)) !! fresh_sref (world s)
                  = Some (new_session c hello acct pl)).
    { unfold connected. rewrite connect_world. simpl. by rewrite lookup_insert_eq. }
    pose proof (controlLoop_inv _ rest _ _ Hoc Hac Hd) as Hl.
    destruct (controlLoop _ rest _) as [out s1]. simpl in Hl |- *.
    destruct (session_end_hub cend (fresh_sref (world s)) (new_session c hello acct pl)
                (with_ent e s) s1) as [Heq Hok2]; [done..|].
    split; [done|]. left. destruct Hok2 as [? Hg]. split; [done|]. simpl in *. lia. }
  destruct Hgo as [Hhub [[Hok' Hg']|[-> ->]]]; [|done]. split; [done|]. split.
  - intros proto Hp. apply set_eq. intros p. rewrite (ro_used _ _ _ Hok') by done.
    by rewrite Hhub, (ro_used _ _ _ (proj1 Hok)).
  - rewrite Hg', (proj2 Hok). unfold live, Stats. by rewrite Hhub.
Qed.

(** C5: a bind either is refused, and then no route, session, reservation,
    registry lease, gauge or report changed; or it was allowed by the
    entitlements service and by the limits of its decision, and then exactly
    one route was added, for a new tunnel of this session carrying the decided
    account: the name the agent is told is the entry point that now leads to
    it, a host taken from nobody else or a port that was free. *)
Theorem handleBind_spec cf e0 r0 rep c a b s ss resp s' :
  0 < PortMin cf → reachable (NewServer cf e0 r0 rep) s → asess (world s) !! a = Some ss →
  handleBind c a b s = (resp, s') →
  (br_ok resp = false ∧ quiet s s') ∨
  (∃ dec t bt, br_ok resp = true ∧ bound c a ss b dec t bt resp s s' ∧
     (if bool_decide (b_type b = TCP ∨ b_type b = UDP)
      then LookupPort (protoForType (b_type b)) (br_assigned_port resp) (world s') = Some t
      else LookupHost (br_assigned_host resp) (world s') = Some t)).
Proof.
  intros Hmin Hr Ha Hb. pose proof (reachable_ok _ _ _ _ _ Hmin Hr) as Hok.
  destruct (handleBind_inv _ _ _ _ _ _ _ Hok Ha Hb) as [Hq|(dec & t & bt & Hbd)]; [by left|right].
  exists dec, t, bt. pose proof (bd_route _ _ _ _ _ _ _ _ _ _ Hbd) as Hrt.
  assert (Hty : ttype bt = b_type b) by apply (bd_identity _ _ _ _ _ _ _ _ _ _ Hbd).
  unfold LookupHost, LookupPort. destruct (b_type b) eqn:Htb.
  1-3: rewrite bool_decide_false by naive_solver;
    pose proof (bh_resp _ _ _ _ _ _ _ _ _ _ Hrt) as Hresp;
    (split_and!; [by rewrite Hresp|done|]);
    rewrite (bh_byHost _ _ _ _ _ _ _ _ _ _ Hrt), Hresp; apply lookup_insert_eq.
  all: rewrite bool_decide_true by naive_solver;
    pose proof (bp_resp _ _ _ _ _ _ _ _ _ Hrt) as Hresp;
    (split_and!; [by rewrite Hresp|done|]);
    rewrite (bp_byPort _ _ _ _ _ _ _ _ _ Hrt), Hresp;
    unfold bt_key; rewrite Hty; apply lookup_insert_eq.
Qed.

(** What the edge tells the shared registry.  After an accepted bind of a
    host whose registry write succeeded, every edge that looks the host up
    during the next two heartbeat intervals is sent to this edge and session;
    after the tunnel's release (again if the registry accepts the write) nobody
    finds it. *)
Theorem bound_host_visible `{!RegistryLaws R} cf e0 r0 rep c a b s ss resp s' (now2 : Time) t :
  0 < PortMin cf → reachable (NewServer cf e0 r0 rep) s → asess (world s) !! a = Some ss →
  handleBind c a b s = (resp, s') → br_ok resp = true → b_type b ≠ TCP → b_type b ≠ UDP →
  let me := {| EdgeID := cfg_EdgeID (cfg s); SessionID := sessionID ss |} in
  let route := host_route (br_assigned_host resp) in
  valid_binding me → 0 < now c → 0 <= HeartbeatInterval (cfg s) →
  fst (reg_Bind (now c) route me (2 * HeartbeatInterval (cfg s)) (reg s)) = Ok tt →
  LookupHost (br_assigned_host resp) (world s') = Some t →
  (∀ at0 : Time, now c <= at0 < now c + 2 * HeartbeatInterval (cfg s) → view (reg s') at0 (Key route) = Some me) ∧
  (fst (reg_Unbind now2 route (reg s')) = Ok tt →
   ∀ at0 : Time, now2 <= at0 → view (reg (releaseTunnel now2 t s')) at0 (Key route) = None).
Proof.
  intros Hmin Hr Ha Hb Hokr Ht1 Ht2 me route Hv Hnow Hhb Hrb Hlk.
  pose proof (reachable_ok _ _ _ _ _ Hmin Hr) as Hok.
  destruct (handleBind_inv _ _ _ _ _ _ _ Hok Ha Hb) as [[Hf _]|(dec & t' & bt & Hbd)]; [congruence|].
  pose proof (bd_route _ _ _ _ _ _ _ _ _ _ Hbd) as Hrt.
  assert (Hbh : bound_host c a ss b dec t' bt resp s s') by by destruct (b_type b). clear Hrt.
  pose proof (bh_resp _ _ _ _ _ _ _ _ _ _ Hbh) as Hresp.
  assert (Hhost : br_assigned_host resp = host bt) by by rewrite Hresp.
  pose proof (bh_lease _ _ _ _ _ _ _ _ _ _ Hbh) as Hlease. unfold lease_taken in Hlease.
  unfold route in *. rewrite Hhost in *. split.
  - intros at0 Hat0. destruct (reg_Bind _ _ _ _ _) as [res r'] eqn:Hrun. simpl in *. subst res.
    rewrite Hlease.
    destruct (law_bind (now c) _ me (2 * HeartbeatInterval (cfg s)) _ _ at0 Hv Hnow ltac:(lia) Hrun ltac:(lia)) as [Hl _].
    apply Hl. right. lia.
  - intros Hun at0 Hat0. unfold LookupHost in Hlk.
    rewrite (bh_byHost _ _ _ _ _ _ _ _ _ _ Hbh), lookup_insert_eq in Hlk. simplify_eq.
    assert (Hbt : tuns (world s') !! t = Some bt).
    { rewrite (g_tuns _ _ _ _ _ (bd_grows _ _ _ _ _ _ _ _ _ _ Hbd)). apply lookup_insert_eq. }
    assert (Hreg : reg (releaseTunnel now2 t s') = snd (reg_Unbind now2 (host_route (host bt)) (reg s'))).
    { unfold releaseTunnel. rewrite Hbt. destruct (bh_kind _ _ _ _ _ _ _ _ _ _ Hbh) as [Hh Hp].
      apply String.eqb_neq in Hh as ->. rewrite Hp. simpl.
      match goal with |- context [reportTunnelClose ?n bt ?x] =>
        destruct (reportTunnelClose_view n bt x) as (_ & _ & _ & _ & ->) end. done. }
    rewrite Hreg. destruct (reg_Unbind _ _ _) as [res r'] eqn:Hrun. simpl in *. subst res.
    by eapply law_unbind.
Qed.
End sessions.
