(* ===== verification/EdgeExamples.v ===== *)
(** Concrete runs of the edge: instances of its theorems, and the control
    messages under which isolation, cleanup and the tunnel limit fail. *)
From S2P Require Import Prelude GoStrings Wire Authz Registry EdgeConfig Ports Hub Usage Edge EdgeInv EdgeBind EdgeSafety EdgeSessions.

Open Scope Z_scope.

#[local] Existing Instance sorted_range.

Abbreviation DevServer := (Server InMemoryRegistry unit).

Definition ex_cfg : Config := DefaultConfig "edge".
Definition dev0 : DevServer := NewServer ex_cfg tt NewInMemoryRegistry false.
Definition ex_sess (sid : string) : agentSession :=
  {| sessionID := sid; accountID := "dev"; plan := "pro"; apiKey := "k"; tunnels := ∅ |}.
Definition ex_call (seed : nat) : Call :=
  {| now := 1000; rnd := λ i, [Z.of_nat (seed / 30); Z.of_nat (seed mod 30); Z.of_nat i];
     listen := λ _, true; remoteAddr := None |}.
Definition ex_bind (id : string) (ty : TunnelType) (custom : string) : BindTunnel :=
  {| b_client_tunnel_id := id; b_type := ty; b_subdomain := ""; b_custom_domain := custom;
     b_remote_port := 0; b_options := ∅ |}.
Definition do_bind (a : sref) (b : BindTunnel) (s : DevServer) : DevServer :=
  snd (handleBind (ex_call 0) a b s).

(** Two sessions, a port tunnel of the first and a custom domain of the second. *)
Definition dev1 : DevServer := connect 1%nat (ex_sess "sess_1") dev0.
Definition dev2 : DevServer := connect 2%nat (ex_sess "sess_2") dev1.
Definition dev3 : DevServer := do_bind 1%nat (ex_bind "t1" TCP "") dev2.
Definition dev4 : DevServer := do_bind 2%nat (ex_bind "t2" HTTP "x.io") dev3.

Ltac compute_fresh :=
  intros ss Hss; vm_compute in Hss; injection Hss as <-; split; vm_compute; (reflexivity || congruence).

Lemma dev3_reachable : reachable dev0 dev3.
Proof.
  apply (reach_step dev0 1%nat dev2); [apply (reach_step dev0 2%nat dev1);
    [apply (reach_step dev0 1%nat dev0); [apply reach_init|]|]|].
  - apply (step_connect 1%nat (ex_sess "sess_1") dev0); vm_compute; reflexivity.
  - apply (step_connect 2%nat (ex_sess "sess_2") dev1); vm_compute; reflexivity.
  - unfold dev3, do_bind. apply (step_bind 1%nat (ex_call 0) (ex_bind "t1" TCP "") dev2 (ex_sess "sess_1"));
      [vm_compute; reflexivity..|compute_fresh].
Qed.

Lemma dev4_reachable : reachable dev0 dev4.
Proof.
  apply (reach_step dev0 2%nat dev3); [exact dev3_reachable|].
  unfold dev4, do_bind.
  apply (step_bind 2%nat (ex_call 0) (ex_bind "t2" HTTP "x.io") dev3 (ex_sess "sess_2"));
    [vm_compute; reflexivity..|compute_fresh].
Qed.

Lemma reachable_routes_sound_witness :
  LookupHost "x.io" (world dev4) = Some 1%nat ∧ TunnelsActive dev4 = 2.
Proof.
  split; [vm_compute; reflexivity|].
  destruct (reachable_routes_sound ex_cfg tt NewInMemoryRegistry false dev4) as (_ & _ & _ & _ & Hg);
    [vm_compute; reflexivity|exact dev4_reachable|].
  rewrite Hg. vm_compute. reflexivity.
Defined.

Lemma sessions_are_isolated_witness :
  LookupHost "x.io" (world (teardownSession 2000 1%nat dev4)) = Some 1%nat.
Proof.
  destruct (sessions_are_isolated ex_cfg tt NewInMemoryRegistry false dev4 1%nat
    (teardownSession 2000 1%nat dev4) 2%nat 1%nat) as (Hh & _).
  - vm_compute; reflexivity.
  - exact dev4_reachable.
  - eapply step_teardown; vm_compute; reflexivity.
  - vm_compute; reflexivity.
  - congruence.
  - apply Hh. vm_compute; reflexivity.
Defined.

Lemma teardown_leaves_nothing_witness :
  LookupPort "tcp" 20000 (world dev4) = Some 0%nat ∧
  20000 ∉ used "tcp" (ports (teardownSession 2000 1%nat dev4)).
Proof.
  split; [vm_compute; reflexivity|].
  edestruct (teardown_leaves_nothing ex_cfg tt NewInMemoryRegistry false dev4 2000 1%nat)
    as (_ & _ & _ & Hp & _).
  - vm_compute; reflexivity.
  - exact dev4_reachable.
  - vm_compute; reflexivity.
  - apply Hp; [by left|vm_compute; reflexivity].
Defined.

Definition ex_hello : Envelope :=
  EnvHello {| h_protocol_version := "1"; h_agent_version := ""; h_os := ""; h_arch := "";
              h_api_key := "k"; h_region_hint := ""; h_features := [] |}.
Definition incoming (e : Envelope) : Incoming :=
  {| in_env := e; in_call := ex_call 7; in_writable := true |}.
Definition ex_script : list Incoming :=
  map incoming [EnvBind (ex_bind "a" HTTP ""); EnvBind (ex_bind "b" UDP ""); EnvPing 5; EnvUnbind "a"].

Lemma session_leaves_no_trace_witness :
  let s' := snd (serveSession (ex_call 1) (Some ex_hello) true ex_script 9000 dev4) in
  length (fst (serveSession (ex_call 1) (Some ex_hello) true ex_script 9000 dev4)) = 4%nat ∧
  hub (world s') = hub (world dev4).
Proof.
  split; [vm_compute; reflexivity|].
  eapply (session_leaves_no_trace ex_cfg tt NewInMemoryRegistry false (ex_call 1) (Some ex_hello) true
    ex_script 9000 dev4).
  - vm_compute; reflexivity.
  - exact dev4_reachable.
  - intros hello acct pl e Hh Ha. injection Hh as <-. vm_compute in Ha. injection Ha as <- <- <-.
    split; [vm_compute; reflexivity|]. cbn [disciplined ex_script map incoming in_env].
    split; [compute_fresh|]. intros _. split; [compute_fresh|]. done.
Defined.

Lemma handleBind_spec_witness :
  br_ok (fst (handleBind (ex_call 3) 1%nat (ex_bind "t3" HTTPS "x.io") dev4)) = false ∧
  quiet dev4 (snd (handleBind (ex_call 3) 1%nat (ex_bind "t3" HTTPS "x.io") dev4)).
Proof.
  destruct (handleBind (ex_call 3) 1%nat (ex_bind "t3" HTTPS "x.io") dev4) as [resp s'] eqn:Hrun.
  edestruct (handleBind_spec ex_cfg tt NewInMemoryRegistry false (ex_call 3) 1%nat
    (ex_bind "t3" HTTPS "x.io") dev4) as [Hq|(dec & t & bt & Hok & _)].
  - vm_compute; reflexivity.
  - exact dev4_reachable.
  - vm_compute; reflexivity.
  - exact Hrun.
  - exact Hq.
  - assert (Hf : br_ok (fst (handleBind (ex_call 3) 1%nat (ex_bind "t3" HTTPS "x.io") dev4)) = false)
      by (vm_compute; reflexivity).
    rewrite Hrun in Hf. simpl in Hf. congruence.
Defined.

Lemma bound_host_visible_witness :
  view (reg dev4) 2000 (Key (host_route "x.io")) = Some {| EdgeID := "edge"; SessionID := "sess_2" |}.
Proof.
  destruct (handleBind (ex_call 0) 2%nat (ex_bind "t2" HTTP "x.io") dev3) as [resp s'] eqn:Hrun.
  assert (Hs : dev4 = s') by (unfold dev4, do_bind; by rewrite Hrun).
  assert (Hresp : resp = fst (handleBind (ex_call 0) 2%nat (ex_bind "t2" HTTP "x.io") dev3))
    by (by rewrite Hrun).
  assert (Hh : br_assigned_host resp = "x.io") by (rewrite Hresp; vm_compute; reflexivity).
  edestruct (bound_host_visible ex_cfg tt NewInMemoryRegistry false (ex_call 0) 2%nat
    (ex_bind "t2" HTTP "x.io") dev3 (ex_sess "sess_2") resp s' 5000 1%nat) as [Hv _].
  - vm_compute; reflexivity.
  - exact dev3_reachable.
  - vm_compute; reflexivity.
  - exact Hrun.
  - rewrite Hresp; vm_compute; reflexivity.
  - done.
  - done.
  - done.
  - vm_compute; reflexivity.
  - vm_compute; congruence.
  - rewrite Hh. vm_compute; reflexivity.
  - rewrite Hh, <- Hs. vm_compute; reflexivity.
  - rewrite Hh in Hv. rewrite Hs. apply Hv. split; vm_compute; [congruence|reflexivity].
Defined.

(** * Where the discipline is broken *)

(** Binding the same custom domain twice on one session makes the edge
    drop another customer's live route.  Session 1 binds x.io as "a" and again
    as "b" (accepted: the host's owner is the same session), unbinds "a" (the
    route goes although "b" is still tracked), session 2 then binds x.io, and
    session 1's unbind of "b" removes session 2's route, which session 2 still
    tracks. *)
Theorem custom_domain_twice_drops_foreign_route :
  let s1 := do_bind 1%nat (ex_bind "b" HTTP "x.io") (do_bind 1%nat (ex_bind "a" HTTP "x.io") dev2) in
  let s2 := handleUnbind 2000 1%nat "a" s1 in
  let s3 := do_bind 2%nat (ex_bind "c" HTTP "x.io") s2 in
  let s4 := handleUnbind 3000 1%nat "b" s3 in
  LookupHost "x.io" (world s2) = None ∧
  tunnels <$> asess (world s2) !! 1%nat = Some {["b" := 1%nat]} ∧
  owner (world s3) (LookupHost "x.io" (world s3)) = Some 2%nat ∧
  LookupHost "x.io" (world s4) = None ∧
  tunnels <$> asess (world s4) !! 2%nat = Some {["c" := 2%nat]}.
Proof. vm_compute. repeat split. Qed.

(** A reused client tunnel id leaks.  The second bind under an id replaces
    the first tunnel in the session's table, so neither an unbind nor the
    session's teardown releases the first one: its public port stays reserved
    and routed to a session that no longer exists. *)
Theorem reused_tunnel_id_leaks_port :
  let s1 := do_bind 1%nat (ex_bind "a" TCP "") (do_bind 1%nat (ex_bind "a" TCP "") dev2) in
  let s2 := teardownSession 2000 1%nat s1 in
  sessions (hub (world s2)) = {["sess_2" := 2%nat]} ∧
  owner (world s2) (LookupPort "tcp" 20000 (world s2)) = Some 1%nat ∧
  bool_decide (20000 ∈ used "tcp" (ports s2)) = true ∧
  bool_decide (20001 ∈ used "tcp" (ports s2)) = false.
Proof. vm_compute. repeat split. Qed.

(** [n] binds of fresh ids on one session. *)
Fixpoint many_binds (n : nat) (s : DevServer) : list bool * DevServer :=
  match n with
  | O => ([], s)
  | S n =>
      let '(oks, s) := many_binds n s in
      let '(resp, s) := handleBind (ex_call n) 1%nat (ex_bind (pretty (N.of_nat n)) HTTP "") s in
      (br_ok resp :: oks, s)
  end.

(** The plan's limit on concurrent tunnels is not enforced: under a
    decision with MaxConcurrentTunnels = 100, one session binds 101 tunnels and
    every bind is accepted. *)
Theorem concurrent_tunnel_limit_not_enforced :
  (∀ r, ∃ dec, fst (stub_CheckBind r tt) = Ok dec ∧ MaxConcurrentTunnels (d_Limits dec) = 100) ∧
  let '(oks, s) := many_binds 101 dev1 in
  forallb id oks = true ∧ length oks = 101%nat ∧ snd (Stats (world s)) = 101%nat.
Proof. split; [intros r; eexists; split; reflexivity|vm_compute; repeat split]. Qed.
