(* ===== verification/UdpFlows.v ===== *)
(** The public side of UDP tunnels (internal/server/ingress_udp.go): one data
    stream per public client address, an idle sweeper, and the way back.

    Streams are objects in a list; the flow table holds pointers to them.  The
    reader of the socket, the sweeper and the readers of the streams are events
    in any order. *)
From S2P Require Import Prelude GoStrings Wire Hub.
From Stdlib Require Import Strings.Byte.

Open Scope Z_scope.

Definition udpIdleTimeout : Duration := 60 * Second.

(** [us_w]: what the edge has written after the StreamInit; [us_reading]: its
    [udpReadBack] has not returned. *)
Record UStream := {
  us_tunnel : tref; us_init : StreamInit; us_w : Writer; us_closed : bool; us_reading : bool;
}.
Record udpFlow := { uf_stream : nat; uf_lastSeen : Time }.

(** [uv_usage] lists the calls of recordUsage, [uv_sent] the datagrams sent to
    public addresses; [uv_running] until the socket is closed. *)
Record UdpServer := mkUdp {
  uv_flows : gmap string udpFlow;
  uv_streams : list UStream;
  uv_usage : list (tref * Z * Z * Z);
  uv_sent : list (string * list byte);
  uv_running : bool;
}.
Definition newUdp : UdpServer := mkUdp ∅ [] [] [] true.

Definition set_w (w : Writer) (u : UStream) : UStream :=
  {| us_tunnel := us_tunnel u; us_init := us_init u; us_w := w; us_closed := us_closed u; us_reading := us_reading u |}.
Definition close_stream (u : UStream) : UStream :=
  {| us_tunnel := us_tunnel u; us_init := us_init u; us_w := us_w u; us_closed := true; us_reading := us_reading u |}.
Definition stop_reading (u : UStream) : UStream :=
  {| us_tunnel := us_tunnel u; us_init := us_init u; us_w := us_w u; us_closed := us_closed u; us_reading := false |}.

(** [writeUDPFrame] on a stream: a closed one refuses. *)
Definition write_flow (payload : list byte) (u : UStream) : bool * UStream :=
  if us_closed u then (false, u)
  else let '(r, w) := writeUDPFrame payload (us_w u) in (is_ok r, set_w w u).

(** One datagram from the public side.  [opened]: what opening a stream to the
    tunnel's agent gives, a stream and how many bytes it will still accept. *)
Definition udp_recv (w : World) (port : Z) (now : Time) (addr : string) (payload : list byte)
    (opened : option (option nat)) (s : UdpServer) : UdpServer :=
  match LookupPort "udp" port w with
  | None => s
  | Some t =>
      let target :=
        match uv_flows s !! addr with
        | Some f => Some (uf_stream f, uv_streams s)
        | None =>
            bt ← tuns w !! t;
            room ← opened;
            let init := {| si_client_tunnel_id := clientTunnelID bt; si_remote_addr := addr; si_proto := "udp"; si_meta := ∅ |} in
            Some (length (uv_streams s), uv_streams s ++
              [{| us_tunnel := t; us_init := init; us_w := {| w_out := []; w_room := room |}; us_closed := false;
                  us_reading := true |}])
        end in
      match target with
      | None => s
      | Some (i, streams) =>
          let flows := <[addr := {| uf_stream := i; uf_lastSeen := now |}]> (uv_flows s) in
          match streams !! i with
          | None => s
          | Some u =>
              let '(ok, u) := write_flow payload u in
              if ok then
                mkUdp flows (<[i := u]> streams) (uv_usage s ++ [(t, Z.of_nat (length payload), 0, 1)]) (uv_sent s) (uv_running s)
              else
                mkUdp (delete addr flows) (<[i := close_stream u]> streams) (uv_usage s) (uv_sent s) (uv_running s)
          end
      end
  end.

(** One tick of the idle sweeper. *)
Definition stale (now : Time) (f : udpFlow) : bool := udpIdleTimeout <? now - uf_lastSeen f.
Definition udp_sweep (now : Time) (s : UdpServer) : UdpServer :=
  let swept := filter (λ kf, stale now kf.2 = true) (uv_flows s) in
  let is_swept i := bool_decide (map_Exists (λ _ f, uf_stream f = i) swept) in
  mkUdp (filter (λ kf, stale now kf.2 = false) (uv_flows s))
    (imap (λ i u, if is_swept i then close_stream u else u) (uv_streams s))
    (uv_usage s) (uv_sent s) (uv_running s).

(** One turn of [udpReadBack] on stream [i]: a datagram of the agent, and
    whether the socket takes it. *)
Definition udpReadBack (i : nat) (payload : list byte) (sent : bool) (s : UdpServer) : UdpServer :=
  match uv_streams s !! i with
  | None => s
  | Some u =>
      if us_closed u || negb (us_reading u) then s
      else if sent then
        mkUdp (uv_flows s) (uv_streams s) (uv_usage s ++ [(us_tunnel u, 0, Z.of_nat (length payload), 0)])
          (uv_sent s ++ [(si_remote_addr (us_init u), payload)]) (uv_running s)
      else mkUdp (uv_flows s) (<[i := stop_reading u]> (uv_streams s)) (uv_usage s) (uv_sent s) (uv_running s)
  end.

(** The connection under stream [i] breaks after [n] more bytes. *)
Definition break_stream (i n : nat) (s : UdpServer) : UdpServer :=
  match uv_streams s !! i with
  | None => s
  | Some u =>
      mkUdp (uv_flows s) (<[i := set_w {| w_out := w_out (us_w u); w_room := Some n |} u]> (uv_streams s))
        (uv_usage s) (uv_sent s) (uv_running s)
  end.

Inductive UdpEvent :=
| URecv (w : World) (port : Z) (now : Time) (addr : string) (payload : list byte) (opened : option (option nat))
| USweep (now : Time)
| UBack (i : nat) (payload : list byte) (sent : bool)
| UBreak (i n : nat)
| UStop.

Definition udp_step (s : UdpServer) (e : UdpEvent) : UdpServer :=
  match e with
  | URecv w port now addr payload opened => if uv_running s then udp_recv w port now addr payload opened s else s
  | USweep now => if uv_running s then udp_sweep now s else s
  | UBack i payload sent => udpReadBack i payload sent s
  | UBreak i n => break_stream i n s
  | UStop => mkUdp (uv_flows s) (uv_streams s) (uv_usage s) (uv_sent s) false
  end.
Definition serveUDPTunnel (es : list UdpEvent) : UdpServer := foldl udp_step newUdp es.
