(* ===== verification/UdpFlowsSafety.v ===== *)
(** What the UDP flow table guarantees: clients are isolated, and nothing a
    client sends is lost, doubled or reordered while its streams are healthy. *)
From S2P Require Import Prelude GoStrings Wire Hub UdpFlows.
From Stdlib Require Import Strings.Byte.

Open Scope Z_scope.

(** The address a stream serves, and the datagrams on it. *)
Definition addr_of (u : UStream) : string := si_remote_addr (us_init u).
Definition decode (u : UStream) : list (list byte) := fst (udp_read_loop (w_out (us_w u))).

(** The datagrams that reached the streams of [k], oldest stream first. *)
Definition delivered (k : string) (us : list UStream) : list (list byte) :=
  concat (decode <$> filter (λ u, addr_of u = k) us).
(** What [k] sent. *)
Definition from_client (k : string) (e : UdpEvent) : list (list byte) :=
  match e with URecv _ _ _ a p _ => if String.eqb a k then [p] else [] | _ => [] end.
Definition sent_by (k : string) (es : list UdpEvent) : list (list byte) := concat (from_client k <$> es).

Definition small (p : list byte) : Prop := Z.of_nat (length p) < 65536.

(** * What is on a stream *)
(** A stream carries whole frames; once it is closed perhaps the start of one more. *)
Definition stream_ok (u : UStream) : Prop :=
  ∃ ps cut, Forall small ps ∧ w_out (us_w u) = concat (udp_frame <$> ps) ++ cut ∧
    (cut = [] ∨ us_closed u = true ∧ ∃ p n, small p ∧ (n < length (udp_frame p))%nat ∧ cut = take n (udp_frame p)).

Lemma readUDPFrame_cut p n :
  small p → (n < length (udp_frame p))%nat → ∃ e s, readUDPFrame (take n (udp_frame p)) = (Err e, s).
Proof.
  intros Hp Hn. unfold udp_frame in *. rewrite length_app, length_PutUint16 in Hn. unfold readUDPFrame.
  destruct (decide (n < 2)%nat) as [Hlt|Hge].
  - erewrite bind_err; [eauto|]. apply ReadFull_short. rewrite length_take. lia.
  - rewrite take_app, take_ge by (rewrite length_PutUint16; lia). rewrite length_PutUint16.
    rewrite (bind_ok _ _ _ _ _ (ReadFull_app 2 _ _ (length_PutUint16 _))).
    rewrite Uint16_Put, Nat2Z.id by (unfold small in Hp; lia).
    eexists _, _. apply ReadFull_short. rewrite length_take. lia.
Qed.

Lemma read_loop_cut ps cut fuel :
  Forall small ps → (length (concat (udp_frame <$> ps)) < fuel)%nat →
  (cut = [] ∨ ∃ p n, small p ∧ (n < length (udp_frame p))%nat ∧ cut = take n (udp_frame p)) →
  fst (read_loop fuel (concat (udp_frame <$> ps) ++ cut)) = ps.
Proof.
  intros Hps. revert fuel. induction Hps as [|p ps Hp _ IH]; intros fuel Hf Hcut.
  - destruct fuel; [done|]. destruct Hcut as [->|(p & n & Hp & Hn & ->)]; [done|]. simpl.
    by destruct (readUDPFrame_cut p n Hp Hn) as (e & s & ->).
  - rewrite fmap_cons in *. cbn [concat] in *. rewrite <-app_assoc.
    destruct fuel as [|fuel]; [lia|]. cbn [read_loop]. rewrite readUDPFrame_frame by done.
    rewrite length_app in Hf. unfold udp_frame in Hf at 1. rewrite length_app, length_PutUint16 in Hf.
    specialize (IH fuel ltac:(lia) Hcut). destruct (read_loop fuel _) as [qs e]. simpl in *. by rewrite IH.
Qed.

Lemma decode_ok u ps cut :
  Forall small ps → w_out (us_w u) = concat (udp_frame <$> ps) ++ cut →
  (cut = [] ∨ ∃ p n, small p ∧ (n < length (udp_frame p))%nat ∧ cut = take n (udp_frame p)) → decode u = ps.
Proof.
  intros Hps Hw Hc. unfold decode, udp_read_loop. rewrite Hw. apply read_loop_cut; [done| |done]. rewrite length_app. lia.
Qed.

Lemma writeUDPFrame_any p w :
  small p →
  (∃ w', writeUDPFrame p w = (Ok tt, w') ∧ w_out w' = w_out w ++ udp_frame p ∧ (w_room w = None → w_room w' = None)) ∨
  (∃ e w' n, writeUDPFrame p w = (Err e, w') ∧ w_out w' = w_out w ++ take n (udp_frame p) ∧
    (n < length (udp_frame p))%nat ∧ w_room w ≠ None).
Proof.
  intros Hp. destruct w as [out [n|]]; [|left; eexists; split; [by apply writeUDPFrame_healthy|done]].
  unfold writeUDPFrame. rewrite Z.mod_small by (unfold small in Hp; lia). fold (udp_frame p).
  assert (Hl : length (udp_frame p) = (2 + length p)%nat) by (unfold udp_frame; by rewrite length_app, length_PutUint16).
  destruct (decide (2 ≤ n)%nat) as [Hn|Hn].
  - erewrite bind_ok; [|unfold Write; simpl; by rewrite decide_True by lia].
    unfold Write. simpl. destruct (decide (length p ≤ n - 2)%nat) as [Hle|Hgt].
    + left. eexists. split; [done|]. split; [|done]. simpl. unfold udp_frame. by rewrite app_assoc.
    + right. eexists _, _, n. split; [done|]. simpl. split; [|split; [lia|done]].
      destruct n as [|[|n]]; [lia..|]. simpl. by rewrite Nat.sub_0_r, <-app_assoc.
  - right. erewrite bind_err; [|unfold Write; simpl; by rewrite decide_False by lia].
    eexists _, _, n. split; [done|]. simpl. split; [|split; [lia|done]].
    by destruct n as [|[|n]]; [done..|lia].
Qed.

(** Writing a datagram to an open stream adds it, or breaks the stream. *)
Lemma write_flow_spec p u ok u' :
  small p → stream_ok u → us_closed u = false → write_flow p u = (ok, u') →
  addr_of u' = addr_of u ∧
  (if ok then stream_ok u' ∧ us_closed u' = false ∧ decode u' = decode u ++ [p]
   else stream_ok (close_stream u') ∧ decode u' = decode u) ∧
  (w_room (us_w u) = None → ok = true ∧ w_room (us_w u') = None).
Proof.
  intros Hp (ps & cut & Hps & Hw & Hc) Hcl. destruct Hc as [->|[? _]]; [|congruence].
  rewrite app_nil_r in Hw. assert (Hd : decode u = ps) by (apply (decode_ok u ps []); [done|by rewrite app_nil_r|by left]).
  unfold write_flow. rewrite Hcl.
  destruct (writeUDPFrame_any p (us_w u) Hp) as [(w' & -> & Ho & Hr)|(e & w' & n & -> & Ho & Hn & Hr)]; intros [= <- <-].
  - assert (E : w_out w' = concat (udp_frame <$> ps ++ [p]) ++ []).
    { rewrite Ho, Hw, fmap_app, concat_app, app_nil_r. cbn [fmap list_fmap concat]. by rewrite app_nil_r. }
    assert (Forall small (ps ++ [p])) by (apply Forall_app; split; [done|by repeat constructor]).
    split; [done|]. split; [|by intros Hn; split; [done|apply Hr]]. split; [|split; [done|]].
    + exists (ps ++ [p]), []. split_and!; [done|done|by left].
    + rewrite Hd. apply (decode_ok _ _ []); [done|done|by left].
  - rewrite Hw in Ho. split; [done|]. split; [|done]. split.
    + exists ps, (take n (udp_frame p)). split_and!; [done|done|]. right. split; [done|]. by exists p, n.
    + rewrite Hd. apply (decode_ok _ _ (take n (udp_frame p))); [done|done|]. right. by exists p, n.
Qed.

(** * Streams keep their content *)
Definition keeps (u u' : UStream) : Prop := addr_of u' = addr_of u ∧ decode u' = decode u.

Lemma delivered_keeps k us us' : Forall2 keeps us us' → delivered k us' = delivered k us.
Proof.
  unfold delivered. induction 1 as [|u u' us us' [Ha Hd] _ IH]; [done|].
  rewrite !filter_cons, Ha. case_decide; rewrite ?fmap_cons; simpl; by rewrite IH, ?Hd.
Qed.

Lemma keeps_refl us : Forall2 keeps us us.
Proof. induction us; by constructor. Qed.

Lemma keeps_insert us i u u' : us !! i = Some u → keeps u u' → Forall2 keeps us (<[i := u']> us).
Proof.
  revert i. induction us as [|x us IH]; intros [|i] Hi Hk; try done.
  - injection Hi as ->. simpl. constructor; [done|apply keeps_refl].
  - simpl. constructor; [done|]. by apply IH.
Qed.

Lemma delivered_streams_app k us us' : delivered k (us ++ us') = delivered k us ++ delivered k us'.
Proof. unfold delivered. by rewrite list.filter_app, fmap_app, concat_app. Qed.

Lemma delivered_none k us : Forall (λ u, addr_of u ≠ k) us → delivered k us = [].
Proof. unfold delivered. induction 1 as [|u us Hu _ IH]; [done|]. by rewrite filter_cons_False. Qed.

Lemma delivered_one k u : delivered k [u] = if decide (addr_of u = k) then decode u else [].
Proof. unfold delivered. rewrite filter_cons. case_decide; simpl; [by rewrite app_nil_r|done]. Qed.

(** A datagram added to the newest stream of its client. *)
Lemma delivered_add us i u u' p k :
  us !! i = Some u → addr_of u' = addr_of u → decode u' = decode u ++ [p] →
  (∀ j v, (i < j)%nat → us !! j = Some v → addr_of v ≠ addr_of u) →
  delivered k (<[i := u']> us) = delivered k us ++ (if String.eqb (addr_of u) k then [p] else []).
Proof.
  intros Hi Ha Hd Hlast.
  rewrite insert_take_drop by (by eapply lookup_lt_Some). rewrite <-(take_drop_middle us i u Hi) at 3.
  change (u' :: ?r) with ([u'] ++ r). change (u :: ?r) with ([u] ++ r). rewrite !delivered_streams_app, !delivered_one, Ha.
  destruct (String.eqb_spec (addr_of u) k) as [<-|Hne].
  - rewrite !decide_True by done. rewrite (delivered_none _ (drop _ _)); [by rewrite Hd, !app_nil_r, app_assoc|].
    apply list.Forall_forall. intros v [j Hj]%list_elem_of_lookup. rewrite lookup_drop in Hj.
    eapply Hlast; [|exact Hj]. lia.
  - rewrite !decide_False by done. by rewrite app_nil_r.
Qed.

(** * The invariant *)
(** Stream [i] is the open, newest stream of client [k]. *)
Definition newest (us : list UStream) (k : string) (i : nat) : Prop :=
  ∃ u, us !! i = Some u ∧ addr_of u = k ∧ us_closed u = false ∧
    ∀ j v, (i < j)%nat → us !! j = Some v → addr_of v ≠ k.

Definition datagram_ok (e : UdpEvent) : Prop := match e with URecv _ _ _ _ p _ => small p | _ => True end.
(** The tunnel is bound, streams open, and nothing breaks. *)
Definition udp_healthy (e : UdpEvent) : Prop :=
  match e with
  | URecv w port _ _ _ opened => (∃ t, LookupPort "udp" port w = Some t ∧ is_Some (tuns w !! t)) ∧ opened = Some None
  | USweep _ | UBack _ _ _ => True
  | UBreak _ _ | UStop => False
  end.

(** What the metering was told of the public side, and what it should be. *)
Definition metered (s : UdpServer) : Z * Z :=
  foldr (λ '(_, i, _, r) '(bytes, n), (i + bytes, r + n)) (0, 0) (uv_usage s).
Definition carried (us : list UStream) : Z * Z :=
  let ps := concat (decode <$> us) in (Z.of_nat (length (concat ps)), Z.of_nat (length ps)).

Lemma carried_keeps us us' : Forall2 keeps us us' → carried us' = carried us.
Proof.
  intros H. unfold carried. assert (E : decode <$> us' = decode <$> us); [|by rewrite E].
  induction H as [|u u' us us' [_ Hd] _ IH]; [done|]. rewrite !fmap_cons. by rewrite Hd, IH.
Qed.

Lemma carried_add us i u u' p :
  us !! i = Some u → decode u' = decode u ++ [p] →
  carried (<[i := u']> us) = (fst (carried us) + Z.of_nat (length p), snd (carried us) + 1).
Proof.
  intros Hi Hd. unfold carried. rewrite insert_take_drop by (by eapply lookup_lt_Some).
  assert (E : concat (decode <$> us) = concat (decode <$> take i us) ++ decode u ++ concat (decode <$> drop (S i) us)).
  { rewrite <-(take_drop_middle us i u Hi) at 1. by rewrite fmap_app, fmap_cons, concat_app. }
  rewrite E, fmap_app, fmap_cons, Hd. repeat (rewrite ?concat_app, ?length_app; simpl). f_equal; lia.
Qed.

Lemma metered_snoc fl us us' t i o r sent run b n :
  metered (mkUdp fl us' us sent run) = (b, n) →
  metered (mkUdp fl us' (us ++ [(t, i, o, r)]) sent run) = (b + i, n + r).
Proof.
  unfold metered. simpl. revert b n. induction us as [|[[[t' i'] o'] r'] us IH]; intros b n.
  - intros [= <- <-]. simpl. f_equal; lia.
  - simpl. destruct (foldr _ _ us) as [b' n'] eqn:E. intros [= <- <-]. specialize (IH b' n' eq_refl). rewrite IH. f_equal; lia.
Qed.

Record udp_inv (h : Prop) (es : list UdpEvent) (s : UdpServer) : Prop := {
  ui_ok : Forall stream_ok (uv_streams s);
  ui_flow : ∀ k f, uv_flows s !! k = Some f → newest (uv_streams s) k (uf_stream f);
  ui_sub : ∀ k, delivered k (uv_streams s) `sublist_of` sent_by k es;
  ui_all : h → uv_running s = true ∧ Forall (λ u, w_room (us_w u) = None) (uv_streams s) ∧
                ∀ k, delivered k (uv_streams s) = sent_by k es;
  ui_metered : metered s = carried (uv_streams s);
}.

Lemma sent_by_snoc k es e : sent_by k (es ++ [e]) = sent_by k es ++ from_client k e.
Proof. unfold sent_by. rewrite fmap_app, concat_app. simpl. by rewrite app_nil_r. Qed.

(** Steps that move no datagram of a client to its stream. *)
Lemma udp_inv_keep h es e s s' :
  (∀ k, from_client k e = []) → udp_inv h es s →
  Forall2 keeps (uv_streams s) (uv_streams s') → Forall stream_ok (uv_streams s') →
  (∀ k f, uv_flows s' !! k = Some f → newest (uv_streams s') k (uf_stream f)) →
  (udp_healthy e → uv_running s = true → Forall (λ u, w_room (us_w u) = None) (uv_streams s) →
     uv_running s' = true ∧ Forall (λ u, w_room (us_w u) = None) (uv_streams s')) →
  metered s' = metered s →
  udp_inv (h ∧ udp_healthy e) (es ++ [e]) s'.
Proof.
  intros Hf [Ho _ Hs Ha Hu] Hk Hok Hfl Hh Hm. split; [done|done| | |].
  - intros k. by rewrite sent_by_snoc, Hf, app_nil_r, (delivered_keeps k _ _ Hk).
  - intros [Hh1 He]. destruct (Ha Hh1) as (H1 & H2 & H3). destruct (Hh He H1 H2) as [H4 H5]. split_and!; [done|done|].
    intros k. by rewrite sent_by_snoc, Hf, app_nil_r, (delivered_keeps k _ _ Hk).
  - by rewrite Hm, Hu, (carried_keeps _ _ Hk).
Qed.

Lemma keeps_close u : keeps u (close_stream u).
Proof. done. Qed.
Lemma ok_close u : stream_ok u → stream_ok (close_stream u).
Proof.
  intros (ps & cut & Hps & Hw & Hc). exists ps, cut. split_and!; [done|done|].
  destruct Hc as [?|[_ H]]; [by left|by right].
Qed.

Lemma sweep_inv h es s now : udp_inv h es s → udp_inv (h ∧ True) (es ++ [USweep now]) (udp_sweep now s).
Proof.
  intros Hinv. apply (udp_inv_keep h es (USweep now) s); [done|done|..]; destruct Hinv as [Ho Hf _ _ _]; simpl.
  - apply Forall2_same_length_lookup. split; [by rewrite length_imap|]. intros i u u' Hi.
    rewrite list_lookup_imap, Hi. simpl. intros [= <-]. by case_bool_decide.
  - apply list.Forall_forall. intros u' [i Hi]%list_elem_of_lookup. rewrite list_lookup_imap in Hi.
    destruct (uv_streams s !! i) as [u|] eqn:Hu; [|done]. injection Hi as <-.
    rewrite list.Forall_lookup in Ho. specialize (Ho i u Hu). case_bool_decide; [by apply ok_close|done].
  - intros k f [Hk Hst]%map_lookup_filter_Some. destruct (Hf k f Hk) as (u & Hu & Ha & Hc & Hl).
    exists u. rewrite list_lookup_imap, Hu. simpl. split; [|split; [done|split; [done|]]].
    + rewrite bool_decide_false; [done|]. intros (k' & f' & [Hk' Hst']%map_lookup_filter_Some & Heq).
      destruct (Hf k' f' Hk') as (u' & Hu' & Ha' & _). rewrite Heq, Hu in Hu'. injection Hu' as <-.
      simpl in *. assert (Hkk : k' = k) by congruence. rewrite Hkk in Hk'. assert (f' = f) by congruence. congruence.
    + intros j v Hj Hv. rewrite list_lookup_imap in Hv. destruct (uv_streams s !! j) as [v'|] eqn:Hv'; [|done].
      injection Hv as <-. specialize (Hl j v' Hj Hv'). by case_bool_decide.
  - intros _ Hr Hroom. split; [done|]. apply list.Forall_forall. intros u' [i Hi]%list_elem_of_lookup.
    rewrite list_lookup_imap in Hi. destruct (uv_streams s !! i) as [u|] eqn:Hu; [|done]. injection Hi as <-.
    rewrite list.Forall_lookup in Hroom. specialize (Hroom i u Hu). by case_bool_decide.
  - done.
Qed.

(** Changing a stream without touching its content or closing it. *)
Lemma newest_insert us k i j u u' :
  us !! j = Some u → addr_of u' = addr_of u → us_closed u' = us_closed u → newest us k i → newest (<[j := u']> us) k i.
Proof.
  intros Hj Ha Hc (v & Hv & Hk & Hcl & Hl). destruct (decide (i = j)) as [->|Hne].
  - assert (v = u) by congruence. subst v. exists u'. rewrite list_lookup_insert_eq by (by eapply lookup_lt_Some).
    split_and!; [done|congruence|congruence|]. intros i w Hi. rewrite list_lookup_insert_ne by lia. by apply Hl.
  - exists v. rewrite list_lookup_insert_ne by done. split_and!; [done..|]. intros i' w Hi.
    destruct (decide (i' = j)) as [->|]; [|rewrite list_lookup_insert_ne by done; by apply Hl].
    rewrite list_lookup_insert_eq by (by eapply lookup_lt_Some). intros [= <-]. rewrite Ha. by eapply Hl.
Qed.

Lemma room_keeps u w : w_out w = w_out (us_w u) → keeps u (set_w w u).
Proof. intros E. unfold keeps, decode, addr_of. simpl. by rewrite E. Qed.
Lemma room_ok u w : w_out w = w_out (us_w u) → stream_ok u → stream_ok (set_w w u).
Proof. intros E (ps & cut & H). exists ps, cut. simpl. by rewrite E. Qed.

Lemma ok_insert us i u : Forall stream_ok us → stream_ok u → Forall stream_ok (<[i := u]> us).
Proof. intros H Hu. by apply Forall_insert. Qed.

Lemma side_inv h es s e :
  match e with UBack _ _ _ | UBreak _ _ | UStop => True | _ => False end →
  udp_inv h es s → udp_inv (h ∧ udp_healthy e) (es ++ [e]) (udp_step s e).
Proof.
  intros He Hinv. destruct e as [| |i p ok|i n|]; try done;
    (apply (udp_inv_keep h es _ s); [done|done|..]); destruct Hinv as [Ho Hf _ _ _]; simpl; try done; try apply keeps_refl;
    unfold udpReadBack, break_stream; destruct (uv_streams s !! i) as [u|] eqn:Hu; simpl;
    try (destruct (us_closed u || negb (us_reading u)); [|destruct ok]); simpl; try done; try apply keeps_refl;
    rewrite ?list.Forall_lookup in Ho; specialize (Ho i u Hu) as Hou.
  - by apply (keeps_insert _ _ u).
  - apply ok_insert; [by rewrite list.Forall_lookup|]. done.
  - intros k f Hk. apply (newest_insert _ _ _ _ u); [done..|]. by apply Hf.
  - intros _ Hr Hroom. split; [done|]. apply Forall_insert; [done|]. rewrite list.Forall_lookup in Hroom. by apply (Hroom i u).
  - rewrite (metered_snoc _ _ _ _ _ _ _ _ _ (fst (metered s)) (snd (metered s))); [|exact (surjective_pairing (metered s))].
    rewrite !Z.add_0_r. symmetry. apply surjective_pairing.
  - by apply (keeps_insert _ _ u), room_keeps.
  - apply ok_insert; [by rewrite list.Forall_lookup|]. by apply room_ok.
  - intros k f Hk. apply (newest_insert _ _ _ _ u); [done..|]. by apply Hf.
Qed.

(** * A datagram from a client *)
(** The stream the datagram goes to. *)
Definition target (w : World) (t : tref) (addr : string) (opened : option (option nat)) (s : UdpServer) :
    option (nat * list UStream) :=
  match uv_flows s !! addr with
  | Some f => Some (uf_stream f, uv_streams s)
  | None =>
      bt ← tuns w !! t;
      room ← opened;
      let init := {| si_client_tunnel_id := clientTunnelID bt; si_remote_addr := addr; si_proto := "udp"; si_meta := ∅ |} in
      Some (length (uv_streams s), uv_streams s ++
        [{| us_tunnel := t; us_init := init; us_w := {| w_out := []; w_room := room |}; us_closed := false; us_reading := true |}])
  end.

Lemma newest_snoc us k i u : newest us k i → addr_of u ≠ k → newest (us ++ [u]) k i.
Proof.
  intros (v & Hv & Hk & Hc & Hl) Hu. exists v. split_and!; [by apply lookup_app_l_Some|done|done|].
  intros j x Hj [Hx|[Hx1 Hx2]]%lookup_app_Some; [by eapply Hl|].
  destruct (j - length us)%nat; [|done]. by injection Hx2 as <-.
Qed.

Lemma target_ok h es w t addr opened s i us :
  udp_inv h es s → target w t addr opened s = Some (i, us) →
  Forall stream_ok us ∧ (∀ k, delivered k us = delivered k (uv_streams s)) ∧ carried us = carried (uv_streams s) ∧
  newest us addr i ∧
  (∀ k f, k ≠ addr → uv_flows s !! k = Some f → newest us k (uf_stream f)) ∧
  (h → opened = Some None → Forall (λ u, w_room (us_w u) = None) us).
Proof.
  intros [Ho Hf _ Ha _]. unfold target. destruct (uv_flows s !! addr) as [f|] eqn:Hfl.
  - intros [= <- <-]. split_and!; [done|done|done|by apply Hf|by intros k f' _; apply Hf|]. intros Hh _. by apply Ha.
  - destruct (tuns w !! t) as [bt|]; [|done]. destruct opened as [room|]; [|done]. simpl. intros [= <- <-].
    set (u := {| us_tunnel := t; us_init := _; us_w := _; us_closed := false; us_reading := true |}).
    assert (Hd : decode u = []) by done. split_and!.
    + apply Forall_app. split; [done|]. constructor; [|done]. exists [], []. split_and!; [done|done|by left].
    + intros k. rewrite delivered_streams_app, delivered_one, Hd. case_decide; by rewrite app_nil_r.
    + unfold carried. rewrite fmap_app, concat_app. cbn [fmap list_fmap concat]. by rewrite Hd, !app_nil_r.
    + exists u. rewrite lookup_app_r, Nat.sub_diag by lia. split_and!; [done|done|done|].
      intros j v Hj Hv. apply lookup_lt_Some in Hv. rewrite length_app in Hv. simpl in Hv. lia.
    + intros k f Hk Hkf. apply newest_snoc; [by apply Hf|]. by intros E.
    + intros Hh [= ->]. apply Forall_app. split; [by apply Ha|]. by repeat constructor.
Qed.

Lemma newest_other us k k' i j u' :
  newest us k i → newest us k' j → k ≠ k' → addr_of u' = k' → newest (<[j := u']> us) k i.
Proof.
  intros (v & Hv & Hk & Hc & Hl) (x & Hx & Hk' & _) Hne Hu. assert (i ≠ j) by (intros ->; congruence).
  exists v. rewrite list_lookup_insert_ne by done. split_and!; [done..|]. intros m y Hm.
  destruct (decide (m = j)) as [->|]; [|rewrite list_lookup_insert_ne by done; by apply Hl].
  rewrite list_lookup_insert_eq by (by eapply lookup_lt_Some). intros [= <-]. congruence.
Qed.

Lemma recv_dropped h h' es e s : (h' → False) → udp_inv h es s → udp_inv h' (es ++ [e]) s.
Proof.
  intros Hn [Ho Hf Hs _ Hm]. split; [done|done| |by intros ?%Hn|done].
  intros k. rewrite sent_by_snoc. by apply sublist_inserts_r.
Qed.

Lemma recv_inv h es s w port now addr p opened :
  small p → udp_inv h es s →
  let e := URecv w port now addr p opened in
  udp_inv (h ∧ udp_healthy e) (es ++ [e]) (udp_step s e).
Proof.
  intros Hp Hinv e. unfold udp_step, e. destruct (uv_running s) eqn:Hrun.
  2:{ apply (recv_dropped h); [|done]. intros [Hh _]. destruct Hinv as [_ _ _ Ha _]. destruct (Ha Hh) as [? _]. congruence. }
  unfold udp_recv. destruct (LookupPort "udp" port w) as [t|] eqn:Hl.
  2:{ apply (recv_dropped h); [|done]. simpl. intros (_ & (t & ? & _) & _). congruence. }
  fold (target w t addr opened s). destruct (target w t addr opened s) as [[i us]|] eqn:Ht.
  2:{ apply (recv_dropped h); [|done]. simpl. intros (_ & (t' & Ht' & [bt Hbt]) & ->). assert (t' = t) by congruence. subst t'.
      unfold target in Ht. rewrite Hbt in Ht. by destruct (uv_flows s !! addr). }
  destruct (target_ok _ _ _ _ _ _ _ _ _ Hinv Ht) as (Hok & Hdel & Hcar & Hnew & Hoth & Hroom).
  pose proof Hnew as (u & Hu & Hau & Hcl & Hlast). rewrite Hu.
  pose proof Hok as Hoku. rewrite list.Forall_lookup in Hoku. specialize (Hoku i u Hu).
  destruct (write_flow p u) as [ok u'] eqn:Hw.
  destruct (write_flow_spec p u ok u' Hp Hoku Hcl Hw) as (Ha & Hres & Hr).
  assert (Hh : h ∧ udp_healthy e → ok = true ∧ w_room (us_w u') = None).
  { intros [Hh1 (_ & ->)]. apply Hr. specialize (Hroom Hh1 eq_refl). rewrite list.Forall_lookup in Hroom. by apply (Hroom i u). }
  destruct Hinv as [Ho Hf Hs Hall Hm]. destruct ok.
  - destruct Hres as (Hok' & Hcl' & Hd).
    assert (HD : ∀ k, delivered k (<[i := u']> us) = delivered k (uv_streams s) ++ from_client k e).
    { intros k. rewrite (delivered_add us i u u' p k Hu Ha Hd) by (rewrite Hau; exact Hlast). by rewrite Hdel, Hau. }
    split; simpl.
    + by apply Forall_insert.
    + intros k f [[<- <-]|[Hne Hk]]%lookup_insert_Some; [|by eapply newest_other; [apply Hoth|exact Hnew|done|congruence]].
      simpl. apply (newest_insert _ _ _ _ u); [done|done|congruence|done].
    + intros k. rewrite HD, sent_by_snoc. by apply sublist_app.
    + intros Hhe. destruct (Hall (proj1 Hhe)) as (H1 & H2 & H3). split; [done|]. split.
      * apply Forall_insert; [|by apply Hh]. destruct Hhe as [Hh1 (_ & ->)]. by apply Hroom.
      * intros k. by rewrite HD, sent_by_snoc, H3.
    + rewrite (carried_add us i u u' p Hu Hd). apply metered_snoc. rewrite Hcar, <-Hm. exact (surjective_pairing (metered s)).
  - destruct Hres as (Hok' & Hd).
    assert (HD : ∀ k, delivered k (<[i := close_stream u']> us) = delivered k (uv_streams s)).
    { intros k. rewrite (delivered_keeps k us); [apply Hdel|]. by apply (keeps_insert _ _ u). }
    split; simpl.
    + by apply Forall_insert.
    + intros k f [Hne Hk]%lookup_delete_Some. rewrite lookup_insert_ne in Hk by done.
      eapply newest_other; [by apply Hoth|exact Hnew|done|]. rewrite <-Hau, <-Ha. done.
    + intros k. rewrite HD, sent_by_snoc. by apply sublist_inserts_r.
    + intros Hhe. by destruct (Hh Hhe).
    + rewrite (carried_keeps us); [by rewrite Hcar, <-Hm|]. by apply (keeps_insert _ _ u).
Qed.

Lemma udp_run_inv es : Forall datagram_ok es → udp_inv (Forall udp_healthy es) es (serveUDPTunnel es).
Proof.
  induction es as [|e es IH] using rev_ind; intros Hok.
  { split; [done|done|done|by intros _; split_and!|done]. }
  apply Forall_app in Hok as [Hok He]. inversion He as [|? ? He' _]; subst.
  unfold serveUDPTunnel. rewrite foldl_app. simpl. fold (serveUDPTunnel es).
  assert (Hstep : udp_inv (Forall udp_healthy es ∧ udp_healthy e) (es ++ [e]) (udp_step (serveUDPTunnel es) e)).
  { specialize (IH Hok). destruct e as [w port now addr p o|now| | |]; [by apply recv_inv| |by apply side_inv..].
    unfold udp_step. destruct (uv_running (serveUDPTunnel es)) eqn:Hr; [by apply sweep_inv|].
    apply (udp_inv_keep _ _ (USweep now) (serveUDPTunnel es)); try done; [by apply keeps_refl|apply IH|apply IH]. }
  destruct Hstep as [H1 H2 H3 H4 H5]. split; [done|done|done| |done].
  intros Hh. apply H4. apply Forall_app in Hh as [Hh He2]. inversion He2. done.
Qed.

(** C25: what a public client sends over UDP reaches the tunnel on its own streams
    only, in order and unaltered.  After any run (clients interleaving, idle sweeps,
    answers, failures to open a stream, connections breaking in the middle of a
    frame, the port being released) the datagrams on the streams opened for a client
    are a subsequence of the datagrams that client sent; if no stream failed, they
    are all of them, although sweeps may have spread them over several streams; and
    the metering has been told exactly the bytes and datagrams the streams carry. *)
Theorem udp_flows_faithful es :
  Forall datagram_ok es →
  let s := serveUDPTunnel es in
  (∀ k, delivered k (uv_streams s) `sublist_of` sent_by k es) ∧
  (Forall udp_healthy es → ∀ k, delivered k (uv_streams s) = sent_by k es) ∧
  metered s = carried (uv_streams s).
Proof.
  intros Hok s. destruct (udp_run_inv es Hok) as [_ _ Hs Ha Hm]. split; [done|]. split; [|done].
  intros Hh. by apply Ha.
Qed.

(** * A tunnel on a public port *)
Definition ex_world : World :=
  {| hub := {| byHost := ∅; byPort := {[portKey "udp" 20000 := 0%nat]}; sessions := ∅ |};
     tuns := {[0%nat := {| clientTunnelID := "ct_1"; bt_accountID := "acct"; bt_plan := "pro"; ttype := UDP; host := "";
                           port := 20000; options := ∅; session := 0%nat; publicURL := ""; startedAt := 0; bytesIn := 0;
                           bytesOut := 0; requests := 0 |}]};
     asess := ∅ |}.
Definition ex_recv (now : Time) (k : string) (p : list byte) : UdpEvent := URecv ex_world 20000 now k p (Some None).
Definition ex_udp : list UdpEvent :=
  [ex_recv 0 "1.1.1.1:9" ["a"%byte]; ex_recv Second "2.2.2.2:9" ["x"%byte; "y"%byte]; UBack 0 ["r"%byte] true;
   USweep (61 * Second); ex_recv (62 * Second) "1.1.1.1:9" ["b"%byte]; ex_recv (63 * Second) "2.2.2.2:9" []].

Lemma udp_flows_faithful_witness :
  length (uv_streams (serveUDPTunnel ex_udp)) = 3%nat ∧
  delivered "1.1.1.1:9" (uv_streams (serveUDPTunnel ex_udp)) = [["a"%byte]; ["b"%byte]] ∧
  metered (serveUDPTunnel ex_udp) = (4, 4).
Proof.
  split; [by vm_compute|].
  destruct (udp_flows_faithful ex_udp) as (_ & H & Hm).
  { repeat constructor. }
  split; [|by rewrite Hm; vm_compute]. rewrite H; [by vm_compute|].
  repeat constructor; by (exists 0%nat; split; [vm_compute; reflexivity|by eexists; vm_compute]).
Defined.

(** * Idle flows *)

(** A sweep removes exactly the flows whose client has been silent for more
    than a minute, and closes their streams. *)
Lemma sweep_exact now s k f :
  uv_flows s !! k = Some f →
  (uv_flows (udp_sweep now s) !! k = Some f ↔ now - uf_lastSeen f <= udpIdleTimeout) ∧
  (udpIdleTimeout < now - uf_lastSeen f → ∀ u, uv_streams s !! uf_stream f = Some u →
    us_closed <$> uv_streams (udp_sweep now s) !! uf_stream f = Some true).
Proof.
  intros Hk. unfold udp_sweep. simpl. split.
  - rewrite map_lookup_filter_Some. unfold stale. simpl. rewrite Z.ltb_ge. naive_solver.
  - intros Hst u Hu. rewrite list_lookup_imap, Hu. simpl. rewrite bool_decide_true; [done|].
    exists k, f. split; [|done]. apply map_lookup_filter_Some. split; [done|]. unfold stale. simpl. by apply Z.ltb_lt.
Qed.

(** Answers do not count as activity: a client that only listens loses its flow
    although the agent keeps sending to it. *)
Lemma answers_do_not_refresh s i p ok : uv_flows (udpReadBack i p ok s) = uv_flows s.
Proof.
  unfold udpReadBack. destruct (uv_streams s !! i) as [u|]; [|done].
  by destruct (us_closed u || negb (us_reading u)), ok.
Qed.

(** When the port is released the streams of its flows stay open: the table and
    the sweeper are gone. *)
Lemma released_port_leaks es now s :
  s = udp_step (serveUDPTunnel es) UStop →
  uv_streams (udp_step s (USweep now)) = uv_streams (serveUDPTunnel es).
Proof. by intros ->. Qed.
