(* ===== verification/Ingress.v ===== *)
(** The public HTTP ingress (internal/server/ingress_http.go, ingress_h3.go)
    and the inter-edge hop (forward.go, forward_listener.go): how a request is
    routed by its host, authenticated, rewritten and handed to a tunnel, a
    control-plane upstream or another edge. *)
From S2P Require Import Prelude GoStrings Wire Authz Registry EdgeConfig Ports Hub Usage Edge.
From Stdlib Require Import Ascii.

Open Scope Z_scope.

(** * Requests *)

(** [http.Header], keyed by canonical names. *)
Abbreviation Header := (gmap string (list string)).
Definition Get (h : Header) (k : string) : string :=
  match h !! k with Some (v :: _) => v | _ => "" end.
Definition Set_ (h : Header) (k v : string) : Header := <[k := [v]]> h.
Definition Del (h : Header) (k : string) : Header := delete k h.

Record Request := {
  rq_Host : string;
  rq_URI : string;
  rq_Header : Header;
  rq_ContentLength : Z; (* -1 when unknown *)
  rq_Close : bool;
}.

Definition with_header (h : Header) (r : Request) : Request :=
  {| rq_Host := rq_Host r; rq_URI := rq_URI r; rq_Header := h;
     rq_ContentLength := rq_ContentLength r; rq_Close := rq_Close r |}.
Definition with_host (h : string) (r : Request) : Request :=
  {| rq_Host := h; rq_URI := rq_URI r; rq_Header := rq_Header r;
     rq_ContentLength := rq_ContentLength r; rq_Close := rq_Close r |}.

(** * Decisions *)
Definition reservedUpstream (c : Config) (host : string) : string :=
  let base := ToLower (BaseDomain c) in
  if String.eqb host base || String.eqb host ("www." +:+ base) then SiteUpstream c
  else if String.eqb host ("app." +:+ base) || String.eqb host ("qr." +:+ base) then AppUpstream c
  else if String.eqb host ("api." +:+ base) || String.eqb host ("approve." +:+ base) then APIUpstream c
  else "".

Definition isUpgrade (r : Request) : bool :=
  EqualFold (Get (rq_Header r) "Connection") "upgrade" ||
  Contains (ToLower (Get (rq_Header r) "Connection")) "upgrade".

(** [subtle.ConstantTimeCompare(x, y) == 1] is equality. *)
Definition checkBasicAuth (r : Request) (options : gmap string string) : bool :=
  let want := default "" (options !! "basic_auth") in
  if String.eqb want "" then true
  else
    let h := Get (rq_Header r) "Authorization" in
    if negb (HasPrefix h "Basic ") then false
    else match DecodeBase64 (drop_string 6 h) with
         | None => false
         | Some dec => String.eqb dec want
         end.

Definition maxBasicAuthFailures : Z := 10.
Definition basicAuthDelay (failures : Z) : Duration :=
  let d := failures * 250 * Millisecond in
  if d >? 2 * Second then 2 * Second else d.

Definition max64 (a b : Z) : Z := if a >? b then a else b.

Definition forwardingEnabled (c : Config) : bool :=
  negb (String.eqb (ForwardAddr c) "") && negb (String.eqb (InternalToken c) "").

Definition edgeTTL (c : Config) : Duration :=
  if HeartbeatInterval c <=? 0 then 0 else 2 * HeartbeatInterval c.

(** The peer address without its port. *)
Definition peer_ip (remote : string) : string :=
  match SplitHostPort remote with Some (ip, _) => ip | None => remote end.

(** A public connection: its peer, and whether it came over the inter-edge hop
    ([forwardedConn]: the peer is then the original client). *)
Record Conn := { cn_remote : string; cn_forwarded : bool }.

(** What happens to a request. *)
Inductive Action :=
| ARedirect (location : string)
| AProxy (upstream : string)
| AForward (edge : string)
| ABadGateway
| ANotFound (host : string)
| AUnauthorized (delay : Duration)
| ATunnel (t : tref) (init : StreamInit) (req : Request)
| AWeld (t : tref) (up down : Z). (* [rawJoin]: the rest of the connection, both ways *)

(** The outside's answers while one request is served. *)
Record Outside := {
  o_now : Time;
  o_rid : list Z;              (* randomness of the request id *)
  o_proxy_keep : bool;         (* the proxied exchange leaves the connection usable *)
  o_dial : string → bool;      (* dialing a peer's address and writing the hop header *)
  o_write : bool;              (* req.Write *)
  o_open : bool;               (* the data stream to the agent opens *)
  o_join : Z * Z;              (* bytes welded up and down *)
  o_resp : option (Z * bool);  (* the response's ContentLength and Close *)
  o_respond : bool;            (* resp.Write *)
}.

Definition newRequestID (buf : list Z) : string := "req_" +:+ randSubdomain buf.

Definition stream_init (bt : boundTunnel) (remote scheme host rid : string) : StreamInit :=
  {| si_client_tunnel_id := clientTunnelID bt; si_remote_addr := remote; si_proto := scheme;
     si_meta := {["host" := host; "request_id" := rid]} |}.

(** The rewriting of a request towards its tunnel over HTTP/1.1. *)
Definition rewrite_h1 (bt : boundTunnel) (remote scheme host rid : string) (r : Request) : Request :=
  let hh := default "" (options bt !! "host_header") in
  let r := if negb (String.eqb hh "") then with_host hh r else r in
  let h := rq_Header r in
  let h := Set_ h "X-Forwarded-Proto" scheme in
  let h := Set_ h "X-Forwarded-Host" host in
  let h := Set_ h "X-Request-Id" rid in
  let clientIP := peer_ip remote in
  let h := Set_ h "X-Forwarded-For" clientIP in
  let h := Set_ h "X-Real-Ip" clientIP in
  let h := Del h "Forwarded" in
  with_header h r.

(** The same over HTTP/2 and HTTP/3 ([routeHTTPS]). *)
Definition rewrite_h23 (bt : boundTunnel) (host rid : string) (r : Request) : Request :=
  let hh := default "" (options bt !! "host_header") in
  let r := if negb (String.eqb hh "") then with_host hh r else r in
  let h := rq_Header r in
  let h := Set_ h "X-Forwarded-Proto" "https" in
  let h := Set_ h "X-Forwarded-Host" host in
  let h := Set_ h "X-Request-Id" rid in
  with_header h r.

Section ingress.
  Context `{RangeOrder} {R : Type} `{Registry R} {E : Type} `{Entitlements E}.
  Implicit Types (s : Server R E).

(** * The inter-edge hop *)

(** [Dial] of the forwarder in use: [noForwarder] refuses. *)
Definition fwd_Dial (o : Outside) (edgeID : string) : M (Server R E) unit unit := λ s,
  if negb (forwardingEnabled (cfg s)) then (Err tt, s)
  else
    let '(r, rg) := reg_LookupEdge (o_now o) edgeID (reg s) in
    let s := with_reg rg s in
    match r with
    | Ok (Some addr) => if o_dial o addr then (Ok tt, s) else (Err tt, s)
    | _ => (Err tt, s)
    end.

Definition lookup_route (o : Outside) (host : string) : M (Server R E) unit (option Binding) := λ s,
  let '(r, rg) := reg_Lookup (o_now o) (host_route host) (reg s) in
  match r with
  | Ok b => (Ok b, with_reg rg s)
  | Err _ => (Err tt, with_reg rg s)
  end.

(** The edge reached, if any. *)
Definition dialForwardWithRetry (o : Outside) (edgeID host : string) : M (Server R E) unit string := λ s,
  match fwd_Dial o edgeID s with
  | (Ok _, s) => (Ok edgeID, s)
  | (Err _, s) =>
      match lookup_route o host s with
      | (Ok (Some b), s) =>
          if String.eqb (EdgeID b) (cfg_EdgeID (cfg s)) || String.eqb (EdgeID b) edgeID then (Err tt, s)
          else match fwd_Dial o (EdgeID b) s with
               | (Ok _, s) => (Ok (EdgeID b), s)
               | (Err _, s) => (Err tt, s)
               end
      | (_, s) => (Err tt, s)
      end
  end.

(** [forwardHTTP]: the action taken, or none when the caller is to answer 404. *)
Definition forwardHTTP (o : Outside) (host : string) s : option Action * Server R E :=
  match lookup_route o host s with
  | (Ok (Some b), s) =>
      if String.eqb (EdgeID b) (cfg_EdgeID (cfg s)) then (None, s)
      else match dialForwardWithRetry o (EdgeID b) host s with
           | (Err _, s) => (Some ABadGateway, s)
           | (Ok edge, s) => if o_write o then (Some (AForward edge), s) else (Some ABadGateway, s)
           end
  | (_, s) => (None, s)
  end.

(** * The connection loop
    [serveHTTPConn] over the requests the client sends: the actions taken. *)
Fixpoint serveHTTPConn (conn : Conn) (scheme : string) (authFailures : Z)
    (reqs : list (Request * Outside)) s : list Action * Server R E :=
  match reqs with
  | [] => ([], s)
  | (req, o) :: reqs =>
      let host := hostOnly (rq_Host req) in
      if String.eqb scheme "http" && negb (String.eqb (reservedUpstream (cfg s) host) "") then
        ([ARedirect ("https://" +:+ host +:+ rq_URI req)], s)
      else
      match LookupHost host (world s) with
      | None =>
          let up := reservedUpstream (cfg s) host in
          if negb (String.eqb up "") then
            if o_proxy_keep o then
              let '(acts, s) := serveHTTPConn conn scheme authFailures reqs s in (AProxy up :: acts, s)
            else ([AProxy up], s)
          else if forwardingEnabled (cfg s) && negb (cn_forwarded conn) then
            match forwardHTTP o host s with
            | (Some act, s) => ([act], s)
            | (None, s) => ([ANotFound host], s)
            end
          else ([ANotFound host], s)
      | Some t =>
        match tuns (world s) !! t with
        | None => ([], s) (* never a dangling pointer *)
        | Some bt =>
          if negb (checkBasicAuth req (options bt)) then
            let authFailures := authFailures + 1 in
            let act := AUnauthorized (basicAuthDelay authFailures) in
            if authFailures >=? maxBasicAuthFailures then ([act], s)
            else let '(acts, s) := serveHTTPConn conn scheme authFailures reqs s in (act :: acts, s)
          else
            let rid := newRequestID (o_rid o) in
            let req' := rewrite_h1 bt (cn_remote conn) scheme host rid req in
            if negb (o_open o) then ([ABadGateway], s)
            else
              let act := ATunnel t (stream_init bt (cn_remote conn) scheme host rid) req' in
              if negb (o_write o) then ([act], s)
              else if isUpgrade req' then
                let '(up, down) := o_join o in
                ([act; AWeld t up down], recordUsage (o_now o) t up down 1 s)
              else
                match o_resp o with
                | None => ([act; ABadGateway], s)
                | Some (len, close) =>
                    if negb (o_respond o) then ([act], s)
                    else
                      let s := recordUsage (o_now o) t (max64 (rq_ContentLength req') 0) (max64 len 0) 1 s in
                      if rq_Close req' || close then ([act], s)
                      else
                        let '(acts, s) := serveHTTPConn conn scheme authFailures reqs s in (act :: acts, s)
                end
        end
      end
  end.

(** * HTTP/2 and HTTP/3: one request *)
Definition routeHTTPS (remote : string) (req : Request) (o : Outside) s : list Action * Server R E :=
  let host := hostOnly (rq_Host req) in
  match LookupHost host (world s) with
  | None =>
      let up := reservedUpstream (cfg s) host in
      if negb (String.eqb up "") then ([AProxy up], s) else ([ANotFound host], s)
  | Some t =>
    match tuns (world s) !! t with
    | None => ([], s)
    | Some bt =>
      if negb (checkBasicAuth req (options bt)) then ([AUnauthorized 0], s)
      else
        let rid := newRequestID (o_rid o) in
        let req' := rewrite_h23 bt host rid req in
        if negb (o_open o) then ([ABadGateway], s)
        else
          let act := ATunnel t (stream_init bt remote "https" host rid) req' in
          if negb (o_write o) then ([act; ABadGateway], s)
          else match o_resp o with
               | None => ([act; ABadGateway], s)
               | Some _ =>
                   ([act], recordUsage (o_now o) t (max64 (rq_ContentLength req') 0) (snd (o_join o)) 1 s)
               end
    end
  end.

(** * The receiving end of the hop *)
Definition forwardTokenMeta : string := "fwd_token".

(** [serveForward]: [hdr] is the header read off the hop, if one was. *)
Definition serveForward (hdr : option StreamInit) (reqs : list (Request * Outside)) s
    : list Action * Server R E :=
  match hdr with
  | None => ([], s)
  | Some hdr =>
      let token := default "" (si_meta hdr !! forwardTokenMeta) in
      if String.eqb (InternalToken (cfg s)) "" || negb (String.eqb token (InternalToken (cfg s)))
      then ([], s)
      else if String.eqb (si_proto hdr) "http" || String.eqb (si_proto hdr) "https" then
        serveHTTPConn {| cn_remote := si_remote_addr hdr; cn_forwarded := true |} (si_proto hdr) 0 reqs s
      else ([], s)
  end.

(** * Presence: one tick of [runPresence] *)
Definition presence_tick (now : Time) (fwdAddr : string) s : Server R E :=
  let ttl := edgeTTL (cfg s) in
  let s := with_reg (snd (reg_RegisterEdge now (cfg_EdgeID (cfg s)) fwdAddr ttl (reg s))) s in
  foldl (λ s r, with_reg (snd (reg_Refresh now r ttl (reg s))) s) s (SnapshotRoutes (world s)).
End ingress.
