(* ===== verification/IngressSafety.v ===== *)
(** What the public ingress guarantees: a request reaches a tunnel only by its
    own host and with that tunnel's credentials, with the client's address
    attested by the edge; hops between edges are authenticated and single; and
    where the HTTP/2-3 path and the reserved hosts fall short of it. *)
From S2P Require Import Prelude GoStrings Wire Authz Registry EdgeConfig Ports Hub Usage Edge EdgeInv EdgeBind EdgeSafety EdgeExamples Ingress.

Open Scope Z_scope.

(** * Hosts are compared in lower case *)
Lemma hostOnly_lowered x : lowered (hostOnly x).
Proof.
  unfold hostOnly. destruct (Contains _ _); [|apply lowered_ToLower].
  destruct (SplitHostPort _) as [[h p]|] eqn:Hs; [|apply lowered_ToLower].
  eapply lowered_SplitHostPort; [apply lowered_ToLower|done].
Qed.

Lemma alphabet_lowered x : lower_ascii (alphabet_at x) = alphabet_at x.
Proof.
  unfold alphabet_at. pose proof (Z.mod_pos_bound x 36 ltac:(lia)) as Hb.
  assert (Hn : (Z.to_nat (x mod 36) < 36)%nat) by lia. revert Hn.
  generalize (Z.to_nat (x mod 36)). intros n Hn.
  do 36 (destruct n as [|n]; [vm_compute; reflexivity|]). lia.
Qed.

Lemma randSubdomain_lowered buf : lowered (randSubdomain buf).
Proof.
  assert (Hc : lowered (chars buf)).
  { induction buf as [|x buf IH]; [done|]. simpl. apply lowered_cons. split; [apply alphabet_lowered|done]. }
  unfold randSubdomain. destruct (chars buf) as [|a r]; [done|].
  apply lowered_cons in Hc as [Ha Hr]. destruct (_ && _)%nat; by apply lowered_cons.
Qed.

(** The hosts the edge hands out can be reached exactly when the base
    domain is configured in lower case.  Request hosts are lower-cased before
    the lookup, allocated hosts are not: with an upper-case letter in the base
    domain, no request whatsoever finds a tunnel on a subdomain of it. *)
Theorem allocated_host_reachable cf w draw b dec h :
  b_custom_domain b = "" → allocateHost cf w draw b dec = Ok h →
  (lowered (BaseDomain cf) → ToLower h = h) ∧
  (¬ lowered (BaseDomain cf) → ∀ req, hostOnly req ≠ h).
Proof.
  intros Hc Ha.
  assert (Hh : ∃ sub, lowered sub ∧ h = sub +:+ "." +:+ BaseDomain cf).
  { unfold allocateHost in Ha. rewrite Hc in Ha. cbn [negb String.eqb] in Ha.
    destruct (negb (String.eqb _ "")); [destruct (negb _); [done|]|].
    - destruct (LookupHost _ w); [done|]. simplify_eq. eexists. split; [apply lowered_ToLower|done].
    - destruct (find_first _ _) as [h'|] eqn:Hf; [|done]. simplify_eq.
      apply find_first_Some in Hf as [Hin _]. apply list_elem_of_fmap in Hin as (i & -> & _).
      eexists. split; [apply randSubdomain_lowered|done]. }
  destruct Hh as (sub & Hs & ->). split.
  - intros Hb. apply (proj2 (lowered_app _ _)). split; [done|].
    apply (proj2 (lowered_app _ _)). done.
  - intros Hb req Heq. pose proof (hostOnly_lowered req) as Hl. rewrite Heq in Hl.
    apply lowered_app in Hl as [_ [_ Hl]%lowered_app]. done.
Qed.

Lemma allocated_host_reachable_witness :
  hostOnly "demo.Example.com:443" ≠ "demo.Example.com".
Proof.
  set (cf := overlay "edge" {["TRQSH_BASE_DOMAIN" := "Example.com"]}).
  set (b := {| b_client_tunnel_id := "t"; b_type := HTTP; b_subdomain := "Demo"; b_custom_domain := "";
               b_remote_port := 0; b_options := ∅ |}).
  set (dec := {| Allow := true; d_AccountID := ""; d_Plan := "";
     d_Limits := {| MaxConcurrentTunnels := 1; MaxBandwidthBytesMo := 0; MaxRequestsMo := 0;
                    AllowCustomDomains := false; AllowReservedSubdomain := true; AllowTCP := false;
                    AllowUDP := false; RateLimitRPS := 0 |};
     AssignedSubdomain := ""; ErrorCode := ""; ErrorMessage := "" |}).
  apply (allocated_host_reachable cf {| hub := NewHub; tuns := ∅; asess := ∅ |} (λ _, []) b dec "demo.Example.com").
  - reflexivity.
  - vm_compute. reflexivity.
  - vm_compute. congruence.
Defined.

Section ingress.
  Context `{RangeOrder} {R : Type} `{Registry R} {E : Type} `{Entitlements E}.
  Implicit Types (s : Server R E).

(** * The routing state is fixed while requests are served *)
(** Everything of a tunnel but its traffic counters. *)
Definition identity (bt : boundTunnel) : string * sref * string * gmap string string :=
  (clientTunnelID bt, session bt, host bt, options bt).
Definition same_routing s s' : Prop :=
  cfg s' = cfg s ∧ hub (world s') = hub (world s) ∧
  ∀ t, identity <$> tuns (world s') !! t = identity <$> tuns (world s) !! t.

Lemma same_routing_refl s : same_routing s s.
Proof. done. Qed.
Lemma same_routing_trans s1 s2 s3 : same_routing s1 s2 → same_routing s2 s3 → same_routing s1 s3.
Proof. intros (A1 & A2 & A3) (B1 & B2 & B3). split_and!; [congruence..|]. intros t. by rewrite B3. Qed.

Lemma recordUsage_routing now t i o r s : same_routing s (recordUsage now t i o r s).
Proof.
  unfold recordUsage. destruct (tuns (world s) !! t) as [bt|] eqn:Ht; [|done].
  split_and!; [done|done|]. intros u. simpl. destruct (decide (u = t)) as [->|Hne].
  - by rewrite lookup_alter_eq, Ht.
  - by rewrite lookup_alter_ne.
Qed.

(** The request carries the credentials tunnel [bt] demands, if it demands any: the
    password of its options, base64-encoded, in an Authorization header. *)
Definition admitted (req : Request) (bt : boundTunnel) : Prop :=
  let want := default "" (options bt !! "basic_auth") in
  want = "" ∨ ∃ enc, Get (rq_Header req) "Authorization" = "Basic " +:+ enc ∧ DecodeBase64 enc = Some want.

(** The request [req'] written to the tunnel is the client's [req] but for its host, if
    the tunnel asks for another one, and the headers [set]. *)
Definition passed_on (bt : boundTunnel) (set : list string) (req req' : Request) : Prop :=
  let hh := default "" (options bt !! "host_header") in
  rq_URI req' = rq_URI req ∧ rq_ContentLength req' = rq_ContentLength req ∧ rq_Close req' = rq_Close req ∧
  (hh = "" → rq_Host req' = rq_Host req) ∧ (hh ≠ "" → rq_Host req' = hh) ∧
  ∀ k, k ∉ set → rq_Header req' !! k = rq_Header req !! k.

(** Tunnel [t] is the one bound to the host [req] names; the stream to its agent names
    that tunnel, the client's address and the host; and the request carries its credentials. *)
Definition routed s (remote scheme : string) (req : Request) (bt : boundTunnel) (t : tref)
    (init : StreamInit) (req' : Request) : Prop :=
  let host := hostOnly (rq_Host req) in
  LookupHost host (world s) = Some t ∧ identity <$> tuns (world s) !! t = Some (identity bt) ∧
  admitted req bt ∧
  si_client_tunnel_id init = clientTunnelID bt ∧ si_remote_addr init = remote ∧
  si_proto init = scheme ∧ si_meta init !! "host" = Some host ∧
  Get (rq_Header req') "X-Forwarded-Host" = host ∧ Get (rq_Header req') "X-Forwarded-Proto" = scheme.

Definition edge_headers : list string := ["X-Forwarded-Proto"; "X-Forwarded-Host"; "X-Request-Id"].
Definition address_headers : list string := ["X-Forwarded-For"; "X-Real-Ip"; "Forwarded"].

(** What a delivery over HTTP/1.1 was allowed by, and what it carries. *)
Definition delivered s (conn : Conn) (scheme : string) (reqs : list (Request * Outside))
    (t : tref) (init : StreamInit) (req' : Request) : Prop :=
  ∃ req o bt, (req, o) ∈ reqs ∧ routed s (cn_remote conn) scheme req bt t init req' ∧
    passed_on bt (edge_headers ++ address_headers) req req' ∧
    rq_Header req' !! "X-Forwarded-For" = Some [peer_ip (cn_remote conn)] ∧
    rq_Header req' !! "X-Real-Ip" = Some [peer_ip (cn_remote conn)] ∧
    rq_Header req' !! "Forwarded" = None.

Lemma checkBasicAuth_admitted req bt : checkBasicAuth req (options bt) = true → admitted req bt.
Proof.
  unfold checkBasicAuth, admitted. cbn zeta. destruct (String.eqb_spec (default "" (options bt !! "basic_auth")) "") as [He|Hne]; [by left|].
  destruct (HasPrefix (Get (rq_Header req) "Authorization") "Basic ") eqn:Hp; [|done]. cbn [negb].
  apply HasPrefix_spec in Hp as [enc Henc]. intros Hd. right. exists enc. split; [done|]. rewrite Henc in Hd.
  change 6%nat with (String.length "Basic ") in Hd. rewrite drop_string_app in Hd.
  destruct (DecodeBase64 enc); [|done]. by apply String.eqb_eq in Hd as ->.
Qed.

Ltac headers :=
  unfold Get, Set_, Del; rewrite ?lookup_delete_eq, ?lookup_delete_ne by done;
  repeat (rewrite lookup_insert_eq || rewrite lookup_insert_ne by done); try done.

Lemma rewrite_h1_routed s bt t remote scheme rid r :
  LookupHost (hostOnly (rq_Host r)) (world s) = Some t → tuns (world s) !! t = Some bt →
  checkBasicAuth r (options bt) = true →
  let host := hostOnly (rq_Host r) in
  let r' := rewrite_h1 bt remote scheme host rid r in
  routed s remote scheme r bt t (stream_init bt remote scheme host rid) r' ∧
  passed_on bt (edge_headers ++ address_headers) r r' ∧
  rq_Header r' !! "X-Forwarded-For" = Some [peer_ip remote] ∧
  rq_Header r' !! "X-Real-Ip" = Some [peer_ip remote] ∧ rq_Header r' !! "Forwarded" = None.
Proof.
  intros Hl Ht Ha. apply checkBasicAuth_admitted in Ha. cbn zeta. unfold routed, passed_on, rewrite_h1. cbn zeta.
  rewrite Ht. destruct (String.eqb_spec (default "" (options bt !! "host_header")) ""); simpl; split_and!; try done.
  all: try (by headers).
  all: intros k Hk; unfold edge_headers, address_headers in Hk; simpl in Hk;
    rewrite !not_elem_of_cons in Hk; destruct_and!;
    unfold Set_, Del; rewrite lookup_delete_ne, !lookup_insert_ne by congruence; done.
Qed.

Lemma rewrite_h23_routed s bt t remote rid r :
  LookupHost (hostOnly (rq_Host r)) (world s) = Some t → tuns (world s) !! t = Some bt →
  checkBasicAuth r (options bt) = true →
  let host := hostOnly (rq_Host r) in
  let r' := rewrite_h23 bt host rid r in
  routed s remote "https" r bt t (stream_init bt remote "https" host rid) r' ∧
  passed_on bt edge_headers r r'.
Proof.
  intros Hl Ht Ha. apply checkBasicAuth_admitted in Ha. cbn zeta. unfold routed, passed_on, rewrite_h23. cbn zeta.
  rewrite Ht. destruct (String.eqb_spec (default "" (options bt !! "host_header")) ""); simpl; split_and!; try done.
  all: try (by headers).
  all: intros k Hk; unfold edge_headers, address_headers in Hk; simpl in Hk;
    rewrite !not_elem_of_cons in Hk; destruct_and!;
    unfold Set_; rewrite !lookup_insert_ne by congruence; done.
Qed.

Lemma delivered_weaken s s' conn scheme reqs x t init req' :
  same_routing s s' → delivered s' conn scheme reqs t init req' →
  delivered s conn scheme (x :: reqs) t init req'.
Proof.
  intros (_ & Hh & Ho) (req & o & bt & Hin & (Hl & Hop & Hr) & Hrest). exists req, o, bt.
  split; [by right|]. split; [|done]. unfold routed. unfold LookupHost in *. rewrite Hh in Hl. rewrite Ho in Hop. done.
Qed.

(** An upgraded connection: the welded bytes follow the delivery of an upgrade request to
    the same tunnel, and nothing follows them. *)
Definition welded (acts : list Action) (t : tref) (up down : Z) : Prop :=
  ∃ pre init req', acts = pre ++ [ATunnel t init req'; AWeld t up down] ∧ isUpgrade req' = true.

Lemma with_reg_routing r s : same_routing s (with_reg r s).
Proof. done. Qed.

Lemma lookup_route_routing o h s r s' : lookup_route o h s = (r, s') → same_routing s s'.
Proof. unfold lookup_route. destruct (reg_Lookup _ _ _) as [[?|?] ?]; by intros [= <- <-]. Qed.

Lemma fwd_Dial_routing o e s r s' : fwd_Dial o e s = (r, s') → same_routing s s'.
Proof.
  unfold fwd_Dial. destruct (negb _); [by intros [= <- <-]|].
  destruct (reg_LookupEdge _ _ _) as [[[addr|]|?] ?]; [destruct (o_dial o addr)|..];
    by intros [= <- <-].
Qed.

(** A hand-off goes to another edge, or fails with 502. *)
Lemma dial_retry_inv o e h s r s' :
  e ≠ cfg_EdgeID (cfg s) → dialForwardWithRetry o e h s = (r, s') →
  same_routing s s' ∧ (∀ e', r = Ok e' → e' ≠ cfg_EdgeID (cfg s)).
Proof.
  intros Hne. unfold dialForwardWithRetry.
  destruct (fwd_Dial o e s) as [r1 s1] eqn:H1'. pose proof (fwd_Dial_routing _ _ _ _ _ H1') as R1.
  destruct r1 as [|]; [intros [= <- <-]; split; [done|congruence]|].
  destruct (lookup_route o h s1) as [r2 s2] eqn:H2'.
  pose proof (lookup_route_routing _ _ _ _ _ H2') as R2.
  assert (R12 : same_routing s s2) by by eapply same_routing_trans.
  destruct r2 as [[b|]|]; try (intros [= <- <-]; split; [done|congruence]).
  destruct (_ || _) eqn:Hor; [intros [= <- <-]; split; [done|congruence]|].
  apply orb_false_iff in Hor as [Hb _]. bool_simpl. rewrite (proj1 R12) in Hb.
  destruct (fwd_Dial o (EdgeID b) s2) as [r3 s3] eqn:H3'.
  pose proof (fwd_Dial_routing _ _ _ _ _ H3') as R3.
  assert (R13 : same_routing s s3) by by eapply same_routing_trans.
  destruct r3; intros [= <- <-]; (split; [done|congruence]).
Qed.

Lemma forwardHTTP_inv o h s r s' :
  forwardHTTP o h s = (r, s') →
  same_routing s s' ∧
  (r = None ∨ r = Some ABadGateway ∨ ∃ e, r = Some (AForward e) ∧ e ≠ cfg_EdgeID (cfg s)).
Proof.
  unfold forwardHTTP. destruct (lookup_route o h s) as [r1 s1] eqn:H1'.
  pose proof (lookup_route_routing _ _ _ _ _ H1') as R1.
  destruct r1 as [[b|]|]; try (intros [= <- <-]; by auto).
  destruct (String.eqb _ _) eqn:Hself; [intros [= <- <-]; by auto|]. bool_simpl.
  destruct (dialForwardWithRetry o (EdgeID b) h s1) as [r2 s2] eqn:H2'.
  destruct (dial_retry_inv _ _ _ _ _ _ Hself H2') as [R2 He].
  assert (R12 : same_routing s s2) by by eapply same_routing_trans.
  rewrite (proj1 R1) in He.
  destruct r2 as [e|]; [destruct (o_write o)|]; intros [= <- <-]; split; eauto 10.
Qed.

Definition unauthorized (acts : list Action) : Z :=
  Z.of_nat (length (List.filter (λ a, match a with AUnauthorized _ => true | _ => false end) acts)).

Lemma basicAuthDelay_range n : 0 < n → 0 < basicAuthDelay n <= 2 * Second.
Proof.
  intros Hn. unfold basicAuthDelay. rewrite Z.gtb_ltb.
  destruct (Z.ltb_spec (2 * Second) (n * 250 * Millisecond)); unfold Second, Millisecond in *; lia.
Qed.

(** Everything the loop guarantees, in one induction over the requests. *)
Record served (conn : Conn) (scheme : string) (n : Z) (reqs : list (Request * Outside))
    s (acts : list Action) s' : Prop := {
  sv_routing : same_routing s s';
  sv_tunnel : ∀ t init req', ATunnel t init req' ∈ acts → delivered s conn scheme reqs t init req';
  sv_weld : ∀ t up down, AWeld t up down ∈ acts → welded acts t up down;
  sv_hop : cn_forwarded conn = true → ∀ e, AForward e ∉ acts;
  sv_peer : ∀ e, AForward e ∈ acts → e ≠ cfg_EdgeID (cfg s);
  sv_auth : n < maxBasicAuthFailures → n + unauthorized acts <= maxBasicAuthFailures;
  sv_delay : 0 <= n → ∀ d, AUnauthorized d ∈ acts → 0 < d <= 2 * Second;
}.

(** An action that is neither a delivery, a weld, a hand-off nor a refusal. *)
Definition plain (a : Action) : bool :=
  match a with ATunnel _ _ _ | AWeld _ _ _ | AForward _ | AUnauthorized _ => false | _ => true end.

Lemma plain_in acts a : forallb plain acts = true → a ∈ acts → plain a = true.
Proof. intros Hp Ha. rewrite forallb_forall in Hp. apply Hp. by apply list_elem_of_In. Qed.

Lemma plain_unauthorized acts : forallb plain acts = true → unauthorized acts = 0.
Proof.
  unfold unauthorized. induction acts as [|a acts IH]; [done|].
  simpl. intros [Ha Hp]%andb_true_iff. destruct a; simpl in *; try done; by apply IH.
Qed.

Lemma served_plain conn scheme n reqs s acts s' :
  same_routing s s' → forallb plain acts = true → served conn scheme n reqs s acts s'.
Proof.
  intros Hr Hp. pose proof (λ a, plain_in acts a Hp) as Hin. pose proof (plain_unauthorized _ Hp) as Hu.
  split; try done.
  - intros t i r Hx. by apply Hin in Hx.
  - intros t i r Hx. by apply Hin in Hx.
  - intros _ e Hx. by apply Hin in Hx.
  - intros e Hx. by apply Hin in Hx.
  - lia.
  - intros _ d Hx. by apply Hin in Hx.
Qed.

(** One action, then the rest of the connection. *)
Lemma served_cons conn scheme n n' x reqs s s1 act acts s' :
  same_routing s s1 → served conn scheme n' reqs s1 acts s' →
  (∀ t i r, act = ATunnel t i r → delivered s conn scheme (x :: reqs) t i r) →
  (∀ e, act ≠ AForward e) → (∀ t u d, act ≠ AWeld t u d) →
  (match act with AUnauthorized d => n' = n + 1 ∧ (0 <= n → 0 < d <= 2 * Second) ∧ n + 1 < maxBasicAuthFailures
   | _ => n' = n end) →
  served conn scheme n (x :: reqs) s (act :: acts) s'.
Proof.
  intros Hr [S1 S2 SW S3 S4 S5 S6] Ht Hf Hw Hn. split.
  - by eapply same_routing_trans.
  - intros t i r [Heq|Hin]%elem_of_cons; [by apply Ht|]. eapply delivered_weaken; [done|by apply S2].
  - intros t u d [Heq|Hin]%elem_of_cons; [by destruct (Hw t u d)|].
    destruct (SW _ _ _ Hin) as (pre & i & r & -> & Hu). by exists (act :: pre), i, r.
  - intros Hc e [Heq|Hin]%elem_of_cons; [by apply (Hf e)|]. by apply (S3 Hc e).
  - intros e [Heq|Hin]%elem_of_cons; [by destruct (Hf e)|]. rewrite <- (proj1 Hr). by apply S4.
  - intros Hlt. unfold unauthorized in *. destruct act; simpl in *; subst; try (by apply S5).
    destruct Hn as (-> & _ & Hlt'). specialize (S5 Hlt'). lia.
  - intros Hn0 d [Heq|Hin]%elem_of_cons.
    + subst act. destruct Hn as (_ & Hd & _). by apply Hd.
    + apply S6; [|done]. destruct act; lia.
Qed.

Lemma served_last conn scheme n x reqs s act acts s' :
  same_routing s s' → (∀ t i r, act = ATunnel t i r → delivered s conn scheme (x :: reqs) t i r) →
  (∀ e, act ≠ AForward e) → (∀ t u d, act ≠ AWeld t u d) →
  (match act with AUnauthorized d => 0 <= n → 0 < d <= 2 * Second | _ => True end) →
  forallb plain acts = true →
  served conn scheme n (x :: reqs) s (act :: acts) s'.
Proof.
  intros Hr Ht Hf Hw Hn Hp. destruct (served_plain conn scheme n reqs s acts s' Hr Hp) as [S1 S2 SW S3 S4 S5 S6].
  pose proof (λ a, plain_in acts a Hp) as Hin0. pose proof (plain_unauthorized _ Hp) as Hu.
  split; try done.
  - intros t i r [Heq|Hin]%elem_of_cons; [by apply Ht|by apply Hin0 in Hin].
  - intros t u d [Heq|Hin]%elem_of_cons; [by destruct (Hw t u d)|by apply Hin0 in Hin].
  - intros Hc e [Heq|Hin]%elem_of_cons; [by apply (Hf e)|by apply Hin0 in Hin].
  - intros e [Heq|Hin]%elem_of_cons; [by destruct (Hf e)|by apply Hin0 in Hin].
  - intros Hlt. unfold unauthorized in *. destruct act; simpl in *; lia.
  - intros Hn0 d [Heq|Hin]%elem_of_cons; [subst act; by apply Hn|by apply Hin0 in Hin].
Qed.

(** An upgrade request, then its weld. *)
Lemma served_upgrade conn scheme n x reqs s s' t i r up down :
  same_routing s s' → delivered s conn scheme (x :: reqs) t i r → isUpgrade r = true →
  served conn scheme n (x :: reqs) s [ATunnel t i r; AWeld t up down] s'.
Proof.
  intros Hr Hd Hu. split; try done.
  - intros t' i' r' Hin. rewrite elem_of_cons, list_elem_of_singleton in Hin. by destruct Hin; simplify_eq.
  - intros t' u d Hin. rewrite elem_of_cons, list_elem_of_singleton in Hin. destruct Hin; simplify_eq.
    by exists [], i, r.
  - intros _ e Hin. rewrite elem_of_cons, list_elem_of_singleton in Hin. by destruct Hin.
  - intros e Hin. rewrite elem_of_cons, list_elem_of_singleton in Hin. by destruct Hin.
  - unfold unauthorized. simpl. lia.
  - intros _ d Hin. rewrite elem_of_cons, list_elem_of_singleton in Hin. by destruct Hin.
Qed.

Lemma serve_inv conn scheme n reqs s acts s' :
  serveHTTPConn conn scheme n reqs s = (acts, s') → served conn scheme n reqs s acts s'.
Proof.
  revert n s acts s'. induction reqs as [|[req o] reqs IH]; intros n s acts s'; simpl.
  { intros [= <- <-]. by apply served_plain. }
  set (host := hostOnly (rq_Host req)).
  destruct (String.eqb scheme "http" && _); [intros [= <- <-]; by apply served_plain|].
  destruct (LookupHost host (world s)) as [t|] eqn:Hlk.
  2:{ destruct (negb (String.eqb (reservedUpstream (cfg s) host) "")).
      - destruct (o_proxy_keep o); [|intros [= <- <-]; by apply served_plain].
        destruct (serveHTTPConn conn scheme n reqs s) as [acts1 s1] eqn:Hrec. intros [= <- <-].
        by eapply served_cons; [apply same_routing_refl|by apply IH|..].
      - destruct (forwardingEnabled (cfg s) && negb (cn_forwarded conn)) eqn:Hen;
          [|intros [= <- <-]; by apply served_plain].
        destruct (forwardHTTP o host s) as [r s1] eqn:Hfw.
        destruct (forwardHTTP_inv _ _ _ _ _ Hfw) as [Hr [->|[->|(e & -> & Hne)]]]; intros [= <- <-];
          try by apply served_plain.
        bool_simpl. split; try done.
        + intros ? ? ? Hin. by rewrite list_elem_of_singleton in Hin.
        + intros ? ? ? Hin. by rewrite list_elem_of_singleton in Hin.
        + congruence.
        + intros e' Hin. rewrite list_elem_of_singleton in Hin. by simplify_eq.
        + unfold unauthorized. simpl. lia.
        + intros _ d Hin. by rewrite list_elem_of_singleton in Hin. }
  destruct (tuns (world s) !! t) as [bt|] eqn:Hbt; [|intros [= <- <-]; by apply served_plain].
  destruct (checkBasicAuth req (options bt)) eqn:Hauth; cbn [negb].
  2:{ assert (Hd : 0 <= n → 0 < basicAuthDelay (n + 1) <= 2 * Second).
      { intros Hn. apply basicAuthDelay_range. lia. }
      rewrite Z.geb_leb. destruct (Z.leb_spec maxBasicAuthFailures (n + 1)) as [Hmax|Hmax].
      - intros [= <- <-]. by apply served_last.
      - destruct (serveHTTPConn conn scheme (n + 1) reqs s) as [acts1 s1] eqn:Hrec. intros [= <- <-].
        by eapply (served_cons _ _ n (n + 1)); [apply same_routing_refl|by apply IH|..]. }
  destruct (o_open o); cbn [negb]; [|intros [= <- <-]; by apply served_plain].
  set (init := stream_init _ _ _ _ _). set (req' := rewrite_h1 _ _ _ _ _ _).
  assert (Hdel : ∀ u i r, ATunnel t init req' = ATunnel u i r →
            delivered s conn scheme ((req, o) :: reqs) u i r).
  { intros u i r [= <- <- <-]. exists req, o, bt. split; [left|]. by apply rewrite_h1_routed. }
  destruct (o_write o); cbn [negb]; [|intros [= <- <-]; by apply served_last].
  destruct (isUpgrade req') eqn:Hup.
  { destruct (o_join o) as [up down]. intros [= <- <-].
    apply served_upgrade; [apply recordUsage_routing|by apply Hdel|done]. }
  destruct (o_resp o) as [[len close]|]; [|intros [= <- <-]; by apply served_last].
  destruct (o_respond o); cbn [negb]; [|intros [= <- <-]; by apply served_last].
  set (s1 := recordUsage _ _ _ _ _ _).
  assert (Hr1 : same_routing s s1) by apply recordUsage_routing. clearbody s1.
  destruct (_ || close); [intros [= <- <-]; by apply served_last|].
  destruct (serveHTTPConn conn scheme n reqs s1) as [acts1 s2] eqn:Hrec. intros [= <- <-].
  by eapply (served_cons _ _ n n); [exact Hr1|by apply IH|..].
Qed.

(** One request over HTTP/2 or HTTP/3. *)
Lemma routeHTTPS_inv remote req o s acts s' t init req' :
  routeHTTPS remote req o s = (acts, s') → ATunnel t init req' ∈ acts →
  ∃ bt, routed s remote "https" req bt t init req' ∧ passed_on bt edge_headers req req'.
Proof.
  intros Hrun Hin. unfold routeHTTPS in Hrun.
  destruct (LookupHost _ (world s)) as [u|] eqn:Hl.
  2:{ destruct (negb _); simplify_eq; by rewrite list_elem_of_singleton in Hin. }
  destruct (tuns (world s) !! u) as [bt|] eqn:Ht; [|simplify_eq; by apply not_elem_of_nil in Hin].
  destruct (checkBasicAuth req (options bt)) eqn:Ha; cbn [negb] in Hrun;
    [|simplify_eq; by rewrite list_elem_of_singleton in Hin].
  pose proof (rewrite_h23_routed s bt u remote (newRequestID (o_rid o)) req Hl Ht Ha) as Hr.
  set (i := stream_init _ _ _ _ _) in *. set (r := rewrite_h23 _ _ _ _) in *.
  assert (Heq : ATunnel t init req' = ATunnel u i r).
  { repeat (case_match; simplify_eq/=); set_unfold; naive_solver. }
  injection Heq as -> -> ->. by exists bt.
Qed.

(** C7: whatever a client sends over one HTTP/1.1 connection, every request that reaches
    a tunnel reached the tunnel that is bound to the host it names, named as such to that
    tunnel's agent, and carried the basic-auth password of that tunnel if it has one; it
    arrives as the client sent it but for the host the tunnel's options substitute and
    the headers the edge sets: X-Forwarded-Proto, X-Forwarded-Host and X-Request-Id, the
    address the edge saw in X-Forwarded-For and X-Real-Ip, and no Forwarded header,
    whatever the client put there.  Raw bytes are welded only to the tunnel an upgrade
    request was just delivered to, and end the connection.  Serving changes no route.
    Over HTTP/2 and HTTP/3 a request is routed, authenticated and passed on in the same
    way, except that the three address headers stay as the client sent them. *)
Theorem requests_reach_their_tunnel conn scheme n reqs s acts s' :
  serveHTTPConn conn scheme n reqs s = (acts, s') →
  hub (world s') = hub (world s) ∧
  (∀ t init req', ATunnel t init req' ∈ acts → delivered s conn scheme reqs t init req') ∧
  (∀ t up down, AWeld t up down ∈ acts → welded acts t up down) ∧
  (∀ remote req o acts2 s2 t init req',
     routeHTTPS remote req o s = (acts2, s2) → ATunnel t init req' ∈ acts2 →
     ∃ bt, routed s remote "https" req bt t init req' ∧ passed_on bt edge_headers req req').
Proof.
  intros Hrun. apply serve_inv in Hrun as [(_ & Hh & _) Ht Hw _ _ _ _]. split_and!; [done..|].
  intros. by eapply routeHTTPS_inv.
Qed.

(** Guessing a tunnel's password is throttled: one connection gets at most
    ten 401 answers, and each comes after a delay of at most two seconds. *)
Theorem basic_auth_is_throttled conn scheme reqs s acts s' :
  serveHTTPConn conn scheme 0 reqs s = (acts, s') →
  unauthorized acts <= maxBasicAuthFailures ∧
  (∀ d, AUnauthorized d ∈ acts → 0 < d <= 2 * Second).
Proof.
  intros Hrun. apply serve_inv in Hrun as [_ _ _ _ _ Ha Hd]. split; [|by apply Hd].
  specialize (Ha ltac:(done)). lia.
Qed.

(** C36: the inter-edge hop is authenticated and single.  An edge acts on a hop,
    or changes anything because of it, only when it presents the configured,
    non-empty internal token, and it
    never hands a connection that came over a hop to another edge; a public
    connection is only ever handed to an edge other than itself. *)
Theorem forwarded_hop_safe hdr reqs s acts s' :
  serveForward hdr reqs s = (acts, s') →
  (acts ≠ [] ∨ s' ≠ s → ∃ h, hdr = Some h ∧ InternalToken (cfg s) ≠ "" ∧
                    si_meta h !! forwardTokenMeta = Some (InternalToken (cfg s))) ∧
  (∀ e, AForward e ∉ acts) ∧
  (∀ conn scheme n acts2 s2, serveHTTPConn conn scheme n reqs s = (acts2, s2) →
     ∀ e, AForward e ∈ acts2 → e ≠ cfg_EdgeID (cfg s)).
Proof.
  intros Hrun. split_and!.
  - unfold serveForward in Hrun. destruct hdr as [h|]; [|simplify_eq; by intros [?|?]].
    destruct (_ || _) eqn:Hor; [simplify_eq; by intros [?|?]|]. bool_simpl. intros _. exists h. split; [done|].
    split; [done|]. destruct (si_meta h !! forwardTokenMeta) as [tok|]; simpl in *; congruence.
  - unfold serveForward in Hrun. destruct hdr as [h|]; [|by simplify_eq; intros e ?%not_elem_of_nil].
    destruct (_ || _); [by simplify_eq; intros e ?%not_elem_of_nil|].
    destruct (_ || _); [|by simplify_eq; intros e ?%not_elem_of_nil].
    apply serve_inv in Hrun as [_ _ _ Hh _ _ _]. by apply Hh.
  - intros conn scheme n acts2 s2 Hrun2. by apply serve_inv in Hrun2 as [_ _ _ _ Hp _ _].
Qed.

(** Over HTTP/2 and HTTP/3 the client's own X-Forwarded-For, X-Real-Ip and
    Forwarded headers reach the tunneled application unchanged, unlike over
    HTTP/1.1 where the edge overwrites them: a client chooses the source
    address the application sees. *)
Theorem h23_forwards_client_headers remote req o s acts s' t init req' k :
  routeHTTPS remote req o s = (acts, s') → ATunnel t init req' ∈ acts →
  k ∈ ["X-Forwarded-For"; "X-Real-Ip"; "Forwarded"] →
  rq_Header req' !! k = rq_Header req !! k.
Proof.
  intros Hrun Hin Hk. destruct (routeHTTPS_inv _ _ _ _ _ _ _ _ _ Hrun Hin) as (bt & _ & _ & _ & _ & _ & _ & Hh).
  apply Hh. unfold edge_headers. set_unfold. destruct Hk as [->|[->|[->|[]]]]; naive_solver.
Qed.
End ingress.

(** * Concrete requests *)
#[local] Existing Instance sorted_range.

Definition ex_outside : Outside :=
  {| o_now := 5000; o_rid := [1; 2; 3]; o_proxy_keep := false; o_dial := λ _, true; o_write := true;
     o_open := true; o_join := (10, 20); o_resp := Some (100, true); o_respond := true |}.
Definition ex_keep : Outside :=
  {| o_now := 5000; o_rid := [1; 2; 3]; o_proxy_keep := false; o_dial := λ _, true; o_write := true;
     o_open := true; o_join := (0, 0); o_resp := Some (100, false); o_respond := true |}.
Definition ex_request (host : string) : Request :=
  {| rq_Host := host; rq_URI := "/"; rq_ContentLength := -1; rq_Close := false;
     rq_Header := {["X-Forwarded-For" := ["6.6.6.6"]; "Forwarded" := ["for=6.6.6.6"]]} |}.
Definition ex_conn : Conn := {| cn_remote := "9.9.9.9:1234"; cn_forwarded := false |}.
Definition ex_reqs (host : string) : list (Request * Outside) := [(ex_request host, ex_outside)].
(** The tunnel of x.io in [dev4]. *)
Definition ex_bt : boundTunnel :=
  match tuns (world dev4) !! 1%nat with Some bt => bt | None => ex_tunnel 0%nat "" end.

(** An upgrade request with a password. *)
Definition ex_upgrade (host auth : string) : Request :=
  {| rq_Host := host; rq_URI := "/ws"; rq_ContentLength := -1; rq_Close := false;
     rq_Header := {["X-Forwarded-For" := ["6.6.6.6"]; "Forwarded" := ["for=6.6.6.6"];
                    "Connection" := ["Upgrade"]; "Authorization" := [auth]]} |}.

(** [dev4] with a password on x.io. *)
Definition dev5 : DevServer :=
  do_bind 2%nat {| b_client_tunnel_id := "p"; b_type := HTTP; b_subdomain := ""; b_custom_domain := "p.io";
                   b_remote_port := 0; b_options := {["basic_auth" := "u:p"]} |} dev4.

(** The password of p.io, then bytes welded to its tunnel; over HTTP/2 the same password. *)
Lemma requests_reach_their_tunnel_witness :
  let reqs := [(ex_request "X.io", ex_keep);
               (ex_upgrade "P.io:443" "Basic dTpw", ex_outside)] in
  let acts := fst (serveHTTPConn ex_conn "https" 0 reqs dev5) in
  length acts = 3%nat ∧ welded acts 2%nat 10 20 ∧
  (∃ init req', acts !! 1%nat = Some (ATunnel 2%nat init req') ∧ si_client_tunnel_id init = "p" ∧
     rq_Header req' !! "X-Forwarded-For" = Some ["9.9.9.9"] ∧ delivered dev5 ex_conn "https" reqs 2%nat init req').
Proof.
  intros reqs acts.
  destruct (requests_reach_their_tunnel ex_conn "https" 0 reqs dev5 acts
    (snd (serveHTTPConn ex_conn "https" 0 reqs dev5))) as (_ & Hd & Hw & _); [apply surjective_pairing|].
  split; [vm_compute; reflexivity|]. split.
  - apply Hw. apply list_elem_of_lookup_2 with 2%nat. vm_compute. reflexivity.
  - eexists _, _. split; [vm_compute; reflexivity|]. split; [reflexivity|]. split; [vm_compute; reflexivity|].
    apply Hd. apply list_elem_of_lookup_2 with 1%nat. vm_compute. reflexivity.
Defined.

Lemma basic_auth_is_throttled_witness :
  unauthorized (fst (serveHTTPConn ex_conn "https" 0 (repeat (ex_request "p.io", ex_outside) 20) dev5)) = 10 ∧
  AUnauthorized (2 * Second) ∈
    fst (serveHTTPConn ex_conn "https" 0 (repeat (ex_request "p.io", ex_outside) 20) dev5) ∧
  0 < 2 * Second <= 2 * Second.
Proof.
  set (run := serveHTTPConn ex_conn "https" 0 (repeat (ex_request "p.io", ex_outside) 20) dev5).
  assert (Hin : AUnauthorized (2 * Second) ∈ fst run).
  { assert (Hl : nth_error (fst run) 9 = Some (AUnauthorized (2 * Second))) by (vm_compute; reflexivity).
    apply nth_error_In in Hl. by apply list_elem_of_In. }
  split; [vm_compute; reflexivity|]. split; [exact Hin|].
  destruct (basic_auth_is_throttled ex_conn "https" (repeat (ex_request "p.io", ex_outside) 20) dev5
    (fst run) (snd run)) as [_ Hd]; [apply surjective_pairing|].
  exact (Hd _ Hin).
Defined.

(** An edge of a fleet: it serves x.io, and knows far.io as a tunnel of edge-b. *)
Definition hop_edge : DevServer :=
  let env : Environ := {["TRQSH_INTERNAL_TOKEN" := "s3cret"; "TRQSH_FORWARD_ADDR" := "10.0.0.1:9000"]} in
  let r := snd (reg_RegisterEdge 1000 "edge-b" "10.0.0.2:9000" 0 NewInMemoryRegistry) in
  let r := snd (reg_Bind 1000 (host_route "far.io") {| EdgeID := "edge-b"; SessionID := "sess_9" |} 0 r) in
  do_bind 1%nat (ex_bind "t" HTTP "x.io")
    (connect 1%nat (ex_sess "sess_1") (NewServer (overlay "edge-a" env) tt r false)).
Definition ex_hop (token : string) : option StreamInit :=
  Some {| si_client_tunnel_id := ""; si_remote_addr := "9.9.9.9:1"; si_proto := "https";
          si_meta := {[forwardTokenMeta := token]} |}.

(** The same requests over a hop with the token, over one without it, and from the public. *)
Lemma forwarded_hop_safe_witness :
  let reqs := [(ex_request "x.io", ex_keep); (ex_request "far.io", ex_outside)] in
  let run tok := serveForward (ex_hop tok) reqs hop_edge in
  let public := fst (serveHTTPConn ex_conn "https" 0 (ex_reqs "far.io") hop_edge) in
  (length (fst (run "s3cret")) = 2%nat ∧ ANotFound "far.io" ∈ fst (run "s3cret") ∧
   AForward "edge-b" ∉ fst (run "s3cret") ∧
   ∃ h, ex_hop "s3cret" = Some h ∧ InternalToken (cfg hop_edge) ≠ "" ∧
        si_meta h !! forwardTokenMeta = Some (InternalToken (cfg hop_edge))) ∧
  run "guess" = ([], hop_edge) ∧
  public = [AForward "edge-b"] ∧ "edge-b" ≠ cfg_EdgeID (cfg hop_edge).
Proof.
  intros reqs run public.
  destruct (forwarded_hop_safe (ex_hop "s3cret") reqs hop_edge (fst (run "s3cret")) (snd (run "s3cret")))
    as (Htok & Hn & _); [apply surjective_pairing|].
  destruct (forwarded_hop_safe (ex_hop "s3cret") (ex_reqs "far.io") hop_edge
    (fst (serveForward (ex_hop "s3cret") (ex_reqs "far.io") hop_edge))
    (snd (serveForward (ex_hop "s3cret") (ex_reqs "far.io") hop_edge)))
    as (_ & _ & Hp); [apply surjective_pairing|].
  assert (Hpub : public = [AForward "edge-b"]) by (vm_compute; reflexivity).
  assert (Hlen : length (fst (run "s3cret")) = 2%nat) by (vm_compute; reflexivity).
  split; [split; [exact Hlen|split; [|split; [exact (Hn "edge-b")|]]]|split; [|split; [exact Hpub|]]].
  - apply list_elem_of_lookup_2 with 1%nat. vm_compute. reflexivity.
  - apply Htok. left. intros Hnil. rewrite Hnil in Hlen. discriminate.
  - vm_compute. reflexivity.
  - apply (Hp ex_conn "https" 0 public (snd (serveHTTPConn ex_conn "https" 0 (ex_reqs "far.io") hop_edge)));
      [apply surjective_pairing|rewrite Hpub; left].
Defined.

Lemma h23_forwards_client_headers_witness :
  ∃ t init req', fst (routeHTTPS "9.9.9.9:1234" (ex_request "x.io") ex_outside dev4) = [ATunnel t init req'] ∧
    rq_Header req' !! "X-Forwarded-For" = Some ["6.6.6.6"].
Proof.
  set (req' := rewrite_h23 ex_bt "x.io" "req_bcd" (ex_request "x.io")).
  assert (Hacts : fst (routeHTTPS "9.9.9.9:1234" (ex_request "x.io") ex_outside dev4) =
    [ATunnel 1%nat (stream_init ex_bt "9.9.9.9:1234" "https" "x.io" "req_bcd") req'])
    by (vm_compute; reflexivity).
  exists 1%nat, (stream_init ex_bt "9.9.9.9:1234" "https" "x.io" "req_bcd"), req'.
  split; [exact Hacts|].
  rewrite (h23_forwards_client_headers "9.9.9.9:1234" (ex_request "x.io") ex_outside dev4
    (fst (routeHTTPS "9.9.9.9:1234" (ex_request "x.io") ex_outside dev4))
    (snd (routeHTTPS "9.9.9.9:1234" (ex_request "x.io") ex_outside dev4))
    1%nat (stream_init ex_bt "9.9.9.9:1234" "https" "x.io" "req_bcd") req' "X-Forwarded-For").
  - vm_compute. reflexivity.
  - apply surjective_pairing.
  - rewrite Hacts. left.
  - left.
Defined.

(** * Reserved hosts *)

(** An edge that proxies api.lvh.me to the control plane. *)
Definition api_env : Environ := {["TRQSH_API_UPSTREAM" := "http://api:8080"]}.
Definition api_edge : DevServer :=
  connect 1%nat (ex_sess "sess_1") (NewServer (overlay "edge" api_env) tt NewInMemoryRegistry false).

(** A tunnel can shadow a reserved control-plane host.  On an edge that
    proxies api.<base> to the API, a bind of the subdomain "api" is accepted,
    and from then on HTTPS requests for the API go to the agent that bound it,
    because the hub is consulted before the reserved hosts. *)
Theorem reserved_host_can_be_shadowed :
  let b := {| b_client_tunnel_id := "t"; b_type := HTTPS; b_subdomain := "api"; b_custom_domain := "";
              b_remote_port := 0; b_options := ∅ |} in
  let '(resp, s) := handleBind (ex_call 0) 1%nat b api_edge in
  fst (serveHTTPConn ex_conn "https" 0 (ex_reqs "api.lvh.me") api_edge) = [AProxy "http://api:8080"] ∧
  br_ok resp = true ∧ br_assigned_host resp = "api.lvh.me" ∧
  match fst (serveHTTPConn ex_conn "https" 0 (ex_reqs "api.lvh.me") s) with
  | [ATunnel t _ _] => owner (world s) (Some t) = Some 1%nat
  | _ => False
  end.
Proof. vm_compute. repeat split. Qed.
