(* ===== verification/Store.v ===== *)
(** The control plane's persistence layer (internal/api/store): the domain types
    and the in-memory store with every operation of its interface. *)
From S2P Require Import Prelude GoStrings.

Open Scope Z_scope.

Inductive StoreErr := ErrNotFound | ErrConflict.

(** * Domain types *)
Record User := {
  us_ID : string; us_Email : string; us_Name : string; us_AvatarURL : string;
  us_OAuthProvider : string; us_CreatedAt : Time;
}.

Record Org := {
  og_ID : string; og_Name : string; og_Plan : string; og_StripeCustomerID : string;
  og_CreatedAt : Time; og_PlanExpiresAt : option Time;
}.

Record OrgMember := { om_OrgID : string; om_UserID : string; om_Role : string }.

Record APIKey := {
  ak_ID : string; ak_OrgID : string; ak_Name : string; ak_Prefix : string; ak_Hash : string;
  ak_LastUsedAt : option Time; ak_RevokedAt : option Time; ak_CreatedAt : Time;
}.

Record ReservedSubdomain := {
  rs_ID : string; rs_OrgID : string; rs_Subdomain : string; rs_CreatedAt : Time;
}.

Record CustomDomain := {
  cd_ID : string; cd_OrgID : string; cd_Domain : string; cd_VerifyToken : string;
  cd_VerifiedAt : option Time; cd_CertStatus : string; cd_CreatedAt : Time;
}.

Record UsageRecord := {
  ur_OrgID : string; ur_TunnelID : string; ur_BytesIn : Z; ur_BytesOut : Z; ur_Requests : Z;
  ur_WindowStart : Time; ur_WindowEnd : Time;
}.

Record TunnelSession := {
  ts_ID : string; ts_OrgID : string; ts_EdgeID : string; ts_SessionID : string; ts_TunnelID : string;
  ts_Type : string; ts_PublicURL : string; ts_Host : string; ts_Port : Z; ts_Region : string;
  ts_ClientIP : string; ts_Country : string; ts_City : string; ts_BytesIn : Z; ts_BytesOut : Z;
  ts_Requests : Z; ts_Status : string; ts_StartedAt : Time; ts_EndedAt : option Time;
}.

Record TunnelSessionFilter := { tf_OrgID : string; tf_ActiveOnly : bool; tf_Limit : Z; tf_Offset : Z }.
Record UsageBucket := { ub_Start : Time; ub_BytesIn : Z; ub_BytesOut : Z; ub_Requests : Z }.

Record AdminStats := {
  as_Users : Z; as_NewUsers7d : Z; as_NewUsers30d : Z; as_Orgs : Z; as_OrgsByPlan : gmap string Z;
  as_APIKeys : Z; as_ReservedSubdomains : Z; as_CustomDomains : Z; as_ActiveTunnels : Z;
  as_TotalTunnels : Z; as_BytesIn30d : Z; as_BytesOut30d : Z; as_Requests30d : Z;
}.

Record Subscription := {
  sb_ID : string; sb_OrgID : string; sb_StripeSubID : string; sb_StripeCustomerID : string;
  sb_Plan : string; sb_Status : string; sb_CurrentPeriodEnd : Time; sb_CancelAtPeriodEnd : bool;
  sb_CreatedAt : Time; sb_UpdatedAt : Time;
}.

Record MeteredUsage := {
  mu_ID : Z; mu_OrgID : string; mu_Metric : string; mu_Quantity : Z; mu_WindowStart : Time;
  mu_WindowEnd : Time; mu_ReportedAt : option Time; mu_CreatedAt : Time;
}.

(** * The store *)
Record MemStore := mkStore {
  users : gmap string User;
  usersEmail : gmap string string;
  orgs : gmap string Org;
  members : list OrgMember;
  keys : gmap string APIKey;
  keyPrefix : gmap string string;
  subs : gmap string ReservedSubdomain;
  subByName : gmap string string;
  domains : gmap string CustomDomain;
  domByName : gmap string string;
  usage_ : list UsageRecord;
  subsByOrg : gmap string Subscription;
  subsByStripe : gmap string string;
  events : gmap string bool;
  metered : list MeteredUsage;
  meteredSeq : Z;
  history : list TunnelSession;
}.

Definition NewMemStore : MemStore :=
  mkStore ∅ ∅ ∅ [] ∅ ∅ ∅ ∅ ∅ ∅ [] ∅ ∅ ∅ [] 0 [].

(** Field updates. *)
Definition set_users (v0 : gmap string User) (v1 : gmap string string) (m : MemStore) : MemStore :=
  mkStore v0 v1 (orgs m) (members m) (keys m) (keyPrefix m) (subs m) (subByName m) (domains m)
  (domByName m) (usage_ m) (subsByOrg m) (subsByStripe m) (events m) (metered m) (meteredSeq m)
  (history m).

Definition set_orgs (v0 : gmap string Org) (m : MemStore) : MemStore :=
  mkStore (users m) (usersEmail m) v0 (members m) (keys m) (keyPrefix m) (subs m) (subByName m)
  (domains m) (domByName m) (usage_ m) (subsByOrg m) (subsByStripe m) (events m) (metered m)
  (meteredSeq m) (history m).

Definition set_members (v0 : list OrgMember) (m : MemStore) : MemStore :=
  mkStore (users m) (usersEmail m) (orgs m) v0 (keys m) (keyPrefix m) (subs m) (subByName m)
  (domains m) (domByName m) (usage_ m) (subsByOrg m) (subsByStripe m) (events m) (metered m)
  (meteredSeq m) (history m).

Definition set_keys (v0 : gmap string APIKey) (v1 : gmap string string) (m : MemStore) : MemStore :=
  mkStore (users m) (usersEmail m) (orgs m) (members m) v0 v1 (subs m) (subByName m) (domains m)
  (domByName m) (usage_ m) (subsByOrg m) (subsByStripe m) (events m) (metered m) (meteredSeq m)
  (history m).

Definition set_subs (v0 : gmap string ReservedSubdomain) (v1 : gmap string string) (m : MemStore) :
  MemStore :=
  mkStore (users m) (usersEmail m) (orgs m) (members m) (keys m) (keyPrefix m) v0 v1 (domains m)
  (domByName m) (usage_ m) (subsByOrg m) (subsByStripe m) (events m) (metered m) (meteredSeq m)
  (history m).

Definition set_domains (v0 : gmap string CustomDomain) (v1 : gmap string string) (m : MemStore) :
  MemStore :=
  mkStore (users m) (usersEmail m) (orgs m) (members m) (keys m) (keyPrefix m) (subs m) (subByName
  m) v0 v1 (usage_ m) (subsByOrg m) (subsByStripe m) (events m) (metered m) (meteredSeq m)
  (history m).

Definition set_usage (v0 : list UsageRecord) (m : MemStore) : MemStore :=
  mkStore (users m) (usersEmail m) (orgs m) (members m) (keys m) (keyPrefix m) (subs m) (subByName
  m) (domains m) (domByName m) v0 (subsByOrg m) (subsByStripe m) (events m) (metered m)
  (meteredSeq m) (history m).

Definition set_subscriptions (v0 : gmap string Subscription) (v1 : gmap string string) (m :
  MemStore) : MemStore :=
  mkStore (users m) (usersEmail m) (orgs m) (members m) (keys m) (keyPrefix m) (subs m) (subByName
  m) (domains m) (domByName m) (usage_ m) v0 v1 (events m) (metered m) (meteredSeq m) (history m).

Definition set_events (v0 : gmap string bool) (m : MemStore) : MemStore :=
  mkStore (users m) (usersEmail m) (orgs m) (members m) (keys m) (keyPrefix m) (subs m) (subByName
  m) (domains m) (domByName m) (usage_ m) (subsByOrg m) (subsByStripe m) v0 (metered m)
  (meteredSeq m) (history m).

Definition set_metered (v0 : list MeteredUsage) (v1 : Z) (m : MemStore) : MemStore :=
  mkStore (users m) (usersEmail m) (orgs m) (members m) (keys m) (keyPrefix m) (subs m) (subByName
  m) (domains m) (domByName m) (usage_ m) (subsByOrg m) (subsByStripe m) (events m) v0 v1 (history
  m).

Definition set_history (v0 : list TunnelSession) (m : MemStore) : MemStore :=
  mkStore (users m) (usersEmail m) (orgs m) (members m) (keys m) (keyPrefix m) (subs m) (subByName
  m) (domains m) (domByName m) (usage_ m) (subsByOrg m) (subsByStripe m) (events m) (metered m)
  (meteredSeq m) v0.


(** [NewID]: the prefix and eight random bytes in hexadecimal. *)
Definition NewID (prefix : string) (buf : list Z) : string := prefix +:+ "_" +:+ EncodeToString buf.

Abbreviation StM := (M MemStore StoreErr).

(** The zero-value defaults of the create operations: a missing id is drawn
    from [rnd], a missing time is the clock's. *)
Definition or_id (id prefix : string) (rnd : list Z) : string :=
  if String.eqb id "" then NewID prefix rnd else id.
Definition or_now (t now : Time) : Time := if IsZero t then now else t.

(** * Users *)
Definition CreateUser (now : Time) (rnd : list Z) (u : User) : StM User := λ m,
  match usersEmail m !! ToLower (us_Email u) with
  | Some _ => (Err ErrConflict, m)
  | None =>
      let u := {| us_ID := or_id (us_ID u) "user" rnd; us_Email := us_Email u; us_Name := us_Name u;
                  us_AvatarURL := us_AvatarURL u; us_OAuthProvider := us_OAuthProvider u;
                  us_CreatedAt := or_now (us_CreatedAt u) now |} in
      (Ok u, set_users (<[us_ID u := u]> (users m)) (<[ToLower (us_Email u) := us_ID u]> (usersEmail m)) m)
  end.

Definition UpdateUserProfile (id name avatarURL : string) : StM unit := λ m,
  match users m !! id with
  | None => (Err ErrNotFound, m)
  | Some u =>
      let u := {| us_ID := us_ID u; us_Email := us_Email u;
                  us_Name := if negb (String.eqb name "") then name else us_Name u;
                  us_AvatarURL := if negb (String.eqb avatarURL "") then avatarURL else us_AvatarURL u;
                  us_OAuthProvider := us_OAuthProvider u; us_CreatedAt := us_CreatedAt u |} in
      (Ok tt, set_users (<[id := u]> (users m)) (usersEmail m) m)
  end.

Definition zero_user : User :=
  {| us_ID := ""; us_Email := ""; us_Name := ""; us_AvatarURL := ""; us_OAuthProvider := ""; us_CreatedAt := 0 |}.

Definition GetUser (id : string) : StM User := λ m,
  match users m !! id with Some u => (Ok u, m) | None => (Err ErrNotFound, m) end.

Definition GetUserByEmail (email : string) : StM User := λ m,
  match usersEmail m !! ToLower email with
  | None => (Err ErrNotFound, m)
  | Some id => (Ok (default zero_user (users m !! id)), m)
  end.

(** * Orgs and membership *)
Definition CreateOrg (now : Time) (rnd : list Z) (o : Org) : StM Org := λ m,
  let o := {| og_ID := or_id (og_ID o) "org" rnd; og_Name := og_Name o;
              og_Plan := if String.eqb (og_Plan o) "" then "free" else og_Plan o;
              og_StripeCustomerID := og_StripeCustomerID o;
              og_CreatedAt := or_now (og_CreatedAt o) now; og_PlanExpiresAt := og_PlanExpiresAt o |} in
  (Ok o, set_orgs (<[og_ID o := o]> (orgs m)) m).

Definition GetOrg (id : string) : StM Org := λ m,
  match orgs m !! id with Some o => (Ok o, m) | None => (Err ErrNotFound, m) end.

(** The three updates of an org found by id. *)
Definition update_org (id : string) (f : Org → Org) : StM unit := λ m,
  match orgs m !! id with
  | None => (Err ErrNotFound, m)
  | Some o => (Ok tt, set_orgs (<[id := f o]> (orgs m)) m)
  end.

Definition SetOrgPlan (orgID plan : string) (expiresAt : option Time) : StM unit :=
  update_org orgID (λ o,
    {| og_ID := og_ID o; og_Name := og_Name o; og_Plan := plan; og_StripeCustomerID := og_StripeCustomerID o;
       og_CreatedAt := og_CreatedAt o; og_PlanExpiresAt := expiresAt |}).

Definition UpdateOrgPlan (orgID plan : string) : StM unit :=
  update_org orgID (λ o,
    {| og_ID := og_ID o; og_Name := og_Name o; og_Plan := plan; og_StripeCustomerID := og_StripeCustomerID o;
       og_CreatedAt := og_CreatedAt o; og_PlanExpiresAt := None |}).

Definition SetOrgStripeCustomer (orgID customerID : string) : StM unit :=
  update_org orgID (λ o,
    {| og_ID := og_ID o; og_Name := og_Name o; og_Plan := og_Plan o; og_StripeCustomerID := customerID;
       og_CreatedAt := og_CreatedAt o; og_PlanExpiresAt := og_PlanExpiresAt o |}).

Definition AddOrgMember (mem : OrgMember) : StM unit := λ m,
  match find_first (λ e, String.eqb (om_OrgID e) (om_OrgID mem) && String.eqb (om_UserID e) (om_UserID mem))
                   (members m) with
  | Some _ => (Err ErrConflict, m)
  | None => (Ok tt, set_members (members m ++ [mem]) m)
  end.

Definition ListOrgMembers (orgID : string) : StM (list OrgMember) := λ m,
  (Ok (List.filter (λ e, String.eqb (om_OrgID e) orgID) (members m)), m).

Definition OrgsForUser (userID : string) : StM (list Org) := λ m,
  (Ok (omap (λ e, if String.eqb (om_UserID e) userID then orgs m !! om_OrgID e else None) (members m)), m).

(** * API keys *)
Definition CreateAPIKey (now : Time) (rnd : list Z) (k : APIKey) : StM APIKey := λ m,
  let k := {| ak_ID := or_id (ak_ID k) "key" rnd; ak_OrgID := ak_OrgID k; ak_Name := ak_Name k;
              ak_Prefix := ak_Prefix k; ak_Hash := ak_Hash k; ak_LastUsedAt := ak_LastUsedAt k;
              ak_RevokedAt := ak_RevokedAt k; ak_CreatedAt := or_now (ak_CreatedAt k) now |} in
  match keyPrefix m !! ak_Prefix k with
  | Some _ => (Err ErrConflict, m)
  | None => (Ok k, set_keys (<[ak_ID k := k]> (keys m)) (<[ak_Prefix k := ak_ID k]> (keyPrefix m)) m)
  end.

Definition zero_key : APIKey :=
  {| ak_ID := ""; ak_OrgID := ""; ak_Name := ""; ak_Prefix := ""; ak_Hash := ""; ak_LastUsedAt := None;
     ak_RevokedAt := None; ak_CreatedAt := 0 |}.

Definition GetAPIKeyByPrefix (prefix : string) : StM APIKey := λ m,
  match keyPrefix m !! prefix with
  | None => (Err ErrNotFound, m)
  | Some id => (Ok (default zero_key (keys m !! id)), m)
  end.

Definition TouchAPIKey (id : string) (at_ : Time) : StM unit := λ m,
  match keys m !! id with
  | None => (Err ErrNotFound, m)
  | Some k =>
      let k := {| ak_ID := ak_ID k; ak_OrgID := ak_OrgID k; ak_Name := ak_Name k; ak_Prefix := ak_Prefix k;
                  ak_Hash := ak_Hash k; ak_LastUsedAt := Some at_; ak_RevokedAt := ak_RevokedAt k;
                  ak_CreatedAt := ak_CreatedAt k |} in
      (Ok tt, set_keys (<[id := k]> (keys m)) (keyPrefix m) m)
  end.

Definition RevokeAPIKey (id orgID : string) (at_ : Time) : StM unit := λ m,
  match keys m !! id with
  | None => (Err ErrNotFound, m)
  | Some k =>
      if negb (String.eqb (ak_OrgID k) orgID) then (Err ErrNotFound, m)
      else
        let k := {| ak_ID := ak_ID k; ak_OrgID := ak_OrgID k; ak_Name := ak_Name k; ak_Prefix := ak_Prefix k;
                    ak_Hash := ak_Hash k; ak_LastUsedAt := ak_LastUsedAt k; ak_RevokedAt := Some at_;
                    ak_CreatedAt := ak_CreatedAt k |} in
        (Ok tt, set_keys (<[id := k]> (keys m)) (keyPrefix m) m)
  end.

(** * Reserved subdomains *)
Definition ReserveSubdomain (now : Time) (rnd : list Z) (s : ReservedSubdomain) : StM ReservedSubdomain := λ m,
  let name := ToLower (rs_Subdomain s) in
  match subByName m !! name with
  | Some _ => (Err ErrConflict, m)
  | None =>
      let s := {| rs_ID := or_id (rs_ID s) "sub" rnd; rs_OrgID := rs_OrgID s; rs_Subdomain := name;
                  rs_CreatedAt := or_now (rs_CreatedAt s) now |} in
      (Ok s, set_subs (<[rs_ID s := s]> (subs m)) (<[name := rs_ID s]> (subByName m)) m)
  end.

Definition ReleaseSubdomain (id orgID : string) : StM unit := λ m,
  match subs m !! id with
  | None => (Err ErrNotFound, m)
  | Some s =>
      if negb (String.eqb (rs_OrgID s) orgID) then (Err ErrNotFound, m)
      else (Ok tt, set_subs (delete id (subs m)) (delete (rs_Subdomain s) (subByName m)) m)
  end.

(** A dangling index would read the zero value, whose OrgID is "". *)
Definition IsSubdomainReserved (orgID subdomain : string) : StM bool := λ m,
  match subByName m !! ToLower subdomain with
  | None => (Ok false, m)
  | Some id => (Ok (String.eqb (default "" (rs_OrgID <$> subs m !! id)) orgID), m)
  end.

(** * Custom domains *)
Definition AddCustomDomain (now : Time) (rnd : list Z) (d : CustomDomain) : StM CustomDomain := λ m,
  let name := ToLower (cd_Domain d) in
  match domByName m !! name with
  | Some _ => (Err ErrConflict, m)
  | None =>
      let d := {| cd_ID := or_id (cd_ID d) "dom" rnd; cd_OrgID := cd_OrgID d; cd_Domain := name;
                  cd_VerifyToken := cd_VerifyToken d; cd_VerifiedAt := cd_VerifiedAt d;
                  cd_CertStatus := if String.eqb (cd_CertStatus d) "" then "pending" else cd_CertStatus d;
                  cd_CreatedAt := or_now (cd_CreatedAt d) now |} in
      (Ok d, set_domains (<[cd_ID d := d]> (domains m)) (<[name := cd_ID d]> (domByName m)) m)
  end.

Definition zero_domain : CustomDomain :=
  {| cd_ID := ""; cd_OrgID := ""; cd_Domain := ""; cd_VerifyToken := ""; cd_VerifiedAt := None;
     cd_CertStatus := ""; cd_CreatedAt := 0 |}.

Definition GetCustomDomain (id orgID : string) : StM CustomDomain := λ m,
  match domains m !! id with
  | None => (Err ErrNotFound, m)
  | Some d => if negb (String.eqb (cd_OrgID d) orgID) then (Err ErrNotFound, m) else (Ok d, m)
  end.

Definition GetCustomDomainByName (domain : string) : StM CustomDomain := λ m,
  match domByName m !! ToLower domain with
  | None => (Err ErrNotFound, m)
  | Some id => (Ok (default zero_domain (domains m !! id)), m)
  end.

Definition VerifyCustomDomain (id orgID : string) (at_ : Time) : StM unit := λ m,
  match domains m !! id with
  | None => (Err ErrNotFound, m)
  | Some d =>
      if negb (String.eqb (cd_OrgID d) orgID) then (Err ErrNotFound, m)
      else
        let d := {| cd_ID := cd_ID d; cd_OrgID := cd_OrgID d; cd_Domain := cd_Domain d;
                    cd_VerifyToken := cd_VerifyToken d; cd_VerifiedAt := Some at_;
                    cd_CertStatus := "verified"; cd_CreatedAt := cd_CreatedAt d |} in
        (Ok tt, set_domains (<[id := d]> (domains m)) (domByName m) m)
  end.

(** * Usage *)
Definition UpsertUsage (u : UsageRecord) : StM unit := λ m,
  (Ok tt, set_usage (usage_ m ++ [u]) m).

Definition in_period (orgID : string) (since : Time) (u : UsageRecord) : bool :=
  String.eqb (ur_OrgID u) orgID && negb (Before (ur_WindowEnd u) since).

Definition UsageForOrg (now : Time) (orgID : string) (since : Time) : StM UsageRecord := λ m,
  let zero := {| ur_OrgID := orgID; ur_TunnelID := ""; ur_BytesIn := 0; ur_BytesOut := 0; ur_Requests := 0;
                 ur_WindowStart := since; ur_WindowEnd := now |} in
  (Ok (foldl (λ agg u,
         if in_period orgID since u
         then {| ur_OrgID := ur_OrgID agg; ur_TunnelID := ur_TunnelID agg;
                 ur_BytesIn := add64 (ur_BytesIn agg) (ur_BytesIn u);
                 ur_BytesOut := add64 (ur_BytesOut agg) (ur_BytesOut u);
                 ur_Requests := add64 (ur_Requests agg) (ur_Requests u);
                 ur_WindowStart := ur_WindowStart agg; ur_WindowEnd := ur_WindowEnd agg |}
         else agg) zero (usage_ m)), m).

(** [truncateTo]: [time.Time] counts from a midnight, so an hour or a day
    starts at a multiple of its length. *)
Definition truncateTo (t : Time) (bucket : string) : Time :=
  if String.eqb bucket "hour" then t - t mod Hour else t - t mod (24 * Hour).

(** * Tunnel history *)
Definition tunnelKeyMatch (s : TunnelSession) (edgeID sessionID tunnelID : string) : bool :=
  String.eqb (ts_EdgeID s) edgeID && String.eqb (ts_SessionID s) sessionID &&
  String.eqb (ts_TunnelID s) tunnelID.

Definition active (s : TunnelSession) : bool := String.eqb (ts_Status s) "active".

Definition open_row (s : TunnelSession) (id : string) (started : Time) : TunnelSession :=
  {| ts_ID := id; ts_OrgID := ts_OrgID s; ts_EdgeID := ts_EdgeID s; ts_SessionID := ts_SessionID s;
     ts_TunnelID := ts_TunnelID s; ts_Type := ts_Type s; ts_PublicURL := ts_PublicURL s;
     ts_Host := ts_Host s; ts_Port := ts_Port s; ts_Region := ts_Region s; ts_ClientIP := ts_ClientIP s;
     ts_Country := ts_Country s; ts_City := ts_City s; ts_BytesIn := ts_BytesIn s;
     ts_BytesOut := ts_BytesOut s; ts_Requests := ts_Requests s; ts_Status := "active";
     ts_StartedAt := started; ts_EndedAt := None |}.

(** The loop that replaces the first active row of the same instance. *)
Fixpoint replace_active (s : TunnelSession) (started : Time) (l : list TunnelSession)
    : option (TunnelSession * list TunnelSession) :=
  match l with
  | [] => None
  | e :: l =>
      if tunnelKeyMatch e (ts_EdgeID s) (ts_SessionID s) (ts_TunnelID s) && active e
      then let s := open_row s (ts_ID e) started in Some (s, s :: l)
      else '(s, l) ← replace_active s started l; Some (s, e :: l)
  end.

Definition RecordTunnelOpen (now : Time) (rnd : list Z) (s : TunnelSession) : StM TunnelSession := λ m,
  let started := or_now (ts_StartedAt s) now in
  match replace_active s started (history m) with
  | Some (s, l) => (Ok s, set_history l m)
  | None =>
      let s := open_row s (or_id (ts_ID s) "tun" rnd) started in
      (Ok s, set_history (history m ++ [s]) m)
  end.

Definition close_row (endedAt bytesIn bytesOut requests : Z) (s : TunnelSession) : TunnelSession :=
  {| ts_ID := ts_ID s; ts_OrgID := ts_OrgID s; ts_EdgeID := ts_EdgeID s; ts_SessionID := ts_SessionID s;
     ts_TunnelID := ts_TunnelID s; ts_Type := ts_Type s; ts_PublicURL := ts_PublicURL s;
     ts_Host := ts_Host s; ts_Port := ts_Port s; ts_Region := ts_Region s; ts_ClientIP := ts_ClientIP s;
     ts_Country := ts_Country s; ts_City := ts_City s; ts_BytesIn := bytesIn;
     ts_BytesOut := bytesOut; ts_Requests := requests; ts_Status := "closed";
     ts_StartedAt := ts_StartedAt s; ts_EndedAt := Some endedAt |}.

(** The loop from the newest row down: the list is given newest first. *)
Fixpoint close_first (key : TunnelSession → bool) (f : TunnelSession → TunnelSession)
    (l : list TunnelSession) : option (list TunnelSession) :=
  match l with
  | [] => None
  | e :: l => if key e then Some (f e :: l) else l ← close_first key f l; Some (e :: l)
  end.

Definition CloseTunnelSession (edgeID sessionID tunnelID : string) (endedAt : Time)
    (bytesIn bytesOut requests : Z) : StM unit := λ m,
  match close_first (λ s, tunnelKeyMatch s edgeID sessionID tunnelID && active s)
          (close_row endedAt bytesIn bytesOut requests) (rev (history m)) with
  | Some l => (Ok tt, set_history (rev l) m)
  | None => (Err ErrNotFound, m)
  end.

Definition listed (orgID : string) (activeOnly : bool) (s : TunnelSession) : bool :=
  (String.eqb orgID "" || String.eqb (ts_OrgID s) orgID) && (negb activeOnly || active s).

(** Newest first, after [Offset] matching rows, [Limit] of them (100 by
    default); a negative offset skips nothing. *)
Definition ListTunnelSessions (f : TunnelSessionFilter) : StM (list TunnelSession) := λ m,
  let limit := if tf_Limit f <=? 0 then 100 else tf_Limit f in
  (Ok (take (Z.to_nat limit) (drop (Z.to_nat (tf_Offset f))
        (List.filter (listed (tf_OrgID f) (tf_ActiveOnly f)) (rev (history m))))), m).

Definition CountTunnelSessions (orgID : string) (activeOnly : bool) : StM Z := λ m,
  (Ok (Z.of_nat (length (List.filter (listed orgID activeOnly) (history m)))), m).

Definition bump (k : string) (c : gmap string Z) : gmap string Z := <[k := default 0 (c !! k) + 1]> c.

Definition TunnelCountryBreakdown (orgID : string) (activeOnly : bool) : StM (gmap string Z) := λ m,
  (Ok (foldl (λ out s, if listed orgID activeOnly s
                       then bump (if String.eqb (ts_Country s) "" then "??" else ts_Country s) out
                       else out) ∅ (history m)), m).

(** * Billing *)
Definition UpsertSubscription (now : Time) (rnd : list Z) (s : Subscription) : StM Subscription := λ m,
  let existing := if String.eqb (sb_ID s) "" then subsByOrg m !! sb_OrgID s else None in
  let id := match existing with
            | Some e => sb_ID e
            | None => if String.eqb (sb_ID s) "" then NewID "sub" rnd else sb_ID s
            end in
  let created := match existing with Some e => or_now (sb_CreatedAt s) (sb_CreatedAt e) | None => sb_CreatedAt s end in
  let s := {| sb_ID := id; sb_OrgID := sb_OrgID s; sb_StripeSubID := sb_StripeSubID s;
              sb_StripeCustomerID := sb_StripeCustomerID s; sb_Plan := sb_Plan s; sb_Status := sb_Status s;
              sb_CurrentPeriodEnd := sb_CurrentPeriodEnd s; sb_CancelAtPeriodEnd := sb_CancelAtPeriodEnd s;
              sb_CreatedAt := or_now created now; sb_UpdatedAt := now |} in
  (Ok s, set_subscriptions (<[sb_OrgID s := s]> (subsByOrg m))
           (if negb (String.eqb (sb_StripeSubID s) "")
            then <[sb_StripeSubID s := sb_OrgID s]> (subsByStripe m) else subsByStripe m) m).

Definition GetSubscriptionForOrg (orgID : string) : StM Subscription := λ m,
  match subsByOrg m !! orgID with Some s => (Ok s, m) | None => (Err ErrNotFound, m) end.

Definition DeleteSubscription (stripeSubID : string) : StM unit := λ m,
  match subsByStripe m !! stripeSubID with
  | None => (Err ErrNotFound, m)
  | Some orgID =>
      (Ok tt, set_subscriptions (delete orgID (subsByOrg m)) (delete stripeSubID (subsByStripe m)) m)
  end.

Definition MarkEventProcessed (eventID : string) : StM bool := λ m,
  if String.eqb eventID "" then (Ok true, m)
  else if default false (events m !! eventID) then (Ok false, m)
  else (Ok true, set_events (<[eventID := true]> (events m)) m).

Definition InsertMeteredUsage (now : Time) (u : MeteredUsage) : StM MeteredUsage := λ m,
  match find_first (λ e, String.eqb (mu_OrgID e) (mu_OrgID u) && String.eqb (mu_Metric e) (mu_Metric u) &&
                         (mu_WindowStart e =? mu_WindowStart u)) (metered m) with
  | Some _ => (Err ErrConflict, m)
  | None =>
      let seq := add64 (meteredSeq m) 1 in
      let u := {| mu_ID := seq; mu_OrgID := mu_OrgID u; mu_Metric := mu_Metric u; mu_Quantity := mu_Quantity u;
                  mu_WindowStart := mu_WindowStart u; mu_WindowEnd := mu_WindowEnd u;
                  mu_ReportedAt := mu_ReportedAt u; mu_CreatedAt := or_now (mu_CreatedAt u) now |} in
      (Ok u, set_metered (metered m ++ [u]) seq m)
  end.

Definition pending (u : MeteredUsage) : bool := match mu_ReportedAt u with None => true | Some _ => false end.

Definition PendingMeteredUsage (limit : Z) : StM (list MeteredUsage) := λ m,
  let all := List.filter pending (metered m) in
  (Ok (if limit >? 0 then take (Z.to_nat limit) all else all), m).

Definition MarkMeteredUsageReported (ids : list Z) (at_ : Time) : StM unit := λ m,
  (Ok tt, set_metered
     (map (λ u, if bool_decide (mu_ID u ∈ ids)
                then {| mu_ID := mu_ID u; mu_OrgID := mu_OrgID u; mu_Metric := mu_Metric u;
                        mu_Quantity := mu_Quantity u; mu_WindowStart := mu_WindowStart u;
                        mu_WindowEnd := mu_WindowEnd u; mu_ReportedAt := Some at_; mu_CreatedAt := mu_CreatedAt u |}
                else u) (metered m)) (meteredSeq m) m).

Section listings.
  Context `{RangeOrder}.

(** The listings that range over a map: in the map's order. *)
Definition OrgsByPlan (plan : string) : StM (list Org) := λ m,
  (Ok (List.filter (λ o, String.eqb (og_Plan o) plan) (range_map (orgs m)).*2), m).
Definition ListAPIKeys (orgID : string) : StM (list APIKey) := λ m,
  (Ok (List.filter (λ k, String.eqb (ak_OrgID k) orgID) (range_map (keys m)).*2), m).
Definition ListSubdomains (orgID : string) : StM (list ReservedSubdomain) := λ m,
  (Ok (List.filter (λ s, String.eqb (rs_OrgID s) orgID) (range_map (subs m)).*2), m).
Definition CountSubdomains (orgID : string) : StM Z := λ m,
  (Ok (Z.of_nat (length (List.filter (λ s, String.eqb (rs_OrgID s) orgID) (range_map (subs m)).*2))), m).
Definition ListCustomDomains (orgID : string) : StM (list CustomDomain) := λ m,
  (Ok (List.filter (λ d, String.eqb (cd_OrgID d) orgID) (range_map (domains m)).*2), m).
Definition CountCustomDomains (orgID : string) : StM Z := λ m,
  (Ok (Z.of_nat (length (List.filter (λ d, String.eqb (cd_OrgID d) orgID) (range_map (domains m)).*2))), m).

(** The first org of the customer in the map's order. *)
Definition GetOrgByStripeCustomer (customerID : string) : StM Org := λ m,
  if String.eqb customerID "" then (Err ErrNotFound, m)
  else match find_first (λ o, String.eqb (og_StripeCustomerID o) customerID) (range_map (orgs m)).*2 with
       | Some o => (Ok o, m)
       | None => (Err ErrNotFound, m)
       end.

(** [AdminOverview]; a day of [AddDate] is 24 hours in UTC. *)
Definition AdminOverview (now : Time) : StM AdminStats := λ m,
  let d7 := now - 7 * 24 * Hour in
  let d30 := now - 30 * 24 * Hour in
  let us := (range_map (users m)).*2 in
  let recent := List.filter (λ u, negb (Before (ur_WindowEnd u) d30)) (usage_ m) in
  let sum f := foldl (λ a u, add64 a (f u)) 0 recent in
  (Ok {| as_Users := Z.of_nat (size (users m));
         as_NewUsers7d := Z.of_nat (length (List.filter (λ u, After (us_CreatedAt u) d7) us));
         as_NewUsers30d := Z.of_nat (length (List.filter (λ u, After (us_CreatedAt u) d30) us));
         as_Orgs := Z.of_nat (size (orgs m));
         as_OrgsByPlan := foldl (λ c o, bump (if String.eqb (og_Plan o) "" then "free" else og_Plan o) c)
                            ∅ (range_map (orgs m)).*2;
         as_APIKeys := Z.of_nat (size (keys m));
         as_ReservedSubdomains := Z.of_nat (size (subs m));
         as_CustomDomains := Z.of_nat (size (domains m));
         as_ActiveTunnels := Z.of_nat (length (List.filter active (history m)));
         as_TotalTunnels := Z.of_nat (length (history m));
         as_BytesIn30d := sum ur_BytesIn; as_BytesOut30d := sum ur_BytesOut;
         as_Requests30d := sum ur_Requests |}, m).
End listings.

(** [pageSlice]. *)
Definition pageSlice {A} (s : list A) (limit offset : Z) : list A :=
  let limit := if limit <=? 0 then 50 else limit in
  let offset := if offset <? 0 then 0 else offset in
  if offset >=? Z.of_nat (length s) then []
  else take (Z.to_nat limit) (drop (Z.to_nat offset) s).
