(* ===== verification/StoreInv.v ===== *)
(** The in-memory store's invariant: its secondary indexes, uniqueness of names,
    memberships, metered windows and active history rows, kept by every
    operation that changes it. *)
From S2P Require Import Prelude GoStrings Store.

Open Scope Z_scope.

(** * Secondary indexes *)
Section index.
  Context {V : Type} (name : V → string).
  Implicit Types (tbl : gmap string V) (ix : gmap string string).

(** [ix] maps exactly the names of the table's rows to their ids. *)
Definition index_ok tbl ix : Prop :=
  ∀ n id, ix !! n = Some id ↔ ∃ v, tbl !! id = Some v ∧ name v = n.

Lemma index_empty : index_ok ∅ ∅.
Proof. intros n id. rewrite !lookup_empty. naive_solver. Qed.

Lemma index_insert tbl ix id v :
  index_ok tbl ix → ix !! name v = None → tbl !! id = None →
  index_ok (<[id := v]> tbl) (<[name v := id]> ix).
Proof.
  intros Hok Hn Hid n i. rewrite lookup_insert_Some, (Hok n i). split.
  - intros [[<- <-]|[Hne (w & Hw & Hnw)]].
    + exists v. by rewrite lookup_insert_eq.
    + exists w. split; [|done]. rewrite lookup_insert_ne; [done|congruence].
  - intros (w & Hw & Hnw). apply lookup_insert_Some in Hw as [[<- <-]|[Hne Hw]]; [by left|].
    right. split; [|by eauto]. intros Heq. rewrite Heq in Hn.
    assert (Hx : ix !! n = Some i) by (apply Hok; eauto). congruence.
Qed.

Lemma index_update tbl ix id v0 v :
  index_ok tbl ix → tbl !! id = Some v0 → name v = name v0 → index_ok (<[id := v]> tbl) ix.
Proof.
  intros Hok H0 Hn n i. rewrite (Hok n i). split; intros (w & Hw & Hnw).
  - destruct (decide (i = id)) as [->|Hne].
    + exists v. rewrite lookup_insert_eq. split; [done|]. congruence.
    + exists w. by rewrite lookup_insert_ne.
  - apply lookup_insert_Some in Hw as [[<- <-]|[Hne Hw]]; [|by eauto].
    exists v0. split; [done|]. congruence.
Qed.

Lemma index_delete tbl ix id v :
  index_ok tbl ix → tbl !! id = Some v → index_ok (delete id tbl) (delete (name v) ix).
Proof.
  intros Hok Hv n i. rewrite lookup_delete_Some, (Hok n i). split.
  - intros (Hne & w & Hw & Hnw). exists w. split; [|done]. rewrite lookup_delete_ne; [done|].
    congruence.
  - intros (w & Hw & Hnw). apply lookup_delete_Some in Hw as [Hne Hw]. split; [|by eauto].
    intros Heq. assert (H1 : ix !! name v = Some id) by (apply Hok; eauto).
    assert (H2 : ix !! name v = Some i) by (apply Hok; exists w; split; [done|congruence]). congruence.
Qed.

Lemma index_unique tbl ix i j v w :
  index_ok tbl ix → tbl !! i = Some v → tbl !! j = Some w → name v = name w → i = j.
Proof.
  intros Hok Hi Hj Hn.
  assert (H1 : ix !! name v = Some i) by (apply Hok; eauto).
  assert (H2 : ix !! name v = Some j) by (apply Hok; eauto). congruence.
Qed.
End index.

(** * The invariant *)
Definition mkey (u : MeteredUsage) : string * string * Time := (mu_OrgID u, mu_Metric u, mu_WindowStart u).
Definition hkey (s : TunnelSession) : string * string * string := (ts_EdgeID s, ts_SessionID s, ts_TunnelID s).
Definition pair_of (e : OrgMember) : string * string := (om_OrgID e, om_UserID e).

Record store_ok (m : MemStore) : Prop := {
  so_users : index_ok (λ u, ToLower (us_Email u)) (users m) (usersEmail m);
  so_keys : index_ok ak_Prefix (keys m) (keyPrefix m);
  so_subs : index_ok rs_Subdomain (subs m) (subByName m);
  so_domains : index_ok cd_Domain (domains m) (domByName m);
  so_members : NoDup (map pair_of (members m));
  so_metered : NoDup (map mkey (metered m));
  so_active : NoDup (map hkey (List.filter active (history m)));
}.

Lemma NewMemStore_ok : store_ok NewMemStore.
Proof. split; simpl; try apply index_empty; constructor. Qed.

Lemma NoDup_snoc {A} (l : list A) x : NoDup l → x ∉ l → NoDup (l ++ [x]).
Proof.
  intros Hl Hx. apply list.NoDup_app. split; [done|]. split; [|apply NoDup_singleton].
  intros y Hy. rewrite list_elem_of_singleton. by intros ->.
Qed.

(** A loop that finds no row with a key leaves the key free. *)
Lemma find_first_key {A K} (key : A → K) (p : A → bool) l k :
  (∀ a, p a = true ↔ key a = k) → find_first p l = None → k ∉ map key l.
Proof.
  intros Hp Hf Hin. apply list_elem_of_fmap in Hin as (a & Hk & Ha). symmetry in Hk. apply Hp in Hk.
  rewrite (proj1 (find_first_None p l) Hf a Ha) in Hk. done.
Qed.

Lemma tunnelKeyMatch_spec s e se t : tunnelKeyMatch s e se t = true ↔ hkey s = (e, se, t).
Proof.
  unfold tunnelKeyMatch, hkey. rewrite !andb_true_iff, !String.eqb_eq. naive_solver.
Qed.

(** * History rows *)
Lemma replace_active_keys s started l r l' :
  replace_active s started l = Some (r, l') →
  map hkey (List.filter active l') = map hkey (List.filter active l).
Proof.
  revert l'. induction l as [|e l IH]; intros l'; simpl; [done|].
  destruct (_ && active e) eqn:Hc.
  - intros [= <- <-]. apply andb_true_iff in Hc as [Hk Ha]. apply tunnelKeyMatch_spec in Hk.
    rewrite Ha. simpl. by rewrite Hk.
  - intros Hr. apply bind_Some in Hr as ([r' l1] & Hr & Heq). simplify_eq/=.
    destruct (active e); simpl; by rewrite (IH _ Hr).
Qed.

Lemma replace_active_none s started l :
  replace_active s started l = None → hkey s ∉ map hkey (List.filter active l).
Proof.
  induction l as [|e l IH]; simpl; intros Hr; [apply not_elem_of_nil|].
  destruct (_ && active e) eqn:Hc; [done|].
  destruct (replace_active s started l) as [[r l1]|] eqn:Hl; [done|]. specialize (IH eq_refl).
  destruct (active e) eqn:Ha; [|done]. simpl. rewrite not_elem_of_cons. split; [|done].
  intros Heq. rewrite andb_true_r in Hc. rewrite <- not_true_iff_false in Hc. apply Hc.
  by apply tunnelKeyMatch_spec.
Qed.

Lemma close_first_sublist key endedAt i o r l l' :
  close_first (λ s, key s && active s) (close_row endedAt i o r) l = Some l' →
  map hkey (List.filter active l') `sublist_of` map hkey (List.filter active l).
Proof.
  revert l'. induction l as [|e l IH]; intros l'; simpl; [done|].
  destruct (key e && active e) eqn:Hc.
  - intros [= <-]. apply andb_true_iff in Hc as [_ Ha]. rewrite Ha. simpl. by constructor.
  - intros Hr. apply bind_Some in Hr as (l1 & Hr & Heq). simplify_eq/=.
    destruct (active e); simpl; [constructor|]; by apply IH.
Qed.

Lemma NoDup_rev' {A} (l : list A) : NoDup (rev l) ↔ NoDup l.
Proof. by rewrite <- (Permutation_rev l). Qed.

(** * Operations *)
Inductive store_op :=
| SCreateUser (now : Time) (rnd : list Z) (u : User)
| SUpdateUserProfile (id name avatarURL : string)
| SCreateOrg (now : Time) (rnd : list Z) (o : Org)
| SUpdateOrgPlan (orgID plan : string)
| SSetOrgPlan (orgID plan : string) (expiresAt : option Time)
| SSetOrgStripeCustomer (orgID customerID : string)
| SAddOrgMember (e : OrgMember)
| SCreateAPIKey (now : Time) (rnd : list Z) (k : APIKey)
| STouchAPIKey (id : string) (at_ : Time)
| SRevokeAPIKey (id orgID : string) (at_ : Time)
| SReserveSubdomain (now : Time) (rnd : list Z) (s : ReservedSubdomain)
| SReleaseSubdomain (id orgID : string)
| SAddCustomDomain (now : Time) (rnd : list Z) (d : CustomDomain)
| SVerifyCustomDomain (id orgID : string) (at_ : Time)
| SUpsertUsage (u : UsageRecord)
| SRecordTunnelOpen (now : Time) (rnd : list Z) (s : TunnelSession)
| SCloseTunnelSession (e se t : string) (endedAt : Time) (i o r : Z)
| SUpsertSubscription (now : Time) (rnd : list Z) (s : Subscription)
| SDeleteSubscription (stripeSubID : string)
| SMarkEventProcessed (eventID : string)
| SInsertMeteredUsage (now : Time) (u : MeteredUsage)
| SMarkMeteredUsageReported (ids : list Z) (at_ : Time).

Definition store_exec (m : MemStore) (o : store_op) : MemStore :=
  match o with
  | SCreateUser now rnd u => snd (CreateUser now rnd u m)
  | SUpdateUserProfile id name av => snd (UpdateUserProfile id name av m)
  | SCreateOrg now rnd o => snd (CreateOrg now rnd o m)
  | SUpdateOrgPlan org plan => snd (UpdateOrgPlan org plan m)
  | SSetOrgPlan org plan exp => snd (SetOrgPlan org plan exp m)
  | SSetOrgStripeCustomer org c => snd (SetOrgStripeCustomer org c m)
  | SAddOrgMember e => snd (AddOrgMember e m)
  | SCreateAPIKey now rnd k => snd (CreateAPIKey now rnd k m)
  | STouchAPIKey id at_ => snd (TouchAPIKey id at_ m)
  | SRevokeAPIKey id org at_ => snd (RevokeAPIKey id org at_ m)
  | SReserveSubdomain now rnd s => snd (ReserveSubdomain now rnd s m)
  | SReleaseSubdomain id org => snd (ReleaseSubdomain id org m)
  | SAddCustomDomain now rnd d => snd (AddCustomDomain now rnd d m)
  | SVerifyCustomDomain id org at_ => snd (VerifyCustomDomain id org at_ m)
  | SUpsertUsage u => snd (UpsertUsage u m)
  | SRecordTunnelOpen now rnd s => snd (RecordTunnelOpen now rnd s m)
  | SCloseTunnelSession e se t at_ i o r => snd (CloseTunnelSession e se t at_ i o r m)
  | SUpsertSubscription now rnd s => snd (UpsertSubscription now rnd s m)
  | SDeleteSubscription id => snd (DeleteSubscription id m)
  | SMarkEventProcessed id => snd (MarkEventProcessed id m)
  | SInsertMeteredUsage now u => snd (InsertMeteredUsage now u m)
  | SMarkMeteredUsageReported ids at_ => snd (MarkMeteredUsageReported ids at_ m)
  end.

(** The id an operation gives a new row is not in use: random ids do not
    collide. *)
Definition fresh_id (m : MemStore) (o : store_op) : Prop :=
  match o with
  | SCreateUser _ rnd u => users m !! or_id (us_ID u) "user" rnd = None
  | SCreateAPIKey _ rnd k => keys m !! or_id (ak_ID k) "key" rnd = None
  | SReserveSubdomain _ rnd s => subs m !! or_id (rs_ID s) "sub" rnd = None
  | SAddCustomDomain _ rnd d => domains m !! or_id (cd_ID d) "dom" rnd = None
  | _ => True
  end.

(** [index_insert] for the row the operation writes. *)
Ltac index_add name :=
  match goal with |- index_ok _ (<[?i := ?v]> _) _ => apply (index_insert name _ _ i v) end.

Lemma store_exec_ok m o : store_ok m → fresh_id m o → store_ok (store_exec m o).
Proof.
  intros Hok Hf. destruct Hok as [I1 I2 I3 I4 I5 I6 I7].
  destruct o; simpl in *; try (by split).
  - unfold CreateUser. destruct (usersEmail m !! _) eqn:He; [by split|]. split; try done. simpl.
    by index_add (λ u, ToLower (us_Email u)).
  - unfold UpdateUserProfile. destruct (users m !! id) eqn:Hu; [|by split]. split; try done. simpl.
    by eapply (index_update (λ u, ToLower (us_Email u))).
  - unfold UpdateOrgPlan, update_org. destruct (orgs m !! _); by split.
  - unfold SetOrgPlan, update_org. destruct (orgs m !! _); by split.
  - unfold SetOrgStripeCustomer, update_org. destruct (orgs m !! _); by split.
  - unfold AddOrgMember. destruct (find_first _ _) eqn:Hff; [by split|]. split; try done. simpl.
    rewrite map_app. apply NoDup_snoc; [done|]. eapply find_first_key; [|done].
    intros a. rewrite andb_true_iff, !String.eqb_eq. unfold pair_of.
    split; [by intros [-> ->]|by intros [= -> ->]].
  - unfold CreateAPIKey. simpl. destruct (keyPrefix m !! _) eqn:He; [by split|]. split; try done. simpl.
    by index_add ak_Prefix.
  - unfold TouchAPIKey. destruct (keys m !! id) eqn:Hu; [|by split]. split; try done. simpl.
    by eapply (index_update ak_Prefix).
  - unfold RevokeAPIKey. destruct (keys m !! id) eqn:Hu; [|by split]. destruct (negb _); [by split|].
    split; try done. simpl. by eapply (index_update ak_Prefix).
  - unfold ReserveSubdomain. destruct (subByName m !! _) eqn:He; [by split|]. split; try done. simpl.
    by index_add rs_Subdomain.
  - unfold ReleaseSubdomain. destruct (subs m !! id) eqn:Hu; [|by split]. destruct (negb _); [by split|].
    split; try done. simpl. by apply (index_delete rs_Subdomain).
  - unfold AddCustomDomain. destruct (domByName m !! _) eqn:He; [by split|]. split; try done. simpl.
    by index_add cd_Domain.
  - unfold VerifyCustomDomain. destruct (domains m !! id) eqn:Hu; [|by split]. destruct (negb _); [by split|].
    split; try done. simpl. by eapply (index_update cd_Domain).
  - unfold RecordTunnelOpen. destruct (replace_active _ _ _) as [[r l]|] eqn:Hr; split; try done; simpl.
    + by rewrite (replace_active_keys _ _ _ _ _ Hr).
    + rewrite List.filter_app, map_app. simpl. apply NoDup_snoc; [done|].
      by apply (replace_active_none _ _ _ Hr).
  - unfold CloseTunnelSession. destruct (close_first _ _ _) as [l|] eqn:Hc; [|by split].
    split; try done. simpl. apply close_first_sublist in Hc.
    rewrite filter_rev, map_rev in Hc. rewrite filter_rev, map_rev, NoDup_rev'.
    eapply sublist_NoDup; [|exact Hc]. by rewrite NoDup_rev'.
  - unfold DeleteSubscription. destruct (subsByStripe m !! _); by split.
  - unfold MarkEventProcessed. destruct (String.eqb _ _); [by split|]. destruct (default _ _); by split.
  - unfold InsertMeteredUsage. destruct (find_first _ _) eqn:Hff; [by split|]. split; try done. simpl.
    rewrite map_app. apply NoDup_snoc; [done|]. eapply find_first_key; [|done].
    intros a. rewrite !andb_true_iff, !String.eqb_eq, Z.eqb_eq. unfold mkey. simpl.
    split; [by intros [[-> ->] ->]|by intros [= -> -> ->]].
  - split; try done. simpl. rewrite map_map.
    erewrite map_ext; [exact I6|]. intros u. by case_bool_decide.
Qed.

(** * Reachable stores *)
Inductive store_reachable : MemStore → Prop :=
| sr_init : store_reachable NewMemStore
| sr_step m o : store_reachable m → fresh_id m o → store_reachable (store_exec m o).

Lemma store_reachable_ok m : store_reachable m → store_ok m.
Proof. induction 1; [apply NewMemStore_ok|by apply store_exec_ok]. Qed.

Definition live_rows (m : MemStore) (e se t : string) : list TunnelSession :=
  List.filter (λ s, tunnelKeyMatch s e se t && active s) (history m).

Lemma live_rows_key m e se t :
  NoDup (map hkey (List.filter active (history m))) → (length (live_rows m e se t) <= 1)%nat.
Proof.
  unfold live_rows. induction (history m) as [|s l IH]; simpl; [lia|].
  destruct (active s) eqn:Ha; [|by rewrite andb_false_r]. simpl. intros Hnd.
  apply list.NoDup_cons in Hnd as [Hni Hnd]. specialize (IH Hnd).
  destruct (tunnelKeyMatch s e se t) eqn:Hk; simpl; [|done].
  assert (Hnone : List.filter (λ s, tunnelKeyMatch s e se t && active s) l = []); [|by rewrite Hnone].
  apply tunnelKeyMatch_spec in Hk. clear IH Hnd. induction l as [|s' l IHl]; [done|]. simpl in *.
  destruct (active s') eqn:Ha'; simpl in *.
  - apply not_elem_of_cons in Hni as [Hne Hni]. rewrite IHl by done.
    destruct (tunnelKeyMatch s' e se t) eqn:Hk'; [|done]. apply tunnelKeyMatch_spec in Hk'. congruence.
  - rewrite andb_false_r. by apply IHl.
Qed.

(** In every store that its operations can build, names are owned by one
    row: a subdomain is reserved by at most one org, in any letter case; an
    email, an API key prefix and a custom domain lead to the existing row that
    carries them; and a tunnel instance has at most one active history row. *)
Theorem store_names_unique m :
  store_reachable m →
  (∀ o1 o2 x y, ToLower x = ToLower y → fst (IsSubdomainReserved o1 x m) = Ok true →
     fst (IsSubdomainReserved o2 y m) = Ok true → o1 = o2) ∧
  (∀ email u, fst (GetUserByEmail email m) = Ok u →
     ToLower (us_Email u) = ToLower email ∧ ∃ id, users m !! id = Some u) ∧
  (∀ prefix k, fst (GetAPIKeyByPrefix prefix m) = Ok k →
     ak_Prefix k = prefix ∧ ∃ id, keys m !! id = Some k) ∧
  (∀ domain d, fst (GetCustomDomainByName domain m) = Ok d →
     cd_Domain d = ToLower domain ∧ ∃ id, domains m !! id = Some d) ∧
  (∀ e se t, (length (live_rows m e se t) <= 1)%nat).
Proof.
  intros [I1 I2 I3 I4 _ _ I7]%store_reachable_ok. split_and!.
  - intros o1 o2 x y Hxy. unfold IsSubdomainReserved. rewrite Hxy.
    destruct (subByName m !! ToLower y) as [id|]; simpl; [|done].
    intros [= H1%String.eqb_eq] [= H2%String.eqb_eq]. congruence.
  - intros email u. unfold GetUserByEmail. destruct (usersEmail m !! _) as [id|] eqn:Hi; simpl; [|done].
    apply I1 in Hi as (v & Hv & Hn). rewrite Hv. intros [= <-]. eauto.
  - intros prefix k. unfold GetAPIKeyByPrefix. destruct (keyPrefix m !! _) as [id|] eqn:Hi; simpl; [|done].
    apply I2 in Hi as (v & Hv & Hn). rewrite Hv. intros [= <-]. eauto.
  - intros dom d. unfold GetCustomDomainByName. destruct (domByName m !! _) as [id|] eqn:Hi; simpl; [|done].
    apply I4 in Hi as (v & Hv & Hn). rewrite Hv. intros [= <-]. eauto.
  - intros e se t. by apply live_rows_key.
Qed.

(** Reserving and releasing.  A reservation makes the name the org's, in
    any letter case, and unavailable to everybody; only the owning org can
    release it; after its release the name is nobody's and can be reserved
    again. *)
Theorem reserve_release_cycle m now rnd s r m1 :
  store_reachable m → subs m !! or_id (rs_ID s) "sub" rnd = None →
  ReserveSubdomain now rnd s m = (Ok r, m1) →
  (∀ x, ToLower x = ToLower (rs_Subdomain s) →
     fst (IsSubdomainReserved (rs_OrgID s) x m1) = Ok true ∧
     (∀ now' rnd' s', rs_Subdomain s' = x → ReserveSubdomain now' rnd' s' m1 = (Err ErrConflict, m1))) ∧
  (∀ org, org ≠ rs_OrgID s → ReleaseSubdomain (rs_ID r) org m1 = (Err ErrNotFound, m1)) ∧
  (∃ m2, ReleaseSubdomain (rs_ID r) (rs_OrgID s) m1 = (Ok tt, m2) ∧ subs m2 = subs m ∧
     subByName m2 = subByName m ∧ is_ok (fst (ReserveSubdomain now rnd s m2)) = true).
Proof.
  intros [_ _ I3 _ _ _ _]%store_reachable_ok Hf. unfold ReserveSubdomain.
  destruct (subByName m !! ToLower (rs_Subdomain s)) eqn:Hn; [done|]. intros [= <- <-]. simpl.
  split_and!.
  - intros x Hx. split.
    + unfold IsSubdomainReserved. simpl. rewrite Hx, lookup_insert_eq. simpl.
      rewrite lookup_insert_eq. simpl. by rewrite String.eqb_refl.
    + intros now' rnd' s' ->. by rewrite Hx, lookup_insert_eq.
  - intros org Hne. unfold ReleaseSubdomain. simpl. rewrite lookup_insert_eq. simpl.
    destruct (String.eqb_spec (rs_OrgID s) org); [congruence|done].
  - unfold ReleaseSubdomain. simpl. rewrite lookup_insert_eq. simpl. rewrite String.eqb_refl. simpl.
    eexists. split; [done|]. simpl. rewrite !delete_insert_id by done. split; [done|]. split; [done|].
    by rewrite Hn.
Qed.

Definition ex_sub : ReservedSubdomain :=
  {| rs_ID := ""; rs_OrgID := "org_1"; rs_Subdomain := "Demo"; rs_CreatedAt := 0 |}.
Definition ex_store : MemStore := store_exec NewMemStore (SReserveSubdomain 5 [1; 2] ex_sub).

Lemma ex_store_reachable : store_reachable ex_store.
Proof. apply sr_step; [apply sr_init|reflexivity]. Qed.

Lemma store_names_unique_witness :
  fst (IsSubdomainReserved "org_1" "dEMO" ex_store) = Ok true ∧
  (length (live_rows ex_store "e" "s" "t") <= 1)%nat.
Proof.
  split; [vm_compute; reflexivity|].
  destruct (store_names_unique ex_store ex_store_reachable) as (_ & _ & _ & _ & Hl). apply Hl.
Defined.

Lemma reserve_release_cycle_witness :
  ∃ m2, ReleaseSubdomain "sub_0102" "org_1" ex_store = (Ok tt, m2).
Proof.
  destruct (reserve_release_cycle NewMemStore 5 [1; 2] ex_sub
    {| rs_ID := "sub_0102"; rs_OrgID := "org_1"; rs_Subdomain := "demo"; rs_CreatedAt := 5 |} ex_store)
    as (_ & _ & (m2 & Hm2 & _)).
  - apply sr_init.
  - reflexivity.
  - vm_compute. reflexivity.
  - exists m2. exact Hm2.
Defined.
