(* ===== verification/Billing.v ===== *)
(** Billing (internal/billing): the plan catalog, quota enforcement, webhook
    signatures, the subscription state machine driven by Stripe's webhooks, and
    the metered-usage pipeline, over the in-memory store. *)
From S2P Require Import Prelude GoStrings Wire Authz Store.
From Stdlib Require Import Ascii.

Open Scope Z_scope.

(** * Plans *)
Definition GB : Z := Z.shiftl 1 30.
Definition TB : Z := Z.shiftl 1 40.
Definition PlanFree : string := "free".
Definition PlanPro : string := "pro".
Definition PlanTeam : string := "team".
Definition PlanPAYG : string := "payg".

Record StripePrices := { Monthly : string; Annual : string; Metered_ : string }.
Definition no_prices : StripePrices := {| Monthly := ""; Annual := ""; Metered_ := "" |}.

Record Plan := {
  p_Code : string; p_Name : string;
  p_MaxConcurrentTunnels : Z; p_MaxBandwidthBytesMo : Z; p_MaxRequestsMo : Z;
  p_MaxReservedSubdomains : Z; p_MaxCustomDomains : Z; p_AllowCustomDomains : bool;
  p_AllowTCP : bool; p_AllowTLS : bool; p_AllowUDP : bool; p_RateLimitRPS : Z;
  p_InspectorHistory : Duration; p_MeteredSeats : bool;
  p_PriceMonthlyCents : Z; p_PriceAnnualCents : Z; p_StripePrices : StripePrices;
}.

Definition plan_Limits (p : Plan) : Limits :=
  {| MaxConcurrentTunnels := p_MaxConcurrentTunnels p; MaxBandwidthBytesMo := p_MaxBandwidthBytesMo p;
     MaxRequestsMo := p_MaxRequestsMo p; AllowCustomDomains := p_AllowCustomDomains p;
     AllowReservedSubdomain := p_MaxReservedSubdomains p >? 0; AllowTCP := p_AllowTCP p;
     AllowUDP := p_AllowUDP p; RateLimitRPS := p_RateLimitRPS p |}.

Definition Metered (p : Plan) : bool := String.eqb (p_Code p) PlanPAYG.

Definition plan_free : Plan :=
  {| p_Code := PlanFree; p_Name := "Free"; p_MaxConcurrentTunnels := 3; p_MaxBandwidthBytesMo := 10 * GB;
     p_MaxRequestsMo := 0; p_MaxReservedSubdomains := 1; p_MaxCustomDomains := 0;
     p_AllowCustomDomains := false; p_AllowTCP := true; p_AllowTLS := false; p_AllowUDP := false;
     p_RateLimitRPS := 60; p_InspectorHistory := Hour; p_MeteredSeats := false;
     p_PriceMonthlyCents := 0; p_PriceAnnualCents := 0; p_StripePrices := no_prices |}.
Definition plan_pro : Plan :=
  {| p_Code := PlanPro; p_Name := "Pro"; p_MaxConcurrentTunnels := 10; p_MaxBandwidthBytesMo := 200 * GB;
     p_MaxRequestsMo := 0; p_MaxReservedSubdomains := 10; p_MaxCustomDomains := 5;
     p_AllowCustomDomains := true; p_AllowTCP := true; p_AllowTLS := true; p_AllowUDP := true;
     p_RateLimitRPS := 600; p_InspectorHistory := 30 * 24 * Hour; p_MeteredSeats := false;
     p_PriceMonthlyCents := 300; p_PriceAnnualCents := 2400; p_StripePrices := no_prices |}.
Definition plan_team : Plan :=
  {| p_Code := PlanTeam; p_Name := "Team"; p_MaxConcurrentTunnels := 25; p_MaxBandwidthBytesMo := TB;
     p_MaxRequestsMo := 0; p_MaxReservedSubdomains := 50; p_MaxCustomDomains := 50;
     p_AllowCustomDomains := true; p_AllowTCP := true; p_AllowTLS := true; p_AllowUDP := true;
     p_RateLimitRPS := 2000; p_InspectorHistory := 30 * 24 * Hour; p_MeteredSeats := false;
     p_PriceMonthlyCents := 500; p_PriceAnnualCents := 4440; p_StripePrices := no_prices |}.
Definition plan_payg : Plan :=
  {| p_Code := PlanPAYG; p_Name := "Pay-as-you-go"; p_MaxConcurrentTunnels := 0;
     p_MaxBandwidthBytesMo := 0; p_MaxRequestsMo := 0; p_MaxReservedSubdomains := 1000;
     p_MaxCustomDomains := 1000; p_AllowCustomDomains := true; p_AllowTCP := true; p_AllowTLS := true;
     p_AllowUDP := true; p_RateLimitRPS := 0; p_InspectorHistory := 30 * 24 * Hour;
     p_MeteredSeats := true; p_PriceMonthlyCents := 0; p_PriceAnnualCents := 0;
     p_StripePrices := no_prices |}.

Definition Catalog : gmap string Plan :=
  {[PlanFree := plan_free; PlanPro := plan_pro; PlanTeam := plan_team; PlanPAYG := plan_payg]}.

Definition PlanFor (code : string) : Plan := default plan_free (Catalog !! code).
Definition LimitsForPlan (code : string) : Limits := plan_Limits (PlanFor code).

(** * Configuration *)
Record BillingConfig := {
  bc_SecretKey : string;
  bc_WebhookSecret : string;
  bc_Prices : gmap string StripePrices;
  bc_MeterBandwidth : string;
  bc_MeterRequests : string;
  bc_WebhookTolerance : Duration;
}.

Definition Enabled (c : BillingConfig) : bool := negb (String.eqb (bc_SecretKey c) "").

Definition PriceID (c : BillingConfig) (plan cadence : string) : string :=
  match bc_Prices c !! plan with
  | None => ""
  | Some p => if String.eqb cadence "annual" then Annual p
              else if String.eqb cadence "metered" then Metered_ p else Monthly p
  end.

Definition MetricBandwidth : string := "bandwidth_bytes".
Definition MetricRequests : string := "requests".

Definition MeterEventName (c : BillingConfig) (metric : string) : string :=
  if String.eqb metric MetricBandwidth then bc_MeterBandwidth c
  else if String.eqb metric MetricRequests then bc_MeterRequests c else "".

(** * Calendar
    The day of the month of a proleptic Gregorian date, from the day count
    since 0001-01-01 (days are counted in 400-year cycles starting on March 1,
    year 0, which is day -306). *)
Definition day_of_month (days : Z) : Z :=
  let z := days + 306 in
  let doe := z mod 146097 in
  let yoe := (doe - doe / 1460 + doe / 36524 - doe / 146096) / 365 in
  let doy := doe - (365 * yoe + yoe / 4 - yoe / 100) in
  let mp := (5 * doy + 2) / 153 in
  doy - (153 * mp + 2) / 5 + 1.

Definition monthStart (t : Time) : Time :=
  let day := t / (24 * Hour) in
  (day - (day_of_month day - 1)) * (24 * Hour).

(** [time.Unix]: seconds since 1970-01-01, which is second 62135596800. *)
Definition Unix (sec : Z) : Time := (sec + 62135596800) * Second.

(** * Quota *)
Definition CheckQuota (now : Time) (orgID planCode : string) (m : MemStore) : string * string :=
  let plan := PlanFor planCode in
  if Metered plan then ("", "")
  else
    let limits := plan_Limits plan in
    if (MaxBandwidthBytesMo limits <=? 0) && (MaxRequestsMo limits <=? 0) then ("", "")
    else
      match fst (UsageForOrg now orgID (monthStart now) m) with
      | Err _ => ("", "")
      | Ok usage =>
          if (MaxBandwidthBytesMo limits >? 0) &&
             (add64 (ur_BytesIn usage) (ur_BytesOut usage) >=? MaxBandwidthBytesMo limits)
          then (CodeQuotaBandwidth,
                "monthly bandwidth quota exceeded for the " +:+ p_Name plan +:+ " plan; upgrade to raise it")
          else if (MaxRequestsMo limits >? 0) && (ur_Requests usage >=? MaxRequestsMo limits)
          then (CodeQuotaRequests,
                "monthly request quota exceeded for the " +:+ p_Name plan +:+ " plan; upgrade to raise it")
          else ("", "")
      end.

(** * Webhook signatures
    [hmac secret msg] is HMAC-SHA256. *)
Section signature.
  Context (hmac : string → string → list Z).

(** One "k=v" part of the header, in two pieces at most. *)
Definition sig_part (part : string) : option (string * string) :=
  let '(k, v, found) := Cut (TrimSpace part) "=" in if found then Some (k, v) else None.

Fixpoint sig_parts (parts : list string) (ts : string) (v1s : list string) : string * list string :=
  match parts with
  | [] => (ts, v1s)
  | p :: parts =>
      match sig_part p with
      | None => sig_parts parts ts v1s
      | Some (k, v) =>
          if String.eqb k "t" then sig_parts parts v v1s
          else if String.eqb k "v1" then sig_parts parts ts (v1s ++ [v])
          else sig_parts parts ts v1s
      end
  end.

Definition expected_sig (secret ts payload : string) : string :=
  EncodeToString (hmac secret (ts +:+ "." +:+ payload)).

Definition VerifySignature (now : Time) (payload sigHeader secret : string) (tolerance : Duration) : bool :=
  if String.eqb secret "" then false
  else
    let '(ts, v1s) := sig_parts (Split sigHeader ",") "" [] in
    if String.eqb ts "" || bool_decide (v1s = []) then false
    else match Atoi ts with
         | None => false
         | Some unix =>
             let age := now - Unix unix in
             if (tolerance >? 0) && ((age >? tolerance) || (age <? - tolerance)) then false
             else bool_decide (expected_sig secret ts payload ∈ v1s)
         end.

Definition SignPayload (payload secret : string) (unix : Z) : string :=
  "t=" +:+ Itoa unix +:+ ",v1=" +:+ expected_sig secret (Itoa unix) payload.
End signature.

(** * Events *)
Record CheckoutSessionObject := { co_Customer : string; co_ClientReferenceID : string; co_Metadata : gmap string string }.
Record SubscriptionObject := {
  so_ID : string; so_Customer : string; so_Status : string; so_CancelAtPeriodEnd : bool;
  so_CurrentPeriodEnd : Z; so_Items : list string (* price ids *); so_Metadata : gmap string string;
}.
Record InvoiceObject := { iv_Customer : string }.

(** [Decode] into each object type; [None] is a decoding error. *)
Record Event := {
  ev_ID : string;
  ev_Type : string;
  ev_checkout : option CheckoutSessionObject;
  ev_subscription : option SubscriptionObject;
  ev_invoice : option InvoiceObject;
}.

Definition sub_PriceID (s : SubscriptionObject) : string := match so_Items s with p :: _ => p | [] => "" end.
Definition sub_PeriodEnd (s : SubscriptionObject) : Time :=
  if so_CurrentPeriodEnd s =? 0 then zero_time else Unix (so_CurrentPeriodEnd s).

Inductive BillErr := BStore (e : StoreErr) | BDecode.

Definition lift {A} (c : StM A) : M MemStore BillErr A := λ m,
  match c m with (Ok a, m) => (Ok a, m) | (Err e, m) => (Err (BStore e), m) end.

Definition derivePlan (status plan : string) : string :=
  if String.eqb status "active" || String.eqb status "trialing" then plan
  else if String.eqb status "canceled" || String.eqb status "incomplete_expired" || String.eqb status "unpaid"
  then PlanFree
  else "".

Section service.
  Context `{RangeOrder}.

Definition PlanForPriceID (prices : gmap string StripePrices) (priceID : string) : option string :=
  if String.eqb priceID "" then None
  else fst <$> find_first (λ e, let p := snd e in
                 String.eqb (Monthly p) priceID || String.eqb (Annual p) priceID ||
                 String.eqb (Metered_ p) priceID) (range_map prices).

Definition planForSubscription (c : BillingConfig) (s : SubscriptionObject) : string :=
  match PlanForPriceID (bc_Prices c) (sub_PriceID s) with
  | Some code => code
  | None =>
      let code := default "" (so_Metadata s !! "plan") in
      if negb (String.eqb code "") && bool_decide (is_Some (Catalog !! code)) then code else ""
  end.

Definition resolveOrgID (metadata : gmap string string) (customerID : string) : M MemStore BillErr string :=
  let id := default "" (metadata !! "org_id") in
  if negb (String.eqb id "") then mret id
  else org ← lift (GetOrgByStripeCustomer customerID); mret (og_ID org).

Definition onCheckoutCompleted (e : Event) : M MemStore BillErr unit :=
  match ev_checkout e with
  | None => throw BDecode
  | Some obj =>
      let orgID := if String.eqb (co_ClientReferenceID obj) "" then default "" (co_Metadata obj !! "org_id")
                   else co_ClientReferenceID obj in
      if negb (String.eqb orgID "") && negb (String.eqb (co_Customer obj) "")
      then lift (SetOrgStripeCustomer orgID (co_Customer obj)) else mret tt
  end.

(** Keeping the org's customer in step, when the org exists. *)
Definition sync_customer (orgID customer : string) : M MemStore BillErr unit :=
  if String.eqb customer "" then mret tt
  else
    r ← try (GetOrg orgID);
    match r with
    | Ok org => if negb (String.eqb (og_StripeCustomerID org) customer)
                then lift (SetOrgStripeCustomer orgID customer) else mret tt
    | Err _ => mret tt
    end.

Definition onSubscriptionUpsert (c : BillingConfig) (now : Time) (rnd : list Z) (e : Event)
    : M MemStore BillErr unit :=
  match ev_subscription e with
  | None => throw BDecode
  | Some sub =>
      orgID ← resolveOrgID (so_Metadata sub) (so_Customer sub);
      _ ← sync_customer orgID (so_Customer sub);
      let plan := planForSubscription c sub in
      _ ← lift (UpsertSubscription now rnd
             {| sb_ID := ""; sb_OrgID := orgID; sb_StripeSubID := so_ID sub;
                sb_StripeCustomerID := so_Customer sub; sb_Plan := plan; sb_Status := so_Status sub;
                sb_CurrentPeriodEnd := sub_PeriodEnd sub; sb_CancelAtPeriodEnd := so_CancelAtPeriodEnd sub;
                sb_CreatedAt := zero_time; sb_UpdatedAt := zero_time |});
      let target := derivePlan (so_Status sub) plan in
      if negb (String.eqb target "") then lift (UpdateOrgPlan orgID target) else mret tt
  end.

Definition onSubscriptionDeleted (e : Event) : M MemStore BillErr unit :=
  match ev_subscription e with
  | None => throw BDecode
  | Some sub =>
      orgID ← resolveOrgID (so_Metadata sub) (so_Customer sub);
      _ ← lift (UpdateOrgPlan orgID PlanFree);
      r ← try (DeleteSubscription (so_ID sub));
      match r with
      | Err ErrConflict => throw (BStore ErrConflict)
      | _ => mret tt
      end
  end.

Definition set_status (st : string) (s : Subscription) : Subscription :=
  {| sb_ID := sb_ID s; sb_OrgID := sb_OrgID s; sb_StripeSubID := sb_StripeSubID s;
     sb_StripeCustomerID := sb_StripeCustomerID s; sb_Plan := sb_Plan s; sb_Status := st;
     sb_CurrentPeriodEnd := sb_CurrentPeriodEnd s; sb_CancelAtPeriodEnd := sb_CancelAtPeriodEnd s;
     sb_CreatedAt := sb_CreatedAt s; sb_UpdatedAt := sb_UpdatedAt s |}.

(** The org and subscription of an invoice's customer; an absent one ends the
    handler without an error. *)
Definition invoice_target (inv : InvoiceObject) : M MemStore BillErr (option (Org * Subscription)) :=
  if String.eqb (iv_Customer inv) "" then mret None
  else
    r ← try (GetOrgByStripeCustomer (iv_Customer inv));
    match r with
    | Err ErrNotFound => mret None
    | Err e => throw (BStore e)
    | Ok org =>
        r ← try (GetSubscriptionForOrg (og_ID org));
        match r with
        | Err ErrNotFound => mret None
        | Err e => throw (BStore e)
        | Ok sub => mret (Some (org, sub))
        end
    end.

Definition onInvoicePaid (now : Time) (rnd : list Z) (e : Event) : M MemStore BillErr unit :=
  match ev_invoice e with
  | None => throw BDecode
  | Some inv =>
      target ← invoice_target inv;
      match target with
      | None => mret tt
      | Some (org, sub) =>
          _ ← (if String.eqb (sb_Status sub) "past_due" || String.eqb (sb_Status sub) "unpaid"
               then _ ← lift (UpsertSubscription now rnd (set_status "active" sub)); mret tt
               else mret tt);
          if negb (String.eqb (sb_Plan sub) "") then lift (UpdateOrgPlan (og_ID org) (sb_Plan sub)) else mret tt
      end
  end.

Definition onInvoicePaymentFailed (now : Time) (rnd : list Z) (e : Event) : M MemStore BillErr unit :=
  match ev_invoice e with
  | None => throw BDecode
  | Some inv =>
      target ← invoice_target inv;
      match target with
      | None => mret tt
      | Some (org, sub) => _ ← lift (UpsertSubscription now rnd (set_status "past_due" sub)); mret tt
      end
  end.

Definition dispatch (c : BillingConfig) (now : Time) (rnd : list Z) (e : Event) : M MemStore BillErr unit :=
  let ty := ev_Type e in
  if String.eqb ty "checkout.session.completed" then onCheckoutCompleted e
  else if String.eqb ty "customer.subscription.created" || String.eqb ty "customer.subscription.updated"
  then onSubscriptionUpsert c now rnd e
  else if String.eqb ty "customer.subscription.deleted" then onSubscriptionDeleted e
  else if String.eqb ty "invoice.paid" || String.eqb ty "invoice.payment_succeeded"
  then onInvoicePaid now rnd e
  else if String.eqb ty "invoice.payment_failed" then onInvoicePaymentFailed now rnd e
  else mret tt.

(** * The endpoint: the answer's status code and text.  [parse] is
    [stripe.ParseEvent], the JSON decoding of the body. *)
Section webhook.
  Context (hmac : string → string → list Z) (parse : string → option Event).

Definition HandleWebhook (c : BillingConfig) (now : Time) (rnd : list Z) (body sigHeader : string)
    (m : MemStore) : (Z * string) * MemStore :=
  if String.eqb (bc_WebhookSecret c) "" then ((503, "webhook secret not configured"), m)
  else if negb (VerifySignature hmac now body sigHeader (bc_WebhookSecret c) (bc_WebhookTolerance c))
  then ((400, "invalid signature"), m)
  else match parse body with
       | None => ((400, "invalid event"), m)
       | Some e =>
           match MarkEventProcessed (ev_ID e) m with
           | (Err _, m) => ((500, "dedupe failed"), m)
           | (Ok false, m) => ((200, "duplicate_ignored"), m)
           | (Ok true, m) =>
               match dispatch c now rnd e m with
               | (Err _, m) => ((500, "handler error"), m)
               | (Ok _, m) => ((200, "ok"), m)
               end
           end
       end.
End webhook.

(** * Metering *)
Definition insert_metric (now : Time) (orgID metric : string) (qty : Z) (start end_ : Time)
    : StM Z := λ m,
  if qty <=? 0 then (Ok 0, m)
  else match InsertMeteredUsage now {| mu_ID := 0; mu_OrgID := orgID; mu_Metric := metric; mu_Quantity := qty;
                mu_WindowStart := start; mu_WindowEnd := end_; mu_ReportedAt := None; mu_CreatedAt := 0 |} m with
       | (Err ErrConflict, m) => (Ok 0, m)
       | (Err e, m) => (Err e, m)
       | (Ok _, m) => (Ok 1, m)
       end.

Definition collectForOrg (now : Time) (orgID : string) (start end_ : Time) : StM Z :=
  usage ← UsageForOrg now orgID start;
  n1 ← insert_metric now orgID MetricBandwidth (add64 (ur_BytesIn usage) (ur_BytesOut usage)) start end_;
  n2 ← insert_metric now orgID MetricRequests (ur_Requests usage) start end_;
  mret (n1 + n2).

(** An org's error is logged and the loop goes on. *)
Fixpoint collect_orgs (now : Time) (start end_ : Time) (os : list Org) (m : MemStore) : Z * MemStore :=
  match os with
  | [] => (0, m)
  | o :: os =>
      let '(r, m) := collectForOrg now (og_ID o) start end_ m in
      let '(n, m) := collect_orgs now start end_ os m in
      (match r with Ok k => k + n | Err _ => n end, m)
  end.

Definition CollectMeteredUsage (now : Time) (start end_ : Time) : StM Z := λ m,
  match OrgsByPlan PlanPAYG m with
  | (Err e, m) => (Err e, m)
  | (Ok os, m) => let '(n, m) := collect_orgs now start end_ os m in (Ok n, m)
  end.

Record MeterEvent := { me_name : string; me_customer : string; me_value : Z; me_identifier : string; me_timestamp : Time }.

Definition meterIdentifier (u : MeteredUsage) : string :=
  "mu_" +:+ mu_OrgID u +:+ "_" +:+ mu_Metric u +:+ "_" +:+ Itoa (mu_WindowStart u / Second - 62135596800).

(** One pending row: the event to push, when its metric and customer are known. *)
Definition meter_event (c : BillingConfig) (m : MemStore) (u : MeteredUsage) : option MeterEvent :=
  let name := MeterEventName c (mu_Metric u) in
  if String.eqb name "" then None
  else match orgs m !! mu_OrgID u with
       | None => None
       | Some o => if String.eqb (og_StripeCustomerID o) "" then None
                   else Some {| me_name := name; me_customer := og_StripeCustomerID o; me_value := mu_Quantity u;
                                me_identifier := meterIdentifier u; me_timestamp := mu_WindowEnd u |}
       end.

(** [push] is Stripe's answer to each event; the events pushed successfully,
    with the ids of their rows. *)
Fixpoint push_rows (c : BillingConfig) (push : MeterEvent → bool) (m : MemStore) (us : list MeteredUsage)
    : list (Z * MeterEvent) :=
  match us with
  | [] => []
  | u :: us =>
      match meter_event c m u with
      | None => push_rows c push m us
      | Some e => if push e then (mu_ID u, e) :: push_rows c push m us else push_rows c push m us
      end
  end.

Definition FlushMeteredUsage (c : BillingConfig) (hasStripe : bool) (push : MeterEvent → bool) (now : Time)
    (m : MemStore) : option (list MeterEvent) * MemStore :=
  if negb (Enabled c) || negb hasStripe then (None, m)
  else
    let us := match fst (PendingMeteredUsage 500 m) with Ok l => l | Err _ => [] end in
    let done := push_rows c push m us in
    if bool_decide (done = []) then (Some [], m)
    else (Some done.*2, snd (MarkMeteredUsageReported done.*1 now m)).

(** One tick of [RunMeteringLoop]. *)
Definition metering_tick (c : BillingConfig) (push : MeterEvent → bool) (now : Time) (m : MemStore)
    : list MeterEvent * MemStore :=
  let m := snd (CollectMeteredUsage now (monthStart now) now m) in
  let '(r, m) := FlushMeteredUsage c true push now m in (default [] r, m).
End service.
