(* ===== verification/BillingSafety.v ===== *)
(** What billing guarantees: quotas are enforced exactly, only signed events
    count and each at most once, and subscription events set the org's plan;
    and the sequences of events and ticks after which a customer's plan or bill
    is wrong. *)
From S2P Require Import Prelude GoStrings Wire Authz Store StoreInv Billing.
From Stdlib Require Import Ascii.

Open Scope Z_scope.

(** * The catalog *)
Lemma PlanFor_cases code :
  PlanFor code = plan_free ∨ PlanFor code = plan_pro ∨ PlanFor code = plan_team ∨
  (code = PlanPAYG ∧ PlanFor code = plan_payg).
Proof.
  unfold PlanFor. destruct (Catalog !! code) as [p|] eqn:Hp; [|by left]. simpl. revert Hp.
  unfold Catalog. rewrite !lookup_insert_Some, lookup_singleton_Some. naive_solver.
Qed.

(** * Usage sums *)
Definition traffic (orgID : string) (since : Time) (us : list UsageRecord) : Z :=
  foldr (λ u acc, (if in_period orgID since u then ur_BytesIn u + ur_BytesOut u else 0) + acc) 0 us.

Definition nonneg_usage (u : UsageRecord) : Prop := 0 <= ur_BytesIn u ∧ 0 <= ur_BytesOut u ∧ 0 <= ur_Requests u.

Lemma traffic_nonneg org since us : Forall nonneg_usage us → 0 <= traffic org since us.
Proof.
  induction 1 as [|u us [? [? ?]] _ IH]; simpl; [lia|]. destruct (in_period org since u); lia.
Qed.

(** The aggregation of [UsageForOrg] is exact while it stays below 2^63. *)
Lemma UsageForOrg_sum now org since m :
  Forall nonneg_usage (usage_ m) → traffic org since (usage_ m) < 2 ^ 63 →
  ∃ agg, UsageForOrg now org since m = (Ok agg, m) ∧
    0 <= ur_BytesIn agg ∧ 0 <= ur_BytesOut agg ∧
    ur_BytesIn agg + ur_BytesOut agg = traffic org since (usage_ m).
Proof.
  intros Hpos Hmax. unfold UsageForOrg. eexists. split; [done|].
  match goal with |- context [foldl ?f ?z _] => set (step := f); set (zero := z) end.
  assert (Hgo : ∀ us agg, Forall nonneg_usage us → 0 <= ur_BytesIn agg → 0 <= ur_BytesOut agg →
    ur_BytesIn agg + ur_BytesOut agg + traffic org since us < 2 ^ 63 →
    0 <= ur_BytesIn (foldl step agg us) ∧ 0 <= ur_BytesOut (foldl step agg us) ∧
    ur_BytesIn (foldl step agg us) + ur_BytesOut (foldl step agg us) =
      ur_BytesIn agg + ur_BytesOut agg + traffic org since us).
  { induction us as [|u us IH]; intros agg Hp Hi Ho Hlt; simpl in *; [lia|].
    apply Forall_cons_1 in Hp as [(Hu1 & Hu2 & _) Hp].
    pose proof (traffic_nonneg org since us Hp) as Hn.
    revert Hlt. destruct (in_period org since u) eqn:Hin; intros Hlt.
    - assert (Hs : step agg u = {| ur_OrgID := ur_OrgID agg; ur_TunnelID := ur_TunnelID agg;
          ur_BytesIn := ur_BytesIn agg + ur_BytesIn u; ur_BytesOut := ur_BytesOut agg + ur_BytesOut u;
          ur_Requests := add64 (ur_Requests agg) (ur_Requests u); ur_WindowStart := ur_WindowStart agg;
          ur_WindowEnd := ur_WindowEnd agg |}).
      { unfold step. rewrite Hin. f_equal; apply add64_exact; unfold in64; lia. }
      rewrite Hs. match goal with |- context [foldl step ?a us] => specialize (IH a Hp) end.
      simpl in IH. lia.
    - assert (Hs : step agg u = agg) by (unfold step; by rewrite Hin). rewrite Hs. apply IH; auto; lia. }
  destruct (Hgo (usage_ m) zero Hpos) as (A & B & C); unfold zero in *; simpl in *; lia.
Qed.

(** The bandwidth quota is exact and fails safe.  For every plan code but
    pay-as-you-go, also an unknown one, a bind is refused for bandwidth exactly
    when the org's traffic since the start of the month has reached the plan's
    limit, which is never "unlimited"; nothing else refuses it. *)
Theorem quota_is_exact now org code m :
  code ≠ PlanPAYG → Forall nonneg_usage (usage_ m) → traffic org (monthStart now) (usage_ m) < 2 ^ 63 →
  let limit := MaxBandwidthBytesMo (LimitsForPlan code) in
  0 < limit ∧
  fst (CheckQuota now org code m) =
    (if limit <=? traffic org (monthStart now) (usage_ m) then CodeQuotaBandwidth else "").
Proof.
  intros Hc Hpos Hmax limit.
  destruct (UsageForOrg_sum now org (monthStart now) m Hpos Hmax) as (agg & Hrun & H1 & H2 & Hsum).
  assert (Hl : Metered (PlanFor code) = false ∧ 0 < limit ∧ MaxRequestsMo (plan_Limits (PlanFor code)) = 0).
  { unfold limit, LimitsForPlan. destruct (PlanFor_cases code) as [->|[->|[->|[? _]]]]; done. }
  destruct Hl as (Hm & Hpl & Hr). split; [done|]. unfold CheckQuota. rewrite Hm, Hrun.
  change (MaxBandwidthBytesMo (plan_Limits (PlanFor code))) with limit. rewrite Hr. simpl fst.
  rewrite add64_exact by (unfold in64; lia). rewrite Hsum.
  destruct (Z.leb_spec limit 0); [lia|]. rewrite Z.gtb_ltb, Z.geb_leb.
  destruct (Z.ltb_spec 0 limit); [|lia]. simpl. by destruct (_ <=? _).
Qed.

Section webhook.
  Context `{RangeOrder} (hmac : string → string → list Z) (parse : string → option Event).
  Implicit Types (c : BillingConfig) (m : MemStore).

(** * Signatures *)
Lemma VerifySignature_sound now payload hdr secret tol :
  VerifySignature hmac now payload hdr secret tol = true →
  secret ≠ "" ∧ ∃ ts unix v1s, sig_parts (Split hdr ",") "" [] = (ts, v1s) ∧ Atoi ts = Some unix ∧
    (0 < tol → - tol <= now - Unix unix <= tol) ∧ expected_sig hmac secret ts payload ∈ v1s.
Proof.
  unfold VerifySignature. destruct (String.eqb secret "") eqn:Hs; [done|]. bool_simpl.
  destruct (sig_parts _ _ _) as [ts v1s] eqn:Hp. destruct (_ || _); [done|].
  destruct (Atoi ts) as [unix|] eqn:Ha; [|done].
  destruct ((tol >? 0) && _) eqn:Ht; [done|]. intros Hin. bool_simpl. split; [done|].
  exists ts, unix, v1s. split; [done|]. split; [done|]. split; [|done]. intros Htol.
  rewrite Z.gtb_ltb in Ht. apply andb_false_iff in Ht as [Ht|Ht]; bool_simpl; [lia|].
  rewrite Z.gtb_ltb in *. bool_simpl. lia.
Qed.

(** Only authentic webhooks count.  Unless the webhook secret is
    configured and the signature header carries the MAC of this very body under
    a timestamp within the tolerance, the store is left as it was and the
    answer is not a success. *)
Theorem unsigned_webhook_ignored c now rnd body hdr m ans m' :
  HandleWebhook hmac parse c now rnd body hdr m = (ans, m') →
  (m' = m ∧ fst ans ≠ 200) ∨
  (bc_WebhookSecret c ≠ "" ∧
   ∃ ts unix v1s, sig_parts (Split hdr ",") "" [] = (ts, v1s) ∧ Atoi ts = Some unix ∧
     (0 < bc_WebhookTolerance c → - bc_WebhookTolerance c <= now - Unix unix <= bc_WebhookTolerance c) ∧
     expected_sig hmac (bc_WebhookSecret c) ts body ∈ v1s).
Proof.
  unfold HandleWebhook. destruct (String.eqb (bc_WebhookSecret c) "") eqn:Hs.
  { intros [= <- <-]. by left. }
  destruct (VerifySignature _ _ _ _ _ _) eqn:Hv; simpl.
  - intros _. right. by apply VerifySignature_sound in Hv.
  - intros [= <- <-]. by left.
Qed.

(** * At most once *)
Definition keeps_events {E A} (f : M MemStore E A) : Prop := ∀ m, events (snd (f m)) = events m.

Lemma keeps_bind {E A B} (f : M MemStore E A) (k : A → M MemStore E B) :
  keeps_events f → (∀ a, keeps_events (k a)) → keeps_events (f ≫= k).
Proof.
  intros Hf Hk m. unfold mbind, M_bind. specialize (Hf m).
  destruct (f m) as [[a|e] m1]; simpl in *; [|done]. by rewrite Hk.
Qed.
Lemma keeps_ret {E A} (a : A) : keeps_events (mret a : M MemStore E A).
Proof. done. Qed.
Lemma keeps_throw {E A} (e : E) : keeps_events (throw e : M MemStore E A).
Proof. done. Qed.
Lemma keeps_lift {A} (f : StM A) : keeps_events f → keeps_events (lift f).
Proof. intros Hf m. unfold lift. specialize (Hf m). by destruct (f m) as [[?|?] ?]. Qed.
Lemma keeps_try {E A} (f : StM A) : keeps_events f → keeps_events (try f : M MemStore E _).
Proof. intros Hf m. unfold try. specialize (Hf m). by destruct (f m). Qed.
Lemma keeps_update_org id f : keeps_events (update_org id f).
Proof. intros m. unfold update_org. by destruct (orgs m !! id). Qed.
Lemma keeps_upsert now rnd s : keeps_events (UpsertSubscription now rnd s).
Proof. done. Qed.
Lemma keeps_delete id : keeps_events (DeleteSubscription id).
Proof. intros m. unfold DeleteSubscription. by destruct (subsByStripe m !! id). Qed.
Lemma keeps_customer id : keeps_events (GetOrgByStripeCustomer id).
Proof.
  intros m. unfold GetOrgByStripeCustomer. destruct (String.eqb id ""); [done|].
  by destruct (find_first _ _).
Qed.
Lemma keeps_get_org id : keeps_events (GetOrg id).
Proof. intros m. unfold GetOrg. by destruct (orgs m !! id). Qed.
Lemma keeps_get_sub id : keeps_events (GetSubscriptionForOrg id).
Proof. intros m. unfold GetSubscriptionForOrg. by destruct (subsByOrg m !! id). Qed.

Create HintDb keeps.
#[local] Hint Resolve keeps_ret keeps_throw keeps_lift keeps_try keeps_update_org keeps_upsert
  keeps_delete keeps_customer keeps_get_org keeps_get_sub : keeps.

Ltac keeps := repeat first
  [ progress (auto with keeps) | apply keeps_bind; [|intros ?] | case_match ].

Lemma keeps_resolve md cust : keeps_events (resolveOrgID md cust).
Proof. unfold resolveOrgID. keeps. Qed.
Lemma keeps_sync org cust : keeps_events (sync_customer org cust).
Proof. unfold sync_customer, SetOrgStripeCustomer. keeps. Qed.
Lemma keeps_target inv : keeps_events (invoice_target inv).
Proof. unfold invoice_target. keeps. Qed.
#[local] Hint Resolve keeps_resolve keeps_sync keeps_target : keeps.

Lemma keeps_dispatch c now rnd e : keeps_events (dispatch c now rnd e).
Proof.
  unfold dispatch, onCheckoutCompleted, onSubscriptionUpsert, onSubscriptionDeleted, onInvoicePaid,
    onInvoicePaymentFailed, SetOrgStripeCustomer, UpdateOrgPlan. keeps.
Qed.

(** An event once marked stays marked, whatever webhooks come in. *)
Definition marked (id : string) (m : MemStore) : Prop := events m !! id = Some true.
Lemma marked_webhook id c t r b h m : marked id m → marked id (snd (HandleWebhook hmac parse c t r b h m)).
Proof.
  unfold marked. intros Hm0. unfold HandleWebhook. destruct (String.eqb _ _); [done|].
  destruct (negb _); [done|]. destruct (parse b) as [e0|]; [|done]. unfold MarkEventProcessed.
  pose proof (keeps_dispatch c t r e0) as Hk.
  destruct (String.eqb (ev_ID e0) "").
  - specialize (Hk m). destruct (dispatch c t r e0 m) as [[?|?] ?]; simpl in *; by rewrite Hk.
  - destruct (default false (events m !! ev_ID e0)); [done|].
    match goal with |- context [dispatch c t r e0 ?mm] => specialize (Hk mm) end.
    destruct (dispatch c t r e0 _) as [[?|?] ?]; simpl in *; rewrite Hk;
      rewrite lookup_insert_Some; destruct (decide (ev_ID e0 = id)); tauto.
Qed.
Lemma taken_marked c e now rnd body hdr m ans m1 : parse body = Some e → ev_ID e ≠ "" →
  VerifySignature hmac now body hdr (bc_WebhookSecret c) (bc_WebhookTolerance c) = true →
  HandleWebhook hmac parse c now rnd body hdr m = (ans, m1) → marked (ev_ID e) m1.
Proof.
  intros Hp Hid Hv Hrun. pose proof (proj1 (VerifySignature_sound _ _ _ _ _ Hv)) as Hs. apply String.eqb_neq in Hs, Hid.
  unfold HandleWebhook in Hrun. rewrite Hs, Hv, Hp in Hrun. simpl in Hrun. unfold MarkEventProcessed in Hrun. rewrite Hid in Hrun.
  unfold marked. destruct (default false (events m !! ev_ID e)) eqn:Hd.
  - simplify_eq. destruct (events m1 !! ev_ID e) as [[]|]; done.
  - match type of Hrun with context [dispatch c now rnd e ?mm] => pose proof (keeps_dispatch c now rnd e mm) as Hk end.
    destruct (dispatch c now rnd e _) as [[?|?] ?]; simplify_eq/=; rewrite Hk; apply lookup_insert_eq.
Qed.

(** C35: every event is handled at most once.  Once an authentic delivery of an
    identified event has been taken, whatever its outcome, every later authentic
    delivery with that event's id, whatever else its body says and however it is
    signed, is answered "duplicate_ignored" and leaves the store unchanged, however
    many other webhooks came in between.  In particular an event whose handler failed,
    answered 500 "so Stripe retries", is lost: its retries do nothing. *)
Theorem webhook_at_most_once c e now rnd body hdr m ans m1 later m2 e' now' rnd' body' hdr' :
  parse body = Some e → ev_ID e ≠ "" →
  VerifySignature hmac now body hdr (bc_WebhookSecret c) (bc_WebhookTolerance c) = true →
  HandleWebhook hmac parse c now rnd body hdr m = (ans, m1) →
  m2 = foldl (λ m '(t, r, b, h), snd (HandleWebhook hmac parse c t r b h m)) m1 later →
  parse body' = Some e' → ev_ID e' = ev_ID e →
  VerifySignature hmac now' body' hdr' (bc_WebhookSecret c) (bc_WebhookTolerance c) = true →
  HandleWebhook hmac parse c now' rnd' body' hdr' m2 = ((200, "duplicate_ignored"), m2).
Proof.
  intros Hp Hid Hv Hrun -> Hp' Hid' Hv'. pose proof (taken_marked _ _ _ _ _ _ _ _ _ Hp Hid Hv Hrun) as H1. clear Hrun.
  set (m2 := foldl _ _ _).
  assert (H2 : marked (ev_ID e) m2).
  { subst m2. revert m1 H1. induction later as [|[[[t r] b] h] later IH]; intros m1 H1; [done|].
    simpl. apply IH. by apply marked_webhook. }
  pose proof (proj1 (VerifySignature_sound _ _ _ _ _ Hv')) as Hs. apply String.eqb_neq in Hs, Hid.
  unfold HandleWebhook. rewrite Hs, Hv', Hp'. simpl. unfold MarkEventProcessed. by rewrite Hid', Hid, H2.
Qed.
End webhook.

(** * Plans follow subscriptions *)
Section plans.
  Context `{RangeOrder}.
  Implicit Types (c : BillingConfig) (m : MemStore).

(** The customer link never changes another field of the org, nor another org. *)
Lemma sync_customer_spec org o cust m :
  orgs m !! org = Some o →
  ∃ o', sync_customer org cust m = (Ok tt, set_orgs (<[org := o']> (orgs m)) m) ∧
    og_Plan o' = og_Plan o ∧ (cust ≠ "" → og_StripeCustomerID o' = cust).
Proof.
  intros Ho. assert (Hid : set_orgs (<[org := o]> (orgs m)) m = m).
  { rewrite insert_id by done. by destruct m. }
  unfold sync_customer. destruct (String.eqb_spec cust "") as [->|Hc].
  { exists o. rewrite Hid. done. }
  unfold try, mbind, M_bind, GetOrg. rewrite Ho.
  destruct (String.eqb_spec (og_StripeCustomerID o) cust) as [He|He]; simpl.
  - exists o. rewrite Hid. done.
  - unfold lift, SetOrgStripeCustomer, update_org. rewrite Ho. by eexists.
Qed.

(** A created or updated subscription of an existing org succeeds, records
    the subscription with its status, links the customer, and sets the org's
    plan to what the status and price entitle it to: the subscribed plan when
    active or trialing, Free when it ended unpaid, the old plan otherwise; it
    touches no other org. *)
Theorem subscription_event_sets_plan c now rnd e sub org o m :
  ev_Type e = "customer.subscription.created" ∨ ev_Type e = "customer.subscription.updated" →
  ev_subscription e = Some sub → so_Metadata sub !! "org_id" = Some org → org ≠ "" →
  orgs m !! org = Some o →
  let target := derivePlan (so_Status sub) (planForSubscription c sub) in
  ∃ m' o', dispatch c now rnd e m = (Ok tt, m') ∧ orgs m' !! org = Some o' ∧
    og_Plan o' = (if String.eqb target "" then og_Plan o else target) ∧
    (so_Customer sub ≠ "" → og_StripeCustomerID o' = so_Customer sub) ∧
    (∀ x, x ≠ org → orgs m' !! x = orgs m !! x) ∧
    (∃ s, subsByOrg m' !! org = Some s ∧ sb_StripeSubID s = so_ID sub ∧ sb_Status s = so_Status sub).
Proof.
  intros Hty Hsub Hmd Hne Ho target.
  assert (Hd : dispatch c now rnd e = onSubscriptionUpsert c now rnd e).
  { unfold dispatch. by destruct Hty as [-> | ->]. }
  rewrite Hd. unfold onSubscriptionUpsert. rewrite Hsub.
  destruct (sync_customer_spec org o (so_Customer sub) m Ho) as (o1 & Hsync & Hplan & Hcust).
  assert (Hres : resolveOrgID (so_Metadata sub) (so_Customer sub) m = (Ok org, m)).
  { unfold resolveOrgID. rewrite Hmd. simpl. by apply String.eqb_neq in Hne as ->. }
  rewrite (bind_ok _ _ _ _ _ Hres), (bind_ok _ _ _ _ _ Hsync).
  set (m1 := set_orgs _ m).
  match goal with |- context [lift (UpsertSubscription now rnd ?s)] =>
    destruct (UpsertSubscription now rnd s m1) as [r m2] eqn:Hup end.
  assert (Hm2 : ∃ s, r = Ok s ∧ orgs m2 = orgs m1 ∧ subsByOrg m2 !! org = Some s ∧
                     sb_StripeSubID s = so_ID sub ∧ sb_Status s = so_Status sub).
  { unfold UpsertSubscription in Hup. simplify_eq/=. eexists. split; [done|]. split; [done|].
    split; [apply lookup_insert_eq|]. done. }
  destruct Hm2 as (s & -> & Horgs & Hs & Hs1 & Hs2).
  assert (Hlift : lift (UpsertSubscription now rnd _) m1 = (Ok s, m2)) by (unfold lift; by rewrite Hup).
  rewrite (bind_ok _ _ _ _ _ Hlift). fold target.
  assert (Hlk : orgs m2 !! org = Some o1) by (rewrite Horgs; apply lookup_insert_eq).
  assert (Hoth : ∀ x, x ≠ org → orgs m2 !! x = orgs m !! x).
  { intros x Hx. rewrite Horgs. simpl. by rewrite lookup_insert_ne. }
  destruct (String.eqb target "") eqn:Ht; simpl.
  - exists m2, o1. split; [done|]. split; [done|]. split; [done|]. split; [done|]. split; [done|]. eauto.
  - unfold lift, UpdateOrgPlan, update_org. rewrite Hlk. eexists _, _. split; [done|]. simpl.
    split; [apply lookup_insert_eq|]. split; [done|]. split; [done|].
    split; [intros x Hx; by rewrite lookup_insert_ne, Hoth|]. eauto.
Qed.
End plans.

(** * Concrete runs *)
#[local] Existing Instance sorted_range.

Definition ex_hmac (secret msg : string) : list Z := [Z.of_nat (String.length msg)].
Definition ex_bcfg : BillingConfig :=
  {| bc_SecretKey := "sk"; bc_WebhookSecret := "whsec"; bc_Prices := {["pro" := {| Monthly := "price_pro";
     Annual := ""; Metered_ := "" |}]}; bc_MeterBandwidth := "bw"; bc_MeterRequests := "";
     bc_WebhookTolerance := 0 |}.
Definition ex_org (id plan customer : string) : Org :=
  {| og_ID := id; og_Name := ""; og_Plan := plan; og_StripeCustomerID := customer; og_CreatedAt := 1;
     og_PlanExpiresAt := None |}.
Definition ex_month : Time := Unix 1709164800. (* 2024-02-29 *)
Definition ex_sub_obj (id customer status : string) : SubscriptionObject :=
  {| so_ID := id; so_Customer := customer; so_Status := status; so_CancelAtPeriodEnd := false;
     so_CurrentPeriodEnd := 0; so_Items := ["price_pro"]; so_Metadata := ∅ |}.
Definition ex_event (id ty : string) (co : option CheckoutSessionObject) (su : option SubscriptionObject) : Event :=
  {| ev_ID := id; ev_Type := ty; ev_checkout := co; ev_subscription := su; ev_invoice := None |}.

(** A JSON body of these examples is the name of an event. *)
Definition ex_parse (body : string) : option Event :=
  if String.eqb body "created" then
    Some (ex_event "evt_1" "customer.subscription.created" None (Some (ex_sub_obj "sub_A" "cus_1" "active")))
  else if String.eqb body "created, pending_webhooks 0" then
    Some (ex_event "evt_1" "customer.subscription.created" None (Some (ex_sub_obj "sub_A" "cus_1" "past_due")))
  else if String.eqb body "checkout" then
    Some (ex_event "evt_2" "checkout.session.completed"
            (Some {| co_Customer := "cus_1"; co_ClientReferenceID := "org_1"; co_Metadata := ∅ |}) None)
  else if String.eqb body "created2" then
    Some (ex_event "evt_3" "customer.subscription.created" None (Some (ex_sub_obj "sub_B" "cus_1" "active")))
  else if String.eqb body "deletedA" then
    Some (ex_event "evt_4" "customer.subscription.deleted" None (Some (ex_sub_obj "sub_A" "cus_1" "canceled")))
  else None.
Definition ex_sign (body : string) : string := SignPayload ex_hmac body "whsec" 1709164800.
Definition deliver (body : string) (m : MemStore) : (Z * string) * MemStore :=
  HandleWebhook ex_hmac ex_parse ex_bcfg ex_month [7] body (ex_sign body) m.

Definition ex_orgs (customer : string) : MemStore :=
  set_orgs {["org_1" := ex_org "org_1" "free" customer]} NewMemStore.

(** An event that arrives too early is lost for good.  A subscription
    event whose customer is not linked to its org yet is answered 500; after the
    checkout event has linked it, Stripe's retry of the first event is answered
    200 "duplicate_ignored", and the paying org stays on Free. *)
Theorem early_subscription_event_is_lost :
  let '(a1, m1) := deliver "created" (ex_orgs "") in
  let '(a2, m2) := deliver "checkout" m1 in
  let '(a3, m3) := deliver "created" m2 in
  a1 = (500, "handler error") ∧ a2 = (200, "ok") ∧ a3 = (200, "duplicate_ignored") ∧
  og_Plan <$> orgs m3 !! "org_1" = Some "free" ∧
  og_StripeCustomerID <$> orgs m3 !! "org_1" = Some "cus_1" ∧
  subsByOrg m3 !! "org_1" = None.
Proof. vm_compute. repeat split. Qed.

(** The end of an old subscription cancels the new one.  After an org
    moved from subscription A to an active subscription B, the deletion event
    of A puts the org on Free and deletes the row of B. *)
Theorem deleting_old_subscription_downgrades :
  let '(a1, m1) := deliver "created" (ex_orgs "cus_1") in
  let '(a2, m2) := deliver "created2" m1 in
  let '(a3, m3) := deliver "deletedA" m2 in
  a1 = (200, "ok") ∧ a2 = (200, "ok") ∧ a3 = (200, "ok") ∧
  og_Plan <$> orgs m2 !! "org_1" = Some "pro" ∧ sb_StripeSubID <$> subsByOrg m2 !! "org_1" = Some "sub_B" ∧
  og_Plan <$> orgs m3 !! "org_1" = Some "free" ∧ subsByOrg m3 !! "org_1" = None.
Proof. vm_compute. repeat split. Qed.

Definition ex_usage_rec (bytes : Z) (at_ : Time) : UsageRecord :=
  {| ur_OrgID := "org_1"; ur_TunnelID := "t"; ur_BytesIn := bytes; ur_BytesOut := 0; ur_Requests := 1;
     ur_WindowStart := at_ - Minute; ur_WindowEnd := at_ |}.
Definition payg_store : MemStore := set_orgs {["org_1" := ex_org "org_1" "payg" "cus_1"]} NewMemStore.

(** Pay-as-you-go bills only the usage up to the month's first metering
    tick.  After a tick has collected 1 GB, 99 GB more in the same month are
    never pushed to Stripe by later ticks, since the month's row already
    exists. *)
Theorem metering_bills_first_tick_only :
  let t0 := monthStart ex_month in
  let tick t m := metering_tick ex_bcfg (λ _, true) t m in
  let use b t m := snd (UpsertUsage (ex_usage_rec b t) m) in
  let '(e1, m1) := tick (t0 + Hour) (use GB (t0 + 30 * Minute) payg_store) in
  let '(e2, m2) := tick (t0 + 2 * Hour) (use (99 * GB) (t0 + 90 * Minute) m1) in
  let '(e3, m3) := tick (t0 + 20 * 24 * Hour) m2 in
  map me_value (e1 ++ e2 ++ e3) = [GB] ∧
  (ur_BytesIn <$> match fst (UsageForOrg 0 "org_1" t0 m3) with Ok u => Some u | Err _ => None end)
    = Some (100 * GB).
Proof. vm_compute. repeat split. Qed.

Lemma quota_is_exact_witness :
  let m := snd (UpsertUsage (ex_usage_rec (10 * GB) ex_month) NewMemStore) in
  fst (CheckQuota ex_month "org_1" "no-such-plan" m) = CodeQuotaBandwidth.
Proof.
  intros m. destruct (quota_is_exact ex_month "org_1" "no-such-plan" m) as [_ Hq].
  - done.
  - constructor; [|constructor]. vm_compute. repeat split; congruence.
  - vm_compute. reflexivity.
  - rewrite Hq. vm_compute. reflexivity.
Defined.

Lemma unsigned_webhook_ignored_witness :
  let r := HandleWebhook ex_hmac ex_parse ex_bcfg ex_month [7] "checkout" "t=1,v1=00" (ex_orgs "") in
  fst (fst r) = 400 ∧ snd r = ex_orgs "".
Proof.
  intros r. split; [vm_compute; reflexivity|].
  destruct (unsigned_webhook_ignored ex_hmac ex_parse ex_bcfg ex_month [7] "checkout" "t=1,v1=00"
    (ex_orgs "") (fst r) (snd r)) as [[Hm _]|(_ & ts & unix & v1s & Hp & _ & _ & Hin)].
  - apply surjective_pairing.
  - exact Hm.
  - vm_compute in Hp. injection Hp as <- <-. apply list_elem_of_singleton in Hin.
    vm_compute in Hin. congruence.
Defined.

Lemma webhook_at_most_once_witness :
  let m1 := snd (deliver "created" (ex_orgs "")) in
  let m2 := snd (deliver "checkout" m1) in
  deliver "created, pending_webhooks 0" m2 = ((200, "duplicate_ignored"), m2).
Proof.
  intros m1 m2.
  apply (webhook_at_most_once ex_hmac ex_parse ex_bcfg
    (ex_event "evt_1" "customer.subscription.created" None (Some (ex_sub_obj "sub_A" "cus_1" "active")))
    ex_month [7] "created" (ex_sign "created") (ex_orgs "") (fst (deliver "created" (ex_orgs ""))) m1
    [(ex_month, [7], "checkout", ex_sign "checkout")] m2
    (ex_event "evt_1" "customer.subscription.created" None (Some (ex_sub_obj "sub_A" "cus_1" "past_due")))).
  - reflexivity.
  - done.
  - vm_compute; reflexivity.
  - apply surjective_pairing.
  - reflexivity.
  - reflexivity.
  - reflexivity.
  - vm_compute; reflexivity.
Defined.

Lemma subscription_event_sets_plan_witness :
  let sub := {| so_ID := "sub_A"; so_Customer := "cus_1"; so_Status := "trialing";
                so_CancelAtPeriodEnd := false; so_CurrentPeriodEnd := 0; so_Items := ["price_pro"];
                so_Metadata := {["org_id" := "org_1"]} |} in
  ∃ m' o', dispatch ex_bcfg 5 [1] (ex_event "e" "customer.subscription.created" None (Some sub)) (ex_orgs "")
             = (Ok tt, m') ∧ orgs m' !! "org_1" = Some o' ∧ og_Plan o' = "pro".
Proof.
  intros sub.
  destruct (subscription_event_sets_plan ex_bcfg 5 [1]
    (ex_event "e" "customer.subscription.created" None (Some sub)) sub "org_1" (ex_org "org_1" "free" "")
    (ex_orgs "")) as (m' & o' & Hd & Ho & Hp & _).
  - by left.
  - reflexivity.
  - reflexivity.
  - done.
  - reflexivity.
  - exists m', o'. split; [exact Hd|]. split; [exact Ho|]. rewrite Hp. vm_compute. reflexivity.
Defined.
