(* ===== verification/Entitle.v ===== *)
(** The control plane's entitlements: API keys (internal/api/auth/apikey.go,
    auth.go), the bind decision (internal/api/entitlements.go) and the edge's
    caching client of it (internal/entitlerpc). *)
From S2P Require Import Prelude GoStrings Wire Authz Store StoreInv Billing BillingSafety Edge.
From Stdlib Require Import Ascii.

Open Scope Z_scope.

(** * API keys *)
Definition keyEnv : string := "tq_live_".

Record GeneratedKey := { gk_Full : string; gk_Prefix : string; gk_Hash : string }.

Definition KeyPrefix (raw : string) : option string :=
  if negb (HasPrefix raw keyEnv) then None
  else
    let rest := drop_string (String.length keyEnv) raw in
    match IndexByte rest "_" with
    | None => None
    | Some i => Some (keyEnv +:+ take_string i rest)
    end.

(** [base64.RawStdEncoding]: no padding. *)
Definition b64_char (v : Z) : ascii :=
  match String.get (Z.to_nat (v mod 64)) "ABCDEFGHIJKLMNOPQRSTUVWXYZabcdefghijklmnopqrstuvwxyz0123456789+/" with
  | Some a => a | None => "A"%char end.
Fixpoint RawEncode (b : list Z) : string :=
  match b with
  | [] => ""
  | [x] => String (b64_char (x / 4)) (String (b64_char (x mod 4 * 16)) "")
  | [x; y] => String (b64_char (x / 4)) (String (b64_char (x mod 4 * 16 + y / 16))
                (String (b64_char (y mod 16 * 4)) ""))
  | x :: y :: z :: b =>
      String (b64_char (x / 4)) (String (b64_char (x mod 4 * 16 + y / 16))
        (String (b64_char (y mod 16 * 4 + z / 64)) (String (b64_char z) (RawEncode b))))
  end.
Fixpoint raw_groups (s : string) : option (list Z) :=
  match s with
  | EmptyString => Some []
  | String a (String b EmptyString) =>
      x ← b64_val a; y ← b64_val b; Some [x * 4 + y / 16]
  | String a (String b (String c EmptyString)) =>
      x ← b64_val a; y ← b64_val b; z ← b64_val c; Some [x * 4 + y / 16; y mod 16 * 16 + z / 4]
  | String a (String b (String c (String d r))) =>
      x ← b64_val a; y ← b64_val b; z ← b64_val c; w ← b64_val d;
      rest ← raw_groups r;
      Some (x * 4 + y / 16 :: y mod 16 * 16 + z / 4 :: z mod 4 * 64 + w :: rest)
  | _ => None
  end.
Definition RawDecode (s : string) : option (list Z) := raw_groups (b64_strip s).

(** [fmt.Sscanf] of a literal and an unsigned decimal of at most [max]. *)
Fixpoint scan_digits (s : string) : string * string :=
  match s with
  | EmptyString => ("", "")
  | String a r => match digit_val a with
                  | Some _ => let '(d, rest) := scan_digits r in (String a d, rest)
                  | None => ("", s)
                  end
  end.
(** The verb skips blanks before the number. *)
Fixpoint skip_space (s : string) : string :=
  match s with
  | String a r => if Ascii.eqb a " " || Ascii.eqb a "009" then skip_space r else s
  | EmptyString => s
  end.
Definition scan_field (lit : string) (max : Z) (s : string) : option (Z * string) :=
  if negb (HasPrefix s lit) then None
  else
    let '(d, rest) := scan_digits (skip_space (drop_string (String.length lit) s)) in
    n ← parse_uint d; if n <=? max then Some (n, rest) else None.

Definition argonTime : Z := 1.
Definition argonMemory : Z := 64 * 1024.
Definition argonThreads : Z := 4.
Definition argonKeyLen : Z := 32.

Inductive AuthErr := ErrUnauthorized | ErrKeyRevoked.

Section keys.
  (** golang.org/x/crypto/argon2: key, salt, time, memory, threads, length. *)
  Context (IDKey : string → list Z → Z → Z → Z → Z → list Z).

Definition HashKey (salt : list Z) (full : string) : string :=
  "$argon2id$v=19$m=" +:+ Itoa argonMemory +:+ ",t=" +:+ Itoa argonTime +:+ ",p=" +:+ Itoa argonThreads +:+
  "$" +:+ RawEncode salt +:+ "$" +:+ RawEncode (IDKey full salt argonTime argonMemory argonThreads argonKeyLen).

Definition GenerateAPIKey (pb sb salt : list Z) : GeneratedKey :=
  let prefix := keyEnv +:+ EncodeToString pb in
  let full := prefix +:+ "_" +:+ EncodeToString sb in
  {| gk_Full := full; gk_Prefix := prefix; gk_Hash := HashKey salt full |}.

Definition VerifyKey (full encoded : string) : bool :=
  match Split encoded "$" with
  | [_; alg; _; params; salt64; hash64] =>
      if negb (String.eqb alg "argon2id") then false
      else match
          '(memory, r) ← scan_field "m=" (2 ^ 32 - 1) params;
          '(tCost, r) ← scan_field ",t=" (2 ^ 32 - 1) r;
          '(threads, _) ← scan_field ",p=" 255 r;
          salt ← RawDecode salt64;
          want ← RawDecode hash64;
          Some (memory, tCost, threads, salt, want)
        with
        | None => false
        | Some (memory, tCost, threads, salt, want) =>
            bool_decide (IDKey full salt tCost memory threads (Z.of_nat (length want)) = want)
        end
  | _ => false
  end.

Definition AuthenticateAPIKey (now : Time) (raw : string) : M MemStore AuthErr APIKey := λ m,
  match KeyPrefix raw with
  | None => (Err ErrUnauthorized, m)
  | Some prefix =>
      match GetAPIKeyByPrefix prefix m with
      | (Err _, m) => (Err ErrUnauthorized, m)
      | (Ok k, m) =>
          if bool_decide (is_Some (ak_RevokedAt k)) then (Err ErrKeyRevoked, m)
          else if negb (VerifyKey raw (ak_Hash k)) then (Err ErrUnauthorized, m)
          else (Ok k, snd (TouchAPIKey (ak_ID k) now m))
      end
  end.

(** * Entitlements *)
Definition effectivePlan (now : Time) (o : Org) : string :=
  match og_PlanExpiresAt o with
  | Some t => if After now t then PlanFree else if String.eqb (og_Plan o) "" then PlanFree else og_Plan o
  | None => if String.eqb (og_Plan o) "" then PlanFree else og_Plan o
  end.

Definition ent_Authenticate (now : Time) (apiKey : string) : M MemStore unit (string * string) := λ m,
  match AuthenticateAPIKey now apiKey m with
  | (Err _, m) => (Err tt, m)
  | (Ok k, m) =>
      match GetOrg (ak_OrgID k) m with
      | (Err _, m) => (Err tt, m)
      | (Ok org, m) => (Ok (og_ID org, effectivePlan now org), m)
      end
  end.

Definition deny (code msg : string) : Decision :=
  {| Allow := false; d_AccountID := ""; d_Plan := ""; d_Limits := no_limits; AssignedSubdomain := "";
     ErrorCode := code; ErrorMessage := msg |}.
Definition denyWith (dec : Decision) (code msg : string) : Decision :=
  {| Allow := false; d_AccountID := d_AccountID dec; d_Plan := d_Plan dec; d_Limits := d_Limits dec;
     AssignedSubdomain := AssignedSubdomain dec; ErrorCode := code; ErrorMessage := msg |}.
Definition assign (dec : Decision) (sub : string) : Decision :=
  {| Allow := Allow dec; d_AccountID := d_AccountID dec; d_Plan := d_Plan dec; d_Limits := d_Limits dec;
     AssignedSubdomain := sub; ErrorCode := ErrorCode dec; ErrorMessage := ErrorMessage dec |}.
Definition allow (dec : Decision) : Decision :=
  {| Allow := true; d_AccountID := d_AccountID dec; d_Plan := d_Plan dec; d_Limits := d_Limits dec;
     AssignedSubdomain := AssignedSubdomain dec; ErrorCode := ErrorCode dec; ErrorMessage := ErrorMessage dec |}.

(** The protocol gate. *)
Definition proto_gate (ty : string) (plan : Plan) : option string :=
  if String.eqb ty "udp" then (if p_AllowUDP plan then None else Some "UDP tunnels require a paid plan")
  else if String.eqb ty "tls" then (if p_AllowTLS plan then None else Some "TLS tunnels require a paid plan")
  else if String.eqb ty "tcp" then (if p_AllowTCP plan then None else Some "TCP tunnels are not allowed on this plan")
  else None.

(** The custom-domain gate: an error code and text. *)
Definition domain_gate (accountID host : string) (plan : Plan) (m : MemStore) : option (string * string) :=
  if String.eqb host "" then None
  else if negb (p_AllowCustomDomains plan) then Some (CodePlanForbids, "custom domains require a paid plan")
  else match fst (GetCustomDomainByName host m) with
       | Ok d => if String.eqb (cd_OrgID d) accountID && bool_decide (is_Some (cd_VerifiedAt d)) then None
                 else Some (CodeDomainUnverified, "custom domain not verified")
       | Err _ => Some (CodeDomainUnverified, "custom domain not verified")
       end.

(** [quota]: whether billing's checker is wired in. *)
Definition ent_CheckBind (quota : bool) (draw : list Z) (now : Time) (req : BindRequest) : M MemStore unit Decision := λ m,
  match ent_Authenticate now (Authz.APIKey req) m with
  | (Err _, m) => (Ok (deny CodeAuthInvalid "invalid api key"), m)
  | (Ok (accountID, planCode), m) =>
      let plan := PlanFor planCode in
      let dec := {| Allow := false; d_AccountID := accountID; d_Plan := planCode; d_Limits := plan_Limits plan;
                    AssignedSubdomain := ""; ErrorCode := ""; ErrorMessage := "" |} in
      match proto_gate (Type_ req) plan with
      | Some msg => (Ok (denyWith dec CodePlanForbids msg), m)
      | None =>
        match domain_gate accountID (CustomHost req) plan m with
        | Some (code, msg) => (Ok (denyWith dec code msg), m)
        | None =>
          let sub_check :=
            if negb (String.eqb (Subdomain req) "") then
              match fst (IsSubdomainReserved accountID (Subdomain req) m) with
              | Err _ => Err (deny CodeInternal "subdomain lookup failed")
              | Ok false => Err (denyWith dec CodeSubdomainForbidden "subdomain is not reserved by your account")
              | Ok true => Ok dec
              end
            else if String.eqb (CustomHost req) "" then Ok (assign dec (randSubdomain draw)) else Ok dec in
          match sub_check with
          | Err d => (Ok d, m)
          | Ok dec =>
            let '(code, msg) := if quota then CheckQuota now accountID planCode m else ("", "") in
            if negb (String.eqb code "") then (Ok (denyWith dec code msg), m) else (Ok (allow dec), m)
          end
        end
      end
  end.

Definition ent_ReportUsage (u : Usage) : M MemStore unit unit := λ m,
  (Ok tt, snd (UpsertUsage {| ur_OrgID := u_AccountID u; ur_TunnelID := u_TunnelID u; ur_BytesIn := u_BytesIn u;
     ur_BytesOut := u_BytesOut u; ur_Requests := u_Requests u; ur_WindowStart := u_WindowStart u;
     ur_WindowEnd := u_WindowEnd u |} m)).

(** The control plane as the entitlements service of the edge. *)
Definition ApiEntitlements (quota : bool) (draw : Time → list Z) : Entitlements MemStore :=
  {| Authenticate := ent_Authenticate;
     CheckBind := λ now req, ent_CheckBind quota (draw now) now req;
     ReportUsage := λ _ u, ent_ReportUsage u |}.
End keys.

(** * The edge's client *)
Record authCacheEntry := { ce_accountID : string; ce_plan : string; ce_expiry : Time }.
Definition cacheTTL : Duration := 30 * Second.
Definition httpTimeout : Duration := 5 * Second.

(** The client over the service it calls; [reachable] is whether the call got
    through and was answered 200. *)
Record Client (E : Type) := mkClient { authCache : gmap string authCacheEntry; service : E }.
Arguments mkClient {E}. Arguments authCache {E}. Arguments service {E}.

Section client.
  Context {E : Type} `{Entitlements E} (reachable : Time → bool).

(** A positive answer that has not expired. *)
Definition auth_hit (now : Time) (apiKey : string) (c : Client E) : option (string * string) :=
  match authCache c !! apiKey with
  | Some e => if Before now (ce_expiry e) then Some (ce_accountID e, ce_plan e) else None
  | None => None
  end.
(** The call, and what is remembered of its answer when that has been read, at [now]. *)
Definition auth_call (now : Time) (apiKey : string) : M (Client E) unit (string * string) := λ c,
  if negb (reachable now) then (Err tt, c)
  else match Authenticate now apiKey (service c) with
       | (Err _, s) => (Err tt, mkClient (authCache c) s)
       | (Ok r, s) => (Ok r, mkClient (authCache c) s)
       end.
Definition auth_remember (now : Time) (apiKey : string) (r : string * string) (c : Client E) : Client E :=
  mkClient (<[apiKey := {| ce_accountID := fst r; ce_plan := snd r; ce_expiry := now + cacheTTL |}]> (authCache c)) (service c).
(** The clock is read twice: [now] for the cache, [now2] when the answer is there. *)
Definition client_Authenticate (now now2 : Time) (apiKey : string) : M (Client E) unit (string * string) := λ c,
  match auth_hit now apiKey c with
  | Some r => (Ok r, c)
  | None =>
      match auth_call now apiKey c with
      | (Ok r, c) => (Ok r, auth_remember now2 apiKey r c)
      | (Err e, c) => (Err e, c)
      end
  end.

Definition client_CheckBind (now : Time) (req : BindRequest) : M (Client E) unit Decision := λ c,
  if negb (reachable now) then (Err tt, c)
  else let '(r, s) := CheckBind now req (service c) in (r, mkClient (authCache c) s).

Definition client_ReportUsage (now : Time) (u : Usage) : M (Client E) unit unit := λ c,
  if negb (reachable now) then (Err tt, c)
  else let '(r, s) := ReportUsage now u (service c) in (Ok tt, mkClient (authCache c) s).

(** [answered]: when the answer of a call made at a time has been read. *)
Definition RpcEntitlements (answered : Time → Time) : Entitlements (Client E) :=
  {| Authenticate := λ now, client_Authenticate now (answered now); CheckBind := client_CheckBind; ReportUsage := client_ReportUsage |}.
End client.
