(* ===== verification/EntitleSafety.v ===== *)
(** What the entitlements guarantee: API keys verify exactly as minted and die
    when revoked, also behind the edge's cache; a bind is allowed exactly when
    the account, its plan, its names and its quota permit it. *)
From S2P Require Import Prelude GoStrings Wire Authz Store StoreInv Billing BillingSafety Edge Entitle.
From Stdlib Require Import Ascii.

Open Scope Z_scope.

(** * Encoded hashes *)

(** The digits of base64 are their own values; none is a line end or "$". *)
Lemma b64_char_table k :
  (k < 64)%nat → b64_val (b64_char (Z.of_nat k)) = Some (Z.of_nat k).
Proof.
  intros Hk. assert (Hall : forallb (λ k, bool_decide (b64_val (b64_char (Z.of_nat k)) = Some (Z.of_nat k)))
    (seq 0 64) = true) by (vm_compute; reflexivity).
  rewrite forallb_forall in Hall. specialize (Hall k). rewrite bool_decide_eq_true in Hall.
  apply Hall, in_seq. lia.
Qed.

Lemma b64_char_val v : b64_val (b64_char v) = Some (v mod 64).
Proof.
  pose proof (Z.mod_pos_bound v 64 ltac:(lia)) as Hb.
  assert (Hc : b64_char v = b64_char (Z.of_nat (Z.to_nat (v mod 64)))).
  { unfold b64_char. by rewrite Z2Nat.id, Z.mod_mod by lia. }
  rewrite Hc, b64_char_table by lia. by rewrite Z2Nat.id by lia.
Qed.

Lemma b64_digit_plain a x :
  b64_val a = Some x → Ascii.eqb a "$" = false ∧ ((N_of_ascii a =? 10) || (N_of_ascii a =? 13))%N = false.
Proof. destruct a as [[] [] [] [] [] [] [] []]; vm_compute; intros; split; congruence. Qed.

Fixpoint all_b64 (s : string) : Prop :=
  match s with EmptyString => True | String a r => is_Some (b64_val a) ∧ all_b64 r end.

Lemma all_b64_plain s : all_b64 s → has_byte s "$" = false ∧ b64_strip s = s.
Proof.
  induction s as [|a s IH]; [done|]. intros [[x Hx] Hs].
  destruct (b64_digit_plain a x Hx) as [H1 H2]. destruct (IH Hs) as [H3 H4]. simpl.
  rewrite H1, H3, H2, H4. done.
Qed.

Definition is_byte (z : Z) : Prop := 0 <= z < 256.

(** Recursion three bytes at a time. *)
Lemma list_ind3 {A} (P : list A → Prop) :
  P [] → (∀ x, P [x]) → (∀ x y, P [x; y]) → (∀ x y z l, P l → P (x :: y :: z :: l)) → ∀ l, P l.
Proof.
  intros H0 H1 H2 H3. refine (fix go l := _). destruct l as [|x [|y [|z l]]]; [exact H0|apply H1|apply H2|apply H3, go].
Qed.

Lemma RawEncode_b64 b : all_b64 (RawEncode b).
Proof.
  induction b using list_ind3; simpl; rewrite ?b64_char_val; repeat split; eauto.
Qed.

Lemma raw_groups_encode b : Forall is_byte b → raw_groups (RawEncode b) = Some b.
Proof.
  unfold is_byte. induction b as [|x|x y|x y z b IH] using list_ind3; intros Hb.
  - done.
  - apply Forall_cons_1 in Hb as [Hx _]. simpl. rewrite !b64_char_val. simpl.
    do 2 f_equal. Z.div_mod_to_equations. lia.
  - apply Forall_cons_1 in Hb as [Hx [Hy _]%Forall_cons_1]. simpl. rewrite !b64_char_val. simpl.
    f_equal. repeat f_equal; Z.div_mod_to_equations; lia.
  - apply Forall_cons_1 in Hb as [Hx [Hy [Hz Hb]%Forall_cons_1]%Forall_cons_1]. simpl.
    rewrite !b64_char_val. simpl. rewrite (IH Hb). simpl. f_equal. repeat f_equal; Z.div_mod_to_equations; lia.
Qed.

Lemma RawDecode_encode b : Forall is_byte b → RawDecode (RawEncode b) = Some b.
Proof.
  intros Hb. unfold RawDecode. rewrite (proj2 (all_b64_plain _ (RawEncode_b64 b))).
  by apply raw_groups_encode.
Qed.

(** * Keys *)
Lemma hex_digit_plain d : Ascii.eqb (hex_digit d) "_" = false.
Proof.
  unfold hex_digit.
  destruct (Z.to_nat (d mod 16)) as [|[|[|[|[|[|[|[|[|[|[|[|[|[|[|[|k]]]]]]]]]]]]]]]]; reflexivity.
Qed.

Lemma hex_plain b : has_byte (EncodeToString b) "_" = false.
Proof. induction b as [|x b IH]; simpl; [done|]. by rewrite !hex_digit_plain, IH. Qed.

Lemma KeyPrefix_mint pb s : KeyPrefix (keyEnv +:+ EncodeToString pb +:+ String "_" s) = Some (keyEnv +:+ EncodeToString pb).
Proof.
  unfold KeyPrefix. rewrite HasPrefix_app. simpl negb. cbn iota.
  rewrite (drop_string_app keyEnv). rewrite IndexByte_app by apply hex_plain. by rewrite take_string_app.
Qed.

Section keys.
  Context (IDKey : string → list Z → Z → Z → Z → Z → list Z).

(** argon2 returns as many bytes as it is asked for. *)
Definition IDKey_ok : Prop :=
  ∀ key salt t m p n, 0 <= n →
    Z.of_nat (length (IDKey key salt t m p n)) = n ∧ Forall is_byte (IDKey key salt t m p n).

Lemma GenerateAPIKey_prefix pb sb salt :
  KeyPrefix (gk_Full (GenerateAPIKey IDKey pb sb salt)) = Some (gk_Prefix (GenerateAPIKey IDKey pb sb salt)).
Proof. simpl. rewrite app_string_assoc. apply KeyPrefix_mint. Qed.

Lemma VerifyKey_HashKey salt full :
  IDKey_ok → Forall is_byte salt → VerifyKey IDKey full (HashKey IDKey salt full) = true.
Proof.
  intros Hid Hs. destruct (Hid full salt argonTime argonMemory argonThreads argonKeyLen ltac:(done)) as [Hl Hb].
  unfold VerifyKey, HashKey. set (want := IDKey _ _ _ _ _ _) in *.
  assert (Hsplit : Split ("$argon2id$v=19$m=" +:+ Itoa argonMemory +:+ ",t=" +:+ Itoa argonTime +:+ ",p=" +:+
      Itoa argonThreads +:+ "$" +:+ RawEncode salt +:+ "$" +:+ RawEncode want) "$"
    = [""; "argon2id"; "v=19"; "m=65536,t=1,p=4"; RawEncode salt; RawEncode want]).
  { change (Split ("" +:+ String "$" ("argon2id" +:+ String "$" ("v=19" +:+ String "$" ("m=65536,t=1,p=4" +:+
      String "$" (RawEncode salt +:+ String "$" (RawEncode want)))))) "$" = 
      [""; "argon2id"; "v=19"; "m=65536,t=1,p=4"; RawEncode salt; RawEncode want]).
    rewrite !Split_app by first [reflexivity | apply all_b64_plain, RawEncode_b64].
    by rewrite Split_whole by apply all_b64_plain, RawEncode_b64. }
  rewrite Hsplit. change (negb (String.eqb "argon2id" "argon2id")) with false. cbn iota.
  change (scan_field "m=" (2 ^ 32 - 1) "m=65536,t=1,p=4") with (Some (argonMemory, ",t=1,p=4")). simpl mbind.
  change (scan_field ",t=" (2 ^ 32 - 1) ",t=1,p=4") with (Some (argonTime, ",p=4")). simpl mbind.
  change (scan_field ",p=" 255 ",p=4") with (Some (argonThreads, "")). simpl mbind.
  rewrite !RawDecode_encode by done. simpl. rewrite Hl. by apply bool_decide_eq_true.
Qed.

(** * Authentication *)
Definition touched (id : string) (now : Time) (m : MemStore) : MemStore := snd (TouchAPIKey id now m).

(** Touching a key changes nothing but its last use. *)
Lemma touched_frame id now m :
  let m' := touched id now m in
  keyPrefix m' = keyPrefix m ∧ orgs m' = orgs m ∧ subs m' = subs m ∧ subByName m' = subByName m ∧
  domains m' = domains m ∧ domByName m' = domByName m ∧ usage_ m' = usage_ m.
Proof. unfold touched, TouchAPIKey. by destruct (keys m !! id). Qed.

Lemma AuthenticateAPIKey_inv now raw m k m' :
  AuthenticateAPIKey IDKey now raw m = (Ok k, m') →
  (∃ p, KeyPrefix raw = Some p ∧ fst (GetAPIKeyByPrefix p m) = Ok k) ∧ ak_RevokedAt k = None ∧
  VerifyKey IDKey raw (ak_Hash k) = true ∧ m' = touched (ak_ID k) now m.
Proof.
  unfold AuthenticateAPIKey, touched. destruct (KeyPrefix raw) as [p|]; [|done].
  unfold GetAPIKeyByPrefix. destruct (keyPrefix m !! p) as [id|] eqn:Hp; [|done].
  case_bool_decide as Hr; [done|]. destruct (VerifyKey _ _ _) eqn:Hv; [|done]. simpl.
  intros [= <- <-]. split_and!; [|by apply eq_None_not_Some|done|done].
  exists p. simpl. by rewrite Hp.
Qed.

Lemma AuthenticateAPIKey_err now raw m e m' :
  AuthenticateAPIKey IDKey now raw m = (Err e, m') → m' = m.
Proof.
  unfold AuthenticateAPIKey. destruct (KeyPrefix raw) as [p|]; [|naive_solver].
  unfold GetAPIKeyByPrefix. destruct (keyPrefix m !! p) as [id|]; [|naive_solver].
  case_bool_decide; [naive_solver|]. destruct (VerifyKey _ _ _); simpl; naive_solver.
Qed.

(** The row a prefix leads to is revoked. *)
Definition revoked (p : string) (m : MemStore) : Prop :=
  ∃ id k, keyPrefix m !! p = Some id ∧ keys m !! id = Some k ∧ is_Some (ak_RevokedAt k).

Lemma revoked_refused now raw p m :
  KeyPrefix raw = Some p → revoked p m → AuthenticateAPIKey IDKey now raw m = (Err ErrKeyRevoked, m).
Proof.
  intros Hk (id & k & Hp & Hid & Hr). unfold AuthenticateAPIKey. rewrite Hk. unfold GetAPIKeyByPrefix.
  rewrite Hp, Hid. simpl. by rewrite bool_decide_eq_true_2.
Qed.

(** The life of an API key.  Authentication accepts only a raw key whose
    hash is that of an unrevoked stored row with its prefix, and then returns
    that row.  A key as minted and stored is accepted; another org cannot
    revoke it; once its own org has, no raw key with its prefix is accepted. *)
Theorem api_key_lifecycle m now rnd pb sb salt k0 k m1 :
  IDKey_ok → Forall is_byte salt → store_reachable m → keys m !! or_id (ak_ID k0) "key" rnd = None →
  let gk := GenerateAPIKey IDKey pb sb salt in
  ak_Prefix k0 = gk_Prefix gk → ak_Hash k0 = gk_Hash gk → ak_RevokedAt k0 = None →
  CreateAPIKey now rnd k0 m = (Ok k, m1) →
  (∀ t raw r m', AuthenticateAPIKey IDKey t raw m1 = (Ok r, m') →
     KeyPrefix raw = Some (ak_Prefix r) ∧ (∃ id, keys m1 !! id = Some r) ∧ ak_RevokedAt r = None ∧
     VerifyKey IDKey raw (ak_Hash r) = true) ∧
  (∀ t, fst (AuthenticateAPIKey IDKey t (gk_Full gk) m1) = Ok k) ∧
  (∀ t org, org ≠ ak_OrgID k → RevokeAPIKey (ak_ID k) org t m1 = (Err ErrNotFound, m1)) ∧
  (∀ t, ∃ m2, RevokeAPIKey (ak_ID k) (ak_OrgID k) t m1 = (Ok tt, m2) ∧
     ∀ t' raw, KeyPrefix raw = Some (gk_Prefix gk) →
       AuthenticateAPIKey IDKey t' raw m2 = (Err ErrKeyRevoked, m2)).
Proof.
  intros Hid Hs Hm Hfresh gk Hp Hh Hr Hc.
  assert (Hm1 : store_ok m1).
  { replace m1 with (store_exec m (SCreateAPIKey now rnd k0)) by (simpl; by rewrite Hc).
    apply store_exec_ok; [by apply store_reachable_ok|done]. }
  unfold CreateAPIKey in Hc. cbn in Hc. destruct (keyPrefix m !! ak_Prefix k0); [done|]. injection Hc as Hk Hm'.
  assert (Hpre : keyPrefix m1 !! gk_Prefix gk = Some (ak_ID k)).
  { rewrite <- Hm', <- Hk, <- Hp. simpl. apply lookup_insert_eq. }
  assert (Hrow : keys m1 !! ak_ID k = Some k).
  { rewrite <- Hm', <- Hk. simpl. apply lookup_insert_eq. }
  assert (Hkr : ak_RevokedAt k = None) by (by rewrite <- Hk).
  assert (Hkh : ak_Hash k = HashKey IDKey salt (gk_Full gk)) by (by rewrite <- Hk).
  clear Hm' Hk Hfresh Hm. split_and!.
  - intros t raw r m' ((p & Hkp & Hg) & Hrr & Hv & _)%AuthenticateAPIKey_inv.
    unfold GetAPIKeyByPrefix in Hg. destruct (keyPrefix m1 !! p) as [id|] eqn:Hi; [|done].
    apply (so_keys _ Hm1) in Hi as (v & Hv' & Hn). rewrite Hv' in Hg. simplify_eq/=. eauto.
  - intros t. unfold AuthenticateAPIKey. unfold gk at 1. rewrite GenerateAPIKey_prefix. fold gk.
    unfold GetAPIKeyByPrefix. rewrite Hpre, Hrow. simpl. rewrite Hkr, Hkh.
    rewrite bool_decide_eq_false_2 by apply is_Some_None.
    fold gk. change (gk_Full _) with (gk_Full gk). by rewrite VerifyKey_HashKey.
  - intros t org Hne. unfold RevokeAPIKey. rewrite Hrow. destruct (String.eqb_spec (ak_OrgID k) org); [congruence|done].
  - intros t. unfold RevokeAPIKey. rewrite Hrow, String.eqb_refl. simpl. eexists. split; [done|].
    intros t' raw Hraw. eapply revoked_refused; [done|]. do 2 eexists. simpl.
    split; [exact Hpre|]. rewrite lookup_insert_eq. split; [done|]. simpl. eauto.
Qed.
End keys.

(** * Bind decisions *)
Definition plan_permits (ty : string) (p : Plan) : Prop :=
  (ty = "udp" → p_AllowUDP p = true) ∧ (ty = "tls" → p_AllowTLS p = true) ∧ (ty = "tcp" → p_AllowTCP p = true).
Definition owns_domain (acct host : string) (m : MemStore) : Prop :=
  ∃ id d, domains m !! id = Some d ∧ cd_Domain d = ToLower host ∧ cd_OrgID d = acct ∧ is_Some (cd_VerifiedAt d).
Definition owns_subdomain (acct sub : string) (m : MemStore) : Prop :=
  ∃ id s, subs m !! id = Some s ∧ rs_Subdomain s = ToLower sub ∧ rs_OrgID s = acct.

(** What the account [acct] on the plan [code] may bind. *)
Record may_bind (quota : bool) (now : Time) (acct code : string) (req : BindRequest) (m : MemStore) : Prop := {
  mb_type : plan_permits (Type_ req) (PlanFor code);
  mb_domain : CustomHost req ≠ "" → p_AllowCustomDomains (PlanFor code) = true ∧ owns_domain acct (CustomHost req) m;
  mb_sub : Subdomain req ≠ "" → owns_subdomain acct (Subdomain req) m;
  mb_quota : quota = true → fst (CheckQuota now acct code m) = "";
}.

Lemma proto_gate_spec ty p : proto_gate ty p = None ↔ plan_permits ty p.
Proof.
  unfold proto_gate, plan_permits.
  destruct (String.eqb_spec ty "udp") as [->|H1]; [destruct (p_AllowUDP p); naive_solver|].
  destruct (String.eqb_spec ty "tls") as [->|H2]; [destruct (p_AllowTLS p); naive_solver|].
  destruct (String.eqb_spec ty "tcp") as [->|H3]; [destruct (p_AllowTCP p); naive_solver|]. naive_solver.
Qed.

Lemma owns_domain_lookup acct host m :
  store_ok m →
  owns_domain acct host m ↔
  match fst (GetCustomDomainByName host m) with
  | Ok d => String.eqb (cd_OrgID d) acct && bool_decide (is_Some (cd_VerifiedAt d)) = true
  | Err _ => False
  end.
Proof.
  intros Hok. unfold GetCustomDomainByName, owns_domain.
  destruct (domByName m !! ToLower host) as [id|] eqn:Hi; simpl.
  - pose proof Hi as (d & Hd & Hn)%(so_domains _ Hok). rewrite Hd. simpl.
    rewrite andb_true_iff, String.eqb_eq, bool_decide_eq_true. split; [|eauto 10].
    intros (id' & d' & Hd' & Hn' & H). assert (id' = id) as ->; [|naive_solver].
    eapply (index_unique cd_Domain); [apply (so_domains _ Hok)|done|done|congruence].
  - split; [|done]. intros (id & d & Hd & Hn & _).
    assert (Hx : domByName m !! ToLower host = Some id) by (apply (so_domains _ Hok); eauto). congruence.
Qed.

Lemma owns_subdomain_lookup acct sub m :
  store_ok m → ∃ b, fst (IsSubdomainReserved acct sub m) = Ok b ∧ (b = true ↔ owns_subdomain acct sub m).
Proof.
  intros Hok. unfold IsSubdomainReserved, owns_subdomain.
  destruct (subByName m !! ToLower sub) as [id|] eqn:Hi; simpl; eexists; (split; [done|]).
  - pose proof Hi as (s & Hs & Hn)%(so_subs _ Hok). rewrite Hs. simpl. rewrite String.eqb_eq.
    split; [eauto 10|]. intros (id' & s' & Hs' & Hn' & <-). assert (id' = id) as ->; [|naive_solver].
    eapply (index_unique rs_Subdomain); [apply (so_subs _ Hok)|done|done|congruence].
  - split; [done|]. intros (id & s & Hs & Hn & _).
    assert (Hx : subByName m !! ToLower sub = Some id) by (apply (so_subs _ Hok); eauto). congruence.
Qed.

Lemma domain_gate_spec acct host p m :
  store_ok m →
  domain_gate acct host p m = None ↔ (host ≠ "" → p_AllowCustomDomains p = true ∧ owns_domain acct host m).
Proof.
  intros Hok. unfold domain_gate. rewrite (owns_domain_lookup acct host m Hok).
  destruct (String.eqb_spec host "") as [->|Hne]; [naive_solver|].
  destruct (p_AllowCustomDomains p); simpl; [|naive_solver].
  destruct (fst _) as [d|e]; [|naive_solver]. destruct (_ && _); naive_solver.
Qed.

Lemma domain_gate_code acct host p m c msg : domain_gate acct host p m = Some (c, msg) → c ≠ "".
Proof. unfold domain_gate. intros H. repeat (case_match; simplify_eq/=); done. Qed.

Lemma CheckQuota_usage now acct code m m' : usage_ m = usage_ m' → CheckQuota now acct code m = CheckQuota now acct code m'.
Proof. intros Hu. unfold CheckQuota, UsageForOrg. by rewrite Hu. Qed.

Lemma may_bind_touched quota now acct code req id t m :
  may_bind quota now acct code req (touched id t m) ↔ may_bind quota now acct code req m.
Proof.
  destruct (touched_frame id t m) as (_ & _ & Hs & _ & Hd & _ & Hu).
  split; intros [M1 M2 M3 M4]; split; try done; unfold owns_domain, owns_subdomain in *;
    rewrite ?(CheckQuota_usage _ _ _ _ _ Hu) in *; by rewrite ?Hs, ?Hd in *.
Qed.

Section binds.
  Context (IDKey : string → list Z → Z → Z → Z → Z → list Z).

Lemma ent_Authenticate_frame now key m r m' :
  ent_Authenticate IDKey now key m = (r, m') → m' = m ∨ ∃ id, m' = touched id now m.
Proof.
  unfold ent_Authenticate. destruct (AuthenticateAPIKey _ _ _ m) as [[k|e] m1] eqn:Ha.
  - apply AuthenticateAPIKey_inv in Ha as (_ & _ & _ & ->). unfold GetOrg.
    destruct (orgs _ !! _); intros [= <- <-]; eauto.
  - intros [= <- <-]. left. by eapply AuthenticateAPIKey_err.
Qed.

Lemma ent_Authenticate_ok now key m r m' :
  store_ok m → ent_Authenticate IDKey now key m = (r, m') → store_ok m'.
Proof.
  intros Hok [->|[id ->]]%ent_Authenticate_frame; [done|].
  by apply (store_exec_ok m (STouchAPIKey id now)).
Qed.

(** The decision for an authenticated request. *)
Lemma CheckBind_cases quota draw now req m acct code m1 :
  store_ok m → ent_Authenticate IDKey now (Authz.APIKey req) m = (Ok (acct, code), m1) →
  ∃ d, ent_CheckBind IDKey quota draw now req m = (Ok d, m1) ∧
    ((Allow d = false ∧ ErrorCode d ≠ "" ∧ ¬ may_bind quota now acct code req m) ∨
     (may_bind quota now acct code req m ∧ Allow d = true ∧ d_AccountID d = acct ∧ d_Plan d = code ∧
      d_Limits d = LimitsForPlan code ∧ ErrorCode d = "" ∧
      AssignedSubdomain d = (if String.eqb (Subdomain req) "" && String.eqb (CustomHost req) ""
                             then randSubdomain draw else ""))).
Proof.
  intros Hok Ha. unfold ent_CheckBind. rewrite Ha.
  pose proof (ent_Authenticate_ok _ _ _ _ _ Hok Ha) as Hok1.
  assert (Hmay : may_bind quota now acct code req m1 ↔ may_bind quota now acct code req m).
  { apply ent_Authenticate_frame in Ha as [->|[id ->]]; [done|]. by apply may_bind_touched. }
  setoid_rewrite <- Hmay.
  clear Ha Hmay Hok. unfold CodePlanForbids.
  destruct (proto_gate _ _) as [msg|] eqn:Hg.
  { eexists. split; [done|]. left. split_and!; [done|done|]. intros [M _ _ _].
    apply proto_gate_spec in M. congruence. }
  apply proto_gate_spec in Hg.
  destruct (domain_gate _ _ _ _) as [[c msg]|] eqn:Hd.
  { eexists. split; [done|]. left. split_and!; [done|by eapply domain_gate_code|]. intros [_ M _ _].
    apply domain_gate_spec in M; [congruence|done]. }
  rewrite (domain_gate_spec _ _ _ _ Hok1) in Hd.
  destruct (owns_subdomain_lookup acct (Subdomain req) m1 Hok1) as (b & Hb & Hsub). rewrite Hb.
  assert (Hq : ∀ c, c = (if quota then CheckQuota now acct code m1 else ("", "")) →
    (fst c = "" ↔ (quota = true → fst (CheckQuota now acct code m1) = ""))) by (intros ? ->; destruct quota; naive_solver).
  destruct (if quota then _ else _) as [c msg]. specialize (Hq _ eq_refl). simpl in Hq.
  destruct (String.eqb_spec (Subdomain req) "") as [Hs|Hs]; simpl.
  - assert (Hiff : may_bind quota now acct code req m1 ↔ c = "").
    { rewrite Hq. split; [by intros []|]. by split. }
    destruct (String.eqb_spec (CustomHost req) ""); destruct (String.eqb_spec c ""); simpl;
      eexists; (split; [done|]); simpl; naive_solver.
  - destruct b.
    + assert (Hiff : may_bind quota now acct code req m1 ↔ c = "").
      { rewrite Hq. split; [by intros []|]. split; try done. naive_solver. }
      destruct (String.eqb_spec c ""); simpl; eexists; (split; [done|]); simpl; naive_solver.
    + eexists. split; [done|]. left. split_and!; [done|done|]. intros [_ _ M _]. naive_solver.
Qed.

(** C6: the bind decision is exact.  [CheckBind] always answers; it allows a
    bind exactly when the key authenticates, the plan permits the tunnel type,
    a requested custom domain is a verified one of the account and within the
    plan, a requested subdomain is reserved by the account, and the metered
    quota is not used up.  The answer then names the account, its plan and
    limits, and assigns a subdomain only when none and no domain was asked for. *)
Theorem CheckBind_exact quota draw now req m :
  store_ok m →
  ∃ d m', ent_CheckBind IDKey quota draw now req m = (Ok d, m') ∧
  (Allow d = true ↔
     ∃ acct code, fst (ent_Authenticate IDKey now (Authz.APIKey req) m) = Ok (acct, code) ∧
       may_bind quota now acct code req m) ∧
  (Allow d = true →
     fst (ent_Authenticate IDKey now (Authz.APIKey req) m) = Ok (d_AccountID d, d_Plan d) ∧
     d_Limits d = LimitsForPlan (d_Plan d) ∧ ErrorCode d = "" ∧
     AssignedSubdomain d = (if String.eqb (Subdomain req) "" && String.eqb (CustomHost req) ""
                            then randSubdomain draw else "")) ∧
  (Allow d = false → ErrorCode d ≠ "").
Proof.
  intros Hok. destruct (ent_Authenticate IDKey now (Authz.APIKey req) m) as [[[acct code]|e] m1] eqn:Ha.
  - destruct (CheckBind_cases quota draw now req m acct code m1 Hok Ha) as (d & Hrun & H). exists d, m1.
    split; [done|]. simpl fst. destruct H as [(A & B & C)|(M & A & <- & <- & L & Q & S)].
    + split_and!; [|congruence|done]. split; [congruence|]. intros (a' & c' & [= <- <-] & M). done.
    + split_and!; [|done|congruence]. split; [eauto|done].
  - unfold ent_CheckBind. rewrite Ha. do 2 eexists. split; [done|]. simpl. split; [naive_solver|done].
Qed.
End binds.

(** * Revocation behind the cache *)
Section revocation.
  Context (IDKey : string → list Z → Z → Z → Z → Z → list Z) (quota : bool) (draw : Time → list Z).
  Context (reachable : Time → bool).
#[local] Instance api : Entitlements MemStore := ApiEntitlements IDKey quota draw.
  Implicit Types (c : Client MemStore) (p raw : string).

(** The edge's client with the authentications that the control plane has answered and
    whose answer it has not read yet: since when, of which key, and the answer. *)
Record CpState := { cp_client : Client MemStore; cp_flight : list (Time * string * (string * string)) }.
Definition cp_with (c : Client MemStore) (s : CpState) : CpState := {| cp_client := c; cp_flight := cp_flight s |}.

(** What happens between an edge and the control plane, in order: the edge's calls
    through its client, those of [Authenticate] in two parts (an answer is read within the
    timeout of the HTTP client, or never), and the control plane's own operations. *)
Inductive cp_step (now : Time) : CpState → CpState → Prop :=
| cp_refused s raw c : auth_hit now raw (cp_client s) = None → auth_call reachable now raw (cp_client s) = (Err tt, c) →
    cp_step now s (cp_with c s)
| cp_answered s raw r c : auth_hit now raw (cp_client s) = None → auth_call reachable now raw (cp_client s) = (Ok r, c) →
    cp_step now s {| cp_client := c; cp_flight := (now, raw, r) :: cp_flight s |}
| cp_read s t raw r l1 l2 : cp_flight s = l1 ++ (t, raw, r) :: l2 → now <= t + httpTimeout →
    cp_step now s {| cp_client := auth_remember now raw r (cp_client s); cp_flight := l1 ++ l2 |}
| cp_lost s x l1 l2 : cp_flight s = l1 ++ x :: l2 → cp_step now s {| cp_client := cp_client s; cp_flight := l1 ++ l2 |}
| cp_bind s req : cp_step now s (cp_with (snd (client_CheckBind reachable now req (cp_client s))) s)
| cp_usage s u : cp_step now s (cp_with (snd (client_ReportUsage reachable now u (cp_client s))) s)
| cp_store s o : fresh_id (service (cp_client s)) o →
    cp_step now s (cp_with (mkClient (authCache (cp_client s)) (store_exec (service (cp_client s)) o)) s).

Inductive cp_run : Time → CpState → Time → CpState → Prop :=
| cp_refl t s : cp_run t s t s
| cp_next t s t1 s1 t2 s2 : cp_run t s t1 s1 → t1 <= t2 → cp_step t2 s1 s2 → cp_run t s t2 s2.

(** A whole call of [Authenticate] is such steps. *)
Lemma client_Authenticate_run now now2 raw c l : now <= now2 <= now + httpTimeout →
  ∃ t', cp_run now {| cp_client := c; cp_flight := l |} t'
    {| cp_client := snd (client_Authenticate reachable now now2 raw c); cp_flight := l |}.
Proof.
  intros Hn. unfold client_Authenticate. destruct (auth_hit now raw c) as [r|] eqn:Hh; [exists now; apply cp_refl|].
  destruct (auth_call reachable now raw c) as [[r|[]] c'] eqn:Hc.
  - exists now2. eapply (cp_next _ _ now _ now2); [eapply (cp_next _ _ now _ now);
      [apply cp_refl|lia|apply (cp_answered now {| cp_client := c; cp_flight := l |} raw r c' Hh Hc)]|lia|].
    cbn [snd]. apply (cp_read now2 {| cp_client := c'; cp_flight := (now, raw, r) :: l |} now raw r [] l); [done|lia].
  - exists now. eapply (cp_next _ _ now _ now); [apply cp_refl|lia|]. by apply (cp_refused now {| cp_client := c; cp_flight := l |} raw c').
Qed.

Lemma store_exec_revoked p m o : fresh_id m o → revoked p m → revoked p (store_exec m o).
Proof.
  intros Hf (id & k & Hp & Hk & Hr).
  assert (Hsame : ∀ m', keyPrefix m' = keyPrefix m → keys m' = keys m → revoked p m').
  { intros m' H1 H2. exists id, k. by rewrite H1, H2. }
  assert (Hins : ∀ m' i r, keyPrefix m' = keyPrefix m → keys m' = <[i := r]> (keys m) →
    (i = id → is_Some (ak_RevokedAt r)) → revoked p m').
  { intros m' i r H1 H2 H3. destruct (decide (i = id)) as [->|Hne].
    - exists id, r. rewrite H1, H2, lookup_insert_eq. auto.
    - exists id, k. by rewrite H1, H2, lookup_insert_ne. }
  destruct o; simpl in *; try (by apply Hsame).
  all: try (unfold CreateUser, UpdateUserProfile, UpdateOrgPlan, SetOrgPlan, SetOrgStripeCustomer, update_org,
    AddOrgMember, ReserveSubdomain, ReleaseSubdomain, AddCustomDomain, VerifyCustomDomain, RecordTunnelOpen,
    CloseTunnelSession, DeleteSubscription, MarkEventProcessed, InsertMeteredUsage;
    repeat case_match; by apply Hsame).
  - unfold CreateAPIKey. cbn. destruct (keyPrefix m !! ak_Prefix k0) eqn:He; [by apply Hsame|].
    exists id, k. simpl. rewrite !lookup_insert_ne; [done|congruence|congruence].
  - unfold TouchAPIKey. destruct (keys m !! id0) as [k1|] eqn:H1; [|by apply Hsame].
    eapply Hins; [done|done|]. intros ->. simpl. by simplify_eq.
  - unfold RevokeAPIKey. destruct (keys m !! id0) as [k1|] eqn:H1; [|by apply Hsame].
    destruct (negb _); [by apply Hsame|]. eapply Hins; [done|done|]. simpl. eauto.
Qed.

Lemma touched_revoked p id now m : revoked p m → revoked p (touched id now m).
Proof. by apply (store_exec_revoked p m (STouchAPIKey id now)). Qed.

Lemma ent_Authenticate_revoked p now raw m r m' :
  ent_Authenticate IDKey now raw m = (r, m') → revoked p m →
  revoked p m' ∧ (KeyPrefix raw = Some p → r = Err tt).
Proof.
  intros Ha Hr. split.
  - apply ent_Authenticate_frame in Ha as [->|[id ->]]; [done|by apply touched_revoked].
  - intros Hk. unfold ent_Authenticate in Ha. rewrite (revoked_refused IDKey now raw p m Hk Hr) in Ha. by simplify_eq.
Qed.

Lemma ent_CheckBind_frame now req m :
  snd (ent_CheckBind IDKey quota (draw now) now req m) = snd (ent_Authenticate IDKey now (Authz.APIKey req) m).
Proof.
  unfold ent_CheckBind. destruct (ent_Authenticate _ _ _ m) as [[[acct code]|e] m1]; [|done].
  destruct (proto_gate _ _); [done|]. destruct (domain_gate _ _ _ _) as [[? ?]|]; [done|].
  destruct (if negb _ then _ else _); [|done]. destruct (if quota then _ else _). by destruct (negb _).
Qed.

(** No cached answer outlives its thirty seconds, and no call is answered from the future. *)
Definition cp_fresh (now : Time) (s : CpState) : Prop :=
  (∀ raw e, authCache (cp_client s) !! raw = Some e → ce_expiry e <= now + cacheTTL) ∧
  ∀ t raw r, (t, raw, r) ∈ cp_flight s → t <= now.
(** Answers for keys with the prefix [p] end at [t] plus the thirty seconds, and those still
    on their way were given before [t]. *)
Definition cp_ends p (t : Time) (s : CpState) : Prop :=
  (∀ raw e, KeyPrefix raw = Some p → authCache (cp_client s) !! raw = Some e → ce_expiry e <= t + httpTimeout + cacheTTL) ∧
  ∀ t' raw r, KeyPrefix raw = Some p → (t', raw, r) ∈ cp_flight s → t' <= t.

Lemma auth_call_cases now raw c r c' :
  auth_call reachable now raw c = (r, c') →
  authCache c' = authCache c ∧
  ((r = Err tt ∧ c' = c) ∨ ent_Authenticate IDKey now raw (service c) = (r, service c')).
Proof.
  unfold auth_call. cbn [Authenticate api ApiEntitlements]. destruct (negb _); [intros [= <- <-]; auto|].
  destruct (ent_Authenticate _ _ _ _) as [[?|[]] m]; intros [= <- <-]; auto.
Qed.

Lemma client_frame now (c : Client MemStore) :
  (∀ req, authCache (snd (client_CheckBind reachable now req c)) = authCache c) ∧
  (∀ u, authCache (snd (client_ReportUsage reachable now u c)) = authCache c).
Proof.
  unfold client_CheckBind, client_ReportUsage. split; intros x; destruct (negb _); try done.
  by destruct (CheckBind _ _ _).
Qed.

Lemma flight_drop {A} (x y : A) l1 l2 : x ∈ l1 ++ l2 → x ∈ l1 ++ y :: l2.
Proof. rewrite !elem_of_app, elem_of_cons. tauto. Qed.

Lemma cp_step_fresh t1 t2 s s' : cp_step t2 s s' → t1 <= t2 → cp_fresh t1 s → cp_fresh t2 s'.
Proof.
  intros Hs Ht [Hc Hl]. assert (Hf2 : cp_fresh t2 s).
  { split; [intros raw e He; specialize (Hc raw e He)|intros t raw r Hin; specialize (Hl t raw r Hin)]; lia. }
  destruct Hf2 as [Hc2 Hl2].
  destruct Hs as [s raw c _ Ha|s raw r c _ Ha|s t raw r l1 l2 Hfl Hle|s x l1 l2 Hfl|s req|s u|s o _]; split; cbn.
  all: try (apply auth_call_cases in Ha as [-> _]); rewrite ?(proj1 (client_frame _ _)), ?(proj2 (client_frame _ _)); try done.
  all: try (intros t' raw' r' Hin; apply (Hl2 t' raw' r'); rewrite Hfl; by apply flight_drop).
  - intros t raw' r' [[= -> _ _]|Hin]%elem_of_cons; [lia|by eapply Hl2].
  - intros raw' e He. cbn in He. apply lookup_insert_Some in He as [[<- <-]|[_ He]]; [simpl; lia|by eapply Hc2].
Qed.

Lemma cp_step_revoked p t now s s' :
  cp_step now s s' → revoked p (service (cp_client s)) → cp_ends p t s →
  revoked p (service (cp_client s')) ∧ cp_ends p t s'.
Proof.
  intros Hs Hr [Hc Hl].
  destruct Hs as [s raw c _ Ha|s raw r c _ Ha|s t0 raw r l1 l2 Hfl Hle|s x l1 l2 Hfl|s req|s u|s o Hfr]; cbn.
  - apply auth_call_cases in Ha as [Hca [[_ ->]|Ha]]; [done|]. apply (ent_Authenticate_revoked p) in Ha as [Hr' _]; [|done].
    split; [done|]. split; cbn; [by rewrite Hca|done].
  - apply auth_call_cases in Ha as [Hca [[? _]|Ha]]; [done|]. apply (ent_Authenticate_revoked p) in Ha as [Hr' Hk]; [|done].
    split; [done|]. split; cbn; [by rewrite Hca|]. intros t' raw' r' Hk' [[= -> -> ->]|Hin]%elem_of_cons; [|by eapply Hl].
    by specialize (Hk Hk').
  - split; [done|]. split; cbn.
    + intros raw' e Hk He. apply lookup_insert_Some in He as [[<- <-]|[_ He]]; [|by eapply Hc].
      simpl. assert (t0 <= t) by (eapply Hl; [done|]; rewrite Hfl; apply elem_of_app; right; left). lia.
    + intros t' raw' r' Hk Hin. apply (Hl t' raw' r' Hk). rewrite Hfl. by apply flight_drop.
  - split; [done|]. split; [done|]. intros t' raw' r' Hk Hin. apply (Hl t' raw' r' Hk). rewrite Hfl. by apply flight_drop.
  - unfold cp_ends. cbn. rewrite (proj1 (client_frame _ _)). split; [|done].
    unfold client_CheckBind. destruct (negb _); [done|]. destruct (CheckBind _ _ _) as [r m] eqn:Hb. simpl.
    simpl in Hb. apply (f_equal snd) in Hb. rewrite ent_CheckBind_frame in Hb. simpl in Hb.
    destruct (ent_Authenticate IDKey now (Authz.APIKey req) (service (cp_client s))) as [r' m'] eqn:Ha. simpl in Hb. subst.
    by apply (ent_Authenticate_revoked p) in Ha as [? _].
  - unfold cp_ends. cbn. rewrite (proj2 (client_frame _ _)). split; [|done].
    unfold client_ReportUsage. destruct (negb _); [done|]. simpl. unfold ent_ReportUsage. simpl.
    by apply (store_exec_revoked p (service (cp_client s)) (SUpsertUsage _)).
  - split; [|done]. by apply store_exec_revoked.
Qed.

(** C34: revocation reaches the edge.  Take any run of an edge and the control plane up to
    time [t], at which a key is revoked, and any continuation of it, the calls of the edge
    interleaved with all else, answers read within the five seconds the HTTP client waits.
    From then on every bind with the key that reaches the control plane is refused, and no
    later than thirty-five seconds after [t], the timeout of an answer that was on its way
    and the thirty seconds it is cached for, the edge's authentication refuses the key too. *)
Theorem revocation_reaches_edge t0 m0 t s p t' s' raw :
  cp_run t0 {| cp_client := mkClient ∅ m0; cp_flight := [] |} t s → revoked p (service (cp_client s)) →
  cp_run t s t' s' → KeyPrefix raw = Some p →
  (∀ now now2, t + httpTimeout + cacheTTL <= now →
     fst (client_Authenticate reachable now now2 raw (cp_client s')) = Err tt) ∧
  (∀ now req d, Authz.APIKey req = raw →
     fst (client_CheckBind reachable now req (cp_client s')) = Ok d → Allow d = false).
Proof.
  intros H0 Hr Hrun Hk.
  assert (Hfr : cp_fresh t s).
  { clear Hr Hrun. remember {| cp_client := mkClient ∅ m0; cp_flight := [] |} as si eqn:Hsi.
    induction H0 as [t s|t0 s0 t1 s1 t2 s2 _ IH Ht Hs]; subst.
    - split; [intros r e He; cbn in He; by rewrite lookup_empty in He|intros ? ? ? Hin; by apply not_elem_of_nil in Hin].
    - eapply cp_step_fresh; [done|done|]. by apply IH. }
  assert (Hinv : revoked p (service (cp_client s')) ∧ cp_ends p t s').
  { assert (He : cp_ends p t s).
    { destruct Hfr as [Hc Hl]. split; [intros r e _ He; specialize (Hc r e He); assert (0 <= httpTimeout) by done; lia|intros ? ? ? _; apply Hl]. }
    clear H0 Hfr. revert He. generalize t at 1 2 as tr. intros tr He.
    induction Hrun as [t s|t s t1 s1 t2 s2 _ IH Ht Hs]; [done|].
    destruct (IH Hr He) as [Hr1 He1]. by eapply cp_step_revoked. }
  destruct Hinv as [Hr' [He' _]]. split.
  - intros now now2 Hnow. unfold client_Authenticate, auth_hit.
    assert (Hcall : fst (auth_call reachable now raw (cp_client s')) = Err tt).
    { destruct (auth_call reachable now raw (cp_client s')) as [r c] eqn:Ha.
      apply auth_call_cases in Ha as [_ [[-> _]|Ha]]; [done|].
      apply (ent_Authenticate_revoked p) in Ha as [_ Ha]; [|done]. by specialize (Ha Hk). }
    destruct (auth_call reachable now raw (cp_client s')) as [r c]. cbn in Hcall. subst r.
    destruct (authCache (cp_client s') !! raw) as [e|] eqn:Hc; [|done]. specialize (He' raw e Hk Hc).
    unfold Before. by destruct (Z.ltb_spec now (ce_expiry e)); [lia|].
  - intros now req d <-. unfold client_CheckBind. destruct (negb _); [done|]. simpl.
    unfold ent_CheckBind. destruct (ent_Authenticate IDKey now (Authz.APIKey req) (service (cp_client s'))) as [r m] eqn:Ha.
    apply (ent_Authenticate_revoked p) in Ha as [_ ->]; [|done|done]. simpl. by intros [= <-].
Qed.
End revocation.

(** * Examples *)
Definition ex_idkey (key : string) (salt : list Z) (t m p n : Z) : list Z :=
  replicate (Z.to_nat n) (Z.of_nat (String.length key) mod 256).

Lemma ex_idkey_ok : IDKey_ok ex_idkey.
Proof.
  intros key salt t m p n Hn. unfold ex_idkey. rewrite length_replicate. split; [lia|].
  apply Forall_replicate. unfold is_byte. pose proof (Z.mod_pos_bound (Z.of_nat (String.length key)) 256). lia.
Qed.

Definition ex_gk : GeneratedKey := GenerateAPIKey ex_idkey [1; 2] [3] [4; 5].
Definition ex_key : APIKey :=
  {| ak_ID := "key_1"; ak_OrgID := "org_1"; ak_Name := "ci"; ak_Prefix := gk_Prefix ex_gk; ak_Hash := gk_Hash ex_gk;
     ak_LastUsedAt := None; ak_RevokedAt := None; ak_CreatedAt := 7 |}.
Definition keyed_store : MemStore :=
  store_exec (store_exec ex_store (SCreateOrg 5 [9] (ex_org "org_1" "pro" "cus_1"))) (SCreateAPIKey 7 [] ex_key).

Lemma keyed_store_reachable : store_reachable keyed_store.
Proof.
  apply sr_step; [apply sr_step; [apply ex_store_reachable|done]|]. vm_compute. reflexivity.
Qed.

Lemma api_key_lifecycle_witness :
  fst (AuthenticateAPIKey ex_idkey 9 (gk_Full ex_gk) keyed_store) = Ok ex_key.
Proof.
  destruct (api_key_lifecycle ex_idkey (store_exec ex_store (SCreateOrg 5 [9] (ex_org "org_1" "pro" "cus_1")))
    7 [] [1; 2] [3] [4; 5] ex_key ex_key keyed_store) as (_ & Hok & _).
  - apply ex_idkey_ok.
  - unfold is_byte. repeat constructor; lia.
  - apply sr_step; [apply ex_store_reachable|done].
  - vm_compute. reflexivity.
  - reflexivity.
  - reflexivity.
  - reflexivity.
  - vm_compute. reflexivity.
  - exact (Hok 9).
Defined.

Definition ex_bind_req (sub : string) : BindRequest :=
  {| Authz.APIKey := gk_Full ex_gk; Type_ := "udp"; Subdomain := sub; CustomHost := ""; RemotePort := 0; Region := "" |}.

Lemma CheckBind_exact_witness :
  (∃ d m', ent_CheckBind ex_idkey true [1; 2] ex_month (ex_bind_req "demo") keyed_store = (Ok d, m') ∧ Allow d = true) ∧
  (∃ d m', ent_CheckBind ex_idkey true [1; 2] ex_month (ex_bind_req "other") keyed_store = (Ok d, m') ∧
     Allow d = false ∧ ErrorCode d ≠ "").
Proof.
  split.
  - destruct (CheckBind_exact ex_idkey true [1; 2] ex_month (ex_bind_req "demo") keyed_store
      (store_reachable_ok _ keyed_store_reachable)) as (d & m' & Hrun & Hiff & _).
    exists d, m'. split; [exact Hrun|]. apply (f_equal fst) in Hrun. vm_compute in Hrun. by injection Hrun as <-.
  - destruct (CheckBind_exact ex_idkey true [1; 2] ex_month (ex_bind_req "other") keyed_store
      (store_reachable_ok _ keyed_store_reachable)) as (d & m' & Hrun & _ & _ & Hdeny).
    exists d, m'. split; [exact Hrun|]. apply (f_equal fst) in Hrun. vm_compute in Hrun.
    assert (Ha : Allow d = false) by (by injection Hrun as <-). auto.
Defined.

(** The key authenticates at 100 and is revoked at 200, before the edge has read the answer,
    which it does four seconds later and caches for thirty. *)
Definition answered_flight : CpState :=
  {| cp_client := snd (auth_call (H := ApiEntitlements ex_idkey true (λ _, [])) (λ _, true) 100 (gk_Full ex_gk) (mkClient ∅ keyed_store));
     cp_flight := [(100, gk_Full ex_gk, ("org_1", "pro"))] |}.
Definition revoked_flight : CpState :=
  cp_with (mkClient (authCache (cp_client answered_flight))
             (store_exec (service (cp_client answered_flight)) (SRevokeAPIKey "key_1" "org_1" 200))) answered_flight.
Definition revoked_cached : CpState :=
  {| cp_client := auth_remember (100 + 4 * Second) (gk_Full ex_gk) ("org_1", "pro") (cp_client revoked_flight); cp_flight := [] |}.

Lemma revocation_reaches_edge_witness :
  is_ok (fst (client_Authenticate (H := ApiEntitlements ex_idkey true (λ _, [])) (λ _, true) (200 + 33 * Second) 0
         (gk_Full ex_gk) (cp_client revoked_cached))) = true ∧
  fst (client_Authenticate (H := ApiEntitlements ex_idkey true (λ _, [])) (λ _, true) (200 + httpTimeout + cacheTTL) 0
         (gk_Full ex_gk) (cp_client revoked_cached)) = Err tt.
Proof.
  split; [vm_compute; reflexivity|].
  refine (proj1 (revocation_reaches_edge ex_idkey true (λ _, []) (λ _, true) 0 keyed_store 200 revoked_flight
    (gk_Prefix ex_gk) (100 + 4 * Second) revoked_cached (gk_Full ex_gk) _ _ _ _) (200 + httpTimeout + cacheTTL) 0 _).
  - eapply (cp_next _ _ _ _ _ _ 100 answered_flight); [eapply (cp_next _ _ _ _ _ _ 0); [apply cp_refl|lia|]|lia|].
    + apply (cp_answered _ _ _ _ 100 {| cp_client := mkClient ∅ keyed_store; cp_flight := [] |} (gk_Full ex_gk) ("org_1", "pro"));
        [reflexivity|vm_compute; reflexivity].
    + apply (cp_store _ _ _ _ 200 answered_flight (SRevokeAPIKey "key_1" "org_1" 200)). done.
  - do 2 eexists. split; [vm_compute; reflexivity|]. split; [vm_compute; reflexivity|]. vm_compute. eauto.
  - eapply (cp_next _ _ _ _ _ _ 200); [apply cp_refl|by vm_compute|].
    apply (cp_read _ _ _ _ _ revoked_flight 100 (gk_Full ex_gk) ("org_1", "pro") [] []); [reflexivity|by vm_compute].
  - vm_compute. reflexivity.
  - lia.
Defined.
