(* ===== verification/Inspect.v ===== *)
(** The agent's request inspector (internal/agent/inspect): the ring buffer of
    captured exchanges with its live subscribers, the bounded body capture of
    internal/agent/forward.go, replay, and the guard against foreign hosts. *)
From S2P Require Import Prelude GoStrings Wire Ingress.
From Stdlib Require Import Ascii Strings.Byte.

Open Scope Z_scope.

(** * Addresses
    [net.ParseIP] for the guard: [None] stands for nil. *)

(** A decimal field of a dotted address: no leading zero, at most 255. *)
Definition dec_octet (f : string) : option Z :=
  match f with
  | EmptyString => None
  | String "0" (String _ _) => None
  | _ => n ← parse_digits 0 f; if (n <=? 255) then Some n else None
  end.
Definition parseIPv4 (s : string) : option (list Z) :=
  match Split s "."%char with
  | [a; b; c; d] =>
      a ← dec_octet a; b ← dec_octet b; c ← dec_octet c; d ← dec_octet d;
      Some [a; b; c; d]
  | _ => None
  end.

Definition hex_val (a : ascii) : option Z :=
  match digit_val a with
  | Some d => Some d
  | None =>
      let n := Z.of_N (N_of_ascii (lower_ascii a)) in
      if (97 <=? n) && (n <=? 102) then Some (n - 87) else None
  end.
(** The hexadecimal digits at the front: how many, their value, the rest. *)
Fixpoint take_hex (off acc : Z) (s : string) : option (Z * Z * string) :=
  match s with
  | String a r =>
      match hex_val a with
      | Some d => if 3 <? off then None else take_hex (off + 1) (acc * 16 + d) r
      | None => Some (off, acc, s)
      end
  | EmptyString => Some (off, acc, s)
  end.

(** The groups of an IPv6 address after an initial "::": [out] holds the bytes so
    far, [ell] where the "::" stood. *)
Fixpoint v6_groups (fuel : nat) (ell : option nat) (out : list Z) (s : string) : option (option nat * list Z * string) :=
  match fuel with
  | O => Some (ell, out, s)
  | S fuel =>
      if (16 <=? length out)%nat then Some (ell, out, s)
      else
        '(off, acc, rest) ← take_hex 0 0 s;
        if off =? 0 then None
        else if HasPrefix rest "." then
          if match ell with None => negb (length out =? 12)%nat | Some _ => false end then None
          else if (16 <? length out + 4)%nat then None
          else v4 ← parseIPv4 s; Some (ell, out ++ v4, "")
        else
          let out := out ++ [acc / 256; acc mod 256] in
          match rest with
          | EmptyString => Some (ell, out, "")
          | String ":" EmptyString => None
          | String ":" (String ":" r) =>
              match ell with
              | Some _ => None
              | None => if String.eqb r "" then Some (Some (length out), out, "") else v6_groups fuel (Some (length out)) out r
              end
          | String ":" r => v6_groups fuel ell out r
          | _ => None
          end
  end.
Definition parseIPv6 (s : string) : option (list Z) :=
  if has_byte s "%"%char then None
  else
    let start := HasPrefix s "::" in
    let rest := if start then drop_string 2 s else s in
    if start && String.eqb rest "" then Some (replicate 16 0)
    else
      '(ell, out, rest) ← v6_groups 9 (if start then Some 0%nat else None) [] rest;
      if negb (String.eqb rest "") then None
      else if (length out <? 16)%nat then
        match ell with
        | None => None
        | Some e => Some (take e out ++ replicate (16 - length out) 0 ++ drop e out)
        end
      else match ell with None => Some out | Some _ => None end.

(** What comes first, a dot or a colon, decides the family. *)
Fixpoint ip_family (s : string) : option bool :=
  match s with
  | EmptyString => None
  | String "." _ => Some true
  | String ":" _ => Some false
  | String "%" _ => None
  | String _ r => ip_family r
  end.
(** The bytes of the address, four when it is an IPv4 address in either form. *)
Definition ParseIP (s : string) : option (list Z) :=
  v4 ← ip_family s;
  if (v4 : bool) then parseIPv4 s
  else ip ← parseIPv6 s;
       Some (if bool_decide (take 12 ip = replicate 10 0 ++ [255; 255]) then drop 12 ip else ip).
Definition IsLoopback (ip : list Z) : bool :=
  if (length ip =? 4)%nat then bool_decide (head ip = Some 127) else bool_decide (ip = replicate 15 0 ++ [1]).

Definition isLoopbackHost (host : string) : bool :=
  if String.eqb host "" then false
  else
    let h := match SplitHostPort host with Some (hh, _) => hh | None => host end in
    EqualFold h "localhost" || match ParseIP h with Some ip => IsLoopback ip | None => false end.

(** * Captures *)
Record CapturedRequest := {
  cr_ID : string; cr_TunnelID : string; cr_Proto : string; cr_Method : string; cr_Host : string; cr_Path : string;
  cr_Status : Z; cr_StartedAt : Time; cr_DurationMs : Z;
  cr_ReqHeaders : gmap string string; cr_RespHeaders : gmap string string;
  cr_ReqBody : list byte; cr_RespBody : list byte; cr_BytesIn : Z; cr_BytesOut : Z; cr_LocalAddr : string;
}.
Definition with_id (id : string) (c : CapturedRequest) : CapturedRequest :=
  {| cr_ID := id; cr_TunnelID := cr_TunnelID c; cr_Proto := cr_Proto c; cr_Method := cr_Method c; cr_Host := cr_Host c;
     cr_Path := cr_Path c; cr_Status := cr_Status c; cr_StartedAt := cr_StartedAt c; cr_DurationMs := cr_DurationMs c;
     cr_ReqHeaders := cr_ReqHeaders c; cr_RespHeaders := cr_RespHeaders c; cr_ReqBody := cr_ReqBody c;
     cr_RespBody := cr_RespBody c; cr_BytesIn := cr_BytesIn c; cr_BytesOut := cr_BytesOut c; cr_LocalAddr := cr_LocalAddr c |}.

Definition MaxBodyCapture : Z := 64 * 1024.
Definition capBody (b : list byte) : list byte := take (Z.to_nat MaxBodyCapture) b.

(** ** The recorder.  A subscriber is the content of its channel of 32. *)
Record Recorder := mkRecorder {
  rc_capN : Z; rc_buf : list CapturedRequest; rc_seq : Z;
  rc_subs : gmap Z (list CapturedRequest); rc_nextSub : Z;
}.

Definition NewRecorder (capacity : Z) : Recorder :=
  mkRecorder (if capacity <=? 0 then 128 else capacity) [] 0 ∅ 0.

Definition notify (c : CapturedRequest) (q : list CapturedRequest) : list CapturedRequest :=
  if (length q <? 32)%nat then q ++ [c] else q.

Definition rec_Add (c : CapturedRequest) (r : Recorder) : CapturedRequest * Recorder :=
  let seq := (rc_seq r + 1) mod 2 ^ 64 in
  let c := if String.eqb (cr_ID c) "" then with_id ("r" +:+ Itoa seq) c else c in
  let buf := if rc_capN r <=? Z.of_nat (length (rc_buf r)) then tail (rc_buf r) else rc_buf r in
  (c, mkRecorder (rc_capN r) (buf ++ [c]) seq (notify c <$> rc_subs r) (rc_nextSub r)).

Definition rec_List (r : Recorder) : list CapturedRequest := reverse (rc_buf r).
Definition rec_Clear (r : Recorder) : Recorder := mkRecorder (rc_capN r) [] (rc_seq r) (rc_subs r) (rc_nextSub r).
Definition rec_Get (id : string) (r : Recorder) : option CapturedRequest :=
  find_first (λ c, String.eqb (cr_ID c) id) (rc_buf r).
Definition rec_Subscribe (r : Recorder) : Z * Recorder :=
  (rc_nextSub r, mkRecorder (rc_capN r) (rc_buf r) (rc_seq r) (<[rc_nextSub r := []]> (rc_subs r)) (rc_nextSub r + 1)).
Definition rec_Unsubscribe (id : Z) (r : Recorder) : Recorder :=
  mkRecorder (rc_capN r) (rc_buf r) (rc_seq r) (delete id (rc_subs r)) (rc_nextSub r).

(** One turn of the event-stream loop: the oldest capture waiting in the channel. *)
Definition stream_next (id : Z) (r : Recorder) : option CapturedRequest * Recorder :=
  match rc_subs r !! id with
  | Some (c :: q) => (Some c, mkRecorder (rc_capN r) (rc_buf r) (rc_seq r) (<[id := q]> (rc_subs r)) (rc_nextSub r))
  | _ => (None, r)
  end.

(** ** Replay *)
Definition headerMap (h : Header) : gmap string string := Join ", " <$> h.

(** The header names are canonical already. *)
Definition isHopByHop (k : string) : bool :=
  bool_decide (k ∈ ["Connection"; "Keep-Alive"; "Transfer-Encoding"; "Upgrade"; "Proxy-Connection"; "Te"; "Trailer"]).

(** A request as the inspector or the agent sends it to the local service, and the
    response: bodies as the chunks in which they are read. *)
Record LocalRequest := {
  lr_Addr : string; lr_Method : string; lr_Host : string; lr_Path : string; lr_Header : Header; lr_Body : list byte;
}.
Record LocalResponse := { lp_Status : Z; lp_Header : Header; lp_Body : list (list byte) }.

Definition replay_request (c : CapturedRequest) : option LocalRequest :=
  if String.eqb (cr_LocalAddr c) "" then None
  else
    let host := match SplitHostPort (cr_LocalAddr c) with Some _ => cr_LocalAddr c | None => cr_LocalAddr c +:+ ":80" end in
    Some {| lr_Addr := host; lr_Method := cr_Method c; lr_Host := host; lr_Path := cr_Path c;
            lr_Header := (λ v, [v]) <$> filter (λ kv, isHopByHop (fst kv) = false) (cr_ReqHeaders c);
            lr_Body := cr_ReqBody c |}.

(** [Server.replay]: [answer] is what the local service does with the request. *)
Definition insp_replay (answer : LocalRequest → result string LocalResponse) (start finish : Time) (c : CapturedRequest)
    (r : Recorder) : result string CapturedRequest * Recorder :=
  match replay_request c with
  | None => (Err "no local address recorded", r)
  | Some req =>
      match answer req with
      | Err e => (Err e, r)
      | Ok resp =>
          let out :=
            {| cr_ID := ""; cr_TunnelID := cr_TunnelID c; cr_Proto := cr_Proto c; cr_Method := cr_Method c;
               cr_Host := cr_Host c; cr_Path := cr_Path c +:+ " (replay)"; cr_Status := lp_Status resp;
               cr_StartedAt := start; cr_DurationMs := (finish - start) / Millisecond;
               cr_ReqHeaders := cr_ReqHeaders c; cr_RespHeaders := headerMap (lp_Header resp);
               cr_ReqBody := cr_ReqBody c; cr_RespBody := capBody (concat (lp_Body resp));
               cr_BytesIn := 0; cr_BytesOut := 0; cr_LocalAddr := cr_LocalAddr c |} in
          let '(c, r) := rec_Add out r in (Ok c, r)
      end
  end.

(** The routes of the inspector, behind its guard: the status and the captures of
    the answer. *)
Inductive InspReq := IndexPage | ListRequests | GetRequest (id : string) | ReplayRequest (id : string).
Inductive InspBody := BPage | BCaptures (l : list CapturedRequest) | BCapture (c : CapturedRequest) | BError (msg : string).

Definition insp_handle (answer : LocalRequest → result string LocalResponse) (start finish : Time) (q : InspReq)
    (r : Recorder) : Z * InspBody * Recorder :=
  match q with
  | IndexPage => (200, BPage, r)
  | ListRequests => (200, BCaptures (rec_List r), r)
  | GetRequest id =>
      match rec_Get id r with Some c => (200, BCapture c, r) | None => (404, BError "not found", r) end
  | ReplayRequest id =>
      match rec_Get id r with
      | None => (404, BError "not found", r)
      | Some c =>
          match insp_replay answer start finish c r with
          | (Ok c, r) => (200, BCapture c, r)
          | (Err e, r) => (502, BError e, r)
          end
      end
  end.

Definition guardLoopback {S} (host : string) (next : S → Z * InspBody * S) (s : S) : Z * InspBody * S :=
  if isLoopbackHost host then next s else (403, BError "forbidden: non-loopback host", s).

(** * Bounded capture of a streamed body *)
Record capWriter := { cw_max : Z; cw_buf : list byte; cw_total : Z }.
Definition newCapWriter (max : Z) : capWriter := {| cw_max := max; cw_buf := []; cw_total := 0 |}.
Definition cap_Write (p : list byte) (w : capWriter) : capWriter :=
  let room := cw_max w - Z.of_nat (length (cw_buf w)) in
  {| cw_max := cw_max w; cw_total := add64 (cw_total w) (Z.of_nat (length p));
     cw_buf := if 0 <? room then
                 let room := if Z.of_nat (length p) <? room then Z.of_nat (length p) else room in
                 cw_buf w ++ take (Z.to_nat room) p
               else cw_buf w |}.
(** Everything written through it. *)
Definition cap_all (ps : list (list byte)) (w : capWriter) : capWriter := foldl (λ w p, cap_Write p w) w ps.
