(* ===== verification/InspectSafety.v ===== *)
(** What the inspector promises: it shows exactly the newest captures, keeps a
    bounded prefix of every body, finds a capture by its id, and answers loopback
    hosts only. *)
From S2P Require Import Prelude GoStrings Wire Ingress Inspect.
From Stdlib Require Import Ascii Strings.Byte.

Open Scope Z_scope.

(** * The ring buffer refines the list of everything captured *)
Inductive rec_op := RAdd (c : CapturedRequest) | RClear | RSub | RUnsub (id : Z) | RRecv (id : Z).

Definition rec_exec (r : Recorder) (o : rec_op) : Recorder :=
  match o with
  | RAdd c => snd (rec_Add c r)
  | RClear => rec_Clear r
  | RSub => snd (rec_Subscribe r)
  | RUnsub id => rec_Unsubscribe id r
  | RRecv id => snd (stream_next id r)
  end.

(** The captures since the last clear, and how many there ever were. *)
Definition stamp (n : Z) (c : CapturedRequest) : CapturedRequest :=
  if String.eqb (cr_ID c) "" then with_id ("r" +:+ Itoa n) c else c.
Definition hist_op (h : Z * list CapturedRequest) (o : rec_op) : Z * list CapturedRequest :=
  match o with
  | RAdd c => let n := (fst h + 1) mod 2 ^ 64 in (n, snd h ++ [stamp n c])
  | RClear => (fst h, [])
  | RSub | RUnsub _ | RRecv _ => h
  end.
Definition history (ops : list rec_op) : Z * list CapturedRequest := foldl hist_op (0, []) ops.

Definition is_add (o : rec_op) : bool := match o with RAdd _ => true | _ => false end.
Definition adds (ops : list rec_op) : Z := Z.of_nat (length (filter (λ o, is_add o = true) ops)).
Definition unnamed (o : rec_op) : Prop := match o with RAdd c => cr_ID c = "" | _ => True end.

Record rec_inv (n : Z) (h : Z * list CapturedRequest) (r : Recorder) : Prop := {
  ri_cap : rc_capN r = n;
  ri_seq : rc_seq r = fst h;
  ri_buf : rc_buf r = drop (length (snd h) - Z.to_nat n) (snd h);
}.

Lemma stream_next_keeps id r :
  let r' := snd (stream_next id r) in
  rc_capN r' = rc_capN r ∧ rc_seq r' = rc_seq r ∧ rc_buf r' = rc_buf r.
Proof. unfold stream_next. by destruct (rc_subs r !! id) as [[|]|]. Qed.

Lemma rec_inv_step n h r o : 0 < n → rec_inv n h r → rec_inv n (hist_op h o) (rec_exec r o).
Proof.
  intros Hn [Hc Hs Hb]. destruct h as [k l]. simpl in *. destruct o as [c| | |id|id]; simpl; [|by split..|by destruct (stream_next_keeps id r) as (E1 & E2 & E3); split; rewrite ?E1, ?E2, ?E3].
  split; simpl; [done|by rewrite Hs|]. unfold stamp. rewrite Hs, Hc, Hb, length_drop, length_app. simpl.
  set (x := if String.eqb (cr_ID c) "" then _ else c).
  destruct (Z.leb_spec n (Z.of_nat (length l - (length l - Z.to_nat n)))) as [Hle|Hgt].
  - rewrite skipn_app. replace (length l + 1 - Z.to_nat n - length l)%nat with 0%nat by lia. f_equal.
    change (tail (drop (length l - Z.to_nat n) l)) with (drop 1 (drop (length l - Z.to_nat n) l)).
    rewrite drop_drop. f_equal. lia.
  - rewrite skipn_app. replace (length l + 1 - Z.to_nat n)%nat with 0%nat by lia.
    replace (length l - Z.to_nat n)%nat with 0%nat by lia. by rewrite !drop_0.
Qed.

Lemma rec_run_inv cap ops :
  let n := if cap <=? 0 then 128 else cap in
  rec_inv n (history ops) (foldl rec_exec (NewRecorder cap) ops).
Proof.
  intros n. assert (Hn : 0 < n) by (unfold n; destruct (Z.leb_spec cap 0); lia).
  unfold history. assert (H0 : rec_inv n (0, []) (NewRecorder cap)) by (by split).
  revert H0. generalize (0, @nil CapturedRequest) (NewRecorder cap).
  induction ops as [|o ops IH]; intros h r Hinv; simpl; [done|]. by apply IH, rec_inv_step.
Qed.

(** Ids are handed out once. *)
Record ids_inv (h : Z * list CapturedRequest) (total : Z) : Prop := {
  ii_total : fst h = total;
  ii_ids : ∃ ks, (cr_ID <$> snd h) = (λ k, "r" +:+ Itoa k) <$> ks ∧ NoDup ks ∧ Forall (λ k, k <= total) ks;
}.

Lemma id_inj i j : "r" +:+ Itoa i = "r" +:+ Itoa j → i = j.
Proof. intros E. apply (inj _) in E. by apply Itoa_inj. Qed.

Lemma ids_inv_step h t o :
  unnamed o → 0 <= t → t + adds [o] < 2 ^ 64 → ids_inv h t → ids_inv (hist_op h o) (t + adds [o]).
Proof.
  intros Hu Ht0 Ht [Hf (ks & Hks & Hnd & Hle)]. destruct h as [k l]. simpl in *. subst k.
  destruct o as [c| | |id|id]; unfold adds in *; simpl in *.
  - rewrite Z.mod_small by lia. split; [done|]. simpl. exists (ks ++ [t + 1]). split; [|split].
    + rewrite !fmap_app, Hks. simpl. unfold stamp. by rewrite Hu.
    + apply list.NoDup_app. split_and!; [done| |apply list.NoDup_singleton].
      intros x Hx ->%list_elem_of_singleton. rewrite list.Forall_forall in Hle. apply Hle in Hx. lia.
    + apply Forall_app. split; [|by repeat constructor]. eapply list.Forall_impl; [exact Hle|]. simpl. lia.
  - split; simpl; [lia|]. exists []. by repeat constructor.
  - rewrite Z.add_0_r. split; [done|]. by exists ks.
  - rewrite Z.add_0_r. split; [done|]. by exists ks.
  - rewrite Z.add_0_r. split; [done|]. by exists ks.
Qed.

Lemma ids_run ops h t :
  Forall unnamed ops → 0 <= t → t + adds ops < 2 ^ 64 → ids_inv h t → ids_inv (foldl hist_op h ops) (t + adds ops).
Proof.
  revert h t. induction ops as [|o ops IH]; intros h t Hu Ht0 Ht Hinv; [by unfold adds; simpl; rewrite Z.add_0_r|].
  inversion Hu as [|? ? Ho Hu']. subst. simpl.
  assert (E : adds (o :: ops) = adds [o] + adds ops).
  { unfold adds. change (o :: ops) with ([o] ++ ops). rewrite list.filter_app, length_app. lia. }
  assert (0 <= adds [o] ∧ 0 <= adds ops) by (unfold adds; lia).
  rewrite E, Z.add_assoc in *. apply IH; [done|lia|lia|]. apply ids_inv_step; [done|done|lia|done].
Qed.

Lemma find_first_nodup {A} (f : A → string) l x :
  NoDup (f <$> l) → x ∈ l → find_first (λ y, String.eqb (f y) (f x)) l = Some x.
Proof.
  induction l as [|y l IH]; [by intros _ ?%not_elem_of_nil|]. simpl. intros [Hn Hnd]%list.NoDup_cons Hx.
  destruct (String.eqb_spec (f y) (f x)) as [E|Hne].
  - apply elem_of_cons in Hx as [->|Hx]; [done|]. exfalso. apply Hn. rewrite E. by apply list_elem_of_fmap_2.
  - apply elem_of_cons in Hx as [->|Hx]; [done|]. by apply IH.
Qed.

(** The inspector shows exactly the newest captures: after any sequence of
    captures, clears and subscriptions, the list is what was captured since the last
    clear, newest first, cut at the capacity (128 when none is given); and every
    capture it shows is found again by the id the recorder gave it. *)
Theorem recorder_keeps_newest cap ops :
  Forall unnamed ops → adds ops < 2 ^ 64 →
  let n := if cap <=? 0 then 128 else cap in
  let r := foldl rec_exec (NewRecorder cap) ops in
  rec_List r = take (Z.to_nat n) (reverse (snd (history ops))) ∧
  ∀ c, c ∈ rec_List r → rec_Get (cr_ID c) r = Some c.
Proof.
  intros Hu Hadds n r. destruct (rec_run_inv cap ops) as [_ _ Hb]. fold n r in Hb. split.
  - unfold rec_List. rewrite Hb, take_reverse. done.
  - unfold rec_List, rec_Get. intros c Hc. rewrite elem_of_reverse in Hc. apply find_first_nodup; [|done].
    destruct (ids_run ops (0, []) 0 Hu) as [_ (ks & Hks & Hnd & _)]; [lia|lia| |].
    { split; [done|]. exists []. by repeat constructor. }
    rewrite Hb, fmap_drop. fold (history ops) in Hks. rewrite Hks.
    eapply sublist_NoDup; [|apply sublist_drop]. apply NoDup_fmap_2; [|done]. intros i j. apply id_inj.
Qed.

Definition ex_capture (m p : string) (st : Z) : CapturedRequest :=
  {| cr_ID := ""; cr_TunnelID := "ct_1"; cr_Proto := "http"; cr_Method := m; cr_Host := "app.trqsh.uz"; cr_Path := p;
     cr_Status := st; cr_StartedAt := 0; cr_DurationMs := 3; cr_ReqHeaders := {["Accept" := "*/*"]}; cr_RespHeaders := ∅;
     cr_ReqBody := []; cr_RespBody := []; cr_BytesIn := 0; cr_BytesOut := 0; cr_LocalAddr := "localhost:3000" |}.

Lemma recorder_keeps_newest_witness :
  let ops := [RSub; RAdd (ex_capture "GET" "/a" 200); RAdd (ex_capture "GET" "/b" 200); RRecv 0;
              RAdd (ex_capture "POST" "/c" 500)] in
  (cr_Path <$> rec_List (foldl rec_exec (NewRecorder 2) ops)) = ["/c"; "/b"] ∧
  rec_List (foldl rec_exec (NewRecorder 2) ops) = take 2 (reverse (snd (history ops))).
Proof.
  intros ops. split; [by vm_compute|].
  apply (recorder_keeps_newest 2 ops); [by repeat constructor|by vm_compute].
Defined.

(** * Bodies *)
Lemma take_take_app {A} n (x y : list A) : take n (take n x ++ y) = take n (x ++ y).
Proof.
  revert n. induction x as [|a x IH]; intros [|n]; simpl; [done..|]. by rewrite IH.
Qed.

Lemma cap_all_inv ps w :
  0 <= cw_max w → Z.of_nat (length (cw_buf w)) <= cw_max w →
  0 <= cw_total w → cw_total w + Z.of_nat (length (concat ps)) < 2 ^ 63 →
  cap_all ps w =
  {| cw_max := cw_max w; cw_buf := take (Z.to_nat (cw_max w)) (cw_buf w ++ concat ps);
     cw_total := cw_total w + Z.of_nat (length (concat ps)) |}.
Proof.
  revert w. induction ps as [|p ps IH]; intros [m b t] Hm Hb Ht Hlt; simpl in *.
  - rewrite app_nil_r, Z.add_0_r, take_ge by lia. done.
  - rewrite length_app in Hlt.
    assert (Ew : cap_Write p {| cw_max := m; cw_buf := b; cw_total := t |}
            = {| cw_max := m; cw_buf := take (Z.to_nat m) (b ++ p); cw_total := t + Z.of_nat (length p) |}).
    { unfold cap_Write. simpl. f_equal; [|apply add64_exact; unfold in64; lia].
      rewrite firstn_app, (take_ge b) by lia.
      destruct (Z.ltb_spec 0 (m - Z.of_nat (length b))) as [Hr|Hr].
      - f_equal. destruct (Z.ltb_spec (Z.of_nat (length p)) (m - Z.of_nat (length b))); [rewrite !take_ge by lia; done|].
        f_equal. lia.
      - replace (Z.to_nat m - length b)%nat with 0%nat by lia. by rewrite app_nil_r. }
    rewrite Ew, IH; simpl; rewrite ?length_take; [|lia..]. f_equal; [|rewrite length_app; lia].
    by rewrite take_take_app, <-app_assoc.
Qed.

(** * The guard *)
Lemma digit_val_Some a d : digit_val a = Some d → a = ascii_of_N (48 + Z.to_N d) ∧ 0 <= d <= 9.
Proof.
  unfold digit_val. destruct (Z.leb_spec 48 (Z.of_N (N_of_ascii a))), (Z.leb_spec (Z.of_N (N_of_ascii a)) 57); simpl; try done.
  intros [= <-]. split; [|lia]. rewrite <-(ascii_N_embedding a) at 1. f_equal. lia.
Qed.

Lemma parse_digits_grow s acc n :
  0 <= acc → parse_digits acc s = Some n → acc * 10 ^ Z.of_nat (String.length s) <= n.
Proof.
  revert acc. induction s as [|a s IH]; intros acc Hacc; simpl; [intros [= <-]; lia|].
  destruct (digit_val a) as [d|] eqn:Hd; [|done]. simpl. apply digit_val_Some in Hd as [_ Hd].
  intros Hp. apply IH in Hp; [|lia]. etrans; [|exact Hp].
  rewrite Nat2Z.inj_succ, Z.pow_succ_r by lia. pose proof (Z.pow_nonneg 10 (Z.of_nat (String.length s)) ltac:(lia)). nia.
Qed.

(** The text of a number below 1000 is its digits. *)
Definition digit_char (d : Z) : ascii := ascii_of_N (48 + Z.to_N d).
Lemma decimal_text d1 d2 d3 :
  0 <= d1 <= 9 → 0 <= d2 <= 9 → 0 <= d3 <= 9 →
  let c := digit_char in
  Itoa d1 = String (c d1) "" ∧
  (d1 ≠ 0 → Itoa (d1 * 10 + d2) = String (c d1) (String (c d2) "") ∧
            Itoa ((d1 * 10 + d2) * 10 + d3) = String (c d1) (String (c d2) (String (c d3) ""))).
Proof.
  intros H1 H2 H3 c.
  set (P := λ d1 d2 d3, Itoa d1 = String (c d1) "" ∧
    (d1 = 0 ∨ Itoa (d1 * 10 + d2) = String (c d1) (String (c d2) "") ∧
            Itoa ((d1 * 10 + d2) * 10 + d3) = String (c d1) (String (c d2) (String (c d3) "")))).
  assert (Hall : forallb (λ i, forallb (λ j, forallb (λ k, bool_decide (P (Z.of_nat i) (Z.of_nat j) (Z.of_nat k))) (seq 0 10))
    (seq 0 10)) (seq 0 10) = true) by (vm_compute; reflexivity).
  rewrite forallb_forall in Hall. specialize (Hall (Z.to_nat d1) ltac:(apply in_seq; lia)).
  rewrite forallb_forall in Hall. specialize (Hall (Z.to_nat d2) ltac:(apply in_seq; lia)).
  rewrite forallb_forall in Hall. specialize (Hall (Z.to_nat d3) ltac:(apply in_seq; lia)).
  rewrite !Z2Nat.id in Hall by lia. apply bool_decide_eq_true in Hall as [E1 E2]. split; [done|].
  intros Hd. by destruct E2.
Qed.

Lemma dec_octet_cons a r :
  dec_octet (String a r) =
  if Ascii.eqb a "0" && negb (String.eqb r "") then None
  else n ← parse_digits 0 (String a r); if (n <=? 255) then Some n else None.
Proof. destruct a as [[] [] [] [] [] [] [] []], r; reflexivity. Qed.

(** [d] is the next digit of the text [s], whose number is [n]. *)
Ltac next_digit Hn d Hd :=
  simpl in Hn;
  match type of Hn with context [digit_val ?a] => destruct (digit_val a) as [d|] eqn:Hd; [|done] end;
  simpl in Hn; apply digit_val_Some in Hd as [-> Hd].

Lemma dec_octet_text f n : dec_octet f = Some n → f = Itoa n ∧ 0 <= n <= 255.
Proof.
  destruct f as [|a r]; [done|]. rewrite dec_octet_cons.
  destruct (Ascii.eqb a "0" && negb (String.eqb r "")) eqn:Hz; [done|].
  destruct (parse_digits 0 (String a r)) as [m|] eqn:Hm; [|done]. cbn [mbind option_bind].
  destruct (Z.leb_spec m 255) as [Hle|]; [|done]. intros [= <-].
  next_digit Hm d1 D1. destruct r as [|b r].
  { injection Hm as <-. split; [|lia]. symmetry. apply (decimal_text d1 0 0); lia. }
  assert (Hd1 : d1 ≠ 0) by (intros ->; done).
  next_digit Hm d2 D2. destruct r as [|e r].
  { injection Hm as <-. split; [|lia]. symmetry. by apply (decimal_text d1 d2 0). }
  next_digit Hm d3 D3. destruct r as [|g r].
  { injection Hm as <-. split; [|lia]. symmetry. by apply (decimal_text d1 d2 d3). }
  next_digit Hm d4 D4. apply parse_digits_grow in Hm; [|lia].
  pose proof (Z.pow_pos_nonneg 10 (Z.of_nat (String.length r)) ltac:(lia) ltac:(lia)). nia.
Qed.

Lemma dec_octet_Itoa n : 0 <= n <= 255 → dec_octet (Itoa n) = Some n.
Proof.
  intros Hn. assert (Hall : forallb (λ k, bool_decide (dec_octet (Itoa (Z.of_nat k)) = Some (Z.of_nat k)))
    (seq 0 256) = true) by (vm_compute; reflexivity).
  rewrite forallb_forall in Hall. specialize (Hall (Z.to_nat n) ltac:(apply in_seq; lia)).
  rewrite bool_decide_eq_true in Hall. by rewrite Z2Nat.id in Hall by lia.
Qed.

Definition dotted (a b c d : Z) : string :=
  Itoa a +:+ String "." (Itoa b +:+ String "." (Itoa c +:+ String "." (Itoa d))).
Definition octet (n : Z) : Prop := 0 <= n <= 255.

Lemma parseIPv4_spec s ip :
  parseIPv4 s = Some ip ↔ ∃ a b c d, s = dotted a b c d ∧ ip = [a; b; c; d] ∧ octet a ∧ octet b ∧ octet c ∧ octet d.
Proof.
  unfold parseIPv4. split.
  - pose proof (Join_Split s ".") as Hj.
    destruct (Split s ".") as [|f1 [|f2 [|f3 [|f4 [|]]]]]; try done. simpl in Hj.
    destruct (dec_octet f1) as [a|] eqn:E1; [|done]. destruct (dec_octet f2) as [b|] eqn:E2; [|done].
    destruct (dec_octet f3) as [c|] eqn:E3; [|done]. destruct (dec_octet f4) as [d|] eqn:E4; [|done].
    intros [= <-]. apply dec_octet_text in E1 as [-> ?], E2 as [-> ?], E3 as [-> ?], E4 as [-> ?].
    exists a, b, c, d. by rewrite <-Hj.
  - intros (a & b & c & d & -> & -> & Ha & Hb & Hc & Hd). unfold dotted.
    assert (Hp : ∀ n, octet n → has_byte (Itoa n) "." = false).
    { intros n Hn. apply digits_no_byte; [done|]. apply Itoa_nonneg. apply Hn. }
    rewrite !Split_app, Split_whole by auto. rewrite !dec_octet_Itoa by done. done.
Qed.

Lemma ip_family_v6 s : has_byte s ":" = false → ip_family s ≠ Some false.
Proof.
  induction s as [|a s IH]; [done|]. simpl. intros [Ha Hs]%orb_false_iff. specialize (IH Hs).
  by destruct a as [[] [] [] [] [] [] [] []].
Qed.

Definition loopback_name (s : string) : Prop :=
  EqualFold s "localhost" = true ∨ ∃ b c d, s = dotted 127 b c d ∧ octet b ∧ octet c ∧ octet d.

Lemma loopback_name_spec s :
  has_byte s ":" = false →
  EqualFold s "localhost" || match ParseIP s with Some ip => IsLoopback ip | None => false end = true ↔ loopback_name s.
Proof.
  intros Hc. rewrite orb_true_iff. unfold loopback_name, ParseIP. pose proof (ip_family_v6 s Hc) as H6. split.
  - intros [H|H]; [by left|]. right. destruct (ip_family s) as [[]|]; [|done..]. simpl in H.
    destruct (parseIPv4 s) as [ip|] eqn:E; [|done]. apply parseIPv4_spec in E as (a & b & c & d & -> & -> & _ & ? & ? & ?).
    unfold IsLoopback in H. simpl in H. bool_simpl. injection H as ->. eauto 10.
  - intros [H|(b & c & d & -> & Hb & Hc' & Hd)]; [by left|]. right.
    change (ip_family (dotted 127 b c d)) with (Some true). simpl.
    assert (E : parseIPv4 (dotted 127 b c d) = Some [127; b; c; d]) by (apply parseIPv4_spec; exists 127, b, c, d; split_and!; done).
    rewrite E. done.
Qed.

(** A Host header: a name, with or without a port. *)
Definition host_of (name : string) (port : option string) : string :=
  match port with None => name | Some p => name +:+ String ":" p end.

(** The inspector and the local control interface, which serve captured
    traffic without a password, answer a Host header (a name with or without a port)
    exactly when the name is localhost in any case or a dotted address 127.b.c.d:
    every other request is refused with 403 and changes nothing, so that a page that
    rebinds its own domain to 127.0.0.1 reads nothing. *)
Theorem loopback_guard {S} name port (next : S → Z * InspBody * S) s :
  name ≠ "" → plain_part name → from_option plain_part True port →
  (loopback_name name ∧ guardLoopback (host_of name port) next s = next s) ∨
  (¬ loopback_name name ∧ guardLoopback (host_of name port) next s = (403, BError "forbidden: non-loopback host", s)).
Proof.
  intros Hne Hpl Hport. unfold guardLoopback, isLoopbackHost.
  assert (He : String.eqb (host_of name port) "" = false) by (destruct name, port; done).
  assert (Hh : match SplitHostPort (host_of name port) with Some (hh, _) => hh | None => host_of name port end = name).
  { destruct port as [p|]; simpl; [by rewrite SplitHostPort_plain|by rewrite SplitHostPort_none by apply Hpl]. }
  rewrite He, Hh. pose proof (loopback_name_spec name (proj1 Hpl)) as Hs.
  destruct (EqualFold _ _ || _); [left; split; [by apply Hs|done]|right; split; [|done]].
  intros Hl. by apply Hs in Hl.
Qed.

Lemma loopback_guard_witness :
  guardLoopback "evil.example:4040" (λ s : nat, (200, BPage, S s)) 0%nat = (403, BError "forbidden: non-loopback host", 0%nat).
Proof.
  destruct (loopback_guard "evil.example" (Some "4040") (λ s : nat, (200, BPage, S s)) 0%nat) as [[H _]|[_ H]];
    [done|done|done| |exact H].
  exfalso. destruct H as [H|(b & c & d & H & _)]; [by vm_compute in H|].
  unfold dotted in H. change (Itoa 127) with "127" in H. done.
Defined.

(** * Replay *)

(** A replayed capture keeps the suffix its path was shown with, so replaying it
    again asks the local service for another path than the one captured. *)
Lemma replay_of_replay answer t1 t2 c r c' r' req :
  cr_LocalAddr c ≠ "" →
  insp_replay answer t1 t2 c r = (Ok c', r') → replay_request c' = Some req → lr_Path req = cr_Path c +:+ " (replay)".
Proof.
  intros Ha. unfold insp_replay, replay_request.
  destruct (String.eqb_spec (cr_LocalAddr c) "") as [|_]; [done|].
  destruct (answer _) as [resp|e]; [|done]. unfold rec_Add. simpl. intros [= <- <-]. simpl.
  destruct (String.eqb_spec (cr_LocalAddr c) "") as [|_]; [done|]. by intros [= <-].
Qed.

(** A replay is recorded once and never changes what was captured before it. *)
Lemma replay_records answer t1 t2 c r c' r' :
  insp_replay answer t1 t2 c r = (Ok c', r') →
  cr_ReqBody c' = cr_ReqBody c ∧ Z.of_nat (length (cr_RespBody c')) <= MaxBodyCapture ∧
  list.last (rc_buf r') = Some c' ∧ rc_seq r' = (rc_seq r + 1) mod 2 ^ 64.
Proof.
  unfold insp_replay. destruct (replay_request c) as [req|]; [|done].
  destruct (answer req) as [resp|]; [|done]. unfold rec_Add. simpl. intros [= <- <-]. simpl.
  rewrite last_snoc. split_and!; [done| |done|done]. unfold capBody. rewrite length_take. unfold MaxBodyCapture. lia.
Qed.
