(* ===== verification/AgentConf.v ===== *)
(** The agent's configuration (internal/agent/config.go): defaults, the file,
    the environment, and saving.

    The file is a document of an abstract type; the class [Yaml] is what the
    package relies on of the YAML library. *)
From S2P Require Import Prelude GoStrings.
From Stdlib Require Import Ascii.

Open Scope Z_scope.

Record TunnelConfig := {
  tc_Proto : string; tc_Addr : string; tc_Subdomain : string; tc_CustomDomain : string; tc_BasicAuth : string;
  tc_HostHeader : string; tc_RemotePort : Z }.
Record InspectorConfig := { ic_Enabled : bool; ic_Addr : string }.
Record Config := {
  cf_Version : Z; cf_APIKey : string; cf_Server : string; cf_Region : string; cf_Transport : string;
  cf_Tunnels : gmap string TunnelConfig; cf_Inspector : InspectorConfig; cf_LogLevel : string;
  cf_ControlAddr : string; cf_APIBase : string; cf_Insecure : bool }.

Definition DefaultServer : string := "trqsh.uz:4443".
Definition DefaultAPIBase : string := "https://api.trqsh.uz".

Definition DefaultConfig : Config :=
  {| cf_Version := 1; cf_APIKey := ""; cf_Server := DefaultServer; cf_Region := "auto"; cf_Transport := "auto";
     cf_Tunnels := ∅; cf_Inspector := {| ic_Enabled := true; ic_Addr := "127.0.0.1:4040" |}; cf_LogLevel := "info";
     cf_ControlAddr := "127.0.0.1:4041"; cf_APIBase := DefaultAPIBase; cf_Insecure := false |}.

(** The environment's variables. *)
Abbreviation Environ := (gmap string string).

(** [envStr(&dst, key)]: the new value of [dst]. *)
Definition over_env (env : Environ) (key dst : string) : string :=
  match env !! key with
  | Some v => if negb (String.eqb (TrimSpace v) "") then TrimSpace v else dst
  | None => dst
  end.
Definition agent_truthy (v : string) : bool :=
  bool_decide (ToLower (TrimSpace v) ∈ ["1"; "true"; "yes"; "on"]).

Definition applyEnv (env : Environ) (c : Config) : Config :=
  {| cf_Version := cf_Version c; cf_APIKey := over_env env "TRQSH_API_KEY" (cf_APIKey c);
     cf_Server := over_env env "TRQSH_SERVER" (cf_Server c); cf_Region := over_env env "TRQSH_REGION" (cf_Region c);
     cf_Transport := over_env env "TRQSH_TRANSPORT" (cf_Transport c); cf_Tunnels := cf_Tunnels c;
     cf_Inspector := {| ic_Enabled := ic_Enabled (cf_Inspector c);
                        ic_Addr := over_env env "TRQSH_INSPECTOR_ADDR" (ic_Addr (cf_Inspector c)) |};
     cf_LogLevel := over_env env "TRQSH_LOG_LEVEL" (cf_LogLevel c);
     cf_ControlAddr := over_env env "TRQSH_CONTROL_ADDR" (cf_ControlAddr c);
     cf_APIBase := over_env env "TRQSH_API_URL" (cf_APIBase c);
     cf_Insecure := match env !! "TRQSH_INSECURE" with Some v => agent_truthy v | None => cf_Insecure c end |}.

Definition forcedTransport (c : Config) : string :=
  let t := ToLower (cf_Transport c) in
  if String.eqb t "quic" then "quic" else if String.eqb t "tcp" then "tcp" else "".

Definition with_key (k : string) (c : Config) : Config :=
  {| cf_Version := cf_Version c; cf_APIKey := k; cf_Server := cf_Server c; cf_Region := cf_Region c;
     cf_Transport := cf_Transport c; cf_Tunnels := cf_Tunnels c; cf_Inspector := cf_Inspector c;
     cf_LogLevel := cf_LogLevel c; cf_ControlAddr := cf_ControlAddr c; cf_APIBase := cf_APIBase c;
     cf_Insecure := cf_Insecure c |}.

(** The configuration file: its content if it exists, and the errors of reading
    and of writing it ([None]: none). *)
Record Disk (Doc : Type) := mkDisk { dk_file : option Doc; dk_read : option string; dk_write : option string }.
Arguments mkDisk {Doc}.
Arguments dk_file {Doc}.
Arguments dk_read {Doc}.
Arguments dk_write {Doc}.

(** What a saved configuration is when it is read over [d]: a field the
    encoder omits keeps its value, a map is merged. *)
Definition keep_empty (v d : string) : string := if String.eqb v "" then d else v.
Definition reread (c d : Config) : Config :=
  {| cf_Version := cf_Version c; cf_APIKey := keep_empty (cf_APIKey c) (cf_APIKey d); cf_Server := cf_Server c;
     cf_Region := cf_Region c; cf_Transport := cf_Transport c; cf_Tunnels := cf_Tunnels c ∪ cf_Tunnels d;
     cf_Inspector := cf_Inspector c; cf_LogLevel := cf_LogLevel c;
     cf_ControlAddr := keep_empty (cf_ControlAddr c) (cf_ControlAddr d);
     cf_APIBase := keep_empty (cf_APIBase c) (cf_APIBase d); cf_Insecure := cf_Insecure c || cf_Insecure d |}.

(** The YAML library. *)
Class Yaml (Doc : Type) := {
  yaml_Unmarshal : Doc → Config → option Config;
  yaml_Marshal : Config → Doc;
  yaml_reread : ∀ c d, yaml_Unmarshal (yaml_Marshal c) d = Some (reread c d);
}.

Section config.
  Context {Doc : Type} `{Yaml Doc}.
  Implicit Types (d : Disk Doc).

(** [Load] at the default path: reading a file that does not exist is no error. *)
Definition Load (env : Environ) d : result string Config :=
  match dk_read d with
  | Some e => Err ("agent: read: " +:+ e)
  | None =>
      match dk_file d with
      | None => Ok (applyEnv env DefaultConfig)
      | Some doc =>
          match yaml_Unmarshal doc DefaultConfig with
          | None => Err "agent: parse"
          | Some c => Ok (applyEnv env c)
          end
      end
  end.

Definition Save (c : Config) d : result string unit * Disk Doc :=
  match dk_write d with
  | Some e => (Err ("agent: write config: " +:+ e), d)
  | None => (Ok tt, mkDisk (Some (yaml_Marshal c)) (dk_read d) None)
  end.

Definition storedAPIKey (env : Environ) d : string :=
  match Load env d with Ok c => cf_APIKey c | Err _ => "" end.

Definition clearStoredAPIKey (env : Environ) d : result string unit * Disk Doc :=
  match Load env d with
  | Err e => (Err e, d)
  | Ok c => Save (with_key "" c) d
  end.

Definition cloudBase (env : Environ) d : string :=
  trim_right_slash (match Load env d with
             | Ok c => if negb (String.eqb (TrimSpace (cf_APIBase c)) "") then cf_APIBase c else DefaultAPIBase
             | Err _ => DefaultAPIBase
             end).
End config.

(** A library whose documents are the configurations themselves. *)
#[export] Instance doc_yaml : Yaml Config :=
  {| yaml_Unmarshal := λ doc d, Some (reread doc d); yaml_Marshal := λ c, c; yaml_reread := λ c d, eq_refl |}.

Section config.
  Context {Doc : Type} `{Yaml Doc}.

Lemma reread_default c : cf_ControlAddr c ≠ "" → cf_APIBase c ≠ "" → reread c DefaultConfig = c.
Proof.
  intros H1 H2. destruct c. unfold reread, keep_empty. simpl in *.
  rewrite (proj2 (String.eqb_neq cf_ControlAddr0 "")), (proj2 (String.eqb_neq cf_APIBase0 "")), map_union_empty, orb_false_r by done.
  by destruct (String.eqb_spec cf_APIKey0 "") as [->|].
Qed.

(** What was saved is what is loaded, under the environment. *)
Lemma Load_Save env c (d d' : Disk Doc) :
  cf_ControlAddr c ≠ "" → cf_APIBase c ≠ "" → dk_read d = None → Save c d = (Ok tt, d') → Load env d' = Ok (applyEnv env c).
Proof.
  intros H1 H2 Hr. unfold Save. destruct (dk_write d); [done|]. intros [= <-]. unfold Load. simpl.
  rewrite Hr, yaml_reread, reread_default by done. done.
Qed.

Lemma over_env_nonempty env k v : v ≠ "" → over_env env k v ≠ "".
Proof. intros Hv. unfold over_env. destruct (env !! k) as [x|]; [|done]. by destruct (String.eqb_spec (TrimSpace x) ""). Qed.

Lemma Load_nonempty env (d : Disk Doc) c :
  (∀ doc c', dk_file d = Some doc → yaml_Unmarshal doc DefaultConfig = Some c' → cf_ControlAddr c' ≠ "" ∧ cf_APIBase c' ≠ "") →
  Load env d = Ok c → cf_ControlAddr c ≠ "" ∧ cf_APIBase c ≠ "".
Proof.
  intros Hd. unfold Load. destruct (dk_read d); [done|]. destruct (dk_file d) as [doc|].
  - destruct (yaml_Unmarshal doc DefaultConfig) as [c'|] eqn:E; [|done]. intros [= <-].
    destruct (Hd doc c' eq_refl E). simpl. split; by apply over_env_nonempty.
  - intros [= <-]. split; by apply over_env_nonempty.
Qed.
End config.
