(* ===== verification/Agent.v ===== *)
(** The agent core (internal/agent: core.go, session.go, reconnect.go,
    errors.go): its connection to an edge, its tunnels, and reconnection.

    The edge and the network are a state [X] behind two functions: [dial]
    attempts a connection and authenticates, [ask] sends one bind request on
    the control stream and returns what happens while the agent waits. *)
From S2P Require Import Prelude GoStrings Wire AgentConf Inspect.
From Stdlib Require Import Ascii.

Open Scope Z_scope.

(** * Data *)
Record TunnelSpec := {
  sp_Name : string; sp_Proto : string; sp_Addr : string; sp_Subdomain : string; sp_CustomDomain : string;
  sp_BasicAuth : string; sp_HostHeader : string; sp_RemotePort : Z }.

Record TunnelMetrics := { tm_Connections : Z; tm_Requests : Z; tm_BytesIn : Z; tm_BytesOut : Z }.
Record Tunnel := {
  tn_ID : string; tn_Name : string; tn_Proto : string; tn_LocalAddr : string; tn_PublicURL : string;
  tn_Status : string; tn_Metrics : TunnelMetrics; tn_CreatedAt : Time }.

Record activeTunnel := {
  at_spec : TunnelSpec; at_clientTunnelID : string; at_publicURL : string; at_assignedHost : string;
  at_assignedPort : Z; at_status : string; at_createdAt : Time; at_metrics : TunnelMetrics }.

Definition view (t : activeTunnel) : Tunnel :=
  {| tn_ID := at_clientTunnelID t; tn_Name := sp_Name (at_spec t); tn_Proto := sp_Proto (at_spec t);
     tn_LocalAddr := sp_Addr (at_spec t); tn_PublicURL := at_publicURL t; tn_Status := at_status t;
     tn_Metrics := at_metrics t; tn_CreatedAt := at_createdAt t |}.

Record Status := { st_Connected : bool; st_AccountID : string; st_Plan : string; st_Edge : string; st_Kind : string }.

(** [Event], by its type. *)
Inductive AgentEvent :=
| EvStatus (s : Status) | EvTunnel (t : Tunnel) | EvRequest (c : CapturedRequest) | EvError (msg : string)
| EvRemote (kind command : string) (connected : bool).

(** An [Error], the control stream's write error, or the context's error. *)
Inductive AgentErr := AErr (code message : string) | WriteErr (msg : string) | CtxErr.
Definition err_text (e : AgentErr) : string :=
  match e with
  | AErr code msg => if String.eqb msg "" then code else code +:+ ": " +:+ msg
  | WriteErr msg => msg
  | CtxErr => "context canceled"
  end.
Definition errorFromResp (m : option ErrorMsg) : AgentErr :=
  match m with None => AErr CodeInternal "unknown error" | Some m => AErr (em_code m) (em_message m) end.

(** [ag_control]: whether the control stream is set.  [ag_pendingBinds] holds,
    per waiting bind, the content of its one-slot channel. *)
Record Agent := mkAgent {
  ag_cfg : Config;
  ag_control : bool;
  ag_connected : bool;
  ag_accountID : string;
  ag_plan : string;
  ag_kind : string;
  ag_tunnels : gmap string activeTunnel;
  ag_pendingBinds : gmap string (option BindResp);
  ag_events : list AgentEvent;
  ag_closed : bool;
  ag_sessGen : Z;
}.

Definition newAgent (cfg : Config) : Agent := mkAgent cfg false false "" "" "" ∅ ∅ [] false 0.

Definition set_ag_tunnels (ts : gmap string activeTunnel) (a : Agent) : Agent :=
  mkAgent (ag_cfg a) (ag_control a) (ag_connected a) (ag_accountID a) (ag_plan a) (ag_kind a) ts
    (ag_pendingBinds a) (ag_events a) (ag_closed a) (ag_sessGen a).
Definition set_ag_pending (ps : gmap string (option BindResp)) (a : Agent) : Agent :=
  mkAgent (ag_cfg a) (ag_control a) (ag_connected a) (ag_accountID a) (ag_plan a) (ag_kind a) (ag_tunnels a)
    ps (ag_events a) (ag_closed a) (ag_sessGen a).
Definition set_ag_down (a : Agent) : Agent :=
  mkAgent (ag_cfg a) false false (ag_accountID a) (ag_plan a) (ag_kind a) (ag_tunnels a)
    (ag_pendingBinds a) (ag_events a) (ag_closed a) (ag_sessGen a).
Definition set_ag_up (acct pl kind : string) (a : Agent) : Agent :=
  mkAgent (ag_cfg a) true true acct pl kind (ag_tunnels a)
    (ag_pendingBinds a) (ag_events a) (ag_closed a) (ag_sessGen a + 1).

(** [emit]: the channel holds 256 events; one more is dropped. *)
Definition emit (e : AgentEvent) (a : Agent) : Agent :=
  if (length (ag_events a) <? 256)%nat
  then mkAgent (ag_cfg a) (ag_control a) (ag_connected a) (ag_accountID a) (ag_plan a) (ag_kind a) (ag_tunnels a)
         (ag_pendingBinds a) (ag_events a ++ [e]) (ag_closed a) (ag_sessGen a)
  else a.

Definition agent_Status (a : Agent) : Status :=
  {| st_Connected := ag_connected a; st_AccountID := ag_accountID a; st_Plan := ag_plan a;
     st_Edge := cf_Server (ag_cfg a); st_Kind := ag_kind a |}.
Definition agent_List `{RangeOrder} (a : Agent) : list Tunnel := view <$> (range_map (ag_tunnels a)).*2.

Definition tunnelType (p : string) : TunnelType * bool :=
  let p := ToLower p in
  if String.eqb p "http" then (HTTP, true)
  else if String.eqb p "https" then (HTTPS, true)
  else if String.eqb p "tls" then (TLS, true)
  else if String.eqb p "tcp" then (TCP, true)
  else if String.eqb p "udp" then (UDP, true)
  else (HTTP, false).

Definition firstLabel (host : string) : string :=
  match IndexByte host "." with
  | Some i => if (0 <? i)%nat then take_string i host else host
  | None => host
  end.

(** * The agent against a network *)
(** What comes of dialing: no session, no control stream, the hello not
    written, no answer read, or the first message and the transport's kind. *)
Inductive DialOutcome :=
| NoSession (msg : string) | NoControl (msg : string) | HelloFailed (msg : string) | NoAnswer (msg : string)
| Answered (env : Envelope) (kind : string).

(** What happens while a bind waits: the write of the request fails, or bind
    responses arrive, in order, until the wait ends; [bo_cancelled] is whether
    the context ended before the timer when no response is the request's. *)
Record BindOutcome := { bo_write : option string; bo_answers : list BindResp; bo_cancelled : bool }.

Definition deliverBind (br : BindResp) (a : Agent) : Agent :=
  match ag_pendingBinds a !! br_client_tunnel_id br with
  | Some None => set_ag_pending (<[br_client_tunnel_id br := Some br]> (ag_pendingBinds a)) a
  | _ => a
  end.

Section agent.
  Context {X : Type} (dial : Hello → X → DialOutcome * X) (ask : BindTunnel → X → BindOutcome * X).
  Abbreviation St := (Agent * X)%type.

Definition hello_of (cfg : Config) (version os arch : string) : Hello :=
  {| h_protocol_version := "1"; h_agent_version := version; h_os := os; h_arch := arch;
     h_api_key := if String.eqb (cf_APIKey cfg) "" then "tq_dev_local" else cf_APIKey cfg;
     h_region_hint := cf_Region cfg; h_features := ["quic"; "tcp"; "udp"] |}.

Definition connect (version os arch : string) : M St AgentErr unit := λ s,
  let '(a, x) := s in
  let '(o, x) := dial (hello_of (ag_cfg a) version os arch) x in
  match o with
  | NoSession msg => (Err (AErr CodeUpstreamUnreachable ("cannot reach edge: " +:+ msg)), (a, x))
  | NoControl msg | HelloFailed msg | NoAnswer msg => (Err (AErr CodeInternal msg), (a, x))
  | Answered (EnvAuthResp ar) kind =>
      if negb (ar_ok ar) then (Err (errorFromResp (ar_error ar)), (a, x))
      else
        let a := set_ag_up (ar_account_id ar) (ar_plan ar) kind a in
        (Ok tt, (emit (EvStatus (agent_Status a)) a, x))
  | Answered _ _ => (Err (AErr CodeInternal "expected AuthResp"), (a, x))
  end.

Definition bind_msg (id : string) (spec : TunnelSpec) : BindTunnel :=
  {| b_client_tunnel_id := id; b_type := fst (tunnelType (sp_Proto spec)); b_subdomain := sp_Subdomain spec;
     b_custom_domain := sp_CustomDomain spec; b_remote_port := sp_RemotePort spec mod 2 ^ 32;
     b_options :=
       (let o := if String.eqb (sp_BasicAuth spec) "" then ∅ else {["basic_auth" := sp_BasicAuth spec]} in
        if String.eqb (sp_HostHeader spec) "" then o else <["host_header" := sp_HostHeader spec]> o) |}.

Definition randHex (buf : list Z) : string := EncodeToString buf.

Definition bind (now : Time) (rnd : list Z) (spec : TunnelSpec) : M St AgentErr Tunnel := λ s,
  let '(a, x) := s in
  let clientTunnelID := "ct_" +:+ randHex rnd in
  let a := set_ag_pending (<[clientTunnelID := None]> (ag_pendingBinds a)) a in
  let finish a := set_ag_pending (delete clientTunnelID (ag_pendingBinds a)) a in
  if negb (ag_control a) then (Err (AErr CodeInternal "not connected"), (finish a, x))
  else
    let '(o, x) := ask (bind_msg clientTunnelID spec) x in
    match bo_write o with
    | Some msg => (Err (WriteErr msg), (finish a, x))
    | None =>
        let a := foldl (λ a br, deliverBind br a) a (bo_answers o) in
        match ag_pendingBinds a !! clientTunnelID with
        | Some (Some br) =>
            if negb (br_ok br) then (Err (errorFromResp (br_error br)), (finish a, x))
            else
              let at_ := {| at_spec := spec; at_clientTunnelID := clientTunnelID; at_publicURL := br_public_url br;
                            at_assignedHost := br_assigned_host br; at_assignedPort := br_assigned_port br;
                            at_status := "online"; at_createdAt := now;
                            at_metrics := {| tm_Connections := 0; tm_Requests := 0; tm_BytesIn := 0; tm_BytesOut := 0 |} |} in
              let a := set_ag_tunnels (<[clientTunnelID := at_]> (ag_tunnels a)) a in
              let a := emit (EvTunnel (view at_)) a in
              (Ok (view at_), (finish a, x))
        | _ => (Err (if bo_cancelled o then CtxErr else AErr CodeInternal "bind timed out"), (finish a, x))
        end
    end.

Definition StartTunnel (version os arch : string) (now : Time) (rnd : list Z) (spec : TunnelSpec) : M St AgentErr Tunnel := λ s,
  let with_proto p sp := {| sp_Name := sp_Name sp; sp_Proto := p; sp_Addr := sp_Addr sp;
     sp_Subdomain := sp_Subdomain sp; sp_CustomDomain := sp_CustomDomain sp; sp_BasicAuth := sp_BasicAuth sp;
     sp_HostHeader := sp_HostHeader sp; sp_RemotePort := sp_RemotePort sp |} in
  let with_name n sp := {| sp_Name := n; sp_Proto := sp_Proto sp; sp_Addr := sp_Addr sp;
     sp_Subdomain := sp_Subdomain sp; sp_CustomDomain := sp_CustomDomain sp; sp_BasicAuth := sp_BasicAuth sp;
     sp_HostHeader := sp_HostHeader sp; sp_RemotePort := sp_RemotePort sp |} in
  let spec := if String.eqb (sp_Proto spec) "" then with_proto "http" spec else spec in
  let spec := if String.eqb (sp_Name spec) ""
              then with_name (sp_Proto spec +:+ "-" +:+ TrimPrefix (sp_Addr spec) "localhost:") spec else spec in
  if negb (snd (tunnelType (sp_Proto spec)))
  then (Err (AErr CodeProtoUnsupported ("unknown proto " +:+ sp_Proto spec)), s)
  else
    match (if ag_connected (fst s) then (Ok tt, s) else connect version os arch s) with
    | (Err e, s) => (Err e, s)
    | (Ok _, s) => bind now rnd spec s
    end.

(** [sent] is whether the unbind goes out: the control stream is set. *)
Definition StopTunnel (id : string) : M Agent AgentErr (option Envelope) := λ a,
  match ag_tunnels a !! id with
  | None => (Err (AErr CodeInternal ("no such tunnel " +:+ id)), a)
  | Some t =>
      (Ok (if ag_control a then Some (EnvUnbind id) else None),
       emit (EvTunnel (view t)) (set_ag_tunnels (delete id (ag_tunnels a)) a))
  end.

Definition Shutdown (a : Agent) : Agent :=
  if ag_closed a then a
  else mkAgent (ag_cfg a) (ag_control a) (ag_connected a) (ag_accountID a) (ag_plan a) (ag_kind a) (ag_tunnels a)
         (ag_pendingBinds a) (ag_events a) true (ag_sessGen a).

(** [handleSessionDown]: the tunnels a reconnection starts with, if one does. *)
Definition handleSessionDown `{RangeOrder} (gen : Z) (a : Agent) : option (list activeTunnel) * Agent :=
  if negb (gen =? ag_sessGen a) || negb (ag_connected a) then (None, a)
  else
    let a := set_ag_down a in
    let prev := (range_map (ag_tunnels a)).*2 in
    let a' := emit (EvStatus (agent_Status a)) a in
    (if ag_closed a then None else Some prev, a').

(** * Reconnection *)
Definition reconnectBase : Duration := 500 * Millisecond.
Definition reconnectMax : Duration := 30 * Second.

Definition restored_spec (old : activeTunnel) : TunnelSpec :=
  let spec := at_spec old in
  {| sp_Name := sp_Name spec; sp_Proto := sp_Proto spec; sp_Addr := sp_Addr spec;
     sp_Subdomain := if String.eqb (sp_Subdomain spec) "" && negb (String.eqb (at_assignedHost old) "")
                     then firstLabel (at_assignedHost old) else sp_Subdomain spec;
     sp_CustomDomain := sp_CustomDomain spec; sp_BasicAuth := sp_BasicAuth spec; sp_HostHeader := sp_HostHeader spec;
     sp_RemotePort := if (sp_RemotePort spec =? 0) && negb (at_assignedPort old =? 0)
                      then at_assignedPort old else sp_RemotePort spec |}.

(** The body of [rebindAll]'s loop. *)
Definition rebind_one (now : Time) (rnd : list Z) (old : activeTunnel) (s : St) : St :=
  let spec := restored_spec old in
  let '(a, x) := s in
  let a := set_ag_tunnels (delete (at_clientTunnelID old) (ag_tunnels a)) a in
  match bind now rnd spec (a, x) with
  | (Ok _, s) => s
  | (Err e, (a, x)) => (emit (EvError ("re-bind " +:+ sp_Name spec +:+ ": " +:+ err_text e)) a, x)
  end.

(** [draw i]: the clock and the random bytes of the [i]-th bind. *)
Fixpoint rebindAll (draw : nat → Time * list Z) (prev : list activeTunnel) (s : St) : St :=
  match prev with
  | [] => s
  | old :: prev => rebindAll (λ i, draw (S i)) prev (rebind_one (fst (draw 0%nat)) (snd (draw 0%nat)) old s)
  end.

(** One turn of the loop: whether the context ended before it, the number
    drawn for the jitter, whether the context ended while sleeping. *)
Record Turn := { tu_done : bool; tu_rand : Z; tu_done_sleeping : bool; tu_version : string; tu_os : string; tu_arch : string }.

(** rand.Int63n(n): a number of [0, n). *)
Definition Int63n (r n : Z) : Z := r mod n.

Definition sleep_time (backoff : Duration) (r : Z) : Duration :=
  let sleep := backoff + Int63n r (Z.quot backoff 2 + 1) in
  if sleep >? reconnectMax then reconnectMax else sleep.
Definition next_backoff (backoff : Duration) : Duration :=
  if backoff <? reconnectMax then backoff * 2 else backoff.

(** The loop over the turns it takes; the sleeps it made come with the result,
    [true] when it reconnected. *)
Fixpoint reconnect_loop (draw : nat → Time * list Z) (prev : list activeTunnel) (backoff : Duration)
    (turns : list Turn) (s : St) : list Duration * bool * St :=
  match turns with
  | [] => ([], false, s)
  | tu :: turns =>
      if tu_done tu then ([], false, s)
      else if ag_closed (fst s) then ([], false, s)
      else
        match connect (tu_version tu) (tu_os tu) (tu_arch tu) s with
        | (Ok _, s) => ([], true, rebindAll draw prev s)
        | (Err _, s) =>
            let d := sleep_time backoff (tu_rand tu) in
            if tu_done_sleeping tu then ([d], false, s)
            else
              let '(ds, ok, s) := reconnect_loop draw prev (next_backoff backoff) turns s in
              (d :: ds, ok, s)
        end
  end.
Definition reconnect draw prev turns s := reconnect_loop draw prev reconnectBase turns s.
End agent.
