(* ===== verification/AgentSafety.v ===== *)
(** What the agent's reconnection guarantees, and what it does not: bounded
    delays, exactly the granted tunnels afterwards, and the re-binds that the
    control plane refuses. *)
From S2P Require Import Prelude GoStrings Wire Authz Registry EdgeConfig Ports Hub Usage Edge EdgeSafety EdgeExamples.
From S2P Require Import Store StoreInv Billing BillingSafety Entitle EntitleSafety AgentConf Agent.
From Stdlib Require Import Ascii.

Open Scope Z_scope.

Arguments Agent.connect : simpl never.
Arguments Agent.bind : simpl never.
Arguments rebind_one : simpl never.

Section agent.
  Context {X : Type} (dial : Hello → X → DialOutcome * X) (ask : BindTunnel → X → BindOutcome * X).
  Implicit Types (a : Agent) (x : X).

(** Everything of the agent but its tunnels, waiting binds and events. *)
Definition same_link a a' : Prop :=
  ag_control a' = ag_control a ∧ ag_connected a' = ag_connected a ∧ ag_closed a' = ag_closed a.

Lemma emit_frame e a :
  ag_tunnels (emit e a) = ag_tunnels a ∧ ag_pendingBinds (emit e a) = ag_pendingBinds a ∧ same_link a (emit e a).
Proof. unfold emit, same_link. by destruct (_ <? _)%nat. Qed.

Lemma deliver_frame a brs :
  let a' := foldl (λ a br, deliverBind br a) a brs in ag_tunnels a' = ag_tunnels a ∧ same_link a a'.
Proof.
  simpl. revert a. induction brs as [|br brs IH]; intros a; [done|]. simpl.
  destruct (IH (deliverBind br a)) as [-> (H1 & H2 & H3)]. unfold same_link. rewrite H1, H2, H3. unfold deliverBind.
  by destruct (ag_pendingBinds a !! br_client_tunnel_id br) as [[|]|].
Qed.

(** The answer that reaches a waiting bind is the first one with its id. *)
Lemma deliver_slot a brs id :
  ag_pendingBinds a !! id = Some None →
  ag_pendingBinds (foldl (λ a br, deliverBind br a) a brs) !! id =
    Some (find_first (λ br, String.eqb (br_client_tunnel_id br) id) brs).
Proof.
  assert (Hkeep : ∀ brs a b, ag_pendingBinds a !! id = Some (Some b) →
    ag_pendingBinds (foldl (λ a br, deliverBind br a) a brs) !! id = Some (Some b)).
  { clear. induction brs as [|br brs IH]; intros a b Hb; [done|]. simpl. apply IH. unfold deliverBind.
    destruct (decide (br_client_tunnel_id br = id)) as [->|Hne]; [by rewrite Hb|].
    destruct (ag_pendingBinds a !! br_client_tunnel_id br) as [[|]|]; try done. simpl. by rewrite lookup_insert_ne. }
  revert a. induction brs as [|br brs IH]; intros a Ha; [done|]. simpl.
  destruct (String.eqb_spec (br_client_tunnel_id br) id) as [Heq|Hne].
  - apply Hkeep. unfold deliverBind. rewrite Heq, Ha. simpl. apply lookup_insert_eq.
  - apply IH. unfold deliverBind. destruct (ag_pendingBinds a !! br_client_tunnel_id br) as [[|]|]; try done. simpl.
    by rewrite lookup_insert_ne.
Qed.

(** What the edge makes of a bind request: the granting response, if any. *)
Definition granted (b : BindTunnel) x : option BindResp :=
  match bo_write (fst (ask b x)) with
  | Some _ => None
  | None => br ← find_first (λ br, String.eqb (br_client_tunnel_id br) (b_client_tunnel_id b)) (bo_answers (fst (ask b x)));
            if br_ok br then Some br else None
  end.

Definition new_id (rnd : list Z) : string := "ct_" +:+ randHex rnd.

Lemma bind_spec now rnd spec a x r a' x' :
  ag_control a = true → Agent.bind ask now rnd spec (a, x) = (r, (a', x')) →
  x' = snd (ask (bind_msg (new_id rnd) spec) x) ∧ same_link a a' ∧
  match granted (bind_msg (new_id rnd) spec) x with
  | Some br => ∃ t, r = Ok (view t) ∧ at_spec t = spec ∧ at_clientTunnelID t = new_id rnd ∧
                 at_assignedHost t = br_assigned_host br ∧ at_assignedPort t = br_assigned_port br ∧
                 at_publicURL t = br_public_url br ∧ ag_tunnels a' = <[new_id rnd := t]> (ag_tunnels a)
  | None => is_ok r = false ∧ ag_tunnels a' = ag_tunnels a
  end.
Proof.
  intros Hc. unfold Agent.bind. fold (new_id rnd). simpl. rewrite Hc. simpl. unfold granted.
  destruct (ask _ x) as [o x1] eqn:Ho. simpl.
  destruct (bo_write o) as [msg|]; [by intros [= <- <- <-]|].
  set (a0 := set_ag_pending _ a).
  pose proof (deliver_frame a0 (bo_answers o)) as [Ht Hl].
  rewrite (deliver_slot a0 (bo_answers o) (new_id rnd)) by (simpl; apply lookup_insert_eq).
  change (ag_tunnels a0) with (ag_tunnels a) in Ht.
  set (a1 := foldl _ a0 _) in *. destruct (find_first _ _) as [br|]; simpl; [|by intros [= <- <- <-]].
  destruct (br_ok br); simpl; [|by intros [= <- <- <-]].
  set (t := {| at_spec := spec |}).
  set (a2 := set_ag_tunnels _ a1). destruct (emit_frame (EvTunnel (view t)) a2) as (Et & Ep & El).
  intros [= <- <- <-]. split; [done|]. split.
  - unfold same_link in *. simpl in *. naive_solver.
  - exists t. split_and!; try done. simpl. by rewrite Et; simpl; rewrite Ht.
Qed.

(** * Re-binding *)
Definition drawn (draw : nat → Time * list Z) (i : nat) : string := new_id (snd (draw i)).

(** The ids drawn for [n] binds are distinct and none is in [old]. *)
Definition fresh_draws (draw : nat → Time * list Z) (n : nat) (old : list string) : Prop :=
  (∀ i j, (i < n)%nat → (j < n)%nat → drawn draw i = drawn draw j → i = j) ∧
  (∀ i, (i < n)%nat → drawn draw i ∉ old).

Lemma fresh_draws_tail draw n o old :
  fresh_draws draw (S n) (o :: old) → fresh_draws (λ i, draw (S i)) n old.
Proof.
  intros [H1 H2]. split.
  - intros i j Hi Hj Heq. assert (S i = S j) by (apply H1; [lia|lia|exact Heq]). lia.
  - intros i Hi Hin. apply (H2 (S i)); [lia|]. by right.
Qed.

Definition restored (T : gmap string activeTunnel) (id : string) (old : activeTunnel) : Prop :=
  ∃ t y br, T !! id = Some t ∧ at_spec t = restored_spec old ∧
    granted (bind_msg id (restored_spec old)) y = Some br ∧ at_publicURL t = br_public_url br.

(** The endpoint a tunnel is restored to, in words: what it serves and how is as it was;
    the name or port it asks for is the one the user chose, or else the one the edge
    had assigned. *)
Definition as_before (old : activeTunnel) (spec : TunnelSpec) : Prop :=
  sp_Name spec = sp_Name (at_spec old) ∧ sp_Proto spec = sp_Proto (at_spec old) ∧ sp_Addr spec = sp_Addr (at_spec old) ∧
  sp_CustomDomain spec = sp_CustomDomain (at_spec old) ∧ sp_BasicAuth spec = sp_BasicAuth (at_spec old) ∧
  sp_HostHeader spec = sp_HostHeader (at_spec old) ∧
  (sp_Subdomain (at_spec old) ≠ "" → sp_Subdomain spec = sp_Subdomain (at_spec old)) ∧
  (sp_Subdomain (at_spec old) = "" → ∀ label rest, at_assignedHost old = label +:+ String "." rest →
     label ≠ "" → has_byte label "." = false → sp_Subdomain spec = label) ∧
  sp_RemotePort spec = (if sp_RemotePort (at_spec old) =? 0 then at_assignedPort old else sp_RemotePort (at_spec old)).
(** The request that asks the edge for it, its options included. *)
Definition asks_for (id : string) (spec : TunnelSpec) (b : BindTunnel) : Prop :=
  b_client_tunnel_id b = id ∧ b_type b = fst (tunnelType (sp_Proto spec)) ∧ b_subdomain b = sp_Subdomain spec ∧
  b_custom_domain b = sp_CustomDomain spec ∧ b_remote_port b = sp_RemotePort spec mod 2 ^ 32 ∧
  b_options b !! "basic_auth" = (if String.eqb (sp_BasicAuth spec) "" then None else Some (sp_BasicAuth spec)) ∧
  b_options b !! "host_header" = (if String.eqb (sp_HostHeader spec) "" then None else Some (sp_HostHeader spec)).
Definition back (T : gmap string activeTunnel) (id : string) (old : activeTunnel) : Prop :=
  ∃ t b y br, T !! id = Some t ∧ as_before old (at_spec t) ∧ asks_for id (at_spec t) b ∧
    granted b y = Some br ∧ at_publicURL t = br_public_url br.

Lemma restored_as_before old : as_before old (restored_spec old).
Proof.
  unfold as_before, restored_spec. cbn. split_and!; try done.
  - intros Hs. by apply String.eqb_neq in Hs as ->.
  - intros -> label rest -> Hl Hd. cbn. assert (E : String.eqb (label +:+ String "." rest) "" = false) by by destruct label.
    rewrite E. cbn. unfold firstLabel. rewrite IndexByte_app by done. destruct label as [|c l]; [done|].
    apply (take_string_app (String c l)).
  - destruct (Z.eqb_spec (sp_RemotePort (at_spec old)) 0) as [E|]; [|done]. cbn.
    destruct (Z.eqb_spec (at_assignedPort old) 0); cbn; congruence.
Qed.
Lemma bind_msg_asks id spec : asks_for id spec (bind_msg id spec).
Proof.
  unfold asks_for, bind_msg. cbn. split_and!; try done;
    destruct (String.eqb (sp_BasicAuth spec) ""), (String.eqb (sp_HostHeader spec) ""); by simplify_map_eq.
Qed.
Lemma restored_back T id old : restored T id old → back T id old.
Proof.
  intros (t & y & br & Ht & Hs & Hg & Hu). exists t, (bind_msg id (restored_spec old)), y, br. rewrite Hs.
  auto using restored_as_before, bind_msg_asks.
Qed.

Lemma rebind_one_spec now rnd old a x a' x' :
  ag_control a = true → rebind_one ask now rnd old (a, x) = (a', x') →
  same_link a a' ∧
  (∀ id, id ≠ at_clientTunnelID old → id ≠ new_id rnd → ag_tunnels a' !! id = ag_tunnels a !! id) ∧
  (new_id rnd ≠ at_clientTunnelID old → ag_tunnels a' !! at_clientTunnelID old = None) ∧
  if granted (bind_msg (new_id rnd) (restored_spec old)) x
  then restored (ag_tunnels a') (new_id rnd) old
  else ag_tunnels a' = delete (at_clientTunnelID old) (ag_tunnels a).
Proof.
  intros Hc. unfold rebind_one. set (a0 := set_ag_tunnels _ a).
  destruct (Agent.bind ask now rnd _ (a0, x)) as [r [a1 x1]] eqn:Hb.
  apply bind_spec in Hb as (_ & Hl & Hg); [|done]. intros Hrun.
  assert (H1 : ag_tunnels a' = ag_tunnels a1 ∧ same_link a a').
  { destruct r; simplify_eq; [by split|].
    match goal with |- context [emit ?e a1] => destruct (emit_frame e a1) as (-> & _ & El) end.
    split; [done|]. unfold same_link in *. simpl in Hl. naive_solver. }
  destruct H1 as [-> Hl']. split; [done|]. clear Hrun Hl Hl'. unfold restored.
  destruct (granted _ _) as [br|] eqn:Hgr.
  - destruct Hg as (t & _ & Hsp & Hid & _ & _ & Hu & ->). simpl. split_and!.
    + intros id H1 H2. by rewrite lookup_insert_ne, lookup_delete_ne by done.
    + intros Hne. by rewrite lookup_insert_ne, lookup_delete_eq by done.
    + exists t, x, br. by rewrite lookup_insert_eq.
  - destruct Hg as [_ ->]. simpl. split_and!; [|intros _; apply lookup_delete_eq|done].
    intros id H1 _. by rewrite lookup_delete_ne.
Qed.

(** What [rebindAll] leaves: nothing under an old id, under the id drawn for
    an old tunnel only that tunnel restored, which is there when the edge
    grants everything, and all else as it was. *)
Lemma rebindAll_spec draw prev a x a' x' :
  ag_control a = true → fresh_draws draw (length prev) (at_clientTunnelID <$> prev) →
  (∀ i, (i < length prev)%nat → ag_tunnels a !! drawn draw i = None) →
  rebindAll ask draw prev (a, x) = (a', x') →
  same_link a a' ∧
  (∀ i old, prev !! i = Some old →
     ag_tunnels a' !! at_clientTunnelID old = None ∧
     (is_Some (ag_tunnels a' !! drawn draw i) → restored (ag_tunnels a') (drawn draw i) old) ∧
     ((∀ b y, is_Some (granted b y)) → restored (ag_tunnels a') (drawn draw i) old)) ∧
  (∀ id, id ∉ (at_clientTunnelID <$> prev) → (∀ i, (i < length prev)%nat → id ≠ drawn draw i) →
     ag_tunnels a' !! id = ag_tunnels a !! id).
Proof.
  revert draw a x. induction prev as [|old prev IH]; intros draw a x Hc Hfr Hnone; cbn [rebindAll].
  { intros [= <- <-]. split; [done|]. split; [|done]. intros i o. by rewrite lookup_nil. }
  destruct (rebind_one ask _ _ old (a, x)) as [a1 x1] eqn:H1. intros Hrun.
  apply rebind_one_spec in H1 as (Hl1 & Hother & Hgone & Hhead); [|done].
  change (new_id (snd (draw 0%nat))) with (drawn draw 0) in *.
  pose proof Hfr as [Hinj Hnew]. simpl in Hinj, Hnew.
  assert (H0 : ∀ i, (i < length prev)%nat → drawn draw (S i) ≠ drawn draw 0).
  { intros i Hi Heq. assert (S i = 0)%nat by (apply Hinj; [lia|lia|done]). lia. }
  destruct (IH (λ i, draw (S i)) a1 x1) as (Hl2 & Hall & Hrest).
  { by rewrite (proj1 Hl1). }
  { by eapply fresh_draws_tail. }
  { intros i Hi. change (drawn (λ i, draw (S i)) i) with (drawn draw (S i)). rewrite Hother.
    - apply Hnone. simpl. lia.
    - intros Heq. apply (Hnew (S i)); [lia|]. rewrite Heq. left.
    - by apply H0. }
  { exact Hrun. }
  clear IH Hrun.
  assert (Hat0 : ag_tunnels a' !! drawn draw 0 = ag_tunnels a1 !! drawn draw 0).
  { apply Hrest; [|intros i Hi; apply not_eq_sym, (H0 i Hi)]. intros Hin. apply (Hnew 0%nat ltac:(lia)). by right. }
  assert (Hid0 : drawn draw 0 ≠ at_clientTunnelID old).
  { intros Heq. apply (Hnew 0%nat ltac:(lia)). rewrite Heq. left. }
  split; [unfold same_link in *; naive_solver|]. split.
  - intros [|i] o Ho; simpl in Ho; [|by apply Hall]. injection Ho as <-. split_and!.
    + destruct (decide (at_clientTunnelID old ∈ at_clientTunnelID <$> prev)) as [Hin|Hout].
      * apply list_elem_of_fmap in Hin as (o & Heq & [j Hj]%list_elem_of_lookup).
        rewrite Heq. by apply (Hall j).
      * rewrite Hrest; [by apply Hgone|done|]. intros i Hi Heq. apply (Hnew (S i)); [lia|].
        change (drawn (λ i, draw (S i)) i) with (drawn draw (S i)) in Heq. rewrite <- Heq. left.
    + unfold restored. rewrite Hat0. intros Hs. destruct (granted _ _); [done|].
      rewrite Hhead, lookup_delete_ne, (Hnone 0%nat ltac:(simpl; lia)) in Hs by done. by destruct Hs.
    + intros Hgr. unfold restored. rewrite Hat0.
      destruct (Hgr (bind_msg (drawn draw 0) (restored_spec old)) x) as [br Hbr]. by rewrite Hbr in Hhead.
  - intros id Hout Hne. rewrite Hrest.
    + apply Hother; [intros ->; apply Hout; left|]. apply (Hne 0%nat). simpl. lia.
    + intros Hin. apply Hout. by right.
    + intros i Hi. apply (Hne (S i)). simpl. lia.
Qed.

(** * The agent's invariant *)
Record agent_ok (a : Agent) : Prop := {
  ao_keyed : ∀ id t, ag_tunnels a !! id = Some t → at_clientTunnelID t = id;
  ao_link : ag_connected a = ag_control a;
}.

Lemma agent_ok_frame a a' : agent_ok a → ag_tunnels a' = ag_tunnels a → same_link a a' → agent_ok a'.
Proof. intros [H1 H2] Ht (Hc & Hn & _). split; [by rewrite Ht|congruence]. Qed.

Lemma emit_ok e a : agent_ok a → agent_ok (emit e a).
Proof. intros Ha. destruct (emit_frame e a) as (? & _ & ?). by eapply agent_ok_frame. Qed.

Lemma delete_ok id a : agent_ok a → agent_ok (set_ag_tunnels (delete id (ag_tunnels a)) a).
Proof. intros [H1 H2]. split; [|done]. simpl. intros i t [_ Hi]%lookup_delete_Some. by apply H1. Qed.

Lemma agent_connect_ok v o ar a x : agent_ok a → agent_ok (fst (snd (Agent.connect dial v o ar (a, x)))).
Proof.
  intros Ha. unfold Agent.connect. destruct (dial _ x) as [[msg|msg|msg|msg|env kind] x']; try done.
  destruct env; try done. destruct (ar_ok r); [|done]. simpl. apply emit_ok. by destruct Ha.
Qed.

Lemma agent_bind_ok now rnd spec a x : agent_ok a → agent_ok (fst (snd (Agent.bind ask now rnd spec (a, x)))).
Proof.
  intros Ha. destruct (ag_control a) eqn:Hc.
  - destruct (Agent.bind ask now rnd spec (a, x)) as [r [a' x']] eqn:Hb.
    apply bind_spec in Hb as (_ & (H1 & H2 & _) & Hg); [|done]. destruct Ha as [Hk Hl]. simpl.
    split; [|congruence]. destruct (granted _ _).
    + destruct Hg as (t & _ & _ & Ht & _ & _ & _ & ->). intros id u [[<- <-]|[_ Hu]]%lookup_insert_Some; auto.
    + by destruct Hg as [_ ->].
  - unfold Agent.bind. simpl. rewrite Hc. simpl. by destruct Ha.
Qed.

Lemma rebindAll_ok draw prev a x : agent_ok a → agent_ok (fst (rebindAll ask draw prev (a, x))).
Proof.
  revert draw a x. induction prev as [|old prev IH]; intros draw a x Ha; [done|]. cbn [rebindAll].
  destruct (rebind_one ask _ _ old (a, x)) as [a1 x1] eqn:H1. apply IH. unfold rebind_one in H1.
  match type of H1 with context [Agent.bind ask ?n ?r ?sp (?a0, x)] =>
    pose proof (agent_bind_ok n r sp a0 x (delete_ok _ _ Ha)) as Hb;
    destruct (Agent.bind ask n r sp (a0, x)) as [[t|e] [a2 x2]] end; simplify_eq; [done|]. by apply emit_ok.
Qed.

Lemma reconnect_loop_ok draw prev b turns a x : agent_ok a → agent_ok (fst (snd (reconnect_loop dial ask draw prev b turns (a, x)))).
Proof.
  revert b a x. induction turns as [|tu turns IH]; intros b a x Ha; [done|]. cbn [reconnect_loop].
  destruct (tu_done tu); [done|]. simpl fst. destruct (ag_closed a); [done|].
  pose proof (agent_connect_ok (tu_version tu) (tu_os tu) (tu_arch tu) a x Ha) as Hc.
  destruct (Agent.connect _ _ _ _ (a, x)) as [[[]|e] [a1 x1]]; [by apply rebindAll_ok|].
  destruct (tu_done_sleeping tu); [done|]. specialize (IH (next_backoff b) a1 x1 Hc).
  by destruct (reconnect_loop _ _ _ _ _ _ _) as [[ds ok] s2].
Qed.

(** What happens to an agent: its API's calls, the end of a session, and the
    reconnection that starts. *)
Inductive agent_step `{RangeOrder} : Agent * X → Agent * X → Prop :=
| as_start v o ar now rnd spec s : agent_step s (snd (StartTunnel dial ask v o ar now rnd spec s))
| as_stop id a x : agent_step (a, x) (snd (StopTunnel id a), x)
| as_shutdown a x : agent_step (a, x) (Shutdown a, x)
| as_down gen a x : agent_step (a, x) (snd (handleSessionDown gen a), x)
| as_reconnect draw prev turns s : agent_step s (snd (reconnect dial ask draw prev turns s)).

Inductive agent_reachable `{RangeOrder} (cf : AgentConf.Config) : Agent * X → Prop :=
| ar_init x : agent_reachable cf (newAgent cf, x)
| ar_step s s' : agent_reachable cf s → agent_step s s' → agent_reachable cf s'.

Lemma StartTunnel_ok v o ar now rnd spec a x :
  agent_ok a → agent_ok (fst (snd (StartTunnel dial ask v o ar now rnd spec (a, x)))).
Proof.
  intros Ha. unfold StartTunnel. destruct (negb _); [done|]. simpl fst. destruct (ag_connected a).
  - by apply agent_bind_ok.
  - pose proof (agent_connect_ok v o ar a x Ha) as Hc.
    destruct (Agent.connect _ _ _ _ (a, x)) as [[[]|e] [a1 x1]]; [by apply agent_bind_ok|done].
Qed.

Lemma agent_reachable_ok `{RangeOrder} cf s : agent_reachable cf s → agent_ok (fst s).
Proof.
  induction 1 as [x|s s' _ IH Hs]; [by split|].
  destruct Hs as [v o ar now rnd spec [a x]|id a x|a x|gen a x|draw prev turns [a x]]; simpl in IH.
  - by apply StartTunnel_ok.
  - unfold StopTunnel. destruct (ag_tunnels a !! id); [|done]. simpl. by apply emit_ok, delete_ok.
  - unfold Shutdown. destruct (ag_closed a); [done|]. by destruct IH.
  - unfold handleSessionDown. destruct (_ || _); [done|]. simpl. apply emit_ok. by destruct IH.
  - by apply reconnect_loop_ok.
Qed.

(** * Delays *)
(** The [i]-th delay for a first backoff [b]: the doubled backoff and up to half of it
    more, cut at the maximum. *)
Definition delay_window (b : Duration) (i : nat) (d : Duration) : Prop :=
  Z.min (b * 2 ^ Z.of_nat i) reconnectMax <= d <= Z.min (b * 2 ^ Z.of_nat i + b * 2 ^ Z.of_nat i / 2) reconnectMax.
Lemma sleep_bounds b r : 0 < b → delay_window b 0 (sleep_time b r).
Proof.
  intros Hb. unfold delay_window, sleep_time, Int63n. rewrite Z.gtb_ltb. cbn [Z.of_nat]. rewrite Z.pow_0_r, Z.mul_1_r.
  pose proof (Z.quot_pos b 2 ltac:(lia) ltac:(lia)). pose proof (Z.quot_div_nonneg b 2 ltac:(lia) ltac:(lia)).
  pose proof (Z.mod_pos_bound r (Z.quot b 2 + 1) ltac:(lia)).
  destruct (Z.ltb_spec reconnectMax (b + r mod (b ÷ 2 + 1))); lia.
Qed.

Lemma next_backoff_window b (i : nat) d : 0 < b → delay_window (next_backoff b) i d → delay_window b (S i) d.
Proof.
  intros Hb. unfold delay_window. rewrite Nat2Z.inj_succ, Z.pow_succ_r by lia. unfold next_backoff.
  pose proof (Z.pow_pos_nonneg 2 (Z.of_nat i) ltac:(lia) ltac:(lia)) as Hp.
  destruct (Z.ltb_spec b reconnectMax) as [Hlt|Hge].
  - replace (b * 2 * 2 ^ Z.of_nat i) with (b * (2 * 2 ^ Z.of_nat i)) by lia. done.
  - assert (H1 : reconnectMax <= b * 2 ^ Z.of_nat i) by nia.
    assert (H2 : reconnectMax <= b * (2 * 2 ^ Z.of_nat i)) by nia.
    assert (Hm : 0 < reconnectMax) by done.
    pose proof (Z.div_pos (b * 2 ^ Z.of_nat i) 2 ltac:(lia) ltac:(lia)).
    pose proof (Z.div_pos (b * (2 * 2 ^ Z.of_nat i)) 2 ltac:(lia) ltac:(lia)).
    rewrite !Z.min_r by lia. done.
Qed.

Lemma reconnect_delays draw prev b turns s ds ok s' :
  0 < b → reconnect_loop dial ask draw prev b turns s = (ds, ok, s') →
  ∀ (i : nat) d, ds !! i = Some d → delay_window b i d.
Proof.
  revert b s ds ok s'. induction turns as [|tu turns IH]; intros b s ds ok s' Hb; cbn [reconnect_loop].
  { by intros [= <- <- <-]. }
  destruct (tu_done tu); [by intros [= <- <- <-]|]. destruct (ag_closed (fst s)); [by intros [= <- <- <-]|].
  destruct (Agent.connect _ _ _ _ s) as [[[]|e] s1]; [by intros [= <- <- <-]|].
  pose proof (sleep_bounds b (tu_rand tu) Hb) as Hs.
  destruct (tu_done_sleeping tu).
  - by intros [= <- <- <-] [|i] d Hd; simplify_eq/=.
  - destruct (reconnect_loop _ _ _ _ (next_backoff b) turns s1) as [[ds1 ok1] s2] eqn:Hr.
    intros [= <- <- <-] [|i] d Hd; simplify_eq/=; [done|].
    apply next_backoff_window; [done|]. eapply IH; [|exact Hr|done].
    unfold next_backoff. destruct (_ <? _); lia.
Qed.

(** * Reconnecting *)
Lemma connect_fails v o ar a x e s : Agent.connect dial v o ar (a, x) = (Err e, s) → fst s = a.
Proof.
  unfold Agent.connect. destruct (dial _ x) as [[msg|msg|msg|msg|env kind] x']; try (by intros [= <- <-]).
  destruct env; try (by intros [= <- <-]). destruct (ar_ok r); [done|by intros [= <- <-]].
Qed.

Lemma connect_succeeds v o ar a x u s :
  Agent.connect dial v o ar (a, x) = (Ok u, s) →
  ag_tunnels (fst s) = ag_tunnels a ∧ ag_connected (fst s) = true ∧ ag_control (fst s) = true.
Proof.
  unfold Agent.connect. destruct (dial _ x) as [[msg|msg|msg|msg|env kind] x']; try done.
  destruct env; try done. destruct (ar_ok r); [|done]. simpl. intros [= <- <-]. cbn [fst].
  match goal with |- context [emit ?e ?b] => destruct (emit_frame e b) as (-> & _ & H1 & H2 & _) end.
  simpl. by rewrite H1, H2.
Qed.

Lemma reconnect_loop_result draw prev b turns a x ds ok a' x' :
  reconnect_loop dial ask draw prev b turns (a, x) = (ds, ok, (a', x')) →
  if ok then ∃ a1 x1, ag_tunnels a1 = ag_tunnels a ∧ ag_connected a1 = true ∧ ag_control a1 = true ∧
               rebindAll ask draw prev (a1, x1) = (a', x')
  else a' = a.
Proof.
  revert b x ds. induction turns as [|tu turns IH]; intros b x ds; cbn [reconnect_loop]; [by intros [= <- <- <-]|].
  destruct (tu_done tu); [by intros [= <- <- <-]|]. simpl fst. destruct (ag_closed a); [by intros [= <- <- <-]|].
  destruct (Agent.connect _ _ _ _ (a, x)) as [[[]|e] [a1 x1]] eqn:Hc.
  - apply connect_succeeds in Hc as (Ht & Hn & Hk). intros [= <- <- Hr]. eauto 10.
  - apply connect_fails in Hc. simpl in Hc. subst a1. destruct (tu_done_sleeping tu); [by intros [= <- <- <-]|].
    destruct (reconnect_loop _ _ _ _ (next_backoff b) turns (a, x1)) as [[ds1 ok1] s2] eqn:Hr.
    intros [= <- <- ->]. by eapply IH.
Qed.

Lemma handleSessionDown_spec `{RangeOrder} gen a prev a1 :
  handleSessionDown gen a = (Some prev, a1) →
  prev = (range_map (ag_tunnels a)).*2 ∧ ag_tunnels a1 = ag_tunnels a ∧ ag_connected a1 = false.
Proof.
  unfold handleSessionDown. destruct (_ || _); [done|].
  match goal with |- context [emit ?e ?b] => destruct (emit_frame e b) as (Et & _ & _ & En & _) end.
  simpl. destruct (ag_closed a); [done|]. intros [= <- <-]. by rewrite Et, En.
Qed.

Lemma prev_ids `{RangeOrder} a id t :
  agent_ok a → ag_tunnels a !! id = Some t → id ∈ at_clientTunnelID <$> (range_map (ag_tunnels a)).*2.
Proof.
  intros Ha Ht. apply list_elem_of_fmap. exists t. split; [symmetry; by apply (ao_keyed _ Ha)|].
  apply list_elem_of_fmap. exists (id, t). split; [done|]. by apply elem_of_range.
Qed.

(** C40: reconnection.  When the session of a reachable agent ends and the agent
    reconnects with no other call of its API and no second loss meanwhile, the
    [i]-th delay between the attempts is 500 ms doubled [i] times, with up to half of
    that added, and never more than thirty seconds.  Giving up leaves the agent
    disconnected with its tunnels listed.  After a reconnection the agent has exactly
    re-bound tunnels, each under its newly drawn id: same name, protocol, local
    target, custom domain, password and Host override as before, the subdomain and
    port the user had chosen or else those the edge had assigned; each was asked of
    the edge with just these, and granted.  If the edge grants every request, all of
    them are back. *)
Theorem reconnect_restores_granted `{RangeOrder} cf a x gen prev a1 draw turns ds ok a2 x2 :
  agent_reachable cf (a, x) → handleSessionDown gen a = (Some prev, a1) →
  fresh_draws draw (length prev) (at_clientTunnelID <$> prev) →
  reconnect dial ask draw prev turns (a1, x) = (ds, ok, (a2, x2)) →
  (∀ (i : nat) d, ds !! i = Some d →
     let b := 500 * Millisecond * 2 ^ Z.of_nat i in Z.min b (30 * Second) <= d <= Z.min (b + b / 2) (30 * Second)) ∧
  (ok = false → ag_connected a2 = false ∧ ag_tunnels a2 = ag_tunnels a) ∧
  (ok = true → ag_connected a2 = true ∧
     (∀ id, is_Some (ag_tunnels a2 !! id) →
        ∃ i old, prev !! i = Some old ∧ id = drawn draw i ∧ back (ag_tunnels a2) id old) ∧
     ((∀ b y, is_Some (granted b y)) → ∀ i old, prev !! i = Some old → back (ag_tunnels a2) (drawn draw i) old)).
Proof.
  intros Hok%agent_reachable_ok (Hprev & Ht1 & Hn1)%handleSessionDown_spec Hfr Hrun. simpl in Hok.
  split; [by eapply reconnect_delays; [|exact Hrun]|].
  apply reconnect_loop_result in Hrun. destruct ok; [|subst a2; split; [by rewrite Ht1|done]].
  split; [done|]. intros _. destruct Hrun as (a3 & x3 & Ht3 & Hn3 & Hc3 & Hrun).
  assert (Hin : ∀ id, id ∉ at_clientTunnelID <$> prev → ag_tunnels a3 !! id = None).
  { intros id Hid. destruct (ag_tunnels a3 !! id) as [t|] eqn:He; [|done]. destruct Hid. rewrite Hprev.
    eapply (prev_ids a id t Hok). by rewrite <- Ht1, <- Ht3. }
  apply rebindAll_spec in Hrun as (Hl & Hall & Hrest); [|done|done|by intros i Hi; apply Hin, Hfr].
  split; [by rewrite (proj1 (proj2 Hl))|]. split; [|by intros Hg i old Ho; apply restored_back, (Hall i old Ho)].
  intros id [t Hid].
  destruct (decide (id ∈ at_clientTunnelID <$> prev)) as [Hi|Hi].
  { apply list_elem_of_fmap in Hi as (o & -> & [j Hj]%list_elem_of_lookup).
    destruct (Hall j o Hj) as [Hnone _]. congruence. }
  destruct (decide (Exists (λ i, drawn draw i = id) (seq 0 (length prev)))) as [Hex|Hno].
  - apply list.Exists_exists in Hex as (i & Hi' & Heq). apply elem_of_seq in Hi' as [_ Hi'].
    destruct (lookup_lt_is_Some_2 prev i ltac:(lia)) as [o Ho].
    destruct (Hall i o Ho) as (_ & Hr & _). rewrite Heq in Hr. exists i, o. split; [done|]. split; [done|].
    apply restored_back, Hr. by rewrite Hid.
  - rewrite Hrest, Hin in Hid; [done|done|done|]. intros i Hi' ->. apply Hno, list.Exists_exists.
    exists i. split; [apply elem_of_seq; lia|done].
Qed.
End agent.

(** * Re-binding against the control plane *)
Lemma firstLabel_nonempty h : h ≠ "" → firstLabel h ≠ "".
Proof.
  intros Hh. unfold firstLabel. destruct (IndexByte h ".") as [[|i]|]; try done. simpl.
  by destruct h.
Qed.

(** A tunnel that was opened without a subdomain of its own is not
    restored after a reconnection: the re-bind asks for the first label of the
    old host as a subdomain, and unless the account has reserved that label the
    control plane refuses it, whatever the tunnel's type and custom domain. *)
Theorem unreserved_rebind_refused `{RangeOrder} {R} `{Registry R} IDKey quota draw c sess ss old id
    (s : Server R MemStore) :
  store_ok (ent s) → asess (world s) !! sess = Some ss →
  sp_Subdomain (at_spec old) = "" → at_assignedHost old ≠ "" →
  (∀ acct code, fst (ent_Authenticate IDKey (now c) (apiKey ss) (ent s)) = Ok (acct, code) →
     ¬ owns_subdomain acct (firstLabel (at_assignedHost old)) (ent s)) →
  let resp := fst (handleBind (H1 := ApiEntitlements IDKey quota draw) c sess (bind_msg id (restored_spec old)) s) in
  br_ok resp = false ∧ is_Some (br_error resp).
Proof.
  intros Hok Hss Hsub Hhost Hno. unfold handleBind. rewrite Hss.
  set (req := {| Authz.APIKey := apiKey ss |}).
  assert (Hs : Subdomain req = firstLabel (at_assignedHost old)).
  { simpl. rewrite Hsub. simpl. by destruct (String.eqb_spec (at_assignedHost old) ""). }
  assert (Hden : ∃ d m', ent_CheckBind IDKey quota (draw (now c)) (now c) req (ent s) = (Ok d, m') ∧ Allow d = false).
  { destruct (ent_Authenticate IDKey (now c) (apiKey ss) (ent s)) as [[[acct code]|e] m1] eqn:Ha.
    - destruct (CheckBind_cases IDKey quota (draw (now c)) (now c) req (ent s) acct code m1 Hok Ha)
        as (d & Hrun & [(Hd & _)|(Hmay & _)]); [eauto|].
      exfalso. apply (Hno acct code); [done|]. rewrite <- Hs. apply (mb_sub _ _ _ _ _ _ Hmay). rewrite Hs.
      by apply firstLabel_nonempty.
    - unfold ent_CheckBind. simpl Authz.APIKey. rewrite Ha. by do 2 eexists. }
  destruct Hden as (d & m' & Hrun & Hd). simpl CheckBind. rewrite Hrun. rewrite Hd. simpl. eauto.
Qed.

(** * Examples *)
#[local] Existing Instance sorted_range.

(** An edge that is down for [n] attempts and then grants everything. *)
Definition ex_dial (h : Hello) (n : nat) : DialOutcome * nat :=
  match n with
  | S n => (NoSession "refused", n)
  | O => (Answered (EnvAuthResp {| ar_ok := true; ar_account_id := "org_1"; ar_plan := "pro";
                                   ar_session_id := "sess_1"; ar_error := None |}) "quic", O)
  end.
Definition ex_ask (b : BindTunnel) (n : nat) : BindOutcome * nat :=
  ({| bo_write := None; bo_cancelled := false;
      bo_answers := [{| br_client_tunnel_id := b_client_tunnel_id b; br_ok := true;
                        br_public_url := "https://demo.trqsh.uz"; br_assigned_host := "demo.trqsh.uz";
                        br_assigned_port := 0; br_error := None |}] |}, n).

Definition ex_spec : TunnelSpec :=
  {| sp_Name := "web"; sp_Proto := "http"; sp_Addr := "localhost:3000"; sp_Subdomain := ""; sp_CustomDomain := "";
     sp_BasicAuth := ""; sp_HostHeader := ""; sp_RemotePort := 0 |}.
Definition ex_acfg : AgentConf.Config := with_key "k" DefaultConfig.
Definition ex_agent : Agent :=
  fst (snd (StartTunnel ex_dial ex_ask "1" "linux" "amd64" 5 [1] ex_spec (newAgent ex_acfg, O))).
Definition ex_down : Agent := snd (handleSessionDown 1 ex_agent).
Definition ex_prev : list activeTunnel := (range_map (ag_tunnels ex_agent)).*2.
Definition ex_turn : Turn :=
  {| tu_done := false; tu_rand := 7; tu_done_sleeping := false; tu_version := "1"; tu_os := "linux"; tu_arch := "amd64" |}.
Definition ex_draw (i : nat) : Time * list Z := (9, [2; Z.of_nat i]).

Lemma ex_ask_grants b y : is_Some (granted ex_ask b y).
Proof. unfold granted, ex_ask. simpl. rewrite String.eqb_refl. simpl. eauto. Qed.

Lemma ex_agent_reachable n : n = O → agent_reachable ex_dial ex_ask ex_acfg (ex_agent, n).
Proof.
  intros ->.
  apply (ar_step ex_dial ex_ask ex_acfg (newAgent ex_acfg, O)); [apply ar_init|].
  exact (as_start ex_dial ex_ask "1" "linux" "amd64" 5 [1] ex_spec (newAgent ex_acfg, O)).
Qed.

Lemma reconnect_restores_granted_witness :
  ∃ ds a2 x2, reconnect ex_dial ex_ask ex_draw ex_prev [ex_turn; ex_turn] (ex_down, O) = (ds, true, (a2, x2)) ∧
    ag_connected a2 = true ∧
    ∃ old, ex_prev !! 0%nat = Some old ∧ back ex_ask (ag_tunnels a2) (drawn ex_draw 0) old.
Proof.
  destruct (reconnect ex_dial ex_ask ex_draw ex_prev [ex_turn; ex_turn] (ex_down, O)) as [[ds ok] [a2 x2]] eqn:Hrun.
  assert (Hok : ok = true) by (vm_compute in Hrun; by injection Hrun as _ <- _ _). subst ok.
  destruct (reconnect_restores_granted ex_dial ex_ask ex_acfg ex_agent O 1 ex_prev ex_down ex_draw
    [ex_turn; ex_turn] ds true a2 x2) as (_ & _ & Hup).
  - by apply ex_agent_reachable.
  - vm_compute. reflexivity.
  - split.
    + intros i j Hi Hj _. vm_compute in Hi, Hj. lia.
    + intros i Hi. vm_compute in Hi. assert (i = O) as -> by lia. vm_compute. intros Hin.
      apply list_elem_of_singleton in Hin. congruence.
  - exact Hrun.
  - destruct (Hup eq_refl) as (Hc & _ & Hall). exists ds, a2, x2. split; [done|]. split; [done|].
    eexists. split; [vm_compute; reflexivity|]. apply (Hall ex_ask_grants O). vm_compute. reflexivity.
Defined.

(** A tunnel stopped while the agent is without a session is opened again by the
    reconnection, which works on the tunnels there were when the session was lost. *)
Example stop_during_outage_is_undone :
  match ex_prev with
  | [t] =>
      let '(r, stopped) := StopTunnel (at_clientTunnelID t) ex_down in
      is_ok r = true ∧ size (ag_tunnels stopped) = 0%nat ∧
      let '(_, ok, (a2, _)) := reconnect ex_dial ex_ask ex_draw ex_prev [ex_turn] (stopped, O) in
      ok = true ∧ size (ag_tunnels a2) = 1%nat
  | _ => False
  end.
Proof. vm_compute. done. Qed.

(** The account of [keyed_store] opens a tunnel without a subdomain and gets a
    random one; the same tunnel, re-bound as after a lost session, is refused. *)
Definition api_server : Server InMemoryRegistry MemStore :=
  EdgeSafety.connect 1%nat {| sessionID := "sess_1"; accountID := "org_1"; plan := "pro"; apiKey := gk_Full ex_gk; tunnels := ∅ |}
    (NewServer ex_cfg keyed_store NewInMemoryRegistry false).
Definition first_resp : BindResp :=
  fst (handleBind (H1 := ApiEntitlements ex_idkey true (λ _, [1; 2; 3])) (ex_call 0) 1%nat (bind_msg "ct_1" ex_spec) api_server).
Definition ex_old : activeTunnel :=
  {| at_spec := ex_spec; at_clientTunnelID := "ct_1"; at_publicURL := br_public_url first_resp;
     at_assignedHost := br_assigned_host first_resp; at_assignedPort := br_assigned_port first_resp;
     at_status := "online"; at_createdAt := 5;
     at_metrics := {| tm_Connections := 0; tm_Requests := 0; tm_BytesIn := 0; tm_BytesOut := 0 |} |}.

Lemma unreserved_rebind_refused_witness :
  br_ok first_resp = true ∧
  br_ok (fst (handleBind (H1 := ApiEntitlements ex_idkey true (λ _, [1; 2; 3])) (ex_call 1) 1%nat
                (bind_msg "ct_2" (restored_spec ex_old)) api_server)) = false.
Proof.
  split; [vm_compute; reflexivity|].
  apply (unreserved_rebind_refused ex_idkey true (λ _, [1; 2; 3]) (ex_call 1) 1%nat
    {| sessionID := "sess_1"; accountID := "org_1"; plan := "pro"; apiKey := gk_Full ex_gk; tunnels := ∅ |} ex_old "ct_2" api_server).
  - apply (store_reachable_ok keyed_store), keyed_store_reachable.
  - vm_compute. reflexivity.
  - reflexivity.
  - vm_compute. discriminate.
  - intros acct code Ha. vm_compute in Ha. injection Ha as <- <-.
    destruct (owns_subdomain_lookup "org_1" (firstLabel (at_assignedHost ex_old)) keyed_store
      (store_reachable_ok _ keyed_store_reachable)) as (b & Hb & Hiff).
    vm_compute in Hb. injection Hb as <-. intros Hown. apply Hiff in Hown. discriminate.
Defined.
