(* ===== verification/AgentStreams.v ===== *)
(** The agent's data streams (internal/agent/forward.go): what the agent does
    with a stream the edge opens, up to its counters, the inspector and the
    events.

    A handler is modelled by the atomic effects its goroutines have, in order;
    the effects of goroutines running together interleave in any way.  The
    network and the local service are the [StreamOutside]. *)
From S2P Require Import Prelude GoStrings Wire Ingress Inspect Agent.
From Stdlib Require Import Ascii Strings.Byte.

Open Scope Z_scope.

(** * Local addresses *)
(** [strings.Index], with [None] for -1. *)
Fixpoint Index (s sub : string) : option nat :=
  if HasPrefix s sub then Some 0%nat
  else match s with EmptyString => None | String _ r => S <$> Index r sub end.

Definition normalizeLocalAddr (addr : string) : string :=
  let addr := TrimSpace addr in
  if String.eqb addr "" then "localhost:80"
  else
    let addr := match Index addr "://" with Some i => drop_string (i + 3) addr | None => addr end in
    if negb (Contains addr ":") then "localhost:" +:+ addr else addr.

(** A request as [http.ReadRequest] parses it, with its body in the pieces in
    which it arrives. *)
Record InRequest := {
  ir_Method : string; ir_Host : string; ir_URI : string; ir_Header : Header; ir_Body : list (list byte);
}.

(** * Effects *)
Definition counters (c r i o : Z) : TunnelMetrics :=
  {| tm_Connections := c; tm_Requests := r; tm_BytesIn := i; tm_BytesOut := o |}.

(** The atomic adds to a tunnel's counters, an event, a capture (stored by the
    inspector, then announced with the id it got there), bytes copied to the
    local service or to the edge, a framed datagram to the edge, the request of an
    HTTP exchange and its response, each followed by the pieces of its body that are
    copied, an upgrade request written to the local service, and text written to the edge. *)
Inductive Eff :=
| FMetric (id : string) (d : TunnelMetrics)
| FEmit (e : AgentEvent)
| FCapture (c : CapturedRequest)
| FToLocal (id : string) (p : list byte)
| FToEdge (id : string) (p : list byte)
| FFrame (id : string) (hdr p : list byte)
| FRequest (r : LocalRequest)
| FReqBody (id : string) (p : list byte)
| FRespond (r : LocalResponse)
| FRespBody (id : string) (p : list byte)
| FUpgrade (id : string) (r : InRequest)
| FWriteText (s : string).

Record FState := { fs_agent : Agent; fs_insp : Recorder }.

Definition add_metrics (m d : TunnelMetrics) : TunnelMetrics :=
  counters (add64 (tm_Connections m) (tm_Connections d)) (add64 (tm_Requests m) (tm_Requests d))
           (add64 (tm_BytesIn m) (tm_BytesIn d)) (add64 (tm_BytesOut m) (tm_BytesOut d)).
Definition with_metrics (m : TunnelMetrics) (t : activeTunnel) : activeTunnel :=
  {| at_spec := at_spec t; at_clientTunnelID := at_clientTunnelID t; at_publicURL := at_publicURL t;
     at_assignedHost := at_assignedHost t; at_assignedPort := at_assignedPort t; at_status := at_status t;
     at_createdAt := at_createdAt t; at_metrics := m |}.

(** The counters belong to the tunnel, also after it has left the map: then
    nobody reads them again. *)
Definition apply_eff (e : Eff) (f : FState) : FState :=
  match e with
  | FMetric id d =>
      {| fs_agent := set_ag_tunnels (alter (λ t, with_metrics (add_metrics (at_metrics t) d) t) id (ag_tunnels (fs_agent f)))
                       (fs_agent f);
         fs_insp := fs_insp f |}
  | FEmit ev => {| fs_agent := emit ev (fs_agent f); fs_insp := fs_insp f |}
  | FCapture c =>
      let '(c, r) := rec_Add c (fs_insp f) in {| fs_agent := emit (EvRequest c) (fs_agent f); fs_insp := r |}
  | FToLocal _ _ | FToEdge _ _ | FFrame _ _ _ | FRequest _ | FReqBody _ _ | FRespond _ | FRespBody _ _ | FUpgrade _ _
  | FWriteText _ => f
  end.
Definition apply_effs (es : list Eff) (f : FState) : FState := foldl (λ f e, apply_eff e f) f es.

(** * Raw streams *)
(** What the two copying loops of a weld meet: bytes from either side, and the
    end of one side, upon which both connections are closed and the other loop
    ends too. *)
Inductive WeldEv := FromEdge (p : list byte) | FromLocal (p : list byte) | SideEnds.

(** The bytes copied and, once a side has ended, how many each way. *)
Fixpoint weld (id : string) (evs : list WeldEv) (fromPublic toPublic : Z) : list Eff * option (Z * Z) :=
  match evs with
  | [] => ([], None)
  | SideEnds :: _ => ([], Some (fromPublic, toPublic))
  | FromEdge p :: evs =>
      let '(es, n) := weld id evs (fromPublic + Z.of_nat (length p)) toPublic in (FToLocal id p :: es, n)
  | FromLocal p :: evs =>
      let '(es, n) := weld id evs fromPublic (toPublic + Z.of_nat (length p)) in (FToEdge id p :: es, n)
  end.

(** The outside of one stream: what [http.ReadRequest] reads, how dialing the
    local service ends, what the pooled transport returns and how many pieces
    of the body it has read by then, also when it fails, whether the writes succeed and,
    if not, how many pieces of a response body were copied, what a weld meets, which
    datagrams the local service sends, and the clock. *)
Record StreamOutside := {
  so_request : option InRequest;
  so_dial : string → option string;
  so_roundtrip : LocalRequest → result string LocalResponse * nat;
  so_write : bool;
  so_copied : nat;
  so_weld : list WeldEv;
  so_local_writes : list bool;
  so_datagrams : list (list byte);
  so_edge_writes : list bool;
  so_start : Time;
  so_end : Time;
}.

Section streams.
  Variable Unmarshal : list byte → option StreamInit.
  Implicit Types (t : activeTunnel) (o : StreamOutside).

Definition weld_effs t o : list Eff :=
  let '(es, n) := weld (at_clientTunnelID t) (so_weld o) 0 0 in
  es ++ match n with
        | None => []
        | Some (fromPub, toPub) =>
            [FMetric (at_clientTunnelID t) (counters 0 0 fromPub 0); FMetric (at_clientTunnelID t) (counters 0 0 0 toPub)]
        end.

Definition forwardRaw t o : list Eff :=
  match so_dial o (normalizeLocalAddr (sp_Addr (at_spec t))) with
  | Some msg => [FEmit (EvError ("dial local " +:+ sp_Addr (at_spec t) +:+ ": " +:+ msg))]
  | None => weld_effs t o
  end.

(** * HTTP *)
Definition hopHeaders : list string :=
  ["Connection"; "Proxy-Connection"; "Keep-Alive"; "Proxy-Authenticate"; "Proxy-Authorization"; "Te"; "Trailer";
   "Transfer-Encoding"; "Upgrade"].

Definition CRLF : string := String (ascii_of_nat 13) (String (ascii_of_nat 10) "").
Definition LF : string := String (ascii_of_nat 10) "".
(** http.StatusText is given with the status. *)
Definition writeHTTPError (status : Z) (text msg : string) : list Eff :=
  [FWriteText ("HTTP/1.1 " +:+ Itoa status +:+ " " +:+ text +:+ CRLF +:+ "Content-Type: text/plain" +:+ CRLF +:+
     "Content-Length: " +:+ Itoa (Z.of_nat (String.length msg) + 1) +:+ CRLF +:+ "Connection: close" +:+ CRLF +:+ CRLF +:+
     msg +:+ LF)].

Definition isUpgradeReq (r : InRequest) : bool :=
  Contains (ToLower (Get (ir_Header r) "Connection")) "upgrade".

Definition hdrMap (h : Header) : gmap string string := Join ", " <$> h.

(** The request handed to the pooled transport. *)
Definition local_request t (r : InRequest) : LocalRequest :=
  {| lr_Addr := normalizeLocalAddr (sp_Addr (at_spec t)); lr_Method := ir_Method r; lr_Host := ir_Host r;
     lr_Path := ir_URI r; lr_Header := foldl Del (ir_Header r) hopHeaders; lr_Body := concat (ir_Body r) |}.

Definition forwardUpgrade t (r : InRequest) o : list Eff :=
  match so_dial o (normalizeLocalAddr (sp_Addr (at_spec t))) with
  | Some msg =>
      writeHTTPError 502 "Bad Gateway" "local service unreachable" ++
      [FEmit (EvError ("dial local " +:+ sp_Addr (at_spec t) +:+ ": " +:+ msg))]
  | None => FUpgrade (at_clientTunnelID t) r :: if so_write o then weld_effs t o else []
  end.

Definition forwardHTTP t (si : StreamInit) o : list Eff :=
  match so_request o with
  | None => []
  | Some r =>
      if isUpgradeReq r then forwardUpgrade t r o
      else
        let out := local_request t r in
        let id := at_clientTunnelID t in
        let '(res, n) := so_roundtrip o out in
        FRequest out :: (FReqBody id <$> take n (ir_Body r)) ++
        match res with
        | Err e =>
            writeHTTPError 502 "Bad Gateway" "local service unreachable" ++
            [FEmit (EvError ("forward to " +:+ sp_Addr (at_spec t) +:+ ": " +:+ e))]
        | Ok resp =>
            let reqCap := cap_all (take n (ir_Body r)) (newCapWriter MaxBodyCapture) in
            let respCap := cap_all (lp_Body resp) (newCapWriter MaxBodyCapture) in
            if negb (so_write o) then FRespond resp :: (FRespBody id <$> take (so_copied o) (lp_Body resp))
            else
              FRespond resp :: (FRespBody id <$> lp_Body resp) ++
              [FMetric id (counters 0 1 0 0);
               FMetric id (counters 0 0 (cw_total reqCap) 0);
               FMetric id (counters 0 0 0 (cw_total respCap));
               FCapture {| cr_ID := ""; cr_TunnelID := id; cr_Proto := si_proto si; cr_Method := ir_Method r;
                           cr_Host := ir_Host r; cr_Path := ir_URI r; cr_Status := lp_Status resp;
                           cr_StartedAt := so_start o; cr_DurationMs := (so_end o - so_start o) / Millisecond;
                           cr_ReqHeaders := hdrMap (ir_Header r); cr_RespHeaders := hdrMap (lp_Header resp);
                           cr_ReqBody := cw_buf reqCap; cr_RespBody := cw_buf respCap;
                           cr_BytesIn := cw_total reqCap; cr_BytesOut := cw_total respCap;
                           cr_LocalAddr := lr_Addr out |}]
        end
  end.

(** * Datagrams *)
(** The stream-to-local loop on the bytes that arrive, one answer of the socket
    per write; it ends with the bytes, with a frame cut short, or when a write
    fails.  Each turn consumes the two bytes of a header. *)
Fixpoint udp_to_local (id : string) (fuel : nat) (s : list byte) (writes : list bool) : list Eff :=
  match fuel with
  | O => []
  | S fuel =>
      match readUDPFrame s with
      | (Err _, _) => []
      | (Ok p, s) =>
          match writes with
          | true :: writes =>
              FToLocal id p :: FMetric id (counters 0 0 (Z.of_nat (length p)) 0) :: udp_to_local id fuel s writes
          | _ => []
          end
      end
  end.
(** The local-to-stream loop: a datagram of the local service at a time. *)
Fixpoint udp_to_edge (id : string) (ps : list (list byte)) (writes : list bool) : list Eff :=
  match ps, writes with
  | p :: ps, true :: writes =>
      FFrame id (PutUint16 (Z.of_nat (length p) mod 65536)) p ::
      FMetric id (counters 0 0 0 (Z.of_nat (length p))) :: udp_to_edge id ps writes
  | _, _ => []
  end.

(** The two goroutines of [forwardUDP]. *)
Definition forwardUDP t (s : list byte) o : list Eff * list Eff :=
  match so_dial o (normalizeLocalAddr (sp_Addr (at_spec t))) with
  | Some msg => ([FEmit (EvError ("dial local udp " +:+ sp_Addr (at_spec t) +:+ ": " +:+ msg))], [])
  | None =>
      let id := at_clientTunnelID t in
      (udp_to_edge id (so_datagrams o) (so_edge_writes o), udp_to_local id (S (length s)) s (so_local_writes o))
  end.

(** * A data stream
    The effects of its goroutines, the handler's own first. *)
Definition handleDataStream (a : Agent) (s : list byte) o : list (list Eff) :=
  match ReadStreamInit Unmarshal s with
  | (Err _, _) => []
  | (Ok si, rest) =>
      match ag_tunnels a !! si_client_tunnel_id si with
      | None => []
      | Some t =>
          let conn := FMetric (at_clientTunnelID t) (counters 1 0 0 0) in
          let p := ToLower (si_proto si) in
          if String.eqb p "http" || String.eqb p "https" then [conn :: forwardHTTP t si o]
          else if String.eqb p "udp" then let '(own, other) := forwardUDP t rest o in [conn :: own; other]
          else [conn :: forwardRaw t o]
      end
  end.
End streams.

(** Goroutines running together. *)
Inductive interleave : list (list Eff) → list Eff → Prop :=
| il_done ts : Forall (λ t, t = []) ts → interleave ts []
| il_step ts1 e t ts2 es : interleave (ts1 ++ t :: ts2) es → interleave (ts1 ++ (e :: t) :: ts2) (e :: es).
