(* ===== verification/AgentStreamsSafety.v ===== *)
(** What the data streams guarantee: the counters of a tunnel are exactly what
    passed through it however its streams interleave, and the inspector shows
    what was exchanged. *)
From S2P Require Import Prelude GoStrings Wire Ingress Inspect InspectSafety AgentConf Agent AgentSafety AgentStreams.
From Stdlib Require Import Ascii Strings.Byte.

Open Scope Z_scope.

(** * Interleavings *)
Lemma interleave_perm ts es : interleave ts es → es ≡ₚ concat ts.
Proof.
  induction 1 as [ts Hts|ts1 e t ts2 es _ IH].
  - induction Hts as [|t ts -> _ IH]; [done|]. done.
  - rewrite IH, !concat_app. simpl. by rewrite Permutation_middle.
Qed.

(** * Sums over effects *)
Definition esum (f : Eff → Z) (es : list Eff) : Z := foldr (λ e n, f e + n) 0 es.

Lemma esum_cons f e es : esum f (e :: es) = f e + esum f es.
Proof. done. Qed.
Lemma esum_app f es es' : esum f (es ++ es') = esum f es + esum f es'.
Proof. induction es as [|e es IH]; simpl; lia. Qed.
Lemma esum_perm f es es' : es ≡ₚ es' → esum f es = esum f es'.
Proof. induction 1; simpl; lia. Qed.
Lemma esum_concat f g ts :
  Forall (λ t, esum f t = esum g t) ts → esum f (concat ts) = esum g (concat ts).
Proof. induction 1 as [|t ts Ht _ IH]; [done|]. simpl. rewrite !esum_app. lia. Qed.

(** What the counters of tunnel [id] are told, and what really passed: bytes copied raw,
    pieces of bodies, datagrams. *)
Definition told (sel : TunnelMetrics → Z) (id : string) (e : Eff) : Z :=
  match e with FMetric i d => if String.eqb i id then sel d else 0 | _ => 0 end.
Definition exchanged (id : string) (e : Eff) : Z :=
  match e with FCapture c => if String.eqb (cr_TunnelID c) id then 1 else 0 | _ => 0 end.
Definition passed_in (id : string) (e : Eff) : Z :=
  match e with FToLocal i p | FReqBody i p => if String.eqb i id then Z.of_nat (length p) else 0 | _ => 0 end.
Definition passed_out (id : string) (e : Eff) : Z :=
  match e with FToEdge i p | FFrame i _ p | FRespBody i p => if String.eqb i id then Z.of_nat (length p) else 0 | _ => 0 end.

(** Effects that are all of one kind. *)
Lemma esum_fmap f (g : list byte → Eff) ps : esum f (g <$> ps) = foldr (λ p n, f (g p) + n) 0 ps.
Proof. induction ps as [|p ps IH]; [done|]. csimpl. by rewrite <- IH. Qed.
Lemma esum_zero f (g : list byte → Eff) ps : (∀ p, f (g p) = 0) → esum f (g <$> ps) = 0.
Proof. intros H. rewrite esum_fmap. induction ps as [|p ps IH]; simpl; rewrite ?H; lia. Qed.
Lemma esum_lengths f (g : list byte → Eff) b ps : (∀ p, f (g p) = if b : bool then Z.of_nat (length p) else 0) →
  esum f (g <$> ps) = if b then Z.of_nat (length (concat ps)) else 0.
Proof.
  intros H. rewrite esum_fmap. induction ps as [|p ps IH]; simpl; [by destruct b|].
  rewrite H, IH, length_app. destruct b; lia.
Qed.

(** * Counters *)
Definition totals (id : string) (es : list Eff) : TunnelMetrics :=
  counters (esum (told tm_Connections id) es) (esum (told tm_Requests id) es) (esum (told tm_BytesIn id) es)
    (esum (told tm_BytesOut id) es).
Definition metrics64 (m : TunnelMetrics) : Prop :=
  in64 (tm_Connections m) ∧ in64 (tm_Requests m) ∧ in64 (tm_BytesIn m) ∧ in64 (tm_BytesOut m).

Lemma add64_sum a b c : add64 (add64 a b) c = add64 a (b + c).
Proof.
  unfold add64, wrap64. f_equal.
  replace ((a + b + 2 ^ 63) mod 2 ^ 64 - 2 ^ 63 + c + 2 ^ 63) with ((a + b + 2 ^ 63) mod 2 ^ 64 + c) by lia.
  rewrite Zplus_mod_idemp_l. f_equal. lia.
Qed.

Lemma add_metrics_sum m d d' :
  add_metrics (add_metrics m d) d' =
  add_metrics m (counters (tm_Connections d + tm_Connections d') (tm_Requests d + tm_Requests d')
                   (tm_BytesIn d + tm_BytesIn d') (tm_BytesOut d + tm_BytesOut d')).
Proof. unfold add_metrics. simpl. by rewrite !add64_sum. Qed.

Lemma add_metrics64 m d : metrics64 (add_metrics m d).
Proof. unfold metrics64. simpl. split_and!; apply wrap64_range. Qed.

Lemma emit_tunnels e a : ag_tunnels (emit e a) = ag_tunnels a.
Proof. apply emit_frame. Qed.

Lemma apply_tunnels id es f t :
  ag_tunnels (fs_agent f) !! id = Some t → metrics64 (at_metrics t) →
  ag_tunnels (fs_agent (apply_effs es f)) !! id = Some (with_metrics (add_metrics (at_metrics t) (totals id es)) t).
Proof.
  revert f t. induction es as [|e es IH]; intros f t Ht Hm.
  { simpl. rewrite Ht. f_equal. destruct Hm as (H1 & H2 & H3 & H4). destruct t as [? ? ? ? ? ? ? []]. simpl in *.
    unfold with_metrics, add_metrics, totals, add64. simpl. by rewrite !Z.add_0_r, !wrap64_id. }
  destruct e as [i d|ev|c|i p|i p|i h p|r|i p|r|i p|i r|x]; simpl;
    try (rewrite (IH _ t); [done| |done]; simpl; by rewrite ?emit_tunnels).
  destruct (String.eqb_spec i id) as [->|Hne].
  - erewrite (IH _ (with_metrics (add_metrics (at_metrics t) d) t)).
    + f_equal. unfold with_metrics. simpl. f_equal. rewrite add_metrics_sum. unfold totals. simpl. by rewrite String.eqb_refl.
    + simpl. by rewrite lookup_alter_eq, Ht.
    + apply add_metrics64.
  - rewrite (IH _ t); [| |done].
    + unfold totals. simpl. by rewrite (proj2 (String.eqb_neq i id) Hne).
    + simpl. by rewrite lookup_alter_ne.
Qed.

(** * Each goroutine tells the counters what it moved *)
Definition honest (id : string) (es : list Eff) : Prop :=
  esum (told tm_Requests id) es = esum (exchanged id) es ∧
  esum (told tm_BytesIn id) es = esum (passed_in id) es ∧
  esum (told tm_BytesOut id) es = esum (passed_out id) es ∧
  esum (told tm_Connections id) es = 0.

Lemma honest_nil id : honest id [].
Proof. done. Qed.

Lemma weld_sums i id evs a b es n :
  weld i evs a b = (es, n) →
  let mine (z : Z) := if String.eqb i id then z else 0 in
  esum (told tm_Requests id) es = 0 ∧ esum (exchanged id) es = 0 ∧ esum (told tm_Connections id) es = 0 ∧
  esum (told tm_BytesIn id) es = 0 ∧ esum (told tm_BytesOut id) es = 0 ∧
  (SideEnds ∈ evs → ∃ a' b', n = Some (a', b') ∧
    esum (passed_in id) es = mine (a' - a) ∧ esum (passed_out id) es = mine (b' - b)).
Proof.
  revert a b es n. induction evs as [|[p|p|] evs IH]; simpl; intros a b es n Hw.
  - injection Hw as <- <-. split_and!; try done. by intros ?%not_elem_of_nil.
  - destruct (weld i evs (a + Z.of_nat (length p)) b) as [es' n'] eqn:E. injection Hw as <- <-.
    destruct (IH _ _ _ _ E) as (H1 & H2 & H3 & H4 & H5 & H6). simpl. split_and!; try done.
    intros [?|Hin]%elem_of_cons; [done|]. destruct (H6 Hin) as (a' & b' & -> & Ha & Hb). exists a', b'.
    split; [done|]. rewrite Ha, Hb. destruct (String.eqb i id); lia.
  - destruct (weld i evs a (b + Z.of_nat (length p))) as [es' n'] eqn:E. injection Hw as <- <-.
    destruct (IH _ _ _ _ E) as (H1 & H2 & H3 & H4 & H5 & H6). simpl. split_and!; try done.
    intros [?|Hin]%elem_of_cons; [done|]. destruct (H6 Hin) as (a' & b' & -> & Ha & Hb). exists a', b'.
    split; [done|]. rewrite Ha, Hb. destruct (String.eqb i id); lia.
  - injection Hw as <- <-. split_and!; try done. intros _. exists a, b. split; [done|].
    simpl. destruct (String.eqb i id); lia.
Qed.

Lemma weld_honest t o id : SideEnds ∈ so_weld o → honest id (weld_effs t o).
Proof.
  intros Hend. unfold weld_effs. destruct (weld _ (so_weld o) 0 0) as [es n] eqn:E.
  destruct (weld_sums _ id _ _ _ _ _ E) as (H1 & H2 & H3 & H4 & H5 & H6).
  destruct (H6 Hend) as (a' & b' & -> & Ha & Hb). unfold honest. rewrite !esum_app, H1, H2, H3, H4, H5, Ha, Hb. simpl.
  destruct (String.eqb (at_clientTunnelID t) id); lia.
Qed.

Lemma forwardRaw_honest t o id : SideEnds ∈ so_weld o → honest id (forwardRaw t o).
Proof. intros H. unfold forwardRaw. destruct (so_dial _ _); [done|by apply weld_honest]. Qed.

Lemma cap_new ps :
  Z.of_nat (length (concat ps)) < 2 ^ 63 →
  cap_all ps (newCapWriter MaxBodyCapture) =
  {| cw_max := MaxBodyCapture; cw_buf := take (Z.to_nat MaxBodyCapture) (concat ps);
     cw_total := Z.of_nat (length (concat ps)) |}.
Proof. intros H. rewrite cap_all_inv; simpl; [done|unfold MaxBodyCapture; lia..|lia|lia]. Qed.

(** An exchange that breaks off: the local service does not answer, or the response
    cannot be written. *)
Definition breaks_off t (r : InRequest) (o : StreamOutside) : bool :=
  negb (isUpgradeReq r) && negb (is_ok (so_roundtrip o (local_request t r)).1 && so_write o).
(** Nothing is told of it. *)
Definition silent (id : string) (es : list Eff) : Prop :=
  esum (told tm_Requests id) es = 0 ∧ esum (exchanged id) es = 0 ∧ esum (told tm_BytesIn id) es = 0 ∧
  esum (told tm_BytesOut id) es = 0 ∧ esum (told tm_Connections id) es = 0.
(** Bodies a 64-bit counter can count. *)
Definition small_bodies (o : StreamOutside) : Prop :=
  (∀ r n, so_request o = Some r → Z.of_nat (length (concat (take n (ir_Body r)))) < 2 ^ 63) ∧
  (∀ q resp n, so_roundtrip o q = (Ok resp, n) → Z.of_nat (length (concat (lp_Body resp))) < 2 ^ 63).

Lemma upgrade_honest t r o id : SideEnds ∈ so_weld o → honest id (forwardUpgrade t r o).
Proof.
  intros H. unfold forwardUpgrade. destruct (so_dial _ _); [done|]. destruct (so_write o); [|done].
  destruct (weld_honest t o id H) as (H1 & H2 & H3 & H4). unfold honest. simpl. by rewrite H1, H2, H3, H4.
Qed.
Lemma forwardHTTP_honest t si o id : SideEnds ∈ so_weld o → small_bodies o →
  match so_request o with
  | Some r => if breaks_off t r o then silent id (forwardHTTP t si o) else honest id (forwardHTTP t si o)
  | None => honest id (forwardHTTP t si o)
  end.
Proof.
  intros H [S1 S2]. unfold forwardHTTP, breaks_off. destruct (so_request o) as [r|] eqn:Hr; [|done].
  destruct (isUpgradeReq r); cbn [negb andb]; [by apply upgrade_honest|].
  destruct (so_roundtrip o (local_request t r)) as [[resp|e] n] eqn:E; cbn [fst is_ok andb negb].
  - destruct (so_write o); cbn [negb].
    + rewrite !cap_new by eauto. cbn [cw_total]. unfold honest. rewrite !esum_cons, !esum_app, !esum_cons, !esum_app.
      rewrite (esum_lengths (passed_in id) (FReqBody _) (String.eqb (at_clientTunnelID t) id)) by done.
      rewrite (esum_lengths (passed_out id) (FRespBody _) (String.eqb (at_clientTunnelID t) id)) by done.
      rewrite !esum_zero by done. simpl. destruct (String.eqb (at_clientTunnelID t) id); lia.
    + unfold silent. rewrite !esum_cons, !esum_app, ?esum_cons. by rewrite !esum_zero.
  - unfold silent. rewrite !esum_cons, !esum_app, ?esum_cons. by rewrite !esum_zero.
Qed.

Lemma udp_to_local_honest i id fuel s ws : honest id (udp_to_local i fuel s ws).
Proof.
  revert s ws. induction fuel as [|fuel IH]; intros s ws; [done|]. cbn [udp_to_local].
  destruct (readUDPFrame s) as [[p|] s']; [|done]. destruct ws as [|[] ws]; [done| |done].
  destruct (IH s' ws) as (H1 & H2 & H3 & H4). unfold honest. simpl. rewrite H1, H2, H3, H4.
  destruct (String.eqb i id); lia.
Qed.

Lemma udp_to_edge_honest i id ps ws : honest id (udp_to_edge i ps ws).
Proof.
  revert ws. induction ps as [|p ps IH]; intros [|[] ws]; [done..| |done]. cbn [udp_to_edge].
  destruct (IH ws) as (H1 & H2 & H3 & H4). unfold honest. simpl. rewrite H1, H2, H3, H4.
  destruct (String.eqb i id); lia.
Qed.

Definition keys_ok (a : Agent) : Prop := ∀ k t, ag_tunnels a !! k = Some t → at_clientTunnelID t = k.

Section streams.
  Variable Unmarshal : list byte → option StreamInit.

(** The stream is for tunnel [id]. *)
Definition for_tunnel (id : string) (s : list byte) : bool :=
  match ReadStreamInit Unmarshal s with (Ok si, _) => String.eqb (si_client_tunnel_id si) id | _ => false end.

(** A stream whose exchange breaks off. *)
Definition broken (a : Agent) (so : list byte * StreamOutside) : bool :=
  match ReadStreamInit Unmarshal so.1 with
  | (Ok si, _) =>
      match ag_tunnels a !! si_client_tunnel_id si, so_request so.2 with
      | Some t, Some r =>
          let p := ToLower (si_proto si) in
          (String.eqb p "http" || String.eqb p "https") && breaks_off t r so.2
      | _, _ => false
      end
  | _ => false
  end.
Definition stream_effs (a : Agent) (so : list byte * StreamOutside) : list Eff :=
  concat (handleDataStream Unmarshal a so.1 so.2).

(** Told, but for what was lost. *)
Definition accounted (id : string) (conns lost_in lost_out : Z) (es : list Eff) : Prop :=
  esum (told tm_Requests id) es = esum (exchanged id) es ∧
  esum (told tm_BytesIn id) es + lost_in = esum (passed_in id) es ∧
  esum (told tm_BytesOut id) es + lost_out = esum (passed_out id) es ∧
  esum (told tm_Connections id) es = conns.

Lemma accounted_app id n m i j i' j' es es' :
  accounted id n i j es → accounted id m i' j' es' → accounted id (n + m) (i + i') (j + j') (es ++ es').
Proof. intros (A1 & A2 & A3 & A4) (B1 & B2 & B3 & B4). unfold accounted. rewrite !esum_app. lia. Qed.

Lemma accounted_conn i id es :
  honest id es → accounted id (if String.eqb i id then 1 else 0) 0 0 (FMetric i (counters 1 0 0 0) :: es).
Proof.
  intros (H1 & H2 & H3 & H4). unfold accounted. simpl. rewrite H1, H2, H3, H4.
  destruct (String.eqb i id); lia.
Qed.
Lemma silent_conn i id es :
  silent id es →
  let es' := FMetric i (counters 1 0 0 0) :: es in
  accounted id (if String.eqb i id then 1 else 0) (esum (passed_in id) es') (esum (passed_out id) es') es'.
Proof.
  intros (H1 & H2 & H3 & H4 & H5). cbn zeta. unfold accounted. simpl. rewrite H1, H2, H3, H4, H5.
  destruct (String.eqb i id); lia.
Qed.

Lemma stream_accounted a id so :
  keys_ok a → is_Some (ag_tunnels a !! id) → SideEnds ∈ so_weld so.2 → small_bodies so.2 →
  let es := stream_effs a so in
  accounted id (if for_tunnel id so.1 then 1 else 0)
    (if broken a so then esum (passed_in id) es else 0) (if broken a so then esum (passed_out id) es else 0) es.
Proof.
  destruct so as [s o]. cbn [fst snd]. intros Hk [t0 Ht0] Hend Hsm. unfold stream_effs, handleDataStream, for_tunnel, broken. cbn [fst snd].
  destruct (ReadStreamInit Unmarshal s) as [[si|e] rest]; [|done].
  destruct (ag_tunnels a !! si_client_tunnel_id si) as [t|] eqn:Ht.
  2:{ destruct (String.eqb_spec (si_client_tunnel_id si) id) as [E|]; [|done]. congruence. }
  rewrite <-(Hk _ _ Ht). cbn zeta. destruct (String.eqb (ToLower (si_proto si)) "http" || _).
  { cbn [concat andb]. rewrite app_nil_r. pose proof (forwardHTTP_honest t si o id Hend Hsm) as Hh.
    destruct (so_request o) as [r|]; [|by apply accounted_conn].
    destruct (breaks_off t r o); [by apply silent_conn|by apply accounted_conn]. }
  cbn [andb]. assert (Hb : (match so_request o with Some _ => false | None => false end) = false) by (by destruct (so_request o)).
  rewrite Hb. destruct (String.eqb _ "udp").
  - unfold forwardUDP. destruct (so_dial o _); cbn [concat app]; rewrite ?app_nil_r; [by apply accounted_conn|].
    change (?x :: ?y ++ ?z) with ((x :: y) ++ z). replace (if String.eqb _ _ then 1 else 0) with ((if String.eqb (at_clientTunnelID t) id then 1 else 0) + 0) by lia.
    apply (accounted_app id _ 0 0 0 0 0); [apply accounted_conn, udp_to_edge_honest|].
    destruct (udp_to_local_honest (at_clientTunnelID t) id (S (length rest)) rest (so_local_writes o)) as (H1 & H2 & H3 & H4).
    unfold accounted. lia.
  - simpl. rewrite app_nil_r. by apply accounted_conn, forwardRaw_honest.
Qed.

Definition threads (a : Agent) (streams : list (list byte * StreamOutside)) : list (list Eff) :=
  concat ((λ so, handleDataStream Unmarshal a so.1 so.2) <$> streams).
Definition opened (id : string) (streams : list (list byte * StreamOutside)) : Z :=
  Z.of_nat (length (filter (λ so, for_tunnel id so.1 = true) streams)).
(** What the streams whose exchange broke off had copied by then. *)
Definition lost (f : Eff → Z) (a : Agent) (streams : list (list byte * StreamOutside)) : Z :=
  esum f (concat (threads a (filter (λ so, broken a so = true) streams))).

Lemma threads_accounted a id streams :
  keys_ok a → is_Some (ag_tunnels a !! id) → Forall (λ so, SideEnds ∈ so_weld so.2 ∧ small_bodies so.2) streams →
  accounted id (opened id streams) (lost (passed_in id) a streams) (lost (passed_out id) a streams) (concat (threads a streams)).
Proof.
  intros Hk Ht. induction 1 as [|so streams [Ho Hsm] _ IH]; [done|].
  assert (Hth : concat (threads a (so :: streams)) = stream_effs a so ++ concat (threads a streams)).
  { unfold threads. simpl. by rewrite concat_app. }
  assert (Hop : opened id (so :: streams) = (if for_tunnel id so.1 then 1 else 0) + opened id streams).
  { unfold opened. rewrite filter_cons. destruct (for_tunnel id so.1); simpl; lia. }
  assert (Hl : ∀ f, lost f a (so :: streams) = (if broken a so then esum f (stream_effs a so) else 0) + lost f a streams).
  { intros f. unfold lost. rewrite filter_cons. destruct (broken a so); simpl; [|lia].
    unfold threads. simpl. by rewrite concat_app, esum_app. }
  rewrite Hth, Hop, !Hl. apply accounted_app; [by apply stream_accounted|done].
Qed.

(** C24: the counters a user sees for a tunnel are what passed through it.
    However the goroutines of its data streams interleave with each other and with
    those of other tunnels, once they have ended the tunnel has one more connection per
    stream opened for it, one more request per exchange the inspector was given, and its
    bytes in and out have grown by exactly the bytes that were copied to the local service
    and to the public side: raw bytes, the bodies of HTTP messages and the contents of
    datagrams, without what the streams copied whose exchange broke off (the local service
    failed, or the response could not be written), and not counting heads of HTTP
    messages, upgrade requests and datagram headers.  Bodies are shorter than 2^63
    bytes; the sums are those of 64-bit counters. *)
Theorem stream_accounting f id t streams es :
  keys_ok (fs_agent f) → ag_tunnels (fs_agent f) !! id = Some t → metrics64 (at_metrics t) →
  Forall (λ so, SideEnds ∈ so_weld so.2 ∧ small_bodies so.2) streams →
  interleave (threads (fs_agent f) streams) es →
  let m := at_metrics t in
  ag_tunnels (fs_agent (apply_effs es f)) !! id =
  Some (with_metrics (counters (add64 (tm_Connections m) (opened id streams))
                               (add64 (tm_Requests m) (esum (exchanged id) es))
                               (add64 (tm_BytesIn m) (esum (passed_in id) es - lost (passed_in id) (fs_agent f) streams))
                               (add64 (tm_BytesOut m) (esum (passed_out id) es - lost (passed_out id) (fs_agent f) streams))) t).
Proof.
  intros Hk Ht Hm Hend Hil m. rewrite (apply_tunnels id es f t Ht Hm). do 2 f_equal.
  unfold add_metrics, totals. simpl. apply interleave_perm in Hil.
  destruct (threads_accounted (fs_agent f) id streams Hk (mk_is_Some _ _ Ht) Hend) as (H1 & H2 & H3 & H4).
  rewrite !(esum_perm _ _ _ Hil), H1, <- H2, <- H3, H4. f_equal; f_equal; lia.
Qed.

(** A stream for a tunnel the agent does not have, or one whose first message
    is not a StreamInit, is closed and leaves no trace. *)
Lemma unknown_stream a s o :
  (∀ si rest, ReadStreamInit Unmarshal s = (Ok si, rest) → ag_tunnels a !! si_client_tunnel_id si = None) →
  handleDataStream Unmarshal a s o = [].
Proof.
  intros H. unfold handleDataStream. destruct (ReadStreamInit Unmarshal s) as [[si|] rest]; [|done].
  by rewrite (H si rest eq_refl).
Qed.

(** * The inspector *)

(** What the agent tells the inspector of an exchange. *)
Definition capture_ok (c : CapturedRequest) (r : InRequest) (resp : LocalResponse) (n : nat) : Prop :=
  let sent := concat (take n (ir_Body r)) in
  let got := concat (lp_Body resp) in
  cr_Method c = ir_Method r ∧ cr_Host c = ir_Host r ∧ cr_Path c = ir_URI r ∧ cr_Status c = lp_Status resp ∧
  cr_ReqBody c = take (Z.to_nat MaxBodyCapture) sent ∧ cr_RespBody c = take (Z.to_nat MaxBodyCapture) got ∧
  cr_BytesIn c = Z.of_nat (length sent) ∧ cr_BytesOut c = Z.of_nat (length got).

Lemma hop_deleted h k : foldl Del h hopHeaders !! k = if bool_decide (k ∈ hopHeaders) then None else h !! k.
Proof.
  assert (G : ∀ l h, foldl Del h l !! k = if bool_decide (k ∈ l) then None else h !! k).
  { induction l as [|x l IH]; intros h'; [done|]. simpl. rewrite IH. unfold Del.
    destruct (decide (k ∈ l)) as [Hin|Hni].
    - rewrite !bool_decide_true; [done|by apply elem_of_cons; right|done].
    - rewrite (bool_decide_false (k ∈ l)) by done. destruct (decide (x = k)) as [->|Hne].
      + by rewrite lookup_delete_eq, bool_decide_true by (apply elem_of_cons; by left).
      + rewrite lookup_delete_ne, bool_decide_false; [done| |done]. intros [?|?]%elem_of_cons; congruence. }
  apply G.
Qed.

(** The local service gets the public request and the inspector a true
    record of the exchange.  A request that is not an upgrade is sent to the
    tunnel's local address once, with the same method, host, path and body, with
    every header but the per-connection ones; an unreachable service is answered
    with 502 and nothing is recorded; a response delivered in full is recorded with
    its status, the full byte counts and the first 64 KiB of each body. *)
Theorem forward_faithful t si o r es :
  so_request o = Some r → isUpgradeReq r = false → forwardHTTP t si o = es →
  (∀ q resp n, so_roundtrip o q = (Ok resp, n) →
     Z.of_nat (length (concat (take n (ir_Body r)))) < 2 ^ 63 ∧ Z.of_nat (length (concat (lp_Body resp))) < 2 ^ 63) →
  ∃ q es', es = FRequest q :: es' ∧
    lr_Addr q = normalizeLocalAddr (sp_Addr (at_spec t)) ∧ lr_Method q = ir_Method r ∧ lr_Host q = ir_Host r ∧
    lr_Path q = ir_URI r ∧ lr_Body q = concat (ir_Body r) ∧
    (∀ k, lr_Header q !! k = if bool_decide (k ∈ hopHeaders) then None else ir_Header r !! k) ∧
    match so_roundtrip o q with
    | (Err _, _) => (∃ text, FWriteText ("HTTP/1.1 502 Bad Gateway" +:+ text) ∈ es') ∧ ∀ c, FCapture c ∉ es'
    | (Ok resp, n) =>
        FRespond resp ∈ es' ∧
        if so_write o then
          ∃ c, FCapture c ∈ es' ∧ capture_ok c r resp n ∧ cr_TunnelID c = at_clientTunnelID t ∧
          ∀ c', FCapture c' ∈ es' → c' = c
        else ∀ c, FCapture c ∉ es'
    end.
Proof.
  intros Hr Hu <- Hsmall. unfold forwardHTTP. rewrite Hr, Hu.
  assert (Hinj : ∀ c c', FCapture c = FCapture c' → c = c') by congruence.
  assert (Hb : ∀ (f : list byte → Eff) (ps : list (list byte)) c, (∀ p, f p ≠ FCapture c) → FCapture c ∉ f <$> ps).
  { intros f ps c Hne (p & E & _)%list_elem_of_fmap. by apply (Hne p). }
  destruct (so_roundtrip o (local_request t r)) as [[resp|e] n] eqn:E; (eexists _, _; split; [reflexivity|]);
    do 5 (split; [done|]); (split; [intros k; apply hop_deleted|]); rewrite E.
  - destruct (Hsmall _ _ _ E) as [S1 S2]. rewrite !cap_new by done. destruct (so_write o); cbn [negb].
    + split; [apply elem_of_app; right; left|]. lazymatch goal with |- context [FCapture ?c :: []] => exists c end.
      split; [apply elem_of_app; right; right; apply elem_of_app; right; do 3 right; left|].
      split; [unfold capture_ok; cbn; by split_and!|]. split; [done|].
      * intros c'. rewrite elem_of_app, elem_of_cons, elem_of_app. intros [Hin|[Hin|[Hin|Hin]]]; [by eapply Hb in Hin|done|by eapply Hb in Hin|].
        rewrite !elem_of_cons, elem_of_nil in Hin. destruct Hin as [Hin|[Hin|[Hin|[Hin|[]]]]]; [discriminate Hin..|].
        exact (Hinj _ _ Hin).
    + split; [apply elem_of_app; right; left|]. intros c. rewrite elem_of_app, elem_of_cons.
      intros [Hin|[Hin|Hin]]; [by eapply Hb in Hin|done|by eapply Hb in Hin].
  - split; [eexists; apply elem_of_app; right; left|]. intros c. rewrite elem_of_app. intros [Hin|Hin]; [by eapply Hb in Hin|set_solver].
Qed.
End streams.

(** Running one goroutine after the other is one interleaving. *)
Lemma interleave_skip ts es : interleave ts es → interleave ([] :: ts) es.
Proof.
  induction 1 as [ts Hts|ts1 e t ts2 es _ IH]; [by constructor; constructor|].
  apply (il_step ([] :: ts1) e t ts2), IH.
Qed.
Lemma interleave_seq ts : interleave ts (concat ts).
Proof.
  induction ts as [|t ts IH]; [by repeat constructor|]. simpl.
  induction t as [|e t IHt]; [by apply interleave_skip|]. simpl. by apply (il_step [] e t ts).
Qed.

(** The edge and the agent agree on which requests are upgrades, so that
    either both weld raw bytes or both exchange a request and a response. *)
Lemma upgrade_agrees r r' : rq_Header r = ir_Header r' → isUpgrade r = isUpgradeReq r'.
Proof.
  intros E. unfold isUpgrade, isUpgradeReq. rewrite E. generalize (Get (ir_Header r') "Connection"). intros c.
  unfold EqualFold. destruct (String.eqb_spec (ToLower c) (ToLower "upgrade")) as [->|]; [by vm_compute|done].
Qed.

(** A local address given as a URL without a port loses its meaning: the
    agent dials a port named like the host. *)
Example normalize_url : normalizeLocalAddr "http://localhost" = "localhost:localhost".
Proof. done. Qed.

(** * An agent with one tunnel *)
Definition ex_tunnel : activeTunnel :=
  {| at_spec := {| sp_Name := "web"; sp_Proto := "http"; sp_Addr := "3000"; sp_Subdomain := ""; sp_CustomDomain := "";
                   sp_BasicAuth := ""; sp_HostHeader := ""; sp_RemotePort := 0 |};
     at_clientTunnelID := "ct_1"; at_publicURL := "https://app.trqsh.uz"; at_assignedHost := "app.trqsh.uz";
     at_assignedPort := 0; at_status := "online"; at_createdAt := 0; at_metrics := counters 0 0 0 0 |}.
Definition ex_fs : FState :=
  {| fs_agent := set_ag_tunnels {["ct_1" := ex_tunnel]} (newAgent DefaultConfig);
     fs_insp := NewRecorder 256 |}.
(** The first byte of an init message tells the protocol. *)
Definition ex_Unmarshal (b : list byte) : option StreamInit :=
  Some {| si_client_tunnel_id := "ct_1"; si_remote_addr := "1.2.3.4:5"; si_meta := ∅;
          si_proto := match b with "u"%byte :: _ => "udp" | "t"%byte :: _ => "tcp" | _ => "http" end |}.
Definition ex_init (b : byte) : list byte := PutUint32 1 ++ [b].
Definition ex_in : InRequest :=
  {| ir_Method := "POST"; ir_Host := "app.trqsh.uz"; ir_URI := "/x"; ir_Body := [["a"%byte]; ["b"%byte; "c"%byte]];
     ir_Header := <["Te" := ["trailers"]]> {["Accept" := ["*/*"]]} |}.
Definition ex_out (up : bool) : StreamOutside :=
  {| so_request := Some ex_in; so_dial := λ _, None;
     so_roundtrip := λ q, if up then (Ok {| lp_Status := 201; lp_Header := ∅; lp_Body := [["o"%byte]; ["k"%byte]] |}, 2%nat)
                          else (Err "refused", 1%nat);
     so_write := true; so_copied := 0; so_weld := [FromEdge ["x"%byte]; FromLocal ["y"%byte; "z"%byte]; SideEnds];
     so_local_writes := [true]; so_datagrams := [["d"%byte]]; so_edge_writes := [true]; so_start := 0; so_end := Second |}.
Definition ex_streams : list (list byte * StreamOutside) :=
  [(ex_init "h", ex_out true); (ex_init "t", ex_out true); (ex_init "u" ++ udp_frame ["q"%byte; "r"%byte], ex_out true);
   (ex_init "h", ex_out false)].

Lemma stream_accounting_witness :
  let es := concat (threads ex_Unmarshal (fs_agent ex_fs) ex_streams) in
  esum (passed_in "ct_1") es = 7 ∧ lost ex_Unmarshal (passed_in "ct_1") (fs_agent ex_fs) ex_streams = 1 ∧
  ag_tunnels (fs_agent (apply_effs es ex_fs)) !! "ct_1" = Some (with_metrics (counters 4 1 6 5) ex_tunnel).
Proof.
  intros es. split; [by vm_compute|]. split; [by vm_compute|].
  refine (eq_trans (stream_accounting ex_Unmarshal ex_fs "ct_1" ex_tunnel ex_streams es _ _ _ _ _) _).
  - intros k t. simpl. intros [<- <-]%lookup_singleton_Some. done.
  - done.
  - by vm_compute.
  - assert (H : ∀ up, SideEnds ∈ so_weld (ex_out up) ∧ small_bodies (ex_out up)).
    { intros up. split; [simpl; set_solver|]. split.
      - intros r n [= <-]. destruct n as [|[|[|n]]]; by vm_compute.
      - simpl. destruct up; [|done]. intros _ resp n [= <- _]. by vm_compute. }
    repeat constructor; apply H.
  - apply interleave_seq.
  - by vm_compute.
Defined.

Lemma forward_faithful_witness :
  ∃ q es', forwardHTTP ex_tunnel {| si_client_tunnel_id := "ct_1"; si_remote_addr := ""; si_proto := "http"; si_meta := ∅ |}
             (ex_out true) = FRequest q :: es' ∧
           lr_Addr q = "localhost:3000" ∧ lr_Header q !! "Te" = None ∧ lr_Header q !! "Accept" = Some ["*/*"].
Proof.
  destruct (forward_faithful ex_tunnel {| si_client_tunnel_id := "ct_1"; si_remote_addr := ""; si_proto := "http"; si_meta := ∅ |}
              (ex_out true) ex_in _ eq_refl eq_refl eq_refl) as (q & es' & E & H1 & _ & _ & _ & _ & H2 & _).
  { simpl. intros _ resp n [= <- <-]. by vm_compute. }
  exists q, es'. split; [exact E|]. split; [exact H1|]. by rewrite !H2.
Defined.
