(* ===== verification/LocalApi.v ===== *)
(** The agent's local control interface (internal/agent: localapi.go,
    cloudapi.go, remoteapi.go, update.go): the guards, the routes, sign-in and sign-out, the
    proxy to the control plane, the event fan-out, the update check and the remote pairing.

    The outside is a state [X] behind [dial] and [ask] (the edge, as in [Agent])
    and [cloud] (one HTTP exchange with the control plane).  [json_str] is the
    JSON decoder on the objects of strings that the package reads: the value of
    a field, empty when there is none; [decode_token], [decode_spec] and
    [decode_rels] decode the bodies of /login, of POST /tunnels and of the
    release list. *)
From S2P Require Import Prelude GoStrings Wire Ingress Inspect AgentConf Agent.
From Stdlib Require Import Ascii.

Open Scope Z_scope.

(** * Requests *)
(** [lq_segs]: the decoded segments of the path; [lq_query_token] is
    r.URL.Query().Get("token"); [lq_body] the body. *)
Record LReq := {
  lq_Method : string; lq_segs : list string; lq_Host : string; lq_Header : Header; lq_query_token : string; lq_body : string;
}.
Definition url_path (q : LReq) : string := "/" +:+ Join "/" (lq_segs q).

Inductive LBody :=
| LNone | LText (s : string) | LError (msg : string) | LStatus (s : Status) | LSession (authed : bool) (s : Status)
| LTunnels (l : list Tunnel) | LTunnel (t : Tunnel) | LCaptures (l : list CapturedRequest) | LCloud (body : string)
| LAuthed | LPending | LPairing (code : string)
| LUpdate (version notes url : string) | LNoRoute.
Abbreviation LResp := (Z * LBody)%type.

Definition tokenMatches (q : LReq) (want : string) : bool :=
  let h := Get (lq_Header q) "Authorization" in
  let got := if HasPrefix h "Bearer " then TrimSpace (TrimPrefix h "Bearer ") else "" in
  let got := if String.eqb got "" then lq_query_token q else got in
  String.eqb got want.

(** [secure]: the answer without the handler, if it has one. *)
Definition secure (token : string) (q : LReq) : option LResp :=
  if String.eqb (lq_Method q) "OPTIONS" then Some (204, LNone)
  else if negb (isLoopbackHost (lq_Host q)) then Some (403, LText "forbidden: non-loopback host")
  else if negb (String.eqb token "") && negb (String.eqb (url_path q) "/healthz") && negb (tokenMatches q token)
  then Some (401, LText "unauthorized")
  else None.

(** ** The token's file: its content if it can be read, and whether it can be
    written *)
Record TokenFile := { tf_content : option string; tf_err : option string }.
Definition LoadControlToken (f : TokenFile) : string :=
  match tf_content f with None => "" | Some data => TrimSpace data end.
(** [rnd]: 32 random bytes, or the error of drawing them. *)
Definition LoadOrCreateControlToken (rnd : result string (list Z)) (f : TokenFile) : result string string * TokenFile :=
  let tok := LoadControlToken f in
  if negb (String.eqb tok "") then (Ok tok, f)
  else match rnd with
       | Err e => (Err e, f)
       | Ok buf =>
           let tok := EncodeToString buf in
           match tf_err f with
           | Some e => (Err e, f)
           | None => (Ok tok, {| tf_content := Some tok; tf_err := None |})
           end
       end.

(** ** Routes of the mux *)
Inductive LRoute :=
| RHealthz | RStatus | RSession | RLogin | RLogout | RTunnels | RStart | RStopTunnel (id : string) | RRequests
| RClearRequests | RShutdown | RUpdate | ROAuthStart | ROAuthPoll | RCloud (method path : string) | REvents
| RRemoteStart | RRemoteStop | RRemotePublish.

(** [url.PathEscape]. *)
Definition path_plain (a : ascii) : bool :=
  let n := N_of_ascii a in
  ((48 <=? n) && (n <=? 57) || (65 <=? n) && (n <=? 90) || (97 <=? n) && (n <=? 122))%N ||
  bool_decide (a ∈ ["-"; "_"; "."; "~"; "$"; "&"; "+"; "="; ":"; "@"]%char).
Definition upper_hex (n : Z) : ascii :=
  match String.get (Z.to_nat (n mod 16)) "0123456789ABCDEF" with Some a => a | None => "0"%char end.
Fixpoint PathEscape (s : string) : string :=
  match s with
  | EmptyString => EmptyString
  | String a r =>
      if path_plain a then String a (PathEscape r)
      else let n := Z.of_N (N_of_ascii a) in
           String "%" (String (upper_hex (n / 16)) (String (upper_hex n) (PathEscape r)))
  end.

(** The method patterns of a path, tried in order; a pattern for GET serves HEAD too. *)
Definition by_method (method : string) (rs : list (string * LRoute)) : option LRoute :=
  snd <$> find_first (λ mr, String.eqb (fst mr) method || String.eqb (fst mr) "GET" && String.eqb method "HEAD") rs.

Definition route (method : string) (segs : list string) : option LRoute :=
  let on := by_method method in
  match segs with
  | [a] =>
      if String.eqb a "healthz" then on [("GET", RHealthz)]
      else if String.eqb a "status" then on [("GET", RStatus)]
      else if String.eqb a "session" then on [("GET", RSession)]
      else if String.eqb a "login" then on [("POST", RLogin)]
      else if String.eqb a "logout" then on [("POST", RLogout)]
      else if String.eqb a "tunnels" then on [("GET", RTunnels); ("POST", RStart)]
      else if String.eqb a "requests" then on [("GET", RRequests); ("DELETE", RClearRequests)]
      else if String.eqb a "shutdown" then on [("POST", RShutdown)]
      else if String.eqb a "update" then on [("GET", RUpdate)]
      else if String.eqb a "events" then on [("GET", REvents)]
      else None
  | [a; b] =>
      if String.eqb a "tunnels" then on [("DELETE", RStopTunnel b)]
      else if String.eqb a "cloud" then
        if String.eqb b "me" then on [("GET", RCloud "GET" "/v1/me")]
        else if String.eqb b "usage" then on [("GET", RCloud "GET" "/v1/usage")]
        else if String.eqb b "plans" then on [("GET", RCloud "GET" "/v1/plans")]
        else if String.eqb b "keys" then on [("GET", RCloud "GET" "/v1/api-keys"); ("POST", RCloud "POST" "/v1/api-keys")]
        else if String.eqb b "subdomains"
        then on [("GET", RCloud "GET" "/v1/subdomains"); ("POST", RCloud "POST" "/v1/subdomains")]
        else if String.eqb b "domains" then on [("GET", RCloud "GET" "/v1/domains"); ("POST", RCloud "POST" "/v1/domains")]
        else None
      else if String.eqb a "remote" then
        if String.eqb b "start" then on [("POST", RRemoteStart)]
        else if String.eqb b "stop" then on [("POST", RRemoteStop)]
        else if String.eqb b "publish" then on [("POST", RRemotePublish)]
        else None
      else None
  | [a; b; c] =>
      if String.eqb a "login" && String.eqb b "oauth" then
        if String.eqb c "start" then on [("POST", ROAuthStart)]
        else if String.eqb c "poll" then on [("POST", ROAuthPoll)]
        else None
      else if String.eqb a "cloud" && String.eqb b "keys"
      then on [("DELETE", RCloud "DELETE" ("/v1/api-keys/" +:+ PathEscape c))]
      else if String.eqb a "cloud" && String.eqb b "subdomains"
      then on [("DELETE", RCloud "DELETE" ("/v1/subdomains/" +:+ PathEscape c))]
      else None
  | [a; b; c; d] =>
      if String.eqb a "cloud" && String.eqb b "domains" && String.eqb d "verify"
      then on [("POST", RCloud "POST" ("/v1/domains/" +:+ PathEscape c +:+ "/verify"))]
      else None
  | _ => None
  end.

(** * State *)
(** A release of the desktop application. *)
Record UpdateInfo := { ui_Version : string; ui_Notes : string; ui_URL : string }.

(** [dm_subs]: the content of each subscriber's channel of 64; [dm_remote]: the
    code of the active pairing; [dm_pumps]: the pumps that run, by code;
    [dm_stopping]: the shutdown hook has been called; [dm_upd]: the release
    found last, and when. *)
Record Daemon (Doc : Type) := mkDaemon {
  dm_core : Agent; dm_insp : Recorder; dm_disk : Disk Doc;
  dm_subs : gmap Z (list AgentEvent); dm_next : Z;
  dm_remote : option string; dm_pumps : gset string; dm_stopping : bool; dm_upd : option (UpdateInfo * Time);
}.
Arguments mkDaemon {Doc}.
Arguments dm_core {Doc}.
Arguments dm_insp {Doc}.
Arguments dm_disk {Doc}.
Arguments dm_subs {Doc}.
Arguments dm_next {Doc}.
Arguments dm_remote {Doc}.
Arguments dm_pumps {Doc}.
Arguments dm_stopping {Doc}.
Arguments dm_upd {Doc}.

(** One exchange with the control plane: the bearer is the API key, if one is sent. *)
Record CloudReq := { cq_Method : string; cq_URL : string; cq_Bearer : option string; cq_Body : string }.

Definition limit (n : Z) (s : string) : string :=
  if Z.of_nat (String.length s) <=? n then s else take_string (Z.to_nat n) s.

Section daemon.
  Context {Doc X : Type} `{Yaml Doc} `{RangeOrder}.
  Context (dial : Hello → X → DialOutcome * X) (ask : BindTunnel → X → BindOutcome * X).
  Context (cloud : CloudReq → X → result string (Z * string) * X) (json_str : string → string → string).
  Context (decode_token : string → option string) (decode_spec : string → option TunnelSpec)
          (decode_rels : string → option (list (string * string * bool))).
  Context (env : Environ) (token : string) (hook : bool).
  Abbreviation D := (Daemon Doc).
  Abbreviation St := (Daemon Doc * X)%type.

Definition set_core (a : Agent) (d : D) : D :=
  mkDaemon a (dm_insp d) (dm_disk d) (dm_subs d) (dm_next d) (dm_remote d) (dm_pumps d) (dm_stopping d) (dm_upd d).
Definition set_disk (k : Disk Doc) (d : D) : D :=
  mkDaemon (dm_core d) (dm_insp d) k (dm_subs d) (dm_next d) (dm_remote d) (dm_pumps d) (dm_stopping d) (dm_upd d).
Definition set_remote (r : option string) (ps : gset string) (d : D) : D :=
  mkDaemon (dm_core d) (dm_insp d) (dm_disk d) (dm_subs d) (dm_next d) r ps (dm_stopping d) (dm_upd d).

(** ** Events *)
Definition offer (e : AgentEvent) (q : list AgentEvent) : list AgentEvent :=
  if (length q <? 64)%nat then q ++ [e] else q.
Definition broadcast (e : AgentEvent) (d : D) : D :=
  mkDaemon (dm_core d) (dm_insp d) (dm_disk d) (offer e <$> dm_subs d) (dm_next d) (dm_remote d) (dm_pumps d) (dm_stopping d) (dm_upd d).
Definition drop_event (a : Agent) : Agent :=
  mkAgent (ag_cfg a) (ag_control a) (ag_connected a) (ag_accountID a) (ag_plan a) (ag_kind a) (ag_tunnels a)
    (ag_pendingBinds a) (tail (ag_events a)) (ag_closed a) (ag_sessGen a).
(** One turn of [pump]. *)
Definition pump (d : D) : D :=
  match ag_events (dm_core d) with [] => d | e :: _ => broadcast e (set_core (drop_event (dm_core d)) d) end.
Definition subscribe (d : D) : Z * D :=
  (dm_next d, mkDaemon (dm_core d) (dm_insp d) (dm_disk d) (<[dm_next d := []]> (dm_subs d)) (dm_next d + 1)
                (dm_remote d) (dm_pumps d) (dm_stopping d) (dm_upd d)).
Definition unsubscribe (id : Z) (d : D) : D :=
  mkDaemon (dm_core d) (dm_insp d) (dm_disk d) (delete id (dm_subs d)) (dm_next d) (dm_remote d) (dm_pumps d) (dm_stopping d) (dm_upd d).

(** ** Sign-in *)
Definition set_ag_cfg (c : Config) (a : Agent) : Agent :=
  mkAgent c (ag_control a) (ag_connected a) (ag_accountID a) (ag_plan a) (ag_kind a) (ag_tunnels a)
    (ag_pendingBinds a) (ag_events a) (ag_closed a) (ag_sessGen a).
Definition Login (key : string) (d : D) : result string unit * D :=
  let cfg := with_key key (ag_cfg (dm_core d)) in
  let d := set_core (set_ag_cfg cfg (dm_core d)) d in
  let '(r, k) := Save cfg (dm_disk d) in (r, set_disk k d).

Definition session_info (d : D) : LBody :=
  LSession (negb (String.eqb (storedAPIKey env (dm_disk d)) "")) (agent_Status (dm_core d)).

(** [tok]: the token field of the body, [None] when it does not decode (the
    decoder's error text is left out). *)
Definition login (tok : option string) (d : D) : LResp * D :=
  match tok with
  | None => ((400, LText "invalid body"), d)
  | Some tok =>
      let tok := TrimSpace tok in
      if String.eqb tok "" then ((400, LText "missing token"), d)
      else match Login tok d with
           | (Err e, d) => ((502, LError e), d)
           | (Ok _, d) => ((200, LSession true (agent_Status (dm_core d))), d)
           end
  end.

Definition stop_all (ids : list string) (a : Agent) : Agent :=
  foldl (λ a id, snd (StopTunnel id a)) a ids.
Definition logout (d : D) : LResp * D :=
  let a := stop_all (tn_ID <$> agent_List (dm_core d)) (dm_core d) in
  let '(_, k) := clearStoredAPIKey env (dm_disk d) in
  ((204, LNone), set_disk k (set_core a d)).

(** ** The control plane *)
Definition cloudProxy (method upstreamPath body : string) (s : St) : LResp * St :=
  let '(d, x) := s in
  let key := storedAPIKey env (dm_disk d) in
  if String.eqb key "" then ((401, LError "not signed in"), s)
  else
    let '(r, x) := cloud {| cq_Method := method; cq_URL := cloudBase env (dm_disk d) +:+ upstreamPath;
                            cq_Bearer := Some key; cq_Body := limit (2 ^ 20) body |} x in
    match r with
    | Err e => ((502, LError ("cloud unreachable: " +:+ e)), (d, x))
    | Ok (status, out) => ((status, LCloud (limit (2 ^ 22) out)), (d, x))
    end.

Definition oauthStart (s : St) : LResp * St :=
  let '(d, x) := s in
  let '(r, x) := cloud {| cq_Method := "POST"; cq_URL := cloudBase env (dm_disk d) +:+ "/v1/auth/device/code";
                          cq_Bearer := None; cq_Body := "" |} x in
  match r with
  | Err e => ((502, LError ("cloud unreachable: " +:+ e)), (d, x))
  | Ok (status, out) => ((status, LCloud (limit (2 ^ 16) out)), (d, x))
  end.

(** The payload sent is the JSON object with the code as its only field. *)
Definition oauthPoll (body : string) (s : St) : LResp * St :=
  let '(d, x) := s in
  let code := json_str (limit (2 ^ 16) body) "device_code" in
  if String.eqb (TrimSpace code) "" then ((400, LText "missing device_code"), s)
  else
    let '(r, x) := cloud {| cq_Method := "POST"; cq_URL := cloudBase env (dm_disk d) +:+ "/v1/auth/device/token";
                            cq_Bearer := None; cq_Body := code |} x in
    match r with
    | Err e => ((502, LError ("cloud unreachable: " +:+ e)), (d, x))
    | Ok (_, out) =>
        let raw := limit (2 ^ 16) out in
        let key := json_str raw "api_key" in
        let err := json_str raw "error" in
        if negb (String.eqb key "") then
          match Login key d with
          | (Err e, d) => ((502, LError e), (d, x))
          | (Ok _, d) => ((200, LAuthed), (d, x))
          end
        else if String.eqb err "authorization_pending" || String.eqb err "slow_down" then ((200, LPending), (d, x))
        else ((200, LError (if String.eqb err "" then "authorization failed" else err)), (d, x))
    end.

(** ** Updates *)
Definition releasesAPIURL : string := "https://api.github.com/repos/uzcreator/trqsh/releases?per_page=30".
Definition downloadBaseURL : string := "https://github.com/uzcreator/trqsh/releases/download".
Definition assetName (version goos : string) : string :=
  if String.eqb goos "windows" then "trqsh_" +:+ version +:+ "_x64-setup.exe"
  else if String.eqb goos "darwin" then "trqsh_" +:+ version +:+ "_aarch64.dmg"
  else if String.eqb goos "linux" then "trqsh_" +:+ version +:+ "_amd64.AppImage"
  else "".
(** A release is its tag, its notes and whether it is a draft. *)
Definition pick_release (rels : list (string * string * bool)) : string * string :=
  match find_first (λ '(tag, _, draft), negb draft && HasPrefix tag "desktop-v") rels with
  | Some (tag, notes, _) => (tag, notes)
  | None => ("", "")
  end.
Definition release_info (goos tag notes : string) : UpdateInfo :=
  let version := TrimPrefix tag "desktop-v" in
  let asset := assetName version goos in
  {| ui_Version := version; ui_Notes := notes;
     ui_URL := if negb (String.eqb asset "") then downloadBaseURL +:+ "/" +:+ tag +:+ "/" +:+ asset
               else "https://github.com/uzcreator/trqsh/releases/tag/" +:+ tag |}.
Definition set_upd (u : UpdateInfo) (now : Time) (d : D) : D :=
  mkDaemon (dm_core d) (dm_insp d) (dm_disk d) (dm_subs d) (dm_next d) (dm_remote d) (dm_pumps d) (dm_stopping d)
    (Some (u, now)).
Definition latestRelease (now : Time) (goos : string) (s : St) : result string UpdateInfo * St :=
  let '(d, x) := s in
  let fetch :=
    let '(r, x) := cloud {| cq_Method := "GET"; cq_URL := releasesAPIURL; cq_Bearer := None; cq_Body := "" |} x in
    match r with
    | Err e => (Err e, (d, x))
    | Ok (status, body) =>
        if negb (status =? 200) then (Err ("releases: status " +:+ Itoa status), (d, x))
        else match decode_rels body with
             | None => (Err "releases: decode", (d, x))
             | Some rels =>
                 let '(tag, notes) := pick_release rels in
                 if String.eqb tag "" then (Err "no desktop release found", (d, x))
                 else let info := release_info goos tag notes in (Ok info, (set_upd info now d, x))
             end
    end in
  match dm_upd d with
  | Some (u, at_) => if now - at_ <? Hour then (Ok u, s) else fetch
  | None => fetch
  end.

(** ** Remote pairing *)
Definition endRemoteSession (key code : string) (s : St) : St :=
  let '(d, x) := s in
  if String.eqb key "" || String.eqb code "" then s
  else (d, snd (cloud {| cq_Method := "POST"; cq_URL := cloudBase env (dm_disk d) +:+ "/v1/remote/sessions/" +:+ code +:+ "/end";
                         cq_Bearer := Some key; cq_Body := "" |} x)).
Definition swapRemote (p : option string) (d : D) : option string * D := (dm_remote d, set_remote p (dm_pumps d) d).
Definition cancel_pump (code : string) (d : D) : D := set_remote (dm_remote d) (dm_pumps d ∖ {[code]}) d.

Definition remoteErrorFrom (status : Z) (body : string) : string :=
  let e := json_str (limit (2 ^ 16) body) "error" in
  if negb (String.eqb e "") then e else "status " +:+ Itoa status.

(** The goroutine that ends the previous session runs to its end here. *)
Definition remoteStart (s : St) : LResp * St :=
  let '(d, x) := s in
  let key := storedAPIKey env (dm_disk d) in
  if String.eqb key "" then ((401, LError "not signed in"), s)
  else
    let '(r, x) := cloud {| cq_Method := "POST"; cq_URL := cloudBase env (dm_disk d) +:+ "/v1/remote/sessions";
                            cq_Bearer := Some key; cq_Body := "" |} x in
    match r with
    | Err e => ((502, LError ("cloud unreachable: " +:+ e)), (d, x))
    | Ok (status, body) =>
        if negb (status =? 201) then ((502, LError (remoteErrorFrom status body)), (d, x))
        else
          let code := json_str (limit (2 ^ 16) body) "code" in
          if String.eqb code "" then ((502, LError "bad response from cloud"), (d, x))
          else
            let '(old, d) := swapRemote (Some code) d in
            let '(d, x) :=
              match old with
              | None => (d, x)
              | Some c => let '(d, x) := endRemoteSession key c (d, x) in (cancel_pump c d, x)
              end in
            ((200, LPairing code), (set_remote (dm_remote d) (dm_pumps d ∪ {[code]}) d, x))
    end.

Definition remoteStop (s : St) : LResp * St :=
  let '(d, x) := s in
  let '(old, d) := swapRemote None d in
  match old with
  | None => ((204, LNone), (d, x))
  | Some c => let '(d, x) := endRemoteSession (storedAPIKey env (dm_disk d)) c (d, x) in ((204, LNone), (cancel_pump c d, x))
  end.

Definition remotePublish (body : string) (s : St) : LResp * St :=
  let '(d, x) := s in
  let key := storedAPIKey env (dm_disk d) in
  match dm_remote d with
  | None => ((204, LNone), s)
  | Some code =>
      if String.eqb key "" then ((204, LNone), s)
      else
        ((204, LNone),
         (d, snd (cloud {| cq_Method := "POST";
                           cq_URL := cloudBase env (dm_disk d) +:+ "/v1/remote/sessions/" +:+ code +:+ "/publish";
                           cq_Bearer := Some key; cq_Body := limit (2 ^ 20) body |} x)))
  end.

(** What the agent stream of a pairing brings: the lines that decode. *)
Inductive WireEv := WCommand (c : string) | WPresence (connected : bool) | WEnded | WOther.
(** [pumpRemoteOnce]: the status of the stream and its events; [true] for
    errRemoteEnded. *)
Fixpoint pump_events (evs : list WireEv) (d : D) : bool * D :=
  match evs with
  | [] => (false, d)
  | WCommand c :: evs => pump_events evs (broadcast (EvRemote "command" c false) d)
  | WPresence b :: evs => pump_events evs (broadcast (EvRemote "presence" "" b) d)
  | WEnded :: _ => (true, d)
  | WOther :: evs => pump_events evs d
  end.
Definition pumpRemoteOnce (status : result string Z) (evs : list WireEv) (d : D) : bool * D :=
  match status with
  | Err _ => (false, d)
  | Ok st => if st =? 404 then (true, d) else if negb (st =? 200) then (false, d) else pump_events evs d
  end.

(** What [pumpRemote] does when the session of [code] has ended, in its two
    critical sections: it takes the active pairing out, and, when that is
    another one, puts it back. *)
Definition ended_first (code : string) (d : D) : option string * D :=
  let '(old, d) := swapRemote None d in
  let d := cancel_pump code d in
  match old with
  | Some c => if negb (String.eqb c code) then (Some c, d) else (None, broadcast (EvRemote "ended" "" false) d)
  | None => (None, broadcast (EvRemote "ended" "" false) d)
  end.
Definition ended_second (old : string) (d : D) : D := snd (swapRemote (Some old) d).

(** One turn of [pumpRemote]'s loop without interference; a pump that has been
    cancelled does nothing. *)
Definition pumpRemote (code : string) (status : result string Z) (evs : list WireEv) (d : D) : D :=
  if negb (bool_decide (code ∈ dm_pumps d)) then d
  else
    let '(ended, d) := pumpRemoteOnce status evs d in
    if ended then
      match ended_first code d with (Some c, d) => ended_second c d | (None, d) => d end
    else d.

(** * Serving *)
(** What a request brings besides itself: the clock, the random bytes of a new
    tunnel, the build. *)
Record Local := { lc_now : Time; lc_rnd : list Z; lc_version : string; lc_os : string; lc_arch : string }.

Definition start_tunnel (l : Local) (body : string) (s : St) : LResp * St :=
  let '(d, x) := s in
  match decode_spec body with
  | None => ((400, LText "invalid body"), s)
  | Some spec =>
      match StartTunnel dial ask (lc_version l) (lc_os l) (lc_arch l) (lc_now l) (lc_rnd l) spec (dm_core d, x) with
      | (Err e, (a, x)) => ((502, LError (err_text e)), (set_core a d, x))
      | (Ok t, (a, x)) => ((200, LTunnel t), (set_core a d, x))
      end
  end.

Definition set_insp (r : Recorder) (d : D) : D :=
  mkDaemon (dm_core d) r (dm_disk d) (dm_subs d) (dm_next d) (dm_remote d) (dm_pumps d) (dm_stopping d) (dm_upd d).
Definition set_stopping (b : bool) (d : D) : D :=
  mkDaemon (dm_core d) (dm_insp d) (dm_disk d) (dm_subs d) (dm_next d) (dm_remote d) (dm_pumps d) b (dm_upd d).

Definition handle (l : Local) (r : LRoute) (q : LReq) (s : St) : LResp * St :=
  let '(d, x) := s in
  match r with
  | RHealthz => ((200, LText "ok"), s)
  | RStatus => ((200, LStatus (agent_Status (dm_core d))), s)
  | RSession => ((200, session_info d), s)
  | RLogin => let '(resp, d) := login (decode_token (lq_body q)) d in (resp, (d, x))
  | RLogout => let '(resp, d) := logout d in (resp, (d, x))
  | RTunnels => ((200, LTunnels (agent_List (dm_core d))), s)
  | RStart => start_tunnel l (lq_body q) s
  | RStopTunnel id =>
      match StopTunnel id (dm_core d) with
      | (Err e, _) => ((404, LText (err_text e)), s)
      | (Ok _, a) => ((204, LNone), (set_core a d, x))
      end
  | RRequests => ((200, LCaptures (rec_List (dm_insp d))), s)
  | RClearRequests => ((204, LNone), (set_insp (rec_Clear (dm_insp d)) d, x))
  | RShutdown => ((204, LNone), (set_stopping (dm_stopping d || hook) d, x))
  | RUpdate =>
      match latestRelease (lc_now l) (lc_os l) s with
      | (Err e, s) => ((502, LError e), s)
      | (Ok u, s) => ((200, LUpdate (ui_Version u) (ui_Notes u) (ui_URL u)), s)
      end
  | ROAuthStart => oauthStart s
  | ROAuthPoll => oauthPoll (lq_body q) s
  | RCloud method path => cloudProxy method path (lq_body q) s
  | REvents => ((200, LText ": connected"), (snd (subscribe d), x))
  | RRemoteStart => remoteStart s
  | RRemoteStop => remoteStop s
  | RRemotePublish => remotePublish (lq_body q) s
  end.

(** A request that no route takes is answered by the mux. *)
Definition serve (l : Local) (q : LReq) (s : St) : LResp * St :=
  match secure token q with
  | Some resp => (resp, s)
  | None =>
      match route (lq_Method q) (lq_segs q) with
      | None => ((404, LNoRoute), s)
      | Some r => handle l r q s
      end
  end.
End daemon.
