(* ===== verification/LocalApiSafety.v ===== *)
(** What the local control interface guarantees: nobody without its token gets
    anything from it, signing out forgets the key, the proxied paths stay where
    they belong; and two places where it does less than it says. *)
From S2P Require Import Prelude GoStrings Wire Ingress Inspect InspectSafety AgentConf Agent AgentSafety AgentStreams AgentStreamsSafety LocalApi.
From Stdlib Require Import Ascii.

Open Scope Z_scope.

(** * Paths *)
Lemma Join_slash x y l : has_byte (Join "/" (x :: y :: l)) "/" = true.
Proof. simpl. rewrite has_byte_app. simpl. by rewrite orb_true_r. Qed.

Lemma url_path_single q s : has_byte s "/" = false → url_path q = "/" +:+ s → lq_segs q = [s] ∨ s = "" ∧ lq_segs q = [].
Proof.
  intros Hs. unfold url_path. intros E. apply (inj _) in E.
  destruct (lq_segs q) as [|x [|y l]]; [by right; rewrite <-E|left; by rewrite <-E|].
  rewrite <-E, Join_slash in Hs. done.
Qed.

Lemma PathEscape_plain s c : bool_decide (c ∈ ["/"; "?"; "#"]%char) = true → has_byte (PathEscape s) c = false.
Proof.
  intros Hc. bool_simpl. induction s as [|a s IH]; [done|]. simpl. destruct (path_plain a) eqn:Hp.
  - simpl. rewrite IH. apply orb_false_iff. split; [|done]. apply Ascii.eqb_neq. intros ->.
    repeat (apply elem_of_cons in Hc as [->|Hc]; [by vm_compute in Hp|]). by apply not_elem_of_nil in Hc.
  - assert (Hx : ∀ n, Ascii.eqb (upper_hex n) c = false).
    { intros n. apply Ascii.eqb_neq. unfold upper_hex.
      pose proof (Z.mod_pos_bound n 16 ltac:(lia)) as Hb. intros E.
      assert (Ht : forallb (λ k, negb (bool_decide
        (match String.get k "0123456789ABCDEF" with Some a => a | None => "0"%char end ∈ ["/"; "?"; "#"]%char))) (seq 0 16) = true)
        by (vm_compute; reflexivity).
      rewrite forallb_forall in Ht. specialize (Ht (Z.to_nat (n mod 16)) ltac:(apply in_seq; lia)).
      rewrite E in Ht. rewrite bool_decide_true in Ht by done. done. }
    simpl. rewrite !Hx, IH. rewrite !orb_false_r.
    repeat (apply elem_of_cons in Hc as [->|Hc]; [done|]). by apply not_elem_of_nil in Hc.
Qed.

(** The identifiers a caller chooses stay one segment of the control plane's
    path: no request proxied with the API key reaches another endpoint than the one
    of its route. *)
Definition cloud_paths : list (list string) :=
  [[""; "v1"; "me"]; [""; "v1"; "usage"]; [""; "v1"; "plans"]; [""; "v1"; "api-keys"]; [""; "v1"; "subdomains"];
   [""; "v1"; "domains"]].
Definition confined (p : string) : Prop :=
  has_byte p "?" = false ∧ has_byte p "#" = false ∧
  (Split p "/" ∈ cloud_paths ∨
   ∃ id, Split p "/" ∈ [[""; "v1"; "api-keys"; PathEscape id]; [""; "v1"; "subdomains"; PathEscape id];
                        [""; "v1"; "domains"; PathEscape id; "verify"]]).

Lemma confined_fixed p :
  bool_decide (has_byte p "?" = false ∧ has_byte p "#" = false ∧ Split p "/" ∈ cloud_paths) = true → confined p.
Proof. intros (H1 & H2 & H3)%bool_decide_eq_true. split_and!; [done|done|by left]. Qed.

Lemma by_method_elem m rs r : by_method m rs = Some r → r ∈ snd <$> rs.
Proof.
  unfold by_method. destruct (find_first _ rs) as [mr|] eqn:E; [|done]. intros [= <-].
  apply find_first_Some in E as [E _]. by apply list_elem_of_fmap_2.
Qed.

Lemma cloud_path_confined m segs method p : route m segs = Some (RCloud method p) → confined p.
Proof.
  assert (Hs : ∀ id, has_byte (PathEscape id) "/" = false) by (intros id; by apply PathEscape_plain).
  unfold route. intros Hr. repeat case_match; try done; apply by_method_elem in Hr; simpl in Hr;
    repeat (apply elem_of_cons in Hr as [[= -> ->]|Hr]); try (by apply not_elem_of_nil in Hr); try (by apply confined_fixed);
    unfold confined; rewrite !has_byte_app, ?PathEscape_plain by done; split_and!; try done; right; eexists.
  - change (Split (_ +:+ ?s) "/") with (""  :: "v1" :: "api-keys" :: Split s "/"). rewrite Split_whole by done.
    apply elem_of_cons. by left.
  - change (Split (_ +:+ ?s) "/") with (""  :: "v1" :: "subdomains" :: Split s "/"). rewrite Split_whole by done.
    apply elem_of_cons. right. apply elem_of_cons. by left.
  - change (Split (_ +:+ ?s) "/") with (""  :: "v1" :: "domains" :: Split s "/"). rewrite Split_app by done.
    do 2 (apply elem_of_cons; right). apply elem_of_cons. by left.
Qed.

Section local_api.
  Context {Doc X : Type} `{Yaml Doc} `{RangeOrder}.
  Context (dial : Hello → X → DialOutcome * X) (ask : BindTunnel → X → BindOutcome * X).
  Context (json_str : string → string → string).
  Context (decode_token : string → option string) (decode_spec : string → option TunnelSpec)
          (decode_rels : string → option (list (string * string * bool))).
  Context (env : Environ) (token : string) (hook : bool).
  Implicit Types (s : Daemon Doc * X) (q : LReq).

  Abbreviation srv cloud :=
    (serve (Doc := Doc) dial ask cloud json_str decode_token decode_spec decode_rels env token hook).

(** The answers of the guards, of the health check and of the mux. *)
Definition says_nothing (r : LResp) : Prop :=
  r = (204, LNone) ∨ r = (403, LText "forbidden: non-loopback host") ∨ r = (401, LText "unauthorized") ∨
  r = (200, LText "ok") ∨ r = (404, LNoRoute).

(** A Host header that names this machine: localhost in any case, 127.b.c.d, or an IPv6
    address that is ::1 or a mapped 127.b.c.d; alone, with a port, or in brackets with
    a port. *)
Definition own_name (name : string) : Prop :=
  loopback_name name ∨
  has_byte name ":" = true ∧ ∃ ip, ParseIP name = Some ip ∧ ((∃ b c d, ip = [127; b; c; d]) ∨ ip = replicate 15 0 ++ [1]).
Definition own_host (host : string) : Prop :=
  ∃ name, own_name name ∧
    (host = name ∨ ∃ port, host = name +:+ String ":" port ∨ host = "[" +:+ name +:+ "]:" +:+ port).
(** The request shows the secret itself: as bearer token, or as the query's token. *)
Definition shows (secret : string) (q : LReq) : Prop :=
  (∃ v, Get (lq_Header q) "Authorization" = "Bearer " +:+ v ∧ TrimSpace v = secret) ∨ lq_query_token q = secret.

Lemma loopback_own host : isLoopbackHost host = true → own_host host.
Proof.
  unfold isLoopbackHost. destruct (String.eqb host ""); [done|].
  set (name := match SplitHostPort host with Some (hh, _) => hh | None => host end). intros Hn. exists name. split.
  - destruct (has_byte name ":") eqn:Hc; [|left; by apply loopback_name_spec]. apply orb_true_iff in Hn as [Hn|Hn]; [left; by left|].
    right. split; [done|]. destruct (ParseIP name) as [ip|]; [|done]. exists ip. split; [done|]. unfold IsLoopback in Hn.
    destruct (Nat.eqb_spec (length ip) 4) as [Hl|]; apply bool_decide_eq_true in Hn; [left|by right].
    destruct ip as [|x [|b [|c [|d [|]]]]]; try done. injection Hn as ->. by exists b, c, d.
  - subst name. destruct (SplitHostPort host) as [[h p]|] eqn:E; [|by left]. right. exists p. by apply SplitHostPort_inv.
Qed.
Lemma matches_shows q : token ≠ "" → tokenMatches q token = true → shows token q.
Proof.
  intros Ht. unfold tokenMatches, shows. destruct (HasPrefix _ "Bearer ") eqn:Hp; cbn.
  - apply HasPrefix_spec in Hp as [v Hv]. rewrite Hv. unfold TrimPrefix. rewrite HasPrefix_app, drop_string_app.
    destruct (String.eqb (TrimSpace v) "") eqn:Hv0; intros E%String.eqb_eq; [by right|]. left. by exists v.
  - intros E%String.eqb_eq. by right.
Qed.

(** C32: the control interface obeys only who knows its token.  With a token set,
    a request whose Host does not name this machine, or which does not show the very
    token as bearer or in the query, changes nothing, contacts nobody and learns
    nothing but that the daemon is alive: whatever its method, path, headers and
    body. *)
Theorem local_api_guarded cloud l q s resp s' :
  token ≠ "" → srv cloud l q s = (resp, s') →
  own_host (lq_Host q) ∧ shows token q ∨ s' = s ∧ says_nothing resp.
Proof.
  intros Ht. unfold serve, secure, says_nothing.
  destruct (String.eqb (lq_Method q) "OPTIONS"); [intros [= <- <-]; by auto|].
  destruct (isLoopbackHost (lq_Host q)) eqn:Hh; [|intros [= <- <-]; right; by auto]. cbn [negb].
  destruct (tokenMatches q token) eqn:Hm0; [intros _; left; auto using loopback_own, matches_shows|].
  rewrite (proj2 (String.eqb_neq token "") Ht). cbn [negb andb].
  destruct (String.eqb_spec (url_path q) "/healthz") as [E|]; cbn [negb andb]; [|intros [= <- <-]; right; by auto 10].
  intros Hs. right. apply (url_path_single q "healthz") in E as [E|[? _]]; [|done|done].
  rewrite E in Hs. unfold route in Hs. rewrite String.eqb_refl in Hs.
  destruct (by_method (lq_Method q) [("GET", RHealthz)]) as [r|] eqn:Hm; [|injection Hs as <- <-; by auto 10].
  apply by_method_elem in Hm. simpl in Hm. apply elem_of_cons in Hm as [->|Hm]; [|by apply not_elem_of_nil in Hm].
  destruct s. injection Hs as <- <-. by auto 10.
Qed.

(** * Signing out *)
Definition signed_out (d : Daemon Doc) : Prop := storedAPIKey env (dm_disk d) = "".

(** Requests that sign in. *)
Definition signs_in q : Prop :=
  route (lq_Method q) (lq_segs q) = Some RLogin ∨ route (lq_Method q) (lq_segs q) = Some ROAuthPoll.

Lemma over_env_none k v : over_env env k v = "" → v = "" ∧ over_env env k "" = "".
Proof.
  unfold over_env. destruct (env !! k) as [x|]; [|by intros ->].
  destruct (String.eqb_spec (TrimSpace x) "") as [->|Hne]; simpl; [by intros ->|done].
Qed.

Lemma cleared_key c (d d' : Disk Doc) :
  over_env env "TRQSH_API_KEY" "" = "" → Save (with_key "" c) d = (Ok tt, d') → storedAPIKey env d' = "".
Proof.
  intros He. unfold Save. destruct (dk_write d); [done|]. intros [= <-]. unfold storedAPIKey, Load. simpl.
  destruct (dk_read d); [done|]. rewrite yaml_reread. simpl. done.
Qed.

Lemma logout_signed_out (d : Daemon Doc) : signed_out d → signed_out (snd (logout env d)).
Proof.
  unfold signed_out, logout. intros Hs. destruct (clearStoredAPIKey env (dm_disk d)) as [r k] eqn:E. simpl.
  unfold clearStoredAPIKey in E. destruct (Load env (dm_disk d)) as [c|e] eqn:Hl; [|by injection E as <- <-].
  destruct r as [[]|e]; [|unfold Save in E; destruct (dk_write (dm_disk d)); by simplify_eq].
  eapply cleared_key; [|exact E]. unfold storedAPIKey in Hs. rewrite Hl in Hs.
  unfold Load in Hl. destruct (dk_read _); [done|]. destruct (dk_file _) as [doc|].
  - destruct (yaml_Unmarshal doc DefaultConfig) as [c'|]; [|done]. injection Hl as <-. exact (proj2 (over_env_none _ _ Hs)).
  - injection Hl as <-. exact (proj2 (over_env_none _ _ Hs)).
Qed.

(** Two control planes that differ only in what they do with a key. *)
Definition agree (c1 c2 : CloudReq → X → result string (Z * string) * X) : Prop :=
  ∀ (r : CloudReq) x, cq_Bearer r = None → c1 r x = c2 r x.

Lemma signed_out_step c1 c2 l q s :
  agree c1 c2 → signed_out (fst s) → ¬ signs_in q →
  srv c1 l q s = srv c2 l q s ∧ signed_out (fst (snd (srv c1 l q s))).
Proof.
  intros Hc Hs Hq. unfold serve. destruct (secure token q); [done|].
  destruct (route (lq_Method q) (lq_segs q)) as [r|] eqn:Hr; [|done]. destruct s as [d x]. simpl in Hs.
  unfold signed_out in Hs.
  assert (Hup : ∀ now os, latestRelease c1 decode_rels now os (d, x) = latestRelease c2 decode_rels now os (d, x) ∧
    dm_disk (fst (snd (latestRelease c1 decode_rels now os (d, x)))) = dm_disk d).
  { intros now os. unfold latestRelease. rewrite (Hc _ x) by done. split; [done|].
    destruct (dm_upd d) as [[u at_]|]; [destruct (now - at_ <? Hour); [done|]|];
      destruct (c2 _ x) as [[[st b]|] x']; try done; destruct (negb (st =? 200)); try done;
      destruct (decode_rels b) as [rels|]; try done; destruct (pick_release rels) as [tag notes]; by destruct (String.eqb tag ""). }
  destruct r; cbn [handle]; try done.
  - exfalso. apply Hq. by left.
  - split; [done|]. pose proof (logout_signed_out d Hs) as Hl. by destruct (logout env d).
  - split; [done|]. unfold start_tunnel. destruct (decode_spec (lq_body q)); [|done].
    by destruct (StartTunnel _ _ _ _ _ _ _ _ _) as [[|] [? ?]].
  - split; [done|]. by destruct (StopTunnel id (dm_core d)) as [[|] ?].
  - destruct (Hup (lc_now l) (lc_os l)) as [E1 E2]. rewrite <-E1. split; [done|].
    destruct (latestRelease c1 decode_rels (lc_now l) (lc_os l) (d, x)) as [[u|e] [d' x']]; simpl in *; unfold signed_out; by rewrite E2.
  - unfold oauthStart. rewrite (Hc _ x) by done. split; [done|]. by destruct (c2 _ x) as [[[? ?]|] ?].
  - exfalso. apply Hq. by right.
  - unfold cloudProxy. by rewrite Hs.
  - unfold remoteStart. by rewrite Hs.
  - unfold remoteStop. simpl. destruct (dm_remote d); simpl; [|done]. unfold endRemoteSession. simpl. by rewrite Hs.
  - unfold remotePublish. rewrite Hs. simpl. by destruct (dm_remote d).
Qed.

Lemma stop_all_lookup ids a k :
  ag_tunnels (stop_all ids a) !! k = if bool_decide (k ∈ ids) then None else ag_tunnels a !! k.
Proof.
  unfold stop_all. revert a. induction ids as [|id ids IH]; intros a; [done|]. simpl. rewrite IH.
  assert (E : ag_tunnels (snd (StopTunnel id a)) = delete id (ag_tunnels a)).
  { unfold StopTunnel. destruct (ag_tunnels a !! id) eqn:Hid; simpl; [by rewrite emit_tunnels|]. by rewrite delete_id. }
  rewrite E. destruct (decide (k ∈ ids)) as [Hin|Hni].
  - rewrite !bool_decide_true; [done|by apply elem_of_cons; right|done].
  - rewrite (bool_decide_false (k ∈ ids)) by done. destruct (decide (k = id)) as [->|Hne].
    + by rewrite lookup_delete_eq, bool_decide_true by (apply elem_of_cons; by left).
    + rewrite lookup_delete_ne, bool_decide_false; [done| |done]. intros [?|?]%elem_of_cons; congruence.
Qed.

Lemma stop_all_empty a : keys_ok a → ag_tunnels (stop_all (tn_ID <$> agent_List a) a) = ∅.
Proof.
  intros Hk. apply map_eq. intros k. rewrite stop_all_lookup, lookup_empty.
  destruct (ag_tunnels a !! k) as [t|] eqn:Ht; [|by case_bool_decide]. rewrite bool_decide_true; [done|].
  apply list_elem_of_fmap. exists (view t). split; [simpl; symmetry; by apply Hk|].
  unfold agent_List. apply list_elem_of_fmap_2. apply list_elem_of_fmap. exists (k, t). split; [done|]. by apply elem_of_range.
Qed.

Fixpoint serve_all cloud (qs : list (Local * LReq)) s : list LResp * (Daemon Doc * X) :=
  match qs with
  | [] => ([], s)
  | (l, q) :: qs =>
      let '(r, s) := srv cloud l q s in
      let '(rs, s) := serve_all cloud qs s in (r :: rs, s)
  end.

Lemma signed_out_run c1 c2 qs s :
  agree c1 c2 → signed_out (fst s) → Forall (λ lq, ¬ signs_in lq.2) qs →
  serve_all c1 qs s = serve_all c2 qs s ∧ signed_out (fst (snd (serve_all c1 qs s))).
Proof.
  intros Hc. revert s. induction qs as [|[l q] qs IH]; intros s Hs Hq; [done|].
  inversion Hq as [|? ? H1 H2]. subst. simpl. destruct (signed_out_step c1 c2 l q s Hc Hs H1) as [E Hs'].
  rewrite <-E. destruct (srv c1 l q s) as [r s']. simpl in Hs'. destruct (IH s' Hs' H2) as [E2 H3].
  rewrite <-E2. by destruct (serve_all c1 qs s').
Qed.

(** Signing out forgets the key.  After POST /logout (the configuration file
    could be read and written, and the environment gives no key) every tunnel is
    stopped, and however many requests of any kind follow, short of another sign-in,
    the stored key stays empty and no key is ever sent to the control plane: the run
    is the same against any two control planes that differ only in what they do with
    a bearer key. *)
Theorem logout_forgets c1 c2 l q d x qs :
  agree c1 c2 → over_env env "TRQSH_API_KEY" "" = "" → keys_ok (dm_core d) →
  secure token q = None → route (lq_Method q) (lq_segs q) = Some RLogout →
  fst (clearStoredAPIKey env (dm_disk d)) = Ok tt → Forall (λ lq, ¬ signs_in lq.2) qs →
  ∃ s1, srv c1 l q (d, x) = ((204, LNone), s1) ∧ ag_tunnels (dm_core (fst s1)) = ∅ ∧ signed_out (fst s1) ∧
    serve_all c1 qs s1 = serve_all c2 qs s1 ∧ signed_out (fst (snd (serve_all c1 qs s1))).
Proof.
  intros Hc He Hk Hsec Hr Hok Hq. unfold serve. rewrite Hsec, Hr. cbn [handle]. unfold logout.
  destruct (clearStoredAPIKey env (dm_disk d)) as [r k] eqn:E. simpl in Hok. subst r.
  eexists. split; [done|]. simpl. split; [by apply stop_all_empty|].
  assert (Hs : storedAPIKey env k = "").
  { unfold clearStoredAPIKey in E. destruct (Load env (dm_disk d)) as [c|]; [|done]. by eapply cleared_key. }
  split; [done|]. by apply signed_out_run.
Qed.

(** The agent itself keeps the key it was started or signed in with: a tunnel
    started after signing out authenticates with it. *)
Lemma logout_keeps_agent_key (d : Daemon Doc) version os arch :
  hello_of (ag_cfg (dm_core (snd (logout env d)))) version os arch = hello_of (ag_cfg (dm_core d)) version os arch.
Proof.
  unfold logout. destruct (clearStoredAPIKey env (dm_disk d)) as [r k]. simpl. f_equal.
  unfold stop_all. generalize (tn_ID <$> agent_List (dm_core d)). intros ids. generalize (dm_core d).
  induction ids as [|id ids IH]; intros a; [done|].
  simpl. rewrite IH. unfold StopTunnel. destruct (ag_tunnels a !! id); simpl; [|done]. unfold emit. by destruct (_ <? _)%nat.
Qed.

(** ** Signing in *)

(** A key that /login accepts is stored, and every later request to the control
    plane carries it. *)
Lemma login_stored tok (d : Daemon Doc) resp d' :
  dk_read (dm_disk d) = None → over_env env "TRQSH_API_KEY" (TrimSpace tok) = TrimSpace tok →
  login (Some tok) d = ((200, resp), d') → storedAPIKey env (dm_disk d') = TrimSpace tok ∧ TrimSpace tok ≠ "".
Proof.
  intros Hr He. unfold login. destruct (String.eqb_spec (TrimSpace tok) "") as [|Hne]; [done|].
  unfold Login, Save. simpl. destruct (dk_write (dm_disk d)); simpl; [done|]. intros [= <- <-].
  split; [|done]. unfold storedAPIKey, Load. simpl. rewrite Hr, yaml_reread. simpl. unfold keep_empty.
  by rewrite (proj2 (String.eqb_neq _ "") Hne).
Qed.
End local_api.

(** * An example daemon *)
(** The outside records what it is asked. *)
Definition ex_cloud (code : string) (r : CloudReq) (x : list CloudReq) : result string (Z * string) * list CloudReq :=
  (Ok (201, code), x ++ [r]).
Definition ex_json (body field : string) : string := if String.eqb field "code" then body else "".
Definition ex_dial (h : Hello) (x : list CloudReq) : DialOutcome * list CloudReq := (NoSession "down", x).
Definition ex_ask (b : BindTunnel) (x : list CloudReq) : BindOutcome * list CloudReq :=
  ({| bo_write := None; bo_answers := []; bo_cancelled := false |}, x).
Definition ex_daemon : Daemon Config :=
  mkDaemon (set_ag_tunnels {["ct_1" := ex_tunnel]} (newAgent (with_key "k" DefaultConfig))) (NewRecorder 256)
    (mkDisk (Some (with_key "k" DefaultConfig)) None None) ∅ 0 None ∅ false None.
Definition ex_req (m : string) (segs : list string) (bearer : string) : LReq :=
  {| lq_Method := m; lq_segs := segs; lq_Host := "127.0.0.1:4041";
     lq_Header := {["Authorization" := ["Bearer " +:+ bearer]]}; lq_query_token := ""; lq_body := "" |}.
Definition ex_local : Local := {| lc_now := 0; lc_rnd := [1]; lc_version := "1"; lc_os := "linux"; lc_arch := "amd64" |}.
Definition ex_serve (code : string) : Local → LReq → Daemon Config * list CloudReq → LResp * (Daemon Config * list CloudReq) :=
  let _ := sorted_range in
  serve ex_dial ex_ask (ex_cloud code) ex_json (λ _, None) (λ _, None) (λ _, None) ∅ "secret" false.

Lemma local_api_guarded_witness :
  ∃ resp s', ex_serve "c" ex_local (ex_req "POST" ["shutdown"] "guess") (ex_daemon, []) = (resp, s') ∧
    s' = (ex_daemon, []) ∧ says_nothing resp.
Proof.
  destruct (ex_serve "c" ex_local (ex_req "POST" ["shutdown"] "guess") (ex_daemon, [])) as [resp s'] eqn:E.
  exists resp, s'. split; [done|].
  destruct (@local_api_guarded Config (list CloudReq) _ sorted_range ex_dial ex_ask ex_json (λ _, None) (λ _, None) (λ _, None) ∅
    "secret" false (ex_cloud "c") ex_local _ _ resp s' ltac:(done) E) as [[_ H]|H]; [|exact H].
  exfalso. destruct H as [(v & Hv & Ht)|H]; [|by vm_compute in H]. vm_compute in Hv. injection Hv as <-. by vm_compute in Ht.
Defined.

Lemma logout_forgets_witness :
  ∃ s1, ex_serve "c" ex_local (ex_req "POST" ["logout"] "secret") (ex_daemon, []) = ((204, LNone), s1) ∧
    ag_tunnels (dm_core (fst s1)) = ∅ ∧ signed_out ∅ (fst s1).
Proof.
  destruct (@logout_forgets Config (list CloudReq) _ sorted_range ex_dial ex_ask ex_json (λ _, None) (λ _, None) (λ _, None) ∅ "secret" false
    (ex_cloud "c") (ex_cloud "c") ex_local (ex_req "POST" ["logout"] "secret") ex_daemon [] []) as (s1 & E & H1 & H2 & _).
  - done.
  - done.
  - intros k t. simpl. intros [<- <-]%lookup_singleton_Some. done.
  - by vm_compute.
  - by vm_compute.
  - by vm_compute.
  - done.
  - by exists s1.
Defined.

(** * Pairings *)

(** The two critical sections of a pump that learns its session has ended are
    not one: a pairing started between them is replaced by the one the pump puts
    back, although the pump was written not to disturb a newer pairing. *)
Lemma ended_pump_clobbers :
  let d := mkDaemon (dm_core ex_daemon) (dm_insp ex_daemon) (dm_disk ex_daemon) ∅ 0 (Some "B") {["A"; "B"]} false None in
  let '(old, d1) := ended_first "A" d in
  let '(resp, (d2, asked)) := ex_serve "C" ex_local (ex_req "POST" ["remote"; "start"] "secret") (d1, []) in
  let d3 := ended_second (default "" old) d2 in
  resp = (200, LPairing "C") ∧ dm_remote d2 = Some "C" ∧ dm_remote d3 = Some "B" ∧
  dm_pumps d3 = {["B"; "C"]} ∧ length asked = 1%nat.
Proof. vm_compute. split_and!; [done..| |done]. reflexivity. Qed.

(** Without that interference a pump never touches another pairing, and starting
    one always leaves it active, with its pump. *)
Lemma pump_keeps_other {Doc} code status evs (d : Daemon Doc) c :
  dm_remote d = Some c → c ≠ code → dm_remote (pumpRemote code status evs d) = Some c.
Proof.
  intros Hr Hne. unfold pumpRemote. destruct (negb _); [done|].
  assert (Hk : ∀ evs d, dm_remote (snd (pump_events evs d)) = dm_remote (d : Daemon Doc)).
  { intros evs'. induction evs' as [|[c'|b| |] evs' IH]; intros d'; simpl; [done|by rewrite IH|by rewrite IH|done|by rewrite IH]. }
  assert (Ho : dm_remote (snd (pumpRemoteOnce status evs d)) = Some c).
  { unfold pumpRemoteOnce. destruct status as [st|]; [|done]. destruct (st =? 404); [done|].
    destruct (negb (st =? 200)); [done|]. by rewrite Hk. }
  destruct (pumpRemoteOnce status evs d) as [[] d']; simpl in *; [|done].
  unfold ended_first. simpl. rewrite Ho. simpl. by rewrite (proj2 (String.eqb_neq c code) Hne).
Qed.
