(* ===== verification/Login.v ===== *)
(** Sessions of the control plane (internal/api/auth, internal/api/device_redis.go,
    oauth_state.go, token_revoke_redis.go): signed tokens and their revocation,
    the device flow and the OAuth state nonces, each with its process-local and
    its Redis backend, and the middleware that turns a bearer token into a
    principal. *)
From S2P Require Import Prelude GoStrings Registry Store Entitle Ingress.
From Stdlib Require Import Ascii.

Open Scope Z_scope.

(** * Redis, continued
    The commands the sessions need beyond those of the registry, with their
    documented behaviour.  A transaction ([TxPipeline]) applies its commands
    together; when it fails, some keys it names may have changed. *)
Inductive RedisCmd :=
| CSet (k v : string) (ttl : Duration)
| CDel (k : string).

Definition cmd_key (c : RedisCmd) : string := match c with CSet k _ _ => k | CDel k => k end.

Class RedisKv (D : Type) `{RedisOps D} := {
  rdb_SetKeep : Time → string → string → M D RegErr unit;
  rdb_GetDel : Time → string → M D RegErr (option string);
  rdb_Exists : Time → string → M D RegErr Z;
  rdb_Exec : Time → list RedisCmd → M D RegErr unit;
}.

(** What a GET of [k] at [t] finds after one command run at [now], given what it
    would have found without it. *)
Definition cmd_view (now t : Time) (k : string) (c : RedisCmd) (old new : option string) : Prop :=
  if String.eqb (cmd_key c) k then
    match c with
    | CSet _ v ttl => (leased now ttl t → new = Some v) ∧ (lapsed now ttl t → new = None)
    | CDel _ => new = None
    end
  else new = old.

Inductive cmds_view (now t : Time) (k : string) : list RedisCmd → option string → option string → Prop :=
| cmds_nil old : cmds_view now t k [] old old
| cmds_cons c l old mid new :
    cmd_view now t k c old mid → cmds_view now t k l mid new → cmds_view now t k (c :: l) old new.

Class RedisKvLaws (D : Type) `{RedisLaws D, !RedisKv D} := {
  rdb_keep_at : ∀ now k v s s' t,
    is_Some (rdb_at s now k) → rdb_SetKeep now k v s = (Ok tt, s') → now <= t →
    rdb_at s' t k = (λ _, v) <$> rdb_at s t k;
  rdb_keep_other : ∀ now k v s res s' t j,
    rdb_SetKeep now k v s = (res, s') → j ≠ k → now <= t → rdb_at s' t j = rdb_at s t j;
  rdb_getdel_at : ∀ now k s res s' t,
    rdb_GetDel now k s = (Ok res, s') → now <= t → res = rdb_at s now k ∧ rdb_at s' t k = None;
  (** even when the reply is lost, the only effect on the key is its deletion *)
  rdb_getdel_any : ∀ now k s res s' t v,
    rdb_GetDel now k s = (res, s') → now <= t → rdb_at s' t k = Some v → rdb_at s t k = Some v;
  rdb_getdel_other : ∀ now k s res s' t j,
    rdb_GetDel now k s = (res, s') → j ≠ k → now <= t → rdb_at s' t j = rdb_at s t j;
  rdb_exists_at : ∀ now k s n s',
    rdb_Exists now k s = (Ok n, s') → s' = s ∧ (0 < n ↔ is_Some (rdb_at s now k));
  rdb_exists_err : ∀ now k s e s', rdb_Exists now k s = (Err e, s') → s' = s;
  rdb_exec_at : ∀ now l s s' t k,
    rdb_Exec now l s = (Ok tt, s') → now <= t → cmds_view now t k l (rdb_at s t k) (rdb_at s' t k);
  rdb_exec_other : ∀ now l s res s' t k,
    rdb_Exec now l s = (res, s') → k ∉ cmd_key <$> l → now <= t → rdb_at s' t k = rdb_at s t k;
  (** a SET that reports an error either happened or did not *)
  rdb_set_any : ∀ now k v ttl s res s' t w,
    0 <= ttl → rdb_Set now k v ttl s = (res, s') → now <= t → rdb_at s' t k = Some w →
    (w = v ∧ ¬ lapsed now ttl t) ∨ rdb_at s t k = Some w;
  rdb_set_err : ∀ now k v ttl s e s',
    0 <= ttl → rdb_Set now k v ttl s = (Err e, s') →
    (∀ t, now <= t → rdb_at s' t k = rdb_at s t k) ∨
    (∀ t, now <= t → leased now ttl t → rdb_at s' t k = Some v);
}.

(** A Redis that answers every command. *)
Class RedisUp (D : Type) `{RedisKv D} := {
  up_set : ∀ now k v ttl s, ∃ s', rdb_Set now k v ttl s = (Ok tt, s');
  up_get : ∀ now k s, ∃ r s', rdb_Get now k s = (Ok r, s');
  up_keep : ∀ now k v s, ∃ s', rdb_SetKeep now k v s = (Ok tt, s');
  up_getdel : ∀ now k s, ∃ r s', rdb_GetDel now k s = (Ok r, s');
  up_exists : ∀ now k s, ∃ n s', rdb_Exists now k s = (Ok n, s');
  up_exec : ∀ now l s, ∃ s', rdb_Exec now l s = (Ok tt, s');
}.

(** * The device flow *)
Inductive DeviceErr := ErrDevicePending | ErrDeviceExpired | ErrDeviceUnknown.

Definition DeviceErr_Error (e : DeviceErr) : string :=
  match e with
  | ErrDevicePending => "authorization_pending"
  | ErrDeviceExpired => "expired_token"
  | ErrDeviceUnknown => "invalid_device_code"
  end.

Record DeviceRequest := {
  dr_DeviceCode : string; dr_UserCode : string; dr_OrgID : string; dr_APIKey : string;
  dr_Approved : bool; dr_CreatedAt : Time;
}.

Definition DeviceTTL : Duration := 10 * Minute.

Definition randToken (b : list Z) : string := EncodeToString b.
Definition NewDeviceCode (b : list Z) : string := randToken b.

Definition user_alphabet : string := "BCDFGHJKLMNPQRSTVWXZ0123456789".
Definition user_char (c : Z) : ascii :=
  match String.get (Z.to_nat (c mod Z.of_nat (String.length user_alphabet))) user_alphabet with
  | Some a => a
  | None => "B"%char
  end.
(** The loop over the random bytes [b], at index [i]. *)
Fixpoint user_code_loop (i : nat) (b : list Z) : string :=
  match b with
  | [] => EmptyString
  | c :: b =>
      let r := String (user_char c) (user_code_loop (S i) b) in
      if Nat.eqb i 4 then String "-" r else r
  end.
Definition randUserCode (b : list Z) : string := user_code_loop 0 b.
Definition NewUserCode (b : list Z) : string := randUserCode b.

(** [time.Since(t) > d] at [now]. *)
Definition since_exceeds (now t : Time) (d : Duration) : bool := d <? now - t.

Class DeviceStore (D : Type) := {
  dev_Create : Time → list Z → list Z → D → DeviceRequest * D;
  dev_Approve : Time → string → string → string → M D DeviceErr unit;
  dev_Poll : Time → string → M D DeviceErr string;
}.

Definition new_request (now : Time) (db ub : list Z) : DeviceRequest :=
  {| dr_DeviceCode := NewDeviceCode db; dr_UserCode := NewUserCode ub; dr_OrgID := ""; dr_APIKey := "";
     dr_Approved := false; dr_CreatedAt := now |}.
Definition approve_request (orgID apiKey : string) (r : DeviceRequest) : DeviceRequest :=
  {| dr_DeviceCode := dr_DeviceCode r; dr_UserCode := dr_UserCode r; dr_OrgID := orgID; dr_APIKey := apiKey;
     dr_Approved := true; dr_CreatedAt := dr_CreatedAt r |}.

(** ** In the process.  [byDevice] holds pointers, each to a request of its own;
    nobody but the store keeps them. *)
Record deviceStore := { byDevice : gmap string DeviceRequest; byUser : gmap string string }.
Definition newDeviceStore : deviceStore := {| byDevice := ∅; byUser := ∅ |}.

Definition mem_Create (now : Time) (db ub : list Z) (d : deviceStore) : DeviceRequest * deviceStore :=
  let req := new_request now db ub in
  (req, {| byDevice := <[dr_DeviceCode req := req]> (byDevice d);
           byUser := <[dr_UserCode req := dr_DeviceCode req]> (byUser d) |}).

Definition mem_Approve (now : Time) (userCode orgID apiKey : string) : M deviceStore DeviceErr unit := λ d,
  match byUser d !! ToUpper (TrimSpace userCode) with
  | None => (Err ErrDeviceUnknown, d)
  | Some dc =>
      match byDevice d !! dc with
      | None => (Err ErrDeviceUnknown, d)
      | Some req => (Ok tt, {| byDevice := <[dc := approve_request orgID apiKey req]> (byDevice d);
                               byUser := byUser d |})
      end
  end.

Definition mem_drop (deviceCode userCode : string) (d : deviceStore) : deviceStore :=
  {| byDevice := delete deviceCode (byDevice d); byUser := delete userCode (byUser d) |}.

Definition mem_Poll (now : Time) (deviceCode : string) : M deviceStore DeviceErr string := λ d,
  match byDevice d !! deviceCode with
  | None => (Err ErrDeviceUnknown, d)
  | Some req =>
      if since_exceeds now (dr_CreatedAt req) DeviceTTL then
        (Err ErrDeviceExpired, mem_drop deviceCode (dr_UserCode req) d)
      else if negb (dr_Approved req) then (Err ErrDevicePending, d)
      else (Ok (dr_APIKey req), mem_drop deviceCode (dr_UserCode req) d)
  end.

#[export] Instance MemDevices : DeviceStore deviceStore :=
  {| dev_Create := mem_Create; dev_Approve := mem_Approve; dev_Poll := mem_Poll |}.

(** ** In Redis.  encoding/json on the request is a codec whose round trip holds for
    valid UTF-8; what is not, it replaces. *)
Definition byte_in (lo hi : N) (a : ascii) : bool := ((lo <=? N_of_ascii a) && (N_of_ascii a <=? hi))%N.
Fixpoint ValidString (s : string) : bool :=
  match s with
  | EmptyString => true
  | String a r =>
      if byte_in 0 127 a then ValidString r
      else match r with
      | EmptyString => false
      | String b r =>
          if byte_in 194 223 a && byte_in 128 191 b then ValidString r
          else match r with
          | EmptyString => false
          | String c r =>
              if ((byte_in 224 224 a && byte_in 160 191 b) || (byte_in 237 237 a && byte_in 128 159 b) ||
                  ((byte_in 225 236 a || byte_in 238 239 a) && byte_in 128 191 b)) && byte_in 128 191 c
              then ValidString r
              else match r with
              | EmptyString => false
              | String d r =>
                  ((byte_in 240 240 a && byte_in 144 191 b) || (byte_in 241 243 a && byte_in 128 191 b) ||
                   (byte_in 244 244 a && byte_in 128 143 b)) && byte_in 128 191 c && byte_in 128 191 d && ValidString r
              end
          end
      end
  end.
Definition valid_request (r : DeviceRequest) : Prop :=
  ValidString (dr_DeviceCode r) = true ∧ ValidString (dr_UserCode r) = true ∧
  ValidString (dr_OrgID r) = true ∧ ValidString (dr_APIKey r) = true.
Class DeviceJson := {
  Marshal : DeviceRequest → string;
  Unmarshal : string → option DeviceRequest;
  Unmarshal_Marshal : ∀ r, valid_request r → Unmarshal (Marshal r) = Some r;
}.

Definition redisDevicePrefix : string := "trqsh:device:".
Definition redisDeviceSafetyMargin : Duration := 5 * Minute.
Definition codeKey (deviceCode : string) : string := redisDevicePrefix +:+ "code:" +:+ deviceCode.
Definition userKey (userCode : string) : string := redisDevicePrefix +:+ "user:" +:+ userCode.

(** A backend's error after which only a warning is logged. *)
Definition swallow {D A} (c : M D RegErr A) (s : D) : D := snd (c s).

Section redis_devices.
  Context {D : Type} `{RedisKv D} `{DeviceJson}.

Definition redis_Create (now : Time) (db ub : list Z) (s : D) : DeviceRequest * D :=
  let req := new_request now db ub in
  let ttl := DeviceTTL + redisDeviceSafetyMargin in
  (req, swallow (rdb_Exec now [CSet (codeKey (dr_DeviceCode req)) (Marshal req) ttl;
                               CSet (userKey (dr_UserCode req)) (dr_DeviceCode req) ttl]) s).

(** The read of a request: absent, unreadable and unreachable look the same. *)
Definition redis_load (now : Time) (deviceCode : string) (s : D) : option DeviceRequest * D :=
  match rdb_Get now (codeKey deviceCode) s with
  | (Ok (Some raw), s) => (Unmarshal raw, s)
  | (_, s) => (None, s)
  end.

Definition redis_Approve (now : Time) (userCode orgID apiKey : string) : M D DeviceErr unit := λ s,
  match rdb_Get now (userKey userCode) s with
  | (Ok (Some deviceCode), s) =>
      match redis_load now deviceCode s with
      | (Some req, s) =>
          match rdb_SetKeep now (codeKey deviceCode) (Marshal (approve_request orgID apiKey req)) s with
          | (Ok _, s) => (Ok tt, s)
          | (Err _, s) => (Err ErrDeviceUnknown, s)
          end
      | (None, s) => (Err ErrDeviceUnknown, s)
      end
  | (_, s) => (Err ErrDeviceUnknown, s)
  end.

Definition redis_delete (now : Time) (deviceCode userCode : string) (s : D) : D :=
  swallow (rdb_Exec now [CDel (codeKey deviceCode); CDel (userKey userCode)]) s.

(** What a poll does once it has read the request: its two halves are separate
    round trips, between which another replica may run. *)
Definition redis_finish (now : Time) (deviceCode : string) (r : option DeviceRequest) : M D DeviceErr string := λ s,
  match r with
  | None => (Err ErrDeviceUnknown, s)
  | Some req =>
      if since_exceeds now (dr_CreatedAt req) DeviceTTL then
        (Err ErrDeviceExpired, redis_delete now deviceCode (dr_UserCode req) s)
      else if negb (dr_Approved req) then (Err ErrDevicePending, s)
      else (Ok (dr_APIKey req), redis_delete now deviceCode (dr_UserCode req) s)
  end.

Definition redis_Poll (now : Time) (deviceCode : string) : M D DeviceErr string := λ s,
  let '(r, s) := redis_load now deviceCode s in redis_finish now deviceCode r s.

Definition RedisDevices : DeviceStore D :=
  {| dev_Create := redis_Create; dev_Approve := redis_Approve; dev_Poll := redis_Poll |}.
End redis_devices.

(** * Revocation of refresh tokens *)
Class Revoker (R : Type) := {
  rv_Revoke : Time → string → Duration → R → R;
  rv_IsRevoked : Time → string → R → bool * R;
}.

Record memRevoker := { revoked_ : gmap string Time }.
Definition newMemRevoker : memRevoker := {| revoked_ := ∅ |}.

Definition mem_Revoke (now : Time) (jti : string) (ttl : Duration) (m : memRevoker) : memRevoker :=
  if String.eqb jti "" || (ttl <=? 0) then m else {| revoked_ := <[jti := now + ttl]> (revoked_ m) |}.

Definition mem_IsRevoked (now : Time) (jti : string) (m : memRevoker) : bool * memRevoker :=
  if String.eqb jti "" then (false, m)
  else match revoked_ m !! jti with
       | None => (false, m)
       | Some exp => if After now exp then (false, {| revoked_ := delete jti (revoked_ m) |}) else (true, m)
       end.

(** One pass of the reaper. *)
Definition mem_reap (now : Time) (m : memRevoker) : memRevoker :=
  {| revoked_ := filter (λ '(_, exp), After now exp = false) (revoked_ m) |}.

#[export] Instance MemRevoker : Revoker memRevoker :=
  {| rv_Revoke := mem_Revoke; rv_IsRevoked := mem_IsRevoked |}.

Definition redisRevokePrefix : string := "trqsh:revoked:".

Section redis_revoker.
  Context {D : Type} `{RedisKv D}.

Definition redis_Revoke (now : Time) (jti : string) (ttl : Duration) (s : D) : D :=
  if String.eqb jti "" || (ttl <=? 0) then s
  else swallow (rdb_Set now (redisRevokePrefix +:+ jti) "1" ttl) s.

(** Fails open: an error reads as not revoked. *)
Definition redis_IsRevoked (now : Time) (jti : string) (s : D) : bool * D :=
  if String.eqb jti "" then (false, s)
  else match rdb_Exists now (redisRevokePrefix +:+ jti) s with
       | (Err _, s) => (false, s)
       | (Ok n, s) => (0 <? n, s)
       end.

Definition RedisRevoker : Revoker D := {| rv_Revoke := redis_Revoke; rv_IsRevoked := redis_IsRevoked |}.
End redis_revoker.

(** * OAuth state nonces *)
Definition oauthStateTTL : Duration := 10 * Minute.
Definition redisOAuthStatePrefix : string := "trqsh:oauthstate:".
Definition newOAuthStateNonce (b : list Z) : string := EncodeToString b.

Class oauthStateStore (S : Type) := {
  st_New : Time → list Z → S → string * S;
  st_Check : Time → string → S → bool * S;
}.

Record memStateStore := { states : gmap string Time }.
Definition newMemStateStore : memStateStore := {| states := ∅ |}.

Definition mem_New (now : Time) (b : list Z) (m : memStateStore) : string * memStateStore :=
  let state := newOAuthStateNonce b in
  (state, {| states := <[state := now + oauthStateTTL]> (states m) |}).

Definition mem_Check (now : Time) (state : string) (m : memStateStore) : bool * memStateStore :=
  if String.eqb state "" then (false, m)
  else
    let m' := {| states := delete state (states m) |} in
    match states m !! state with
    | Some exp => (Before now exp, m')
    | None => (false, m')
    end.

#[export] Instance MemStates : oauthStateStore memStateStore := {| st_New := mem_New; st_Check := mem_Check |}.

Section redis_states.
  Context {D : Type} `{RedisKv D}.

Definition redis_New (now : Time) (b : list Z) (s : D) : string * D :=
  let state := newOAuthStateNonce b in
  (state, swallow (rdb_Set now (redisOAuthStatePrefix +:+ state) "1" oauthStateTTL) s).

(** Fails closed. *)
Definition redis_Check (now : Time) (state : string) (s : D) : bool * D :=
  if String.eqb state "" then (false, s)
  else match rdb_GetDel now (redisOAuthStatePrefix +:+ state) s with
       | (Ok (Some _), s) => (true, s)
       | (_, s) => (false, s)
       end.

Definition RedisStates : oauthStateStore D := {| st_New := redis_New; st_Check := redis_Check |}.
End redis_states.

(** * Session tokens *)
Record Claims := {
  cl_OrgID : string; cl_Kind : string; cl_ID : string; cl_Subject : string;
  cl_IssuedAt : option Time; cl_ExpiresAt : option Time; cl_Issuer : string;
}.

Record Tokens := { tk_Access : string; tk_Refresh : string; tk_ExpiresIn : Z; tk_TokenType : string }.

(** golang-jwt: signing with HS256, and [ParseWithClaims] at a time, [None]
    standing for its error.  A numeric date is a whole second.  A token that was
    just signed parses to its claims until it expires; what a token says does not
    depend on when it is read; an expired token does not parse. *)
Definition NewNumericDate (t : Time) : Time := t - t mod Second.

Class Jwt := {
  SignedString : string → Claims → string;
  ParseWithClaims : Time → string → string → option Claims;
}.
Class JwtLaws `{Jwt} := {
  jwt_signed : ∀ now secret c e,
    cl_ExpiresAt c = Some e → now < e → ParseWithClaims now secret (SignedString secret c) = Some c;
  jwt_stable : ∀ t1 t2 secret tok c1 c2,
    ParseWithClaims t1 secret tok = Some c1 → ParseWithClaims t2 secret tok = Some c2 → c1 = c2;
  jwt_expired : ∀ now secret tok c e,
    ParseWithClaims now secret tok = Some c → cl_ExpiresAt c = Some e → now < e;
  (** the compact serialisation is the base64url of a JSON object, dots and no blanks *)
  jwt_compact : ∀ secret c,
    HasPrefix (SignedString secret c) "eyJ" = true ∧ all_chars no_space (SignedString secret c) = true;
}.

Definition accessTTL : Duration := 1 * Hour.
Definition refreshTTL : Duration := 30 * 24 * Hour.
Definition newJTI (b : list Z) : string := EncodeToString b.

Section tokens.
  Context `{Jwt} (secret : string).

Definition mk_claims (now : Time) (jti : list Z) (userID orgID kind : string) (ttl : Duration) : Claims :=
  {| cl_OrgID := orgID; cl_Kind := kind; cl_ID := newJTI jti; cl_Subject := userID;
     cl_IssuedAt := Some (NewNumericDate now); cl_ExpiresAt := Some (NewNumericDate (now + ttl));
     cl_Issuer := "trqsh-api" |}.
Definition sign (now : Time) (jti : list Z) (userID orgID kind : string) (ttl : Duration) : string :=
  SignedString secret (mk_claims now jti userID orgID kind ttl).

(** Two token identifiers are drawn. *)
Definition IssueTokens (now : Time) (j1 j2 : list Z) (userID orgID : string) : Tokens :=
  {| tk_Access := sign now j1 userID orgID "access" accessTTL;
     tk_Refresh := sign now j2 userID orgID "refresh" refreshTTL;
     tk_ExpiresIn := accessTTL / Second; tk_TokenType := "Bearer" |}.

Definition ParseToken (now : Time) (token : string) : result AuthErr Claims :=
  match ParseWithClaims now secret token with Some c => Ok c | None => Err ErrUnauthorized end.

Context {R : Type} `{Revoker R}.

Definition Refresh (now : Time) (j1 j2 : list Z) (refreshToken : string) : M R AuthErr Tokens := λ rv,
  match ParseToken now refreshToken with
  | Err e => (Err e, rv)
  | Ok claims =>
      if negb (String.eqb (cl_Kind claims) "refresh") then (Err ErrUnauthorized, rv)
      else
        let '(dead, rv) := rv_IsRevoked now (cl_ID claims) rv in
        if dead then (Err ErrUnauthorized, rv)
        else (Ok (IssueTokens now j1 j2 (cl_Subject claims) (cl_OrgID claims)), rv)
  end.

Definition RevokeRefresh (now : Time) (refreshToken : string) (rv : R) : R :=
  match ParseToken now refreshToken with
  | Err _ => rv
  | Ok claims =>
      if negb (String.eqb (cl_Kind claims) "refresh") || String.eqb (cl_ID claims) "" then rv
      else match cl_ExpiresAt claims with
           | None => rv
           | Some e => if 0 <? e - now then rv_Revoke now (cl_ID claims) (e - now) rv else rv
           end
  end.

(** * The authentication middleware *)
Record Principal := { pr_UserID : string; pr_OrgID : string; pr_ViaAPIKey : bool; pr_APIKeyID : string }.

Definition bearerToken (h : Header) : string :=
  let a := Get h "Authorization" in
  if String.eqb a "" then ""
  else if HasPrefix (ToLower a) "bearer " then TrimSpace (drop_string 7 a)
  else TrimSpace a.

(** [None] is the 401; a principal is handed to the next handler. *)
Definition Middleware (IDKey : string → list Z → Z → Z → Z → Z → list Z) (now : Time) (h : Header) (m : MemStore)
    : option Principal * MemStore :=
  let tok := bearerToken h in
  if String.eqb tok "" then (None, m)
  else if HasPrefix tok "tq_" then
    match AuthenticateAPIKey IDKey now tok m with
    | (Err _, m) => (None, m)
    | (Ok k, m) => (Some {| pr_UserID := ""; pr_OrgID := ak_OrgID k; pr_ViaAPIKey := true; pr_APIKeyID := ak_ID k |}, m)
    end
  else match ParseToken now tok with
       | Ok c => if String.eqb (cl_Kind c) "access"
                 then (Some {| pr_UserID := cl_Subject c; pr_OrgID := cl_OrgID c; pr_ViaAPIKey := false;
                               pr_APIKeyID := "" |}, m)
                 else (None, m)
       | Err _ => (None, m)
       end.
End tokens.
