(* ===== verification/LoginSafety.v ===== *)
(** What sessions guarantee: device keys are delivered once and only to the flow
    that was approved, whichever backend keeps them; state nonces are consumed
    once; a logged-out refresh token stays dead; tokens authenticate their user
    and nothing else. *)
From S2P Require Import Prelude GoStrings Registry Store Entitle Ingress Login.
From Stdlib Require Import Ascii.

Open Scope Z_scope.

(** * User codes *)
(** Printed in capitals and without blanks. *)
Definition code_char (a : ascii) : bool := Ascii.eqb (upper_ascii a) a && negb (is_space a).
Definition canonical_code (u : string) : Prop := all_chars code_char u = true.

Lemma canonical_upper s : all_chars code_char s = true → ToUpper s = s.
Proof.
  unfold ToUpper. induction s as [|a s IH]; [done|]. simpl. intros H. bool_simpl.
  unfold code_char in *. bool_simpl. rewrite IH by done.
  by match goal with Hs : Ascii.eqb _ a = true |- _ => apply Ascii.eqb_eq in Hs as -> end.
Qed.

Lemma canonical_norm u : canonical_code u → ToUpper (TrimSpace u) = u.
Proof.
  intros Hu. rewrite TrimSpace_id; [by apply canonical_upper|].
  apply (all_chars_impl code_char); [|done]. unfold code_char, no_space. by intros a [_ Ha]%andb_true_iff.
Qed.

Definition in_alphabet (a : ascii) : bool := has_byte user_alphabet a.

Lemma has_byte_get n s a : String.get n s = Some a → has_byte s a = true.
Proof.
  revert n. induction s as [|b s IH]; intros n; [by destruct n|].
  destruct n as [|n]; simpl.
  - intros [= ->]. by rewrite Ascii.eqb_refl.
  - intros Hg. rewrite (IH n Hg). apply orb_true_r.
Qed.

Lemma user_char_alphabet c : in_alphabet (user_char c) = true.
Proof.
  unfold in_alphabet, user_char. destruct (String.get _ _) eqn:Hg; [by eapply has_byte_get|done].
Qed.

Lemma alphabet_code a : in_alphabet a = true → code_char a = true.
Proof. destruct a as [[] [] [] [] [] [] [] []]; by vm_compute. Qed.

Lemma user_code_chars i b :
  all_chars (λ a, in_alphabet a || Ascii.eqb a "-") (user_code_loop i b) = true.
Proof.
  revert i. induction b as [|c b IH]; intros i; [done|]. simpl.
  destruct (Nat.eqb i 4); simpl; by rewrite user_char_alphabet, IH.
Qed.

Lemma user_code_canonical b : canonical_code (NewUserCode b).
Proof.
  apply (all_chars_impl (λ a, in_alphabet a || Ascii.eqb a "-")); [|apply user_code_chars].
  intros a [Ha| ->%Ascii.eqb_eq]%orb_true_iff; [by apply alphabet_code|done].
Qed.

Lemma user_code_tail_length i b :
  (5 <= i)%nat → String.length (user_code_loop i b) = length b.
Proof.
  revert i. induction b as [|c b IH]; intros i Hi; [done|]. simpl.
  destruct (Nat.eqb_spec i 4); [lia|]. simpl. rewrite IH by lia. done.
Qed.

(** A user code drawn from eight random bytes is nine characters, four of
    the alphabet without vowels, a dash, four more, so that it needs no
    normalisation: what a person types back in lower case or with blanks around
    it is, after the normalisation of [Approve], the code itself. *)
Theorem user_code_format b :
  length b = 8%nat →
  String.length (NewUserCode b) = 9%nat ∧
  String.get 4 (NewUserCode b) = Some "-"%char ∧
  (∀ i a, i ≠ 4%nat → String.get i (NewUserCode b) = Some a → has_byte user_alphabet a = true) ∧
  (∀ now typed, ToUpper (TrimSpace typed) = NewUserCode b →
     mem_Approve now typed = mem_Approve now (NewUserCode b)).
Proof.
  intros Hb. do 8 (destruct b as [|? b]; [done|]). destruct b; [|done].
  repeat split.
  - intros i a Hi Hg.
    do 9 (destruct i as [|i]; [simpl in Hg; (done || (injection Hg as <-; apply user_char_alphabet))|]).
    simpl in Hg. by destruct i.
  - intros now typed Ht. unfold mem_Approve. by rewrite Ht, (canonical_norm _ (user_code_canonical _)).
Qed.

Definition ex_user_bytes : list Z := [0; 1; 2; 3; 20; 21; 255; 29].
Lemma user_code_format_witness :
  String.length (NewUserCode ex_user_bytes) = 9%nat ∧ NewUserCode ex_user_bytes = "BCDF-01T9".
Proof. split; [apply (user_code_format ex_user_bytes); reflexivity|reflexivity]. Defined.

(** * The device flow, in the process *)
Inductive dev_op :=
| DCreate (db ub : list Z)
| DApprove (userCode orgID apiKey : string)
| DPoll (deviceCode : string).

Inductive dev_answer :=
| ACreated (r : DeviceRequest)
| AApproved (r : result DeviceErr unit)
| APolled (r : result DeviceErr string).

Definition dev_exec {D} `{DeviceStore D} (now : Time) (o : dev_op) (d : D) : dev_answer * D :=
  match o with
  | DCreate db ub => let '(r, d) := dev_Create now db ub d in (ACreated r, d)
  | DApprove u org key => let '(r, d) := dev_Approve now u org key d in (AApproved r, d)
  | DPoll c => let '(r, d) := dev_Poll now c d in (APolled r, d)
  end.

(** What happened, oldest first. *)
Record dev_event := { de_at : Time; de_op : dev_op; de_answer : dev_answer }.

(** Histories of a store: operations in any order from an empty store, their
    times not decreasing.  Device codes are 128 random bits and do not repeat. *)
Definition code_of (o : dev_op) : option string :=
  match o with DCreate db _ => Some (NewDeviceCode db) | _ => None end.
Definition created (c : string) (tr : list dev_event) : Prop := ∃ e, e ∈ tr ∧ code_of (de_op e) = Some c.

Inductive dev_history : list dev_event → Time → deviceStore → Prop :=
| dh_start now : dev_history [] now newDeviceStore
| dh_step tr now d now' o a d' :
    dev_history tr now d → now <= now' →
    (∀ c, code_of o = Some c → ¬ created c tr) →
    dev_exec now' o d = (a, d') →
    dev_history (tr ++ [{| de_at := now'; de_op := o; de_answer := a |}]) now' d'.

Definition delivered (c : string) (tr : list dev_event) : Prop :=
  ∃ e key, e ∈ tr ∧ de_op e = DPoll c ∧ de_answer e = APolled (Ok key).

(** [approved_for tr u org key]: an approval of the code [u], however typed. *)
Definition approved_for (u org key : string) (tr : list dev_event) : Prop :=
  ∃ e typed, e ∈ tr ∧ de_op e = DApprove typed org key ∧ de_answer e = AApproved (Ok tt) ∧
    ToUpper (TrimSpace typed) = u.

(** What a stored request says about the past. *)
Record flow_ok (tr : list dev_event) (c : string) (r : DeviceRequest) : Prop := {
  fo_created : ∃ tr1 e tr2 db ub, tr = tr1 ++ e :: tr2 ∧ de_at e = dr_CreatedAt r ∧ de_op e = DCreate db ub ∧
    NewDeviceCode db = c ∧ NewUserCode ub = dr_UserCode r ∧
    (dr_Approved r = true → approved_for (dr_UserCode r) (dr_OrgID r) (dr_APIKey r) tr2);
  fo_fresh : ¬ delivered c tr;
}.

Record dev_inv (tr : list dev_event) (d : deviceStore) : Prop := {
  di_flow : ∀ c r, byDevice d !! c = Some r → flow_ok tr c r;
  di_user : ∀ u c r, byUser d !! u = Some c → byDevice d !! c = Some r → dr_UserCode r = u;
  di_index : ∀ u c, byUser d !! u = Some c → created c tr;
  di_polled : ∀ c, delivered c tr → created c tr;
}.

Lemma created_app c tr e : created c (tr ++ [e]) ↔ created c tr ∨ code_of (de_op e) = Some c.
Proof.
  unfold created. setoid_rewrite elem_of_app. setoid_rewrite list_elem_of_singleton. naive_solver.
Qed.

Lemma delivered_app c tr e :
  delivered c (tr ++ [e]) ↔
  delivered c tr ∨ (de_op e = DPoll c ∧ ∃ key, de_answer e = APolled (Ok key)).
Proof.
  unfold delivered. setoid_rewrite elem_of_app. setoid_rewrite list_elem_of_singleton. naive_solver.
Qed.

Lemma approved_for_app u org key tr e :
  approved_for u org key tr → approved_for u org key (tr ++ [e]).
Proof. intros (x & t & Hx & ?). exists x, t. split; [|done]. apply elem_of_app. by left. Qed.

Lemma flow_created tr c r : flow_ok tr c r → created c tr.
Proof.
  intros [(tr1 & e & tr2 & db & ub & -> & _ & Ho & <- & _) _]. exists e. split; [set_solver|by rewrite Ho].
Qed.

(** A request survives an event that is not its delivery. *)
Lemma flow_ok_app tr e c r :
  flow_ok tr c r → ¬ (de_op e = DPoll c ∧ ∃ key, de_answer e = APolled (Ok key)) → flow_ok (tr ++ [e]) c r.
Proof.
  intros [(tr1 & x & tr2 & db & ub & -> & Hat & Ho & Hc & Hu & Happ) Hf] Hne. split.
  - exists tr1, x, (tr2 ++ [e]), db, ub. split; [by rewrite <- app_assoc|].
    repeat split; try done. intros Ha. by apply approved_for_app, Happ.
  - rewrite delivered_app. tauto.
Qed.

(** The invariant is kept by an event that changes no entry it does not drop. *)
Lemma dev_inv_frame tr e d d' :
  dev_inv tr d → (∀ c, code_of (de_op e) = Some c → False) →
  (∀ c r, byDevice d' !! c = Some r → byDevice d !! c = Some r) →
  (∀ u c, byUser d' !! u = Some c → byUser d !! u = Some c) →
  (∀ c, de_op e = DPoll c → (∃ key, de_answer e = APolled (Ok key)) → byDevice d' !! c = None ∧ created c tr) →
  dev_inv (tr ++ [e]) d'.
Proof.
  intros [Hf Hu Hi Hp] Hc Hd Hb Hpoll. split.
  - intros c r Hr. apply flow_ok_app; [by apply Hf, Hd|]. intros [Ho Hk].
    destruct (Hpoll c Ho Hk). congruence.
  - intros u c r ??. eapply Hu; eauto.
  - intros u c ?. rewrite created_app. left. eauto.
  - intros c [?|[Ho Hk]]%delivered_app; rewrite created_app; left; [by apply Hp|by apply (Hpoll c)].
Qed.

Lemma dev_inv_create tr now db ub d :
  dev_inv tr d → ¬ created (NewDeviceCode db) tr →
  dev_inv (tr ++ [{| de_at := now; de_op := DCreate db ub; de_answer := ACreated (new_request now db ub) |}])
    (snd (mem_Create now db ub d)).
Proof.
  intros [Hf Hu Hi Hp] Hfresh. set (e := {| de_at := now |}).
  assert (Hnd : ∀ c, delivered c (tr ++ [e]) ↔ delivered c tr).
  { intros c. rewrite delivered_app. simpl. naive_solver. }
  split; simpl.
  - intros c r [[<- <-]|[Hne Hr]]%lookup_insert_Some.
    + split.
      * exists tr, e, [], db, ub. by repeat split.
      * rewrite Hnd. by intros ?%Hp.
    + apply flow_ok_app; [by apply Hf|]. by intros [? _].
  - intros u c r [[<- <-]|[Hne Hb]]%lookup_insert_Some [[Hc <-]|[Hne' Hr]]%lookup_insert_Some; try done.
    + destruct Hfresh. rewrite Hc. by eapply Hi.
    + by eapply Hu.
  - intros u c [[<- <-]|[Hne Hb]]%lookup_insert_Some; rewrite created_app; [by right|left; by eapply Hi].
  - intros c ?%Hnd%Hp. rewrite created_app. by left.
Qed.

Lemma dev_inv_approve tr now u org key d dc req :
  dev_inv tr d → byUser d !! ToUpper (TrimSpace u) = Some dc → byDevice d !! dc = Some req →
  dev_inv (tr ++ [{| de_at := now; de_op := DApprove u org key; de_answer := AApproved (Ok tt) |}])
    {| byDevice := <[dc := approve_request org key req]> (byDevice d); byUser := byUser d |}.
Proof.
  intros [Hf Hu Hi Hp] Hdc Hreq. set (e := {| de_at := now |}).
  assert (Hnd : ∀ c, delivered c (tr ++ [e]) ↔ delivered c tr).
  { intros c. rewrite delivered_app. simpl. naive_solver. }
  split; simpl.
  - intros c r [[<- <-]|[Hne Hr]]%lookup_insert_Some.
    + destruct (Hf _ _ Hreq) as [(tr1 & x & tr2 & db & ub & -> & Hat & Ho & Hc & Huc & _) Hfr]. split.
      * exists tr1, x, (tr2 ++ [e]), db, ub. split; [by rewrite <- app_assoc|].
        repeat split; try done. intros _. exists e, u.
        split; [set_solver|]. repeat split. simpl. symmetry. by eapply Hu.
      * by rewrite Hnd.
    + apply flow_ok_app; [by apply Hf|]. by intros [? _].
  - intros u' c r Hb [[<- <-]|[Hne Hr]]%lookup_insert_Some; simpl; by eapply Hu.
  - intros u' c Hb. rewrite created_app. left. by eapply Hi.
  - intros c ?%Hnd%Hp. rewrite created_app. by left.
Qed.

Lemma dev_history_inv tr now d : dev_history tr now d → dev_inv tr d.
Proof.
  induction 1 as [now|tr now d now' o a d' Hh IH Hle Hfresh Hex].
  { split; simpl; try (intros; by simplify_map_eq). intros c (e & key & He & _). by apply not_elem_of_nil in He. }
  destruct o as [db ub|u org key|c]; simpl in Hex.
  - unfold mem_Create in Hex. simplify_eq. apply (dev_inv_create tr now' db ub d); [done|]. by apply Hfresh.
  - unfold mem_Approve in Hex. repeat case_match; simplify_eq.
    + by eapply dev_inv_approve.
    + by apply (dev_inv_frame _ _ _ _ IH).
    + by apply (dev_inv_frame _ _ _ _ IH).
  - unfold mem_Poll in Hex.
    destruct (byDevice d !! c) as [req|] eqn:Hreq; [|simplify_eq; apply (dev_inv_frame _ _ _ _ IH); naive_solver].
    pose proof (flow_created _ _ _ (di_flow _ _ IH _ _ Hreq)) as Hcr.
    repeat case_match; simplify_eq; apply (dev_inv_frame _ _ _ _ IH); simpl; try done;
      try (intros ??; rewrite ?lookup_delete_Some; naive_solver); intros c' [= <-] [? ?]; [done..|].
    by rewrite lookup_delete_eq.
Qed.

(** C19: a device login is sound: in any history of the device store, a poll that
    is answered with a key was preceded by the creation of that very flow, at
    most ten minutes before, then by a successful approval of its own user code
    with exactly that key, and the key had not been delivered before: a flow
    delivers once. *)
Theorem device_login_sound tr now d now' c key d' :
  dev_history tr now d → now <= now' → mem_Poll now' c d = (Ok key, d') →
  ¬ delivered c tr ∧
  ∃ tr1 e tr2 db ub org, tr = tr1 ++ e :: tr2 ∧ de_op e = DCreate db ub ∧ NewDeviceCode db = c ∧
    now' - de_at e <= DeviceTTL ∧ approved_for (NewUserCode ub) org key tr2.
Proof.
  intros Hh Hle Hp. pose proof (dev_history_inv _ _ _ Hh) as Hinv. unfold mem_Poll, since_exceeds in Hp.
  destruct (byDevice d !! c) as [req|] eqn:Hreq; [|done].
  destruct (di_flow _ _ Hinv _ _ Hreq) as [(tr1 & e & tr2 & db & ub & -> & Hat & Ho & Hc & Hu & Happ) Hfr].
  repeat case_match; simplify_eq. bool_simpl. split; [done|].
  exists tr1, e, tr2, db, ub, (dr_OrgID req). rewrite Hat. repeat split; try done. rewrite Hu. by apply Happ.
Qed.

(** * The device flow on Redis *)
Fixpoint dev_run {D} `{DeviceStore D} (l : list (Time * dev_op)) (d : D) : list dev_answer * D :=
  match l with
  | [] => ([], d)
  | (now, o) :: l =>
      let '(a, d) := dev_exec now o d in
      let '(r, d) := dev_run l d in (a :: r, d)
  end.

(** Times do not decrease from [t] and stay below [h]; user codes are as printed, and the
    organisations' ids and keys are valid UTF-8. *)
Definition approval_ok (o : dev_op) : Prop :=
  match o with
  | DApprove u org key => canonical_code u ∧ ValidString org = true ∧ ValidString key = true
  | _ => True
  end.
Fixpoint run_ok (t h : Time) (l : list (Time * dev_op)) : Prop :=
  match l with
  | [] => True
  | (now, o) :: l =>
      t <= now < h ∧ approval_ok o ∧ run_ok now h l
  end.

Lemma codeKey_inj c c' : codeKey c = codeKey c' → c = c'.
Proof. unfold codeKey. by intros ?%(inj _)%(inj _). Qed.
Lemma userKey_inj u u' : userKey u = userKey u' → u = u'.
Proof. unfold userKey. by intros ?%(inj _)%(inj _). Qed.
Lemma code_user_ne c u : codeKey c ≠ userKey u.
Proof. done. Qed.

Section devices_agree.
  Context {D : Type} `{RedisKvLaws D} `{!RedisUp D} `{DeviceJson}.
  Local Existing Instance RedisDevices.

(** The codes the store prints are plain ASCII. *)
Lemma plain_valid s : all_chars (byte_in 0 127) s = true → ValidString s = true.
Proof. induction s as [|a s IH]; [done|]. cbn [all_chars ValidString]. intros [-> Hs]%andb_true_iff. auto. Qed.
Lemma get_plain (s : string) (dflt : ascii) n : all_chars (byte_in 0 127) s = true → byte_in 0 127 dflt = true →
  byte_in 0 127 (match String.get n s with Some a => a | None => dflt end) = true.
Proof.
  revert n. induction s as [|a s IH]; intros n Hs Hd; [by destruct n|]. cbn [all_chars] in Hs. apply andb_true_iff in Hs as [Ha Hs].
  destruct n; cbn; auto.
Qed.
Lemma hex_valid b : ValidString (EncodeToString b) = true.
Proof.
  apply plain_valid. induction b as [|x b IH]; [done|]. cbn [EncodeToString all_chars].
  rewrite IH, andb_true_r. apply andb_true_iff. by split; apply get_plain.
Qed.
Lemma user_code_valid i b : ValidString (user_code_loop i b) = true.
Proof.
  apply plain_valid. revert i. induction b as [|c b IH]; intros i; [done|]. cbn [user_code_loop].
  assert (Hc : byte_in 0 127 (user_char c) = true) by by apply get_plain.
  destruct (Nat.eqb i 4); cbn [all_chars]; by rewrite Hc, IH.
Qed.
Lemma new_request_valid now db ub : valid_request (new_request now db ub).
Proof. unfold valid_request. cbn. split_and!; [apply hex_valid|apply user_code_valid|done|done]. Qed.

Definition dev_keys (now h : Time) (s : D) (d : deviceStore) : Prop :=
  ∀ t, now <= t < h →
    (∀ c, rdb_at s t (codeKey c) = Marshal <$> byDevice d !! c) ∧
    (∀ u, rdb_at s t (userKey u) = byUser d !! u).
Definition all_valid (d : deviceStore) : Prop := map_Forall (λ _, valid_request) (byDevice d).
(** From [now] until [h], the keys in Redis are the entries of the maps. *)
Definition dev_sim (now h : Time) (s : D) (d : deviceStore) : Prop := dev_keys now h s d ∧ all_valid d.

Lemma dev_sim_later now now' h s d : now <= now' → dev_sim now h s d → dev_sim now' h s d.
Proof. intros Hle [Hs Hv]. split; [|done]. intros t Ht. apply Hs. lia. Qed.

(** A transaction of two commands, one on a code and one on a user key. *)
Lemma exec_two now t c u (v w : option string) ttl cmd1 cmd2 (s s' : D) :
  cmd1 = match v with Some v => CSet (codeKey c) v ttl | None => CDel (codeKey c) end →
  cmd2 = match w with Some w => CSet (userKey u) w ttl | None => CDel (userKey u) end →
  rdb_Exec now [cmd1; cmd2] s = (Ok tt, s') → now <= t → leased now ttl t →
  (∀ c', rdb_at s' t (codeKey c') = if String.eqb c' c then v else rdb_at s t (codeKey c')) ∧
  (∀ u', rdb_at s' t (userKey u') = if String.eqb u' u then w else rdb_at s t (userKey u')).
Proof.
  intros -> -> Hex Ht Hl. split.
  - intros c'. pose proof (rdb_exec_at _ _ _ _ t (codeKey c') Hex Ht) as Hv.
    inversion_clear Hv as [|? ? ? mid ? Hc1 Hc2]. inversion_clear Hc2 as [|? ? ? mid' ? Hc3 Hc4].
    inversion Hc4; subst; clear Hc4. unfold cmd_view in *.
    destruct (String.eqb_spec c' c) as [->|Hne].
    + destruct v, w; simpl in *; rewrite ?String.eqb_refl in *; naive_solver.
    + assert (String.eqb (codeKey c) (codeKey c') = false) as E.
      { apply String.eqb_neq. by intros ->%codeKey_inj. }
      destruct v, w; simpl in *; rewrite E in *; congruence.
  - intros u'. pose proof (rdb_exec_at _ _ _ _ t (userKey u') Hex Ht) as Hv.
    inversion_clear Hv as [|? ? ? mid ? Hc1 Hc2]. inversion_clear Hc2 as [|? ? ? mid' ? Hc3 Hc4].
    inversion Hc4; subst; clear Hc4. unfold cmd_view in *.
    destruct (String.eqb_spec u' u) as [->|Hne].
    + destruct v, w; simpl in *; rewrite ?String.eqb_refl in *; naive_solver.
    + assert (String.eqb (userKey u) (userKey u') = false) as E.
      { apply String.eqb_neq. by intros ->%userKey_inj. }
      destruct v, w; simpl in *; rewrite E in *; congruence.
Qed.

Lemma redis_load_sim now h c (s : D) d :
  dev_sim now h s d → now < h → redis_load now c s = (byDevice d !! c, s).
Proof.
  intros [Hs Hv] Hh. unfold redis_load. destruct (up_get now (codeKey c) s) as (r & s' & Hg). rewrite Hg.
  apply rdb_get_at in Hg as [-> ->]. destruct (Hs now ltac:(lia)) as [Hc _]. rewrite Hc.
  destruct (byDevice d !! c) as [req|] eqn:Hr; simpl; [|done]. by rewrite Unmarshal_Marshal by apply (Hv _ _ Hr).
Qed.

Lemma dev_sim_delete now h c u (s : D) d :
  dev_sim now h s d → dev_sim now h (redis_delete now c u s) (mem_drop c u d).
Proof.
  intros [Hs Hv]. split; [|by apply map_Forall_delete]. intros t Ht. unfold redis_delete, swallow.
  destruct (up_exec now [CDel (codeKey c); CDel (userKey u)] s) as (s' & Hex). rewrite Hex. simpl.
  destruct (exec_two now t c u None None 0 _ _ s s' eq_refl eq_refl Hex) as [Hc Hu]; [lia|by left|].
  destruct (Hs t Ht) as [Hc0 Hu0]. split.
  - intros c'. rewrite Hc, Hc0. destruct (String.eqb_spec c' c) as [->|]; by simplify_map_eq.
  - intros u'. rewrite Hu, Hu0. destruct (String.eqb_spec u' u) as [->|]; by simplify_map_eq.
Qed.

Lemma dev_sim_create now h db ub (s : D) d :
  h <= now + (DeviceTTL + redisDeviceSafetyMargin) →
  dev_sim now h s d → dev_sim now h (snd (redis_Create now db ub s)) (snd (mem_Create now db ub d)).
Proof.
  intros Hh [Hs Hv]. split; [|by apply map_Forall_insert_2; [apply new_request_valid|]].
  intros t Ht. unfold redis_Create, swallow. cbn [snd]. set (req := new_request now db ub).
  set (ttl := DeviceTTL + redisDeviceSafetyMargin) in *.
  destruct (up_exec now [CSet (codeKey (dr_DeviceCode req)) (Marshal req) ttl;
                         CSet (userKey (dr_UserCode req)) (dr_DeviceCode req) ttl] s) as (s' & Hex).
  rewrite Hex. cbn [snd].
  destruct (exec_two now t (dr_DeviceCode req) (dr_UserCode req) (Some (Marshal req))
              (Some (dr_DeviceCode req)) ttl _ _ s s' eq_refl eq_refl Hex) as [Hc Hu]; [lia|right; lia|].
  destruct (Hs t Ht) as [Hc0 Hu0]. split.
  - intros c'. rewrite Hc, Hc0. unfold mem_Create. cbn [snd byDevice].
    destruct (String.eqb_spec c' (dr_DeviceCode req)) as [->|]; by simplify_map_eq.
  - intros u'. rewrite Hu, Hu0. unfold mem_Create. cbn [snd byUser].
    destruct (String.eqb_spec u' (dr_UserCode req)) as [->|]; by simplify_map_eq.
Qed.

Lemma dev_sim_keep now h c r r' (s s' : D) d :
  now < h → dev_sim now h s d → valid_request r' → byDevice d !! c = Some r →
  rdb_SetKeep now (codeKey c) (Marshal r') s = (Ok tt, s') →
  dev_sim now h s' {| byDevice := <[c := r']> (byDevice d); byUser := byUser d |}.
Proof.
  intros Hh [Hs Hv] Hr' Hr Hk. split; [|by apply map_Forall_insert_2].
  intros t Ht. destruct (Hs t Ht) as [Hc0 Hu0]. split; simpl.
  - intros c'. destruct (decide (c' = c)) as [->|Hne].
    + rewrite (rdb_keep_at _ _ _ _ _ t) by (done || lia || (rewrite (proj1 (Hs now ltac:(lia))), Hr; eauto)).
      rewrite Hc0, Hr. by simplify_map_eq.
    + rewrite (rdb_keep_other _ _ _ _ _ _ t _ Hk) by (lia || by intros ?%codeKey_inj).
      rewrite Hc0. by simplify_map_eq.
  - intros u. rewrite (rdb_keep_other _ _ _ _ _ _ t _ Hk) by (lia || done). apply Hu0.
Qed.

(** One operation: the same answer, and the stores stay in step. *)
Lemma dev_sim_step now h o (s : D) d :
  now < h <= now + (DeviceTTL + redisDeviceSafetyMargin) →
  approval_ok o → dev_sim now h s d →
  fst (dev_exec now o s) = fst (dev_exec now o d) ∧
  dev_sim now h (snd (dev_exec now o s)) (snd (dev_exec now o d)).
Proof.
  intros Hh Hok Hs. destruct o as [db ub|u org key|c]; simpl.
  - split; [done|]. apply (dev_sim_create now h db ub s d); [lia|done].
  - destruct Hok as (Hcode & Horg & Hkey). unfold redis_Approve, mem_Approve. rewrite (canonical_norm u Hcode).
    destruct (up_get now (userKey u) s) as (r & s' & Hg). rewrite Hg.
    apply rdb_get_at in Hg as [-> ->]. destruct (proj1 Hs now ltac:(lia)) as [_ Hu]. rewrite Hu.
    destruct (byUser d !! u) as [dc|]; [|by split].
    rewrite (redis_load_sim now h dc s d) by (done || lia).
    destruct (byDevice d !! dc) as [req|] eqn:Hreq; [|by split].
    destruct (up_keep now (codeKey dc) (Marshal (approve_request org key req)) s) as (s' & Hk). rewrite Hk.
    split; [done|]. apply (dev_sim_keep now h dc req _ s s'); [lia|done| |done|done].
    destruct (proj2 Hs _ _ Hreq) as (V1 & V2 & _). by split_and!.
  - unfold redis_Poll, mem_Poll. rewrite (redis_load_sim now h c s d) by (done || lia).
    unfold redis_finish. destruct (byDevice d !! c) as [req|]; [|by split].
    destruct (since_exceeds _ _ _); [|destruct (negb _)]; simpl; (split; [done|]); try done;
      by apply dev_sim_delete.
Qed.

Lemma dev_run_agree l t h (s : D) d :
  h <= t + (DeviceTTL + redisDeviceSafetyMargin) → run_ok t h l → dev_sim t h s d →
  fst (dev_run l s) = fst (dev_run l d).
Proof.
  revert t s d. induction l as [|[now o] l IH]; intros t s d Hh Hok Hs; [done|].
  destruct Hok as (Hnow & Ho & Hok). cbn [dev_run].
  destruct (dev_sim_step now h o s d) as [Ha Hs'];
    [lia|done|by apply (dev_sim_later t); [lia|]|].
  destruct (dev_exec now o s) as [a s1], (dev_exec now o d) as [a' d1]. simpl in *. subst a'.
  specialize (IH now s1 d1 ltac:(lia) Hok Hs').
  destruct (dev_run l s1), (dev_run l d1). simpl in *. by subst.
Qed.

(** C20: the Redis device store is the in-process one seen from many replicas:
    started together, for the fifteen minutes Redis keeps a flow, any sequence of
    creations, approvals with the printed code and polls is answered identically
    by both, provided Redis answers and the approved ids and keys are valid UTF-8. *)
Theorem device_backends_agree l t (s : D) :
  (∀ t' c, t <= t' → rdb_at s t' (codeKey c) = None) →
  (∀ t' u, t <= t' → rdb_at s t' (userKey u) = None) →
  run_ok t (t + (DeviceTTL + redisDeviceSafetyMargin)) l →
  fst (dev_run l s) = fst (dev_run l newDeviceStore).
Proof.
  intros Hc Hu Hok. eapply dev_run_agree; [|done|]; [lia|]. split; [|apply map_Forall_empty].
  intros t' Ht'. split; intros; [rewrite Hc by lia|rewrite Hu by lia]; done.
Qed.
End devices_agree.

(** ** Two replicas polling at once
    The two halves of a poll are separate round trips, so two replicas that both
    read an approved flow before either deletes it both hand out its key. *)
Theorem redis_poll_race `{RedisKvLaws D} `{!RedisUp D} `{DeviceJson} now c req (s : D) :
  rdb_at s now (codeKey c) = Some (Marshal req) → valid_request req → dr_Approved req = true →
  since_exceeds now (dr_CreatedAt req) DeviceTTL = false →
  let '(r1, s1) := redis_load now c s in
  let '(r2, s2) := redis_load now c s1 in
  let '(k1, s3) := redis_finish now c r1 s2 in
  let '(k2, s4) := redis_finish now c r2 s3 in
  k1 = Ok (dr_APIKey req) ∧ k2 = Ok (dr_APIKey req).
Proof.
  intros Hat Hval Happ Hexp.
  assert (Hl : redis_load now c s = (Some req, s)).
  { unfold redis_load. destruct (up_get now (codeKey c) s) as (r & s' & Hg). rewrite Hg.
    apply rdb_get_at in Hg as [-> ->]. by rewrite Hat, Unmarshal_Marshal by done. }
  rewrite Hl, Hl. unfold redis_finish. by rewrite Hexp, Happ.
Qed.

(** ** A concrete Redis with the further commands, and a concrete codec *)
Definition toy_cmd (now : Time) (c : RedisCmd) (s : toy_redis) : toy_redis :=
  match c with
  | CSet k v ttl => {| tr_db := <[k := (v, tr_exp now ttl)]> (tr_db s); tr_log := tr_log s |}
  | CDel k => {| tr_db := delete k (tr_db s); tr_log := tr_log s |}
  end.
#[export] Instance toy_kv : RedisKv toy_redis :=
  {| rdb_SetKeep := λ now k v s,
       match tr_at s now k with
       | Some _ => (Ok tt, {| tr_db := alter (λ e, (v, snd e)) k (tr_db s); tr_log := tr_log s |})
       | None => (Ok tt, {| tr_db := <[k := (v, None)]> (tr_db s); tr_log := tr_log s |})
       end;
     rdb_GetDel := λ now k s, (Ok (tr_at s now k), {| tr_db := delete k (tr_db s); tr_log := tr_log s |});
     rdb_Exists := λ now k s, (Ok (match tr_at s now k with Some _ => 1 | None => 0 end), s);
     rdb_Exec := λ now l s, (Ok tt, foldl (λ s c, toy_cmd now c s) s l) |}.

Lemma toy_cmd_view now t k c s : cmd_view now t k c (tr_at s t k) (tr_at (toy_cmd now c s) t k).
Proof.
  unfold cmd_view. destruct (String.eqb_spec (cmd_key c) k) as [<-|Hne]; destruct c as [k' v ttl|k']; simpl in *.
  - toy_lease now ttl t v.
  - unfold tr_at. simpl. by rewrite lookup_delete_eq.
  - unfold tr_at. simpl. by rewrite lookup_insert_ne.
  - unfold tr_at. simpl. by rewrite lookup_delete_ne.
Qed.

Lemma toy_exec_view now t k l s :
  cmds_view now t k l (tr_at s t k) (tr_at (foldl (λ s c, toy_cmd now c s) s l) t k).
Proof.
  revert s. induction l as [|c l IH]; intros s; simpl; [constructor|].
  econstructor; [apply toy_cmd_view|apply IH].
Qed.

Lemma cmds_view_other now t k l old new :
  cmds_view now t k l old new → k ∉ cmd_key <$> l → new = old.
Proof.
  induction 1 as [old|c l old mid new Hc Hl IH]; intros Hk; [done|]. csimpl in Hk.
  apply not_elem_of_cons in Hk as [Hne Hk]. rewrite IH by done. unfold cmd_view in Hc.
  destruct (String.eqb_spec (cmd_key c) k); [by subst|done].
Qed.

#[export] Instance toy_kv_laws : RedisKvLaws toy_redis.
Proof.
  split.
  - intros now k v s s' t [w Hw] Hs Ht. simpl in *. rewrite Hw in Hs. simplify_eq.
    unfold tr_at in *. simpl. rewrite lookup_alter_eq.
    destruct (tr_db s !! k) as [[x e]|]; [|done]. simpl in *. unfold tr_live in *. simpl in *.
    by destruct e as [x'|]; [destruct (Z.ltb_spec t x')|].
  - intros now k v s res s' t j Hs Hj Ht. simpl in *.
    destruct (tr_at s now k); simplify_eq; unfold tr_at; simpl;
      [by rewrite lookup_alter_ne|by rewrite lookup_insert_ne].
  - intros now k s res s' t Hs Ht. simpl in Hs. simplify_eq. split; [done|].
    simpl. unfold tr_at. simpl. by rewrite lookup_delete_eq.
  - intros now k s res s' t v Hs Ht Hv. simpl in *. simplify_eq. unfold tr_at in Hv. simpl in Hv.
    by rewrite lookup_delete_eq in Hv.
  - intros now k s res s' t j Hs Hj Ht. simpl in *. simplify_eq. unfold tr_at. simpl. by rewrite lookup_delete_ne.
  - intros now k s n s' Hs. simpl in *. simplify_eq. split; [done|].
    destruct (tr_at s' now k); split; done.
  - intros now k s e s' Hs. by simpl in Hs.
  - intros now l s s' t k Hs Ht. simpl in *. simplify_eq. apply toy_exec_view.
  - intros now l s res s' t k Hs Hk Ht. simpl in *. simplify_eq.
    by apply (cmds_view_other now t k l); [apply toy_exec_view|].
  - intros now k v ttl s res s' t w Httl Hs Ht Hw. simpl in *. simplify_eq.
    destruct (tr_live_exp now ttl t v) as [_ Hl]. unfold tr_at in Hw. simpl in Hw.
    rewrite lookup_insert_eq in Hw.
    destruct (tr_live (v, tr_exp now ttl) t) eqn:Hlive; simpl in Hw; [|done].
    simplify_eq. left. split; [done|]. intros ?%Hl. congruence.
  - intros now k v ttl s e s' _ Hs. by simpl in Hs.
Qed.

#[export] Instance toy_up : RedisUp toy_redis.
Proof. split; intros; simpl; try case_match; eauto. Qed.

Fixpoint pos_text (p : positive) : string :=
  match p with
  | xH => EmptyString
  | xO p => String "0" (pos_text p)
  | xI p => String "1" (pos_text p)
  end.
Fixpoint text_pos (s : string) : positive :=
  match s with
  | EmptyString => xH
  | String a r => if Ascii.eqb a "1" then xI (text_pos r) else xO (text_pos r)
  end.
Lemma text_pos_text p : text_pos (pos_text p) = p.
Proof. induction p as [p IH|p IH|]; simpl; by rewrite ?IH. Qed.

#[export] Instance toy_json : DeviceJson.
Proof.
  refine {| Marshal := λ r, pos_text (encode (dr_DeviceCode r, dr_UserCode r, dr_OrgID r, dr_APIKey r,
                                              dr_Approved r, dr_CreatedAt r));
            Unmarshal := λ s, x ← decode (text_pos s);
              match x with (a, b, c, d, e, f) =>
                Some {| dr_DeviceCode := a; dr_UserCode := b; dr_OrgID := c; dr_APIKey := d;
                        dr_Approved := e; dr_CreatedAt := f |} end |}.
  intros [????? ?] _. simpl. by rewrite text_pos_text, countable.decode_encode.
Defined.

Definition ex_flow : list (Time * dev_op) :=
  [(100, DCreate [1; 2] ex_user_bytes); (200, DPoll "0102"); (300, DApprove "BCDF-01T9" "org_1" "tq_live_k");
   (400, DPoll "0102"); (500, DPoll "0102")].

Lemma device_backends_agree_witness :
  fst (dev_run (H := RedisDevices) ex_flow empty_redis) =
    [ACreated (new_request 100 [1; 2] ex_user_bytes); APolled (Err ErrDevicePending); AApproved (Ok tt);
     APolled (Ok "tq_live_k"); APolled (Err ErrDeviceUnknown)].
Proof.
  rewrite (device_backends_agree ex_flow 50 empty_redis); [vm_compute; reflexivity|done|done|].
  vm_compute. repeat split; done.
Defined.

Definition ex_trace : list dev_event :=
  [{| de_at := 100; de_op := DCreate [1; 2] ex_user_bytes; de_answer := ACreated (new_request 100 [1; 2] ex_user_bytes) |};
   {| de_at := 300; de_op := DApprove " bcdf-01t9" "org_1" "tq_live_k"; de_answer := AApproved (Ok tt) |}].
Definition ex_devices : deviceStore :=
  {| byDevice := {["0102" := approve_request "org_1" "tq_live_k" (new_request 100 [1; 2] ex_user_bytes)]};
     byUser := {["BCDF-01T9" := "0102"]} |}.
Lemma ex_history : dev_history ex_trace 300 ex_devices.
Proof.
  apply (dh_step [_] 100 (snd (mem_Create 100 [1; 2] ex_user_bytes newDeviceStore)));
    [|lia|done|reflexivity].
  apply (dh_step [] 0 newDeviceStore); [constructor|lia| |reflexivity].
  intros c _ (e & He & _). by apply not_elem_of_nil in He.
Qed.

Lemma device_login_sound_witness :
  fst (mem_Poll 400 "0102" ex_devices) = Ok "tq_live_k" ∧ ¬ delivered "0102" ex_trace.
Proof.
  split; [reflexivity|].
  apply (device_login_sound ex_trace 300 ex_devices 400 "0102" "tq_live_k" newDeviceStore);
    [apply ex_history|lia|reflexivity].
Defined.

Lemma redis_poll_race_witness :
  let req := approve_request "org_1" "tq_live_k" (new_request 100 [1; 2] ex_user_bytes) in
  let s := snd (rdb_Set 100 (codeKey "0102") (Marshal req) 0 empty_redis) in
  let '(r1, s1) := redis_load 400 "0102" s in
  let '(r2, s2) := redis_load 400 "0102" s1 in
  let '(k1, s3) := redis_finish 400 "0102" r1 s2 in
  let '(k2, s4) := redis_finish 400 "0102" r2 s3 in
  k1 = Ok "tq_live_k" ∧ k2 = Ok "tq_live_k".
Proof.
  cbv zeta. set (req := approve_request _ _ _).
  apply (redis_poll_race (D := toy_redis) 400 "0102" req); [reflexivity|by split_and!|reflexivity..].
Defined.
