(* ===== verification/SessionSafety.v ===== *)
(** Sessions, continued: the interfaces of the revocation list and of the OAuth
    state store with their laws, discharged by both backends, and what clients of
    the interfaces get: a logout is final, a nonce is spent once, a token stands
    for its user until it expires. *)
From S2P Require Import Prelude GoStrings Registry Store Entitle Ingress Login LoginSafety.
From Stdlib Require Import Ascii.

Open Scope Z_scope.

(** * The revocation list as an interface
    [rv_at s t j]: at [t], [j] reads as revoked. *)
Class RevokerLaws (R : Type) `{Revoker R} := {
  rv_at : R → Time → string → bool;
  (** whether a revocation gets through to the store, and a check is answered by it *)
  rv_took : Time → string → Duration → R → bool;
  rv_answers : Time → string → R → bool;
  rv_revoke_at : ∀ now j ttl s t,
    j ≠ "" → 0 < ttl → rv_took now j ttl s = true → now <= t < now + ttl → rv_at (rv_Revoke now j ttl s) t j = true;
  (** one that fails undoes none *)
  rv_revoke_again : ∀ now j ttl s t,
    j ≠ "" → 0 < ttl → now <= t < now + ttl → rv_at s t j = true → rv_at (rv_Revoke now j ttl s) t j = true;
  rv_revoke_other : ∀ now j ttl s t i,
    i ≠ j → now <= t → rv_at (rv_Revoke now j ttl s) t i = rv_at s t i;
  rv_is_at : ∀ now j s, j ≠ "" → rv_answers now j s = true → fst (rv_IsRevoked now j s) = rv_at s now j;
  rv_is_open : ∀ now j s, rv_answers now j s = false → fst (rv_IsRevoked now j s) = false;
  rv_is_keeps : ∀ now j s t i, now <= t → rv_at (snd (rv_IsRevoked now j s)) t i = rv_at s t i;
}.

Definition mem_rv_at (m : memRevoker) (t : Time) (j : string) : bool :=
  match revoked_ m !! j with Some e => negb (After t e) | None => false end.

#[export] Instance MemRevokerLaws : RevokerLaws memRevoker.
Proof.
  assert (Hrev : ∀ now j ttl s t, j ≠ "" → 0 < ttl → now <= t < now + ttl → mem_rv_at (mem_Revoke now j ttl s) t j = true).
  { intros now j ttl s t Hj Httl Ht. unfold mem_Revoke, mem_rv_at.
    apply String.eqb_neq in Hj as ->. destruct (Z.leb_spec ttl 0); [lia|]. simpl.
    rewrite lookup_insert_eq. unfold After. destruct (Z.ltb_spec (now + ttl) t); [lia|done]. }
  refine {| rv_at := mem_rv_at; rv_took := λ _ _ _ _, true; rv_answers := λ _ _ _, true |}; simpl;
    [by auto|by auto|..]; unfold mem_rv_at; simpl.
  - intros now j ttl s t i Hij Ht. unfold mem_Revoke.
    destruct (String.eqb j "" || (ttl <=? 0)); [done|]. simpl. by rewrite lookup_insert_ne.
  - intros now j s Hj _. unfold mem_IsRevoked. apply String.eqb_neq in Hj as ->.
    destruct (revoked_ s !! j) as [e|]; [|done]. by destruct (After now e).
  - done.
  - intros now j s t i Ht. unfold mem_IsRevoked. destruct (String.eqb j ""); [done|].
    destruct (revoked_ s !! j) as [e|] eqn:Hj; [|done].
    destruct (After now e) eqn:Ha; [|done]. simpl. destruct (decide (i = j)) as [->|Hne].
    + rewrite lookup_delete_eq, Hj. unfold After in *. bool_simpl. destruct (Z.ltb_spec e t); [done|lia].
    + by rewrite lookup_delete_ne.
Defined.

(** The reaper drops only what no longer counts. *)
Lemma mem_reap_keeps now m t j : now <= t → mem_rv_at (mem_reap now m) t j = mem_rv_at m t j.
Proof.
  intros Ht. unfold mem_rv_at, mem_reap. simpl. rewrite map_lookup_filter.
  destruct (revoked_ m !! j) as [e|]; [|done]. simpl.
  destruct (decide (After now e = false)) as [Ha|Ha]; [by rewrite option_guard_True|].
  rewrite option_guard_False by done. unfold After in *.
  destruct (Z.ltb_spec e now); [|done]. destruct (Z.ltb_spec e t); [done|lia].
Qed.

Lemma redisRevoke_inj i j : i ≠ j → redisRevokePrefix +:+ i ≠ redisRevokePrefix +:+ j.
Proof. intros Hne ?%(inj _). done. Qed.

Section redis_revoker_laws.
  Context {D : Type} `{RedisKvLaws D}.
  Local Existing Instance RedisRevoker.

Definition redis_rv_at (s : D) (t : Time) (j : string) : bool :=
  bool_decide (is_Some (rdb_at s t (redisRevokePrefix +:+ j))).

#[export] Instance RedisRevokerLaws : RevokerLaws D (H := RedisRevoker).
Proof.
  refine {| rv_at := redis_rv_at;
    rv_took := λ now j ttl s, is_ok (fst (rdb_Set now (redisRevokePrefix +:+ j) "1" ttl s));
    rv_answers := λ now j s, String.eqb j "" || is_ok (fst (rdb_Exists now (redisRevokePrefix +:+ j) s)) |}; unfold redis_rv_at; simpl.
  - intros now j ttl s t Hj Httl Hok Ht. unfold redis_Revoke, swallow.
    apply String.eqb_neq in Hj as ->. destruct (Z.leb_spec ttl 0); [lia|]. simpl.
    destruct (rdb_Set _ _ _ _ _) as [[[]|e] s'] eqn:Hs; [|done]. simpl.
    destruct (rdb_set_at _ _ _ _ _ _ t (Z.lt_le_incl _ _ Httl) Hs) as [Hl _]; [lia|].
    apply bool_decide_eq_true. rewrite Hl; [eauto|right; lia].
  - intros now j ttl s t Hj Httl Ht Hat. unfold redis_Revoke, swallow.
    apply String.eqb_neq in Hj as ->. destruct (Z.leb_spec ttl 0); [lia|]. simpl.
    assert (Hle : leased now ttl t) by (right; lia).
    destruct (rdb_Set _ _ _ _ _) as [[[]|e] s'] eqn:Hs; simpl.
    + destruct (rdb_set_at _ _ _ _ _ _ t (Z.lt_le_incl _ _ Httl) Hs) as [Hl _]; [lia|].
      apply bool_decide_eq_true. rewrite Hl; eauto.
    + destruct (rdb_set_err _ _ _ _ _ _ _ (Z.lt_le_incl _ _ Httl) Hs) as [Hk|Hk].
      * by rewrite Hk by lia.
      * apply bool_decide_eq_true. rewrite Hk by (done || lia). eauto.
  - intros now j ttl s t i Hij Ht. unfold redis_Revoke, swallow.
    destruct (String.eqb j "" || (ttl <=? 0)); [done|].
    destruct (rdb_Set _ _ _ _ _) as [r s'] eqn:Hs. simpl.
    by rewrite (rdb_set_other _ _ _ _ _ _ _ t _ Hs (redisRevoke_inj _ _ Hij) Ht).
  - intros now j s Hj. unfold redis_IsRevoked. apply String.eqb_neq in Hj as ->. simpl.
    destruct (rdb_Exists _ _ _) as [[n|e] s'] eqn:He; [|done]. intros _. simpl.
    apply rdb_exists_at in He as [_ He]. apply eq_true_iff_eq. by rewrite Z.ltb_lt, bool_decide_eq_true.
  - intros now j s. unfold redis_IsRevoked. destruct (String.eqb j ""); [done|]. simpl.
    by destruct (rdb_Exists _ _ _) as [[n|e] s'].
  - intros now j s t i Ht. unfold redis_IsRevoked. destruct (String.eqb j ""); [done|].
    destruct (rdb_Exists _ _ _) as [[n|e] s'] eqn:He; simpl.
    + by apply rdb_exists_at in He as [-> _].
    + by apply rdb_exists_err in He as ->.
Defined.
End redis_revoker_laws.

(** * Tokens *)
Definition claims_expiry (c : Claims) : Time := default 0 (cl_ExpiresAt c).

Section sessions.
  Context `{JwtLaws} (secret : string).

Lemma ParseToken_Ok now tok c : ParseToken secret now tok = Ok c ↔ ParseWithClaims now secret tok = Some c.
Proof. unfold ParseToken. destruct (ParseWithClaims now secret tok); naive_solver. Qed.

Lemma ParseToken_Err now tok e : ParseToken secret now tok = Err e → e = ErrUnauthorized.
Proof. unfold ParseToken. by destruct (ParseWithClaims now secret tok); intros [= <-]. Qed.

(** A minted token reads as its claims exactly until it expires. *)
Lemma parse_minted c e t :
  cl_ExpiresAt c = Some e →
  ParseWithClaims t secret (SignedString secret c) = if t <? e then Some c else None.
Proof.
  intros He. destruct (Z.ltb_spec t e) as [Hlt|Hge]; [by apply (jwt_signed _ _ _ e)|].
  destruct (ParseWithClaims t secret (SignedString secret c)) as [c'|] eqn:Hp; [|done].
  assert (c' = c) as ->.
  { eapply jwt_stable; [apply Hp|]. apply (jwt_signed (e - 1) secret c e He). lia. }
  pose proof (jwt_expired _ _ _ _ _ Hp He). lia.
Qed.

Section revocation.
  Context {R : Type} `{RevokerLaws R}.

(** The requests that reach the revocation list. *)
Inductive sess_op :=
| SRefresh (tok : string) (j1 j2 : list Z)
| SLogout (tok : string).
Definition sess_exec (now : Time) (o : sess_op) (rv : R) : R :=
  match o with
  | SRefresh tok j1 j2 => snd (Refresh secret now j1 j2 tok rv)
  | SLogout tok => RevokeRefresh secret now tok rv
  end.
Fixpoint sess_run (l : list (Time * sess_op)) (rv : R) : R :=
  match l with [] => rv | (now, o) :: l => sess_run l (sess_exec now o rv) end.
Fixpoint times_from (t : Time) (l : list (Time * sess_op)) : Prop :=
  match l with [] => True | (now, _) :: l => t <= now ∧ times_from now l end.
Definition last_time (t : Time) (l : list (Time * sess_op)) : Time :=
  foldl (λ _ x, fst x) t l.

(** [jti] is drawn afresh for every token: those presented that carry it expire
    when it does. *)
Definition op_token (o : sess_op) : string := match o with SRefresh tok _ _ => tok | SLogout tok => tok end.
Definition jti_expires (o : sess_op) (jti : string) (e : Time) : Prop :=
  ∀ t c, ParseWithClaims t secret (op_token o) = Some c → cl_ID c = jti → cl_ExpiresAt c = Some e.

(** Revoked from [now] until [e]. *)
Definition dead_until (rv : R) (now : Time) (jti : string) (e : Time) : Prop :=
  ∀ t, now <= t < e → rv_at rv t jti = true.

Lemma sess_exec_dead now t o rv jti e :
  jti_expires o jti e → t <= now → dead_until rv t jti e → dead_until (sess_exec now o rv) now jti e.
Proof.
  intros Hj Hle Hd u Hu. destruct o as [tok j1 j2|tok]; simpl.
  - unfold Refresh. destruct (ParseToken secret now tok) as [c|?]; [|apply Hd; lia].
    case_match; [apply Hd; lia|]. destruct (rv_IsRevoked now (cl_ID c) rv) as [b rv'] eqn:Hr.
    assert (rv' = snd (rv_IsRevoked now (cl_ID c) rv)) as -> by (by rewrite Hr).
    case_match; simpl; rewrite rv_is_keeps by lia; apply Hd; lia.
  - unfold RevokeRefresh. destruct (ParseToken secret now tok) as [c|?] eqn:Hp; [|apply Hd; lia].
    case_match; [apply Hd; lia|]. destruct (cl_ExpiresAt c) as [e'|] eqn:He; [|apply Hd; lia].
    destruct (Z.ltb_spec 0 (e' - now)); [|apply Hd; lia].
    destruct (decide (jti = cl_ID c)) as [->|Hne].
    + apply ParseToken_Ok in Hp. pose proof (Hj _ _ Hp eq_refl) as He'. simplify_eq.
      bool_simpl. apply rv_revoke_again; [done|lia|lia|apply Hd; lia].
    + rewrite rv_revoke_other by (done || lia). apply Hd. lia.
Qed.

Lemma sess_run_dead l t rv jti e :
  Forall (λ x, jti_expires (snd x) jti e) l → times_from t l → dead_until rv t jti e →
  dead_until (sess_run l rv) (last_time t l) jti e.
Proof.
  intros Hj. revert t rv. induction Hj as [|[now o] l Ho Hj IH]; intros t rv; simpl; [done|].
  intros [Hle Ht] Hd. apply IH; [done|]. by eapply sess_exec_dead.
Qed.

(** C18: a logout is final, as far as the revocation list can be reached.  Once a
    refresh token has been revoked, and the list took it (the one of the process always
    does; the one in Redis when its SET succeeds), no refresh with it succeeds at any later
    time at which the list answers, whatever refreshes and logouts of any sessions happen
    in between and whichever of their calls fail: while the token has not expired its identifier
    reads as revoked, and afterwards it no longer parses, list or no list.  Only when Redis
    does not answer the check is an unexpired token accepted, revoked or not. *)
Theorem logout_is_final now0 j1 j2 user org now rv l t k1 k2 :
  let tok := tk_Refresh (IssueTokens secret now0 j1 j2 user org) in
  let expiry := NewNumericDate (now0 + refreshTTL) in
  let rv' := sess_run l (RevokeRefresh secret now tok rv) in
  newJTI j2 ≠ "" → rv_took now (newJTI j2) (expiry - now) rv = true →
  Forall (λ x, jti_expires (snd x) (newJTI j2) expiry) l →
  times_from now l → last_time now l <= t →
  (t < expiry → rv_answers t (newJTI j2) rv' = true → fst (Refresh secret t k1 k2 tok rv') = Err ErrUnauthorized) ∧
  (expiry <= t → fst (Refresh secret t k1 k2 tok rv') = Err ErrUnauthorized) ∧
  (t < expiry → rv_answers t (newJTI j2) rv' = false →
     fst (Refresh secret t k1 k2 tok rv') = Ok (IssueTokens secret t k1 k2 user org)).
Proof.
  intros tok e rv' Hj Htook Hexp Hl Ht. set (c := mk_claims now0 j2 user org "refresh" refreshTTL).
  assert (Hparse : ∀ u, ParseToken secret u tok = if u <? e then Ok c else Err ErrUnauthorized).
  { intros u. unfold ParseToken, tok, IssueTokens, tk_Refresh, sign. rewrite (parse_minted c e) by done. by destruct (u <? e). }
  assert (Hge : now <= last_time now l).
  { clear -Hl. revert now Hl. induction l as [|[u o] l IH]; intros now; simpl; [lia|].
    intros [? ?%IH]. simpl in *. lia. }
  assert (Hdead : dead_until (RevokeRefresh secret now tok rv) now (newJTI j2) e).
  { intros u Hu. unfold RevokeRefresh. rewrite Hparse. destruct (Z.ltb_spec now e); [|lia].
    change (cl_Kind c) with "refresh". change (cl_ID c) with (newJTI j2). change (cl_ExpiresAt c) with (Some e).
    apply String.eqb_neq in Hj as Hj'. rewrite Hj'. simpl.
    destruct (Z.ltb_spec 0 (e - now)); [|lia]. apply rv_revoke_at; [done|lia|done|lia]. }
  pose proof (λ u Hu, sess_run_dead l now _ _ _ Hexp Hl Hdead u Hu) as Hrv. fold rv' in Hrv.
  unfold Refresh. rewrite Hparse. change (cl_Kind c) with "refresh". change (cl_ID c) with (newJTI j2).
  split_and!.
  - intros Hlt Hans. destruct (Z.ltb_spec t e); [|lia]. cbn [negb String.eqb Ascii.eqb Bool.eqb].
    pose proof (rv_is_at t (newJTI j2) rv' Hj Hans) as His. rewrite Hrv in His by lia.
    destruct (rv_IsRevoked t _ _) as [b r]. simpl in His. by subst b.
  - intros Hle. by destruct (Z.ltb_spec t e); [lia|].
  - intros Hlt Hans. destruct (Z.ltb_spec t e); [|lia]. cbn [negb String.eqb Ascii.eqb Bool.eqb].
    pose proof (rv_is_open t (newJTI j2) rv' Hans) as His.
    destruct (rv_IsRevoked t _ _) as [b r]. simpl in His. by subst b.
Qed.
End revocation.

(** What a minted pair is worth. *)
Lemma jwt_token_shape c :
  SignedString secret c ≠ "" ∧ HasPrefix (SignedString secret c) "tq_" = false ∧
  TrimSpace (SignedString secret c) = SignedString secret c.
Proof.
  destruct (jwt_compact secret c) as [Hp Hs]. apply HasPrefix_spec in Hp as [r Hr].
  rewrite TrimSpace_id by done. rewrite Hr. done.
Qed.

Definition bearer (tok : string) : Header := {["Authorization" := ["Bearer " +:+ tok]]}.

Lemma bearerToken_bearer tok : bearerToken (bearer tok) = TrimSpace tok.
Proof.
  unfold bearerToken, bearer, Get. rewrite lookup_singleton_eq, ToLower_app.
  change (ToLower "Bearer ") with "bearer ". rewrite HasPrefix_app.
  change 7%nat with (String.length "Bearer "). by rewrite drop_string_app.
Qed.

(** Session tokens.  The access token of a pair authenticates as its user
    and org, and touches nothing, exactly until its hour (in whole seconds) is
    over; the refresh token is no bearer credential at any time; and the access
    token cannot be traded for a new pair. *)
Theorem session_tokens {R} `{RevokerLaws R} IDKey now j1 j2 user org t m (rv : R) k1 k2 :
  let p := IssueTokens secret now j1 j2 user org in
  Middleware secret IDKey t (bearer (tk_Access p)) m =
    (if t <? NewNumericDate (now + accessTTL)
     then Some {| pr_UserID := user; pr_OrgID := org; pr_ViaAPIKey := false; pr_APIKeyID := "" |} else None, m) ∧
  Middleware secret IDKey t (bearer (tk_Refresh p)) m = (None, m) ∧
  Refresh secret t k1 k2 (tk_Access p) rv = (Err ErrUnauthorized, rv).
Proof.
  simpl. unfold Middleware, Refresh, ParseToken, sign. rewrite !bearerToken_bearer.
  set (ca := mk_claims now j1 user org "access" accessTTL).
  set (cr := mk_claims now j2 user org "refresh" refreshTTL).
  destruct (jwt_token_shape ca) as (Ha1 & Ha2 & ->), (jwt_token_shape cr) as (Hr1 & Hr2 & ->).
  apply String.eqb_neq in Ha1, Hr1. rewrite Ha1, Ha2, Hr1, Hr2.
  rewrite (parse_minted ca (NewNumericDate (now + accessTTL))) by done.
  rewrite (parse_minted cr (NewNumericDate (now + refreshTTL))) by done.
  split_and!; [destruct (t <? _)|destruct (t <? NewNumericDate (now + refreshTTL))|
    destruct (t <? NewNumericDate (now + accessTTL))]; done.
Qed.
End sessions.

(** * State nonces as an interface
    [st_at s t n]: a check of [n] at [t] would succeed.  The laws hold of a
    backend that may fail: they bound what can succeed. *)
Class StateLaws (S : Type) `{oauthStateStore S} := {
  st_at : S → Time → string → bool;
  st_check_true : ∀ now n s s' t,
    st_Check now n s = (true, s') → now <= t → st_at s now n = true ∧ st_at s' t n = false;
  st_check_any : ∀ now n s r s' t i,
    st_Check now n s = (r, s') → now <= t → st_at s' t i = true → st_at s t i = true;
  st_new_any : ∀ now b s n s' t i,
    st_New now b s = (n, s') → now <= t → st_at s' t i = true →
    (i = n ∧ t <= now + oauthStateTTL) ∨ st_at s t i = true;
}.

Definition mem_st_at (m : memStateStore) (t : Time) (n : string) : bool :=
  match states m !! n with Some e => Before t e | None => false end.

#[export] Instance MemStateLaws : StateLaws memStateStore.
Proof.
  refine {| st_at := mem_st_at |}; unfold mem_st_at; simpl.
  - intros now n s s' t Hc Ht. unfold mem_Check in Hc. destruct (String.eqb n ""); [done|].
    destruct (states s !! n) as [e|]; simplify_eq. split; [done|]. simpl. by rewrite lookup_delete_eq.
  - intros now n s r s' t i Hc Ht. unfold mem_Check in Hc. destruct (String.eqb n ""); [by simplify_eq|].
    assert (s' = {| states := delete n (states s) |}) as -> by (by case_match; simplify_eq). simpl.
    destruct (decide (i = n)) as [->|Hne]; [by rewrite lookup_delete_eq|by rewrite lookup_delete_ne].
  - intros now b s n s' t i Hn Ht. unfold mem_New in Hn. simplify_eq. simpl.
    destruct (decide (i = newOAuthStateNonce b)) as [->|Hne].
    + rewrite lookup_insert_eq. unfold Before. intros ?. bool_simpl. left. split; [done|lia].
    + rewrite lookup_insert_ne by done. by right.
Defined.

Section redis_state_laws.
  Context {D : Type} `{RedisKvLaws D}.
  Local Existing Instance RedisStates.

Definition redis_st_at (s : D) (t : Time) (n : string) : bool :=
  bool_decide (is_Some (rdb_at s t (redisOAuthStatePrefix +:+ n))).

Lemma state_key_ne (i n : string) : i ≠ n → redisOAuthStatePrefix +:+ i ≠ redisOAuthStatePrefix +:+ n.
Proof. intros Hne ?%(inj _). done. Qed.

#[export] Instance RedisStateLaws : StateLaws D (H := RedisStates).
Proof.
  refine {| st_at := redis_st_at |}; unfold redis_st_at; simpl.
  - intros now n s s' t Hc Ht. unfold redis_Check in Hc. destruct (String.eqb n ""); [done|].
    destruct (rdb_GetDel _ _ _) as [[[v|]|e] s''] eqn:Hg; simplify_eq.
    destruct (rdb_getdel_at _ _ _ _ _ t Hg Ht) as [Hv Hn]. rewrite <- Hv, Hn.
    by split; [apply bool_decide_eq_true; eauto|].
  - intros now n s r s' t i Hc Ht. unfold redis_Check in Hc. destruct (String.eqb n ""); [by simplify_eq|].
    destruct (rdb_GetDel _ _ _) as [r' s''] eqn:Hg.
    assert (s'' = s') as -> by (by repeat case_match; simplify_eq).
    rewrite !bool_decide_eq_true. destruct (decide (i = n)) as [->|Hne].
    + intros [v Hv]. exists v. by eapply rdb_getdel_any.
    + by rewrite (rdb_getdel_other _ _ _ _ _ t _ Hg (state_key_ne _ _ Hne) Ht).
  - intros now b s n s' t i Hn Ht. unfold redis_New, swallow in Hn. simplify_eq.
    set (n := newOAuthStateNonce b). destruct (rdb_Set _ _ _ _ _) as [r s''] eqn:Hs. simpl.
    rewrite !bool_decide_eq_true. destruct (decide (i = n)) as [->|Hne].
    + intros [v Hv].
      destruct (rdb_set_any now (redisOAuthStatePrefix +:+ n) "1" oauthStateTTL s r s'' t v)
        as [[-> Hl]|Hold]; [done..| |right; eauto].
      left. split; [done|]. unfold lapsed in Hl. apply Z.nlt_ge. intros ?. apply Hl. by split.
    + rewrite (rdb_set_other _ _ _ _ _ _ _ t _ Hs (state_key_ne _ _ Hne) Ht). by right.
Defined.
End redis_state_laws.

(** Histories of a state store. *)
Inductive st_event := ENew (at_ : Time) (n : string) | ECheck (at_ : Time) (n : string) (ok : bool).

Section nonces.
  Context {S : Type} `{StateLaws S}.

Inductive st_history (s0 : S) : list st_event → Time → S → Prop :=
| sh_start now : st_history s0 [] now s0
| sh_new tr now s now' b n s' :
    st_history s0 tr now s → now <= now' → st_New now' b s = (n, s') →
    st_history s0 (ENew now' n :: tr) now' s'
| sh_check tr now s now' n r s' :
    st_history s0 tr now s → now <= now' → st_Check now' n s = (r, s') →
    st_history s0 (ECheck now' n r :: tr) now' s'.

Fixpoint issued (n : string) (tr : list st_event) : nat :=
  match tr with
  | [] => 0
  | ENew _ m :: tr => (if String.eqb m n then 1 else 0) + issued n tr
  | _ :: tr => issued n tr
  end.
Fixpoint spent (n : string) (tr : list st_event) : nat :=
  match tr with
  | [] => 0
  | ECheck _ m true :: tr => (if String.eqb m n then 1 else 0) + spent n tr
  | _ :: tr => spent n tr
  end.

(** At most one check per issue has succeeded, and if one can still succeed then
    strictly fewer have, and the issue is recent. *)
Record nonce_inv (n : string) (tr : list st_event) (now : Time) (s : S) : Prop := {
  ni_le : (spent n tr <= issued n tr)%nat;
  ni_lt : ∀ t, now <= t → st_at s t n = true → (spent n tr < issued n tr)%nat;
  ni_issue : ∀ t, now <= t → st_at s t n = true → ∃ t0, ENew t0 n ∈ tr ∧ t0 <= t <= t0 + oauthStateTTL;
}.

Lemma nonce_history n s0 tr now s :
  (∀ t, st_at s0 t n = false) → st_history s0 tr now s → nonce_inv n tr now s.
Proof.
  intros Hz. induction 1 as [now|tr now s now' b m s' Hh [I1 I2 I3] Hle Hn|tr now s now' m r s' Hh [I1 I2 I3] Hle Hc].
  - split; [done|..]; intros t _ Ht; by rewrite Hz in Ht.
  - split; simpl.
    + destruct (String.eqb m n); lia.
    + intros t Ht Hat. destruct (String.eqb_spec m n) as [?|Hmn]; [lia|].
      destruct (st_new_any _ _ _ _ _ t n Hn Ht Hat) as [[? _]|Hold]; [congruence|]. apply (I2 t); [lia|done].
    + intros t Ht Hat. destruct (st_new_any _ _ _ _ _ t n Hn Ht Hat) as [[-> Hl]|Hold].
      * exists now'. split; [left|lia].
      * destruct (I3 t) as (t0 & Hin & Hb); [lia|done|]. exists t0. split; [by right|done].
  - split.
    + destruct r; simpl; [|done]. destruct (String.eqb_spec m n) as [->|]; [|done].
      destruct (st_check_true now' n s s' now' Hc) as [Hat _]; [lia|]. pose proof (I2 now' Hle Hat). lia.
    + intros t Ht Hat. pose proof (st_check_any _ _ _ _ _ t n Hc Ht Hat) as Hold.
      pose proof (I2 t ltac:(lia) Hold). destruct r; simpl; [|done].
      destruct (String.eqb_spec m n) as [->|]; [|done].
      destruct (st_check_true _ _ _ _ t Hc Ht) as [_ Hno]. congruence.
    + intros t Ht Hat. destruct (I3 t) as (t0 & Hin & Hb); [lia|by eapply st_check_any|].
      exists t0. split; [by right|done].
Qed.

Definition st_time (e : st_event) : Time := match e with ENew t _ | ECheck t _ _ => t end.
(** A nonce that is not live stays so until it is issued again. *)
Lemma spent_stays n t0 s0 tr now s :
  (∀ t, t0 <= t → st_at s0 t n = false) → st_history s0 tr now s → Forall (λ e, t0 <= st_time e) tr → issued n tr = 0%nat →
  ∀ t, t0 <= t → now <= t → st_at s t n = false.
Proof.
  intros Hz. induction 1 as [now|tr now s now' b m s' Hh IH Hle Hn|tr now s now' m r s' Hh IH Hle Hc]; intros Hf Hi t Ht Hnow.
  - by apply Hz.
  - inversion_clear Hf as [|? ? He Hf']. simpl in *. destruct (st_at s' t n) eqn:Hat; [|done]. exfalso.
    destruct (st_new_any _ _ _ _ _ t n Hn Hnow Hat) as [[-> _]|Hold]; [by rewrite String.eqb_refl in Hi|].
    rewrite (IH Hf') in Hold; [done|destruct (String.eqb m n); simpl in Hi; lia|done|lia].
  - inversion_clear Hf as [|? ? He Hf']. simpl in *. destruct (st_at s' t n) eqn:Hat; [|done]. exfalso.
    pose proof (st_check_any _ _ _ _ _ t n Hc Hnow Hat) as Hold. rewrite (IH Hf' Hi) in Hold; [done|done|lia].
Qed.
Lemma unlive_refused now n s : st_at s now n = false → fst (st_Check now n s) = false.
Proof.
  intros Hn. destruct (st_Check now n s) as [[] s'] eqn:Hc; [|done].
  destruct (st_check_true now n s s' now Hc) as [Hat _]; [lia|congruence].
Qed.

(** State nonces are single-use and short-lived, over either backend and
    even when Redis fails: in any history, at most as many checks of a nonce
    succeed as times it was issued (a random nonce is issued once), and a check
    that succeeds follows an issue of that nonce no more than ten minutes before. *)
Theorem oauth_state_single_use s0 tr now s n now' s' :
  (∀ t, st_at s0 t n = false) → st_history s0 tr now s → now <= now' →
  (spent n tr <= issued n tr)%nat ∧
  (st_Check now' n s = (true, s') →
     (spent n tr < issued n tr)%nat ∧ ∃ t0, ENew t0 n ∈ tr ∧ t0 <= now' <= t0 + oauthStateTTL).
Proof.
  intros Hz Hh Hle. destruct (nonce_history n _ _ _ _ Hz Hh) as [I1 I2 I3]. split; [done|].
  intros Hc. destruct (st_check_true _ _ _ _ now' Hc) as [Hat _]; [lia|]. eauto.
Qed.
End nonces.

(** * Witnesses *)

(** A concrete signer: the claims in the clear, keyed by the secret. *)
Definition claims_tuple (c : Claims) :=
  (cl_OrgID c, cl_Kind c, cl_ID c, cl_Subject c, cl_IssuedAt c, cl_ExpiresAt c, cl_Issuer c).
#[export] Instance toy_jwt : Jwt :=
  {| SignedString := λ secret c, "eyJ" +:+ pos_text (encode (secret, claims_tuple c));
     ParseWithClaims := λ now secret tok,
       if negb (HasPrefix tok "eyJ") then None
       else match decode (text_pos (drop_string 3 tok)) with
            | Some (s, (org, kind, id, sub, iat, exp, iss)) =>
                if negb (String.eqb s secret) then None
                else if match exp with Some e => e <=? now | None => false end then None
                else Some {| cl_OrgID := org; cl_Kind := kind; cl_ID := id; cl_Subject := sub;
                             cl_IssuedAt := iat; cl_ExpiresAt := exp; cl_Issuer := iss |}
            | None => None
            end |}.

Lemma toy_parse now secret tok c :
  ParseWithClaims now secret tok = Some c →
  decode (text_pos (drop_string 3 tok)) = Some (secret, claims_tuple c) ∧
  (∀ e, cl_ExpiresAt c = Some e → now < e).
Proof.
  cbn [ParseWithClaims toy_jwt]. destruct (negb _); [done|].
  destruct (decode (text_pos (drop_string 3 tok))) as [[s [[[[[[org kind] id] sub] iat] exp] iss]]|]; [|done].
  destruct (String.eqb_spec s secret) as [->|]; [|done]. cbn [negb].
  destruct exp as [e|]; [destruct (Z.leb_spec e now); [done|]|]; intros [= <-]; (split; [done|]).
  - intros e' [= <-]. done.
  - by intros e'.
Qed.

Lemma pos_text_no_space p : all_chars no_space (pos_text p) = true.
Proof. induction p as [p IH|p IH|]; simpl; by rewrite ?IH. Qed.

#[export] Instance toy_jwt_laws : JwtLaws.
Proof.
  split.
  - intros now secret c e He Hlt. cbn [ParseWithClaims SignedString toy_jwt]. rewrite HasPrefix_app.
    change 3%nat with (String.length "eyJ"). rewrite drop_string_app, text_pos_text, countable.decode_encode.
    unfold claims_tuple. rewrite String.eqb_refl, He. cbn [negb].
    destruct (Z.leb_spec e now); [lia|]. rewrite <- He. by destruct c.
  - intros t1 t2 secret tok c1 c2 [H1 _]%toy_parse [H2 _]%toy_parse. rewrite H1 in H2.
    destruct c1, c2. unfold claims_tuple in H2. simpl in H2. by simplify_eq.
  - intros now secret tok c e [_ Hx]%toy_parse He. by apply Hx.
  - intros secret c. cbn [SignedString toy_jwt]. split; [apply HasPrefix_app|].
    rewrite all_chars_app, pos_text_no_space. done.
Qed.

Definition ex_pair : Tokens := IssueTokens "secret" 1700000000 [1] [2] "user_1" "org_1".
Definition ex_other : Tokens := IssueTokens "secret" 1700000000 [3] [4] "user_2" "org_2".
Definition ex_ops : list (Time * sess_op) :=
  [(1800000000, SRefresh (tk_Refresh ex_other) [5] [6]); (1900000000, SLogout (tk_Refresh ex_other))].

Lemma logout_is_final_witness :
  fst (Refresh "secret" 1700000000 [7] [8] (tk_Refresh ex_pair) newMemRevoker) =
    Ok (IssueTokens "secret" 1700000000 [7] [8] "user_1" "org_1") ∧
  fst (Refresh "secret" 2000000000 [7] [8] (tk_Refresh ex_pair)
    (sess_run "secret" ex_ops (RevokeRefresh "secret" 1750000000 (tk_Refresh ex_pair) newMemRevoker))) =
    Err ErrUnauthorized.
Proof.
  split; [vm_compute; reflexivity|].
  refine (proj1 (logout_is_final "secret" 1700000000 [1] [2] "user_1" "org_1" 1750000000 newMemRevoker ex_ops
    2000000000 [7] [8] _ _ _ _ _) _ _); [done|done| |done|done|done|done].
  repeat constructor; intros t c [Hp _]%toy_parse Hid; vm_compute in Hp, Hid;
    destruct c; simpl in *; simplify_eq.
Defined.

Lemma session_tokens_witness :
  Middleware "secret" (λ _ _ _ _ _ _, []) 1800000000 (bearer (tk_Refresh ex_pair)) NewMemStore = (None, NewMemStore).
Proof.
  apply (session_tokens "secret" (λ _ _ _ _ _ _, []) 1700000000 [1] [2] "user_1" "org_1" 1800000000 NewMemStore
           newMemRevoker [] []).
Defined.

Lemma ex_states : st_history newMemStateStore [ENew 100 "0a0b"] 100 (snd (mem_New 100 [10; 11] newMemStateStore)).
Proof. eapply (sh_new _ [] 0 _ 100 [10; 11]); [constructor|lia|reflexivity]. Qed.

Lemma oauth_state_single_use_witness :
  fst (mem_Check 200 "0a0b" (snd (mem_New 100 [10; 11] newMemStateStore))) = true ∧
  ∃ t0, ENew t0 "0a0b" ∈ [ENew 100 "0a0b"] ∧ t0 <= 200 <= t0 + oauthStateTTL.
Proof.
  split; [reflexivity|].
  apply (oauth_state_single_use newMemStateStore [ENew 100 "0a0b"] 100
    (snd (mem_New 100 [10; 11] newMemStateStore)) "0a0b" 200
    (snd (mem_Check 200 "0a0b" (snd (mem_New 100 [10; 11] newMemStateStore)))));
    [done|apply ex_states|lia|reflexivity].
Defined.
