(* ===== verification/ApiConfig.v ===== *)
(** The control plane's configuration (internal/api/config.go) and what its
    handlers answer with: JSON, responses and cookies (internal/api/server.go),
    with the JSON form of the stored types (internal/api/store/store.go,
    internal/billing/plans.go). *)
From S2P Require Import Prelude GoStrings EdgeConfig Store Billing Login.
From Stdlib Require Import Ascii.

Open Scope Z_scope.

(** * Configuration *)
Definition devJWTSecret : string := "dev-insecure-secret-change-me".
Definition devInternalToken : string := "dev-internal-token".
Definition minJWTSecretLen : nat := 32.

Record ApiConfig := {
  ac_Env : string; ac_Addr : string; ac_MetricsAddr : string; ac_DatabaseURL : string; ac_RedisURL : string;
  ac_BaseDomain : string; ac_DBMaxOpenConns : Z; ac_DBMaxIdleConns : Z; ac_PublicURL : string;
  ac_AppURL : string; ac_QRURL : string; ac_JWTSecret : string; ac_InternalToken : string;
  ac_GitHubClientID : string; ac_GitHubClientSecret : string; ac_GoogleClientID : string;
  ac_GoogleClientSecret : string; ac_AdminUser : string; ac_AdminPassword : string; ac_DevAuth : bool;
  ac_TrustProxy : bool; ac_GeoIPHeader : string; ac_GeoIPAPI : string; ac_Regions : string;
}.

Definition IsProduction (c : ApiConfig) : bool := EqualFold (ac_Env c) "production".

Definition api_DefaultConfig : ApiConfig :=
  {| ac_Env := "development"; ac_Addr := ":8080"; ac_MetricsAddr := ":9090"; ac_DatabaseURL := "";
     ac_RedisURL := ""; ac_BaseDomain := "lvh.me"; ac_DBMaxOpenConns := 20; ac_DBMaxIdleConns := 20;
     ac_PublicURL := "http://localhost:8080"; ac_AppURL := ""; ac_QRURL := ""; ac_JWTSecret := devJWTSecret;
     ac_InternalToken := devInternalToken; ac_GitHubClientID := ""; ac_GitHubClientSecret := "";
     ac_GoogleClientID := ""; ac_GoogleClientSecret := ""; ac_AdminUser := ""; ac_AdminPassword := "";
     ac_DevAuth := true; ac_TrustProxy := false; ac_GeoIPHeader := ""; ac_GeoIPAPI := ""; ac_Regions := "" |}.

(** [env] and [envInt] are the edge's [envStr] and [envInt]. *)
Definition truthy (v : string) : bool := bool_decide (ToLower (TrimSpace v) ∈ ["1"; "true"; "yes"; "on"]).

(** The origin of a dashboard host, by default on the base domain. *)
Definition default_origin (url sub base : string) : string :=
  if String.eqb url "" && negb (String.eqb base "") && negb (String.eqb base "lvh.me") &&
     negb (String.eqb base "localhost")
  then "https://" +:+ sub +:+ "." +:+ base else url.

Definition api_overlay (env : Environ) : ApiConfig :=
  let c := api_DefaultConfig in
  let e := envStr env "TRQSH_ENV" (ac_Env c) in
  let base := envStr env "TRQSH_BASE_DOMAIN" (ac_BaseDomain c) in
  {| ac_Env := e;
     ac_Addr := envStr env "TRQSH_API_ADDR" (ac_Addr c);
     ac_MetricsAddr := envStr env "TRQSH_METRICS_ADDR" (ac_MetricsAddr c);
     ac_DatabaseURL := envStr env "TRQSH_DATABASE_URL" (ac_DatabaseURL c);
     ac_RedisURL := envStr env "TRQSH_REDIS_URL" (ac_RedisURL c);
     ac_BaseDomain := base;
     ac_DBMaxOpenConns := envInt env "TRQSH_DB_MAX_OPEN_CONNS" (ac_DBMaxOpenConns c);
     ac_DBMaxIdleConns := envInt env "TRQSH_DB_MAX_IDLE_CONNS" (ac_DBMaxIdleConns c);
     ac_PublicURL := envStr env "TRQSH_API_PUBLIC_URL" (ac_PublicURL c);
     ac_AppURL := default_origin (envStr env "TRQSH_APP_URL" (ac_AppURL c)) "app" base;
     ac_QRURL := default_origin (envStr env "TRQSH_QR_URL" (ac_QRURL c)) "qr" base;
     ac_JWTSecret := envStr env "TRQSH_JWT_SECRET" (ac_JWTSecret c);
     ac_InternalToken := envStr env "TRQSH_INTERNAL_TOKEN" (ac_InternalToken c);
     ac_GitHubClientID := envStr env "TRQSH_GITHUB_CLIENT_ID" (ac_GitHubClientID c);
     ac_GitHubClientSecret := envStr env "TRQSH_GITHUB_CLIENT_SECRET" (ac_GitHubClientSecret c);
     ac_GoogleClientID := envStr env "TRQSH_GOOGLE_CLIENT_ID" (ac_GoogleClientID c);
     ac_GoogleClientSecret := envStr env "TRQSH_GOOGLE_CLIENT_SECRET" (ac_GoogleClientSecret c);
     ac_AdminUser := envStr env "TRQSH_ADMIN_USER" (ac_AdminUser c);
     ac_AdminPassword := envStr env "TRQSH_ADMIN_PASSWORD" (ac_AdminPassword c);
     ac_DevAuth := match env !! "TRQSH_DEV_AUTH" with
                   | Some v => truthy v
                   | None => if EqualFold e "production" then false else ac_DevAuth c
                   end;
     ac_TrustProxy := match env !! "TRQSH_TRUST_PROXY" with Some v => truthy v | None => ac_TrustProxy c end;
     ac_GeoIPHeader := envStr env "TRQSH_GEOIP_HEADER" (ac_GeoIPHeader c);
     ac_GeoIPAPI := envStr env "TRQSH_GEOIP_API" (ac_GeoIPAPI c);
     ac_Regions := envStr env "TRQSH_REGIONS" (ac_Regions c) |}.

Definition api_problems (c : ApiConfig) : list string :=
  (if String.eqb (ac_JWTSecret c) devJWTSecret
   then ["TRQSH_JWT_SECRET is the insecure dev default — set a strong random value"] else []) ++
  (if (String.length (ac_JWTSecret c) <? minJWTSecretLen)%nat
   then ["TRQSH_JWT_SECRET must be at least 32 characters"] else []) ++
  (if String.eqb (ac_InternalToken c) "" || String.eqb (ac_InternalToken c) devInternalToken
   then ["TRQSH_INTERNAL_TOKEN must be set to a strong non-default value"] else []) ++
  (if ac_DevAuth c then ["TRQSH_DEV_AUTH must be disabled in production (password-less auth)"] else []) ++
  (if String.eqb (ac_DatabaseURL c) ""
   then ["TRQSH_DATABASE_URL must be set — the in-memory store is dev-only"] else []) ++
  (if negb (HasPrefix (ac_PublicURL c) "https://")
   then ["TRQSH_API_PUBLIC_URL must use https:// in production"] else []).

Definition validate (c : ApiConfig) : option string :=
  if String.eqb (ac_JWTSecret c) "" then Some "api: TRQSH_JWT_SECRET must be set"
  else if negb (IsProduction c) then None
  else match api_problems c with
       | [] => None
       | ps => Some ("api: insecure production configuration:
  - " +:+ Join "
  - " ps)
       end.

Definition api_LoadConfig (env : Environ) : result string ApiConfig :=
  let c := api_overlay env in match validate c with None => Ok c | Some e => Err e end.

(** * JSON
    A nil slice, which Go prints as null, is an empty array here; a float64 is its
    decimal text. *)
Inductive Json :=
| JNull
| JBool (b : bool)
| JNum (n : Z)
| JFloat (text : string)
| JStr (s : string)
| JTime (t : Time)
| JArr (l : list Json)
| JObj (l : list (string * Json)).

Definition JOptTime (t : option Time) : Json := match t with Some t => JTime t | None => JNull end.
(** [omitempty]. *)
Definition omit_str (k v : string) : list (string * Json) := if String.eqb v "" then [] else [(k, JStr v)].
Definition omit_num (k : string) (v : Z) : list (string * Json) := if v =? 0 then [] else [(k, JNum v)].
Definition omit_time (k : string) (v : option Time) : list (string * Json) :=
  match v with Some t => [(k, JTime t)] | None => [] end.

Definition user_json (u : User) : Json :=
  JObj ([("id", JStr (us_ID u)); ("email", JStr (us_Email u)); ("name", JStr (us_Name u))] ++
        omit_str "avatar_url" (us_AvatarURL u) ++ omit_str "oauth_provider" (us_OAuthProvider u) ++
        [("created_at", JTime (us_CreatedAt u))]).
Definition org_json (o : Org) : Json :=
  JObj ([("id", JStr (og_ID o)); ("name", JStr (og_Name o)); ("plan", JStr (og_Plan o))] ++
        omit_str "stripe_customer_id" (og_StripeCustomerID o) ++ [("created_at", JTime (og_CreatedAt o))] ++
        omit_time "plan_expires_at" (og_PlanExpiresAt o)).
Definition subdomain_json (s : ReservedSubdomain) : Json :=
  JObj [("id", JStr (rs_ID s)); ("org_id", JStr (rs_OrgID s)); ("subdomain", JStr (rs_Subdomain s));
        ("created_at", JTime (rs_CreatedAt s))].
Definition domain_json (d : CustomDomain) : Json :=
  JObj ([("id", JStr (cd_ID d)); ("org_id", JStr (cd_OrgID d)); ("domain", JStr (cd_Domain d));
         ("verify_token", JStr (cd_VerifyToken d))] ++ omit_time "verified_at" (cd_VerifiedAt d) ++
        [("cert_status", JStr (cd_CertStatus d)); ("created_at", JTime (cd_CreatedAt d))]).
Definition usage_json (u : UsageRecord) : Json :=
  JObj [("org_id", JStr (ur_OrgID u)); ("tunnel_id", JStr (ur_TunnelID u)); ("bytes_in", JNum (ur_BytesIn u));
        ("bytes_out", JNum (ur_BytesOut u)); ("requests", JNum (ur_Requests u));
        ("window_start", JTime (ur_WindowStart u)); ("window_end", JTime (ur_WindowEnd u))].
Definition tunnel_json (s : TunnelSession) : Json :=
  JObj ([("id", JStr (ts_ID s)); ("org_id", JStr (ts_OrgID s)); ("edge_id", JStr (ts_EdgeID s));
         ("session_id", JStr (ts_SessionID s)); ("tunnel_id", JStr (ts_TunnelID s)); ("type", JStr (ts_Type s));
         ("public_url", JStr (ts_PublicURL s))] ++ omit_str "host" (ts_Host s) ++ omit_num "port" (ts_Port s) ++
        omit_str "region" (ts_Region s) ++ omit_str "client_ip" (ts_ClientIP s) ++
        omit_str "country" (ts_Country s) ++ omit_str "city" (ts_City s) ++
        [("bytes_in", JNum (ts_BytesIn s)); ("bytes_out", JNum (ts_BytesOut s));
         ("requests", JNum (ts_Requests s)); ("status", JStr (ts_Status s));
         ("started_at", JTime (ts_StartedAt s))] ++ omit_time "ended_at" (ts_EndedAt s)).
Definition bucket_json (b : UsageBucket) : Json :=
  JObj [("start", JTime (ub_Start b)); ("bytes_in", JNum (ub_BytesIn b)); ("bytes_out", JNum (ub_BytesOut b));
        ("requests", JNum (ub_Requests b))].
Definition tokens_json (t : Tokens) : Json :=
  JObj [("access_token", JStr (tk_Access t)); ("refresh_token", JStr (tk_Refresh t));
        ("expires_in", JNum (tk_ExpiresIn t)); ("token_type", JStr (tk_TokenType t))].

(** * Responses *)
Record Cookie := {
  ck_Name : string; ck_Value : string; ck_Path : string; ck_Domain : string; ck_HttpOnly : bool;
  ck_Secure : bool; ck_MaxAge : Z;
}.

Record Response := { rs_Status : Z; rs_Body : Json; rs_Cookies : list Cookie; rs_Location : string }.

Definition writeJSON (status : Z) (v : Json) : Response :=
  {| rs_Status := status; rs_Body := v; rs_Cookies := []; rs_Location := "" |}.
Definition writeError (status : Z) (msg : string) : Response := writeJSON status (JObj [("error", JStr msg)]).
Definition with_cookies (cs : list Cookie) (r : Response) : Response :=
  {| rs_Status := rs_Status r; rs_Body := rs_Body r; rs_Cookies := cs ++ rs_Cookies r; rs_Location := rs_Location r |}.
Definition no_content (status : Z) : Response := writeJSON status JNull.
Definition redirect (dest : string) : Response :=
  {| rs_Status := 302; rs_Body := JNull; rs_Cookies := []; rs_Location := dest |}.

(** [decode]: [None] is a body that does not parse. *)
Definition decode_then {A S} (body : option A) (k : A → S → Response * S) (s : S) : Response * S :=
  match body with
  | None => (writeError 400 "invalid request body", s)
  | Some a => k a s
  end.

Definition StoreErr_Error (e : StoreErr) : string :=
  match e with ErrNotFound => "store: not found" | ErrConflict => "store: conflict" end.

(** A control plane that starts in production runs on no development
    default: its signing secret is its own and at least 32 characters, the
    internal token is set and not the development one, password-less logins are
    off, it has a database, and its public URL is https. *)
Theorem production_api_is_safe env c :
  api_LoadConfig env = Ok c → IsProduction c = true →
  ac_JWTSecret c ≠ devJWTSecret ∧ (minJWTSecretLen <= String.length (ac_JWTSecret c))%nat ∧
  ac_InternalToken c ≠ "" ∧ ac_InternalToken c ≠ devInternalToken ∧ ac_DevAuth c = false ∧
  ac_DatabaseURL c ≠ "" ∧ HasPrefix (ac_PublicURL c) "https://" = true.
Proof.
  unfold api_LoadConfig. set (c' := api_overlay env). clearbody c'. intros HL Hprod.
  destruct (validate c') eqn:Hv; [done|]. simplify_eq. unfold validate in Hv.
  destruct (String.eqb_spec (ac_JWTSecret c) ""); [done|]. rewrite Hprod in Hv. simpl in Hv.
  destruct (api_problems c) as [|p ps] eqn:Hp; [|done]. unfold api_problems in Hp.
  repeat (apply app_nil in Hp as [? Hp]).
  repeat match goal with H : (if ?b then _ else _) = [] |- _ => destruct b eqn:?; [done|clear H] end.
  bool_simpl. match goal with H : (_ <? _)%nat = false |- _ => apply Nat.ltb_ge in H end. done.
Qed.

Definition prod_api_env : Environ := list_to_map
  [("TRQSH_ENV", "production"); ("TRQSH_JWT_SECRET", "0123456789abcdef0123456789abcdef");
   ("TRQSH_INTERNAL_TOKEN", "s3cret"); ("TRQSH_DATABASE_URL", "postgres://db/trqsh");
   ("TRQSH_API_PUBLIC_URL", "https://api.trqsh.uz"); ("TRQSH_BASE_DOMAIN", "trqsh.uz")].

Lemma production_api_is_safe_witness :
  ∃ c, api_LoadConfig prod_api_env = Ok c ∧ ac_AppURL c = "https://app.trqsh.uz" ∧ ac_DevAuth c = false.
Proof.
  eexists. split; [vm_compute; reflexivity|]. split; [reflexivity|].
  eapply (production_api_is_safe prod_api_env); vm_compute; reflexivity.
Defined.
