(* ===== verification/ApiAuth.v ===== *)
(** Signing in (internal/api/handlers_auth.go, internal/api/auth/oauth.go):
    OAuth with its state nonce and cookies, the development logins, refresh and
    logout, and the device flow's three endpoints, over any backends of the
    session stores. *)
From S2P Require Import Prelude GoStrings Store Billing Entitle Ingress Login ApiConfig.
From Stdlib Require Import Ascii.

Open Scope Z_scope.

(** * OAuth providers *)
Record OAuthUser := { ou_Email : string; ou_Name : string; ou_AvatarURL : string; ou_Provider : string }.

Record OAuthProvider := {
  op_Name : string; op_ClientID : string; op_ClientSecret : string; op_RedirectURL : string;
  op_AuthURL : string; op_TokenURL : string; op_UserURL : string; op_Scopes : list string;
  op_AuthParams : gmap string string;
}.

Definition GitHubProvider (id secret redirect : string) : OAuthProvider :=
  {| op_Name := "github"; op_ClientID := id; op_ClientSecret := secret; op_RedirectURL := redirect;
     op_AuthURL := "https://github.com/login/oauth/authorize";
     op_TokenURL := "https://github.com/login/oauth/access_token";
     op_UserURL := "https://api.github.com/user"; op_Scopes := ["read:user"; "user:email"]; op_AuthParams := ∅ |}.
Definition GoogleProvider (id secret redirect : string) : OAuthProvider :=
  {| op_Name := "google"; op_ClientID := id; op_ClientSecret := secret; op_RedirectURL := redirect;
     op_AuthURL := "https://accounts.google.com/o/oauth2/v2/auth";
     op_TokenURL := "https://oauth2.googleapis.com/token";
     op_UserURL := "https://www.googleapis.com/oauth2/v2/userinfo"; op_Scopes := ["openid"; "email"; "profile"];
     op_AuthParams := {["prompt" := "select_account"]} |}.

Definition Configured (p : OAuthProvider) : bool :=
  negb (String.eqb (op_ClientID p) "") && negb (String.eqb (op_ClientSecret p) "").

(** [url.QueryEscape]. *)
Definition unreserved (a : ascii) : bool :=
  let n := N_of_ascii a in
  ((48 <=? n)%N && (n <=? 57)%N) || ((65 <=? n)%N && (n <=? 90)%N) || ((97 <=? n)%N && (n <=? 122)%N) ||
  (n =? 45)%N || (n =? 95)%N || (n =? 46)%N || (n =? 126)%N.
Definition hex_upper (d : Z) : ascii := upper_ascii (hex_digit d).
Fixpoint QueryEscape (s : string) : string :=
  match s with
  | EmptyString => EmptyString
  | String a r =>
      if unreserved a then String a (QueryEscape r)
      else if Ascii.eqb a " " then String "+" (QueryEscape r)
      else let n := Z.of_N (N_of_ascii a) in
           String "%" (String (hex_upper (n / 16)) (String (hex_upper n) (QueryEscape r)))
  end.

(** [Values.Encode]: by key, in order; each key has one value here. *)
Definition str_leb (x y : string * string) : bool := String.leb (fst x) (fst y).
Fixpoint insert_sorted (x : string * string) (l : list (string * string)) : list (string * string) :=
  match l with
  | [] => [x]
  | y :: r => if str_leb x y then x :: l else y :: insert_sorted x r
  end.
Definition sort_params (q : gmap string string) : list (string * string) :=
  foldr insert_sorted [] (map_to_list q).
Definition Encode (q : gmap string string) : string :=
  Join "&" (map (λ '(k, v), QueryEscape k +:+ "=" +:+ QueryEscape v) (sort_params q)).

(** The provider's own parameters override the standard ones. *)
Definition AuthCodeURL (p : OAuthProvider) (state : string) : string :=
  let q : gmap string string := list_to_map
    [("client_id", op_ClientID p); ("redirect_uri", op_RedirectURL p); ("response_type", "code");
     ("scope", Join " " (op_Scopes p)); ("state", state)] in
  op_AuthURL p +:+ "?" +:+ Encode (op_AuthParams p ∪ q).

(** What the provider's endpoints answer: a transport error, or the status and
    the decoded body; errors carry their text. *)
Record UserInfo := {
  ui_Email : string; ui_Name : string; ui_Login : string; ui_Avatar : string; ui_Picture : string;
  ui_VerifiedEmail : option bool; ui_EmailVerified : option bool;
}.
Record EmailEntry := { ee_Email : string; ee_Primary : bool; ee_Verified : bool }.
Record Provider_answers := {
  pa_token : result string (Z * result string string);
  pa_user : result string (Z * result string UserInfo);
  pa_emails : result string (Z * result string (list EmailEntry));
}.

Definition exchangeToken (a : Provider_answers) : result string string :=
  match pa_token a with
  | Err e => Err e
  | Ok (status, body) =>
      if negb (status =? 200) then Err ("oauth token exchange: status " +:+ Itoa status)
      else match body with
           | Ok tok => if String.eqb tok "" then Err "oauth token exchange: no access_token" else Ok tok
           | Err _ => Err "oauth token exchange: no access_token"
           end
  end.

(** The loop over the addresses: the primary verified one, else the first
    verified one. *)
Fixpoint pick_email (fallback : string) (l : list EmailEntry) : result string string :=
  match l with
  | [] => if negb (String.eqb fallback "") then Ok fallback else Err "oauth userinfo: no verified email"
  | e :: l =>
      if ee_Verified e && ee_Primary e then Ok (ee_Email e)
      else pick_email (if ee_Verified e && String.eqb fallback "" then ee_Email e else fallback) l
  end.

Definition fetchGitHubEmail (a : Provider_answers) : result string string :=
  match pa_emails a with
  | Err e => Err e
  | Ok (status, body) =>
      if negb (status =? 200) then Err ("oauth userinfo: emails status " +:+ Itoa status)
      else match body with Err e => Err e | Ok emails => pick_email "" emails end
  end.

Definition marked_unverified (u : UserInfo) : bool :=
  bool_decide (ui_VerifiedEmail u = Some false) || bool_decide (ui_EmailVerified u = Some false).

Definition fetchUser (p : OAuthProvider) (a : Provider_answers) : result string OAuthUser :=
  match pa_user a with
  | Err e => Err e
  | Ok (status, body) =>
      if negb (status =? 200) then Err ("oauth userinfo: status " +:+ Itoa status)
      else match body with
           | Err e => Err e
           | Ok raw =>
               if marked_unverified raw then Err ("oauth userinfo: email is not verified with " +:+ op_Name p)
               else
                 let name := if String.eqb (ui_Name raw) "" then ui_Login raw else ui_Name raw in
                 let avatar := if String.eqb (ui_Avatar raw) "" then ui_Picture raw else ui_Avatar raw in
                 let email := if String.eqb (ui_Email raw) "" && String.eqb (op_Name p) "github"
                              then fetchGitHubEmail a else Ok (ui_Email raw) in
                 match email with
                 | Err e => Err e
                 | Ok email =>
                     if String.eqb email "" then Err "oauth userinfo: no email (make it public or add email scope)"
                     else Ok {| ou_Email := email; ou_Name := name; ou_AvatarURL := avatar; ou_Provider := op_Name p |}
                 end
           end
  end.

Definition Exchange (p : OAuthProvider) (a : Provider_answers) : result string OAuthUser :=
  match exchangeToken a with Err e => Err e | Ok _ => fetchUser p a end.

(** * The server *)
Record Server (D R S : Type) := mkServer {
  sv_store : MemStore;
  sv_devices : D;
  sv_revoker : R;
  sv_states : S;
}.
Arguments mkServer {D R S}. Arguments sv_store {D R S}. Arguments sv_devices {D R S}.
Arguments sv_revoker {D R S}. Arguments sv_states {D R S}.

(** Randomness a handler draws: ids of a user and an org, two token ids, an API
    key's bytes and row id, codes and nonces. *)
Record Draws := {
  dw_user : list Z; dw_org : list Z; dw_j1 : list Z; dw_j2 : list Z; dw_pb : list Z; dw_sb : list Z;
  dw_salt : list Z; dw_key : list Z; dw_code : list Z; dw_ucode : list Z; dw_nonce : list Z;
}.

Definition safeNextPath (p : string) : string :=
  if String.eqb p "" || negb (HasPrefix p "/") || HasPrefix p "//" || HasPrefix p (String "/" (String "092" ""))
  then "" else p.

Section handlers.
  Context {D R S : Type} `{DeviceStore D} `{Revoker R} `{oauthStateStore S} `{Jwt}.
  Context (IDKey : string → list Z → Z → Z → Z → Z → list Z).
  Context (cfg : ApiConfig) (providers : gmap string OAuthProvider).

Abbreviation Sv := (Server D R S).

Definition with_store (m : MemStore) (s : Sv) : Sv := mkServer m (sv_devices s) (sv_revoker s) (sv_states s).
Definition with_devices (d : D) (s : Sv) : Sv := mkServer (sv_store s) d (sv_revoker s) (sv_states s).
Definition with_revoker (r : R) (s : Sv) : Sv := mkServer (sv_store s) (sv_devices s) r (sv_states s).
Definition with_states (x : S) (s : Sv) : Sv := mkServer (sv_store s) (sv_devices s) (sv_revoker s) x.

(** ** Helpers *)
Definition firstOrg (userID : string) : M MemStore string Org := λ m,
  match OrgsForUser userID m with
  | (Err e, m) => (Err (StoreErr_Error e), m)
  | (Ok [], m) => (Err "user has no org", m)
  | (Ok (o :: _), m) => (Ok o, m)
  end.

Definition new_user (email name avatar provider : string) : User :=
  {| us_ID := ""; us_Email := email; us_Name := name; us_AvatarURL := avatar; us_OAuthProvider := provider;
     us_CreatedAt := 0 |}.
Definition new_org (name : string) : Org :=
  {| og_ID := ""; og_Name := name; og_Plan := PlanFree; og_StripeCustomerID := ""; og_CreatedAt := 0;
     og_PlanExpiresAt := None |}.

Definition provisionUser (now : Time) (dw : Draws) (email name avatar provider : string)
    : M MemStore string (User * Org) := λ m,
  match GetUserByEmail email m with
  | (Err ErrNotFound, m) =>
      let name := if String.eqb name "" then default "" (head (Split email "@")) else name in
      match CreateUser now (dw_user dw) (new_user email name avatar provider) m with
      | (Err e, m) => (Err (StoreErr_Error e), m)
      | (Ok u, m) =>
          match CreateOrg now (dw_org dw) (new_org (name +:+ "'s org")) m with
          | (Err e, m) => (Err (StoreErr_Error e), m)
          | (Ok org, m) =>
              match AddOrgMember {| om_OrgID := og_ID org; om_UserID := us_ID u; om_Role := "owner" |} m with
              | (Err e, m) => (Err (StoreErr_Error e), m)
              | (Ok _, m) => (Ok (u, org), m)
              end
          end
      end
  | (Err e, m) => (Err (StoreErr_Error e), m)
  | (Ok u, m) =>
      let changed := (negb (String.eqb avatar "") && negb (String.eqb avatar (us_AvatarURL u))) ||
                     (negb (String.eqb name "") && negb (String.eqb name (us_Name u))) in
      let '(u, m) :=
        if changed then
          match UpdateUserProfile (us_ID u) name avatar m with
          | (Ok _, m) =>
              ({| us_ID := us_ID u; us_Email := us_Email u;
                  us_Name := if negb (String.eqb name "") then name else us_Name u;
                  us_AvatarURL := if negb (String.eqb avatar "") then avatar else us_AvatarURL u;
                  us_OAuthProvider := us_OAuthProvider u; us_CreatedAt := us_CreatedAt u |}, m)
          | (Err _, m) => (u, m)
          end
        else (u, m) in
      match firstOrg (us_ID u) m with
      | (Err e, m) => (Err e, m)
      | (Ok org, m) => (Ok (u, org), m)
      end
  end.

Definition issue (now : Time) (dw : Draws) (u : User) (o : Org) : Tokens :=
  IssueTokens (ac_JWTSecret cfg) now (dw_j1 dw) (dw_j2 dw) (us_ID u) (og_ID o).
Definition authResponse (u : User) (o : Org) (t : Tokens) : Response :=
  writeJSON 200 (JObj [("user", user_json u); ("org", org_json o); ("tokens", tokens_json t)]).

(** ** Development logins: the body's email and name *)
Definition handleSignup (now : Time) (dw : Draws) (body : option (string * string)) (s : Sv) : Response * Sv :=
  if negb (ac_DevAuth cfg) then (writeError 403 "password-less signup is disabled; use OAuth", s)
  else decode_then body (λ '(email, name) s,
    if negb (Contains email "@") then (writeError 400 "valid email required", s)
    else match GetUserByEmail email (sv_store s) with
         | (Ok _, m) => (writeError 409 "user already exists", with_store m s)
         | (Err _, m) =>
             match provisionUser now dw email name "" "email" m with
             | (Err e, m) => (writeError 500 e, with_store m s)
             | (Ok (u, org), m) => (authResponse u org (issue now dw u org), with_store m s)
             end
         end) s.

Definition handleLogin (now : Time) (dw : Draws) (body : option (string * string)) (s : Sv) : Response * Sv :=
  if negb (ac_DevAuth cfg) then (writeError 403 "password-less login is disabled; use OAuth", s)
  else decode_then body (λ '(email, _) s,
    match GetUserByEmail email (sv_store s) with
    | (Err _, m) => (writeError 401 "no such user", with_store m s)
    | (Ok u, m) =>
        match firstOrg (us_ID u) m with
        | (Err e, m) => (writeError 500 e, with_store m s)
        | (Ok org, m) => (authResponse u org (issue now dw u org), with_store m s)
        end
    end) s.

Definition handleRefresh (now : Time) (dw : Draws) (body : option string) (s : Sv) : Response * Sv :=
  decode_then body (λ tok s,
    match Refresh (ac_JWTSecret cfg) now (dw_j1 dw) (dw_j2 dw) tok (sv_revoker s) with
    | (Err _, rv) => (writeError 401 "invalid refresh token", with_revoker rv s)
    | (Ok t, rv) => (writeJSON 200 (tokens_json t), with_revoker rv s)
    end) s.

Definition handleAccount (p : Principal) (s : Sv) : Response * Sv :=
  match GetUser (pr_UserID p) (sv_store s) with
  | (Err _, m) => (writeError 404 "user not found", with_store m s)
  | (Ok u, m) =>
      let orgs := match fst (OrgsForUser (pr_UserID p) m) with Ok l => l | Err _ => [] end in
      (writeJSON 200 (JObj [("user", user_json u); ("orgs", JArr (map org_json orgs));
                            ("active_org", JStr (pr_OrgID p))]), with_store m s)
  end.

(** ** Cookies *)
Definition oauth_cookie (name value : string) (maxAge : Z) : Cookie :=
  {| ck_Name := name; ck_Value := value; ck_Path := "/v1/auth/oauth"; ck_Domain := ""; ck_HttpOnly := true;
     ck_Secure := IsProduction cfg; ck_MaxAge := maxAge |}.
Definition setNextCookie (next : string) : Cookie := oauth_cookie "trqsh_oauth_next" next 600.
Definition clearNextCookie : Cookie := oauth_cookie "trqsh_oauth_next" "" (-1).
Definition setStateCookie (state : string) : Cookie := oauth_cookie "trqsh_oauth_state" state 600.
Definition clearStateCookie : Cookie := oauth_cookie "trqsh_oauth_state" "" (-1).

Definition session_cookie (name value : string) (maxAge : Z) : Cookie :=
  {| ck_Name := name; ck_Value := value; ck_Path := "/"; ck_Domain := "." +:+ ac_BaseDomain cfg;
     ck_HttpOnly := true; ck_Secure := IsProduction cfg; ck_MaxAge := maxAge |}.
Definition setSessionCookies (t : Tokens) : list Cookie :=
  [session_cookie "trqsh_access" (tk_Access t) (tk_ExpiresIn t);
   session_cookie "trqsh_refresh" (tk_Refresh t) (30 * 24 * 60 * 60)].
Definition clearSessionCookies : list Cookie :=
  [session_cookie "trqsh_access" "" (-1); session_cookie "trqsh_refresh" "" (-1)].

(** ** Logout: the cookie's token, else the body's *)
Definition refreshTokenFromRequest (cookie : option string) (body : option string) : string :=
  match cookie with
  | Some c => if negb (String.eqb c "") then c else default "" body
  | None => default "" body
  end.

Definition handleLogout (now : Time) (cookie body : option string) (s : Sv) : Response * Sv :=
  let rt := refreshTokenFromRequest cookie body in
  let s := if negb (String.eqb rt "") then with_revoker (RevokeRefresh (ac_JWTSecret cfg) now rt (sv_revoker s)) s else s in
  (with_cookies clearSessionCookies (writeJSON 200 (JObj [("status", JStr "ok")])), s).

(** ** OAuth *)
Definition newState (now : Time) (dw : Draws) (s : Sv) : string * Sv :=
  let '(n, x) := st_New now (dw_nonce dw) (sv_states s) in (n, with_states x s).
Definition checkState (now : Time) (state : string) (s : Sv) : bool * Sv :=
  let '(b, x) := st_Check now state (sv_states s) in (b, with_states x s).

Definition handleOAuthStart (now : Time) (dw : Draws) (name next : string) (s : Sv) : Response * Sv :=
  match providers !! name with
  | Some p =>
      if negb (Configured p) then (writeError 404 "provider not configured", s)
      else
        let n := safeNextPath next in
        let '(state, s) := newState now dw s in
        (with_cookies ((if negb (String.eqb n "") then [setNextCookie n] else []) ++ [setStateCookie state])
           (redirect (AuthCodeURL p state)), s)
  | None => (writeError 404 "provider not configured", s)
  end.

Definition appBase : string :=
  if negb (String.eqb (ac_AppURL cfg) "") then trim_right_slash (ac_AppURL cfg)
  else "https://app." +:+ ac_BaseDomain cfg.

(** [sc] and [nc] are the state and destination cookies, [ans] what the provider
    answers. *)
Definition handleOAuthCallback (now : Time) (dw : Draws) (name qstate : string) (sc nc : option string)
    (ans : Provider_answers) (s : Sv) : Response * Sv :=
  match providers !! name with
  | None => (writeError 404 "provider not configured", s)
  | Some p =>
      let refuse (code : Z) (msg : string) (s : Sv) := (with_cookies [clearStateCookie] (writeError code msg), s) in
      match sc with
      | None => refuse 400 "invalid state" s
      | Some c =>
          if negb (String.eqb c qstate) then refuse 400 "invalid state" s
          else
            let '(ok, s) := checkState now qstate s in
            if negb ok then refuse 400 "invalid state" s
            else match Exchange p ans with
                 | Err e => refuse 502 e s
                 | Ok prof =>
                     match provisionUser now dw (ou_Email prof) (ou_Name prof) (ou_AvatarURL prof) (ou_Provider prof)
                             (sv_store s) with
                     | (Err e, m) => refuse 500 e (with_store m s)
                     | (Ok (u, org), m) =>
                         let dest := match nc with
                                     | Some v => let n := safeNextPath v in
                                                 if negb (String.eqb n "") then appBase +:+ n else appBase +:+ "/"
                                     | None => appBase +:+ "/"
                                     end in
                         (with_cookies ([clearStateCookie; clearNextCookie] ++ setSessionCookies (issue now dw u org))
                            (redirect dest), with_store m s)
                     end
                 end
      end
  end.

(** ** The device flow *)
Definition handleDeviceCode (now : Time) (dw : Draws) (s : Sv) : Response * Sv :=
  let '(req, d) := dev_Create now (dw_code dw) (dw_ucode dw) (sv_devices s) in
  let base := if String.eqb (ac_AppURL cfg) "" then ac_PublicURL cfg else ac_AppURL cfg in
  (writeJSON 200 (JObj
     [("device_code", JStr (dr_DeviceCode req)); ("user_code", JStr (dr_UserCode req));
      ("verification_uri", JStr (base +:+ "/device"));
      ("verification_uri_complete", JStr (base +:+ "/device?code=" +:+ dr_UserCode req));
      ("interval", JNum 2); ("expires_in", JNum 600)]), with_devices d s).

Definition device_key (orgID : string) (gen : GeneratedKey) : APIKey :=
  {| ak_ID := ""; ak_OrgID := orgID; ak_Name := "cli-device"; ak_Prefix := gk_Prefix gen; ak_Hash := gk_Hash gen;
     ak_LastUsedAt := None; ak_RevokedAt := None; ak_CreatedAt := 0 |}.

Definition handleDeviceApprove (now : Time) (dw : Draws) (p : Principal) (body : option string) (s : Sv)
    : Response * Sv :=
  decode_then body (λ userCode s,
    let gen := GenerateAPIKey IDKey (dw_pb dw) (dw_sb dw) (dw_salt dw) in
    match CreateAPIKey now (dw_key dw) (device_key (pr_OrgID p) gen) (sv_store s) with
    | (Err e, m) => (writeError 500 (StoreErr_Error e), with_store m s)
    | (Ok _, m) =>
        let s := with_store m s in
        match dev_Approve now userCode (pr_OrgID p) (gk_Full gen) (sv_devices s) with
        | (Err e, d) => (writeError 400 (DeviceErr_Error e), with_devices d s)
        | (Ok _, d) => (writeJSON 200 (JObj [("status", JStr "approved")]), with_devices d s)
        end
    end) s.

Definition handleDeviceToken (now : Time) (body : option string) (s : Sv) : Response * Sv :=
  decode_then body (λ code s,
    match dev_Poll now code (sv_devices s) with
    | (Err e, d) => (writeError 400 (DeviceErr_Error e), with_devices d s)
    | (Ok key, d) => (writeJSON 200 (JObj [("api_key", JStr key)]), with_devices d s)
    end) s.
End handlers.
