(* ===== verification/Listings.v ===== *)
(** The listings of the in-memory store that sort (internal/api/store/mem.go):
    usage series, user and org directories, and what makes them right. *)
From S2P Require Import Prelude GoStrings Store.

Open Scope Z_scope.

Section listings.
  Context `{RangeOrder}.

(** One record into its bucket. *)
Definition series_add (bucket : string) (u : UsageRecord) (b : gmap Time UsageBucket) : gmap Time UsageBucket :=
  let key := truncateTo (ur_WindowEnd u) bucket in
  let x := default {| ub_Start := key; ub_BytesIn := 0; ub_BytesOut := 0; ub_Requests := 0 |} (b !! key) in
  <[key := {| ub_Start := ub_Start x; ub_BytesIn := add64 (ub_BytesIn x) (ur_BytesIn u);
              ub_BytesOut := add64 (ub_BytesOut x) (ur_BytesOut u);
              ub_Requests := add64 (ub_Requests x) (ur_Requests u) |}]> b.

Definition series_map (orgID : string) (since : Time) (bucket : string) (l : list UsageRecord)
    : gmap Time UsageBucket :=
  foldl (λ b u, if in_period orgID since u then series_add bucket u b else b) ∅ l.

Definition starts_before (a b : UsageBucket) : bool := Before (ub_Start a) (ub_Start b).

Definition UsageSeriesForOrg (orgID : string) (since : Time) (bucket : string) : StM (list UsageBucket) := λ m,
  (Ok (sort_by starts_before (range_map (series_map orgID since bucket (usage_ m))).*2), m).

Definition ListUsers (limit offset : Z) (search : string) : StM (list User) := λ m,
  let search := ToLower (TrimSpace search) in
  let keep u := String.eqb search "" || Contains (ToLower (us_Email u)) search || Contains (ToLower (us_Name u)) search in
  (Ok (pageSlice (sort_by (λ a b, After (us_CreatedAt a) (us_CreatedAt b))
                    (List.filter keep (range_map (users m)).*2)) limit offset), m).

Definition ListOrgs (limit offset : Z) (plan : string) : StM (list Org) := λ m,
  let plan := ToLower (TrimSpace plan) in
  (Ok (pageSlice (sort_by (λ a b, After (og_CreatedAt a) (og_CreatedAt b))
                    (List.filter (λ o, String.eqb plan "" || String.eqb (og_Plan o) plan) (range_map (orgs m)).*2))
         limit offset), m).
End listings.

(** * The series *)

(** The sum of a counter over the buckets of a map, in int64. *)
Definition sum64 {A} (f : A → Z) (l : list A) : Z := foldr (λ x a, add64 (f x) a) 0 l.

Lemma add64_comm a b : add64 a b = add64 b a.
Proof. unfold add64. by rewrite Z.add_comm. Qed.

Lemma wrap64_mod a : wrap64 a mod 2 ^ 64 = a mod 2 ^ 64.
Proof.
  unfold wrap64. rewrite Zminus_mod, Z.mod_mod, <- Zminus_mod by lia. f_equal. lia.
Qed.

Lemma wrap64_eq a b : a mod 2 ^ 64 = b mod 2 ^ 64 → wrap64 a = wrap64 b.
Proof.
  intros Hab. unfold wrap64. rewrite (Z.add_mod a), (Z.add_mod b), Hab by lia. done.
Qed.

Lemma add64_wrap_l a b : add64 (wrap64 a) b = add64 a b.
Proof.
  unfold add64. apply wrap64_eq. rewrite Z.add_mod, wrap64_mod, <- Z.add_mod by lia. done.
Qed.

Lemma add64_assoc a b c : add64 (add64 a b) c = add64 a (add64 b c).
Proof.
  unfold add64 at 2. rewrite add64_wrap_l. rewrite (add64_comm a). unfold add64 at 3. rewrite add64_wrap_l.
  unfold add64. f_equal. lia.
Qed.

Lemma sum64_perm {A} (f : A → Z) l1 l2 : l1 ≡ₚ l2 → sum64 f l1 = sum64 f l2.
Proof.
  induction 1 as [|x l1 l2 Hp IH|x y l|l1 l2 l3 H1 IH1 H2 IH2]; simpl; [done|by rewrite IH| |congruence].
  rewrite <- !add64_assoc. by rewrite (add64_comm (f y)).
Qed.

Definition map_sum (f : UsageBucket → Z) (b : gmap Time UsageBucket) : Z := sum64 f (map_to_list b).*2.

Lemma sum64_wrap {A} (f : A → Z) l : wrap64 (sum64 f l) = sum64 f l.
Proof. destruct l; simpl; [done|]. apply wrap64_id, wrap64_range. Qed.

Lemma map_sum_insert f b k x :
  b !! k = None → map_sum f (<[k := x]> b) = add64 (f x) (map_sum f b).
Proof.
  intros Hk. unfold map_sum. by rewrite (sum64_perm f _ ((k, x) :: map_to_list b).*2) by
    (apply Permutation_map, map_to_list_insert; done).
Qed.

Lemma map_sum_replace f b k x y d :
  b !! k = Some y → f x = add64 (f y) d → map_sum f (<[k := x]> b) = add64 (map_sum f b) d.
Proof.
  intros Hk Hf. rewrite <- (insert_delete_id b k y) at 2 by done.
  rewrite <- insert_delete_eq, !map_sum_insert by (by rewrite lookup_delete_eq).
  rewrite Hf, !add64_assoc. by rewrite (add64_comm d).
Qed.

(** The three counters of a bucket beside those of a record. *)
Inductive counter_of : (UsageBucket → Z) → (UsageRecord → Z) → Prop :=
| co_in : counter_of ub_BytesIn ur_BytesIn
| co_out : counter_of ub_BytesOut ur_BytesOut
| co_req : counter_of ub_Requests ur_Requests.

Lemma series_add_sum fb fu bucket u b :
  counter_of fb fu → map_sum fb (series_add bucket u b) = add64 (map_sum fb b) (fu u).
Proof.
  intros Hco. unfold series_add. set (key := truncateTo _ _).
  destruct (b !! key) as [y|] eqn:Hk; simpl.
  - apply (map_sum_replace fb b key _ y); [done|]. by destruct Hco.
  - rewrite map_sum_insert, (add64_comm (map_sum fb b)) by done.
    transitivity (add64 (wrap64 (fu u)) (map_sum fb b)); [|apply add64_wrap_l].
    by destruct Hco.
Qed.

Lemma series_map_app orgID since bucket l u :
  series_map orgID since bucket (l ++ [u]) =
  if in_period orgID since u then series_add bucket u (series_map orgID since bucket l)
  else series_map orgID since bucket l.
Proof. unfold series_map. by rewrite foldl_app. Qed.

(** The total the store reports for the same period. *)
Lemma UsageForOrg_app now orgID since m u :
  ∃ agg, fst (UsageForOrg now orgID since m) = Ok agg ∧
    fst (UsageForOrg now orgID since (set_usage (usage_ m ++ [u]) m)) =
    Ok (if in_period orgID since u
        then {| ur_OrgID := ur_OrgID agg; ur_TunnelID := ur_TunnelID agg;
                ur_BytesIn := add64 (ur_BytesIn agg) (ur_BytesIn u);
                ur_BytesOut := add64 (ur_BytesOut agg) (ur_BytesOut u);
                ur_Requests := add64 (ur_Requests agg) (ur_Requests u);
                ur_WindowStart := ur_WindowStart agg; ur_WindowEnd := ur_WindowEnd agg |}
        else agg).
Proof. eexists. split; [done|]. simpl. by rewrite foldl_app. Qed.

Lemma series_sums fb fu now orgID since bucket l m agg :
  counter_of fb fu → usage_ m = l → fst (UsageForOrg now orgID since m) = Ok agg →
  map_sum fb (series_map orgID since bucket l) = fu agg.
Proof.
  intros Hco. revert m agg. induction l as [|u l IH] using rev_ind; intros m agg Hl Hagg.
  - simpl in Hagg. rewrite Hl in Hagg. simplify_eq/=. unfold map_sum, series_map. simpl.
    rewrite map_to_list_empty. by destruct Hco.
  - destruct (UsageForOrg_app now orgID since (set_usage l m) u) as (a & Ha & Hb).
    specialize (IH (set_usage l m) a eq_refl Ha). simpl in Ha, Hb, Hagg. rewrite Hl, Hb in Hagg.
    rewrite series_map_app. destruct (in_period orgID since u); simplify_eq; [|done].
    rewrite (series_add_sum fb fu) by done. rewrite IH. by destruct Hco.
Qed.

Lemma series_map_start orgID since bucket l k b :
  series_map orgID since bucket l !! k = Some b → ub_Start b = k.
Proof.
  revert k b. induction l as [|u l IH] using rev_ind; intros k b; [done|].
  rewrite series_map_app. destruct (in_period _ _ _); [|apply IH].
  unfold series_add. set (key := truncateTo _ _). intros [[<- <-]|[_ Hb]]%lookup_insert_Some; [|by apply IH].
  simpl. destruct (_ !! key) as [y|] eqn:Hy; simpl; [by apply IH in Hy|done].
Qed.

Lemma Sorted_strict (l : list UsageBucket) :
  Sorted (λ a b, starts_before b a = false) l → NoDup (map ub_Start l) → Sorted (λ a b, ub_Start a < ub_Start b) l.
Proof.
  induction 1 as [|a l Hl IH Hhd]; [constructor|]. simpl. intros [Ha Hnd]%list.NoDup_cons. constructor; [by apply IH|].
  destruct Hhd as [|b l Hab]; [constructor|]. constructor. unfold starts_before, Before in Hab. bool_simpl.
  simpl in Ha. apply not_elem_of_cons in Ha as [? _]. lia.
Qed.

Lemma series_map_from orgID since bucket l k b :
  series_map orgID since bucket l !! k = Some b →
  ∃ u, u ∈ l ∧ in_period orgID since u = true ∧ k = truncateTo (ur_WindowEnd u) bucket.
Proof.
  revert k b. induction l as [|u l IH] using rev_ind; intros k b; [done|].
  rewrite series_map_app. destruct (in_period orgID since u) eqn:Hp; unfold series_add.
  - intros [[<- _]|[_ Hb]]%lookup_insert_Some.
    + exists u. split; [set_solver|done].
    + apply IH in Hb as (v & Hv & ?). exists v. split; [set_solver|done].
  - intros (v & Hv & ?)%IH. exists v. split; [set_solver|done].
Qed.

(** A usage series is a faithful breakdown: the buckets of an org add up, in
    each counter, to the total the store reports for the same period (in int64
    arithmetic), they appear in strictly increasing order of their starts, and
    there is one only where some record of the period falls. *)
Theorem usage_series_adds_up `{RangeOrder} now orgID since bucket m :
  ∃ series total,
    UsageSeriesForOrg orgID since bucket m = (Ok series, m) ∧
    UsageForOrg now orgID since m = (Ok total, m) ∧
    sum64 ub_BytesIn series = ur_BytesIn total ∧ sum64 ub_BytesOut series = ur_BytesOut total ∧
    sum64 ub_Requests series = ur_Requests total ∧
    Sorted (λ a b, ub_Start a < ub_Start b) series ∧
    (∀ b, b ∈ series → ∃ u, u ∈ usage_ m ∧ in_period orgID since u = true ∧
       ub_Start b = truncateTo (ur_WindowEnd u) bucket).
Proof.
  eexists _, _. split; [done|]. split; [done|].
  set (b := series_map orgID since bucket (usage_ m)).
  assert (Hperm : sort_by starts_before (range_map b).*2 ≡ₚ (map_to_list b).*2).
  { rewrite sort_by_perm. by rewrite range_map_perm. }
  assert (Hsum : ∀ f, sum64 f (sort_by starts_before (range_map b).*2) = map_sum f b).
  { intros f. by apply sum64_perm. }
  rewrite !Hsum. split_and!.
  - by apply (series_sums _ _ now _ _ _ _ m _ co_in).
  - by apply (series_sums _ _ now _ _ _ _ m _ co_out).
  - by apply (series_sums _ _ now _ _ _ _ m _ co_req).
  - apply Sorted_strict; [apply sort_by_sorted|].
    + unfold starts_before, Before. intros x y. rewrite Z.ltb_lt, Z.ltb_ge. lia.
    + rewrite (Permutation_map ub_Start Hperm).
      replace (map ub_Start (map_to_list b).*2) with (map_to_list b).*1; [apply NoDup_fst_map_to_list|].
      change (map ub_Start) with (fmap (M := list) ub_Start). rewrite <- list_fmap_compose.
      apply list_fmap_ext. intros i [k x] Hx. simpl. symmetry.
      eapply series_map_start, elem_of_map_to_list, list_elem_of_lookup_2, Hx.
  - intros x. rewrite Hperm, list_elem_of_fmap. intros ([k y] & -> & Hy%elem_of_map_to_list). simpl.
    rewrite (series_map_start _ _ _ _ _ _ Hy). by eapply series_map_from.
Qed.

Definition ex_record (org : string) (bytes at_ : Z) : UsageRecord :=
  {| ur_OrgID := org; ur_TunnelID := "t"; ur_BytesIn := bytes; ur_BytesOut := 1; ur_Requests := 1;
     ur_WindowStart := at_; ur_WindowEnd := at_ |}.
Definition ex_usage : MemStore :=
  set_usage [ex_record "org_1" 5 (2 * Hour); ex_record "org_2" 9 Hour; ex_record "org_1" 7 (Hour + 3);
             ex_record "org_1" 8 (2 * Hour + 1)] NewMemStore.

Lemma usage_series_adds_up_witness :
  fst (UsageSeriesForOrg (H := sorted_range) "org_1" 0 "hour" ex_usage) =
    Ok [{| ub_Start := Hour; ub_BytesIn := 7; ub_BytesOut := 1; ub_Requests := 1 |};
        {| ub_Start := 2 * Hour; ub_BytesIn := 13; ub_BytesOut := 2; ub_Requests := 2 |}].
Proof.
  destruct (usage_series_adds_up (H := sorted_range) 0 "org_1" 0 "hour" ex_usage) as (series & total & Hs & _).
  rewrite Hs. apply (f_equal fst) in Hs. rewrite <- Hs. vm_compute. reflexivity.
Defined.
