(* ===== verification/ApiResources.v ===== *)
(** The resource handlers of the control plane (internal/api/handlers_resources.go,
    handlers_history.go, handlers_plans_public.go), the edge's internal RPC
    (internal/api/rpc.go) and the billing endpoints (internal/billing/checkout.go,
    billing.go), over the in-memory store. *)
From S2P Require Import Prelude GoStrings Authz Store Listings Billing Entitle Ingress Login ApiConfig.
From Stdlib Require Import Ascii.

Open Scope Z_scope.

(** A handler's effect on the store. *)
Abbreviation Handler := (MemStore → Response * MemStore).

Definition orgOf (p : Principal) : string := pr_OrgID p.

(** [time.Now().AddDate(0, 0, -n)] in UTC. *)
Definition days_ago (now : Time) (n : Z) : Time := now - n * 24 * Hour.

Definition ok_or {A} (r : result StoreErr A) (d : A) : A := match r with Ok a => a | Err _ => d end.
Definition store_error {A} (e : StoreErr) (m : A) : Response * A := (writeError 500 (StoreErr_Error e), m).

(** * API keys *)
Section api_keys.
  Context (IDKey : string → list Z → Z → Z → Z → Z → list Z) `{RangeOrder}.

Definition handleCreateAPIKey (now : Time) (pb sb salt rnd : list Z) (p : Principal) (body : option string) : Handler :=
  decode_then body (λ name m,
    let name := if String.eqb name "" then "default" else name in
    let gen := GenerateAPIKey IDKey pb sb salt in
    match CreateAPIKey now rnd {| ak_ID := ""; ak_OrgID := orgOf p; ak_Name := name; ak_Prefix := gk_Prefix gen;
                                  ak_Hash := gk_Hash gen; ak_LastUsedAt := None; ak_RevokedAt := None;
                                  ak_CreatedAt := 0 |} m with
    | (Err e, m) => store_error e m
    | (Ok k, m) =>
        (writeJSON 201 (JObj [("id", JStr (ak_ID k)); ("name", JStr (ak_Name k)); ("prefix", JStr (ak_Prefix k));
                              ("api_key", JStr (gk_Full gen)); ("created_at", JTime (ak_CreatedAt k))]), m)
    end).

Definition key_row (k : APIKey) : Json :=
  JObj [("id", JStr (ak_ID k)); ("name", JStr (ak_Name k)); ("prefix", JStr (ak_Prefix k));
        ("last_used_at", JOptTime (ak_LastUsedAt k)); ("revoked_at", JOptTime (ak_RevokedAt k));
        ("created_at", JTime (ak_CreatedAt k))].
Definition handleListAPIKeys (p : Principal) : Handler := λ m,
  match ListAPIKeys (orgOf p) m with
  | (Err e, m) => store_error e m
  | (Ok l, m) => (writeJSON 200 (JArr (map key_row l)), m)
  end.

Definition handleRevokeAPIKey (now : Time) (p : Principal) (id : string) : Handler := λ m,
  match RevokeAPIKey id (orgOf p) now m with
  | (Err _, m) => (writeError 404 "no such key", m)
  | (Ok _, m) => (no_content 204, m)
  end.
End api_keys.

(** * Subdomains
    [subdomainRe]: one to 63 letters, digits and dashes, no dash at the ends. *)
Definition alnum (a : ascii) : bool :=
  let n := N_of_ascii a in ((97 <=? n)%N && (n <=? 122)%N) || ((48 <=? n)%N && (n <=? 57)%N).
Definition label_char (a : ascii) : bool := alnum a || Ascii.eqb a "-".
Definition char_at (n : nat) (s : string) (p : ascii → bool) : bool :=
  match String.get n s with Some a => p a | None => false end.
Definition subdomainRe (s : string) : bool :=
  (1 <=? String.length s)%nat && (String.length s <=? 63)%nat && all_chars label_char s &&
  char_at 0 s alnum && char_at (String.length s - 1) s alnum.

Section resources.
  Context `{RangeOrder}.

(** The part of the handler after validation: the count is read and the row
    written in two separate calls on the store. *)
Definition reserve_checked (now : Time) (rnd : list Z) (org : Org) (count : Z) (sub : string) : Handler := λ m,
  let plan := PlanFor (effectivePlan now org) in
  if count >=? p_MaxReservedSubdomains plan
  then (writeError 403 "reserved subdomain limit reached for your plan", m)
  else match ReserveSubdomain now rnd {| rs_ID := ""; rs_OrgID := og_ID org; rs_Subdomain := sub; rs_CreatedAt := 0 |} m with
       | (Err ErrConflict, m) => (writeError 409 "subdomain already taken", m)
       | (Err e, m) => store_error e m
       | (Ok res, m) => (writeJSON 201 (subdomain_json res), m)
       end.

Definition handleReserveSubdomain (now : Time) (rnd : list Z) (p : Principal) (body : option string) : Handler :=
  decode_then body (λ subdomain m,
    let sub := ToLower (TrimSpace subdomain) in
    if negb (subdomainRe sub) then (writeError 400 "invalid subdomain", m)
    else match GetOrg (orgOf p) m with
         | (Err e, m) => store_error e m
         | (Ok org, m) =>
             let '(count, m) := CountSubdomains (og_ID org) m in
             reserve_checked now rnd org (ok_or count 0) sub m
         end).

Definition handleListSubdomains (p : Principal) : Handler := λ m,
  match ListSubdomains (orgOf p) m with
  | (Err e, m) => store_error e m
  | (Ok l, m) => (writeJSON 200 (JArr (map subdomain_json l)), m)
  end.

Definition handleReleaseSubdomain (p : Principal) (id : string) : Handler := λ m,
  match ReleaseSubdomain id (orgOf p) m with
  | (Err _, m) => (writeError 404 "no such subdomain", m)
  | (Ok _, m) => (no_content 204, m)
  end.

(** * Custom domains *)
Definition verify_token (rnd : list Z) : string := "trqsh-verify=" +:+ drop_string 2 (NewID "v" rnd).

Definition handleAddDomain (now : Time) (tok rnd : list Z) (baseDomain : string) (p : Principal) (body : option string) : Handler :=
  decode_then body (λ domain m,
    let domain := ToLower (TrimSpace domain) in
    if String.eqb domain "" || negb (Contains domain ".") then (writeError 400 "invalid domain", m)
    else match GetOrg (orgOf p) m with
         | (Err e, m) => store_error e m
         | (Ok org, m) =>
             let plan := PlanFor (effectivePlan now org) in
             if negb (p_AllowCustomDomains plan) then (writeError 403 "custom domains require a paid plan", m)
             else
               let '(count, m) := CountCustomDomains (og_ID org) m in
               if ok_or count 0 >=? p_MaxCustomDomains plan
               then (writeError 403 "custom domain limit reached for your plan", m)
               else
                 let token := verify_token tok in
                 match AddCustomDomain now rnd {| cd_ID := ""; cd_OrgID := og_ID org; cd_Domain := domain;
                         cd_VerifyToken := token; cd_VerifiedAt := None; cd_CertStatus := ""; cd_CreatedAt := 0 |} m with
                 | (Err ErrConflict, m) => (writeError 409 "domain already added", m)
                 | (Err e, m) => store_error e m
                 | (Ok d, m) =>
                     (writeJSON 201 (JObj
                        [("domain", domain_json d);
                         ("dns_instructions", JObj
                            [("txt_name", JStr ("_trqsh-challenge." +:+ domain)); ("txt_value", JStr token);
                             ("cname_name", JStr domain); ("cname_value", JStr baseDomain)])]), m)
                 end
         end).

Definition handleListDomains (p : Principal) : Handler := λ m,
  match ListCustomDomains (orgOf p) m with
  | (Err e, m) => store_error e m
  | (Ok l, m) => (writeJSON 200 (JArr (map domain_json l)), m)
  end.

(** [lookupTXT]: the records of a name, [None] for an error of the resolver. *)
Definition dnsHasTXT (lookupTXT : string → option (list string)) (name want : string) : bool :=
  match lookupTXT name with
  | None => false
  | Some l => existsb (λ r, String.eqb (TrimSpace r) want) l
  end.

Definition handleVerifyDomain (now : Time) (lookupTXT : string → option (list string)) (devAuth : bool)
    (p : Principal) (id force : string) : Handler := λ m,
  match GetCustomDomain id (orgOf p) m with
  | (Err _, m) => (writeError 404 "no such domain", m)
  | (Ok d, m) =>
      let forced := devAuth && String.eqb force "true" in
      if negb forced && negb (dnsHasTXT lookupTXT ("_trqsh-challenge." +:+ cd_Domain d) (cd_VerifyToken d))
      then (writeError 400 "DNS TXT record not found yet; add it and retry", m)
      else match VerifyCustomDomain id (orgOf p) now m with
           | (Err e, m) => store_error e m
           | (Ok _, m) =>
               let verified := ok_or (fst (GetCustomDomain id (orgOf p) m)) zero_domain in
               (writeJSON 200 (domain_json verified), m)
           end
  end.

(** * Usage, orgs, tunnels, plans *)
Definition zero_usage : UsageRecord :=
  {| ur_OrgID := ""; ur_TunnelID := ""; ur_BytesIn := 0; ur_BytesOut := 0; ur_Requests := 0;
     ur_WindowStart := 0; ur_WindowEnd := 0 |}.

Definition handleUsage (now : Time) (p : Principal) : Handler := λ m,
  match GetOrg (orgOf p) m with
  | (Err e, m) => store_error e m
  | (Ok org, m) =>
      let usage := ok_or (fst (UsageForOrg now (og_ID org) (days_ago now 30) m)) zero_usage in
      let planCode := effectivePlan now org in
      let plan := PlanFor planCode in
      (writeJSON 200 (JObj
         [("usage", usage_json usage);
          ("limits", JObj [("bandwidth_bytes_mo", JNum (p_MaxBandwidthBytesMo plan));
                           ("requests_mo", JNum (p_MaxRequestsMo plan))]);
          ("plan", JStr planCode); ("plan_expires_at", JOptTime (og_PlanExpiresAt org))]), m)
  end.

Definition handleListOrgs (p : Principal) : Handler := λ m,
  if String.eqb (pr_UserID p) "" then
    match GetOrg (pr_OrgID p) m with
    | (Err e, m) => store_error e m
    | (Ok org, m) => (writeJSON 200 (JArr [org_json org]), m)
    end
  else match OrgsForUser (pr_UserID p) m with
       | (Err e, m) => store_error e m
       | (Ok l, m) => (writeJSON 200 (JArr (map org_json l)), m)
       end.

Definition handleListTunnels (p : Principal) : Handler := λ m,
  match ListTunnelSessions {| tf_OrgID := orgOf p; tf_ActiveOnly := true; tf_Limit := 200; tf_Offset := 0 |} m with
  | (Err e, m) => store_error e m
  | (Ok l, m) => (writeJSON 200 (JArr (map tunnel_json l)), m)
  end.

Definition ownerUserID (l : list OrgMember) : string :=
  match find_first (λ x, String.eqb (om_Role x) "owner") l with
  | Some x => om_UserID x
  | None => match l with x :: _ => om_UserID x | [] => "" end
  end.

Definition with_plan (plan : string) (o : Org) : Org :=
  {| og_ID := og_ID o; og_Name := og_Name o; og_Plan := plan; og_StripeCustomerID := og_StripeCustomerID o;
     og_CreatedAt := og_CreatedAt o; og_PlanExpiresAt := og_PlanExpiresAt o |}.

Definition handleMe (now : Time) (p : Principal) : Handler := λ m,
  match GetOrg (pr_OrgID p) m with
  | (Err e, m) => store_error e m
  | (Ok org, m) =>
      let userID := if String.eqb (pr_UserID p) "" then
                      match fst (ListOrgMembers (og_ID org) m) with Ok l => ownerUserID l | Err _ => "" end
                    else pr_UserID p in
      let u := if String.eqb userID "" then zero_user else ok_or (fst (GetUser userID m)) zero_user in
      let planCode := effectivePlan now org in
      let plan := PlanFor planCode in
      let usage := ok_or (fst (UsageForOrg now (og_ID org) (days_ago now 30) m)) zero_usage in
      (writeJSON 200 (JObj
         [("user", user_json u); ("org", org_json (with_plan planCode org)); ("plan", JStr planCode);
          ("plan_expires_at", JOptTime (og_PlanExpiresAt org)); ("via_api_key", JBool (pr_ViaAPIKey p));
          ("usage", usage_json usage);
          ("limits", JObj [("bandwidth_bytes_mo", JNum (p_MaxBandwidthBytesMo plan));
                           ("requests_mo", JNum (p_MaxRequestsMo plan));
                           ("max_concurrent_tunnels", JNum (p_MaxConcurrentTunnels plan));
                           ("max_reserved_subdomains", JNum (p_MaxReservedSubdomains plan));
                           ("max_custom_domains", JNum (p_MaxCustomDomains plan))])]), m)
  end.

Definition prices_json (x : StripePrices) : Json :=
  JObj (omit_str "monthly" (Monthly x) ++ omit_str "annual" (Annual x) ++ omit_str "metered" (Metered_ x)).
(** The fields both plan listings show. *)
Definition plan_fields (p : Plan) : list (string * Json) :=
  [("code", JStr (p_Code p)); ("name", JStr (p_Name p)); ("max_concurrent_tunnels", JNum (p_MaxConcurrentTunnels p));
   ("max_bandwidth_bytes_mo", JNum (p_MaxBandwidthBytesMo p)); ("max_requests_mo", JNum (p_MaxRequestsMo p));
   ("max_reserved_subdomains", JNum (p_MaxReservedSubdomains p)); ("max_custom_domains", JNum (p_MaxCustomDomains p));
   ("allow_custom_domains", JBool (p_AllowCustomDomains p)); ("allow_tcp", JBool (p_AllowTCP p));
   ("allow_tls", JBool (p_AllowTLS p)); ("allow_udp", JBool (p_AllowUDP p)); ("rate_limit_rps", JNum (p_RateLimitRPS p));
   ("inspector_history", JNum (p_InspectorHistory p)); ("metered_seats", JBool (p_MeteredSeats p));
   ("price_monthly_cents", JNum (p_PriceMonthlyCents p)); ("price_annual_cents", JNum (p_PriceAnnualCents p))].
Definition plan_json (p : Plan) : Json := JObj (plan_fields p ++ [("stripe_prices", prices_json (p_StripePrices p))]).
Definition publicPlan (p : Plan) : Json := JObj (plan_fields p).

Definition handleListPlans : Response :=
  writeJSON 200 (JArr (map plan_json
    (sort_by (λ a b, p_MaxConcurrentTunnels a <? p_MaxConcurrentTunnels b) (range_map Catalog).*2))).

Definition planDisplayRank (code : string) : Z :=
  if String.eqb code PlanPro then 1 else if String.eqb code PlanTeam then 2 else if String.eqb code PlanPAYG then 3 else 0.
Definition handleListPlansPublic : Response :=
  writeJSON 200 (JArr (map publicPlan
    (sort_by (λ a b, planDisplayRank (p_Code a) <? planDisplayRank (p_Code b)) (range_map Catalog).*2))).

(** * History: query parameters as text *)
Definition parsePage (qlimit qoffset : string) (defLimit maxLimit : Z) : Z * Z :=
  let limit := match Atoi qlimit with Some v => if v >? 0 then v else defLimit | None => defLimit end in
  let limit := if limit >? maxLimit then maxLimit else limit in
  let offset := match Atoi qoffset with Some v => if v >? 0 then v else 0 | None => 0 end in
  (limit, offset).

Definition handleTunnelHistory (qlimit qoffset qactive : string) (p : Principal) : Handler := λ m,
  let org := orgOf p in
  let '(limit, offset) := parsePage qlimit qoffset 50 200 in
  let activeOnly := String.eqb qactive "true" in
  match ListTunnelSessions {| tf_OrgID := org; tf_ActiveOnly := activeOnly; tf_Limit := limit; tf_Offset := offset |} m with
  | (Err e, m) => store_error e m
  | (Ok l, m) =>
      let total := ok_or (fst (CountTunnelSessions org activeOnly m)) 0 in
      (writeJSON 200 (JObj [("sessions", JArr (map tunnel_json l)); ("total", JNum total);
                            ("limit", JNum limit); ("offset", JNum offset)]), m)
  end.

Definition history_days (q : string) : Z :=
  let days := match Atoi q with Some v => if v >? 0 then v else 30 | None => 30 end in
  if days >? 365 then 365 else days.

Definition handleUsageHistory (now : Time) (qbucket qdays : string) (p : Principal) : Handler := λ m,
  let bucket := if negb (String.eqb qbucket "hour") then "day" else qbucket in
  let since := days_ago now (history_days qdays) in
  match UsageSeriesForOrg (orgOf p) since bucket m with
  | (Err e, m) => store_error e m
  | (Ok series, m) =>
      (writeJSON 200 (JObj [("bucket", JStr bucket); ("since", JTime since); ("series", JArr (map bucket_json series))]), m)
  end.
End resources.

(** * The edge's RPC *)
Section rpc.
  Context (IDKey : string → list Z → Z → Z → Z → Z → list Z).

(** In its canonical spelling, as [Header.Get] looks it up. *)
Definition HeaderToken : string := "X-Trqsh-Internal-Token".

(** [internalTokenGuard] around a handler. *)
Definition internalTokenGuard (token : string) (h : Header) (next : Handler) : Handler := λ m,
  let got := Get h HeaderToken in
  if String.eqb token "" || negb (String.eqb got token) then (writeError 401 "invalid internal token", m) else next m.

Definition rpcAuthenticate (now : Time) (body : option string) : Handler :=
  decode_then body (λ key m,
    match ent_Authenticate IDKey now key m with
    | (Err _, m) => (writeJSON 200 (JObj [("account_id", JStr ""); ("plan", JStr ""); ("error", JStr "invalid api key")]), m)
    | (Ok (acct, plan), m) => (writeJSON 200 (JObj [("account_id", JStr acct); ("plan", JStr plan)]), m)
    end).

(** [authz.Limits] has no tags: its field names. *)
Definition limits_json (l : Limits) : Json :=
  JObj [("MaxConcurrentTunnels", JNum (MaxConcurrentTunnels l)); ("MaxBandwidthBytesMo", JNum (MaxBandwidthBytesMo l));
        ("MaxRequestsMo", JNum (MaxRequestsMo l)); ("AllowCustomDomains", JBool (AllowCustomDomains l));
        ("AllowReservedSubdomain", JBool (AllowReservedSubdomain l)); ("AllowTCP", JBool (AllowTCP l));
        ("AllowUDP", JBool (AllowUDP l)); ("RateLimitRPS", JNum (RateLimitRPS l))].
Definition decision_json (d : Decision) : Json :=
  JObj [("allow", JBool (Allow d)); ("account_id", JStr (d_AccountID d)); ("plan", JStr (d_Plan d));
        ("limits", limits_json (d_Limits d)); ("assigned_subdomain", JStr (AssignedSubdomain d));
        ("error_code", JStr (ErrorCode d)); ("error_message", JStr (ErrorMessage d))].

Definition rpcCheckBind (quota : bool) (draw : list Z) (now : Time) (body : option BindRequest) : Handler :=
  decode_then body (λ req m,
    match ent_CheckBind IDKey quota draw now req m with
    | (Err _, m) => (writeError 500 "", m) (* [CheckBind] returns no error *)
    | (Ok d, m) => (writeJSON 200 (decision_json d), m)
    end).

Definition rpcReportUsage (body : option Usage) : Handler :=
  decode_then body (λ u m, (no_content 200, snd (ent_ReportUsage u m))).

Record TunnelReport := {
  tr_Action : string; tr_AccountID : string; tr_EdgeID : string; tr_SessionID : string; tr_TunnelID : string;
  tr_Type : string; tr_PublicURL : string; tr_Host : string; tr_Port : Z; tr_Region : string; tr_ClientIP : string;
  tr_BytesIn : Z; tr_BytesOut : Z; tr_Requests : Z; tr_At : Time;
}.

(** [fromIP]: the country and city of the agent's address. *)
Definition rpcReportTunnel (fromIP : string → string * string) (now : Time) (rnd : list Z) (body : option TunnelReport)
    : Handler :=
  decode_then body (λ req m,
    if String.eqb (tr_AccountID req) "" then (no_content 200, m)
    else
      let at_ := if IsZero (tr_At req) then now else tr_At req in
      if String.eqb (tr_Action req) "open" then
        let '(country, city) := fromIP (tr_ClientIP req) in
        (no_content 200, snd (RecordTunnelOpen now rnd
           {| ts_ID := ""; ts_OrgID := tr_AccountID req; ts_EdgeID := tr_EdgeID req; ts_SessionID := tr_SessionID req;
              ts_TunnelID := tr_TunnelID req; ts_Type := tr_Type req; ts_PublicURL := tr_PublicURL req;
              ts_Host := tr_Host req; ts_Port := tr_Port req; ts_Region := tr_Region req; ts_ClientIP := tr_ClientIP req;
              ts_Country := country; ts_City := city; ts_BytesIn := 0; ts_BytesOut := 0; ts_Requests := 0;
              ts_Status := ""; ts_StartedAt := at_; ts_EndedAt := None |} m))
      else if String.eqb (tr_Action req) "close" then
        (no_content 200, snd (CloseTunnelSession (tr_EdgeID req) (tr_SessionID req) (tr_TunnelID req) at_
                               (tr_BytesIn req) (tr_BytesOut req) (tr_Requests req) m))
      else (no_content 200, m)).
End rpc.

(** * Checkout and portal
    Stripe's answers are arguments: the id of a created customer, and the
    session's URL and id. *)
Definition ErrBillingDisabled : string := "billing: Stripe is not configured".

(** The contact loop: the owner, else the first member with an id. *)
Fixpoint contact_loop (userID : string) (l : list OrgMember) : string :=
  match l with
  | [] => userID
  | x :: l => if String.eqb (om_Role x) "owner" then om_UserID x
              else contact_loop (if String.eqb userID "" then om_UserID x else userID) l
  end.
Definition ownerContact (orgID : string) (m : MemStore) : string * string :=
  match fst (ListOrgMembers orgID m) with
  | Err _ => ("", "")
  | Ok l =>
      let userID := contact_loop "" l in
      if String.eqb userID "" then ("", "")
      else match fst (GetUser userID m) with
           | Err _ => ("", "")
           | Ok u => (us_Email u, us_Name u)
           end
  end.

Record CustomerParams := { cp_Email : string; cp_Name : string; cp_OrgID : string }.
Record CheckoutParams := {
  co_CustomerID : string; co_PriceID : string; co_SuccessURL : string; co_CancelURL : string; co_OrgID : string;
  co_TrialDays : Z; co_AllowPromoCodes : bool; co_MeteredPrice : bool;
}.
Record StripeAPI := {
  sa_CreateCustomer : CustomerParams → result string string;
  sa_CreateCheckoutSession : CheckoutParams → result string (string * string);
  sa_CreatePortalSession : string → string → result string string;
}.
(** The part of billing's configuration these endpoints read beside the prices. *)
Record CheckoutConfig := { cc_SuccessURL : string; cc_CancelURL : string; cc_PortalReturnURL : string; cc_TrialDays : Z }.

Section checkout.
  Context (cfg : BillingConfig) (cc : CheckoutConfig) (stripe : StripeAPI).

Definition resolveCustomer (orgID : string) : M MemStore string string := λ m,
  if negb (Enabled cfg) then (Err ErrBillingDisabled, m)
  else match GetOrg orgID m with
       | (Err e, m) => (Err (StoreErr_Error e), m)
       | (Ok org, m) =>
           if negb (String.eqb (og_StripeCustomerID org) "") then (Ok (og_StripeCustomerID org), m)
           else
             let '(email, name) := ownerContact orgID m in
             match sa_CreateCustomer stripe {| cp_Email := email; cp_Name := name; cp_OrgID := orgID |} with
             | Err e => (Err e, m)
             | Ok custID =>
                 match SetOrgStripeCustomer orgID custID m with
                 | (Err e, m) => (Err (StoreErr_Error e), m)
                 | (Ok _, m) => (Ok custID, m)
                 end
             end
       end.

Definition HandleCheckout (p : Principal) (body : option (string * string)) : Handler := λ m,
  if negb (Enabled cfg) then (writeError 503 ErrBillingDisabled, m)
  else decode_then body (λ '(planCode, cadence) m,
    let cadence := if String.eqb cadence "" then "monthly" else cadence in
    match Catalog !! planCode with
    | None => (writeError 400 "unknown or non-billable plan", m)
    | Some plan =>
        if String.eqb (p_Code plan) PlanFree then (writeError 400 "unknown or non-billable plan", m)
        else
          let priceID := PriceID cfg planCode cadence in
          if String.eqb priceID "" then (writeError 400 "no Stripe price configured for this plan/cadence", m)
          else match resolveCustomer (orgOf p) m with
               | (Err _, m) => (writeError 502 "could not create billing customer", m)
               | (Ok customerID, m) =>
                   let trial := if String.eqb (p_Code plan) PlanPro then cc_TrialDays cc else 0 in
                   match sa_CreateCheckoutSession stripe
                           {| co_CustomerID := customerID; co_PriceID := priceID; co_SuccessURL := cc_SuccessURL cc;
                              co_CancelURL := cc_CancelURL cc; co_OrgID := orgOf p; co_TrialDays := trial;
                              co_AllowPromoCodes := true;
                              co_MeteredPrice := String.eqb cadence "metered" || Metered plan |} with
                   | Err _ => (writeError 502 "could not create checkout session", m)
                   | Ok (url, id) => (writeJSON 200 (JObj [("url", JStr url); ("session_id", JStr id)]), m)
                   end
               end
    end) m.

Definition HandlePortal (p : Principal) : Handler := λ m,
  if negb (Enabled cfg) then (writeError 503 ErrBillingDisabled, m)
  else match GetOrg (orgOf p) m with
       | (Err _, m) => (writeError 500 "org lookup failed", m)
       | (Ok org, m) =>
           if String.eqb (og_StripeCustomerID org) "" then (writeError 400 "no subscription to manage yet", m)
           else match sa_CreatePortalSession stripe (og_StripeCustomerID org) (cc_PortalReturnURL cc) with
                | Err _ => (writeError 502 "could not create portal session", m)
                | Ok url => (writeJSON 200 (JObj [("url", JStr url)]), m)
                end
       end.

Definition subscription_json (s : Subscription) : Json :=
  JObj [("id", JStr (sb_ID s)); ("org_id", JStr (sb_OrgID s)); ("stripe_subscription_id", JStr (sb_StripeSubID s));
        ("stripe_customer_id", JStr (sb_StripeCustomerID s)); ("plan", JStr (sb_Plan s)); ("status", JStr (sb_Status s));
        ("current_period_end", JTime (sb_CurrentPeriodEnd s)); ("cancel_at_period_end", JBool (sb_CancelAtPeriodEnd s));
        ("created_at", JTime (sb_CreatedAt s)); ("updated_at", JTime (sb_UpdatedAt s))].

Definition HandleSubscription (p : Principal) : Handler := λ m,
  match GetOrg (orgOf p) m with
  | (Err _, m) => (writeError 500 "org lookup failed", m)
  | (Ok org, m) =>
      (writeJSON 200 (JObj ([("plan", JStr (og_Plan org)); ("billing_enabled", JBool (Enabled cfg))] ++
         match fst (GetSubscriptionForOrg (orgOf p) m) with
         | Ok sub => [("subscription", subscription_json sub)]
         | Err _ => []
         end)), m)
  end.
End checkout.
