(* ===== verification/ApiSafety.v ===== *)
(** What the resource handlers guarantee: each changes the store by at most one
    operation, on rows of the caller's own org; reservations respect the plan's
    limit one request at a time, and not when requests overlap. *)
From S2P Require Import Prelude GoStrings Authz Store StoreInv Listings Billing Entitle EntitleSafety Ingress Login ApiConfig ApiResources.
From Stdlib Require Import Ascii.

Open Scope Z_scope.

(** * Calls *)

(** The authenticated requests on resources, with the randomness they draw. *)
Inductive api_call :=
| QCreateKey (pb sb salt rnd : list Z) (body : option string)
| QListKeys
| QRevokeKey (id : string)
| QReserve (rnd : list Z) (body : option string)
| QListSubs
| QRelease (id : string)
| QAddDomain (tok rnd : list Z) (body : option string)
| QListDomains
| QVerifyDomain (id force : string)
| QUsage
| QListOrgs
| QListTunnels
| QMe
| QTunnelHistory (limit offset active_ : string)
| QUsageHistory (bucket days : string)
| QCheckout (body : option (string * string))
| QPortal
| QSubscription.

Section calls.
  Context (IDKey : string → list Z → Z → Z → Z → Z → list Z) `{RangeOrder}.
  Context (cfg : ApiConfig) (bcfg : BillingConfig) (cc : CheckoutConfig) (stripe : StripeAPI).
  Context (lookupTXT : string → option (list string)).

Definition api_exec (now : Time) (p : Principal) (c : api_call) : Handler :=
  match c with
  | QCreateKey pb sb salt rnd body => handleCreateAPIKey IDKey now pb sb salt rnd p body
  | QListKeys => handleListAPIKeys p
  | QRevokeKey id => handleRevokeAPIKey now p id
  | QReserve rnd body => handleReserveSubdomain now rnd p body
  | QListSubs => handleListSubdomains p
  | QRelease id => handleReleaseSubdomain p id
  | QAddDomain tok rnd body => handleAddDomain now tok rnd (ac_BaseDomain cfg) p body
  | QListDomains => handleListDomains p
  | QVerifyDomain id force => handleVerifyDomain now lookupTXT (ac_DevAuth cfg) p id force
  | QUsage => handleUsage now p
  | QListOrgs => handleListOrgs p
  | QListTunnels => handleListTunnels p
  | QMe => handleMe now p
  | QTunnelHistory l o a => handleTunnelHistory l o a p
  | QUsageHistory b d => handleUsageHistory now b d p
  | QCheckout body => HandleCheckout bcfg cc stripe p body
  | QPortal => HandlePortal bcfg cc stripe p
  | QSubscription => HandleSubscription bcfg p
  end.

(** The org a row belongs to decides who may change it: what a call may do to
    the store on behalf of [org]. *)
Definition op_of_org (org : string) (m : MemStore) (o : store_op) : Prop :=
  match o with
  | SCreateAPIKey _ _ k => ak_OrgID k = org ∧ ak_ID k = ""
  | SRevokeAPIKey _ org' _ => org' = org
  | SReserveSubdomain _ _ s => ∃ o, orgs m !! org = Some o ∧ rs_OrgID s = og_ID o ∧ rs_ID s = ""
  | SReleaseSubdomain _ org' => org' = org
  | SAddCustomDomain _ _ d => ∃ o, orgs m !! org = Some o ∧ cd_OrgID d = og_ID o ∧ cd_ID d = ""
  | SVerifyCustomDomain _ org' _ => org' = org
  | SSetOrgStripeCustomer org' _ => org' = org
  | _ => False
  end.

(** Random ids do not collide: a new row's is not in use. *)
Definition call_fresh (c : api_call) (m : MemStore) : Prop :=
  match c with
  | QCreateKey _ _ _ rnd _ => keys m !! NewID "key" rnd = None
  | QReserve rnd _ => subs m !! NewID "sub" rnd = None
  | QAddDomain _ rnd _ => domains m !! NewID "dom" rnd = None
  | _ => True
  end.

(** The operation inside a handler, found in the goal: its outcome decides the
    response, its state is the handler's. *)
Ltac one_op op :=
  right; exists op; split; [|split; [try (by simpl; eauto)|done]];
  unfold store_exec;
  match goal with |- snd (match ?c with _ => _ end) = snd ?c => destruct c as [[?|[]] ?] end; done.

(** A call reads, or runs one operation for its org. *)
Lemma api_exec_op now p c m :
  snd (api_exec now p c m) = m ∨
  ∃ o, snd (api_exec now p c m) = store_exec m o ∧ op_of_org (pr_OrgID p) m o ∧ (call_fresh c m → fresh_id m o).
Proof.
  destruct c; simpl; try by left.
  - destruct body as [name|]; [|by left]. unfold handleCreateAPIKey, decode_then, store_error.
    match goal with |- context [CreateAPIKey now rnd ?k m] => one_op (SCreateAPIKey now rnd k) end.
  - unfold handleRevokeAPIKey. one_op (SRevokeAPIKey id (orgOf p) now).
  - destruct body as [sub|]; [|by left]. unfold handleReserveSubdomain, decode_then, GetOrg, orgOf, reserve_checked, store_error.
    case_match; [by left|]. destruct (orgs m !! pr_OrgID p) as [o|] eqn:Ho; [|by left]. cbn -[ReserveSubdomain].
    case_match; [by left|].
    match goal with |- context [ReserveSubdomain now rnd ?k m] => one_op (SReserveSubdomain now rnd k) end.
  - unfold handleReleaseSubdomain. one_op (SReleaseSubdomain id (orgOf p)).
  - destruct body as [d|]; [|by left]. unfold handleAddDomain, decode_then, GetOrg, orgOf, store_error.
    case_match; [by left|]. destruct (orgs m !! pr_OrgID p) as [o|] eqn:Ho; [|by left]. cbn -[AddCustomDomain].
    case_match; [by left|]. case_match; [by left|].
    match goal with |- context [AddCustomDomain now rnd ?k m] => one_op (SAddCustomDomain now rnd k) end.
  - unfold handleVerifyDomain, GetCustomDomain, store_error.
    destruct (domains m !! id) as [d|]; [|by left]. destruct (negb _); [by left|].
    destruct (_ && negb (dnsHasTXT _ _ _)); [by left|]. one_op (SVerifyCustomDomain id (orgOf p) now).
  - unfold handleUsage, GetOrg. destruct (orgs m !! orgOf p); by left.
  - unfold handleListOrgs, GetOrg. destruct (String.eqb _ _); [|by left]. destruct (orgs m !! pr_OrgID p); by left.
  - unfold handleMe, GetOrg. destruct (orgs m !! pr_OrgID p); by left.
  - unfold HandleCheckout, decode_then. destruct (negb (Enabled bcfg)) eqn:Hen; [by left|].
    destruct body as [[code cad]|]; [|by left]. destruct (Catalog !! code); [|by left].
    case_match; [by left|]. case_match; [by left|]. unfold resolveCustomer, GetOrg. rewrite Hen.
    destruct (orgs m !! orgOf p) as [o|] eqn:Ho; [|by left].
    destruct (negb (String.eqb (og_StripeCustomerID o) "")); [by repeat case_match; left|].
    destruct (ownerContact _ _). destruct (sa_CreateCustomer _ _) as [cust|]; [|by left].
    right. exists (SSetOrgStripeCustomer (orgOf p) cust). split; [|done]. unfold store_exec.
    destruct (SetOrgStripeCustomer _ _ _) as [[?|?] ?]; [|done]. by repeat case_match.
  - unfold HandlePortal, GetOrg. repeat case_match; simplify_eq; by left.
  - unfold HandleSubscription, GetOrg. repeat case_match; simplify_eq; by left.
Qed.

End calls.

(** * Isolation of orgs *)

(** Every row that differs between two tables belongs to [o], before and after. *)
Definition only_org {V} (org : V → string) (o : string) (t t' : gmap string V) : Prop :=
  ∀ id, t !! id = t' !! id ∨
    ((∀ v, t !! id = Some v → org v = o) ∧ (∀ v, t' !! id = Some v → org v = o)).

Section only_org.
  Context {V : Type} (org : V → string) (o : string).
  Implicit Types t : gmap string V.

Lemma only_org_refl t : only_org org o t t.
Proof. intros id. by left. Qed.

Lemma only_org_insert t id v :
  (∀ w, t !! id = Some w → org w = o) → org v = o → only_org org o t (<[id := v]> t).
Proof.
  intros Hold Hv i. destruct (decide (i = id)) as [->|Hne]; [|left; by rewrite lookup_insert_ne].
  right. rewrite lookup_insert_eq. split; [done|]. by intros ? [= <-].
Qed.

Lemma only_org_delete t id v : t !! id = Some v → org v = o → only_org org o t (delete id t).
Proof.
  intros Hv Ho i. destruct (decide (i = id)) as [->|Hne]; [|left; by rewrite lookup_delete_ne].
  right. rewrite Hv, lookup_delete_eq. split; [|done]. by intros ? [= <-].
Qed.
End only_org.

(** Orgs sit under their own ids. *)
Definition org_ids (m : MemStore) : Prop := ∀ id o, orgs m !! id = Some o → og_ID o = id.

Lemma org_ids_exec m o : org_ids m → org_ids (store_exec m o).
Proof.
  intros Hids. destruct o; simpl; try done;
    try (unfold CreateUser, UpdateUserProfile, AddOrgMember, CreateAPIKey, TouchAPIKey, RevokeAPIKey, ReserveSubdomain,
           ReleaseSubdomain, AddCustomDomain, VerifyCustomDomain, RecordTunnelOpen, CloseTunnelSession,
           DeleteSubscription, MarkEventProcessed, InsertMeteredUsage; repeat case_match; done).
  - intros id x. simpl. intros [[<- <-]|[_ Hx]]%lookup_insert_Some; [done|by apply Hids].
  - unfold UpdateOrgPlan, update_org. destruct (orgs m !! orgID) as [y|] eqn:Hy; [|done].
    intros id x. simpl. intros [[<- <-]|[_ Hx]]%lookup_insert_Some; simpl; by apply Hids.
  - unfold SetOrgPlan, update_org. destruct (orgs m !! orgID) as [y|] eqn:Hy; [|done].
    intros id x. simpl. intros [[<- <-]|[_ Hx]]%lookup_insert_Some; simpl; by apply Hids.
  - unfold SetOrgStripeCustomer, update_org. destruct (orgs m !! orgID) as [y|] eqn:Hy; [|done].
    intros id x. simpl. intros [[<- <-]|[_ Hx]]%lookup_insert_Some; simpl; by apply Hids.
Qed.

Lemma reachable_org_ids m : store_reachable m → org_ids m.
Proof. induction 1; [by intros id o|by apply org_ids_exec]. Qed.

(** The tables an org's calls may touch differ only in its own rows, and the
    others not at all. *)
Record org_frame (o : string) (m m' : MemStore) : Prop := {
  of_keys : only_org ak_OrgID o (keys m) (keys m');
  of_subs : only_org rs_OrgID o (subs m) (subs m');
  of_domains : only_org cd_OrgID o (domains m) (domains m');
  of_orgs : ∀ id, id ≠ o → orgs m' !! id = orgs m !! id;
  of_rest : users m' = users m ∧ members m' = members m ∧ usage_ m' = usage_ m ∧ history m' = history m ∧
    subsByOrg m' = subsByOrg m ∧ events m' = events m ∧ metered m' = metered m;
}.

Lemma org_frame_refl o m : org_frame o m m.
Proof. split; try apply only_org_refl; done. Qed.

Lemma op_of_org_frame org m o :
  org_ids m → fresh_id m o → op_of_org org m o → org_frame org m (store_exec m o).
Proof.
  intros Hids Hf Hop. destruct o; simpl in *; try done.
  - subst. unfold SetOrgStripeCustomer, update_org. destruct (orgs m !! org); [|apply org_frame_refl].
    split; try apply only_org_refl; try done. intros id Hne. simpl. by rewrite lookup_insert_ne.
  - destruct Hop as [<- Hid]. unfold CreateAPIKey. simpl. destruct (keyPrefix m !! _); [apply org_frame_refl|].
    split; try apply only_org_refl; try done. apply only_org_insert; [|done]. intros w Hw. simpl in Hw. congruence.
  - subst. unfold RevokeAPIKey. destruct (keys m !! id) as [k|] eqn:Hk; [|apply org_frame_refl].
    destruct (String.eqb_spec (ak_OrgID k) org); [|apply org_frame_refl].
    split; try apply only_org_refl; try done. apply only_org_insert; [|done]. congruence.
  - destruct Hop as (og & Hog & Hs & Hid). apply Hids in Hog. unfold ReserveSubdomain.
    destruct (subByName m !! _); [apply org_frame_refl|].
    split; try apply only_org_refl; try done. apply only_org_insert; [|simpl; congruence].
    intros w Hw. simpl in Hw. congruence.
  - subst. unfold ReleaseSubdomain. destruct (subs m !! id) as [x|] eqn:Hx; [|apply org_frame_refl].
    destruct (String.eqb_spec (rs_OrgID x) org); [|apply org_frame_refl].
    split; try apply only_org_refl; try done. by eapply only_org_delete.
  - destruct Hop as (og & Hog & Hs & Hid). apply Hids in Hog. unfold AddCustomDomain.
    destruct (domByName m !! _); [apply org_frame_refl|].
    split; try apply only_org_refl; try done. apply only_org_insert; [|simpl; congruence].
    intros w Hw. simpl in Hw. congruence.
  - subst. unfold VerifyCustomDomain. destruct (domains m !! id) as [x|] eqn:Hx; [|apply org_frame_refl].
    destruct (String.eqb_spec (cd_OrgID x) org); [|apply org_frame_refl].
    split; try apply only_org_refl; try done. apply only_org_insert; [|done]. congruence.
Qed.

(** Tenants are isolated: whatever authenticated resource request a caller
    makes, with whatever ids and names, the keys, subdomains and domains it
    creates, changes or deletes are rows of the caller's own org, no other org's
    record changes, nothing else in the store changes, and the store stays one
    that its operations can reach. *)
Theorem tenants_are_isolated IDKey `{RangeOrder} cfg bcfg cc stripe lookupTXT now p c m :
  store_reachable m → call_fresh c m →
  let m' := snd (api_exec IDKey cfg bcfg cc stripe lookupTXT now p c m) in
  org_frame (pr_OrgID p) m m' ∧ store_reachable m'.
Proof.
  intros Hm Hf. simpl.
  destruct (api_exec_op IDKey cfg bcfg cc stripe lookupTXT now p c m) as [->|(o & -> & Hop & Hfr)].
  - split; [apply org_frame_refl|done].
  - split; [|by apply sr_step; [|apply Hfr]].
    apply op_of_org_frame; [by apply reachable_org_ids|by apply Hfr|done].
Qed.

(** * Reservations and the plan's limit *)
Definition sub_count (org : string) (m : MemStore) : Z :=
  Z.of_nat (length (List.filter (λ s, String.eqb (rs_OrgID s) org) (map_to_list (subs m)).*2)).

Lemma CountSubdomains_count `{RangeOrder} org m : CountSubdomains org m = (Ok (sub_count org m), m).
Proof.
  unfold CountSubdomains, sub_count. do 3 f_equal.
  assert (Hp : (range_map (subs m)).*2 ≡ₚ (map_to_list (subs m)).*2) by (by rewrite range_map_perm).
  induction Hp; simpl; repeat case_match; simpl; lia.
Qed.

Lemma sub_count_insert m id s ix :
  subs m !! id = None →
  sub_count (rs_OrgID s) (set_subs (<[id := s]> (subs m)) ix m) = sub_count (rs_OrgID s) m + 1.
Proof.
  intros Hid. unfold sub_count. simpl.
  replace (Z.of_nat _ + 1) with (Z.of_nat (S (length (List.filter (λ x, String.eqb (rs_OrgID x) (rs_OrgID s))
    (map_to_list (subs m)).*2)))) by lia. f_equal.
  assert (Hp : (map_to_list (<[id := s]> (subs m))).*2 ≡ₚ s :: (map_to_list (subs m)).*2).
  { by rewrite map_to_list_insert. }
  transitivity (length (List.filter (λ x, String.eqb (rs_OrgID x) (rs_OrgID s)) (s :: (map_to_list (subs m)).*2))).
  - clear -Hp. revert Hp. generalize (s :: (map_to_list (subs m)).*2) as l2.
    generalize ((map_to_list (<[id := s]> (subs m))).*2) as l1. intros l1 l2 Hp.
    induction Hp; simpl; repeat case_match; simpl; lia.
  - simpl. by rewrite String.eqb_refl.
Qed.

Definition name_taken (name : string) (m : MemStore) : Prop := ∃ id s, subs m !! id = Some s ∧ rs_Subdomain s = name.

Lemma name_free name m : store_ok m → subByName m !! name = None ↔ ¬ name_taken name m.
Proof.
  intros Hok. rewrite eq_None_not_Some. unfold is_Some.
  setoid_rewrite (so_subs _ Hok name). unfold name_taken. naive_solver.
Qed.

Definition new_sub (now : Time) (rnd : list Z) (org name : string) : ReservedSubdomain :=
  {| rs_ID := NewID "sub" rnd; rs_OrgID := org; rs_Subdomain := name; rs_CreatedAt := now |}.
Definition sub_max (now : Time) (org : Org) : Z := p_MaxReservedSubdomains (PlanFor (effectivePlan now org)).

Lemma reserve_checked_spec now rnd org count name m :
  lowered name →
  reserve_checked now rnd org count name m =
    if count >=? sub_max now org then (writeError 403 "reserved subdomain limit reached for your plan", m)
    else match subByName m !! name with
         | Some _ => (writeError 409 "subdomain already taken", m)
         | None =>
             (writeJSON 201 (subdomain_json (new_sub now rnd (og_ID org) name)),
              set_subs (<[NewID "sub" rnd := new_sub now rnd (og_ID org) name]> (subs m))
                       (<[name := NewID "sub" rnd]> (subByName m)) m)
         end.
Proof.
  intros Hl. unfold reserve_checked. fold (sub_max now org). destruct (count >=? sub_max now org); [done|].
  unfold ReserveSubdomain. simpl. rewrite Hl. by destruct (subByName m !! name).
Qed.

(** A reservation request succeeds exactly when the name is a valid label, no
    row of any org holds it and the caller's org is below its effective plan's
    limit; it then adds exactly the row it reports, for the caller's org, which
    is still within the limit; otherwise the store is untouched. *)
Theorem reserve_exact `{RangeOrder} now rnd p sub m org :
  store_reachable m → subs m !! NewID "sub" rnd = None → orgs m !! pr_OrgID p = Some org →
  let name := ToLower (TrimSpace sub) in
  let '(r, m') := handleReserveSubdomain now rnd p (Some sub) m in
  (rs_Status r = 201 ↔
     subdomainRe name = true ∧ ¬ name_taken name m ∧ sub_count (pr_OrgID p) m < sub_max now org) ∧
  (rs_Status r = 201 →
     rs_Body r = subdomain_json (new_sub now rnd (pr_OrgID p) name) ∧
     subs m' = <[NewID "sub" rnd := new_sub now rnd (pr_OrgID p) name]> (subs m) ∧
     sub_count (pr_OrgID p) m' = sub_count (pr_OrgID p) m + 1 ∧ sub_count (pr_OrgID p) m' <= sub_max now org) ∧
  (rs_Status r ≠ 201 → m' = m).
Proof.
  intros Hm Hid Horg name. pose proof (store_reachable_ok _ Hm) as Hok.
  pose proof (reachable_org_ids _ Hm _ _ Horg) as Hoid.
  assert (Hl : lowered name) by apply lowered_ToLower.
  unfold handleReserveSubdomain, decode_then, GetOrg, orgOf. fold name. rewrite Horg.
  rewrite CountSubdomains_count, Hoid. cbn [ok_or]. rewrite reserve_checked_spec, Hoid by done.
  destruct (subdomainRe name) eqn:Hre; simpl; [|naive_solver].
  pose proof (name_free name m Hok) as Hfree.
  destruct (Z.geb_spec (sub_count (pr_OrgID p) m) (sub_max now org)) as [Hge|Hlt].
  { simpl. split_and!; [|done|done]. split; [done|]. lia. }
  destruct (subByName m !! name) eqn:Hn; simpl.
  { split_and!; [|done|done]. split; [done|]. intros (_ & ?%Hfree & _). done. }
  pose proof (sub_count_insert m (NewID "sub" rnd) (new_sub now rnd (pr_OrgID p) name)
    (<[name := NewID "sub" rnd]> (subByName m)) Hid) as Hc. simpl in Hc.
  split_and!; [|intros _; rewrite Hc; split_and!; (done || lia)|done].
  split; [|done]. intros _. split_and!; [done|by apply Hfree|lia].
Qed.

(** The limit is not enforced across overlapping requests.  The handler
    counts and writes in two calls on the store, so two requests that both
    counted one below the limit both succeed, for two free names, and leave the
    org one over it. *)
Theorem reserve_limit_race now r1 r2 org n1 n2 m :
  lowered n1 → lowered n2 → n1 ≠ n2 → NewID "sub" r1 ≠ NewID "sub" r2 →
  subByName m !! n1 = None → subByName m !! n2 = None →
  subs m !! NewID "sub" r1 = None → subs m !! NewID "sub" r2 = None →
  let count := sub_count (og_ID org) m in
  count + 1 = sub_max now org →
  let '(a1, m1) := reserve_checked now r1 org count n1 m in
  let '(a2, m2) := reserve_checked now r2 org count n2 m1 in
  rs_Status a1 = 201 ∧ rs_Status a2 = 201 ∧ sub_count (og_ID org) m2 = sub_max now org + 1.
Proof.
  intros Hl1 Hl2 Hn Hr H1 H2 Hi1 Hi2 count Hc.
  rewrite reserve_checked_spec, H1 by done. destruct (Z.geb_spec count (sub_max now org)); [lia|].
  set (m1 := set_subs _ _ m).
  assert (Hfree : subByName m1 !! n2 = None) by (unfold m1; simpl; by rewrite lookup_insert_ne).
  rewrite reserve_checked_spec by done. destruct (Z.geb_spec count (sub_max now org)); [lia|].
  rewrite Hfree. split_and!; [done..|].
  pose proof (sub_count_insert m1 (NewID "sub" r2) (new_sub now r2 (og_ID org) n2)
    (<[n2 := NewID "sub" r2]> (subByName m1))) as Hm2.
  pose proof (sub_count_insert m (NewID "sub" r1) (new_sub now r1 (og_ID org) n1)
    (<[n1 := NewID "sub" r1]> (subByName m)) Hi1) as Hm1. simpl in Hm1.
  cbn [rs_OrgID new_sub] in Hm2. rewrite Hm2; [|simpl; by rewrite lookup_insert_ne].
  unfold m1. rewrite Hm1. fold count. lia.
Qed.

(** * Witnesses *)
Definition ex_principal : Principal := {| pr_UserID := ""; pr_OrgID := "org_1"; pr_ViaAPIKey := true; pr_APIKeyID := "key_1" |}.
Definition ex_api_cfg : ApiConfig := api_overlay prod_api_env.
Definition ex_billing : BillingConfig :=
  {| bc_SecretKey := ""; bc_WebhookSecret := ""; bc_Prices := ∅; bc_MeterBandwidth := ""; bc_MeterRequests := "";
     bc_WebhookTolerance := 0 |}.
Definition ex_checkout : CheckoutConfig :=
  {| cc_SuccessURL := ""; cc_CancelURL := ""; cc_PortalReturnURL := ""; cc_TrialDays := 0 |}.
Definition ex_stripe : StripeAPI :=
  {| sa_CreateCustomer := λ _, Err "down"; sa_CreateCheckoutSession := λ _, Err "down";
     sa_CreatePortalSession := λ _ _, Err "down" |}.

(** The org reserves a name, typed with a blank and a capital. *)
Lemma tenants_are_isolated_witness :
  let c := QReserve [7] (Some " Blog") in
  let m' := snd (api_exec ex_idkey (H := sorted_range) ex_api_cfg ex_billing ex_checkout ex_stripe (λ _, None) 9 ex_principal c keyed_store) in
  subs m' !! "sub_07" = Some (new_sub 9 [7] "org_1" "blog") ∧ org_frame "org_1" keyed_store m'.
Proof.
  cbv zeta. split; [vm_compute; reflexivity|].
  apply (tenants_are_isolated ex_idkey (H := sorted_range) ex_api_cfg ex_billing ex_checkout ex_stripe (λ _, None) 9
    ex_principal (QReserve [7] (Some " Blog")) keyed_store); [apply keyed_store_reachable|vm_compute; reflexivity].
Defined.

Lemma reserve_exact_witness :
  rs_Status (fst (handleReserveSubdomain (H := sorted_range) 9 [7] ex_principal (Some " Blog") keyed_store)) = 201 ∧
  rs_Status (fst (handleReserveSubdomain (H := sorted_range) 9 [7] ex_principal (Some "-x") keyed_store)) = 400.
Proof.
  split; [|vm_compute; reflexivity].
  assert (Horg : ∃ o, orgs keyed_store !! pr_OrgID ex_principal = Some o) by (eexists; vm_compute; reflexivity).
  destruct Horg as [o Ho].
  pose proof (reserve_exact (H := sorted_range) 9 [7] ex_principal " Blog" keyed_store o keyed_store_reachable
    ltac:(vm_compute; reflexivity) Ho) as Hx. cbv zeta in Hx.
  destruct (handleReserveSubdomain 9 [7] ex_principal (Some " Blog") keyed_store) as [r m'] eqn:Hr.
  destruct Hx as ([_ Hx] & _). simpl. apply (f_equal (λ x, rs_Status (fst x))) in Hr. simpl in Hr. rewrite <- Hr.
  vm_compute. reflexivity.
Defined.

Definition free_org : Org :=
  {| og_ID := "org_2"; og_Name := ""; og_Plan := "free"; og_StripeCustomerID := ""; og_CreatedAt := 0; og_PlanExpiresAt := None |}.
Lemma reserve_limit_race_witness :
  let '(a1, m1) := reserve_checked 9 [1] free_org 0 "a" NewMemStore in
  let '(a2, m2) := reserve_checked 9 [2] free_org 0 "b" m1 in
  rs_Status a1 = 201 ∧ rs_Status a2 = 201 ∧ sub_count "org_2" m2 = 2.
Proof.
  change 2 with (sub_max 9 free_org + 1). change "org_2" with (og_ID free_org).
  apply (reserve_limit_race 9 [1] [2] free_org "a" "b" NewMemStore); try reflexivity; done.
Defined.
