(* ===== verification/ApiAdmin.v ===== *)
(** The admin console (internal/api/handlers_admin.go, handlers_admin_dash.go):
    its signed session, grants of plans for a number of months, and the
    deployment-wide listings. *)
From S2P Require Import Prelude GoStrings Store StoreInv Listings Billing Entitle Ingress Login ApiConfig ApiResources ApiSafety.
From Stdlib Require Import Ascii.

Open Scope Z_scope.

(** * Calendar: [AddDate(0, n, 0)]
    Months are counted from March of year 0, so that a leap day is the last of
    its year; [Date] normalises a day past the end of its month into the next. *)
Definition year_of_era (doe : Z) : Z := (doe - doe / 1460 + doe / 36524 - doe / 146096) / 365.
Definition month_index (days : Z) : Z :=
  let z := days + 306 in
  let doe := z mod 146097 in
  let yoe := year_of_era doe in
  let doy := doe - (365 * yoe + yoe / 4 - yoe / 100) in
  12 * (z / 146097 * 400 + yoe) + (5 * doy + 2) / 153.
Definition month_start (k : Z) : Z :=
  let y := k / 12 in
  let mp := k mod 12 in
  y / 400 * 146097 + (365 * (y mod 400) + y mod 400 / 4 - y mod 400 / 100) + (153 * mp + 2) / 5 - 306.
Definition AddDate (t : Time) (months : Z) : Time :=
  let day := t / (24 * Hour) in
  (month_start (month_index day + months) + (day_of_month day - 1)) * (24 * Hour) + t mod (24 * Hour).

(** [time.Unix]'s inverse on whole seconds. *)
Definition UnixOf (t : Time) : Z := t / Second - 62135596800.

(** * The console *)
Definition adminCookie : string := "trqsh_admin".
Definition adminTTL : Duration := 12 * Hour.

Section admin.
  Context (hmac : string → string → list Z) `{RangeOrder} (cfg : ApiConfig).

Definition adminEnabled : bool := negb (String.eqb (ac_AdminUser cfg) "") && negb (String.eqb (ac_AdminPassword cfg) "").

Definition isAdminHost (host : string) (h : Header) : bool :=
  let xf := Get h "X-Forwarded-Host" in
  HasPrefix (ToLower (if negb (String.eqb xf "") then xf else host)) "approve.".

Definition admin_mac (payload : string) : string := EncodeToString (hmac (ac_JWTSecret cfg) ("admin|" +:+ payload)).

Definition signAdmin (exp : Time) : string :=
  let payload := Itoa (UnixOf exp) in payload +:+ "." +:+ admin_mac payload.

Definition verifyAdmin (now : Time) (value : string) : bool :=
  match LastIndexByte value "." with
  | None | Some O => false
  | Some i =>
      let payload := take_string i value in
      let sig := drop_string (i + 1) value in
      if negb (String.eqb sig (admin_mac payload)) then false
      else match Atoi payload with Some exp => Before now (Unix exp) | None => false end
  end.

(** [requireAdmin] around a handler; [c] is the session cookie. *)
Definition requireAdmin (now : Time) (c : option string) (next : Handler) : Handler := λ m,
  if negb adminEnabled then (writeError 404 "admin console is disabled", m)
  else match c with
       | None => (writeError 401 "not signed in", m)
       | Some v => if negb (verifyAdmin now v) then (writeError 401 "not signed in", m) else next m
       end.

Definition admin_cookie (value : string) (maxAge : Z) : Cookie :=
  {| ck_Name := adminCookie; ck_Value := value; ck_Path := "/"; ck_Domain := ""; ck_HttpOnly := true;
     ck_Secure := IsProduction cfg; ck_MaxAge := maxAge |}.

Definition handleAdminLogin (now : Time) (body : option (string * string)) : Response :=
  if negb adminEnabled then writeError 404 "admin console is disabled"
  else match body with
       | None => writeError 400 "invalid request body"
       | Some (user, pass) =>
           if negb (String.eqb user (ac_AdminUser cfg)) || negb (String.eqb pass (ac_AdminPassword cfg))
           then writeError 401 "invalid credentials"
           else with_cookies [admin_cookie (signAdmin (now + adminTTL)) (adminTTL / Second)]
                  (writeJSON 200 (JObj [("status", JStr "ok")]))
       end.

Definition handleAdminLogout : Response :=
  with_cookies [admin_cookie "" (-1)] (writeJSON 200 (JObj [("status", JStr "ok")])).

Definition handleAdminSession : Response := writeJSON 200 (JObj [("ok", JBool true)]).

(** The page is served, or hidden. *)
Definition handleAdminPage (host : string) (h : Header) : bool :=
  negb (negb adminEnabled || (IsProduction cfg && negb (isAdminHost host h))).
Definition handleRoot (host : string) (h : Header) : bool :=
  if adminEnabled && isAdminHost host h then handleAdminPage host h else false.

(** ** Grants *)
Definition adminOrgFor (email : string) : M MemStore string (User * Org) := λ m,
  match GetUserByEmail (TrimSpace email) m with
  | (Err e, m) => (Err (StoreErr_Error e), m)
  | (Ok u, m) =>
      match OrgsForUser (us_ID u) m with
      | (Ok (o :: _), m) => (Ok (u, o), m)
      | (_, m) => (Err "account has no org", m)
      end
  end.

Definition adminOrgView (now : Time) (u : User) (o : Org) : Json :=
  JObj [("email", JStr (us_Email u)); ("name", JStr (us_Name u)); ("org_id", JStr (og_ID o));
        ("plan", JStr (effectivePlan now o)); ("stored_plan", JStr (og_Plan o));
        ("plan_expires_at", JOptTime (og_PlanExpiresAt o))].

Definition handleAdminLookup (now : Time) (email : string) : Handler := λ m,
  match adminOrgFor email m with
  | (Err _, m) => (writeError 404 "no account with that email", m)
  | (Ok (u, o), m) => (writeJSON 200 (adminOrgView now u o), m)
  end.

Definition granted (plan : string) (expires : option Time) (o : Org) : Org :=
  {| og_ID := og_ID o; og_Name := og_Name o; og_Plan := plan; og_StripeCustomerID := og_StripeCustomerID o;
     og_CreatedAt := og_CreatedAt o; og_PlanExpiresAt := expires |}.

(** The body's email, plan and months. *)
Definition handleAdminGrant (now : Time) (body : option (string * string * Z)) : Handler :=
  decode_then body (λ '(email, plan, months) m,
    let plan := ToLower (TrimSpace plan) in
    if negb (String.eqb plan PlanPro) && negb (String.eqb plan PlanTeam) && negb (String.eqb plan PlanFree)
    then (writeError 400 "plan must be pro, team, or free", m)
    else if (months <? 1) || (months >? 60) then (writeError 400 "months must be between 1 and 60", m)
    else match adminOrgFor email m with
         | (Err _, m) => (writeError 404 "no account with that email", m)
         | (Ok (u, o), m) =>
             let expires := AddDate now months in
             match SetOrgPlan (og_ID o) plan (Some expires) m with
             | (Err e, m) => store_error e m
             | (Ok _, m) => (writeJSON 200 (adminOrgView now u (granted plan (Some expires) o)), m)
             end
         end).

Definition handleAdminRevoke (now : Time) (body : option string) : Handler :=
  decode_then body (λ email m,
    match adminOrgFor email m with
    | (Err _, m) => (writeError 404 "no account with that email", m)
    | (Ok (u, o), m) =>
        match SetOrgPlan (og_ID o) PlanFree None m with
        | (Err e, m) => store_error e m
        | (Ok _, m) => (writeJSON 200 (adminOrgView now u (granted PlanFree None o)), m)
        end
    end).

(** ** Listings *)
Definition counts_json (c : gmap string Z) : Json := JObj ((λ '(k, v), (k, JNum v)) <$> map_to_list c).
Definition stats_json (s : AdminStats) : Json :=
  JObj [("users", JNum (as_Users s)); ("new_users_7d", JNum (as_NewUsers7d s)); ("new_users_30d", JNum (as_NewUsers30d s));
        ("orgs", JNum (as_Orgs s)); ("orgs_by_plan", counts_json (as_OrgsByPlan s)); ("api_keys", JNum (as_APIKeys s));
        ("reserved_subdomains", JNum (as_ReservedSubdomains s)); ("custom_domains", JNum (as_CustomDomains s));
        ("active_tunnels", JNum (as_ActiveTunnels s)); ("total_tunnels", JNum (as_TotalTunnels s));
        ("bytes_in_30d", JNum (as_BytesIn30d s)); ("bytes_out_30d", JNum (as_BytesOut30d s));
        ("requests_30d", JNum (as_Requests30d s))].

(** [regions]: the geo service's catalog, printed. *)
Definition handleAdminStats (regions : Json) (now : Time) : Handler := λ m,
  match AdminOverview now m with
  | (Err e, m) => store_error e m
  | (Ok stats, m) =>
      (writeJSON 200 (JObj [("stats", stats_json stats);
         ("geo", counts_json (ok_or (fst (TunnelCountryBreakdown "" false m)) ∅));
         ("geo_active", counts_json (ok_or (fst (TunnelCountryBreakdown "" true m)) ∅));
         ("regions", regions); ("generated_at", JTime now)]), m)
  end.

Definition admin_user_row (now : Time) (m : MemStore) (u : User) : Json :=
  JObj ([("id", JStr (us_ID u)); ("email", JStr (us_Email u)); ("name", JStr (us_Name u));
         ("oauth_provider", JStr (us_OAuthProvider u)); ("created_at", JTime (us_CreatedAt u))] ++
        match fst (OrgsForUser (us_ID u) m) with
        | Ok (o :: _) => [("org_id", JStr (og_ID o)); ("plan", JStr (effectivePlan now o));
                          ("plan_expires_at", JOptTime (og_PlanExpiresAt o))]
        | _ => []
        end).
Definition handleAdminUsers (now : Time) (qlimit qoffset q : string) : Handler := λ m,
  let '(limit, offset) := parsePage qlimit qoffset 50 200 in
  match ListUsers limit offset q m with
  | (Err e, m) => store_error e m
  | (Ok l, m) => (writeJSON 200 (JObj [("users", JArr (map (admin_user_row now m) l)); ("limit", JNum limit);
                                       ("offset", JNum offset)]), m)
  end.

Definition admin_org_row (now : Time) (m : MemStore) (o : Org) : Json :=
  JObj [("id", JStr (og_ID o)); ("name", JStr (og_Name o)); ("plan", JStr (effectivePlan now o));
        ("stored_plan", JStr (og_Plan o)); ("plan_expires_at", JOptTime (og_PlanExpiresAt o));
        ("members", JNum (Z.of_nat (length (ok_or (fst (ListOrgMembers (og_ID o) m)) []))));
        ("created_at", JTime (og_CreatedAt o))].
Definition handleAdminOrgs (now : Time) (qlimit qoffset qplan : string) : Handler := λ m,
  let '(limit, offset) := parsePage qlimit qoffset 50 200 in
  match ListOrgs limit offset qplan m with
  | (Err e, m) => store_error e m
  | (Ok l, m) => (writeJSON 200 (JObj [("orgs", JArr (map (admin_org_row now m) l)); ("limit", JNum limit);
                                       ("offset", JNum offset)]), m)
  end.

Definition handleAdminTunnels (qlimit qoffset qactive : string) : Handler := λ m,
  let '(limit, offset) := parsePage qlimit qoffset 50 200 in
  let activeOnly := String.eqb qactive "true" in
  match ListTunnelSessions {| tf_OrgID := ""; tf_ActiveOnly := activeOnly; tf_Limit := limit; tf_Offset := offset |} m with
  | (Err e, m) => store_error e m
  | (Ok l, m) =>
      let total := ok_or (fst (CountTunnelSessions "" activeOnly m)) 0 in
      (writeJSON 200 (JObj [("sessions", JArr (map tunnel_json l)); ("total", JNum total); ("limit", JNum limit);
                            ("offset", JNum offset)]), m)
  end.
End admin.

(** * The calendar goes forward *)
Lemma year_of_era_range doe : 0 <= doe < 146097 → 0 <= year_of_era doe < 400.
Proof. intros H. unfold year_of_era. Z.div_mod_to_equations. lia. Qed.

Definition day_of_year (doe : Z) : Z := doe - (365 * year_of_era doe + year_of_era doe / 4 - year_of_era doe / 100).
Lemma day_of_year_range doe : 0 <= doe < 146097 → 0 <= day_of_year doe < 366.
Proof. intros H. unfold day_of_year, year_of_era. Z.div_mod_to_equations. lia. Qed.

Lemma month_of_year doy : 0 <= doy < 366 → 0 <= (5 * doy + 2) / 153 < 12.
Proof. intros H. Z.div_mod_to_equations. lia. Qed.

Lemma month_split day : month_start (month_index day) + (day_of_month day - 1) = day.
Proof.
  unfold month_index, day_of_month, month_start. fold (year_of_era ((day + 306) mod 146097)).
  set (doe := (day + 306) mod 146097). assert (Hdoe : 0 <= doe < 146097) by (apply Z.mod_pos_bound; lia).
  pose proof (year_of_era_range doe Hdoe) as Hy. set (yoe := year_of_era doe) in *.
  pose proof (day_of_year_range doe Hdoe) as Hd. unfold day_of_year in Hd. fold yoe in Hd.
  set (doy := doe - _) in *. pose proof (month_of_year doy Hd) as Hm. set (mp := (5 * doy + 2) / 153) in *.
  replace ((12 * ((day + 306) / 146097 * 400 + yoe) + mp) / 12) with ((day + 306) / 146097 * 400 + yoe)
    by (apply (Z.div_unique _ _ _ mp); lia).
  replace ((12 * ((day + 306) / 146097 * 400 + yoe) + mp) mod 12) with mp
    by (apply (Z.mod_unique _ _ ((day + 306) / 146097 * 400 + yoe)); lia).
  replace (((day + 306) / 146097 * 400 + yoe) / 400) with ((day + 306) / 146097)
    by (apply (Z.div_unique _ _ _ yoe); lia).
  replace (((day + 306) / 146097 * 400 + yoe) mod 400) with yoe
    by (apply (Z.mod_unique _ _ ((day + 306) / 146097)); lia).
  pose proof (Z.div_mod (day + 306) 146097 ltac:(lia)) as Hdm. fold doe in Hdm. subst doy. lia.
Qed.

Lemma month_start_step k : month_start k + 28 <= month_start (k + 1).
Proof. unfold month_start. Z.div_mod_to_equations. lia. Qed.

Lemma month_start_mono k n : 0 <= n → month_start k + 28 * n <= month_start (k + n).
Proof.
  intros Hn. revert n Hn. apply natlike_ind; [replace (k + 0) with k by lia; lia|].
  intros n Hn IH. pose proof (month_start_step (k + n)).
  replace (k + Z.succ n) with (k + n + 1) by lia. lia.
Qed.

(** A month is at least 28 days, whatever the day it starts on. *)
Lemma AddDate_forward t n : 0 <= n → t + 28 * n * (24 * Hour) <= AddDate t n.
Proof.
  intros Hn. unfold AddDate. set (day := t / (24 * Hour)).
  pose proof (month_split day) as Hs. pose proof (month_start_mono (month_index day) n Hn) as Hm.
  pose proof (Z.div_mod t (24 * Hour) ltac:(done)) as Hdm. fold day in Hdm.
  assert (0 < 24 * Hour) by done. nia.
Qed.

(** * The session *)
Lemma hex_no_dot d : Ascii.eqb (hex_digit d) "." = false.
Proof.
  unfold hex_digit. destruct (String.get _ _) as [a|] eqn:Hg; [|done].
  assert (0 <= d mod 16 < 16) by (by apply Z.mod_pos_bound).
  assert (Hd : Z.to_nat (d mod 16) ∈ seq 0 16) by (apply elem_of_seq; lia).
  revert Hg. generalize dependent (Z.to_nat (d mod 16)). clear. intros n Hn Hg.
  repeat (apply elem_of_cons in Hn as [->|Hn]; [by injection Hg as <-|]). by apply not_elem_of_nil in Hn.
Qed.

Lemma EncodeToString_no_dot b : has_byte (EncodeToString b) "." = false.
Proof. induction b as [|x b IH]; simpl; [done|]. by rewrite !hex_no_dot, IH. Qed.

Section admin_session.
  Context (hmac : string → string → list Z) (cfg : ApiConfig).

Lemma verifyAdmin_spec now v :
  verifyAdmin hmac cfg now v = true ↔
  ∃ payload exp, v = payload +:+ "." +:+ admin_mac hmac cfg payload ∧ payload ≠ "" ∧
    Atoi payload = Some exp ∧ now < Unix exp.
Proof.
  unfold verifyAdmin. split.
  - destruct (LastIndexByte v ".") as [[|i]|] eqn:Hi; [done| |done].
    apply LastIndexByte_split in Hi as (Hv & Hl & _).
    destruct (String.eqb_spec (drop_string (S i + 1) v) (admin_mac hmac cfg (take_string (S i) v))) as [Hs|]; [|done].
    simpl. destruct (Atoi _) as [exp|] eqn:Ha; [|done]. unfold Before. intros Hb. bool_simpl.
    exists (take_string (S i) v), exp. split_and!; [|by intros Hz; rewrite Hz in Hl|done|done].
    rewrite <- Hs. exact Hv.
  - intros (payload & exp & -> & Hne & Ha & Hlt).
    change ("." +:+ ?x) with (String "." x). rewrite LastIndexByte_app by apply EncodeToString_no_dot.
    destruct (String.length payload) as [|i] eqn:Hl; [by destruct payload|]. rewrite <- Hl.
    rewrite take_string_app.
    assert (drop_string (String.length payload + 1) (payload +:+ String "." (admin_mac hmac cfg payload)) =
      admin_mac hmac cfg payload) as ->.
    { change (String "." ?x) with ("." +:+ x). rewrite <- app_string_assoc.
      replace (String.length payload + 1)%nat with (String.length (payload +:+ ".")) by (by rewrite length_app_string).
      apply drop_string_app. }
    rewrite String.eqb_refl, Ha. by apply Z.ltb_lt.
Qed.

(** Admin sessions: a value the console issued is accepted exactly until it
    expires (in whole seconds), and a value is accepted only if it is a decimal
    expiry in the future followed by the keyed MAC of that very expiry; without
    configured credentials no request passes the gate. *)
Theorem admin_sessions now exp v :
  0 <= UnixOf exp < 2 ^ 63 →
  (verifyAdmin hmac cfg now (signAdmin hmac cfg exp) = true ↔ now < Unix (UnixOf exp)) ∧
  (verifyAdmin hmac cfg now v = true →
     ∃ payload e, v = payload +:+ "." +:+ admin_mac hmac cfg payload ∧ Atoi payload = Some e ∧ now < Unix e) ∧
  (adminEnabled cfg = false → ∀ next m, requireAdmin hmac cfg now (Some v) next m =
     (writeError 404 "admin console is disabled", m)).
Proof.
  intros He. split_and!.
  - rewrite verifyAdmin_spec. unfold signAdmin. split.
    + intros (payload & e & Heq & _ & Ha & Hlt).
      assert (payload = Itoa (UnixOf exp)) as ->.
      { change ("." +:+ ?x) with (String "." x) in Heq.
        pose proof (LastIndexByte_app (Itoa (UnixOf exp)) _ "." (EncodeToString_no_dot
          (hmac (ac_JWTSecret cfg) ("admin|" +:+ Itoa (UnixOf exp))))) as H1.
        pose proof (LastIndexByte_app payload _ "." (EncodeToString_no_dot
          (hmac (ac_JWTSecret cfg) ("admin|" +:+ payload)))) as H2.
        unfold admin_mac in Heq. rewrite <- Heq, H1 in H2. injection H2 as Hl.
        apply (f_equal (take_string (String.length (Itoa (UnixOf exp))))) in Heq.
        rewrite take_string_app in Heq. rewrite Hl, take_string_app in Heq. done. }
      rewrite Atoi_Itoa in Ha by done. by simplify_eq.
    + intros Hlt. exists (Itoa (UnixOf exp)), (UnixOf exp). split_and!; [done| |by apply Atoi_Itoa|done].
      apply Itoa_nonneg. lia.
  - intros (payload & e & ? & _ & ? & ?)%verifyAdmin_spec. eauto.
  - intros Hoff next m. unfold requireAdmin. by rewrite Hoff.
Qed.

(** * Grants *)
Lemma effectivePlan_granted plan expires o t :
  plan ≠ "" → effectivePlan t (granted plan (Some expires) o) = if After t expires then PlanFree else plan.
Proof. intros Hp. unfold effectivePlan. simpl. apply String.eqb_neq in Hp as ->. by destruct (After t expires). Qed.

Lemma adminOrgFor_org email m u o m' :
  adminOrgFor email m = (Ok (u, o), m') → m' = m ∧ ∃ id, orgs m !! id = Some o.
Proof.
  unfold adminOrgFor, GetUserByEmail. destruct (usersEmail m !! _) as [id|]; [|done].
  cbn [OrgsForUser]. unfold OrgsForUser.
  destruct (omap _ (members m)) as [|o' l] eqn:Hl; [done|]. intros [= <- <- <-]. split; [done|].
  match type of Hl with omap ?f _ = _ => assert (Hin : o' ∈ omap f (members m)) by (rewrite Hl; left) end.
  apply list_elem_of_omap in Hin as (e & _ & He). destruct (String.eqb _ _); [|done]. eauto.
Qed.

(** A grant needs a live admin session and is exact: when the request is
    answered 200, the plan is one of pro, team and free, the account's org and no
    other is changed, its effective plan is the granted one up to an expiry at
    least 28 days per month ahead, and free afterwards. *)
Theorem admin_grant_exact now c email plan months m r m' :
  store_reachable m →
  requireAdmin hmac cfg now c (handleAdminGrant now (Some (email, plan, months))) m = (r, m') →
  rs_Status r = 200 →
  (∃ v, c = Some v ∧ verifyAdmin hmac cfg now v = true) ∧ adminEnabled cfg = true ∧
  ∃ u o code expires, fst (adminOrgFor email m) = Ok (u, o) ∧ code = ToLower (TrimSpace plan) ∧
    code ∈ [PlanPro; PlanTeam; PlanFree] ∧ 1 <= months <= 60 ∧ now + 28 * months * (24 * Hour) <= expires ∧
    m' = set_orgs (<[og_ID o := granted code (Some expires) o]> (orgs m)) m ∧
    (∀ t, effectivePlan t (granted code (Some expires) o) = if After t expires then PlanFree else code).
Proof.
  intros Hm Hreq Hst. unfold requireAdmin in Hreq.
  destruct (adminEnabled cfg) eqn:Hen; [|by simplify_eq/=]. simpl in Hreq.
  destruct c as [v|]; [|by simplify_eq/=]. destruct (verifyAdmin hmac cfg now v) eqn:Hv; [|by simplify_eq/=].
  split; [by exists v|]. split; [done|]. simpl in Hreq.
  set (code := ToLower (TrimSpace plan)) in *.
  destruct (negb (String.eqb code PlanPro) && _ && _) eqn:Hcode; [by simplify_eq/=|].
  destruct ((months <? 1) || (months >? 60)) eqn:Hmon; [by simplify_eq/=|].
  destruct (adminOrgFor email m) as [[[u o]|e] m1] eqn:Ho; [|by simplify_eq/=].
  apply adminOrgFor_org in Ho as Horg. destruct Horg as (-> & id & Hid).
  pose proof (reachable_org_ids _ Hm _ _ Hid) as Hoid. subst id.
  unfold SetOrgPlan, update_org in Hreq. rewrite Hid in Hreq. simplify_eq. bool_simpl.
  assert (1 <= months <= 60) by (destruct (Z.gtb_spec months 60); [done|lia]).
  assert (Hin : code ∈ [PlanPro; PlanTeam; PlanFree]).
  { destruct (String.eqb_spec code PlanPro), (String.eqb_spec code PlanTeam), (String.eqb_spec code PlanFree);
      try done; set_solver. }
  exists u, o, code, (AddDate now months). split_and!; try done; try lia.
  - by apply AddDate_forward; lia.
  - intros t. apply effectivePlan_granted. intros Hz. rewrite Hz in Hin. set_solver.
Qed.
End admin_session.

(** 31 January 2024 and a month is 2 March 2024; 31 January 2023 and a month is
    3 March; 15 November 2023 and three months is 15 February 2024. *)
Example AddDate_overflow :
  AddDate (Unix (19753 * 86400 + 7)) 1 = Unix (19784 * 86400 + 7) ∧
  AddDate (Unix (19388 * 86400)) 1 = Unix (19419 * 86400) ∧ AddDate (Unix (19676 * 86400)) 3 = Unix (19768 * 86400).
Proof. vm_compute. done. Qed.

(** * Witnesses *)
Definition ex_hmac (key msg : string) : list Z := [Z.of_nat (String.length key); Z.of_nat (String.length msg)].
Definition admin_cfg : ApiConfig :=
  let c := api_DefaultConfig in
  {| ac_Env := "production"; ac_Addr := ac_Addr c; ac_MetricsAddr := ac_MetricsAddr c; ac_DatabaseURL := "";
     ac_RedisURL := ""; ac_BaseDomain := "trqsh.uz"; ac_DBMaxOpenConns := 1; ac_DBMaxIdleConns := 1;
     ac_PublicURL := ""; ac_AppURL := ""; ac_QRURL := ""; ac_JWTSecret := "secret"; ac_InternalToken := "tok";
     ac_GitHubClientID := ""; ac_GitHubClientSecret := ""; ac_GoogleClientID := ""; ac_GoogleClientSecret := "";
     ac_AdminUser := "root"; ac_AdminPassword := "pw"; ac_DevAuth := false; ac_TrustProxy := false;
     ac_GeoIPHeader := ""; ac_GeoIPAPI := ""; ac_Regions := "" |}.

Lemma admin_sessions_witness :
  signAdmin ex_hmac admin_cfg (Unix 1700000000) = "1700000000.0610" ∧
  verifyAdmin ex_hmac admin_cfg (Unix 1699999999) "1700000000.0610" = true.
Proof.
  split; [vm_compute; reflexivity|].
  change "1700000000.0610" with (signAdmin ex_hmac admin_cfg (Unix 1700000000)).
  apply (admin_sessions ex_hmac admin_cfg (Unix 1699999999) (Unix 1700000000) "");
    [vm_compute; split; congruence|vm_compute; reflexivity].
Defined.

Definition account_store : MemStore :=
  store_exec (store_exec (store_exec NewMemStore
    (SCreateUser 5 [1] {| us_ID := "user_1"; us_Email := "Ann@x.uz"; us_Name := "Ann"; us_AvatarURL := ""; us_OAuthProvider := "google"; us_CreatedAt := 0 |}))
    (SCreateOrg 5 [2] {| og_ID := "org_1"; og_Name := "Ann's org"; og_Plan := "free"; og_StripeCustomerID := ""; og_CreatedAt := 0; og_PlanExpiresAt := None |}))
    (SAddOrgMember {| om_OrgID := "org_1"; om_UserID := "user_1"; om_Role := "owner" |}).
Lemma account_store_reachable : store_reachable account_store.
Proof. repeat (apply sr_step; [|done]). apply sr_init. Qed.

Lemma admin_grant_exact_witness :
  let r := requireAdmin ex_hmac admin_cfg (Unix 1699999999) (Some "1700000000.0610")
    (handleAdminGrant (Unix 1699999999) (Some (" ann@x.uz", "Pro", 3))) account_store in
  rs_Status (fst r) = 200 ∧ ∃ o, orgs (snd r) !! "org_1" = Some o ∧ effectivePlan (Unix 1700000000) o = "pro".
Proof.
  cbv zeta. destruct (requireAdmin _ _ _ _ _ _) as [r m'] eqn:Hr.
  assert (Hst : rs_Status r = 200) by (apply (f_equal (λ x, rs_Status (fst x))) in Hr; vm_compute in Hr; done).
  split; [exact Hst|].
  destruct (admin_grant_exact ex_hmac admin_cfg (Unix 1699999999) (Some "1700000000.0610") " ann@x.uz" "Pro" 3
    account_store r m' account_store_reachable Hr Hst) as (_ & _ & u & o & code & e & Ho & -> & _ & _ & He & -> & Heff).
  vm_compute in Ho. injection Ho as <- <-. simpl. eexists. split; [apply lookup_insert_eq|]. rewrite Heff.
  unfold After. destruct (Z.ltb_spec e (Unix 1700000000)) as [Hlt|]; [|reflexivity].
  exfalso. revert He Hlt. unfold Unix, Hour, Minute, Second, Millisecond. lia.
Defined.
