(* ===== verification/ApiAuthSafety.v ===== *)
(** What signing in guarantees: an OAuth session belongs to an address its
    provider vouches for and to the browser that started the flow, redirects stay
    on the dashboard, and the device flow ends with a key of the approving org. *)
From S2P Require Import Prelude GoStrings Registry Store StoreInv Billing Entitle EntitleSafety Ingress Login LoginSafety SessionSafety ApiConfig ApiAuth ApiSafety.
From Stdlib Require Import Ascii.

Open Scope Z_scope.

(** * Users sit under their own ids *)
Definition user_ids (m : MemStore) : Prop := ∀ id u, users m !! id = Some u → us_ID u = id.

Lemma user_ids_exec m o : user_ids m → user_ids (store_exec m o).
Proof.
  intros Hids. destruct o; simpl; try done;
    try (unfold AddOrgMember, UpdateOrgPlan, SetOrgPlan, SetOrgStripeCustomer, update_org, CreateAPIKey, TouchAPIKey,
           RevokeAPIKey, ReserveSubdomain, ReleaseSubdomain, AddCustomDomain, VerifyCustomDomain, RecordTunnelOpen,
           CloseTunnelSession, DeleteSubscription, MarkEventProcessed, InsertMeteredUsage; repeat case_match; done).
  - unfold CreateUser. destruct (usersEmail m !! _); [done|].
    intros id x. simpl. intros [[<- <-]|[_ Hx]]%lookup_insert_Some; [done|by apply Hids].
  - unfold UpdateUserProfile. destruct (users m !! id) as [u|] eqn:Hu; [|done].
    intros i x. simpl. intros [[<- <-]|[_ Hx]]%lookup_insert_Some; simpl; by apply Hids.
Qed.

Lemma reachable_user_ids m : store_reachable m → user_ids m.
Proof. induction 1; [by intros id u|by apply user_ids_exec]. Qed.

(** * Provisioning *)

(** [u] is the stored account of [email], and [o] one of its orgs. *)
Record account_of (m : MemStore) (email : string) (u : User) (o : Org) : Prop := {
  ao_user : ∃ u', users m !! us_ID u = Some u' ∧ us_Email u' = us_Email u;
  ao_email : ToLower (us_Email u) = ToLower email;
  ao_org : ∃ e, e ∈ members m ∧ om_UserID e = us_ID u ∧ orgs m !! om_OrgID e = Some o;
}.

Lemma firstOrg_member userID m o m' :
  firstOrg userID m = (Ok o, m') →
  m' = m ∧ ∃ e, e ∈ members m ∧ om_UserID e = userID ∧ orgs m !! om_OrgID e = Some o.
Proof.
  unfold firstOrg, OrgsForUser. destruct (omap _ (members m)) as [|o' l] eqn:Hl; [done|].
  intros [= <- <-]. split; [done|].
  match type of Hl with omap ?f _ = _ => assert (Hin : o' ∈ omap f (members m)) by (rewrite Hl; left) end.
  apply list_elem_of_omap in Hin as (e & He & Ho). destruct (String.eqb_spec (om_UserID e) userID); [|done]. eauto.
Qed.

Lemma provisionUser_account now dw email name avatar provider m u o m' :
  store_ok m → user_ids m →
  provisionUser now dw email name avatar provider m = (Ok (u, o), m') → account_of m' email u o.
Proof.
  intros Hok Hids. unfold provisionUser, GetUserByEmail.
  destruct (usersEmail m !! ToLower email) as [id|] eqn:He.
  - apply (so_users _ Hok) in He as (u0 & Hu0 & Hem). rewrite Hu0. simpl default.
    pose proof (Hids _ _ Hu0) as Hid. destruct (_ || _) eqn:Hch; simpl in Hch; rewrite ?Hch.
    + unfold UpdateUserProfile. rewrite Hid, Hu0.
      destruct (firstOrg _ _) as [[o1|e1] m1] eqn:Hf; [|done].
      apply firstOrg_member in Hf as (-> & Hmem). intros [= <- <- <-]. split; [|done|done].
      simpl. rewrite Hid, lookup_insert_eq. by eexists.
    + destruct (firstOrg _ _) as [[o1|e1] m1] eqn:Hf; [|done].
      apply firstOrg_member in Hf as (-> & Hmem). intros [= <- <- <-].
      split; [exists u0; by rewrite Hid|done|done].
  - unfold CreateUser. simpl us_Email. rewrite He. unfold CreateOrg, AddOrgMember.
    destruct (find_first _ _); [done|]. intros [= <- <- <-]. split; simpl.
    + eexists. split; [apply lookup_insert_eq|done].
    + done.
    + eexists. split; [apply elem_of_app; right; left|]. simpl. by rewrite lookup_insert_eq.
Qed.

(** * The provider's word *)

(** The address of a profile: not marked unverified, or, for a GitHub profile
    that hides it, one of the account's verified addresses. *)
Definition vouched (a : Provider_answers) (email : string) : Prop :=
  ∃ raw, pa_user a = Ok (200, Ok raw) ∧ marked_unverified raw = false ∧
    (ui_Email raw = email ∨
     (ui_Email raw = "" ∧ ∃ l e, pa_emails a = Ok (200, Ok l) ∧ e ∈ l ∧ ee_Verified e = true ∧ ee_Email e = email)).

Lemma pick_email_verified fb l x :
  pick_email fb l = Ok x → x = fb ∨ ∃ e, e ∈ l ∧ ee_Verified e = true ∧ ee_Email e = x.
Proof.
  revert fb. induction l as [|e l IH]; intros fb; simpl.
  - destruct (negb _); [|done]. intros [= <-]. by left.
  - destruct (ee_Verified e && ee_Primary e) eqn:Hv.
    + intros [= <-]. right. exists e. bool_simpl. split; [left|done].
    + intros [Hx|(e' & He' & ?)]%IH; [|right; exists e'; split; [by right|done]].
      destruct (ee_Verified e) eqn:Hve; simpl in Hx; [|by left].
      destruct (String.eqb fb ""); [|by left]. right. exists e. split; [left|done].
Qed.

Lemma Exchange_vouched p a prof : Exchange p a = Ok prof → ou_Email prof ≠ "" ∧ vouched a (ou_Email prof).
Proof.
  unfold Exchange. destruct (exchangeToken a); [|done]. unfold fetchUser, vouched.
  destruct (pa_user a) as [[st body]|] eqn:Hu; [|done].
  destruct (Z.eqb_spec st 200) as [->|]; [|done]. simpl. destruct body as [raw|]; [|done].
  destruct (marked_unverified raw) eqn:Hm; [done|].
  destruct (String.eqb (ui_Email raw) "" && _) eqn:Hg.
  - bool_simpl. unfold fetchGitHubEmail. destruct (pa_emails a) as [[st' body']|] eqn:He; [|done].
    destruct (Z.eqb_spec st' 200) as [->|]; [|done]. simpl. destruct body' as [l|]; [|done].
    destruct (pick_email "" l) as [x|] eqn:Hp; [|done]. destruct (String.eqb_spec x "") as [|Hx]; [done|].
    intros [= <-]. simpl. split; [done|]. exists raw. split_and!; [done..|]. right. split; [done|].
    apply pick_email_verified in Hp as [?|(e & ? & ? & ?)]; [done|]. by exists l, e.
  - destruct (String.eqb_spec (ui_Email raw) "") as [|Hx]; [done|]. intros [= <-]. simpl.
    split; [done|]. exists raw. split_and!; [done..|]. by left.
Qed.

(** * Destinations *)
Definition local_path (n : string) : Prop :=
  HasPrefix n "/" = true ∧ HasPrefix n "//" = false ∧ HasPrefix n (String "/" (String "092" "")) = false.

Lemma safeNextPath_local p : safeNextPath p ≠ "" → safeNextPath p = p ∧ local_path p.
Proof.
  unfold safeNextPath, local_path. destruct (_ || _) eqn:Hc; [done|]. intros _. by bool_simpl.
Qed.

Section login.
  Context {D R S : Type} `{DeviceStore D} `{Revoker R} `{oauthStateStore S} `{Jwt}.
  Context (cfg : ApiConfig) (providers : gmap string OAuthProvider).

(** C17: an OAuth login is safe, with the nonces of the process or those in Redis (which
    both are a [StateLaws] store).  A callback that signs anyone in (302) carries the state
    its own browser's cookie holds.  If the store was new when the server started, that
    state is a nonce the server issued at most ten minutes before; and it is spent by
    this very request: whatever nonces are issued and checked afterwards, as long as this one is
    not drawn again, no check of it ever succeeds.  The account signed in is the stored
    account of an address the provider does not mark unverified, in an org it is a
    member of; the session cookies are its tokens, unreadable to scripts, and
    secure in production; and the browser is sent to a path of the dashboard. *)
Theorem oauth_login_safe `{!StateLaws S} now dw name qstate sc nc ans s r s' :
  store_reachable (sv_store s) →
  handleOAuthCallback (D := D) (R := R) (S := S) cfg providers now dw name qstate sc nc ans s = (r, s') →
  rs_Status r = 302 →
  sc = Some qstate ∧
  (∀ s0 tr t1, (∀ t, st_at s0 t qstate = false) → st_history s0 tr t1 (sv_states s) → t1 <= now →
     ∃ t0, ENew t0 qstate ∈ tr ∧ t0 <= now <= t0 + oauthStateTTL) ∧
  (∀ tr t2 x t3, st_history (sv_states s') tr t2 x → Forall (λ e, now <= st_time e) tr → issued qstate tr = 0%nat →
     now <= t3 → t2 <= t3 → fst (st_Check t3 qstate x) = false) ∧
  (∃ email u o, vouched ans email ∧ account_of (sv_store s') email u o ∧
     let t := IssueTokens (ac_JWTSecret cfg) now (dw_j1 dw) (dw_j2 dw) (us_ID u) (og_ID o) in
     session_cookie cfg "trqsh_access" (tk_Access t) 3600 ∈ rs_Cookies r ∧
     session_cookie cfg "trqsh_refresh" (tk_Refresh t) (30 * 24 * 60 * 60) ∈ rs_Cookies r) ∧
  (∀ k, k ∈ rs_Cookies r → ck_HttpOnly k = true ∧ ck_Secure k = IsProduction cfg) ∧
  (∃ path, rs_Location r = appBase cfg +:+ path ∧ local_path path).
Proof.
  intros Hm Hcb Hst. unfold handleOAuthCallback in Hcb.
  destruct (providers !! name) as [p|]; [|by simplify_eq/=].
  destruct sc as [c|]; [|by simplify_eq/=].
  destruct (String.eqb_spec c qstate) as [->|]; [|by simplify_eq/=]. cbn [negb] in Hcb. unfold checkState in Hcb.
  destruct (st_Check now qstate (sv_states s)) as [[] x] eqn:Hchk; cbn [negb] in Hcb; [|by simplify_eq/=].
  destruct (Exchange p ans) as [prof|] eqn:Hex; [|by simplify_eq/=].
  cbn [sv_store with_states] in Hcb.
  destruct (provisionUser _ _ _ _ _ _ _) as [[[u o]|] m1] eqn:Hp; [|by simplify_eq/=].
  injection Hcb as <- <-. apply Exchange_vouched in Hex as [_ Hv].
  apply provisionUser_account in Hp; [|by apply store_reachable_ok|by apply reachable_user_ids].
  split_and!; [done| | | | |].
  - intros s0 tr t1 Hz Hh Hle. destruct (nonce_history qstate _ _ _ _ Hz Hh) as [_ _ I3]. apply (I3 now Hle).
    destruct (st_check_true _ _ _ _ now Hchk) as [Hat _]; [lia|done].
  - intros tr t2 y t3 Hh Hf Hi Hn3 H23. apply unlive_refused.
    apply (spent_stays qstate now x tr t2 y); [|exact Hh|done..].
    intros t Ht. by destruct (st_check_true _ _ _ _ t Hchk Ht) as [_ Hno].
  - exists (ou_Email prof), u, o. split; [done|]. split; [done|]. split; simpl; set_solver.
  - intros k. simpl. rewrite !elem_of_cons. intros [->|[->|[->|[->|Hk]]]]; try done. by apply not_elem_of_nil in Hk.
  - simpl. destruct nc as [v|]; [|by exists "/"].
    destruct (String.eqb_spec (safeNextPath v) "") as [|Hn]; [by exists "/"|].
    simpl. apply safeNextPath_local in Hn as [-> Hl]. by exists v.
Qed.

(** A refused approval has already minted its key: the row stays in the store,
    with a plaintext nobody will ever see. *)
Lemma refused_approval_keeps_key (IDKey : string → list Z → Z → Z → Z → Z → list Z) now dw p code s e d :
  keyPrefix (sv_store s) !! gk_Prefix (GenerateAPIKey IDKey (dw_pb dw) (dw_sb dw) (dw_salt dw)) = None →
  dev_Approve now code (pr_OrgID p) (gk_Full (GenerateAPIKey IDKey (dw_pb dw) (dw_sb dw) (dw_salt dw))) (sv_devices s)
    = (Err e, d) →
  let '(r, s') := handleDeviceApprove (D := D) (R := R) (S := S) IDKey now dw p (Some code) s in
  rs_Status r = 400 ∧ ∃ k, keys (sv_store s') !! NewID "key" (dw_key dw) = Some k ∧ ak_OrgID k = pr_OrgID p.
Proof.
  intros Hp Ha. unfold handleDeviceApprove, decode_then, CreateAPIKey. cbn -[GenerateAPIKey dev_Approve].
  rewrite Hp. cbn -[GenerateAPIKey dev_Approve]. rewrite Ha. split; [done|].
  eexists. cbn -[GenerateAPIKey]. split; [apply lookup_insert_eq|done].
Qed.
End login.

(** * The device flow, end to end *)
Section device_login.
  Context {R S : Type} `{Revoker R} `{oauthStateStore S} `{Jwt}.
  Context (IDKey : string → list Z → Z → Z → Z → Z → list Z).
  Context (cfg : ApiConfig).
  Abbreviation Sv := (Server deviceStore R S).

(** The key of a fresh row authenticates. *)
Lemma minted_key_authenticates now dw org m k m1 t :
  IDKey_ok IDKey → Forall is_byte (dw_salt dw) →
  let gk := GenerateAPIKey IDKey (dw_pb dw) (dw_sb dw) (dw_salt dw) in
  CreateAPIKey now (dw_key dw) (device_key org gk) m = (Ok k, m1) →
  fst (AuthenticateAPIKey IDKey t (gk_Full gk) m1) = Ok k ∧ ak_OrgID k = org.
Proof.
  intros Hid Hs gk Hc. unfold CreateAPIKey in Hc. cbn -[GenerateAPIKey] in Hc. fold gk in Hc.
  destruct (keyPrefix m !! gk_Prefix gk); [done|]. injection Hc as <- <-. split; [|done].
  unfold AuthenticateAPIKey, gk at 1. rewrite GenerateAPIKey_prefix. fold gk. unfold GetAPIKeyByPrefix.
  cbn -[gk]. rewrite !lookup_insert_eq. cbn -[gk].
  change (gk_Hash gk) with (HashKey IDKey (dw_salt dw) (gk_Full gk)). by rewrite VerifyKey_HashKey.
Qed.

(** The device login works end to end: a flow that is created, approved by a
    signed-in principal with its user code, and polled within ten minutes of its
    creation delivers, once, an API key that authenticates as the approving
    principal's org. *)
Theorem device_login_delivers t1 t2 t3 dw1 dw2 p (s : Sv) :
  IDKey_ok IDKey → Forall is_byte (dw_salt dw2) →
  t3 - t1 <= DeviceTTL →
  let gk := GenerateAPIKey IDKey (dw_pb dw2) (dw_sb dw2) (dw_salt dw2) in
  let code := NewDeviceCode (dw_code dw1) in
  keyPrefix (sv_store s) !! gk_Prefix gk = None →
  let '(r1, s1) := handleDeviceCode cfg t1 dw1 s in
  let '(r2, s2) := handleDeviceApprove IDKey t2 dw2 p (Some (NewUserCode (dw_ucode dw1))) s1 in
  let '(r3, s3) := handleDeviceToken t3 (Some code) s2 in
  let '(r4, s4) := handleDeviceToken t3 (Some code) s3 in
  rs_Status r1 = 200 ∧ rs_Status r2 = 200 ∧
  r3 = writeJSON 200 (JObj [("api_key", JStr (gk_Full gk))]) ∧
  r4 = writeError 400 "invalid_device_code" ∧
  ∃ k, fst (AuthenticateAPIKey IDKey t3 (gk_Full gk) (sv_store s4)) = Ok k ∧ ak_OrgID k = pr_OrgID p.
Proof.
  intros Hid Hsalt Ht gk code Hpre.
  destruct (CreateAPIKey t2 (dw_key dw2) (device_key (pr_OrgID p) gk) (sv_store s)) as [[k|e] m1] eqn:Hc;
    [|unfold CreateAPIKey in Hc; cbn -[gk] in Hc; by rewrite Hpre in Hc].
  destruct (minted_key_authenticates t2 dw2 (pr_OrgID p) (sv_store s) k m1 t3 Hid Hsalt Hc) as [Hauth Horg].
  set (req := new_request t1 (dw_code dw1) (dw_ucode dw1)).
  set (d1 := {| byDevice := <[code := req]> (byDevice (sv_devices s));
                byUser := <[NewUserCode (dw_ucode dw1) := code]> (byUser (sv_devices s)) |}).
  set (d2 := {| byDevice := <[code := approve_request (pr_OrgID p) (gk_Full gk) req]> (byDevice d1); byUser := byUser d1 |}).
  assert (Hs1 : snd (handleDeviceCode cfg t1 dw1 s) = with_devices d1 s) by done.
  assert (Hs2 : handleDeviceApprove IDKey t2 dw2 p (Some (NewUserCode (dw_ucode dw1))) (with_devices d1 s) =
    (writeJSON 200 (JObj [("status", JStr "approved")]), with_devices d2 (with_store m1 s))).
  { unfold handleDeviceApprove, decode_then. cbn [sv_store with_devices]. fold gk. rewrite Hc.
    cbn [sv_devices with_store dev_Approve MemDevices]. unfold mem_Approve.
    rewrite (canonical_norm _ (user_code_canonical _)).
    assert (Hu : byUser d1 !! NewUserCode (dw_ucode dw1) = Some code) by (unfold d1; apply lookup_insert_eq).
    assert (Hd : byDevice d1 !! code = Some req) by (unfold d1; apply lookup_insert_eq).
    cbn [sv_devices with_devices]. by rewrite Hu, Hd. }
  assert (Hs3 : ∀ x, handleDeviceToken t3 (Some code) (with_devices d2 x : Sv) =
    (writeJSON 200 (JObj [("api_key", JStr (gk_Full gk))]), with_devices (mem_drop code (dr_UserCode req) d2) x)).
  { intros x. unfold handleDeviceToken, decode_then. cbn [sv_devices with_devices dev_Poll MemDevices].
    unfold mem_Poll, since_exceeds. unfold d2 at 1. cbn [byDevice]. rewrite lookup_insert_eq.
    cbn [dr_CreatedAt approve_request req new_request dr_Approved negb dr_APIKey dr_UserCode].
    by destruct (Z.ltb_spec DeviceTTL (t3 - t1)); [lia|]. }
  assert (Hs4 : ∀ x, handleDeviceToken t3 (Some code) (with_devices (mem_drop code (dr_UserCode req) d2) x : Sv) =
    (writeError 400 "invalid_device_code", with_devices (mem_drop code (dr_UserCode req) d2) x)).
  { intros x. unfold handleDeviceToken, decode_then. cbn [sv_devices with_devices dev_Poll MemDevices].
    unfold mem_Poll. cbn [byDevice mem_drop]. by rewrite lookup_delete_eq. }
  destruct (handleDeviceCode cfg t1 dw1 s) as [r1 s1] eqn:Hr1. simpl in Hs1. subst s1.
  rewrite Hs2, Hs3, Hs4. unfold handleDeviceCode in Hr1. simpl in Hr1. injection Hr1 as <-.
  split_and!; eauto.
Qed.
End device_login.

(** * Witnesses *)
Definition ex_draws : Draws :=
  {| dw_user := [1]; dw_org := [2]; dw_j1 := [3]; dw_j2 := [4]; dw_pb := [5]; dw_sb := [6]; dw_salt := [7]; dw_key := [8];
     dw_code := [1; 2]; dw_ucode := ex_user_bytes; dw_nonce := [10; 11] |}.
Definition ex_server : Server deviceStore memRevoker memStateStore :=
  mkServer NewMemStore newDeviceStore newMemRevoker newMemStateStore.
Definition ex_providers : gmap string OAuthProvider := {["google" := GoogleProvider "id" "sec" "https://api.trqsh.uz/cb"]}.
Definition ex_answers : Provider_answers :=
  {| pa_token := Ok (200, Ok "at");
     pa_user := Ok (200, Ok {| ui_Email := "Ann@x.uz"; ui_Name := "Ann"; ui_Login := ""; ui_Avatar := ""; ui_Picture := "";
                              ui_VerifiedEmail := Some true; ui_EmailVerified := None |});
     pa_emails := Err "" |}.
Definition ex_started : Server deviceStore memRevoker memStateStore :=
  snd (handleOAuthStart ex_api_cfg ex_providers 100 ex_draws "google" "/device?code=1" ex_server).

(** A login that was started a moment before, and the same callback again. *)
Lemma oauth_login_safe_witness :
  let cb t st := handleOAuthCallback ex_api_cfg ex_providers t ex_draws "google" "0a0b" (Some "0a0b") (Some "/device") ex_answers st in
  rs_Status (fst (cb 200 ex_started)) = 302 ∧ rs_Location (fst (cb 200 ex_started)) = "https://app.trqsh.uz/device" ∧
  (∃ t0, ENew t0 "0a0b" ∈ [ENew 100 "0a0b"] ∧ t0 <= 200 <= t0 + oauthStateTTL) ∧
  fst (st_Check 201 "0a0b" (sv_states (snd (cb 200 ex_started)))) = false ∧ rs_Status (fst (cb 201 (snd (cb 200 ex_started)))) = 400.
Proof.
  intros cb.
  destruct (oauth_login_safe ex_api_cfg ex_providers 200 ex_draws "google" "0a0b" (Some "0a0b") (Some "/device")
    ex_answers ex_started (fst (cb 200 ex_started)) (snd (cb 200 ex_started)) sr_init) as (_ & Hlive & Hspent & _).
  - apply surjective_pairing.
  - vm_compute. reflexivity.
  - split; [vm_compute; reflexivity|]. split; [vm_compute; reflexivity|]. split; [|split; [|vm_compute; reflexivity]].
    + apply (Hlive newMemStateStore [ENew 100 "0a0b"] 100); [|apply (sh_new newMemStateStore [] 100 newMemStateStore 100 [10; 11]); [apply sh_start|lia|reflexivity]|lia].
      intros t. reflexivity.
    + apply (Hspent [] 200 _ 201); [apply sh_start|constructor|reflexivity|lia|lia].
Defined.

Lemma device_login_delivers_witness :
  fst (handleDeviceToken 300 (Some "0102")
    (snd (handleDeviceApprove ex_idkey 200 ex_draws ex_principal (Some "BCDF-01T9")
       (snd (handleDeviceCode ex_api_cfg 100 ex_draws ex_server))))) =
  writeJSON 200 (JObj [("api_key", JStr "tq_live_05_06")]).
Proof.
  pose proof (device_login_delivers ex_idkey ex_api_cfg 100 200 300 ex_draws ex_draws ex_principal ex_server
    ex_idkey_ok ltac:(unfold is_byte; repeat constructor; lia) ltac:(vm_compute; congruence)
    ltac:(vm_compute; reflexivity)) as Hx.
  change "0102" with (NewDeviceCode (dw_code ex_draws)).
  change "BCDF-01T9" with (NewUserCode (dw_ucode ex_draws)).
  change "tq_live_05_06" with (gk_Full (GenerateAPIKey ex_idkey (dw_pb ex_draws) (dw_sb ex_draws) (dw_salt ex_draws))).
  destruct (handleDeviceCode ex_api_cfg 100 ex_draws ex_server) as [r1 s1]. cbn [fst snd].
  destruct (handleDeviceApprove ex_idkey 200 ex_draws ex_principal _ s1) as [r2 s2]. cbn [fst snd].
  destruct (handleDeviceToken 300 _ s2) as [r3 s3]. destruct (handleDeviceToken 300 _ s3) as [r4 s4].
  exact (proj1 (proj2 (proj2 Hx))).
Defined.
