(* ===== verification/RateLimit.v ===== *)
(** The per-client rate limiter of the API (internal/api/middleware.go and
    ratelimit_redis.go): the process-local token buckets, the Lua script that
    keeps them in Redis with its local fallback, and the middlewares around them.

    Tokens are kept as exact integers: a billionth of a token in the local store,
    whose clock counts nanoseconds, and a thousandth in the script, whose clock
    counts milliseconds.  The rounding of float64 is not modelled.  The rates and
    bursts of the program are whole numbers (5 and 10, 50 and 100). *)
From S2P Require Import Prelude GoStrings Registry Ingress ApiConfig.
From Stdlib Require Import Ascii.

Open Scope Z_scope.

(** * The client a request is counted against *)
Definition clientIP (h : Header) (remoteAddr : string) (trustXFF : bool) : string :=
  let direct := match SplitHostPort remoteAddr with Some (host, _) => host | None => remoteAddr end in
  if trustXFF then
    let xff := Get h "X-Forwarded-For" in
    let ip := if String.eqb xff "" then "" else TrimSpace (default "" (head (Split xff ","%char))) in
    if negb (String.eqb ip "") then ip
    else
      let xr := TrimSpace (Get h "X-Real-Ip") in
      if negb (String.eqb xr "") then xr else direct
  else direct.

Definition securityHeaders (cfg : ApiConfig) (h : Header) : Header :=
  let h := Set_ h "X-Content-Type-Options" "nosniff" in
  let h := Set_ h "X-Frame-Options" "DENY" in
  let h := Set_ h "Referrer-Policy" "no-referrer" in
  let h := Set_ h "Cross-Origin-Opener-Policy" "same-origin" in
  if IsProduction cfg then Set_ h "Strict-Transport-Security" "max-age=63072000; includeSubDomains" else h.

(** * Buckets *)
Class bucketStore (B : Type) := { allow : Time → string → B → bool * B }.

Definition rl_middleware {B S} `{bucketStore B} (trustXFF : bool) (now : Time) (h : Header) (remoteAddr : string)
    (next : S → Response * S) (rl : B) (s : S) : Response * B * S :=
  match allow now (clientIP h remoteAddr trustXFF) rl with
  | (false, rl) => (writeError 429 "rate limit exceeded", rl, s)
  | (true, rl) => let '(r, s) := next s in (r, rl, s)
  end.

(** ** In the process *)
Definition nano : Z := 1000000000.

Record tokenBucket := { tb_tokens : Z; tb_last : Time }.
Record localBucketStore := { lb_buckets : gmap string tokenBucket; lb_rps : Z; lb_burst : Z }.

Definition newLocalBucketStore (rps burst : Z) : localBucketStore :=
  {| lb_buckets := ∅; lb_rps := rps; lb_burst := burst |}.

Definition set_bucket (key : string) (b : tokenBucket) (s : localBucketStore) : localBucketStore :=
  {| lb_buckets := <[key := b]> (lb_buckets s); lb_rps := lb_rps s; lb_burst := lb_burst s |}.

Definition local_allow (now : Time) (key : string) (s : localBucketStore) : bool * localBucketStore :=
  match lb_buckets s !! key with
  | None => (true, set_bucket key {| tb_tokens := lb_burst s * nano - nano; tb_last := now |} s)
  | Some b =>
      let t := Z.min (lb_burst s * nano) (tb_tokens b + (now - tb_last b) * lb_rps s) in
      if t <? nano then (false, set_bucket key {| tb_tokens := t; tb_last := now |} s)
      else (true, set_bucket key {| tb_tokens := t - nano; tb_last := now |} s)
  end.

(** One tick of the reaper. *)
Definition local_reap (now : Time) (s : localBucketStore) : localBucketStore :=
  let cutoff := now - 10 * Minute in
  {| lb_buckets := filter (λ kb, Before (tb_last (snd kb)) cutoff = false) (lb_buckets s);
     lb_rps := lb_rps s; lb_burst := lb_burst s |}.

#[export] Instance LocalBuckets : bucketStore localBucketStore := {| allow := local_allow |}.

(** ** In Redis *)
Definition milli : Z := 1000.
Definition UnixMilli (t : Time) : Z := t / Millisecond - 62135596800000.

(** EVAL of a script on one key that holds a hash, followed by the PEXPIRE with
    which every path of the script ends: [f] maps the fields to the reply and the
    fields it leaves. *)
Class RedisScripts (D : Type) := {
  sc_Run : Time → string → Duration → (gmap string Z → Z * gmap string Z) → M D RegErr Z;
}.

Definition redisRateLimitPrefix : string := "trqsh:rl:".

Definition allowScript (rps burst now : Z) (h : gmap string Z) : Z * gmap string Z :=
  let write (tokens : Z) := <["tokens" := tokens]> (<["ts" := now]> h) in
  match h !! "tokens", h !! "ts" with
  | Some tokens, Some last =>
      let elapsed := now - last in
      let elapsed := if elapsed <? 0 then 0 else elapsed in
      let tokens := Z.min (burst * milli) (tokens + elapsed * rps) in
      if milli <=? tokens then (1, write (tokens - milli)) else (0, write tokens)
  | _, _ => (1, write (burst * milli - milli))
  end.

(** The smallest integer not below [a / b]. *)
Definition ceil_div (a b : Z) : Z := - ((- a) / b).

Definition bucket_ttlMs (rps burst : Z) : Z :=
  if 0 <? rps then ceil_div (burst * 1000) rps + 1000 else 60000.

Record redisBucketStore (D : Type) := mkRedisBuckets {
  rb_rdb : D; rb_prefix : string; rb_rps : Z; rb_burst : Z; rb_ttlMs : Z;
  rb_now : Time → Time; (* the replica's clock, as a function of the time *)
  rb_fallback : localBucketStore;
}.
Arguments mkRedisBuckets {D} _ _ _ _ _ _ _.
Arguments rb_now {D} _ _.
Arguments rb_rdb {D} _.
Arguments rb_prefix {D} _.
Arguments rb_rps {D} _.
Arguments rb_burst {D} _.
Arguments rb_ttlMs {D} _.
Arguments rb_fallback {D} _.

Section redis.
  Context {D : Type} `{RedisScripts D}.

Definition newRedisBucketStore (rdb : D) (name : string) (rps burst : Z) : redisBucketStore D :=
  mkRedisBuckets rdb (redisRateLimitPrefix +:+ name +:+ ":") rps burst (bucket_ttlMs rps burst) (λ t, t)
    (newLocalBucketStore rps burst).

Definition redis_allow (now : Time) (key : string) (s : redisBucketStore D) : bool * redisBucketStore D :=
  let set (rdb : D) (fb : localBucketStore) :=
    mkRedisBuckets rdb (rb_prefix s) (rb_rps s) (rb_burst s) (rb_ttlMs s) (rb_now s) fb in
  match sc_Run now (rb_prefix s +:+ key) (rb_ttlMs s * Millisecond)
          (allowScript (rb_rps s) (rb_burst s) (UnixMilli (rb_now s now))) (rb_rdb s) with
  | (Ok res, rdb) => (res =? 1, set rdb (rb_fallback s))
  | (Err _, rdb) =>
      let '(ok, fb) := local_allow (rb_now s now) key (rb_fallback s) in (ok, set rdb fb)
  end.

#[export] Instance RedisBuckets : bucketStore (redisBucketStore D) := {| allow := redis_allow |}.
End redis.

(** [newRateLimiter]: which store backs a limiter. *)
Inductive limiterStore (D : Type) :=
| LimitRedis (s : redisBucketStore D)
| LimitLocal (s : localBucketStore).
Arguments LimitRedis {D} s.
Arguments LimitLocal {D} s.

Section limiter.
  Context {D : Type} `{RedisScripts D}.

Definition newRateLimiter (rdb : option D) (name : string) (rps burst : Z) : limiterStore D :=
  match rdb with
  | Some rdb => LimitRedis (newRedisBucketStore rdb name rps burst)
  | None => LimitLocal (newLocalBucketStore rps burst)
  end.

#[export] Instance LimiterBuckets : bucketStore (limiterStore D) :=
  {| allow now key s :=
       match s with
       | LimitRedis s => let '(ok, s) := allow now key s in (ok, LimitRedis s)
       | LimitLocal s => let '(ok, s) := allow now key s in (ok, LimitLocal s)
       end |}.
End limiter.
