(* ===== verification/RateLimitSafety.v ===== *)
(** What the rate limiter promises: a client is admitted at most [burst] times
    plus [rps] per second, by the shared buckets and by each replica's fallback,
    however many replicas run; and a client that pauses is admitted again. *)
From S2P Require Import Prelude GoStrings Registry RateLimit.

Open Scope Z_scope.

(** * Scripts of Redis
    [sc_at s t k]: the fields a script would read under [k] at time [t]; the empty
    map when the key is missing or has expired. *)
Class ScriptLaws (D : Type) `{RedisScripts D} := {
  sc_at : D → Time → string → gmap string Z;
  sc_ok : ∀ now k ttl f s a s',
    sc_Run now k ttl f s = (Ok a, s') →
    a = fst (f (sc_at s now k)) ∧
    (∀ t, now <= t → sc_at s' t k = snd (f (sc_at s now k)) ∨ (now + ttl <= t ∧ sc_at s' t k = ∅));
  (** a run whose reply is lost happened or did not *)
  sc_err : ∀ now k ttl f s e s',
    sc_Run now k ttl f s = (Err e, s') →
    (∀ t, now <= t → sc_at s' t k = sc_at s t k) ∨
    (∀ t, now <= t → sc_at s' t k = snd (f (sc_at s now k)) ∨ (now + ttl <= t ∧ sc_at s' t k = ∅));
  sc_other : ∀ now k ttl f s res s' t j,
    sc_Run now k ttl f s = (res, s') → j ≠ k → now <= t → sc_at s' t j = sc_at s t j;
}.

Section limits.
  Context (rps burst : Z) (name : string).
  Hypothesis Hrps : 0 < rps.
  Hypothesis Hburst : 0 < burst.
  (** the reaper's ten minutes are enough to fill a bucket *)
  Hypothesis Hidle : burst <= rps * 600.

(** * Local buckets *)
Definition local_level (s : localBucketStore) (t : Time) (k : string) : Z :=
  match lb_buckets s !! k with
  | None => burst * nano
  | Some b => Z.min (burst * nano) (tb_tokens b + (t - tb_last b) * rps)
  end.

Record local_ok (s : localBucketStore) (t : Time) : Prop := {
  lo_rps : lb_rps s = rps;
  lo_burst : lb_burst s = burst;
  lo_bucket : ∀ k b, lb_buckets s !! k = Some b → 0 <= tb_tokens b <= burst * nano ∧ tb_last b <= t;
}.

Lemma local_new_ok t : local_ok (newLocalBucketStore rps burst) t.
Proof. split; [done..|]. intros k b. simpl. by rewrite lookup_empty. Qed.

Lemma local_ok_later s t t' : local_ok s t → t <= t' → local_ok s t'.
Proof. intros [? ? Hb] Ht. split; [done..|]. intros k b Hk. apply Hb in Hk. lia. Qed.

Lemma local_level_range s t k : local_ok s t → 0 <= local_level s t k <= burst * nano.
Proof.
  intros [_ _ Hb]. unfold local_level. destruct (lb_buckets s !! k) as [b|] eqn:Hk; [|unfold nano; lia].
  apply Hb in Hk. nia.
Qed.

Lemma local_level_refill s t t' k :
  local_ok s t → t <= t' → local_level s t' k = Z.min (burst * nano) (local_level s t k + (t' - t) * rps).
Proof. intros _ Ht. unfold local_level. destruct (lb_buckets s !! k) as [b|]; nia. Qed.

Lemma local_set_level k b s t j :
  local_level (set_bucket k b s) t j =
  if decide (j = k) then Z.min (burst * nano) (tb_tokens b + (t - tb_last b) * rps) else local_level s t j.
Proof.
  unfold local_level, set_bucket. simpl. destruct (decide (j = k)) as [->|].
  - by rewrite lookup_insert_eq.
  - by rewrite lookup_insert_ne.
Qed.

Lemma local_set_ok k b s t :
  local_ok s t → 0 <= tb_tokens b <= burst * nano → tb_last b <= t → local_ok (set_bucket k b s) t.
Proof.
  intros [? ? Hb] Hr Hl. split; [done..|]. intros j b'. unfold set_bucket. simpl.
  intros [[<- <-]|[_ Hj]]%lookup_insert_Some; [done|by apply Hb in Hj].
Qed.

(** One decision of the local store, in terms of the level of the bucket. *)
Lemma local_allow_spec s now k ok s' :
  local_ok s now → local_allow now k s = (ok, s') →
  ok = (nano <=? local_level s now k) ∧ local_ok s' now ∧
  local_level s' now k = local_level s now k - (if ok then nano else 0) ∧
  ∀ t j, j ≠ k → local_level s' t j = local_level s t j.
Proof.
  intros Hok. pose proof (local_level_range s now k Hok) as Hrange. unfold local_allow.
  rewrite (lo_burst _ _ Hok), (lo_rps _ _ Hok).
  assert (Hset : ∀ v, 0 <= v <= burst * nano →
    let s1 := set_bucket k {| tb_tokens := v; tb_last := now |} s in
    local_ok s1 now ∧ local_level s1 now k = v ∧ ∀ t j, j ≠ k → local_level s1 t j = local_level s t j).
  { intros v Hv s1. split; [by apply local_set_ok; simpl; [done|lia..]|]. split.
    - unfold s1. rewrite local_set_level, decide_True by done. simpl. nia.
    - intros t j Hj. unfold s1. by rewrite local_set_level, decide_False. }
  destruct (lb_buckets s !! k) as [b|] eqn:Hk.
  - assert (HL : local_level s now k = Z.min (burst * nano) (tb_tokens b + (now - tb_last b) * rps))
      by (unfold local_level; by rewrite Hk).
    rewrite <- HL. destruct (Z.ltb_spec (local_level s now k) nano) as [Hv|Hv]; intros [= <- <-].
    + destruct (Hset (local_level s now k) Hrange) as (? & -> & ?).
      split_and!; [symmetry; by apply Z.leb_gt|done|lia|done].
    + destruct (Hset (local_level s now k - nano)) as (? & -> & ?); [unfold nano in *; lia|].
      split_and!; [symmetry; by apply Z.leb_le|done|lia|done].
  - assert (HL : local_level s now k = burst * nano) by (unfold local_level; by rewrite Hk).
    assert (nano <= burst * nano) by (unfold nano; lia). intros [= <- <-]. rewrite HL.
    destruct (Hset (burst * nano - nano)) as (? & -> & ?); [unfold nano in *; lia|].
    split_and!; [symmetry; by apply Z.leb_le|done|lia|done].
Qed.

(** The reaper only forgets buckets that are full again. *)
Lemma local_reap_spec s now :
  local_ok s now →
  local_ok (local_reap now s) now ∧ ∀ t k, now <= t → local_level (local_reap now s) t k = local_level s t k.
Proof.
  intros [Hr Hb Hk]. split.
  - split; [done..|]. intros k b [Hl _]%map_lookup_filter_Some. by apply Hk in Hl.
  - intros t k Ht. unfold local_level, local_reap. simpl.
    destruct (lb_buckets s !! k) as [b|] eqn:Hl.
    + destruct (Before (tb_last b) (now - 10 * Minute)) eqn:Hc.
      * rewrite map_lookup_filter_None_2; [|right; intros b' Hb'; simplify_eq/=; congruence].
        apply Z.ltb_lt in Hc. apply Hk in Hl. revert Hc. unfold Minute, Second, Millisecond, nano in *. nia.
      * by rewrite (map_lookup_filter_Some_2 _ _ _ b).
    + by rewrite map_lookup_filter_None_2; [|left].
Qed.

(** * Buckets in Redis *)
Definition hash_level (h : gmap string Z) (n : Z) : Z :=
  match h !! "tokens", h !! "ts" with
  | Some tk, Some ts => Z.min (burst * milli) (tk + Z.max 0 (n - ts) * rps)
  | _, _ => burst * milli
  end.

Definition hash_ok (h : gmap string Z) (n : Z) : Prop :=
  match h !! "tokens", h !! "ts" with
  | Some tk, Some ts => 0 <= tk <= burst * milli ∧ ts <= n
  | _, _ => True
  end.

Lemma hash_level_range h n : hash_ok h n → 0 <= hash_level h n <= burst * milli.
Proof. unfold hash_ok, hash_level, milli. destruct (h !! "tokens"), (h !! "ts"); nia. Qed.

Lemma hash_level_refill h n n' :
  hash_ok h n → n <= n' → hash_level h n' = Z.min (burst * milli) (hash_level h n + (n' - n) * rps).
Proof. unfold hash_ok, hash_level. destruct (h !! "tokens"), (h !! "ts"); nia. Qed.

(** One run of the script, in terms of the level of the bucket. *)
Lemma allowScript_spec h n a h' :
  hash_ok h n → allowScript rps burst n h = (a, h') →
  (a =? 1) = (milli <=? hash_level h n) ∧
  (∃ tk, h' !! "tokens" = Some tk ∧ h' !! "ts" = Some n ∧ 0 <= tk <= burst * milli) ∧
  hash_level h' n = hash_level h n - (if a =? 1 then milli else 0).
Proof.
  intros Hok. pose proof (hash_level_range h n Hok) as Hrange. unfold allowScript.
  assert (Hone : milli <= burst * milli) by (unfold milli; lia). assert (Hm : 0 < milli) by done.
  assert (Hw : ∀ tk, let h1 := <["tokens":=tk]> (<["ts":=n]> h) in 0 <= tk <= burst * milli →
    (∃ tk, h1 !! "tokens" = Some tk ∧ h1 !! "ts" = Some n ∧ 0 <= tk <= burst * milli) ∧ hash_level h1 n = tk).
  { intros tk h1 Htk. assert (Hk : h1 !! "tokens" = Some tk) by apply lookup_insert_eq.
    assert (Hs : h1 !! "ts" = Some n) by (unfold h1; rewrite lookup_insert_ne by done; apply lookup_insert_eq).
    split; [by exists tk|]. unfold hash_level. rewrite Hk, Hs. lia. }
  assert (Hnew : hash_level h n = burst * milli →
    (1, <["tokens":=burst * milli - milli]> (<["ts":=n]> h)) = (a, h') →
    (a =? 1) = (milli <=? hash_level h n) ∧
    (∃ tk, h' !! "tokens" = Some tk ∧ h' !! "ts" = Some n ∧ 0 <= tk <= burst * milli) ∧
    hash_level h' n = hash_level h n - (if a =? 1 then milli else 0)).
  { intros HL [= <- <-]. destruct (Hw (burst * milli - milli)) as [? ->]; [lia|]. rewrite HL.
    split_and!; [symmetry; by apply Z.leb_le|done|simpl; lia]. }
  unfold hash_ok in Hok. unfold hash_level in Hnew at 1.
  destruct (h !! "tokens") as [tk|] eqn:Ht, (h !! "ts") as [ts|] eqn:Hts; [|by apply Hnew..].
  assert (HL : hash_level h n = Z.min (burst * milli) (tk + (n - ts) * rps)).
  { unfold hash_level. rewrite Ht, Hts. by replace (Z.max 0 (n - ts)) with (n - ts) by lia. }
  cbv zeta. destruct (Z.ltb_spec (n - ts) 0); [lia|]. rewrite <- HL.
  destruct (Z.leb_spec milli (hash_level h n)) as [Hv|Hv]; intros [= <- <-]; simpl.
  - destruct (Hw (hash_level h n - milli)) as [? ->]; [lia|]. done.
  - destruct (Hw (hash_level h n)) as [? ->]; [lia|]. by rewrite Z.sub_0_r.
Qed.

Lemma ceil_div_spec a b : 0 < b → a <= ceil_div a b * b.
Proof. intros Hb. unfold ceil_div. pose proof (Z.mul_div_le (- a) b Hb). nia. Qed.

(** The TTL of a bucket is long enough to fill it. *)
Lemma ttl_fills : burst * milli <= bucket_ttlMs rps burst * rps.
Proof.
  unfold bucket_ttlMs, milli. destruct (Z.ltb_spec 0 rps); [|lia].
  pose proof (ceil_div_spec (burst * 1000) rps ltac:(done)). nia.
Qed.

Lemma UnixMilli_mono t t' : t <= t' → UnixMilli t <= UnixMilli t'.
Proof. intros Ht. unfold UnixMilli. pose proof (Z.div_le_mono t t' Millisecond ltac:(done) Ht). lia. Qed.

Lemma UnixMilli_after t d t' : t + d * Millisecond <= t' → UnixMilli t + d <= UnixMilli t'.
Proof.
  intros Ht. unfold UnixMilli.
  pose proof (Z.div_le_mono _ _ Millisecond ltac:(done) Ht) as Hd. rewrite Z.div_add in Hd by done. lia.
Qed.

(** * A fleet of replicas that share one Redis *)
Section fleet.
  Context {D : Type} `{ScriptLaws D}.

Record fleet := mkFleet { fl_rdb : D; fl_local : list localBucketStore }.

(** Replica [fb] of the fleet, as [newRedisBucketStore] built it; its clock is right. *)
Definition replica (d : D) (fb : localBucketStore) : redisBucketStore D :=
  let s := newRedisBucketStore d name rps burst in
  mkRedisBuckets d (rb_prefix s) (rb_rps s) (rb_burst s) (rb_ttlMs s) (rb_now s) fb.

Definition bucket_key (k : string) : string := (redisRateLimitPrefix +:+ name +:+ ":") +:+ k.
Definition run_script (now : Time) (k : string) : M D RegErr Z :=
  sc_Run now (bucket_key k) (bucket_ttlMs rps burst * Millisecond) (allowScript rps burst (UnixMilli now)).

(** A decision: who asked, whether the shared bucket or the fallback of a
    replica answered, and the answer. *)
Record decision := { d_key : string; d_src : option nat; d_ok : bool }.

Inductive fleet_step (now : Time) : fleet → option decision → fleet → Prop :=
| step_allow f i fb k ok s' :
    fl_local f !! i = Some fb → allow now k (replica (fl_rdb f) fb) = (ok, s') →
    fleet_step now f
      (Some {| d_key := k; d_src := if is_ok (fst (run_script now k (fl_rdb f))) then None else Some i; d_ok := ok |})
      (mkFleet (rb_rdb s') (<[i := rb_fallback s']> (fl_local f)))
| step_reap f i fb :
    fl_local f !! i = Some fb →
    fleet_step now f None (mkFleet (fl_rdb f) (<[i := local_reap now fb]> (fl_local f))).

Inductive fleet_run : Time → fleet → list decision → Time → fleet → Prop :=
| run_nil t f t' : t <= t' → fleet_run t f [] t' f
| run_cons t f now o f1 ds t' f' :
    t <= now → fleet_step now f o f1 → fleet_run now f1 ds t' f' → fleet_run t f (option_list o ++ ds) t' f'.

Lemma step_allow_at now f i fb k ok s' src :
  fl_local f !! i = Some fb → allow now k (replica (fl_rdb f) fb) = (ok, s') →
  src = (if is_ok (fst (run_script now k (fl_rdb f))) then None else Some i) →
  fleet_step now f (Some {| d_key := k; d_src := src; d_ok := ok |})
    (mkFleet (rb_rdb s') (<[i := rb_fallback s']> (fl_local f))).
Proof. intros Hi Ha ->. by eapply step_allow. Qed.

(** Fresh replicas on a Redis that holds no bucket of the limiter. *)
Definition fleet_new (t : Time) (f : fleet) : Prop :=
  Forall (λ fb, fb = newLocalBucketStore rps burst) (fl_local f) ∧
  ∀ k t', t <= t' → sc_at (fl_rdb f) t' (bucket_key k) = ∅.

(** ** Invariant *)
Definition shared_level (d : D) (t : Time) (k : string) : Z := hash_level (sc_at d t (bucket_key k)) (UnixMilli t).

(** What Redis holds under a key is what was written, until it is full again. *)
Definition shared_ok (d : D) (t : Time) (k : string) : Prop :=
  ∃ h, hash_ok h (UnixMilli t) ∧
    ∀ t', t <= t' → sc_at d t' (bucket_key k) = h ∨
      (sc_at d t' (bucket_key k) = ∅ ∧ hash_level h (UnixMilli t') = burst * milli).

Record fleet_ok (t : Time) (f : fleet) : Prop := {
  fo_local : ∀ i fb, fl_local f !! i = Some fb → local_ok fb t;
  fo_shared : ∀ k, shared_ok (fl_rdb f) t k;
}.

Lemma hash_level_empty n : hash_level ∅ n = burst * milli.
Proof. done. Qed.

Lemma hash_ok_later h n n' : hash_ok h n → n <= n' → hash_ok h n'.
Proof. unfold hash_ok. destruct (h !! "tokens"), (h !! "ts"); lia. Qed.

Lemma shared_ok_level d t k :
  shared_ok d t k →
  ∃ h, hash_ok h (UnixMilli t) ∧ ∀ t', t <= t' → shared_level d t' k = hash_level h (UnixMilli t').
Proof.
  intros (h & Hh & Hat). exists h. split; [done|]. intros t' Ht. unfold shared_level.
  destruct (Hat t' Ht) as [->|[-> ->]]; [done|apply hash_level_empty].
Qed.

Lemma shared_ok_later d t t' k : shared_ok d t k → t <= t' → shared_ok d t' k.
Proof.
  intros (h & Hh & Hat) Ht. exists h. split; [eapply hash_ok_later; [done|by apply UnixMilli_mono]|].
  intros u Hu. apply Hat. lia.
Qed.

Lemma fleet_ok_later f t t' : fleet_ok t f → t <= t' → fleet_ok t' f.
Proof.
  intros [Hl Hs] Ht. split; [|intros k; by eapply shared_ok_later].
  intros i fb Hi. eapply local_ok_later; [by eapply Hl|done].
Qed.

Lemma fleet_new_ok t f : fleet_new t f → fleet_ok t f.
Proof.
  intros [Hl Hs]. split.
  - intros i fb Hi. rewrite Forall_lookup in Hl. rewrite (Hl _ _ Hi). apply local_new_ok.
  - intros k. exists ∅. split; [done|]. intros t' Ht. left. by apply Hs.
Qed.

Lemma shared_level_range d t k : shared_ok d t k → 0 <= shared_level d t k <= burst * milli.
Proof.
  intros Hok. destruct (shared_ok_level _ _ _ Hok) as (h & Hh & Hl). rewrite Hl by done. by apply hash_level_range.
Qed.

Lemma shared_level_refill d t t' k :
  shared_ok d t k → t <= t' →
  shared_level d t' k = Z.min (burst * milli) (shared_level d t k + (UnixMilli t' - UnixMilli t) * rps).
Proof.
  intros Hok Ht. destruct (shared_ok_level _ _ _ Hok) as (h & Hh & Hl). rewrite !Hl by lia.
  apply hash_level_refill; [done|by apply UnixMilli_mono].
Qed.

(** ** One run of the script *)
Definition written (now : Time) (k : string) (d d' : D) : Prop :=
  ∀ t, now <= t →
    sc_at d' t (bucket_key k) = snd (allowScript rps burst (UnixMilli now) (sc_at d now (bucket_key k))) ∨
    (now + bucket_ttlMs rps burst * Millisecond <= t ∧ sc_at d' t (bucket_key k) = ∅).

Lemma ttl_positive : 0 < bucket_ttlMs rps burst * Millisecond.
Proof. pose proof ttl_fills. unfold milli, Millisecond in *. nia. Qed.

Lemma written_spec now k d d' :
  shared_ok d now k → written now k d d' →
  let a := fst (allowScript rps burst (UnixMilli now) (sc_at d now (bucket_key k))) in
  shared_ok d' now k ∧ (a =? 1) = (milli <=? shared_level d now k) ∧
  shared_level d' now k = shared_level d now k - (if a =? 1 then milli else 0).
Proof.
  intros (h & Hh & Hat) Hw a. unfold a. clear a.
  assert (Hok : hash_ok (sc_at d now (bucket_key k)) (UnixMilli now)).
  { destruct (Hat now ltac:(lia)) as [->|[-> _]]; done. }
  destruct (allowScript _ _ _ _) as [a h'] eqn:Hs.
  destruct (allowScript_spec _ _ _ _ Hok Hs) as (Ha & (tk & Htk & Hts & Hr) & Hlev). simpl.
  unfold written in Hw. rewrite Hs in Hw. simpl in Hw. split_and!.
  - exists h'. split; [unfold hash_ok; rewrite Htk, Hts; lia|]. intros t Ht.
    destruct (Hw t Ht) as [->|[Hexp ->]]; [by left|right]. split; [done|].
    apply UnixMilli_after in Hexp. pose proof ttl_fills. unfold hash_level. rewrite Htk, Hts. nia.
  - done.
  - unfold shared_level. rewrite <- Hlev. destruct (Hw now ltac:(lia)) as [->|[Hexp _]]; [done|].
    pose proof ttl_positive. lia.
Qed.

Lemma bucket_key_inj k j : bucket_key k = bucket_key j → k = j.
Proof. unfold bucket_key. apply (inj _). Qed.

Lemma run_script_spec now k d res d' :
  shared_ok d now k → run_script now k d = (res, d') →
  shared_ok d' now k ∧ shared_level d' now k <= shared_level d now k ∧
  (∀ a, res = Ok a → (a =? 1) = (milli <=? shared_level d now k) ∧
     shared_level d' now k = shared_level d now k - (if a =? 1 then milli else 0)) ∧
  (∀ j t, j ≠ k → now <= t → sc_at d' t (bucket_key j) = sc_at d t (bucket_key j)).
Proof.
  intros Hok Hrun. unfold run_script in Hrun.
  assert (Hother : ∀ j t, j ≠ k → now <= t → sc_at d' t (bucket_key j) = sc_at d t (bucket_key j)).
  { intros j t Hj Ht. eapply sc_other; [exact Hrun| |exact Ht]. intros ?%bucket_key_inj. done. }
  assert (Hm : 0 < milli) by done.
  destruct res as [a|e].
  - apply sc_ok in Hrun as [-> Hw]. destruct (written_spec _ _ _ _ Hok Hw) as (Hok' & Ha & Hl).
    split_and!; [done| |intros a' [= <-]; done|done]. rewrite Hl. by case_match; lia.
  - apply sc_err in Hrun as [Hsame|Hw].
    + split_and!; [|unfold shared_level; by rewrite Hsame|done|done].
      destruct Hok as (h & Hh & Hat). exists h. split; [done|]. intros t Ht. rewrite Hsame by done. by apply Hat.
    + destruct (written_spec _ _ _ _ Hok Hw) as (Hok' & Ha & Hl).
      split_and!; [done| |done|done]. rewrite Hl. by case_match; lia.
Qed.

(** ** One step of the fleet *)
Definition local_level_of (i : nat) (f : fleet) (t : Time) (k : string) : Z :=
  match fl_local f !! i with Some fb => local_level fb t k | None => 0 end.

Definition counts (src : option nat) (k : string) (d : decision) : bool :=
  bool_decide (d_key d = k) && bool_decide (d_src d = src) && d_ok d.
Definition admitted (src : option nat) (k : string) (ds : list decision) : Z :=
  Z.of_nat (length (filter (λ d, counts src k d = true) ds)).

Lemma admitted_app src k ds ds' : admitted src k (ds ++ ds') = admitted src k ds + admitted src k ds'.
Proof. unfold admitted. rewrite list.filter_app, length_app. lia. Qed.

Lemma admitted_one src k d : admitted src k [d] = if counts src k d then 1 else 0.
Proof. unfold admitted. rewrite list.filter_cons, list.filter_nil. by destruct (counts src k d). Qed.

Lemma local_level_insert i j fb fb' f t k d :
  fl_local f !! i = Some fb → 
  local_level_of j (mkFleet d (<[i := fb']> (fl_local f))) t k =
  if decide (j = i) then local_level fb' t k else local_level_of j f t k.
Proof.
  intros Hi. unfold local_level_of. simpl. destruct (decide (j = i)) as [->|].
  - rewrite list_lookup_insert_eq; [done|]. by eapply lookup_lt_Some.
  - by rewrite list_lookup_insert_ne.
Qed.

Lemma step_ok_insert f d i fb fb' t :
  fleet_ok t f → fl_local f !! i = Some fb → local_ok fb' t → (∀ k, shared_ok d t k) →
  fleet_ok t (mkFleet d (<[i := fb']> (fl_local f))).
Proof.
  intros [Hl _] Hi Hfb Hs. split; [|done]. simpl. intros j x Hj.
  apply list_lookup_insert_Some in Hj as [(_ & <- & _)|[_ Hj]]; [done|by eapply Hl].
Qed.

Lemma replica_allow now k d fb ok s' :
  allow now k (replica d fb) = (ok, s') →
  (∃ a, run_script now k d = (Ok a, rb_rdb s') ∧ ok = (a =? 1) ∧ rb_fallback s' = fb) ∨
  (∃ e, run_script now k d = (Err e, rb_rdb s') ∧ local_allow now k fb = (ok, rb_fallback s')).
Proof.
  change (sc_Run now _ _ _) with (run_script now k).
  unfold allow, RedisBuckets, redis_allow. change (sc_Run _ _ _ _ (rb_rdb (replica d fb))) with (run_script now k d).
  destruct (run_script now k d) as [[a|e] d'].
  - intros [= <- <-]. left. by exists a.
  - change (rb_now (replica d fb) now) with now. change (rb_fallback (replica d fb)) with fb.
    destruct (local_allow now k fb) as [ok' fb'] eqn:Hl. intros [= <- <-]. right. by exists e.
Qed.

Lemma counts_other src k d : d_key d ≠ k ∨ d_src d ≠ src → counts src k d = false.
Proof.
  intros Hne. unfold counts. apply andb_false_iff. left. apply andb_false_iff.
  destruct Hne; [left|right]; by apply bool_decide_eq_false_2.
Qed.
Lemma counts_self src k ok : counts src k {| d_key := k; d_src := src; d_ok := ok |} = ok.
Proof. unfold counts. by rewrite !bool_decide_eq_true_2. Qed.

Lemma fleet_step_spec now f o f1 :
  fleet_ok now f → fleet_step now f o f1 →
  fleet_ok now f1 ∧
  (∀ k, shared_level (fl_rdb f1) now k + admitted None k (option_list o) * milli <= shared_level (fl_rdb f) now k) ∧
  (∀ i k, local_level_of i f1 now k + admitted (Some i) k (option_list o) * nano <= local_level_of i f now k).
Proof.
  intros Hok Hstep. destruct Hstep as [f i fb k ok s' Hi Ha|f i fb Hi].
  - destruct (run_script now k (fl_rdb f)) as [res d'] eqn:Hr.
    destruct (run_script_spec now k _ _ _ (fo_shared _ _ Hok k) Hr) as (Hs1 & Hle & Ha1 & Hother).
    assert (Hshared : ∀ j, shared_ok d' now j).
    { intros j. destruct (decide (j = k)) as [->|Hj]; [done|]. destruct (fo_shared _ _ Hok j) as (h & Hh & Hat).
      exists h. split; [done|]. intros t Ht. rewrite Hother by done. by apply Hat. }
    pose proof (fo_local _ _ Hok _ _ Hi) as Hfb.
    assert (Hsame : ∀ j, j ≠ k → shared_level d' now j = shared_level (fl_rdb f) now j)
      by (intros j Hj; unfold shared_level; by rewrite Hother).
    assert (Hii : ∀ j, local_level_of i f now j = local_level fb now j)
      by (intros j; unfold local_level_of; by rewrite Hi).
    apply replica_allow in Ha as [(a & Hra & -> & Hf)|(e & Hra & Hl)]; rewrite Hr in Hra; simplify_eq/=.
    + destruct (Ha1 a eq_refl) as [_ Hl]. split_and!.
      * by eapply step_ok_insert.
      * intros j. rewrite admitted_one. destruct (decide (j = k)) as [->|Hj].
        -- rewrite counts_self. rewrite Hl. by case_match; lia.
        -- rewrite counts_other by (by left). rewrite Hsame by done. lia.
      * intros j k0. rewrite admitted_one, counts_other, (local_level_insert _ _ _ _ _ _ _ _ Hi) by (by right).
        destruct (decide (j = i)) as [->|]; [rewrite Hii|]; lia.
    + destruct (local_allow_spec _ _ _ _ _ Hfb Hl) as (_ & Hfb' & Hlev & Hoth). split_and!.
      * by eapply step_ok_insert.
      * intros j. rewrite admitted_one, counts_other by (by right).
        destruct (decide (j = k)) as [->|Hj]; [lia|rewrite Hsame by done; lia].
      * intros j k0. rewrite admitted_one, (local_level_insert _ _ _ _ _ _ _ _ Hi).
        destruct (decide (j = i)) as [->|Hj]; [rewrite Hii; destruct (decide (k0 = k)) as [->|Hk]|].
        -- rewrite counts_self. rewrite Hlev. case_match; lia.
        -- rewrite counts_other by (by left). rewrite Hoth by done. lia.
        -- rewrite counts_other by (right; simpl; congruence). lia.
  - destruct (local_reap_spec fb now (fo_local _ _ Hok _ _ Hi)) as [Hfb Hlev]. split_and!.
    + eapply step_ok_insert; [done|done|done|apply Hok].
    + intros k. simpl. unfold admitted. simpl. lia.
    + intros j k. rewrite (local_level_insert _ _ fb) by done. unfold admitted. simpl.
      destruct (decide (j = i)) as [->|]; [|lia]. rewrite Hlev by lia. unfold local_level_of. rewrite Hi. lia.
Qed.

(** ** Runs *)
Lemma local_of_range f t i k : fleet_ok t f → 0 <= local_level_of i f t k <= burst * nano.
Proof.
  intros Hok. unfold local_level_of. destruct (fl_local f !! i) as [fb|] eqn:Hi; [|unfold nano; lia].
  eapply local_level_range, fo_local; eauto.
Qed.

Lemma local_of_refill f t t' i k :
  fleet_ok t f → t <= t' → local_level_of i f t' k <= local_level_of i f t k + (t' - t) * rps.
Proof.
  intros Hok Ht. unfold local_level_of. destruct (fl_local f !! i) as [fb|] eqn:Hi; [|nia].
  rewrite (local_level_refill fb t t') by eauto using fo_local. lia.
Qed.

Lemma fleet_run_spec t f ds t' f' :
  fleet_ok t f → fleet_run t f ds t' f' →
  fleet_ok t' f' ∧
  (∀ k, shared_level (fl_rdb f') t' k + admitted None k ds * milli <=
        shared_level (fl_rdb f) t k + (UnixMilli t' - UnixMilli t) * rps) ∧
  (∀ i k, local_level_of i f' t' k + admitted (Some i) k ds * nano <= local_level_of i f t k + (t' - t) * rps).
Proof.
  intros Hok Hrun. induction Hrun as [t f t' Ht|t f now o f1 ds t' f' Ht Hstep Hrun IH].
  - split_and!; [by eapply fleet_ok_later| |].
    + intros k. rewrite (shared_level_refill _ t t') by (done || apply Hok). unfold admitted. simpl. lia.
    + intros i k. pose proof (local_of_refill f t t' i k Hok Ht). unfold admitted. simpl. lia.
  - pose proof (fleet_ok_later _ _ _ Hok Ht) as Hnow.
    destruct (fleet_step_spec _ _ _ _ Hnow Hstep) as (Hok1 & Hs & Hl).
    destruct (IH Hok1) as (Hok' & Hs' & Hl'). split_and!; [done| |].
    + intros k. specialize (Hs k). specialize (Hs' k). rewrite admitted_app.
      rewrite (shared_level_refill (fl_rdb f) t now) in Hs by (done || apply Hok). lia.
    + intros i k. specialize (Hl i k). specialize (Hl' i k). rewrite admitted_app.
      pose proof (local_of_refill f t now i k Hok Ht). lia.
Qed.

Lemma fleet_run_length t f ds t' f' : fleet_run t f ds t' f' → length (fl_local f') = length (fl_local f).
Proof.
  induction 1 as [|t f now o f1 ds t' f' Ht Hstep Hrun IH]; [done|]. rewrite IH.
  destruct Hstep; simpl; by rewrite length_insert.
Qed.

Lemma fleet_step_idle now f o f1 k t :
  fleet_ok now f → fleet_step now f o f1 → (∀ d, o = Some d → d_key d ≠ k) → now <= t →
  shared_level (fl_rdb f1) t k = shared_level (fl_rdb f) t k ∧
  ∀ i, local_level_of i f1 t k = local_level_of i f t k.
Proof.
  intros Hok Hstep Hne Ht. destruct Hstep as [f i fb j ok s' Hi Ha|f i fb Hi].
  - specialize (Hne _ eq_refl). simpl in Hne.
    destruct (run_script now j (fl_rdb f)) as [res d'] eqn:Hr.
    destruct (run_script_spec now j _ _ _ (fo_shared _ _ Hok j) Hr) as (_ & _ & _ & Hother).
    apply replica_allow in Ha as [(a & Hra & -> & Hf)|(e & Hra & Hl)]; rewrite Hr in Hra; simplify_eq/=.
    + split; [unfold shared_level; by rewrite Hother|]. intros x. rewrite (local_level_insert _ _ _ _ _ _ _ _ Hi).
      destruct (decide (x = i)) as [->|]; [|done]. unfold local_level_of. by rewrite Hi.
    + split; [unfold shared_level; by rewrite Hother|]. intros x. rewrite (local_level_insert _ _ _ _ _ _ _ _ Hi).
      destruct (decide (x = i)) as [->|]; [|done]. unfold local_level_of. rewrite Hi.
      destruct (local_allow_spec _ _ _ _ _ (fo_local _ _ Hok _ _ Hi) Hl) as (_ & _ & _ & Hoth). by apply Hoth.
  - split; [done|]. intros x. rewrite (local_level_insert _ _ _ _ _ _ _ _ Hi).
    destruct (decide (x = i)) as [->|]; [|done]. unfold local_level_of. rewrite Hi.
    by apply local_reap_spec; [eapply fo_local|].
Qed.

Lemma fleet_run_idle t f ds t' f' k :
  fleet_ok t f → fleet_run t f ds t' f' → (∀ d, d ∈ ds → d_key d ≠ k) →
  t <= t' ∧ shared_level (fl_rdb f') t' k = shared_level (fl_rdb f) t' k ∧
  ∀ i, local_level_of i f' t' k = local_level_of i f t' k.
Proof.
  intros Hok Hrun. induction Hrun as [t f t' Ht|t f now o f1 ds t' f' Ht Hstep Hrun IH]; [done|]. intros Hne.
  pose proof (fleet_ok_later _ _ _ Hok Ht) as Hnow.
  destruct (fleet_step_spec _ _ _ _ Hnow Hstep) as (Hok1 & _ & _).
  destruct IH as (Ht' & -> & Hl); [done|intros d Hd; apply Hne, elem_of_app; by right|].
  destruct (fleet_step_idle _ _ _ _ k t' Hnow Hstep) as [-> Hl1]; [|done|].
  - intros d ->. apply Hne. left.
  - split; [lia|]. split; [done|]. intros i. by rewrite Hl, Hl1.
Qed.

(** C14: the rate limit holds across replicas whose clocks agree: in any window of the
    life of a fleet of API replicas, each passing the true time to the script, a client is admitted by the shared Redis buckets at most
    [burst] times plus [rps] times the window's seconds, whatever the number of
    replicas, and by the local fallback of each replica (used when Redis fails,
    even if the failed call took effect) at most as often; expiry and the reaper
    never hand out tokens.  The rate and the burst are positive, and ten minutes fill a
    bucket.  Without synchronised clocks the bound fails: see [clock_skew_hands_out_tokens]. *)
Theorem rate_limit_holds t0 f0 ds0 t1 f1 ds t2 f2 k :
  fleet_new t0 f0 → fleet_run t0 f0 ds0 t1 f1 → fleet_run t1 f1 ds t2 f2 →
  admitted None k ds <= burst + rps * (UnixMilli t2 - UnixMilli t1) / 1000 ∧
  ∀ i, admitted (Some i) k ds <= burst + rps * (t2 - t1) / Second.
Proof.
  intros Hnew Hr0 Hr. apply fleet_new_ok in Hnew. destruct (fleet_run_spec _ _ _ _ _ Hnew Hr0) as (Hok1 & _ & _).
  destruct (fleet_run_spec _ _ _ _ _ Hok1 Hr) as (Hok2 & Hs & Hl). split.
  - specialize (Hs k). pose proof (shared_level_range _ _ _ (fo_shared _ _ Hok1 k)).
    pose proof (shared_level_range _ _ _ (fo_shared _ _ Hok2 k)). unfold milli in *.
    rewrite Z.add_comm, <- Z.div_add by done. apply Z.div_le_lower_bound; lia.
  - intros i. specialize (Hl i k). pose proof (local_of_range f1 t1 i k Hok1).
    pose proof (local_of_range f2 t2 i k Hok2).
    rewrite Z.add_comm, <- Z.div_add by done. apply Z.div_le_lower_bound; [done|].
    unfold nano, Second, Millisecond in *. lia.
Qed.

(** Nobody is locked out: a client that stays silent for one token's time (a
    second divided by [rps], in whole milliseconds) is admitted by whichever
    replica it asks next, and whether or not Redis answers; what other clients
    send does not matter. *)
Theorem patient_client_admitted t0 f0 ds0 t1 f1 ds t2 f2 k i fb ok s' :
  fleet_new t0 f0 → fleet_run t0 f0 ds0 t1 f1 → fleet_run t1 f1 ds t2 f2 →
  (∀ d, d ∈ ds → d_key d ≠ k) → 1000 <= (t2 - t1) / Millisecond * rps →
  fl_local f2 !! i = Some fb → allow t2 k (replica (fl_rdb f2) fb) = (ok, s') → ok = true.
Proof.
  intros Hnew Hr0 Hr Hne Hwait Hi Ha. apply fleet_new_ok in Hnew.
  destruct (fleet_run_spec _ _ _ _ _ Hnew Hr0) as (Hok1 & _ & _).
  destruct (fleet_run_spec _ _ _ _ _ Hok1 Hr) as (Hok2 & _ & _).
  destruct (fleet_run_idle _ _ _ _ _ k Hok1 Hr Hne) as (Ht & Hs & Hl).
  assert (Hms : UnixMilli t1 + (t2 - t1) / Millisecond <= UnixMilli t2).
  { apply UnixMilli_after. pose proof (Z.mul_div_le (t2 - t1) Millisecond ltac:(done)). lia. }
  apply replica_allow in Ha as [(a & Hra & -> & _)|(e & _ & Hla)].
  - apply run_script_spec in Hra as (_ & _ & Hres & _); [|apply Hok2]. destruct (Hres a eq_refl) as [-> _].
    apply Z.leb_le. rewrite Hs, (shared_level_refill _ t1 t2) by (done || apply Hok1).
    pose proof (shared_level_range _ _ _ (fo_shared _ _ Hok1 k)). unfold milli in *. nia.
  - apply local_allow_spec in Hla as (-> & _); [|by eapply fo_local]. apply Z.leb_le.
    specialize (Hl i). unfold local_level_of in Hl. rewrite Hi in Hl. rewrite Hl.
    pose proof (local_of_range f1 t1 i k Hok1) as Hrange. unfold local_level_of in Hrange.
    destruct (fl_local f1 !! i) as [fb1|] eqn:Hi1.
    + rewrite (local_level_refill fb1 t1 t2) by eauto using fo_local.
      pose proof (Z.mul_div_le (t2 - t1) Millisecond ltac:(done)). unfold nano, Millisecond in *. nia.
    + apply lookup_lt_Some in Hi. apply lookup_ge_None in Hi1. apply fleet_run_length in Hr. lia.
Qed.
End fleet.
End limits.

(** * Witnesses
    A Redis that keeps hashes with their expiry and stops answering at some
    moment. *)
Record toy_scripts := { ts_db : gmap string (gmap string Z * Time); ts_down : Time }.
Definition ts_at (s : toy_scripts) (t : Time) (k : string) : gmap string Z :=
  match ts_db s !! k with Some (h, e) => if t <? e then h else ∅ | None => ∅ end.

#[export] Instance toy_scripts_run : RedisScripts toy_scripts :=
  {| sc_Run now k ttl f s :=
       if ts_down s <=? now then (Err ErrBackend, s)
       else let '(a, h) := f (ts_at s now k) in
            (Ok a, {| ts_db := <[k := (h, now + ttl)]> (ts_db s); ts_down := ts_down s |}) |}.

#[export] Instance toy_scripts_laws : ScriptLaws toy_scripts.
Proof.
  refine {| sc_at := ts_at |}; simpl.
  - intros now k ttl f s a s'. destruct (ts_down s <=? now); [done|].
    destruct (f (ts_at s now k)) as [a' h] eqn:Hf. intros [= <- <-]. split; [done|].
    intros t Ht. unfold ts_at at 1 2. simpl. rewrite lookup_insert_eq.
    destruct (Z.ltb_spec t (now + ttl)); [by left|by right].
  - intros now k ttl f s e s'. destruct (ts_down s <=? now); [|by destruct (f (ts_at s now k))].
    intros [= <-]. by left.
  - intros now k ttl f s res s' t j. destruct (ts_down s <=? now); [by intros [= <- <-]|].
    destruct (f (ts_at s now k)) as [a h]. intros [= <- <-] Hj _. unfold ts_at. simpl. by rewrite lookup_insert_ne.
Defined.

Definition ex_epoch : Time := 62135596800 * Second.
Definition ex_fleet : fleet (D := toy_scripts) :=
  mkFleet {| ts_db := ∅; ts_down := ex_epoch + 10 * Second |} [newLocalBucketStore 5 10; newLocalBucketStore 5 10].

Lemma ex_fleet_new : fleet_new 5 10 "auth" ex_epoch ex_fleet.
Proof. split; [by repeat constructor|]. intros k t' _. simpl. unfold ts_at. simpl. by rewrite lookup_empty. Qed.

(** Two replicas are asked while Redis answers, and one after it has failed. *)
Lemma ex_fleet_run : ∃ f,
  fleet_run 5 10 "auth" ex_epoch ex_fleet
    [{| d_key := "9.9.9.9"; d_src := None; d_ok := true |}; {| d_key := "9.9.9.9"; d_src := None; d_ok := true |};
     {| d_key := "9.9.9.9"; d_src := Some 1%nat; d_ok := true |}] (ex_epoch + 20 * Second) f.
Proof.
  eexists.
  eapply (run_cons _ _ _ _ _ ex_epoch (Some _)); [done|eapply (step_allow_at _ _ _ _ _ 0); [reflexivity|vm_compute; reflexivity|vm_compute; reflexivity]|].
  eapply (run_cons _ _ _ _ _ (ex_epoch + Second) (Some _)); [done|eapply (step_allow_at _ _ _ _ _ 1); [reflexivity|vm_compute; reflexivity|vm_compute; reflexivity]|].
  eapply (run_cons _ _ _ _ _ (ex_epoch + 20 * Second) (Some _)); [done|eapply (step_allow_at _ _ _ _ _ 1); [reflexivity|vm_compute; reflexivity|vm_compute; reflexivity]|].
  by apply run_nil.
Qed.

Lemma rate_limit_holds_witness : ∃ f,
  fleet_run 5 10 "auth" ex_epoch ex_fleet
    [{| d_key := "9.9.9.9"; d_src := None; d_ok := true |}; {| d_key := "9.9.9.9"; d_src := None; d_ok := true |};
     {| d_key := "9.9.9.9"; d_src := Some 1%nat; d_ok := true |}] (ex_epoch + 20 * Second) f ∧ 2 <= 110.
Proof.
  destruct ex_fleet_run as [f Hf]. exists f. split; [exact Hf|].
  assert (Hz : fleet_run 5 10 "auth" ex_epoch ex_fleet [] ex_epoch ex_fleet) by (apply run_nil; lia).
  destruct (rate_limit_holds 5 10 "auth" ltac:(lia) ltac:(lia) ltac:(lia) _ _ _ _ _ _ _ _ "9.9.9.9"
    ex_fleet_new Hz Hf) as [Hb _].
  vm_compute in Hb. vm_compute. exact Hb.
Defined.

Lemma patient_client_admitted_witness :
  fst (allow (ex_epoch + 20 * Second) "9.9.9.9" (replica 5 10 "auth" (fl_rdb ex_fleet) (newLocalBucketStore 5 10))) = true.
Proof.
  destruct (allow _ _ _) as [ok s'] eqn:Ha. simpl.
  apply (patient_client_admitted 5 10 "auth" ltac:(lia) ltac:(lia) ltac:(lia) ex_epoch ex_fleet [] ex_epoch ex_fleet []
    (ex_epoch + 20 * Second) ex_fleet "9.9.9.9" 1%nat (newLocalBucketStore 5 10) ok s' ex_fleet_new).
  - apply run_nil. lia.
  - by apply run_nil.
  - intros d Hd. by apply not_elem_of_nil in Hd.
  - vm_compute. congruence.
  - reflexivity.
  - exact Ha.
Defined.

(** The script keeps the time of the last caller, also when that is behind the one it
    replaces: when two replicas whose clocks are two seconds apart take turns, a client
    with a burst of ten at five a second is admitted forty times within one instant. *)
Definition skewed (behind : Duration) (d : toy_scripts) : redisBucketStore toy_scripts :=
  let s := newRedisBucketStore d "auth" 5 10 in
  mkRedisBuckets d (rb_prefix s) (rb_rps s) (rb_burst s) (rb_ttlMs s) (λ t, t - behind) (rb_fallback s).
Fixpoint take_turns (n : nat) (now : Time) (d : toy_scripts) : Z :=
  match n with
  | O => 0
  | S n =>
      let '(ok1, s1) := allow now "9.9.9.9" (skewed 0 d) in
      let '(ok2, s2) := allow now "9.9.9.9" (skewed (2 * Second) (rb_rdb s1)) in
      (if ok1 : bool then 1 else 0) + (if ok2 : bool then 1 else 0) + take_turns n now (rb_rdb s2)
  end.
Example clock_skew_hands_out_tokens :
  take_turns 20 ex_epoch {| ts_db := ∅; ts_down := ex_epoch + 10 * Second |} = 40.
Proof. vm_compute. reflexivity. Qed.
