(* ===== verification/CertStore.v ===== *)
(** The certificate storage the edges share (internal/server/tls_storage_redis.go):
    files kept as Redis hashes with an index of their names, and the distributed
    lock that stops two edges from ordering the same certificate. *)
From S2P Require Import Prelude GoStrings Registry Wire.
From Stdlib Require Import Ascii.

Open Scope Z_scope.

Definition certmagicKeyPrefix : string := "trqsh:certmagic:".
Definition certmagicFilePrefix : string := certmagicKeyPrefix +:+ "f:".
Definition certmagicIndexKey : string := certmagicKeyPrefix +:+ "index".
Definition certmagicLockPrefix : string := certmagicKeyPrefix +:+ "lock:".
Definition certmagicFieldValue : string := "v".
Definition certmagicFieldSize : string := "s".
Definition certmagicFieldModNs : string := "m".
Definition certmagicLockTTL : Duration := 60 * Second.
Definition certmagicLockPollWait : Duration := 1 * Second.

(** [fs.ErrNotExist], a failed command, an [Unlock] of a lock that is not held and
    a cancelled context. *)
Inductive CertErr := ErrNotExist | ErrRedis | ErrNotHeld | ErrCtx.

(** * Files *)

(** The commands the storage issues, alone or queued between MULTI and EXEC. *)
Inductive FileCmd :=
| HSet (k : string) (fields : list (string * string))
| SAdd (k m : string)
| DelKey (k : string)
| SRem (k m : string).

Class RedisFiles (D : Type) := {
  fd_Exec : list FileCmd → M D RegErr unit;
  fd_HGet : string → string → M D RegErr (option string);
  fd_HMGet : string → list string → M D RegErr (list (option string));
  fd_Exists : string → M D RegErr Z;
  fd_SMembers : string → M D RegErr (list string);
}.

Definition fileKey (key : string) : string := certmagicFilePrefix +:+ key.
Definition UnixNano (t : Time) : Z := t - 62135596800 * Second.

(** [strconv.ParseInt] with its error dropped. *)
Definition toInt64 (v : string) : Z := default 0 (Atoi v).

Record KeyInfo := { ki_Key : string; ki_Modified : Time; ki_Size : Z; ki_IsTerminal : bool }.

Definition under (key m : string) : bool := String.eqb m key || HasPrefix m (key +:+ "/").

(** One step of the loop of [List]: the entry a stored name contributes. *)
Definition list_entry (prefix childPrefix : string) (recursive : bool) (m : string) : option string :=
  if String.eqb m prefix then None
  else if negb (String.eqb childPrefix "") && negb (HasPrefix m childPrefix) then None
  else
    let rest := drop_string (String.length childPrefix) m in
    if String.eqb rest "" then None
    else if recursive then Some m
    else match IndexByte rest "/"%char with
         | Some i => Some (childPrefix +:+ take_string i rest)
         | None => Some m
         end.

Fixpoint list_loop (entry : string → option string) (ms : list string) (out : list string) : list string :=
  match ms with
  | [] => out
  | m :: ms =>
      match entry m with
      | Some e => list_loop entry ms (if bool_decide (e ∈ out) then out else out ++ [e])
      | None => list_loop entry ms out
      end
  end.

Section files.
  Context {D : Type} `{RedisFiles D}.

Definition redis_err {A} (c : M D RegErr A) : M D CertErr A := λ d,
  match c d with (Ok a, d) => (Ok a, d) | (Err _, d) => (Err ErrRedis, d) end.

Definition Store (now : Time) (key value : string) : M D CertErr unit :=
  redis_err (fd_Exec
    [HSet (fileKey key) [(certmagicFieldValue, value);
                         (certmagicFieldSize, Itoa (Z.of_nat (String.length value)));
                         (certmagicFieldModNs, Itoa (UnixNano now))];
     SAdd certmagicIndexKey key]).

Definition Load (key : string) : M D CertErr string :=
  r ← redis_err (fd_HGet (fileKey key) certmagicFieldValue);
  match r with
  | Some v => mret v
  | None => throw ErrNotExist
  end.

Definition members : M D CertErr (list string) := redis_err (fd_SMembers certmagicIndexKey).

Definition Delete (key : string) : M D CertErr unit :=
  ms ← members;
  let victims := filter (λ m, under key m = true) ms in
  if (length victims =? 0)%nat then mret tt
  else redis_err (fd_Exec (victims ≫= λ v, [DelKey (fileKey v); SRem certmagicIndexKey v])).

Definition hasChildren (key : string) : M D CertErr bool :=
  ms ← members;
  mret (existsb (λ m, HasPrefix m (key +:+ "/")) ms).

Definition Exists (key : string) (d : D) : bool * D :=
  match fd_Exists (fileKey key) d with
  | (Err _, d) => (false, d)
  | (Ok n, d) =>
      if 0 <? n then (true, d)
      else match hasChildren key d with
           | (Ok ok, d) => (ok, d)
           | (Err _, d) => (false, d)
           end
  end.

Definition List (prefix : string) (recursive : bool) : M D CertErr (list string) :=
  ms ← members;
  let prefix := TrimSuffix prefix "/" in
  let childPrefix := if String.eqb prefix "" then "" else prefix +:+ "/" in
  let out := list_loop (list_entry prefix childPrefix recursive) ms [] in
  if (length out =? 0)%nat then
    if bool_decide (prefix ∈ ms) then mret [] else throw ErrNotExist
  else mret (sort_by String.ltb out).

Definition Stat (key : string) : M D CertErr KeyInfo :=
  res ← redis_err (fd_HMGet (fileKey key) [certmagicFieldSize; certmagicFieldModNs]);
  match res with
  | Some size :: mod_ :: _ =>
      mret {| ki_Key := key; ki_Size := toInt64 size; ki_IsTerminal := true;
              ki_Modified := match mod_ with Some m => toInt64 m | None => 0 end + 62135596800 * Second |}
  | _ =>
      ok ← hasChildren key;
      if (ok : bool) then mret {| ki_Key := key; ki_Modified := zero_time; ki_Size := 0; ki_IsTerminal := false |}
      else throw ErrNotExist
  end.
End files.

(** * The lock *)

(** What a script that ends on one string key does to it. *)
Inductive key_effect := KKeep | KDel | KExpire (ttl : Duration).

Class RedisLocks (D : Type) := {
  lk_SetNX : Time → string → string → Duration → M D RegErr bool;
  lk_Eval : Time → string → (option string → Z * key_effect) → M D RegErr Z;
}.

Definition releaseScript (token : string) (v : option string) : Z * key_effect :=
  if bool_decide (v = Some token) then (1, KDel) else (0, KKeep).
Definition refreshScript (token : string) (ttl : Duration) (v : option string) : Z * key_effect :=
  if bool_decide (v = Some token) then (1, KExpire ttl) else (0, KKeep).

Definition randomToken (b : list Z) : string := EncodeToString b.
Definition lockKey (name : string) : string := certmagicLockPrefix +:+ name.

Record heldLock := { hl_token : string }.

(** An instance: its connection is to the Redis [D] all instances share. *)
Record RedisStorage := { cs_locks : gmap string heldLock }.
Definition NewRedisStorage : RedisStorage := {| cs_locks := ∅ |}.

Section locks.
  Context {D : Type} `{RedisLocks D}.

(** One attempt of [Lock]: the SET NX, and the entry of a lock that was obtained. *)
Definition lock_try (now : Time) (name token : string) (s : RedisStorage) (d : D)
    : result CertErr bool * RedisStorage * D :=
  match lk_SetNX now (lockKey name) token certmagicLockTTL d with
  | (Err _, d) => (Err ErrRedis, s, d)
  | (Ok true, d) => (Ok true, {| cs_locks := <[name := {| hl_token := token |}]> (cs_locks s) |}, d)
  | (Ok false, d) => (Ok false, s, d)
  end.

(** The polling loop of [Lock] with at most [fuel] attempts: [ctx] is the deadline
    of the caller's context, [others] what the other instances do to Redis until the
    loop wakes, [took] how long the attempt made at a time takes.  A context that ends
    before or when the sleep does ends the call with an error.  The answer is the time
    at which the caller has the lock. *)
Fixpoint lock_loop (fuel : nat) (others : Time → D → D) (took : Time → Duration) (ctx : option Time) (now : Time)
    (name token : string) (s : RedisStorage) (d : D) : option (result CertErr Time * RedisStorage * D) :=
  match fuel with
  | O => None
  | S fuel =>
      match lock_try now name token s d with
      | (Err e, s, d) => Some (Err e, s, d)
      | (Ok true, s, d) => Some (Ok (now + took now), s, d)
      | (Ok false, s, d) =>
          let wake := now + took now + certmagicLockPollWait in
          if match ctx with Some e => e <=? wake | None => false end then Some (Err ErrCtx, s, d)
          else lock_loop fuel others took ctx wake name token s (others wake d)
      end
  end.

Definition Lock (fuel : nat) (others : Time → D → D) (took : Time → Duration) (ctx : option Time) (now : Time)
    (name : string) (rnd : list Z) (s : RedisStorage) (d : D) : option (result CertErr Time * RedisStorage * D) :=
  lock_loop fuel others took ctx now name (randomToken rnd) s d.

(** One tick of [refreshLock]; a failure is only logged. *)
Definition refreshLock (now : Time) (name : string) (lk : heldLock) (d : D) : D :=
  snd (lk_Eval now (lockKey name) (refreshScript (hl_token lk) certmagicLockTTL) d).

Definition Unlock (now : Time) (name : string) (s : RedisStorage) (d : D) : result CertErr unit * RedisStorage * D :=
  match cs_locks s !! name with
  | None => (Err ErrNotHeld, s, d)
  | Some lk =>
      let s := {| cs_locks := delete name (cs_locks s) |} in
      match lk_Eval now (lockKey name) (releaseScript (hl_token lk)) d with
      | (Err _, d) => (Err ErrRedis, s, d)
      | (Ok _, d) => (Ok tt, s, d)
      end
  end.

(** [Close] stops the refreshers; the leases run out by themselves. *)
Definition Close (s : RedisStorage) : RedisStorage := {| cs_locks := ∅ |}.
End locks.
