(* ===== verification/CertStoreSafety.v ===== *)
(** What the shared certificate storage promises: it behaves as one tree of files,
    two edges never hold an unexpired lock together, and [Lock] returns. *)
From S2P Require Import Prelude GoStrings Registry CertStore.
From Stdlib Require Import Ascii.

Open Scope Z_scope.

(** * Hashes and sets of Redis *)
Definition hash_after (k : string) (h : gmap string string) (c : FileCmd) : gmap string string :=
  match c with
  | HSet k' fs => if String.eqb k' k then foldl (λ h fv, <[fst fv := snd fv]> h) h fs else h
  | DelKey k' => if String.eqb k' k then ∅ else h
  | SAdd _ _ | SRem _ _ => h
  end.
Definition set_after (k : string) (s : gset string) (c : FileCmd) : gset string :=
  match c with
  | SAdd k' m => if String.eqb k' k then {[m]} ∪ s else s
  | SRem k' m => if String.eqb k' k then s ∖ {[m]} else s
  | DelKey k' => if String.eqb k' k then ∅ else s
  | HSet _ _ => s
  end.

Class RedisFileLaws (D : Type) `{RedisFiles D} := {
  fd_hash : D → string → gmap string string;
  fd_set : D → string → gset string;
  fd_exec_ok : ∀ l d d', fd_Exec l d = (Ok tt, d') →
    (∀ k, fd_hash d' k = foldl (hash_after k) (fd_hash d k) l) ∧ (∀ k, fd_set d' k = foldl (set_after k) (fd_set d k) l);
  (** a transaction that reports an error was applied as a whole or not at all *)
  fd_exec_err : ∀ l d e d', fd_Exec l d = (Err e, d') →
    ((∀ k, fd_hash d' k = fd_hash d k) ∧ (∀ k, fd_set d' k = fd_set d k)) ∨
    ((∀ k, fd_hash d' k = foldl (hash_after k) (fd_hash d k) l) ∧ (∀ k, fd_set d' k = foldl (set_after k) (fd_set d k) l));
  fd_hget : ∀ k f d r d', fd_HGet k f d = (r, d') → d' = d ∧ ∀ v, r = Ok v → v = fd_hash d k !! f;
  fd_hmget : ∀ k fs d r d', fd_HMGet k fs d = (r, d') → d' = d ∧ ∀ l, r = Ok l → l = (λ f, fd_hash d k !! f) <$> fs;
  fd_exists : ∀ k d r d', fd_Exists k d = (r, d') → d' = d ∧ ∀ n, r = Ok n → (0 < n ↔ fd_hash d k ≠ ∅);
  fd_smembers : ∀ k d r d', fd_SMembers k d = (r, d') → d' = d ∧
    ∀ l, r = Ok l → NoDup l ∧ ∀ m, m ∈ l ↔ m ∈ fd_set d k;
}.

(** * The tree of files *)
Record CertFile := { cf_value : string; cf_mod : Time }.
Definition file_hash (f : CertFile) : gmap string string :=
  <[certmagicFieldModNs := Itoa (UnixNano (cf_mod f))]>
  (<[certmagicFieldSize := Itoa (Z.of_nat (String.length (cf_value f)))]> {[certmagicFieldValue := cf_value f]}).

Definition dir_of (prefix : string) : string := if String.eqb prefix "" then "" else prefix +:+ "/".

(** [e] is what a listing of [prefix] shows of the file [m]: the file itself, or
    its first path component below [prefix]. *)
Definition shows (prefix : string) (recursive : bool) (m e : string) : Prop :=
  ∃ rest, m = dir_of prefix +:+ rest ∧ rest ≠ "" ∧
    if recursive then e = m
    else ∃ c, e = dir_of prefix +:+ c ∧ has_byte c "/"%char = false ∧ (rest = c ∨ ∃ r, rest = c +:+ "/" +:+ r).

Definition is_dir (key : string) (fs : gmap string CertFile) : Prop :=
  ∃ m, is_Some (fs !! m) ∧ HasPrefix m (key +:+ "/") = true.

Inductive cert_op :=
| OStore (at_ : Time) (key value : string)
| OLoad (key : string)
| ODelete (key : string)
| OExists (key : string)
| OList (prefix : string) (recursive : bool)
| OStat (key : string).

Inductive cert_answer := AUnit | AValue (v : string) | ABool (b : bool) | AList (l : list string) | AInfo (i : KeyInfo).

(** What a storage that is a tree of files answers, and the tree it leaves. *)
Inductive tree_op (fs : gmap string CertFile) : cert_op → result CertErr cert_answer → gmap string CertFile → Prop :=
| tree_store at_ k v : tree_op fs (OStore at_ k v) (Ok AUnit) (<[k := {| cf_value := v; cf_mod := at_ |}]> fs)
| tree_load k f : fs !! k = Some f → tree_op fs (OLoad k) (Ok (AValue (cf_value f))) fs
| tree_load_none k : fs !! k = None → tree_op fs (OLoad k) (Err ErrNotExist) fs
| tree_delete k : tree_op fs (ODelete k) (Ok AUnit) (filter (λ kf, under k (fst kf) = false) fs)
| tree_exists k b : (b = true ↔ is_Some (fs !! k) ∨ is_dir k fs) → tree_op fs (OExists k) (Ok (ABool b)) fs
| tree_list p r l :
    Sorted (λ a b, String.ltb b a = false) l → NoDup l →
    (∀ e, e ∈ l ↔ ∃ m, is_Some (fs !! m) ∧ shows (TrimSuffix p "/") r m e) →
    (l = [] → is_Some (fs !! TrimSuffix p "/")) → tree_op fs (OList p r) (Ok (AList l)) fs
| tree_list_none p r :
    (∀ m e, is_Some (fs !! m) → ¬ shows (TrimSuffix p "/") r m e) → fs !! TrimSuffix p "/" = None →
    tree_op fs (OList p r) (Err ErrNotExist) fs
| tree_stat k f :
    fs !! k = Some f →
    tree_op fs (OStat k) (Ok (AInfo {| ki_Key := k; ki_Modified := cf_mod f;
                                       ki_Size := Z.of_nat (String.length (cf_value f)); ki_IsTerminal := true |})) fs
| tree_stat_dir k :
    fs !! k = None → is_dir k fs →
    tree_op fs (OStat k) (Ok (AInfo {| ki_Key := k; ki_Modified := zero_time; ki_Size := 0; ki_IsTerminal := false |})) fs
| tree_stat_none k : fs !! k = None → ¬ is_dir k fs → tree_op fs (OStat k) (Err ErrNotExist) fs.

(** * Listings *)
Lemma dir_of_drop p m :
  (negb (String.eqb (dir_of p) "") && negb (HasPrefix m (dir_of p)) = false) →
  m = dir_of p +:+ drop_string (String.length (dir_of p)) m.
Proof.
  intros Hp. destruct (String.eqb_spec (dir_of p) "") as [->|]; simpl in Hp.
  - unfold drop_string. simpl. by rewrite Nat.sub_0_r, substring_full.
  - apply negb_false_iff, HasPrefix_spec in Hp as [t ->]. by rewrite drop_string_app.
Qed.

Lemma dir_of_ne p rest : rest ≠ "" → dir_of p +:+ rest ≠ p.
Proof.
  unfold dir_of. destruct (String.eqb_spec p "") as [->|]; [done|]. intros Hr E.
  apply (f_equal String.length) in E. rewrite !length_app_string in E. simpl in E. lia.
Qed.

Lemma list_entry_spec p r m e : list_entry p (dir_of p) r m = Some e ↔ shows p r m e.
Proof.
  unfold list_entry, shows. split.
  - destruct (String.eqb_spec m p) as [|Hmp]; [done|].
    destruct (negb (String.eqb (dir_of p) "") && _) eqn:Hp; [done|]. apply dir_of_drop in Hp.
    set (rest := drop_string _ m) in *. destruct (String.eqb_spec rest "") as [|Hr]; [done|].
    destruct r; [intros [= <-]; by exists rest|].
    destruct (IndexByte rest "/") as [i|] eqn:Hi; intros [= <-]; exists rest; (split; [done|]); (split; [done|]).
    + apply IndexByte_split in Hi as (a & b & Hab & Ha & ->). exists a. rewrite Hab, take_string_app. eauto.
    + apply IndexByte_None in Hi. exists rest. eauto.
  - intros (rest & -> & Hr & He). destruct (String.eqb_spec (dir_of p +:+ rest) p) as [E|_]; [by apply dir_of_ne in E|].
    rewrite HasPrefix_app, andb_false_r, drop_string_app. destruct (String.eqb_spec rest "") as [|_]; [done|].
    destruct r; [by subst|]. destruct He as (c & -> & Hc & [->|[t ->]]).
    + apply IndexByte_None in Hc. by rewrite Hc.
    + change ("/" +:+ t) with (String "/" t). rewrite (IndexByte_app c t) by done. by rewrite take_string_app.
Qed.

Lemma list_loop_spec entry ms out :
  NoDup out →
  NoDup (list_loop entry ms out) ∧
  ∀ e, e ∈ list_loop entry ms out ↔ e ∈ out ∨ ∃ m, m ∈ ms ∧ entry m = Some e.
Proof.
  revert out. induction ms as [|m ms IH]; intros out Hnd; simpl.
  - split; [done|]. intros e. split; [by left|]. intros [?|(m & Hm & _)]; [done|]. by apply not_elem_of_nil in Hm.
  - destruct (entry m) as [x|] eqn:Hx.
    + set (out' := if bool_decide (x ∈ out) then out else out ++ [x]).
      assert (Hout : NoDup out' ∧ ∀ e, e ∈ out' ↔ e ∈ out ∨ e = x).
      { unfold out'. case_bool_decide as Hin; [split; [done|naive_solver]|]. split.
        - apply list.NoDup_app. split; [done|]. split; [|apply list.NoDup_singleton].
          intros e He ->%list_elem_of_singleton. done.
        - intros e. by rewrite elem_of_app, list_elem_of_singleton. }
      destruct Hout as [Hnd' Hin']. destruct (IH out' Hnd') as [H1 H2]. split; [done|]. intros e. rewrite H2, Hin'.
      setoid_rewrite elem_of_cons. naive_solver.
    + destruct (IH out Hnd) as [H1 H2]. split; [done|]. intros e. rewrite H2. setoid_rewrite elem_of_cons. naive_solver.
Qed.

Lemma ltb_asym a b : String.ltb a b = true → String.ltb b a = false.
Proof.
  unfold String.ltb. rewrite (String.compare_antisym b a). by destruct (String.compare a b).
Qed.

Section storage.
  Context {D : Type} `{RedisFileLaws D}.

Definition answer {A} (f : A → cert_answer) (c : M D CertErr A) : M D CertErr cert_answer := λ d,
  match c d with (Ok a, d) => (Ok (f a), d) | (Err e, d) => (Err e, d) end.
Definition cert_exec (o : cert_op) : M D CertErr cert_answer :=
  match o with
  | OStore at_ k v => answer (λ _, AUnit) (Store at_ k v)
  | OLoad k => answer AValue (Load k)
  | ODelete k => answer (λ _, AUnit) (Delete k)
  | OExists k => λ d, let '(b, d) := Exists k d in (Ok (ABool b), d)
  | OList p r => answer AList (List p r)
  | OStat k => answer AInfo (Stat k)
  end.

(** The modification times a file can carry: what fits 63 bits of nanoseconds since 1970. *)
Definition time_ok (t : Time) : Prop := 0 <= UnixNano t < 2 ^ 63.
Definition file_ok (f : CertFile) : Prop := time_ok (cf_mod f) ∧ Z.of_nat (String.length (cf_value f)) < 2 ^ 63.

(** The Redis holds exactly the tree. *)
Record stored (d : D) (fs : gmap string CertFile) : Prop := {
  sd_hash : ∀ k, fd_hash d (fileKey k) = match fs !! k with Some f => file_hash f | None => ∅ end;
  sd_index : fd_set d certmagicIndexKey = dom fs;
  sd_files : map_Forall (λ _ f, file_ok f) fs;
}.

Lemma fileKey_inj k j : fileKey k = fileKey j → k = j.
Proof. unfold fileKey. apply (inj _). Qed.
Lemma fileKey_index k : fileKey k ≠ certmagicIndexKey.
Proof. done. Qed.
Lemma fileKey_eqb k j : String.eqb (fileKey k) (fileKey j) = String.eqb k j.
Proof.
  destruct (String.eqb_spec k j) as [->|Hne]; [apply String.eqb_refl|].
  apply String.eqb_neq. by intros ?%fileKey_inj.
Qed.

Lemma file_hash_nonempty f : file_hash f ≠ ∅.
Proof. unfold file_hash. apply insert_non_empty. Qed.

Lemma file_hash_over f h :
  h = ∅ ∨ (∃ g, h = file_hash g) →
  foldl (λ h fv, <[fst fv := snd fv]> h) h
    [(certmagicFieldValue, cf_value f); (certmagicFieldSize, Itoa (Z.of_nat (String.length (cf_value f))));
     (certmagicFieldModNs, Itoa (UnixNano (cf_mod f)))] = file_hash f.
Proof.
  intros Hh. simpl. apply map_eq. intros i. unfold file_hash. rewrite !lookup_insert, lookup_singleton.
  repeat case_decide; try done. destruct Hh as [->|[g ->]]; [apply lookup_empty|].
  unfold file_hash. by rewrite !lookup_insert_ne, lookup_singleton_ne.
Qed.

Lemma stored_after_store d d' fs at_ k v :
  stored d fs → file_ok {| cf_value := v; cf_mod := at_ |} →
  let l := [HSet (fileKey k) [(certmagicFieldValue, v); (certmagicFieldSize, Itoa (Z.of_nat (String.length v)));
                              (certmagicFieldModNs, Itoa (UnixNano at_))]; SAdd certmagicIndexKey k] in
  (∀ j, fd_hash d' j = foldl (hash_after j) (fd_hash d j) l) → (∀ j, fd_set d' j = foldl (set_after j) (fd_set d j) l) →
  stored d' (<[k := {| cf_value := v; cf_mod := at_ |}]> fs).
Proof.
  intros [Hh Hi Hf] Hok l Hh' Hs'. split.
  - intros j. rewrite Hh'. cbn [l foldl hash_after]. rewrite fileKey_eqb, Hh.
    destruct (String.eqb_spec k j) as [<-|Hne].
    + rewrite lookup_insert_eq. apply (file_hash_over {| cf_value := v; cf_mod := at_ |}).
      destruct (fs !! k); eauto.
    + by rewrite lookup_insert_ne.
  - rewrite Hs'. cbn [l foldl set_after]. rewrite String.eqb_refl, Hi, dom_insert_L. done.
  - by apply map_Forall_insert_2.
Qed.

Lemma foldl_delete_hash vs h j :
  foldl (hash_after (fileKey j)) h (vs ≫= λ v, [DelKey (fileKey v); SRem certmagicIndexKey v]) =
  if bool_decide (j ∈ vs) then ∅ else h.
Proof.
  revert h. induction vs as [|v vs IH]; intros h; [done|]. cbn. rewrite IH, fileKey_eqb.
  destruct (String.eqb_spec v j) as [->|Hne].
  - rewrite (bool_decide_eq_true_2 (j ∈ j :: vs)) by left. by case_bool_decide.
  - rewrite (bool_decide_ext (j ∈ v :: vs) (j ∈ vs)); [done|]. rewrite elem_of_cons. naive_solver.
Qed.

Lemma foldl_delete_index vs s :
  foldl (set_after certmagicIndexKey) s (vs ≫= λ v, [DelKey (fileKey v); SRem certmagicIndexKey v]) =
  s ∖ list_to_set vs.
Proof.
  revert s. induction vs as [|v vs IH]; intros s; [set_solver|]. cbn [mbind list_bind foldl app set_after].
  destruct (String.eqb_spec (fileKey v) certmagicIndexKey) as [E|_]; [by apply fileKey_index in E|].
  rewrite String.eqb_refl, IH. set_solver.
Qed.

Lemma stored_after_delete d d' fs vs k :
  stored d fs → (∀ j, j ∈ vs ↔ j ∈ dom fs ∧ under k j = true) →
  let l := vs ≫= λ v, [DelKey (fileKey v); SRem certmagicIndexKey v] in
  (∀ j, fd_hash d' j = foldl (hash_after j) (fd_hash d j) l) → (∀ j, fd_set d' j = foldl (set_after j) (fd_set d j) l) →
  stored d' (filter (λ kf, under k (fst kf) = false) fs).
Proof.
  intros [Hh Hi Hf] Hvs l Hh' Hs'. split.
  - intros j. unfold l in Hh'. rewrite Hh', foldl_delete_hash, Hh. case_bool_decide as Hj.
    + apply Hvs in Hj as [_ Hj]. rewrite map_lookup_filter_None_2; [done|]. right. intros f _. simpl. congruence.
    + destruct (fs !! j) as [f|] eqn:Hfj; [|by rewrite map_lookup_filter_None_2; [|left]].
      rewrite (map_lookup_filter_Some_2 _ _ _ f); [done|done|]. simpl. destruct (under k j) eqn:Hu; [|done].
      exfalso. apply Hj, Hvs. split; [by apply elem_of_dom_2 in Hfj|done].
  - unfold l in Hs'. rewrite Hs', foldl_delete_index, Hi. apply set_eq. intros j.
    rewrite elem_of_difference, elem_of_list_to_set, Hvs, !elem_of_dom. split.
    + intros [[f Hfj] Hn]. exists f. apply map_lookup_filter_Some_2; [done|]. simpl.
      destruct (under k j) eqn:Hu; [|done]. exfalso. apply Hn. by split; [eexists|].
    + intros [f [Hfj Hu]%map_lookup_filter_Some]. split; [by eexists|]. simpl in Hu. intros [_ ?]. congruence.
  - intros j f [Hfj _]%map_lookup_filter_Some. by eapply Hf.
Qed.

Lemma stored_same d d' fs :
  stored d fs → (∀ k, fd_hash d' k = fd_hash d k) → (∀ k, fd_set d' k = fd_set d k) → stored d' fs.
Proof. intros [Hh Hi Hf] E1 E2. split; [intros k; by rewrite E1|by rewrite E2|done]. Qed.

Lemma members_ok d fs r d' :
  stored d fs → members d = (r, d') →
  d' = d ∧ ∀ ms, r = Ok ms → NoDup ms ∧ ∀ m, m ∈ ms ↔ is_Some (fs !! m).
Proof.
  intros Hst. unfold members, redis_err. destruct (fd_SMembers _ d) as [r0 d0] eqn:Hm.
  apply fd_smembers in Hm as [-> Hl]. destruct r0 as [ms|e]; intros [= <- <-]; (split; [done|]); [|done].
  intros ms' [= <-]. destruct (Hl ms eq_refl) as [Hnd Hin]. split; [done|]. intros m.
  by rewrite Hin, (sd_index _ _ Hst), elem_of_dom.
Qed.

Lemma hasChildren_ok d fs key r d' :
  stored d fs → hasChildren key d = (r, d') → d' = d ∧ ∀ b, r = Ok b → (b = true ↔ is_dir key fs).
Proof.
  intros Hst. unfold hasChildren. simpl. unfold mbind, M_bind. destruct (members d) as [r0 d0] eqn:Hm.
  destruct (members_ok _ _ _ _ Hst Hm) as [-> Hl]. destruct r0 as [ms|e]; intros [= <- <-]; (split; [done|]); [|done].
  intros b [= <-]. destruct (Hl ms eq_refl) as [_ Hin]. rewrite existsb_exists. unfold is_dir.
  setoid_rewrite <- Hin. setoid_rewrite list_elem_of_In. done.
Qed.

(** Whether the answer tells that Redis failed: an error, or [Exists] saying no. *)
Definition failed (o : cert_op) (r : result CertErr cert_answer) : Prop :=
  r = Err ErrRedis ∨ (∃ k, o = OExists k ∧ r = Ok (ABool false)).
(** The operation took place, or it failed before or after taking effect. *)
Definition refines (fs : gmap string CertFile) (o : cert_op) (r : result CertErr cert_answer) (d' : D) : Prop :=
  (∃ fs', tree_op fs o r fs' ∧ stored d' fs') ∨
  (failed o r ∧ (stored d' fs ∨ ∃ r' fs', tree_op fs o r' fs' ∧ stored d' fs')).

Definition op_fits (o : cert_op) : Prop :=
  match o with OStore at_ _ v => file_ok {| cf_value := v; cf_mod := at_ |} | _ => True end.

Lemma store_refines d fs at_ k v r d' :
  stored d fs → op_fits (OStore at_ k v) → cert_exec (OStore at_ k v) d = (r, d') → refines fs (OStore at_ k v) r d'.
Proof.
  intros Hst Hok. simpl. unfold answer, Store, redis_err.
  destruct (fd_Exec _ d) as [[[]|e] d1] eqn:He; intros [= <- <-].
  - apply fd_exec_ok in He as [Hh Hs]. left. eexists. split; [constructor|]. by eapply stored_after_store.
  - right. split; [by left|]. apply fd_exec_err in He as [[Hh Hs]|[Hh Hs]].
    + left. by eapply stored_same.
    + right. do 2 eexists. split; [constructor|]. by eapply stored_after_store.
Qed.

Lemma load_refines d fs k r d' : stored d fs → cert_exec (OLoad k) d = (r, d') → refines fs (OLoad k) r d'.
Proof.
  intros Hst. simpl. unfold answer, Load, mbind, M_bind, redis_err.
  destruct (fd_HGet _ _ d) as [r0 d1] eqn:Hg. apply fd_hget in Hg as [-> Hv]. destruct r0 as [v|e].
  - specialize (Hv v eq_refl). rewrite (sd_hash _ _ Hst) in Hv. destruct (fs !! k) as [f|] eqn:Hf; subst v.
    + unfold file_hash. rewrite !lookup_insert_ne, lookup_singleton_eq by done. intros [= <- <-].
      left. exists fs. split; [by constructor|done].
    + rewrite lookup_empty. intros [= <- <-]. left. exists fs. split; [by constructor|done].
  - intros [= <- <-]. right. split; [by left|by left].
Qed.

Lemma delete_refines d fs k r d' : stored d fs → cert_exec (ODelete k) d = (r, d') → refines fs (ODelete k) r d'.
Proof.
  intros Hst. simpl. unfold answer, Delete, mbind, M_bind.
  destruct (members d) as [[ms|e] d1] eqn:Hm.
  2: { assert (e = ErrRedis) as -> by (unfold members, redis_err in Hm; repeat case_match; by simplify_eq).
       apply (members_ok _ _ _ _ Hst) in Hm as [-> _]. intros [= <- <-]. right. split; by left. }
  apply (members_ok _ _ _ _ Hst) in Hm as [-> Hm]. destruct (Hm ms eq_refl) as [_ Hin].
  set (vs := filter _ ms).
  assert (Hvs : ∀ j, j ∈ vs ↔ j ∈ dom fs ∧ under k j = true).
  { intros j. unfold vs. rewrite list_elem_of_filter, Hin, elem_of_dom. naive_solver. }
  destruct (Nat.eqb_spec (length vs) 0) as [Hl|Hl].
  - intros [= <- <-]. left. eexists. split; [constructor|].
    apply length_zero_iff_nil in Hl. eapply (stored_after_delete d d fs vs); [done..| |]; by rewrite Hl.
  - unfold redis_err. destruct (fd_Exec _ d) as [[[]|e] d1] eqn:He; intros [= <- <-].
    + apply fd_exec_ok in He as [Hh Hs]. left. eexists. split; [constructor|]. by eapply stored_after_delete.
    + right. split; [by left|]. apply fd_exec_err in He as [[Hh Hs]|[Hh Hs]].
      * left. by eapply stored_same.
      * right. do 2 eexists. split; [constructor|]. by eapply stored_after_delete.
Qed.

Lemma exists_refines d fs k r d' : stored d fs → cert_exec (OExists k) d = (r, d') → refines fs (OExists k) r d'.
Proof.
  intros Hst. simpl. unfold Exists. destruct (fd_Exists _ d) as [r0 d1] eqn:He.
  apply fd_exists in He as [-> Hn]. assert (Hf : (fd_hash d (fileKey k) ≠ ∅) ↔ is_Some (fs !! k)).
  { rewrite (sd_hash _ _ Hst). destruct (fs !! k) as [f|]; [|split; [done|by intros [? ?]]].
    split; [by eexists|intros _; apply file_hash_nonempty]. }
  destruct r0 as [n|e].
  - specialize (Hn n eq_refl). destruct (Z.ltb_spec 0 n) as [Hlt|Hge].
    + intros [= <- <-]. left. exists fs. split; [constructor|done]. split; [|done]. intros _. left. by apply Hf, Hn.
    + destruct (hasChildren k d) as [r1 d2] eqn:Hc. destruct (hasChildren_ok _ _ _ _ _ Hst Hc) as [-> Hb].
      destruct r1 as [b|e]; intros [= <- <-].
      * left. exists fs. split; [constructor|done]. rewrite (Hb b eq_refl). split; [by right|].
        intros [Hs|?]; [|done]. apply Hf, Hn in Hs. lia.
      * right. split; [right; by exists k|by left].
  - intros [= <- <-]. right. split; [right; by exists k|by left].
Qed.

Lemma list_refines d fs p rec r d' : stored d fs → cert_exec (OList p rec) d = (r, d') → refines fs (OList p rec) r d'.
Proof.
  intros Hst. simpl. unfold answer, List, mbind, M_bind.
  destruct (members d) as [[ms|e] d1] eqn:Hm.
  2: { assert (e = ErrRedis) as -> by (unfold members, redis_err in Hm; repeat case_match; by simplify_eq).
       apply (members_ok _ _ _ _ Hst) in Hm as [-> _]. intros [= <- <-]. right. split; by left. }
  apply (members_ok _ _ _ _ Hst) in Hm as [-> Hm]. destruct (Hm ms eq_refl) as [_ Hin].
  set (q := TrimSuffix p "/"). change (if String.eqb q "" then "" else q +:+ "/") with (dir_of q).
  destruct (list_loop_spec (list_entry q (dir_of q) rec) ms [] (NoDup_nil_2)) as [Hnd Hel].
  set (out := list_loop _ ms []) in *.
  assert (Hout : ∀ e, e ∈ out ↔ ∃ m, is_Some (fs !! m) ∧ shows q rec m e).
  { intros e. rewrite Hel. setoid_rewrite list_entry_spec. setoid_rewrite Hin. rewrite elem_of_nil. naive_solver. }
  destruct (Nat.eqb_spec (length out) 0) as [Hl|Hl].
  - apply length_zero_iff_nil in Hl. rewrite Hl in Hout.
    case_bool_decide as Hq; intros [= <- <-]; left; exists fs; (split; [|done]).
    + apply tree_list; [constructor|constructor|done|]. intros _. by apply Hin.
    + apply tree_list_none.
      * intros m e Hm1 Hs. apply (not_elem_of_nil e), Hout. eauto.
      * rewrite Hin in Hq. by apply eq_None_not_Some.
  - intros [= <- <-]. left. exists fs. split; [|done]. apply tree_list.
    + apply sort_by_sorted, ltb_asym.
    + by rewrite sort_by_perm.
    + intros e. by rewrite sort_by_perm.
    + intros E. pose proof (sort_by_perm String.ltb out) as Hp. rewrite E in Hp. apply Permutation_nil in Hp.
      by rewrite Hp in Hl.
Qed.

Lemma file_hash_fields f :
  file_hash f !! certmagicFieldSize = Some (Itoa (Z.of_nat (String.length (cf_value f)))) ∧
  file_hash f !! certmagicFieldModNs = Some (Itoa (UnixNano (cf_mod f))).
Proof.
  unfold file_hash. split; [|apply lookup_insert_eq].
  rewrite lookup_insert_ne by done. apply lookup_insert_eq.
Qed.

Lemma stat_refines d fs k r d' : stored d fs → cert_exec (OStat k) d = (r, d') → refines fs (OStat k) r d'.
Proof.
  intros Hst. simpl. unfold answer, Stat, mbind, M_bind, redis_err.
  destruct (fd_HMGet _ _ d) as [r0 d1] eqn:Hg. apply fd_hmget in Hg as [-> Hv]. destruct r0 as [l|e].
  2: { intros [= <- <-]. right. split; [by left|by left]. }
  rewrite (Hv l eq_refl). cbn [fmap list_fmap]. rewrite (sd_hash _ _ Hst). destruct (fs !! k) as [f|] eqn:Hf.
  - destruct (file_hash_fields f) as [-> ->]. destruct (sd_files _ _ Hst _ _ Hf) as [Ht Hn].
    unfold toInt64. rewrite !Atoi_Itoa by (unfold time_ok in *; lia). intros [= <- <-]. left. exists fs. split; [|done].
    simpl. unfold UnixNano. replace (cf_mod f - 62135596800 * Second + 62135596800 * Second) with (cf_mod f) by lia.
    by constructor.
  - rewrite !lookup_empty. destruct (hasChildren k d) as [r1 d2] eqn:Hc.
    assert (Herr : ∀ e, r1 = Err e → e = ErrRedis).
    { intros e ->. unfold hasChildren, mbind, M_bind, members, redis_err in Hc. repeat case_match; by simplify_eq. }
    destruct (hasChildren_ok _ _ _ _ _ Hst Hc) as [-> Hb]. destruct r1 as [[]|e].
    + intros [= <- <-]. left. exists fs. split; [|done]. apply tree_stat_dir; [done|by apply (Hb true)].
    + intros [= <- <-]. left. exists fs. split; [|done]. apply tree_stat_none; [done|]. intros Hd.
      apply (Hb false eq_refl) in Hd. done.
    + rewrite (Herr e eq_refl). intros [= <- <-]. right. split; by left.
Qed.

(** C21: the shared certificate storage is one tree of files: as long as Redis holds
    exactly a tree, every operation answers what that tree answers (files,
    directories, listings, sizes and times) and leaves Redis holding exactly the
    tree it leaves; when Redis fails, the tree is the one before or the one after,
    never a mixture in which the index and the files disagree. *)
Theorem cert_storage_refines d fs o r d' :
  stored d fs → op_fits o → cert_exec o d = (r, d') → refines fs o r d'.
Proof.
  intros Hst Hok Hx. destruct o;
    eauto using store_refines, load_refines, delete_refines, exists_refines, list_refines, stat_refines.
Qed.
End storage.

(** * Locks of Redis *)
Definition lease (now : Time) (ttl : Duration) (v : string) (new : Time → option string) : Prop :=
  ∀ t, now <= t →
    (t < now + ttl → new t = Some v) ∧ (now + ttl < t → new t = None) ∧ (new t = Some v ∨ new t = None).

Definition effect_at (now : Time) (e : key_effect) (old new : Time → option string) : Prop :=
  match e with
  | KKeep => ∀ t, now <= t → new t = old t
  | KDel => ∀ t, now <= t → new t = None
  | KExpire ttl => ∀ v, old now = Some v → lease now ttl v new
  end.

(** [lk_at d t k]: what a GET of [k] at time [t] would find.  A command that
    reports an error took effect or did not. *)
Class RedisLockLaws (D : Type) `{RedisLocks D} := {
  lk_at : D → Time → string → option string;
  lk_nx_true : ∀ now k v ttl d d', lk_SetNX now k v ttl d = (Ok true, d') →
    lk_at d now k = None ∧ lease now ttl v (λ t, lk_at d' t k);
  lk_nx_false : ∀ now k v ttl d d', lk_SetNX now k v ttl d = (Ok false, d') →
    is_Some (lk_at d now k) ∧ ∀ t, now <= t → lk_at d' t k = lk_at d t k;
  lk_nx_err : ∀ now k v ttl d e d', lk_SetNX now k v ttl d = (Err e, d') →
    (∀ t, now <= t → lk_at d' t k = lk_at d t k) ∨ (lk_at d now k = None ∧ lease now ttl v (λ t, lk_at d' t k));
  lk_nx_other : ∀ now k v ttl d r d' t j, lk_SetNX now k v ttl d = (r, d') → j ≠ k → now <= t → lk_at d' t j = lk_at d t j;
  lk_eval_ok : ∀ now k f d a d', lk_Eval now k f d = (Ok a, d') →
    a = fst (f (lk_at d now k)) ∧ effect_at now (snd (f (lk_at d now k))) (λ t, lk_at d t k) (λ t, lk_at d' t k);
  lk_eval_err : ∀ now k f d e d', lk_Eval now k f d = (Err e, d') →
    (∀ t, now <= t → lk_at d' t k = lk_at d t k) ∨
    effect_at now (snd (f (lk_at d now k))) (λ t, lk_at d t k) (λ t, lk_at d' t k);
  lk_eval_other : ∀ now k f d r d' t j, lk_Eval now k f d = (r, d') → j ≠ k → now <= t → lk_at d' t j = lk_at d t j;
}.

(** A Redis that answers. *)
Class RedisLocksUp (D : Type) `{RedisLocks D} := {
  lk_nx_up : ∀ now k v ttl d, ∃ b d', lk_SetNX now k v ttl d = (Ok b, d');
}.

Section locking.
  Context {D : Type} `{RedisLockLaws D}.

(** The edges of a cluster with their shared Redis.  Two fields are for the proof
    only: when each edge was last told that it has a lock (acquired or extended),
    and the tokens that may ever have been written. *)
Record cluster := mkCluster {
  cl_rdb : D; cl_edges : gmap string RedisStorage;
  cl_fresh : gmap (string * string) Time; cl_used : gset string;
}.

Definition held (c : cluster) (e n tok : string) : Prop :=
  ∃ s, cl_edges c !! e = Some s ∧ cs_locks s !! n = Some {| hl_token := tok |}.

Inductive cluster_step (now : Time) (c : cluster) : cluster → Prop :=
| step_try e s n tok r s' d' :
    cl_edges c !! e = Some s → tok ∉ cl_used c → lock_try now n tok s (cl_rdb c) = (r, s', d') →
    cluster_step now c (mkCluster d' (<[e := s']> (cl_edges c))
      (if r is Ok true then <[(e, n) := now]> (cl_fresh c) else cl_fresh c)
      (if r is Ok false then cl_used c else {[tok]} ∪ cl_used c))
| step_refresh e s n lk :
    cl_edges c !! e = Some s → cs_locks s !! n = Some lk →
    cluster_step now c (mkCluster (refreshLock now n lk (cl_rdb c)) (cl_edges c)
      (if fst (lk_Eval now (lockKey n) (refreshScript (hl_token lk) certmagicLockTTL) (cl_rdb c)) is Ok 1
       then <[(e, n) := now]> (cl_fresh c) else cl_fresh c) (cl_used c))
| step_stale n lk :
    (* the refresher of a lock its instance has since obtained again *)
    cluster_step now c (mkCluster (refreshLock now n lk (cl_rdb c)) (cl_edges c) (cl_fresh c) (cl_used c))
| step_unlock e s n r s' d' :
    cl_edges c !! e = Some s → Unlock now n s (cl_rdb c) = (r, s', d') →
    cluster_step now c (mkCluster d' (<[e := s']> (cl_edges c)) (cl_fresh c) (cl_used c))
| step_close e s :
    cl_edges c !! e = Some s →
    cluster_step now c (mkCluster (cl_rdb c) (<[e := Close s]> (cl_edges c)) (cl_fresh c) (cl_used c)).

Inductive cluster_run : Time → cluster → Prop :=
| run_init t c :
    (∀ n t', t <= t' → lk_at (cl_rdb c) t' (lockKey n) = None) →
    map_Forall (λ _ s, s = NewRedisStorage) (cl_edges c) → cl_fresh c = ∅ → cl_used c = ∅ → cluster_run t c
| run_step t c now c' : cluster_run t c → t <= now → cluster_step now c c' → cluster_run now c'.

Record lock_inv (now : Time) (c : cluster) : Prop := {
  li_lease : ∀ e n tok u t, held c e n tok → cl_fresh c !! (e, n) = Some u →
    now <= t < u + certmagicLockTTL → lk_at (cl_rdb c) t (lockKey n) = Some tok;
  li_fresh : ∀ e n u, cl_fresh c !! (e, n) = Some u → u <= now;
  li_value : ∀ n t tok, now <= t → lk_at (cl_rdb c) t (lockKey n) = Some tok → tok ∈ cl_used c;
  li_used : ∀ e n tok, held c e n tok → tok ∈ cl_used c;
  li_inj : ∀ e n e' n' tok, held c e n tok → held c e' n' tok → e = e' ∧ n = n';
}.

Lemma lockKey_inj n m : lockKey n = lockKey m → n = m.
Proof. unfold lockKey. apply (inj _). Qed.

Lemma lock_inv_later t t' c : lock_inv t c → t <= t' → lock_inv t' c.
Proof.
  intros [I1 I2 I3 I4 I5] Ht. split; [..|done|done].
  - intros e n tok u t0 Hh Hf Hr. apply (I1 e n tok u); [done|done|lia].
  - intros e n u Hf. apply I2 in Hf. lia.
  - intros n t0 tok Ht0. apply I3. lia.
Qed.

(** Replacing the storage of one edge. *)
Lemma held_insert c e s d fr us e' n tok :
  held (mkCluster d (<[e := s]> (cl_edges c)) fr us) e' n tok ↔
  (e' = e ∧ cs_locks s !! n = Some {| hl_token := tok |}) ∨ (e' ≠ e ∧ held c e' n tok).
Proof.
  unfold held. simpl. split.
  - intros (s' & [[<- <-]|[Hne Hs]]%lookup_insert_Some & Hl); [by left|right]. split; [done|]. eauto.
  - intros [[-> Hl]|[Hne (s' & Hs & Hl)]]; [exists s|exists s'].
    + by rewrite lookup_insert_eq.
    + by rewrite lookup_insert_ne.
Qed.

(** A refresh keeps what every key holds, whoever's token it carries. *)
Lemma refresh_effect now n lk d r d' :
  lk_Eval now (lockKey n) (refreshScript (hl_token lk) certmagicLockTTL) d = (r, d') →
  ∀ m t v, now <= t →
    (lk_at d' t (lockKey m) = Some v → lk_at d t (lockKey m) = Some v ∨ lk_at d now (lockKey m) = Some v) ∧
    (lk_at d now (lockKey m) = Some v → lk_at d t (lockKey m) = Some v → t < now + certmagicLockTTL →
     lk_at d' t (lockKey m) = Some v).
Proof.
  intros He m t v Ht. destruct (decide (m = n)) as [->|Hne].
  2: { rewrite (lk_eval_other _ _ _ _ _ _ t (lockKey m) He) by (auto using lockKey_inj || done). auto. }
  assert (Hcases : (∀ t, now <= t → lk_at d' t (lockKey n) = lk_at d t (lockKey n)) ∨
    (lk_at d now (lockKey n) = Some (hl_token lk) ∧ lease now certmagicLockTTL (hl_token lk) (λ t, lk_at d' t (lockKey n)))).
  { destruct r as [a|e]; [apply lk_eval_ok in He as [_ He]|apply lk_eval_err in He as [?|He]; [by left|]];
      unfold refreshScript in He; case_bool_decide as Hv; simpl in He; auto. }
  destruct Hcases as [Hsame|[Hv Hl]]; [rewrite Hsame by done; auto|].
  destruct (Hl t Ht) as (Hin & _ & Hor). split.
  - intros E. destruct Hor as [E'|E']; rewrite E in E'; simplify_eq. by right.
  - intros E _ Hlt. rewrite Hin by done. congruence.
Qed.

(** Redis after an attempt: unchanged, or a lease of [tok] where there was none. *)
Lemma try_cases now n tok s d r s' d' :
  lock_try now n tok s d = (r, s', d') →
  (∀ m t, m ≠ n → now <= t → lk_at d' t (lockKey m) = lk_at d t (lockKey m)) ∧
  ((∀ t, now <= t → lk_at d' t (lockKey n) = lk_at d t (lockKey n)) ∧ r ≠ Ok true ∧ s' = s ∨
   lk_at d now (lockKey n) = None ∧ lease now certmagicLockTTL tok (λ t, lk_at d' t (lockKey n)) ∧ r ≠ Ok false ∧
   (r = Ok true ∧ s' = {| cs_locks := <[n := {| hl_token := tok |}]> (cs_locks s) |} ∨ r ≠ Ok true ∧ s' = s)).
Proof.
  unfold lock_try. destruct (lk_SetNX now (lockKey n) tok certmagicLockTTL d) as [r0 d0] eqn:Hnx. intros Hr.
  assert (d0 = d') as -> by (destruct r0 as [[]|]; by simplify_eq). split.
  - intros m t Hm Ht. eapply lk_nx_other; [exact Hnx| |done]. by intros ?%lockKey_inj.
  - destruct r0 as [[]|e]; simplify_eq.
    + right. apply lk_nx_true in Hnx as [Hn Hl]. split_and!; [done..|]. by left.
    + left. apply lk_nx_false in Hnx as [_ Hsame]. done.
    + apply lk_nx_err in Hnx as [Hsame|[Hn Hl]]; [by left|right]. split_and!; [done..|]. by right.
Qed.

(** Steps that grant nothing: the locks held and the values of the keys may only
    shrink, as long as the unexpired leases stay. *)
Lemma inv_shrink now c d' ed' us' :
  lock_inv now c → cl_used c ⊆ us' →
  (∀ e n x, held (mkCluster d' ed' (cl_fresh c) us') e n x → held c e n x) →
  (∀ n t x, now <= t → lk_at d' t (lockKey n) = Some x → x ∈ us') →
  (∀ e n x u t, held (mkCluster d' ed' (cl_fresh c) us') e n x → cl_fresh c !! (e, n) = Some u →
     now <= t < u + certmagicLockTTL → lk_at (cl_rdb c) t (lockKey n) = Some x → lk_at d' t (lockKey n) = Some x) →
  lock_inv now (mkCluster d' ed' (cl_fresh c) us').
Proof.
  intros [I1 I2 I3 I4 I5] Hus Hheld Hval Hkeep. split; simpl; [|done|done|..].
  - intros e n x u t Hh Hf Ht. eapply Hkeep; eauto.
  - intros e n x Hh%Hheld. apply Hus. eauto.
  - intros e n e' n' x Hh%Hheld Hh'%Hheld. eauto.
Qed.

Lemma held_same c e s d fr us e' n x :
  cl_edges c !! e = Some s → held (mkCluster d (<[e := s]> (cl_edges c)) fr us) e' n x → held c e' n x.
Proof. intros He [[-> ?]|[_ ?]]%held_insert; [by exists s|done]. Qed.

(** A lease that still runs keeps every attempt away. *)
Lemma lease_blocks now c e n x u t :
  lock_inv now c → lk_at (cl_rdb c) now (lockKey n) = None →
  held c e n x → cl_fresh c !! (e, n) = Some u → now <= t → ¬ t < u + certmagicLockTTL.
Proof.
  intros I Hnone Hh Hf Ht Hlt.
  assert (E : lk_at (cl_rdb c) now (lockKey n) = Some x) by (apply (li_lease _ _ I e n x u); [done|done|lia]).
  congruence.
Qed.

Lemma inv_acquired now c e s n tok d' :
  lock_inv now c → cl_edges c !! e = Some s → tok ∉ cl_used c →
  (∀ m t, m ≠ n → now <= t → lk_at d' t (lockKey m) = lk_at (cl_rdb c) t (lockKey m)) →
  lk_at (cl_rdb c) now (lockKey n) = None → lease now certmagicLockTTL tok (λ t, lk_at d' t (lockKey n)) →
  lock_inv now (mkCluster d' (<[e := {| cs_locks := <[n := {| hl_token := tok |}]> (cs_locks s) |}]> (cl_edges c))
    (<[(e, n) := now]> (cl_fresh c)) ({[tok]} ∪ cl_used c)).
Proof.
  intros I He Hnew Hother Hnone Hlease. pose proof I as [I1 I2 I3 I4 I5].
  set (c' := mkCluster _ _ _ _).
  assert (Hheld : ∀ e' m x, held c' e' m x → (e' = e ∧ m = n ∧ x = tok) ∨ ((e', m) ≠ (e, n) ∧ held c e' m x)).
  { intros e' m x [[-> Hl]|[Hne Hh]]%held_insert; simpl in *; [|right; split; [congruence|done]].
    apply lookup_insert_Some in Hl as [[<- ?]|[Hm Hl]]; simplify_eq; [by left|right; split; [congruence|by exists s]]. }
  split; simpl.
  - intros e' m x u t [(-> & -> & ->)|[Hne Hh]]%Hheld Hf Ht.
    + rewrite lookup_insert_eq in Hf. simplify_eq. by apply Hlease; lia.
    + rewrite lookup_insert_ne in Hf by congruence. destruct (decide (m = n)) as [->|Hm].
      * exfalso. by apply (lease_blocks now c e' n x u t); try done; lia.
      * rewrite Hother by (done || lia). by eapply I1.
  - intros e' m u [[? <-]|[_ Hf]]%lookup_insert_Some; [lia|eauto].
  - intros m t x Ht Hx. destruct (decide (m = n)) as [->|Hm]; [|rewrite Hother in Hx by done; set_solver].
    destruct (Hlease t Ht) as (_ & _ & [E|E]); rewrite E in Hx; simplify_eq; set_solver.
  - intros e' m x [(-> & -> & ->)|[Hne Hh]]%Hheld; set_solver.
  - intros e1 n1 e2 n2 x [(-> & -> & ->)|[Hne1 Hh1]]%Hheld [(-> & -> & Ex)|[Hne2 Hh2]]%Hheld; [done|..]; eauto.
    + exfalso. eauto.
    + subst x. exfalso. eauto.
Qed.

Lemma inv_try now c e s n tok r s' d' :
  lock_inv now c → cl_edges c !! e = Some s → tok ∉ cl_used c → lock_try now n tok s (cl_rdb c) = (r, s', d') →
  lock_inv now (mkCluster d' (<[e := s']> (cl_edges c))
    (if r is Ok true then <[(e, n) := now]> (cl_fresh c) else cl_fresh c)
    (if r is Ok false then cl_used c else {[tok]} ∪ cl_used c)).
Proof.
  intros I He Hnew Htry. apply try_cases in Htry as [Hother Hcase].
  destruct Hcase as [(Hsame & Hr & ->)|(Hnone & Hlease & Hrf & [[-> ->]|[Hr ->]])]; [|by apply inv_acquired|].
  - assert (Hat : ∀ m t, now <= t → lk_at d' t (lockKey m) = lk_at (cl_rdb c) t (lockKey m))
      by (intros m t Ht; destruct (decide (m = n)) as [->|]; [by apply Hsame|by apply Hother]).
    destruct r as [[]|er]; [done|..]; (apply inv_shrink; [done|set_solver|eauto using held_same|..]).
    1,3: intros m t x Ht; rewrite Hat by done; intros Hx%(li_value _ _ I); set_solver.
    1,2: intros e' m x u t _ _ Ht; by rewrite Hat by lia.
  - destruct r as [[]|er]; [done..|]. apply inv_shrink; [done|set_solver|eauto using held_same|..].
    + intros m t x Ht Hx. destruct (decide (m = n)) as [->|Hm].
      * destruct (Hlease t Ht) as (_ & _ & [E|E]); rewrite E in Hx; simplify_eq. set_solver.
      * rewrite Hother in Hx by done. apply (li_value _ _ I) in Hx; set_solver.
    + intros e' m x u t Hh Hf Ht Hx. destruct (decide (m = n)) as [->|Hm]; [|by rewrite Hother by (done || lia)].
      exfalso. apply (lease_blocks now c e' n x u t); try done; [by eapply held_same|lia..].
Qed.

Lemma inv_refresh now c n lk ed' :
  lock_inv now c → ed' = cl_edges c →
  lock_inv now (mkCluster (refreshLock now n lk (cl_rdb c)) ed' (cl_fresh c) (cl_used c)).
Proof.
  intros I ->. unfold refreshLock. destruct (lk_Eval _ _ _ _) as [r d'] eqn:Hev. simpl.
  pose proof (refresh_effect _ _ _ _ _ _ Hev) as Heff. apply inv_shrink; [done|done|done|..].
  - intros m t x Ht Hx. destruct (Heff m t x Ht) as [[Hy|Hy] _]; [done|by eapply (li_value _ _ I)|].
    by eapply (li_value _ _ I m now).
  - intros e m x u t Hh Hf Ht Hx. apply (Heff m t x); [lia| |done|].
    + apply (li_lease _ _ I e m x u); [done|done|lia].
    + apply (li_fresh _ _ I) in Hf. lia.
Qed.

Lemma inv_renew now c e n lk :
  lock_inv now c → held c e n (hl_token lk) →
  fst (lk_Eval now (lockKey n) (refreshScript (hl_token lk) certmagicLockTTL) (cl_rdb c)) = Ok 1 →
  lock_inv now (mkCluster (refreshLock now n lk (cl_rdb c)) (cl_edges c) (<[(e, n) := now]> (cl_fresh c)) (cl_used c)).
Proof.
  intros I Hh Hr. pose proof (inv_refresh now c n lk _ I eq_refl) as [I1 I2 I3 I4 I5]. unfold refreshLock in *.
  destruct (lk_Eval _ _ _ _) as [r d'] eqn:Hev. simpl in *. subst r. apply lk_eval_ok in Hev as [Ha Heff].
  unfold refreshScript in *. case_bool_decide as Hv; [|done]. simpl in Heff. specialize (Heff _ Hv).
  split; simpl; [|..|done|done|done].
  - intros e' m x u t Hx [[? <-]|[Hne Hf]]%lookup_insert_Some Ht; [simplify_eq|by eapply I1].
    assert (x = hl_token lk) as ->.
    { destruct Hx as (s1 & Hs1 & Hl1), Hh as (s2 & Hs2 & Hl2). by simplify_eq/=. }
    by apply Heff; lia.
  - intros e' m u [[? <-]|[_ Hf]]%lookup_insert_Some; [lia|eauto].
Qed.

Lemma inv_unlock now c e s n r s' d' :
  lock_inv now c → cl_edges c !! e = Some s → Unlock now n s (cl_rdb c) = (r, s', d') →
  lock_inv now (mkCluster d' (<[e := s']> (cl_edges c)) (cl_fresh c) (cl_used c)).
Proof.
  intros I He. unfold Unlock. destruct (cs_locks s !! n) as [[tok]|] eqn:Hn.
  2: { intros [= <- <- <-]. apply inv_shrink; [done|done|eauto using held_same|apply I|done]. }
  destruct (lk_Eval _ _ _ _) as [r0 d0] eqn:Hev. intros Hr.
  assert (d0 = d' ∧ s' = {| cs_locks := delete n (cs_locks s) |}) as [-> ->] by (destruct r0; by simplify_eq).
  assert (Hown : held c e n tok) by (by exists s).
  assert (Hcases : (∀ t, now <= t → lk_at d' t (lockKey n) = lk_at (cl_rdb c) t (lockKey n)) ∨
    lk_at (cl_rdb c) now (lockKey n) = Some tok ∧ ∀ t, now <= t → lk_at d' t (lockKey n) = None).
  { destruct r0 as [a|er]; [apply lk_eval_ok in Hev as [_ Hev]|apply lk_eval_err in Hev as [?|Hev]; [by left|]];
      unfold releaseScript in Hev; simpl in Hev; case_bool_decide as Hv; simpl in Hev; auto. }
  assert (Hother : ∀ m t, m ≠ n → now <= t → lk_at d' t (lockKey m) = lk_at (cl_rdb c) t (lockKey m)).
  { intros m t Hm Ht. eapply lk_eval_other; [exact Hev| |done]. by intros ?%lockKey_inj. }
  set (ed := <[e := _]> (cl_edges c)).
  assert (Hheld : ∀ e' m x, held (mkCluster d' ed (cl_fresh c) (cl_used c)) e' m x →
    held c e' m x ∧ (e', m) ≠ (e, n)).
  { intros e' m x [[-> Hl]|[Hne Hh]]%held_insert; simpl in *; [|split; [done|congruence]].
    apply lookup_delete_Some in Hl as [Hm Hl]. split; [by exists s|congruence]. }
  apply inv_shrink; [done|done|intros e' m x Hh; by apply Hheld|..].
  - intros m t x Ht Hx. destruct (decide (m = n)) as [->|Hm]; [|rewrite Hother in Hx by done; by eapply (li_value _ _ I)].
    destruct Hcases as [Hs|[_ Hd]]; [rewrite Hs in Hx by done; by eapply (li_value _ _ I)|]. by rewrite Hd in Hx.
  - intros e' m x u t [Hh Hne]%Hheld Hf Ht Hx. destruct (decide (m = n)) as [->|Hm]; [|by rewrite Hother by (done || lia)].
    destruct Hcases as [Hs|[Hv _]]; [by rewrite Hs by lia|]. exfalso.
    assert (E : lk_at (cl_rdb c) now (lockKey n) = Some x) by (apply (li_lease _ _ I e' n x u); [done|done|lia]).
    rewrite Hv in E. simplify_eq. destruct (li_inj _ _ I e' n e n x Hh Hown) as [-> _]. done.
Qed.

Lemma cluster_inv now c : cluster_run now c → lock_inv now c.
Proof.
  induction 1 as [t c Hn Hs Hf Hu|t c now c' Hrun IH Ht Hstep].
  - assert (Hno : ∀ e n x, ¬ held c e n x).
    { intros e n x (s & He & Hl). rewrite (Hs _ _ He) in Hl. simpl in Hl. by rewrite lookup_empty in Hl. }
    split; [by intros ? ? ? ? ? ?%Hno|intros ? ? ?; by rewrite Hf, lookup_empty|
            intros n t' x Ht'; by rewrite Hn|by intros ? ? ? ?%Hno|by intros ? ? ? ? ? ?%Hno].
  - pose proof (lock_inv_later _ _ _ IH Ht) as I. destruct Hstep as [e s n tok r s' d' He Htok Htry|e s n lk He Hl|n lk|e s n r s' d' He Hu|e s He].
    + by eapply inv_try.
    + assert (Hh : held c e n (hl_token lk)) by (exists s; by destruct lk).
      destruct (fst (lk_Eval _ _ _ _)) as [[|[]|]|] eqn:Hr; try (by apply inv_refresh). by apply inv_renew.
    + by apply inv_refresh.
    + by eapply inv_unlock.
    + apply inv_shrink; [done|done|..|apply I|done].
      intros e' m x [[-> Hl]|[_ Hh]]%held_insert; [|done]. simpl in Hl. by rewrite lookup_empty in Hl.
Qed.

(** C15: two edges never both hold the issuance lock of a name: in every run of a
    cluster (attempts, refreshes, unlocks and shutdowns in any order, each with or
    without an answer from Redis), if two edges were both told within the last lock
    TTL that they have the lock, they are the same edge; and such a holder's next
    refresh, if Redis answers, succeeds. *)
Theorem cert_lock_exclusive now c e1 e2 n tok1 tok2 u1 u2 :
  cluster_run now c → held c e1 n tok1 → held c e2 n tok2 →
  cl_fresh c !! (e1, n) = Some u1 → cl_fresh c !! (e2, n) = Some u2 →
  now < u1 + certmagicLockTTL → now < u2 + certmagicLockTTL →
  e1 = e2 ∧
  ∀ a d', lk_Eval now (lockKey n) (refreshScript tok1 certmagicLockTTL) (cl_rdb c) = (Ok a, d') → a = 1.
Proof.
  intros I%cluster_inv Hh1 Hh2 Hf1 Hf2 Hu1 Hu2.
  assert (E1 : lk_at (cl_rdb c) now (lockKey n) = Some tok1) by (apply (li_lease _ _ I e1 n tok1 u1); [done|done|lia]).
  assert (E2 : lk_at (cl_rdb c) now (lockKey n) = Some tok2) by (apply (li_lease _ _ I e2 n tok2 u2); [done|done|lia]).
  split.
  - rewrite E1 in E2. simplify_eq. by destruct (li_inj _ _ I e1 n e2 n tok2 Hh1 Hh2).
  - intros a d' [-> _]%lk_eval_ok. unfold refreshScript. by rewrite bool_decide_eq_true_2.
Qed.

(** * [Lock] returns *)
Lemma lock_loop_deadline fuel others took dl now name token s (d : D) :
  (∀ t, 0 <= took t) → (0 < fuel)%nat → dl - now < Z.of_nat fuel * certmagicLockPollWait →
  is_Some (lock_loop fuel others took (Some dl) now name token s d).
Proof.
  intros Htook. revert now s d. induction fuel as [|fuel IH]; intros now s d Hf Hd; [lia|]. simpl.
  destruct (lock_try now name token s d) as [[[[]|e] s1] d1]; [by eexists| |by eexists]. pose proof (Htook now) as Hn.
  destruct (Z.leb_spec dl (now + took now + certmagicLockPollWait)) as [|Hw]; [by eexists|].
  assert (Hp : 0 < certmagicLockPollWait) by done.
  apply IH; destruct fuel; lia.
Qed.

(** The other edges neither take nor prolong this lock. *)
Definition leaves_alone (name : string) (others : Time → D → D) : Prop :=
  ∀ w d t, lk_at d t (lockKey name) = None → lk_at (others w d) t (lockKey name) = None.

Lemma lock_loop_lapse `{!RedisLocksUp D} fuel others took slow now name token s d expiry :
  leaves_alone name others → (∀ t, 0 <= took t <= slow) →
  (∀ t, now <= t → expiry < t → lk_at d t (lockKey name) = None) →
  (0 < fuel)%nat → expiry - now < (Z.of_nat fuel - 1) * certmagicLockPollWait →
  ∃ t s' d', lock_loop fuel others took None now name token s d = Some (Ok t, s', d') ∧
    cs_locks s' !! name = Some {| hl_token := token |} ∧
    now <= t <= Z.max now (expiry + slow + certmagicLockPollWait) + slow.
Proof.
  intros Hoth Htook. assert (Hp : 0 < certmagicLockPollWait) by done.
  revert now s d. induction fuel as [|fuel IH]; intros now s d Hlapse Hf Hd; [lia|]. simpl. unfold lock_try.
  pose proof (Htook now) as Hn.
  destruct (lk_nx_up now (lockKey name) token certmagicLockTTL d) as ([] & d1 & Hnx); rewrite Hnx.
  - do 3 eexists. split; [done|]. simpl. rewrite lookup_insert_eq. split; [done|lia].
  - apply lk_nx_false in Hnx as [[v Hv] Hsame].
    assert (Hle : now <= expiry) by (apply Z.nlt_ge; intros Hlt; rewrite Hlapse in Hv by lia; done).
    set (wake := now + took now + certmagicLockPollWait).
    destruct (IH wake s (others wake d1)) as (t & s' & d' & Hl & Hheld & Ht).
    + intros t Ht He. apply Hoth. rewrite Hsame by lia. apply Hlapse; lia.
    + destruct fuel; lia.
    + lia.
    + exists t, s', d'. split; [exact Hl|]. split; [done|lia].
Qed.

(** C38: [Lock] returns: a call whose context has a deadline returns after at most
    one attempt per poll interval until then, whatever Redis answers, whatever the
    other edges do and however long each attempt takes; and a call without a deadline
    obtains the lock left behind by an edge that died, after at most 62 attempts and
    within 61 seconds plus the time of two attempts, provided that Redis answers, that
    what is left of the lease is at most its 60 seconds, and that the other edges do
    not take or prolong this lock meanwhile. *)
Theorem cert_lock_returns now name rnd s d :
  (∀ others took dl, now <= dl → (∀ t, 0 <= took t) →
     is_Some (Lock (Z.to_nat ((dl - now) / certmagicLockPollWait) + 1) others took (Some dl) now name rnd s d)) ∧
  (∀ others took slow, RedisLocksUp D →
     (∀ t, now + certmagicLockTTL < t → lk_at d t (lockKey name) = None) →
     leaves_alone name others → (∀ t, 0 <= took t <= slow) →
     ∃ t s' d', Lock 62 others took None now name rnd s d = Some (Ok t, s', d') ∧
       cs_locks s' !! name = Some {| hl_token := randomToken rnd |} ∧ t <= now + 61 * Second + 2 * slow).
Proof.
  split.
  - intros others took dl Hdl Htook. apply lock_loop_deadline; [done|lia|].
    rewrite Nat2Z.inj_add, Z2Nat.id by (apply Z.div_pos; [lia|done]).
    pose proof (Z.mul_succ_div_gt (dl - now) certmagicLockPollWait ltac:(done)). lia.
  - intros others took slow Hup Hlapse Hoth Htook. assert (Hs : 0 < Second) by done. pose proof (Htook now) as Hn.
    destruct (lock_loop_lapse 62 others took slow now name (randomToken rnd) s d (now + certmagicLockTTL))
      as (t & s' & d' & Hl & Hh & Ht); [done|done|auto|lia|unfold certmagicLockTTL, certmagicLockPollWait; lia|].
    exists t, s', d'. split; [exact Hl|]. split; [exact Hh|]. unfold certmagicLockTTL, certmagicLockPollWait in Ht. lia.
Qed.
End locking.

(** * Witnesses
    A Redis of hashes and sets given by what its keys hold, and one of leases given
    by what its keys will hold. *)
Record toy_files := { tf_hash : string → gmap string string; tf_set : string → gset string }.
#[export] Instance toy_files_ops : RedisFiles toy_files :=
  {| fd_Exec l d := (Ok tt, {| tf_hash := λ k, foldl (hash_after k) (tf_hash d k) l;
                              tf_set := λ k, foldl (set_after k) (tf_set d k) l |});
     fd_HGet k f d := (Ok (tf_hash d k !! f), d);
     fd_HMGet k fs d := (Ok ((λ f, tf_hash d k !! f) <$> fs), d);
     fd_Exists k d := (Ok (if bool_decide (tf_hash d k = ∅) then 0 else 1), d);
     fd_SMembers k d := (Ok (elements (tf_set d k)), d) |}.

#[export] Instance toy_files_laws : RedisFileLaws toy_files.
Proof.
  refine {| fd_hash := tf_hash; fd_set := tf_set |}; simpl; intros; simplify_eq/=; try done.
  - split; [done|]. naive_solver.
  - split; [done|]. naive_solver.
  - split; [done|]. intros n [= <-]. case_bool_decide; split; try done; lia.
  - split; [done|]. intros l [= <-]. split; [apply NoDup_elements|apply elem_of_elements].
Defined.

Definition no_files : toy_files := {| tf_hash := λ _, ∅; tf_set := λ _, ∅ |}.
Definition ex_files : toy_files := snd (cert_exec (OStore (63000000000 * Second) "acme/a.crt" "PEM") no_files).

Lemma no_files_stored : stored no_files ∅.
Proof. split; [intros k; by rewrite lookup_empty|done|apply map_Forall_empty]. Qed.

Lemma cert_storage_refines_witness :
  fst (cert_exec (OList "acme" false) ex_files) = Ok (AList ["acme/a.crt"]) ∧
  fst (cert_exec (OStat "acme") ex_files) =
    Ok (AInfo {| ki_Key := "acme"; ki_Modified := 0; ki_Size := 0; ki_IsTerminal := false |}) ∧
  refines ∅ (OStore (63000000000 * Second) "acme/a.crt" "PEM") (Ok AUnit) ex_files.
Proof.
  split; [vm_compute; reflexivity|]. split; [vm_compute; reflexivity|].
  apply (cert_storage_refines no_files ∅ (OStore (63000000000 * Second) "acme/a.crt" "PEM")).
  - exact no_files_stored.
  - split; vm_compute; [split; [discriminate|reflexivity]|reflexivity].
  - reflexivity.
Defined.

Record toy_locks := { tl_at : string → Time → option string }.
Definition tl_set (k : string) (f : Time → option string) (d : toy_locks) : toy_locks :=
  {| tl_at := λ j t, if String.eqb j k then f t else tl_at d j t |}.
Definition until (e : Time) (v : option string) (t : Time) : option string := if t <? e then v else None.
#[export] Instance toy_locks_ops : RedisLocks toy_locks :=
  {| lk_SetNX now k v ttl d :=
       match tl_at d k now with
       | Some _ => (Ok false, d)
       | None => (Ok true, tl_set k (until (now + ttl) (Some v)) d)
       end;
     lk_Eval now k f d :=
       let '(a, e) := f (tl_at d k now) in
       (Ok a, match e with
              | KKeep => d
              | KDel => tl_set k (λ _, None) d
              | KExpire ttl => tl_set k (until (now + ttl) (tl_at d k now)) d
              end) |}.

Lemma tl_set_at k f d t : tl_at (tl_set k f d) k t = f t.
Proof. simpl. by rewrite String.eqb_refl. Qed.
Lemma tl_set_other k f d t j : j ≠ k → tl_at (tl_set k f d) j t = tl_at d j t.
Proof. intros Hj. simpl. by rewrite (proj2 (String.eqb_neq j k)). Qed.

Lemma until_lease now ttl v : lease now ttl v (until (now + ttl) (Some v)).
Proof.
  intros t Ht. unfold until. destruct (Z.ltb_spec t (now + ttl)); split_and!; auto; lia.
Qed.

#[export] Instance toy_locks_laws : RedisLockLaws toy_locks.
Proof.
  refine {| lk_at d t k := tl_at d k t |}; simpl.
  - intros now k v ttl d d'. destruct (tl_at d k now) eqn:E; [done|]. intros [= <-]. split; [done|].
    intros t Ht. rewrite tl_set_at. by apply until_lease.
  - intros now k v ttl d d'. destruct (tl_at d k now) eqn:E; [|done]. intros [= <-]. by eauto.
  - intros now k v ttl d e d'. by destruct (tl_at d k now).
  - intros now k v ttl d r d' t j. destruct (tl_at d k now); intros [= <- <-] Hj _; [done|by apply tl_set_other].
  - intros now k f d a d'. destruct (f (tl_at d k now)) as [a0 e]. intros [= <- <-]. split; [done|].
    destruct e as [| |ttl]; simpl; [done|intros t _; by rewrite String.eqb_refl|].
    intros v Hv t Ht. rewrite String.eqb_refl, Hv. by apply until_lease.
  - intros now k f d e d'. by destruct (f (tl_at d k now)).
  - intros now k f d r d' t j. destruct (f (tl_at d k now)) as [a e]. intros [= <- <-] Hj _.
    destruct e; [done|by apply tl_set_other..].
Defined.

#[export] Instance toy_locks_up : RedisLocksUp toy_locks.
Proof. split. intros now k v ttl d. simpl. destruct (tl_at d k now); eauto. Defined.

Definition no_locks : toy_locks := {| tl_at := λ _ _, None |}.
Definition ex_cluster : cluster (D := toy_locks) :=
  mkCluster no_locks {["a" := NewRedisStorage; "b" := NewRedisStorage]} ∅ ∅.

(** Edge [a] locks and refreshes; edge [b] asks in between. *)
Lemma ex_cluster_run : ∃ c,
  cluster_run (30 * Second) c ∧ held c "a" "x.uz" "01" ∧ cl_fresh c !! ("a", "x.uz") = Some (20 * Second).
Proof.
  eexists. split.
  - eapply (run_step (20 * Second)); [|vm_compute; congruence|].
    + eapply (run_step 0); [|vm_compute; congruence|].
      * eapply (run_step 0 ex_cluster); [|lia|].
        -- apply run_init; [done| |done|done]. by apply map_Forall_insert_2; [|apply map_Forall_singleton].
        -- eapply (step_try _ _ "a" NewRedisStorage "x.uz" "01"); [done|done|reflexivity].
      * eapply (step_refresh _ _ "a" _ "x.uz"); reflexivity.
    + eapply (step_try _ _ "b" NewRedisStorage "x.uz" "02"); [reflexivity|vm_compute; set_solver|reflexivity].
  - split; [by eexists|reflexivity].
Qed.

Lemma cert_lock_exclusive_witness : ∃ c,
  cluster_run (30 * Second) c ∧ held c "a" "x.uz" "01" ∧
  ∀ e tok u, held c e "x.uz" tok → cl_fresh c !! (e, "x.uz") = Some u → 30 * Second < u + certmagicLockTTL → e = "a".
Proof.
  destruct ex_cluster_run as (c & Hrun & Hh & Hf). exists c. split; [exact Hrun|]. split; [exact Hh|].
  intros e tok u He Hu Hlt.
  exact (proj1 (cert_lock_exclusive (30 * Second) c e "a" "x.uz" tok "01" u (20 * Second) Hrun He Hh Hu Hf Hlt
    ltac:(vm_compute; reflexivity))).
Defined.

(** The lock of an edge that died at time 0. *)
Definition dead_lock : toy_locks := tl_set (lockKey "x.uz") (until certmagicLockTTL (Some "01")) no_locks.

(** Meanwhile another edge takes another lock, and every attempt takes 5 ms. *)
Definition ex_others (t : Time) (d : toy_locks) : toy_locks := snd (lk_SetNX t (lockKey "y.uz") "03" certmagicLockTTL d).
Lemma ex_others_leave_alone : leaves_alone "x.uz" ex_others.
Proof. intros w d t Hd. unfold ex_others. cbn. by destruct (tl_at d (lockKey "y.uz") w). Qed.

Lemma cert_lock_returns_witness :
  (∃ t s' d', Lock 62 ex_others (λ _, 5 * Millisecond) None 0 "x.uz" [2] NewRedisStorage dead_lock = Some (Ok t, s', d') ∧
     t <= 61 * Second + 10 * Millisecond) ∧
  fst (fst (lock_try 0 "x.uz" "02" NewRedisStorage dead_lock)) = Ok false.
Proof.
  split; [|reflexivity].
  destruct (proj2 (cert_lock_returns 0 "x.uz" [2] NewRedisStorage dead_lock) ex_others (λ _, 5 * Millisecond) (5 * Millisecond) _)
    as (t & s' & d' & Hl & _ & Ht).
  - intros t Hlt. unfold dead_lock. simpl. unfold until. destruct (Z.ltb_spec t certmagicLockTTL); [lia|done].
  - exact ex_others_leave_alone.
  - intros t. unfold Millisecond. lia.
  - exists t, s', d'. split; [exact Hl|]. unfold Millisecond in *. lia.
Defined.
