(* ===== verification/Remote.v ===== *)
(** The pairing relay behind /qr (internal/api/remote.go): sessions that connect a
    console with any number of viewers, their channels, the hub that finds them by
    code and the HTTP handlers on both sides.

    Handlers keep pointers to sessions that the hub may meanwhile forget, and
    streams keep channels that a session may meanwhile close, so sessions and
    channels live on a heap.  [None] is a run-time panic: a send on a closed channel
    or a second close. *)
From S2P Require Import Prelude GoStrings Store Ingress Login ApiConfig ApiAuth.
From Stdlib Require Import Ascii.

Open Scope Z_scope.

Definition remoteSessionTTL : Duration := 30 * Minute.
Definition remoteBacklogLimit : nat := 200.
(** The capacity the channels are made with. *)
Definition chanCap : nat := 32.

Record remoteTunnel := {
  rt_ID : string; rt_PublicURL : string; rt_LocalAddr : string; rt_Status : string; rt_Requests : Z;
}.
Record remoteState := { rst_Online : bool; rst_Edge : string; rst_Tunnels : list remoteTunnel }.
Record remoteEvent := {
  ev_Type : string; ev_Lines : list string; ev_State : option remoteState; ev_Command : string; ev_Connected : bool;
}.
Definition event (typ : string) : remoteEvent :=
  {| ev_Type := typ; ev_Lines := []; ev_State := None; ev_Command := ""; ev_Connected := false |}.
Definition presence (connected : bool) : remoteEvent :=
  {| ev_Type := "presence"; ev_Lines := []; ev_State := None; ev_Command := ""; ev_Connected := connected |}.
Definition lines_event (lines : list string) : remoteEvent :=
  {| ev_Type := "lines"; ev_Lines := lines; ev_State := None; ev_Command := ""; ev_Connected := false |}.
Definition state_event (st : remoteState) : remoteEvent :=
  {| ev_Type := "state"; ev_Lines := []; ev_State := Some st; ev_Command := ""; ev_Connected := false |}.
Definition command_event (text : string) : remoteEvent :=
  {| ev_Type := "command"; ev_Lines := []; ev_State := None; ev_Command := text; ev_Connected := false |}.

(** * The heap *)
Record Chan := { ch_buf : list remoteEvent; ch_closed : bool }.

Record remoteSession := mkSession {
  se_code : string; se_orgID : string; se_createdAt : Time; se_expiresAt : Time;
  se_agentCh : option nat; se_agentConnected : bool;
  se_viewers : gmap Z nat; se_nextViewer : Z;
  se_backlog : list string; se_state : option remoteState; se_ended : bool;
}.

Record Relay := mkRelay {
  re_hub : gmap string nat;              (** remoteHub.sessions *)
  re_sess : gmap nat remoteSession; re_nsess : nat;
  re_chan : gmap nat Chan; re_nchan : nat;
}.
Definition newRemoteHub : Relay := mkRelay ∅ ∅ 0 ∅ 0.

Definition set_hub (h : gmap string nat) (r : Relay) : Relay := mkRelay h (re_sess r) (re_nsess r) (re_chan r) (re_nchan r).
Definition set_sess (l : nat) (s : remoteSession) (r : Relay) : Relay :=
  mkRelay (re_hub r) (<[l := s]> (re_sess r)) (re_nsess r) (re_chan r) (re_nchan r).
Definition set_chan (c : nat) (x : Chan) (r : Relay) : Relay :=
  mkRelay (re_hub r) (re_sess r) (re_nsess r) (<[c := x]> (re_chan r)) (re_nchan r).

(** ** Channels *)
Definition make_chan (r : Relay) : nat * Relay :=
  (re_nchan r, mkRelay (re_hub r) (re_sess r) (re_nsess r)
     (<[re_nchan r := {| ch_buf := []; ch_closed := false |}]> (re_chan r)) (S (re_nchan r))).

(** [select { case ch <- ev: default: }]: whether the event fitted. *)
Definition send (c : nat) (ev : remoteEvent) (r : Relay) : option (bool * Relay) :=
  x ← re_chan r !! c;
  if ch_closed x then None
  else if (length (ch_buf x) <? chanCap)%nat
  then Some (true, set_chan c {| ch_buf := ch_buf x ++ [ev]; ch_closed := false |} r)
  else Some (false, r).
Definition close (c : nat) (r : Relay) : option Relay :=
  x ← re_chan r !! c;
  if ch_closed x then None else Some (set_chan c {| ch_buf := ch_buf x; ch_closed := true |} r).
(** A receive that does not block: the next event, or the end of a closed channel. *)
Definition recv (c : nat) (r : Relay) : option (option remoteEvent * Relay) :=
  x ← re_chan r !! c;
  match ch_buf x with
  | ev :: buf => Some (Some ev, set_chan c {| ch_buf := buf; ch_closed := ch_closed x |} r)
  | [] => if ch_closed x then Some (None, r) else None
  end.

(** Sends the events one after the other; each may be dropped. *)
Fixpoint send_each (cs : list nat) (ev : remoteEvent) (r : Relay) : option Relay :=
  match cs with
  | [] => Some r
  | c :: cs => x ← send c ev r; send_each cs ev (snd x)
  end.
Fixpoint close_each (cs : list nat) (r : Relay) : option Relay :=
  match cs with
  | [] => Some r
  | c :: cs => r ← close c r; close_each cs r
  end.

Section relay.
  Context `{RangeOrder}.

Definition viewer_chans (s : remoteSession) : list nat := (range_map (se_viewers s)).*2.
Definition broadcastViewersLocked (s : remoteSession) (ev : remoteEvent) (r : Relay) : option Relay :=
  send_each (viewer_chans s) ev r.

(** * Sessions *)
Definition with_agent (c : option nat) (on : bool) (s : remoteSession) : remoteSession :=
  mkSession (se_code s) (se_orgID s) (se_createdAt s) (se_expiresAt s) c on
    (se_viewers s) (se_nextViewer s) (se_backlog s) (se_state s) (se_ended s).
Definition with_viewers (v : gmap Z nat) (n : Z) (s : remoteSession) : remoteSession :=
  mkSession (se_code s) (se_orgID s) (se_createdAt s) (se_expiresAt s) (se_agentCh s) (se_agentConnected s)
    v n (se_backlog s) (se_state s) (se_ended s).
Definition with_backlog (b : list string) (st : option remoteState) (s : remoteSession) : remoteSession :=
  mkSession (se_code s) (se_orgID s) (se_createdAt s) (se_expiresAt s) (se_agentCh s) (se_agentConnected s)
    (se_viewers s) (se_nextViewer s) b st (se_ended s).
Definition with_ended (s : remoteSession) : remoteSession :=
  mkSession (se_code s) (se_orgID s) (se_createdAt s) (se_expiresAt s) (se_agentCh s) (se_agentConnected s)
    ∅ (se_nextViewer s) (se_backlog s) (se_state s) true.

Definition attachAgent (l : nat) (r : Relay) : option (nat * Relay) :=
  s ← re_sess r !! l;
  let '(c, r) := make_chan r in
  let s := with_agent (Some c) true s in
  r ← broadcastViewersLocked s (presence true) (set_sess l s r);
  Some (c, r).

Definition detachAgent (l : nat) (c : nat) (r : Relay) : option Relay :=
  s ← re_sess r !! l;
  if bool_decide (se_agentCh s = Some c) then
    let s := with_agent None false s in
    broadcastViewersLocked s (presence false) (set_sess l s r)
  else Some r.

(** The sends of a replay go to a fresh channel, which has room for them. *)
Definition replay (s : remoteSession) : list remoteEvent :=
  (if (0 <? length (se_backlog s))%nat then [lines_event (se_backlog s)] else []) ++
  (match se_state s with Some st => [state_event st] | None => [] end) ++
  [presence (se_agentConnected s)].

Fixpoint send_all (c : nat) (evs : list remoteEvent) (r : Relay) : option Relay :=
  match evs with
  | [] => Some r
  | ev :: evs => x ← send c ev r; send_all c evs (snd x)
  end.

Definition addViewer (l : nat) (r : Relay) : option (Z * nat * Relay) :=
  s ← re_sess r !! l;
  let id := se_nextViewer s in
  let '(c, r) := make_chan r in
  let s := with_viewers (<[id := c]> (se_viewers s)) (id + 1) s in
  r ← send_all c (replay s) (set_sess l s r);
  Some (id, c, r).

Definition removeViewer (l : nat) (id : Z) (r : Relay) : option Relay :=
  s ← re_sess r !! l;
  match se_viewers s !! id with
  | Some c => close c (set_sess l (with_viewers (delete id (se_viewers s)) (se_nextViewer s) s) r)
  | None => Some r
  end.

(** The last [remoteBacklogLimit] lines. *)
Definition trim_backlog (b : list string) : list string := drop (length b - remoteBacklogLimit) b.

Definition publish (l : nat) (ev : remoteEvent) (r : Relay) : option Relay :=
  s ← re_sess r !! l;
  let s :=
    if String.eqb (ev_Type ev) "lines" then with_backlog (trim_backlog (se_backlog s ++ ev_Lines ev)) (se_state s) s
    else if String.eqb (ev_Type ev) "state" then with_backlog (se_backlog s) (ev_State ev) s
    else s in
  broadcastViewersLocked s ev (set_sess l s r).

Definition command (l : nat) (text : string) (r : Relay) : option (bool * Relay) :=
  s ← re_sess r !! l;
  match se_agentCh s with
  | None => Some (false, r)
  | Some c => send c (command_event text) r
  end.

Definition endSession (l : nat) (r : Relay) : option Relay :=
  s ← re_sess r !! l;
  if se_ended s then Some r
  else
    r ← broadcastViewersLocked s (event "ended") r;
    r ← match se_agentCh s with Some c => snd <$> send c (event "ended") r | None => Some r end;
    close_each (viewer_chans s) (set_sess l (with_ended s) r).

(** * The hub *)
Fixpoint remote_code_loop (i : nat) (b : list Z) : string :=
  match b with
  | [] => ""
  | c :: b =>
      (if (0 <? i)%nat && (i mod 4 =? 0)%nat then "-" else "") +:+ String (user_char c) (remote_code_loop (S i) b)
  end.
Definition newRemoteCode (b : list Z) : string := remote_code_loop 0 b.

Definition remote_create (now : Time) (rnd : list Z) (orgID : string) (r : Relay) : nat * Relay :=
  let l := re_nsess r in
  let s := mkSession (newRemoteCode rnd) orgID now (now + remoteSessionTTL) None false ∅ 0 [] None false in
  (l, mkRelay (<[se_code s := l]> (re_hub r)) (<[l := s]> (re_sess r)) (S l) (re_chan r) (re_nchan r)).

Definition remote_get (now : Time) (code : string) (r : Relay) : option nat * Relay :=
  match re_hub r !! code with
  | None => (None, r)
  | Some l =>
      match re_sess r !! l with
      | None => (None, r)
      | Some s =>
          if After now (se_expiresAt s) then (None, set_hub (delete code (re_hub r)) r) else (Some l, r)
      end
  end.

Definition remote_end (code : string) (r : Relay) : option Relay :=
  let l := re_hub r !! code in
  let r := set_hub (delete code (re_hub r)) r in
  match l with Some l => endSession l r | None => Some r end.

Definition is_expired (now : Time) (r : Relay) (l : nat) : bool :=
  match re_sess r !! l with Some s => After now (se_expiresAt s) | None => false end.
Fixpoint end_each (ls : list nat) (r : Relay) : option Relay :=
  match ls with
  | [] => Some r
  | l :: ls => r ← endSession l r; end_each ls r
  end.
(** One tick of [sweepLoop]. *)
Definition remote_sweep (now : Time) (r : Relay) : option Relay :=
  let expired := filter (λ kl, is_expired now r (snd kl) = true) (range_map (re_hub r)) in
  end_each (snd <$> expired) (set_hub (filter (λ kl, is_expired now r (snd kl) = false) (re_hub r)) r).

(** * Handlers
    A handler answers and may leave a stream open: the session and its viewer or
    channel. *)
Definition qrBase (cfg : ApiConfig) : string :=
  if String.eqb (ac_QRURL cfg) "" then "https://qr." +:+ ac_BaseDomain cfg else trim_right_slash (ac_QRURL cfg).

Definition handleRemoteCreate (cfg : ApiConfig) (now : Time) (rnd : list Z) (p : Principal) (r : Relay)
    : Response * Relay :=
  let '(l, r') := remote_create now rnd (pr_OrgID p) r in
  let code := newRemoteCode rnd in
  (writeJSON 201 (JObj [("code", JStr code); ("url", JStr (qrBase cfg +:+ "/" +:+ code));
                        ("expires_at", JTime (now + remoteSessionTTL))]), r').

Definition remoteSessionForAgent (now : Time) (p : Principal) (code : string) (r : Relay) : option nat * Relay :=
  let '(l, r) := remote_get now code r in
  match l with
  | Some l =>
      match re_sess r !! l with
      | Some s => if String.eqb (se_orgID s) (pr_OrgID p) then (Some l, r) else (None, r)
      | None => (None, r)
      end
  | None => (None, r)
  end.

Definition no_such_session : Response := writeError 404 "no such session".

(** The answer and, when the stream is open, the channel its loop reads. *)
Definition handleRemoteAgentStream (now : Time) (p : Principal) (code : string) (r : Relay)
    : option (Response * option (nat * nat) * Relay) :=
  match remoteSessionForAgent now p code r with
  | (None, r) => Some (no_such_session, None, r)
  | (Some l, r) => x ← attachAgent l r; Some (no_content 200, Some (l, fst x), snd x)
  end.

Definition handleRemotePublish (now : Time) (p : Principal) (code : string) (body : option remoteEvent) (r : Relay)
    : option (Response * Relay) :=
  match remoteSessionForAgent now p code r with
  | (None, r) => Some (no_such_session, r)
  | (Some l, r) =>
      match body with
      | None => Some (writeError 400 "invalid request body", r)
      | Some ev =>
          if negb (String.eqb (ev_Type ev) "lines") && negb (String.eqb (ev_Type ev) "state")
          then Some (writeError 400 "type must be lines or state", r)
          else r ← publish l ev r; Some (no_content 204, r)
      end
  end.

Definition handleRemoteEnd (now : Time) (p : Principal) (code : string) (r : Relay) : option (Response * Relay) :=
  match remoteSessionForAgent now p code r with
  | (None, r) => Some (no_such_session, r)
  | (Some l, r) =>
      s ← re_sess r !! l;
      r ← remote_end (se_code s) r;
      Some (no_content 204, r)
  end.

Definition no_viewer_session : Response := writeError 404 "session not found or expired".

Definition handleRemoteViewerStream (now : Time) (code : string) (r : Relay)
    : option (Response * option (nat * Z * nat) * Relay) :=
  match remote_get now code r with
  | (None, r) => Some (no_viewer_session, None, r)
  | (Some l, r) => x ← addViewer l r; let '(id, c, r) := x in Some (no_content 200, Some (l, id, c), r)
  end.

Definition handleRemoteCommand (now : Time) (code : string) (body : option string) (r : Relay) : option (Response * Relay) :=
  match remote_get now code r with
  | (None, r) => Some (no_viewer_session, r)
  | (Some l, r) =>
      match body with
      | None => Some (writeError 400 "invalid request body", r)
      | Some text =>
          if (String.length text =? 0)%nat || (240 <? String.length text)%nat
          then Some (writeError 400 "text must be 1-240 characters", r)
          else
            x ← command l text r;
            if (fst x : bool) then Some (no_content 204, snd x)
            else Some (writeError 409 "no console currently attached to this session", snd x)
      end
  end.
End relay.
