(* ===== verification/RemoteSafety.v ===== *)
(** What the pairing relay promises: no interleaving of its operations panics, a
    viewer that joins late catches up, and the console side is reserved to the org
    that opened the session. *)
From S2P Require Import Prelude GoStrings Store Ingress Login ApiConfig ApiAuth Remote.

Open Scope Z_scope.

(** * Who owns a channel *)
Definition slot (s : remoteSession) (o : option Z) : option nat :=
  match o with Some id => se_viewers s !! id | None => se_agentCh s end.
Definition owns (r : Relay) (l : nat) (o : option Z) (c : nat) : Prop :=
  ∃ s, re_sess r !! l = Some s ∧ slot s o = Some c.
Definition is_open (r : Relay) (c : nat) : Prop := ∃ x, re_chan r !! c = Some x ∧ ch_closed x = false.

Record session_ok (s : remoteSession) : Prop := {
  so_ids : ∀ id c, se_viewers s !! id = Some c → id < se_nextViewer s;
  so_backlog : (length (se_backlog s) <= remoteBacklogLimit)%nat;
}.

Record relay_ok (r : Relay) : Prop := {
  ro_open : ∀ l o c, owns r l o c → is_open r c;
  ro_inj : ∀ l o l' o' c, owns r l o c → owns r l' o' c → l = l' ∧ o = o';
  ro_chan : ∀ c x, re_chan r !! c = Some x → (c < re_nchan r)%nat ∧ (length (ch_buf x) <= chanCap)%nat;
  ro_sess : ∀ l s, re_sess r !! l = Some s → (l < re_nsess r)%nat ∧ session_ok s;
  ro_hub : ∀ code l, re_hub r !! code = Some l → ∃ s, re_sess r !! l = Some s ∧ se_code s = code;
}.

Lemma new_relay_ok : relay_ok newRemoteHub.
Proof.
  split; simpl.
  - intros l o c (s & Hs & _). simpl in Hs. by rewrite lookup_empty in Hs.
  - intros l o l' o' c (s & Hs & _). simpl in Hs. by rewrite lookup_empty in Hs.
  - intros c x Hc. by rewrite lookup_empty in Hc.
  - intros l s Hs. by rewrite lookup_empty in Hs.
  - intros code l Hc. by rewrite lookup_empty in Hc.
Qed.

(** * Traffic: only the buffers of channels change *)
Record traffic (r r' : Relay) : Prop := {
  tf_hub : re_hub r' = re_hub r;
  tf_sess : re_sess r' = re_sess r;
  tf_nsess : re_nsess r' = re_nsess r;
  tf_nchan : re_nchan r' = re_nchan r;
  tf_closed : ∀ c, ch_closed <$> re_chan r' !! c = ch_closed <$> re_chan r !! c;
  tf_cap : (∀ c x, re_chan r !! c = Some x → (length (ch_buf x) <= chanCap)%nat) →
    ∀ c x, re_chan r' !! c = Some x → (length (ch_buf x) <= chanCap)%nat;
}.

Lemma traffic_refl r : traffic r r.
Proof. by split. Qed.
Lemma traffic_trans r1 r2 r3 : traffic r1 r2 → traffic r2 r3 → traffic r1 r3.
Proof.
  intros [A1 A2 A3 A4 A5 A6] [B1 B2 B3 B4 B5 B6]. split; [congruence..| |].
  - intros c. by rewrite B5, A5.
  - intros Hc. apply B6, A6, Hc.
Qed.

Lemma traffic_open r r' c : traffic r r' → is_open r c → is_open r' c.
Proof.
  intros Ht (x & Hx & Ho). pose proof (tf_closed _ _ Ht c) as E. rewrite Hx in E. simpl in E.
  destruct (re_chan r' !! c) as [x'|] eqn:Hx'; simplify_eq/=. exists x'. split; [done|congruence].
Qed.

Lemma traffic_relay_ok r r' : traffic r r' → relay_ok r → relay_ok r'.
Proof.
  intros Ht [H1 H2 H3 H4 H5]. pose proof Ht as [E1 E2 E3 E4 E5 E6].
  assert (Hown : ∀ l o c, owns r' l o c → owns r l o c) by (intros l o c; unfold owns; by rewrite E2).
  split.
  - intros l o c Ho%Hown. eapply traffic_open; eauto.
  - intros l o l' o' c Ho%Hown Ho'%Hown. eauto.
  - intros c x Hc. split; [|eapply E6; [|done]; intros c' x' Hx'; by apply H3 in Hx' as [_ ?]].
    rewrite E4. specialize (E5 c). rewrite Hc in E5. destruct (re_chan r !! c) as [x'|] eqn:Hx'; [|done].
    by apply H3 in Hx' as [? _].
  - intros l s. rewrite E2, E3. apply H4.
  - intros code l. rewrite E1, E2. apply H5.
Qed.

Lemma send_open c ev r : is_open r c → ∃ b r', send c ev r = Some (b, r') ∧ traffic r r'.
Proof.
  intros (x & Hx & Ho). unfold send. rewrite Hx. simpl. rewrite Ho.
  destruct (Nat.ltb_spec (length (ch_buf x)) chanCap) as [Hlt|]; [|by eauto using traffic_refl].
  do 2 eexists. split; [done|]. split; simpl; try done.
  - intros c'. destruct (decide (c' = c)) as [->|]; [|by rewrite lookup_insert_ne].
    rewrite lookup_insert_eq, Hx. simpl. by rewrite Ho.
  - intros Hcap c' x' [[<- <-]|[_ Hc']]%lookup_insert_Some; [|eauto]. simpl. rewrite length_app. simpl. lia.
Qed.

Lemma send_each_open cs ev r :
  Forall (is_open r) cs → ∃ r', send_each cs ev r = Some r' ∧ traffic r r'.
Proof.
  revert r. induction cs as [|c cs IH]; intros r Hcs; simpl; [by eauto using traffic_refl|].
  inversion Hcs as [|? ? Hc Hcs']. subst. destruct (send_open c ev r Hc) as (b & r1 & -> & Ht). simpl.
  destruct (IH r1) as (r2 & -> & Ht2); [|by eauto using traffic_trans].
  rewrite list.Forall_forall in Hcs' |- *. intros c' Hc'. eapply traffic_open; eauto.
Qed.

(** * Sessions change *)
Lemma owns_set_sess l s r l' o c :
  owns (set_sess l s r) l' o c ↔ (l' = l ∧ slot s o = Some c) ∨ (l' ≠ l ∧ owns r l' o c).
Proof.
  unfold owns. simpl. split.
  - intros (s' & [[<- <-]|[Hne Hs]]%lookup_insert_Some & Ho); eauto.
  - intros [[-> Ho]|[Hne (s' & Hs & Ho)]]; [exists s; by rewrite lookup_insert_eq|exists s'].
    by rewrite lookup_insert_ne.
Qed.

(** A session gives up channels, or changes in other ways. *)
Lemma shrink_ok l s s' r :
  relay_ok r → re_sess r !! l = Some s → session_ok s' → se_code s' = se_code s →
  (∀ o c, slot s' o = Some c → slot s o = Some c) → relay_ok (set_sess l s' r).
Proof.
  intros [H1 H2 H3 H4 H5] Hs Hok Hcode Hsub.
  assert (Hown : ∀ l' o c, owns (set_sess l s' r) l' o c → owns r l' o c).
  { intros l' o c [[-> Ho]|[_ Ho]]%owns_set_sess; [|done]. exists s. eauto. }
  split; simpl; [..|done| |].
  - intros l' o c Ho%Hown. by eapply H1.
  - intros l1 o1 l2 o2 c Ho1%Hown Ho2%Hown. eauto.
  - intros l' s0 [[<- <-]|[_ Hs0]]%lookup_insert_Some; [|eauto]. apply H4 in Hs as [? _]. done.
  - intros code l' Hc. apply H5 in Hc as (s0 & Hs0 & Hc0). destruct (decide (l' = l)) as [->|].
    + rewrite lookup_insert_eq. exists s'. split; [done|]. simplify_eq. congruence.
    + rewrite lookup_insert_ne by done. eauto.
Qed.

Lemma make_chan_ok r : relay_ok r → relay_ok (snd (make_chan r)) ∧ is_open (snd (make_chan r)) (re_nchan r) ∧
  ∀ l o, ¬ owns r l o (re_nchan r).
Proof.
  intros [H1 H2 H3 H4 H5]. split_and!.
  - split; simpl; [..|done|done].
    + intros l o c Ho. apply H1 in Ho as (x & Hx & Hc). exists x. simpl. split; [|done].
      rewrite lookup_insert_ne; [done|]. apply H3 in Hx. lia.
    + intros l o l' o' c. apply H2.
    + intros c x [[<- <-]|[_ Hx]]%lookup_insert_Some; [simpl; lia|]. apply H3 in Hx. lia.
  - exists {| ch_buf := []; ch_closed := false |}. simpl. by rewrite lookup_insert_eq.
  - intros l o (x & Hx & _)%H1. apply H3 in Hx. lia.
Qed.

(** A session takes an open channel nobody has. *)
Lemma grow_ok l s s' o0 c0 r :
  relay_ok r → re_sess r !! l = Some s → session_ok s' → se_code s' = se_code s →
  is_open r c0 → (∀ l o, ¬ owns r l o c0) →
  (∀ o c, slot s' o = Some c → slot s o = Some c ∨ (o = o0 ∧ c = c0)) → relay_ok (set_sess l s' r).
Proof.
  intros [H1 H2 H3 H4 H5] Hs Hok Hcode Hopen Hfree Hsub.
  assert (Hown : ∀ l' o c, owns (set_sess l s' r) l' o c → owns r l' o c ∨ (l' = l ∧ o = o0 ∧ c = c0)).
  { intros l' o c [[-> Ho]|[_ Ho]]%owns_set_sess; [|by left].
    apply Hsub in Ho as [Ho|[-> ->]]; [left; by exists s|by right]. }
  split; simpl; [..|done| |].
  - intros l' o c [Ho|(-> & -> & ->)]%Hown; [by eapply H1|done].
  - intros l1 o1 l2 o2 c [Ho1|(-> & -> & ->)]%Hown [Ho2|(-> & -> & E)]%Hown; [eauto|..|done].
    + subst c. by apply Hfree in Ho1.
    + by apply Hfree in Ho2.
  - intros l' s0 [[<- <-]|[_ Hs0]]%lookup_insert_Some; [|eauto]. apply H4 in Hs as [? _]. done.
  - intros code l' Hc. apply H5 in Hc as (s0 & Hs0 & Hc0). destruct (decide (l' = l)) as [->|].
    + rewrite lookup_insert_eq. exists s'. split; [done|]. simplify_eq. congruence.
    + rewrite lookup_insert_ne by done. eauto.
Qed.

(** Closing channels nobody has any more. *)
Lemma close_ok c r :
  relay_ok r → is_open r c → (∀ l o, ¬ owns r l o c) →
  ∃ r', close c r = Some r' ∧ relay_ok r' ∧ re_sess r' = re_sess r ∧ ∀ c', c' ≠ c → is_open r c' → is_open r' c'.
Proof.
  intros [H1 H2 H3 H4 H5] (x & Hx & Ho) Hfree. unfold close. rewrite Hx. simpl. rewrite Ho.
  eexists. split; [done|].
  assert (Hkeep : ∀ c', c' ≠ c → is_open r c' →
    is_open (set_chan c {| ch_buf := ch_buf x; ch_closed := true |} r) c').
  { intros c' Hne (y & Hy & Hyo). exists y. simpl. by rewrite lookup_insert_ne. }
  split; [|done]. split; simpl; [..|done|done].
  - intros l o c' Hown. apply Hkeep; [|by eapply H1]. intros ->. by eapply Hfree.
  - apply H2.
  - intros c' y [[<- <-]|[_ Hy]]%lookup_insert_Some; [by apply H3 in Hx|eauto].
Qed.

Lemma close_each_ok cs r :
  relay_ok r → NoDup cs → Forall (λ c, is_open r c ∧ ∀ l o, ¬ owns r l o c) cs →
  ∃ r', close_each cs r = Some r' ∧ relay_ok r' ∧ re_sess r' = re_sess r.
Proof.
  revert r. induction cs as [|c cs IH]; intros r Hok Hnd Hcs; simpl; [by eauto|].
  inversion Hcs as [|? ? [Hc Hfree] Hcs']. subst. apply list.NoDup_cons in Hnd as [Hnin Hnd].
  destruct (close_ok c r Hok Hc Hfree) as (r1 & -> & Hok1 & Hs1 & Hkeep). simpl.
  destruct (IH r1 Hok1 Hnd) as (r2 & -> & Hok2 & Hs2); [|exists r2; by rewrite Hs2].
  apply list.Forall_forall. rewrite list.Forall_forall in Hcs'. intros c' Hc'. destruct (Hcs' c' Hc') as [Ho' Hf'].
  split; [apply Hkeep; [intros E; subst c'; by apply Hnin|done]|]. intros l o. unfold owns. rewrite Hs1. apply Hf'.
Qed.

Section relay.
  Context `{RangeOrder}.

Lemma viewer_chans_owned r l s c :
  re_sess r !! l = Some s → c ∈ viewer_chans s → ∃ id, owns r l (Some id) c.
Proof.
  intros Hs. unfold viewer_chans. rewrite list_elem_of_fmap. intros ([id c'] & -> & Hin).
  apply elem_of_range in Hin. exists id. by exists s.
Qed.

Lemma viewer_chans_open r l s : relay_ok r → re_sess r !! l = Some s → Forall (is_open r) (viewer_chans s).
Proof.
  intros Hok Hs. apply list.Forall_forall. intros c Hc.
  destruct (viewer_chans_owned _ _ _ _ Hs Hc) as [id Ho]. by eapply ro_open.
Qed.

Lemma viewer_chans_nodup r l s : relay_ok r → re_sess r !! l = Some s → NoDup (viewer_chans s).
Proof.
  intros Hok Hs. unfold viewer_chans. apply NoDup_fmap_2_strong; [|eapply NoDup_fmap_1, range_nodup].
  intros [id c] [id' c'] Hin Hin' E. simpl in E. subst c'. apply elem_of_range in Hin, Hin'.
  destruct (ro_inj _ Hok l (Some id) l (Some id') c) as [_ ?]; [by exists s..|]. by simplify_eq.
Qed.

Lemma broadcast_ok r l s ev :
  relay_ok r → re_sess r !! l = Some s → ∃ r', broadcastViewersLocked s ev r = Some r' ∧ traffic r r' ∧ relay_ok r'.
Proof.
  intros Hok Hs. destruct (send_each_open (viewer_chans s) ev r) as (r' & Hr & Ht).
  - by eapply viewer_chans_open.
  - exists r'. split; [exact Hr|]. split; [done|by eapply traffic_relay_ok].
Qed.

(** * Operations *)
Lemma sess_ok r l s : relay_ok r → re_sess r !! l = Some s → session_ok s.
Proof. intros Hok Hs. by apply (ro_sess _ Hok) in Hs as [_ ?]. Qed.

Lemma attach_ok r l : relay_ok r → is_Some (re_sess r !! l) → ∃ c r', attachAgent l r = Some (c, r') ∧ relay_ok r'.
Proof.
  intros Hok [s Hs]. unfold attachAgent. rewrite Hs. simpl.
  destruct (make_chan_ok r Hok) as (Hok1 & Hopen & Hfree). simpl in *. set (r1 := mkRelay _ _ _ _ _) in *.
  set (s' := with_agent _ true s).
  assert (Hok2 : relay_ok (set_sess l s' r1)).
  { eapply (grow_ok l s s' None (re_nchan r) r1); [done|done| |done|done|done|].
    - destruct (sess_ok _ _ _ Hok Hs). by split.
    - intros [id|] c Hc; [by left|right]. simpl in Hc. by simplify_eq. }
  destruct (broadcast_ok _ l s' (presence true) Hok2) as (r2 & -> & _ & Hok3); [apply lookup_insert_eq|]. simpl. eauto.
Qed.

Lemma detach_agent_ok r l c : relay_ok r → is_Some (re_sess r !! l) → ∃ r', detachAgent l c r = Some r' ∧ relay_ok r'.
Proof.
  intros Hok [s Hs]. unfold detachAgent. rewrite Hs. simpl. case_bool_decide; [|by eauto].
  destruct (broadcast_ok (set_sess l (with_agent None false s) r) l (with_agent None false s) (presence false))
    as (r2 & -> & _ & Hok3); [|apply lookup_insert_eq|by eauto].
  eapply shrink_ok; [done|done| |done|].
  - destruct (sess_ok _ _ _ Hok Hs). by split.
  - by intros [id|] c'.
Qed.

Lemma send_all_open c evs r : is_open r c → ∃ r', send_all c evs r = Some r' ∧ traffic r r'.
Proof.
  revert r. induction evs as [|ev evs IH]; intros r Hc; simpl; [by eauto using traffic_refl|].
  destruct (send_open c ev r Hc) as (b & r1 & -> & Ht). simpl.
  destruct (IH r1) as (r2 & -> & Ht2); [by eapply traffic_open|by eauto using traffic_trans].
Qed.

Lemma add_ok r l : relay_ok r → is_Some (re_sess r !! l) → ∃ id c r', addViewer l r = Some (id, c, r') ∧ relay_ok r'.
Proof.
  intros Hok [s Hs]. unfold addViewer. rewrite Hs. simpl.
  destruct (make_chan_ok r Hok) as (Hok1 & Hopen & Hfree). simpl in *. set (r1 := mkRelay _ _ _ _ _) in *.
  set (s' := with_viewers _ _ s). pose proof (sess_ok _ _ _ Hok Hs) as [Hids Hb].
  assert (Hok2 : relay_ok (set_sess l s' r1)).
  { eapply (grow_ok l s s' (Some (se_nextViewer s)) (re_nchan r) r1); [done|done| |done|done|done|].
    - split; [|done]. simpl. intros id c [[<- _]|[_ Hid]]%lookup_insert_Some; [lia|apply Hids in Hid; lia].
    - intros [id|] c Hc; simpl in Hc; [|by left].
      apply lookup_insert_Some in Hc as [[<- <-]|[_ Hc]]; [by right|by left]. }
  destruct (send_all_open (re_nchan r) (replay s') (set_sess l s' r1)) as (r2 & -> & Ht); [done|]. simpl.
  do 3 eexists. split; [done|]. by eapply traffic_relay_ok.
Qed.

Lemma remove_ok r l id : relay_ok r → is_Some (re_sess r !! l) → ∃ r', removeViewer l id r = Some r' ∧ relay_ok r'.
Proof.
  intros Hok [s Hs]. unfold removeViewer. rewrite Hs. simpl.
  destruct (se_viewers s !! id) as [c|] eqn:Hc; [|by eauto]. pose proof (sess_ok _ _ _ Hok Hs) as [Hids Hb].
  assert (Hown : owns r l (Some id) c) by (by exists s).
  destruct (close_ok c (set_sess l (with_viewers (delete id (se_viewers s)) (se_nextViewer s) s) r))
    as (r' & -> & Hok' & _); [| |..|by eauto].
  - eapply shrink_ok; [done|done| |done|].
    + split; [|done]. simpl. intros id' c' [_ Hc']%lookup_delete_Some. eauto.
    + intros [id'|] c' Hc'; [|done]. simpl in *. by apply lookup_delete_Some in Hc' as [_ ?].
  - by apply (ro_open _ Hok) in Hown.
  - intros l' o [[-> Ho]|[Hne Ho]]%owns_set_sess.
    + destruct o as [id'|]; simpl in Ho.
      * apply lookup_delete_Some in Ho as [Hne Ho]. assert (Hown' : owns r l (Some id') c) by (by exists s).
        destruct (ro_inj _ Hok _ _ _ _ _ Hown Hown') as [_ ?]. by simplify_eq.
      * assert (Hown' : owns r l None c) by (by exists s). by destruct (ro_inj _ Hok _ _ _ _ _ Hown Hown') as [_ ?].
    + destruct (ro_inj _ Hok _ _ _ _ _ Hown Ho) as [E _]. by subst l'.
Qed.

Lemma trim_backlog_le b : (length (trim_backlog b) <= remoteBacklogLimit)%nat.
Proof. unfold trim_backlog. rewrite length_drop. lia. Qed.

Lemma publish_ok r l ev : relay_ok r → is_Some (re_sess r !! l) → ∃ r', publish l ev r = Some r' ∧ relay_ok r'.
Proof.
  intros Hok [s Hs]. unfold publish. rewrite Hs. simpl. pose proof (sess_ok _ _ _ Hok Hs) as [Hids Hb].
  set (s' := if String.eqb (ev_Type ev) "lines" then _ else _).
  assert (Hs' : session_ok s' ∧ se_code s' = se_code s ∧ ∀ o, slot s' o = slot s o).
  { unfold s'. destruct (String.eqb _ "lines"); [|destruct (String.eqb _ "state")];
      (split; [split; [done|simpl; first [apply trim_backlog_le|done]]|by split; [|intros []]]). }
  destruct Hs' as (Hso & Hcode & Hslot).
  destruct (broadcast_ok (set_sess l s' r) l s' ev) as (r2 & -> & _ & Hok3); [|apply lookup_insert_eq|by eauto].
  eapply shrink_ok; [done|done|done|done|]. intros o c. by rewrite Hslot.
Qed.

Lemma command_ok r l text :
  relay_ok r → is_Some (re_sess r !! l) → ∃ b r', command l text r = Some (b, r') ∧ traffic r r' ∧ relay_ok r'.
Proof.
  intros Hok [s Hs]. unfold command. rewrite Hs. simpl. destruct (se_agentCh s) as [c|] eqn:Hc;
    [|by eauto 6 using traffic_refl].
  destruct (send_open c (command_event text) r) as (b & r' & -> & Ht); [|eauto 6 using traffic_relay_ok].
  apply (ro_open _ Hok l None). by exists s.
Qed.

Lemma end_ok r l : relay_ok r → is_Some (re_sess r !! l) → ∃ r', endSession l r = Some r' ∧ relay_ok r' ∧
  (∀ l', is_Some (re_sess r !! l') → is_Some (re_sess r' !! l')).
Proof.
  intros Hok [s Hs]. unfold endSession. rewrite Hs. simpl. destruct (se_ended s); [by eauto|].
  destruct (broadcast_ok r l s (event "ended") Hok Hs) as (r1 & -> & Ht1 & Hok1). simpl.
  assert (Hs1 : re_sess r1 !! l = Some s) by (by rewrite (tf_sess _ _ Ht1)).
  assert (Hag : ∃ r2, match se_agentCh s with Some c => snd <$> send c (event "ended") r1 | None => Some r1 end = Some r2 ∧
    traffic r1 r2).
  { destruct (se_agentCh s) as [c|] eqn:Hc; [|by eauto using traffic_refl].
    destruct (send_open c (event "ended") r1) as (b & r2 & -> & Ht); [|by eauto].
    apply (ro_open _ Hok1 l None). by exists s. }
  destruct Hag as (r2 & -> & Ht2). simpl. pose proof (traffic_relay_ok _ _ Ht2 Hok1) as Hok2.
  assert (Hs2 : re_sess r2 !! l = Some s) by (by rewrite (tf_sess _ _ Ht2)).
  pose proof (sess_ok _ _ _ Hok Hs) as [Hids Hb].
  destruct (close_each_ok (viewer_chans s) (set_sess l (with_ended s) r2)) as (r3 & -> & Hok3 & Hs3).
  - eapply shrink_ok; [done|done| |done|].
    + split; [|done]. simpl. intros id c. by rewrite lookup_empty.
    + intros [id|] c Hc; [|done]. simpl in Hc. by rewrite lookup_empty in Hc.
  - by eapply viewer_chans_nodup.
  - apply list.Forall_forall. intros c Hc. destruct (viewer_chans_owned r2 _ _ _ Hs2 Hc) as [id Hown]. split.
    + by apply (ro_open _ Hok2) in Hown.
    + intros l' o [[-> Ho]|[Hne Ho]]%owns_set_sess.
      * destruct o as [id'|]; simpl in Ho; [by rewrite lookup_empty in Ho|].
        assert (Hown' : owns r2 l None c) by (by exists s). by destruct (ro_inj _ Hok2 _ _ _ _ _ Hown Hown') as [_ ?].
      * destruct (ro_inj _ Hok2 _ _ _ _ _ Hown Ho) as [E _]. by subst l'.
  - exists r3. split; [done|]. split; [done|]. intros l' Hl'. rewrite Hs3. simpl.
    rewrite (tf_sess _ _ Ht2), (tf_sess _ _ Ht1). apply lookup_insert_is_Some'. by right.
Qed.

Lemma hub_ok r h : relay_ok r → h ⊆ re_hub r → relay_ok (set_hub h r).
Proof.
  intros [H1 H2 H3 H4 H5] Hsub. split; simpl; try done. intros code l Hc. apply H5. by eapply lookup_weaken.
Qed.

Lemma create_ok r now rnd org : relay_ok r → relay_ok (snd (remote_create now rnd org r)).
Proof.
  intros [H1 H2 H3 H4 H5]. unfold remote_create. simpl. set (s := mkSession _ _ _ _ _ _ _ _ _ _ _).
  assert (Hnew : ∀ l s0, re_sess r !! l = Some s0 → l ≠ re_nsess r) by (intros l s0 Hs0; apply H4 in Hs0; lia).
  set (r' := mkRelay _ _ _ _ _).
  assert (Hown : ∀ l o c, owns r' l o c → owns r l o c).
  { intros l o c (s0 & Hs0 & Ho). simpl in Hs0. apply lookup_insert_Some in Hs0 as [[<- <-]|[_ Hs0]]; [|by exists s0].
    destruct o; simpl in Ho; [by rewrite lookup_empty in Ho|done]. }
  split; simpl.
  - intros l o c Ho%Hown. by apply H1 in Ho.
  - intros l o l' o' c Ho%Hown Ho'%Hown. eauto.
  - done.
  - intros l s0 [[<- <-]|[_ Hs0]]%lookup_insert_Some; [|apply H4 in Hs0 as [? ?]; split; [lia|done]].
    split; [lia|]. split; simpl; [|lia]. intros id c. by rewrite lookup_empty.
  - intros code l [[<- <-]|[_ Hc]]%lookup_insert_Some; [exists s; by rewrite lookup_insert_eq|].
    apply H5 in Hc as (s0 & Hs0 & Hc0). exists s0. rewrite lookup_insert_ne by (pose proof (Hnew _ _ Hs0); congruence). done.
Qed.

Lemma get_ok r now code : relay_ok r → relay_ok (snd (remote_get now code r)) ∧
  re_sess (snd (remote_get now code r)) = re_sess r.
Proof.
  intros Hok. unfold remote_get. destruct (re_hub r !! code) as [l|]; [|done].
  destruct (re_sess r !! l) as [s|]; [|done]. destruct (After _ _); simpl; [|done].
  split; [|done]. apply hub_ok; [done|apply delete_subseteq].
Qed.

Lemma end_each_ok ls r :
  relay_ok r → Forall (λ l, is_Some (re_sess r !! l)) ls → ∃ r', end_each ls r = Some r' ∧ relay_ok r'.
Proof.
  revert r. induction ls as [|l ls IH]; intros r Hok Hls; simpl; [by eauto|].
  inversion Hls as [|? ? Hl Hls']. subst. destruct (end_ok r l Hok Hl) as (r1 & -> & Hok1 & Hkeep). simpl.
  apply IH; [done|]. rewrite list.Forall_forall in Hls' |- *. eauto.
Qed.

Lemma sweep_ok r now : relay_ok r → ∃ r', remote_sweep now r = Some r' ∧ relay_ok r'.
Proof.
  intros Hok. unfold remote_sweep. apply end_each_ok.
  - apply hub_ok; [done|apply map_filter_subseteq].
  - apply list.Forall_forall. intros l ([code l'] & -> & [_ Hin]%list_elem_of_filter)%list_elem_of_fmap.
    apply elem_of_range, (ro_hub _ Hok) in Hin as (s & Hs & _). by exists s.
Qed.

Lemma recv_traffic c r x r' : recv c r = Some (x, r') → traffic r r'.
Proof.
  unfold recv. destruct (re_chan r !! c) as [y|] eqn:Hc; simpl; [|done].
  destruct (ch_buf y) as [|ev buf] eqn:Hb.
  - destruct (ch_closed y); [|done]. intros [= <- <-]. apply traffic_refl.
  - intros [= <- <-]. split; simpl; try done.
    + intros c'. destruct (decide (c' = c)) as [->|]; [by rewrite lookup_insert_eq, Hc|by rewrite lookup_insert_ne].
    + intros Hcap c' x' [[<- <-]|[_ Hc']]%lookup_insert_Some; [|eauto]. apply Hcap in Hc. rewrite Hb in Hc. simpl in *. lia.
Qed.

(** * Interleavings
    Any handler may act on any session it ever got a pointer to, at any time. *)
Inductive relay_op :=
| OCreate (now : Time) (rnd : list Z) (org : string)
| OGet (now : Time) (code : string)
| OEnd (code : string)
| OSweep (now : Time)
| OAttach (l : nat)
| ODetach (l c : nat)
| OAdd (l : nat)
| ORemove (l : nat) (id : Z)
| OPublish (l : nat) (ev : remoteEvent)
| OCommand (l : nat) (text : string)
| OEndSession (l : nat)
| ORecv (c : nat).

Definition relay_exec (o : relay_op) (r : Relay) : option Relay :=
  match o with
  | OCreate now rnd org => Some (snd (remote_create now rnd org r))
  | OGet now code => Some (snd (remote_get now code r))
  | OEnd code => remote_end code r
  | OSweep now => remote_sweep now r
  | OAttach l => snd <$> attachAgent l r
  | ODetach l c => detachAgent l c r
  | OAdd l => snd <$> addViewer l r
  | ORemove l id => removeViewer l id r
  | OPublish l ev => publish l ev r
  | OCommand l text => snd <$> command l text r
  | OEndSession l => endSession l r
  | ORecv c => snd <$> recv c r
  end.

(** The pointer exists; a receive does not block. *)
Definition op_ready (o : relay_op) (r : Relay) : Prop :=
  match o with
  | OAttach l | ODetach l _ | OAdd l | ORemove l _ | OPublish l _ | OCommand l _ | OEndSession l => is_Some (re_sess r !! l)
  | ORecv c => is_Some (recv c r)
  | OCreate _ _ _ | OGet _ _ | OEnd _ | OSweep _ => True
  end.

Inductive relay_run : list relay_op → Relay → Prop :=
| run_new : relay_run [] newRemoteHub
| run_op ops r o r' : relay_run ops r → op_ready o r → relay_exec o r = Some r' → relay_run (ops ++ [o]) r'.

Lemma exec_ok o r : relay_ok r → op_ready o r → ∃ r', relay_exec o r = Some r' ∧ relay_ok r'.
Proof.
  intros Hok Hready. destruct o; simpl in *.
  - eexists. split; [done|]. by apply create_ok.
  - eexists. split; [done|]. by apply get_ok.
  - unfold remote_end. assert (Hok' : relay_ok (set_hub (delete code (re_hub r)) r)) by (apply hub_ok; [done|apply delete_subseteq]).
    destruct (re_hub r !! code) as [l|] eqn:Hc; [|by eauto].
    apply (ro_hub _ Hok) in Hc as (s & Hs & _).
    destruct (end_ok (set_hub (delete code (re_hub r)) r) l Hok') as (r' & -> & ? & _); [by exists s|by eauto].
  - by apply sweep_ok.
  - destruct (attach_ok r l Hok Hready) as (c & r' & -> & ?). simpl. eauto.
  - by apply detach_agent_ok.
  - destruct (add_ok r l Hok Hready) as (id & c & r' & -> & ?). simpl. eauto.
  - by apply remove_ok.
  - by apply publish_ok.
  - destruct (command_ok r l text Hok Hready) as (b & r' & -> & _ & ?). simpl. eauto.
  - destruct (end_ok r l Hok Hready) as (r' & -> & ? & _). eauto.
  - destruct Hready as [[x r'] Hr]. rewrite Hr. simpl. exists r'. split; [done|].
    eapply traffic_relay_ok; [by eapply recv_traffic|done].
Qed.

Lemma run_relay_ok ops r : relay_run ops r → relay_ok r.
Proof.
  induction 1 as [|ops r o r' Hrun IH Hready Hx]; [apply new_relay_ok|].
  destruct (exec_ok o r IH Hready) as (r'' & Hx' & Hok). by rewrite Hx in Hx'; simplify_eq.
Qed.

(** C23: the relay never panics: whatever handlers, streams and the sweeper do to its
    sessions and in whatever order, also through pointers to sessions the hub has
    forgotten, no event is sent on a closed channel and no channel is closed twice;
    every channel stays within its 32 slots and every backlog within its 200 lines. *)
Theorem relay_never_panics ops r o :
  relay_run ops r → op_ready o r →
  is_Some (relay_exec o r) ∧
  (∀ c x, re_chan r !! c = Some x → (length (ch_buf x) <= chanCap)%nat) ∧
  (∀ l s, re_sess r !! l = Some s → (length (se_backlog s) <= remoteBacklogLimit)%nat).
Proof.
  intros Hok%run_relay_ok Hready. split_and!.
  - destruct (exec_ok o r Hok Hready) as (r' & -> & _). by eexists.
  - intros c x Hc. by apply (ro_chan _ Hok) in Hc as [_ ?].
  - intros l s Hs. by apply (ro_sess _ Hok) in Hs as [_ [_ ?]].
Qed.

(** * What a viewer sees *)
Definition feed (s : remoteSession) : list string * option remoteState := (se_backlog s, se_state s).

(** Everything the console has published to a session: all its lines, and its last
    state. *)
Definition feed_op (l : nat) (f : list string * option remoteState) (o : relay_op) : list string * option remoteState :=
  match o with
  | OPublish l' ev =>
      if bool_decide (l' = l) then
        if String.eqb (ev_Type ev) "lines" then (fst f ++ ev_Lines ev, snd f)
        else if String.eqb (ev_Type ev) "state" then (fst f, ev_State ev)
        else f
      else f
  | _ => f
  end.
Definition published (l : nat) (ops : list relay_op) : list string * option remoteState := foldl (feed_op l) ([], None) ops.

(** Operations that publish nothing leave what every session would replay. *)
Record quiet (r r' : Relay) : Prop := {
  qu_nsess : re_nsess r' = re_nsess r;
  qu_feed : ∀ l, feed <$> re_sess r' !! l = feed <$> re_sess r !! l;
}.

Lemma quiet_refl r : quiet r r.
Proof. done. Qed.
Lemma quiet_trans r1 r2 r3 : quiet r1 r2 → quiet r2 r3 → quiet r1 r3.
Proof. intros [A1 A2] [B1 B2]. split; [congruence|]. intros l. by rewrite B2. Qed.
Lemma traffic_quiet r r' : traffic r r' → quiet r r'.
Proof. intros Ht. split; [apply Ht|]. intros l. by rewrite (tf_sess _ _ Ht). Qed.
Lemma set_sess_quiet l s s' r : re_sess r !! l = Some s → feed s' = feed s → quiet r (set_sess l s' r).
Proof.
  intros Hs Hf. split; [done|]. intros l'. simpl. destruct (decide (l' = l)) as [->|].
  - rewrite lookup_insert_eq, Hs. simpl. by rewrite Hf.
  - by rewrite lookup_insert_ne.
Qed.

(** Sends and closes do not touch the sessions. *)
Definition same_sess (r r' : Relay) : Prop := re_sess r' = re_sess r ∧ re_nsess r' = re_nsess r.
Lemma same_trans r1 r2 r3 : same_sess r1 r2 → same_sess r2 r3 → same_sess r1 r3.
Proof. intros [] []. split; congruence. Qed.
Lemma same_quiet r r' : same_sess r r' → quiet r r'.
Proof. intros [E1 E2]. split; [done|]. intros l. by rewrite E1. Qed.

Lemma send_sess c ev r b r' : send c ev r = Some (b, r') → same_sess r r'.
Proof.
  unfold send. destruct (re_chan r !! c) as [x|]; simpl; [|done]. destruct (ch_closed x); [done|].
  destruct (_ <? _)%nat; intros [= <- <-]; done.
Qed.
Lemma send_each_sess cs ev r r' : send_each cs ev r = Some r' → same_sess r r'.
Proof.
  revert r. induction cs as [|c cs IH]; intros r; simpl; [by intros [= <-]|].
  destruct (send c ev r) as [[b r1]|] eqn:Hs; simpl; [|done]. intros Hr.
  eapply same_trans; [by eapply send_sess|by eapply IH].
Qed.
Lemma send_all_sess c evs r r' : send_all c evs r = Some r' → same_sess r r'.
Proof.
  revert r. induction evs as [|ev evs IH]; intros r; simpl; [by intros [= <-]|].
  destruct (send c ev r) as [[b r1]|] eqn:Hs; simpl; [|done]. intros Hr.
  eapply same_trans; [by eapply send_sess|by eapply IH].
Qed.
Lemma close_sess c r r' : close c r = Some r' → same_sess r r'.
Proof.
  unfold close. destruct (re_chan r !! c) as [x|]; simpl; [|done]. destruct (ch_closed x); [done|]. by intros [= <-].
Qed.
Lemma close_each_sess cs r r' : close_each cs r = Some r' → same_sess r r'.
Proof.
  revert r. induction cs as [|c cs IH]; intros r; simpl; [by intros [= <-]|].
  destruct (close c r) as [r1|] eqn:Hs; simpl; [|done]. intros Hr.
  eapply same_trans; [by eapply close_sess|by eapply IH].
Qed.

Lemma end_sess l r r' :
  endSession l r = Some r' →
  re_nsess r' = re_nsess r ∧
  ∃ s, re_sess r !! l = Some s ∧ re_sess r' = <[l := if se_ended s then s else with_ended s]> (re_sess r).
Proof.
  unfold endSession. destruct (re_sess r !! l) as [s|] eqn:Hs; simpl; [|done].
  destruct (se_ended s) eqn:He; [intros [= <-]; split; [done|]; exists s; by rewrite He, insert_id|].
  destruct (broadcastViewersLocked s _ r) as [r1|] eqn:Hb; simpl; [|done].
  apply send_each_sess in Hb.
  assert (Hag : ∀ r2, match se_agentCh s with Some c => snd <$> send c (event "ended") r1 | None => Some r1 end = Some r2 →
    same_sess r1 r2).
  { intros r2. destruct (se_agentCh s) as [c|]; [|by intros [= <-]].
    destruct (send c _ r1) as [[b r3]|] eqn:Hse; simpl; [|done]. intros [= <-]. by eapply send_sess. }
  destruct (match se_agentCh s with Some c => _ | None => _ end) as [r2|]; simpl; [|done].
  destruct (same_trans _ _ _ Hb (Hag r2 eq_refl)) as [E1 E2]. intros [Hc1 Hc2]%close_each_sess. simpl in *.
  split; [congruence|]. exists s. split; [done|]. rewrite He. congruence.
Qed.

Lemma end_quiet l r r' : endSession l r = Some r' → quiet r r'.
Proof.
  intros (Hn & s & Hs & E)%end_sess. split; [done|]. intros l'. rewrite E.
  destruct (decide (l' = l)) as [->|]; [|by rewrite lookup_insert_ne].
  rewrite lookup_insert_eq, Hs. by destruct (se_ended s).
Qed.

Lemma end_each_other ls r r' l : end_each ls r = Some r' → l ∉ ls → re_sess r' !! l = re_sess r !! l.
Proof.
  revert r. induction ls as [|l0 ls IH]; intros r; simpl; [by intros [= <-]|].
  destruct (endSession l0 r) as [r1|] eqn:Hs; simpl; [|done]. intros Hr [Hne Hnin]%not_elem_of_cons.
  rewrite (IH r1) by done. apply end_sess in Hs as (_ & s & _ & ->). by rewrite lookup_insert_ne.
Qed.

Lemma end_each_quiet ls r r' : end_each ls r = Some r' → quiet r r'.
Proof.
  revert r. induction ls as [|l ls IH]; intros r; simpl; [by intros [= <-]|].
  destruct (endSession l r) as [r1|] eqn:Hs; simpl; [|done]. intros Hr.
  eapply quiet_trans; [by eapply end_quiet|by eapply IH].
Qed.

Definition publishes (o : relay_op) : Prop :=
  match o with OCreate _ _ _ | OPublish _ _ => True | _ => False end.

Lemma exec_quiet o r r' : ¬ publishes o → relay_exec o r = Some r' → quiet r r'.
Proof.
  destruct o; simpl; intros Hp; try by (exfalso; apply Hp).
  - intros [= <-]. unfold remote_get. repeat case_match; done.
  - unfold remote_end. destruct (re_hub r !! code); [|by intros [= <-]].
    intros Hq%end_quiet. eapply quiet_trans; [|exact Hq]. done.
  - unfold remote_sweep. intros Hq%end_each_quiet. eapply quiet_trans; [|exact Hq]. done.
  - unfold attachAgent. destruct (re_sess r !! l) as [s|] eqn:Hs; simpl; [|done].
    destruct (broadcastViewersLocked _ _ _) as [r1|] eqn:Hb; simpl; [|done]. intros [= <-].
    apply send_each_sess, same_quiet in Hb. eapply quiet_trans; [|exact Hb].
    apply (quiet_trans _ (snd (make_chan r))); [done|]. by eapply set_sess_quiet.
  - unfold detachAgent. destruct (re_sess r !! l) as [s|] eqn:Hs; simpl; [|done].
    case_bool_decide; [|by intros [= <-]]. intros Hb%send_each_sess%same_quiet. eapply quiet_trans; [|exact Hb]. by eapply set_sess_quiet.
  - unfold addViewer. destruct (re_sess r !! l) as [s|] eqn:Hs; simpl; [|done].
    destruct (send_all _ _ _) as [r1|] eqn:Hb; simpl; [|done]. intros [= <-].
    apply send_all_sess, same_quiet in Hb. eapply quiet_trans; [|exact Hb].
    apply (quiet_trans _ (snd (make_chan r))); [done|]. by eapply set_sess_quiet.
  - unfold removeViewer. destruct (re_sess r !! l) as [s|] eqn:Hs; simpl; [|done].
    destruct (se_viewers s !! id); [|by intros [= <-]]. intros Hb%close_sess%same_quiet. eapply quiet_trans; [|exact Hb].
    by eapply set_sess_quiet.
  - unfold command. destruct (re_sess r !! l) as [s|]; simpl; [|done].
    destruct (se_agentCh s) as [c|]; [|by intros [= <-]].
    destruct (send c _ r) as [[b r1]|] eqn:Hse; simpl; [|done]. intros [= <-]. by eapply same_quiet, send_sess.
  - by intros ?%end_quiet.
  - destruct (recv c r) as [[x r1]|] eqn:Hr; simpl; [|done]. intros [= <-]. by eapply traffic_quiet, recv_traffic.
Qed.

Lemma trim_app a b : trim_backlog (trim_backlog a ++ b) = trim_backlog (a ++ b).
Proof.
  unfold trim_backlog. rewrite length_app, length_drop, length_app.
  destruct (decide (length a <= remoteBacklogLimit)%nat) as [Hle|Hgt].
  - by replace (length a - remoteBacklogLimit)%nat with 0%nat by lia; rewrite drop_0, Nat.sub_0_r.
  - rewrite !skipn_app, drop_drop, length_drop. f_equal; f_equal; lia.
Qed.

Definition trim_feed (f : list string * option remoteState) : list string * option remoteState :=
  (trim_backlog (fst f), snd f).

Lemma published_snoc l ops o : published l (ops ++ [o]) = feed_op l (published l ops) o.
Proof. unfold published. by rewrite foldl_snoc. Qed.

Lemma publish_feed l ev r r' l' s :
  publish l ev r = Some r' → re_sess r' !! l' = Some s →
  re_nsess r' = re_nsess r ∧
  ∃ s0, re_sess r !! l' = Some s0 ∧
    ∀ f, feed s0 = trim_feed f → feed s = trim_feed (feed_op l' f (OPublish l ev)).
Proof.
  unfold publish. destruct (re_sess r !! l) as [s1|] eqn:Hs1; simpl; [|done].
  set (s2 := if String.eqb (ev_Type ev) "lines" then _ else _). intros Hb%send_each_sess%same_quiet Hs.
  pose proof (qu_nsess _ _ Hb) as Hn. pose proof (qu_feed _ _ Hb l') as Hf. rewrite Hs in Hf. simpl in Hn, Hf.
  split; [done|]. destruct (decide (l = l')) as [<-|Hne].
  - rewrite lookup_insert_eq in Hf. simpl in Hf. apply (inj Some) in Hf. exists s1. split; [done|]. intros f Hf1.
    rewrite Hf. simpl. rewrite bool_decide_eq_true_2 by done. unfold s2.
    destruct (String.eqb _ "lines"); [|destruct (String.eqb _ "state"); [|done]];
      unfold feed, trim_feed in *; simpl in *; injection Hf1 as Hbl Hst; rewrite Hbl; [by rewrite Hst, trim_app|done].
  - rewrite lookup_insert_ne in Hf by done. destruct (re_sess r !! l') as [s0|]; [|done].
    apply (inj Some) in Hf. exists s0. split; [done|]. intros f Hf0. simpl. rewrite bool_decide_eq_false_2 by done. congruence.
Qed.

Lemma run_feed ops r :
  relay_run ops r →
  (∀ l s, re_sess r !! l = Some s → feed s = trim_feed (published l ops)) ∧
  (∀ l, (re_nsess r <= l)%nat → published l ops = ([], None)).
Proof.
  induction 1 as [|ops r o r' Hrun [IH1 IH2] Hready Hx]; [by split; [intros l s; simpl; rewrite lookup_empty|]|].
  pose proof (run_relay_ok _ _ Hrun) as Hok.
  assert (Hq : ¬ publishes o →
    (∀ l s, re_sess r' !! l = Some s → feed s = trim_feed (published l (ops ++ [o]))) ∧
    (∀ l, (re_nsess r' <= l)%nat → published l (ops ++ [o]) = ([], None))).
  { intros Hp. apply exec_quiet in Hx as [Hn Hf]; [|done].
    assert (Hsame : ∀ l, published l (ops ++ [o]) = published l ops)
      by (intros l; rewrite published_snoc; destruct o; try done; by exfalso; apply Hp).
    split; [|intros l; rewrite Hn, Hsame; apply IH2]. intros l s Hs. rewrite Hsame.
    specialize (Hf l). rewrite Hs in Hf. destruct (re_sess r !! l) as [s0|] eqn:Hs0; [|done]. simpl in Hf.
    apply (inj Some) in Hf. rewrite Hf. by apply IH1. }
  destruct o; try (by apply Hq; intros []); clear Hq.
  - simpl in Hx. injection Hx as <-. split; simpl; setoid_rewrite published_snoc; simpl.
    + intros l s [[<- <-]|[_ Hs]]%lookup_insert_Some; [by rewrite IH2|by apply IH1].
    + intros l Hl. apply IH2. lia.
  - simpl in Hx. split.
    + intros l' s Hs. destruct (publish_feed _ _ _ _ _ _ Hx Hs) as (_ & s0 & Hs0 & Hf).
      rewrite published_snoc. apply Hf. by apply IH1.
    + intros l' Hl'. destruct Hready as [s Hs]. destruct (publish_ok r l ev Hok) as (r2 & Hx2 & _); [by exists s|].
      destruct (re_sess r' !! l) as [s'|] eqn:Hs'.
      * destruct (publish_feed _ _ _ _ _ _ Hx Hs') as (Hn & _). rewrite Hn in Hl'. rewrite published_snoc. simpl.
        rewrite bool_decide_eq_false_2; [by apply IH2|]. intros ->. apply (ro_sess _ Hok) in Hs as [? _]. lia.
      * exfalso. unfold publish in Hx. rewrite Hs in Hx. simpl in Hx. apply send_each_sess, same_quiet in Hx as [_ Hf].
        specialize (Hf l). rewrite Hs' in Hf. simpl in Hf. by rewrite lookup_insert_eq in Hf.
Qed.

Lemma send_all_buf c evs r r' buf :
  re_chan r !! c = Some {| ch_buf := buf; ch_closed := false |} → (length buf + length evs <= chanCap)%nat →
  send_all c evs r = Some r' → re_chan r' !! c = Some {| ch_buf := buf ++ evs; ch_closed := false |}.
Proof.
  revert r buf. induction evs as [|ev evs IH]; intros r buf Hc Hlen; simpl; [intros [= <-]; by rewrite app_nil_r|].
  unfold send at 1. rewrite Hc. simpl in *. destruct (Nat.ltb_spec (length buf) chanCap); [|lia]. simpl.
  intros Hr. change (ev :: evs) with ([ev] ++ evs). rewrite app_assoc. eapply IH; [| |exact Hr].
  - simpl. apply lookup_insert_eq.
  - rewrite length_app. simpl. lia.
Qed.

(** A viewer that joins late catches up: whatever happened before, the stream it
    opens starts with the last 200 lines the console has published to the session,
    its last published state and whether a console is attached, in this order and
    nothing else. *)
Theorem late_viewer_catches_up ops r l s id c r' :
  relay_run ops r → re_sess r !! l = Some s → addViewer l r = Some (id, c, r') →
  let '(lines, st) := published l ops in
  let last := drop (length lines - 200) lines in
  re_chan r' !! c = Some {| ch_closed := false;
    ch_buf := (if (0 <? length last)%nat then [lines_event last] else []) ++
              (match st with Some st => [state_event st] | None => [] end) ++ [presence (se_agentConnected s)] |} ∧
  owns r' l (Some id) c.
Proof.
  intros Hrun Hs Hadd. destruct (run_feed _ _ Hrun) as [Hfeed _]. specialize (Hfeed l s Hs).
  destruct (published l ops) as [lines st]. unfold feed, trim_feed in Hfeed. simpl in Hfeed. injection Hfeed as Hb Hst.
  unfold addViewer in Hadd. rewrite Hs in Hadd. simpl in Hadd.
  set (r1 := set_sess l _ _) in Hadd. set (s' := with_viewers _ _ s) in *.
  destruct (send_all (re_nchan r) (replay s') r1) as [r2|] eqn:Hsend; [|done]. simpl in Hadd. simplify_eq. split.
  - rewrite (send_all_buf (re_nchan r) (replay s') r1 r' []); [| | |exact Hsend].
    + simpl. unfold replay. simpl. by rewrite Hb.
    + unfold r1. simpl. by rewrite lookup_insert_eq.
    + unfold replay. rewrite !length_app. unfold chanCap. destruct (0 <? _)%nat, (se_state s'); simpl; lia.
  - assert (Ht : traffic r1 r').
    { destruct (send_all_open (re_nchan r) (replay s') r1) as (r3 & Hr3 & Ht); [|by rewrite Hsend in Hr3; simplify_eq].
      exists {| ch_buf := []; ch_closed := false |}. unfold r1. simpl. by rewrite lookup_insert_eq. }
    exists s'. rewrite (tf_sess _ _ Ht). unfold r1, s'. simpl. by rewrite !lookup_insert_eq.
Qed.

(** * The console side *)
Lemma agent_session_spec now p code r l r' :
  remoteSessionForAgent now p code r = (l, r') →
  re_sess r' = re_sess r ∧ re_chan r' = re_chan r ∧
  ∀ l0, l = Some l0 → re_hub r !! code = Some l0 ∧ r' = r ∧
    ∃ s, re_sess r !! l0 = Some s ∧ se_orgID s = pr_OrgID p ∧ now <= se_expiresAt s.
Proof.
  unfold remoteSessionForAgent, remote_get, After. destruct (re_hub r !! code) as [l1|] eqn:Hc; [|by intros [= <- <-]].
  destruct (re_sess r !! l1) as [s|] eqn:Hs; [|by intros [= <- <-]].
  destruct (Z.ltb_spec (se_expiresAt s) now); [by intros [= <- <-]|]. rewrite Hs.
  destruct (String.eqb_spec (se_orgID s) (pr_OrgID p)); intros [= <- <-]; split_and!; try done.
  intros l0 [= <-]. split_and!; [done..|]. by exists s.
Qed.

(** The console side of a session is reserved to the org that opened it: when the
    hub knows no session of the caller's org under the code, or only one that has
    expired, publishing, ending and opening the agent stream all answer 404 and
    change no session and no channel. *)
Theorem relay_console_guarded now p code r ev :
  (∀ l s, re_hub r !! code = Some l → re_sess r !! l = Some s → se_orgID s = pr_OrgID p → se_expiresAt s < now) →
  (∃ r1, handleRemotePublish now p code ev r = Some (no_such_session, r1) ∧ re_sess r1 = re_sess r ∧ re_chan r1 = re_chan r) ∧
  (∃ r2, handleRemoteEnd now p code r = Some (no_such_session, r2) ∧ re_sess r2 = re_sess r ∧ re_chan r2 = re_chan r) ∧
  (∃ r3, handleRemoteAgentStream now p code r = Some (no_such_session, None, r3) ∧
     re_sess r3 = re_sess r ∧ re_chan r3 = re_chan r).
Proof.
  intros Hno. unfold handleRemotePublish, handleRemoteEnd, handleRemoteAgentStream.
  destruct (remoteSessionForAgent now p code r) as [[l|] r'] eqn:Hg;
    destruct (agent_session_spec _ _ _ _ _ _ Hg) as (Hs & Hc & Hl).
  - destruct (Hl l eq_refl) as (Hh & -> & s & Hls & Ho & He). specialize (Hno l s Hh Hls Ho). lia.
  - split_and!; exists r'; done.
Qed.

(** A session that expires and is then asked for leaves the hub without being ended:
    no sweep finds it any more, so its viewers and its console are never told. *)
Lemma reaped_session_not_ended now t code r l s r' :
  relay_ok r → re_hub r !! code = Some l → re_sess r !! l = Some s → se_expiresAt s < now →
  remote_sweep t (snd (remote_get now code r)) = Some r' → re_sess r' !! l = Some s.
Proof.
  intros Hok Hc Hs He. unfold remote_get, After. rewrite Hc, Hs.
  destruct (Z.ltb_spec (se_expiresAt s) now); [|lia]. simpl. unfold remote_sweep. intros Hsw.
  rewrite (end_each_other _ _ _ l Hsw); [done|].
  intros ([code' l'] & -> & [_ Hin]%list_elem_of_filter)%list_elem_of_fmap. apply elem_of_range in Hin. simpl in Hin.
  apply lookup_delete_Some in Hin as [Hne Hc']. apply (ro_hub _ Hok) in Hc, Hc'.
  destruct Hc as (s1 & ? & ?), Hc' as (s2 & ? & ?). simpl in *. congruence.
Qed.
End relay.

(** * Witnesses *)
#[local] Existing Instance sorted_range.
Definition ex_rnd : list Z := [0; 1; 2; 3; 4; 5; 6; 7; 8; 9; 10; 11].
Definition ex_lines : remoteEvent := lines_event ["$ trqsh http 3000"; "online"].
Definition ex_ops : list relay_op :=
  [OCreate 0 ex_rnd "org_1"; OAttach 0; OAdd 0; OPublish 0 ex_lines; OEndSession 0; OGet (31 * Minute) "BCDF-GHJK-LMNP"].

#[local] Instance op_ready_dec o r : Decision (op_ready o r).
Proof. destruct o; simpl; apply _. Defined.

(** Runs the operations in order, as long as each is ready. *)
Fixpoint play (ops : list relay_op) (r : Relay) : option Relay :=
  match ops with
  | [] => Some r
  | o :: ops => if bool_decide (op_ready o r) then r ← relay_exec o r; play ops r else None
  end.

Lemma play_run pre ops r r' : relay_run pre r → play ops r = Some r' → relay_run (pre ++ ops) r'.
Proof.
  revert pre r. induction ops as [|o ops IH]; intros pre r Hrun; simpl; [intros [= <-]; by rewrite app_nil_r|].
  case_bool_decide as Hready; [|done]. destruct (relay_exec o r) as [r1|] eqn:Hx; simpl; [|done]. intros Hp.
  change (o :: ops) with ([o] ++ ops). rewrite app_assoc. eapply IH; [|exact Hp]. by eapply run_op.
Qed.

Lemma ex_played : ∃ r, relay_run ex_ops r ∧ play ex_ops newRemoteHub = Some r.
Proof.
  assert (Hr : is_Some (play ex_ops newRemoteHub)) by (vm_compute; eauto). destruct Hr as [r Hr].
  exists r. split; [|done]. exact (play_run [] ex_ops _ r run_new Hr).
Qed.

(** After the session has been ended a viewer that still holds it leaves. *)
Lemma relay_never_panics_witness : ∃ r,
  play ex_ops newRemoteHub = Some r ∧ is_Some (relay_exec (ORemove 0 0) r).
Proof.
  destruct ex_played as (r & Hrun & Hp). exists r. split; [exact Hp|].
  refine (proj1 (relay_never_panics ex_ops r (ORemove 0 0) Hrun _)).
  simpl. apply (f_equal (λ x, r ← x; re_sess r !! 0%nat)) in Hp. simpl in Hp. rewrite <- Hp. vm_compute. eauto.
Defined.

Definition ex_session : remoteSession :=
  mkSession "BCDF-GHJK-LMNP" "org_1" 0 (30 * Minute) (Some 0%nat) true ∅ 0 ["$ trqsh http 3000"; "online"] None false.
Definition ex_short : list relay_op := [OCreate 0 ex_rnd "org_1"; OAttach 0; OPublish 0 ex_lines].

Lemma late_viewer_catches_up_witness : ∃ r r' c,
  play ex_short newRemoteHub = Some r ∧ addViewer 0 r = Some (0, c, r') ∧
  ch_buf <$> re_chan r' !! c = Some [ex_lines; presence true].
Proof.
  assert (Hr : ∃ r, play ex_short newRemoteHub = Some r ∧ re_sess r !! 0%nat = Some ex_session ∧
    ∃ x, addViewer 0 r = Some x ∧ fst (fst x) = 0) by (vm_compute; eauto 6).
  destruct Hr as (r & Hp & Hs & [[id c] r'] & Ha & Hid). simpl in Hid. subst id. exists r, r', c.
  split; [exact Hp|]. split; [exact Ha|].
  pose proof (play_run [] ex_short _ r run_new Hp) as Hrun.
  destruct (late_viewer_catches_up ex_short r 0 ex_session 0 c r' Hrun Hs Ha) as [Hc _]. rewrite Hc. reflexivity.
Defined.

Definition ex_stranger : Principal := {| pr_UserID := "user_2"; pr_OrgID := "org_2"; pr_ViaAPIKey := false; pr_APIKeyID := "" |}.

Lemma relay_console_guarded_witness : ∃ r r',
  play ex_short newRemoteHub = Some r ∧ re_hub r !! "BCDF-GHJK-LMNP" = Some 0%nat ∧
  handleRemoteEnd Minute ex_stranger "BCDF-GHJK-LMNP" r = Some (no_such_session, r') ∧ re_sess r' = re_sess r.
Proof.
  assert (Hr : ∃ r, play ex_short newRemoteHub = Some r ∧ re_hub r !! "BCDF-GHJK-LMNP" = Some 0%nat ∧
    re_sess r !! 0%nat = Some ex_session) by (vm_compute; eauto).
  destruct Hr as (r & Hp & Hh & Hs).
  destruct (relay_console_guarded Minute ex_stranger "BCDF-GHJK-LMNP" r None) as (_ & (r' & He & Hsess & _) & _).
  - intros l s Hl Hls Ho. rewrite Hh in Hl. injection Hl as <-. rewrite Hs in Hls. injection Hls as <-. discriminate Ho.
  - exists r, r'. split_and!; [exact Hp|exact Hh|exact He|exact Hsess].
Defined.
