(* ===== verification/Console.v ===== *)
(** The terminal interface (internal/agent/cli/tui): what it draws with and what it
    draws.  This file holds the libraries it is written against as the interface
    [Terminal], the styles and boxes of styles.go, util.go, the data of model.go and
    client.go, the state [model], and its rendering; [ConsoleCmds] holds the slash
    commands, [ConsoleLoop] the message loop.

    The text area, the scrolling view, the styling and the QR library are third
    party: types and functions of [Terminal].  [World] is everything outside the
    process, which only an HTTP exchange with the daemon, the start of a browser,
    the clipboard and the two hooks of package cli touch. *)
From S2P Require Import Prelude GoStrings GoText Agent Inspect Remote.
From Stdlib Require Import Ascii.

Open Scope Z_scope.

(** * Data *)
Record Style := mkStyle {
  sy_Foreground : option string; sy_Background : option string; sy_Bold : bool;
  (** Border(RoundedBorder), BorderForeground, BorderBackground *)
  sy_Border : option (string * option string);
  sy_Width : option Z; sy_Padding : option (Z * Z);
}.
Definition NewStyle : Style := mkStyle None None false None None None.
Definition Foreground (c : string) (s : Style) : Style :=
  mkStyle (Some c) (sy_Background s) (sy_Bold s) (sy_Border s) (sy_Width s) (sy_Padding s).
Definition Background (c : string) (s : Style) : Style :=
  mkStyle (sy_Foreground s) (Some c) (sy_Bold s) (sy_Border s) (sy_Width s) (sy_Padding s).
Definition Bold (s : Style) : Style :=
  mkStyle (sy_Foreground s) (sy_Background s) true (sy_Border s) (sy_Width s) (sy_Padding s).

(** An event of the daemon's feed as the console decodes it (agent.Event). *)
Record RemoteNote := { rn_Kind : string; rn_Command : string; rn_Connected : bool }.
Record Event := {
  e_Type : string; e_Status : option Status; e_Tunnel : option Tunnel; e_Request : option CapturedRequest;
  e_Err : string; e_Remote : option RemoteNote;
}.

Record reqRow := { rr_method : string; rr_path : string; rr_status : Z; rr_ms : Z; rr_at : Time }.
Record menuEntry := { me_insert : string; me_label : string; me_desc : string; me_run : bool }.
Record account := {
  ac_Email : string; ac_Name : string; ac_OrgName : string; ac_OrgPlan : string; ac_Plan : string;
  ac_BytesIn : Z; ac_BytesOut : Z; ac_Requests : Z;
}.
Record deviceStart := {
  ds_DeviceCode : string; ds_UserCode : string; ds_VerificationURI : string; ds_VerificationURIComplete : string;
  ds_Interval : Z; ds_ExpiresIn : Z;
}.
Record subdomain := { sd_ID : string; sd_Subdomain : string }.
Record domain := { dm_ID : string; dm_Domain : string; dm_VerifiedAt : bool; dm_CertStatus : string }.
Record addDomainResp := { ad_Domain : domain; ad_DNS : gmap string string }.
Record capturedRequest := { cq_Method : string; cq_Host : string; cq_Path : string; cq_Status : Z; cq_DurationMs : Z }.
Record remoteStart := { rs_Code : string; rs_URL : string; rs_ExpiresAt : string }.

Inductive KeyType :=
| KeyCtrlA | KeyCtrlC | KeyRunes | KeySpace | KeyBackspace | KeyDelete | KeyPgUp | KeyPgDown | KeyEnd | KeyOther.
Record Key := { k_Type : KeyType; k_String : string }.

(** tea.Msg: the messages of model.go, the ones of the runtime it names, and the
    others ([OtherMsg]: mouse, cursor blink), which only the widgets read. *)
Inductive Msg :=
| TickMsg | MascotTickMsg
| DataMsg (tunnels : list Tunnel) (status : Status) (ok : bool)
| AccountMsg (acct : option account) (authed : bool)
| EventMsg (ev : Event)
| PrintMsg (lines : list string)
| LoginStartedMsg (d : deviceStart)
| LoginTickMsg (deviceCode : string) (interval : Duration)
| LoginDoneMsg (ok : bool) (msg : string)
| RemoteStartedMsg (code url : string)
| WindowSizeMsg (width height : Z)
| KeyMsg (k : Key)
| QuitMsg
| OtherMsg (n : nat).

(** The body of a control-API request, by what is encoded. *)
Inductive JBody :=
| JSpec (spec : TunnelSpec) | JToken (key : string) | JSubdomain (name : string) | JDomain (name : string)
| JDeviceCode (code : string) | JLines (lines : list string) | JState (st : remoteState).
Record hreq := { hq_method : string; hq_url : string; hq_body : option JBody; hq_auth : option string }.

(** * The libraries and the outside *)
Class Terminal := {
  (* lipgloss and x/ansi *)
  Render : Style → string → string;
  Width : string → Z;
  Height : string → Z;
  JoinHorizontal : list string → string;
  Strip : string → string;
  Truncate : string → Z → string → string;
  (* qrterminal *)
  GenerateHalfBlock : string → string;
  (* bubbles/textarea *)
  Textarea : Type;
  (* placeholder, character limit, width and text of the prompt, its style, the cursor line's *)
  ta_New : string → Z → Z → (Z → string) → Style → Style → Textarea;
  ta_Value : Textarea → string;
  ta_SetValue : string → Textarea → Textarea;
  ta_CursorEnd : Textarea → Textarea;
  ta_SetWidth : Z → Textarea → Textarea;
  ta_SetHeight : Z → Textarea → Textarea;
  ta_SetFocusedText : Style → Textarea → Textarea;
  ta_LineHeight : Textarea → Z;
  ta_LineCount : Textarea → Z;
  ta_View : Textarea → string;
  ta_Update : Msg → Textarea → Textarea * nat;
  (* bubbles/viewport *)
  Viewport : Type;
  vp_New : Viewport;
  vp_SetSize : Z → Z → Viewport → Viewport;
  vp_SetContent : string → Viewport → Viewport;
  vp_GotoTop : Viewport → Viewport;
  vp_GotoBottom : Viewport → Viewport;
  vp_HalfPageUp : Viewport → Viewport;
  vp_HalfPageDown : Viewport → Viewport;
  vp_AtBottom : Viewport → bool;
  vp_View : Viewport → string;
  vp_Update : Msg → Viewport → Viewport * nat;
  (* the process's surroundings *)
  World : Type;
  GOOS : string;
  GOARCH : string;
  Exchange : hreq → World → result string (Z * string) * World;
  Start : string → list string → World → option string * World;
  WriteAll : string → World → option string * World;
  (* encoding/json: the value decoded, and the error if there is one *)
  dec_error : string → string * option string;
  dec_Status : string → Status * option string;
  dec_Tunnels : string → list Tunnel * option string;
  dec_Tunnel : string → Tunnel * option string;
  dec_Requests : string → list capturedRequest * option string;
  dec_Subdomains : string → list subdomain * option string;
  dec_Subdomain : string → subdomain * option string;
  dec_Domains : string → list domain * option string;
  dec_Domain : string → domain * option string;
  dec_AddDomain : string → addDomainResp * option string;
  dec_Account : string → account * option string;
  dec_DeviceStart : string → deviceStart * option string;
  dec_Authed : string → bool * option string;
  dec_RemoteStart : string → remoteStart * option string;
}.

(** Options, with the hooks as functions on the outside. *)
Record Options `{Terminal} := {
  op_Addr : string; op_Token : string; op_APIKey : string; op_BaseDomain : string; op_Version : string;
  op_InitialCommand : string; op_StartSpecs : list TunnelSpec; op_ConfigRows : list (string * string);
  op_OnUpdate : option (World → result string string * World);
  op_OnUninstall : option (World → result string string * World);
  op_OnCheckUpdate : option (World → result string string * World);
}.
Record client := { cl_addr : string; cl_token : string }.
Definition newClient (addr token : string) : client := {| cl_addr := addr; cl_token := token |}.

Section console.
Context `{Terminal}.

(** Deferred work (tea.Cmd): one constructor per function the code returns. *)
Inductive Cmd :=
| NoCmd | Quit | Blink | Widget (id : nat) | Batch (l : list Cmd) | Sequence (l : list Cmd)
| tickCmd | mascotTickCmd
| poll | fetchAccount (key : string) | pollLogin (deviceCode : string) (interval : Duration)
| publishRemoteState_ (st : remoteState) | publishRemoteLines_ (lines : list string)
| startTunnel_ (spec : TunnelSpec) | remoteStart_ | remoteStop_ | requests_
| stop_ (target : string) (tunnels : list Tunnel)
| login_ (key : string) | oauthStart_
| update_ (checkOnly : bool) (cur : string)
    (onCheck onUpdate : option (World → result string string * World))
| start_ (specs : list TunnelSpec) | shutdown_ | logout_
| reserveSub_ (name base : string) | releaseSub_ (name : string) | listSubs_ (base : string)
| addDomain_ (name : string) | verifyDomain_ (name : string) | listDomains_
| uninstall_ (onUninstall : World → result string string * World).

Record model := mkModel {
  m_opts : Options;
  m_cl : client;
  m_width : Z;
  m_height : Z;
  m_ready : bool;
  m_input : Textarea;
  m_vp : Viewport;
  m_transcript : list string;
  m_status : Status;
  m_authed : bool;
  m_acct : option account;
  m_tunnels : list Tunnel;
  m_requests : list reqRow;
  m_pins : list string;
  m_remoteCode : string;
  m_remoteURL : string;
  m_remoteConnected : bool;
  m_pendingRemoteLines : list string;
  m_menuItems : list menuEntry;
  m_menuIdx : nat;
  m_history : list string;
  m_historyIdx : nat;
  m_selectAll : bool;
  m_welcomeShown : bool;
  m_welcomeLen : nat;
  m_mascotFrame : Z;
  m_loginActive : bool;
  m_initialRan : bool;
  m_quitting : bool;
}.
Definition with_input (v0 : Textarea) (m : model) : model :=
  mkModel (m_opts m) (m_cl m) (m_width m) (m_height m) (m_ready m) v0 (m_vp m) (m_transcript m) (m_status m)
    (m_authed m) (m_acct m) (m_tunnels m) (m_requests m) (m_pins m) (m_remoteCode m) (m_remoteURL m)
    (m_remoteConnected m) (m_pendingRemoteLines m) (m_menuItems m) (m_menuIdx m) (m_history m) (m_historyIdx m)
    (m_selectAll m) (m_welcomeShown m) (m_welcomeLen m) (m_mascotFrame m) (m_loginActive m) (m_initialRan m)
    (m_quitting m).
Definition with_vp (v0 : Viewport) (m : model) : model :=
  mkModel (m_opts m) (m_cl m) (m_width m) (m_height m) (m_ready m) (m_input m) v0 (m_transcript m) (m_status m)
    (m_authed m) (m_acct m) (m_tunnels m) (m_requests m) (m_pins m) (m_remoteCode m) (m_remoteURL m)
    (m_remoteConnected m) (m_pendingRemoteLines m) (m_menuItems m) (m_menuIdx m) (m_history m) (m_historyIdx m)
    (m_selectAll m) (m_welcomeShown m) (m_welcomeLen m) (m_mascotFrame m) (m_loginActive m) (m_initialRan m)
    (m_quitting m).
Definition with_transcript (v0 : list string) (m : model) : model :=
  mkModel (m_opts m) (m_cl m) (m_width m) (m_height m) (m_ready m) (m_input m) (m_vp m) v0 (m_status m)
    (m_authed m) (m_acct m) (m_tunnels m) (m_requests m) (m_pins m) (m_remoteCode m) (m_remoteURL m)
    (m_remoteConnected m) (m_pendingRemoteLines m) (m_menuItems m) (m_menuIdx m) (m_history m) (m_historyIdx m)
    (m_selectAll m) (m_welcomeShown m) (m_welcomeLen m) (m_mascotFrame m) (m_loginActive m) (m_initialRan m)
    (m_quitting m).
Definition with_status (v0 : Status) (m : model) : model :=
  mkModel (m_opts m) (m_cl m) (m_width m) (m_height m) (m_ready m) (m_input m) (m_vp m) (m_transcript m) v0
    (m_authed m) (m_acct m) (m_tunnels m) (m_requests m) (m_pins m) (m_remoteCode m) (m_remoteURL m)
    (m_remoteConnected m) (m_pendingRemoteLines m) (m_menuItems m) (m_menuIdx m) (m_history m) (m_historyIdx m)
    (m_selectAll m) (m_welcomeShown m) (m_welcomeLen m) (m_mascotFrame m) (m_loginActive m) (m_initialRan m)
    (m_quitting m).
Definition with_acct (v0 : option account) (v1 : bool) (m : model) : model :=
  mkModel (m_opts m) (m_cl m) (m_width m) (m_height m) (m_ready m) (m_input m) (m_vp m) (m_transcript m)
    (m_status m) v1 v0 (m_tunnels m) (m_requests m) (m_pins m) (m_remoteCode m) (m_remoteURL m)
    (m_remoteConnected m) (m_pendingRemoteLines m) (m_menuItems m) (m_menuIdx m) (m_history m) (m_historyIdx m)
    (m_selectAll m) (m_welcomeShown m) (m_welcomeLen m) (m_mascotFrame m) (m_loginActive m) (m_initialRan m)
    (m_quitting m).
Definition with_tunnels (v0 : list Tunnel) (m : model) : model :=
  mkModel (m_opts m) (m_cl m) (m_width m) (m_height m) (m_ready m) (m_input m) (m_vp m) (m_transcript m)
    (m_status m) (m_authed m) (m_acct m) v0 (m_requests m) (m_pins m) (m_remoteCode m) (m_remoteURL m)
    (m_remoteConnected m) (m_pendingRemoteLines m) (m_menuItems m) (m_menuIdx m) (m_history m) (m_historyIdx m)
    (m_selectAll m) (m_welcomeShown m) (m_welcomeLen m) (m_mascotFrame m) (m_loginActive m) (m_initialRan m)
    (m_quitting m).
Definition with_requests (v0 : list reqRow) (m : model) : model :=
  mkModel (m_opts m) (m_cl m) (m_width m) (m_height m) (m_ready m) (m_input m) (m_vp m) (m_transcript m)
    (m_status m) (m_authed m) (m_acct m) (m_tunnels m) v0 (m_pins m) (m_remoteCode m) (m_remoteURL m)
    (m_remoteConnected m) (m_pendingRemoteLines m) (m_menuItems m) (m_menuIdx m) (m_history m) (m_historyIdx m)
    (m_selectAll m) (m_welcomeShown m) (m_welcomeLen m) (m_mascotFrame m) (m_loginActive m) (m_initialRan m)
    (m_quitting m).
Definition with_pins (v0 : list string) (m : model) : model :=
  mkModel (m_opts m) (m_cl m) (m_width m) (m_height m) (m_ready m) (m_input m) (m_vp m) (m_transcript m)
    (m_status m) (m_authed m) (m_acct m) (m_tunnels m) (m_requests m) v0 (m_remoteCode m) (m_remoteURL m)
    (m_remoteConnected m) (m_pendingRemoteLines m) (m_menuItems m) (m_menuIdx m) (m_history m) (m_historyIdx m)
    (m_selectAll m) (m_welcomeShown m) (m_welcomeLen m) (m_mascotFrame m) (m_loginActive m) (m_initialRan m)
    (m_quitting m).
Definition with_pairing (v0 : string) (v1 : string) (m : model) : model :=
  mkModel (m_opts m) (m_cl m) (m_width m) (m_height m) (m_ready m) (m_input m) (m_vp m) (m_transcript m)
    (m_status m) (m_authed m) (m_acct m) (m_tunnels m) (m_requests m) (m_pins m) v0 v1 (m_remoteConnected m)
    (m_pendingRemoteLines m) (m_menuItems m) (m_menuIdx m) (m_history m) (m_historyIdx m) (m_selectAll m)
    (m_welcomeShown m) (m_welcomeLen m) (m_mascotFrame m) (m_loginActive m) (m_initialRan m) (m_quitting m).
Definition with_remoteConnected (v0 : bool) (m : model) : model :=
  mkModel (m_opts m) (m_cl m) (m_width m) (m_height m) (m_ready m) (m_input m) (m_vp m) (m_transcript m)
    (m_status m) (m_authed m) (m_acct m) (m_tunnels m) (m_requests m) (m_pins m) (m_remoteCode m) (m_remoteURL m)
    v0 (m_pendingRemoteLines m) (m_menuItems m) (m_menuIdx m) (m_history m) (m_historyIdx m) (m_selectAll m)
    (m_welcomeShown m) (m_welcomeLen m) (m_mascotFrame m) (m_loginActive m) (m_initialRan m) (m_quitting m).
Definition with_pendingRemoteLines (v0 : list string) (m : model) : model :=
  mkModel (m_opts m) (m_cl m) (m_width m) (m_height m) (m_ready m) (m_input m) (m_vp m) (m_transcript m)
    (m_status m) (m_authed m) (m_acct m) (m_tunnels m) (m_requests m) (m_pins m) (m_remoteCode m) (m_remoteURL m)
    (m_remoteConnected m) v0 (m_menuItems m) (m_menuIdx m) (m_history m) (m_historyIdx m) (m_selectAll m)
    (m_welcomeShown m) (m_welcomeLen m) (m_mascotFrame m) (m_loginActive m) (m_initialRan m) (m_quitting m).
Definition with_menu (v0 : list menuEntry) (v1 : nat) (m : model) : model :=
  mkModel (m_opts m) (m_cl m) (m_width m) (m_height m) (m_ready m) (m_input m) (m_vp m) (m_transcript m)
    (m_status m) (m_authed m) (m_acct m) (m_tunnels m) (m_requests m) (m_pins m) (m_remoteCode m) (m_remoteURL m)
    (m_remoteConnected m) (m_pendingRemoteLines m) v0 v1 (m_history m) (m_historyIdx m) (m_selectAll m)
    (m_welcomeShown m) (m_welcomeLen m) (m_mascotFrame m) (m_loginActive m) (m_initialRan m) (m_quitting m).
Definition with_menuIdx (v0 : nat) (m : model) : model :=
  mkModel (m_opts m) (m_cl m) (m_width m) (m_height m) (m_ready m) (m_input m) (m_vp m) (m_transcript m)
    (m_status m) (m_authed m) (m_acct m) (m_tunnels m) (m_requests m) (m_pins m) (m_remoteCode m) (m_remoteURL m)
    (m_remoteConnected m) (m_pendingRemoteLines m) (m_menuItems m) v0 (m_history m) (m_historyIdx m)
    (m_selectAll m) (m_welcomeShown m) (m_welcomeLen m) (m_mascotFrame m) (m_loginActive m) (m_initialRan m)
    (m_quitting m).
Definition with_history (v0 : list string) (m : model) : model :=
  mkModel (m_opts m) (m_cl m) (m_width m) (m_height m) (m_ready m) (m_input m) (m_vp m) (m_transcript m)
    (m_status m) (m_authed m) (m_acct m) (m_tunnels m) (m_requests m) (m_pins m) (m_remoteCode m) (m_remoteURL m)
    (m_remoteConnected m) (m_pendingRemoteLines m) (m_menuItems m) (m_menuIdx m) v0 (m_historyIdx m)
    (m_selectAll m) (m_welcomeShown m) (m_welcomeLen m) (m_mascotFrame m) (m_loginActive m) (m_initialRan m)
    (m_quitting m).
Definition with_historyIdx (v0 : nat) (m : model) : model :=
  mkModel (m_opts m) (m_cl m) (m_width m) (m_height m) (m_ready m) (m_input m) (m_vp m) (m_transcript m)
    (m_status m) (m_authed m) (m_acct m) (m_tunnels m) (m_requests m) (m_pins m) (m_remoteCode m) (m_remoteURL m)
    (m_remoteConnected m) (m_pendingRemoteLines m) (m_menuItems m) (m_menuIdx m) (m_history m) v0 (m_selectAll m)
    (m_welcomeShown m) (m_welcomeLen m) (m_mascotFrame m) (m_loginActive m) (m_initialRan m) (m_quitting m).
Definition with_selectAll (v0 : bool) (m : model) : model :=
  mkModel (m_opts m) (m_cl m) (m_width m) (m_height m) (m_ready m) (m_input m) (m_vp m) (m_transcript m)
    (m_status m) (m_authed m) (m_acct m) (m_tunnels m) (m_requests m) (m_pins m) (m_remoteCode m) (m_remoteURL m)
    (m_remoteConnected m) (m_pendingRemoteLines m) (m_menuItems m) (m_menuIdx m) (m_history m) (m_historyIdx m)
    v0 (m_welcomeShown m) (m_welcomeLen m) (m_mascotFrame m) (m_loginActive m) (m_initialRan m) (m_quitting m).
Definition with_mascotFrame (v0 : Z) (m : model) : model :=
  mkModel (m_opts m) (m_cl m) (m_width m) (m_height m) (m_ready m) (m_input m) (m_vp m) (m_transcript m)
    (m_status m) (m_authed m) (m_acct m) (m_tunnels m) (m_requests m) (m_pins m) (m_remoteCode m) (m_remoteURL m)
    (m_remoteConnected m) (m_pendingRemoteLines m) (m_menuItems m) (m_menuIdx m) (m_history m) (m_historyIdx m)
    (m_selectAll m) (m_welcomeShown m) (m_welcomeLen m) v0 (m_loginActive m) (m_initialRan m) (m_quitting m).
Definition with_loginActive (v0 : bool) (m : model) : model :=
  mkModel (m_opts m) (m_cl m) (m_width m) (m_height m) (m_ready m) (m_input m) (m_vp m) (m_transcript m)
    (m_status m) (m_authed m) (m_acct m) (m_tunnels m) (m_requests m) (m_pins m) (m_remoteCode m) (m_remoteURL m)
    (m_remoteConnected m) (m_pendingRemoteLines m) (m_menuItems m) (m_menuIdx m) (m_history m) (m_historyIdx m)
    (m_selectAll m) (m_welcomeShown m) (m_welcomeLen m) (m_mascotFrame m) v0 (m_initialRan m) (m_quitting m).
Definition with_initialRan (v0 : bool) (m : model) : model :=
  mkModel (m_opts m) (m_cl m) (m_width m) (m_height m) (m_ready m) (m_input m) (m_vp m) (m_transcript m)
    (m_status m) (m_authed m) (m_acct m) (m_tunnels m) (m_requests m) (m_pins m) (m_remoteCode m) (m_remoteURL m)
    (m_remoteConnected m) (m_pendingRemoteLines m) (m_menuItems m) (m_menuIdx m) (m_history m) (m_historyIdx m)
    (m_selectAll m) (m_welcomeShown m) (m_welcomeLen m) (m_mascotFrame m) (m_loginActive m) v0 (m_quitting m).
Definition with_quitting (v0 : bool) (m : model) : model :=
  mkModel (m_opts m) (m_cl m) (m_width m) (m_height m) (m_ready m) (m_input m) (m_vp m) (m_transcript m)
    (m_status m) (m_authed m) (m_acct m) (m_tunnels m) (m_requests m) (m_pins m) (m_remoteCode m) (m_remoteURL m)
    (m_remoteConnected m) (m_pendingRemoteLines m) (m_menuItems m) (m_menuIdx m) (m_history m) (m_historyIdx m)
    (m_selectAll m) (m_welcomeShown m) (m_welcomeLen m) (m_mascotFrame m) (m_loginActive m) (m_initialRan m) v0.
Definition with_welcomeLen (v0 : nat) (m : model) : model :=
  mkModel (m_opts m) (m_cl m) (m_width m) (m_height m) (m_ready m) (m_input m) (m_vp m) (m_transcript m)
    (m_status m) (m_authed m) (m_acct m) (m_tunnels m) (m_requests m) (m_pins m) (m_remoteCode m) (m_remoteURL m)
    (m_remoteConnected m) (m_pendingRemoteLines m) (m_menuItems m) (m_menuIdx m) (m_history m) (m_historyIdx m)
    (m_selectAll m) (m_welcomeShown m) v0 (m_mascotFrame m) (m_loginActive m) (m_initialRan m) (m_quitting m).
Definition with_welcomeShown (v0 : bool) (m : model) : model :=
  mkModel (m_opts m) (m_cl m) (m_width m) (m_height m) (m_ready m) (m_input m) (m_vp m) (m_transcript m)
    (m_status m) (m_authed m) (m_acct m) (m_tunnels m) (m_requests m) (m_pins m) (m_remoteCode m) (m_remoteURL m)
    (m_remoteConnected m) (m_pendingRemoteLines m) (m_menuItems m) (m_menuIdx m) (m_history m) (m_historyIdx m)
    (m_selectAll m) v0 (m_welcomeLen m) (m_mascotFrame m) (m_loginActive m) (m_initialRan m) (m_quitting m).
Definition with_size (v0 : Z) (v1 : Z) (v2 : bool) (m : model) : model :=
  mkModel (m_opts m) (m_cl m) v0 v1 v2 (m_input m) (m_vp m) (m_transcript m) (m_status m) (m_authed m) (m_acct m)
    (m_tunnels m) (m_requests m) (m_pins m) (m_remoteCode m) (m_remoteURL m) (m_remoteConnected m)
    (m_pendingRemoteLines m) (m_menuItems m) (m_menuIdx m) (m_history m) (m_historyIdx m) (m_selectAll m)
    (m_welcomeShown m) (m_welcomeLen m) (m_mascotFrame m) (m_loginActive m) (m_initialRan m) (m_quitting m).

Definition inputPrompt (line : Z) : string := if line =? 0 then " › " else "   ".
Definition newModel (opts : Options) (cl : client) : model :=
  mkModel opts cl 0 0 false
    (ta_SetHeight 1 (ta_New "type / for commands" 240 3 inputPrompt (Bold (Foreground "#2dd4bf" NewStyle)) NewStyle))
    vp_New []
    {| st_Connected := false; st_AccountID := ""; st_Plan := ""; st_Edge := ""; st_Kind := "" |}
    false None [] [] [] "" "" false [] [] 0 [] 0 false false 0 0 false false false.

(** model.go and util.go: text helpers. *)
Fixpoint firstNonEmpty (vals : list string) : string :=
  match vals with
  | [] => ""
  | v :: vals => if negb (String.eqb (TrimSpace v) "") then v else firstNonEmpty vals
  end.
Definition plural (n : nat) (noun : string) : string :=
  if (n =? 1)%nat then "1 " +:+ noun else Itoa (Z.of_nat n) +:+ " " +:+ noun +:+ "s".
Definition at_ (sl : list string) (i : nat) : string := default "" (sl !! i).
Definition runtimePlatform : string := GOOS +:+ "/" +:+ GOARCH.

Definition normalizeAddr (a : string) : string :=
  let a := TrimSpace a in
  let a := match Index a "://" with Some i => drop_string (i + 3) a | None => a end in
  match SplitHostPort a with Some _ => a | None => "localhost:" +:+ a end.

Definition trunc (s : string) (n : Z) : string :=
  if n <=? 0 then ""
  else
    let r := runes s in
    if Z.of_nat (length r) <=? n then s
    else if n =? 1 then "…"
    else of_runes (take (Z.to_nat (n - 1)) r) +:+ "…".
Definition pad (s : string) (n : nat) : string :=
  let r := runes s in
  if (n <=? length r)%nat then s else s +:+ Repeat " " (n - length r).
Definition shortID (id : string) : string :=
  if (8 <? String.length id)%nat then take_string 8 id else id.

(** The loop of humanBytes, one unit of fuel per turn; [None] is the panic of an
    index past the last unit (or missing fuel). *)
Fixpoint human_loop (fuel : nat) (x div : Z) (exp : nat) : option (Z * nat) :=
  match fuel with
  | O => None
  | S fuel => if 1024 <=? x then human_loop fuel (x / 1024) (wrap64 (div * 1024)) (S exp) else Some (div, exp)
  end.
Definition units : list string := ["K"; "M"; "G"; "T"; "P"; "E"].
Definition humanBytes (n : Z) : option string :=
  if n <? 1024 then Some (Itoa n +:+ " B")
  else
    '(div, exp) ← human_loop 6 (n / 1024) 1024 0;
    u ← units !! exp;
    Some (fmt_f1 (float64_of_int n) div +:+ " " +:+ u +:+ "B").

(** ** styles.go *)
Definition colBrand := "#2dd4bf".
Definition colDim := "#6b7280".
Definition colGreen := "#22c55e".
Definition colYellow := "#eab308".
Definition colRed := "#ef4444".
Definition colCyan := "#38bdf8".
Definition colViolet := "#a78bfa".
Definition colAmber := "#f5a05a".
Definition colPink := "#f472b6".
Definition colBorder := "#3d635d".
Definition colPanelBg := "#16302b".

Definition stBrand := Bold (Foreground colBrand NewStyle).
Definition stTitle := Bold (Foreground colBrand NewStyle).
Definition stDim := Foreground colDim NewStyle.
Definition stKey := Bold (Foreground colBrand NewStyle).
Definition stURL := Foreground colCyan NewStyle.
Definition stOK := Foreground colGreen NewStyle.
Definition stErr := Foreground colRed NewStyle.
Definition stWarn := Foreground colYellow NewStyle.
Definition stEcho := Bold (Foreground "#e5e7eb" NewStyle).
Definition stOwl := Foreground colAmber NewStyle.
Definition stOwlEye := Bold (Foreground colCyan NewStyle).
Definition stOwlBeak := Foreground colPink NewStyle.
Definition stMenuSel := Bold (Background colBrand (Foreground "#0b0f10" NewStyle)).

Definition lipglossFg (c s : string) : string := Render (Foreground c NewStyle) s.
Definition boldFg (c s : string) : string := Render (Bold (Foreground c NewStyle)) s.
Definition statusStyle (code : Z) : Style :=
  if 500 <=? code then Foreground colRed NewStyle
  else if 400 <=? code then Foreground colYellow NewStyle
  else if 300 <=? code then Foreground colCyan NewStyle
  else if 200 <=? code then Foreground colGreen NewStyle
  else stDim.
Definition methodStyle (method : string) : Style :=
  if String.eqb method "GET" then Foreground colGreen NewStyle
  else if String.eqb method "POST" then Foreground colCyan NewStyle
  else if String.eqb method "PUT" || String.eqb method "PATCH" then Foreground colYellow NewStyle
  else if String.eqb method "DELETE" then Foreground colRed NewStyle
  else Foreground colViolet NewStyle.

Definition bgSeq (bg : string) : string :=
  let s := Render (Background bg NewStyle) (String "000" "") in
  match IndexByte s "000" with
  | Some i => if (0 <? i)%nat then take_string i s else ""
  | None => ""
  end.
Definition sgr_reset : string := String "027" "[0m".
Definition fillBg (content bg : string) : string :=
  let seq := bgSeq bg in
  if String.eqb seq "" then content else seq +:+ ReplaceAll content sgr_reset (sgr_reset +:+ seq).

Definition repeatZ (s : string) (n : Z) : string := Repeat s (Z.to_nat n).

Definition spliceTitle (box title fg bg : string) : string :=
  if String.eqb title "" then box
  else match lines_of box with
  | [] => box
  | l0 :: ls =>
      let w := Width l0 in
      let frame := Background bg (Foreground fg NewStyle) in
      let titleStyle := Bold (Background bg (Foreground fg NewStyle)) in
      let head := "╭─ " in
      let tail := " " in
      let dashCount := w - Width head - Width title - Width tail - 1 in
      if dashCount <? 0 then box
      else unlines ((Render frame head +:+ Render titleStyle title +:+
                     Render frame (tail +:+ repeatZ "─" dashCount +:+ "╮")) :: ls)
  end.
Definition roundedBox (title body : string) (outerW : Z) (border bg : string) : string :=
  let st := mkStyle None None false (Some (border, None)) (Some (outerW - 2)) (Some (0, 1)) in
  if String.eqb bg "" then spliceTitle (Render st body) title border bg
  else
    let st := mkStyle None (Some bg) false (Some (border, Some bg)) (Some (outerW - 2)) (Some (0, 1)) in
    spliceTitle (Render st (fillBg body bg)) title border bg.
Definition panelBox (title body : string) (outerW : Z) (accent : string) : string :=
  roundedBox title body outerW accent colPanelBg.
Definition inputBox (body : string) (outerW : Z) : string := roundedBox "" body outerW colBorder "".

Definition fitLines (body : list string) (n : nat) (w : Z) : list string :=
  (λ i : nat,
     match body !! i with
     | Some line => if w <? Width line then Truncate line w "…" else line
     | None => ""
     end) <$> seq 0 n.

(** ** Rendering (model.go) *)
Definition connState (m : model) : string * string * string :=
  if (0 <? length (m_tunnels m))%nat && st_Connected (m_status m) then ("●", "online", colGreen)
  else if (0 <? length (m_tunnels m))%nat then ("●", "connecting", colYellow)
  else ("○", "idle", colDim).
Definition headerMeta (m : model) : string :=
  let who := match m_acct m with
             | Some a => firstNonEmpty [ac_Plan a; ac_OrgPlan a; "free"] +:+ " plan"
             | None => if m_authed m then "signed in" else "guest"
             end in
  let meta := who +:+ " · " +:+ plural (length (m_tunnels m)) "tunnel" in
  if m_remoteConnected m then meta +:+ " · 📱 paired" else meta.
Definition spread (m : model) (left right : string) : string :=
  let gap := Z.max (m_width m - Width left - Width right - 1) 1 in
  left +:+ repeatZ " " gap +:+ right +:+ " ".
Definition renderHeader (m : model) : string :=
  let left := Render stBrand " trqsh" +:+ " " +:+ Render stDim (op_Version (m_opts m)) in
  let '(glyph, word, col) := connState m in
  let right := Render (Foreground col NewStyle) (glyph +:+ " " +:+ word) in
  let meta := headerMeta m in
  let right := if String.eqb meta "" then right else right +:+ Render stDim ("  " +:+ meta) in
  spread m left right.
Definition rule (m : model) : string := repeatZ "─" (Z.max 0 (m_width m)).
Definition clamp (m : model) (s : string) : string :=
  if Width s <=? m_width m then s else Truncate s (m_width m) "…".

Definition pinnedRows : nat := 4.
Definition tunnelsBody (m : model) (w : Z) : list string :=
  match m_tunnels m with
  | [] => [Render stDim "none — /http <port>"]
  | ts => (λ t, Render stURL (trunc (tn_PublicURL t) (w - 6)) +:+
                Render stDim ("  " +:+ Itoa (tm_Requests (tn_Metrics t)) +:+ "r")) <$> ts
  end.
Definition trafficBody (m : model) (w : Z) : list string :=
  match m_requests m with
  | [] => [Render stDim "waiting for requests…"]
  | rs =>
      (λ r, Render (methodStyle (rr_method r)) (pad (rr_method r) 6) +:+ " " +:+
            Render (statusStyle (rr_status r)) (fmt_3d (rr_status r)) +:+ " " +:+
            trunc (rr_path r) (Z.max 4 (w - 11))) <$> drop (length rs - pinnedRows) rs
  end.
Definition statusBody (m : model) : list string :=
  let '(glyph, word, col) := connState m in
  [lipglossFg col (glyph +:+ " " +:+ word);
   Render stDim ("edge " +:+ firstNonEmpty [st_Edge (m_status m); "—"]);
   Render stDim (firstNonEmpty [st_Kind (m_status m); "—"] +:+ " · " +:+ plural (length (m_tunnels m)) "tunnel")].
Definition pinBox (m : model) (name : string) : string :=
  let cap := m_width m - 2 in
  if String.eqb name "tunnels" then
    let w := Z.min 40 cap in
    panelBox ("TUNNELS (" +:+ Itoa (Z.of_nat (length (m_tunnels m))) +:+ ")")
      (unlines (fitLines (tunnelsBody m (w - 4)) pinnedRows (w - 4))) w colBrand
  else if String.eqb name "traffic" then
    let w := Z.min 54 cap in
    panelBox "TRAFFIC" (unlines (fitLines (trafficBody m (w - 4)) pinnedRows (w - 4))) w colCyan
  else if String.eqb name "status" then
    let w := Z.min 40 cap in
    panelBox "STATUS" (unlines (fitLines (statusBody m) pinnedRows (w - 4))) w colViolet
  else "".

(** The loop of packBoxes: the rows done, the open row and its width. *)
Definition pack_flush (out row : list string) : list string :=
  match row with [] => out | _ => out ++ lines_of (JoinHorizontal row) end.
Fixpoint pack_loop (gap : string) (width : Z) (boxes out row : list string) (rowW : Z) : list string :=
  match boxes with
  | [] => pack_flush out row
  | b :: boxes =>
      let bw := Width b in
      let '(out, row, rowW) :=
        if (0 <? rowW) && (width <? rowW + 1 + bw)
        then (pack_flush out row, [], match row with [] => rowW | _ => 0 end) else (out, row, rowW) in
      let '(row, rowW) := if 0 <? rowW then (row ++ [gap], rowW + 1) else (row, rowW) in
      pack_loop gap width boxes out (row ++ [b]) (rowW + bw)
  end.
Definition packBoxes (boxes : list string) (width : Z) : list string :=
  match boxes with
  | [] => []
  | b0 :: _ =>
      let gap := TrimRight (repeatZ (" " +:+ nl) (Height b0)) newline in
      pack_loop gap width boxes [] [] 0
  end.
Definition renderPinnedBlock (m : model) : list string :=
  match m_pins m with [] => [] | pins => packBoxes (pinBox m <$> pins) (m_width m) end.

Definition mascotEyes : list string := ["O,O"; "O,O"; "O,O"; "O,O"; "-,-"; "O,O"; "o,o"; "O,O"].
Definition mascotFrame (f : Z) : list string :=
  let e := runes (at_ mascotEyes (Z.to_nat (f mod 8))) in
  [Render stOwl " ,_,";
   Render stOwl "{" +:+ Render stOwlEye (at_ e 0) +:+ Render stOwlBeak (at_ e 1) +:+ Render stOwlEye (at_ e 2) +:+
   Render stOwl "}";
   Render stOwl "/)_)" +:+ Render stDim " "].

Definition padCell (s : string) (w : Z) : string :=
  if w <? Width s then Truncate s w "…" else s +:+ repeatZ " " (w - Width s).
Definition welcomeLeft (m : model) : list string :=
  let '(glyph, word, col) := connState m in
  let '(name, email, plan) :=
    match m_acct m with
    | Some a => (firstNonEmpty [ac_Name a; ac_Email a; "you"], Render stDim (ac_Email a),
                 firstNonEmpty [ac_Plan a; ac_OrgPlan a; "free"] +:+ " plan · ")
    | None => ("guest", Render stDim "not signed in — /login", "")
    end in
  [Render stBrand ("Welcome, " +:+ name); email;
   Render stDim plan +:+ lipglossFg col (glyph +:+ " " +:+ word); ""].
Definition welcomeRight : list string :=
  [Render stTitle "Getting started";
   Render stKey "/" +:+ Render stDim "            browse all commands";
   Render stKey "/http 3000" +:+ Render stDim "   expose a local port";
   Render stKey "/qr" +:+ Render stDim "          pair this console to your phone"].
Definition renderWelcome (m : model) : list string :=
  let mascot := mascotFrame (m_mascotFrame m) in
  let acct := welcomeLeft m in
  let mascotW := 6 in
  let innerW := Z.max 16 (m_width m - 4) in
  let showTips := 82 <=? m_width m in
  let rows := Nat.max (length mascot) (length acct) in
  let acctW := Z.max 8 (innerW - mascotW - 2) in
  let '(tips, rows, acctW) :=
    if showTips then (welcomeRight, Nat.max rows (length welcomeRight), 24) else ([], rows, acctW) in
  let body := (λ i : nat,
    let line := padCell (at_ mascot i) mascotW +:+ "  " +:+ padCell (at_ acct i) acctW in
    if showTips then line +:+ Render stDim "│ " +:+ at_ tips i else line) <$> seq 0 rows in
  let box := roundedBox ("trqsh " +:+ op_Version (m_opts m)) (unlines body) (m_width m - 2) colBrand "" in
  lines_of box ++ [""].

Definition menuOpen (m : model) : bool := (0 <? length (m_menuItems m))%nat.
Definition renderInputBox (m : model) : string :=
  let ta := if m_selectAll m then ta_SetFocusedText stMenuSel (m_input m) else m_input m in
  inputBox (ta_View ta) (m_width m).
Definition renderScrollHint (m : model) : string :=
  if vp_AtBottom (m_vp m) then ""
  else "  " +:+ Render stWarn "↓ more below" +:+ Render stDim "  ·  End to jump to latest, PgDn to scroll".
Definition renderHint (m : model) : string :=
  if menuOpen m then "  " +:+ Render stDim "↑↓ select · tab complete · enter run · esc close"
  else "  " +:+ Render stDim "↑↓ history · / commands · pgup/pgdn scroll · ctrl+c quit".

Definition menuWindow : nat := 7.
Definition menu_start (m : model) : nat :=
  if (menuWindow <=? m_menuIdx m)%nat then (m_menuIdx m - menuWindow + 1)%nat else 0%nat.
Definition menu_row (m : model) (i : nat) (e : menuEntry) : string :=
  let label := pad (me_label e) 26 in
  let row := if (i =? m_menuIdx m)%nat then Render stMenuSel (" " +:+ label +:+ " ") else "  " +:+ Render stKey label in
  let row := if String.eqb (me_desc e) "" then row else row +:+ "  " +:+ Render stDim (me_desc e) in
  "  " +:+ row.
Definition renderMenu (m : model) : list string :=
  if negb (menuOpen m) then []
  else
    let start := menu_start m in
    let end_ := Nat.min (start + menuWindow) (length (m_menuItems m)) in
    omap (λ i : nat, menu_row m i <$> m_menuItems m !! i) (seq start (end_ - start)).

Definition view_all (m : model) : list string :=
  [renderHeader m; Render stDim (rule m)] ++ lines_of (vp_View (m_vp m)) ++ [renderScrollHint m] ++
  renderPinnedBlock m ++ renderMenu m ++ lines_of (renderInputBox m) ++ [renderHint m; ""].
Definition view_lines (m : model) : list string :=
  let lines := clamp m <$> view_all m in
  let h := Z.to_nat (m_height m) in
  let lines := if (h <? length lines)%nat then drop (length lines - h) lines else lines in
  lines ++ replicate (h - length lines) "".
Definition View (m : model) : string :=
  if negb (m_ready m) then "  starting trqsh…" else unlines (view_lines m).

(** * The transcript *)
Definition appendLines (lines : list string) (m : model) : model :=
  let m := with_transcript (m_transcript m ++ lines) m in
  let m := if String.eqb (m_remoteCode m) "" then m
           else with_pendingRemoteLines (m_pendingRemoteLines m ++ (Strip <$> lines)) m in
  if 0 <? m_width m
  then with_vp (vp_GotoBottom (vp_SetContent (unlines (m_transcript m)) (m_vp m))) m else m.

Definition maxInputRows : Z := 6.
Definition relayout (m : model) : model :=
  if m_width m =? 0 then m
  else
    let input := ta_SetWidth (Z.max 10 (m_width m - 4)) (m_input m) in
    let rows := ta_LineHeight input in
    let rows := if rows <? ta_LineCount input then ta_LineCount input else rows in
    let inputRows := Z.max 1 (Z.min rows maxInputRows) in
    let m := with_input (ta_SetHeight inputRows input) m in
    let pinnedH := Z.of_nat (length (renderPinnedBlock m)) in
    let menuH := Z.of_nat (length (renderMenu m)) in
    let chrome := 2 + pinnedH + 1 + menuH + (inputRows + 2) + 1 + 1 in
    let vpH := Z.max (m_height m - chrome) 1 in
    let atBottom := vp_AtBottom (m_vp m) in
    let vp := vp_SetContent (unlines (m_transcript m)) (vp_SetSize (m_width m) vpH (m_vp m)) in
    let vp := if (0 <? m_welcomeLen m)%nat && (length (m_transcript m) <=? m_welcomeLen m)%nat then vp_GotoTop vp
              else if atBottom then vp_GotoBottom vp else vp in
    with_vp vp m.

Definition refreshWelcome (m : model) : model :=
  if negb (m_welcomeShown m) || (m_welcomeLen m =? 0)%nat || (length (m_transcript m) <? m_welcomeLen m)%nat then m
  else
    let fresh := renderWelcome m in
    with_welcomeLen (length fresh) (with_transcript (fresh ++ drop (m_welcomeLen m) (m_transcript m)) m).

(** browser.go *)
Definition openBrowser (url : string) (w : World) : option string * World :=
  let u := ToLower url in
  if negb (HasPrefix u "http://") && negb (HasPrefix u "https://")
  then (Some ("refusing to open non-http(s) URL: " +:+ url), w)
  else if String.eqb GOOS "windows" then Start "rundll32" ["url.dll,FileProtocolHandler"; url] w
  else if String.eqb GOOS "darwin" then Start "open" [url] w
  else Start "xdg-open" [url] w.

End console.
