(* ===== verification/ConsoleCmds.v ===== *)
(** The slash commands of the terminal interface (internal/agent/cli/tui):
    commands.go, and client.go with which they talk to the local daemon.

    A command changes the model at once and may return deferred work ([Cmd]), a
    function the runtime runs beside the message loop; [exec] is what that function
    does and the message it ends with. *)
From S2P Require Import Prelude GoStrings GoText Agent Inspect Remote Console.
From Stdlib Require Import Ascii.

Open Scope Z_scope.

Section commands.
Context `{Terminal}.

(** * The client (client.go) *)
Definition client_url (c : client) (path : string) : string := "http://" +:+ cl_addr c +:+ path.

(** The request [do] builds, with the loopback token when the client has one. *)
Definition client_req (c : client) (method path : string) (body : option JBody) : hreq :=
  {| hq_method := method; hq_url := client_url c path; hq_body := body;
     hq_auth := if String.eqb (cl_token c) "" then None else Some ("Bearer " +:+ cl_token c) |}.
(** [do]: [zero] is the caller's variable before decoding, [dec] what decoding a
    nonempty 2xx body makes of it.  Encoding the bodies the callers pass cannot
    fail; the failures of building a request and of sending it are [Exchange]'s. *)
Definition client_do {A} (zero : A) (dec : string → A * option string) (c : client)
    (method path : string) (body : option JBody) (w : World) : A * option string * World :=
  match Exchange (client_req c method path body) w with
  | (Err e, w) => (zero, Some e, w)
  | (Ok (code, data), w) =>
      if negb (Z.quot code 100 =? 2) then
        let '(e, bad) := dec_error data in
        if bool_decide (bad = None) && negb (String.eqb e "") then (zero, Some e, w)
        else (zero, Some ("control API " +:+ method +:+ " " +:+ path +:+ ": status " +:+ Itoa code), w)
      else if negb (String.eqb data "") then (dec data, w)
      else (zero, None, w)
  end.
Definition no_out (_ : string) : unit * option string := (tt, None).
Definition do_unit (c : client) (method path : string) (body : option JBody) (w : World) : option string * World :=
  let '(_, e, w) := client_do tt no_out c method path body w in (e, w).

Definition zero_status : Status :=
  {| st_Connected := false; st_AccountID := ""; st_Plan := ""; st_Edge := ""; st_Kind := "" |}.
Definition zero_tunnel : Tunnel :=
  {| tn_ID := ""; tn_Name := ""; tn_Proto := ""; tn_LocalAddr := ""; tn_PublicURL := ""; tn_Status := "";
     tn_Metrics := {| tm_Connections := 0; tm_Requests := 0; tm_BytesIn := 0; tm_BytesOut := 0 |}; tn_CreatedAt := 0 |}.
Definition zero_domain : domain := {| dm_ID := ""; dm_Domain := ""; dm_VerifiedAt := false; dm_CertStatus := "" |}.
Definition zero_account : account :=
  {| ac_Email := ""; ac_Name := ""; ac_OrgName := ""; ac_OrgPlan := ""; ac_Plan := "";
     ac_BytesIn := 0; ac_BytesOut := 0; ac_Requests := 0 |}.
Definition zero_device : deviceStart :=
  {| ds_DeviceCode := ""; ds_UserCode := ""; ds_VerificationURI := ""; ds_VerificationURIComplete := "";
     ds_Interval := 0; ds_ExpiresIn := 0 |}.

Definition client_status (c : client) := client_do zero_status dec_Status c "GET" "/status" None.
Definition client_tunnels (c : client) := client_do [] dec_Tunnels c "GET" "/tunnels" None.
Definition client_startTunnel (c : client) (spec : TunnelSpec) :=
  client_do zero_tunnel dec_Tunnel c "POST" "/tunnels" (Some (JSpec spec)).
Definition client_stopTunnel (c : client) (id : string) := do_unit c "DELETE" ("/tunnels/" +:+ id) None.
Definition client_requests (c : client) := client_do [] dec_Requests c "GET" "/requests" None.
Definition client_login (c : client) (key : string) := do_unit c "POST" "/login" (Some (JToken key)).
Definition client_logout (c : client) := do_unit c "POST" "/logout" None.
Definition client_shutdown (c : client) := do_unit c "POST" "/shutdown" None.
Definition client_listSubdomains (c : client) := client_do [] dec_Subdomains c "GET" "/cloud/subdomains" None.
Definition client_reserveSubdomain (c : client) (name : string) :=
  client_do {| sd_ID := ""; sd_Subdomain := "" |} dec_Subdomain c "POST" "/cloud/subdomains" (Some (JSubdomain name)).
Definition client_releaseSubdomain (c : client) (id : string) := do_unit c "DELETE" ("/cloud/subdomains/" +:+ id) None.
Definition client_listDomains (c : client) := client_do [] dec_Domains c "GET" "/cloud/domains" None.
Definition client_addDomain (c : client) (name : string) :=
  client_do {| ad_Domain := zero_domain; ad_DNS := ∅ |} dec_AddDomain c "POST" "/cloud/domains" (Some (JDomain name)).
Definition client_verifyDomain (c : client) (id : string) :=
  client_do zero_domain dec_Domain c "POST" ("/cloud/domains/" +:+ id +:+ "/verify") None.
Definition client_me (c : client) (w : World) : result string account * World :=
  match client_do zero_account dec_Account c "GET" "/cloud/me" None w with
  | (_, Some e, w) => (Err e, w)
  | (a, None, w) => (Ok a, w)
  end.
Definition client_oauthStart (c : client) (w : World) : result string deviceStart * World :=
  match client_do zero_device dec_DeviceStart c "POST" "/login/oauth/start" None w with
  | (_, Some e, w) => (Err e, w)
  | (d, None, w) => (Ok d, w)
  end.
(** authorized, pending, or an error *)
Definition client_oauthPoll (c : client) (deviceCode : string) (w : World) : result string (bool * bool) * World :=
  match client_do false dec_Authed c "POST" "/login/oauth/poll" (Some (JDeviceCode deviceCode)) w with
  | (_, Some e, w) =>
      if String.eqb e "authorization_pending" || String.eqb e "slow_down" then (Ok (false, true), w) else (Err e, w)
  | (authed, None, w) => (Ok (authed, false), w)
  end.
Definition client_remoteStart (c : client) :=
  client_do {| rs_Code := ""; rs_URL := ""; rs_ExpiresAt := "" |} dec_RemoteStart c "POST" "/remote/start" None.
Definition client_remoteStop (c : client) := do_unit c "POST" "/remote/stop" None.
Definition client_remotePublishLines (c : client) (lines : list string) :=
  do_unit c "POST" "/remote/publish" (Some (JLines lines)).
Definition client_remotePublishState (c : client) (st : remoteState) :=
  do_unit c "POST" "/remote/publish" (Some (JState st)).

(** [streamOnce]: the lines of the feed that carry an event; [dec] is the JSON
    decoder of an event. *)
Fixpoint sse_events (dec : string → option Event) (lines : list string) : list Event :=
  match lines with
  | [] => []
  | l :: lines =>
      if HasPrefix l "data: "
      then match dec (drop_string 6 l) with
           | Some ev => ev :: sse_events dec lines
           | None => sse_events dec lines
           end
      else sse_events dec lines
  end.

(** * Deferred work *)
Definition fail_line (prefix e : string) : option Msg := Some (PrintMsg [Render stErr (prefix +:+ e)]).
Definition say (l : list string) : option Msg := Some (PrintMsg l).
Definition started_line (t : Tunnel) : string :=
  Render stOK "  ✓ " +:+ Render stURL (tn_PublicURL t) +:+ Render stDim ("  → " +:+ tn_LocalAddr t).

Definition exec_poll (c : client) (w : World) : Msg * World :=
  let '(ts, err, w) := client_tunnels c w in
  let '(st, _, w) := client_status c w in
  (DataMsg ts st (bool_decide (err = None)), w).
Definition exec_fetchAccount (c : client) (key : string) (w : World) : Msg * World :=
  let w := if String.eqb key "" then w else snd (client_login c key w) in
  match client_me c w with
  | (Ok a, w) => (AccountMsg (Some a) true, w)
  | (Err _, w) => (AccountMsg None false, w)
  end.
Definition exec_pollLogin (c : client) (deviceCode : string) (interval : Duration) (w : World) : Msg * World :=
  match client_oauthPoll c deviceCode w with
  | (Err e, w) => (LoginDoneMsg false e, w)
  | (Ok (true, _), w) => (LoginDoneMsg true "", w)
  | (Ok (false, _), w) => (LoginTickMsg deviceCode interval, w)
  end.
Definition exec_startTunnel (c : client) (spec : TunnelSpec) (w : World) : option Msg * World :=
  match client_startTunnel c spec w with
  | (_, Some e, w) => (fail_line "  ✗ " e, w)
  | (t, None, w) => (say [started_line t], w)
  end.
Definition exec_remoteStart (c : client) (w : World) : option Msg * World :=
  match client_remoteStart c w with
  | (_, Some e, w) => (fail_line "  ✗ " e, w)
  | (r, None, w) => (Some (RemoteStartedMsg (rs_Code r) (rs_URL r)), w)
  end.

Definition request_line (r : capturedRequest) : string :=
  "  " +:+ Render (methodStyle (cq_Method r)) (pad (cq_Method r) 6) +:+ " " +:+
  Render (statusStyle (cq_Status r)) (fmt_3d (cq_Status r)) +:+ " " +:+
  Render stDim (cq_Host r) +:+ cq_Path r +:+ Render stDim ("  " +:+ Itoa (cq_DurationMs r) +:+ "ms").
Definition recent (reqs : list capturedRequest) : list capturedRequest := drop (length reqs - 20) reqs.
Definition exec_requests (c : client) (w : World) : option Msg * World :=
  match client_requests c w with
  | (_, Some e, w) => (fail_line "  ✗ " e, w)
  | ([], None, w) => (say [Render stDim "  no requests captured yet — expose an HTTP service with /http"], w)
  | (reqs, None, w) => (say (("  " +:+ Render stTitle "RECENT REQUESTS") :: (request_line <$> recent reqs)), w)
  end.

Definition matches (q ql : string) (t : Tunnel) : bool :=
  String.eqb (tn_ID t) q || EqualFold (tn_Name t) q || HasPrefix (tn_ID t) q ||
  Contains (ToLower (tn_PublicURL t)) ql.
Definition matchTunnel (tunnels : list Tunnel) (q : string) : option Tunnel :=
  let ql := ToLower (TrimSpace q) in
  if String.eqb ql "" then None else find_first (matches q ql) tunnels.

Fixpoint stop_each (c : client) (victims : list Tunnel) (w : World) : list string * World :=
  match victims with
  | [] => ([], w)
  | t :: victims =>
      let '(e, w) := client_stopTunnel c (tn_ID t) w in
      let line := match e with
                  | Some e => Render stErr ("  ✗ " +:+ e)
                  | None => Render stOK "  ✓ stopped " +:+ Render stDim (tn_PublicURL t)
                  end in
      let '(out, w) := stop_each c victims w in (line :: out, w)
  end.
Definition victims_of (tunnels : list Tunnel) (target : string) : list Tunnel :=
  if EqualFold target "all" then tunnels
  else match matchTunnel tunnels target with Some t => [t] | None => [] end.
Definition exec_stop (c : client) (target : string) (tunnels : list Tunnel) (w : World) : option Msg * World :=
  match victims_of tunnels target with
  | [] => (say [Render stErr ("  ✗ no tunnel matched " +:+ target)], w)
  | victims => let '(out, w) := stop_each c victims w in (say out, w)
  end.

Definition exec_login (c : client) (key : string) (w : World) : option Msg * World :=
  match client_login c key w with
  | (Some e, w) => (fail_line "  ✗ sign-in failed: " e, w)
  | (None, w) => (Some (LoginDoneMsg true ""), w)
  end.
Definition exec_oauthStart (c : client) (w : World) : option Msg * World :=
  match client_oauthStart c w with
  | (Err e, w) => (fail_line "  ✗ couldn't start sign-in: " e, w)
  | (Ok d, w) => (Some (LoginStartedMsg d), w)
  end.

Definition exec_update (checkOnly : bool) (cur : string) (onCheck onUpdate : option (World → result string string * World))
    (w : World) : option Msg * World :=
  let '(r, w) := match onCheck with Some f => f w | None => (Ok "", w) end in
  match r with
  | Err e => (fail_line "  ✗ couldn't check: " e, w)
  | Ok latest =>
      if String.eqb latest "" then (say [Render stDim "  no release info available"], w)
      else if String.eqb cur "dev" || String.eqb cur "" then
        (say [Render stDim ("  dev build; latest release is " +:+ latest)], w)
      else if String.eqb latest cur then (say [Render stOK ("  ✓ trqsh " +:+ cur +:+ " is up to date")], w)
      else match checkOnly, onUpdate with
      | false, Some f =>
          match f w with
          | (Err e, w) => (fail_line "  ✗ update failed: " e, w)
          | (Ok summary, w) =>
              (say [Render stOK ("  ✓ " +:+ summary); Render stDim "  restart the console to run the new version"], w)
          end
      | _, _ =>
          (say [Render stWarn "  ▲ update available: " +:+ Render stKey (cur +:+ " → " +:+ latest);
                Render stDim "  run " +:+ Render stKey "/update" +:+ Render stDim " to install it"], w)
      end
  end.

Fixpoint start_each (c : client) (specs : list TunnelSpec) (w : World) : list string * World :=
  match specs with
  | [] => ([], w)
  | spec :: specs =>
      let '(t, e, w) := client_startTunnel c spec w in
      let line := match e with
                  | Some e => Render stErr ("  ✗ " +:+ firstNonEmpty [sp_Name spec; sp_Addr spec] +:+ ": " +:+ e)
                  | None => started_line t
                  end in
      let '(out, w) := start_each c specs w in (line :: out, w)
  end.

Definition exec_reserveSub (c : client) (name base : string) (w : World) : option Msg * World :=
  match client_reserveSubdomain c name w with
  | (_, Some e, w) => (fail_line "  ✗ " e, w)
  | (s, None, w) => (say [Render stOK "  ✓ reserved " +:+ Render stURL (sd_Subdomain s +:+ "." +:+ base)], w)
  end.
Definition exec_releaseSub (c : client) (name : string) (w : World) : option Msg * World :=
  match client_listSubdomains c w with
  | (_, Some e, w) => (fail_line "  ✗ " e, w)
  | (subs, None, w) =>
      let id := match find_first (λ s, String.eqb (sd_ID s) name || EqualFold (sd_Subdomain s) name) subs with
                | Some s => sd_ID s | None => "" end in
      if String.eqb id "" then (say [Render stErr ("  ✗ no reserved subdomain matched " +:+ name)], w)
      else match client_releaseSubdomain c id w with
      | (Some e, w) => (fail_line "  ✗ " e, w)
      | (None, w) => (say [Render stOK ("  ✓ released " +:+ name)], w)
      end
  end.
Definition exec_listSubs (c : client) (base : string) (w : World) : option Msg * World :=
  match client_listSubdomains c w with
  | (_, Some e, w) => (fail_line "  ✗ " e, w)
  | ([], None, w) =>
      (say [Render stDim "  no reserved subdomains — " +:+ Render stKey "/subdomains reserve <name>"], w)
  | (subs, None, w) =>
      (say (("  " +:+ Render stTitle "SUBDOMAINS") ::
            ((λ s, "  " +:+ Render stURL (sd_Subdomain s +:+ "." +:+ base)) <$> subs)), w)
  end.

Definition dns_record (dns : gmap string string) (kind name value : string) : list string :=
  let n := default "" (dns !! name) in
  if String.eqb n "" then [] else [Render stDim (kind +:+ n +:+ "  " +:+ default "" (dns !! value))].
Definition exec_addDomain (c : client) (name : string) (w : World) : option Msg * World :=
  match client_addDomain c name w with
  | (_, Some e, w) => (fail_line "  ✗ " e, w)
  | (res, None, w) =>
      let d := dm_Domain (ad_Domain res) in
      (say ([Render stOK "  ✓ added " +:+ Render stURL d;
             Render stDim "  set these DNS records, then " +:+ Render stKey ("/domains verify " +:+ d) +:+ Render stDim ":"] ++
            dns_record (ad_DNS res) "    TXT   " "txt_name" "txt_value" ++
            dns_record (ad_DNS res) "    CNAME " "cname_name" "cname_value"), w)
  end.
Definition exec_verifyDomain (c : client) (name : string) (w : World) : option Msg * World :=
  match client_listDomains c w with
  | (_, Some e, w) => (fail_line "  ✗ " e, w)
  | (doms, None, w) =>
      let id := match find_first (λ d, String.eqb (dm_ID d) name || EqualFold (dm_Domain d) name) doms with
                | Some d => dm_ID d | None => "" end in
      if String.eqb id "" then (say [Render stErr ("  ✗ no domain matched " +:+ name)], w)
      else match client_verifyDomain c id w with
      | (_, Some e, w) => (fail_line "  ✗ " e, w)
      | (d, None, w) =>
          if dm_VerifiedAt d then (say [Render stOK ("  ✓ verified " +:+ dm_Domain d)], w)
          else (say [Render stWarn ("  " +:+ dm_Domain d +:+ " is not verified yet")], w)
      end
  end.
Definition exec_listDomains (c : client) (w : World) : option Msg * World :=
  match client_listDomains c w with
  | (_, Some e, w) => (fail_line "  ✗ " e, w)
  | ([], None, w) => (say [Render stDim "  no custom domains — " +:+ Render stKey "/domains add <domain>"], w)
  | (doms, None, w) =>
      (say (("  " +:+ Render stTitle "DOMAINS") ::
            ((λ d, "  " +:+ Render stURL (dm_Domain d) +:+
                   Render stDim ("  " +:+ (if dm_VerifiedAt d then "verified" else "pending") +:+ " · " +:+
                                 firstNonEmpty [dm_CertStatus d; "—"])) <$> doms)), w)
  end.
Definition exec_uninstall (f : World → result string string * World) (w : World) : option Msg * World :=
  match f w with
  | (Err e, w) => (fail_line "  ✗ " e, w)
  | (Ok msg, w) => (say [Render stOK ("  ✓ " +:+ msg)], w)
  end.

(** What one function returned as a [Cmd] does; a batch or a sequence is taken apart
    by the runtime ([ConsoleLoop]). *)
Definition exec (c : client) (cmd : Cmd) (w : World) : option Msg * World :=
  match cmd with
  | NoCmd | Batch _ | Sequence _ => (None, w)
  | Quit => (Some QuitMsg, w)
  | Blink => (Some (OtherMsg 0), w)
  | Widget n => (Some (OtherMsg n), w)
  | tickCmd => (Some TickMsg, w)
  | mascotTickCmd => (Some MascotTickMsg, w)
  | poll => let '(msg, w) := exec_poll c w in (Some msg, w)
  | fetchAccount key => let '(msg, w) := exec_fetchAccount c key w in (Some msg, w)
  | pollLogin code interval => let '(msg, w) := exec_pollLogin c code interval w in (Some msg, w)
  | publishRemoteState_ st => (None, snd (client_remotePublishState c st w))
  | publishRemoteLines_ lines => (None, snd (client_remotePublishLines c lines w))
  | startTunnel_ spec => exec_startTunnel c spec w
  | remoteStart_ => exec_remoteStart c w
  | remoteStop_ => (say [Render stOK "  ✓ pairing ended"], snd (client_remoteStop c w))
  | requests_ => exec_requests c w
  | stop_ target tunnels => exec_stop c target tunnels w
  | login_ key => exec_login c key w
  | oauthStart_ => exec_oauthStart c w
  | update_ checkOnly cur onCheck onUpdate => exec_update checkOnly cur onCheck onUpdate w
  | start_ specs => let '(out, w) := start_each c specs w in (say out, w)
  | shutdown_ => (None, snd (client_shutdown c w))
  | logout_ =>
      match client_logout c w with
      | (Some e, w) => (fail_line "  ✗ " e, w)
      | (None, w) => (say [Render stOK "  ✓ signed out"], w)
      end
  | reserveSub_ name base => exec_reserveSub c name base w
  | releaseSub_ name => exec_releaseSub c name w
  | listSubs_ base => exec_listSubs c base w
  | addDomain_ name => exec_addDomain c name w
  | verifyDomain_ name => exec_verifyDomain c name w
  | listDomains_ => exec_listDomains c w
  | uninstall_ f => exec_uninstall f w
  end.

(** * The commands (commands.go) *)

(** A panic is [None]. *)
Definition Effect : Type := option (model * World * Cmd).
Definition done (m : model) (w : World) : Effect := Some (m, w, NoCmd).
Definition defer (m : model) (w : World) (c : Cmd) : Effect := Some (m, w, c).
(** A loop that prints the lines [f x] for each [x]. *)
Definition append_each {A} (f : A → list string) (l : list A) (m : model) : model :=
  foldl (λ m x, appendLines (f x) m) m l.

Fixpoint tunnel_flags (spec : TunnelSpec) (args : list string) : TunnelSpec :=
  match args with
  | [] => spec
  | a :: rest =>
      if String.eqb a "--subdomain" || String.eqb a "-s" then
        match rest with
        | v :: rest =>
            tunnel_flags {| sp_Name := sp_Name spec; sp_Proto := sp_Proto spec; sp_Addr := sp_Addr spec;
                            sp_Subdomain := v; sp_CustomDomain := sp_CustomDomain spec; sp_BasicAuth := sp_BasicAuth spec;
                            sp_HostHeader := sp_HostHeader spec; sp_RemotePort := sp_RemotePort spec |} rest
        | [] => spec
        end
      else if String.eqb a "--remote-port" then
        match rest with
        | v :: rest =>
            tunnel_flags {| sp_Name := sp_Name spec; sp_Proto := sp_Proto spec; sp_Addr := sp_Addr spec;
                            sp_Subdomain := sp_Subdomain spec; sp_CustomDomain := sp_CustomDomain spec;
                            sp_BasicAuth := sp_BasicAuth spec; sp_HostHeader := sp_HostHeader spec;
                            sp_RemotePort := atoi_value v |} rest
        | [] => spec
        end
      else tunnel_flags spec rest
  end.
Definition startTunnelCmd (proto : string) (args : list string) (m : model) (w : World) : Effect :=
  match args with
  | [] => done (appendLines [Render stErr "  ✗ usage: " +:+ Render stKey ("/" +:+ proto +:+ " <port>")] m) w
  | a0 :: rest =>
      let spec := tunnel_flags {| sp_Name := ""; sp_Proto := proto; sp_Addr := normalizeAddr a0; sp_Subdomain := "";
                                  sp_CustomDomain := ""; sp_BasicAuth := ""; sp_HostHeader := ""; sp_RemotePort := 0 |} rest in
      defer (appendLines [Render stDim ("  starting " +:+ proto +:+ " tunnel → " +:+ sp_Addr spec +:+ " …")] m) w
        (startTunnel_ spec)
  end.

Definition cmdLs (m : model) (w : World) : Effect :=
  match m_tunnels m with
  | [] => done (appendLines [Render stDim "  no tunnels — " +:+ Render stKey "/http <port>" +:+
                             Render stDim " to start one"] m) w
  | ts =>
      done (append_each (λ t,
        ["  " +:+ Render stKey (shortID (tn_ID t)) +:+ "  " +:+ Render stURL (tn_PublicURL t) +:+
         Render stDim ("  → " +:+ tn_LocalAddr t +:+ " · " +:+ tn_Status t +:+ " · " +:+
                       Itoa (tm_Requests (tn_Metrics t)) +:+ " req")]) ts m) w
  end.

Definition pickTunnel (m : model) (args : list string) : option Tunnel :=
  match args with
  | [] => m_tunnels m !! 0%nat
  | a :: _ => matchTunnel (m_tunnels m) a
  end.

Definition cmdOpen (args : list string) (m : model) (w : World) : Effect :=
  match pickTunnel m args with
  | None => done (appendLines [Render stErr "  ✗ no matching tunnel"] m) w
  | Some t =>
      match openBrowser (tn_PublicURL t) w with
      | (Some e, w) => done (appendLines [Render stErr ("  ✗ couldn't open browser: " +:+ e)] m) w
      | (None, w) => done (appendLines [Render stOK "  ✓ opened " +:+ Render stURL (tn_PublicURL t)] m) w
      end
  end.

Definition qr_lines (url : string) : list string := lines_of (TrimRight (GenerateHalfBlock url) newline).
Definition append_qr (url : string) (m : model) : model :=
  append_each (λ l, ["  " +:+ l]) (qr_lines url) m.
Definition cmdQRTunnel (args : list string) (m : model) (w : World) : Effect :=
  match pickTunnel m args with
  | None => done (appendLines [Render stErr "  ✗ no tunnel to show — " +:+ Render stKey "/http <port>" +:+
                               Render stDim " first"] m) w
  | Some t =>
      let m := appendLines [Render stDim "  scan to open " +:+ Render stURL (tn_PublicURL t) +:+
                            Render stDim " on your phone:"] m in
      done (append_qr (tn_PublicURL t) m) w
  end.
Definition cmdQRPair (m : model) (w : World) : Effect :=
  if bool_decide (m_acct m = None) && negb (m_authed m)
  then done (appendLines [Render stErr "  ✗ sign in first — " +:+ Render stKey "/login"] m) w
  else defer (appendLines [Render stDim "  starting a pairing session…"] m) w remoteStart_.
Definition cmdQRStop (m : model) (w : World) : Effect :=
  if String.eqb (m_remoteCode m) ""
  then done (appendLines [Render stDim "  no active pairing"] m) w
  else defer (appendLines [Render stDim "  ending pairing…"] m) w remoteStop_.
Definition cmdQR (args : list string) (m : model) (w : World) : Effect :=
  match args with
  | [] => cmdQRPair m w
  | a :: _ => if EqualFold a "stop" then cmdQRStop m w else cmdQRTunnel args m w
  end.
Definition renderPairQR (url code : string) (m : model) : model :=
  let m := appendLines [Render stDim "  scan to control this console from your phone:"] m in
  let m := append_qr url m in
  appendLines
    [Render stDim "  or open " +:+ Render stURL ("qr." +:+ op_BaseDomain (m_opts m)) +:+ Render stDim " and enter " +:+
     Render stKey code;
     Render stDim "  " +:+ Render stKey "/qr stop" +:+ Render stDim " ends the pairing"] m.

Definition cmdCopy (args : list string) (m : model) (w : World) : Effect :=
  match pickTunnel m args with
  | None => done (appendLines [Render stErr "  ✗ no tunnel to copy"] m) w
  | Some t =>
      match WriteAll (tn_PublicURL t) w with
      | (Some e, w) => done (appendLines [Render stErr ("  ✗ couldn't copy: " +:+ e)] m) w
      | (None, w) =>
          done (appendLines [Render stOK "  ✓ copied " +:+ Render stURL (tn_PublicURL t) +:+
                             Render stDim " to the clipboard"] m) w
      end
  end.
Definition cmdRequests (m : model) (w : World) : Effect := defer m w requests_.
Definition cmdStop (args : list string) (m : model) (w : World) : Effect :=
  match args with
  | [] => done (appendLines [Render stErr "  ✗ usage: " +:+ Render stKey "/stop <id|all>"] m) w
  | target :: _ => defer m w (stop_ target (m_tunnels m))
  end.

Definition pinnable : list string := ["traffic"; "tunnels"; "status"].
Definition cmdPin (args : list string) (m : model) (w : World) : Effect :=
  match args with
  | [] => done (appendLines [Render stErr "  ✗ usage: " +:+ Render stKey "/pin <traffic|tunnels|status>"] m) w
  | a :: _ =>
      let name := ToLower a in
      if negb (bool_decide (name ∈ pinnable)) then
        done (appendLines [Render stErr "  ✗ can't pin " +:+ name +:+
                           Render stDim " — try traffic, tunnels or status"] m) w
      else if bool_decide (name ∈ m_pins m) then
        done (appendLines [Render stDim ("  " +:+ name +:+ " is already pinned")] m) w
      else
        done (appendLines [Render stOK "  ✓ pinned " +:+ Render stKey name +:+ Render stDim " — it stays on screen"]
                (with_pins (m_pins m ++ [name]) m)) w
  end.
Definition cmdUnpin (args : list string) (m : model) (w : World) : Effect :=
  match args with
  | [] => done (appendLines [Render stErr "  ✗ usage: " +:+ Render stKey "/unpin <name|all>"] m) w
  | a :: _ =>
      if EqualFold a "all" then done (appendLines [Render stOK "  ✓ unpinned all"] (with_pins [] m)) w
      else
        let name := ToLower a in
        let found := bool_decide (name ∈ m_pins m) in
        let m := with_pins (filter (λ p, p ≠ name) (m_pins m)) m in
        if found then done (appendLines [Render stOK ("  ✓ unpinned " +:+ name)] m) w
        else done (appendLines [Render stErr ("  ✗ " +:+ name +:+ " isn't pinned")] m) w
  end.

Definition cmdStatus (m : model) (w : World) : Effect :=
  let '(glyph, word, col) := connState m in
  let dot := lipglossFg col (glyph +:+ " " +:+ word) in
  done (appendLines ["  " +:+ dot +:+ Render stDim ("   edge " +:+ firstNonEmpty [st_Edge (m_status m); "—"] +:+ " · " +:+
    firstNonEmpty [st_Kind (m_status m); "—"] +:+ " · " +:+ Itoa (Z.of_nat (length (m_tunnels m))) +:+ " tunnels")] m) w.
Definition cmdWhoami (m : model) (w : World) : Effect :=
  match m_acct m with
  | None =>
      defer (appendLines [Render stDim "  not signed in — " +:+ Render stKey "/login"] m) w
        (fetchAccount (op_APIKey (m_opts m)))
  | Some a =>
      hin ← humanBytes (ac_BytesIn a);
      hout ← humanBytes (ac_BytesOut a);
      done (appendLines
        ["  " +:+ Render stBrand (firstNonEmpty [ac_Name a; ac_Email a; "—"]) +:+
         Render stDim ("   " +:+ firstNonEmpty [ac_Plan a; ac_OrgPlan a; "free"] +:+ " plan");
         Render stDim ("  usage  " +:+ hin +:+ " in · " +:+ hout +:+ " out · " +:+ Itoa (ac_Requests a) +:+ " req (30d)")]
        m) w
  end.
Definition cmdLogin (args : list string) (m : model) (w : World) : Effect :=
  match args with
  | key :: _ => defer (appendLines [Render stDim "  signing in with key…"] m) w (login_ key)
  | [] =>
      if m_loginActive m then done (appendLines [Render stDim "  sign-in already in progress…"] m) w
      else defer (appendLines [Render stDim "  starting browser sign-in…"] m) w oauthStart_
  end.
Definition cmdUpdate (args : list string) (m : model) (w : World) : Effect :=
  let checkOnly := match args with a :: _ => EqualFold a "check" | [] => false end in
  defer (appendLines [Render stDim "  checking for updates…"] m) w
    (update_ checkOnly (op_Version (m_opts m)) (op_OnCheckUpdate (m_opts m)) (op_OnUpdate (m_opts m))).
Definition cmdStart (m : model) (w : World) : Effect :=
  match op_StartSpecs (m_opts m) with
  | [] => done (appendLines [Render stDim "  no tunnels in your config — add some, or use " +:+
                             Render stKey "/http <port>"] m) w
  | specs =>
      defer (appendLines [Render stDim ("  starting " +:+ Itoa (Z.of_nat (length specs)) +:+
                                        " tunnel(s) from config…")] m) w (start_ specs)
  end.
Definition cmdDown (m : model) (w : World) : Effect :=
  defer (appendLines [Render stDim "  stopping the background daemon…"] m) w (Sequence [shutdown_; Quit]).
Definition cmdLogout (m : model) (w : World) : Effect := defer (with_acct None false m) w logout_.
Definition cmdConfig (m : model) (w : World) : Effect :=
  match op_ConfigRows (m_opts m) with
  | [] => done (appendLines [Render stDim "  (no configuration to show)"] m) w
  | rows =>
      done (append_each (λ r, ["  " +:+ Render stDim (pad r.1 12) +:+ r.2]) rows
              (appendLines ["  " +:+ Render stTitle "CONFIG"] m)) w
  end.
Definition cmdSubdomains (args : list string) (m : model) (w : World) : Effect :=
  let base := firstNonEmpty [op_BaseDomain (m_opts m); "trqsh.uz"] in
  match args with
  | sub :: name :: _ =>
      let sub := ToLower sub in
      if String.eqb sub "reserve" || String.eqb sub "add" then defer m w (reserveSub_ (ToLower name) base)
      else if String.eqb sub "release" || String.eqb sub "remove" || String.eqb sub "rm" then defer m w (releaseSub_ name)
      else defer m w (listSubs_ base)
  | _ => defer m w (listSubs_ base)
  end.
Definition cmdDomains (args : list string) (m : model) (w : World) : Effect :=
  match args with
  | sub :: name :: _ =>
      let sub := ToLower sub in
      if String.eqb sub "add" then defer m w (addDomain_ (ToLower name))
      else if String.eqb sub "verify" then defer m w (verifyDomain_ name)
      else defer m w listDomains_
  | _ => defer m w listDomains_
  end.
Definition cmdUninstall (args : list string) (m : model) (w : World) : Effect :=
  match op_OnUninstall (m_opts m) with
  | None => done (appendLines [Render stDim "  uninstall isn't available in this build"] m) w
  | Some f =>
      if match args with a :: _ => EqualFold a "yes" | [] => false end then defer m w (uninstall_ f)
      else done (appendLines
        [Render stWarn "  ⚠ this removes trqsh's local data (config, credentials, cached binaries) and stops tunnels";
         Render stDim "  type " +:+ Render stKey "/uninstall yes" +:+ Render stDim " to confirm"] m) w
  end.
Definition cmdVersion (m : model) (w : World) : Effect :=
  done (appendLines ["  " +:+ Render stBrand "trqsh" +:+ " " +:+ op_Version (m_opts m) +:+
                     Render stDim ("  " +:+ runtimePlatform)] m) w.
Definition cmdClear (m : model) (w : World) : Effect :=
  let banner := renderWelcome m in
  done (with_transcript banner (with_welcomeLen (length banner) m)) w.
Definition cmdQuit (m : model) (w : World) : Effect := defer m w Quit.

(** ** The registry: the handler of a command by name *)
Inductive Handler :=
| HHTTP | HTCP | HUDP | HStart | HLs | HOpen | HQR | HCopy | HStop | HDown | HRequests | HPin | HUnpin | HStatus
| HWhoami | HLogin | HLogout | HSubdomains | HDomains | HConfig | HUpdate | HUninstall | HVersion | HClear | HHelp | HQuit.
Record slashCmd := { sc_name : string; sc_args : string; sc_desc : string; sc_run : Handler }.
Definition sc (name args desc : string) (run : Handler) : slashCmd :=
  {| sc_name := name; sc_args := args; sc_desc := desc; sc_run := run |}.
Definition slashCommands : list slashCmd :=
  [sc "http" "<port>" "Expose a local HTTP port" HHTTP;
   sc "tcp" "<port>" "Expose a local TCP port" HTCP;
   sc "udp" "<port>" "Expose a local UDP port" HUDP;
   sc "start" "" "Start tunnels from your config" HStart;
   sc "ls" "" "List running tunnels" HLs;
   sc "open" "<id>" "Open a tunnel URL in your browser" HOpen;
   sc "qr" "[id|stop]" "Pair this console to your phone (or a tunnel's QR)" HQR;
   sc "copy" "[id]" "Copy a tunnel URL to the clipboard" HCopy;
   sc "stop" "<id|all>" "Stop a tunnel (or all)" HStop;
   sc "down" "" "Stop the background daemon and quit" HDown;
   sc "requests" "" "Show recently captured requests" HRequests;
   sc "pin" "<panel>" "Keep a live panel on screen (traffic/tunnels/status)" HPin;
   sc "unpin" "<panel>" "Remove a pinned panel" HUnpin;
   sc "status" "" "Show connection status" HStatus;
   sc "whoami" "" "Show account, plan and usage" HWhoami;
   sc "login" "[key]" "Sign in via browser (or paste a key)" HLogin;
   sc "logout" "" "Sign out" HLogout;
   sc "subdomains" "[reserve|release]" "Manage reserved subdomains" HSubdomains;
   sc "domains" "[add|verify]" "Manage custom domains" HDomains;
   sc "config" "" "Show configuration" HConfig;
   sc "update" "[check]" "Check for / install a newer trqsh" HUpdate;
   sc "uninstall" "" "Remove trqsh's local data" HUninstall;
   sc "version" "" "Show version" HVersion;
   sc "clear" "" "Clear the transcript" HClear;
   sc "help" "" "Show all commands" HHelp;
   sc "quit" "" "Exit the console" HQuit].

Definition find_command (name : string) : option slashCmd := find_first (λ c, String.eqb (sc_name c) name) slashCommands.
Definition lookupCommand (name : string) : option slashCmd :=
  match find_command name with
  | Some c => Some c
  | None =>
      if String.eqb name "q" || String.eqb name "exit" then find_command "quit"
      else if String.eqb name "list" || String.eqb name "ps" then find_command "ls"
      else if String.eqb name "account" || String.eqb name "me" then find_command "whoami"
      else if String.eqb name "subs" || String.eqb name "subdomain" then find_command "subdomains"
      else if String.eqb name "domain" then find_command "domains"
      else if String.eqb name "?" then find_command "help"
      else None
  end.
Definition parseLine (line : string) : string * list string :=
  match Fields (TrimPrefix (TrimSpace line) "/") with
  | [] => ("", [])
  | f :: fs => (ToLower f, fs)
  end.
Definition remoteBlocked : list string := ["qr"; "login"; "logout"; "uninstall"; "update"; "down"; "quit"].

Definition help_groups : list (string * string * list string) :=
  [("TUNNELS", colBrand, ["http"; "tcp"; "udp"; "start"; "ls"; "open"; "qr"; "copy"; "stop"; "down"; "requests"]);
   ("PANELS", colCyan, ["pin"; "unpin"]);
   ("ACCOUNT", colViolet, ["status"; "whoami"; "login"; "logout"; "subdomains"; "domains"]);
   ("SYSTEM", colAmber, ["config"; "update"; "uninstall"; "version"; "clear"; "help"; "quit"])].
(** [byName], a map: the last row of a name wins. *)
Definition byName (n : string) : slashCmd :=
  default (sc "" "" "" HHelp) (find_first (λ c, String.eqb (sc_name c) n) (reverse slashCommands)).
Definition help_group (m : model) (g : string * string * list string) : model :=
  let '(title, color, names) := g in
  let m := appendLines ["  " +:+ boldFg color title] m in
  let m := append_each (λ n,
    let c := byName n in
    ["    " +:+ lipglossFg color (pad ("/" +:+ sc_name c) 11) +:+ Render stDim (pad (sc_args c) 18) +:+ sc_desc c])
    names m in
  appendLines [""] m.
Definition cmdHelp (m : model) (w : World) : Effect :=
  done (appendLines
    [Render stDim "  tip: " +:+ Render stKey "/" +:+ Render stDim " autocompletes · " +:+ Render stKey "↑↓" +:+
     Render stDim " history · " +:+ Render stKey "/pin traffic" +:+ Render stDim " watches requests live"]
    (foldl help_group m help_groups)) w.

Definition run_handler (h : Handler) (args : list string) (m : model) (w : World) : Effect :=
  match h with
  | HHTTP => startTunnelCmd "http" args m w
  | HTCP => startTunnelCmd "tcp" args m w
  | HUDP => startTunnelCmd "udp" args m w
  | HStart => cmdStart m w
  | HLs => cmdLs m w
  | HOpen => cmdOpen args m w
  | HQR => cmdQR args m w
  | HCopy => cmdCopy args m w
  | HStop => cmdStop args m w
  | HDown => cmdDown m w
  | HRequests => cmdRequests m w
  | HPin => cmdPin args m w
  | HUnpin => cmdUnpin args m w
  | HStatus => cmdStatus m w
  | HWhoami => cmdWhoami m w
  | HLogin => cmdLogin args m w
  | HLogout => cmdLogout m w
  | HSubdomains => cmdSubdomains args m w
  | HDomains => cmdDomains args m w
  | HConfig => cmdConfig m w
  | HUpdate => cmdUpdate args m w
  | HUninstall => cmdUninstall args m w
  | HVersion => cmdVersion m w
  | HClear => cmdClear m w
  | HHelp => cmdHelp m w
  | HQuit => cmdQuit m w
  end.

End commands.
