(* ===== verification/ConsoleLoop.v ===== *)
(** The message loop of the terminal interface (internal/agent/cli/tui/model.go):
    the autocomplete menu, the history, how a line is run whoever typed it, the
    events of the daemon, and [Update].  An index out of range is [None].

    [console_step] is the program with its runtime: the runtime delivers messages
    from outside (keys, window sizes, events of the feed) and runs the pending
    commands in any order, one goroutine each. *)
From S2P Require Import Prelude GoStrings GoText Agent Inspect Remote Console ConsoleCmds.
From Stdlib Require Import Ascii.

Open Scope Z_scope.

Section loop.
Context `{Terminal}.

(** * The autocomplete menu *)
Definition argOptions (m : model) (name : string) : list string :=
  if String.eqb name "pin" then ["traffic"; "tunnels"; "status"]
  else if String.eqb name "unpin" then m_pins m ++ ["all"]
  else [].

Definition command_entry (c : slashCmd) : menuEntry :=
  let takes := negb (String.eqb (sc_args c) "") in
  {| me_insert := ("/" +:+ sc_name c) +:+ (if takes then " " else "");
     me_label := ("/" +:+ sc_name c) +:+ (if takes then " " +:+ sc_args c else "");
     me_desc := sc_desc c; me_run := negb takes |}.
Definition argument_entry (name opt : string) : menuEntry :=
  {| me_insert := "/" +:+ name +:+ " " +:+ opt; me_label := "/" +:+ name +:+ " " +:+ opt; me_desc := ""; me_run := true |}.

(** The menu for an input; [None] when [fields[0]] does not exist. *)
Definition menu_for (m : model) (v : string) : option (list menuEntry) :=
  if negb (HasPrefix v "/") then Some []
  else
    let fields := Fields (drop_string 1 v) in
    let trailingSpace := HasSuffix v " " in
    if (length fields <=? 1)%nat && negb trailingSpace then
      let prefix := match fields with [f] => ToLower f | _ => "" end in
      Some (command_entry <$> filter (λ c, HasPrefix (sc_name c) prefix = true) slashCommands)
    else
      f ← fields !! 0%nat;
      let name := ToLower f in
      let argPrefix :=
        if negb trailingSpace && (2 <=? length fields)%nat
        then ToLower (default "" (fields !! (length fields - 1)%nat)) else "" in
      Some (argument_entry name <$> filter (λ opt, HasPrefix opt argPrefix = true) (argOptions m name)).
Definition refreshMenu (m : model) : option model :=
  let m := with_menu [] 0 m in
  items ← menu_for m (ta_Value (m_input m));
  Some (with_menu items 0 m).

Definition set_input (v : string) (m : model) : model := with_input (ta_SetValue v (m_input m)) m.
Definition cursor_end (m : model) : model := with_input (ta_CursorEnd (m_input m)) m.

Definition acceptMenu (m : model) : option model :=
  if negb (menuOpen m) then Some m
  else
    e ← m_menuItems m !! m_menuIdx m;
    refreshMenu (cursor_end (set_input (me_insert e) m)).

(** * The history *)
Definition historyPrev (m : model) : option model :=
  if (length (m_history m) =? 0)%nat then Some m
  else
    let m := if (0 <? m_historyIdx m)%nat then with_historyIdx (m_historyIdx m - 1) m else m in
    line ← m_history m !! m_historyIdx m;
    refreshMenu (cursor_end (set_input line m)).
Definition historyNext (m : model) : option model :=
  if (length (m_history m) =? 0)%nat then Some m
  else if (m_historyIdx m <? length (m_history m) - 1)%nat then
    let m := with_historyIdx (m_historyIdx m + 1) m in
    line ← m_history m !! m_historyIdx m;
    refreshMenu (cursor_end (set_input line m))
  else refreshMenu (cursor_end (set_input "" (with_historyIdx (length (m_history m)) m))).
Definition pushHistory (line : string) (m : model) : model :=
  let m := if bool_decide (list.last (m_history m) = Some line) then m
           else with_history (m_history m ++ [line]) m in
  with_historyIdx (length (m_history m)) m.

(** * Running a line *)
Definition blocked_line (name : string) : string :=
  Render stWarn "  ⚠ blocked: " +:+ Render stKey ("/" +:+ name) +:+ Render stDim " only runs from the laptop".
Definition echo_lines (line : string) (remote : bool) : list string :=
  [""; Render stKey (if remote then "  📱 " else "  ❯ ") +:+ Render stEcho line].
Definition run (line : string) (remote : bool) (m : model) (w : World) : Effect :=
  let '(name, args) := parseLine line in
  let cmd := lookupCommand name in
  match cmd with
  | Some c =>
      if remote && bool_decide (sc_name c ∈ remoteBlocked)
      then done (relayout (appendLines [blocked_line (sc_name c)] m)) w
      else
        '(m, w, c) ← run_handler (sc_run c) args (appendLines (echo_lines line remote) m) w;
        Some (relayout m, w, c)
  | None =>
      let m := appendLines (echo_lines line remote) m in
      done (relayout (appendLines
        [Render stErr ("  ✗ unknown command: " +:+ name) +:+ Render stDim "   (type /help)"] m)) w
  end.

Definition submit (m : model) (w : World) : Effect :=
  sel ← (if menuOpen m then e ← m_menuItems m !! m_menuIdx m; Some (Some e) else Some None);
  let m := match sel with Some e => cursor_end (set_input (me_insert e) m) | None => m end in
  match sel with
  | Some {| me_run := false |} => m ← refreshMenu m; done (relayout m) w
  | _ =>
      let line := TrimSpace (ta_Value (m_input m)) in
      m ← refreshMenu (set_input "" m);
      if String.eqb line "" then done (relayout m) w
      else run line false (pushHistory line m) w
  end.

(** * Events of the daemon *)
Definition handleRemoteEvent (ev : option RemoteNote) (m : model) (w : World) : Effect :=
  match ev with
  | None => done m w
  | Some ev =>
      if String.eqb (rn_Kind ev) "presence" then
        let m := with_remoteConnected (rn_Connected ev) m in
        done (appendLines [if rn_Connected ev then Render stOK "  ✓ 📱 phone connected"
                           else Render stDim "  📱 phone disconnected"] m) w
      else if String.eqb (rn_Kind ev) "ended" then
        done (appendLines [Render stDim "  📱 pairing ended"] (with_remoteConnected false (with_pairing "" "" m))) w
      else if String.eqb (rn_Kind ev) "command" then run (rn_Command ev) true m w
      else done m w
  end.

Definition maxRequests : nat := 500.
Definition add_request (r : reqRow) (m : model) : model :=
  let rs := m_requests m ++ [r] in
  with_requests (if (maxRequests <? length rs)%nat then drop (length rs - maxRequests) rs else rs) m.
Definition handleEvent (now : Time) (ev : Event) (m : model) (w : World) : Effect :=
  if String.eqb (e_Type ev) "request" then
    match e_Request ev with
    | Some r =>
        done (add_request {| rr_method := cr_Method r; rr_path := cr_Path r; rr_status := cr_Status r;
                             rr_ms := cr_DurationMs r; rr_at := now |} m) w
    | None => done m w
    end
  else if String.eqb (e_Type ev) "status" then
    match e_Status ev with Some st => done (with_status st m) w | None => done m w end
  else if String.eqb (e_Type ev) "error" then
    if String.eqb (e_Err ev) "" then done m w
    else done (appendLines [Render stWarn ("  ⚠ " +:+ e_Err ev)] m) w
  else if String.eqb (e_Type ev) "remote" then handleRemoteEvent (e_Remote ev) m w
  else done m w.

Definition publishRemoteState (m : model) : Cmd :=
  publishRemoteState_ {| rst_Online := st_Connected (m_status m); rst_Edge := st_Edge (m_status m);
    rst_Tunnels := (λ t, {| rt_ID := tn_ID t; rt_PublicURL := tn_PublicURL t; rt_LocalAddr := tn_LocalAddr t;
                            rt_Status := tn_Status t; rt_Requests := tm_Requests (tn_Metrics t) |}) <$> m_tunnels m |}.

(** * Keys *)

(** After Ctrl+A the next key replaces or clears the whole input, or cancels. *)
Definition cancel_selection (k : Key) (m : model) : model :=
  if m_selectAll m then
    let m := with_selectAll false m in
    match k_Type k with
    | KeyRunes | KeySpace | KeyBackspace | KeyDelete => cursor_end (set_input "" m)
    | _ => m
    end
  else m.
(** Ordinary editing. *)
Definition key_edit (k : Key) (m : model) (w : World) : Effect :=
  let '(input, c) := ta_Update (KeyMsg k) (m_input m) in
  let m := with_input input m in
  m ← refreshMenu (with_historyIdx (length (m_history m)) m);
  defer (relayout m) w (Widget c).
(** The keys dispatched by their name; [open] is whether the menu was open. *)
Definition key_named (open : bool) (k : Key) (m : model) (w : World) : Effect :=
  if String.eqb (k_String k) "up" || String.eqb (k_String k) "ctrl+p" then
    if open then
      done (if (0 <? m_menuIdx m)%nat then with_menuIdx (m_menuIdx m - 1) m else m) w
    else m ← historyPrev m; done (relayout m) w
  else if String.eqb (k_String k) "down" || String.eqb (k_String k) "ctrl+n" then
    if open then
      done (if (m_menuIdx m <? length (m_menuItems m) - 1)%nat then with_menuIdx (m_menuIdx m + 1) m else m) w
    else m ← historyNext m; done (relayout m) w
  else if String.eqb (k_String k) "tab" && open then m ← acceptMenu m; done (relayout m) w
  else if String.eqb (k_String k) "esc" && open then m ← refreshMenu (set_input "" m); done (relayout m) w
  else if String.eqb (k_String k) "enter" then submit m w
  else key_edit k m w.
Definition handleKey (k : Key) (m : model) (w : World) : Effect :=
  let open := menuOpen m in
  match k_Type k with
  | KeyCtrlA =>
      if String.eqb (TrimSpace (ta_Value (m_input m))) "" then done m w else done (with_selectAll true m) w
  | KeyCtrlC => defer (with_quitting true (cancel_selection k m)) w Quit
  | KeyPgUp => let m := cancel_selection k m in done (with_vp (vp_HalfPageUp (m_vp m)) m) w
  | KeyPgDown => let m := cancel_selection k m in done (with_vp (vp_HalfPageDown (m_vp m)) m) w
  | KeyEnd => let m := cancel_selection k m in done (with_vp (vp_GotoBottom (m_vp m)) m) w
  | _ => key_named open k (cancel_selection k m) w
  end.

(** * The loop *)

(** The messages that do not return early: the model, and the commands to batch. *)
Definition update_msg (now : Time) (msg : Msg) (m : model) (w : World) : option (model * World * list Cmd) :=
  match msg with
  | TickMsg => Some (m, w, [poll; tickCmd])
  | MascotTickMsg =>
      Some (relayout (refreshWelcome (with_mascotFrame (m_mascotFrame m + 1) m)), w, [mascotTickCmd])
  | DataMsg ts st ok =>
      let m := if ok then with_tunnels ts m else m in
      let m := relayout (refreshWelcome (with_status st m)) in
      Some (m, w, if String.eqb (m_remoteCode m) "" then [] else [publishRemoteState m])
  | AccountMsg acct authed => Some (relayout (refreshWelcome (with_acct acct authed m)), w, [])
  | EventMsg ev => '(m, w, c) ← handleEvent now ev m w; Some (relayout m, w, [c])
  | RemoteStartedMsg code url => Some (renderPairQR url code (with_pairing code url m), w, [])
  | PrintMsg lines => Some (appendLines lines m, w, [])
  | LoginStartedMsg d =>
      let m := with_loginActive true m in
      let url := firstNonEmpty [ds_VerificationURIComplete d; ds_VerificationURI d] in
      let m := appendLines
        ["  " +:+ Render stTitle "Sign in"; "  " +:+ Render stDim "open " +:+ Render stURL url;
         "  " +:+ Render stDim "code " +:+ Render stKey (ds_UserCode d);
         Render stDim "  waiting for approval… (keep using other commands)"] m in
      let '(_, w) := openBrowser url w in
      Some (m, w, [pollLogin (ds_DeviceCode d) (wrap64 (Z.max (ds_Interval d) 2 * Second))])
  | LoginTickMsg code interval => Some (m, w, [pollLogin code interval])
  | LoginDoneMsg ok msg =>
      let m := with_loginActive false m in
      if ok then Some (appendLines [Render stOK "  ✓ signed in"] m, w, [fetchAccount (op_APIKey (m_opts m))])
      else Some (appendLines [Render stErr ("  ✗ sign-in failed: " +:+ msg)] m, w, [])
  | WindowSizeMsg _ _ | KeyMsg _ | QuitMsg | OtherMsg _ => Some (m, w, [])
  end.

(** Lines queued for a paired phone leave in one publication. *)
Definition flush_lines (m : model) : model * list Cmd :=
  match m_pendingRemoteLines m with
  | [] => (m, [])
  | lines => (with_pendingRemoteLines [] m, [publishRemoteLines_ lines])
  end.

Definition window_size (width height : Z) (m : model) (w : World) : Effect :=
  let m := with_size width height true m in
  let m := if m_welcomeShown m then m
           else
             let m := with_welcomeShown true m in
             let banner := renderWelcome m in
             with_transcript (banner ++ m_transcript m) (with_welcomeLen (length banner) m) in
  let m := relayout m in
  if negb (m_initialRan m) && negb (String.eqb (TrimSpace (op_InitialCommand (m_opts m))) "")
  then run (op_InitialCommand (m_opts m)) false (with_initialRan true m) w
  else done m w.

Definition Update (now : Time) (msg : Msg) (m : model) (w : World) : Effect :=
  match msg with
  | WindowSizeMsg width height => window_size width height m w
  | KeyMsg k => handleKey k m w
  | _ =>
      '(m, w, cmds) ← update_msg now msg m w;
      let '(m, flushed) := flush_lines m in
      let '(input, c1) := ta_Update msg (m_input m) in
      let '(vp, c2) := vp_Update msg (m_vp m) in
      Some (with_vp vp (with_input input m), w, Batch (cmds ++ flushed ++ [Widget c1; Widget c2]))
  end.

Definition Init (m : model) : Cmd :=
  Batch [Blink; poll; fetchAccount (op_APIKey (m_opts m)); tickCmd; mascotTickCmd].

(** * The runtime *)
Record console := { co_model : model; co_world : World; co_pending : list Cmd; co_stopped : bool }.

(** Messages that come from the terminal and the feed; [console_step] takes the ones
    that may arrive. *)
Definition external (msg : Msg) : Prop :=
  match msg with
  | WindowSizeMsg _ _ | KeyMsg _ | EventMsg _ | OtherMsg _ => True
  | _ => False
  end.
Definition start_console (opts : Options) (w : World) : console :=
  let m := newModel opts (newClient (op_Addr opts) (op_Token opts)) in
  {| co_model := m; co_world := w; co_pending := [Init m]; co_stopped := false |}.

(** What a goroutine of the runtime runs as it is. *)
Definition leaf (c : Cmd) : bool := match c with Batch _ | Sequence _ => false | _ => true end.

(** [picked p x rest]: the runtime takes [x] of the pending commands [p], a member of
    them or the head of a sequence, which leaves [rest]. *)
Inductive picked (p : list Cmd) (x : Cmd) : list Cmd → Prop :=
| picked_cmd l1 l2 : p = l1 ++ x :: l2 → leaf x = true → picked p x (l1 ++ l2)
| picked_seq l1 l l2 : p = l1 ++ Sequence (x :: l) :: l2 → leaf x = true → picked p x (l1 ++ Sequence l :: l2).

Inductive console_step (allowed : Msg → Prop) : console → console → Prop :=
| cs_external c now msg m w cmd :
    co_stopped c = false → allowed msg →
    Update now msg (co_model c) (co_world c) = Some (m, w, cmd) →
    console_step allowed c {| co_model := m; co_world := w; co_pending := co_pending c ++ [cmd]; co_stopped := false |}
| cs_batch c l1 l l2 :
    co_stopped c = false → co_pending c = l1 ++ Batch l :: l2 →
    console_step allowed c {| co_model := co_model c; co_world := co_world c; co_pending := l1 ++ l ++ l2; co_stopped := false |}
| cs_silent c x rest w :
    co_stopped c = false → picked (co_pending c) x rest →
    exec (m_cl (co_model c)) x (co_world c) = (None, w) →
    console_step allowed c {| co_model := co_model c; co_world := w; co_pending := rest; co_stopped := false |}
| cs_quit c x rest w :
    co_stopped c = false → picked (co_pending c) x rest →
    exec (m_cl (co_model c)) x (co_world c) = (Some QuitMsg, w) →
    console_step allowed c {| co_model := co_model c; co_world := w; co_pending := rest; co_stopped := true |}
| cs_msg c x rest now msg w m w' cmd :
    co_stopped c = false → picked (co_pending c) x rest →
    exec (m_cl (co_model c)) x (co_world c) = (Some msg, w) → msg ≠ QuitMsg →
    Update now msg (co_model c) w = Some (m, w', cmd) →
    console_step allowed c {| co_model := m; co_world := w'; co_pending := rest ++ [cmd]; co_stopped := false |}.

Inductive console_reach (opts : Options) (w0 : World) : console → Prop :=
| cr_start : console_reach opts w0 (start_console opts w0)
| cr_step c c' : console_reach opts w0 c → console_step external c c' → console_reach opts w0 c'.

End loop.
