(* ===== verification/ConsoleInv.v ===== *)
(** The invariant of the terminal interface: what its handlers and its loop do to the
    model ([handled], [ok]), and that only one input makes the loop panic. *)
From S2P Require Import Prelude GoStrings GoText Agent Inspect Remote Console ConsoleCmds ConsoleLoop.
From Stdlib Require Import Ascii.

Open Scope Z_scope.

#[local] Arguments String.eqb : simpl never.
#[local] Arguments appendLines : simpl never.
#[local] Arguments append_each : simpl never.
#[local] Arguments help_groups : simpl never.
#[local] Arguments relayout : simpl never.
#[local] Arguments renderWelcome : simpl never.

(** * What a handler does to the model *)
Section effects.
Context `{Terminal}.

(** [appended ls m m']: [m'] is [m] after the lines [ls], queued for the phone too
    when one is paired. *)
Definition mirrored (m : model) (ls : list string) : list string :=
  if String.eqb (m_remoteCode m) "" then [] else Strip <$> ls.
Definition appended (ls : list string) (m m' : model) : Prop :=
  ∃ v, m' = with_vp v (with_pendingRemoteLines (m_pendingRemoteLines m ++ mirrored m ls)
                         (with_transcript (m_transcript m ++ ls) m)).

Lemma model_eta (m : model) : with_vp (m_vp m) (with_pendingRemoteLines (m_pendingRemoteLines m)
  (with_transcript (m_transcript m) m)) = m.
Proof. by destruct m. Qed.

Lemma appended_nil m : appended [] m m.
Proof.
  exists (m_vp m). unfold mirrored. case_match; cbn; rewrite !app_nil_r; by rewrite model_eta.
Qed.
Lemma appended_append ls m : appended ls m (appendLines ls m).
Proof.
  unfold appended, appendLines, mirrored. cbn [m_remoteCode with_transcript].
  destruct (String.eqb (m_remoteCode m) "") eqn:E; cbn; case_match;
    (eexists; rewrite ?app_nil_r; by destruct m).
Qed.
Lemma appended_trans ls1 ls2 m1 m2 m3 :
  appended ls1 m1 m2 → appended ls2 m2 m3 → appended (ls1 ++ ls2) m1 m3.
Proof.
  intros [v1 ->] [v2 ->]. exists v2. unfold mirrored. cbn.
  case_match; rewrite ?fmap_app, ?app_nil_r, <- ?app_assoc; reflexivity.
Qed.
Lemma appended_fold {A} (f : A → list string) l m :
  appended (concat (f <$> l)) m (append_each f l m).
Proof.
  unfold append_each. revert m; induction l as [|x l IH]; intros m; cbn; [apply appended_nil|].
  eapply appended_trans; [apply appended_append|apply IH].
Qed.

(** The size of the widgets is all that a new layout changes. *)
Definition laid_out (m m' : model) : Prop := ∃ i v, m' = with_vp v (with_input i m).
Lemma laid_out_relayout m : laid_out m (relayout m).
Proof.
  unfold relayout. case_match.
  - exists (m_input m), (m_vp m). by destruct m.
  - eexists _, _. reflexivity.
Qed.

Definition pins_ok (m : model) : Prop := NoDup (m_pins m) ∧ (∀ p, p ∈ m_pins m → p ∈ pinnable).

(** The outcomes of the command handlers. *)
Inductive cmd_effect (m m' : model) : Prop :=
| ce_print ls : appended ls m m' → cmd_effect m m'
| ce_pins p ls : pins_ok (with_pins p m) → appended ls (with_pins p m) m' → cmd_effect m m'
| ce_logout : m' = with_acct None false m → cmd_effect m m'
| ce_clear : m' = with_transcript (renderWelcome m) (with_welcomeLen (length (renderWelcome m)) m) → cmd_effect m m'.

Lemma ce_append ls m : cmd_effect m (appendLines ls m).
Proof. eapply ce_print, appended_append. Qed.
Lemma ce_same m : cmd_effect m m.
Proof. eapply ce_print, appended_nil. Qed.

(** ** Which deferred work touches the session of whoever sits at the laptop
    [key]: the key the console was started with, which [fetchAccount] presents to the daemon. *)
Fixpoint clean (key : string) (c : Cmd) : bool :=
  match c with
  | fetchAccount k => String.eqb k key
  | Quit | remoteStart_ | remoteStop_ | login_ _ | oauthStart_ | pollLogin _ _ | update_ _ _ _ _ | shutdown_
  | logout_ | uninstall_ _ => false
  | Batch l | Sequence l => forallb (clean key) l
  | _ => true
  end.

(** The transcript lines a command sends to a paired phone. *)
Fixpoint published (c : Cmd) : list string :=
  match c with
  | publishRemoteLines_ lines => lines
  | Batch l | Sequence l => flat_map published l
  | _ => []
  end.

Definition guarded (h : Handler) : bool :=
  match h with HQR | HLogin | HLogout | HUninstall | HUpdate | HDown | HQuit => true | _ => false end.

Lemma help_groups_appended m gs : ∃ ls, appended ls m (foldl help_group m gs).
Proof.
  revert m; induction gs as [|[[title color] names] gs IH]; intros m; [exists []; apply appended_nil|].
  cbn [foldl]. destruct (IH (help_group m (title, color, names))) as [ls Hls].
  eexists. eapply appended_trans; [|exact Hls]. cbn [help_group].
  eapply appended_trans; [apply appended_append|eapply appended_trans; [eapply appended_fold|apply appended_append]].
Qed.

Lemma pin_ok m name : pins_ok m → name ∈ pinnable → name ∉ m_pins m → pins_ok (with_pins (m_pins m ++ [name]) m).
Proof.
  intros [Hnd Hin] Hp Hnew. split; cbn.
  - apply list.NoDup_app. split; [done|]. split; [|apply NoDup_singleton].
    intros x Hx Hx'%list_elem_of_singleton. by subst.
  - intros p [?|Hx%list_elem_of_singleton]%elem_of_app; subst; auto.
Qed.
Lemma unpin_ok m name : pins_ok m → pins_ok (with_pins (filter (λ p, p ≠ name) (m_pins m)) m).
Proof.
  intros [Hnd Hin]. split; cbn; [by apply list.NoDup_filter|]. intros p [_ ?]%list_elem_of_filter. auto.
Qed.

(** [handled g m e]: a handler prints, changes the pins, signs out or clears the
    screen; one that is not guarded leaves the account alone and defers only
    [clean] work. *)
Definition outcome (g : bool) (m m' : model) (c : Cmd) : Prop :=
  cmd_effect m m' ∧ published c = [] ∧
  (g = false → clean (op_APIKey (m_opts m)) c = true ∧ m_acct m' = m_acct m ∧ m_authed m' = m_authed m).
Definition handled (g : bool) (m : model) (e : Effect) : Prop :=
  match e with Some (m', _, c) => outcome g m m' c | None => True end.

Lemma appended_account ls m m' : appended ls m m' → m_acct m' = m_acct m ∧ m_authed m' = m_authed m.
Proof. by intros [v ->]. Qed.

Lemma handled_print g ls m m' w c :
  appended ls m m' → published c = [] → (g = false → clean (op_APIKey (m_opts m)) c = true) → handled g m (defer m' w c).
Proof.
  intros Ha Hq Hc. split; [by eapply ce_print|]. split; [done|]. intros Hg. split; [auto|by eapply appended_account].
Qed.
Lemma handled_lines g ls m w c :
  published c = [] → (g = false → clean (op_APIKey (m_opts m)) c = true) → handled g m (defer (appendLines ls m) w c).
Proof. apply handled_print with ls, appended_append. Qed.
Lemma handled_silent g m w c : published c = [] → (g = false → clean (op_APIKey (m_opts m)) c = true) → handled g m (defer m w c).
Proof. apply handled_print with [], appended_nil. Qed.
Lemma handled_done g ls m w : handled g m (done (appendLines ls m) w).
Proof. by apply handled_lines. Qed.
Lemma handled_panic g m : handled g m None.
Proof. done. Qed.
Lemma handled_pins g p ls m w : pins_ok (with_pins p m) → handled g m (done (appendLines ls (with_pins p m)) w).
Proof.
  intros Hp. split; [by eapply ce_pins, appended_append|]. split; [done|]. intros _.
  by destruct (appended_account _ _ _ (appended_append ls (with_pins p m))) as [-> ->].
Qed.

Lemma handled_logout m w : handled true m (cmdLogout m w).
Proof. split; [by apply ce_logout|done]. Qed.
Lemma handled_clear g m w : handled g m (cmdClear m w).
Proof. split; [by apply ce_clear|done]. Qed.
#[local] Opaque handled.

Ltac handler := repeat case_match;
  first [done | apply handled_done | (apply handled_lines; done) | (apply handled_silent; done)].

Lemma handled_startTunnel g proto args m w : handled g m (startTunnelCmd proto args m w).
Proof. unfold startTunnelCmd. handler. Qed.
Lemma handled_start g m w : handled g m (cmdStart m w).
Proof. unfold cmdStart. handler. Qed.
Lemma handled_ls g m w : handled g m (cmdLs m w).
Proof. unfold cmdLs. case_match; [handler|]. by eapply handled_print; [apply appended_fold|..]. Qed.
Lemma handled_open g args m w : handled g m (cmdOpen args m w).
Proof. unfold cmdOpen. handler. Qed.
Lemma handled_copy g args m w : handled g m (cmdCopy args m w).
Proof. unfold cmdCopy. handler. Qed.
Lemma handled_qr args m w : handled true m (cmdQR args m w).
Proof.
  unfold cmdQR, cmdQRPair, cmdQRStop, cmdQRTunnel, append_qr.
  repeat case_match; try (first [apply handled_done|by apply handled_lines]).
  by eapply handled_print; [eapply appended_trans; [apply appended_append|apply appended_fold]|..].
Qed.
Lemma handled_stop g args m w : handled g m (cmdStop args m w).
Proof. unfold cmdStop. handler. Qed.
Lemma handled_pin g args m w : pins_ok m → handled g m (cmdPin args m w).
Proof.
  intros Hp. unfold cmdPin. repeat case_match; try apply handled_done.
  apply handled_pins, pin_ok; [done| |by eapply bool_decide_eq_false].
  apply negb_false_iff in H1. by apply bool_decide_eq_true in H1.
Qed.
Lemma handled_unpin g args m w : pins_ok m → handled g m (cmdUnpin args m w).
Proof.
  intros Hp. unfold cmdUnpin. repeat case_match; try apply handled_done; apply handled_pins.
  - split; [constructor|]. by intros p ?%not_elem_of_nil.
  - by apply unpin_ok.
  - by apply unpin_ok.
Qed.
Lemma handled_status g m w : handled g m (cmdStatus m w).
Proof. unfold cmdStatus. handler. Qed.
Lemma handled_whoami g m w : handled g m (cmdWhoami m w).
Proof.
  unfold cmdWhoami. case_match; [|apply handled_lines; [done|intros _; cbn; apply String.eqb_refl]].
  destruct (humanBytes (ac_BytesIn _)), (humanBytes (ac_BytesOut _));
    cbn [mbind option_bind]; first [apply handled_panic|apply handled_done].
Qed.
Lemma handled_login args m w : handled true m (cmdLogin args m w).
Proof. unfold cmdLogin. handler. Qed.
Lemma handled_subdomains g args m w : handled g m (cmdSubdomains args m w).
Proof. unfold cmdSubdomains. handler. Qed.
Lemma handled_domains g args m w : handled g m (cmdDomains args m w).
Proof. unfold cmdDomains. handler. Qed.
Lemma handled_config g m w : handled g m (cmdConfig m w).
Proof.
  unfold cmdConfig. case_match; [handler|].
  by eapply handled_print; [eapply appended_trans; [apply appended_append|apply appended_fold]|..].
Qed.
Lemma handled_update args m w : handled true m (cmdUpdate args m w).
Proof. unfold cmdUpdate. by apply handled_lines. Qed.
Lemma handled_uninstall args m w : handled true m (cmdUninstall args m w).
Proof. unfold cmdUninstall. handler. Qed.
Lemma handled_help g m w : handled g m (cmdHelp m w).
Proof.
  unfold cmdHelp. destruct (help_groups_appended m help_groups) as [ls Hls].
  by eapply handled_print; [eapply appended_trans; [exact Hls|apply appended_append]|..].
Qed.

Lemma run_handler_handled h args m w : pins_ok m → handled (guarded h) m (run_handler h args m w).
Proof.
  intros Hp. destruct h; cbn [guarded run_handler];
    auto using handled_startTunnel, handled_start, handled_ls, handled_open, handled_qr, handled_copy, handled_stop,
      handled_pin, handled_unpin, handled_status, handled_whoami, handled_login, handled_logout, handled_subdomains,
      handled_domains, handled_config, handled_update, handled_uninstall, handled_clear, handled_help, handled_done.
  all: first [by apply handled_lines|by apply handled_silent].
Qed.
End effects.

(** * The invariant of the loop, and what it prints *)
Section invariant.
Context `{Terminal}.

(** The text area's [SetValue]: short printable text is taken as it is, and so is
    text that came out of a text area and was trimmed. *)
Definition printable (a : ascii) : bool := in_range 32 126 a.
Class TextLaws := {
  value_set : ∀ v t, (String.length v <= 240)%nat → all_chars printable v = true → ta_Value (ta_SetValue v t) = v;
  value_set_back : ∀ t t', ta_Value (ta_SetValue (TrimSpace (ta_Value t')) t) = TrimSpace (ta_Value t');
  value_cursor_end : ∀ t, ta_Value (ta_CursorEnd t) = ta_Value t;
}.
Context `{TextLaws}.

(** Everything the menu ever inserts. *)
Definition inserts : list string :=
  ((λ c, me_insert (command_entry c)) <$> slashCommands) ++
  ["/pin traffic"; "/pin tunnels"; "/pin status"; "/unpin traffic"; "/unpin tunnels"; "/unpin status"; "/unpin all"].

Definition acct_ok (a : option account) : Prop :=
  match a with Some a => in64 (ac_BytesIn a) ∧ in64 (ac_BytesOut a) | None => True end.

Record wf (m : model) : Prop := mkWf {
  wf_menu : (m_menuIdx m < Nat.max 1 (length (m_menuItems m)))%nat;
  wf_hist : (m_historyIdx m <= length (m_history m))%nat;
  wf_pins : pins_ok m;
  wf_reqs : (length (m_requests m) <= maxRequests)%nat;
  wf_banner : (m_welcomeLen m <= length (m_transcript m))%nat;
  wf_acct : acct_ok (m_acct m);
  wf_inserts : ∀ e, e ∈ m_menuItems m → me_insert e ∈ inserts;
  wf_lines : ∀ line, line ∈ m_history m → ∃ t, line = TrimSpace (ta_Value t);
}.

(** The transcript below the banner. *)
Definition body (m : model) : list string := drop (m_welcomeLen m) (m_transcript m).

(** [printed m m']: the lines [ls] were printed below the banner, unless the screen
    was cleared in between, and all of them are queued for a paired phone. *)
Definition printed (m m' : model) : Prop :=
  ∃ ls, (body m' = body m ++ ls ∨ body m' `suffix_of` ls) ∧
        m_pendingRemoteLines m' = m_pendingRemoteLines m ++ mirrored m ls ∧
        m_remoteCode m' = m_remoteCode m.

Definition ok (m m' : model) : Prop := wf m → wf m' ∧ printed m m' ∧ m_opts m' = m_opts m ∧ m_cl m' = m_cl m.

Lemma mirrored_app m ls1 ls2 : mirrored m (ls1 ++ ls2) = mirrored m ls1 ++ mirrored m ls2.
Proof. unfold mirrored. case_match; [done|apply fmap_app]. Qed.
Lemma mirrored_nil m : mirrored m [] = [].
Proof. unfold mirrored. by case_match. Qed.

Lemma printed_same m m' :
  m_transcript m' = m_transcript m → m_welcomeLen m' = m_welcomeLen m →
  m_pendingRemoteLines m' = m_pendingRemoteLines m → m_remoteCode m' = m_remoteCode m → printed m m'.
Proof.
  intros Ht Hw Hp Hc. exists []. unfold body. rewrite mirrored_nil, !app_nil_r, Ht, Hw. eauto.
Qed.
Lemma printed_trans m1 m2 m3 : printed m1 m2 → printed m2 m3 → printed m1 m3.
Proof.
  intros (l1 & Hb1 & Hp1 & Hc1) (l2 & Hb2 & Hp2 & Hc2). exists (l1 ++ l2). split; [|split].
  - destruct Hb2 as [->|Hs]; [destruct Hb1 as [->|[k ->]]|].
    + left. by rewrite app_assoc.
    + right. exists k. by rewrite app_assoc.
    + right. by apply suffix_app_r.
  - rewrite Hp2, Hp1, mirrored_app, <- app_assoc. unfold mirrored at 2. rewrite Hc1. done.
  - by rewrite Hc2.
Qed.

#[global] Instance ok_preorder : PreOrder ok.
Proof.
  split.
  - intros m Hwf. split; [done|]. split; [by apply printed_same|done].
  - intros m1 m2 m3 H12 H23 Hwf. destruct (H12 Hwf) as (W2 & P2 & O2 & C2). destruct (H23 W2) as (W3 & P3 & O3 & C3).
    split; [done|]. split; [by eapply printed_trans|]. by rewrite O3, C3.
Qed.

(** Updates of fields that neither the invariant nor the transcript reads. *)
Lemma ok_inert m m' :
  m_menuIdx m' = m_menuIdx m → m_menuItems m' = m_menuItems m → m_historyIdx m' = m_historyIdx m →
  m_history m' = m_history m → m_pins m' = m_pins m → m_requests m' = m_requests m →
  m_welcomeLen m' = m_welcomeLen m → m_transcript m' = m_transcript m → m_acct m' = m_acct m →
  m_pendingRemoteLines m' = m_pendingRemoteLines m → m_remoteCode m' = m_remoteCode m →
  m_opts m' = m_opts m → m_cl m' = m_cl m → ok m m'.
Proof.
  intros E1 E2 E3 E4 E5 E6 E7 E8 E9 E10 E11 E12 E13 [W1 W2 W3 W4 W5 W6 W7 W8]. split.
  - constructor; unfold pins_ok in *; rewrite ?E1, ?E2, ?E3, ?E4, ?E5, ?E6, ?E7, ?E8, ?E9; done.
  - split; [by apply printed_same|done].
Qed.

Lemma ok_appended ls m m' : appended ls m m' → ok m m'.
Proof.
  intros [v ->] [W1 W2 W3 W4 W5 W6 W7 W8]. split.
  - constructor; cbn; try done. rewrite length_app. lia.
  - split; [|done]. exists ls. split; [left|done]. unfold body. cbn. by rewrite drop_app_le by lia.
Qed.
Lemma ok_append ls m : ok m (appendLines ls m).
Proof. eapply ok_appended, appended_append. Qed.
Lemma ok_relayout m : ok m (relayout m).
Proof. destruct (laid_out_relayout m) as (i & v & ->). by apply ok_inert. Qed.

Lemma ok_effect m m' : cmd_effect m m' → ok m m'.
Proof.
  intros [ls Ha|p ls Hp Ha| ->| ->].
  - by eapply ok_appended.
  - trans (with_pins p m); [|by eapply ok_appended]. intros [W1 W2 W3 W4 W5 W6 W7 W8].
    split; [by constructor|]. split; [by apply printed_same|done].
  - intros [W1 W2 W3 W4 W5 W6 W7 W8]. split; [by constructor|]. split; [by apply printed_same|done].
  - intros [W1 W2 W3 W4 W5 W6 W7 W8]. split; [by constructor|]. split; [|done].
    exists []. rewrite mirrored_nil, !app_nil_r. split; [right|done]. unfold body. cbn. by rewrite drop_all.
Qed.

Lemma ok_refreshWelcome m : ok m (refreshWelcome m).
Proof.
  unfold refreshWelcome. case_match; [reflexivity|]. intros [W1 W2 W3 W4 W5 W6 W7 W8]. split.
  - constructor; cbn; try done. rewrite length_app. lia.
  - split; [|done]. exists []. rewrite mirrored_nil, !app_nil_r. split; [left|done].
    unfold body. cbn. by rewrite drop_app_length.
Qed.
Lemma ok_acct a b m : acct_ok a → ok m (with_acct a b m).
Proof. intros Ha [W1 W2 W3 W4 W5 W6 W7 W8]. split; [by constructor|]. split; [by apply printed_same|done]. Qed.
Lemma ok_menu items m : (wf m → ∀ e, e ∈ items → me_insert e ∈ inserts) → ok m (with_menu items 0 m).
Proof. intros Hi Hwf. specialize (Hi Hwf). revert Hwf. intros [W1 W2 W3 W4 W5 W6 W7 W8]. split; [constructor; cbn; try done; lia|]. split; [by apply printed_same|done]. Qed.
Lemma ok_menuIdx i m : (i < Nat.max 1 (length (m_menuItems m)))%nat → ok m (with_menuIdx i m).
Proof. intros Hi [W1 W2 W3 W4 W5 W6 W7 W8]. split; [by constructor|]. split; [by apply printed_same|done]. Qed.
Lemma ok_historyIdx i m : (i <= length (m_history m))%nat → ok m (with_historyIdx i m).
Proof. intros Hi [W1 W2 W3 W4 W5 W6 W7 W8]. split; [by constructor|]. split; [by apply printed_same|done]. Qed.
Lemma ok_pushHistory t m : ok m (pushHistory (TrimSpace (ta_Value t)) m).
Proof.
  intros [W1 W2 W3 W4 W5 W6 W7 W8]. unfold pushHistory. case_match;
    (split; [constructor; cbn; try done|split; [by apply printed_same|done]]).
  intros line [?|Hl%list_elem_of_singleton]%elem_of_app; eauto.
Qed.
Lemma ok_add_request r m : ok m (add_request r m).
Proof.
  intros [W1 W2 W3 W4 W5 W6 W7 W8]. unfold add_request.
  split; [constructor; cbn; try done|split; [by apply printed_same|done]].
  case_match; [rewrite length_drop|]; unfold maxRequests in *; [lia|]. by apply Nat.ltb_ge.
Qed.
Lemma ok_set_input v m : ok m (set_input v m).
Proof. by apply ok_inert. Qed.
Lemma ok_cursor_end m : ok m (cursor_end m).
Proof. by apply ok_inert. Qed.

(** ** The one input that panics *)

(** A slash and blanks, the last one a space. *)
Definition blank_command (v : string) : Prop :=
  HasPrefix v "/" = true ∧ HasSuffix v " " = true ∧ all_chars is_space (drop_string 1 v) = true.

Lemma menu_for_panics m v : menu_for m v = None ↔ blank_command v.
Proof.
  unfold menu_for, blank_command. rewrite <- Fields_nil.
  destruct (HasPrefix v "/"); [|split; [done|by intros [? _]]].
  destruct (HasSuffix v " "), (Fields (drop_string 1 v)) as [|f [|f' fs]];
    cbn [andb negb length Nat.leb mbind option_bind lookup list_lookup];
    (split; [try done|by intros (_ & ? & ?)]).
Qed.
Ltac find_elem := repeat (apply elem_of_cons; first [by left|right]).
Lemma menu_for_inserts m v items : pins_ok m → menu_for m v = Some items → ∀ e, e ∈ items → me_insert e ∈ inserts.
Proof.
  intros [_ Hp] Hm e He. unfold menu_for in Hm. unfold inserts.
  destruct (HasPrefix v "/"); cbn [negb] in Hm; [|simplify_eq; by apply not_elem_of_nil in He]. case_match.
  - simplify_eq. apply list_elem_of_fmap in He as (c & -> & [_ Hc]%list_elem_of_filter).
    apply elem_of_app. left. apply list_elem_of_fmap. eauto.
  - destruct (Fields _ !! 0%nat) as [f|]; [|done]. cbn [mbind option_bind] in Hm. simplify_eq.
    apply list_elem_of_fmap in He as (o & -> & [_ Ho]%list_elem_of_filter).
    apply elem_of_app. right. unfold argOptions in Ho. cbn [me_insert argument_entry].
    destruct (String.eqb (ToLower f) "pin") eqn:E1; [apply String.eqb_eq in E1; rewrite E1|
      destruct (String.eqb (ToLower f) "unpin") eqn:E2; [apply String.eqb_eq in E2; rewrite E2|by apply not_elem_of_nil in Ho]].
    + repeat (apply elem_of_cons in Ho as [->|Ho]; [by find_elem|]). by apply not_elem_of_nil in Ho.
    + apply elem_of_app in Ho as [Ho%Hp|Ho%list_elem_of_singleton]; [|subst; by find_elem]. unfold pinnable in Ho.
      repeat (apply elem_of_cons in Ho as [->|Ho]; [by find_elem|]). by apply not_elem_of_nil in Ho.
Qed.
Lemma ok_refresh m m' : refreshMenu m = Some m' → ok m m'.
Proof.
  unfold refreshMenu. destruct (menu_for _ _) as [items|] eqn:E; [|done]. cbn. intros [= <-].
  replace (with_menu items 0 (with_menu [] 0 m)) with (with_menu items 0 m) by by destruct m.
  apply ok_menu. intros Hwf. eapply menu_for_inserts; [|exact E]. exact (wf_pins _ Hwf).
Qed.
Lemma refresh_panics m : refreshMenu m = None ↔ blank_command (ta_Value (m_input m)).
Proof.
  unfold refreshMenu. rewrite <- (menu_for_panics (with_menu [] 0 m)).
  change (m_input (with_menu [] 0 m)) with (m_input m).
  by destruct (menu_for (with_menu [] 0 m) (ta_Value (m_input m))).
Qed.

(** Text that the program sets itself is no such input. *)
Lemma forallb_elem {A} (f : A → bool) l : forallb f l = true → ∀ x, x ∈ l → f x = true.
Proof.
  induction l as [|y l IH]; cbn; intros Hf x Hx; [by apply not_elem_of_nil in Hx|].
  apply andb_prop in Hf as [Hy Hl]. apply elem_of_cons in Hx as [->|Hx]; [done|by apply IH].
Qed.
Lemma inserts_printable v : v ∈ inserts → (String.length v <= 240)%nat ∧ all_chars printable v = true.
Proof.
  intros Hv. apply (forallb_elem (λ v, (String.length v <=? 240)%nat && all_chars printable v)) in Hv; [|by vm_compute].
  apply andb_prop in Hv as [Hl Hp]. split; [by apply Nat.leb_le|done].
Qed.
Lemma inserts_not_blank v : v ∈ inserts → ¬ blank_command v.
Proof.
  intros Hv (_ & _ & Hb).
  apply (forallb_elem (λ v, negb (all_chars is_space (drop_string 1 v)))) in Hv; [|by vm_compute]. by rewrite Hb in Hv.
Qed.
(** The program sets an input to: nothing, a line of the menu, a line of the history. *)
Lemma value_end v m : ta_Value (m_input (cursor_end (set_input v m))) = ta_Value (ta_SetValue v (m_input m)).
Proof. apply value_cursor_end. Qed.
Lemma empty_not_blank t : ¬ blank_command (ta_Value (ta_SetValue "" t)).
Proof. rewrite value_set by (cbn; done || lia). by intros [? _]. Qed.
Lemma insert_not_blank v t : v ∈ inserts → ¬ blank_command (ta_Value (ta_SetValue v t)).
Proof. intros Hv. destruct (inserts_printable v Hv). rewrite value_set by done. by apply inserts_not_blank. Qed.
Lemma line_not_blank t t' : ¬ blank_command (ta_Value (ta_SetValue (TrimSpace (ta_Value t')) t)).
Proof. rewrite value_set_back. intros (_ & Hs & _). by rewrite TrimSpace_end in Hs. Qed.

(** [safe P m e]: from a well-formed model the step ends in a well-formed one, having
    printed as [printed] says; a panic means [P]. *)
Definition safe_model (P : Prop) (m : model) (r : option model) : Prop :=
  wf m → match r with Some m' => ok m m' | None => P end.
Definition safe (P : Prop) (m : model) (e : Effect) : Prop :=
  wf m → match e with Some (m', _, c) => ok m m' ∧ published c = [] | None => P end.

Lemma safe_refresh P m m' : ok m m' → (blank_command (ta_Value (m_input m')) → P) → safe_model P m (refreshMenu m').
Proof.
  intros Hok Hb Hwf. destruct (refreshMenu m') as [m''|] eqn:E.
  - etrans; [done|]. by apply ok_refresh.
  - by apply Hb, refresh_panics.
Qed.
Lemma safe_done P m m' w : ok m m' → safe P m (done m' w).
Proof. done. Qed.
Lemma safe_defer P m m' w c : ok m m' → published c = [] → safe P m (defer m' w c).
Proof. done. Qed.
Lemma safe_weaken (P Q : Prop) m e : (P → Q) → safe P m e → safe Q m e.
Proof. intros HPQ Hs Hwf. specialize (Hs Hwf). destruct e; auto. Qed.
(** A panic-free prefix, from [m1] to [m2], in front of the rest. *)
Lemma safe_after P m1 m2 e : ok m1 m2 → safe P m2 e → safe P m1 e.
Proof.
  intros Hok Hs Hwf. destruct (Hok Hwf) as [Hwf2 _]. specialize (Hs Hwf2).
  destruct e as [[[m' w] c]|]; [|done]. destruct Hs. split; [by trans m2|done].
Qed.
Lemma safe_seq P m r (k : model → Effect) :
  safe_model P m r → (∀ m', ok m m' → safe P m' (k m')) → safe P m (m' ← r; k m').
Proof.
  intros Hs Hk Hwf. specialize (Hs Hwf). destruct r as [m'|]; [|done]. cbn.
  exact (safe_after P m m' _ Hs (Hk m' Hs) Hwf).
Qed.
Lemma safe_bind P m r w (c : Cmd) :
  safe_model P m r → published c = [] → safe P m (m' ← r; defer (relayout m') w c).
Proof. intros Hs Hc. apply safe_seq; [done|]. intros m' _. by apply safe_defer; [apply ok_relayout|]. Qed.

(** ** Byte counts *)
Lemma human_loop_spec k x div e : 0 <= x < 1024 ^ (Z.of_nat k + 1) → 0 < div →
  div * 1024 ^ Z.of_nat k < 2 ^ 63 →
  ∃ j, (j <= k)%nat ∧ human_loop (S k) x div e = Some (div * 1024 ^ Z.of_nat j, (e + j)%nat) ∧
       1024 ^ Z.of_nat j <= Z.max 1 x < 1024 ^ (Z.of_nat j + 1).
Proof.
  revert x div e. induction k as [|k IH]; intros x div e Hx Hd Hfit.
  - exists 0%nat. cbn [human_loop]. change (Z.of_nat 0) with 0 in *. rewrite Z.pow_0_r in *.
    destruct (1024 <=? x) eqn:E; [apply Z.leb_le in E; lia|].
    split; [lia|]. rewrite Z.mul_1_r, Nat.add_0_r. split; [done|lia].
  - cbn [human_loop]. destruct (1024 <=? x) eqn:E; [apply Z.leb_le in E|apply Z.leb_gt in E].
    + assert (Hp : 1024 ^ (Z.of_nat (S k) + 1) = 1024 ^ (Z.of_nat k + 1) * 1024)
        by (rewrite Nat2Z.inj_succ, Z.add_succ_l, Z.pow_succ_r by lia; lia).
      assert (Hq : 1024 ^ Z.of_nat (S k) = 1024 ^ Z.of_nat k * 1024)
        by (rewrite Nat2Z.inj_succ, Z.pow_succ_r by lia; lia).
      assert (Hpos : 0 < 1024 ^ Z.of_nat k) by (apply Z.pow_pos_nonneg; lia).
      assert (Hw : wrap64 (div * 1024) = div * 1024) by (apply wrap64_id; unfold in64; nia).
      rewrite Hw. destruct (IH (x / 1024) (div * 1024) (S e)) as (j & Hj & Hl & Hr1 & Hr2).
      * split; [apply Z.div_pos; lia|]. apply Z.div_lt_upper_bound; lia.
      * lia.
      * lia.
      * exists (S j). change (human_loop (S k) (x / 1024) (div * 1024) (S e) = Some (div * 1024 * 1024 ^ Z.of_nat j, (S e + j)%nat)) in Hl.
        split; [lia|]. split.
        { etrans; [exact Hl|]. rewrite Nat2Z.inj_succ, Z.pow_succ_r by lia. f_equal; f_equal; [ring|lia]. }
        assert (1 <= x / 1024) by (apply Z.div_le_lower_bound; lia).
        assert (H1024 : 1024 * (x / 1024) <= x < 1024 * (x / 1024) + 1024)
          by (pose proof (Z.div_mod x 1024 ltac:(lia)); pose proof (Z.mod_pos_bound x 1024 ltac:(lia)); lia).
        rewrite Nat2Z.inj_succ. replace (Z.succ (Z.of_nat j) + 1) with (Z.succ (Z.of_nat j + 1)) by lia.
        rewrite !Z.pow_succ_r by lia. rewrite Z.max_r in * by lia. lia.
    + exists 0%nat. split; [lia|]. rewrite Nat.add_0_r. change (Z.of_nat 0) with 0. rewrite Z.mul_1_r. split; [done|]. lia.
Qed.

Lemma humanBytes_spec n : 1024 <= n < 2 ^ 63 →
  ∃ j u, units !! j = Some u ∧ humanBytes n = Some (fmt_f1 (float64_of_int n) (1024 ^ (Z.of_nat j + 1)) +:+ " " +:+ u +:+ "B") ∧
         1024 ^ (Z.of_nat j + 1) <= n < 1024 ^ (Z.of_nat j + 2).
Proof.
  intros Hn. unfold humanBytes. destruct (n <? 1024) eqn:E; [apply Z.ltb_lt in E; lia|].
  destruct (human_loop_spec 5 (n / 1024) 1024 0) as (j & Hj & Hl & Hr1 & Hr2); [|lia|by vm_compute|].
  { split; [apply Z.div_pos; lia|]. apply Z.div_lt_upper_bound; [lia|]. etrans; [apply Hn|by vm_compute]. }
  rewrite Hl. cbn [mbind option_bind Nat.add].
  assert (1 <= n / 1024) by (apply Z.div_le_lower_bound; lia).
  assert (H1024 : 1024 * (n / 1024) <= n < 1024 * (n / 1024) + 1024)
    by (pose proof (Z.div_mod n 1024 ltac:(lia)); pose proof (Z.mod_pos_bound n 1024 ltac:(lia)); lia).
  rewrite Z.max_r in Hr1, Hr2 by lia.
  assert (Hb : 1024 ^ (Z.of_nat j + 1) <= n < 1024 ^ (Z.of_nat j + 2)).
  { replace (Z.of_nat j + 2) with (Z.succ (Z.of_nat j + 1)) by lia. rewrite (Z.pow_succ_r _ (Z.of_nat j + 1)) by lia.
    rewrite Z.add_1_r in *. rewrite Z.pow_succ_r in * by lia. lia. }
  destruct (units !! j) as [u|] eqn:Eu.
  - exists j, u. split; [done|]. split; [|done]. cbn. repeat f_equal.
    rewrite Z.add_1_r, Z.pow_succ_r by lia. done.
  - apply lookup_ge_None in Eu. cbn in Eu. lia.
Qed.
Lemma humanBytes_total n : in64 n → is_Some (humanBytes n).
Proof.
  intros [_ Hn]. destruct (Z.lt_ge_cases n 1024) as [Hl|Hl].
  - unfold humanBytes. apply Z.ltb_lt in Hl as ->. by eexists.
  - destruct (humanBytes_spec n) as (j & u & _ & -> & _); [lia|]. by eexists.
Qed.

Lemma run_handler_total h args m w : acct_ok (m_acct m) → is_Some (run_handler h args m w).
Proof.
  intros Ha. destruct h; cbn [run_handler];
    unfold startTunnelCmd, cmdStart, cmdLs, cmdOpen, cmdQR, cmdQRPair, cmdQRStop, cmdQRTunnel, cmdCopy, cmdStop, cmdDown,
      cmdRequests, cmdPin, cmdUnpin, cmdStatus, cmdLogin, cmdLogout, cmdSubdomains, cmdDomains, cmdConfig,
      cmdUpdate, cmdUninstall, cmdVersion, cmdClear, cmdHelp, cmdQuit, done, defer;
    repeat case_match; try by eexists.
  unfold cmdWhoami. destruct (m_acct m) as [a|]; [|by eexists]. destruct Ha as [Hi Ho].
  destruct (humanBytes_total _ Hi) as [i ->], (humanBytes_total _ Ho) as [o ->]. by eexists.
Qed.

(** ** Lines, keys and events *)
Lemma safe_run P line remote m w : safe P m (run line remote m w).
Proof.
  unfold run. destruct (parseLine line) as [name args]. destruct (lookupCommand name) as [c|].
  - case_match.
    + apply safe_done. etrans; [apply ok_append|apply ok_relayout].
    + eapply safe_after; [apply (ok_append (echo_lines line remote))|].
      set (m1 := appendLines _ m).
      intros Hwf. pose proof (run_handler_handled (sc_run c) args m1 w (wf_pins _ Hwf)) as Hh.
      destruct (run_handler_total (sc_run c) args m1 w (wf_acct _ Hwf)) as [[[m' w'] c'] E].
      rewrite E in *. destruct Hh as (He & Hq & _). cbn. split; [|done].
      etrans; [by apply ok_effect|apply ok_relayout].
  - apply safe_done. etrans; [apply ok_append|]. etrans; [apply ok_append|apply ok_relayout].
Qed.

Lemma menu_lookup m : wf m → menuOpen m = true → is_Some (m_menuItems m !! m_menuIdx m).
Proof.
  intros Hwf Ho. apply lookup_lt_is_Some. pose proof (wf_menu _ Hwf). unfold menuOpen in Ho.
  apply Nat.ltb_lt in Ho. lia.
Qed.
Lemma safe_model_after P m1 m2 r : ok m1 m2 → safe_model P m2 r → safe_model P m1 r.
Proof.
  intros Hok Hs Hwf. destruct (Hok Hwf) as [Hwf2 _]. specialize (Hs Hwf2). destruct r; [|done]. by trans m2.
Qed.
Lemma ok_input v m : ok m (cursor_end (set_input v m)).
Proof. etrans; [apply ok_set_input|apply ok_cursor_end]. Qed.
Lemma safe_cleared P m : safe_model P m (refreshMenu (set_input "" m)).
Proof. apply safe_refresh; [apply ok_set_input|]. intros Hb. by apply empty_not_blank in Hb. Qed.
(** Recalling a line of the history. *)
Lemma safe_recall P line m : (wf m → line ∈ m_history m) → safe_model P m (refreshMenu (cursor_end (set_input line m))).
Proof.
  intros Hin Hwf. destruct (wf_lines _ Hwf line (Hin Hwf)) as [t ->].
  refine (safe_refresh P m _ (ok_input _ m) _ Hwf). rewrite value_end. intros Hb. by apply line_not_blank in Hb.
Qed.
Lemma safe_inserted P e m : (wf m → e ∈ m_menuItems m) → safe_model P m (refreshMenu (cursor_end (set_input (me_insert e) m))).
Proof.
  intros Hin Hwf. refine (safe_refresh P m _ (ok_input _ m) _ Hwf). rewrite value_end. intros Hb.
  apply insert_not_blank in Hb; [done|]. apply (wf_inserts _ Hwf), Hin, Hwf.
Qed.

Lemma safe_acceptMenu P m : safe_model P m (acceptMenu m).
Proof.
  intros Hwf. unfold acceptMenu. destruct (menuOpen m) eqn:Ho; [|by cbn].
  destruct (menu_lookup m Hwf Ho) as [e He]. cbn [negb]. rewrite He. cbn [mbind option_bind].
  refine (safe_inserted P e m _ Hwf). intros _. by eapply list_elem_of_lookup_2.
Qed.
Lemma safe_historyPrev P m : safe_model P m (historyPrev m).
Proof.
  unfold historyPrev. case_match eqn:E; [by intros _; cbn|]. apply Nat.eqb_neq in E.
  set (m1 := if (0 <? m_historyIdx m)%nat then _ else m).
  intros Hwf. pose proof (wf_hist _ Hwf) as Hh.
  assert (Hok : ok m m1) by (subst m1; case_match; [apply ok_historyIdx; lia|reflexivity]).
  assert (Hl : is_Some (m_history m1 !! m_historyIdx m1)).
  { apply lookup_lt_is_Some. subst m1. case_match eqn:E2; cbn; [apply Nat.ltb_lt in E2|apply Nat.ltb_ge in E2]; lia. }
  destruct Hl as [line Hl]. rewrite Hl. cbn. refine (safe_model_after P _ _ _ Hok (safe_recall P _ _ _) Hwf).
  intros _. by eapply list_elem_of_lookup_2.
Qed.
Lemma safe_historyNext P m : safe_model P m (historyNext m).
Proof.
  unfold historyNext. case_match eqn:E; [by intros _; cbn|]. apply Nat.eqb_neq in E. case_match eqn:E2.
  - apply Nat.ltb_lt in E2. eapply safe_model_after; [apply (ok_historyIdx (m_historyIdx m + 1)); lia|].
    destruct (lookup_lt_is_Some_2 (m_history m) (m_historyIdx m + 1)) as [line Hl]; [lia|].
    cbn. rewrite Hl. cbn. apply safe_recall. intros _. by eapply list_elem_of_lookup_2.
  - eapply safe_model_after; [apply (ok_historyIdx (length (m_history m))); lia|].
    apply safe_refresh; [apply ok_input|]. rewrite value_end. intros Hb. by apply empty_not_blank in Hb.
Qed.

Definition submit_line (m : model) (w : World) : Effect :=
  let line := TrimSpace (ta_Value (m_input m)) in
  m ← refreshMenu (set_input "" m);
  if String.eqb line "" then done (relayout m) w
  else run line false (pushHistory line m) w.
Lemma safe_submit_line P m w : safe P m (submit_line m w).
Proof.
  apply safe_seq; [apply safe_cleared|]. intros m' _.
  case_match; [apply safe_done, ok_relayout|]. eapply safe_after; [apply ok_pushHistory|apply safe_run].
Qed.
Lemma safe_submit P m w : safe P m (submit m w).
Proof.
  intros Hwf. unfold submit. destruct (menuOpen m) eqn:Ho; [|exact (safe_submit_line P m w Hwf)].
  destruct (menu_lookup m Hwf Ho) as [e He]. rewrite He. cbn [mbind option_bind].
  assert (Hin : e ∈ m_menuItems m) by by eapply list_elem_of_lookup_2.
  destruct e as [ins lab desc []]; cbn [me_insert] in *.
  - exact (safe_after P _ _ _ (ok_input ins m) (safe_submit_line P _ w) Hwf).
  - refine (safe_bind P m _ w NoCmd _ eq_refl Hwf). by apply (safe_inserted P (Build_menuEntry ins lab desc false)).
Qed.

Lemma ok_cancel k m : ok m (cancel_selection k m).
Proof. unfold cancel_selection. repeat case_match; by apply ok_inert. Qed.
(** Only an edit can leave the blank command in the input, and it panics exactly then. *)
Definition edit_panics (k : Key) (m : model) : Prop :=
  blank_command (ta_Value (ta_Update (KeyMsg k) (m_input (cancel_selection k m))).1).
Lemma key_edit_panics k m w :
  key_edit k m w = None ↔ blank_command (ta_Value (ta_Update (KeyMsg k) (m_input m)).1).
Proof.
  unfold key_edit. destruct (ta_Update (KeyMsg k) (m_input m)) as [i c]. cbn [fst].
  rewrite <- (refresh_panics (with_historyIdx (length (m_history m)) (with_input i m))).
  destruct (refreshMenu _); cbn; done.
Qed.
Lemma safe_edit k m w : safe (blank_command (ta_Value (ta_Update (KeyMsg k) (m_input m)).1)) m (key_edit k m w).
Proof.
  unfold key_edit. destruct (ta_Update (KeyMsg k) (m_input m)) as [i c]. apply safe_bind; [|done].
  apply safe_refresh; [|done]. trans (with_input i m); [by apply ok_inert|by apply ok_historyIdx].
Qed.
Lemma safe_named open k m w :
  safe (blank_command (ta_Value (ta_Update (KeyMsg k) (m_input m)).1)) m (key_named open k m w).
Proof.
  unfold key_named. repeat case_match;
    try (by apply safe_bind; auto using safe_historyPrev, safe_historyNext, safe_acceptMenu, safe_cleared);
    auto using safe_submit, safe_edit.
  - intros Hwf. pose proof (wf_menu _ Hwf). revert Hwf. apply safe_done, ok_menuIdx. lia.
  - by apply safe_done.
  - apply safe_done, ok_menuIdx. match goal with E : (_ <? _)%nat = true |- _ => apply Nat.ltb_lt in E; lia end.
  - by apply safe_done.
Qed.
Lemma safe_handleKey k m w : safe (edit_panics k m) m (handleKey k m w).
Proof.
  unfold handleKey. destruct (k_Type k).
  all: try (eapply safe_after; [apply (ok_cancel k)|]; first [apply safe_named|apply safe_defer; [by apply ok_inert|done]]).
  case_match; by apply safe_done, ok_inert.
Qed.

(** [place_banner]: the first window size puts the banner in front. *)
Definition place_banner (m : model) : model :=
  let m := with_welcomeShown true m in
  with_transcript (renderWelcome m ++ m_transcript m) (with_welcomeLen (length (renderWelcome m)) m).
Lemma wf_place_banner m : wf m → wf (place_banner m).
Proof. intros [W1 W2 W3 W4 W5 W6 W7 W8]. constructor; cbn; try done. rewrite length_app. lia. Qed.
Lemma ok_place_banner m : m_welcomeLen m = 0%nat → ok m (place_banner m).
Proof.
  intros E Hwf. split; [by apply wf_place_banner|]. split; [|done]. exists [].
  rewrite mirrored_nil, !app_nil_r. split; [left|done]. unfold body. rewrite E. cbn. by rewrite drop_app_length.
Qed.

Definition sized (width height : Z) (m : model) : model :=
  let m := with_size width height true m in if m_welcomeShown m then m else place_banner m.
Lemma safe_window_rest P m w :
  safe P m (let m := relayout m in
    if negb (m_initialRan m) && negb (String.eqb (TrimSpace (op_InitialCommand (m_opts m))) "")
    then run (op_InitialCommand (m_opts m)) false (with_initialRan true m) w else done m w).
Proof.
  cbn zeta. case_match; [|apply safe_done, ok_relayout].
  eapply safe_after; [|apply safe_run]. etrans; [apply ok_relayout|by apply ok_inert].
Qed.
Lemma safe_window P width height m w : m_welcomeShown m = true ∨ m_welcomeLen m = 0%nat →
  safe P m (window_size width height m w).
Proof.
  intros Hw. eapply safe_after; [|apply (safe_window_rest P (sized width height m))].
  trans (with_size width height true m); [by apply ok_inert|].
  unfold sized. cbn. destruct Hw as [->|Hw]; [reflexivity|]. case_match; [reflexivity|by apply ok_place_banner].
Qed.

(** [keeps m e]: the invariant alone, for the updates that pair, unpair or place the banner. *)
Definition keeps (P : Prop) (m : model) (e : Effect) : Prop :=
  wf m → match e with Some (m', _, _) => wf m' ∧ m_opts m' = m_opts m ∧ m_cl m' = m_cl m | None => P end.
Lemma safe_keeps P m m1 e : (wf m → wf m1) → m_opts m1 = m_opts m → m_cl m1 = m_cl m → safe P m1 e → keeps P m e.
Proof.
  intros Hw Ho Hc Hs Hwf. specialize (Hs (Hw Hwf)). destruct e as [[[m' w] c]|]; [|done].
  destruct Hs as [Hok _]. destruct (Hok (Hw Hwf)) as (? & _ & E1 & E2). by rewrite E1, E2.
Qed.
Lemma keeps_window P width height m w : keeps P m (window_size width height m w).
Proof.
  eapply (safe_keeps P m (sized width height m)); [| | |apply safe_window_rest].
  - intros Hwf. assert (wf (with_size width height true m)) by by (destruct Hwf; constructor).
    unfold sized. case_match; [done|by apply wf_place_banner].
  - unfold sized. by case_match.
  - unfold sized. by case_match.
Qed.
Lemma wf_pairing code url m : wf m → wf (with_pairing code url m).
Proof. intros [W1 W2 W3 W4 W5 W6 W7 W8]. by constructor. Qed.

(** ** Events *)
Definition ends_pairing (ev : Event) : bool :=
  String.eqb (e_Type ev) "remote" &&
  match e_Remote ev with Some n => String.eqb (rn_Kind n) "ended" | None => false end.

Lemma safe_remote P ev m w :
  match ev with Some n => String.eqb (rn_Kind n) "ended" = false | None => True end →
  safe P m (handleRemoteEvent ev m w).
Proof.
  intros Hne. unfold handleRemoteEvent. destruct ev as [n|]; [|by apply safe_done]. rewrite Hne.
  destruct (String.eqb (rn_Kind n) "presence"); [|case_match; [apply safe_run|by apply safe_done]].
  apply safe_done. trans (with_remoteConnected (rn_Connected n) m); [by apply ok_inert|apply ok_append].
Qed.
Lemma safe_event P now ev m w : ends_pairing ev = false → safe P m (handleEvent now ev m w).
Proof.
  intros Hne. unfold handleEvent. unfold ends_pairing in Hne.
  destruct (String.eqb (e_Type ev) "request"); [|destruct (String.eqb (e_Type ev) "status");
    [|destruct (String.eqb (e_Type ev) "error"); [|destruct (String.eqb (e_Type ev) "remote")]]].
  - destruct (e_Request ev); apply safe_done; [apply ok_add_request|reflexivity].
  - destruct (e_Status ev); apply safe_done; [by apply ok_inert|reflexivity].
  - destruct (String.eqb (e_Err ev) ""); apply safe_done; [reflexivity|apply ok_append].
  - apply safe_remote. by destruct (e_Remote ev).
  - by apply safe_done.
Qed.
Lemma keeps_event P now ev m w : keeps P m (handleEvent now ev m w).
Proof.
  destruct (ends_pairing ev) eqn:E; [|by eapply safe_keeps, safe_event].
  unfold ends_pairing in E. apply andb_prop in E as [E1 E2]. apply String.eqb_eq in E1.
  destruct (e_Remote ev) as [n|] eqn:En; [|done]. apply String.eqb_eq in E2.
  unfold handleEvent. rewrite E1. cbn. unfold handleRemoteEvent. rewrite En, E2. cbn.
  eapply (safe_keeps P m (with_remoteConnected false (with_pairing "" "" m))); [| | |apply safe_done, ok_append]; try done.
  intros Hwf. apply (ok_inert (with_pairing "" "" m)); try done. by apply wf_pairing.
Qed.

End invariant.
