(* ===== verification/ConsoleSafety.v ===== *)
(** The terminal interface, proved: what a paired phone can do and what it sees, that
    the loop keeps its invariant and panics on one kind of input only, and what fits
    on the screen. *)
From S2P Require Import Prelude GoStrings GoText Agent Inspect Remote Console ConsoleCmds ConsoleLoop ConsoleInv.
From Stdlib Require Import Ascii.

Open Scope Z_scope.

#[local] Arguments String.eqb : simpl never.
#[local] Arguments appendLines : simpl never.
#[local] Arguments append_each : simpl never.
#[local] Arguments relayout : simpl never.
#[local] Arguments renderWelcome : simpl never.

Section theorems.
Context `{Terminal} `{!TextLaws}.

(** Usage is decoded into int64 fields. *)
Definition UsageInt64 : Prop := ∀ s, acct_ok (Some (fst (dec_Account s))).

(** * Messages of deferred work *)
Definition msg_from (x : Cmd) (msg : Msg) : Prop :=
  match msg with
  | AccountMsg a _ => acct_ok a
  | LoginStartedMsg _ | LoginTickMsg _ _ | LoginDoneMsg _ _ | RemoteStartedMsg _ _ | QuitMsg => ∀ key, clean key x = false
  | EventMsg _ | KeyMsg _ | WindowSizeMsg _ _ => False
  | _ => True
  end.
Definition sends (x : Cmd) (r : option Msg * World) : Prop :=
  match r.1 with Some msg => msg_from x msg | None => True end.

Lemma do_account c w a w' : UsageInt64 → client_me c w = (Ok a, w') → acct_ok (Some a).
Proof.
  intros Hu. unfold client_me. destruct (client_do _ _ _ _ _ _ _) as [[x [e|]] w1] eqn:E; [done|]. intros [= <- _].
  unfold client_do in E. destruct (Exchange _ _) as [[[code data]|e] w2]; [|done].
  repeat case_match; try done; injection E as E1 E2.
  - specialize (Hu data). by rewrite E1 in Hu.
  - subst. by vm_compute.
Qed.

Lemma exec_sends c x w : UsageInt64 → sends x (exec c x w).
Proof.
  intros Hu. destruct x; cbn [exec];
    unfold exec_poll, exec_pollLogin, exec_startTunnel, exec_remoteStart, exec_requests, exec_stop, exec_login,
      exec_oauthStart, exec_update, exec_reserveSub, exec_releaseSub, exec_listSubs, exec_addDomain, exec_verifyDomain,
      exec_listDomains, exec_uninstall; try (repeat case_match; first [exact I|intros ?; exact eq_refl]).
  - by destruct (client_tunnels c w) as [[ts err] w1], (client_status c w1) as [[st e] w2].
  - unfold exec_fetchAccount. destruct (client_me _ _) as [[a|e] w'] eqn:E; cbn; [|done]. by eapply do_account.
  - by destruct (client_oauthPoll c deviceCode w) as [[[[] p]|e] w1].
Qed.

(** * The loop *)
Definition msg_ok (msg : Msg) : Prop := match msg with AccountMsg a _ => acct_ok a | _ => True end.
Definition pairs (msg : Msg) : bool :=
  match msg with RemoteStartedMsg _ _ => true | EventMsg ev => ends_pairing ev | _ => false end.

Definition safe_list (m : model) (r : option (model * World * list Cmd)) : Prop :=
  wf m → match r with Some (m', _, cs) => ok m m' ∧ flat_map published cs = [] | None => False end.
Lemma update_msg_safe now msg m w : msg_ok msg → pairs msg = false → safe_list m (update_msg now msg m w).
Proof.
  intros Hm Hp Hwf. destruct msg; cbn [update_msg]; try (by split).
  - split; [|done]. trans (with_mascotFrame (m_mascotFrame m + 1) m); [by apply ok_inert|].
    etrans; [apply ok_refreshWelcome|apply ok_relayout].
  - split; [|by case_match]. trans (with_status status (if ok then with_tunnels tunnels m else m)).
    { destruct ok; by apply ok_inert. }
    etrans; [apply ok_refreshWelcome|apply ok_relayout].
  - split; [|done]. etrans; [by apply ok_acct|]. etrans; [apply ok_refreshWelcome|apply ok_relayout].
  - pose proof (safe_event False now ev m w Hp Hwf) as Hs. destruct (handleEvent now ev m w) as [[[m' w'] c]|]; [|done].
    destruct Hs as [Ho Hc]. cbn. rewrite Hc. split; [|done]. etrans; [done|apply ok_relayout].
  - split; [apply ok_append|done].
  - destruct (openBrowser _ w) as [e w']. split; [|done]. trans (with_loginActive true m); [by apply ok_inert|apply ok_append].
  - destruct ok; (split; [|done]); (trans (with_loginActive false m); [by apply ok_inert|apply ok_append]).
Qed.
Lemma update_msg_keeps now msg m w : msg_ok msg → wf m →
  match update_msg now msg m w with
  | Some (m', _, _) => wf m' ∧ m_opts m' = m_opts m ∧ m_cl m' = m_cl m
  | None => False
  end.
Proof.
  intros Hm Hwf. destruct (pairs msg) eqn:Hp.
  - destruct msg; try done; cbn [update_msg].
    + pose proof (keeps_event False now ev m w Hwf) as Hk. destruct (handleEvent now ev m w) as [[[m' w'] c]|]; [|done].
      cbn. destruct Hk as (W & E1 & E2). destruct (ok_relayout m' W) as (W' & _ & E3 & E4). by rewrite E3, E4.
    + set (m1 := with_pairing code url m).
      assert (Ho : ok m1 (renderPairQR url code m1)).
      { unfold renderPairQR, append_qr. etrans; [apply ok_append|]. etrans; [eapply ok_appended, appended_fold|apply ok_append]. }
      destruct (Ho (wf_pairing code url m Hwf)) as (W & _ & E1 & E2). by rewrite E1, E2.
  - pose proof (update_msg_safe now msg m w Hm Hp Hwf) as Hs.
    destruct (update_msg now msg m w) as [[[m' w'] cs]|]; [|done]. destruct Hs as [Ho _].
    by destruct (Ho Hwf) as (? & _ & ? & ?).
Qed.

(** Delivering the queued lines and the message to the widgets. *)
Definition settle (msg : Msg) (m : model) : model :=
  with_vp (vp_Update msg (m_vp m)).1 (with_input (ta_Update msg (m_input m)).1 (with_pendingRemoteLines [] m)).
Definition settled (msg : Msg) (cmds : list Cmd) (m : model) (w : World) : Effect :=
  let '(m, flushed) := flush_lines m in
  let '(input, c1) := ta_Update msg (m_input m) in
  let '(vp, c2) := vp_Update msg (m_vp m) in
  Some (with_vp vp (with_input input m), w, Batch (cmds ++ flushed ++ [Widget c1; Widget c2])).
Lemma settle_flush msg m w cmds :
  settled msg cmds m w =
  Some (settle msg m, w, Batch (cmds ++ (flush_lines m).2 ++
    [Widget (ta_Update msg (m_input m)).2; Widget (vp_Update msg (m_vp m)).2])).
Proof.
  unfold settled, settle, flush_lines. destruct (m_pendingRemoteLines m) eqn:E; cbn.
  - destruct (ta_Update msg (m_input m)), (vp_Update msg (m_vp m)); cbn. by rewrite <- E; destruct m.
  - by destruct (ta_Update msg (m_input m)), (vp_Update msg (m_vp m)).
Qed.
Lemma wf_settle msg m : wf m → wf (settle msg m).
Proof. intros [W1 W2 W3 W4 W5 W6]. by constructor. Qed.

(** What makes [Update] panic: a key that leaves a blank command in the input. *)
Definition panics (msg : Msg) (m : model) : Prop := match msg with KeyMsg k => edit_panics k m | _ => False end.

Lemma Update_keeps now msg m w : msg_ok msg → keeps (panics msg m) m (Update now msg m w).
Proof.
  intros Hm Hwf.
  assert (Hgen : match ('(m, w, cmds) ← update_msg now msg m w; settled msg cmds m w) with
    | Some (m', _, _) => wf m' ∧ m_opts m' = m_opts m ∧ m_cl m' = m_cl m
    | None => False end).
  { pose proof (update_msg_keeps now msg m w Hm Hwf) as Hk.
    destruct (update_msg now msg m w) as [[[m' w'] cs]|]; [|done]. cbn. rewrite settle_flush.
    destruct Hk as (W & E1 & E2). by split; [apply wf_settle|]. }
  destruct msg; cbn [Update]; try exact Hgen.
  - by apply keeps_window.
  - eapply safe_keeps; [done..|apply safe_handleKey|done].
Qed.

(** The keys that edit the input: none of those the console dispatches itself. *)
Definition key_plain (k : Key) : Prop :=
  (k_Type k = KeyRunes ∨ k_Type k = KeySpace ∨ k_Type k = KeyBackspace ∨ k_Type k = KeyDelete ∨ k_Type k = KeyOther) ∧
  k_String k ∉ ["up"; "ctrl+p"; "down"; "ctrl+n"; "tab"; "esc"; "enter"].
Lemma plain_key_panics k m w : key_plain k → edit_panics k m → handleKey k m w = None.
Proof.
  intros [Ht Hs] Hp. rewrite !not_elem_of_cons in Hs. destruct Hs as (S1 & S2 & S3 & S4 & S5 & S6 & S7 & _).
  apply String.eqb_neq in S1, S2, S3, S4, S5, S6, S7.
  assert (He : handleKey k m w = key_edit k (cancel_selection k m) w).
  { unfold handleKey. destruct Ht as [E|[E|[E|[E|E]]]]; rewrite E; unfold key_named; by rewrite S1, S2, S3, S4, S5, S6, S7. }
  rewrite He. by apply key_edit_panics.
Qed.

Lemma wf_start opts w : wf (co_model (start_console opts w)).
Proof. constructor; cbn; try done; try lia. split; [constructor|]. all: by intros ? ?%not_elem_of_nil. Qed.

Lemma console_step_wf allowed c c' : UsageInt64 → (∀ msg, allowed msg → external msg) → console_step allowed c c' →
  wf (co_model c) → wf (co_model c') ∧ m_opts (co_model c') = m_opts (co_model c).
Proof.
  intros Hu Hext Hs Hwf. destruct Hs as [c now msg m w cmd _ He HU|c l1 l l2 _ _|c x rest w _ _ _|c x rest w _ _ _|
    c x rest now msg w m w' cmd _ _ Hx _ HU]; cbn; try done.
  - assert (Hm : msg_ok msg) by by apply Hext in He; destruct msg.
    pose proof (Update_keeps now msg _ (co_world c) Hm Hwf) as Hk. rewrite HU in Hk. naive_solver.
  - assert (Hm : msg_ok msg).
    { pose proof (exec_sends (m_cl (co_model c)) x (co_world c) Hu) as Hx'. rewrite Hx in Hx'. by destruct msg. }
    pose proof (Update_keeps now msg _ w Hm Hwf) as Hk. rewrite HU in Hk. naive_solver.
Qed.

(** C27: the console keeps its invariant: in every state that keys, window sizes, events
    of the daemon and the answers to its own requests can lead to, the highlighted
    menu row exists, the history cursor is within the history, panels are pinned once
    and are panels, at most 500 requests are kept and the banner is a prefix of the
    transcript; the next message is handled without an index out of range, unless it
    is an editing key that leaves a slash followed by nothing but blanks, the last one
    a space, and then the console panics. *)
Theorem console_invariant opts w0 c :
  UsageInt64 → console_reach opts w0 c →
  wf (co_model c) ∧
  (∀ now msg w, msg_ok msg → Update now msg (co_model c) w = None → panics msg (co_model c)) ∧
  (∀ now k w, key_plain k → edit_panics k (co_model c) → Update now (KeyMsg k) (co_model c) w = None).
Proof.
  intros Hu Hr. assert (Hwf : wf (co_model c)).
  { induction Hr as [|c c' _ IH Hs]; [apply wf_start|]. by eapply (console_step_wf external). }
  split; [done|]. split.
  - intros now msg w Hm HU. pose proof (Update_keeps now msg _ w Hm Hwf) as Hk. by rewrite HU in Hk.
  - intros now k w Hk Hp. cbn [Update]. by apply plain_key_panics.
Qed.

(** * A paired phone *)

(** Requests to the daemon that a phone may cause: no sign-out, shutdown, browser sign-in,
    or start or end of a pairing; and a sign-in only with the key the console was started with. *)
Definition guarded_paths : list string :=
  ["/logout"; "/shutdown"; "/login/oauth/start"; "/login/oauth/poll"; "/remote/start"; "/remote/stop"].
Definition allowed_request (key : string) (cl : client) (r : hreq) : Prop :=
  (∀ p, p ∈ guarded_paths → hq_url r ≠ client_url cl p) ∧
  (hq_url r = client_url cl "/login" → hq_body r = Some (JToken key) ∧ key ≠ "").
(** What a phone may do to the outside: such requests, opening a browser and writing the clipboard. *)
Inductive touched (key : string) (cl : client) : World → World → Prop :=
| t_same w : touched key cl w w
| t_request w w' r : touched key cl w w' → allowed_request key cl r → touched key cl w (Exchange r w').2
| t_browser w w' url : touched key cl w w' → touched key cl w (openBrowser url w').2
| t_clipboard w w' text : touched key cl w w' → touched key cl w (WriteAll text w').2.
#[local] Instance touched_preorder key cl : PreOrder (touched key cl).
Proof.
  split; [constructor|]. intros w1 w2 w3 Ha Hb. revert Ha. induction Hb; intros Ha; [done|apply t_request|apply t_browser|apply t_clipboard]; auto.
Qed.

Lemma url_inj cl p q : client_url cl p = client_url cl q → p = q.
Proof. unfold client_url. intros E. do 2 apply (inj (String.append _)) in E. done. Qed.
(** The path decides. *)
Lemma allowed_path key cl r p : hq_url r = client_url cl p → p ∉ guarded_paths → p ≠ "/login" → allowed_request key cl r.
Proof.
  intros Hu Hp Hl. split.
  - intros q Hq E. rewrite Hu in E. apply url_inj in E. by subst.
  - intros E. rewrite Hu in E. by apply url_inj in E.
Qed.
Lemma touched_do {A} key (zero : A) dec cl method path body w :
  path ∉ guarded_paths → (path = "/login" → body = Some (JToken key) ∧ key ≠ "") →
  touched key cl w (client_do zero dec cl method path body w).2.
Proof.
  intros Hp Hl. unfold client_do. set (r := client_req cl method path body).
  assert (Hr : touched key cl w (Exchange r w).2).
  { apply t_request; [constructor|]. split.
    - intros q Hq E. apply url_inj in E. by subst.
    - intros E%url_inj. by apply Hl. }
  destruct (Exchange r w) as [[[code data]|e] w1]; [|done]. cbn [snd] in Hr. destruct (negb _); [|by destruct (negb _)].
  destruct (dec_error data) as [e bad]. by destruct (_ && _).
Qed.

(** What a phone must not change. *)
Definition undisturbed (m m' : model) : Prop :=
  m_loginActive m' = m_loginActive m ∧ m_quitting m' = m_quitting m ∧ m_opts m' = m_opts m ∧ m_cl m' = m_cl m ∧
  m_initialRan m' = m_initialRan m ∧ m_history m' = m_history m ∧
  (m_remoteCode m' = m_remoteCode m ∨ m_remoteCode m' = "").
#[local] Instance undisturbed_preorder : PreOrder undisturbed.
Proof. split; [intros m; unfold undisturbed; tauto|]. unfold undisturbed. intros m1 m2 m3. intuition congruence. Qed.

Lemma undisturbed_appended ls m m' : appended ls m m' → undisturbed m m'.
Proof. intros [v ->]. unfold undisturbed. cbn. tauto. Qed.
Lemma undisturbed_append ls m : undisturbed m (appendLines ls m).
Proof. eapply undisturbed_appended, appended_append. Qed.
Lemma undisturbed_relayout m : undisturbed m (relayout m).
Proof. destruct (laid_out_relayout m) as (i & v & ->). unfold undisturbed. cbn. tauto. Qed.
Lemma undisturbed_welcome m : undisturbed m (refreshWelcome m).
Proof. unfold refreshWelcome, undisturbed. case_match; cbn; tauto. Qed.
Lemma undisturbed_effect m m' : cmd_effect m m' → undisturbed m m'.
Proof.
  intros [ls Ha|p ls _ Ha| ->| ->]; [by eapply undisturbed_appended| |unfold undisturbed; cbn; tauto..].
  trans (with_pins p m); [unfold undisturbed; cbn; tauto|by eapply undisturbed_appended].
Qed.

Lemma lookupCommand_listed name c : lookupCommand name = Some c → c ∈ slashCommands.
Proof.
  assert (Hf : ∀ n c, find_command n = Some c → c ∈ slashCommands).
  { intros n c' Hc. unfold find_command in Hc. by apply find_first_Some in Hc as [? _]. }
  unfold lookupCommand. destruct (find_command name) eqn:E; [intros [= <-]; by eapply Hf|].
  repeat case_match; try done; apply Hf.
Qed.
(** The block list names the guarded commands, whatever alias they were reached by. *)
Lemma blocked_guarded c : c ∈ slashCommands → guarded (sc_run c) = bool_decide (sc_name c ∈ remoteBlocked).
Proof.
  intros Hc. apply (forallb_elem (λ c, Bool.eqb (guarded (sc_run c)) (bool_decide (sc_name c ∈ remoteBlocked)))) in Hc.
  - by apply eqb_prop in Hc.
  - by vm_compute.
Qed.

Lemma done_inv m w m' w' c : done m w = Some (m', w', c) → m' = m ∧ w' = w ∧ c = NoCmd.
Proof. unfold done. intros [= -> -> ->]. done. Qed.

Lemma run_remote line m w m' w' c : pins_ok m → run line true m w = Some (m', w', c) →
  clean (op_APIKey (m_opts m)) c = true ∧ undisturbed m m' ∧ m_acct m' = m_acct m ∧ m_authed m' = m_authed m.
Proof.
  intros Hp. unfold run. destruct (parseLine line) as [name args].
  assert (Hecho : ∀ ls, pins_ok (appendLines ls m)).
  { intros ls. destruct (appended_append ls m) as [v ->]. exact Hp. }
  assert (Hl : ∀ m1 m2, undisturbed m1 m2 ∧ m_acct m2 = m_acct m1 ∧ m_authed m2 = m_authed m1 →
      undisturbed m1 (relayout m2) ∧ m_acct (relayout m2) = m_acct m1 ∧ m_authed (relayout m2) = m_authed m1).
  { intros m1 m2 (Hu & Ha & Hb). split; [etrans; [done|apply undisturbed_relayout]|].
    destruct (laid_out_relayout m2) as (i & v & ->). done. }
  assert (Happ : ∀ ls m1, undisturbed m1 (appendLines ls m1) ∧ m_acct (appendLines ls m1) = m_acct m1 ∧
      m_authed (appendLines ls m1) = m_authed m1).
  { intros ls m1. split; [apply undisturbed_append|eapply appended_account, appended_append]. }
  destruct (lookupCommand name) as [c'|] eqn:El.
  - cbn [andb]. rewrite <- (blocked_guarded c') by by eapply lookupCommand_listed. destruct (guarded (sc_run c')) eqn:Eg.
    + intros (-> & -> & ->)%done_inv. split; [done|]. apply Hl, Happ.
    + pose proof (run_handler_handled (sc_run c') args (appendLines (echo_lines line true) m) w (Hecho _)) as Hh.
      destruct (run_handler _ _ _ _) as [[[m1 w1] c1]|]; [|done]. cbn. intros [= <- <- <-].
      rewrite Eg in Hh. destruct Hh as (He & _ & Hc). destruct (Hc eq_refl) as (Hc1 & Ha & Hb).
      assert (Hop : m_opts (appendLines (echo_lines line true) m) = m_opts m) by by destruct (appended_append (echo_lines line true) m) as [v ->].
      rewrite Hop in Hc1. split; [done|]. apply Hl.
      destruct (Happ (echo_lines line true) m) as (Hu & Ha' & Hb').
      split; [etrans; [done|by apply undisturbed_effect]|]. by rewrite Ha, Hb.
  - intros (-> & -> & ->)%done_inv. split; [done|]. apply Hl. destruct (Happ (echo_lines line true) m) as (Hu & Ha & Hb).
    destruct (Happ [Render stErr ("  ✗ unknown command: " +:+ name) +:+ Render stDim "   (type /help)"]
      (appendLines (echo_lines line true) m)) as (Hu' & Ha' & Hb').
    split; [by etrans|]. by rewrite Ha', Hb'.
Qed.

(** Messages that cannot have come from the keyboard or from guarded work. *)
Definition harmless (msg : Msg) : bool :=
  match msg with
  | LoginStartedMsg _ | LoginTickMsg _ _ | LoginDoneMsg _ _ | RemoteStartedMsg _ _ | QuitMsg | KeyMsg _ | WindowSizeMsg _ _ => false
  | _ => true
  end.
Lemma event_remote now ev m w m' w' c : pins_ok m → handleEvent now ev m w = Some (m', w', c) →
  clean (op_APIKey (m_opts m)) c = true ∧ undisturbed m m'.
Proof.
  intros Hp. unfold handleEvent.
  assert (Hsame : ∀ m1, undisturbed m m1 → done m1 w = Some (m', w', c) → clean (op_APIKey (m_opts m)) c = true ∧ undisturbed m m').
  { intros m1 Hu (-> & _ & ->)%done_inv. done. }
  destruct (String.eqb (e_Type ev) "request"); [|destruct (String.eqb (e_Type ev) "status");
    [|destruct (String.eqb (e_Type ev) "error"); [|destruct (String.eqb (e_Type ev) "remote"); [|by apply Hsame]]]].
  - destruct (e_Request ev); apply Hsame; [unfold undisturbed; cbn; tauto|done].
  - destruct (e_Status ev); apply Hsame; [unfold undisturbed; cbn; tauto|done].
  - destruct (String.eqb (e_Err ev) ""); apply Hsame; [done|apply undisturbed_append].
  - unfold handleRemoteEvent. destruct (e_Remote ev) as [n|]; [|by apply Hsame].
    destruct (String.eqb (rn_Kind n) "presence"); [|destruct (String.eqb (rn_Kind n) "ended");
      [|destruct (String.eqb (rn_Kind n) "command"); [|by apply Hsame]]].
    + apply Hsame. trans (with_remoteConnected (rn_Connected n) m); [unfold undisturbed; cbn; tauto|apply undisturbed_append].
    + apply Hsame. trans (with_remoteConnected false (with_pairing "" "" m)); [unfold undisturbed; cbn; tauto|].
      apply undisturbed_append.
    + intros Hr. by apply run_remote in Hr as (? & ? & _).
Qed.

Lemma update_remote now msg m w m' w' cs : pins_ok m → harmless msg = true →
  update_msg now msg m w = Some (m', w', cs) → forallb (clean (op_APIKey (m_opts m))) cs = true ∧ undisturbed m m'.
Proof.
  intros Hp Hh HU. destruct msg; try done; cbn [update_msg] in HU.
  - simplify_eq. done.
  - apply Some_inj in HU. injection HU as <- <- <-. split; [done|].
    trans (with_mascotFrame (m_mascotFrame m + 1) m); [unfold undisturbed; cbn; tauto|].
    etrans; [apply undisturbed_welcome|apply undisturbed_relayout].
  - apply Some_inj in HU. injection HU as <- <- <-. split; [by case_match|].
    trans (with_status status (if ok then with_tunnels tunnels m else m)); [destruct ok; unfold undisturbed; cbn; tauto|].
    etrans; [apply undisturbed_welcome|apply undisturbed_relayout].
  - apply Some_inj in HU. injection HU as <- <- <-. split; [done|].
    trans (with_acct acct authed m); [unfold undisturbed; cbn; tauto|].
    etrans; [apply undisturbed_welcome|apply undisturbed_relayout].
  - destruct (handleEvent now ev m w) as [[[m1 w1] c1]|] eqn:E; [|done]. cbn in HU. apply Some_inj in HU.
    injection HU as <- <- <-. destruct (event_remote _ _ _ _ _ _ _ Hp E) as [Hc Hu]. cbn. rewrite Hc.
    split; [done|]. etrans; [done|apply undisturbed_relayout].
  - apply Some_inj in HU. injection HU as <- <- <-. split; [done|apply undisturbed_append].
  - by simplify_eq.
Qed.

Lemma flushed_clean key m : forallb (clean key) (flush_lines m).2 = true.
Proof. unfold flush_lines. by destruct (m_pendingRemoteLines m). Qed.
Lemma Update_remote now msg m w m' w' c : pins_ok m → harmless msg = true →
  Update now msg m w = Some (m', w', c) → clean (op_APIKey (m_opts m)) c = true ∧ undisturbed m m'.
Proof.
  intros Hp Hh HU.
  assert (HU' : ('(m, w, cmds) ← update_msg now msg m w; settled msg cmds m w) = Some (m', w', c)) by by destruct msg.
  destruct (update_msg now msg m w) as [[[m1 w1] cs]|] eqn:E; [|done]. cbn [mbind option_bind] in HU'.
  rewrite settle_flush in HU'. apply Some_inj in HU'. injection HU' as <- <- <-.
  destruct (update_remote _ _ _ _ _ _ _ Hp Hh E) as [Hc Hu]. split.
  - cbn [clean]. rewrite !forallb_app, Hc, flushed_clean. done.
  - etrans; [done|]. unfold undisturbed, settle. cbn. tauto.
Qed.

(** A console to which only the daemon's feed speaks, and no guarded work pending. *)
Definition from_feed (msg : Msg) : Prop := match msg with EventMsg _ | OtherMsg _ => True | _ => False end.
Definition unattended (c : console) : Prop :=
  co_stopped c = false ∧ (∀ x, x ∈ co_pending c → clean (op_APIKey (m_opts (co_model c))) x = true) ∧ wf (co_model c).

Lemma picked_clean key p x rest : picked p x rest → (∀ y, y ∈ p → clean key y = true) →
  clean key x = true ∧ (∀ y, y ∈ rest → clean key y = true).
Proof.
  intros [l1 l2 -> _|l1 l l2 -> _] Hp.
  - split; [apply Hp; set_solver|]. intros y Hy. apply Hp. set_solver.
  - assert (Hs : clean key (Sequence (x :: l)) = true) by (apply Hp; set_solver).
    cbn in Hs. apply andb_prop in Hs as [Hx Hl]. split; [done|].
    intros y [Hy|[->|Hy]%elem_of_cons]%elem_of_app; [apply Hp; set_solver|done|apply Hp; set_solver].
Qed.

(** ** What it does to the outside *)
Ltac touches := first [by apply touched_do; [unfold guarded_paths; set_solver|]|constructor].
Lemma touched_unit key cl method path body w :
  path ∉ guarded_paths → (path = "/login" → body = Some (JToken key) ∧ key ≠ "") → touched key cl w (do_unit cl method path body w).2.
Proof.
  intros Hp Hl. unfold do_unit. pose proof (touched_do key tt no_out cl method path body w Hp Hl) as Ht.
  by destruct (client_do _ _ _ _ _ _ _) as [[x e] w'].
Qed.
(** A path below another one is none of the guarded ones. *)
Lemma below_free p id : p ∈ ["/tunnels/"; "/cloud/subdomains/"; "/cloud/domains/"] → p +:+ id ∉ guarded_paths ∧ p +:+ id ≠ "/login".
Proof. unfold guarded_paths. set_unfold. intros [->|[->|[->|[]]]]; split; naive_solver. Qed.

Lemma touched_stop key cl victims w : touched key cl w (stop_each cl victims w).2.
Proof.
  revert w. induction victims as [|t victims IH]; intros w; [constructor|]. cbn [stop_each]. unfold client_stopTunnel.
  destruct (below_free "/tunnels/" (tn_ID t)) as [H1 H2]; [set_solver|].
  pose proof (touched_unit key cl "DELETE" ("/tunnels/" +:+ tn_ID t) None w H1 ltac:(done)) as Ht.
  destruct (do_unit _ _ _ _ _) as [e w1]. specialize (IH w1). destruct (stop_each cl victims w1) as [out w2]. cbn in *. by etrans.
Qed.
Lemma touched_start key cl spec w : touched key cl w (client_startTunnel cl spec w).2.
Proof. apply touched_do; [unfold guarded_paths; set_solver|done]. Qed.
Lemma touched_starts key cl specs w : touched key cl w (start_each cl specs w).2.
Proof.
  revert w. induction specs as [|t specs IH]; intros w; [constructor|]. cbn [start_each].
  pose proof (touched_start key cl t w) as Ht.
  destruct (client_startTunnel cl t w) as [[x e] w1]. specialize (IH w1). destruct (start_each cl specs w1) as [out w2]. cbn in *. by etrans.
Qed.
Lemma touched_me key cl w : touched key cl w (client_me cl w).2.
Proof.
  unfold client_me. pose proof (touched_do key zero_account dec_Account cl "GET" "/cloud/me" None w ltac:(unfold guarded_paths; set_solver) ltac:(done)) as Ht.
  by destruct (client_do _ _ _ _ _ _ _) as [[a [e|]] w'].
Qed.
Lemma touched_account key cl w : touched key cl w (exec_fetchAccount cl key w).2.
Proof.
  unfold exec_fetchAccount. destruct (String.eqb_spec key "") as [He|Hne].
  - pose proof (touched_me key cl w) as Ht. by destruct (client_me cl w) as [[a|e] w'].
  - assert (Hl : touched key cl w (client_login cl key w).2) by (apply touched_unit; [unfold guarded_paths; set_solver|done]).
    pose proof (touched_me key cl (client_login cl key w).2) as Ht.
    destruct (client_me cl (client_login cl key w).2) as [[a|e] w']; cbn in *; by etrans.
Qed.
(** A command that asks for a list and then acts on one of its entries. *)
Ltac asks := apply touched_do; [unfold guarded_paths; set_solver|done].
Lemma touched_release key cl name w : touched key cl w (exec_releaseSub cl name w).2.
Proof.
  unfold exec_releaseSub. assert (Ht : touched key cl w (client_listSubdomains cl w).2) by asks.
  destruct (client_listSubdomains cl w) as [[subs [e|]] w1]; [done|]. cbn [snd] in Ht. set (id := match find_first _ _ with Some _ => _ | None => _ end).
  destruct (String.eqb id ""); [done|]. destruct (below_free "/cloud/subdomains/" id) as [H1 H2]; [set_solver|].
  pose proof (touched_unit key cl "DELETE" ("/cloud/subdomains/" +:+ id) None w1 H1 ltac:(done)) as Ht2.
  unfold client_releaseSubdomain. destruct (do_unit _ _ _ _ _) as [[e|] w2]; cbn in *; by etrans.
Qed.
Lemma touched_verify key cl name w : touched key cl w (exec_verifyDomain cl name w).2.
Proof.
  unfold exec_verifyDomain. assert (Ht : touched key cl w (client_listDomains cl w).2) by asks.
  destruct (client_listDomains cl w) as [[doms [e|]] w1]; [done|]. cbn [snd] in Ht. set (id := match find_first _ _ with Some _ => _ | None => _ end).
  destruct (String.eqb id ""); [done|]. destruct (below_free "/cloud/domains/" (id +:+ "/verify")) as [H1 H2]; [set_solver|].
  pose proof (touched_do key zero_domain dec_Domain cl "POST" ("/cloud/domains/" +:+ id +:+ "/verify") None w1 H1 ltac:(done)) as Ht2.
  unfold client_verifyDomain. destruct (client_do _ _ _ _ _ _ _) as [[d [e|]] w2]; cbn in *; [by etrans|].
  destruct (dm_VerifiedAt d); by etrans.
Qed.
Lemma exec_touched key cl x w : clean key x = true → touched key cl w (exec cl x w).2.
Proof.
  intros Hc. destruct x; try done; cbn [exec]; try (by constructor).
  - unfold exec_poll. assert (H1 : touched key cl w (client_tunnels cl w).2) by asks.
    destruct (client_tunnels cl w) as [[ts err] w1]. assert (H2 : touched key cl w1 (client_status cl w1).2) by asks.
    destruct (client_status cl w1) as [[st e] w2]. cbn in *. by etrans.
  - cbn in Hc. apply String.eqb_eq in Hc as ->. pose proof (touched_account key cl w) as Ht. by destruct (exec_fetchAccount cl key w).
  - apply touched_unit; [unfold guarded_paths; set_solver|done].
  - apply touched_unit; [unfold guarded_paths; set_solver|done].
  - unfold exec_startTunnel. pose proof (touched_start key cl spec w) as Ht. by destruct (client_startTunnel cl spec w) as [[t [e|]] w1].
  - unfold exec_requests. assert (Ht : touched key cl w (client_requests cl w).2) by asks.
    by destruct (client_requests cl w) as [[[|? ?] [e|]] w1].
  - unfold exec_stop. destruct (victims_of tunnels target) as [|v vs]; [constructor|].
    pose proof (touched_stop key cl (v :: vs) w) as Ht. by destruct (stop_each cl (v :: vs) w).
  - pose proof (touched_starts key cl specs w) as Ht. by destruct (start_each cl specs w).
  - unfold exec_reserveSub. assert (Ht : touched key cl w (client_reserveSubdomain cl name w).2) by asks.
    by destruct (client_reserveSubdomain cl name w) as [[t [e|]] w1].
  - apply touched_release.
  - unfold exec_listSubs. assert (Ht : touched key cl w (client_listSubdomains cl w).2) by asks.
    by destruct (client_listSubdomains cl w) as [[[|? ?] [e|]] w1].
  - unfold exec_addDomain. assert (Ht : touched key cl w (client_addDomain cl name w).2) by asks.
    by destruct (client_addDomain cl name w) as [[t [e|]] w1].
  - apply touched_verify.
  - unfold exec_listDomains. assert (Ht : touched key cl w (client_listDomains cl w).2) by asks.
    by destruct (client_listDomains cl w) as [[[|? ?] [e|]] w1].
Qed.

(** The handlers themselves only open a browser or write the clipboard. *)
Lemma handler_touched key cl h args m w m' w' c : run_handler h args m w = Some (m', w', c) → touched key cl w w'.
Proof.
  destruct h; cbn [run_handler];
    unfold startTunnelCmd, cmdStart, cmdLs, cmdQR, cmdQRPair, cmdQRStop, cmdQRTunnel, cmdStop, cmdDown, cmdRequests, cmdPin, cmdUnpin,
      cmdStatus, cmdWhoami, cmdLogin, cmdLogout, cmdSubdomains, cmdDomains, cmdConfig, cmdUpdate, cmdUninstall, cmdVersion, cmdClear,
      cmdHelp, cmdQuit, done, defer.
  all: lazymatch goal with
       | |- cmdOpen _ _ _ = _ → _ =>
           unfold cmdOpen; destruct (pickTunnel m args) as [t|]; [|intros [= _ <- _]; constructor];
           intros HE; assert (w' = (openBrowser (tn_PublicURL t) w).2) as -> by (destruct (openBrowser _ _) as [[e|] w1]; by injection HE as <- <- <-);
           apply t_browser; constructor
       | |- cmdCopy _ _ _ = _ → _ =>
           unfold cmdCopy; destruct (pickTunnel m args) as [t|]; [|intros [= _ <- _]; constructor];
           intros HE; assert (w' = (WriteAll (tn_PublicURL t) w).2) as -> by (destruct (WriteAll _ _) as [[e|] w1]; by injection HE as <- <- <-);
           apply t_clipboard; constructor
       | |- _ => intros HE; assert (w' = w) as ->; [|constructor]; revert HE; clear; intros HE
       end.
  all: repeat (case_match || (destruct (humanBytes _); cbn [mbind option_bind] in HE)); by simplify_eq.
Qed.
Lemma run_touched key cl line m w m' w' c : run line true m w = Some (m', w', c) → touched key cl w w'.
Proof.
  unfold run. destruct (parseLine line) as [name args]. destruct (lookupCommand name) as [c'|]; [|intros (_ & -> & _)%done_inv; constructor].
  destruct (true && _); [intros (_ & -> & _)%done_inv; constructor|].
  destruct (run_handler _ _ _ _) as [[[m1 w1] c1]|] eqn:E; [|done]. cbn. intros [= <- <- <-]. by eapply handler_touched.
Qed.
Lemma Update_touched key cl now msg m w m' w' c : harmless msg = true → Update now msg m w = Some (m', w', c) → touched key cl w w'.
Proof.
  intros Hh HU.
  assert (HU' : ('(m, w, cmds) ← update_msg now msg m w; settled msg cmds m w) = Some (m', w', c)) by by destruct msg.
  destruct (update_msg now msg m w) as [[[m1 w1] cs]|] eqn:E; [|done]. cbn [mbind option_bind] in HU'.
  rewrite settle_flush in HU'. apply Some_inj in HU'. injection HU' as _ <- _.
  destruct msg; try done; cbn [update_msg] in E; try (apply Some_inj in E; injection E as _ <- _; constructor).
  destruct (handleEvent now ev m w) as [[[m2 w2] c2]|] eqn:E2; [|done]. cbn in E. apply Some_inj in E. injection E as _ <- _.
  revert E2. unfold handleEvent, handleRemoteEvent.
  repeat case_match; try (intros (_ & -> & _)%done_inv; constructor). apply run_touched.
Qed.

Definition confined (c c' : console) : Prop :=
  undisturbed (co_model c) (co_model c') ∧
  touched (op_APIKey (m_opts (co_model c))) (m_cl (co_model c)) (co_world c) (co_world c').
#[local] Instance confined_preorder : PreOrder confined.
Proof.
  split; [intros c; split; reflexivity|]. intros c1 c2 c3 [U1 T1] [U2 T2]. split; [by etrans|].
  destruct U1 as (_ & _ & Ho & Hcl & _). rewrite Ho, Hcl in T2. by etrans.
Qed.

Lemma unattended_step c c' : UsageInt64 → console_step from_feed c c' → unattended c →
  unattended c' ∧ confined c c'.
Proof.
  intros Hu Hs (Hst & Hp & Hwf).
  assert (Hwf' : wf (co_model c')) by (eapply (console_step_wf from_feed); [done|by intros []|done|done]).
  destruct Hs as [c now msg m w cmd _ He HU|c l1 l l2 _ Heq|c x rest w _ Hx Hq|c x rest w _ Hx Hq|
    c x rest now msg w m w' cmd _ Hx Hm Hq HU]; cbn in *; unfold confined; cbn.
  - assert (Hh : harmless msg = true) by (destruct msg; cbn in He; done).
    destruct (Update_remote _ _ _ _ _ _ _ (wf_pins _ Hwf) Hh HU) as [Hc Hd]. pose proof Hd as (_ & _ & Ho & _).
    split; [|split; [done|by eapply Update_touched]]. split; [done|]. cbn. rewrite Ho. split; [|done].
    intros x [Hx|Hx%list_elem_of_singleton]%elem_of_app; [auto|by subst].
  - split; [|split; reflexivity]. split; [done|]. split; [|done]. rewrite Heq in Hp.
    assert (Hb : clean (op_APIKey (m_opts (co_model c))) (Batch l) = true) by (apply Hp; set_solver). cbn in Hb.
    intros x [Hx|[Hx|Hx]%elem_of_app]%elem_of_app; [apply Hp; set_solver|by eapply forallb_elem|apply Hp; set_solver].
  - destruct (picked_clean _ _ _ _ Hx Hp) as [Hc Hr]. split; [done|]. split; [reflexivity|].
    pose proof (exec_touched _ (m_cl (co_model c)) x (co_world c) Hc) as Ht. by rewrite Hq in Ht.
  - exfalso. destruct (picked_clean _ _ _ _ Hx Hp) as [Hc _].
    pose proof (exec_sends (m_cl (co_model c)) x (co_world c) Hu) as Hse. rewrite Hq in Hse. cbn in Hse. by rewrite Hse in Hc.
  - destruct (picked_clean _ _ _ _ Hx Hp) as [Hc Hr].
    pose proof (exec_sends (m_cl (co_model c)) x (co_world c) Hu) as Hse. rewrite Hm in Hse. cbn in Hse.
    assert (Hh : harmless msg = true) by (destruct msg; cbn in Hse; try done; by rewrite Hse in Hc).
    destruct (Update_remote _ _ _ _ _ _ _ (wf_pins _ Hwf) Hh HU) as [Hc' Hd]. pose proof Hd as (_ & _ & Ho & _).
    split; [|split; [done|]].
    + split; [done|]. cbn. rewrite Ho. split; [|done]. intros y [Hy|Hy%list_elem_of_singleton]%elem_of_app; [auto|by subst].
    + pose proof (exec_touched _ (m_cl (co_model c)) x (co_world c) Hc) as Ht. rewrite Hm in Ht. etrans; [exact Ht|]. by eapply Update_touched.
Qed.


(** * What a paired phone sees *)

Lemma update_mirror now msg m w m' w' cs : wf m → msg_ok msg → m_remoteCode m' = m_remoteCode m →
  update_msg now msg m w = Some (m', w', cs) → printed m m' ∧ flat_map published cs = [].
Proof.
  intros Hwf Hm Hc HU. destruct (pairs msg) eqn:Hp.
  - destruct msg; try done; cbn [update_msg] in HU; cbn [pairs] in Hp.
    + unfold ends_pairing in Hp. apply andb_prop in Hp as [E1 E2]. apply String.eqb_eq in E1.
      destruct (e_Remote ev) as [n|] eqn:En; [|done]. apply String.eqb_eq in E2.
      unfold handleEvent in HU. rewrite E1 in HU. cbn in HU. unfold handleRemoteEvent in HU. rewrite En, E2 in HU. cbn in HU.
      apply Some_inj in HU. injection HU as <- <- <-. split; [|done].
      set (m1 := with_remoteConnected false (with_pairing "" "" m)) in *.
      assert (Ho : ok m1 (relayout (appendLines [Render stDim "  📱 pairing ended"] m1)))
        by (etrans; [apply ok_append|apply ok_relayout]).
      assert (H1 : ok m m1).
      { apply ok_inert; try done. rewrite <- Hc. destruct (laid_out_relayout (appendLines [Render stDim "  📱 pairing ended"] m1)) as (i & v & ->).
        destruct (appended_append [Render stDim "  📱 pairing ended"] m1) as [v' ->]. done. }
      by destruct (transitivity H1 Ho Hwf) as (_ & ? & _).
    + apply Some_inj in HU. injection HU as <- <- <-. split; [|done].
      set (m1 := with_pairing code url m) in *.
      assert (Ha : ∃ ls, appended ls m1 (renderPairQR url code m1)).
      { eexists. unfold renderPairQR, append_qr. eapply appended_trans; [apply appended_append|].
        eapply appended_trans; [eapply appended_fold|apply appended_append]. }
      destruct Ha as [ls Ha]. assert (H1 : ok m m1).
      { apply ok_inert; try done. rewrite <- Hc. by destruct Ha as [v ->]. }
      by destruct (transitivity H1 (ok_appended _ _ _ Ha) Hwf) as (_ & ? & _).
  - pose proof (update_msg_safe now msg m w Hm Hp Hwf) as Hs. rewrite HU in Hs. destruct Hs as [Ho Hq].
    split; [|done]. by destruct (Ho Hwf) as (_ & ? & _).
Qed.
(** What a typed command prints is not published by the update that runs it. *)
Lemma typed_lines_wait now k m w m' w' c : wf m → Update now (KeyMsg k) m w = Some (m', w', c) → published c = [].
Proof. intros Hwf HU. pose proof (safe_handleKey k m w Hwf) as Hs. cbn [Update] in HU. rewrite HU in Hs. apply Hs. Qed.
Lemma flush_published m : flat_map published (flush_lines m).2 = m_pendingRemoteLines m.
Proof. unfold flush_lines. destruct (m_pendingRemoteLines m); [done|]. cbn. by rewrite app_nil_r. Qed.

(** A paired phone sees what the console prints: whatever message arrives, the lines
    it prints below the banner, and those only, without their colours and in order, are
    what the update publishes to the phone or still holds queued behind what was queued
    before; without a pairing nothing is published. *)
Theorem phone_mirrors_console now msg m w m' w' c :
  wf m → msg_ok msg → m_welcomeShown m = true ∨ m_welcomeLen m = 0%nat →
  Update now msg m w = Some (m', w', c) → m_remoteCode m' = m_remoteCode m →
  ∃ ls, (body m' = body m ++ ls ∨ body m' `suffix_of` ls) ∧
        published c ++ m_pendingRemoteLines m' = m_pendingRemoteLines m ++ mirrored m ls.
Proof.
  intros Hwf Hm Hb HU Hc.
  assert (Hkey : ∀ P e, safe P m e → e = Some (m', w', c) → ∃ ls, (body m' = body m ++ ls ∨ body m' `suffix_of` ls) ∧
      published c ++ m_pendingRemoteLines m' = m_pendingRemoteLines m ++ mirrored m ls).
  { intros P e Hs ->. destruct (Hs Hwf) as [Ho Hq]. destruct (Ho Hwf) as (_ & (ls & ? & ? & _) & _).
    exists ls. by rewrite Hq. }
  assert (Hgen : ('(m, w, cmds) ← update_msg now msg m w; settled msg cmds m w) = Some (m', w', c) →
      ∃ ls, (body m' = body m ++ ls ∨ body m' `suffix_of` ls) ∧
        published c ++ m_pendingRemoteLines m' = m_pendingRemoteLines m ++ mirrored m ls).
  { destruct (update_msg now msg m w) as [[[m1 w1] cs]|] eqn:E; [|done]. cbn [mbind option_bind].
    rewrite settle_flush. intros HS. apply Some_inj in HS. injection HS as <- <- <-.
    destruct (update_mirror now msg m w m1 w1 cs Hwf Hm Hc E) as [(ls & H1 & H2 & _) Hq]. exists ls. split; [exact H1|].
    cbn [published settle m_pendingRemoteLines with_vp with_input with_pendingRemoteLines].
    rewrite !flat_map_app, Hq, flush_published. cbn. rewrite !app_nil_r. done. }
  destruct msg; cbn [Update] in HU; try exact (Hgen HU).
  - eapply (Hkey False); [by apply safe_window|exact HU].
  - eapply Hkey; [apply safe_handleKey|exact HU].
Qed.
End theorems.
