(* ===== verification/ConsoleExamples.v ===== *)
(** The screen of the terminal interface, what it shows in concrete cases, and the
    witnesses of [ConsoleSafety]: a terminal without colours whose text area is a
    string, and a daemon that answers every request with 200 and an empty body. *)
From S2P Require Import Prelude GoStrings GoText Agent Inspect Remote Console ConsoleCmds ConsoleLoop ConsoleInv ConsoleSafety.
From Stdlib Require Import Ascii.

Open Scope Z_scope.

#[local] Arguments String.eqb : simpl never.

(** * The screen *)
Section screen.
Context `{Terminal}.

(** ansi.Truncate cuts to the width it is given. *)
Class DrawLaws := {
  width_empty : Width "" = 0;
  width_truncate : ∀ s n t, 0 <= n → Width (Truncate s n t) <= n;
}.
Context `{!DrawLaws}.

Lemma clamp_fits m s : 0 <= m_width m → Width (clamp m s) <= m_width m.
Proof. intros Hw. unfold clamp. case_match; [by apply Z.leb_le|by apply width_truncate]. Qed.

(** The console draws exactly as many lines as the terminal has rows, none of them
    wider than the terminal, whatever is pinned, typed, listed in the menu or printed. *)
Theorem view_fits_screen m :
  0 <= m_width m → 0 <= m_height m →
  Z.of_nat (length (view_lines m)) = m_height m ∧ (∀ l, l ∈ view_lines m → Width l <= m_width m).
Proof.
  intros Hw Hh. unfold view_lines. set (lines := clamp m <$> view_all m).
  assert (Hl : ∀ l, l ∈ lines → Width l <= m_width m).
  { intros l (x & -> & _)%list_elem_of_fmap. by apply clamp_fits. }
  set (h := Z.to_nat (m_height m)).
  set (kept := if (h <? length lines)%nat then drop (length lines - h) lines else lines).
  assert (Hk : (length kept <= h)%nat ∧ ∀ l, l ∈ kept → l ∈ lines).
  { subst kept. case_match eqn:E; [apply Nat.ltb_lt in E|apply Nat.ltb_ge in E].
    - rewrite length_drop. split; [lia|]. intros l Hin. apply (list_elem_of_lookup_1 _ _) in Hin as [i Hi].
      rewrite lookup_drop in Hi. by eapply list_elem_of_lookup_2.
    - split; [lia|done]. }
  destruct Hk as [Hk1 Hk2]. split.
  - rewrite length_app, length_replicate. lia.
  - intros l [Hin|Hin]%elem_of_app; [auto|]. apply elem_of_replicate in Hin as [-> _]. rewrite width_empty. lia.
Qed.
Lemma length_omap_le {A B} (f : A → option B) l : (length (omap f l) <= length l)%nat.
Proof. induction l as [|x l IH]; cbn; [done|]. destruct (f x); cbn; lia. Qed.
(** The menu shows at most seven rows, the highlighted one among them. *)
Lemma menu_window m : wf m → menuOpen m = true →
  (length (renderMenu m) <= menuWindow)%nat ∧ (menu_start m <= m_menuIdx m < menu_start m + menuWindow)%nat.
Proof.
  intros Hwf Ho. split.
  - unfold renderMenu. rewrite Ho. cbn [negb]. etrans; [apply length_omap_le|]. rewrite length_seq. lia.
  - unfold menu_start. case_match eqn:E; [apply Nat.leb_le in E|apply Nat.leb_gt in E]; unfold menuWindow in *; lia.
Qed.
End screen.

(** * Commands *)
Section commands.
Context `{Terminal}.

(** Accepting a menu entry names the command it shows. *)
Lemma menu_resolves c : c ∈ slashCommands →
  ∃ c', lookupCommand (parseLine (me_insert (command_entry c))).1 = Some c' ∧ sc_name c' = sc_name c.
Proof.
  intros Hc.
  apply (forallb_elem (λ c, match lookupCommand (parseLine (me_insert (command_entry c))).1 with
    | Some c' => String.eqb (sc_name c') (sc_name c) | None => false end)) in Hc; [|by vm_compute].
  destruct (lookupCommand _) as [c'|]; [|done]. exists c'. split; [done|by apply String.eqb_eq].
Qed.

(** /requests shows the oldest twenty of what the inspector lists, newest first. *)
Lemma recent_shows_oldest captured : recent (reverse captured) = reverse (take 20 captured).
Proof.
  unfold recent. rewrite length_reverse, drop_reverse. f_equal.
  destruct (Nat.le_gt_cases 20 (length captured)).
  - f_equal. lia.
  - rewrite !take_ge by lia. done.
Qed.

(** /whoami after /logout signs in again with the key the console was started with,
    also when a paired phone asks. *)
Lemma whoami_undoes_logout remote m w :
  ∃ m1 m2, run "/logout" false m w = Some (m1, w, logout_) ∧ m_acct m1 = None ∧
    ∀ w1, run "/whoami" remote m1 w1 = Some (m2, w1, fetchAccount (op_APIKey (m_opts m))).
Proof.
  assert (Hl : parseLine "/logout" = ("logout", [])) by by vm_compute.
  assert (Hwl : parseLine "/whoami" = ("whoami", [])) by by vm_compute.
  assert (Cl : lookupCommand "logout" = Some (sc "logout" "" "Sign out" HLogout)) by by vm_compute.
  assert (Cw : lookupCommand "whoami" = Some (sc "whoami" "" "Show account, plan and usage" HWhoami)) by by vm_compute.
  unfold run. rewrite Hl, Hwl, Cl, Cw. cbn [sc_name sc sc_run run_handler andb].
  rewrite (bool_decide_false ("whoami" ∈ remoteBlocked)), andb_false_r by (unfold remoteBlocked; set_solver).
  unfold cmdLogout, defer. cbn [mbind option_bind].
  set (m0 := with_acct None false (appendLines (echo_lines "/logout" false) m)).
  assert (H1 : m_acct (relayout m0) = None ∧ m_opts (relayout m0) = m_opts m).
  { destruct (laid_out_relayout m0) as (i & v & ->). split; [done|]. subst m0. cbn.
    by destruct (appended_append (echo_lines "/logout" false) m) as [v' ->]. }
  destruct H1 as [Ha Ho].
  destruct (appended_append (echo_lines "/whoami" remote) (relayout m0)) as [v Hv].
  eexists _, _. split; [reflexivity|]. split; [done|]. intros w1. unfold cmdWhoami. rewrite Hv.
  cbn [m_acct m_opts with_vp with_pendingRemoteLines with_transcript].
  rewrite Ha, Ho. reflexivity.
Qed.
End commands.

(** * A concrete terminal *)
Definition plain_key (k : Key) : string :=
  match k_Type k with KeyRunes => k_String k | KeySpace => " " | _ => "" end.
Definition zero_start : remoteStart := {| rs_Code := "ABCD-1234"; rs_URL := "https://qr.trqsh.uz/ABCD-1234"; rs_ExpiresAt := "" |}.
#[local] Instance plain : Terminal := {|
  Render := λ _ s, s; Width := λ s, Z.of_nat (String.length s); Height := λ s, Z.of_nat (length (lines_of s));
  JoinHorizontal := λ l, unlines l; Strip := λ s, s; Truncate := λ s n _, take_string (Z.to_nat n) s;
  GenerateHalfBlock := λ s, s;
  Textarea := string; ta_New := λ _ _ _ _ _ _, ""; ta_Value := λ t, t; ta_SetValue := λ v _, v; ta_CursorEnd := λ t, t;
  ta_SetWidth := λ _ t, t; ta_SetHeight := λ _ t, t; ta_SetFocusedText := λ _ t, t; ta_LineHeight := λ _, 1;
  ta_LineCount := λ _, 1; ta_View := λ t, t;
  ta_Update := λ msg t, match msg with KeyMsg k => (t +:+ plain_key k, 0%nat) | _ => (t, 0%nat) end;
  Viewport := string; vp_New := ""; vp_SetSize := λ _ _ v, v; vp_SetContent := λ s _, s; vp_GotoTop := λ v, v;
  vp_GotoBottom := λ v, v; vp_HalfPageUp := λ v, v; vp_HalfPageDown := λ v, v; vp_AtBottom := λ _, true;
  vp_View := λ v, v; vp_Update := λ _ v, (v, 0%nat);
  World := list hreq; GOOS := "linux"; GOARCH := "amd64";
  Exchange := λ r w, (Ok (200, ""), w ++ [r]); Start := λ _ _ w, (None, w); WriteAll := λ _ w, (None, w);
  dec_error := λ _, ("", None); dec_Status := λ _, (zero_status, None); dec_Tunnels := λ _, ([], None);
  dec_Tunnel := λ _, (zero_tunnel, None); dec_Requests := λ _, ([], None); dec_Subdomains := λ _, ([], None);
  dec_Subdomain := λ _, ({| sd_ID := ""; sd_Subdomain := "" |}, None); dec_Domains := λ _, ([], None);
  dec_Domain := λ _, (zero_domain, None); dec_AddDomain := λ _, ({| ad_Domain := zero_domain; ad_DNS := ∅ |}, None);
  dec_Account := λ _, ({| ac_Email := ""; ac_Name := ""; ac_OrgName := ""; ac_OrgPlan := ""; ac_Plan := "";
                          ac_BytesIn := 0; ac_BytesOut := 0; ac_Requests := 0 |}, None);
  dec_DeviceStart := λ _, ({| ds_DeviceCode := ""; ds_UserCode := ""; ds_VerificationURI := "";
                              ds_VerificationURIComplete := ""; ds_Interval := 0; ds_ExpiresIn := 0 |}, None);
  dec_Authed := λ _, (false, None); dec_RemoteStart := λ _, (zero_start, None);
|}.
#[local] Instance plain_text : TextLaws.
Proof. by constructor. Qed.
Lemma take_string_length n s : (String.length (take_string n s) <= n)%nat.
Proof.
  unfold take_string. revert n; induction s as [|a s IH]; intros [|n]; cbn; try lia.
  specialize (IH n). lia.
Qed.
#[local] Instance plain_draw : DrawLaws.
Proof. constructor; [done|]. intros s n t Hn. cbn. pose proof (take_string_length (Z.to_nat n) s). lia. Qed.
Lemma plain_usage : UsageInt64.
Proof. by intros s. Qed.

Definition demo_opts : Options :=
  {| op_Addr := "127.0.0.1:4041"; op_Token := "tok"; op_APIKey := "trq_live"; op_BaseDomain := "trqsh.uz"; op_Version := "1.0.0";
     op_InitialCommand := ""; op_StartSpecs := []; op_ConfigRows := []; op_OnUpdate := None; op_OnUninstall := None;
     op_OnCheckUpdate := None |}.
Definition demo : console := start_console demo_opts [].
Definition typed (s : string) : Key := {| k_Type := KeyRunes; k_String := s |}.
Definition spacebar : Key := {| k_Type := KeySpace; k_String := " " |}.
Definition phone_sends (line : string) : Msg :=
  EventMsg {| e_Type := "remote"; e_Status := None; e_Tunnel := None; e_Request := None; e_Err := "";
              e_Remote := Some {| rn_Kind := "command"; rn_Command := line; rn_Connected := false |} |}.

(** The requests of /whoami after /logout: the old key is sent again. *)
Example whoami_logs_in :
  (exec (newClient "127.0.0.1:4041" "") (fetchAccount "trq_live") []).2 =
  [{| hq_method := "POST"; hq_url := "http://127.0.0.1:4041/login"; hq_body := Some (JToken "trq_live"); hq_auth := None |};
   {| hq_method := "GET"; hq_url := "http://127.0.0.1:4041/cloud/me"; hq_body := None; hq_auth := None |}].
Proof. by vm_compute. Qed.

(** * Witnesses *)

(** Typing a slash and a space stops the console with an index out of range. *)
Lemma console_invariant_witness :
  ∃ m w c, Update 0 (KeyMsg (typed "/")) (co_model demo) [] = Some (m, w, c) ∧
           Update 0 (KeyMsg spacebar) m w = None.
Proof.
  destruct (Update 0 (KeyMsg (typed "/")) (co_model demo) []) as [[[m w] c]|] eqn:E; [|by vm_compute in E].
  exists m, w, c. split; [done|].
  assert (Hr : console_reach demo_opts [] {| co_model := m; co_world := w; co_pending := co_pending demo ++ [c]; co_stopped := false |}).
  { eapply cr_step; [apply cr_start|]. by eapply (cs_external _ demo 0 (KeyMsg (typed "/"))). }
  refine (proj2 (proj2 (console_invariant _ _ _ plain_usage Hr)) 0 spacebar w _ _).
  - split; [by right; left|set_solver].
  - vm_compute in E. injection E as <- <- <-. by vm_compute.
Defined.


Lemma phone_mirrors_console_witness :
  let m := with_pairing "ABCD-1234" "https://qr.trqsh.uz/ABCD-1234" (co_model demo) in
  ∃ m' c, Update 0 (PrintMsg ["hello"]) m [] = Some (m', [], c) ∧
    ∃ ls, (body m' = body m ++ ls ∨ body m' `suffix_of` ls) ∧
      published c ++ m_pendingRemoteLines m' = m_pendingRemoteLines m ++ mirrored m ls.
Proof.
  intros m. destruct (Update 0 (PrintMsg ["hello"]) m []) as [[[m' w'] c]|] eqn:E; [|by vm_compute in E].
  assert (Hw : w' = []) by (vm_compute in E; by simplify_eq).
  exists m', c. split; [by rewrite Hw|].
  apply (phone_mirrors_console 0 (PrintMsg ["hello"]) m [] m' w' c); try done.
  - apply wf_pairing, wf_start.
  - by right.
  - vm_compute in E. by simplify_eq.
Defined.

Lemma view_fits_screen_witness :
  let m := with_size 40 12 true (co_model demo) in
  Z.of_nat (length (view_lines m)) = 12 ∧ (∀ l, l ∈ view_lines m → Width l <= 40).
Proof. exact (view_fits_screen (with_size 40 12 true (co_model demo)) ltac:(done) ltac:(done)). Defined.
