(* ===== verification/SelfUpdate.v ===== *)
(** Self-update of the command line (internal/agent/cli: update.go, sigstore.go, and
    selfUpdate of dashboard.go).

    The releases API, the downloads, SHA-256, the sigstore-go library ([Sigstore]), the
    archive formats and the answers of the operating system are parameters ([Updater]
    and [OsAnswers]).  Replacing the binary is a sequence of file-system calls, each of
    which may fail; [replace_states] keeps every state in between, since the process
    or the machine may stop after any call. *)
From S2P Require Import Prelude GoStrings GoText Console.
From Stdlib Require Import Ascii.

Open Scope Z_scope.

(** * The outside *)
Record Release := { rl_TagName : string; rl_Draft : bool; rl_Prerelease : bool }.
(** An HTTP answer; [hr_Body] is what reading it yields: the bytes, and an error. *)
Record HttpAnswer := { hr_Status : Z; hr_RateRemaining : string; hr_Body : string; hr_ReadErr : option string }.
Record ZipFile := { zf_Name : string; zf_Open : result string (string * option string) }.
Inductive TarNext := TarErr (e : string) | TarEntry (regular : bool) (name : string) (body : string) (readErr : option string).
Record OsError := { oe_text : string; oe_permission : bool }.

(** The file system: contents and permission bits by path. *)
Record File := { fl_data : string; fl_mode : Z }.
Abbreviation FS := (gmap string File).

(** What sigstore.go calls of sigstore-go: its trusted root, a verifier with the numbers
    of signed certificate timestamps, log entries and observer timestamps it asks for,
    a bundle, and the identity a certificate must carry (issuer, issuer pattern,
    subject, subject pattern).  [sg_Verify] runs the verifier on a bundle with a policy
    of an artifact and an identity. *)
Class Sigstore := {
  TrustedRoot : Type;
  Verifier : Type;
  Bundle : Type;
  CertificateIdentity : Type;
  FetchTrustedRoot : result string TrustedRoot;
  NewVerifier : TrustedRoot → Z → Z → Z → result string Verifier;
  bundle_UnmarshalJSON : string → result string Bundle;
  NewShortCertificateIdentity : string → string → string → string → result string CertificateIdentity;
  sg_Verify : Verifier → Bundle → string → CertificateIdentity → option string;
}.

Class Updater := {
  up_GOOS : string;
  up_GOARCH : string;
  up_Version : string;                                   (* agent.Version *)
  http_Get : string → string → result string HttpAnswer; (* url, Accept *)
  dec_Releases : string → result string (list Release);
  Sum256 : string → list Z;
  up_Sigstore :: Sigstore;
  zip_NewReader : string → result string (list ZipFile);
  (* the entries that tar.Next over gzip returns, up to and including an error other
     than the end *)
  tar_Entries : string → result string (list TarNext);
  os_Executable : result string string;
  EvalSymlinks : string → result string string;
}.

Section update.
Context `{Updater}.

Definition updateRepo : string := "uzcreator/trqshcli".
Definition updateMaxBytes : Z := 200 * 2 ^ 20.
Definition updateReleasesAPIURL : string := "https://api.github.com/repos/" +:+ updateRepo +:+ "/releases?per_page=30".
Definition updateDownloadBase : string := "https://github.com/" +:+ updateRepo +:+ "/releases/download".

(** io.ReadAll of a reader limited to [updateMaxBytes]: an error past the limit is not seen. *)
Definition read_limited (body : string) (e : option string) : result string string :=
  if updateMaxBytes <=? Z.of_nat (String.length body) then Ok (take_string (Z.to_nat updateMaxBytes) body)
  else match e with Some e => Err e | None => Ok body end.

Definition fetchURL (url accept : string) : result string string :=
  match http_Get url accept with
  | Err e => Err e
  | Ok r =>
      if negb (hr_Status r =? 200) then
        if (hr_Status r =? 403) && String.eqb (hr_RateRemaining r) "0"
        then Err ("GitHub API rate limit hit — try again in a few minutes, or check https://github.com/" +:+ updateRepo +:+
                  "/releases directly")
        else Err ("status " +:+ Itoa (hr_Status r) +:+ " for " +:+ url)
      else read_limited (hr_Body r) (hr_ReadErr r)
  end.

(** * Versions *)
Definition cli_release (r : Release) : bool :=
  negb (rl_Draft r || rl_Prerelease r) && (HasPrefix (rl_TagName r) "v" && negb (HasPrefix (rl_TagName r) "desktop-v")).
Definition latestCLIVersion : result string string :=
  match fetchURL updateReleasesAPIURL "application/vnd.github+json" with
  | Err e => Err e
  | Ok data =>
      match dec_Releases data with
      | Err e => Err e
      | Ok rels =>
          match find_first cli_release rels with
          | Some r => Ok (TrimPrefix (rl_TagName r) "v")
          | None => Err "no published CLI release found"
          end
      end
  end.

(** Up to the first '-' or '+'. *)
Fixpoint cut_meta (v : string) : string :=
  match v with
  | EmptyString => EmptyString
  | String a r => if Ascii.eqb a "-" || Ascii.eqb a "+" then EmptyString else String a (cut_meta r)
  end.
Fixpoint parse_parts (parts : list string) : option (list Z) :=
  match parts with
  | [] => Some []
  | p :: ps => n ← Atoi p; if n <? 0 then None else ns ← parse_parts ps; Some (n :: ns)
  end.
Definition parseSemver (v : string) : option (list Z) :=
  let v := cut_meta (TrimPrefix (TrimSpace v) "v") in
  let parts := Split v "." in
  if (length parts =? 3)%nat then parse_parts parts else None.
Fixpoint compare_parts (a b : list Z) : Z :=
  match a, b with
  | x :: a, y :: b => if x =? y then compare_parts a b else if y <? x then 1 else -1
  | _, _ => 0
  end.
Definition compareVersions (a b : string) : option Z :=
  pa ← parseSemver a; pb ← parseSemver b; Some (compare_parts pa pb).

(** * Downloads *)
Definition checksum_line (archive line : string) : option string :=
  match Fields line with
  | [sum; name] => if String.eqb (TrimPrefix name "*") archive then Some (ToLower sum) else None
  | _ => None
  end.
Fixpoint find_sum (archive : string) (lines : list string) : string :=
  match lines with
  | [] => ""
  | l :: lines => match checksum_line archive l with Some want => want | None => find_sum archive lines end
  end.
Definition verifyChecksum (data archive sums : string) : option string :=
  let want := find_sum archive (lines_of sums) in
  if String.eqb want "" then Some (archive +:+ " not listed in checksums.txt")
  else
    let got := EncodeToString (Sum256 data) in
    if String.eqb got want then None
    else Some ("checksum mismatch for " +:+ archive +:+ nl +:+ "  expected " +:+ want +:+ nl +:+ "  got      " +:+ got).

(** The signature over checksums.txt (sigstore.go). *)
Definition releaseCertIdentityRegexp : string := "https://github.com/uzcreator/trqsh/.*".
Definition releaseCertOIDCIssuer : string := "https://token.actions.githubusercontent.com".
Definition verifySigstoreBundle (checksumsData sigstoreJSON : string) : option string :=
  match FetchTrustedRoot with
  | Err e => Some ("fetch sigstore trusted root: " +:+ e)
  | Ok trustedRoot =>
  match NewVerifier trustedRoot 1 1 1 with
  | Err e => Some ("build sigstore verifier: " +:+ e)
  | Ok verifier =>
  match bundle_UnmarshalJSON sigstoreJSON with
  | Err e => Some ("parse checksums.txt.sigstore.json: " +:+ e)
  | Ok b =>
  match NewShortCertificateIdentity releaseCertOIDCIssuer "" "" releaseCertIdentityRegexp with
  | Err e => Some ("build certificate identity: " +:+ e)
  | Ok certID =>
  match sg_Verify verifier b checksumsData certID with
  | Some e => Some ("sigstore verification failed: " +:+ e)
  | None => None
  end end end end end.

(** filepath.Base: [win] takes the backslash as a separator too and drops a drive letter. *)
Definition is_sep (win : bool) (a : ascii) : bool := Ascii.eqb a "/" || (win && Ascii.eqb a "\").
Fixpoint trim_seps (win : bool) (s : string) : string :=
  match s with
  | EmptyString => EmptyString
  | String a r =>
      match trim_seps win r with
      | EmptyString => if is_sep win a then EmptyString else String a EmptyString
      | r' => String a r'
      end
  end.
Fixpoint after_sep (win : bool) (cur s : string) : string :=
  match s with
  | EmptyString => cur
  | String a r => if is_sep win a then after_sep win "" r else after_sep win (cur +:+ String a "") r
  end.
Definition drop_drive (win : bool) (s : string) : string :=
  match s with
  | String a (String ":" r) =>
      if win && ((in_range 65 90 a) || (in_range 97 122 a)) then r else s
  | _ => s
  end.
Definition Base (win : bool) (path : string) : string :=
  if String.eqb path "" then "."
  else
    let p := after_sep win "" (drop_drive win (trim_seps win path)) in
    if String.eqb p "" then (if win then "\" else "/") else p.

Definition on_windows : bool := String.eqb up_GOOS "windows".
Fixpoint zip_find (binName : string) (files : list ZipFile) : result string string :=
  match files with
  | [] => Err (binName +:+ " not found in archive")
  | f :: files =>
      if String.eqb (Base on_windows (zf_Name f)) binName then
        match zf_Open f with Err e => Err e | Ok (body, e) => read_limited body e end
      else zip_find binName files
  end.
Fixpoint tar_find (binName : string) (entries : list TarNext) : result string string :=
  match entries with
  | [] => Err (binName +:+ " not found in archive")
  | TarErr e :: _ => Err e
  | TarEntry regular name body e :: entries =>
      if negb regular || negb (String.eqb (Base on_windows name) binName) then tar_find binName entries
      else read_limited body e
  end.
Definition extractBinaryFromArchive (data ext binName : string) : result string string :=
  if String.eqb ext "zip" then
    match zip_NewReader data with Err e => Err e | Ok files => zip_find binName files end
  else match tar_Entries data with Err e => Err e | Ok entries => tar_find binName entries end.

(** * Replacing the binary *)

(** What each call answers; a write that fails may have written a part. *)
Record OsAnswers := {
  an_create : result OsError string;             (* CreateTemp: the new file's path *)
  an_write : option (nat * string);
  an_close : option string;
  an_chmod : option string;
  an_rename_aside : option OsError;
  an_rename : option OsError;
  an_revert : option OsError;
  an_remove_tmp : bool;
  an_remove_stale : bool;
  an_remove_old : bool;
}.

Definition fs_remove (ok : bool) (p : string) (fs : FS) : FS := if ok then delete p fs else fs.
(** os.Rename replaces what the new name holds; renaming a file that does not exist fails. *)
Definition fs_rename (from to : string) (fs : FS) : FS :=
  match fs !! from with Some f => <[to := f]> (delete from fs) | None => fs end.
Definition fs_create (p : string) (fs : FS) : FS := <[p := {| fl_data := ""; fl_mode := 384 |}]> fs.
Definition fs_write (p data : string) (fs : FS) : FS :=
  match fs !! p with Some f => <[p := {| fl_data := data; fl_mode := fl_mode f |}]> fs | None => fs end.
Definition fs_chmod (p : string) (mode : Z) (fs : FS) : FS :=
  match fs !! p with Some f => <[p := {| fl_data := fl_data f; fl_mode := mode |}]> fs | None => fs end.

Definition permissionHint (text : string) (e : OsError) : string :=
  if negb (oe_permission e) then text
  else if on_windows then text +:+ " (try running from an elevated/Administrator terminal)"
  else text +:+ " (try `sudo trqsh update`, or reinstall to a directory you own)".
Definition firstErr (a b : option string) : string := default (default "" b) a.

(** The error, and the file system after each call, the last state last. *)
Definition replace_states (a : OsAnswers) (target newData : string) (fs : FS) : option string * list FS :=
  match an_create a with
  | Err e => (Some ("create temp file next to " +:+ target +:+ ": " +:+ oe_text e), [fs])
  | Ok tmp =>
      let fs1 := fs_create tmp fs in
      let fs2 := match an_write a with
                 | Some (n, _) => fs_write tmp (take_string n newData) fs1
                 | None => fs_write tmp newData fs1
                 end in
      let writeErr := snd <$> an_write a in
      if bool_decide (writeErr ≠ None) || bool_decide (an_close a ≠ None) then
        (Some ("write new binary: " +:+ firstErr writeErr (an_close a)),
         [fs; fs1; fs2; fs_remove (an_remove_tmp a) tmp fs2])
      else match an_chmod a with
      | Some e => (Some ("chmod new binary: " +:+ e), [fs; fs1; fs2; fs_remove (an_remove_tmp a) tmp fs2])
      | None =>
          let fs3 := fs_chmod tmp 493 fs2 in
          if on_windows then
            let old := target +:+ ".old" in
            let fs4 := fs_remove (an_remove_stale a) old fs3 in
            match an_rename_aside a with
            | Some e => (Some (permissionHint ("replace " +:+ target +:+ ": " +:+ oe_text e) e),
                         [fs; fs1; fs2; fs3; fs4; fs_remove (an_remove_tmp a) tmp fs4])
            | None =>
                let fs5 := fs_rename target old fs4 in
                match an_rename a with
                | Some e =>
                    let fs6 := match an_revert a with Some _ => fs5 | None => fs_rename old target fs5 end in
                    (Some (permissionHint ("replace " +:+ target +:+ ": " +:+ oe_text e) e), [fs; fs1; fs2; fs3; fs4; fs5; fs6])
                | None =>
                    let fs6 := fs_rename tmp target fs5 in
                    (None, [fs; fs1; fs2; fs3; fs4; fs5; fs6; fs_remove (an_remove_old a) old fs6])
                end
            end
          else match an_rename a with
          | Some e => (Some (permissionHint ("replace " +:+ target +:+ ": " +:+ oe_text e) e),
                       [fs; fs1; fs2; fs3; fs_remove (an_remove_tmp a) tmp fs3])
          | None => (None, [fs; fs1; fs2; fs3; fs_rename tmp target fs3])
          end
      end
  end.
Definition replaceBinary (a : OsAnswers) (target newData : string) (fs : FS) : option string * FS :=
  let '(e, states) := replace_states a target newData fs in (e, default fs (list.last states)).

(** * Installing *)
Definition archive_ext : string := if on_windows then "zip" else "tar.gz".
Definition bin_name : string := if on_windows then "trqsh.exe" else "trqsh".
Definition archive_name (version : string) : string :=
  "trqsh_" +:+ version +:+ "_" +:+ up_GOOS +:+ "_" +:+ up_GOARCH +:+ "." +:+ archive_ext.

Definition release_file (version file : string) : string := (updateDownloadBase +:+ "/v" +:+ version) +:+ "/" +:+ file.

(** The part of installUpdate before the file system is touched: download, signature,
    checksum, extraction. *)
Definition verified_binary (version : string) : result string string :=
  let archive := archive_name version in
  match fetchURL (release_file version archive) "" with
  | Err e => Err ("download " +:+ archive +:+ ": " +:+ e)
  | Ok data =>
  match fetchURL (release_file version "checksums.txt") "" with
  | Err e => Err ("download checksums.txt: " +:+ e)
  | Ok sums =>
  match fetchURL (release_file version "checksums.txt.sigstore.json") "" with
  | Err e => Err ("download checksums.txt.sigstore.json: " +:+ e)
  | Ok bundle =>
  match verifySigstoreBundle sums bundle with
  | Some e => Err ("sigstore signature: " +:+ e)
  | None =>
  match verifyChecksum data archive sums with
  | Some e => Err e
  | None =>
  match extractBinaryFromArchive data archive_ext bin_name with
  | Err e => Err ("extract " +:+ bin_name +:+ ": " +:+ e)
  | Ok binData => Ok binData
  end end end end end end.
Definition installUpdate (a : OsAnswers) (version target : string) (fs : FS) : option string * FS :=
  match verified_binary version with
  | Err e => (Some e, fs)
  | Ok binData => replaceBinary a target binData fs
  end.

Definition runningBinaryPath : result string string :=
  match os_Executable with
  | Err e => Err ("locate running binary: " +:+ e)
  | Ok target => match EvalSymlinks target with Ok resolved => Ok resolved | Err _ => Ok target end
  end.

Definition selfUpdate (a : OsAnswers) (fs : FS) : result string string * FS :=
  let current := up_Version in
  if String.eqb current "" || String.eqb current "dev"
  then (Err "this is a dev build — install a release from https://trqsh.uz/download", fs)
  else match latestCLIVersion with
  | Err e => (Err e, fs)
  | Ok latest =>
      match compareVersions latest current with
      | Some cmp =>
          if cmp <=? 0 then (Ok ("trqsh " +:+ current +:+ " is already the latest"), fs)
          else match runningBinaryPath with
          | Err e => (Err e, fs)
          | Ok target =>
              match installUpdate a latest target fs with
              | (Some e, fs) => (Err e, fs)
              | (None, fs) => (Ok ("updated trqsh " +:+ current +:+ " → " +:+ latest), fs)
              end
          end
      | None => (Ok ("trqsh " +:+ current +:+ " is already the latest"), fs)
      end
  end.
End update.
