(* ===== verification/SelfUpdateSafety.v ===== *)
(** Self-update, proved: only a newer release with a verified signature and checksum is
    ever installed, and the program on disk is never lost or half written, whichever
    call of the operating system fails and wherever the process stops. *)
From S2P Require Import Prelude GoStrings GoText Console ConsoleCmds SelfUpdate.
From Stdlib Require Import Ascii.

Open Scope Z_scope.

(** * Versions are ordered *)
Lemma compare_parts_sym a b : length a = length b → compare_parts b a = - compare_parts a b.
Proof.
  revert b; induction a as [|x a IH]; intros [|y b] Hl; try done. cbn. injection Hl as Hl.
  rewrite (Z.eqb_sym y x). destruct (x =? y) eqn:E; [by apply IH|]. apply Z.eqb_neq in E.
  destruct (y <? x) eqn:E1, (x <? y) eqn:E2; try done;
    rewrite ?Z.ltb_lt, ?Z.ltb_ge in *; lia.
Qed.
Lemma compare_parts_lt_trans a b c : length a = length b → length b = length c →
  compare_parts a b < 0 → compare_parts b c < 0 → compare_parts a c < 0.
Proof.
  revert b c; induction a as [|x a IH]; intros [|y b] [|z c] Hab Hbc; try done. cbn.
  injection Hab as Hab. injection Hbc as Hbc.
  destruct (x =? y) eqn:E1, (y =? z) eqn:E2, (x =? z) eqn:E3;
    rewrite ?Z.eqb_eq, ?Z.eqb_neq in *; subst; try lia; try (by eapply IH);
    repeat case_match; rewrite ?Z.ltb_lt, ?Z.ltb_ge in *; lia.
Qed.
Lemma parse_parts_length ps ns : parse_parts ps = Some ns → length ns = length ps.
Proof.
  revert ns; induction ps as [|p ps IH]; intros ns Hp; cbn in Hp; [by simplify_eq|].
  destruct (Atoi p) as [n|]; [|done]. cbn in Hp. case_match; [done|].
  destruct (parse_parts ps) as [ms|]; [|done]. cbn in Hp. simplify_eq. cbn. by rewrite (IH ms).
Qed.
Lemma parseSemver_length v ns : parseSemver v = Some ns → length ns = 3%nat.
Proof. unfold parseSemver. case_match eqn:E; [|done]. intros Hp. apply parse_parts_length in Hp. apply Nat.eqb_eq in E. by rewrite Hp. Qed.
Lemma compare_parts_range a b : compare_parts a b = 1 ∨ compare_parts a b = 0 ∨ compare_parts a b = -1.
Proof. revert b; induction a as [|x a IH]; intros [|y b]; cbn; auto. repeat case_match; auto. Qed.

Definition older (a b : string) : Prop := compareVersions a b = Some (-1).
Lemma compareVersions_sym a b r : compareVersions a b = Some r → compareVersions b a = Some (- r).
Proof.
  unfold compareVersions. destruct (parseSemver a) as [pa|] eqn:Ea, (parseSemver b) as [pb|] eqn:Eb; cbn; try done.
  intros [= <-]. f_equal. apply compare_parts_sym. apply parseSemver_length in Ea, Eb. congruence.
Qed.
Lemma older_trans a b c : older a b → older b c → older a c.
Proof.
  unfold older, compareVersions. destruct (parseSemver a) as [pa|] eqn:Ea, (parseSemver b) as [pb|] eqn:Eb,
    (parseSemver c) as [pc|] eqn:Ec; cbn; try done.
  intros [= H1] [= H2]. f_equal. apply parseSemver_length in Ea, Eb, Ec.
  assert (compare_parts pa pc < 0) by (eapply (compare_parts_lt_trans pa pb pc); congruence || lia).
  destruct (compare_parts_range pa pc) as [|[|]]; lia.
Qed.
Lemma older_irrefl a : ¬ older a a.
Proof. intros Ha. pose proof (compareVersions_sym _ _ _ Ha) as Hb. unfold older in Ha. rewrite Ha in Hb. done. Qed.

(** * The binary on disk *)
Section replace.
Context `{Updater}.
Variable a : OsAnswers.
Variable target : string.
Variable fs : FS.
Variable old : File.
Hypothesis Hold : fs !! target = Some old.
(** os.CreateTemp makes a new file, with a name of its own. *)
Hypothesis Hfresh : ∀ tmp, an_create a = Ok tmp → fs !! tmp = None ∧ tmp ≠ target ∧ tmp ≠ target +:+ ".old".

Abbreviation aside := (target +:+ ".old").
Lemma aside_ne : aside ≠ target.
Proof.
  intros E. apply (f_equal String.length) in E. rewrite length_app_string in E. cbn in E. lia.
Qed.

Definition fresh_file (data : string) : File := {| fl_data := data; fl_mode := 493 |}.
(** The program is in place, old or new, or (while Windows has none in place) aside. *)
Definition intact (newData : string) (s : FS) : Prop :=
  s !! target = Some old ∨ s !! target = Some (fresh_file newData) ∨
  (on_windows = true ∧ s !! target = None ∧ s !! aside = Some old).
Definition unmoved (s : FS) : Prop := s !! target = Some old.

Lemma unmoved_remove b p s : p ≠ target → unmoved s → unmoved (fs_remove b p s).
Proof. intros Hp Hs. unfold unmoved, fs_remove. destruct b; [by rewrite lookup_delete_ne|done]. Qed.
Lemma unmoved_create p s : p ≠ target → unmoved s → unmoved (fs_create p s).
Proof. intros Hp Hs. unfold unmoved, fs_create. by rewrite lookup_insert_ne. Qed.
Lemma unmoved_write p d s : p ≠ target → unmoved s → unmoved (fs_write p d s).
Proof. intros Hp Hs. unfold unmoved, fs_write. case_match; [by rewrite lookup_insert_ne|done]. Qed.
Lemma unmoved_chmod p d s : p ≠ target → unmoved s → unmoved (fs_chmod p d s).
Proof. intros Hp Hs. unfold unmoved, fs_chmod. case_match; [by rewrite lookup_insert_ne|done]. Qed.

(** The new file, complete and executable, before anything is renamed. *)
Definition prepared (tmp newData : string) : FS := fs_chmod tmp 493 (fs_write tmp newData (fs_create tmp fs)).
Lemma prepared_tmp tmp newData : prepared tmp newData !! tmp = Some (fresh_file newData).
Proof.
  unfold prepared, fs_chmod, fs_write, fs_create. rewrite lookup_insert_eq. cbn. rewrite lookup_insert_eq. cbn.
  by rewrite lookup_insert_eq.
Qed.
Lemma prepared_unmoved tmp newData : tmp ≠ target → unmoved (prepared tmp newData).
Proof. intros Hn. by apply unmoved_chmod, unmoved_write, unmoved_create. Qed.

(** Windows: the old program set aside, the new one in its place, or the old one back. *)
Lemma set_aside s : unmoved s → fs_rename target aside s !! target = None ∧ fs_rename target aside s !! aside = Some old.
Proof.
  intros Hs. unfold fs_rename. rewrite Hs. split.
  - rewrite lookup_insert_ne by apply aside_ne. apply lookup_delete_eq.
  - apply lookup_insert_eq.
Qed.
Lemma put_back s : s !! aside = Some old → fs_rename aside target s !! target = Some old.
Proof. intros Hs. unfold fs_rename. rewrite Hs. apply lookup_insert_eq. Qed.
Lemma put_new s tmp f : s !! tmp = Some f → fs_rename tmp target s !! target = Some f.
Proof. intros Hs. unfold fs_rename. rewrite Hs. apply lookup_insert_eq. Qed.
Lemma keep_tmp s tmp f : tmp ≠ target → tmp ≠ aside → s !! tmp = Some f → fs_rename target aside s !! tmp = Some f.
Proof.
  intros H1 H2 Hs. unfold fs_rename. case_match; [|done].
  by rewrite lookup_insert_ne, lookup_delete_ne.
Qed.

(** What a replacement leaves: [intact] after every call; at the end the new program
    after success, and after an error the old one, in place or aside. *)
Definition replaced (newData : string) (r : option string * list FS) : Prop :=
  (∀ s, s ∈ r.2 → intact newData s) ∧
  ∃ s, list.last r.2 = Some s ∧
    match r.1 with
    | None => s !! target = Some (fresh_file newData)
    | Some _ => unmoved s ∨ (on_windows = true ∧ s !! target = None ∧ s !! aside = Some old)
    end.

Lemma intact_all newData l : Forall (intact newData) l → ∀ s, s ∈ l → intact newData s.
Proof. by rewrite list.Forall_forall. Qed.
Lemma intact_unmoved newData s : unmoved s → intact newData s.
Proof. by left. Qed.

Ltac each_state := apply intact_all; repeat first [apply List.Forall_nil|apply List.Forall_cons].

Lemma replaced_failed newData e l s :
  Forall unmoved l → list.last l = Some s → replaced newData (Some e, l).
Proof.
  intros Hl Hs. split.
  - intros x Hx. apply intact_unmoved. rewrite list.Forall_forall in Hl. by apply Hl.
  - exists s. split; [done|]. left. rewrite list.Forall_forall in Hl. apply Hl. by apply last_Some_elem_of.
Qed.

(** The renames, with the new file prepared. *)
Lemma replaced_unix newData tmp pre : tmp ≠ target → on_windows = false → Forall unmoved pre →
  let fs3 := prepared tmp newData in
  replaced newData (match an_rename a with
    | Some e => (Some (permissionHint ("replace " +:+ target +:+ ": " +:+ oe_text e) e),
                 pre ++ [fs3; fs_remove (an_remove_tmp a) tmp fs3])
    | None => (None, pre ++ [fs3; fs_rename tmp target fs3]) end).
Proof.
  intros Ht Hw Hpre fs3. assert (U3 : unmoved fs3) by by apply prepared_unmoved.
  assert (Hn : fs_rename tmp target fs3 !! target = Some (fresh_file newData)) by apply put_new, prepared_tmp.
  destruct (an_rename a) as [e|].
  - eapply replaced_failed; [|by rewrite last_app]. apply Forall_app. split; [done|].
    repeat constructor; [done|by apply unmoved_remove].
  - split; cbn [fst snd].
    + intros s [Hs|Hs]%elem_of_app; [left; rewrite list.Forall_forall in Hpre; by apply Hpre|].
      revert s Hs. each_state; [by left|right; by left].
    + eexists. split; [by rewrite last_app|done].
Qed.

Lemma replaced_windows newData tmp pre : tmp ≠ target → tmp ≠ aside → on_windows = true → Forall unmoved pre →
  let fs3 := prepared tmp newData in
  let fs4 := fs_remove (an_remove_stale a) aside fs3 in
  let fs5 := fs_rename target aside fs4 in
  replaced newData (match an_rename_aside a with
    | Some e => (Some (permissionHint ("replace " +:+ target +:+ ": " +:+ oe_text e) e),
                 pre ++ [fs3; fs4; fs_remove (an_remove_tmp a) tmp fs4])
    | None =>
        match an_rename a with
        | Some e =>
            let fs6 := match an_revert a with Some _ => fs5 | None => fs_rename aside target fs5 end in
            (Some (permissionHint ("replace " +:+ target +:+ ": " +:+ oe_text e) e), pre ++ [fs3; fs4; fs5; fs6])
        | None =>
            let fs6 := fs_rename tmp target fs5 in
            (None, pre ++ [fs3; fs4; fs5; fs6; fs_remove (an_remove_old a) aside fs6])
        end
    end).
Proof.
  intros Ht Ha Hw Hpre fs3 fs4 fs5. assert (U3 : unmoved fs3) by by apply prepared_unmoved.
  assert (U4 : unmoved fs4) by (apply unmoved_remove; [apply aside_ne|done]).
  destruct (set_aside fs4 U4) as [N5 A5]. fold fs5 in N5, A5.
  assert (T4 : fs4 !! tmp = Some (fresh_file newData)).
  { subst fs4 fs3. unfold fs_remove. destruct (an_remove_stale a); [rewrite lookup_delete_ne by done|]; apply prepared_tmp. }
  assert (T5 : fs5 !! tmp = Some (fresh_file newData)) by by apply keep_tmp.
  assert (I5 : intact newData fs5) by (right; right; done).
  assert (Hpre' : ∀ s, s ∈ pre → intact newData s) by (intros s Hs; left; rewrite list.Forall_forall in Hpre; by apply Hpre).
  destruct (an_rename_aside a) as [e|]; [|destruct (an_rename a) as [e|]].
  - eapply replaced_failed; [|by rewrite last_app]. apply Forall_app. split; [done|].
    repeat constructor; [done|done|by apply unmoved_remove].
  - set (fs6 := match an_revert a with Some _ => fs5 | None => _ end).
    assert (I6 : unmoved fs6 ∨ (on_windows = true ∧ fs6 !! target = None ∧ fs6 !! aside = Some old)).
    { subst fs6. destruct (an_revert a); [by right|left; by apply put_back]. }
    split; cbn [fst snd].
    + intros s [Hs|Hs]%elem_of_app; [auto|]. revert s Hs. each_state; [by left|by left|done|].
      destruct I6 as [?|?]; [by left|right; by right].
    + eexists. split; [by rewrite last_app|done].
  - set (fs6 := fs_rename tmp target fs5). assert (I6 : fs6 !! target = Some (fresh_file newData)) by by apply put_new.
    assert (I7 : fs_remove (an_remove_old a) aside fs6 !! target = Some (fresh_file newData)).
    { unfold fs_remove. destruct (an_remove_old a); [by rewrite lookup_delete_ne by apply aside_ne|done]. }
    split; cbn [fst snd].
    + intros s [Hs|Hs]%elem_of_app; [auto|]. revert s Hs.
      each_state; [by left|by left|done|right; by left|right; by left].
    + eexists. split; [by rewrite last_app|done].
Qed.

Lemma replace_replaced newData : replaced newData (replace_states a target newData fs).
Proof.
  unfold replace_states. assert (U0 : unmoved fs) by done.
  destruct (an_create a) as [tmp|e] eqn:Ec; [|by eapply replaced_failed; [repeat constructor|]].
  destruct (Hfresh tmp eq_refl) as (Hn & Ht & Ha).
  assert (U1 : unmoved (fs_create tmp fs)) by by apply unmoved_create.
  set (fs2 := match an_write a with Some (n, _) => _ | None => _ end).
  assert (U2 : unmoved fs2) by (subst fs2; destruct (an_write a) as [[n e]|]; by apply unmoved_write).
  assert (U2' : ∀ b, unmoved (fs_remove b tmp fs2)) by (intros b; by apply unmoved_remove).
  destruct (bool_decide (snd <$> an_write a ≠ None) || bool_decide (an_close a ≠ None)) eqn:Ew.
  { eapply replaced_failed; [repeat constructor; auto|done]. }
  assert (E2 : fs2 = fs_write tmp newData (fs_create tmp fs)).
  { subst fs2. destruct (an_write a) as [[n e]|]; [|done]. apply orb_false_iff in Ew as [Ew _].
    by apply bool_decide_eq_false in Ew; cbn in Ew; exfalso; apply Ew. }
  destruct (an_chmod a) as [e|]; [eapply replaced_failed; [repeat constructor; auto|done]|].
  rewrite E2 in *. fold (prepared tmp newData).
  destruct on_windows eqn:Hw.
  - exact (replaced_windows newData tmp [fs; fs_create tmp fs; fs_write tmp newData (fs_create tmp fs)] Ht Ha Hw
      ltac:(repeat constructor; done)).
  - exact (replaced_unix newData tmp [fs; fs_create tmp fs; fs_write tmp newData (fs_create tmp fs)] Ht Hw
      ltac:(repeat constructor; done)).
Qed.
End replace.

Section theorems.
Context `{Updater}.

(** What a replacement leaves at its end. *)
Lemma replaceBinary_outcome a target fs old newData :
  fs !! target = Some old →
  (∀ tmp, an_create a = Ok tmp → fs !! tmp = None ∧ tmp ≠ target ∧ tmp ≠ target +:+ ".old") →
  let '(e, final) := replaceBinary a target newData fs in
  match e with
  | None => final !! target = Some {| fl_data := newData; fl_mode := 493 |}
  | Some _ => final !! target = Some old ∨
              (on_windows = true ∧ final !! target = None ∧ final !! (target +:+ ".old") = Some old)
  end.
Proof.
  intros Ho Hf. destruct (replace_replaced a target fs old Ho Hf newData) as [_ (s & Hl & Hs)].
  unfold replaceBinary. destruct (replace_states a target newData fs) as [e states]. cbn in *.
  rewrite Hl. cbn. by destruct e.
Qed.

(** C29: an update never costs the user the program: from a state where the program is at
    [target], after every single call that replaceBinary makes, whichever of them
    fails and however much a failing write wrote, [target] holds the whole old program
    or the whole new one, executable; only on Windows it is for a moment absent, and
    then the old one stands beside it under the name it was moved to.  Success means
    that the new program is in place, an error that the old one is, or is aside
    because Windows could not move it back. *)
Theorem binary_never_lost a target fs old newData :
  fs !! target = Some old →
  (∀ tmp, an_create a = Ok tmp → fs !! tmp = None ∧ tmp ≠ target ∧ tmp ≠ target +:+ ".old") →
  let '(e, final) := replaceBinary a target newData fs in
  (∀ s, s ∈ (replace_states a target newData fs).2 → intact target old newData s) ∧
  match e with
  | None => final !! target = Some {| fl_data := newData; fl_mode := 493 |}
  | Some _ => final !! target = Some old ∨
              (on_windows = true ∧ final !! target = None ∧ final !! (target +:+ ".old") = Some old)
  end.
Proof.
  intros Ho Hf. pose proof (replaceBinary_outcome a target fs old newData Ho Hf) as Hout.
  destruct (replace_replaced a target fs old Ho Hf newData) as [Hi _].
  destruct (replaceBinary a target newData fs) as [e final]. done.
Qed.

(** ** Nothing else on disk changes *)
Lemma remove_frame b p q (s : FS) : p ≠ q → fs_remove b p s !! q = s !! q.
Proof. intros Hn. unfold fs_remove. destruct b; [by rewrite lookup_delete_ne|done]. Qed.
Lemma create_frame p q (s : FS) : p ≠ q → fs_create p s !! q = s !! q.
Proof. intros Hn. unfold fs_create. by rewrite lookup_insert_ne. Qed.
Lemma write_frame p q d (s : FS) : p ≠ q → fs_write p d s !! q = s !! q.
Proof. intros Hn. unfold fs_write. case_match; [by rewrite lookup_insert_ne|done]. Qed.
Lemma chmod_frame p q d (s : FS) : p ≠ q → fs_chmod p d s !! q = s !! q.
Proof. intros Hn. unfold fs_chmod. case_match; [by rewrite lookup_insert_ne|done]. Qed.
Lemma rename_frame p p' q (s : FS) : p ≠ q → p' ≠ q → fs_rename p p' s !! q = s !! q.
Proof. intros H1 H2. unfold fs_rename. case_match; [by rewrite lookup_insert_ne, lookup_delete_ne|done]. Qed.

Lemma replace_frame a target newData fs q :
  q ≠ target → q ≠ target +:+ ".old" → an_create a ≠ Ok q →
  (replaceBinary a target newData fs).2 !! q = fs !! q.
Proof.
  intros H1 H2 H3. unfold replaceBinary, replace_states. destruct (an_create a) as [tmp|e]; [|done].
  assert (Hq : tmp ≠ q) by congruence.
  destruct (bool_decide (snd <$> an_write a ≠ None) || bool_decide (an_close a ≠ None)), (an_chmod a), on_windows,
    (an_rename_aside a), (an_rename a), (an_revert a); cbn;
    rewrite ?remove_frame by done; rewrite ?rename_frame by done; rewrite ?remove_frame by done;
    rewrite ?rename_frame by done; rewrite ?remove_frame by done; rewrite ?chmod_frame by done;
    destruct (an_write a) as [[n w]|]; rewrite write_frame by done; by apply create_frame.
Qed.

(** * Only verified releases are installed *)

(** sigstore-go accepted [bundle] as a signature over [sums], asking for a certificate
    timestamp, a log entry and an observer timestamp, made by a workflow of the
    repository uzcreator/trqsh with a token of GitHub Actions. *)
Definition signed_by_release_workflow (sums bundle : string) : Prop :=
  ∃ root verifier b id,
    FetchTrustedRoot = Ok root ∧ NewVerifier root 1 1 1 = Ok verifier ∧ bundle_UnmarshalJSON bundle = Ok b ∧
    NewShortCertificateIdentity "https://token.actions.githubusercontent.com" "" ""
      "https://github.com/uzcreator/trqsh/.*" = Ok id ∧
    sg_Verify verifier b sums id = None.
(** A line of the checksums file gives this file's SHA-256, in lower or upper case. *)
Definition lists_sum (sums archive data : string) : Prop :=
  ∃ line sum name, line ∈ lines_of sums ∧ Fields line = [sum; name] ∧ (name = archive ∨ name = "*" +:+ archive) ∧
    ToLower sum = EncodeToString (Sum256 data).

(** What must be true of a release before a byte of it reaches the disk. *)
Definition authentic (version bin : string) : Prop :=
  latestCLIVersion = Ok version ∧ older up_Version version ∧
  ∃ data sums bundle,
    fetchURL (release_file version (archive_name version)) "" = Ok data ∧
    fetchURL (release_file version "checksums.txt") "" = Ok sums ∧
    fetchURL (release_file version "checksums.txt.sigstore.json") "" = Ok bundle ∧
    signed_by_release_workflow sums bundle ∧
    lists_sum sums (archive_name version) data ∧
    extractBinaryFromArchive data archive_ext bin_name = Ok bin.

Lemma verifySigstoreBundle_ok sums bundle :
  verifySigstoreBundle sums bundle = None → signed_by_release_workflow sums bundle.
Proof.
  unfold verifySigstoreBundle. destruct FetchTrustedRoot as [root|e] eqn:E1; [|done].
  destruct (NewVerifier root 1 1 1) as [v|e] eqn:E2; [|done].
  destruct (bundle_UnmarshalJSON bundle) as [b|e] eqn:E3; [|done].
  destruct (NewShortCertificateIdentity _ _ _ _) as [id|e] eqn:E4; [|done].
  destruct (sg_Verify v b sums id) as [e|] eqn:E5; [done|]. intros _. by exists root, v, b, id.
Qed.
Lemma checksum_line_inv archive line want : checksum_line archive line = Some want →
  ∃ sum name, Fields line = [sum; name] ∧ (name = archive ∨ name = "*" +:+ archive) ∧ ToLower sum = want.
Proof.
  unfold checksum_line. destruct (Fields line) as [|sum [|name [|x l]]]; try done.
  destruct (String.eqb (TrimPrefix name "*") archive) eqn:E; [|done]. intros [= <-]. apply String.eqb_eq in E.
  exists sum, name. split; [done|]. split; [|done]. unfold TrimPrefix in E. case_match eqn:Ep; [|by left]. right.
  apply HasPrefix_spec in Ep as [r ->]. by rewrite drop_string_app in E; subst.
Qed.
Lemma find_sum_listed archive lines : find_sum archive lines ≠ "" →
  ∃ line, line ∈ lines ∧ checksum_line archive line = Some (find_sum archive lines).
Proof.
  induction lines as [|l lines IH]; [done|]. cbn. destruct (checksum_line archive l) as [w|] eqn:E.
  - intros _. exists l. split; [by left|done].
  - intros Hn. destruct (IH Hn) as (line & Hl & Hc). exists line. split; [by right|done].
Qed.
Lemma verifyChecksum_ok data archive sums : verifyChecksum data archive sums = None → lists_sum sums archive data.
Proof.
  unfold verifyChecksum. case_match eqn:E0; [done|]. case_match eqn:E; [|done]. intros _.
  apply String.eqb_neq in E0. apply String.eqb_eq in E.
  destruct (find_sum_listed _ _ E0) as (line & Hl & (sum & name & Hf & Hn & Hs)%checksum_line_inv).
  exists line, sum, name. by rewrite E.
Qed.
Lemma verified_authentic version bin : verified_binary version = Ok bin →
  latestCLIVersion = Ok version → older up_Version version → authentic version bin.
Proof.
  intros Hv Hl Ho. split; [done|]. split; [done|]. unfold verified_binary in Hv.
  destruct (fetchURL (release_file version (archive_name version)) "") as [data|e]; [|done].
  destruct (fetchURL (release_file version "checksums.txt") "") as [sums|e]; [|done].
  destruct (fetchURL (release_file version "checksums.txt.sigstore.json") "") as [bundle|e]; [|done].
  destruct (verifySigstoreBundle sums bundle) as [e|] eqn:Es; [done|].
  destruct (verifyChecksum data (archive_name version) sums) as [e|] eqn:Ec; [done|].
  destruct (extractBinaryFromArchive data archive_ext bin_name) as [b|e] eqn:Eb; [|done].
  exists data, sums, bundle. apply verifyChecksum_ok in Ec. apply verifySigstoreBundle_ok in Es. by simplify_eq.
Qed.
Lemma newer_older latest cmp : compareVersions latest up_Version = Some cmp → 0 < cmp → older up_Version latest.
Proof.
  intros Hc Hp. unfold older. rewrite (compareVersions_sym _ _ _ Hc). f_equal. unfold compareVersions in Hc.
  destruct (parseSemver latest) as [pa|]; [|done]. destruct (parseSemver up_Version) as [pb|]; [|done]. cbn in Hc.
  simplify_eq. destruct (compare_parts_range pa pb) as [E|[E|E]]; lia.
Qed.

(** C28: self-update installs nothing it has not verified: if it changes anything on disk,
    then what it writes is the program found in the archive of the newest published
    release, which is strictly newer than the running one, whose checksums file
    carries a bundle that sigstore accepts as a signature by the release workflow of
    uzcreator/trqsh and has a line with the archive's own SHA-256; no other file than
    the program, its temporary copy and the one set aside changes; and, the running
    program being on disk and the temporary file a new one, when it reports success
    the release's program is in place, executable, and when it reports an error the
    old one is, or stands aside on Windows. *)
Theorem update_is_authentic a fs r final :
  selfUpdate a fs = (r, final) → final ≠ fs →
  ∃ target version bin, runningBinaryPath = Ok target ∧ authentic version bin ∧
    final = (replaceBinary a target bin fs).2 ∧
    (∀ q, q ≠ target → q ≠ target +:+ ".old" → an_create a ≠ Ok q → final !! q = fs !! q) ∧
    (∀ old, fs !! target = Some old →
      (∀ tmp, an_create a = Ok tmp → fs !! tmp = None ∧ tmp ≠ target ∧ tmp ≠ target +:+ ".old") →
      match r with
      | Ok _ => final !! target = Some {| fl_data := bin; fl_mode := 493 |}
      | Err _ => final !! target = Some old ∨
                 (on_windows = true ∧ final !! target = None ∧ final !! (target +:+ ".old") = Some old)
      end).
Proof.
  unfold selfUpdate. intros HU Hne. case_match; [by simplify_eq|].
  destruct latestCLIVersion as [latest|e] eqn:El; [|by simplify_eq].
  destruct (compareVersions latest up_Version) as [cmp|] eqn:Ec; [|by simplify_eq].
  destruct (cmp <=? 0) eqn:Ep; [by simplify_eq|]. apply Z.leb_gt in Ep.
  destruct runningBinaryPath as [target|e] eqn:Et; [|by simplify_eq].
  unfold installUpdate in HU. destruct (verified_binary latest) as [bin|e] eqn:Ev; [|by simplify_eq].
  exists target, latest, bin.
  assert (Hf : final = (replaceBinary a target bin fs).2 ∧ (is_ok r = true ↔ (replaceBinary a target bin fs).1 = None)).
  { destruct (replaceBinary a target bin fs) as [[e|] s]; simplify_eq; done. }
  destruct Hf as [-> Hr]. split; [done|]. split; [by eapply verified_authentic, newer_older|].
  split; [done|]. split; [intros q; apply replace_frame|].
  intros old Ho Hfr. pose proof (replaceBinary_outcome a target fs old bin Ho Hfr) as Hout.
  destruct r as [m|e], (replaceBinary a target bin fs) as [[e'|] s]; cbn in *; try done; by destruct Hr.
Qed.

(** The console offers any release that differs from the running one, an older one too. *)
Lemma older_release_announced `{Terminal} onUpdate w :
  older "1.9.0" "2.0.0" ∧
  exec_update true "2.0.0" (Some (λ w, (Ok "1.9.0", w))) onUpdate w =
    (say [Render stWarn "  ▲ update available: " +:+ Render stKey "2.0.0 → 1.9.0";
          Render stDim "  run " +:+ Render stKey "/update" +:+ Render stDim " to install it"], w).
Proof. split; [by vm_compute|reflexivity]. Qed.
End theorems.

(** * Witnesses *)
Definition no_failures : OsAnswers :=
  {| an_create := Ok "/usr/bin/.trqsh-update-1"; an_write := None; an_close := None; an_chmod := None;
     an_rename_aside := None; an_rename := None; an_revert := None;
     an_remove_tmp := true; an_remove_stale := true; an_remove_old := true |}.
Definition demo_answer (body : string) : result string HttpAnswer :=
  Ok {| hr_Status := 200; hr_RateRemaining := ""; hr_Body := body; hr_ReadErr := None |}.
(** The bundle is accepted for these checksums and this identity only. *)
Definition demo_sums : string := "AB  *trqsh_1.1.0_linux_amd64.tar.gz".
#[local] Instance demo_sigstore : Sigstore := {|
  TrustedRoot := unit; Verifier := Z * Z * Z; Bundle := string; CertificateIdentity := string * string;
  FetchTrustedRoot := Ok (); NewVerifier := λ _ scts tlogs times, Ok (scts, tlogs, times);
  bundle_UnmarshalJSON := λ b, if HasPrefix b "SIG" then Ok b else Err "not a bundle";
  NewShortCertificateIdentity := λ issuer _ _ san, Ok (issuer, san);
  sg_Verify := λ v b sums id,
    if bool_decide (v = (1, 1, 1)) && String.eqb b "SIG" && String.eqb sums demo_sums
       && bool_decide (id = (releaseCertOIDCIssuer, releaseCertIdentityRegexp))
    then None else Some "no matching signature";
|}.
#[local] Instance demo_updater : Updater := {|
  up_GOOS := "linux"; up_GOARCH := "amd64"; up_Version := "1.0.0";
  http_Get := λ url _,
    if HasSuffix url ".tar.gz" then demo_answer "ARCHIVE"
    else if HasSuffix url "checksums.txt" then demo_answer demo_sums
    else if HasSuffix url ".json" then demo_answer "SIG"
    else demo_answer "RELEASES";
  dec_Releases := λ _, Ok [{| rl_TagName := "v1.2.0"; rl_Draft := true; rl_Prerelease := false |};
                           {| rl_TagName := "v1.1.0"; rl_Draft := false; rl_Prerelease := false |}];
  Sum256 := λ _, [171];
  up_Sigstore := demo_sigstore;
  zip_NewReader := λ _, Err "not a zip";
  tar_Entries := λ data, if String.eqb data "ARCHIVE" then
    Ok [TarEntry true "README.md" "hello" None; TarEntry true "trqsh_1.1.0/trqsh" "PROGRAM 1.1.0" None] else Err "not a tar";
  os_Executable := Ok "/usr/local/bin/trqsh";
  EvalSymlinks := λ _, Ok "/usr/bin/trqsh";
|}.
Definition demo_fs : FS := {["/usr/bin/trqsh" := {| fl_data := "PROGRAM 1.0.0"; fl_mode := 493 |}]}.

Example demo_update : (selfUpdate no_failures demo_fs).1 = Ok "updated trqsh 1.0.0 → 1.1.0" ∧
  (selfUpdate no_failures demo_fs).2 !! "/usr/bin/trqsh" = Some {| fl_data := "PROGRAM 1.1.0"; fl_mode := 493 |}.
Proof. split; by vm_compute. Qed.

Lemma binary_never_lost_witness :
  let '(e, final) := replaceBinary no_failures "/usr/bin/trqsh" "PROGRAM 1.1.0" demo_fs in
  (∀ s, s ∈ (replace_states no_failures "/usr/bin/trqsh" "PROGRAM 1.1.0" demo_fs).2 →
     intact "/usr/bin/trqsh" {| fl_data := "PROGRAM 1.0.0"; fl_mode := 493 |} "PROGRAM 1.1.0" s) ∧
  match e with
  | None => final !! "/usr/bin/trqsh" = Some {| fl_data := "PROGRAM 1.1.0"; fl_mode := 493 |}
  | Some _ => final !! "/usr/bin/trqsh" = Some {| fl_data := "PROGRAM 1.0.0"; fl_mode := 493 |} ∨
              (on_windows = true ∧ final !! "/usr/bin/trqsh" = None ∧
               final !! ("/usr/bin/trqsh" +:+ ".old") = Some {| fl_data := "PROGRAM 1.0.0"; fl_mode := 493 |})
  end.
Proof.
  apply (binary_never_lost no_failures "/usr/bin/trqsh" demo_fs); [by vm_compute|].
  intros tmp [= <-]. split; [by vm_compute|]. split; done.
Defined.

Lemma update_is_authentic_witness :
  ∃ target version bin, runningBinaryPath = Ok target ∧ authentic version bin ∧
    (selfUpdate no_failures demo_fs).2 = (replaceBinary no_failures target bin demo_fs).2 ∧
    (∀ q, q ≠ target → q ≠ target +:+ ".old" → an_create no_failures ≠ Ok q → (selfUpdate no_failures demo_fs).2 !! q = demo_fs !! q) ∧
    (∀ old, demo_fs !! target = Some old →
      (∀ tmp, an_create no_failures = Ok tmp → demo_fs !! tmp = None ∧ tmp ≠ target ∧ tmp ≠ target +:+ ".old") →
      match (selfUpdate no_failures demo_fs).1 with
      | Ok _ => (selfUpdate no_failures demo_fs).2 !! target = Some {| fl_data := bin; fl_mode := 493 |}
      | Err _ => (selfUpdate no_failures demo_fs).2 !! target = Some old ∨
                 (on_windows = true ∧ (selfUpdate no_failures demo_fs).2 !! target = None ∧
                  (selfUpdate no_failures demo_fs).2 !! (target +:+ ".old") = Some old)
      end).
Proof.
  apply (update_is_authentic no_failures demo_fs); [by destruct (selfUpdate no_failures demo_fs)|].
  intros E. apply (f_equal (lookup "/usr/bin/trqsh")) in E. by vm_compute in E.
Defined.
