(* ===== verification/Launcher.v ===== *)
(** The command line around the console (internal/agent/cli: cli.go, control.go,
    daemon.go, dashboard.go, helpers.go): which configuration the console and the
    background daemon it starts run with, how the console waits for the daemon, and
    the token they share.

    Flags are parsed by pflag, a third-party library: a function with the law that it
    reads back long flags as they were written ([PflagLaws]). *)
From S2P Require Import Prelude GoStrings GoText AgentConf Agent LocalApi Console.
From Stdlib Require Import Ascii.

Open Scope Z_scope.

(** * Flags *)

(** The flags given on a command line: presence is what [Changed] reports; a boolean
    flag has the value true or false. *)
Abbreviation FlagSet := (gmap string string).
Definition Changed (fl : FlagSet) (name : string) : bool := bool_decide (is_Some (fl !! name)).
Definition flag_value (fl : FlagSet) (name def : string) : string := default def (fl !! name).

(** globalFlags: the variables the flags are bound to, with the defaults of newRootCmd. *)
Record globalFlags := {
  gf_configPath : string; gf_server : string; gf_region : string; gf_transport : string; gf_insecure : bool;
  gf_logFormat : string; gf_inspectorA : string; gf_controlA : string;
}.
Definition newRootCmd (fl : FlagSet) : globalFlags :=
  {| gf_configPath := flag_value fl "config" ""; gf_server := flag_value fl "server" "";
     gf_region := flag_value fl "region" ""; gf_transport := flag_value fl "transport" "";
     gf_insecure := String.eqb (flag_value fl "insecure" "false") "true"; gf_logFormat := flag_value fl "log" "text";
     gf_inspectorA := flag_value fl "inspector-addr" ""; gf_controlA := flag_value fl "control-addr" "" |}.

Definition over_flag (fl : FlagSet) (name v dst : string) : string := if Changed fl name then v else dst.
(** The overlay of loadConfig on what agent.Load returned. *)
Definition apply_flags (fl : FlagSet) (g : globalFlags) (cfg : Config) : Config :=
  {| cf_Version := cf_Version cfg; cf_APIKey := cf_APIKey cfg;
     cf_Server := over_flag fl "server" (gf_server g) (cf_Server cfg);
     cf_Region := over_flag fl "region" (gf_region g) (cf_Region cfg);
     cf_Transport := over_flag fl "transport" (gf_transport g) (cf_Transport cfg);
     cf_Tunnels := cf_Tunnels cfg;
     cf_Inspector := {| ic_Enabled := ic_Enabled (cf_Inspector cfg);
                        ic_Addr := over_flag fl "inspector-addr" (gf_inspectorA g) (ic_Addr (cf_Inspector cfg)) |};
     cf_LogLevel := cf_LogLevel cfg;
     cf_ControlAddr := over_flag fl "control-addr" (gf_controlA g) (cf_ControlAddr cfg);
     cf_APIBase := cf_APIBase cfg;
     cf_Insecure := if Changed fl "insecure" then gf_insecure g else cf_Insecure cfg |}.

(** The flags daemonPassthroughFlags hands on, in order, and their text. *)
Definition passthrough (g : globalFlags) (fl : FlagSet) : list (string * string) :=
  (if Changed fl "config" && negb (String.eqb (gf_configPath g) "") then [("config", gf_configPath g)] else []) ++
  (if Changed fl "server" then [("server", gf_server g)] else []) ++
  (if Changed fl "region" then [("region", gf_region g)] else []) ++
  (if Changed fl "transport" then [("transport", gf_transport g)] else []) ++
  (if Changed fl "insecure" && gf_insecure g then [("insecure", "true")] else []) ++
  (if Changed fl "control-addr" then [("control-addr", gf_controlA g)] else []) ++
  (if Changed fl "log" then [("log", gf_logFormat g)] else []).
Definition flag_args (f : string * string) : list string :=
  if String.eqb f.1 "insecure" then ["--insecure"] else ["--" +:+ f.1; f.2].
Definition daemonPassthroughFlags (g : globalFlags) (fl : FlagSet) : list string := concat (flag_args <$> passthrough g fl).

(** pflag: the flags of a command line. *)
Class Pflag := { pflag_Parse : list string → FlagSet }.
Definition known_flag (name : string) : Prop :=
  name ∈ ["config"; "server"; "region"; "transport"; "insecure"; "log"; "inspector-addr"; "control-addr"].
Class PflagLaws `{Pflag} := {
  pflag_reads_back : ∀ l : list (string * string),
    NoDup l.*1 → (∀ f, f ∈ l → known_flag f.1 ∧ (f.1 = "insecure" → f.2 = "true")) →
    pflag_Parse (concat (flag_args <$> l)) = list_to_map l;
}.

Section launcher.
Context {Doc : Type} `{Yaml Doc} `{Pflag}.

(** The files by path; [""] is the default path, as in agent.Load. *)
Variable disk : string → Disk Doc.
Variable env : Environ.

Definition loadConfig (g : globalFlags) (fl : FlagSet) : result string Config :=
  match Load env (disk (gf_configPath g)) with
  | Err e => Err e
  | Ok cfg => Ok (apply_flags fl g cfg)
  end.
(** What the user's command line and the daemon's make of it. *)
Definition console_config (args : list string) : result string Config :=
  let fl := pflag_Parse args in loadConfig (newRootCmd fl) fl.
Definition daemon_args (args : list string) : list string :=
  let fl := pflag_Parse args in daemonPassthroughFlags (newRootCmd fl) fl.
Definition default_control (c : Config) : Config :=
  if String.eqb (cf_ControlAddr c) "" then
    {| cf_Version := cf_Version c; cf_APIKey := cf_APIKey c; cf_Server := cf_Server c; cf_Region := cf_Region c;
       cf_Transport := cf_Transport c; cf_Tunnels := cf_Tunnels c; cf_Inspector := cf_Inspector c;
       cf_LogLevel := cf_LogLevel c; cf_ControlAddr := "127.0.0.1:4041"; cf_APIBase := cf_APIBase c; cf_Insecure := cf_Insecure c |}
  else c.
Definition daemon_config (args : list string) : result string Config :=
  match console_config args with Err e => Err e | Ok cfg => Ok (default_control cfg) end.

(** control.go *)
Definition controlAddr (cfg : Config) : string :=
  if String.eqb (cf_ControlAddr cfg) "" then "127.0.0.1:4041" else cf_ControlAddr cfg.
End launcher.

(** ** Waiting for the daemon *)

(** One turn of a polling loop: the clock before the turn, and whether /healthz answered. *)
Record Probe := { pr_now : Time; pr_alive : bool }.
(** ensureDaemon after the start: ready, timed out, or more turns needed. *)
Fixpoint wait_ready (deadline : Time) (probes : list Probe) : option bool :=
  match probes with
  | [] => None
  | p :: probes =>
      if Before (pr_now p) deadline then (if pr_alive p then Some true else wait_ready deadline probes) else Some false
  end.
Fixpoint waitDaemonExit (deadline : Time) (probes : list Probe) : option unit :=
  match probes with
  | [] => None
  | p :: probes =>
      if Before (pr_now p) deadline then (if pr_alive p then waitDaemonExit deadline probes else Some tt) else Some tt
  end.
Definition readyTimeout : Duration := 10 * Second.
Definition pollInterval : Duration := 200 * Millisecond.

(** The outcome of starting the daemon's process, and the token's file. *)
Record Spawn := { sw_exe : result string unit; sw_start : option string }.
Definition ensureDaemon (alive noAuth : bool) (rnd : result string (list Z)) (sp : Spawn) (now : Time) (probes : list Probe)
    (addr logPath : string) (f : TokenFile) : option (result string unit) * TokenFile :=
  if alive then (Some (Ok tt), f)
  else
    let '(tok, f) := if noAuth then (Ok "", f) else LoadOrCreateControlToken rnd f in
    match tok with
    | Err e => (Some (Err ("control token: " +:+ e)), f)
    | Ok _ =>
        match sw_exe sp with
        | Err e => (Some (Err e), f)
        | Ok _ =>
            match sw_start sp with
            | Some e => (Some (Err ("start daemon: " +:+ e)), f)
            | None =>
                ((λ b : bool, if b then Ok tt
                              else Err ("daemon did not become ready at " +:+ addr +:+ " (see " +:+ logPath +:+ ")"))
                   <$> wait_ready (now + readyTimeout) probes, f)
            end
        end
    end.
(** The token the daemon guards its interface with. *)
Definition daemon_token (noAuth : bool) (rnd : result string (list Z)) (f : TokenFile) : result string string * TokenFile :=
  if noAuth then (Ok "", f)
  else match LoadOrCreateControlToken rnd f with
       | (Err e, f) => (Err ("control token: " +:+ e), f)
       | r => r
       end.

(** ** helpers.go and dashboard.go *)
Definition cli_firstNonEmpty (a b : string) : string := if negb (String.eqb a "") then a else b.
Definition versionString (version commit date : string) : string :=
  let s := version in
  let s := if String.eqb commit "" then s else s +:+ " (" +:+ commit +:+ ")" in
  if String.eqb date "" then s else s +:+ " " +:+ date.
Definition baseDomainOf (cfg : Config) : string :=
  let h := TrimSpace (cf_Server cfg) in
  let h := match LastIndexByte h ":" with Some (S i) => take_string (S i) h | _ => h end in
  if String.eqb h "" then "trqsh.uz" else h.
Definition configSpecs `{RangeOrder} (cfg : Config) : list TunnelSpec :=
  (λ p : string * TunnelConfig, let '(name, t) := p in
     {| sp_Name := name; sp_Proto := tc_Proto t; sp_Addr := tc_Addr t; sp_Subdomain := tc_Subdomain t;
        sp_CustomDomain := tc_CustomDomain t; sp_BasicAuth := tc_BasicAuth t; sp_HostHeader := tc_HostHeader t;
        sp_RemotePort := tc_RemotePort t |}) <$> range_map (cf_Tunnels cfg).
Definition configRows (configPath defaultPath : string) (cfg : Config) : list (string * string) :=
  let signedIn := if String.eqb (TrimSpace (cf_APIKey cfg)) "" then "no" else "yes" in
  [("file", cli_firstNonEmpty configPath defaultPath); ("server", cf_Server cfg); ("region", cf_Region cfg);
   ("transport", cf_Transport cfg); ("signed in", signedIn); ("control", cf_ControlAddr cfg);
   ("tunnels", Itoa (Z.of_nat (size (cf_Tunnels cfg))) +:+ " defined")].
(** The options runTUI starts the console with. *)
Definition tui_options `{Terminal} `{RangeOrder} (cfg : Config) (configPath defaultPath version initial : string) (token : TokenFile)
    (onUpdate onCheck onUninstall : World → result string string * World) : Options :=
  {| op_Addr := controlAddr cfg; op_Token := LoadControlToken token; op_APIKey := TrimSpace (cf_APIKey cfg);
     op_BaseDomain := baseDomainOf cfg; op_Version := version; op_InitialCommand := initial;
     op_StartSpecs := configSpecs cfg; op_ConfigRows := configRows configPath defaultPath cfg;
     op_OnUpdate := Some onUpdate; op_OnUninstall := Some onUninstall; op_OnCheckUpdate := Some onCheck |}.
