(* ===== verification/LauncherSafety.v ===== *)
(** The launcher, proved: the daemon runs with the console's settings (and which two
    settings it does not), the console never waits for ever, and the token it then
    sends is the one the daemon asks for. *)
From S2P Require Import Prelude GoStrings GoText Ingress Inspect AgentConf Agent LocalApi Console ConsoleCmds Launcher.
From Stdlib Require Import Ascii.

Open Scope Z_scope.

(** * The flags handed on *)
Lemma list_to_map_pass (b : bool) (k v : string) (l : list (string * string)) (i : string) :
  (list_to_map ((if b then [(k, v)] else []) ++ l) : FlagSet) !! i =
  if b && String.eqb k i then Some v else (list_to_map l : FlagSet) !! i.
Proof.
  destruct b; cbn; [|done]. destruct (String.eqb_spec k i) as [->|Hk]; [by simplify_map_eq|by rewrite lookup_insert_ne].
Qed.

Lemma list_to_map_pass_last (b : bool) (k v i : string) :
  (list_to_map (if b then [(k, v)] else []) : FlagSet) !! i = if b && String.eqb k i then Some v else None.
Proof. rewrite <-(app_nil_r (if b then _ else _)), list_to_map_pass. by destruct (b && _). Qed.

Lemma Changed_is fl name : Changed fl name = match fl !! name with Some _ => true | None => false end.
Proof. unfold Changed. destruct (fl !! name); [by rewrite bool_decide_true|by rewrite bool_decide_false by (intros []; done)]. Qed.

Lemma flag_changed fl name def : Changed fl name = true → fl !! name = Some (flag_value fl name def).
Proof. rewrite Changed_is. unfold flag_value. by destruct (fl !! name). Qed.

Definition carried : list string := ["server"; "region"; "transport"; "control-addr"; "log"].

Section handed_on.
Variable fl : FlagSet.
Local Abbreviation g := (newRootCmd fl).
Local Abbreviation fl' := (list_to_map (passthrough g fl) : FlagSet).

(** Every conditional flag of [passthrough], read back. *)
Ltac read_back := unfold passthrough; rewrite !list_to_map_pass, list_to_map_pass_last.

Lemma passthrough_carried name : name ∈ carried → fl' !! name = fl !! name.
Proof.
  intros Hn. read_back.
  repeat (apply elem_of_cons in Hn as [->|Hn]; [cbn; rewrite ?andb_false_r; cbn; rewrite ?andb_true_r|]);
    try (by apply not_elem_of_nil in Hn);
    match goal with |- context [Changed fl ?n] => rewrite (Changed_is fl n); unfold flag_value; by destruct (fl !! n) end.
Qed.
Lemma passthrough_config : flag_value fl' "config" "" = flag_value fl "config" "".
Proof.
  unfold flag_value at 1. read_back. cbn. rewrite ?andb_false_r. cbn. rewrite !andb_true_r.
  rewrite Changed_is. unfold flag_value. destruct (fl !! "config") as [c|]; [|done]. cbn.
  by destruct (String.eqb_spec c "") as [->|].
Qed.
Lemma passthrough_insecure : fl' !! "insecure" = if String.eqb (flag_value fl "insecure" "") "true" then Some "true" else None.
Proof.
  read_back. cbn. rewrite ?andb_false_r. cbn. rewrite !andb_true_r. rewrite Changed_is.
  unfold flag_value. destruct (fl !! "insecure") as [c|]; [|done]. cbn. by destruct (String.eqb_spec c "true") as [->|].
Qed.
Lemma passthrough_inspector : fl' !! "inspector-addr" = None.
Proof. read_back. cbn. by rewrite !andb_false_r. Qed.

Lemma passthrough_NoDup : NoDup (passthrough g fl).*1.
Proof.
  unfold passthrough. rewrite !fmap_app. generalize (Changed fl). intros ch.
  repeat match goal with |- context [if ?b then _ else _] => destruct b end; refine (bool_decide_eq_true_1 _ _); vm_compute; reflexivity.
Qed.
Lemma passthrough_known f : f ∈ passthrough g fl → known_flag f.1 ∧ (f.1 = "insecure" → f.2 = "true").
Proof.
  unfold passthrough, known_flag. rewrite !elem_of_app. intros Hf.
  assert (Hone : ∀ (b : bool) k v, f ∈ (if b then [(k, v)] else []) → f = (k, v)).
  { intros b k v Hk. destruct b; [by apply list_elem_of_singleton in Hk|by apply not_elem_of_nil in Hk]. }
  destruct_or! Hf; apply Hone in Hf; subst f; cbn; (split; [set_solver|done]).
Qed.
End handed_on.

Section settings.
Context {Doc : Type} `{Yaml Doc} `{PflagLaws}.
Variable disk : string → Disk Doc.
Variable env : Environ.

Lemma daemon_flags args : pflag_Parse (daemon_args args) = list_to_map (passthrough (newRootCmd (pflag_Parse args)) (pflag_Parse args)).
Proof. unfold daemon_args, daemonPassthroughFlags. apply pflag_reads_back; [apply passthrough_NoDup|apply passthrough_known]. Qed.

(** What the daemon makes of the console's configuration: its own inspector address,
    and a TLS check unless [--insecure] was given as true or the file says otherwise. *)
Definition as_daemon (fl : FlagSet) (loaded cfg : Config) : Config :=
  {| cf_Version := cf_Version cfg; cf_APIKey := cf_APIKey cfg; cf_Server := cf_Server cfg; cf_Region := cf_Region cfg;
     cf_Transport := cf_Transport cfg; cf_Tunnels := cf_Tunnels cfg; cf_Inspector := cf_Inspector loaded;
     cf_LogLevel := cf_LogLevel cfg; cf_ControlAddr := controlAddr cfg; cf_APIBase := cf_APIBase cfg;
     cf_Insecure := if String.eqb (flag_value fl "insecure" "true") "true" then cf_Insecure cfg else cf_Insecure loaded |}.

Lemma over_flag_carried fl name def x : name ∈ carried →
  over_flag (list_to_map (passthrough (newRootCmd fl) fl)) name (flag_value (list_to_map (passthrough (newRootCmd fl) fl)) name def) x =
  over_flag fl name (flag_value fl name def) x.
Proof. intros Hn. unfold over_flag, flag_value. by rewrite !Changed_is, passthrough_carried. Qed.

Lemma apply_flags_daemon fl cfg :
  let fl' := list_to_map (passthrough (newRootCmd fl) fl) : FlagSet in
  default_control (apply_flags fl' (newRootCmd fl') cfg) = as_daemon fl cfg (apply_flags fl (newRootCmd fl) cfg).
Proof.
  intros fl'. unfold as_daemon, apply_flags, newRootCmd at 1 2 3 4 5 6 7. cbn [cf_Version cf_APIKey cf_Server cf_Region
    cf_Transport cf_Tunnels cf_Inspector cf_LogLevel cf_ControlAddr cf_APIBase cf_Insecure gf_server gf_region gf_transport
    gf_inspectorA gf_controlA gf_insecure]. subst fl'.
  rewrite !over_flag_carried by (unfold carried; set_solver).
  assert (Hins : over_flag (list_to_map (passthrough (newRootCmd fl) fl)) "inspector-addr"
     (flag_value (list_to_map (passthrough (newRootCmd fl) fl)) "inspector-addr" "") (ic_Addr (cf_Inspector cfg)) =
     ic_Addr (cf_Inspector cfg)).
  { unfold over_flag. by rewrite Changed_is, passthrough_inspector. }
  rewrite Hins. rewrite Changed_is, passthrough_insecure.
  assert (Hi : (if match (if String.eqb (flag_value fl "insecure" "") "true" then Some "true" else None) with
                      | Some _ => true | None => false end
                then String.eqb (flag_value (list_to_map (passthrough (newRootCmd fl) fl)) "insecure" "false") "true"
                else cf_Insecure cfg) =
     if String.eqb (flag_value fl "insecure" "true") "true"
     then (if Changed fl "insecure" then String.eqb (flag_value fl "insecure" "false") "true" else cf_Insecure cfg)
     else cf_Insecure cfg).
  { unfold flag_value at 2. rewrite passthrough_insecure, Changed_is. unfold flag_value.
    destruct (fl !! "insecure") as [v|]; cbn; [|done]. by destruct (String.eqb_spec v "true"). }
  rewrite Hi. unfold default_control, controlAddr. cbn. destruct (cf_Inspector cfg); cbn.
  rewrite !(over_flag_carried fl "control-addr") by (unfold carried; set_solver). by destruct (String.eqb (over_flag _ _ _ _) "").
Qed.

(** C30: The daemon the console starts runs with the settings of the user's command
    line: it is started with flags that, parsed by the daemon, give the console's own
    configuration (and the same errors), its control address the one the console
    connects to. The exceptions are stated: the inspector's address is the file's
    whatever [--inspector-addr] said, and [--insecure=false] does not reach it. *)
Theorem daemon_runs_as_told args : let fl := pflag_Parse args in
  daemon_config disk env (daemon_args args) =
    match Load env (disk (gf_configPath (newRootCmd fl))), console_config disk env args with
    | Ok loaded, Ok cfg => Ok (as_daemon fl loaded cfg)
    | Err e, _ | _, Err e => Err e
    end.
Proof.
  intros fl. unfold daemon_config, console_config, loadConfig. rewrite daemon_flags. fold fl.
  change (gf_configPath (newRootCmd ?f)) with (flag_value f "config" ""). rewrite passthrough_config.
  destruct (Load env (disk (flag_value fl "config" ""))) as [loaded|e] eqn:El; [|done].
  f_equal. apply apply_flags_daemon.
Qed.
End settings.

(** A parser of long flags: [--insecure] takes no value, every other flag takes the
    argument after it. *)
Fixpoint long_flags (args : list string) : FlagSet :=
  match args with
  | [] => ∅
  | a :: args' =>
      if String.eqb a "--insecure" then <["insecure" := "true"]> (long_flags args')
      else match args' with [] => ∅ | v :: args => <[TrimPrefix a "--" := v]> (long_flags args) end
  end.
#[export] Instance long_pflag : Pflag := {| pflag_Parse := long_flags |}.
#[export] Instance long_pflag_laws : PflagLaws.
Proof.
  split. intros l _ Hk. induction l as [|[k v] l IH]; [done|].
  rewrite fmap_cons. cbn [concat]. unfold flag_args at 1. cbn [fst snd].
  destruct (Hk (k, v) ltac:(set_solver)) as [Hkn Hi]. cbn [fst snd] in *.
  specialize (IH ltac:(set_solver)). cbn [pflag_Parse long_pflag] in *. cbn [list_to_map foldr].
  destruct (String.eqb_spec k "insecure") as [->|Hne].
  - rewrite (Hi eq_refl). cbn [app long_flags]. by rewrite String.eqb_refl, IH.
  - cbn [app long_flags]. rewrite IH. unfold known_flag in Hkn.
    repeat (apply elem_of_cons in Hkn as [->|Hkn]; [done|]). by apply not_elem_of_nil in Hkn.
Qed.

(** [trqsh --config c.yml --insecure --inspector-addr 127.0.0.1:9]: the daemon reads
    c.yml and skips the TLS check like the console, and keeps the file's inspector. *)
Lemma daemon_runs_as_told_witness :
  ∃ cfg, daemon_config (λ _, mkDisk None None None) ∅ (daemon_args ["--config"; "c.yml"; "--insecure"; "--inspector-addr"; "127.0.0.1:9"]) = Ok cfg ∧
    cf_Insecure cfg = true ∧ ic_Addr (cf_Inspector cfg) ≠ "127.0.0.1:9".
Proof.
  eexists. split; [|split].
  - rewrite (daemon_runs_as_told (Doc := Config) (λ _, mkDisk None None None) ∅). vm_compute. reflexivity.
  - reflexivity.
  - done.
Defined.

(** * Waiting *)
(** The clock of a loop that sleeps [step] between its turns. *)
Definition paced (start step : Z) (probes : list Probe) : Prop :=
  ∀ i p, probes !! i = Some p → start + Z.of_nat i * step <= pr_now p.

Lemma paced_tail start step p probes : paced start step (p :: probes) → paced (start + step) step probes.
Proof. intros Hp i q Hq. specialize (Hp (S i) q Hq). lia. Qed.

Lemma wait_ready_spec deadline probes r : wait_ready deadline probes = Some r →
  r = true ↔ ∃ i p, probes !! i = Some p ∧ pr_alive p = true ∧ ∀ j q, (j ≤ i)%nat → probes !! j = Some q → pr_now q < deadline.
Proof.
  revert r; induction probes as [|p probes IH]; intros r; cbn; [done|]. unfold Before.
  destruct (Z.ltb_spec (pr_now p) deadline) as [Hlt|Hge].
  2:{ intros [= <-]. split; [done|]. intros (i & q & _ & _ & Hall). specialize (Hall 0%nat p ltac:(lia) eq_refl). lia. }
  destruct (pr_alive p) eqn:Ha.
  { intros [= <-]. split; [|done]. intros _. exists 0%nat, p. split_and!; [done..|]. intros [|j] q Hj Hq; [by injection Hq as <-|lia]. }
  intros Hw. rewrite (IH r Hw). split; intros (i & q & Hq & Hqa & Hall).
  - exists (S i), q. split_and!; [done..|]. intros [|j] q' Hj Hq'; [by injection Hq' as <-|]. eapply (Hall j); [lia|done].
  - destruct i as [|i]; [injection Hq as <-; congruence|]. exists i, q. split_and!; [done..|]. intros j q' Hj Hq'. apply (Hall (S j) q'); [lia|done].
Qed.

Lemma turns_left start step deadline (p p' : Probe) probes :
  deadline <= start + Z.of_nat (length (p :: p' :: probes) - 1) * step →
  deadline <= start + step + Z.of_nat (length (p' :: probes) - 1) * step.
Proof. intros Hd. replace (length (p :: p' :: probes) - 1)%nat with (S (length (p' :: probes) - 1)) in Hd by (cbn; lia). lia. Qed.

Lemma wait_ready_ends start step deadline probes : paced start step probes →
  deadline <= start + Z.of_nat (length probes - 1) * step → probes ≠ [] → is_Some (wait_ready deadline probes).
Proof.
  revert start; induction probes as [|p probes IH]; intros start Hp Hd Hne; [done|]. cbn. unfold Before.
  pose proof (Hp 0%nat p eq_refl) as H0.
  destruct (Z.ltb_spec (pr_now p) deadline); [|by eexists]. destruct (pr_alive p); [by eexists|].
  destruct probes as [|p' probes]; [cbn in Hd; lia|]. apply (IH (start + step)); [by eapply paced_tail|by apply turns_left in Hd|done].
Qed.

Lemma waitDaemonExit_ends start step deadline probes : paced start step probes →
  deadline <= start + Z.of_nat (length probes - 1) * step → probes ≠ [] → is_Some (waitDaemonExit deadline probes).
Proof.
  revert start; induction probes as [|p probes IH]; intros start Hp Hd Hne; [done|]. cbn. unfold Before.
  pose proof (Hp 0%nat p eq_refl) as H0.
  destruct (Z.ltb_spec (pr_now p) deadline); [|by eexists]. destruct (pr_alive p); [|by eexists].
  destruct probes as [|p' probes]; [cbn in Hd; lia|]. apply (IH (start + step)); [by eapply paced_tail|by apply turns_left in Hd|done].
Qed.

(** * The token *)
Lemma hex_digit_no_space d : no_space (hex_digit d) = true.
Proof.
  unfold hex_digit.
  destruct (Z.to_nat (d mod 16)) as [|[|[|[|[|[|[|[|[|[|[|[|[|[|[|[|k]]]]]]]]]]]]]]]]; reflexivity.
Qed.
Lemma EncodeToString_trim b : TrimSpace (EncodeToString b) = EncodeToString b.
Proof. apply TrimSpace_id. induction b as [|x b IH]; [done|]. cbn. by rewrite !hex_digit_no_space, IH. Qed.

Lemma LoadOrCreate_agrees rnd f tok f' : LoadOrCreateControlToken rnd f = (Ok tok, f') →
  (∀ b, rnd = Ok b → b ≠ []) → tok ≠ "" ∧ LoadControlToken f' = tok ∧ ∀ rnd', LoadOrCreateControlToken rnd' f' = (Ok tok, f').
Proof.
  unfold LoadOrCreateControlToken at 1. intros Hl Hrnd.
  assert (Hkey : tok ≠ "" ∧ LoadControlToken f' = tok).
  { destruct (String.eqb_spec (LoadControlToken f) "") as [E|E]; cbn in Hl.
    - destruct rnd as [b|e]; [|done]. destruct (tf_err f); [done|]. injection Hl as <- <-.
      specialize (Hrnd b eq_refl). cbn. rewrite EncodeToString_trim. by destruct b.
    - by injection Hl as <- <-. }
  destruct Hkey as [Hne Hld]. split_and!; [done..|]. intros rnd'. unfold LoadOrCreateControlToken. rewrite Hld.
  by apply String.eqb_neq in Hne as ->.
Qed.

(** What net/http delivers of a request: the method, the URL's host as Host, and the
    Authorization header. *)
Definition url_host (url : string) : string :=
  let rest := TrimPrefix url "http://" in
  match IndexByte rest "/" with Some i => take_string i rest | None => rest end.
Definition arrives (r : hreq) (q : LReq) : Prop :=
  lq_Method q = hq_method r ∧ lq_Host q = url_host (hq_url r) ∧
  Get (lq_Header q) "Authorization" = default "" (hq_auth r).

Lemma client_url_host addr token path :
  has_byte addr "/" = false → url_host (client_url (newClient addr token) ("/" +:+ path)) = addr.
Proof.
  intros Ha. unfold client_url, url_host, TrimPrefix. cbn [cl_addr newClient]. rewrite HasPrefix_app, drop_string_app.
  change ("/" +:+ path) with (String "/" path). rewrite IndexByte_app by done. apply take_string_app.
Qed.
Lemma bearer_matches tok q : tok ≠ "" → TrimSpace tok = tok →
  Get (lq_Header q) "Authorization" = "Bearer " +:+ tok → tokenMatches q tok = true.
Proof.
  intros Hne Ht Ha. unfold tokenMatches. rewrite Ha. apply String.eqb_neq in Hne.
  rewrite HasPrefix_app. unfold TrimPrefix. rewrite HasPrefix_app, drop_string_app, Ht, Hne. apply String.eqb_refl.
Qed.
(** The guard on a request of a client: [token] is the daemon's, none or the client's own. *)
Lemma secure_client token addr own method path body q :
  has_byte addr "/" = false → method ≠ "OPTIONS" → TrimSpace own = own → token = "" ∨ token = own →
  arrives (client_req (newClient addr own) method ("/" +:+ path) body) q →
  secure token q = if isLoopbackHost addr then None else Some (403, LText "forbidden: non-loopback host").
Proof.
  intros Ha Hm Ht Htok (Em & Eh & Ea). unfold secure. cbn [client_req hq_method hq_url hq_auth] in *.
  rewrite Em, Eh, client_url_host by done. apply String.eqb_neq in Hm as ->.
  destruct (isLoopbackHost addr); [|done]. cbn [negb]. destruct (String.eqb_spec token "") as [->|Hne]; [done|].
  destruct Htok as [Htok|Htok]; [done|]. subst own. cbn [cl_token newClient] in Ea. apply String.eqb_neq in Hne as Hne'. rewrite Hne' in Ea.
  rewrite (bearer_matches token q Hne Ht Ea). by rewrite andb_false_r.
Qed.

Section started.
Variables (noAuth : bool) (rnd : result string (list Z)) (sp : Spawn) (now : Time) (probes : list Probe)
  (addr logPath : string) (f : TokenFile).
Local Abbreviation run := (ensureDaemon false noAuth rnd sp now probes addr logPath f).

Lemma ensureDaemon_token r f' : run = (r, f') →
  (∃ e, r = Some (Err ("control token: " +:+ e))) ∨
  noAuth = true ∧ f' = f ∨ noAuth = false ∧ ∃ tok, LoadOrCreateControlToken rnd f = (Ok tok, f').
Proof.
  unfold ensureDaemon. destruct noAuth; cbn; intros Hr.
  - right; left. split; [done|]. by repeat case_match; simplify_eq.
  - destruct (LoadOrCreateControlToken rnd f) as [[tok|e] f1] eqn:El.
    + right; right. split; [done|]. exists tok. by repeat case_match; simplify_eq.
    + left. injection Hr as <- <-. by exists e.
Qed.

(** The token's file can serve: it holds a token, or one can be drawn and written. *)
Definition token_available : Prop := LoadControlToken f ≠ "" ∨ (∃ b, rnd = Ok b) ∧ tf_err f = None.
Lemma token_available_spec : (∃ tok f', LoadOrCreateControlToken rnd f = (Ok tok, f')) ↔ token_available.
Proof.
  unfold LoadOrCreateControlToken, token_available. destruct (String.eqb_spec (LoadControlToken f) "") as [E|E]; cbn.
  - split.
    + intros (tok & f' & Hl). destruct rnd as [b|e]; [|done]. destruct (tf_err f); [done|]. right. by split; [exists b|].
    + intros [?|[[b ->] ->]]; [done|]. by do 2 eexists.
  - split; [by left|]. intros _. by do 2 eexists.
Qed.
Lemma ensureDaemon_ok b f' r : wait_ready (now + readyTimeout) probes = Some b → run = (r, f') →
  ∃ r0, r = Some r0 ∧ (r0 = Ok tt ↔ (noAuth = true ∨ token_available) ∧ sw_exe sp = Ok tt ∧ sw_start sp = None ∧ b = true).
Proof.
  intros Hb. setoid_rewrite <-token_available_spec. unfold ensureDaemon. rewrite Hb. cbn [fmap option_fmap option_map].
  destruct (if noAuth then _ else _) as [[tok|e] f1] eqn:Et.
  2:{ intros [= <- <-]. eexists. split; [done|]. split; [done|]. destruct noAuth; [done|].
      intros ([|(t & f2 & Ht)] & _); [done|]. congruence. }
  assert (Ht : noAuth = true ∨ ∃ tok f', LoadOrCreateControlToken rnd f = (Ok tok, f')).
  { destruct noAuth; [by left|right; by do 2 eexists]. }
  destruct (sw_exe sp) as [[]|e]; [|intros [= <- <-]; eexists; split; [done|]; split; [done|by intros (_ & ? & _)]].
  destruct (sw_start sp) as [e|]; [intros [= <- <-]; eexists; split; [done|]; split; [done|by intros (_ & _ & ? & _)]|].
  destruct b; intros [= <- <-]; eexists; split; try done; split; try done. by intros (_ & _ & _ & ?).
Qed.

(** C31: Starting the daemon ends, and then the console is let in. With the polls at
    least 200 ms apart, 51 of them suffice for ensureDaemon to return, and it returns
    without an error exactly when a token could be had (or authentication is off), the
    process was started and some poll, all polls up to it made before the deadline of
    10 s, was answered. In that case the daemon, reading the token's file after the
    console wrote it, guards its interface so that every request of the console's
    client, built for the control address with the stored token, passes; unless the
    configured control address is not a loopback one, when every request is refused
    with 403. *)
Theorem console_is_let_in : (∀ b, rnd = Ok b → b ≠ []) → (51 ≤ length probes)%nat → paced now pollInterval probes →
  ∃ r f', run = (Some r, f') ∧
    (r = Ok tt ↔ (noAuth = true ∨ token_available) ∧ sw_exe sp = Ok tt ∧ sw_start sp = None ∧
       ∃ i p, probes !! i = Some p ∧ pr_alive p = true ∧
         ∀ j q, (j ≤ i)%nat → probes !! j = Some q → pr_now q < now + readyTimeout) ∧
    (r = Ok tt → ∀ rnd', ∃ token, daemon_token noAuth rnd' f' = (Ok token, f') ∧
       ∀ method path body q, method ≠ "OPTIONS" → has_byte addr "/" = false →
         arrives (client_req (newClient addr (LoadControlToken f')) method ("/" +:+ path) body) q →
         secure token q = if isLoopbackHost addr then None else Some (403, LText "forbidden: non-loopback host")).
Proof.
  intros Hrnd Hlen Hpace. destruct (run) as [r f'] eqn:Hrun.
  assert (Hends : is_Some (wait_ready (now + readyTimeout) probes)).
  { apply (wait_ready_ends now pollInterval); [done| |by intros ->; cbn in Hlen; lia].
    unfold readyTimeout, pollInterval, Second, Millisecond. lia. }
  destruct Hends as [b Hb]. destruct (ensureDaemon_ok b f' r Hb Hrun) as (r0 & -> & Hok). exists r0, f'. split; [done|].
  split; [by rewrite <-(wait_ready_spec _ _ _ Hb)|]. intros -> rnd'.
  assert (Htrim : TrimSpace (LoadControlToken f') = LoadControlToken f').
  { unfold LoadControlToken. destruct (tf_content f'); [apply TrimSpace_idem|done]. }
  destruct (ensureDaemon_token _ _ Hrun) as [[e He]|[[-> ->]|[-> (tok & Ht)]]]; [done| |].
  - exists "". split; [done|]. intros method path body q Hm Ha Hq. eapply secure_client; eauto.
  - destruct (LoadOrCreate_agrees _ _ _ _ Ht Hrnd) as (Hne & Hld & Hagain). exists tok. split; [unfold daemon_token; by rewrite Hagain|].
    intros method path body q Hm Ha Hq. eapply secure_client; eauto.
Qed.
End started.

(** The daemon answers the third poll, 400 ms after the start. *)
Definition polls (now : Time) (alive_at : nat) (n : nat) : list Probe :=
  (λ i, {| pr_now := now + Z.of_nat i * pollInterval; pr_alive := (alive_at <=? i)%nat |}) <$> seq 0 n.
Lemma polls_paced now k n : paced now pollInterval (polls now k n).
Proof.
  intros i p Hp. unfold polls in Hp. rewrite list_lookup_fmap in Hp.
  destruct (seq 0 n !! i) as [j|] eqn:Hj; [|done]. injection Hp as <-. apply lookup_seq in Hj as [-> _]. cbn. lia.
Qed.
Definition ex_status_req : LReq :=
  {| lq_Method := "GET"; lq_segs := ["status"]; lq_Host := "127.0.0.1:4041"; lq_Header := {[ "Authorization" := ["Bearer 010203"] ]};
     lq_query_token := ""; lq_body := "" |}.
Lemma console_is_let_in_witness :
  ∃ f' token,
    ensureDaemon false false (Ok [1; 2; 3]) {| sw_exe := Ok tt; sw_start := None |} 0 (polls 0 2 51) "127.0.0.1:4041" "daemon.log"
      {| tf_content := None; tf_err := None |} = (Some (Ok tt), f') ∧
    LoadControlToken f' = "010203" ∧ daemon_token false (Ok [9]) f' = (Ok token, f') ∧
    arrives (client_req (newClient "127.0.0.1:4041" (LoadControlToken f')) "GET" "/status" None) ex_status_req ∧
    secure token ex_status_req = None.
Proof.
  assert (Hrnd : ∀ b, (Ok [1; 2; 3] : result string (list Z)) = Ok b → b ≠ []) by (intros b Hb; by simplify_eq).
  assert (Hlen : (51 ≤ length (polls 0%Z 2 51))%nat) by (apply Nat.leb_le; vm_compute; reflexivity).
  destruct (console_is_let_in false (Ok [1; 2; 3]) {| sw_exe := Ok tt; sw_start := None |} 0 (polls 0 2 51) "127.0.0.1:4041" "daemon.log"
     {| tf_content := None; tf_err := None |} Hrnd Hlen (polls_paced 0 2 51)) as (r & f' & Hrun & _ & Hin).
  assert (E : (Some r, f') = (Some (Ok tt : result string unit), {| tf_content := Some "010203"; tf_err := None |}))
    by (rewrite <-Hrun; vm_compute; reflexivity).
  injection E as -> ->. destruct (Hin eq_refl (Ok [9])) as (token & Hdt & Hsec).
  exists {| tf_content := Some "010203"; tf_err := None |}, token.
  split; [exact Hrun|]. split; [vm_compute; reflexivity|]. split; [exact Hdt|].
  assert (Hq : arrives (client_req (newClient "127.0.0.1:4041" (LoadControlToken {| tf_content := Some "010203"; tf_err := None |}))
    "GET" ("/" +:+ "status") None) ex_status_req)
    by (split; [reflexivity|split; vm_compute; reflexivity]).
  split; [exact Hq|]. exact (Hsec "GET" "status" None ex_status_req ltac:(done) ltac:(reflexivity) Hq).
Defined.
