(* ===== verification/Geo.v ===== *)
(** Locating clients (internal/geo: geo.go, country.go, regions.go, resolver_http.go;
    internal/api/handlers_geo.go): the country table, the chain of resolvers with its
    cache, the catalog of edge regions and the choice of the nearest one.

    The GeoIP provider is an outside service: [fetch] is what a GET of a URL answers
    (its status and body, or nothing), [decode_provider] and [decode_regions] are the
    JSON decoder on the provider's answer and on the configured catalog.  A lookup also
    returns the URLs it asked for.  A float64 is its decimal text. *)
From S2P Require Import Prelude GoStrings GoText Ingress Inspect ApiConfig RateLimit.
From Stdlib Require Import Ascii.

Open Scope Z_scope.

(** * Countries *)
Record countryInfo := { ci_name : string; ci_continent : string }.

Definition country_table : list (string * (string * string)) :=
  [("AD", ("Andorra", "EU")); ("AE", ("United Arab Emirates", "AS")); ("AF", ("Afghanistan", "AS"));
   ("AG", ("Antigua and Barbuda", "NA")); ("AI", ("Anguilla", "NA")); ("AL", ("Albania", "EU"));
   ("AM", ("Armenia", "AS")); ("AO", ("Angola", "AF")); ("AQ", ("Antarctica", "AN")); ("AR", ("Argentina", "SA"));
   ("AS", ("American Samoa", "OC")); ("AT", ("Austria", "EU")); ("AU", ("Australia", "OC")); ("AW", ("Aruba", "NA"));
   ("AX", ("Åland Islands", "EU")); ("AZ", ("Azerbaijan", "AS")); ("BA", ("Bosnia and Herzegovina", "EU"));
   ("BB", ("Barbados", "NA")); ("BD", ("Bangladesh", "AS")); ("BE", ("Belgium", "EU"));
   ("BF", ("Burkina Faso", "AF")); ("BG", ("Bulgaria", "EU")); ("BH", ("Bahrain", "AS")); ("BI", ("Burundi", "AF"));
   ("BJ", ("Benin", "AF")); ("BL", ("Saint Barthélemy", "NA")); ("BM", ("Bermuda", "NA")); ("BN", ("Brunei", "AS"));
   ("BO", ("Bolivia", "SA")); ("BQ", ("Caribbean Netherlands", "NA")); ("BR", ("Brazil", "SA"));
   ("BS", ("Bahamas", "NA")); ("BT", ("Bhutan", "AS")); ("BV", ("Bouvet Island", "AN")); ("BW", ("Botswana", "AF"));
   ("BY", ("Belarus", "EU")); ("BZ", ("Belize", "NA")); ("CA", ("Canada", "NA"));
   ("CC", ("Cocos (Keeling) Islands", "AS")); ("CD", ("DR Congo", "AF")); ("CF", ("Central African Republic", "AF"));
   ("CG", ("Congo", "AF")); ("CH", ("Switzerland", "EU")); ("CI", ("Côte d'Ivoire", "AF"));
   ("CK", ("Cook Islands", "OC")); ("CL", ("Chile", "SA")); ("CM", ("Cameroon", "AF")); ("CN", ("China", "AS"));
   ("CO", ("Colombia", "SA")); ("CR", ("Costa Rica", "NA")); ("CU", ("Cuba", "NA")); ("CV", ("Cape Verde", "AF"));
   ("CW", ("Curaçao", "NA")); ("CX", ("Christmas Island", "AS")); ("CY", ("Cyprus", "AS"));
   ("CZ", ("Czechia", "EU")); ("DE", ("Germany", "EU")); ("DJ", ("Djibouti", "AF")); ("DK", ("Denmark", "EU"));
   ("DM", ("Dominica", "NA")); ("DO", ("Dominican Republic", "NA")); ("DZ", ("Algeria", "AF"));
   ("EC", ("Ecuador", "SA")); ("EE", ("Estonia", "EU")); ("EG", ("Egypt", "AF")); ("EH", ("Western Sahara", "AF"));
   ("ER", ("Eritrea", "AF")); ("ES", ("Spain", "EU")); ("ET", ("Ethiopia", "AF")); ("FI", ("Finland", "EU"));
   ("FJ", ("Fiji", "OC")); ("FK", ("Falkland Islands", "SA")); ("FM", ("Micronesia", "OC"));
   ("FO", ("Faroe Islands", "EU")); ("FR", ("France", "EU")); ("GA", ("Gabon", "AF"));
   ("GB", ("United Kingdom", "EU")); ("GD", ("Grenada", "NA")); ("GE", ("Georgia", "AS"));
   ("GF", ("French Guiana", "SA")); ("GG", ("Guernsey", "EU")); ("GH", ("Ghana", "AF")); ("GI", ("Gibraltar", "EU"));
   ("GL", ("Greenland", "NA")); ("GM", ("Gambia", "AF")); ("GN", ("Guinea", "AF")); ("GP", ("Guadeloupe", "NA"));
   ("GQ", ("Equatorial Guinea", "AF")); ("GR", ("Greece", "EU")); ("GS", ("South Georgia", "AN"));
   ("GT", ("Guatemala", "NA")); ("GU", ("Guam", "OC")); ("GW", ("Guinea-Bissau", "AF")); ("GY", ("Guyana", "SA"));
   ("HK", ("Hong Kong", "AS")); ("HM", ("Heard & McDonald Islands", "AN")); ("HN", ("Honduras", "NA"));
   ("HR", ("Croatia", "EU")); ("HT", ("Haiti", "NA")); ("HU", ("Hungary", "EU")); ("ID", ("Indonesia", "AS"));
   ("IE", ("Ireland", "EU")); ("IL", ("Israel", "AS")); ("IM", ("Isle of Man", "EU")); ("IN", ("India", "AS"));
   ("IO", ("British Indian Ocean Territory", "AS")); ("IQ", ("Iraq", "AS")); ("IR", ("Iran", "AS"));
   ("IS", ("Iceland", "EU")); ("IT", ("Italy", "EU")); ("JE", ("Jersey", "EU")); ("JM", ("Jamaica", "NA"));
   ("JO", ("Jordan", "AS")); ("JP", ("Japan", "AS")); ("KE", ("Kenya", "AF")); ("KG", ("Kyrgyzstan", "AS"));
   ("KH", ("Cambodia", "AS")); ("KI", ("Kiribati", "OC")); ("KM", ("Comoros", "AF"));
   ("KN", ("Saint Kitts and Nevis", "NA")); ("KP", ("North Korea", "AS")); ("KR", ("South Korea", "AS"));
   ("KW", ("Kuwait", "AS")); ("KY", ("Cayman Islands", "NA")); ("KZ", ("Kazakhstan", "AS")); ("LA", ("Laos", "AS"));
   ("LB", ("Lebanon", "AS")); ("LC", ("Saint Lucia", "NA")); ("LI", ("Liechtenstein", "EU"));
   ("LK", ("Sri Lanka", "AS")); ("LR", ("Liberia", "AF")); ("LS", ("Lesotho", "AF")); ("LT", ("Lithuania", "EU"));
   ("LU", ("Luxembourg", "EU")); ("LV", ("Latvia", "EU")); ("LY", ("Libya", "AF")); ("MA", ("Morocco", "AF"));
   ("MC", ("Monaco", "EU")); ("MD", ("Moldova", "EU")); ("ME", ("Montenegro", "EU")); ("MF", ("Saint Martin", "NA"));
   ("MG", ("Madagascar", "AF")); ("MH", ("Marshall Islands", "OC")); ("MK", ("North Macedonia", "EU"));
   ("ML", ("Mali", "AF")); ("MM", ("Myanmar", "AS")); ("MN", ("Mongolia", "AS")); ("MO", ("Macao", "AS"));
   ("MP", ("Northern Mariana Islands", "OC")); ("MQ", ("Martinique", "NA")); ("MR", ("Mauritania", "AF"));
   ("MS", ("Montserrat", "NA")); ("MT", ("Malta", "EU")); ("MU", ("Mauritius", "AF")); ("MV", ("Maldives", "AS"));
   ("MW", ("Malawi", "AF")); ("MX", ("Mexico", "NA")); ("MY", ("Malaysia", "AS")); ("MZ", ("Mozambique", "AF"));
   ("NA", ("Namibia", "AF")); ("NC", ("New Caledonia", "OC")); ("NE", ("Niger", "AF"));
   ("NF", ("Norfolk Island", "OC")); ("NG", ("Nigeria", "AF")); ("NI", ("Nicaragua", "NA"));
   ("NL", ("Netherlands", "EU")); ("NO", ("Norway", "EU")); ("NP", ("Nepal", "AS")); ("NR", ("Nauru", "OC"));
   ("NU", ("Niue", "OC")); ("NZ", ("New Zealand", "OC")); ("OM", ("Oman", "AS")); ("PA", ("Panama", "NA"));
   ("PE", ("Peru", "SA")); ("PF", ("French Polynesia", "OC")); ("PG", ("Papua New Guinea", "OC"));
   ("PH", ("Philippines", "AS")); ("PK", ("Pakistan", "AS")); ("PL", ("Poland", "EU"));
   ("PM", ("Saint Pierre and Miquelon", "NA")); ("PN", ("Pitcairn Islands", "OC")); ("PR", ("Puerto Rico", "NA"));
   ("PS", ("Palestine", "AS")); ("PT", ("Portugal", "EU")); ("PW", ("Palau", "OC")); ("PY", ("Paraguay", "SA"));
   ("QA", ("Qatar", "AS")); ("RE", ("Réunion", "AF")); ("RO", ("Romania", "EU")); ("RS", ("Serbia", "EU"));
   ("RU", ("Russia", "EU")); ("RW", ("Rwanda", "AF")); ("SA", ("Saudi Arabia", "AS"));
   ("SB", ("Solomon Islands", "OC")); ("SC", ("Seychelles", "AF")); ("SD", ("Sudan", "AF"));
   ("SE", ("Sweden", "EU")); ("SG", ("Singapore", "AS")); ("SH", ("Saint Helena", "AF")); ("SI", ("Slovenia", "EU"));
   ("SJ", ("Svalbard and Jan Mayen", "EU")); ("SK", ("Slovakia", "EU")); ("SL", ("Sierra Leone", "AF"));
   ("SM", ("San Marino", "EU")); ("SN", ("Senegal", "AF")); ("SO", ("Somalia", "AF")); ("SR", ("Suriname", "SA"));
   ("SS", ("South Sudan", "AF")); ("ST", ("São Tomé and Príncipe", "AF")); ("SV", ("El Salvador", "NA"));
   ("SX", ("Sint Maarten", "NA")); ("SY", ("Syria", "AS")); ("SZ", ("Eswatini", "AF"));
   ("TC", ("Turks and Caicos Islands", "NA")); ("TD", ("Chad", "AF")); ("TF", ("French Southern Territories", "AN"));
   ("TG", ("Togo", "AF")); ("TH", ("Thailand", "AS")); ("TJ", ("Tajikistan", "AS")); ("TK", ("Tokelau", "OC"));
   ("TL", ("Timor-Leste", "AS")); ("TM", ("Turkmenistan", "AS")); ("TN", ("Tunisia", "AF")); ("TO", ("Tonga", "OC"));
   ("TR", ("Turkey", "AS")); ("TT", ("Trinidad and Tobago", "NA")); ("TV", ("Tuvalu", "OC"));
   ("TW", ("Taiwan", "AS")); ("TZ", ("Tanzania", "AF")); ("UA", ("Ukraine", "EU")); ("UG", ("Uganda", "AF"));
   ("UM", ("U.S. Minor Outlying Islands", "OC")); ("US", ("United States", "NA")); ("UY", ("Uruguay", "SA"));
   ("UZ", ("Uzbekistan", "AS")); ("VA", ("Vatican City", "EU")); ("VC", ("Saint Vincent and the Grenadines", "NA"));
   ("VE", ("Venezuela", "SA")); ("VG", ("British Virgin Islands", "NA")); ("VI", ("U.S. Virgin Islands", "NA"));
   ("VN", ("Vietnam", "AS")); ("VU", ("Vanuatu", "OC")); ("WF", ("Wallis and Futuna", "OC"));
   ("WS", ("Samoa", "OC")); ("XK", ("Kosovo", "EU")); ("YE", ("Yemen", "AS")); ("YT", ("Mayotte", "AF"));
   ("ZA", ("South Africa", "AF")); ("ZM", ("Zambia", "AF")); ("ZW", ("Zimbabwe", "AF"))].
Definition countries : gmap string countryInfo :=
  list_to_map ((λ e : string * (string * string), (e.1, {| ci_name := e.2.1; ci_continent := e.2.2 |})) <$> country_table).

(** Upper-cased, and only when it is two letters. *)
Definition is_upper (a : ascii) : bool := let n := N_of_ascii a in (65 <=? n)%N && (n <=? 90)%N.
Definition normalizeCountry (s : string) : string :=
  match ToUpper (TrimSpace s) with
  | String a (String b EmptyString) as s => if is_upper a && is_upper b then s else ""
  | _ => ""
  end.
Definition CountryName (code : string) : string :=
  match countries !! normalizeCountry code with Some info => ci_name info | None => "" end.
Definition Continent (code : string) : string :=
  match countries !! normalizeCountry code with Some info => ci_continent info | None => "" end.

(** * Locations *)
Record Location := {
  lo_IP : string; lo_Country : string; lo_CountryName : string; lo_Continent : string; lo_Region : string;
  lo_City : string; lo_Lat : string; lo_Lon : string; lo_Source : string;
}.
Definition no_location : Location :=
  {| lo_IP := ""; lo_Country := ""; lo_CountryName := ""; lo_Continent := ""; lo_Region := ""; lo_City := "";
     lo_Lat := ""; lo_Lon := ""; lo_Source := "" |}.
Definition Known (l : Location) : bool := negb (String.eqb (lo_Country l) "").
Definition located (ip source : string) : Location :=
  {| lo_IP := ip; lo_Country := ""; lo_CountryName := ""; lo_Continent := ""; lo_Region := ""; lo_City := "";
     lo_Lat := ""; lo_Lon := ""; lo_Source := source |}.
Definition with_ip (ip : string) (l : Location) : Location :=
  {| lo_IP := ip; lo_Country := lo_Country l; lo_CountryName := lo_CountryName l; lo_Continent := lo_Continent l;
     lo_Region := lo_Region l; lo_City := lo_City l; lo_Lat := lo_Lat l; lo_Lon := lo_Lon l; lo_Source := lo_Source l |}.

Definition keep (old new : string) : string := if String.eqb old "" then new else old.
Definition applyCountry (code : string) (l : Location) : Location :=
  let cc := normalizeCountry code in
  if String.eqb cc "" then l
  else
    let '(name, continent) :=
      match countries !! cc with
      | Some info => (keep (lo_CountryName l) (ci_name info), keep (lo_Continent l) (ci_continent info))
      | None => (lo_CountryName l, lo_Continent l)
      end in
    {| lo_IP := lo_IP l; lo_Country := cc; lo_CountryName := name; lo_Continent := continent; lo_Region := lo_Region l;
       lo_City := lo_City l; lo_Lat := lo_Lat l; lo_Lon := lo_Lon l; lo_Source := lo_Source l |}.

(** * Addresses: the classes and the text of a parsed address *)
Definition ip_byte (n : nat) (ip : list Z) : Z := nth n ip 0.
Definition IsPrivate (ip : list Z) : bool :=
  if (length ip =? 4)%nat
  then (ip_byte 0 ip =? 10) || ((ip_byte 0 ip =? 172) && (Z.land (ip_byte 1 ip) 240 =? 16)) || ((ip_byte 0 ip =? 192) && (ip_byte 1 ip =? 168))
  else Z.land (ip_byte 0 ip) 254 =? 252.
Definition IsLinkLocalUnicast (ip : list Z) : bool :=
  if (length ip =? 4)%nat then (ip_byte 0 ip =? 169) && (ip_byte 1 ip =? 254)
  else (ip_byte 0 ip =? 254) && (Z.land (ip_byte 1 ip) 192 =? 128).
Definition IsUnspecified (ip : list Z) : bool := forallb (Z.eqb 0) ip.

(** A 16-bit group without leading zeros. *)
Fixpoint trim_zeros (s : string) : string :=
  match s with
  | String a r => if Ascii.eqb a "0" && negb (String.eqb r "") then trim_zeros r else s
  | EmptyString => s
  end.
Definition hex_group (x : Z) : string := trim_zeros (EncodeToString [x / 256; x mod 256]).
Fixpoint groups (ip : list Z) : list Z :=
  match ip with a :: b :: ip => a * 256 + b :: groups ip | _ => [] end.
Fixpoint zero_run (l : list Z) : nat := match l with x :: l => if x =? 0 then S (zero_run l) else O | [] => O end.
(** The first longest run of at least two zero groups. *)
Fixpoint longest_zeros (i : nat) (l : list Z) (best : nat * nat) : nat * nat :=
  match l with
  | [] => best
  | _ :: l' =>
      let n := zero_run l in
      longest_zeros (S i) l' (if (2 <=? n)%nat && (best.2 <? n)%nat then (i, n) else best)
  end.
Definition colon_groups (l : list Z) : string := Join ":" (hex_group <$> l).
Definition ip_String (ip : list Z) : string :=
  if (length ip =? 4)%nat then Join "." (Itoa <$> ip)
  else
    let l := groups ip in
    let '(start, n) := longest_zeros 0 l (0%nat, 0%nat) in
    if (n =? 0)%nat then colon_groups l else colon_groups (take start l) +:+ "::" +:+ colon_groups (drop (start + n) l).

(** * Resolvers *)
Record providerResponse := {
  pv_Status : string; pv_CountryCode : string; pv_Country : string; pv_RegionName : string; pv_City : string;
  pv_Lat : string; pv_Lon : string;
}.

Section resolvers.
  Context (fetch : string → option (Z * string)) (decode_provider : string → option providerResponse).

Definition private_address (ip : list Z) : bool := IsLoopback ip || IsPrivate ip || IsLinkLocalUnicast ip || IsUnspecified ip.
Definition privateResolver (ip : string) : option Location :=
  match ParseIP ip with
  | Some parsed => if private_address parsed then Some (located ip "private") else None
  | None => None
  end.

Definition provider_url (template : string) (parsed : list Z) : string := ReplaceAll template "{ip}" (ip_String parsed).
(** The location, and the URLs asked for. *)
Definition httpResolver (template ip : string) : option Location * list string :=
  match ParseIP ip with
  | None => (None, [])
  | Some parsed =>
      let url := provider_url template parsed in
      (match fetch url with
       | None => None
       | Some (status, body) =>
           if negb (status =? 200) then None
           else match decode_provider body with
                | None => None
                | Some pr =>
                    if negb (String.eqb (pv_Status pr) "") && negb (EqualFold (pv_Status pr) "success") then None
                    else
                      let cc := normalizeCountry (pv_CountryCode pr) in
                      if String.eqb cc "" then None
                      else Some {| lo_IP := ip; lo_Country := cc; lo_CountryName := TrimSpace (pv_Country pr);
                                   lo_Continent := ""; lo_Region := TrimSpace (pv_RegionName pr);
                                   lo_City := TrimSpace (pv_City pr); lo_Lat := pv_Lat pr; lo_Lon := pv_Lon pr;
                                   lo_Source := "api" |}
                end
       end, [url])
  end.

(** * Regions *)
Record Region := {
  rg_Code : string; rg_Name : string; rg_City : string; rg_Country : string; rg_Continent : string;
  rg_Endpoint : string; rg_Lat : string; rg_Lon : string; rg_Default : bool;
}.
Definition no_region : Region :=
  {| rg_Code := ""; rg_Name := ""; rg_City := ""; rg_Country := ""; rg_Continent := ""; rg_Endpoint := "";
     rg_Lat := ""; rg_Lon := ""; rg_Default := false |}.
Definition DefaultRegions : list Region :=
  [{| rg_Code := "eu"; rg_Name := "Europe (Frankfurt)"; rg_City := "Frankfurt"; rg_Country := "DE"; rg_Continent := "EU";
      rg_Endpoint := "eu.trqsh.uz:443"; rg_Lat := "50.11"; rg_Lon := "8.68"; rg_Default := true |};
   {| rg_Code := "us"; rg_Name := "US East (New York)"; rg_City := "New York"; rg_Country := "US"; rg_Continent := "NA";
      rg_Endpoint := "us.trqsh.uz:443"; rg_Lat := "40.71"; rg_Lon := "-74.01"; rg_Default := false |};
   {| rg_Code := "ap"; rg_Name := "Asia Pacific (Singapore)"; rg_City := "Singapore"; rg_Country := "SG"; rg_Continent := "AS";
      rg_Endpoint := "ap.trqsh.uz:443"; rg_Lat := "1.35"; rg_Lon := "103.82"; rg_Default := false |}].

Definition normal_region (r : Region) : Region :=
  {| rg_Code := ToLower (TrimSpace (rg_Code r)); rg_Name := rg_Name r; rg_City := rg_City r; rg_Country := rg_Country r;
     rg_Continent := ToUpper (TrimSpace (rg_Continent r)); rg_Endpoint := rg_Endpoint r; rg_Lat := rg_Lat r;
     rg_Lon := rg_Lon r; rg_Default := rg_Default r |}.
Definition ParseRegions (decode_regions : string → result string (list Region)) (s : string) : result string (list Region) :=
  let s := TrimSpace s in
  if String.eqb s "" then Ok []
  else match decode_regions s with
       | Err e => Err e
       | Ok l => Ok (normal_region <$> l)
       end.

Definition continentFallback (continent : string) : string :=
  if String.eqb continent "SA" then "NA"
  else if String.eqb continent "AF" then "EU"
  else if String.eqb continent "OC" then "AS"
  else if String.eqb continent "AN" then "OC"
  else "".
Fixpoint region_where (p : Region → bool) (catalog : list Region) : option Region :=
  match catalog with [] => None | r :: catalog => if p r then Some r else region_where p catalog end.
(** [catalog] is not empty where it is called. *)
Definition defaultRegion (catalog : list Region) : Region :=
  match region_where rg_Default catalog with Some r => r | None => default no_region (head catalog) end.
Definition continent_of (loc : Location) : string :=
  if String.eqb (lo_Continent loc) "" && negb (String.eqb (lo_Country loc) "")
  then match countries !! lo_Country loc with Some info => ci_continent info | None => lo_Continent loc end
  else lo_Continent loc.
Definition nearestRegion (catalog : list Region) (loc : Location) : Region :=
  match catalog with
  | [] => no_region
  | _ =>
      let continent := continent_of loc in
      if String.eqb continent "" then defaultRegion catalog
      else match region_where (λ r, String.eqb (rg_Continent r) continent) catalog with
           | Some r => r
           | None =>
               match region_where (λ r, String.eqb (rg_Continent r) (continentFallback continent)) catalog with
               | Some r => r
               | None => defaultRegion catalog
               end
           end
  end.
(** A byte-wise order, as Go's [<] on strings. *)
Definition code_before (a b : Region) : bool := String.ltb (rg_Code a) (rg_Code b).
Definition SortRegions (l : list Region) : list Region := sort_by code_before l.

(** * The service *)
Definition cacheMax : nat := Z.to_nat 50000.
Record ttlCache := { tc_ttl : Duration; tc_m : gmap string (Location * Time) }.
Definition newTTLCache (ttl : Duration) : ttlCache := {| tc_ttl := ttl; tc_m := ∅ |}.
Definition cache_get (now : Time) (ip : string) (c : ttlCache) : option Location :=
  match tc_m c !! ip with
  | Some (loc, expiry) => if After now expiry then None else Some loc
  | None => None
  end.
Definition cache_set (now : Time) (ip : string) (loc : Location) (c : ttlCache) : ttlCache :=
  let m := if (cacheMax <=? size (tc_m c))%nat then ∅ else tc_m c in
  {| tc_ttl := tc_ttl c; tc_m := <[ip := (loc, now + tc_ttl c)]> m |}.

Record GeoConfig := { gc_Header : string; gc_APIURL : string; gc_CacheTTL : Duration; gc_Regions : list Region }.
Record Service := {
  gs_header : string; gs_api : string; gs_catalog : list Region; gs_cache : option ttlCache;
}.
(** [http.CanonicalHeaderKey]. *)
Definition token_char (a : ascii) : bool :=
  let n := N_of_ascii a in
  ((48 <=? n) && (n <=? 57) || (65 <=? n) && (n <=? 90) || (97 <=? n) && (n <=? 122))%N ||
  bool_decide (a ∈ ["!"; "#"; "$"; "%"; "&"; "'"; "*"; "+"; "-"; "."; "^"; "_"; "`"; "|"; "~"]%char).
Fixpoint canonical (upper : bool) (s : string) : string :=
  match s with
  | EmptyString => EmptyString
  | String a r => String (if upper then upper_ascii a else lower_ascii a) (canonical (Ascii.eqb a "-") r)
  end.
Definition CanonicalHeaderKey (s : string) : string := if all_chars token_char s then canonical true s else s.

Definition geo_New (cfg : GeoConfig) : Service :=
  let ttl := if gc_CacheTTL cfg =? 0 then Hour else gc_CacheTTL cfg in
  {| gs_header := CanonicalHeaderKey (TrimSpace (gc_Header cfg)); gs_api := gc_APIURL cfg;
     gs_catalog := match gc_Regions cfg with [] => DefaultRegions | l => l end;
     gs_cache := if 0 <? ttl then Some (newTTLCache ttl) else None |}.

(** The chain of resolvers. *)
Definition resolve (api ip : string) : Location * list string :=
  match privateResolver ip with
  | Some loc => (loc, [])
  | None =>
      if String.eqb api "" then (no_location, [])
      else let '(loc, urls) := httpResolver api ip in (default no_location loc, urls)
  end.
Definition fill (ip : string) (loc : Location) : Location :=
  let out := with_ip ip loc in if String.eqb (lo_Country out) "" then out else applyCountry (lo_Country out) out.
Definition with_cache (c : option ttlCache) (s : Service) : Service :=
  {| gs_header := gs_header s; gs_api := gs_api s; gs_catalog := gs_catalog s; gs_cache := c |}.
Definition FromIP (now : Time) (ip : string) (s : Service) : Location * Service * list string :=
  let ip := TrimSpace ip in
  if String.eqb ip "" then (no_location, s, [])
  else match gs_cache s ≫= cache_get now ip with
       | Some loc => (loc, s, [])
       | None =>
           let '(loc, urls) := resolve (gs_api s) ip in
           let out := fill ip loc in
           (out, with_cache (cache_set now ip out <$> gs_cache s) s, urls)
       end.
Definition FromRequest (now : Time) (h : Header) (ip : string) (s : Service) : Location * Service * list string :=
  let cc := if String.eqb (gs_header s) "" then "" else normalizeCountry (Get h (gs_header s)) in
  if negb (String.eqb cc "") then (applyCountry cc (located ip "header"), s, []) else FromIP now ip s.
Definition Nearest (loc : Location) (s : Service) : Region := nearestRegion (gs_catalog s) loc.

(** * The endpoints *)
Definition omit_float (k v : string) : list (string * Json) := if String.eqb v "" then [] else [(k, JFloat v)].
Definition location_json (l : Location) : Json :=
  JObj (omit_str "ip" (lo_IP l) ++ omit_str "country" (lo_Country l) ++ omit_str "country_name" (lo_CountryName l) ++
        omit_str "continent" (lo_Continent l) ++ omit_str "region" (lo_Region l) ++ omit_str "city" (lo_City l) ++
        omit_float "lat" (lo_Lat l) ++ omit_float "lon" (lo_Lon l) ++ omit_str "source" (lo_Source l)).
Definition region_json (r : Region) : Json :=
  JObj ([("code", JStr (rg_Code r)); ("name", JStr (rg_Name r))] ++ omit_str "city" (rg_City r) ++
        omit_str "country" (rg_Country r) ++ [("continent", JStr (rg_Continent r)); ("endpoint", JStr (rg_Endpoint r))] ++
        omit_float "lat" (rg_Lat r) ++ omit_float "lon" (rg_Lon r) ++ (if rg_Default r then [("default", JBool true)] else [])).
Definition regions_json (s : Service) : Json := JArr (region_json <$> SortRegions (gs_catalog s)).

(** [qip]: the ip parameter of the query. *)
Definition handleGeo (cfg : ApiConfig) (now : Time) (h : Header) (remoteAddr qip : string) (s : Service) : Response * Service :=
  let ip := clientIP h remoteAddr (ac_TrustProxy cfg) in
  let ip := if ac_DevAuth cfg && negb (String.eqb qip "") then qip else ip in
  let '(loc, s, _) := FromRequest now h ip s in
  (writeJSON 200 (JObj [("ip", JStr (lo_IP loc)); ("location", location_json loc); ("region", region_json (Nearest loc s));
                        ("regions", regions_json s); ("detected", JBool (Known loc))]), s).
Definition handleListRegions (s : Service) : Response := writeJSON 200 (regions_json s).
End resolvers.
