(* ===== verification/GeoSafety.v ===== *)
(** Geolocation, proved: what leaves the process, that the cache changes no answer and
    stays bounded, and which region a client is sent to. *)
From S2P Require Import Prelude GoStrings GoText Ingress Inspect InspectSafety ApiConfig RateLimit Geo.
From Stdlib Require Import Ascii.

Open Scope Z_scope.

(** * The table *)
Definition continents : list string := ["AF"; "AN"; "AS"; "EU"; "NA"; "OC"; "SA"].
Lemma country_table_ok :
  NoDup country_table.*1 ∧
  Forall (λ e : string * (string * string), normalizeCountry e.1 = e.1 ∧ e.2.1 ≠ "" ∧ e.2.2 ∈ continents) country_table.
Proof. refine (bool_decide_eq_true_1 _ _). vm_compute. reflexivity. Qed.

Lemma countries_ok cc info : countries !! cc = Some info →
  normalizeCountry cc = cc ∧ ci_name info ≠ "" ∧ ci_continent info ∈ continents.
Proof.
  intros Hc. unfold countries in Hc. apply elem_of_list_to_map_2, list_elem_of_fmap in Hc as (e & [= -> ->] & He).
  destruct country_table_ok as [_ Hall]. rewrite list.Forall_forall in Hall. by apply Hall.
Qed.

Lemma continent_not_empty c : c ∈ continents → c ≠ "".
Proof. intros Hc ->. by vm_compute in Hc; repeat (apply elem_of_cons in Hc as [Hc|Hc]; [done|]); apply not_elem_of_nil in Hc. Qed.

(** * Addresses *)
Lemma digit_val_range a d : digit_val a = Some d → 0 <= d <= 9.
Proof. unfold digit_val. cbv zeta. case_match eqn:E; [|done]. intros [= <-]. bool_simpl. lia. Qed.
Lemma hex_val_range a d : hex_val a = Some d → 0 <= d <= 15.
Proof.
  unfold hex_val. destruct (digit_val a) as [k|] eqn:E.
  - intros [= <-]. apply digit_val_range in E. lia.
  - cbv zeta. case_match eqn:Hr; [|done]. intros [= <-]. bool_simpl. lia.
Qed.

Lemma take_hex_range off acc s off' acc' r : 0 <= off → 0 <= acc < 16 ^ off → take_hex off acc s = Some (off', acc', r) →
  0 <= acc' < 16 ^ off' ∧ off <= off' <= Z.max off 4.
Proof.
  revert off acc; induction s as [|a s IH]; intros off acc Ho Ha; cbn; [intros [= <- <- _]; lia|].
  destruct (hex_val a) as [d|] eqn:Hd; [|intros [= <- <- _]; lia].
  destruct (Z.ltb_spec 3 off); [done|]. intros Ht. apply hex_val_range in Hd.
  apply IH in Ht; [lia|lia|]. rewrite Z.pow_add_r by lia. lia.
Qed.
Lemma take_hex_word s off acc r : take_hex 0 0 s = Some (off, acc, r) → 0 <= acc < 65536.
Proof.
  intros Ht. apply take_hex_range in Ht as [Ha Ho]; [|lia..]. split; [lia|].
  apply (Z.lt_le_trans _ (16 ^ off)); [lia|]. change 65536 with (16 ^ 4). apply Z.pow_le_mono_r; lia.
Qed.

Lemma parseIPv4_octets s ip : parseIPv4 s = Some ip → Forall octet ip.
Proof. intros Hp. apply parseIPv4_spec in Hp as (a & b & c & d & -> & -> & ? & ? & ? & ?). repeat first [done|constructor]. Qed.

Lemma v6_groups_octets fuel ell out s ell' out' r : Forall octet out → v6_groups fuel ell out s = Some (ell', out', r) → Forall octet out'.
Proof.
  revert ell out s; induction fuel as [|fuel IH]; intros ell out s Ho; cbn [v6_groups]; [by intros [= _ <- _]|].
  destruct (16 <=? length out)%nat; [by intros [= _ <- _]|]. destruct (take_hex 0 0 s) as [[[off acc] rest]|] eqn:Ht; [|done]. cbn [mbind option_bind].
  destruct (off =? 0); [done|]. destruct (HasPrefix rest ".") eqn:Hdot.
  { destruct (match ell with None => _ | Some _ => _ end); [done|]. destruct (16 <? length out + 4)%nat; [done|].
    destruct (parseIPv4 s) as [v4|] eqn:E4; [|done]. cbn. intros [= _ <- _].
    apply Forall_app. split; [done|by apply parseIPv4_octets in E4]. }
  apply take_hex_word in Ht.
  assert (Ho' : Forall octet (out ++ [acc / 256; acc mod 256])).
  { apply Forall_app. split; [done|]. repeat apply Forall_cons_2; [..|by constructor]; unfold octet; Z.div_mod_to_equations; lia. }
  clear Hdot. intros Hg. repeat case_match; simplify_eq; try done; by eapply IH.
Qed.

Lemma ParseIP_octets s ip : ParseIP s = Some ip → Forall octet ip.
Proof.
  unfold ParseIP. destruct (ip_family s) as [[]|]; [|cbn|done]; [apply parseIPv4_octets|].
  destruct (parseIPv6 s) as [ip6|] eqn:E; [|done]. cbn. intros [= <-].
  assert (H6 : Forall octet ip6); [|case_match; [by apply Forall_drop|done]].
  unfold parseIPv6 in E. case_match; [done|]. cbv zeta in E.
  destruct (HasPrefix s "::" && _); [injection E as <-; by apply (Forall_replicate octet 16 0)|].
  destruct (v6_groups _ _ _ _) as [[[ell out] rest]|] eqn:Eg; [|done]. cbn in E.
  apply v6_groups_octets in Eg; [|constructor]. destruct (negb _); [done|]. case_match.
  - destruct ell as [e|]; [|done]. injection E as <-. repeat apply Forall_app_2;
      [by apply Forall_take|apply Forall_replicate; unfold octet; lia|by apply Forall_drop].
  - destruct ell; [done|]. by injection E as <-.
Qed.

(** * What is sent out *)
Definition ip_char (a : ascii) : bool := match hex_val a with Some _ => true | None => Ascii.eqb a "." || Ascii.eqb a ":" end.

Lemma ip_char_hex d : ip_char (hex_digit d) = true.
Proof. unfold hex_digit. by destruct (Z.to_nat (d mod 16)) as [|[|[|[|[|[|[|[|[|[|[|[|[|[|[|[|k]]]]]]]]]]]]]]]]. Qed.
Lemma ip_chars_group x : all_chars ip_char (hex_group x) = true.
Proof.
  unfold hex_group. assert (He : ∀ s, all_chars ip_char s = true → all_chars ip_char (trim_zeros s) = true).
  { induction s as [|a s IH]; [done|]. intros Hs. cbn in Hs |- *. apply andb_true_iff in Hs as [Ha Hs].
    destruct (_ && _); [by apply IH|]. cbn. by rewrite Ha, Hs. }
  apply He. cbn. by rewrite !ip_char_hex.
Qed.
Lemma ip_chars_Join sep l : all_chars ip_char sep = true → Forall (λ s, all_chars ip_char s = true) l → all_chars ip_char (Join sep l) = true.
Proof.
  intros Hsep Hl. induction Hl as [|x l Hx Hl IH]; [done|]. destruct l as [|y l]; [done|].
  cbn [Join]. rewrite !all_chars_app, Hx, Hsep. exact IH.
Qed.
Lemma ip_chars_colons l : all_chars ip_char (colon_groups l) = true.
Proof. apply ip_chars_Join; [done|]. apply Forall_fmap, Forall_true. intros x. apply ip_chars_group. Qed.

Lemma ip_String_chars ip : Forall octet ip → all_chars ip_char (ip_String ip) = true.
Proof.
  intros Ho. unfold ip_String. destruct (length ip =? 4)%nat.
  - apply ip_chars_Join; [done|]. apply Forall_fmap. eapply list.Forall_impl; [exact Ho|]. intros x [Hx _]. cbn.
    destruct (Itoa_nonneg x Hx) as (_ & Hd & _). eapply all_chars_impl; [|exact Hd]. intros a Ha.
    unfold is_digit in Ha. unfold ip_char, hex_val. by destruct (digit_val a).
  - destruct (longest_zeros 0 (groups ip) (0%nat, 0%nat)) as [start n]. case_match; [apply ip_chars_colons|].
    by rewrite !all_chars_app, !ip_chars_colons.
Qed.

Section lookups.
Context (fetch : string → option (Z * string)) (decode_provider : string → option providerResponse).
Local Abbreviation look := (FromIP fetch decode_provider).
Local Abbreviation answer := (λ api ip, (resolve fetch decode_provider api ip).1).
Local Abbreviation asked := (λ api ip, (resolve fetch decode_provider api ip).2).

Lemma resolve_asks api ip u : u ∈ asked api ip →
  ∃ addr, ParseIP ip = Some addr ∧ private_address addr = false ∧ u = provider_url api addr.
Proof.
  unfold resolve, privateResolver, httpResolver. destruct (ParseIP ip) as [addr|].
  - destruct (private_address addr) eqn:Hp; [by intros ?%not_elem_of_nil|].
    destruct (String.eqb api ""); [by intros ?%not_elem_of_nil|]. cbn. intros ?%list_elem_of_singleton. by exists addr.
  - destruct (String.eqb api ""); by intros ?%not_elem_of_nil.
Qed.

(** What a lookup sends out: whatever a client puts into the headers that its
    address is read from, the provider is asked only about a valid address that is not
    loopback, private, link-local or unspecified, at the URL that the operator's
    template gives for the canonical text of that address, which consists of digits,
    letters a to f, dots and colons; nothing is sent when no provider is configured or
    a proxy's header names the country. *)
Theorem lookup_leaks_nothing now h ip s loc s' urls : FromRequest fetch decode_provider now h ip s = (loc, s', urls) →
  (∀ u, u ∈ urls → ∃ addr, ParseIP (TrimSpace ip) = Some addr ∧ private_address addr = false ∧
     u = provider_url (gs_api s) addr ∧ all_chars ip_char (ip_String addr) = true) ∧
  (gs_api s = "" → urls = []) ∧
  (gs_header s ≠ "" → normalizeCountry (Get h (gs_header s)) ≠ "" → urls = [] ∧ s' = s).
Proof.
  unfold FromRequest. intros Hf. split_and!.
  - intros u Hu. revert Hf. destruct (negb _); [intros [= _ _ <-]; by apply not_elem_of_nil in Hu|]. unfold FromIP. cbv zeta.
    destruct (String.eqb (TrimSpace ip) ""); [intros [= _ _ <-]; by apply not_elem_of_nil in Hu|].
    destruct (gs_cache s ≫= _); [intros [= _ _ <-]; by apply not_elem_of_nil in Hu|].
    destruct (resolve _ _ _ _) as [l us] eqn:Er. intros [= _ _ <-].
    destruct (resolve_asks (gs_api s) (TrimSpace ip) u) as (addr & Ha & Hp & ->); [by rewrite Er|].
    exists addr. split_and!; try done. by eapply ip_String_chars, ParseIP_octets.
  - intros Hapi. revert Hf. destruct (negb _); [by intros [= _ _ <-]|]. unfold FromIP. cbv zeta. destruct (String.eqb (TrimSpace ip) ""); [by intros [= _ _ <-]|].
    destruct (gs_cache s ≫= _); [by intros [= _ _ <-]|]. unfold resolve. rewrite Hapi. cbn.
    destruct (privateResolver _); by intros [= _ _ <-].
  - intros Hh Hc. revert Hf. apply String.eqb_neq in Hh as ->. apply String.eqb_neq in Hc as ->. cbn. intros [= _ <- <-]. done.
Qed.

(** * The cache *)
(** Every entry is the answer of the resolvers, and there are not too many. *)
Definition cache_ok (api : string) (c : ttlCache) : Prop :=
  (∀ ip e, tc_m c !! ip = Some e → e.1 = fill ip (answer api ip)) ∧ (size (tc_m c) ≤ cacheMax)%nat.
Definition service_ok (s : Service) : Prop := ∀ c, gs_cache s = Some c → cache_ok (gs_api s) c.

Lemma cache_set_ok api c now ip : cache_ok api c → cache_ok api (cache_set now ip (fill ip (answer api ip)) c).
Proof.
  intros [He Hs]. unfold cache_set. set (m := if (cacheMax <=? size (tc_m c))%nat then ∅ else tc_m c).
  assert (Hm : (∀ ip e, m !! ip = Some e → e.1 = fill ip (answer api ip)) ∧ (S (size m) ≤ cacheMax)%nat).
  { unfold m. destruct (Nat.leb_spec cacheMax (size (tc_m c))) as [Hle|Hlt].
    - split; [by intros ? ?; rewrite lookup_empty|]. rewrite map_size_empty. unfold cacheMax. lia.
    - split; [done|lia]. }
  clearbody m. destruct Hm as [Hm Hsz]. split; cbn.
  - intros ip' e. destruct (decide (ip' = ip)) as [->|Hne]; [by rewrite lookup_insert_eq; intros [= <-]|].
    rewrite lookup_insert_ne by done. apply Hm.
  - rewrite map_size_insert. destruct (m !! ip); unfold id; lia.
Qed.

(** What a lookup without a cache answers. *)
Definition locate (api ip : string) : Location :=
  let ip := TrimSpace ip in if String.eqb ip "" then no_location else fill ip (answer api ip).

Lemma FromIP_answer now ip s : service_ok s →
  let '(loc, s', _) := look now ip s in
  loc = locate (gs_api s) ip ∧ service_ok s' ∧ gs_api s' = gs_api s ∧ gs_header s' = gs_header s ∧ gs_catalog s' = gs_catalog s.
Proof.
  intros Hok. unfold FromIP, locate. cbv zeta. destruct (String.eqb (TrimSpace ip) ""); [done|].
  destruct (gs_cache s) as [c|] eqn:Ec; cbn.
  - destruct (cache_get now (TrimSpace ip) c) as [loc|] eqn:Eg.
    + unfold cache_get in Eg. destruct (tc_m c !! TrimSpace ip) as [[l e]|] eqn:El; [|done]. case_match; [done|].
      injection Eg as <-. split_and!; try done. destruct (Hok c Ec) as [He _]. exact (He _ _ El).
    + destruct (resolve _ _ _ _) as [l us] eqn:Er. split_and!; try done. intros c' [= <-].
      pose proof (cache_set_ok (gs_api s) c now (TrimSpace ip) (Hok c Ec)) as Hc. cbv beta in Hc. by rewrite Er in Hc.
  - by destruct (resolve _ _ _ _) as [l us] eqn:Er.
Qed.

(** Lookups one after the other. *)
Fixpoint lookups (qs : list (Time * string)) (s : Service) : list Location * Service :=
  match qs with
  | [] => ([], s)
  | (now, ip) :: qs => let '(loc, s, _) := look now ip s in let '(locs, s) := lookups qs s in (loc :: locs, s)
  end.

(** The cache changes no answer: over any sequence of lookups at any times,
    however entries expire or are dropped when the cache is full, a service answers what
    one without a cache would, as long as the provider answers the same, and it never
    keeps more than 50000 entries. *)
Theorem cache_changes_no_answer cfg qs :
  let s := geo_New cfg in
  let '(locs, s') := lookups qs s in
  locs = (λ q, locate (gc_APIURL cfg) q.2) <$> qs ∧
  ∀ c, gs_cache s' = Some c → (size (tc_m c) ≤ cacheMax)%nat.
Proof.
  intros s. assert (Hs : service_ok s).
  { intros c Hc. unfold s, geo_New in Hc. cbn in Hc. case_match; [|done]. injection Hc as <-.
    split; cbn; [by intros ? ?; rewrite lookup_empty|rewrite map_size_empty; lia]. }
  assert (Hapi : gs_api s = gc_APIURL cfg) by done. clearbody s. revert s Hs Hapi.
  induction qs as [|[now ip] qs IH]; intros s Hs Hapi; cbn [lookups fmap list_fmap].
  - split; [done|]. intros c Hc. by destruct (Hs c Hc).
  - pose proof (FromIP_answer now ip s Hs) as Ha. destruct (look now ip s) as [[loc s1] us].
    destruct Ha as (-> & Hs1 & Ha1 & _). specialize (IH s1 Hs1 ltac:(congruence)).
    destruct (lookups qs s1) as [locs s']. destruct IH as [-> Hb]. split; [|done]. cbn. by rewrite Hapi.
Qed.
End lookups.

(** * The nearest region *)
Lemma region_where_Some p l r : region_where p l = Some r → r ∈ l ∧ p r = true.
Proof. induction l as [|x l IH]; cbn; [done|]. destruct (p x) eqn:E; [intros [= <-]; set_solver|intros Hr; set_solver]. Qed.
Lemma region_where_None p l : region_where p l = None ↔ ∀ r, r ∈ l → p r = false.
Proof.
  induction l as [|x l IH]; cbn; [split; [by intros _ r ?%not_elem_of_nil|done]|].
  destruct (p x) eqn:E; [split; [done|]|].
  - intros Hall. rewrite (Hall x) in E by set_solver. done.
  - rewrite IH. split; [intros Hall r [->|Hr]%elem_of_cons; auto|intros Hall r Hr; apply Hall; set_solver].
Qed.
Lemma defaultRegion_in catalog : catalog ≠ [] → defaultRegion catalog ∈ catalog.
Proof.
  intros Hne. unfold defaultRegion. destruct (region_where _ catalog) eqn:E; [by apply region_where_Some in E as [? _]|].
  destruct catalog; [done|]. cbn. set_solver.
Qed.

(** Which region a client is sent to: one of the catalog, on the client's continent when
    a region is there, else on the neighbouring continent of the table when one is
    there, else the default region. *)
Theorem nearest_region_spec catalog loc : catalog ≠ [] →
  let r := nearestRegion catalog loc in let c := continent_of loc in
  let has := λ k, ∃ x, x ∈ catalog ∧ rg_Continent x = k in
  r ∈ catalog ∧
  (c = "" → r = defaultRegion catalog) ∧
  (c ≠ "" → has c → rg_Continent r = c) ∧
  (c ≠ "" → ¬ has c → has (continentFallback c) → rg_Continent r = continentFallback c) ∧
  (c ≠ "" → ¬ has c → ¬ has (continentFallback c) → r = defaultRegion catalog).
Proof.
  intros Hne r c has. assert (Hw : ∀ k, region_where (λ r, String.eqb (rg_Continent r) k) catalog = None ↔ ¬ has k).
  { intros k. rewrite region_where_None. split.
    - intros Hall (x & Hx & <-). specialize (Hall x Hx). by rewrite String.eqb_refl in Hall.
    - intros Hno x Hx. apply String.eqb_neq. intros <-. apply Hno. by exists x. }
  assert (Hin : ∀ k x, region_where (λ r, String.eqb (rg_Continent r) k) catalog = Some x → x ∈ catalog ∧ rg_Continent x = k).
  { intros k x [Hx Hk]%region_where_Some. split; [done|by apply String.eqb_eq]. }
  unfold r, nearestRegion. destruct catalog as [|x0 cat] eqn:Ecat; [done|]. rewrite <-Ecat in *. fold c.
  destruct (String.eqb_spec c "") as [->|Hc]; [split_and!; try done; by apply defaultRegion_in|].
  destruct (region_where (λ r, String.eqb (rg_Continent r) c) catalog) as [x|] eqn:E1.
  { destruct (Hin _ _ E1) as [Hx Hxc]. split_and!; try done; intros _ Hno; destruct Hno; exists x; by rewrite <-Ecat. }
  apply Hw in E1. destruct (region_where (λ r, String.eqb (rg_Continent r) (continentFallback c)) catalog) as [x|] eqn:E2.
  { destruct (Hin _ _ E2) as [Hx Hxc]. split_and!; try done. intros _ _ Hno. destruct Hno. exists x. by rewrite <-Ecat. }
  apply Hw in E2. split_and!; try done. by apply defaultRegion_in.
Qed.

(** With the built-in catalog Antarctica is sent to Frankfurt: its neighbour Oceania has
    no region and the default is the European one, not the Asian one. *)
Example antarctica_is_sent_to_europe :
  rg_Code (nearestRegion DefaultRegions (applyCountry "AQ" no_location)) = "eu" ∧
  rg_Code (nearestRegion DefaultRegions (applyCountry "AU" no_location)) = "ap" ∧
  rg_Code (nearestRegion DefaultRegions (applyCountry "BR" no_location)) = "us" ∧
  rg_Code (nearestRegion DefaultRegions (applyCountry "UZ" no_location)) = "ap".
Proof. vm_compute. done. Qed.

(** The canonical text of addresses. *)
Example ip_String_ex :
  (ip_String <$> ParseIP "2001:DB8:0:0:0:0:0:1") = Some "2001:db8::1" ∧ (ip_String <$> ParseIP "::ffff:8.8.4.4") = Some "8.8.4.4" ∧
  (ip_String <$> ParseIP "0:0:1::") = Some "0:0:1::" ∧ ParseIP "8.8.8.8/../x" = None ∧
  CanonicalHeaderKey "cf-ipCountry" = "Cf-Ipcountry".
Proof. vm_compute. done. Qed.

Definition ex_fetch (url : string) : option (Z * string) := Some (200, url).
Definition ex_provider (body : string) : option providerResponse :=
  Some {| pv_Status := "Success"; pv_CountryCode := " de"; pv_Country := ""; pv_RegionName := ""; pv_City := "Berlin"; pv_Lat := ""; pv_Lon := "" |}.
Definition ex_geo : Service := geo_New {| gc_Header := ""; gc_APIURL := "http://geo/{ip}?x"; gc_CacheTTL := 0; gc_Regions := [] |}.
Lemma lookup_leaks_nothing_witness :
  ∃ loc s', FromRequest ex_fetch ex_provider 7 ∅ " 2001:DB8::8 " ex_geo = (loc, s', ["http://geo/2001:db8::8?x"]) ∧
    lo_CountryName loc = "Germany" ∧ ∃ addr, private_address addr = false ∧ provider_url "http://geo/{ip}?x" addr = "http://geo/2001:db8::8?x".
Proof.
  eexists _, _. assert (Hrun : FromRequest ex_fetch ex_provider 7 ∅ " 2001:DB8::8 " ex_geo = (_, _, ["http://geo/2001:db8::8?x"]))
    by (vm_compute; reflexivity).
  split; [exact Hrun|]. split; [reflexivity|].
  destruct (lookup_leaks_nothing ex_fetch ex_provider 7 ∅ " 2001:DB8::8 " ex_geo _ _ _ Hrun) as [Hu _]. clear Hrun.
  destruct (Hu "http://geo/2001:db8::8?x" (list_elem_of_here _ _)) as (addr & _ & Hp & Hurl & _). clear Hu.
  exists addr. split; [exact Hp|]. rewrite Hurl. reflexivity.
Defined.
