(* ===== verification/ApiRouter.v ===== *)
(** The control plane's HTTP surface (internal/api/server.go, rpc.go, docs.go): the
    server's construction, the route table with its groups of middlewares, and one
    request served from the first middleware to the handler's answer.

    The router library (chi) is an interface with its documented behaviour: a request
    goes to a registered entry of its method whose pattern matches its path
    ([MuxLaws]). JSON bodies are decoded by [Bodies]; the outside of a request (clock,
    randomness, the sign-in provider, DNS) is its [ApiWorld]. *)
From S2P Require Import Prelude GoStrings Authz Store StoreInv Listings Billing Entitle Ingress Login ApiConfig ApiAuth.
From S2P Require Import ApiResources ApiSafety ApiAdmin RateLimit Remote Geo.
From Stdlib Require Import Ascii.

Open Scope Z_scope.

(** * The route table *)
Inductive Guard := GApiLimit | GAuthLimit | GUser | GAdmin | GInternal.
Inductive Endpoint :=
| EHealthz | ERoot | EOpenAPI | EStatus | EDocs | EAdminPage | EAdminLogout | EAdminLogin
| EPlansPublic | ERegions | EGeo
| ESignup | ELogin | ERefresh | EOAuthStart | EOAuthCallback | ELogout | EDeviceCode | EDeviceToken
| EWebhook
| EAccount | EMe | EDeviceApprove | EListKeys | ECreateKey | ERevokeKey | EListSubs | EReserve | ERelease
| EListDomains | EAddDomain | EVerifyDomain | EUsage | EUsageHistory | EListOrgs | EListTunnels | ETunnelHistory | EPlans
| ECheckout | EPortal | ESubscription | ERemoteCreate | ERemoteAgent | ERemotePublish | ERemoteEnd
| ERemoteViewer | ERemoteCommand
| EAdminSession | EAdminLookup | EAdminGrant | EAdminRevoke | EAdminStats | EAdminUsers | EAdminOrgs | EAdminTunnels
| ERpcAuthenticate | ERpcCheckBind | ERpcReportUsage | ERpcReportTunnel.

Record Entry := { en_Method : string; en_Pattern : string; en_Guards : list Guard; en_Handler : Endpoint }.
Definition GET (p : string) (h : Endpoint) : Entry := {| en_Method := "GET"; en_Pattern := p; en_Guards := []; en_Handler := h |}.
Definition POST (p : string) (h : Endpoint) : Entry := {| en_Method := "POST"; en_Pattern := p; en_Guards := []; en_Handler := h |}.
Definition DELETE (p : string) (h : Endpoint) : Entry := {| en_Method := "DELETE"; en_Pattern := p; en_Guards := []; en_Handler := h |}.
(** A middleware of a group runs before those of the groups inside. *)
Definition Use (g : Guard) (l : list Entry) : list Entry :=
  (λ e, {| en_Method := en_Method e; en_Pattern := en_Pattern e; en_Guards := g :: en_Guards e; en_Handler := en_Handler e |}) <$> l.
Definition Mount (prefix : string) (l : list Entry) : list Entry :=
  (λ e, {| en_Method := en_Method e; en_Pattern := prefix +:+ en_Pattern e; en_Guards := en_Guards e; en_Handler := en_Handler e |}) <$> l.

Definition PathAuthenticate : string := "/internal/entitlements/authenticate".
Definition PathCheckBind : string := "/internal/entitlements/check-bind".
Definition PathReportUsage : string := "/internal/entitlements/report-usage".
Definition PathReportTunnel : string := "/internal/entitlements/report-tunnel".
Definition mountInternal : list Entry :=
  Use GInternal [POST PathAuthenticate ERpcAuthenticate; POST PathCheckBind ERpcCheckBind;
                 POST PathReportUsage ERpcReportUsage; POST PathReportTunnel ERpcReportTunnel].

Definition auth_routes : list Entry :=
  [POST "/auth/signup" ESignup; POST "/auth/login" ELogin; POST "/auth/refresh" ERefresh;
   GET "/auth/oauth/{provider}" EOAuthStart; GET "/auth/oauth/{provider}/callback" EOAuthCallback;
   POST "/auth/logout" ELogout; POST "/auth/device/code" EDeviceCode; POST "/auth/device/token" EDeviceToken].
Definition user_routes : list Entry :=
  [GET "/account" EAccount; GET "/me" EMe; POST "/auth/device/approve" EDeviceApprove;
   GET "/api-keys" EListKeys; POST "/api-keys" ECreateKey; DELETE "/api-keys/{id}" ERevokeKey;
   GET "/subdomains" EListSubs; POST "/subdomains" EReserve; DELETE "/subdomains/{id}" ERelease;
   GET "/domains" EListDomains; POST "/domains" EAddDomain; POST "/domains/{id}/verify" EVerifyDomain;
   GET "/usage" EUsage; GET "/usage/history" EUsageHistory; GET "/orgs" EListOrgs; GET "/tunnels" EListTunnels;
   GET "/tunnels/history" ETunnelHistory; GET "/plans" EPlans;
   POST "/billing/checkout" ECheckout; POST "/billing/portal" EPortal; GET "/billing/subscription" ESubscription;
   POST "/remote/sessions" ERemoteCreate; GET "/remote/sessions/{code}/agent" ERemoteAgent;
   POST "/remote/sessions/{code}/publish" ERemotePublish; POST "/remote/sessions/{code}/end" ERemoteEnd].
Definition admin_routes : list Entry :=
  [GET "/admin/session" EAdminSession; GET "/admin/lookup" EAdminLookup; POST "/admin/grant" EAdminGrant;
   POST "/admin/revoke" EAdminRevoke; GET "/admin/stats" EAdminStats; GET "/admin/users" EAdminUsers;
   GET "/admin/orgs" EAdminOrgs; GET "/admin/tunnels" EAdminTunnels].
Definition Router (production : bool) : list Entry :=
  [GET "/healthz" EHealthz; GET "/" ERoot; GET "/openapi.yaml" EOpenAPI] ++
  (if negb production then [GET "/status" EStatus; GET "/docs" EDocs] else []) ++
  [GET "/admin" EAdminPage; POST "/admin/logout" EAdminLogout] ++
  Use GAuthLimit [POST "/admin/login" EAdminLogin] ++
  Mount "/v1" (Use GApiLimit (
    [GET "/plans/public" EPlansPublic; GET "/regions" ERegions; GET "/geo" EGeo] ++
    Use GAuthLimit auth_routes ++
    [POST "/billing/webhooks" EWebhook] ++
    Use GUser user_routes ++
    [GET "/remote/sessions/{code}/viewer" ERemoteViewer; POST "/remote/sessions/{code}/command" ERemoteCommand] ++
    Use GAdmin admin_routes)) ++
  mountInternal.

(** ** Matching *)
Definition is_param (s : string) : bool := HasPrefix s "{".
(** chi lets a parameter be empty in the middle of a path, not at its end. *)
Fixpoint match_segs (pat path : list string) : option (list string) :=
  match pat, path with
  | [], [] => Some []
  | s :: pat, x :: path =>
      if is_param s then if String.eqb x "" && bool_decide (pat = []) then None else ps ← match_segs pat path; Some (x :: ps)
      else if String.eqb s x then match_segs pat path else None
  | _, _ => None
  end.
(** The parameters of a path under a pattern, in order. *)
Definition match_pattern (pat path : string) : option (list string) :=
  match_segs (Split pat "/"%char) (Split path "/"%char).

(** chi: the entry of a request with its parameters; else the status of the refusal. *)
Class Mux := { mux_find : list Entry → string → string → (Entry * list string) + Z }.
Class MuxLaws `{Mux} := {
  mux_sound : ∀ rs m p e ps, mux_find rs m p = inl (e, ps) → e ∈ rs ∧ en_Method e = m ∧ match_pattern (en_Pattern e) p = Some ps;
  mux_complete : ∀ rs m p e ps, e ∈ rs → en_Method e = m → match_pattern (en_Pattern e) p = Some ps →
    ∃ e' ps', mux_find rs m p = inl (e', ps');
}.

(** * Requests and answers *)
Record AReq := {
  aq_Method : string; aq_Path : string; aq_Host : string; aq_Header : Header; aq_RemoteAddr : string;
  aq_query : string → string; aq_cookie : string → option string; aq_Body : string;
}.
(** The structs of the bodies; a field of a struct of strings by its name. *)
Class Bodies := {
  b_string : string → string → option string;
  b_grant : string → option (string * string * Z);
  b_event : string → option remoteEvent;
  b_bind : string → option BindRequest;
  b_usage : string → option Usage;
  b_tunnel : string → option TunnelReport;
}.
Record ApiWorld := {
  aw_now : Time; aw_draws : Draws; aw_id : list Z; aw_token : list Z; aw_host : list Z; aw_code : list Z;
  aw_oauth : Provider_answers; aw_goroutines : Z;
}.
(** What is written: an answer, a static document, a stream left open, or the
    plain refusals of the router and of [http.NotFound]. *)
Inductive Answer := AResp (r : Response) | AText (s : string) | APage (name : string) | AStream | ARefused (code : Z).

(** * The server *)
Record Api (D R S B : Type) := mkApi {
  ap_sv : Server D R S; ap_relay : Relay; ap_geo : Service; ap_auth : limiterStore B; ap_api : limiterStore B;
}.
Arguments mkApi {D R S B}. Arguments ap_sv {D R S B}. Arguments ap_relay {D R S B}. Arguments ap_geo {D R S B}.
Arguments ap_auth {D R S B}. Arguments ap_api {D R S B}.

(** The first [n] bytes of a body: a longer JSON value does not end within them. *)
Definition limit_read (n : Z) (body : string) : string :=
  if Z.of_nat (String.length body) <=? n then body else take_string (Z.to_nat n) body.
Definition maxBody : Z := 2 ^ 20.

Section api.
  Context {D R S B : Type} `{DeviceStore D} `{Revoker R} `{oauthStateStore S} `{Jwt} `{RedisScripts B} `{RangeOrder} `{Mux} `{Bodies}.
  Context (IDKey : string → list Z → Z → Z → Z → Z → list Z) (hmac : string → string → list Z) (parse : string → option Billing.Event).
  Context (cfg : ApiConfig) (bcfg : BillingConfig) (cc : CheckoutConfig) (stripe : StripeAPI) (lookupTXT : string → option (list string)).
  Context (providers : gmap string OAuthProvider) (fetch : string → option (Z * string)) (decode_provider : string → option providerResponse).
  Context (version goVersion : string) (processStart : Time).
Abbreviation St := (Api D R S B).

Definition with_sv (sv : Server D R S) (a : St) : St := mkApi sv (ap_relay a) (ap_geo a) (ap_auth a) (ap_api a).
Definition with_relay (r : Relay) (a : St) : St := mkApi (ap_sv a) r (ap_geo a) (ap_auth a) (ap_api a).
Definition with_geo (g : Service) (a : St) : St := mkApi (ap_sv a) (ap_relay a) g (ap_auth a) (ap_api a).
Definition with_auth_limit (l : limiterStore B) (a : St) : St := mkApi (ap_sv a) (ap_relay a) (ap_geo a) l (ap_api a).
Definition with_api_limit (l : limiterStore B) (a : St) : St := mkApi (ap_sv a) (ap_relay a) (ap_geo a) (ap_auth a) l.
Definition ap_store (a : St) : MemStore := sv_store (ap_sv a).
Definition set_store (m : MemStore) (a : St) : St := with_sv (ApiAuth.with_store m (ap_sv a)) a.

(** ** Middlewares *)
(** The refusals of [requireAdmin] and [internalTokenGuard]. *)
Definition admin_refusal (now : Time) (c : option string) : option Response :=
  if negb (adminEnabled cfg) then Some (writeError 404 "admin console is disabled")
  else match c with
       | None => Some (writeError 401 "not signed in")
       | Some v => if negb (verifyAdmin hmac cfg now v) then Some (writeError 401 "not signed in") else None
       end.
Definition internal_refusal (h : Header) : option Response :=
  if String.eqb (ac_InternalToken cfg) "" || negb (String.eqb (Get h HeaderToken) (ac_InternalToken cfg))
  then Some (writeError 401 "invalid internal token") else None.
Definition client_of (q : AReq) : string := clientIP (aq_Header q) (aq_RemoteAddr q) (ac_TrustProxy cfg).
Definition rate_limited : Answer := AResp (writeError 429 "rate limit exceeded").
Definition unauthorized : Answer := AResp (writeError 401 "unauthorized").

Fixpoint guarded (gs : list Guard) (w : ApiWorld) (q : AReq) (next : option Principal → St → Answer * St)
    (p : option Principal) (a : St) : Answer * St :=
  match gs with
  | [] => next p a
  | GApiLimit :: gs =>
      match RateLimit.allow (aw_now w) (client_of q) (ap_api a) with
      | (false, l) => (rate_limited, with_api_limit l a)
      | (true, l) => guarded gs w q next p (with_api_limit l a)
      end
  | GAuthLimit :: gs =>
      match RateLimit.allow (aw_now w) (client_of q) (ap_auth a) with
      | (false, l) => (rate_limited, with_auth_limit l a)
      | (true, l) => guarded gs w q next p (with_auth_limit l a)
      end
  | GUser :: gs =>
      match Middleware (ac_JWTSecret cfg) IDKey (aw_now w) (aq_Header q) (ap_store a) with
      | (None, m) => (unauthorized, set_store m a)
      | (Some p, m) => guarded gs w q next (Some p) (set_store m a)
      end
  | GAdmin :: gs =>
      match admin_refusal (aw_now w) (aq_cookie q adminCookie) with
      | Some r => (AResp r, a)
      | None => guarded gs w q next p a
      end
  | GInternal :: gs =>
      match internal_refusal (aq_Header q) with
      | Some r => (AResp r, a)
      | None => guarded gs w q next p a
      end
  end.

(** ** Handlers *)
Definition on_store (h : Handler) (a : St) : Answer * St := let '(r, m) := h (ap_store a) in (AResp r, set_store m a).
Definition on_server (h : Server D R S → Response * Server D R S) (a : St) : Answer * St :=
  let '(r, sv) := h (ap_sv a) in (AResp r, with_sv sv a).
(** A panic is answered by the Recoverer. *)
Definition on_relay (h : Relay → option (Response * Relay)) (a : St) : Answer * St :=
  match h (ap_relay a) with
  | None => (ARefused 500, a)
  | Some (r, rl) => (AResp r, with_relay rl a)
  end.
Definition on_stream {T} (h : Relay → option (Response * option T * Relay)) (a : St) : Answer * St :=
  match h (ap_relay a) with
  | None => (ARefused 500, a)
  | Some (r, None, rl) => (AResp r, with_relay rl a)
  | Some (_, Some _, rl) => (AStream, with_relay rl a)
  end.
Definition answer (r : Response) (a : St) : Answer * St := (AResp r, a).

Definition body (q : AReq) : string := limit_read maxBody (aq_Body q).
Definition field (name : string) (q : AReq) : option string := b_string name (body q).
Definition fields2 (n1 n2 : string) (q : AReq) : option (string * string) :=
  x ← field n1 q; y ← field n2 q; Some (x, y).
Definition param1 (ps : list string) : string := default "" (head ps).

Definition storeKind : string := if negb (String.eqb (ac_DatabaseURL cfg) "") then "postgres" else "memory".
(** [time.RFC3339] of a time is printed as the time itself. *)
Definition handleStatus (now : Time) (goroutines : Z) : Response :=
  writeJSON 200 (JObj [("service", JStr "trqsh-control-api"); ("status", JStr "ok"); ("version", JStr version);
    ("store", JStr storeKind); ("base_domain", JStr (ac_BaseDomain cfg)); ("billing_enabled", JBool (Enabled bcfg));
    ("oauth_providers", JArr (JStr <$> sort_by String.ltb (range_map providers).*1)); ("started_at", JTime processStart);
    ("uptime_seconds", JNum ((now - processStart) / Second)); ("go_version", JStr goVersion);
    ("goroutines", JNum goroutines); ("now", JTime now)]).

Definition webhook_answer (r : Z * string) : Response :=
  if r.1 =? 200 then writeJSON 200 (JObj [("status", JStr r.2)]) else writeError r.1 r.2.
Definition handle_webhook (w : ApiWorld) (q : AReq) : Handler := λ m,
  let '(r, m) := HandleWebhook hmac parse bcfg (aw_now w) (aw_id w) (limit_read maxBody (aq_Body q))
                   (Get (aq_Header q) "Stripe-Signature") m in (webhook_answer r, m).

(** The location of a reporting agent, from the service and its cache. *)
Definition report_tunnel (w : ApiWorld) (q : AReq) (a : St) : Answer * St :=
  let req := b_tunnel (body q) in
  let from := λ ip, let '(loc, _, _) := FromIP fetch decode_provider (aw_now w) ip (ap_geo a) in (lo_Country loc, lo_City loc) in
  let geo := match req with
             | Some r => if negb (String.eqb (tr_AccountID r) "") && String.eqb (tr_Action r) "open"
                         then (FromIP fetch decode_provider (aw_now w) (tr_ClientIP r) (ap_geo a)).1.2 else ap_geo a
             | None => ap_geo a
             end in
  on_store (rpcReportTunnel from (aw_now w) (aw_id w) req) (with_geo geo a).

(** The resource requests of [user_routes]. *)
Definition resource_call (e : Endpoint) (w : ApiWorld) (q : AReq) (ps : list string) : option api_call :=
  let dw := aw_draws w in
  match e with
  | EMe => Some QMe
  | EListKeys => Some QListKeys
  | ECreateKey => Some (QCreateKey (dw_pb dw) (dw_sb dw) (dw_salt dw) (dw_key dw) (field "name" q))
  | ERevokeKey => Some (QRevokeKey (param1 ps))
  | EListSubs => Some QListSubs
  | EReserve => Some (QReserve (aw_id w) (field "subdomain" q))
  | ERelease => Some (QRelease (param1 ps))
  | EListDomains => Some QListDomains
  | EAddDomain => Some (QAddDomain (aw_token w) (aw_id w) (field "domain" q))
  | EVerifyDomain => Some (QVerifyDomain (param1 ps) (aq_query q "force"))
  | EUsage => Some QUsage
  | EUsageHistory => Some (QUsageHistory (aq_query q "bucket") (aq_query q "days"))
  | EListOrgs => Some QListOrgs
  | EListTunnels => Some QListTunnels
  | ETunnelHistory => Some (QTunnelHistory (aq_query q "limit") (aq_query q "offset") (aq_query q "active"))
  | ECheckout => Some (QCheckout (fields2 "plan" "cadence" q))
  | EPortal => Some QPortal
  | ESubscription => Some QSubscription
  | _ => None
  end.

(** [auth.PrincipalFrom] outside the authenticated group. *)
Definition nobody : Principal := {| pr_UserID := ""; pr_OrgID := ""; pr_ViaAPIKey := false; pr_APIKeyID := "" |}.

Definition run_handler (e : Endpoint) (w : ApiWorld) (q : AReq) (ps : list string) (p : option Principal) (a : St) : Answer * St :=
  let now := aw_now w in
  let dw := aw_draws w in
  let p := default nobody p in
  let h := aq_Header q in
  match e with
  | EHealthz => (AText "ok", a)
  | ERoot => (if handleRoot cfg (aq_Host q) h then APage "admin" else ARefused 404, a)
  | EOpenAPI => (APage "openapi", a)
  | EStatus => answer (handleStatus now (aw_goroutines w)) a
  | EDocs => (APage "docs", a)
  | EAdminPage => (if handleAdminPage cfg (aq_Host q) h then APage "admin" else ARefused 404, a)
  | EAdminLogout => answer (handleAdminLogout cfg) a
  | EAdminLogin => answer (handleAdminLogin hmac cfg now (fields2 "username" "password" q)) a
  | EPlansPublic => answer handleListPlansPublic a
  | ERegions => answer (handleListRegions (ap_geo a)) a
  | EGeo =>
      let '(r, g) := handleGeo fetch decode_provider cfg now h (aq_RemoteAddr q) (aq_query q "ip") (ap_geo a) in
      (AResp r, with_geo g a)
  | ESignup => on_server (handleSignup cfg now dw (fields2 "email" "name" q)) a
  | ELogin => on_server (handleLogin cfg now dw (fields2 "email" "name" q)) a
  | ERefresh => on_server (handleRefresh cfg now dw (field "refresh_token" q)) a
  | EOAuthStart => on_server (handleOAuthStart cfg providers now dw (param1 ps) (aq_query q "next")) a
  | EOAuthCallback =>
      on_server (handleOAuthCallback cfg providers now dw (param1 ps) (aq_query q "state") (aq_cookie q "trqsh_oauth_state")
                   (aq_cookie q "trqsh_oauth_next") (aw_oauth w)) a
  | ELogout =>
      on_server (handleLogout cfg now (aq_cookie q "trqsh_refresh") (b_string "refresh_token" (limit_read (2 ^ 16) (aq_Body q)))) a
  | EDeviceCode => on_server (handleDeviceCode cfg now dw) a
  | EDeviceToken => on_server (handleDeviceToken now (field "device_code" q)) a
  | EWebhook => on_store (handle_webhook w q) a
  | EAccount => on_server (handleAccount p) a
  | EDeviceApprove => on_server (handleDeviceApprove IDKey now dw p (field "user_code" q)) a
  | EPlans => answer handleListPlans a
  | ERemoteCreate => on_relay (λ rl, Some (handleRemoteCreate cfg now (aw_code w) p rl)) a
  | ERemoteAgent => on_stream (handleRemoteAgentStream now p (param1 ps)) a
  | ERemotePublish => on_relay (handleRemotePublish now p (param1 ps) (b_event (body q))) a
  | ERemoteEnd => on_relay (handleRemoteEnd now p (param1 ps)) a
  | ERemoteViewer => on_stream (handleRemoteViewerStream now (param1 ps)) a
  | ERemoteCommand => on_relay (handleRemoteCommand now (param1 ps) (field "text" q)) a
  | EAdminSession => answer handleAdminSession a
  | EAdminLookup => on_store (handleAdminLookup now (aq_query q "email")) a
  | EAdminGrant => on_store (handleAdminGrant now (b_grant (body q))) a
  | EAdminRevoke => on_store (handleAdminRevoke now (field "email" q)) a
  | EAdminStats => on_store (handleAdminStats (regions_json (ap_geo a)) now) a
  | EAdminUsers => on_store (handleAdminUsers now (aq_query q "limit") (aq_query q "offset") (aq_query q "q")) a
  | EAdminOrgs => on_store (handleAdminOrgs now (aq_query q "limit") (aq_query q "offset") (aq_query q "plan")) a
  | EAdminTunnels => on_store (handleAdminTunnels (aq_query q "limit") (aq_query q "offset") (aq_query q "active")) a
  | ERpcAuthenticate => on_store (rpcAuthenticate IDKey now (field "api_key" q)) a
  | ERpcCheckBind => on_store (rpcCheckBind IDKey true (aw_host w) now (b_bind (body q))) a
  | ERpcReportUsage => on_store (rpcReportUsage (b_usage (body q))) a
  | ERpcReportTunnel => report_tunnel w q a
  | _ =>
      match resource_call e w q ps with
      | Some c => on_store (api_exec IDKey cfg bcfg cc stripe lookupTXT now p c) a
      | None => (ARefused 404, a)
      end
  end.

(** A path below the mounted router: its middleware runs also when no route matches. *)
Definition below_v1 (path : string) : bool := String.eqb path "/v1" || HasPrefix path "/v1/".

(** One request. The headers of the answer are those of [securityHeaders]. *)
Definition api_serve (w : ApiWorld) (q : AReq) (a : St) : Answer * Header * St :=
  let '(r, a) :=
    match mux_find (Router (IsProduction cfg)) (aq_Method q) (aq_Path q) with
    | inl (e, ps) => guarded (en_Guards e) w q (run_handler (en_Handler e) w q ps) None a
    | inr code => guarded (if below_v1 (aq_Path q) then [GApiLimit] else []) w q (λ _ a, (ARefused code, a)) None a
    end in
  (r, securityHeaders cfg ∅, a).

(** ** Construction *)
Definition api_providers : gmap string OAuthProvider :=
  let add (name id secret : string) (mk : string → string → string → OAuthProvider) (l : gmap string OAuthProvider) :=
    if negb (String.eqb id "") then <[name := mk id secret (ac_PublicURL cfg +:+ "/v1/auth/oauth/" +:+ name +:+ "/callback")]> l else l in
  add "google" (ac_GoogleClientID cfg) (ac_GoogleClientSecret cfg) GoogleProvider
    (add "github" (ac_GitHubClientID cfg) (ac_GitHubClientSecret cfg) GitHubProvider ∅).
Definition api_geo (decode_regions : string → result string (list Region)) : Service :=
  geo_New {| gc_Header := ac_GeoIPHeader cfg; gc_APIURL := ac_GeoIPAPI cfg; gc_CacheTTL := 0;
             gc_Regions := match ParseRegions decode_regions (ac_Regions cfg) with Ok l => l | Err _ => [] end |}.
(** [New] with the in-memory store; [rdb] is the shared Redis when one is configured. *)
Definition api_New (decode_regions : string → result string (list Region)) (rdb : option B) (d : D) (r : R) (s : S) : St :=
  mkApi (mkServer NewMemStore d r s) newRemoteHub (api_geo decode_regions) (newRateLimiter rdb "auth" 5 10)
    (newRateLimiter rdb "api" 50 100).
End api.
