(* ===== verification/ApiRouterSafety.v ===== *)
(** The control plane's surface, proved: the route table is unambiguous and every
    endpoint is behind its guards; whatever request arrives, the data of an org changes
    only for a caller with the right credential, and the store stays one its operations
    reach. *)
From S2P Require Import Prelude GoStrings Authz Store StoreInv Listings Billing BillingSafety Entitle EntitleSafety Ingress Login.
From S2P Require Import ApiConfig ApiAuth ApiResources ApiSafety ApiAdmin RateLimit Remote Geo ApiRouter.
From Stdlib Require Import Ascii.
From S2P Require Import GoText SessionSafety ApiAuthSafety RateLimitSafety.

Open Scope Z_scope.

(** * The table *)
#[export] Instance Guard_eq_dec : EqDecision Guard.
Proof. solve_decision. Defined.

Inductive Kind := KOpen | KSignIn | KAdminSignIn | KPublic | KUser | KAdmin | KInternal.
(** Who an endpoint is for. *)
Definition kind_of (e : Endpoint) : Kind :=
  match e with
  | EHealthz | ERoot | EOpenAPI | EStatus | EDocs | EAdminPage | EAdminLogout => KOpen
  | EAdminLogin => KAdminSignIn
  | ESignup | ELogin | ERefresh | EOAuthStart | EOAuthCallback | ELogout | EDeviceCode | EDeviceToken => KSignIn
  | EPlansPublic | ERegions | EGeo | EWebhook | ERemoteViewer | ERemoteCommand => KPublic
  | EAdminSession | EAdminLookup | EAdminGrant | EAdminRevoke | EAdminStats | EAdminUsers | EAdminOrgs | EAdminTunnels => KAdmin
  | ERpcAuthenticate | ERpcCheckBind | ERpcReportUsage | ERpcReportTunnel => KInternal
  | _ => KUser
  end.
Definition guards_for (k : Kind) : list Guard :=
  match k with
  | KOpen => []
  | KAdminSignIn => [GAuthLimit]
  | KSignIn => [GApiLimit; GAuthLimit]
  | KPublic => [GApiLimit]
  | KUser => [GApiLimit; GUser]
  | KAdmin => [GApiLimit; GAdmin]
  | KInternal => [GInternal]
  end.

Lemma table_guarded production e : e ∈ Router production → en_Guards e = guards_for (kind_of (en_Handler e)).
Proof.
  intros He. assert (Hall : forallb (λ e, bool_decide (en_Guards e = guards_for (kind_of (en_Handler e)))) (Router production) = true)
    by (destruct production; vm_compute; reflexivity).
  rewrite forallb_forall in Hall. specialize (Hall e ltac:(by apply list_elem_of_In)). by apply bool_decide_eq_true in Hall.
Qed.

(** Two patterns that some path matches both. *)
Fixpoint overlap (p1 p2 : list string) : bool :=
  match p1, p2 with
  | [], [] => true
  | s1 :: p1, s2 :: p2 => (is_param s1 || is_param s2 || String.eqb s1 s2) && overlap p1 p2
  | _, _ => false
  end.
Lemma match_segs_cons s p x path ps : match_segs (s :: p) (x :: path) = Some ps →
  is_Some (match_segs p path) ∧ (is_param s = true ∨ s = x).
Proof.
  cbn. destruct (is_param s).
  - destruct (_ && _); [done|]. destruct (match_segs p path); [|done]. intros _. split; [by eexists|by left].
  - destruct (String.eqb_spec s x); [|done]. intros ->. split; [by eexists|by right].
Qed.
Lemma match_overlap p1 p2 path : is_Some (match_segs p1 path) → is_Some (match_segs p2 path) → overlap p1 p2 = true.
Proof.
  revert p2 path; induction p1 as [|s1 p1 IH]; intros [|s2 p2] [|x path] [ps1 H1] [ps2 H2]; try done.
  apply match_segs_cons in H1 as [H1 E1], H2 as [H2 E2]. cbn. rewrite (IH p2 path H1 H2), andb_true_r.
  destruct E1 as [->|E1]; [done|]. destruct E2 as [->|E2]; [by rewrite orb_true_r|]. subst. by rewrite String.eqb_refl, orb_true_r.
Qed.

Definition clash (e1 e2 : Entry) : bool :=
  String.eqb (en_Method e1) (en_Method e2) && overlap (Split (en_Pattern e1) "/"%char) (Split (en_Pattern e2) "/"%char).
Fixpoint no_clash (l : list Entry) : bool :=
  match l with [] => true | e :: l => forallb (λ e', negb (clash e e') && negb (clash e' e)) l && no_clash l end.
Lemma no_clash_unique l e1 e2 : no_clash l = true → e1 ∈ l → e2 ∈ l → clash e1 e2 = true → e1 = e2.
Proof.
  induction l as [|e l IH]; cbn; [by intros _ ?%not_elem_of_nil|]. intros [Hf Hl]%andb_true_iff.
  rewrite forallb_forall in Hf. rewrite !elem_of_cons. intros [->|H1] [->|H2] Hc; [done| | |by apply IH].
  - specialize (Hf e2 ltac:(by apply list_elem_of_In)). by rewrite Hc in Hf.
  - specialize (Hf e1 ltac:(by apply list_elem_of_In)). rewrite Hc, andb_false_r in Hf. done.
Qed.

(** A request matches at most one entry, so what serves it does not depend on the order
    in which the routes were registered. *)
Lemma route_unique production m path e1 e2 : e1 ∈ Router production → e2 ∈ Router production →
  en_Method e1 = m → en_Method e2 = m → is_Some (match_pattern (en_Pattern e1) path) → is_Some (match_pattern (en_Pattern e2) path) →
  e1 = e2.
Proof.
  intros H1 H2 <- Hm P1 P2. apply (no_clash_unique (Router production)); [destruct production; vm_compute; reflexivity|done..|].
  unfold clash. rewrite Hm, String.eqb_refl. by eapply match_overlap.
Qed.

(** Every endpoint is registered, the two of development in development only. *)
Definition all_endpoints : list Endpoint :=
  [EHealthz; ERoot; EOpenAPI; EStatus; EDocs; EAdminPage; EAdminLogout; EAdminLogin; EPlansPublic; ERegions; EGeo;
   ESignup; ELogin; ERefresh; EOAuthStart; EOAuthCallback; ELogout; EDeviceCode; EDeviceToken; EWebhook;
   EAccount; EMe; EDeviceApprove; EListKeys; ECreateKey; ERevokeKey; EListSubs; EReserve;
   ERelease; EListDomains; EAddDomain; EVerifyDomain; EUsage; EUsageHistory; EListOrgs; EListTunnels;
   ETunnelHistory; EPlans; ECheckout; EPortal; ESubscription; ERemoteCreate; ERemoteAgent; ERemotePublish;
   ERemoteEnd; ERemoteViewer; ERemoteCommand; EAdminSession; EAdminLookup; EAdminGrant; EAdminRevoke; EAdminStats;
   EAdminUsers; EAdminOrgs; EAdminTunnels; ERpcAuthenticate; ERpcCheckBind; ERpcReportUsage; ERpcReportTunnel].
#[export] Instance Endpoint_eq_dec : EqDecision Endpoint.
Proof. solve_decision. Defined.
Lemma all_endpoints_all h : h ∈ all_endpoints.
Proof. refine (bool_decide_eq_true_1 _ _). by destruct h. Qed.
Lemma endpoints_registered production h : production = false ∨ (h ≠ EStatus ∧ h ≠ EDocs) ↔ ∃ e, e ∈ Router production ∧ en_Handler e = h.
Proof.
  assert (Hall : forallb (λ h, Bool.eqb (existsb (λ e, bool_decide (en_Handler e = h)) (Router production))
      (negb production || negb (bool_decide (h = EStatus) || bool_decide (h = EDocs)))) all_endpoints = true)
    by (destruct production; vm_compute; reflexivity).
  rewrite forallb_forall in Hall. specialize (Hall h ltac:(apply list_elem_of_In, all_endpoints_all)). apply Bool.eqb_prop in Hall.
  transitivity (existsb (λ e, bool_decide (en_Handler e = h)) (Router production) = true).
  - rewrite Hall. clear Hall. destruct production; cbn [negb orb]; [|by split; [|left]].
    rewrite negb_true_iff, orb_false_iff, !bool_decide_eq_false. split; [by intros [?|?]|by right].
  - rewrite existsb_exists. setoid_rewrite bool_decide_eq_true. setoid_rewrite list_elem_of_In. done.
Qed.

(** * What a request does to the store *)
Definition reaches {E A} (c : M MemStore E A) : Prop := ∀ m, store_reachable m → store_reachable (c m).2.

Lemma reaches_ret {E A} (a : A) : reaches (mret a : M MemStore E A).
Proof. by intros m. Qed.
Lemma reaches_throw {E A} (e : E) : reaches (throw e : M MemStore E A).
Proof. by intros m. Qed.
Lemma reaches_bind {E A B} (f : M MemStore E A) (k : A → M MemStore E B) : reaches f → (∀ a, reaches (k a)) → reaches (f ≫= k).
Proof.
  intros Hf Hk m Hm. unfold mbind, M_bind. specialize (Hf m Hm). destruct (f m) as [[a|e] m1]; [by apply Hk|done].
Qed.
Lemma reaches_lift {A} (f : StM A) : reaches f → reaches (lift f).
Proof. intros Hf m Hm. unfold lift. specialize (Hf m Hm). by destruct (f m) as [[?|?] ?]. Qed.
Lemma reaches_try {E A} (f : StM A) : reaches f → reaches (try f : M MemStore E _).
Proof. intros Hf m Hm. unfold try. specialize (Hf m Hm). by destruct (f m). Qed.
Lemma reaches_op {A} (f : StM A) o : (∀ m, (f m).2 = store_exec m o) → (∀ m, fresh_id m o) → reaches f.
Proof. intros Hf Hfr m Hm. rewrite Hf. by apply sr_step. Qed.

Lemma reaches_plan org plan : reaches (UpdateOrgPlan org plan).
Proof. by apply (reaches_op _ (SUpdateOrgPlan org plan)). Qed.
Lemma reaches_set_plan org plan exp : reaches (SetOrgPlan org plan exp).
Proof. by apply (reaches_op _ (SSetOrgPlan org plan exp)). Qed.
Lemma reaches_customer org c : reaches (SetOrgStripeCustomer org c).
Proof. by apply (reaches_op _ (SSetOrgStripeCustomer org c)). Qed.
Lemma reaches_upsert now rnd s : reaches (UpsertSubscription now rnd s).
Proof. by apply (reaches_op _ (SUpsertSubscription now rnd s)). Qed.
Lemma reaches_delete_sub id : reaches (DeleteSubscription id).
Proof. by apply (reaches_op _ (SDeleteSubscription id)). Qed.
Lemma reaches_by_customer `{RangeOrder} id : reaches (GetOrgByStripeCustomer id).
Proof. intros m. unfold GetOrgByStripeCustomer. destruct (String.eqb id ""); [done|]. by destruct (find_first _ _). Qed.
Lemma reaches_get_org id : reaches (GetOrg id).
Proof. intros m. unfold GetOrg. by destruct (orgs m !! id). Qed.
Lemma reaches_get_sub id : reaches (GetSubscriptionForOrg id).
Proof. intros m. unfold GetSubscriptionForOrg. by destruct (subsByOrg m !! id). Qed.

Create HintDb reaches.
#[local] Hint Resolve reaches_ret reaches_throw reaches_lift reaches_try reaches_plan reaches_set_plan reaches_customer reaches_upsert
  reaches_delete_sub reaches_by_customer reaches_get_org reaches_get_sub : reaches.
Ltac reaches := repeat first [progress (auto with reaches) | apply reaches_bind; [|intros ?] | case_match].

Lemma reaches_dispatch `{RangeOrder} c now rnd e : reaches (dispatch c now rnd e).
Proof.
  unfold dispatch, onCheckoutCompleted, onSubscriptionUpsert, onSubscriptionDeleted, onInvoicePaid, onInvoicePaymentFailed,
    resolveOrgID, sync_customer, invoice_target. reaches.
Qed.

(** ** The data of an org *)
Record org_same (id : string) (m m' : MemStore) : Prop := {
  os_org : orgs m' !! id = orgs m !! id;
  os_keys : ∀ k v, ak_OrgID v = id → keys m' !! k = Some v ↔ keys m !! k = Some v;
  os_subs : ∀ k v, rs_OrgID v = id → subs m' !! k = Some v ↔ subs m !! k = Some v;
  os_domains : ∀ k v, cd_OrgID v = id → domains m' !! k = Some v ↔ domains m !! k = Some v;
  os_rest : usage_ m' = usage_ m ∧ history m' = history m ∧ subsByOrg m' = subsByOrg m ∧ metered m' = metered m;
}.
Lemma org_same_refl id m : org_same id m m.
Proof. by split. Qed.
Lemma org_same_trans id m1 m2 m3 : org_same id m1 m2 → org_same id m2 m3 → org_same id m1 m3.
Proof.
  intros [O K S D R] [O' K' S' D' R']. destruct_and!. split; [congruence| | | |split_and!; congruence].
  - intros k v Hv. by rewrite K', K.
  - intros k v Hv. by rewrite S', S.
  - intros k v Hv. by rewrite D', D.
Qed.

Lemma only_org_same {V} (org : V → string) o (t t' : gmap string V) id : only_org org o t t' → id ≠ o →
  ∀ k v, org v = id → t' !! k = Some v ↔ t !! k = Some v.
Proof.
  intros Ho Hne k v Hv. destruct (Ho k) as [->|[H1 H2]]; [done|]. split; intros Hk; exfalso.
  - apply Hne. rewrite <-Hv. by apply H2.
  - apply Hne. rewrite <-Hv. by apply H1.
Qed.
Lemma org_frame_same o id m m' : org_frame o m m' → id ≠ o → org_same id m m'.
Proof.
  intros [Hk Hs Hd Ho Hr] Hne. split; [by apply Ho|by eapply only_org_same..|by destruct_and!].
Qed.

(** Keys sit under their own ids. *)
Definition key_ids (m : MemStore) : Prop := ∀ id k, keys m !! id = Some k → ak_ID k = id.
Lemma reachable_key_ids m : store_reachable m → key_ids m.
Proof.
  induction 1 as [|m o Hm IH Hf]; [by intros id k|]. intros id k. destruct o; simpl; try apply IH.
  all: unfold CreateUser, UpdateUserProfile, UpdateOrgPlan, SetOrgPlan, SetOrgStripeCustomer, update_org, AddOrgMember, CreateAPIKey,
    TouchAPIKey, RevokeAPIKey, ReserveSubdomain, ReleaseSubdomain, AddCustomDomain, VerifyCustomDomain, RecordTunnelOpen,
    CloseTunnelSession, DeleteSubscription, MarkEventProcessed, InsertMeteredUsage; simpl.
  all: repeat case_match; simpl; try apply IH.
  all: intros [[<- <-]|[_ Hk]]%lookup_insert_Some; simpl; [try done|by apply IH].
  all: by apply IH.
Qed.

Section auth.
Context `{Jwt} (secret : string) (IDKey : string → list Z → Z → Z → Z → Z → list Z).

(** The bearer middleware changes at most the last use of the key it accepts, which
    belongs to the org it returns. *)
Lemma AuthenticateAPIKey_cases now tok m : store_reachable m →
  match AuthenticateAPIKey IDKey now tok m with
  | (Err _, m') => m' = m
  | (Ok k, m') => store_reachable m' ∧ org_frame (ak_OrgID k) m m'
  end.
Proof.
  intros Hm. destruct (AuthenticateAPIKey IDKey now tok m) as [[k|e] m'] eqn:Ha.
  - apply AuthenticateAPIKey_inv in Ha as ((p & _ & Hk) & _ & _ & ->). unfold touched.
    split; [change (store_reachable (store_exec m (STouchAPIKey (ak_ID k) now))); by apply sr_step|].
    unfold TouchAPIKey. destruct (keys m !! ak_ID k) as [k'|] eqn:Hk'; [|apply org_frame_refl]. cbn.
    unfold GetAPIKeyByPrefix in Hk. destruct (keyPrefix m !! p) as [id|] eqn:Hp; [|done]. cbn in Hk.
    destruct (proj1 (so_keys _ (store_reachable_ok _ Hm) p id) Hp) as (k0 & Hk0 & _). rewrite Hk0 in Hk. cbn in Hk.
    injection Hk as ->. pose proof (reachable_key_ids _ Hm _ _ Hk0) as Hid. rewrite Hid, Hk0 in Hk'. injection Hk' as <-.
    split; try apply only_org_refl; try done. cbn. rewrite Hid. apply only_org_insert; [|done]. intros w. rewrite Hk0. by intros [= <-].
  - revert Ha. unfold AuthenticateAPIKey, GetAPIKeyByPrefix. destruct (KeyPrefix tok); [|by intros [= _ <-]].
    destruct (keyPrefix m !! _); [|by intros [= _ <-]]. case_bool_decide; [by intros [= _ <-]|].
    destruct (negb _); [by intros [= _ <-]|done].
Qed.

Lemma Middleware_cases now h m : store_reachable m →
  match Middleware secret IDKey now h m with
  | (None, m') => m' = m
  | (Some p, m') => store_reachable m' ∧ org_frame (pr_OrgID p) m m'
  end.
Proof.
  intros Hm. unfold Middleware. destruct (String.eqb _ ""); [done|]. destruct (HasPrefix _ "tq_").
  - pose proof (AuthenticateAPIKey_cases now (bearerToken h) m Hm) as Ha.
    destruct (AuthenticateAPIKey IDKey now (bearerToken h) m) as [[k|e] m']; exact Ha.
  - destruct (ParseToken _ _ _) as [c|e]; [|done]. destruct (String.eqb _ "access"); [|done]. split; [done|apply org_frame_refl].
Qed.

Lemma Middleware_touch now h m : (Middleware secret IDKey now h m).2 = m ∨
  ∃ id, (Middleware secret IDKey now h m).2 = touched id now m.
Proof.
  unfold Middleware. destruct (String.eqb _ ""); [by left|]. destruct (HasPrefix _ "tq_").
  - destruct (AuthenticateAPIKey IDKey now (bearerToken h) m) as [[k|e] m'] eqn:Ha; cbn.
    + apply AuthenticateAPIKey_inv in Ha as (_ & _ & _ & ->). right. by exists (ak_ID k).
    + revert Ha. unfold AuthenticateAPIKey, GetAPIKeyByPrefix. destruct (KeyPrefix _); [|intros [= _ <-]; by left].
      destruct (keyPrefix m !! _); [|intros [= _ <-]; by left]. destruct (bool_decide _); [intros [= _ <-]; by left|].
      destruct (negb _); [intros [= _ <-]; by left|done].
  - destruct (ParseToken _ _ _) as [c|e]; [|by left]. destruct (String.eqb _ "access"); by left.
Qed.
End auth.

(** * Credentials
    What entitles a request to change an org's data, in terms of the secrets themselves. *)
(** The token of an Authorization header, after the word bearer in any capitals. *)
Definition presents (h : Header) (tok : string) : Prop :=
  tok ≠ "" ∧ (tok = TrimSpace (Get h "Authorization") ∨
    ∃ scheme t, Get h "Authorization" = scheme +:+ t ∧ ToLower scheme = "bearer " ∧ tok = TrimSpace t).
(** The digest in a stored hash is the one argon2 gives for the token under the stored salt. *)
Definition hashed_as (IDKey : string → list Z → Z → Z → Z → Z → list Z) (tok encoded : string) : Prop :=
  ∃ a version params salt64 digest64 salt tCost memory threads len,
    Split encoded "$" = [a; "argon2id"; version; params; salt64; digest64] ∧ RawDecode salt64 = Some salt ∧
    RawDecode digest64 = Some (IDKey tok salt tCost memory threads len).
(** An unrevoked key of the org. *)
Definition org_key IDKey (m : MemStore) (org tok : string) : Prop :=
  ∃ id k, keys m !! id = Some k ∧ ak_OrgID k = org ∧ ak_RevokedAt k = None ∧ hashed_as IDKey tok (ak_Hash k).
(** A token the JWT library verifies with the secret, for access and for the org. *)
Definition org_session `{Jwt} (secret : string) (now : Time) (org tok : string) : Prop :=
  ∃ c, ParseWithClaims now secret tok = Some c ∧ cl_Kind c = "access" ∧ cl_OrgID c = org.
Definition admin_session (hmac : string → string → list Z) (cfg : ApiConfig) (now : Time) (cookie : option string) : Prop :=
  ac_AdminUser cfg ≠ "" ∧ ac_AdminPassword cfg ≠ "" ∧
  ∃ payload exp, cookie = Some (payload +:+ "." +:+ EncodeToString (hmac (ac_JWTSecret cfg) ("admin|" +:+ payload))) ∧
    Atoi payload = Some exp ∧ now < Unix exp.
Definition edge_token (cfg : ApiConfig) (h : Header) : Prop := ac_InternalToken cfg ≠ "" ∧ Get h HeaderToken = ac_InternalToken cfg.
(** A Stripe-Signature header with a time and the HMAC of that time and the body. *)
Definition stripe_signed (hmac : string → string → list Z) (secret : string) (tolerance : Duration) (now : Time) (body header : string) : Prop :=
  secret ≠ "" ∧ ∃ ts unix p1 p2,
    p1 ∈ Split header "," ∧ TrimSpace p1 = "t=" +:+ ts ∧ Atoi ts = Some unix ∧
    p2 ∈ Split header "," ∧ TrimSpace p2 = "v1=" +:+ EncodeToString (hmac secret (ts +:+ "." +:+ body)) ∧
    (0 < tolerance → - tolerance <= now - Unix unix <= tolerance).

Lemma bearer_presents h : bearerToken h ≠ "" → presents h (bearerToken h).
Proof.
  intros Hne. split; [done|]. revert Hne. unfold bearerToken. destruct (String.eqb (Get h "Authorization") ""); [done|].
  destruct (HasPrefix (ToLower (Get h "Authorization")) "bearer ") eqn:Hp; [|by left]. intros _. right.
  apply HasPrefix_spec in Hp as [t Ht]. set (a := Get h "Authorization") in *.
  assert (Hlen : (7 <= String.length a)%nat).
  { assert (Hl : String.length (ToLower a) = String.length a) by (unfold ToLower; clear; induction a as [|x a IH]; cbn; [done|by rewrite IH]).
    rewrite <- Hl, Ht. simpl. lia. }
  exists (take_string 7 a), (drop_string 7 a). split; [by rewrite take_drop_string|]. split; [|done].
  clear -Ht Hlen. do 7 (destruct a as [|? a]; [cbn in Hlen; lia|]). unfold take_string, ToLower in *. cbn [map_string String.substring] in *. rewrite substring_0.
  change ("bearer " +:+ t) with (String "b" (String "e" (String "a" (String "r" (String "e" (String "r" (String " " t))))))) in Ht.
  injection Ht as -> -> -> -> -> -> -> _. done.
Qed.
Lemma VerifyKey_hashed IDKey tok enc : VerifyKey IDKey tok enc = true → hashed_as IDKey tok enc.
Proof.
  unfold VerifyKey, hashed_as. destruct (Split enc "$") as [|a [|alg [|v [|params [|salt64 [|hash64 [|? ?]]]]]]] eqn:Hs; try done.
  destruct (String.eqb_spec alg "argon2id") as [->|]; [|done]. cbn [negb].
  destruct (scan_field "m=" _ params) as [[mem r1]|]; [|done]. cbn [mbind option_bind].
  destruct (scan_field ",t=" _ r1) as [[t r2]|]; [|done]. cbn [mbind option_bind].
  destruct (scan_field ",p=" _ r2) as [[th r3]|]; [|done]. cbn [mbind option_bind].
  destruct (RawDecode salt64) as [salt|] eqn:Hsalt; [|done]. cbn [mbind option_bind].
  destruct (RawDecode hash64) as [want|] eqn:Hw; [|done]. cbn [mbind option_bind].
  intros Heq%bool_decide_eq_true_1. exists a, v, params, salt64, hash64, salt, t, mem, th, (Z.of_nat (length want)). by rewrite Heq.
Qed.
Lemma Middleware_credential `{Jwt} secret IDKey now h m p : (Middleware secret IDKey now h m).1 = Some p →
  ∃ tok, presents h tok ∧ (org_key IDKey m (pr_OrgID p) tok ∨ org_session secret now (pr_OrgID p) tok).
Proof.
  unfold Middleware. destruct (String.eqb_spec (bearerToken h) "") as [|Hne]; [done|]. intros Hp. exists (bearerToken h). split; [by apply bearer_presents|].
  destruct (HasPrefix (bearerToken h) "tq_").
  - left. destruct (AuthenticateAPIKey IDKey now (bearerToken h) m) as [[k|e] m'] eqn:Ha; [|done]. injection Hp as <-. cbn.
    apply AuthenticateAPIKey_inv in Ha as ((x & _ & Hk) & Hr & Hv & _). unfold GetAPIKeyByPrefix in Hk.
    destruct (keyPrefix m !! x) as [id|]; [|done]. cbn in Hk. destruct (keys m !! id) as [k'|] eqn:Hid; [|by injection Hk as <-; cbn in Hv].
    cbn in Hk. injection Hk as ->. exists id, k. split_and!; [done..|]. by apply VerifyKey_hashed.
  - right. unfold ParseToken in Hp. destruct (ParseWithClaims now secret (bearerToken h)) as [c|] eqn:Hc; [|done].
    destruct (String.eqb_spec (cl_Kind c) "access") as [Hk|]; [|done]. injection Hp as <-. by exists c.
Qed.
Lemma admin_credential hmac cfg now c : admin_refusal hmac cfg now c = None → admin_session hmac cfg now c.
Proof.
  unfold admin_refusal, adminEnabled. destruct (String.eqb_spec (ac_AdminUser cfg) ""); [done|]. destruct (String.eqb_spec (ac_AdminPassword cfg) ""); [done|].
  cbn [negb andb]. destruct c as [v|]; [|done]. destruct (verifyAdmin hmac cfg now v) eqn:Hv; [|done]. intros _.
  apply verifyAdmin_spec in Hv as (payload & exp & -> & _ & ? & ?). split_and!; [done..|]. by exists payload, exp.
Qed.
Lemma internal_credential cfg h : internal_refusal cfg h = None → edge_token cfg h.
Proof.
  unfold internal_refusal. destruct (String.eqb_spec (ac_InternalToken cfg) ""); [done|]. by destruct (String.eqb_spec (Get h HeaderToken) (ac_InternalToken cfg)).
Qed.
Lemma Cut_found s c k v : Cut s c = (k, v, true) → s = k +:+ String c v.
Proof.
  revert k v. induction s as [|a s IH]; intros k v; cbn; [done|]. destruct (Ascii.eqb_spec a c) as [->|]; [by intros [= <- <-]|].
  destruct (Cut s c) as [[x y] f]. intros [= <- <- ->]. by rewrite (IH x y eq_refl).
Qed.
Lemma sig_parts_found ps ts v1s ts' v1s' : sig_parts ps ts v1s = (ts', v1s') →
  (ts' = ts ∨ ∃ p, p ∈ ps ∧ TrimSpace p = "t=" +:+ ts') ∧ ∀ v, v ∈ v1s' → v ∈ v1s ∨ ∃ p, p ∈ ps ∧ TrimSpace p = "v1=" +:+ v.
Proof.
  revert ts v1s. induction ps as [|p ps IH]; intros ts v1s; cbn [sig_parts]; [intros [= <- <-]; auto|].
  assert (Hrec : ∀ t0 l0, sig_parts ps t0 l0 = (ts', v1s') → (t0 = ts ∨ TrimSpace p = "t=" +:+ t0) →
    (∀ v, v ∈ l0 → v ∈ v1s ∨ TrimSpace p = "v1=" +:+ v) →
    (ts' = ts ∨ ∃ q, q ∈ p :: ps ∧ TrimSpace q = "t=" +:+ ts') ∧ ∀ v, v ∈ v1s' → v ∈ v1s ∨ ∃ q, q ∈ p :: ps ∧ TrimSpace q = "v1=" +:+ v).
  { intros t0 l0 H0 Ht Hl. destruct (IH _ _ H0) as [I1 I2]. split.
    - destruct I1 as [->|(q & ? & ?)]; [|right; exists q; by split; [right|]]. destruct Ht as [->|Ht]; [by left|]. right. exists p. by split; [left|].
    - intros v Hv. destruct (I2 v Hv) as [Hv'|(q & ? & ?)]; [|right; exists q; by split; [right|]]. destruct (Hl v Hv') as [|Hp]; [by left|].
      right. exists p. by split; [left|]. }
  unfold sig_part. destruct (Cut (TrimSpace p) "=") as [[k v] []] eqn:Hc; [|intros Hx; apply (Hrec _ _ Hx); auto].
  apply Cut_found in Hc. destruct (String.eqb_spec k "t") as [->|]; [intros Hx; apply (Hrec _ _ Hx); auto|].
  destruct (String.eqb_spec k "v1") as [->|]; [|intros Hx; apply (Hrec _ _ Hx); auto].
  intros Hx. apply (Hrec _ _ Hx); [auto|]. intros v' [?| ->%list_elem_of_singleton]%elem_of_app; auto.
Qed.
Lemma VerifySignature_signed hmac now body header secret tol : VerifySignature hmac now body header secret tol = true →
  stripe_signed hmac secret tol now body header.
Proof.
  unfold VerifySignature. destruct (String.eqb_spec secret "") as [|Hsec]; [done|]. destruct (sig_parts (Split header ",") "" []) as [ts v1s] eqn:Hp.
  destruct (String.eqb_spec ts "") as [|Hts]; [done|]. destruct (bool_decide (v1s = [])); [done|]. cbn [orb].
  destruct (Atoi ts) as [unix|] eqn:Hu; [|done]. cbv zeta. destruct (_ && _) eqn:Hage; [done|]. intros Hin%bool_decide_eq_true_1.
  apply sig_parts_found in Hp as [[?|(p1 & H1 & H1')] H2]; [done|]. destruct (H2 _ Hin) as [?%not_elem_of_nil|(p2 & ? & ?)]; [done|].
  split; [done|]. exists ts, unix, p1, p2. split_and!; try done. all: intros Htol; apply andb_false_iff in Hage; destruct Hage as [Hage|Hage]; [lia|];
    apply orb_false_iff in Hage; lia.
Qed.

(** Random ids do not collide: those a request may draw are not in use. *)
Record world_fresh (w : ApiWorld) (m : MemStore) : Prop := {
  wf_user : users m !! NewID "user" (dw_user (aw_draws w)) = None;
  wf_org : orgs m !! NewID "org" (dw_org (aw_draws w)) = None;
  wf_key : keys m !! NewID "key" (dw_key (aw_draws w)) = None;
  wf_sub : subs m !! NewID "sub" (aw_id w) = None;
  wf_dom : domains m !! NewID "dom" (aw_id w) = None;
}.
Lemma world_fresh_touched w m id now : world_fresh w m → world_fresh w (touched id now m).
Proof.
  intros []. unfold touched, TouchAPIKey. destruct (keys m !! id) as [k|] eqn:Hk; [|by split]. split; cbn; try done.
  rewrite lookup_insert_ne; [done|]. intros ->. congruence.
Qed.

(** ** Sign-in *)
(** No existing org is touched. *)
Definition spares (m m' : MemStore) : Prop := store_reachable m' ∧ ∀ id, is_Some (orgs m !! id) → org_same id m m'.
Lemma spares_refl m : store_reachable m → spares m m.
Proof. intros Hm. split; [done|]. intros id _. apply org_same_refl. Qed.

Lemma provisionUser_spares w email name avatar provider m : store_reachable m → world_fresh w m →
  spares m (provisionUser (aw_now w) (aw_draws w) email name avatar provider m).2.
Proof.
  intros Hm Hf. unfold provisionUser, GetUserByEmail. destruct (usersEmail m !! ToLower email) as [uid|] eqn:Hu.
  - set (u := default zero_user (users m !! uid)). cbv zeta.
    assert (Hp : spares m (UpdateUserProfile (us_ID u) name avatar m).2).
    { split; [apply (sr_step m (SUpdateUserProfile (us_ID u) name avatar)); done|]. intros id _. unfold UpdateUserProfile.
      destruct (users m !! us_ID u); apply org_same_refl || by split. }
    destruct (_ || _).
    + destruct (UpdateUserProfile _ _ _ _) as [[?|?] m1]; unfold firstOrg, OrgsForUser; cbn; repeat case_match; simplify_eq; done.
    + unfold firstOrg, OrgsForUser. cbn. repeat case_match; simplify_eq; by apply spares_refl.
  - set (nm := if String.eqb name "" then _ else name).
    set (usr := new_user email nm avatar provider).
    assert (H1 : spares m (CreateUser (aw_now w) (dw_user (aw_draws w)) usr m).2).
    { split; [apply (sr_step m (SCreateUser _ _ usr)); [done|apply (wf_user w m Hf)]|]. intros id _. unfold CreateUser.
      destruct (usersEmail m !! _); apply org_same_refl || by split. }
    destruct (CreateUser _ _ usr m) as [[u|e] m1] eqn:Ec; [|done]. cbn in H1. destruct H1 as [R1 S1].
    assert (Horgs : orgs m1 = orgs m). { revert Ec. unfold CreateUser. destruct (usersEmail m !! _); by intros [= _ <-]. }
    set (o := new_org (nm +:+ "'s org")).
    assert (R2 : store_reachable (CreateOrg (aw_now w) (dw_org (aw_draws w)) o m1).2) by (apply (sr_step m1 (SCreateOrg _ _ o)); done).
    assert (S2 : ∀ id, is_Some (orgs m !! id) → org_same id m1 (CreateOrg (aw_now w) (dw_org (aw_draws w)) o m1).2).
    { intros id [x Hx]. split; try done. cbn. rewrite lookup_insert_ne; [done|]. intros <-. pose proof (wf_org w m Hf). congruence. }
    unfold CreateOrg in *. cbv zeta in *. cbn [snd] in R2, S2.
    match goal with |- context [AddOrgMember ?e ?mm] => assert (R3 : store_reachable (AddOrgMember e mm).2) by
      (apply (sr_step mm (SAddOrgMember e)); done);
      assert (S3 : ∀ id, org_same id mm (AddOrgMember e mm).2) by (intros id; unfold AddOrgMember; destruct (find_first _ _); by split);
      destruct (AddOrgMember e mm) as [[?|?] m3] end.
    all: cbn in R3, S3 |- *; split; [done|]; intros id Hid; eapply org_same_trans; [by apply S1|];
      eapply org_same_trans; [by apply S2|apply S3].
Qed.

Section handlers.
Context {D R S B : Type} `{DeviceStore D} `{Revoker R} `{oauthStateStore S} `{Jwt} `{RedisScripts B} `{RangeOrder} `{Mux} `{Bodies}.
Context (IDKey : string → list Z → Z → Z → Z → Z → list Z) (hmac : string → string → list Z) (parse : string → option Billing.Event).
Context (cfg : ApiConfig) (bcfg : BillingConfig) (cc : CheckoutConfig) (stripe : StripeAPI) (lookupTXT : string → option (list string)).
Context (providers : gmap string OAuthProvider) (fetch : string → option (Z * string)) (decode_provider : string → option providerResponse).
Context (version goVersion : string) (processStart : Time).
Local Abbreviation St := (Api D R S B).
Local Abbreviation Sv := (Server D R S).
Implicit Types (a : St) (s : Sv) (w : ApiWorld) (q : AReq).

Lemma signup_spares w b s : store_reachable (sv_store s) → world_fresh w (sv_store s) →
  spares (sv_store s) (sv_store (handleSignup cfg (aw_now w) (aw_draws w) b s).2).
Proof.
  intros Hm Hf. unfold handleSignup. destruct (negb _); [by apply spares_refl|]. destruct b as [[email name]|]; [|by apply spares_refl].
  cbn [decode_then]. destruct (negb _); [by apply spares_refl|]. unfold GetUserByEmail. destruct (usersEmail _ !! _); [by apply spares_refl|].
  pose proof (provisionUser_spares w email name "" "email" _ Hm Hf) as Hp.
  destruct (provisionUser _ _ _ _ _ _ _) as [[[u o]|e] m']; exact Hp.
Qed.
Lemma login_same w b s : sv_store (handleLogin cfg (aw_now w) (aw_draws w) b s).2 = sv_store s.
Proof.
  unfold handleLogin. destruct (negb _); [done|]. destruct b as [[email name]|]; [|done]. cbn [decode_then]. unfold GetUserByEmail.
  destruct (usersEmail _ !! _); [|done]. unfold firstOrg, OrgsForUser. by case_match; case_match; simplify_eq.
Qed.
Lemma refresh_same w b s : sv_store (handleRefresh cfg (aw_now w) (aw_draws w) b s).2 = sv_store s.
Proof. unfold handleRefresh. destruct b; [|done]. cbn. by destruct (Refresh _ _ _ _ _ _) as [[?|?] ?]. Qed.
Lemma oauth_start_same w n x s : sv_store (handleOAuthStart cfg providers (aw_now w) (aw_draws w) n x s).2 = sv_store s.
Proof.
  unfold handleOAuthStart, newState. destruct (providers !! n); [|done]. destruct (negb _); [done|]. by destruct (st_New _ _ _).
Qed.
Lemma oauth_callback_spares w n x sc nc s : store_reachable (sv_store s) → world_fresh w (sv_store s) →
  spares (sv_store s) (sv_store (handleOAuthCallback cfg providers (aw_now w) (aw_draws w) n x sc nc (aw_oauth w) s).2).
Proof.
  intros Hm Hf. unfold handleOAuthCallback, checkState. destruct (providers !! n) as [p|]; [|by apply spares_refl].
  destruct sc as [c|]; [|by apply spares_refl]. destruct (negb _); [by apply spares_refl|]. destruct (st_Check _ _ _) as [ok st].
  destruct (negb ok); [by apply spares_refl|]. destruct (Exchange p (aw_oauth w)) as [prof|e]; [|by apply spares_refl].
  pose proof (provisionUser_spares w (ou_Email prof) (ou_Name prof) (ou_AvatarURL prof) (ou_Provider prof) _ Hm Hf) as Hp.
  cbn [sv_store with_states]. destruct (provisionUser _ _ _ _ _ _ _) as [[[u o]|e] m']; exact Hp.
Qed.
Lemma logout_same w c b s : sv_store (handleLogout cfg (aw_now w) c b s).2 = sv_store s.
Proof. unfold handleLogout. cbn. by case_match. Qed.
Lemma device_code_same w s : sv_store (handleDeviceCode cfg (aw_now w) (aw_draws w) s).2 = sv_store s.
Proof. unfold handleDeviceCode. by destruct (dev_Create _ _ _ _). Qed.
Lemma device_token_same w b s : sv_store (handleDeviceToken (aw_now w) b s).2 = sv_store s.
Proof. unfold handleDeviceToken. destruct b; [|done]. cbn. by destruct (dev_Poll _ _ _) as [[?|?] ?]. Qed.
Lemma account_same p s : sv_store (handleAccount p s).2 = sv_store s.
Proof. unfold handleAccount, GetUser. by destruct (users _ !! _). Qed.

(** What an authenticated caller of [o] may do. *)
Definition acts_for (o : string) (m m' : MemStore) : Prop := store_reachable m' ∧ org_frame o m m'.
Lemma acts_refl o m : store_reachable m → acts_for o m m.
Proof. intros Hm. split; [done|apply org_frame_refl]. Qed.

Lemma approve_acts w p b s : store_reachable (sv_store s) → world_fresh w (sv_store s) →
  acts_for (pr_OrgID p) (sv_store s) (sv_store (handleDeviceApprove IDKey (aw_now w) (aw_draws w) p b s).2).
Proof.
  intros Hm Hf. unfold handleDeviceApprove. destruct b as [code|]; [|by apply acts_refl]. cbn [decode_then].
  set (gen := GenerateAPIKey _ _ _ _). set (k := device_key (pr_OrgID p) gen).
  assert (Hc : acts_for (pr_OrgID p) (sv_store s) (CreateAPIKey (aw_now w) (dw_key (aw_draws w)) k (sv_store s)).2).
  { change (CreateAPIKey (aw_now w) (dw_key (aw_draws w)) k (sv_store s)).2 with
      (store_exec (sv_store s) (SCreateAPIKey (aw_now w) (dw_key (aw_draws w)) k)).
    assert (Hfr : fresh_id (sv_store s) (SCreateAPIKey (aw_now w) (dw_key (aw_draws w)) k)) by apply (wf_key _ _ Hf).
    split; [by apply sr_step|]. apply op_of_org_frame; [by apply reachable_org_ids|done|done]. }
  destruct (CreateAPIKey _ _ k _) as [[?|?] m1]; [|exact Hc]. by destruct (dev_Approve _ _ _ _ _) as [[?|?] ?].
Qed.

Lemma api_acts w p c m : store_reachable m → call_fresh c m → acts_for (pr_OrgID p) m
  (api_exec IDKey cfg bcfg cc stripe lookupTXT (aw_now w) p c m).2.
Proof.
  intros Hm Hf. destruct (api_exec_op IDKey cfg bcfg cc stripe lookupTXT (aw_now w) p c m) as [->|(o & -> & Hop & Hfr)]; [by apply acts_refl|].
  split; [by apply sr_step; [|apply Hfr]|]. apply op_of_org_frame; [by apply reachable_org_ids|by apply Hfr|done].
Qed.
Lemma resource_fresh e w q ps c m : world_fresh w m → resource_call e w q ps = Some c → call_fresh c m.
Proof. intros [] Hc. destruct e; try discriminate Hc; injection Hc as <-; done. Qed.

(** ** The handlers behind the other guards *)
Lemma webhook_reaches w q m : store_reachable m → store_reachable (handle_webhook hmac parse bcfg w q m).2.
Proof.
  intros Hm. unfold handle_webhook, HandleWebhook. destruct (String.eqb _ ""); [done|]. destruct (negb _); [done|].
  destruct (parse _) as [ev|]; [|done].
  assert (Hmk : store_reachable (MarkEventProcessed (ev_ID ev) m).2) by (apply (sr_step m (SMarkEventProcessed (ev_ID ev))); done).
  destruct (MarkEventProcessed _ m) as [[[]|] m1]; [|done..]. cbn in Hmk.
  pose proof (reaches_dispatch bcfg (aw_now w) (aw_id w) ev m1 Hmk) as Hd. by destruct (dispatch _ _ _ _ _) as [[?|?] m2].
Qed.
Lemma webhook_refused w q m :
  VerifySignature hmac (aw_now w) (limit_read maxBody (aq_Body q)) (Get (aq_Header q) "Stripe-Signature") (bc_WebhookSecret bcfg)
    (bc_WebhookTolerance bcfg) = false ∨ bc_WebhookSecret bcfg = "" →
  (handle_webhook hmac parse bcfg w q m).2 = m.
Proof.
  intros Hs. unfold handle_webhook, HandleWebhook. destruct (String.eqb_spec (bc_WebhookSecret bcfg) "") as [|Hne]; [done|].
  destruct Hs as [->|Hs]; done.
Qed.
Lemma adminOrgFor_same email m : (adminOrgFor email m).2 = m.
Proof. unfold adminOrgFor, GetUserByEmail, OrgsForUser. destruct (usersEmail m !! _); [|done]. by case_match. Qed.
Lemma grant_reaches w b m : store_reachable m → store_reachable (handleAdminGrant (aw_now w) b m).2.
Proof.
  intros Hm. unfold handleAdminGrant. destruct b as [[[email plan] months]|]; [|done]. cbn [decode_then].
  destruct (_ && _); [done|]. destruct (_ || _); [done|]. pose proof (adminOrgFor_same email m) as Ha.
  destruct (adminOrgFor email m) as [[[u o]|e] m1]; cbn in Ha; subst m1; [|done].
  pose proof (reaches_set_plan (og_ID o) (ToLower (TrimSpace plan)) (Some (AddDate (aw_now w) months)) m Hm) as Hs.
  by destruct (SetOrgPlan _ _ _ _) as [[?|?] ?].
Qed.
Lemma revoke_reaches w b m : store_reachable m → store_reachable (handleAdminRevoke (aw_now w) b m).2.
Proof.
  intros Hm. unfold handleAdminRevoke. destruct b as [email|]; [|done]. cbn [decode_then].
  pose proof (adminOrgFor_same email m) as Ha. destruct (adminOrgFor email m) as [[[u o]|e] m1]; cbn in Ha; subst m1; [|done].
  pose proof (reaches_set_plan (og_ID o) PlanFree None m Hm) as Hs. by destruct (SetOrgPlan _ _ _ _) as [[?|?] ?].
Qed.
Lemma rpc_auth_reaches w b m : store_reachable m → store_reachable (rpcAuthenticate IDKey (aw_now w) b m).2.
Proof.
  intros Hm. unfold rpcAuthenticate. destruct b as [key|]; [|done]. cbn [decode_then]. unfold ent_Authenticate.
  pose proof (AuthenticateAPIKey_cases IDKey (aw_now w) key m Hm) as Ha.
  destruct (AuthenticateAPIKey _ _ _ _) as [[k|e] m1]; [|by subst]. destruct Ha as [Ha _]. unfold GetOrg. by destruct (orgs m1 !! _).
Qed.
Lemma ent_Authenticate_reaches w key m : store_reachable m → store_reachable (ent_Authenticate IDKey (aw_now w) key m).2.
Proof.
  intros Hm. unfold ent_Authenticate. pose proof (AuthenticateAPIKey_cases IDKey (aw_now w) key m Hm) as Ha.
  destruct (AuthenticateAPIKey _ _ _ _) as [[k|e] m1]; [|by subst]. destruct Ha as [Ha _]. unfold GetOrg. by destruct (orgs m1 !! _).
Qed.
Lemma rpc_bind_reaches w b m : store_reachable m → store_reachable (rpcCheckBind IDKey true (aw_host w) (aw_now w) b m).2.
Proof.
  intros Hm. unfold rpcCheckBind. destruct b as [req|]; [|done]. cbn [decode_then]. unfold ent_CheckBind.
  pose proof (ent_Authenticate_reaches w (Authz.APIKey req) m Hm) as Ha. destruct (ent_Authenticate _ _ _ _) as [[[acct plan]|] m1]; [|done].
  cbn in Ha. destruct (proto_gate _ _); [done|]. destruct (domain_gate _ _ _ _) as [[? ?]|]; [done|]. cbv zeta.
  match goal with |- context [match ?c with Ok dec => _ | Err d => _ end] => destruct c end; [|done].
  destruct (CheckQuota _ _ _ _) as [code msg]. by destruct (negb _).
Qed.
Lemma report_usage_reaches b m : store_reachable m → store_reachable (rpcReportUsage b m).2.
Proof.
  intros Hm. unfold rpcReportUsage. destruct b as [u|]; [|done]. cbn [decode_then snd]. unfold ent_ReportUsage. cbn [snd].
  match goal with |- context [UpsertUsage ?r m] => exact (sr_step m (SUpsertUsage r) Hm I) end.
Qed.
Lemma report_tunnel_reaches w f b m : store_reachable m → store_reachable (rpcReportTunnel f (aw_now w) (aw_id w) b m).2.
Proof.
  intros Hm. unfold rpcReportTunnel. destruct b as [req|]; [|done]. cbn [decode_then].
  destruct (String.eqb _ ""); [done|]. cbv zeta. destruct (String.eqb _ "open").
  - destruct (f _) as [country city]. cbn [snd]. match goal with |- context [RecordTunnelOpen ?n ?r ?t m] => exact (sr_step m (SRecordTunnelOpen n r t) Hm I) end.
  - destruct (String.eqb _ "close"); [|done]. cbn [snd].
    match goal with |- context [CloseTunnelSession ?x ?y ?z ?t ?i ?o ?n m] => exact (sr_step m (SCloseTunnelSession x y z t i o n) Hm I) end.
Qed.
Lemma lookup_same w email m : (handleAdminLookup (aw_now w) email m).2 = m.
Proof.
  unfold handleAdminLookup. pose proof (adminOrgFor_same email m) as Ha.
  by destruct (adminOrgFor email m) as [[[u o]|e] m1]; cbn in Ha; subst m1.
Qed.

(** ** A handler by the kind of its endpoint *)
Definition signed (w : ApiWorld) (q : AReq) : Prop :=
  stripe_signed hmac (bc_WebhookSecret bcfg) (bc_WebhookTolerance bcfg) (aw_now w) (limit_read maxBody (aq_Body q)) (Get (aq_Header q) "Stripe-Signature").
Definition effect_of (e : Endpoint) (w : ApiWorld) (q : AReq) (p : Principal) (m m' : MemStore) : Prop :=
  match kind_of e with
  | KUser => acts_for (pr_OrgID p) m m'
  | KAdmin | KInternal => store_reachable m'
  | KPublic => store_reachable m' ∧ (m' = m ∨ (e = EWebhook ∧ signed w q))
  | _ => spares m m'
  end.

Local Abbreviation run := (run_handler IDKey hmac parse cfg bcfg cc stripe lookupTXT providers fetch decode_provider version goVersion processStart).
Local Abbreviation serve := (api_serve IDKey hmac parse cfg bcfg cc stripe lookupTXT providers fetch decode_provider version goVersion processStart).

Lemma webhook_effect w q m : store_reachable m →
  store_reachable (handle_webhook hmac parse bcfg w q m).2 ∧ ((handle_webhook hmac parse bcfg w q m).2 = m ∨ (EWebhook = EWebhook ∧ signed w q)).
Proof.
  intros Hm. split; [by apply webhook_reaches|]. destruct (decide (bc_WebhookSecret bcfg = "")) as [E|E]; [left; apply webhook_refused; by right|].
  destruct (VerifySignature hmac (aw_now w) (limit_read maxBody (aq_Body q)) (Get (aq_Header q) "Stripe-Signature")
    (bc_WebhookSecret bcfg) (bc_WebhookTolerance bcfg)) eqn:Ev; [right; split; [done|by apply VerifySignature_signed]|left; apply webhook_refused; by left].
Qed.

Lemma on_store_store h a : ap_store (on_store h a).2 = (h (ap_store a)).2.
Proof. unfold on_store. by destruct (h (ap_store a)). Qed.
Lemma on_server_store h a : ap_store (on_server h a).2 = sv_store (h (ap_sv a)).2.
Proof. unfold on_server. by destruct (h (ap_sv a)). Qed.
Lemma on_relay_store h a : ap_store (on_relay h a).2 = ap_store a.
Proof. unfold on_relay. by destruct (h (ap_relay a)) as [[? ?]|]. Qed.
Lemma on_stream_store {T} (h : Relay → option (Response * option T * Relay)) a : ap_store (on_stream h a).2 = ap_store a.
Proof. unfold on_stream. by destruct (h (ap_relay a)) as [[[? [?|]] ?]|]. Qed.

Lemma run_effect e w q ps p a : store_reachable (ap_store a) → world_fresh w (ap_store a) →
  effect_of e w q (default nobody p) (ap_store a) (ap_store (run e w q ps p a).2).
Proof.
  intros Hm Hf. destruct e; unfold effect_of; cbn [kind_of run_handler];
    rewrite ?on_store_store, ?on_server_store, ?on_relay_store, ?on_stream_store, ?login_same, ?refresh_same, ?oauth_start_same,
      ?logout_same, ?device_code_same, ?device_token_same, ?account_same, ?lookup_same;
    first [by apply spares_refl | by apply acts_refl | done | (split; [done|by left]) | by apply signup_spares | by apply oauth_callback_spares
      | by apply approve_acts | by apply webhook_effect | by apply grant_reaches | by apply revoke_reaches | by apply rpc_auth_reaches
      | by apply rpc_bind_reaches | by apply report_usage_reaches
      | (unfold report_tunnel; rewrite on_store_store; by apply report_tunnel_reaches)
      | (unfold answer, handleGeo; destruct (FromRequest _ _ _ _ _ _) as [[? ?] ?]; split; [done|by left])
      | idtac].
  all: match goal with |- context [resource_call ?e ?x ?y ?z] => destruct (resource_call e x y z) eqn:Hc end;
    [rewrite on_store_store; apply api_acts; [done|by eapply resource_fresh]|by apply acts_refl].
Qed.

(** ** A request *)
Definition same_store (a a' : St) : Prop := ap_store a' = ap_store a.

(** What the guards of a kind let through. *)
Lemma guarded_kind k w q next a r a' : guarded IDKey hmac cfg (guards_for k) w q next None a = (r, a') →
  same_store a a' ∨
  match k with
  | KUser =>
      let M := Middleware (ac_JWTSecret cfg) IDKey (aw_now w) (aq_Header q) (ap_store a) in
      (M.1 = None ∧ ap_store a' = M.2) ∨ ∃ p a1, M = (Some p, ap_store a1) ∧ next (Some p) a1 = (r, a')
  | KAdmin => admin_refusal hmac cfg (aw_now w) (aq_cookie q adminCookie) = None ∧ ∃ a1, same_store a a1 ∧ next None a1 = (r, a')
  | KInternal => internal_refusal cfg (aq_Header q) = None ∧ ∃ a1, same_store a a1 ∧ next None a1 = (r, a')
  | _ => ∃ a1, same_store a a1 ∧ next None a1 = (r, a')
  end.
Proof.
  destruct k; cbn [guards_for guarded].
  - intros Hn. right. by exists a.
  - destruct (RateLimit.allow _ _ (ap_api a)) as [[] l1]; [|intros [= _ <-]; by left]. cbn [ap_auth with_api_limit].
    destruct (RateLimit.allow _ _ (ap_auth a)) as [[] l2]; [|intros [= _ <-]; by left]. intros Hn. right. eexists. by split; [|exact Hn].
  - destruct (RateLimit.allow _ _ (ap_auth a)) as [[] l2]; [|intros [= _ <-]; by left]. intros Hn. right. eexists. by split; [|exact Hn].
  - destruct (RateLimit.allow _ _ (ap_api a)) as [[] l1]; [|intros [= _ <-]; by left]. intros Hn. right. eexists. by split; [|exact Hn].
  - destruct (RateLimit.allow _ _ (ap_api a)) as [[] l1]; [|intros [= _ <-]; by left].
    change (ap_store (with_api_limit l1 a)) with (ap_store a). cbv zeta.
    destruct (Middleware _ _ _ _ _) as [[p|] m]; intros Hn; right; [right|left; by injection Hn as <- <-].
    exists p. eexists. split; [|exact Hn]. done.
  - destruct (RateLimit.allow _ _ (ap_api a)) as [[] l1]; [|intros [= _ <-]; by left].
    destruct (admin_refusal _ _ _ _); [intros [= _ <-]; by left|]. intros Hn. right. split; [done|]. eexists. by split; [|exact Hn].
  - destruct (internal_refusal _ _); [intros [= _ <-]; by left|]. intros Hn. right. split; [done|]. by exists a.
Qed.

(** The credential that entitles a request for an endpoint to change the data of an org. *)
Definition entitled (e : Endpoint) (w : ApiWorld) (q : AReq) (m : MemStore) (id : string) : Prop :=
  match kind_of e with
  | KUser => ∃ tok, presents (aq_Header q) tok ∧ (org_key IDKey m id tok ∨ org_session (ac_JWTSecret cfg) (aw_now w) id tok)
  | KAdmin => admin_session hmac cfg (aw_now w) (aq_cookie q adminCookie)
  | KInternal => edge_token cfg (aq_Header q)
  | KPublic => e = EWebhook ∧ signed w q
  | _ => False
  end.

Lemma kind_effect e w q next a r a' : store_reachable (ap_store a) → world_fresh w (ap_store a) →
  (∀ p a1, store_reachable (ap_store a1) → world_fresh w (ap_store a1) →
     effect_of e w q (default nobody p) (ap_store a1) (ap_store (next p a1).2)) →
  guarded IDKey hmac cfg (guards_for (kind_of e)) w q next None a = (r, a') →
  store_reachable (ap_store a') ∧
  ∀ id, is_Some (orgs (ap_store a) !! id) → org_same id (ap_store a) (ap_store a') ∨ entitled e w q (ap_store a) id.
Proof.
  intros Hm Hf Hnext Hg. unfold entitled, effect_of in *. apply guarded_kind in Hg as [Hs|Hg].
  { unfold same_store in Hs. rewrite Hs. split; [done|]. intros id _. left. apply org_same_refl. }
  destruct (kind_of e).
  1-4: destruct Hg as (a1 & Ha1 & Hn); unfold same_store in Ha1; specialize (Hnext None a1); rewrite Hn, Ha1 in Hnext; cbn in Hnext.
  1-3: destruct (Hnext Hm Hf) as [Hr Hsp]; split; [done|]; intros id Hid; left; by apply Hsp.
  - destruct (Hnext Hm Hf) as [Hr [->|Hsig]]; (split; [done|]); intros id Hid; [left; apply org_same_refl|by right].
  - pose proof (Middleware_cases (ac_JWTSecret cfg) IDKey (aw_now w) (aq_Header q) (ap_store a) Hm) as Hmid.
    pose proof (Middleware_touch (ac_JWTSecret cfg) IDKey (aw_now w) (aq_Header q) (ap_store a)) as Ht.
    pose proof (Middleware_credential (ac_JWTSecret cfg) IDKey (aw_now w) (aq_Header q) (ap_store a)) as Hcred.
    cbv zeta in Hg. destruct (Middleware _ _ _ _ _) as [[p|] m1]; cbn [fst snd] in Hg, Ht, Hcred.
    + destruct Hg as [[? _]|(p' & a1 & [= <- Em] & Hn)]; [done|]. destruct Hmid as [Hr1 Hfr1]. specialize (Hnext (Some p) a1).
      rewrite Hn in Hnext. cbn in Hnext. rewrite <-Em in Hnext.
      assert (Hf1 : world_fresh w m1) by (destruct Ht as [->|[id ->]]; [done|by apply world_fresh_touched]).
      destruct (Hnext Hr1 Hf1) as [Hr Hfr]. split; [done|]. intros id Hid.
      destruct (decide (id = pr_OrgID p)) as [->|Hne]; [right; by apply Hcred|left].
      eapply org_same_trans; by eapply org_frame_same.
    + destruct Hg as [[_ ->]|(? & ? & ? & _)]; [|done]. subst m1. split; [done|]. intros id _. left. apply org_same_refl.
  - destruct Hg as (Href & a1 & Ha1 & Hn). unfold same_store in Ha1. specialize (Hnext None a1). rewrite Hn, Ha1 in Hnext.
    split; [by apply Hnext|]. intros id _. right. by apply admin_credential.
  - destruct Hg as (Href & a1 & Ha1 & Hn). unfold same_store in Ha1. specialize (Hnext None a1). rewrite Hn, Ha1 in Hnext.
    split; [by apply Hnext|]. intros id _. right. by apply internal_credential.
Qed.

(** C3: Every change of an org's data is authorized. Whatever request reaches the
    control plane, with whatever method, path, headers, cookies and body, and as long as
    the ids it draws at random are not in use, it leaves the
    plan record, keys, subdomains, domains, usage, tunnel history and subscription of an
    existing org as they were, unless the request's route is the resource API and its
    Authorization header holds an unrevoked key of that org or an access token signed for
    it, or the route is an admin one, the admin's name and password are configured and the
    cookie carries an unexpired time with its HMAC, or an internal one and the header
    carries the configured, nonempty token of the edge, or it is the webhook and the
    first megabyte of the body is signed with Stripe's secret at a time within the
    tolerance. No sign-in, pairing or
    other public route ever does. And the store stays one that its own operations
    reach. *)
Theorem changes_are_authorized `{!MuxLaws} w q a r hd a' : serve w q a = (r, hd, a') →
  store_reachable (ap_store a) → world_fresh w (ap_store a) →
  store_reachable (ap_store a') ∧
  ∀ id, is_Some (orgs (ap_store a) !! id) → org_same id (ap_store a) (ap_store a') ∨
    ∃ e ps, e ∈ Router (IsProduction cfg) ∧ en_Method e = aq_Method q ∧ match_pattern (en_Pattern e) (aq_Path q) = Some ps ∧
      entitled (en_Handler e) w q (ap_store a) id.
Proof.
  unfold api_serve. intros Hs Hm Hf. destruct (mux_find _ _ _) as [[e ps]|code] eqn:Hfind.
  - apply mux_sound in Hfind as (He & Hmeth & Hpat). rewrite (table_guarded _ e He) in Hs.
    destruct (guarded _ _ _ _ _ _ _ _ _) as [r1 a1] eqn:Hg. injection Hs as <- <- <-.
    apply kind_effect in Hg as [Hr Hsame]; [|done|done|intros p a2 Hm2 Hf2; by apply run_effect]. split; [done|]. intros id Hid.
    destruct (Hsame id Hid) as [|Hent]; [by left|right]. by exists e, ps.
  - assert (Hsame : same_store a a').
    { destruct (below_v1 _); cbn [guarded] in Hs; [|by injection Hs as _ _ <-].
      destruct (RateLimit.allow _ _ _) as [[] l]; by injection Hs as _ _ <-. }
    unfold same_store in Hsame. rewrite Hsame. split; [done|]. intros id _. left. apply org_same_refl.
Qed.
(** C39: Every request is served by the one endpoint it names, behind that endpoint's
    guards. Whatever lawful router finds the routes, in whatever order they are
    registered, a request whose method and path match a route is answered by the handler of that
    route with the parameters of the path, after exactly the middlewares of its kind: the
    flood limit and the bearer check for user endpoints, the flood limit and the admin
    session for admin endpoints, the edge's token for its RPC, both limits for sign-in. A
    request that matches none is refused and changes nothing but the flood limiter. And
    every endpoint is registered, but for the live status and the interactive
    documentation, which are exactly when the API is not in production. *)
Theorem requests_are_dispatched `{!MuxLaws} w q a :
  (∀ e ps, e ∈ Router (IsProduction cfg) → en_Method e = aq_Method q → match_pattern (en_Pattern e) (aq_Path q) = Some ps →
    serve w q a =
      let '(r, a') := guarded IDKey hmac cfg (guards_for (kind_of (en_Handler e))) w q (run (en_Handler e) w q ps) None a in
      (r, securityHeaders cfg ∅, a')) ∧
  ((∀ e, e ∈ Router (IsProduction cfg) → en_Method e = aq_Method q → match_pattern (en_Pattern e) (aq_Path q) = None) →
    ∃ r l, serve w q a = (r, securityHeaders cfg ∅, with_api_limit l a) ∧ (r = rate_limited ∨ ∃ code, r = ARefused code)) ∧
  (∀ h, (∃ e, e ∈ Router (IsProduction cfg) ∧ en_Handler e = h) ↔ IsProduction cfg = false ∨ (h ≠ EStatus ∧ h ≠ EDocs)).
Proof.
  split_and!.
  - intros e ps He Hm Hp. unfold api_serve. destruct (mux_complete _ _ _ e ps He Hm Hp) as (e' & ps' & Hf). rewrite Hf.
    destruct (mux_sound _ _ _ _ _ Hf) as (He' & Hm' & Hp').
    assert (e' = e) as -> by (eapply (route_unique (IsProduction cfg)); [done|done|done|done|by eexists|by eexists]).
    rewrite Hp in Hp'. injection Hp' as <-. by rewrite (table_guarded _ e He).
  - intros Hnone. unfold api_serve. destruct (mux_find _ _ _) as [[e ps]|code] eqn:Hf.
    + destruct (mux_sound _ _ _ _ _ Hf) as (He & Hm & Hp). by rewrite (Hnone e He Hm) in Hp.
    + destruct (below_v1 (aq_Path q)); cbn [guarded].
      * destruct (RateLimit.allow _ _ _) as [[] l]; eexists _, l; (split; [done|]); eauto.
      * exists (ARefused code), (ap_api a). split; [by destruct a|eauto].
  - intros h. symmetry. apply endpoints_registered.
Qed.
End handlers.

(** * A router and requests *)
Fixpoint find_entry (rs : list Entry) (m path : string) : option (Entry * list string) :=
  match rs with
  | [] => None
  | e :: rs =>
      match (if String.eqb (en_Method e) m then match_pattern (en_Pattern e) path else None) with
      | Some ps => Some (e, ps)
      | None => find_entry rs m path
      end
  end.
#[export] Instance table_mux : Mux :=
  {| mux_find := λ rs m path, match find_entry rs m path with Some r => inl r | None => inr 404 end |}.
#[export] Instance table_mux_laws : MuxLaws.
Proof.
  split.
  - intros rs m path e ps Hf. cbn in Hf. destruct (find_entry rs m path) as [[e' ps']|] eqn:E; [|done]. injection Hf as -> ->.
    induction rs as [|x rs IH]; cbn in E; [done|]. destruct (String.eqb_spec (en_Method x) m) as [Hm|]; [|set_solver].
    destruct (match_pattern (en_Pattern x) path) eqn:Hp; [injection E as -> ->; set_solver|set_solver].
  - intros rs m path e ps He Hm Hp. cbn. assert (Hs : is_Some (find_entry rs m path)).
    { induction rs as [|x rs IH]; [by apply not_elem_of_nil in He|]. cbn. apply elem_of_cons in He as [->|He].
      - rewrite Hm, String.eqb_refl, Hp. by eexists.
      - case_match; [by eexists|by apply IH]. }
    destruct Hs as [[e' ps'] ->]. by exists e', ps'.
Qed.

(** * Examples *)
(** The control plane's surface on concrete requests. *)
#[local] Existing Instance sorted_range.
#[local] Instance ex_bodies : Bodies :=
  {| b_string := λ _ b, Some b; b_grant := λ _, None; b_event := λ _, None; b_bind := λ _, None; b_usage := λ _, None;
     b_tunnel := λ _, None |}.
Definition ex_world : ApiWorld :=
  {| aw_now := 9; aw_draws := ex_draws; aw_id := [7]; aw_token := []; aw_host := []; aw_code := []; aw_oauth := ex_answers; aw_goroutines := 1 |}.
Definition ex_api : Api deviceStore memRevoker memStateStore toy_scripts :=
  mkApi (mkServer keyed_store newDeviceStore newMemRevoker newMemStateStore) newRemoteHub (api_geo ex_api_cfg (λ _, Ok []))
    (newRateLimiter None "auth" 5 10) (newRateLimiter None "api" 50 100).
Definition ex_request (method path auth : string) : AReq :=
  {| aq_Method := method; aq_Path := path; aq_Host := "api.trqsh.uz"; aq_Header := {["Authorization" := [auth]]};
     aq_RemoteAddr := "9.9.9.9:1"; aq_query := λ _, ""; aq_cookie := λ _, None; aq_Body := "" |}.
Definition ex_serve (q : AReq) : Answer * Header * Api deviceStore memRevoker memStateStore toy_scripts :=
  api_serve ex_idkey ApiAdmin.ex_hmac (λ _, None) ex_api_cfg ex_billing ex_checkout ex_stripe (λ _, None) ∅ (λ _, None) (λ _, None)
    "1" "go" 0 ex_world q ex_api.

(** Who asks for what, and is answered. *)
Example surface_ex :
  let status := λ q, match (ex_serve q).1.1 with AResp r => rs_Status r | ARefused c => c | _ => 200 end in
  status (ex_request "DELETE" "/v1/api-keys/key_1" ("Bearer " +:+ gk_Full ex_gk)) = 204 ∧
  status (ex_request "DELETE" "/v1/api-keys/key_1" "Bearer tq_live_zz_zz") = 401 ∧
  status (ex_request "POST" "/v1/admin/grant" ("Bearer " +:+ gk_Full ex_gk)) = 404 ∧
  status (ex_request "POST" "/internal/entitlements/report-usage" "") = 401 ∧
  status (ex_request "GET" "/v1/api-keys/key_1" ("Bearer " +:+ gk_Full ex_gk)) = 404 ∧
  status (ex_request "GET" "/status" "") = 404 ∧
  status (ex_request "POST" "/v1/auth/signup" "") = 403 ∧
  status (ex_request "GET" "/healthz" "") = 200.
Proof. vm_compute. done. Qed.

Lemma changes_are_authorized_witness :
  ∃ r hd a', ex_serve (ex_request "DELETE" "/v1/api-keys/key_1" ("Bearer " +:+ gk_Full ex_gk)) = (r, hd, a') ∧
    (ak_RevokedAt <$> keys (ap_store a') !! "key_1") = Some (Some 9) ∧ store_reachable (ap_store a') ∧
    ∃ e ps, match_pattern (en_Pattern e) "/v1/api-keys/key_1" = Some ps ∧
      entitled ex_idkey ApiAdmin.ex_hmac ex_api_cfg ex_billing (en_Handler e) ex_world
        (ex_request "DELETE" "/v1/api-keys/key_1" ("Bearer " +:+ gk_Full ex_gk)) keyed_store "org_1".
Proof.
  destruct (ex_serve (ex_request "DELETE" "/v1/api-keys/key_1" ("Bearer " +:+ gk_Full ex_gk))) as [[r hd] a'] eqn:Hs.
  exists r, hd, a'. split; [reflexivity|].
  assert (Hk : (ak_RevokedAt <$> keys (ap_store (ex_serve (ex_request "DELETE" "/v1/api-keys/key_1" ("Bearer " +:+ gk_Full ex_gk))).2) !! "key_1")
    = Some (Some 9)) by (vm_compute; reflexivity).
  rewrite Hs in Hk. cbn [snd] in Hk. split; [exact Hk|].
  assert (Hf : world_fresh ex_world keyed_store) by (split; vm_compute; reflexivity).
  destruct (changes_are_authorized ex_idkey ApiAdmin.ex_hmac (λ _, None) ex_api_cfg ex_billing ex_checkout ex_stripe (λ _, None) ∅
    (λ _, None) (λ _, None) "1" "go" 0 ex_world _ ex_api r hd a' Hs keyed_store_reachable Hf) as [Hr Ha].
  split; [exact Hr|]. destruct (Ha "org_1" ltac:(vm_compute; eauto)) as [Hsame|(e & ps & _ & _ & Hp & He)].
  - exfalso. pose proof (proj2 (os_keys _ _ _ Hsame "key_1" ex_key eq_refl) ltac:(vm_compute; reflexivity)) as Hx.
    rewrite Hx in Hk. discriminate Hk.
  - exists e, ps. split; [exact Hp|exact He].
Defined.
(** A key is revoked through its route, and a path that is none is refused. *)
Lemma requests_are_dispatched_witness :
  match (ex_serve (ex_request "DELETE" "/v1/api-keys/key_1" ("Bearer " +:+ gk_Full ex_gk))).1.1 with AResp r => rs_Status r | _ => 0 end = 204 ∧
  ∃ r l, ex_serve (ex_request "GET" "/v1/nothing" "") = (r, securityHeaders ex_api_cfg ∅, with_api_limit l ex_api) ∧
    (r = rate_limited ∨ ∃ code, r = ARefused code).
Proof.
  split.
  - unfold ex_serve. erewrite (proj1 (requests_are_dispatched _ _ _ _ _ _ _ _ _ _ _ _ _ _ _ _ _)
      {| en_Method := "DELETE"; en_Pattern := "/v1/api-keys/{id}"; en_Guards := [GApiLimit; GUser]; en_Handler := ERevokeKey |} ["key_1"]);
      [vm_compute; reflexivity|apply list_elem_of_In; vm_compute; tauto|reflexivity|vm_compute; reflexivity].
  - refine (proj1 (proj2 (requests_are_dispatched _ _ _ _ _ _ _ _ _ _ _ _ _ _ _ _ _)) _).
    intros e He Hm.
    assert (Hall : forallb (λ e, negb (String.eqb (en_Method e) "GET") || bool_decide (match_pattern (en_Pattern e) "/v1/nothing" = None))
      (Router (IsProduction ex_api_cfg)) = true) by (vm_compute; reflexivity).
    rewrite forallb_forall in Hall. specialize (Hall e ltac:(by apply list_elem_of_In)). rewrite Hm in Hall.
    exact (bool_decide_eq_true_1 _ Hall).
Defined.
