(* ===== verification/Pg.v ===== *)
(** The PostgreSQL store (internal/api/store/postgres.go over the tables of
    internal/api/db/migrations): every operation as the statement it executes.
    A table with a primary key is a map from it, one with a serial key the list of
    its rows in insertion order; an INSERT checks the unique and foreign keys of the
    schema, and a statement that violates one changes nothing.  Rows come in an
    unknown order where the statement has no ORDER BY.  TIMESTAMPTZ keeps
    microseconds.  Each statement may fail at the connection, before or after it took
    effect; text that the server refuses (invalid UTF-8, NUL) is such a failure. *)
From S2P Require Import Prelude GoStrings Store Listings.
From Stdlib Require Import Ascii.

Open Scope Z_scope.

(** * Errors *)
Inductive SqlErr := NoRows | PgError (code message : string) | DriverErr (text : string).
Definition sql_text (e : SqlErr) : string :=
  match e with
  | NoRows => "sql: no rows in result set"
  | PgError code message => "ERROR: " +:+ message +:+ " (SQLSTATE " +:+ code +:+ ")"
  | DriverErr text => text
  end.
Inductive PgErr := PNotFound | PConflict | PSql (e : SqlErr).

Definition mapErr (e : SqlErr) : PgErr := match e with NoRows => PNotFound | e => PSql e end.
Definition isUniqueViolation (e : SqlErr) : bool := Contains (sql_text e) "23505" || Contains (sql_text e) "duplicate key".
Definition unique_violation : SqlErr := PgError "23505" "duplicate key value violates unique constraint".
Definition foreign_violation : SqlErr := PgError "23503" "insert or update on table violates foreign key constraint".

(** * Columns *)
Definition timestamptz (t : Time) : Time := t - t mod 1000.
Definition nullStr (s : string) : option string := if String.eqb s "" then None else Some s.
Definition nullTime (t : Time) : option Time := if IsZero t then None else Some t.
(** INTEGER. *)
Definition int4 (z : Z) : result SqlErr Z :=
  if (- 2 ^ 31 <=? z) && (z <? 2 ^ 31) then Ok z else Err (PgError "22003" "integer out of range").
(** The sum of a BIGINT column is NUMERIC; it is scanned into an int64. *)
Definition scan_int64 (z : Z) : result SqlErr Z :=
  if (- 2 ^ 63 <=? z) && (z <? 2 ^ 63) then Ok z else Err (DriverErr "sql: Scan error: value out of range").

(** * The schema *)
Record OrgRow := {
  gr_id : string; gr_name : string; gr_plan : string; gr_stripe_customer_id : option string;
  gr_created_at : Time; gr_plan_expires_at : option Time;
}.
Record SubscriptionRow := {
  sw_id : string; sw_org_id : string; sw_stripe_subscription_id : string; sw_stripe_customer_id : string;
  sw_plan : string; sw_status : string; sw_current_period_end : option Time; sw_cancel_at_period_end : bool;
  sw_created_at : Time; sw_updated_at : Time;
}.
Record Db := mkDb {
  t_users : gmap string User;
  t_orgs : gmap string OrgRow;
  t_org_members : gmap (string * string) string;
  t_api_keys : gmap string APIKey;
  t_reserved_subdomains : gmap string ReservedSubdomain;
  t_custom_domains : gmap string CustomDomain;
  t_usage_records : list UsageRecord;
  t_subscriptions : gmap string SubscriptionRow;
  t_billing_events : gmap string (string * Time);
  t_metered_usage : list MeteredUsage;
  s_metered_usage_id : Z;
  t_tunnel_sessions : gmap string TunnelSession;
}.
(** The tables as the migrations leave them. *)
Definition empty_db : Db := mkDb ∅ ∅ ∅ ∅ ∅ ∅ [] ∅ ∅ [] 0 ∅.

Definition put_users (t : gmap string User) (d : Db) : Db :=
  mkDb t (t_orgs d) (t_org_members d) (t_api_keys d) (t_reserved_subdomains d) (t_custom_domains d) (t_usage_records d)
    (t_subscriptions d) (t_billing_events d) (t_metered_usage d) (s_metered_usage_id d) (t_tunnel_sessions d).
Definition put_orgs (t : gmap string OrgRow) (d : Db) : Db :=
  mkDb (t_users d) t (t_org_members d) (t_api_keys d) (t_reserved_subdomains d) (t_custom_domains d) (t_usage_records d)
    (t_subscriptions d) (t_billing_events d) (t_metered_usage d) (s_metered_usage_id d) (t_tunnel_sessions d).
Definition put_members (t : gmap (string * string) string) (d : Db) : Db :=
  mkDb (t_users d) (t_orgs d) t (t_api_keys d) (t_reserved_subdomains d) (t_custom_domains d) (t_usage_records d)
    (t_subscriptions d) (t_billing_events d) (t_metered_usage d) (s_metered_usage_id d) (t_tunnel_sessions d).
Definition put_keys (t : gmap string APIKey) (d : Db) : Db :=
  mkDb (t_users d) (t_orgs d) (t_org_members d) t (t_reserved_subdomains d) (t_custom_domains d) (t_usage_records d)
    (t_subscriptions d) (t_billing_events d) (t_metered_usage d) (s_metered_usage_id d) (t_tunnel_sessions d).
Definition put_subdomains (t : gmap string ReservedSubdomain) (d : Db) : Db :=
  mkDb (t_users d) (t_orgs d) (t_org_members d) (t_api_keys d) t (t_custom_domains d) (t_usage_records d)
    (t_subscriptions d) (t_billing_events d) (t_metered_usage d) (s_metered_usage_id d) (t_tunnel_sessions d).
Definition put_domains (t : gmap string CustomDomain) (d : Db) : Db :=
  mkDb (t_users d) (t_orgs d) (t_org_members d) (t_api_keys d) (t_reserved_subdomains d) t (t_usage_records d)
    (t_subscriptions d) (t_billing_events d) (t_metered_usage d) (s_metered_usage_id d) (t_tunnel_sessions d).
Definition put_usage (t : list UsageRecord) (d : Db) : Db :=
  mkDb (t_users d) (t_orgs d) (t_org_members d) (t_api_keys d) (t_reserved_subdomains d) (t_custom_domains d) t
    (t_subscriptions d) (t_billing_events d) (t_metered_usage d) (s_metered_usage_id d) (t_tunnel_sessions d).
Definition put_subscriptions (t : gmap string SubscriptionRow) (d : Db) : Db :=
  mkDb (t_users d) (t_orgs d) (t_org_members d) (t_api_keys d) (t_reserved_subdomains d) (t_custom_domains d) (t_usage_records d)
    t (t_billing_events d) (t_metered_usage d) (s_metered_usage_id d) (t_tunnel_sessions d).
Definition put_events (t : gmap string (string * Time)) (d : Db) : Db :=
  mkDb (t_users d) (t_orgs d) (t_org_members d) (t_api_keys d) (t_reserved_subdomains d) (t_custom_domains d) (t_usage_records d)
    (t_subscriptions d) t (t_metered_usage d) (s_metered_usage_id d) (t_tunnel_sessions d).
Definition put_metered (t : list MeteredUsage) (seq : Z) (d : Db) : Db :=
  mkDb (t_users d) (t_orgs d) (t_org_members d) (t_api_keys d) (t_reserved_subdomains d) (t_custom_domains d) (t_usage_records d)
    (t_subscriptions d) (t_billing_events d) t seq (t_tunnel_sessions d).
Definition put_sessions (t : gmap string TunnelSession) (d : Db) : Db :=
  mkDb (t_users d) (t_orgs d) (t_org_members d) (t_api_keys d) (t_reserved_subdomains d) (t_custom_domains d) (t_usage_records d)
    (t_subscriptions d) (t_billing_events d) (t_metered_usage d) (s_metered_usage_id d) t.

(** * Statements on a connection *)
Definition Stmt (A : Type) : Type := M Db SqlErr A.
(** What the connection does to a statement: nothing; it is lost before it
    executes; its answer is lost. *)
Inductive Fault := Through | Refused (text : string) | Lost (text : string).
Record Conn := mkConn { cn_db : Db; cn_faults : list Fault }.
Definition next_fault (c : Conn) : Fault := default Through (head (cn_faults c)).
(** One statement. *)
Definition statement {A} (f : Stmt A) : M Conn SqlErr A := λ c,
  let '(r, d) := f (cn_db c) in
  let rest := tail (cn_faults c) in
  match next_fault c with
  | Through => (r, mkConn d rest)
  | Refused text => (Err (DriverErr text), mkConn (cn_db c) rest)
  | Lost text => (Err (DriverErr text), mkConn d rest)
  end.
Abbreviation PgM := (M Conn PgErr).
(** What an operation makes of the error of its statement. *)
Definition with_err {A} (g : SqlErr → PgErr) (q : M Conn SqlErr A) : PgM A := λ c,
  match q c with (Ok a, c) => (Ok a, c) | (Err e, c) => (Err (g e), c) end.
(** Errors passed on as they are, and with a duplicate reported as a conflict. *)
Definition raw {A} (f : Stmt A) : PgM A := with_err PSql (statement f).
Definition or_conflict {A} (f : Stmt A) : PgM A := with_err (λ e, if isUniqueViolation e then PConflict else PSql e) (statement f).
Definition execOne (f : Stmt Z) : PgM unit := λ c,
  match statement f c with
  | (Err e, c) => (Err (PSql e), c)
  | (Ok n, c) => if n =? 0 then (Err PNotFound, c) else (Ok tt, c)
  end.

Section sql.
  Context `{RangeOrder} {K V : Type} `{Countable K}.
  Implicit Types (t : gmap K V) (p : K → V → bool).

(** Whether a row matches, the matching rows, and how many there are. *)
Definition has p t : bool := existsb (λ kv, p kv.1 kv.2) (map_to_list t).
Definition select p t : list V := (List.filter (λ kv, p kv.1 kv.2) (range_map t)).*2.
Definition count p t : Z := Z.of_nat (length (List.filter (λ kv, p kv.1 kv.2) (map_to_list t))).
Definition update_where p (f : V → V) t : Z * gmap K V :=
  (count p t, map_imap (λ k v, Some (if p k v then f v else v)) t).
Definition delete_where p t : Z * gmap K V := (count p t, filter (λ kv, p kv.1 kv.2 = false) t).
(** An INSERT of one row: its primary key, the rows it would share another unique
    key with, whether the rows it refers to exist. *)
Definition insert_row (k : K) (v : V) (duplicate : K → V → bool) (refs : bool) t : result SqlErr (gmap K V) :=
  if bool_decide (is_Some (t !! k)) || has duplicate t then Err unique_violation
  else if negb refs then Err foreign_violation
  else Ok (<[k := v]> t).
End sql.

Definition query_row {A} (rows : list A) : result SqlErr A := match rows with [] => Err NoRows | x :: _ => Ok x end.
Definition query {A} (f : Db → result SqlErr A) : Stmt A := λ d, (f d, d).
Definition insert_into {T} (f : Db → result SqlErr T) (put_ : T → Db → Db) : Stmt unit := λ d,
  match f d with Ok t => (Ok tt, put_ t d) | Err e => (Err e, d) end.
Definition modify_table {T} (f : Db → Z * T) (put_ : T → Db → Db) : Stmt Z := λ d, let '(n, t) := f d in (Ok n, put_ t d).
(** LIMIT and OFFSET. *)
Definition page {A} (limit offset : Z) (rows : list A) : result SqlErr (list A) :=
  if limit <? 0 then Err (PgError "2201W" "LIMIT must not be negative")
  else if offset <? 0 then Err (PgError "2201X" "OFFSET must not be negative")
  else Ok (take (Z.to_nat limit) (drop (Z.to_nat offset) rows)).
(** [WHERE id=$1]. *)
Definition by_id {V} (id : string) : string → V → bool := λ k _, String.eqb k id.
Definition any_row {K V} : K → V → bool := λ _ _, true.
Definition org_exists (id : string) (d : Db) : bool := bool_decide (is_Some (t_orgs d !! id)).
Definition user_exists (id : string) (d : Db) : bool := bool_decide (is_Some (t_users d !! id)).
Definition sum_of {A} (f : A → Z) (l : list A) : Z := foldr (λ x a, f x + a) 0 l.
Definition group_count {A} (key : A → string) (l : list A) : gmap string Z := foldl (λ c x, bump (key x) c) ∅ l.

(** [LIKE] without case: [%] any text, [_] any character, a backslash quotes. *)
Fixpoint like (fuel : nat) (pat s : string) : bool :=
  match fuel with
  | O => false
  | S fuel =>
      match pat with
      | EmptyString => String.eqb s ""
      | String "%" pat' => like fuel pat' s || match s with String _ s' => like fuel pat s' | EmptyString => false end
      | String "_" pat' => match s with String _ s' => like fuel pat' s' | EmptyString => false end
      | String "\" (String a pat') => match s with String b s' => Ascii.eqb a b && like fuel pat' s' | EmptyString => false end
      | String a pat' => match s with String b s' => Ascii.eqb a b && like fuel pat' s' | EmptyString => false end
      end
  end.
Definition ilike (s pat : string) : bool :=
  like (S (String.length pat + String.length s)) (ToLower pat) (ToLower s).

(** * The pool *)
Record PoolConfig := { pc_MaxOpenConns : Z; pc_MaxIdleConns : Z; pc_ConnMaxLifetime : Duration; pc_ConnMaxIdleTime : Duration }.
(** With what the driver answers to opening and to the first ping. *)
Definition NewPostgresStore (opened ping : option string) (pc : PoolConfig) : result string PoolConfig :=
  match opened with
  | Some e => Err ("store: open postgres: " +:+ e)
  | None =>
      let open_ := if pc_MaxOpenConns pc <=? 0 then 20 else pc_MaxOpenConns pc in
      let idle := if pc_MaxIdleConns pc <=? 0 then open_ else pc_MaxIdleConns pc in
      let lifetime := if pc_ConnMaxLifetime pc <=? 0 then 45 * Minute else pc_ConnMaxLifetime pc in
      let idleTime := if pc_ConnMaxIdleTime pc <=? 0 then 5 * Minute else pc_ConnMaxIdleTime pc in
      match ping with
      | Some e => Err ("store: ping postgres: " +:+ e)
      | None => Ok {| pc_MaxOpenConns := open_; pc_MaxIdleConns := idle; pc_ConnMaxLifetime := lifetime; pc_ConnMaxIdleTime := idleTime |}
      end
  end.

Section operations.
  Context `{RangeOrder}.

(** * Users *)
Definition pg_CreateUser (now : Time) (rnd : list Z) (u : User) : PgM User :=
  let u := {| us_ID := or_id (us_ID u) "user" rnd; us_Email := us_Email u; us_Name := us_Name u;
              us_AvatarURL := us_AvatarURL u; us_OAuthProvider := us_OAuthProvider u;
              us_CreatedAt := or_now (us_CreatedAt u) now |} in
  let row := {| us_ID := us_ID u; us_Email := us_Email u; us_Name := us_Name u; us_AvatarURL := us_AvatarURL u;
                us_OAuthProvider := us_OAuthProvider u; us_CreatedAt := timestamptz (us_CreatedAt u) |} in
  _ ← raw (insert_into (λ d, insert_row (us_ID u) row (λ _ v, String.eqb (us_Email v) (us_Email u)) true (t_users d)) put_users);
  mret u.
Definition pg_GetUser (id : string) : PgM User :=
  with_err mapErr (statement (query (λ d, query_row (select (by_id id) (t_users d))))).
Definition pg_GetUserByEmail (email : string) : PgM User :=
  with_err mapErr (statement (query (λ d,
    query_row (select (λ _ u, String.eqb (ToLower (us_Email u)) (ToLower email)) (t_users d))))).
(** COALESCE(NULLIF($2,''), name). *)
Definition or_keep (new old : string) : string := default old (nullStr new).
Definition pg_UpdateUserProfile (id name avatarURL : string) : PgM unit :=
  execOne (modify_table (λ d, update_where (by_id id) (λ u,
    {| us_ID := us_ID u; us_Email := us_Email u; us_Name := or_keep name (us_Name u);
       us_AvatarURL := or_keep avatarURL (us_AvatarURL u); us_OAuthProvider := us_OAuthProvider u;
       us_CreatedAt := us_CreatedAt u |}) (t_users d)) put_users).

(** * Orgs and members *)
Definition scan_org (r : OrgRow) : Org :=
  {| og_ID := gr_id r; og_Name := gr_name r; og_Plan := gr_plan r;
     og_StripeCustomerID := default "" (gr_stripe_customer_id r); og_CreatedAt := gr_created_at r;
     og_PlanExpiresAt := gr_plan_expires_at r |}.
Definition pg_CreateOrg (now : Time) (rnd : list Z) (o : Org) : PgM Org :=
  let o := {| og_ID := or_id (og_ID o) "org" rnd; og_Name := og_Name o;
              og_Plan := if String.eqb (og_Plan o) "" then "free" else og_Plan o;
              og_StripeCustomerID := og_StripeCustomerID o;
              og_CreatedAt := or_now (og_CreatedAt o) now; og_PlanExpiresAt := og_PlanExpiresAt o |} in
  let row := {| gr_id := og_ID o; gr_name := og_Name o; gr_plan := og_Plan o;
                gr_stripe_customer_id := nullStr (og_StripeCustomerID o);
                gr_created_at := timestamptz (og_CreatedAt o); gr_plan_expires_at := None |} in
  _ ← raw (insert_into (λ d, insert_row (og_ID o) row (λ _ _, false) true (t_orgs d)) put_orgs);
  mret o.
Definition pg_GetOrg (id : string) : PgM Org :=
  with_err mapErr (statement (query (λ d, query_row (scan_org <$> select (by_id id) (t_orgs d))))).
Definition pg_OrgsByPlan (plan : string) : PgM (list Org) :=
  raw (query (λ d, Ok (scan_org <$> select (λ _ o, String.eqb (gr_plan o) plan) (t_orgs d)))).
Definition pg_UpdateOrgPlan (orgID plan : string) : PgM unit :=
  execOne (modify_table (λ d, update_where (by_id orgID) (λ o,
    {| gr_id := gr_id o; gr_name := gr_name o; gr_plan := plan; gr_stripe_customer_id := gr_stripe_customer_id o;
       gr_created_at := gr_created_at o; gr_plan_expires_at := None |}) (t_orgs d)) put_orgs).
Definition pg_SetOrgPlan (orgID plan : string) (expiresAt : option Time) : PgM unit :=
  let exp := timestamptz <$> (expiresAt ≫= nullTime) in
  execOne (modify_table (λ d, update_where (by_id orgID) (λ o,
    {| gr_id := gr_id o; gr_name := gr_name o; gr_plan := plan; gr_stripe_customer_id := gr_stripe_customer_id o;
       gr_created_at := gr_created_at o; gr_plan_expires_at := exp |}) (t_orgs d)) put_orgs).
Definition pg_SetOrgStripeCustomer (orgID customerID : string) : PgM unit :=
  execOne (modify_table (λ d, update_where (by_id orgID) (λ o,
    {| gr_id := gr_id o; gr_name := gr_name o; gr_plan := gr_plan o; gr_stripe_customer_id := Some customerID;
       gr_created_at := gr_created_at o; gr_plan_expires_at := gr_plan_expires_at o |}) (t_orgs d)) put_orgs).
Definition pg_AddOrgMember (mem : OrgMember) : PgM unit :=
  raw (insert_into (λ d, insert_row (om_OrgID mem, om_UserID mem) (om_Role mem) (λ _ _, false)
         (org_exists (om_OrgID mem) d && user_exists (om_UserID mem) d) (t_org_members d)) put_members).
Definition scan_member (kv : string * string * string) : OrgMember :=
  {| om_OrgID := kv.1.1; om_UserID := kv.1.2; om_Role := kv.2 |}.
Definition pg_ListOrgMembers (orgID : string) : PgM (list OrgMember) :=
  raw (query (λ d, Ok (scan_member <$> List.filter (λ kv, String.eqb kv.1.1 orgID) (range_map (t_org_members d))))).
(** The join of the members of a user with their orgs. *)
Definition pg_OrgsForUser (userID : string) : PgM (list Org) :=
  raw (query (λ d, Ok (omap (λ kv, if String.eqb kv.1.2 userID then scan_org <$> t_orgs d !! kv.1.1 else None)
                         (range_map (t_org_members d))))).

(** * API keys *)
Definition pg_CreateAPIKey (now : Time) (rnd : list Z) (k : APIKey) : PgM APIKey :=
  let k := {| ak_ID := or_id (ak_ID k) "key" rnd; ak_OrgID := ak_OrgID k; ak_Name := ak_Name k;
              ak_Prefix := ak_Prefix k; ak_Hash := ak_Hash k; ak_LastUsedAt := ak_LastUsedAt k;
              ak_RevokedAt := ak_RevokedAt k; ak_CreatedAt := or_now (ak_CreatedAt k) now |} in
  let row := {| ak_ID := ak_ID k; ak_OrgID := ak_OrgID k; ak_Name := ak_Name k; ak_Prefix := ak_Prefix k;
                ak_Hash := ak_Hash k; ak_LastUsedAt := None; ak_RevokedAt := None;
                ak_CreatedAt := timestamptz (ak_CreatedAt k) |} in
  _ ← raw (insert_into (λ d, insert_row (ak_ID k) row (λ _ v, String.eqb (ak_Prefix v) (ak_Prefix k))
             (org_exists (ak_OrgID k) d) (t_api_keys d)) put_keys);
  mret k.
Definition pg_GetAPIKeyByPrefix (prefix : string) : PgM APIKey :=
  with_err mapErr (statement (query (λ d, query_row (select (λ _ k, String.eqb (ak_Prefix k) prefix) (t_api_keys d))))).
Definition pg_ListAPIKeys (orgID : string) : PgM (list APIKey) :=
  raw (query (λ d, Ok (select (λ _ k, String.eqb (ak_OrgID k) orgID) (t_api_keys d)))).
Definition pg_TouchAPIKey (id : string) (at_ : Time) : PgM unit :=
  execOne (modify_table (λ d, update_where (by_id id) (λ k,
    {| ak_ID := ak_ID k; ak_OrgID := ak_OrgID k; ak_Name := ak_Name k; ak_Prefix := ak_Prefix k; ak_Hash := ak_Hash k;
       ak_LastUsedAt := Some (timestamptz at_); ak_RevokedAt := ak_RevokedAt k; ak_CreatedAt := ak_CreatedAt k |})
    (t_api_keys d)) put_keys).
Definition pg_RevokeAPIKey (id orgID : string) (at_ : Time) : PgM unit :=
  execOne (modify_table (λ d, update_where (λ i k, String.eqb i id && String.eqb (ak_OrgID k) orgID) (λ k,
    {| ak_ID := ak_ID k; ak_OrgID := ak_OrgID k; ak_Name := ak_Name k; ak_Prefix := ak_Prefix k; ak_Hash := ak_Hash k;
       ak_LastUsedAt := ak_LastUsedAt k; ak_RevokedAt := Some (timestamptz at_); ak_CreatedAt := ak_CreatedAt k |})
    (t_api_keys d)) put_keys).

(** * Names *)
Definition pg_ReserveSubdomain (now : Time) (rnd : list Z) (s : ReservedSubdomain) : PgM ReservedSubdomain :=
  let s := {| rs_ID := or_id (rs_ID s) "sub" rnd; rs_OrgID := rs_OrgID s; rs_Subdomain := rs_Subdomain s;
              rs_CreatedAt := or_now (rs_CreatedAt s) now |} in
  let row := {| rs_ID := rs_ID s; rs_OrgID := rs_OrgID s; rs_Subdomain := ToLower (rs_Subdomain s);
                rs_CreatedAt := timestamptz (rs_CreatedAt s) |} in
  _ ← or_conflict (insert_into (λ d, insert_row (rs_ID s) row (λ _ v, String.eqb (rs_Subdomain v) (ToLower (rs_Subdomain s)))
             (org_exists (rs_OrgID s) d) (t_reserved_subdomains d)) put_subdomains);
  mret s.
Definition pg_ListSubdomains (orgID : string) : PgM (list ReservedSubdomain) :=
  raw (query (λ d, Ok (select (λ _ s, String.eqb (rs_OrgID s) orgID) (t_reserved_subdomains d)))).
Definition pg_ReleaseSubdomain (id orgID : string) : PgM unit :=
  execOne (modify_table (λ d, delete_where (λ i s, String.eqb i id && String.eqb (rs_OrgID s) orgID)
    (t_reserved_subdomains d)) put_subdomains).
Definition pg_IsSubdomainReserved (orgID subdomain : string) : PgM bool := λ c,
  match statement (query (λ d, query_row (rs_OrgID <$>
          select (λ _ s, String.eqb (rs_Subdomain s) (ToLower subdomain)) (t_reserved_subdomains d)))) c with
  | (Err NoRows, c) => (Ok false, c)
  | (Err e, c) => (Err (PSql e), c)
  | (Ok owner, c) => (Ok (String.eqb owner orgID), c)
  end.
Definition pg_CountSubdomains (orgID : string) : PgM Z :=
  raw (query (λ d, Ok (count (λ _ s, String.eqb (rs_OrgID s) orgID) (t_reserved_subdomains d)))).

Definition pg_AddCustomDomain (now : Time) (rnd : list Z) (x : CustomDomain) : PgM CustomDomain :=
  let x := {| cd_ID := or_id (cd_ID x) "dom" rnd; cd_OrgID := cd_OrgID x; cd_Domain := cd_Domain x;
              cd_VerifyToken := cd_VerifyToken x; cd_VerifiedAt := cd_VerifiedAt x;
              cd_CertStatus := if String.eqb (cd_CertStatus x) "" then "pending" else cd_CertStatus x;
              cd_CreatedAt := or_now (cd_CreatedAt x) now |} in
  let row := {| cd_ID := cd_ID x; cd_OrgID := cd_OrgID x; cd_Domain := ToLower (cd_Domain x);
                cd_VerifyToken := cd_VerifyToken x; cd_VerifiedAt := None; cd_CertStatus := cd_CertStatus x;
                cd_CreatedAt := timestamptz (cd_CreatedAt x) |} in
  _ ← or_conflict (insert_into (λ d, insert_row (cd_ID x) row (λ _ v, String.eqb (cd_Domain v) (ToLower (cd_Domain x)))
             (org_exists (cd_OrgID x) d) (t_custom_domains d)) put_domains);
  mret x.
Definition pg_GetCustomDomain (id orgID : string) : PgM CustomDomain :=
  with_err mapErr (statement (query (λ d,
    query_row (select (λ i x, String.eqb i id && String.eqb (cd_OrgID x) orgID) (t_custom_domains d))))).
Definition pg_GetCustomDomainByName (domain : string) : PgM CustomDomain :=
  with_err mapErr (statement (query (λ d,
    query_row (select (λ _ x, String.eqb (cd_Domain x) (ToLower domain)) (t_custom_domains d))))).
Definition pg_ListCustomDomains (orgID : string) : PgM (list CustomDomain) :=
  raw (query (λ d, Ok (select (λ _ x, String.eqb (cd_OrgID x) orgID) (t_custom_domains d)))).
Definition pg_VerifyCustomDomain (id orgID : string) (at_ : Time) : PgM unit :=
  execOne (modify_table (λ d, update_where (λ i x, String.eqb i id && String.eqb (cd_OrgID x) orgID) (λ x,
    {| cd_ID := cd_ID x; cd_OrgID := cd_OrgID x; cd_Domain := cd_Domain x; cd_VerifyToken := cd_VerifyToken x;
       cd_VerifiedAt := Some (timestamptz at_); cd_CertStatus := "verified"; cd_CreatedAt := cd_CreatedAt x |})
    (t_custom_domains d)) put_domains).
Definition pg_CountCustomDomains (orgID : string) : PgM Z :=
  raw (query (λ d, Ok (count (λ _ x, String.eqb (cd_OrgID x) orgID) (t_custom_domains d)))).
End operations.

Section measures.
  Context `{RangeOrder}.
  (** [date_trunc] in the time zone of the session. *)
  Context (date_trunc : string → Time → Time).

(** * Usage *)
Definition pg_UpsertUsage (u : UsageRecord) : PgM unit :=
  let row := {| ur_OrgID := ur_OrgID u; ur_TunnelID := ur_TunnelID u; ur_BytesIn := ur_BytesIn u; ur_BytesOut := ur_BytesOut u;
                ur_Requests := ur_Requests u; ur_WindowStart := timestamptz (ur_WindowStart u);
                ur_WindowEnd := timestamptz (ur_WindowEnd u) |} in
  raw (insert_into (λ d, if org_exists (ur_OrgID u) d then Ok (t_usage_records d ++ [row]) else Err foreign_violation) put_usage).
Definition in_period_sql (orgID : string) (since : Time) (u : UsageRecord) : bool :=
  String.eqb (ur_OrgID u) orgID && (timestamptz since <=? ur_WindowEnd u).
(** The three sums of some rows, scanned. *)
Definition scan_sums (l : list UsageRecord) : result SqlErr (Z * Z * Z) :=
  match scan_int64 (sum_of ur_BytesIn l), scan_int64 (sum_of ur_BytesOut l), scan_int64 (sum_of ur_Requests l) with
  | Ok i, Ok o, Ok r => Ok (i, o, r)
  | Err e, _, _ | _, Err e, _ | _, _, Err e => Err e
  end.
Definition pg_UsageForOrg (now : Time) (orgID : string) (since : Time) : PgM UsageRecord :=
  s ← raw (query (λ d, scan_sums (List.filter (in_period_sql orgID since) (t_usage_records d))));
  mret {| ur_OrgID := orgID; ur_TunnelID := ""; ur_BytesIn := s.1.1; ur_BytesOut := s.1.2; ur_Requests := s.2;
          ur_WindowStart := since; ur_WindowEnd := now |}.

(** GROUP BY the bucket of a row, ORDER BY it, and scan. *)
Definition group_by {A} (key : A → Time) (l : list A) : gmap Time (list A) :=
  foldl (λ g x, <[key x := default [] (g !! key x) ++ [x]]> g) ∅ l.
Fixpoint scan_buckets (l : list (Time * list UsageRecord)) : result SqlErr (list UsageBucket) :=
  match l with
  | [] => Ok []
  | (b, rows) :: l =>
      match scan_sums rows with
      | Err e => Err e
      | Ok (i, o, r) =>
          match scan_buckets l with
          | Err e => Err e
          | Ok out => Ok ({| ub_Start := b; ub_BytesIn := i; ub_BytesOut := o; ub_Requests := r |} :: out)
          end
      end
  end.
Definition pg_UsageSeriesForOrg (orgID : string) (since : Time) (bucket : string) : PgM (list UsageBucket) :=
  let bucket := if negb (String.eqb bucket "hour") then "day" else bucket in
  raw (query (λ d, scan_buckets (sort_by (λ a b, a.1 <? b.1)
    (range_map (group_by (λ u, date_trunc bucket (ur_WindowEnd u)) (List.filter (in_period_sql orgID since) (t_usage_records d))))))).

(** * Tunnel history *)
Definition live_instance (e se t : string) : string → TunnelSession → bool := λ _ s, tunnelKeyMatch s e se t && active s.
(** The columns that DO UPDATE sets. *)
Definition refresh_session (s x : TunnelSession) : TunnelSession :=
  {| ts_ID := ts_ID x; ts_OrgID := ts_OrgID s; ts_EdgeID := ts_EdgeID x; ts_SessionID := ts_SessionID x;
     ts_TunnelID := ts_TunnelID x; ts_Type := ts_Type s; ts_PublicURL := ts_PublicURL s; ts_Host := ts_Host s;
     ts_Port := ts_Port s; ts_Region := ts_Region s; ts_ClientIP := ts_ClientIP s; ts_Country := ts_Country s;
     ts_City := ts_City s; ts_BytesIn := ts_BytesIn x; ts_BytesOut := ts_BytesOut x; ts_Requests := ts_Requests x;
     ts_Status := ts_Status x; ts_StartedAt := ts_StartedAt s; ts_EndedAt := ts_EndedAt x |}.
Definition session_row (s : TunnelSession) : TunnelSession :=
  {| ts_ID := ts_ID s; ts_OrgID := ts_OrgID s; ts_EdgeID := ts_EdgeID s; ts_SessionID := ts_SessionID s;
     ts_TunnelID := ts_TunnelID s; ts_Type := ts_Type s; ts_PublicURL := ts_PublicURL s; ts_Host := ts_Host s;
     ts_Port := ts_Port s; ts_Region := ts_Region s; ts_ClientIP := ts_ClientIP s; ts_Country := ts_Country s;
     ts_City := ts_City s; ts_BytesIn := 0; ts_BytesOut := 0; ts_Requests := 0; ts_Status := "active";
     ts_StartedAt := timestamptz (ts_StartedAt s); ts_EndedAt := None |}.
(** INSERT ... ON CONFLICT on the index of the live instances: the row of a live
    instance is updated, and only an inserted row is checked for its id. *)
Definition upsert_session (s : TunnelSession) : Stmt string := λ d,
  let t := t_tunnel_sessions d in
  let live := live_instance (ts_EdgeID s) (ts_SessionID s) (ts_TunnelID s) in
  match int4 (ts_Port s) with
  | Err e => (Err e, d)
  | Ok _ =>
      match select live t with
      | x :: _ =>
          if negb (org_exists (ts_OrgID s) d) then (Err foreign_violation, d)
          else (Ok (ts_ID x), put_sessions (update_where live (refresh_session (session_row s)) t).2 d)
      | [] =>
          match insert_row (ts_ID s) (session_row s) (λ _ _, false) (org_exists (ts_OrgID s) d) t with
          | Err e => (Err e, d)
          | Ok t => (Ok (ts_ID s), put_sessions t d)
          end
      end
  end.
Definition with_session (id status : string) (started : Time) (s : TunnelSession) : TunnelSession :=
  {| ts_ID := id; ts_OrgID := ts_OrgID s; ts_EdgeID := ts_EdgeID s; ts_SessionID := ts_SessionID s;
     ts_TunnelID := ts_TunnelID s; ts_Type := ts_Type s; ts_PublicURL := ts_PublicURL s; ts_Host := ts_Host s;
     ts_Port := ts_Port s; ts_Region := ts_Region s; ts_ClientIP := ts_ClientIP s; ts_Country := ts_Country s;
     ts_City := ts_City s; ts_BytesIn := ts_BytesIn s; ts_BytesOut := ts_BytesOut s; ts_Requests := ts_Requests s;
     ts_Status := status; ts_StartedAt := started; ts_EndedAt := ts_EndedAt s |}.
Definition pg_RecordTunnelOpen (now : Time) (rnd : list Z) (s : TunnelSession) : PgM TunnelSession :=
  let s := with_session (or_id (ts_ID s) "tun" rnd) (ts_Status s) (or_now (ts_StartedAt s) now) s in
  id ← raw (upsert_session s);
  mret (with_session id "active" (ts_StartedAt s) s).
Definition pg_CloseTunnelSession (edgeID sessionID tunnelID : string) (endedAt : Time) (bytesIn bytesOut requests : Z) : PgM unit :=
  execOne (modify_table (λ d, update_where (live_instance edgeID sessionID tunnelID)
    (close_row (timestamptz endedAt) bytesIn bytesOut requests) (t_tunnel_sessions d)) put_sessions).
(** The conditions [where] adds. *)
Definition session_where (orgID : string) (activeOnly : bool) : string → TunnelSession → bool := λ _ s,
  (if negb (String.eqb orgID "") then String.eqb (ts_OrgID s) orgID else true) &&
  (if activeOnly then active s else true).
Definition pg_ListTunnelSessions (f : TunnelSessionFilter) : PgM (list TunnelSession) :=
  let limit := if tf_Limit f <=? 0 then 100 else tf_Limit f in
  raw (query (λ d, page limit (tf_Offset f) (sort_by (λ a b, After (ts_StartedAt a) (ts_StartedAt b))
    (select (session_where (tf_OrgID f) (tf_ActiveOnly f)) (t_tunnel_sessions d))))).
Definition pg_CountTunnelSessions (orgID : string) (activeOnly : bool) : PgM Z :=
  raw (query (λ d, Ok (count (session_where orgID activeOnly) (t_tunnel_sessions d)))).
Definition country_group (s : TunnelSession) : string := default "??" (nullStr (ts_Country s)).
Definition pg_TunnelCountryBreakdown (orgID : string) (activeOnly : bool) : PgM (gmap string Z) :=
  raw (query (λ d, Ok (group_count country_group (select (session_where orgID activeOnly) (t_tunnel_sessions d))))).

(** * Dashboard *)
Definition plan_group (o : OrgRow) : string := default "free" (nullStr (gr_plan o)).
(** The headline counts, then the plans. *)
Definition overview_counts (d7 d30 : Time) (d : Db) : result SqlErr AdminStats :=
  let recent := List.filter (λ u, timestamptz d30 <=? ur_WindowEnd u) (t_usage_records d) in
  match scan_sums recent with
  | Err e => Err e
  | Ok (i, o, r) => Ok {|
      as_Users := count any_row (t_users d);
      as_NewUsers7d := count (λ _ u, After (us_CreatedAt u) (timestamptz d7)) (t_users d);
      as_NewUsers30d := count (λ _ u, After (us_CreatedAt u) (timestamptz d30)) (t_users d);
      as_Orgs := count any_row (t_orgs d); as_OrgsByPlan := ∅;
      as_APIKeys := count any_row (t_api_keys d);
      as_ReservedSubdomains := count any_row (t_reserved_subdomains d);
      as_CustomDomains := count any_row (t_custom_domains d);
      as_ActiveTunnels := count (λ _ s, active s) (t_tunnel_sessions d);
      as_TotalTunnels := count any_row (t_tunnel_sessions d);
      as_BytesIn30d := i; as_BytesOut30d := o; as_Requests30d := r |}
  end.
Definition with_plans (plans : gmap string Z) (s : AdminStats) : AdminStats :=
  {| as_Users := as_Users s; as_NewUsers7d := as_NewUsers7d s; as_NewUsers30d := as_NewUsers30d s; as_Orgs := as_Orgs s;
     as_OrgsByPlan := plans; as_APIKeys := as_APIKeys s; as_ReservedSubdomains := as_ReservedSubdomains s;
     as_CustomDomains := as_CustomDomains s; as_ActiveTunnels := as_ActiveTunnels s; as_TotalTunnels := as_TotalTunnels s;
     as_BytesIn30d := as_BytesIn30d s; as_BytesOut30d := as_BytesOut30d s; as_Requests30d := as_Requests30d s |}.
Definition pg_AdminOverview (now : Time) : PgM AdminStats :=
  let d7 := now - 7 * 24 * Hour in
  let d30 := now - 30 * 24 * Hour in
  st ← raw (query (overview_counts d7 d30));
  plans ← raw (query (λ d, Ok (group_count plan_group (select any_row (t_orgs d)))));
  mret (with_plans plans st).
Definition pg_ListUsers (limit offset : Z) (search : string) : PgM (list User) :=
  let limit := if limit <=? 0 then 50 else limit in
  let search := TrimSpace search in
  let pat := "%" +:+ search +:+ "%" in
  raw (query (λ d, page limit offset (sort_by (λ a b, After (us_CreatedAt a) (us_CreatedAt b))
    (select (λ _ u, String.eqb search "" || ilike (us_Email u) pat || ilike (us_Name u) pat) (t_users d))))).
Definition pg_ListOrgs (limit offset : Z) (plan : string) : PgM (list Org) :=
  let limit := if limit <=? 0 then 50 else limit in
  let plan := ToLower (TrimSpace plan) in
  raw (query (λ d, page limit offset (scan_org <$> sort_by (λ a b, After (gr_created_at a) (gr_created_at b))
    (select (λ _ o, String.eqb plan "" || String.eqb (gr_plan o) plan) (t_orgs d))))).

(** * Billing *)
Definition scan_subscription (r : SubscriptionRow) : Subscription :=
  {| sb_ID := sw_id r; sb_OrgID := sw_org_id r; sb_StripeSubID := sw_stripe_subscription_id r;
     sb_StripeCustomerID := sw_stripe_customer_id r; sb_Plan := sw_plan r; sb_Status := sw_status r;
     sb_CurrentPeriodEnd := default 0 (sw_current_period_end r); sb_CancelAtPeriodEnd := sw_cancel_at_period_end r;
     sb_CreatedAt := sw_created_at r; sb_UpdatedAt := sw_updated_at r |}.
Definition subscription_row (s : Subscription) : SubscriptionRow :=
  {| sw_id := sb_ID s; sw_org_id := sb_OrgID s; sw_stripe_subscription_id := sb_StripeSubID s;
     sw_stripe_customer_id := sb_StripeCustomerID s; sw_plan := sb_Plan s; sw_status := sb_Status s;
     sw_current_period_end := timestamptz <$> nullTime (sb_CurrentPeriodEnd s);
     sw_cancel_at_period_end := sb_CancelAtPeriodEnd s; sw_created_at := timestamptz (sb_CreatedAt s);
     sw_updated_at := timestamptz (sb_UpdatedAt s) |}.
Definition refresh_subscription (x r : SubscriptionRow) : SubscriptionRow :=
  {| sw_id := sw_id r; sw_org_id := sw_org_id r; sw_stripe_subscription_id := sw_stripe_subscription_id x;
     sw_stripe_customer_id := sw_stripe_customer_id x; sw_plan := sw_plan x; sw_status := sw_status x;
     sw_current_period_end := sw_current_period_end x; sw_cancel_at_period_end := sw_cancel_at_period_end x;
     sw_created_at := sw_created_at r; sw_updated_at := sw_updated_at x |}.
Definition of_org (org : string) : string → SubscriptionRow → bool := λ _ r, String.eqb (sw_org_id r) org.
(** ON CONFLICT on the org: its row is updated, keeping its id, else the row is
    inserted; the Stripe id stays unique either way. *)
Definition upsert_subscription (x : SubscriptionRow) : Stmt unit := λ d,
  let t := t_subscriptions d in
  let same_stripe := λ r, String.eqb (sw_stripe_subscription_id r) (sw_stripe_subscription_id x) in
  if has (of_org (sw_org_id x)) t then
    if has (λ _ r, same_stripe r && negb (String.eqb (sw_org_id r) (sw_org_id x))) t then (Err unique_violation, d)
    else (Ok tt, put_subscriptions (update_where (of_org (sw_org_id x)) (refresh_subscription x) t).2 d)
  else match insert_row (sw_id x) x (λ _ r, same_stripe r) (org_exists (sw_org_id x) d) t with
       | Err e => (Err e, d)
       | Ok t => (Ok tt, put_subscriptions t d)
       end.
Definition pg_UpsertSubscription (now : Time) (rnd : list Z) (s : Subscription) : PgM Subscription :=
  let s := {| sb_ID := or_id (sb_ID s) "sub" rnd; sb_OrgID := sb_OrgID s; sb_StripeSubID := sb_StripeSubID s;
              sb_StripeCustomerID := sb_StripeCustomerID s; sb_Plan := sb_Plan s; sb_Status := sb_Status s;
              sb_CurrentPeriodEnd := sb_CurrentPeriodEnd s; sb_CancelAtPeriodEnd := sb_CancelAtPeriodEnd s;
              sb_CreatedAt := or_now (sb_CreatedAt s) now; sb_UpdatedAt := now |} in
  _ ← raw (upsert_subscription (subscription_row s));
  mret s.
Definition pg_GetSubscriptionForOrg (orgID : string) : PgM Subscription :=
  with_err mapErr (statement (query (λ d, query_row (scan_subscription <$> select (of_org orgID) (t_subscriptions d))))).
Definition pg_DeleteSubscription (stripeSubID : string) : PgM unit :=
  execOne (modify_table (λ d, delete_where (λ _ r, String.eqb (sw_stripe_subscription_id r) stripeSubID) (t_subscriptions d))
    put_subscriptions).
Definition pg_GetOrgByStripeCustomer (customerID : string) : PgM Org :=
  if String.eqb customerID "" then throw PNotFound
  else with_err mapErr (statement (query (λ d,
         query_row (scan_org <$> select (λ _ o, bool_decide (gr_stripe_customer_id o = Some customerID)) (t_orgs d))))).

Definition insert_event (eventID eventType : string) (now : Time) : Stmt Z := λ d,
  match t_billing_events d !! eventID with
  | Some _ => (Ok 0, d)
  | None => (Ok 1, put_events (<[eventID := (eventType, timestamptz now)]> (t_billing_events d)) d)
  end.
Definition pg_MarkEventProcessed (now : Time) (eventID eventType : string) : PgM bool :=
  if String.eqb eventID "" then mret true
  else n ← raw (insert_event eventID eventType now); mret (n =? 1).

(** The sequence moves on before the constraints are checked, and stays moved. *)
Definition insert_metered (u : MeteredUsage) : Stmt Z := λ d,
  let t := t_metered_usage d in
  let seq := s_metered_usage_id d + 1 in
  if 2 ^ 63 <=? seq then (Err (PgError "2200H" "nextval: reached maximum value of sequence"), d)
  else
    let row := {| mu_ID := seq; mu_OrgID := mu_OrgID u; mu_Metric := mu_Metric u; mu_Quantity := mu_Quantity u;
                  mu_WindowStart := timestamptz (mu_WindowStart u); mu_WindowEnd := timestamptz (mu_WindowEnd u);
                  mu_ReportedAt := None; mu_CreatedAt := timestamptz (mu_CreatedAt u) |} in
    let d := put_metered t seq d in
    if existsb (λ e, String.eqb (mu_OrgID e) (mu_OrgID u) && String.eqb (mu_Metric e) (mu_Metric u) &&
                     (mu_WindowStart e =? mu_WindowStart row)) t then (Err unique_violation, d)
    else if negb (org_exists (mu_OrgID u) d) then (Err foreign_violation, d)
    else (Ok seq, put_metered (t ++ [row]) seq d).
Definition pg_InsertMeteredUsage (now : Time) (u : MeteredUsage) : PgM MeteredUsage :=
  let created := or_now (mu_CreatedAt u) now in
  let u := {| mu_ID := mu_ID u; mu_OrgID := mu_OrgID u; mu_Metric := mu_Metric u; mu_Quantity := mu_Quantity u;
              mu_WindowStart := mu_WindowStart u; mu_WindowEnd := mu_WindowEnd u; mu_ReportedAt := mu_ReportedAt u;
              mu_CreatedAt := created |} in
  id ← or_conflict (insert_metered u);
  mret {| mu_ID := id; mu_OrgID := mu_OrgID u; mu_Metric := mu_Metric u; mu_Quantity := mu_Quantity u;
          mu_WindowStart := mu_WindowStart u; mu_WindowEnd := mu_WindowEnd u; mu_ReportedAt := mu_ReportedAt u;
          mu_CreatedAt := mu_CreatedAt u |}.
Definition pg_PendingMeteredUsage (limit : Z) : PgM (list MeteredUsage) :=
  let limit := if limit <=? 0 then 1000 else limit in
  raw (query (λ d, page limit 0 (sort_by (λ a b, mu_ID a <? mu_ID b) (List.filter pending (t_metered_usage d))))).
Definition report_row (at_ : Time) (u : MeteredUsage) : MeteredUsage :=
  {| mu_ID := mu_ID u; mu_OrgID := mu_OrgID u; mu_Metric := mu_Metric u; mu_Quantity := mu_Quantity u;
     mu_WindowStart := mu_WindowStart u; mu_WindowEnd := mu_WindowEnd u; mu_ReportedAt := Some at_;
     mu_CreatedAt := mu_CreatedAt u |}.
Definition mark_reported (ids : list Z) (at_ : Time) : Stmt unit := λ d,
  (Ok tt, put_metered (map (λ u, if bool_decide (mu_ID u ∈ ids) then report_row at_ u else u) (t_metered_usage d))
            (s_metered_usage_id d) d).
Definition pg_MarkMeteredUsageReported (ids : list Z) (at_ : Time) : PgM unit :=
  match ids with
  | [] => mret tt
  | _ => raw (mark_reported ids (timestamptz at_))
  end.
End measures.
