(* ===== verification/PgSafety.v ===== *)
(** The PostgreSQL store against the in-memory one: the relation between the tables
    and the maps, and that every operation keeps it and answers alike. *)
From S2P Require Import Prelude GoStrings Store StoreInv Listings Pg.
From Stdlib Require Import Ascii.

Open Scope Z_scope.

(** * Lists and tables *)
Lemma filter_perm {A} (p : A → bool) l1 l2 : l1 ≡ₚ l2 → List.filter p l1 ≡ₚ List.filter p l2.
Proof.
  induction 1 as [|x l1 l2 Hp IH|x y l|l1 l2 l3 H1 IH1 H2 IH2]; simpl; [done| | |by rewrite IH1].
  - by destruct (p x); [rewrite IH|].
  - destruct (p x), (p y); try done. constructor.
Qed.
Lemma elem_of_filter' {A} (p : A → bool) l x : x ∈ List.filter p l ↔ x ∈ l ∧ p x = true.
Proof. rewrite !list_elem_of_In. apply filter_In. Qed.
Lemma filter_nodup {A} (p : A → bool) l : NoDup l → NoDup (List.filter p l).
Proof. intros Hl. apply NoDup_ListNoDup. apply List.NoDup_filter. by apply NoDup_ListNoDup. Qed.
Lemma only_one {A} (l : list A) x : NoDup l → x ∈ l → (∀ y, y ∈ l → y = x) → l = [x].
Proof.
  intros Hnd Hx Hall. destruct l as [|a l]; [by apply not_elem_of_nil in Hx|]. rewrite (Hall a) in * by left.
  destruct l as [|b l]; [done|]. rewrite (Hall b) in Hnd by (right; left). apply list.NoDup_cons in Hnd as [Hni _]. destruct Hni. left.
Qed.
Lemma filter_snd {K V} (q : V → bool) (l : list (K * V)) :
  (List.filter (λ kv, q kv.2) l).*2 = List.filter q l.*2.
Proof. induction l as [|[k v] l IH]; [done|]. cbn. destruct (q v); cbn; by rewrite IH. Qed.

Section tables.
  Context `{RangeOrder} {K V : Type} `{Countable K}.
  Implicit Types (t : gmap K V) (p : K → V → bool).

Lemma select_perm p t : select p t ≡ₚ (List.filter (λ kv, p kv.1 kv.2) (map_to_list t)).*2.
Proof. unfold select. apply Permutation_map, filter_perm, range_map_perm. Qed.
Lemma count_select p t : count p t = Z.of_nat (length (select p t)).
Proof. unfold count. f_equal. by rewrite select_perm, length_fmap. Qed.
Lemma elem_of_select p t v : v ∈ select p t ↔ ∃ k, t !! k = Some v ∧ p k v = true.
Proof.
  unfold select. rewrite list_elem_of_fmap. split.
  - intros ([k w] & -> & Hw). apply elem_of_filter' in Hw as [Hw Hp]. apply elem_of_range in Hw. eauto.
  - intros (k & Hk & Hp). exists (k, v). split; [done|]. apply elem_of_filter'. split; [by apply elem_of_range|done].
Qed.
Lemma select_none p t : (∀ k v, t !! k = Some v → p k v = false) → select p t = [].
Proof.
  intros Hn. destruct (select p t) as [|v l] eqn:E; [done|].
  assert (Hv : v ∈ select p t) by (rewrite E; left). apply elem_of_select in Hv as (k & Hk & Hp). by rewrite (Hn k v Hk) in Hp.
Qed.
Lemma select_unique p t k v : t !! k = Some v → p k v = true →
  (∀ k' v', t !! k' = Some v' → p k' v' = true → k' = k) → select p t = [v].
Proof.
  intros Hk Hp Hu. unfold select. rewrite (only_one (List.filter _ _) (k, v)); [done| | |].
  - apply filter_nodup. eapply NoDup_fmap_1, range_nodup.
  - apply elem_of_filter'. split; [by apply elem_of_range|done].
  - intros [k' v'] Hy. apply elem_of_filter' in Hy as [Hy Hp']. apply elem_of_range in Hy. cbn in Hp'.
    pose proof (Hu _ _ Hy Hp') as ->. congruence.
Qed.

Lemma update_none p f t : (∀ k v, t !! k = Some v → p k v = false) → update_where p f t = (0, t).
Proof.
  intros Hn. unfold update_where. rewrite count_select, (select_none p t Hn). f_equal. apply map_eq. intros k.
  rewrite map_lookup_imap. destruct (t !! k) as [v|] eqn:Hk; [|done]. cbn. by rewrite (Hn k v Hk).
Qed.
Lemma update_unique p f t k v : t !! k = Some v → p k v = true →
  (∀ k' v', t !! k' = Some v' → p k' v' = true → k' = k) → update_where p f t = (1, <[k := f v]> t).
Proof.
  intros Hk Hp Hu. unfold update_where. rewrite count_select, (select_unique p t k v Hk Hp Hu). f_equal. apply map_eq. intros k'.
  rewrite map_lookup_imap. destruct (decide (k' = k)) as [->|Hne].
  - rewrite lookup_insert_eq, Hk. cbn. by rewrite Hp.
  - rewrite lookup_insert_ne by done. destruct (t !! k') as [v'|] eqn:Hk'; [|done]. cbn.
    destruct (p k' v') eqn:Hp'; [|done]. by pose proof (Hu _ _ Hk' Hp').
Qed.
Lemma delete_none p t : (∀ k v, t !! k = Some v → p k v = false) → delete_where p t = (0, t).
Proof.
  intros Hn. unfold delete_where. rewrite count_select, (select_none p t Hn). f_equal. apply map_filter_id. intros k v. apply Hn.
Qed.
Lemma delete_unique p t k v : t !! k = Some v → p k v = true →
  (∀ k' v', t !! k' = Some v' → p k' v' = true → k' = k) → delete_where p t = (1, delete k t).
Proof.
  intros Hk Hp Hu. unfold delete_where. rewrite count_select, (select_unique p t k v Hk Hp Hu). f_equal. apply map_eq. intros k'.
  destruct (decide (k' = k)) as [->|Hne].
  - rewrite lookup_delete_eq. apply map_lookup_filter_None. right. intros v' Hv'. cbn. rewrite Hk in Hv'. injection Hv' as <-. by rewrite Hp.
  - rewrite lookup_delete_ne by done. destruct (t !! k') as [v'|] eqn:Hk'.
    + apply map_lookup_filter_Some. split; [done|]. cbn. destruct (p k' v') eqn:Hp'; [|done]. by pose proof (Hu _ _ Hk' Hp').
    + apply map_lookup_filter_None. by left.
Qed.

Lemma has_true p t : has p t = true ↔ ∃ k v, t !! k = Some v ∧ p k v = true.
Proof.
  unfold has. rewrite existsb_exists. split.
  - intros ([k v] & Hin & Hp). exists k, v. split; [|done]. by apply elem_of_map_to_list, list_elem_of_In.
  - intros (k & v & Hk & Hp). exists (k, v). split; [|done]. by apply list_elem_of_In, elem_of_map_to_list.
Qed.
Lemma has_false p t : has p t = false ↔ ∀ k v, t !! k = Some v → p k v = false.
Proof.
  rewrite <-not_true_iff_false, has_true. split.
  - intros Hn k v Hk. apply not_true_iff_false. intros Hp. eauto.
  - intros Hn (k & v & Hk & Hp). by rewrite (Hn k v Hk) in Hp.
Qed.
Lemma insert_row_ok k v dup t : t !! k = None → has dup t = false → insert_row k v dup true t = Ok (<[k := v]> t).
Proof. intros Hk Hd. unfold insert_row. rewrite Hk, Hd. by rewrite bool_decide_false by (by intros [? ?]). Qed.
Lemma insert_row_dup k v dup refs t : has dup t = true → insert_row k v dup refs t = Err unique_violation.
Proof. intros Hd. unfold insert_row. by rewrite Hd, orb_true_r. Qed.
End tables.

Lemma nodup_map_inj {A B} (f : A → B) l x y : NoDup (map f l) → x ∈ l → y ∈ l → f x = f y → x = y.
Proof.
  induction l as [|a l IH]; cbn; [intros _ Hx; by apply not_elem_of_nil in Hx|]. intros [Hni Hnd]%list.NoDup_cons Hx Hy He.
  apply elem_of_cons in Hx as [->|Hx], Hy as [->|Hy]; try done; [| |by apply IH].
  - destruct Hni. rewrite He. by apply list_elem_of_fmap_2.
  - destruct Hni. rewrite <-He. by apply list_elem_of_fmap_2.
Qed.

(** A condition on the primary key and the row. *)
Section by_key.
  Context `{RangeOrder} {V : Type} (p : string → V → bool) (id : string) (q : V → bool).
  Context (Hp : ∀ k v, p k v = String.eqb k id && q v).
  Implicit Types (t : gmap string V).
#[local] Lemma key_is k v : p k v = true → k = id.
Proof. rewrite Hp, andb_true_iff, String.eqb_eq. by intros [-> _]. Qed.
#[local] Lemma key_true v : q v = true → p id v = true.
Proof. rewrite Hp. intros ->. by rewrite String.eqb_refl. Qed.
#[local] Lemma key_none t : (∀ v, t !! id = Some v → q v = false) → ∀ k v, t !! k = Some v → p k v = false.
Proof. intros Hq k v Hk. rewrite Hp. destruct (String.eqb_spec k id) as [->|]; [by rewrite (Hq v Hk)|done]. Qed.

Ltac no_row := first [apply select_none|apply update_none|apply delete_none]; apply key_none; intros ? ?; congruence.
Ltac one_row := first [eapply select_unique|eapply update_unique|eapply delete_unique];
  [done|by apply key_true|intros ? ? _ ?; by eapply key_is].
Ltac by_key t :=
  let v := fresh "v" in let Hk := fresh "Hk" in let Hq := fresh "Hq" in
  destruct (t !! id) as [v|] eqn:Hk; [destruct (q v) eqn:Hq|];
  [one_row|no_row|no_row].
Lemma select_key t : select p t = match t !! id with Some v => if q v then [v] else [] | None => [] end.
Proof. by_key t. Qed.
Lemma update_key f t : update_where p f t =
  match t !! id with Some v => if q v then (1, <[id := f v]> t) else (0, t) | None => (0, t) end.
Proof. by_key t. Qed.
Lemma delete_key t : delete_where p t =
  match t !! id with Some v => if q v then (1, delete id t) else (0, t) | None => (0, t) end.
Proof. by_key t. Qed.
End by_key.
Lemma by_id_key {V} id k (v : V) : by_id id k v = String.eqb k id && (λ _, true) v.
Proof. by rewrite andb_true_r. Qed.

(** A condition on a column that an index tells apart. *)
Lemma select_index `{RangeOrder} {V} (name : V → string) (tbl : gmap string V) ix n (p : string → V → bool) :
  index_ok name tbl ix → (∀ k v, p k v = String.eqb (name v) n) →
  select p tbl = match ix !! n with Some id => from_option (λ v, [v]) [] (tbl !! id) | None => [] end.
Proof.
  intros Hix Hp. destruct (ix !! n) as [id|] eqn:Hn.
  - destruct (proj1 (Hix n id) Hn) as (v & Hv & Hname). rewrite Hv. cbn. apply (select_unique _ _ id); [done| |].
    + rewrite Hp, Hname. apply String.eqb_refl.
    + intros k v' Hk. rewrite Hp, String.eqb_eq. intros Hv'. assert (ix !! n = Some k) by (apply Hix; eauto). congruence.
  - apply select_none. intros k v Hk. rewrite Hp. apply String.eqb_neq. intros Hv.
    assert (ix !! n = Some k) by (apply Hix; eauto). congruence.
Qed.
Lemma has_index {V} (name : V → string) (tbl : gmap string V) ix n (p : string → V → bool) :
  index_ok name tbl ix → (∀ k v, p k v = String.eqb (name v) n) → has p tbl = bool_decide (is_Some (ix !! n)).
Proof.
  intros Hix Hp. apply eq_bool_prop_intro. rewrite !Is_true_true, has_true, bool_decide_eq_true. split.
  - intros (k & v & Hk & Hv). rewrite Hp in Hv. apply String.eqb_eq in Hv. exists k. apply Hix. eauto.
  - intros [id Hid]. apply Hix in Hid as (v & Hv & Hn). exists id, v. split; [done|]. rewrite Hp, Hn. apply String.eqb_refl.
Qed.

(** * A connection that works *)
Definition quiet (d : Db) : Conn := mkConn d [].
Lemma statement_quiet {A} (f : Stmt A) d : statement f (quiet d) = ((f d).1, quiet (f d).2).
Proof. unfold statement, quiet. cbn. by destruct (f d). Qed.

(** * The relation *)
Definition whole (t : Time) : Prop := t mod 1000 = 0.
Lemma timestamptz_whole t : whole t → timestamptz t = t.
Proof. unfold whole, timestamptz. lia. Qed.

(** A metered row but for its serial number. *)
Definition same_metered (a b : MeteredUsage) : Prop :=
  mu_OrgID a = mu_OrgID b ∧ mu_Metric a = mu_Metric b ∧ mu_Quantity a = mu_Quantity b ∧
  mu_WindowStart a = mu_WindowStart b ∧ mu_WindowEnd a = mu_WindowEnd b ∧
  mu_ReportedAt a = mu_ReportedAt b ∧ mu_CreatedAt a = mu_CreatedAt b.
Definition numbered (seq : Z) (l : list MeteredUsage) : Prop :=
  StronglySorted (λ a b, mu_ID a < mu_ID b) l ∧ Forall (λ u, mu_ID u <= seq) l ∧ 0 <= seq.

(** An active row has no end and has counted nothing. *)
Definition fresh_session (s : TunnelSession) : Prop :=
  ts_BytesIn s = 0 ∧ ts_BytesOut s = 0 ∧ ts_Requests s = 0 ∧ ts_EndedAt s = None.
Definition rows {K V} `{Countable K} (t : gmap K V) : list V := (map_to_list t).*2.

Record rel (d : Db) (m : MemStore) : Prop := {
  rel_ok : store_ok m;
  rel_users : t_users d = users m;
  rel_orgs : scan_org <$> t_orgs d = orgs m;
  rel_members : scan_member <$> map_to_list (t_org_members d) ≡ₚ members m;
  rel_keys : t_api_keys d = keys m;
  rel_subs : t_reserved_subdomains d = subs m;
  rel_domains : t_custom_domains d = domains m;
  rel_usage : t_usage_records d = usage_ m;
  rel_sub_row : ∀ id r, t_subscriptions d !! id = Some r → sw_id r = id ∧ subsByOrg m !! sw_org_id r = Some (scan_subscription r);
  rel_sub_org : ∀ org s, subsByOrg m !! org = Some s → sb_CreatedAt s ≠ 0 ∧
    ∃ r, t_subscriptions d !! sb_ID s = Some r ∧ scan_subscription r = s ∧ sw_org_id r = org;
  rel_sub_stripe : ∀ org s, subsByOrg m !! org = Some s → sb_StripeSubID s ≠ "" ∧ subsByStripe m !! sb_StripeSubID s = Some org;
  rel_events : ∀ id, is_Some (t_billing_events d !! id) ↔ events m !! id = Some true;
  rel_metered : Forall2 same_metered (t_metered_usage d) (metered m);
  rel_metered_db : numbered (s_metered_usage_id d) (t_metered_usage d);
  rel_metered_mem : numbered (meteredSeq m) (metered m);
  rel_sessions : rows (t_tunnel_sessions d) ≡ₚ history m;
  rel_session_ids : map_Forall (λ id s, ts_ID s = id) (t_tunnel_sessions d);
  rel_session_fresh : Forall (λ s, active s = true → fresh_session s) (history m);
}.

Lemma rel_empty : rel empty_db NewMemStore.
Proof.
  split; cbn; try done; try (by apply map_Forall_empty); try (by repeat constructor).
  - apply NewMemStore_ok.
  - intros id. rewrite lookup_empty. split; [by intros [? ?]|done].
Qed.

(** * The calls *)
Inductive store_call :=
| CDo (o : store_op)
| CGetUser (id : string) | CGetUserByEmail (email : string) | CGetOrg (id : string)
| COrgsByPlan (plan : string) | CListOrgMembers (org : string) | COrgsForUser (user : string)
| CGetAPIKeyByPrefix (prefix : string) | CListAPIKeys (org : string)
| CListSubdomains (org : string) | CIsSubdomainReserved (org name : string) | CCountSubdomains (org : string)
| CGetCustomDomain (id org : string) | CGetCustomDomainByName (name : string)
| CListCustomDomains (org : string) | CCountCustomDomains (org : string)
| CUsageForOrg (now : Time) (org : string) (since : Time)
| CUsageSeriesForOrg (org : string) (since : Time) (bucket : string)
| CListTunnelSessions (f : TunnelSessionFilter) | CCountTunnelSessions (org : string) (activeOnly : bool)
| CTunnelCountryBreakdown (org : string) (activeOnly : bool) | CAdminOverview (now : Time)
| CListUsers (limit offset : Z) (search : string) | CListOrgs (limit offset : Z) (plan : string)
| CGetSubscriptionForOrg (org : string) | CGetOrgByStripeCustomer (customer : string)
| CPendingMeteredUsage (limit : Z).
Inductive Reply :=
| RUnit | RBool (b : bool) | RCount (n : Z) | RUser (u : User) | ROrg (o : Org) | RKey (k : APIKey)
| RSub (s : ReservedSubdomain) | RDomain (x : CustomDomain) | RUsage (u : UsageRecord) | RSession (s : TunnelSession)
| RStats (s : AdminStats) | RGroups (g : gmap string Z) | RSubscription (s : Subscription) | RMetered (u : MeteredUsage)
| RSeries (l : list UsageBucket) | RPending (l : list MeteredUsage)
| RUsers (l : list User) | ROrgs (l : list Org) | RMembers (l : list OrgMember) | RKeys (l : list APIKey)
| RSubs (l : list ReservedSubdomain) | RDomains (l : list CustomDomain) | RSessions (l : list TunnelSession).

Definition reply {S E A} (f : A → Reply) (c : M S E A) : M S E Reply := λ s,
  match c s with (Ok a, s) => (Ok (f a), s) | (Err e, s) => (Err e, s) end.
Definition done_ (_ : unit) : Reply := RUnit.

Section calls.
  Context (date_trunc : string → Time → Time).

Definition pg_call `{RangeOrder} (c : store_call) : PgM Reply :=
  match c with
  | CDo (SCreateUser now rnd u) => reply RUser (pg_CreateUser now rnd u)
  | CDo (SUpdateUserProfile id name av) => reply done_ (pg_UpdateUserProfile id name av)
  | CDo (SCreateOrg now rnd o) => reply ROrg (pg_CreateOrg now rnd o)
  | CDo (SUpdateOrgPlan org plan) => reply done_ (pg_UpdateOrgPlan org plan)
  | CDo (SSetOrgPlan org plan exp) => reply done_ (pg_SetOrgPlan org plan exp)
  | CDo (SSetOrgStripeCustomer org c) => reply done_ (pg_SetOrgStripeCustomer org c)
  | CDo (SAddOrgMember e) => reply done_ (pg_AddOrgMember e)
  | CDo (SCreateAPIKey now rnd k) => reply RKey (pg_CreateAPIKey now rnd k)
  | CDo (STouchAPIKey id at_) => reply done_ (pg_TouchAPIKey id at_)
  | CDo (SRevokeAPIKey id org at_) => reply done_ (pg_RevokeAPIKey id org at_)
  | CDo (SReserveSubdomain now rnd s) => reply RSub (pg_ReserveSubdomain now rnd s)
  | CDo (SReleaseSubdomain id org) => reply done_ (pg_ReleaseSubdomain id org)
  | CDo (SAddCustomDomain now rnd x) => reply RDomain (pg_AddCustomDomain now rnd x)
  | CDo (SVerifyCustomDomain id org at_) => reply done_ (pg_VerifyCustomDomain id org at_)
  | CDo (SUpsertUsage u) => reply done_ (pg_UpsertUsage u)
  | CDo (SRecordTunnelOpen now rnd s) => reply RSession (pg_RecordTunnelOpen now rnd s)
  | CDo (SCloseTunnelSession e se t at_ i o r) => reply done_ (pg_CloseTunnelSession e se t at_ i o r)
  | CDo (SUpsertSubscription now rnd s) => reply RSubscription (pg_UpsertSubscription now rnd s)
  | CDo (SDeleteSubscription id) => reply done_ (pg_DeleteSubscription id)
  | CDo (SMarkEventProcessed id) => reply RBool (pg_MarkEventProcessed 0 id "")
  | CDo (SInsertMeteredUsage now u) => reply RMetered (pg_InsertMeteredUsage now u)
  | CDo (SMarkMeteredUsageReported ids at_) => reply done_ (pg_MarkMeteredUsageReported ids at_)
  | CGetUser id => reply RUser (pg_GetUser id)
  | CGetUserByEmail email => reply RUser (pg_GetUserByEmail email)
  | CGetOrg id => reply ROrg (pg_GetOrg id)
  | COrgsByPlan plan => reply ROrgs (pg_OrgsByPlan plan)
  | CListOrgMembers org => reply RMembers (pg_ListOrgMembers org)
  | COrgsForUser user => reply ROrgs (pg_OrgsForUser user)
  | CGetAPIKeyByPrefix prefix => reply RKey (pg_GetAPIKeyByPrefix prefix)
  | CListAPIKeys org => reply RKeys (pg_ListAPIKeys org)
  | CListSubdomains org => reply RSubs (pg_ListSubdomains org)
  | CIsSubdomainReserved org name => reply RBool (pg_IsSubdomainReserved org name)
  | CCountSubdomains org => reply RCount (pg_CountSubdomains org)
  | CGetCustomDomain id org => reply RDomain (pg_GetCustomDomain id org)
  | CGetCustomDomainByName name => reply RDomain (pg_GetCustomDomainByName name)
  | CListCustomDomains org => reply RDomains (pg_ListCustomDomains org)
  | CCountCustomDomains org => reply RCount (pg_CountCustomDomains org)
  | CUsageForOrg now org since => reply RUsage (pg_UsageForOrg now org since)
  | CUsageSeriesForOrg org since bucket => reply RSeries (pg_UsageSeriesForOrg date_trunc org since bucket)
  | CListTunnelSessions f => reply RSessions (pg_ListTunnelSessions f)
  | CCountTunnelSessions org a => reply RCount (pg_CountTunnelSessions org a)
  | CTunnelCountryBreakdown org a => reply RGroups (pg_TunnelCountryBreakdown org a)
  | CAdminOverview now => reply RStats (pg_AdminOverview now)
  | CListUsers limit offset search => reply RUsers (pg_ListUsers limit offset search)
  | CListOrgs limit offset plan => reply ROrgs (pg_ListOrgs limit offset plan)
  | CGetSubscriptionForOrg org => reply RSubscription (pg_GetSubscriptionForOrg org)
  | CGetOrgByStripeCustomer customer => reply ROrg (pg_GetOrgByStripeCustomer customer)
  | CPendingMeteredUsage limit => reply RPending (pg_PendingMeteredUsage limit)
  end.

Definition mem_call `{RangeOrder} (c : store_call) : StM Reply :=
  match c with
  | CDo (SCreateUser now rnd u) => reply RUser (CreateUser now rnd u)
  | CDo (SUpdateUserProfile id name av) => reply done_ (UpdateUserProfile id name av)
  | CDo (SCreateOrg now rnd o) => reply ROrg (CreateOrg now rnd o)
  | CDo (SUpdateOrgPlan org plan) => reply done_ (UpdateOrgPlan org plan)
  | CDo (SSetOrgPlan org plan exp) => reply done_ (SetOrgPlan org plan exp)
  | CDo (SSetOrgStripeCustomer org c) => reply done_ (SetOrgStripeCustomer org c)
  | CDo (SAddOrgMember e) => reply done_ (AddOrgMember e)
  | CDo (SCreateAPIKey now rnd k) => reply RKey (CreateAPIKey now rnd k)
  | CDo (STouchAPIKey id at_) => reply done_ (TouchAPIKey id at_)
  | CDo (SRevokeAPIKey id org at_) => reply done_ (RevokeAPIKey id org at_)
  | CDo (SReserveSubdomain now rnd s) => reply RSub (ReserveSubdomain now rnd s)
  | CDo (SReleaseSubdomain id org) => reply done_ (ReleaseSubdomain id org)
  | CDo (SAddCustomDomain now rnd x) => reply RDomain (AddCustomDomain now rnd x)
  | CDo (SVerifyCustomDomain id org at_) => reply done_ (VerifyCustomDomain id org at_)
  | CDo (SUpsertUsage u) => reply done_ (UpsertUsage u)
  | CDo (SRecordTunnelOpen now rnd s) => reply RSession (RecordTunnelOpen now rnd s)
  | CDo (SCloseTunnelSession e se t at_ i o r) => reply done_ (CloseTunnelSession e se t at_ i o r)
  | CDo (SUpsertSubscription now rnd s) => reply RSubscription (UpsertSubscription now rnd s)
  | CDo (SDeleteSubscription id) => reply done_ (DeleteSubscription id)
  | CDo (SMarkEventProcessed id) => reply RBool (MarkEventProcessed id)
  | CDo (SInsertMeteredUsage now u) => reply RMetered (InsertMeteredUsage now u)
  | CDo (SMarkMeteredUsageReported ids at_) => reply done_ (MarkMeteredUsageReported ids at_)
  | CGetUser id => reply RUser (GetUser id)
  | CGetUserByEmail email => reply RUser (GetUserByEmail email)
  | CGetOrg id => reply ROrg (GetOrg id)
  | COrgsByPlan plan => reply ROrgs (OrgsByPlan plan)
  | CListOrgMembers org => reply RMembers (ListOrgMembers org)
  | COrgsForUser user => reply ROrgs (OrgsForUser user)
  | CGetAPIKeyByPrefix prefix => reply RKey (GetAPIKeyByPrefix prefix)
  | CListAPIKeys org => reply RKeys (ListAPIKeys org)
  | CListSubdomains org => reply RSubs (ListSubdomains org)
  | CIsSubdomainReserved org name => reply RBool (IsSubdomainReserved org name)
  | CCountSubdomains org => reply RCount (CountSubdomains org)
  | CGetCustomDomain id org => reply RDomain (GetCustomDomain id org)
  | CGetCustomDomainByName name => reply RDomain (GetCustomDomainByName name)
  | CListCustomDomains org => reply RDomains (ListCustomDomains org)
  | CCountCustomDomains org => reply RCount (CountCustomDomains org)
  | CUsageForOrg now org since => reply RUsage (UsageForOrg now org since)
  | CUsageSeriesForOrg org since bucket => reply RSeries (UsageSeriesForOrg org since bucket)
  | CListTunnelSessions f => reply RSessions (ListTunnelSessions f)
  | CCountTunnelSessions org a => reply RCount (CountTunnelSessions org a)
  | CTunnelCountryBreakdown org a => reply RGroups (TunnelCountryBreakdown org a)
  | CAdminOverview now => reply RStats (AdminOverview now)
  | CListUsers limit offset search => reply RUsers (ListUsers limit offset search)
  | CListOrgs limit offset plan => reply ROrgs (ListOrgs limit offset plan)
  | CGetSubscriptionForOrg org => reply RSubscription (GetSubscriptionForOrg org)
  | CGetOrgByStripeCustomer customer => reply ROrg (GetOrgByStripeCustomer customer)
  | CPendingMeteredUsage limit => reply RPending (PendingMeteredUsage limit)
  end.

(** ** What may differ
    The order of rows that neither side orders, the serial numbers of metered rows, the
    id and creation time in the answer to an upserted subscription, and the error of a
    duplicate that postgres.go passes on as it is. *)
Definition same_upsert (a b : Subscription) : Prop :=
  sb_OrgID a = sb_OrgID b ∧ sb_StripeSubID a = sb_StripeSubID b ∧ sb_StripeCustomerID a = sb_StripeCustomerID b ∧
  sb_Plan a = sb_Plan b ∧ sb_Status a = sb_Status b ∧ sb_CurrentPeriodEnd a = sb_CurrentPeriodEnd b ∧
  sb_CancelAtPeriodEnd a = sb_CancelAtPeriodEnd b ∧ sb_UpdatedAt a = sb_UpdatedAt b.
Definition same_reply (c : store_call) (a b : Reply) : Prop :=
  match a, b with
  | RUsers l, RUsers l' => l ≡ₚ l'
  | ROrgs l, ROrgs l' => l ≡ₚ l'
  | RMembers l, RMembers l' => l ≡ₚ l'
  | RKeys l, RKeys l' => l ≡ₚ l'
  | RSubs l, RSubs l' => l ≡ₚ l'
  | RDomains l, RDomains l' => l ≡ₚ l'
  | RSessions l, RSessions l' => l ≡ₚ l'
  | RMetered u, RMetered u' => same_metered u u'
  | RPending l, RPending l' => Forall2 same_metered l l'
  | RSubscription s, RSubscription s' => match c with CDo _ => same_upsert s s' | _ => s = s' end
  | _, _ => a = b
  end.
Definition same_error (e : PgErr) (e' : StoreErr) : Prop :=
  match e' with ErrNotFound => e = PNotFound | ErrConflict => e = PConflict ∨ e = PSql unique_violation end.
Definition same_answer (c : store_call) (r : result PgErr Reply) (r' : result StoreErr Reply) : Prop :=
  match r, r' with Ok a, Ok b => same_reply c a b | Err e, Err e' => same_error e e' | _, _ => False end.
End calls.

(** ** What the two sides agree on
    The ids given to new rows are free, the rows they refer to exist, times are whole
    microseconds, sums fit into an int64; beyond that, where the two implementations
    differ: an address is not spelled with other capitals than a known one, names are
    given in small letters, an org is not created with an expiry, a grant does not end at
    the zero time, subscriptions have a Stripe id of their own and are not created
    under an id but written back under the one they have, a subscription that has been replaced is not deleted, a customer
    belongs to one org, pages hold all rows, a search has no wildcards, and a limit is
    given for the pending usage. *)
Definition sums_fit (l : list UsageRecord) : Prop :=
  Forall (λ u, 0 <= ur_BytesIn u ∧ 0 <= ur_BytesOut u ∧ 0 <= ur_Requests u) l ∧
  in64 (sum_of ur_BytesIn l) ∧ in64 (sum_of ur_BytesOut l) ∧ in64 (sum_of ur_Requests l).
Definition plain_char (a : ascii) : bool := negb (Ascii.eqb a "%" || Ascii.eqb a "_" || Ascii.eqb a "\").
Definition or_default (limit def : Z) : Z := if limit <=? 0 then def else limit.
Definition org_known (m : MemStore) (org : string) : Prop := is_Some (orgs m !! org).

Definition agreed_op (d : Db) (m : MemStore) (o : store_op) : Prop :=
  match o with
  | SCreateUser now rnd u => users m !! or_id (us_ID u) "user" rnd = None ∧ whole (or_now (us_CreatedAt u) now) ∧
      ∀ id v, users m !! id = Some v → ToLower (us_Email v) = ToLower (us_Email u) → us_Email v = us_Email u
  | SCreateOrg now rnd o => orgs m !! or_id (og_ID o) "org" rnd = None ∧ whole (or_now (og_CreatedAt o) now) ∧ og_PlanExpiresAt o = None
  | SSetOrgPlan _ _ exp => ∀ t, exp = Some t → whole t ∧ t ≠ 0
  | SAddOrgMember e => org_known m (om_OrgID e) ∧ is_Some (users m !! om_UserID e)
  | SCreateAPIKey now rnd k => keys m !! or_id (ak_ID k) "key" rnd = None ∧ whole (or_now (ak_CreatedAt k) now) ∧
      org_known m (ak_OrgID k) ∧ ak_LastUsedAt k = None ∧ ak_RevokedAt k = None
  | STouchAPIKey _ at_ | SRevokeAPIKey _ _ at_ | SVerifyCustomDomain _ _ at_ | SCloseTunnelSession _ _ _ at_ _ _ _
  | SMarkMeteredUsageReported _ at_ => whole at_
  | SReserveSubdomain now rnd s => subs m !! or_id (rs_ID s) "sub" rnd = None ∧ whole (or_now (rs_CreatedAt s) now) ∧
      org_known m (rs_OrgID s) ∧ lowered (rs_Subdomain s)
  | SAddCustomDomain now rnd x => domains m !! or_id (cd_ID x) "dom" rnd = None ∧ whole (or_now (cd_CreatedAt x) now) ∧
      org_known m (cd_OrgID x) ∧ lowered (cd_Domain x) ∧ cd_VerifiedAt x = None
  | SUpsertUsage u => org_known m (ur_OrgID u) ∧ whole (ur_WindowStart u) ∧ whole (ur_WindowEnd u)
  | SRecordTunnelOpen now rnd s => org_known m (ts_OrgID s) ∧ whole (or_now (ts_StartedAt s) now) ∧
      - 2 ^ 31 <= ts_Port s < 2 ^ 31 ∧ fresh_session s ∧ or_id (ts_ID s) "tun" rnd ∉ map ts_ID (history m)
  | SUpsertSubscription now rnd s =>
      (sb_ID s = "" ∧ sb_CreatedAt s = 0 ∨
       ∃ e, subsByOrg m !! sb_OrgID s = Some e ∧ sb_ID s = sb_ID e ∧ sb_CreatedAt s = sb_CreatedAt e) ∧ now ≠ 0 ∧ whole now ∧ whole (sb_CurrentPeriodEnd s) ∧
      sb_StripeSubID s ≠ "" ∧ org_known m (sb_OrgID s) ∧
      ∀ org e, subsByOrg m !! org = Some e → sb_ID e ≠ NewID "sub" rnd ∧ (sb_StripeSubID e = sb_StripeSubID s → org = sb_OrgID s)
  | SDeleteSubscription id => ∀ org, subsByStripe m !! id = Some org → ∃ s, subsByOrg m !! org = Some s ∧ sb_StripeSubID s = id
  | SInsertMeteredUsage now u => org_known m (mu_OrgID u) ∧ whole (mu_WindowStart u) ∧ whole (mu_WindowEnd u) ∧
      whole (or_now (mu_CreatedAt u) now) ∧ mu_ReportedAt u = None ∧ meteredSeq m + 1 < 2 ^ 63 ∧ s_metered_usage_id d + 1 < 2 ^ 63
  | _ => True
  end.
Definition agreed (d : Db) (m : MemStore) (c : store_call) : Prop :=
  match c with
  | CDo o => agreed_op d m o
  | CUsageForOrg _ _ since | CUsageSeriesForOrg _ since _ => whole since ∧ sums_fit (usage_ m)
  | CListTunnelSessions f => tf_Offset f = 0 ∧ Z.of_nat (length (history m)) <= or_default (tf_Limit f) 100
  | CAdminOverview now => whole now ∧ sums_fit (usage_ m)
  | CListUsers limit offset search => offset = 0 ∧ Z.of_nat (size (users m)) <= or_default limit 50 ∧
      all_chars plain_char (TrimSpace search) = true
  | CListOrgs limit offset _ => offset = 0 ∧ Z.of_nat (size (orgs m)) <= or_default limit 50
  | CGetOrgByStripeCustomer customer => ∀ i j o o', orgs m !! i = Some o → orgs m !! j = Some o' →
      og_StripeCustomerID o = customer → og_StripeCustomerID o' = customer → i = j
  | CPendingMeteredUsage limit => 0 < limit
  | _ => True
  end.

(** The rows named by serial numbers, by their serial numbers in memory. *)
Fixpoint mem_ids (ids : list Z) (l l' : list MeteredUsage) : list Z :=
  match l, l' with
  | u :: l, u' :: l' => if bool_decide (mu_ID u ∈ ids) then mu_ID u' :: mem_ids ids l l' else mem_ids ids l l'
  | _, _ => []
  end.
Definition translate_op (d : Db) (m : MemStore) (o : store_op) : store_op :=
  match o with
  | SMarkMeteredUsageReported ids at_ => SMarkMeteredUsageReported (mem_ids ids (t_metered_usage d) (metered m)) at_
  | o => o
  end.
Definition translate (d : Db) (m : MemStore) (c : store_call) : store_call :=
  match c with CDo o => CDo (translate_op d m o) | c => c end.

Lemma reply_snd {S E A} (f : A → Reply) (c : M S E A) s : (reply f c s).2 = (c s).2.
Proof. unfold reply. by destruct (c s) as [[a|e] s']. Qed.

#[local] Arguments update_where : simpl never.
#[local] Arguments delete_where : simpl never.
#[local] Arguments select : simpl never.
#[local] Arguments count : simpl never.
#[local] Arguments has : simpl never.
#[local] Arguments insert_row : simpl never.

(** * Statements of the operations on a working connection *)
Lemma with_err_quiet {A} g (f : Stmt A) d : with_err g (statement f) (quiet d) =
  (match (f d).1 with Ok a => Ok a | Err e => Err (g e) end, quiet (f d).2).
Proof. unfold with_err. rewrite statement_quiet. by destruct (f d) as [[a|e] d']. Qed.
Lemma execOne_quiet f d : execOne f (quiet d) =
  (match (f d).1 with Ok n => if n =? 0 then Err PNotFound else Ok tt | Err e => Err (PSql e) end, quiet (f d).2).
Proof. unfold execOne. rewrite statement_quiet. destruct (f d) as [[n|e] d']; [|done]. cbn. by destruct (n =? 0). Qed.

Section simulation.
  Context (go sql : RangeOrder) (date_trunc : string → Time → Time).
  Context (Hutc : ∀ t bucket, bucket = "hour" ∨ bucket = "day" → date_trunc bucket t = truncateTo t bucket).

(** Both sides answer alike and stay related. *)
Definition sim (c : store_call) (d : Db) (m : MemStore) : Prop :=
  let '(r, c') := pg_call date_trunc (H := sql) c (quiet d) in
  let '(r', m') := mem_call (H := go) (translate d m c) m in
  same_answer c r r' ∧ c' = quiet (cn_db c') ∧ rel (cn_db c') m'.

Lemma mem_call_do o m : (mem_call (H := go) (CDo o) m).2 = store_exec m o.
Proof. destruct o; apply reply_snd. Qed.
Lemma agreed_fresh d m o : rel d m → agreed_op d m o → fresh_id m o.
Proof. intros _. destruct o; cbn; naive_solver. Qed.
Lemma ok_after d m o : rel d m → agreed_op d m o → store_ok (store_exec m o).
Proof. intros Hr Ha. apply store_exec_ok; [by eapply rel_ok|by eapply agreed_fresh]. Qed.
Lemma org_exists_known d m org : rel d m → org_known m org → org_exists org d = true.
Proof.
  intros Hr [o Ho]. unfold org_exists. apply bool_decide_eq_true. rewrite <-(rel_orgs _ _ Hr), lookup_fmap in Ho.
  destruct (t_orgs d !! org); [by eexists|done].
Qed.
(** UPDATE and DELETE of the row with an id. *)
Section one_row.
  Context {V : Type} (tbl : Db → gmap string V) (put_ : gmap string V → Db → Db) (p : string → V → bool) (id : string) (q : V → bool).
  Context (Hp : ∀ k v, p k v = String.eqb k id && q v) (Hput : ∀ d, put_ (tbl d) d = d).
Lemma exec_update f d : execOne (modify_table (λ d, update_where p f (tbl d)) put_) (quiet d) =
  match tbl d !! id with
  | Some v => if q v then (Ok tt, quiet (put_ (<[id := f v]> (tbl d)) d)) else (Err PNotFound, quiet d)
  | None => (Err PNotFound, quiet d)
  end.
Proof.
  rewrite execOne_quiet. unfold modify_table. rewrite (update_key p id q Hp (H := sql)).
  destruct (tbl d !! id) as [v|]; [destruct (q v)|]; cbn; by rewrite ?Hput.
Qed.
Lemma exec_delete d : execOne (modify_table (λ d, delete_where p (tbl d)) put_) (quiet d) =
  match tbl d !! id with
  | Some v => if q v then (Ok tt, quiet (put_ (delete id (tbl d)) d)) else (Err PNotFound, quiet d)
  | None => (Err PNotFound, quiet d)
  end.
Proof.
  rewrite execOne_quiet. unfold modify_table. rewrite (delete_key p id q Hp (H := sql)).
  destruct (tbl d !! id) as [v|]; [destruct (q v)|]; cbn; by rewrite ?Hput.
Qed.
End one_row.

Ltac eta := intros []; reflexivity.
Ltac sides := unfold sim; cbn [pg_call mem_call translate translate_op]; unfold reply.
Ltac keep Hr Hok := split; cbn; try apply Hr; try exact Hok; try done.
Ltac ok_of Hr Ha o := pose proof (ok_after _ _ o Hr Ha) as Hok; cbn in Hok.

Lemma or_keep_is new old : or_keep new old = if negb (String.eqb new "") then new else old.
Proof. unfold or_keep, nullStr. by destruct (String.eqb new ""). Qed.

Lemma raw_insert {T} (f : Db → result SqlErr T) put_ d : raw (insert_into f put_) (quiet d) =
  match f d with Ok t => (Ok tt, quiet (put_ t d)) | Err e => (Err (PSql e), quiet d) end.
Proof. unfold raw. rewrite with_err_quiet. unfold insert_into. by destruct (f d). Qed.
Lemma conflict_insert {T} (f : Db → result SqlErr T) put_ d : or_conflict (insert_into f put_) (quiet d) =
  match f d with Ok t => (Ok tt, quiet (put_ t d)) | Err e => (Err (if isUniqueViolation e then PConflict else PSql e), quiet d) end.
Proof. unfold or_conflict. rewrite with_err_quiet. unfold insert_into. by destruct (f d). Qed.
Lemma unique_is_conflict : isUniqueViolation unique_violation = true.
Proof. vm_compute. reflexivity. Qed.

(** ** Users and orgs *)
Lemma sim_create_user now rnd u d m : rel d m → agreed_op d m (SCreateUser now rnd u) → sim (CDo (SCreateUser now rnd u)) d m.
Proof.
  intros Hr Ha. sides. ok_of Hr Ha (SCreateUser now rnd u). destruct Ha as (Hid & Hw & Hcase).
  pose proof (so_users _ (rel_ok _ _ Hr)) as Hix. unfold pg_CreateUser, CreateUser in *. cbn zeta in *. unfold mbind, M_bind.
  rewrite raw_insert. rewrite (rel_users _ _ Hr). cbn [us_ID us_Email us_CreatedAt us_Name us_AvatarURL us_OAuthProvider].
  rewrite timestamptz_whole by done.
  destruct (usersEmail m !! ToLower (us_Email u)) as [id|] eqn:He.
  - apply Hix in He as (v & Hv & Hn). rewrite insert_row_dup.
    + cbn. split; [by right|]. by split.
    + apply has_true. exists id, v. split; [done|]. apply String.eqb_eq. by eapply Hcase.
  - rewrite insert_row_ok; [|done|].
    + cbn in Hok |- *. split; [done|]. split; [done|]. keep Hr Hok.
    + apply has_false. intros k v Hv. apply String.eqb_neq. intros Hn.
      assert (usersEmail m !! ToLower (us_Email u) = Some k) by (apply Hix; exists v; by rewrite Hn). congruence.
Qed.
Lemma sim_profile id name av d m : rel d m → sim (CDo (SUpdateUserProfile id name av)) d m.
Proof.
  intros Hr. sides. ok_of Hr I (SUpdateUserProfile id name av). unfold pg_UpdateUserProfile.
  rewrite (exec_update t_users put_users _ id (λ _, true) (by_id_key id)) by eta. rewrite (rel_users _ _ Hr).
  unfold UpdateUserProfile in *. destruct (users m !! id) as [u|] eqn:Hu; cbn in *; [|done].
  split; [done|]. split; [done|]. keep Hr Hok. by rewrite !or_keep_is.
Qed.

Lemma scan_org_lookup d m id : rel d m → orgs m !! id = scan_org <$> t_orgs d !! id.
Proof. intros Hr. by rewrite <-(rel_orgs _ _ Hr), lookup_fmap. Qed.
Lemma sim_create_org now rnd o d m : rel d m → agreed_op d m (SCreateOrg now rnd o) → sim (CDo (SCreateOrg now rnd o)) d m.
Proof.
  intros Hr Ha. sides. ok_of Hr Ha (SCreateOrg now rnd o). destruct Ha as (Hid & Hw & Hexp).
  unfold pg_CreateOrg, CreateOrg in *. cbn zeta in *. unfold mbind, M_bind. rewrite raw_insert.
  cbn [og_ID og_Name og_Plan og_StripeCustomerID og_CreatedAt og_PlanExpiresAt]. rewrite timestamptz_whole by done.
  rewrite (scan_org_lookup _ _ _ Hr), fmap_None in Hid. rewrite insert_row_ok; [|done|by apply has_false].
  cbn in Hok |- *. split; [done|]. split; [done|]. keep Hr Hok.
  rewrite fmap_insert, (rel_orgs _ _ Hr). f_equal. unfold scan_org, nullStr. cbn. rewrite Hexp. f_equal.
  by destruct (String.eqb_spec (og_StripeCustomerID o) "").
Qed.
(** An update of an org by its id. *)
Lemma org_update orgID f g d m : rel d m → (∀ r, scan_org (f r) = g (scan_org r)) → store_ok (update_org orgID g m).2 →
  let '(r, c) := execOne (modify_table (λ d, update_where (by_id orgID) f (t_orgs d)) put_orgs) (quiet d) in
  let '(r', m') := update_org orgID g m in
  match r, r' with Ok _, Ok _ => True | Err e, Err e' => same_error e e' | _, _ => False end ∧ c = quiet (cn_db c) ∧ rel (cn_db c) m'.
Proof.
  intros Hr Hfg Hok. rewrite (exec_update t_orgs put_orgs _ orgID (λ _, true) (by_id_key orgID)) by eta.
  unfold update_org in *. rewrite (scan_org_lookup _ _ _ Hr) in *. destruct (t_orgs d !! orgID) as [r|] eqn:Ho; cbn in *; [|done].
  split; [done|]. split; [done|]. keep Hr Hok. by rewrite fmap_insert, (rel_orgs _ _ Hr), Hfg.
Qed.
Ltac org_call Hr Hok :=
  match goal with |- context [update_where (by_id ?id) ?f] => match goal with |- context [update_org id ?g] =>
    generalize (org_update id f g _ _ Hr (λ _, eq_refl) Hok) end end;
  destruct (execOne _ _) as [[?|?] ?]; destruct (update_org _ _ _) as [[?|?] ?]; naive_solver.
Lemma sim_update_plan org plan d m : rel d m → sim (CDo (SUpdateOrgPlan org plan)) d m.
Proof. intros Hr. sides. ok_of Hr I (SUpdateOrgPlan org plan). unfold pg_UpdateOrgPlan, UpdateOrgPlan in *. org_call Hr Hok. Qed.
Lemma sim_customer org c d m : rel d m → sim (CDo (SSetOrgStripeCustomer org c)) d m.
Proof. intros Hr. sides. ok_of Hr I (SSetOrgStripeCustomer org c). unfold pg_SetOrgStripeCustomer, SetOrgStripeCustomer in *. org_call Hr Hok. Qed.
Lemma sim_set_plan org plan exp d m : rel d m → agreed_op d m (SSetOrgPlan org plan exp) → sim (CDo (SSetOrgPlan org plan exp)) d m.
Proof.
  intros Hr Ha. sides. ok_of Hr Ha (SSetOrgPlan org plan exp). cbn in Ha. unfold pg_SetOrgPlan, SetOrgPlan in *. cbv zeta.
  assert (timestamptz <$> (exp ≫= nullTime) = exp) as ->.
  { destruct exp as [t|]; [|done]. destruct (Ha t eq_refl) as [Hw Hz]. cbn. unfold nullTime, IsZero.
    destruct (Z.eqb_spec t 0); [done|]. cbn. by rewrite timestamptz_whole. }
  org_call Hr Hok.
Qed.

Lemma elem_of_members d m e : rel d m → e ∈ members m ↔ t_org_members d !! (om_OrgID e, om_UserID e) = Some (om_Role e).
Proof.
  intros Hr. rewrite <-(rel_members _ _ Hr), list_elem_of_fmap. split.
  - intros ([[o u] r] & -> & Hin). by apply elem_of_map_to_list in Hin.
  - intros Hin. exists (om_OrgID e, om_UserID e, om_Role e). split; [by destruct e|by apply elem_of_map_to_list].
Qed.
Lemma sim_member e d m : rel d m → agreed_op d m (SAddOrgMember e) → sim (CDo (SAddOrgMember e)) d m.
Proof.
  intros Hr Ha. sides. ok_of Hr Ha (SAddOrgMember e). destruct Ha as [Ho Hu]. unfold pg_AddOrgMember, AddOrgMember in *.
  rewrite raw_insert, (org_exists_known d m _ Hr Ho). unfold user_exists. rewrite (rel_users _ _ Hr), (bool_decide_eq_true_2 _ Hu). cbn [andb].
  destruct (find_first _ _) as [x|] eqn:Hf.
  - apply find_first_Some in Hf as [Hx Hp]. apply (elem_of_members _ _ _ Hr) in Hx.
    apply andb_true_iff in Hp as [Ho'%String.eqb_eq Hu'%String.eqb_eq]. rewrite Ho', Hu' in Hx.
    unfold insert_row. rewrite bool_decide_eq_true_2; [cbn; split; [by right|by split]|].
    by exists (om_Role x).
  - assert (Hnone : t_org_members d !! (om_OrgID e, om_UserID e) = None).
    { destruct (t_org_members d !! _) as [r|] eqn:Hl; [|done]. rewrite find_first_None in Hf.
      specialize (Hf {| om_OrgID := om_OrgID e; om_UserID := om_UserID e; om_Role := r |}). cbn in Hf. rewrite !String.eqb_refl in Hf.
      discriminate Hf. by apply (elem_of_members _ _ _ Hr). }
    rewrite insert_row_ok; [|done|by apply has_false]. cbn in Hok |- *. split; [done|]. split; [done|]. keep Hr Hok.
    rewrite map_to_list_insert by done. cbn. rewrite (rel_members _ _ Hr). replace (scan_member _) with e by (by destruct e).
    by rewrite Permutation_app_comm.
Qed.

(** ** Keys and names *)
Lemma sim_create_key now rnd k d m : rel d m → agreed_op d m (SCreateAPIKey now rnd k) → sim (CDo (SCreateAPIKey now rnd k)) d m.
Proof.
  intros Hr Ha. sides. ok_of Hr Ha (SCreateAPIKey now rnd k). destruct Ha as (Hid & Hw & Ho & Hlast & Hrev).
  pose proof (so_keys _ (rel_ok _ _ Hr)) as Hix. unfold pg_CreateAPIKey, CreateAPIKey in *. cbn zeta in *. unfold mbind, M_bind.
  rewrite raw_insert. cbn [ak_ID ak_OrgID ak_Name ak_Prefix ak_Hash ak_LastUsedAt ak_RevokedAt ak_CreatedAt] in *.
  rewrite timestamptz_whole, (org_exists_known d m _ Hr Ho), (rel_keys _ _ Hr) by done.
  destruct (keyPrefix m !! ak_Prefix k) as [id|] eqn:He.
  - rewrite insert_row_dup; [cbn; split; [by right|by split]|]. erewrite (has_index ak_Prefix); [|done|done]. by rewrite He.
  - rewrite insert_row_ok; [|done|erewrite (has_index ak_Prefix); [by rewrite He|done|done]].
    cbn in Hok |- *. split; [done|]. split; [done|]. rewrite Hlast, Hrev in *. keep Hr Hok.
Qed.
Lemma sim_touch id at_ d m : rel d m → agreed_op d m (STouchAPIKey id at_) → sim (CDo (STouchAPIKey id at_)) d m.
Proof.
  intros Hr Ha. sides. ok_of Hr Ha (STouchAPIKey id at_). cbn in Ha. unfold pg_TouchAPIKey.
  rewrite (exec_update t_api_keys put_keys _ id (λ _, true) (by_id_key id)) by eta.
  rewrite timestamptz_whole, (rel_keys _ _ Hr) by done. unfold TouchAPIKey in *.
  destruct (keys m !! id) as [k|] eqn:Hk; cbn in *; [|done]. split; [done|]. split; [done|]. keep Hr Hok.
Qed.
Lemma sim_revoke id org at_ d m : rel d m → agreed_op d m (SRevokeAPIKey id org at_) → sim (CDo (SRevokeAPIKey id org at_)) d m.
Proof.
  intros Hr Ha. sides. ok_of Hr Ha (SRevokeAPIKey id org at_). cbn in Ha. unfold pg_RevokeAPIKey.
  rewrite (exec_update t_api_keys put_keys _ id (λ k, String.eqb (ak_OrgID k) org)) by (done || eta).
  rewrite timestamptz_whole, (rel_keys _ _ Hr) by done. unfold RevokeAPIKey in *.
  destruct (keys m !! id) as [k|] eqn:Hk; cbn in *; [|done]. destruct (String.eqb (ak_OrgID k) org); cbn in *; [|done].
  split; [done|]. split; [done|]. keep Hr Hok.
Qed.
Lemma sim_reserve now rnd s d m : rel d m → agreed_op d m (SReserveSubdomain now rnd s) → sim (CDo (SReserveSubdomain now rnd s)) d m.
Proof.
  intros Hr Ha. sides. ok_of Hr Ha (SReserveSubdomain now rnd s). destruct Ha as (Hid & Hw & Ho & Hlow).
  pose proof (so_subs _ (rel_ok _ _ Hr)) as Hix. unfold pg_ReserveSubdomain, ReserveSubdomain in *. cbn zeta in *. unfold mbind, M_bind.
  rewrite conflict_insert. cbn [rs_ID rs_OrgID rs_Subdomain rs_CreatedAt] in *.
  unfold lowered in Hlow. rewrite timestamptz_whole, (org_exists_known d m _ Hr Ho), (rel_subs _ _ Hr), !Hlow in * by done.
  destruct (subByName m !! rs_Subdomain s) as [id|] eqn:He.
  - rewrite insert_row_dup; [rewrite unique_is_conflict; cbn; split; [by left|by split]|].
    erewrite (has_index rs_Subdomain); [|done|done]. by rewrite He.
  - rewrite insert_row_ok; [|done|erewrite (has_index rs_Subdomain); [by rewrite He|done|done]].
    cbn in Hok |- *. split; [done|]. split; [done|]. keep Hr Hok.
Qed.
Lemma sim_release id org d m : rel d m → sim (CDo (SReleaseSubdomain id org)) d m.
Proof.
  intros Hr. sides. ok_of Hr I (SReleaseSubdomain id org). unfold pg_ReleaseSubdomain.
  rewrite (exec_delete t_reserved_subdomains put_subdomains _ id (λ s, String.eqb (rs_OrgID s) org)) by (done || eta).
  rewrite (rel_subs _ _ Hr). unfold ReleaseSubdomain in *.
  destruct (subs m !! id) as [s|] eqn:Hs; cbn in *; [|done]. destruct (String.eqb (rs_OrgID s) org); cbn in *; [|done].
  split; [done|]. split; [done|]. keep Hr Hok.
Qed.
Lemma sim_add_domain now rnd x d m : rel d m → agreed_op d m (SAddCustomDomain now rnd x) → sim (CDo (SAddCustomDomain now rnd x)) d m.
Proof.
  intros Hr Ha. sides. ok_of Hr Ha (SAddCustomDomain now rnd x). destruct Ha as (Hid & Hw & Ho & Hlow & Hv).
  pose proof (so_domains _ (rel_ok _ _ Hr)) as Hix. unfold pg_AddCustomDomain, AddCustomDomain in *. cbn zeta in *. unfold mbind, M_bind.
  rewrite conflict_insert. cbn [cd_ID cd_OrgID cd_Domain cd_VerifyToken cd_VerifiedAt cd_CertStatus cd_CreatedAt] in *.
  unfold lowered in Hlow. rewrite timestamptz_whole, (org_exists_known d m _ Hr Ho), (rel_domains _ _ Hr), !Hlow in * by done.
  destruct (domByName m !! cd_Domain x) as [id|] eqn:He.
  - rewrite insert_row_dup; [rewrite unique_is_conflict; cbn; split; [by left|by split]|].
    erewrite (has_index cd_Domain); [|done|done]. by rewrite He.
  - rewrite insert_row_ok; [|done|erewrite (has_index cd_Domain); [by rewrite He|done|done]].
    cbn in Hok |- *. split; [done|]. split; [done|]. rewrite Hv in *. keep Hr Hok.
Qed.
Lemma sim_verify id org at_ d m : rel d m → agreed_op d m (SVerifyCustomDomain id org at_) → sim (CDo (SVerifyCustomDomain id org at_)) d m.
Proof.
  intros Hr Ha. sides. ok_of Hr Ha (SVerifyCustomDomain id org at_). cbn in Ha. unfold pg_VerifyCustomDomain.
  rewrite (exec_update t_custom_domains put_domains _ id (λ x, String.eqb (cd_OrgID x) org)) by (done || eta).
  rewrite timestamptz_whole, (rel_domains _ _ Hr) by done. unfold VerifyCustomDomain in *.
  destruct (domains m !! id) as [x|] eqn:Hx; cbn in *; [|done]. destruct (String.eqb (cd_OrgID x) org); cbn in *; [|done].
  split; [done|]. split; [done|]. keep Hr Hok.
Qed.
Lemma sim_usage u d m : rel d m → agreed_op d m (SUpsertUsage u) → sim (CDo (SUpsertUsage u)) d m.
Proof.
  intros Hr Ha. sides. ok_of Hr Ha (SUpsertUsage u). destruct Ha as (Ho & Hs & He). unfold pg_UpsertUsage. cbn zeta.
  rewrite raw_insert, (org_exists_known d m _ Hr Ho), !timestamptz_whole by done. cbn in Hok |- *.
  split; [done|]. split; [done|]. keep Hr Hok. rewrite (rel_usage _ _ Hr). by destruct u.
Qed.

(** ** Tunnel history *)
Lemma rows_insert {V} (t : gmap string V) k v : t !! k = None → rows (<[k := v]> t) ≡ₚ v :: rows t.
Proof. intros Hk. unfold rows. by rewrite map_to_list_insert. Qed.
Lemma rows_take {V} (t : gmap string V) k v : t !! k = Some v → rows t ≡ₚ v :: rows (delete k t).
Proof. intros Hk. rewrite <-(insert_delete_id t k v) at 1 by done. apply rows_insert, lookup_delete_eq. Qed.
Lemma rows_replace {V} (t : gmap string V) k v w l1 l2 : t !! k = Some v → rows t ≡ₚ l1 ++ v :: l2 → rows (<[k := w]> t) ≡ₚ l1 ++ w :: l2.
Proof.
  intros Hk Hp. rewrite <-insert_delete_eq, rows_insert by apply lookup_delete_eq. rewrite (rows_take _ _ _ Hk) in Hp.
  rewrite <-Permutation_middle in Hp |- *. by apply Permutation_cons_inv in Hp as ->.
Qed.
Lemma elem_of_rows {V} (t : gmap string V) v : v ∈ rows t ↔ ∃ k, t !! k = Some v.
Proof.
  unfold rows. rewrite list_elem_of_fmap. split.
  - intros ([k w] & -> & Hw%elem_of_map_to_list). eauto.
  - intros [k Hk]. exists (k, v). split; [done|by apply elem_of_map_to_list].
Qed.
Lemma history_row d m s : rel d m → s ∈ history m ↔ t_tunnel_sessions d !! ts_ID s = Some s.
Proof.
  intros Hr. rewrite <-(rel_sessions _ _ Hr), elem_of_rows. split; [|by eauto].
  intros [k Hk]. pose proof (rel_session_ids _ _ Hr k s Hk) as <-. done.
Qed.
Lemma live_unique d m e se t k v k' v' : rel d m → t_tunnel_sessions d !! k = Some v → t_tunnel_sessions d !! k' = Some v' →
  live_instance e se t k v = true → live_instance e se t k' v' = true → k' = k.
Proof.
  intros Hr Hk Hk' [Hm Ha]%andb_true_iff [Hm' Ha']%andb_true_iff.
  assert (Hin : ∀ k v, t_tunnel_sessions d !! k = Some v → active v = true → v ∈ List.filter active (history m)).
  { intros k0 v0 H0 Hac. apply elem_of_filter'. split; [|done]. apply (history_row _ _ _ Hr). by rewrite (rel_session_ids _ _ Hr k0 v0 H0). }
  assert (v' = v) as ->.
  { eapply (nodup_map_inj hkey); [apply (so_active _ (rel_ok _ _ Hr))|by eapply Hin|by eapply Hin|].
    apply tunnelKeyMatch_spec in Hm, Hm'. congruence. }
  rewrite <-(rel_session_ids _ _ Hr k v Hk). by rewrite (rel_session_ids _ _ Hr k' v Hk').
Qed.
Lemma replace_active_Some s started l r l' : replace_active s started l = Some (r, l') →
  ∃ l1 e l2, l = l1 ++ e :: l2 ∧ l' = l1 ++ r :: l2 ∧ r = open_row s (ts_ID e) started ∧
    tunnelKeyMatch e (ts_EdgeID s) (ts_SessionID s) (ts_TunnelID s) && active e = true.
Proof.
  revert l'. induction l as [|e l IH]; intros l'; cbn [replace_active]; [done|]. destruct (_ && active e) eqn:Hc.
  - intros [= <- <-]. by exists [], e, l.
  - intros ([r' l1] & Hx & [= -> <-])%bind_Some. destruct (IH _ Hx) as (a & x & b & -> & -> & Hrest). by exists (e :: a), x, b.
Qed.
Lemma replace_active_None s started l : replace_active s started l = None →
  ∀ e, e ∈ l → tunnelKeyMatch e (ts_EdgeID s) (ts_SessionID s) (ts_TunnelID s) && active e = false.
Proof.
  induction l as [|x l IH]; cbn [replace_active]; [intros _ e He; by apply not_elem_of_nil in He|].
  destruct (_ && active x) eqn:Hc; [done|]. intros Hn e [->|He]%elem_of_cons; [done|]. apply IH; [|done].
  destruct (replace_active s started l) as [[? ?]|]; [done|done].
Qed.
Lemma close_first_Some key f l l' : close_first key f l = Some l' → ∃ l1 e l2, l = l1 ++ e :: l2 ∧ l' = l1 ++ f e :: l2 ∧ key e = true.
Proof.
  revert l'. induction l as [|e l IH]; intros l'; cbn [close_first]; [done|]. destruct (key e) eqn:Hc.
  - intros [= <-]. by exists [], e, l.
  - intros (l1 & Hx & [= <-])%bind_Some. destruct (IH _ Hx) as (a & x & b & -> & -> & Hrest). by exists (e :: a), x, b.
Qed.
Lemma close_first_None key f l : close_first key f l = None → ∀ e, e ∈ l → key e = false.
Proof.
  induction l as [|x l IH]; cbn [close_first]; [intros _ e He; by apply not_elem_of_nil in He|].
  destruct (key x) eqn:Hc; [done|]. intros Hn e [->|He]%elem_of_cons; [done|]. apply IH; [|done].
  by destruct (close_first key f l).
Qed.
(** The statement on an instance that is live, and on one that is not. *)
Lemma live_row d m e se t x : rel d m → x ∈ history m → tunnelKeyMatch x e se t && active x = true →
  t_tunnel_sessions d !! ts_ID x = Some x ∧ select (H := sql) (live_instance e se t) (t_tunnel_sessions d) = [x] ∧
  ∀ f, update_where (live_instance e se t) f (t_tunnel_sessions d) = (1, <[ts_ID x := f x]> (t_tunnel_sessions d)).
Proof.
  intros Hr Hx Hl. apply (history_row _ _ _ Hr) in Hx. split; [done|]. split; [|intros f].
  - apply (select_unique _ _ (ts_ID x)); [done|done|]. intros k' v' Hk' Hl'. exact (live_unique _ _ _ _ _ _ _ _ _ Hr Hx Hk' Hl Hl').
  - apply (update_unique (H := sql)); [done|done|]. intros k' v' Hk' Hl'. exact (live_unique _ _ _ _ _ _ _ _ _ Hr Hx Hk' Hl Hl').
Qed.
Lemma no_live_row d m e se t : rel d m → (∀ x, x ∈ history m → tunnelKeyMatch x e se t && active x = false) →
  ∀ k v, t_tunnel_sessions d !! k = Some v → live_instance e se t k v = false.
Proof.
  intros Hr Hn k v Hk. apply Hn. apply (history_row _ _ _ Hr). by rewrite (rel_session_ids _ _ Hr k v Hk).
Qed.
Lemma key_fields x e se t : tunnelKeyMatch x e se t && active x = true →
  ts_EdgeID x = e ∧ ts_SessionID x = se ∧ ts_TunnelID x = t ∧ ts_Status x = "active".
Proof. intros [Hk Ha%String.eqb_eq]%andb_true_iff. apply tunnelKeyMatch_spec in Hk. unfold hkey in Hk. naive_solver. Qed.

Lemma sim_open now rnd s d m : rel d m → agreed_op d m (SRecordTunnelOpen now rnd s) → sim (CDo (SRecordTunnelOpen now rnd s)) d m.
Proof.
  intros Hr Ha. sides. ok_of Hr Ha (SRecordTunnelOpen now rnd s). destruct Ha as (Ho & Hw & Hport & (Hbi & Hbo & Hrq & Hend) & Hid).
  unfold pg_RecordTunnelOpen, RecordTunnelOpen in *. cbv zeta in *. unfold mbind, M_bind, raw. rewrite with_err_quiet. unfold upsert_session.
  cbn [with_session ts_Port ts_OrgID ts_EdgeID ts_SessionID ts_TunnelID ts_ID ts_StartedAt].
  unfold int4. replace ((- 2 ^ 31 <=? ts_Port s) && (ts_Port s <? 2 ^ 31)) with true by lia.
  rewrite (org_exists_known d m _ Hr Ho). cbn [negb].
  destruct (replace_active s _ (history m)) as [[r l]|] eqn:Hra.
  - apply replace_active_Some in Hra as (l1 & x & l2 & Hl & -> & -> & Hlive). assert (Hx : x ∈ history m) by (rewrite Hl; set_solver).
    destruct (live_row _ _ _ _ _ _ Hr Hx Hlive) as (Hk & -> & Hupd). rewrite Hupd.
    assert (Hrow : refresh_session (session_row (with_session (or_id (ts_ID s) "tun" rnd) (ts_Status s) (or_now (ts_StartedAt s) now) s)) x
              = open_row s (ts_ID x) (or_now (ts_StartedAt s) now)).
    { destruct (key_fields _ _ _ _ Hlive) as (He & Hse & Ht & Hst). apply andb_true_iff in Hlive as [_ Hac].
      pose proof (proj1 (list.Forall_forall _ _) (rel_session_fresh _ _ Hr) x Hx Hac) as (Hf1 & Hf2 & Hf3 & Hf4).
      unfold refresh_session, session_row, open_row, with_session. cbn. by rewrite timestamptz_whole, He, Hse, Ht, Hst, Hf1, Hf2, Hf3, Hf4, Hbi, Hbo, Hrq by done. }
    rewrite Hrow. cbn in Hok |- *. split; [unfold with_session, open_row; cbn; by rewrite Hend|]. split; [done|]. keep Hr Hok.
    + eapply rows_replace; [done|]. by rewrite <-Hl, (rel_sessions _ _ Hr).
    + apply map_Forall_insert_2; [done|apply Hr].
    + pose proof (rel_session_fresh _ _ Hr) as Hf. rewrite Hl, list.Forall_app, list.Forall_cons in Hf. rewrite list.Forall_app, list.Forall_cons.
      destruct Hf as (? & _ & ?). split; [done|]. split; [|done]. intros _. by split_and!.
  - pose proof (replace_active_None _ _ _ Hra) as Hn. rewrite (select_none _ _ (no_live_row _ _ _ _ _ Hr Hn)).
    assert (Hfree : t_tunnel_sessions d !! or_id (ts_ID s) "tun" rnd = None).
    { destruct (_ !! or_id _ _ _) as [y|] eqn:Hy; [|done]. destruct Hid. rewrite <-(rel_session_ids _ _ Hr _ _ Hy).
      apply list_elem_of_fmap_2, (history_row _ _ _ Hr). by rewrite (rel_session_ids _ _ Hr _ _ Hy). }
    rewrite insert_row_ok; [|done|by apply has_false]. cbn in Hok |- *.
    assert (Hrow : session_row (with_session (or_id (ts_ID s) "tun" rnd) (ts_Status s) (or_now (ts_StartedAt s) now) s) =
              open_row s (or_id (ts_ID s) "tun" rnd) (or_now (ts_StartedAt s) now)).
    { unfold session_row, open_row, with_session. cbn. by rewrite timestamptz_whole, Hbi, Hbo, Hrq by done. }
    rewrite Hrow. split; [unfold with_session, open_row; cbn; by rewrite Hend|]. split; [done|]. keep Hr Hok.
    + rewrite rows_insert, (rel_sessions _ _ Hr) by done. by rewrite Permutation_app_comm.
    + apply map_Forall_insert_2; [done|apply Hr].
    + apply list.Forall_app. split; [apply Hr|]. constructor; [|constructor]. intros _. by split_and!.
Qed.
Lemma sim_close e se t at_ i o r d m : rel d m → agreed_op d m (SCloseTunnelSession e se t at_ i o r) →
  sim (CDo (SCloseTunnelSession e se t at_ i o r)) d m.
Proof.
  intros Hr Ha. sides. ok_of Hr Ha (SCloseTunnelSession e se t at_ i o r). cbn in Ha.
  unfold pg_CloseTunnelSession, CloseTunnelSession in *. rewrite execOne_quiet. unfold modify_table. rewrite timestamptz_whole by done.
  destruct (close_first _ _ _) as [l|] eqn:Hc.
  - apply close_first_Some in Hc as (l1 & x & l2 & Hl & -> & Hlive). apply (f_equal (@rev _)) in Hl. rewrite rev_involutive in Hl.
    rewrite rev_app_distr in Hl. cbn in Hl. rewrite <-app_assoc in Hl. cbn in Hl.
    assert (Hx : x ∈ history m) by (rewrite Hl; set_solver). destruct (live_row _ _ _ _ _ _ Hr Hx Hlive) as (Hk & _ & Hupd). rewrite Hupd.
    rewrite rev_app_distr in *. cbn in Hok |- *. rewrite <-app_assoc in *. cbn in Hok |- *. split; [done|]. split; [done|]. keep Hr Hok.
    + eapply rows_replace; [done|]. by rewrite <-Hl, (rel_sessions _ _ Hr).
    + apply map_Forall_insert_2; [done|apply Hr].
    + pose proof (rel_session_fresh _ _ Hr) as Hf. rewrite Hl, list.Forall_app, list.Forall_cons in Hf. rewrite list.Forall_app, list.Forall_cons.
      destruct Hf as (? & _ & ?). split; [done|]. split; [|done]. by unfold active.
  - assert (Hn : ∀ x, x ∈ history m → tunnelKeyMatch x e se t && active x = false).
    { intros x Hx. apply (close_first_None _ _ _ Hc). by rewrite <-Permutation_rev. }
    rewrite (update_none (H := sql) _ _ _ (no_live_row _ _ _ _ _ Hr Hn)). cbn. split; [done|]. split; [done|].
    replace (put_sessions _ d) with d by (by destruct d). done.
Qed.

(** ** Subscriptions *)
Section subscriptions.
  Context (d : Db) (m : MemStore) (Hr : rel d m).
Lemma sub_row_of org s : subsByOrg m !! org = Some s → ∃ r, t_subscriptions d !! sb_ID s = Some r ∧ scan_subscription r = s ∧ sw_org_id r = org.
Proof. intros Hs. by apply (rel_sub_org _ _ Hr). Qed.
Lemma sub_same_id org e org' e' : subsByOrg m !! org = Some e → subsByOrg m !! org' = Some e' → sb_ID e = sb_ID e' → org = org'.
Proof. intros (r & Hk & _ & <-)%sub_row_of (r' & Hk' & _ & <-)%sub_row_of Hid. congruence. Qed.
Lemma sub_one_row org id r id' r' : t_subscriptions d !! id = Some r → t_subscriptions d !! id' = Some r' →
  sw_org_id r = org → sw_org_id r' = org → id' = id.
Proof.
  intros Hk Hk' <- Ho. apply (rel_sub_row _ _ Hr) in Hk as [<- Hs], Hk' as [<- Hs']. rewrite Ho, Hs in Hs'. injection Hs' as Hid _. congruence.
Qed.
Lemma sub_row_stripe id r : t_subscriptions d !! id = Some r → subsByStripe m !! sw_stripe_subscription_id r = Some (sw_org_id r).
Proof. intros Hk. apply (rel_sub_row _ _ Hr) in Hk as [_ Hs]. by apply (rel_sub_stripe _ _ Hr) in Hs as [_ Hs]. Qed.
(** A row put in the place of its org. *)
Lemma subs_put x s : scan_subscription x = s → sb_CreatedAt s ≠ 0 → sb_StripeSubID s ≠ "" →
  (∀ org e, subsByOrg m !! org = Some e → sb_ID e = sb_ID s ∨ sb_StripeSubID e = sb_StripeSubID s → org = sb_OrgID s) →
  (∀ e, subsByOrg m !! sb_OrgID s = Some e → sb_ID e = sb_ID s) →
  let t := <[sb_ID s := x]> (t_subscriptions d) in
  let byOrg := <[sb_OrgID s := s]> (subsByOrg m) in
  let byStripe := <[sb_StripeSubID s := sb_OrgID s]> (subsByStripe m) in
  (∀ id r, t !! id = Some r → sw_id r = id ∧ byOrg !! sw_org_id r = Some (scan_subscription r)) ∧
  (∀ org e, byOrg !! org = Some e → sb_CreatedAt e ≠ 0 ∧ ∃ r, t !! sb_ID e = Some r ∧ scan_subscription r = e ∧ sw_org_id r = org) ∧
  (∀ org e, byOrg !! org = Some e → sb_StripeSubID e ≠ "" ∧ byStripe !! sb_StripeSubID e = Some org).
Proof.
  intros Hx Hc Hs Hother Hsame t byOrg byStripe. split_and!.
  - intros id r [[<- <-]|[Hne Hk]]%lookup_insert_Some.
    + unfold byOrg. rewrite <-Hx. by rewrite lookup_insert_eq.
    + apply (rel_sub_row _ _ Hr) in Hk as [Hid Ho]. split; [done|]. unfold byOrg. rewrite lookup_insert_ne; [done|].
      intros He. rewrite <-He in Ho. apply Hsame in Ho. cbn in Ho. congruence.
  - intros org e [[<- <-]|[Hne He]]%lookup_insert_Some.
    + split; [done|]. exists x. unfold t. rewrite lookup_insert_eq. split; [done|]. split; [done|]. by rewrite <-Hx.
    + destruct (rel_sub_org _ _ Hr _ _ He) as (Hc' & r & Hk & Hrest). split; [done|]. exists r. split; [|done].
      unfold t. rewrite lookup_insert_ne; [done|]. intros Hid. destruct Hne. symmetry. eapply Hother; [exact He|by left].
  - intros org e [[<- <-]|[Hne He]]%lookup_insert_Some.
    + split; [done|]. unfold byStripe. by rewrite lookup_insert_eq.
    + destruct (rel_sub_stripe _ _ Hr _ _ He) as [Hs' Hst]. split; [done|]. unfold byStripe. rewrite lookup_insert_ne; [done|].
      intros Hid. destruct Hne. symmetry. eapply Hother; [exact He|by right].
Qed.
End subscriptions.
Lemma period_back t : whole t → default 0 (timestamptz <$> nullTime t) = t.
Proof. intros Hw. unfold nullTime, IsZero. destruct (Z.eqb_spec t 0) as [->|]; cbn; [done|by apply timestamptz_whole]. Qed.
Lemma or_now_set t now : t ≠ 0 → or_now t now = t.
Proof. intros Ht. unfold or_now, IsZero. by destruct (Z.eqb_spec t 0). Qed.

(** The row an upsert leaves in memory. *)
Definition upserted (id : string) (created now : Time) (s : Subscription) : Subscription :=
  {| sb_ID := id; sb_OrgID := sb_OrgID s; sb_StripeSubID := sb_StripeSubID s; sb_StripeCustomerID := sb_StripeCustomerID s;
     sb_Plan := sb_Plan s; sb_Status := sb_Status s; sb_CurrentPeriodEnd := sb_CurrentPeriodEnd s;
     sb_CancelAtPeriodEnd := sb_CancelAtPeriodEnd s; sb_CreatedAt := created; sb_UpdatedAt := now |}.
Definition put_subscription (s : Subscription) (m : MemStore) : MemStore :=
  set_subscriptions (<[sb_OrgID s := s]> (subsByOrg m)) (<[sb_StripeSubID s := sb_OrgID s]> (subsByStripe m)) m.
Lemma upsert_mem now rnd s m : sb_StripeSubID s ≠ "" →
  (sb_ID s = "" ∧ sb_CreatedAt s = 0 ∨ ∃ e, subsByOrg m !! sb_OrgID s = Some e ∧ sb_ID s = sb_ID e ∧ sb_CreatedAt s = sb_CreatedAt e) →
  (∀ e, subsByOrg m !! sb_OrgID s = Some e → sb_CreatedAt e ≠ 0) →
  UpsertSubscription now rnd s m =
  let s2 := match subsByOrg m !! sb_OrgID s with
            | Some e => upserted (sb_ID e) (sb_CreatedAt e) now s
            | None => upserted (NewID "sub" rnd) now now s
            end in (Ok s2, put_subscription s2 m).
Proof.
  intros Hst Hid Hc. unfold UpsertSubscription. cbv zeta. cbn [sb_StripeSubID sb_OrgID]. destruct (String.eqb_spec (sb_StripeSubID s) "") as [|_]; [done|].
  cbn [negb]. destruct Hid as [[-> ->]|(e & He & -> & ->)]; cbn [String.eqb].
  - destruct (subsByOrg m !! sb_OrgID s) as [e|] eqn:He; [|done]. by rewrite (or_now_set (or_now 0 _)) by (cbn; by apply Hc).
  - rewrite He. specialize (Hc e He). destruct (String.eqb_spec (sb_ID e) "") as [Hn|].
    + by rewrite !or_now_set by (rewrite ?or_now_set; done).
    + by rewrite !or_now_set.
Qed.

Lemma sim_upsert now rnd s d m : rel d m → agreed_op d m (SUpsertSubscription now rnd s) → sim (CDo (SUpsertSubscription now rnd s)) d m.
Proof.
  intros Hr Ha. sides. pose proof (ok_after _ _ (SUpsertSubscription now rnd s) Hr Ha) as Hok. cbn [store_exec] in Hok. destruct Ha as (Hid & Hnow & Hwn & Hwp & Hst & Ho & Hother).
  rewrite (upsert_mem now rnd s m Hst Hid) in Hok |- * by (intros e He; by apply (rel_sub_org _ _ Hr) in He as [? _]). cbv zeta in *.
  unfold pg_UpsertSubscription, mbind, M_bind, raw. rewrite with_err_quiet. unfold upsert_subscription. cbv zeta.
  cbn [subscription_row sw_org_id sw_stripe_subscription_id sw_id sb_ID sb_OrgID sb_StripeSubID] in *.
  destruct (subsByOrg m !! sb_OrgID s) as [e|] eqn:He.
  - destruct (rel_sub_org _ _ Hr _ _ He) as (Hce & r & Hk & Hsc & Hro).
    assert (has (of_org (sb_OrgID s)) (t_subscriptions d) = true) as ->.
    { apply has_true. exists (sb_ID e), r. split; [done|]. by apply String.eqb_eq. }
    match goal with |- context [has ?p ?t] => assert (has p t = false) as -> end.
    { apply has_false. intros k r' Hk'. apply andb_false_iff.
      destruct (String.eqb_spec (sw_stripe_subscription_id r') (sb_StripeSubID s)) as [Heq|]; [right|by left].
      apply (rel_sub_row _ _ Hr) in Hk' as [_ Hs']. apply negb_false_iff, String.eqb_eq. by eapply Hother in Hs' as [_ Hs']; [apply Hs'|..]. }
    rewrite (update_unique (H := sql) _ _ _ (sb_ID e) r Hk).
    2:{ by apply String.eqb_eq. }
    2:{ intros k' r' Hk' Ho'%String.eqb_eq. by eapply (sub_one_row d m Hr (sb_OrgID s)). }
    cbn [fst snd] in *. split; [by split_and!|]. split; [done|]. cbn [cn_db quiet].
    set (s2 := upserted (sb_ID e) (sb_CreatedAt e) now s) in *. set (x := refresh_subscription _ r).
    assert (Hx : scan_subscription x = s2).
    { unfold x, s2, upserted, scan_subscription, refresh_subscription, subscription_row. cbn. rewrite period_back, !timestamptz_whole by done.
      rewrite <-Hsc, <-Hro. unfold scan_subscription. cbn. by destruct r. }
    destruct (subs_put d m Hr x s2 Hx) as (H1 & H2 & H3); [done|done| |intros e' He'; change (sb_OrgID s2) with (sb_OrgID s) in He'; by simplify_eq|].
    { intros org e' He' [Hi|Hi]; [by eapply (sub_same_id d m Hr)|by eapply Hother]. }
    keep Hr Hok.
  - destruct Hid as [[Hid Hcr]|(e & [=] & _)]. rewrite Hid, Hcr.
    assert (has (of_org (sb_OrgID s)) (t_subscriptions d) = false) as ->.
    { apply has_false. intros k r Hk. apply String.eqb_neq. intros Ho'. apply (rel_sub_row _ _ Hr) in Hk as [_ Hs]. congruence. }
    rewrite (org_exists_known d m _ Hr Ho). rewrite insert_row_ok.
    2:{ destruct (_ !! or_id _ _ _) as [r|] eqn:Hk; [|done]. apply (rel_sub_row _ _ Hr) in Hk as [Hi Hs].
        by apply Hother in Hs as [[] _]. }
    2:{ apply has_false. intros k r Hk. apply String.eqb_neq. intros Heq. apply (rel_sub_row _ _ Hr) in Hk as [_ Hs].
        pose proof (proj2 (Hother _ _ Hs) Heq). congruence. }
    cbn [fst snd] in *. split; [by split_and!|]. split; [done|]. cbn [cn_db quiet].
    set (s2 := upserted (NewID "sub" rnd) now now s) in *. set (x := subscription_row _).
    assert (Hx : scan_subscription x = s2).
    { unfold x, s2, upserted, scan_subscription, subscription_row. cbn. by rewrite period_back, !timestamptz_whole. }
    destruct (subs_put d m Hr x s2 Hx) as (H1 & H2 & H3); [done|done| |intros e' He'; change (sb_OrgID s2) with (sb_OrgID s) in He'; by simplify_eq|].
    { intros org e' He' [Hi|Hi]; [by eapply Hother in Hi|by eapply Hother]. }
    keep Hr Hok.
Qed.
Lemma sim_delete id d m : rel d m → agreed_op d m (SDeleteSubscription id) → sim (CDo (SDeleteSubscription id)) d m.
Proof.
  intros Hr Ha. sides. ok_of Hr Ha (SDeleteSubscription id). cbn in Ha. unfold pg_DeleteSubscription, DeleteSubscription in *.
  rewrite execOne_quiet. unfold modify_table. destruct (subsByStripe m !! id) as [org|] eqn:Hix.
  - destruct (Ha org eq_refl) as (s & Hs & Hst). destruct (sub_row_of d m Hr _ _ Hs) as (r & Hk & Hsc & Hro).
    rewrite (delete_unique (H := sql) _ _ (sb_ID s) r Hk).
    2:{ apply String.eqb_eq. by rewrite <-Hst, <-Hsc. }
    2:{ intros k' r' Hk' Heq%String.eqb_eq. eapply (sub_one_row d m Hr org); [done|done|done|].
        apply (sub_row_stripe d m Hr) in Hk'. congruence. }
    cbn in Hok |- *. split; [done|]. split; [done|]. keep Hr Hok.
    + intros k r' [Hne Hk']%lookup_delete_Some. pose proof (rel_sub_row _ _ Hr _ _ Hk') as [Hid Ho]. split; [done|].
      rewrite lookup_delete_ne; [done|]. intros Heq. destruct Hne. symmetry. by eapply (sub_one_row d m Hr org).
    + intros org' e [Hne He]%lookup_delete_Some. destruct (rel_sub_org _ _ Hr _ _ He) as (Hc & r' & Hk' & Hrest). split; [done|].
      exists r'. split; [|done]. rewrite lookup_delete_ne; [done|]. intros Heq. destruct Hne. by eapply (sub_same_id d m Hr).
    + intros org' e [Hne He]%lookup_delete_Some. destruct (rel_sub_stripe _ _ Hr _ _ He) as [Hn Hl]. split; [done|].
      rewrite lookup_delete_ne; [done|]. congruence.
  - rewrite (delete_none (H := sql)).
    + cbn. split; [done|]. split; [done|]. replace (put_subscriptions _ d) with d by (by destruct d). done.
    + intros k r Hk. apply String.eqb_neq. intros <-. by rewrite (sub_row_stripe d m Hr _ _ Hk) in Hix.
Qed.

(** ** Events and metered usage *)
Lemma sim_event id d m : rel d m → sim (CDo (SMarkEventProcessed id)) d m.
Proof.
  intros Hr. sides. ok_of Hr I (SMarkEventProcessed id). unfold pg_MarkEventProcessed, MarkEventProcessed in *.
  destruct (String.eqb id ""); [done|]. unfold mbind, M_bind, raw. rewrite with_err_quiet. unfold insert_event.
  pose proof (rel_events _ _ Hr id) as He. destruct (t_billing_events d !! id) as [x|].
  - rewrite (proj1 He) by (by eexists). cbn. done.
  - destruct (events m !! id) as [[]|]; [by destruct (proj2 He eq_refl)|..]; cbn in Hok |- *; (split; [done|]; split; [done|]); keep Hr Hok.
    all: intros id'; destruct (decide (id' = id)) as [->|];
      [rewrite !lookup_insert_eq; split; [done|by eexists]|rewrite !lookup_insert_ne by done; apply Hr].
Qed.

Lemma numbered_snoc seq l u : numbered seq l → mu_ID u = seq + 1 → numbered (seq + 1) (l ++ [u]).
Proof.
  intros (Hs & Hle & H0) Hu. split_and!; [|apply list.Forall_app; split; [eapply list.Forall_impl; [exact Hle|]; cbn; lia|constructor; [lia|constructor]]|lia].
  induction Hs as [|a l Hl IH Hall]; cbn; [by repeat constructor|]. apply list.Forall_cons in Hle as [Ha Hle]. constructor; [by apply IH|].
  apply list.Forall_app. split; [done|]. constructor; [lia|constructor].
Qed.
Lemma numbered_skip seq l : numbered seq l → numbered (seq + 1) l.
Proof. intros (Hs & Hle & H0). split_and!; [done|eapply list.Forall_impl; [exact Hle|]; cbn; lia|lia]. Qed.
Lemma numbered_map f seq l : (∀ u, mu_ID (f u) = mu_ID u) → numbered seq l → numbered seq (map f l).
Proof.
  intros Hf (Hs & Hle & H0). split_and!; [| |done].
  - clear Hle. induction Hs as [|a l Hl IH Hall]; cbn; constructor; [done|]. apply list.Forall_fmap. eapply list.Forall_impl; [exact Hall|].
    intros u Hu. cbn. by rewrite !Hf.
  - apply list.Forall_fmap. eapply list.Forall_impl; [exact Hle|]. intros u Hu. cbn. by rewrite Hf.
Qed.
Lemma same_key_found l l' org metric start : Forall2 same_metered l l' →
  let p := λ e, String.eqb (mu_OrgID e) org && String.eqb (mu_Metric e) metric && (mu_WindowStart e =? start) in
  existsb p l = match find_first p l' with Some _ => true | None => false end.
Proof.
  intros Hl p. induction Hl as [|u u' l l' (Ho & Hm & _ & Hw & _) Hl IH]; [done|]. cbn [existsb find_first].
  replace (p u) with (p u') by (unfold p; by rewrite Ho, Hm, Hw). by destruct (p u').
Qed.

Lemma sim_metered now u d m : rel d m → agreed_op d m (SInsertMeteredUsage now u) → sim (CDo (SInsertMeteredUsage now u)) d m.
Proof.
  intros Hr Ha. sides. ok_of Hr Ha (SInsertMeteredUsage now u). destruct Ha as (Ho & Hws & Hwe & Hwc & Hrep & Hseq & Hseq').
  unfold pg_InsertMeteredUsage, InsertMeteredUsage in *. cbv zeta in *. unfold mbind, M_bind, or_conflict. rewrite with_err_quiet.
  unfold insert_metered. cbn [mu_OrgID mu_Metric mu_Quantity mu_WindowStart mu_WindowEnd mu_CreatedAt].
  destruct (Z.leb_spec (2 ^ 63) (s_metered_usage_id d + 1)) as [|_]; [lia|]. rewrite !timestamptz_whole by done.
  rewrite (same_key_found _ _ _ _ _ (rel_metered _ _ Hr)). destruct (find_first _ _) as [x|] eqn:Hf.
  - cbn [fst snd]. rewrite unique_is_conflict. cbn. split; [by left|]. split; [done|]. keep Hr Hok; apply numbered_skip, Hr.
  - rewrite (org_exists_known (put_metered _ _ d) m); [|by split; cbn; try apply Hr; apply numbered_skip, Hr|done].
    pose proof (rel_metered_mem _ _ Hr) as (_ & _ & H0). rewrite add64_exact in * by (unfold in64; lia). cbn in Hok |- *. rewrite Hrep in *.
    split; [by split_and!|]. split; [done|]. keep Hr Hok.
    + apply Forall2_app; [apply Hr|]. constructor; [by split_and!|constructor].
    + by apply numbered_snoc; [apply Hr|].
    + by apply numbered_snoc; [apply Hr|].
Qed.

Lemma mem_ids_in ids l l' x : x ∈ mem_ids ids l l' → ∃ u, u ∈ l' ∧ mu_ID u = x.
Proof.
  revert l'. induction l as [|u l IH]; intros [|u' l']; cbn; try by intros ?%not_elem_of_nil.
  case_bool_decide; [intros [->|Hx]%elem_of_cons; [exists u'; split; [left|done]|]|intros Hx];
    destruct (IH _ Hx) as (v & Hv & Hid); exists v; (split; [by right|done]).
Qed.
Lemma mark_same (ids : list Z) at_ l l' (S : list Z) : Forall2 same_metered l l' → StronglySorted (λ a b, mu_ID a < mu_ID b) l' →
  (∀ u, u ∈ l' → mu_ID u ∈ S ↔ mu_ID u ∈ mem_ids ids l l') →
  Forall2 same_metered (map (λ u, if bool_decide (mu_ID u ∈ ids) then report_row at_ u else u) l)
                       (map (λ u, if bool_decide (mu_ID u ∈ S) then report_row at_ u else u) l').
Proof.
  intros Hl. induction Hl as [|u u' l l' Hu Hl IH]; intros Hs HS; [done|]. apply StronglySorted_inv in Hs as [Hs Hlt]. cbn [map]. constructor.
  - pose proof (HS u' ltac:(left)) as Hin. cbn [mem_ids] in Hin. case_bool_decide as Hp; case_bool_decide as Hp'; try done.
    + destruct Hu as (? & ? & ? & ? & ? & ? & ?). by split_and!.
    + destruct Hp'. apply Hin. left.
    + apply Hin in Hp'. apply mem_ids_in in Hp' as (v & Hv & Hid). apply (proj1 (list.Forall_forall _ _) Hlt) in Hv. lia.
  - apply IH; [done|]. intros v Hv. rewrite (HS v) by (by right). cbn [mem_ids].
    apply (proj1 (list.Forall_forall _ _) Hlt) in Hv. case_bool_decide; [|done]. rewrite elem_of_cons. split; [intros [?|?]; [lia|done]|by right].
Qed.
Lemma sim_mark ids at_ d m : rel d m → agreed_op d m (SMarkMeteredUsageReported ids at_) → sim (CDo (SMarkMeteredUsageReported ids at_)) d m.
Proof.
  intros Hr Ha. sides. pose proof (store_exec_ok m (translate_op d m (SMarkMeteredUsageReported ids at_)) (rel_ok _ _ Hr) I) as Hok.
  cbn in Ha, Hok. unfold pg_MarkMeteredUsageReported, MarkMeteredUsageReported in *. cbn in Hok.
  pose proof (mark_same ids at_ _ _ (mem_ids ids (t_metered_usage d) (metered m)) (rel_metered _ _ Hr) (proj1 (rel_metered_mem _ _ Hr)) ltac:(done)) as Hm.
  assert (Hnum : ∀ (S : list Z) seq l, numbered seq l → numbered seq (map (λ u, if bool_decide (mu_ID u ∈ S) then report_row at_ u else u) l)).
  { intros S seq l. apply numbered_map. intros u. by case_bool_decide. }
  destruct ids as [|i ids].
  - cbn. split; [done|]. split; [done|]. keep Hr Hok.
    + match type of Hm with Forall2 _ (map ?f ?l) _ => assert (map f l = l) as Heq end.
      { rewrite <-map_id. apply map_ext. intros u. case_bool_decide as Hn; [by apply not_elem_of_nil in Hn|done]. }
      by rewrite Heq in Hm.
    + apply Hnum, Hr.
  - unfold raw. rewrite with_err_quiet. cbn. rewrite timestamptz_whole by done. split; [done|]. split; [done|]. keep Hr Hok.
    + apply Hnum, Hr.
    + apply Hnum, Hr.
Qed.

(** Every operation that changes something. *)
Lemma sim_op o d m : rel d m → agreed_op d m o → sim (CDo o) d m.
Proof.
  intros Hr Ha. destruct o.
  - by apply sim_create_user. - by apply sim_profile. - by apply sim_create_org. - by apply sim_update_plan. - by apply sim_set_plan.
  - by apply sim_customer. - by apply sim_member. - by apply sim_create_key. - by apply sim_touch. - by apply sim_revoke.
  - by apply sim_reserve. - by apply sim_release. - by apply sim_add_domain. - by apply sim_verify. - by apply sim_usage.
  - by apply sim_open. - by apply sim_close. - by apply sim_upsert. - by apply sim_delete. - by apply sim_event.
  - by apply sim_metered. - by apply sim_mark.
Qed.
End simulation.
