(* ===== verification/PgQueries.v ===== *)
(** The queries of the PostgreSQL store against those of the in-memory one, and the
    theorem that the two stores agree. *)
From S2P Require Import Prelude GoStrings Store StoreInv Listings Pg PgSafety.
From Stdlib Require Import Ascii.
From stdpp Require Import sorting.

Open Scope Z_scope.

#[local] Arguments update_where : simpl never.
#[local] Arguments select : simpl never.
#[local] Arguments count : simpl never.
#[local] Arguments has : simpl never.

(** * Tables as lists of rows *)
Lemma select_rows `{RangeOrder} {K V} `{Countable K} (q : V → bool) (t : gmap K V) :
  select (λ _ v, q v) t ≡ₚ List.filter q (rows t).
Proof. rewrite select_perm. unfold rows. by rewrite (filter_snd q). Qed.
Lemma range_rows `{RangeOrder} {K V} `{Countable K} (t : gmap K V) : (range_map t).*2 ≡ₚ rows t.
Proof. unfold rows. by rewrite range_map_perm. Qed.
Lemma filter_range `{RangeOrder} {K V} `{Countable K} (q : V → bool) (t : gmap K V) :
  List.filter q (range_map t).*2 ≡ₚ List.filter q (rows t).
Proof. apply filter_perm, range_rows. Qed.
Lemma rows_fmap {K V W} `{Countable K} (f : V → W) (t : gmap K V) : rows (f <$> t) ≡ₚ f <$> rows t.
Proof. unfold rows. rewrite map_to_list_fmap, <-!list_fmap_compose. done. Qed.
Lemma filter_fmap {A B} (f : A → B) (q : B → bool) l : List.filter q (f <$> l) = f <$> List.filter (λ a, q (f a)) l.
Proof. induction l as [|a l IH]; [done|]. cbn. rewrite IH. by destruct (q (f a)). Qed.
Lemma filter_ext' {A} (p q : A → bool) l : (∀ a, p a = q a) → List.filter p l = List.filter q l.
Proof. intros Hpq. apply filter_ext, Hpq. Qed.
Lemma filter_all {A} (p : A → bool) l : (∀ a, p a = true) → List.filter p l = l.
Proof. intros Hp. induction l as [|a l IH]; [done|]. cbn. by rewrite Hp, IH. Qed.
Lemma count_rows `{RangeOrder} {K V} `{Countable K} (q : V → bool) (t : gmap K V) :
  count (λ _ v, q v) t = Z.of_nat (length (List.filter q (rows t))).
Proof. rewrite (count_select (H := _)). by rewrite select_rows. Qed.
Lemma count_any `{RangeOrder} {K V} `{Countable K} (t : gmap K V) : count any_row t = Z.of_nat (size t).
Proof.
  unfold any_row. rewrite (count_rows (λ _, true)). rewrite filter_all by done. unfold rows. by rewrite length_fmap, length_map_to_list.
Qed.

(** Counting by group does not depend on the order. *)
Lemma group_count_lookup {A} (key : A → string) l k :
  group_count key l !! k = let n := length (List.filter (λ a, String.eqb (key a) k) l) in
                           if (n =? 0)%nat then None else Some (Z.of_nat n).
Proof.
  unfold group_count. induction l as [|a l IH] using rev_ind; [done|]. rewrite foldl_app, List.filter_app, length_app. cbn [foldl List.filter].
  revert IH. generalize (foldl (λ (c : gmap string Z) x, bump (key x) c) ∅ l). intros g IH. unfold bump.
  destruct (String.eqb_spec (key a) k) as [->|Hne]; cbn [length].
  - rewrite lookup_insert_eq, IH. cbv zeta. destruct (Nat.eqb_spec (length (List.filter (λ a, String.eqb (key a) k) l)) 0) as [->|Hn]; [done|].
    rewrite (proj2 (Nat.eqb_neq _ 0)) by lia. cbn [default]. f_equal. unfold id. lia.
  - by rewrite lookup_insert_ne, IH, Nat.add_0_r by done.
Qed.
Lemma group_count_perm {A} (key : A → string) l l' : l ≡ₚ l' → group_count key l = group_count key l'.
Proof. intros Hp. apply map_eq. intros k. rewrite !group_count_lookup. by rewrite (Permutation_length (filter_perm (λ a, String.eqb (key a) k) _ _ Hp)). Qed.
Lemma group_count_fmap {A B} (f : A → B) (key : B → string) l : group_count key (f <$> l) = group_count (λ a, key (f a)) l.
Proof. unfold group_count. generalize (∅ : gmap string Z). induction l as [|a l IH]; intros c; [done|]. cbn. apply IH. Qed.
Lemma group_count_ext {A} (key key' : A → string) l : (∀ a, key a = key' a) → group_count key l = group_count key' l.
Proof. intros He. unfold group_count. generalize (∅ : gmap string Z). induction l as [|a l IH]; intros c; [done|]. cbn. by rewrite IH, He. Qed.
Lemma group_count_filter {A} (key : A → string) (q : A → bool) l :
  foldl (λ c a, if q a then bump (key a) c else c) ∅ l = group_count key (List.filter q l).
Proof. unfold group_count. generalize (∅ : gmap string Z). induction l as [|a l IH]; intros c; [done|]. cbn. by destruct (q a); cbn. Qed.

(** * Patterns *)
Lemma like_plain fuel a pat s : plain_char a = true →
  like (S fuel) (String a pat) s = match s with String b s' => Ascii.eqb a b && like fuel pat s' | EmptyString => false end.
Proof. destruct a as [[] [] [] [] [] [] [] []]; (discriminate || (intros _; reflexivity)). Qed.
Lemma like_rest fuel s : (String.length s + 1 < fuel)%nat → like fuel "%" s = true.
Proof.
  revert s. induction fuel as [|fuel IH]; intros s Hl; [lia|]. cbn [like]. destruct s as [|b s]; [by destruct fuel; [lia|]|].
  rewrite (IH s) by (cbn in Hl; lia). apply orb_true_r.
Qed.
Lemma like_prefix fuel x s : all_chars plain_char x = true → (String.length x + String.length s + 1 < fuel)%nat →
  like fuel (x +:+ "%") s = String.prefix x s.
Proof.
  revert fuel s. induction x as [|a x IH]; intros fuel s Hx Hl.
  - rewrite like_rest by (cbn in Hl; lia). by destruct s.
  - cbn in Hx. apply andb_true_iff in Hx as [Ha Hx]. destruct fuel as [|fuel]; [lia|]. rewrite app_string_cons, like_plain by done.
    destruct s as [|b s]; [done|]. cbn in Hl |- *. destruct (Ascii.eqb_spec a b) as [->|Hne].
    + rewrite IH by (done || lia). destruct (ascii_dec b b) as [|n]; [done|by destruct n].
    + by destruct (ascii_dec a b).
Qed.
Lemma like_contains fuel x s : all_chars plain_char x = true → (String.length x + String.length s + 2 < fuel)%nat →
  like fuel (String "%" (x +:+ "%")) s = Contains s x.
Proof.
  intros Hx. revert s. induction fuel as [|fuel IH]; intros s Hl; [lia|]. cbn [like]. rewrite like_prefix by (done || lia).
  destruct s as [|b s]; [done|]. rewrite IH by (cbn in Hl; lia). done.
Qed.
Lemma plain_lower x : all_chars plain_char x = true → all_chars plain_char (ToLower x) = true.
Proof.
  unfold ToLower. induction x as [|a x IH]; [done|]. cbn. intros [Ha Hx]%andb_true_iff. rewrite (IH Hx), andb_true_r.
  clear -Ha. destruct a as [[] [] [] [] [] [] [] []]; (discriminate || reflexivity).
Qed.
Lemma ilike_contains s x : all_chars plain_char x = true → ilike s ("%" +:+ x +:+ "%") = Contains (ToLower s) (ToLower x).
Proof.
  intros Hx. unfold ilike. rewrite !ToLower_app. change (ToLower "%") with "%". rewrite !length_app_string.
  apply like_contains; [by apply plain_lower|]. rewrite !ToLower_length. cbn. lia.
Qed.

Section queries.
  Context (go sql : RangeOrder) (date_trunc : string → Time → Time).
  Context (Hutc : ∀ t bucket, bucket = "hour" ∨ bucket = "day" → date_trunc bucket t = truncateTo t bucket).
  Context (d : Db) (m : MemStore) (Hr : rel d m).
  Notation sim := (sim go sql date_trunc).

Lemma raw_query {A} (f : Db → result SqlErr A) : raw (query f) (quiet d) =
  (match f d with Ok a => Ok a | Err e => Err (PSql e) end, quiet d).
Proof. unfold raw. by rewrite with_err_quiet. Qed.
Lemma get_query {A} (f : Db → result SqlErr A) : with_err mapErr (statement (query f)) (quiet d) =
  (match f d with Ok a => Ok a | Err e => Err (mapErr e) end, quiet d).
Proof. by rewrite with_err_quiet. Qed.
Ltac sides := unfold PgSafety.sim; cbn [pg_call mem_call translate]; unfold reply.

(** * Single rows *)
Lemma sim_get_user id : sim (CGetUser id) d m.
Proof.
  sides. unfold pg_GetUser, GetUser. rewrite get_query, (select_key _ id (λ _, true) (by_id_key id)), (rel_users _ _ Hr).
  by destruct (users m !! id).
Qed.
Lemma sim_get_user_by_email email : sim (CGetUserByEmail email) d m.
Proof.
  sides. unfold pg_GetUserByEmail, GetUserByEmail. rewrite get_query, (rel_users _ _ Hr).
  pose proof (so_users _ (rel_ok _ _ Hr)) as Hix. rewrite (select_index _ _ _ (ToLower email) _ Hix) by done.
  destruct (usersEmail m !! _) as [id|] eqn:Hi; [|done]. by apply Hix in Hi as (v & -> & _).
Qed.
Lemma sim_get_org id : sim (CGetOrg id) d m.
Proof.
  sides. unfold pg_GetOrg, GetOrg. rewrite get_query, (select_key _ id (λ _, true) (by_id_key id)), (scan_org_lookup _ _ _ Hr).
  by destruct (t_orgs d !! id).
Qed.
Lemma sim_get_key prefix : sim (CGetAPIKeyByPrefix prefix) d m.
Proof.
  sides. unfold pg_GetAPIKeyByPrefix, GetAPIKeyByPrefix. rewrite get_query, (rel_keys _ _ Hr).
  pose proof (so_keys _ (rel_ok _ _ Hr)) as Hix. rewrite (select_index _ _ _ prefix _ Hix) by done.
  destruct (keyPrefix m !! _) as [id|] eqn:Hi; [|done]. by apply Hix in Hi as (v & -> & _).
Qed.
Lemma sim_reserved org name : sim (CIsSubdomainReserved org name) d m.
Proof.
  sides. unfold pg_IsSubdomainReserved, IsSubdomainReserved. rewrite statement_quiet. cbn. rewrite (rel_subs _ _ Hr).
  pose proof (so_subs _ (rel_ok _ _ Hr)) as Hix. rewrite (select_index _ _ _ (ToLower name) _ Hix) by done.
  destruct (subByName m !! _) as [id|] eqn:Hi; [|done]. by apply Hix in Hi as (v & -> & _).
Qed.
Lemma sim_get_domain id org : sim (CGetCustomDomain id org) d m.
Proof.
  sides. unfold pg_GetCustomDomain, GetCustomDomain.
  rewrite get_query, (select_key _ id (λ x, String.eqb (cd_OrgID x) org)), (rel_domains _ _ Hr) by done.
  destruct (domains m !! id) as [x|]; [|done]. by destruct (String.eqb (cd_OrgID x) org).
Qed.
Lemma sim_domain_by_name name : sim (CGetCustomDomainByName name) d m.
Proof.
  sides. unfold pg_GetCustomDomainByName, GetCustomDomainByName. rewrite get_query, (rel_domains _ _ Hr).
  pose proof (so_domains _ (rel_ok _ _ Hr)) as Hix. rewrite (select_index _ _ _ (ToLower name) _ Hix) by done.
  destruct (domByName m !! _) as [id|] eqn:Hi; [|done]. by apply Hix in Hi as (v & -> & _).
Qed.
Lemma sim_get_subscription org : sim (CGetSubscriptionForOrg org) d m.
Proof.
  sides. unfold pg_GetSubscriptionForOrg, GetSubscriptionForOrg. rewrite get_query.
  destruct (subsByOrg m !! org) as [s|] eqn:Hs.
  - destruct (sub_row_of d m Hr _ _ Hs) as (r & Hk & Hsc & Hro). rewrite (select_unique _ _ (sb_ID s) r Hk).
    + cbn. by rewrite Hsc.
    + by apply String.eqb_eq.
    + intros k' r' Hk' Ho%String.eqb_eq. by eapply (sub_one_row d m Hr org).
  - rewrite select_none; [done|]. intros k r Hk. apply String.eqb_neq. intros <-.
    apply (rel_sub_row _ _ Hr) in Hk as [_ Hk]. congruence.
Qed.
Lemma sim_org_by_customer c : agreed d m (CGetOrgByStripeCustomer c) → sim (CGetOrgByStripeCustomer c) d m.
Proof.
  intros Ha. cbn in Ha. sides. unfold pg_GetOrgByStripeCustomer, GetOrgByStripeCustomer. destruct (String.eqb_spec c "") as [|Hc]; [done|].
  rewrite get_query. destruct (find_first _ _) as [o|] eqn:Hf.
  - apply find_first_Some in Hf as [Hin Heq%String.eqb_eq]. rewrite range_rows in Hin. apply elem_of_rows in Hin as [id Ho].
    pose proof Ho as Ho'. rewrite (scan_org_lookup _ _ _ Hr) in Ho'. apply fmap_Some in Ho' as (r & Hk & ->).
    rewrite (select_unique _ _ id r Hk); [done| |].
    + apply bool_decide_eq_true. cbn in Heq. destruct (gr_stripe_customer_id r); cbn in Heq; congruence.
    + intros k' r' Hk' Hc'%bool_decide_eq_true. eapply (Ha k' id (scan_org r')); [|exact Ho| |exact Heq].
      * by rewrite (scan_org_lookup _ _ _ Hr), Hk'.
      * cbn. by rewrite Hc'.
  - rewrite select_none; [done|]. intros k r Hk. apply bool_decide_eq_false. intros Hc'. rewrite find_first_None in Hf.
    specialize (Hf (scan_org r)). cbn in Hf. rewrite Hc' in Hf. cbn in Hf. rewrite String.eqb_refl in Hf. discriminate Hf.
    rewrite range_rows. apply elem_of_rows. exists k. by rewrite (scan_org_lookup _ _ _ Hr), Hk.
Qed.

(** * Listings without an order *)
Lemma org_rows : rows (orgs m) ≡ₚ scan_org <$> rows (t_orgs d).
Proof. rewrite <-(rel_orgs _ _ Hr). apply rows_fmap. Qed.
Lemma sim_orgs_by_plan plan : sim (COrgsByPlan plan) d m.
Proof.
  sides. unfold pg_OrgsByPlan, OrgsByPlan. rewrite raw_query. split; [|done]. cbn.
  rewrite (select_rows (λ o, String.eqb (gr_plan o) plan)), filter_range, (filter_perm _ _ _ org_rows), filter_fmap. done.
Qed.
Lemma sim_list_members org : sim (CListOrgMembers org) d m.
Proof.
  sides. unfold pg_ListOrgMembers, ListOrgMembers. rewrite raw_query. split; [|done]. cbn.
  rewrite (filter_perm _ _ _ (range_map_perm _)), <-(filter_perm _ _ _ (rel_members _ _ Hr)), filter_fmap. done.
Qed.
Lemma sim_orgs_for_user user : sim (COrgsForUser user) d m.
Proof.
  sides. unfold pg_OrgsForUser, OrgsForUser. rewrite raw_query. split; [|done]. cbn.
  rewrite (range_map_perm (t_org_members d)), <-(rel_members _ _ Hr). match goal with |- ?a ≡ₚ ?b => cut (a = b); [by intros ->|] end.
  induction (map_to_list (t_org_members d)) as [|[[o u] r] l IH]; [done|]. cbn. rewrite IH, (scan_org_lookup _ _ _ Hr). done.
Qed.
Lemma sim_list_keys org : sim (CListAPIKeys org) d m.
Proof.
  sides. unfold pg_ListAPIKeys, ListAPIKeys. rewrite raw_query, (rel_keys _ _ Hr). split; [|done]. cbn.
  by rewrite (select_rows (λ k, String.eqb (ak_OrgID k) org)), filter_range.
Qed.
Lemma sim_list_subdomains org : sim (CListSubdomains org) d m.
Proof.
  sides. unfold pg_ListSubdomains, ListSubdomains. rewrite raw_query, (rel_subs _ _ Hr). split; [|done]. cbn.
  by rewrite (select_rows (λ k, String.eqb (rs_OrgID k) org)), filter_range.
Qed.
Lemma sim_count_subdomains org : sim (CCountSubdomains org) d m.
Proof.
  sides. unfold pg_CountSubdomains, CountSubdomains. rewrite raw_query, (rel_subs _ _ Hr). split; [|done]. cbn.
  by rewrite (count_rows (H := sql) (λ k, String.eqb (rs_OrgID k) org)), filter_range.
Qed.
Lemma sim_list_domains org : sim (CListCustomDomains org) d m.
Proof.
  sides. unfold pg_ListCustomDomains, ListCustomDomains. rewrite raw_query, (rel_domains _ _ Hr). split; [|done]. cbn.
  by rewrite (select_rows (λ k, String.eqb (cd_OrgID k) org)), filter_range.
Qed.
Lemma sim_count_domains org : sim (CCountCustomDomains org) d m.
Proof.
  sides. unfold pg_CountCustomDomains, CountCustomDomains. rewrite raw_query, (rel_domains _ _ Hr). split; [|done]. cbn.
  by rewrite (count_rows (H := sql) (λ k, String.eqb (cd_OrgID k) org)), filter_range.
Qed.

(** * Tunnel history *)
Lemma session_where_listed org a k s : session_where org a k s = listed org a s.
Proof. unfold session_where, listed. by destruct (String.eqb org ""), a. Qed.
Lemma history_where org a : List.filter (listed org a) (rows (t_tunnel_sessions d)) ≡ₚ List.filter (listed org a) (history m).
Proof. apply filter_perm, Hr. Qed.
Lemma select_where org a : select (H := sql) (session_where org a) (t_tunnel_sessions d) ≡ₚ List.filter (listed org a) (history m).
Proof.
  rewrite <-history_where, <-(select_rows (H := sql) (listed org a)). unfold select. erewrite filter_ext'; [done|]. intros [k s].
  apply session_where_listed.
Qed.
Lemma sim_count_sessions org a : sim (CCountTunnelSessions org a) d m.
Proof.
  sides. unfold pg_CountTunnelSessions, CountTunnelSessions. rewrite raw_query. split; [|done]. cbn.
  by rewrite (count_select (H := sql)), select_where.
Qed.
Lemma sim_breakdown org a : sim (CTunnelCountryBreakdown org a) d m.
Proof.
  sides. unfold pg_TunnelCountryBreakdown, TunnelCountryBreakdown. rewrite raw_query. split; [|done]. cbn. f_equal.
  rewrite (group_count_perm _ _ _ (select_where org a)), group_count_filter. apply group_count_ext. intros s.
  unfold country_group, nullStr. by destruct (String.eqb (ts_Country s) "").
Qed.
(** A page that holds all rows. *)
Lemma page_all {A} limit def (l : list A) : 0 < def → Z.of_nat (length l) <= or_default limit def → page (or_default limit def) 0 l = Ok l.
Proof.
  intros Hd Hl. unfold page. rewrite (proj2 (Z.ltb_ge _ 0)) by (unfold or_default; destruct (Z.leb_spec limit 0); lia).
  cbn [Z.ltb Z.compare]. change (drop (Z.to_nat 0) l) with l. by rewrite take_ge by lia.
Qed.
Lemma filter_length {A} (p : A → bool) l : (length (List.filter p l) <= length l)%nat.
Proof. induction l as [|a l IH]; [done|]. cbn. destruct (p a); cbn; lia. Qed.
Lemma sim_list_sessions f : agreed d m (CListTunnelSessions f) → sim (CListTunnelSessions f) d m.
Proof.
  intros [Hoff Hlim]. sides. unfold pg_ListTunnelSessions, ListTunnelSessions. rewrite raw_query, Hoff. cbv zeta.
  change (if tf_Limit f <=? 0 then 100 else tf_Limit f) with (or_default (tf_Limit f) 100).
  rewrite page_all; [|done|rewrite sort_by_perm, select_where; pose proof (filter_length (listed (tf_OrgID f) (tf_ActiveOnly f)) (history m)); lia].
  split; [|done]. cbn [same_answer same_reply]. rewrite sort_by_perm, select_where. change (drop (Z.to_nat 0) ?l) with l.
  rewrite take_ge.
  - by apply filter_perm, Permutation_rev.
  - rewrite filter_rev, length_rev. pose proof (filter_length (listed (tf_OrgID f) (tf_ActiveOnly f)) (history m)). lia.
Qed.

(** * Directories *)
Lemma pageSlice_all {A} (l : list A) limit : Z.of_nat (length l) <= or_default limit 50 → pageSlice l limit 0 = l.
Proof.
  intros Hl. unfold pageSlice. cbn [Z.ltb Z.compare]. change (if limit <=? 0 then 50 else limit) with (or_default limit 50).
  destruct l as [|a l]; [done|]. rewrite Z.geb_leb, (proj2 (Z.leb_gt _ _)) by (cbn [length]; lia).
  change (drop (Z.to_nat 0) ?x) with x. by rewrite take_ge by lia.
Qed.
Lemma rows_length {V} (t : gmap string V) : length (rows t) = size t.
Proof. unfold rows. by rewrite length_fmap, length_map_to_list. Qed.
Lemma sim_list_users limit offset search : agreed d m (CListUsers limit offset search) → sim (CListUsers limit offset search) d m.
Proof.
  intros (-> & Hlim & Hplain). sides. unfold pg_ListUsers, ListUsers. cbv zeta. rewrite raw_query, (rel_users _ _ Hr).
  change (if limit <=? 0 then 50 else limit) with (or_default limit 50).
  set (keep := λ u, String.eqb (ToLower (TrimSpace search)) "" || Contains (ToLower (us_Email u)) (ToLower (TrimSpace search)) ||
                    Contains (ToLower (us_Name u)) (ToLower (TrimSpace search))).
  assert (Hsel : select (H := sql) (λ _ u, String.eqb (TrimSpace search) "" || ilike (us_Email u) ("%" +:+ TrimSpace search +:+ "%") ||
                   ilike (us_Name u) ("%" +:+ TrimSpace search +:+ "%")) (users m) ≡ₚ List.filter keep (rows (users m))).
  { rewrite <-(select_rows (H := sql) keep). unfold select. erewrite filter_ext'; [done|]. intros [k u]. cbn [fst snd]. unfold keep.
    rewrite !ilike_contains by done. by destruct (TrimSpace search). }
  pose proof (filter_length keep (rows (users m))) as Hlen. rewrite rows_length in Hlen.
  rewrite page_all; [|done|rewrite sort_by_perm, Hsel; lia].
  split; [|done]. cbn [same_answer same_reply]. rewrite pageSlice_all; [|rewrite sort_by_perm, filter_range; lia].
  by rewrite !sort_by_perm, Hsel, filter_range.
Qed.
Lemma sim_list_orgs limit offset plan : agreed d m (CListOrgs limit offset plan) → sim (CListOrgs limit offset plan) d m.
Proof.
  intros [-> Hlim]. sides. unfold pg_ListOrgs, ListOrgs. cbv zeta. rewrite raw_query.
  change (if limit <=? 0 then 50 else limit) with (or_default limit 50). set (p := ToLower (TrimSpace plan)).
  pose proof (filter_length (λ o, String.eqb p "" || String.eqb (og_Plan o) p) (rows (orgs m))) as Hlen. rewrite rows_length in Hlen.
  assert (Hsel : scan_org <$> select (H := sql) (λ _ o, String.eqb p "" || String.eqb (gr_plan o) p) (t_orgs d) ≡ₚ
                 List.filter (λ o, String.eqb p "" || String.eqb (og_Plan o) p) (rows (orgs m))).
  { rewrite (select_rows (λ o, String.eqb p "" || String.eqb (gr_plan o) p)), (filter_perm _ _ _ org_rows), filter_fmap. done. }
  rewrite page_all; [|done|rewrite sort_by_perm, Hsel; lia].
  split; [|done]. cbn [same_answer same_reply]. rewrite pageSlice_all; [|rewrite sort_by_perm, filter_range; lia].
  by rewrite !sort_by_perm, Hsel, filter_range.
Qed.

(** * Pending usage *)
Lemma sort_numbered l : StronglySorted (λ a b, mu_ID a < mu_ID b) l → sort_by (λ a b, mu_ID a <? mu_ID b) l = l.
Proof.
  induction 1 as [|a l Hl IH Hall]; [done|]. cbn. unfold sort_by in IH. rewrite IH. destruct Hall as [|b l Hab]; [done|]. cbn.
  by rewrite (proj2 (Z.ltb_ge _ _)) by lia.
Qed.
Lemma sorted_filter {A} (R : A → A → Prop) p (l : list A) : StronglySorted R l → StronglySorted R (List.filter p l).
Proof.
  induction 1 as [|a l Hl IH Hall]; [constructor|]. cbn. destruct (p a); [|done]. constructor; [done|].
  apply list.Forall_forall. intros x Hx. apply elem_of_filter' in Hx as [Hx _]. by apply (proj1 (list.Forall_forall _ _) Hall).
Qed.
Lemma sim_pending limit : agreed d m (CPendingMeteredUsage limit) → sim (CPendingMeteredUsage limit) d m.
Proof.
  intros Ha. cbn in Ha. sides. unfold pg_PendingMeteredUsage, PendingMeteredUsage. cbv zeta. rewrite raw_query.
  destruct (Z.leb_spec limit 0); [lia|]. unfold page. rewrite (proj2 (Z.ltb_ge limit 0)) by lia. cbn [Z.ltb Z.compare].
  rewrite (proj2 (Z.gtb_lt limit 0)) by lia. split; [|done]. cbn [same_answer same_reply]. change (drop (Z.to_nat 0) ?x) with x.
  rewrite sort_numbered by (apply sorted_filter, (rel_metered_db _ _ Hr)). apply Forall2_take.
  induction (rel_metered _ _ Hr) as [|u u' l l' Hu Hl IH]; [done|]. cbn.
  replace (pending u) with (pending u') by (unfold pending; by destruct Hu as (_ & _ & _ & _ & _ & -> & _)).
  destruct (pending u'); [by constructor|done].
Qed.

(** * Usage *)
Lemma in_period_same org since u : whole since → in_period_sql org since u = in_period org since u.
Proof.
  intros Hw. unfold in_period_sql, in_period, Before. rewrite timestamptz_whole by done. f_equal.
  destruct (Z.leb_spec since (ur_WindowEnd u)), (Z.ltb_spec (ur_WindowEnd u) since); cbn; (done || lia).
Qed.
Lemma sum_of_app {A} (f : A → Z) l l' : sum_of f (l ++ l') = sum_of f l + sum_of f l'.
Proof. unfold sum_of. induction l as [|a l IH]; cbn; [done|]. rewrite IH. lia. Qed.
Lemma sum_of_filter {A} (f : A → Z) p l : Forall (λ a, 0 <= f a) l → 0 <= sum_of f (List.filter p l) <= sum_of f l.
Proof. unfold sum_of. induction 1 as [|a l Ha Hl IH]; cbn; [lia|]. destruct (p a); cbn; lia. Qed.
(** The counters of some records, none of them negative and the sums within range. *)
Lemma fits_filter p l : sums_fit l → sums_fit (List.filter p l).
Proof.
  intros (Hn & H1 & H2 & H3). assert (Hf : Forall (λ u, 0 <= ur_BytesIn u ∧ 0 <= ur_BytesOut u ∧ 0 <= ur_Requests u) (List.filter p l)).
  { apply list.Forall_forall. intros x Hx. apply elem_of_filter' in Hx as [Hx _]. by apply (proj1 (list.Forall_forall _ _) Hn). }
  split; [done|]. unfold in64 in *.
  pose proof (sum_of_filter ur_BytesIn p l ltac:(eapply list.Forall_impl; [exact Hn|naive_solver])).
  pose proof (sum_of_filter ur_BytesOut p l ltac:(eapply list.Forall_impl; [exact Hn|naive_solver])).
  pose proof (sum_of_filter ur_Requests p l ltac:(eapply list.Forall_impl; [exact Hn|naive_solver])). lia.
Qed.
Lemma scan_in64 z : in64 z → scan_int64 z = Ok z.
Proof. unfold in64, scan_int64. intros Hz. by replace ((- 2 ^ 63 <=? z) && (z <? 2 ^ 63)) with true by lia. Qed.
Lemma scan_fits l : sums_fit l → scan_sums l = Ok (sum_of ur_BytesIn l, sum_of ur_BytesOut l, sum_of ur_Requests l).
Proof. intros (_ & H1 & H2 & H3). unfold scan_sums. by rewrite !scan_in64. Qed.
Lemma fits_snoc l u : sums_fit (l ++ [u]) → sums_fit l ∧ 0 <= ur_BytesIn u ∧ 0 <= ur_BytesOut u ∧ 0 <= ur_Requests u ∧
  in64 (sum_of ur_BytesIn l + ur_BytesIn u) ∧ in64 (sum_of ur_BytesOut l + ur_BytesOut u) ∧ in64 (sum_of ur_Requests l + ur_Requests u).
Proof.
  intros ([Hn Hu]%list.Forall_app & H1 & H2 & H3). apply list.Forall_singleton in Hu as (? & ? & ?). rewrite !sum_of_app in *. cbn in *. rewrite !Z.add_0_r in *.
  assert (Hnn : ∀ f : UsageRecord → Z, Forall (λ u, 0 <= f u) l → 0 <= sum_of f l).
  { intros f Hf. pose proof (sum_of_filter f (λ _, true) l Hf). lia. }
  pose proof (Hnn ur_BytesIn ltac:(eapply list.Forall_impl; [exact Hn|naive_solver])).
  pose proof (Hnn ur_BytesOut ltac:(eapply list.Forall_impl; [exact Hn|naive_solver])).
  pose proof (Hnn ur_Requests ltac:(eapply list.Forall_impl; [exact Hn|naive_solver])).
  unfold sums_fit, in64 in *. split_and!; (done || lia).
Qed.
Lemma usage_total now org since l : sums_fit l → (UsageForOrg now org since (set_usage l m)).1 =
  Ok {| ur_OrgID := org; ur_TunnelID := ""; ur_BytesIn := sum_of ur_BytesIn (List.filter (in_period org since) l);
        ur_BytesOut := sum_of ur_BytesOut (List.filter (in_period org since) l);
        ur_Requests := sum_of ur_Requests (List.filter (in_period org since) l); ur_WindowStart := since; ur_WindowEnd := now |}.
Proof.
  induction l as [|u l IH] using rev_ind; intros Hf; [done|]. pose proof (fits_filter (in_period org since) _ Hf) as Hff.
  apply fits_snoc in Hf as [Hl _]. specialize (IH Hl).
  destruct (UsageForOrg_app now org since (set_usage l m) u) as (a & Ha & Hb). rewrite IH in Ha. injection Ha as <-.
  change (usage_ (set_usage l m)) with l in Hb. change (set_usage (l ++ [u]) (set_usage l m)) with (set_usage (l ++ [u]) m) in Hb.
  rewrite Hb. clear Hb IH. rewrite List.filter_app in *. cbn [List.filter] in *. destruct (in_period org since u) eqn:Hp; [|by rewrite !app_nil_r].
  apply fits_snoc in Hff as (_ & _ & _ & _ & H1 & H2 & H3). cbn [ur_OrgID ur_TunnelID ur_BytesIn ur_BytesOut ur_Requests ur_WindowStart ur_WindowEnd].
  rewrite !add64_exact, !sum_of_app by done. cbn. by rewrite !Z.add_0_r.
Qed.
Lemma sim_usage_for_org now org since : agreed d m (CUsageForOrg now org since) → sim (CUsageForOrg now org since) d m.
Proof.
  intros [Hw Hf]. sides. unfold pg_UsageForOrg, mbind, M_bind. rewrite raw_query, (rel_usage _ _ Hr).
  erewrite (filter_ext' (in_period_sql org since)) by (intros u; by apply in_period_same). rewrite scan_fits by (by apply fits_filter).
  pose proof (usage_total now org since (usage_ m) Hf) as Ht. replace (set_usage (usage_ m) m) with m in Ht by (by destruct m).
  unfold UsageForOrg in *. cbn in Ht |- *. injection Ht as Ht. rewrite Ht. done.
Qed.

(** ** The series *)
Lemma group_by_lookup {A} (key : A → Time) l (k : Time) :
  group_by key l !! k = match List.filter (λ a, key a =? k) l with [] => None | r => Some r end.
Proof.
  unfold group_by. induction l as [|a l IH] using rev_ind; [done|]. rewrite foldl_app, List.filter_app. cbn [foldl List.filter].
  set (g := foldl _ _ l) in *. clearbody g. destruct (Z.eqb_spec (key a) k) as [Hk|Hne].
  - rewrite Hk, lookup_insert_eq. rewrite IH. by destruct (List.filter (λ a, key a =? k) l).
  - by rewrite lookup_insert_ne, IH, app_nil_r by done.
Qed.
Definition to_bucket (kv : Time * list UsageRecord) : UsageBucket :=
  {| ub_Start := kv.1; ub_BytesIn := sum_of ur_BytesIn kv.2; ub_BytesOut := sum_of ur_BytesOut kv.2; ub_Requests := sum_of ur_Requests kv.2 |}.
Lemma series_lookup org since bucket l (k : Time) : sums_fit l → series_map org since bucket l !! k =
  (λ r, to_bucket (k, r)) <$> group_by (λ u, truncateTo (ur_WindowEnd u) bucket) (List.filter (in_period org since) l) !! k.
Proof.
  revert k. induction l as [|u l IH] using rev_ind; intros k Hf; [done|]. rewrite series_map_app, List.filter_app. cbn [List.filter].
  pose proof (fits_filter (in_period org since) _ Hf) as Hff. apply fits_snoc in Hf as [Hl _]. specialize (IH k Hl).
  destruct (in_period org since u) eqn:Hp; [|by rewrite app_nil_r]. rewrite List.filter_app in Hff. cbn [List.filter] in Hff. rewrite Hp in Hff.
  rewrite group_by_lookup, List.filter_app in *. cbn [List.filter]. unfold series_add.
  destruct (Z.eqb_spec (truncateTo (ur_WindowEnd u) bucket) k) as [Hk|Hne]; [|by rewrite lookup_insert_ne, app_nil_r by done].
  rewrite Hk, lookup_insert_eq, IH. clear IH.
  assert (Hg : sums_fit (List.filter (λ a, truncateTo (ur_WindowEnd a) bucket =? k) (List.filter (in_period org since) l) ++ [u])).
  { apply (fits_filter (λ a, truncateTo (ur_WindowEnd a) bucket =? k)) in Hff. rewrite List.filter_app in Hff. cbn in Hff. by rewrite Hk, Z.eqb_refl in Hff. }
  set (g := List.filter _ (List.filter _ l)) in *. apply fits_snoc in Hg as (_ & _ & _ & _ & H1 & H2 & H3).
  assert (Hb : to_bucket (k, g ++ [u]) = {| ub_Start := k; ub_BytesIn := sum_of ur_BytesIn g + ur_BytesIn u;
            ub_BytesOut := sum_of ur_BytesOut g + ur_BytesOut u; ub_Requests := sum_of ur_Requests g + ur_Requests u |}).
  { unfold to_bucket. cbn [fst snd]. rewrite !sum_of_app. unfold sum_of. cbn. by rewrite !Z.add_0_r. }
  destruct g as [|x g']; cbn [fmap option_fmap option_map app default from_option ub_Start ub_BytesIn ub_BytesOut ub_Requests];
    cbn in H1, H2, H3; f_equal; rewrite ?Hb.
  - unfold to_bucket. cbn. by rewrite !add64_exact, !Z.add_0_r by done.
  - change (x :: g' ++ [u]) with ((x :: g') ++ [u]). rewrite Hb. unfold to_bucket, id. cbn [ub_Start ub_BytesIn ub_BytesOut ub_Requests fst snd].
    by rewrite !add64_exact by done.
Qed.
Lemma scan_buckets_fit l : Forall (λ kv, sums_fit kv.2) l → scan_buckets l = Ok (to_bucket <$> l).
Proof. induction 1 as [|[b r] l Hf Hl IH]; [done|]. cbn [scan_buckets]. cbn in Hf. by rewrite scan_fits, IH. Qed.
Lemma sort_by_fmap {A B} (less : A → A → bool) (less' : B → B → bool) (f : A → B) l :
  (∀ a b, less' (f a) (f b) = less a b) → sort_by less' (f <$> l) = f <$> sort_by less l.
Proof.
  intros Hf. unfold sort_by. induction l as [|a l IH]; [done|]. cbn. rewrite IH. generalize (foldr (insert_by less) [] l). clear IH l.
  intros l. induction l as [|b l IH]; [done|]. cbn. rewrite Hf. destruct (less b a); [|done]. cbn. by rewrite IH.
Qed.
(** Sorting by start does not depend on the order when starts differ. *)
Lemma sort_starts l l' : l ≡ₚ l' → NoDup (map ub_Start l) → sort_by starts_before l = sort_by starts_before l'.
Proof.
  intros Hp Hnd.
  assert (Hst : ∀ k, k ≡ₚ l → StronglySorted (λ a b, ub_Start a < ub_Start b) (sort_by starts_before k)).
  { intros k Hk. apply Sorted_StronglySorted; [intros a b c; lia|]. apply Sorted_strict.
    - apply sort_by_sorted. unfold starts_before, Before. intros a b. rewrite Z.ltb_lt, Z.ltb_ge. lia.
    - by rewrite (Permutation_map ub_Start (sort_by_perm starts_before k)), (Permutation_map ub_Start Hk). }
  apply (StronglySorted_unique_strong (λ a b, ub_Start a < ub_Start b)); [lia|by apply Hst|by apply Hst|].
  by rewrite !sort_by_perm.
Qed.
Lemma map_starts (l : list (Time * list UsageRecord)) : map ub_Start (to_bucket <$> l) = l.*1.
Proof. induction l as [|[k r] l IH]; [done|]. cbn. f_equal. exact IH. Qed.
Lemma series_rows `{RangeOrder} (g : gmap Time (list UsageRecord)) (b : gmap Time UsageBucket) :
  (∀ k, b !! k = (λ r, to_bucket (k, r)) <$> g !! k) → (range_map b).*2 ≡ₚ to_bucket <$> map_to_list g.
Proof.
  intros Hb. rewrite range_map_perm. transitivity (((λ kv, (kv.1, to_bucket kv)) <$> map_to_list g).*2).
  - apply Permutation_map. apply NoDup_Permutation.
    + apply NoDup_map_to_list.
    + apply NoDup_fmap_2_strong; [|apply NoDup_map_to_list]. intros [k r] [k' r'] Hk Hk' [= <- _].
      apply elem_of_map_to_list in Hk, Hk'. congruence.
    + intros [k v]. rewrite elem_of_map_to_list, Hb, fmap_Some, list_elem_of_fmap. split.
      * intros (r & Hg & ->). exists (k, r). split; [done|]. by apply elem_of_map_to_list.
      * intros ([k' r] & [= -> ->] & Hg). exists r. split; [by apply elem_of_map_to_list in Hg|done].
  - by rewrite <-list_fmap_compose.
Qed.
Lemma sim_series org since bucket : agreed d m (CUsageSeriesForOrg org since bucket) → sim (CUsageSeriesForOrg org since bucket) d m.
Proof.
  intros [Hw Hf]. sides. unfold pg_UsageSeriesForOrg, UsageSeriesForOrg. cbv zeta. rewrite raw_query, (rel_usage _ _ Hr).
  erewrite (filter_ext' (in_period_sql org since)) by (intros u; by apply in_period_same).
  set (l := List.filter (in_period org since) (usage_ m)). set (b := if negb _ then _ else _).
  assert (Hkey : ∀ t, date_trunc b t = truncateTo t bucket).
  { intros t. unfold b. destruct (String.eqb_spec bucket "hour") as [->|Hne]; cbn [negb].
    - apply Hutc. by left.
    - rewrite Hutc by (by right). unfold truncateTo. by rewrite (proj2 (String.eqb_neq _ _) Hne). }
  set (g := group_by (λ u, date_trunc b (ur_WindowEnd u)) l).
  assert (Hg : ∀ k, series_map org since bucket (usage_ m) !! k = (λ r, to_bucket (k, r)) <$> g !! k).
  { intros k. rewrite series_lookup by done. unfold g. rewrite !group_by_lookup. fold l.
    by rewrite (filter_ext' (λ a, date_trunc b (ur_WindowEnd a) =? k) (λ a, truncateTo (ur_WindowEnd a) bucket =? k)) by (intros a; by rewrite Hkey). }
  rewrite scan_buckets_fit.
  - split; [|done]. cbn [same_answer same_reply]. f_equal. rewrite <-(sort_by_fmap _ starts_before to_bucket) by done.
    apply sort_starts; [|rewrite map_starts; apply range_nodup]. rewrite (series_rows g _ Hg). apply Permutation_map, range_map_perm.
  - apply list.Forall_forall. intros [k r]. rewrite sort_by_perm, elem_of_range. unfold g. rewrite group_by_lookup. cbn [snd].
    destruct (List.filter _ l) as [|x r'] eqn:E; [done|]. intros [= <-]. rewrite <-E. by apply fits_filter, fits_filter.
Qed.

(** * The dashboard *)
Lemma sum_add64 (f : UsageRecord → Z) l : Forall (λ u, 0 <= f u) l → in64 (sum_of f l) → foldl (λ a u, add64 a (f u)) 0 l = sum_of f l.
Proof.
  induction l as [|u l IH] using rev_ind; intros Hn Hs; [done|]. apply list.Forall_app in Hn as [Hn Hu]. apply list.Forall_cons in Hu as [Hu _].
  rewrite foldl_app, sum_of_app in *. change (sum_of f [u]) with (f u + 0) in *. cbn [foldl]. cbn beta in Hu. rewrite Z.add_0_r in *. unfold in64 in *.
  pose proof (sum_of_filter f (λ _, true) l Hn). rewrite IH by (done || lia). apply add64_exact. unfold in64. lia.
Qed.
Lemma sim_overview now : agreed d m (CAdminOverview now) → sim (CAdminOverview now) d m.
Proof.
  intros [Hw Hf]. sides. unfold pg_AdminOverview, AdminOverview, mbind, M_bind. cbv zeta. rewrite raw_query. unfold overview_counts. cbv zeta.
  assert (Hday : ∀ n, whole (now - n * 24 * Hour)).
  { intros n. unfold whole in *. replace (n * 24 * Hour) with (n * 86400000000 * 1000) by (unfold Hour, Minute, Second, Millisecond; lia).
    rewrite Zminus_mod, Hw, Z.mod_mul by done. done. }
  rewrite !timestamptz_whole by apply Hday. rewrite (rel_usage _ _ Hr).
  set (recent := List.filter (λ u, negb (Before (ur_WindowEnd u) (now - 30 * 24 * Hour))) (usage_ m)).
  rewrite (filter_ext' (λ u, now - 30 * 24 * Hour <=? ur_WindowEnd u) (λ u, negb (Before (ur_WindowEnd u) (now - 30 * 24 * Hour)))) by
    (intros u; unfold Before; by rewrite Z.leb_antisym). fold recent.
  assert (Hrec : sums_fit recent) by (by apply fits_filter). rewrite scan_fits by done. rewrite raw_query.
  split; [|done]. cbn [same_answer same_reply]. f_equal. unfold with_plans. destruct Hrec as (Hn & H1 & H2 & H3).
  rewrite !sum_add64; try done; try (eapply list.Forall_impl; [exact Hn|naive_solver]). cbn.
  rewrite !(count_any (H := sql)), (rel_users _ _ Hr), (rel_keys _ _ Hr), (rel_subs _ _ Hr), (rel_domains _ _ Hr).
  rewrite !(count_rows (H := sql) (λ u, After (us_CreatedAt u) _)), (count_rows (H := sql) active).
  rewrite !filter_range, (filter_perm active _ _ (rel_sessions _ _ Hr)).
  f_equal.
  - by rewrite <-(rel_orgs _ _ Hr), map_size_fmap.
  - rewrite (group_count_perm _ _ (rows (t_orgs d))).
    2:{ unfold any_row. rewrite (select_rows (λ _, true)). by rewrite filter_all. }
    transitivity (group_count (λ o, if String.eqb (og_Plan o) "" then "free" else og_Plan o) (@range_map go _ _ _ _ (orgs m)).*2); [|reflexivity].
    rewrite (group_count_perm _ _ (scan_org <$> rows (t_orgs d))), group_count_fmap by (by rewrite range_rows, org_rows).
    apply group_count_ext. intros o. unfold plan_group, nullStr. cbn. by destruct (String.eqb (gr_plan o) "").
  - by rewrite <-rows_length, (rel_sessions _ _ Hr).
Qed.

(** One call. *)
Lemma sim_call c : agreed d m c → sim c d m.
Proof.
  intros Ha. destruct c.
  - by apply sim_op. - apply sim_get_user. - apply sim_get_user_by_email. - apply sim_get_org. - apply sim_orgs_by_plan.
  - apply sim_list_members. - apply sim_orgs_for_user. - apply sim_get_key. - apply sim_list_keys. - apply sim_list_subdomains.
  - apply sim_reserved. - apply sim_count_subdomains. - apply sim_get_domain. - apply sim_domain_by_name. - apply sim_list_domains.
  - apply sim_count_domains. - by apply sim_usage_for_org. - by apply sim_series. - by apply sim_list_sessions. - apply sim_count_sessions.
  - apply sim_breakdown. - by apply sim_overview. - by apply sim_list_users. - by apply sim_list_orgs. - apply sim_get_subscription.
  - by apply sim_org_by_customer. - by apply sim_pending.
Qed.
End queries.

(** * The two stores *)
Section agreement.
  Context (go sql : RangeOrder) (date_trunc : string → Time → Time).

(** The same calls on both, and what each answers. *)
Fixpoint run_both (cs : list store_call) (d : Db) (m : MemStore)
    : list (store_call * result PgErr Reply * result StoreErr Reply) * Db * MemStore :=
  match cs with
  | [] => ([], d, m)
  | c :: cs =>
      let '(r, conn) := pg_call date_trunc (H := sql) c (quiet d) in
      let '(r', m') := mem_call (H := go) (translate d m c) m in
      let '(l, d2, m2) := run_both cs (cn_db conn) m' in
      ((c, r, r') :: l, d2, m2)
  end.
Fixpoint agreed_calls (cs : list store_call) (d : Db) (m : MemStore) : Prop :=
  match cs with
  | [] => True
  | c :: cs => agreed d m c ∧
      agreed_calls cs (cn_db (pg_call date_trunc (H := sql) c (quiet d)).2) (mem_call (H := go) (translate d m c) m).2
  end.

(** C22: the production store behaves as the in-memory one that the control plane is
    tested with. Whatever operations and queries are issued, in whatever order, over a
    connection that works and in a session at UTC, as long as each is one of those the
    two are meant to agree on ([agreed]), PostgreSQL's tables and the maps in memory stay
    related row by row and every call is answered alike: the same values and errors, up
    to the order of unordered rows, the serial numbers of metered rows, the id in
    the answer to an upserted subscription, and duplicates that are reported as the
    server's own error. *)
Theorem postgres_refines_memory cs d m :
  (∀ t bucket, bucket = "hour" ∨ bucket = "day" → date_trunc bucket t = truncateTo t bucket) →
  rel d m → agreed_calls cs d m →
  let '(answers, d', m') := run_both cs d m in
  Forall (λ a, same_answer a.1.1 a.1.2 a.2) answers ∧ (λ a, a.1.1) <$> answers = cs ∧ rel d' m'.
Proof.
  intros Hutc. revert d m. induction cs as [|c cs IH]; intros d m Hr Ha; [by cbn; split_and!; [apply list.Forall_nil|..]|]. destruct Ha as [Hc Ha].
  pose proof (sim_call go sql date_trunc Hutc d m Hr c Hc) as Hs. unfold PgSafety.sim in Hs. cbn [run_both].
  destruct (pg_call _ _ _) as [r conn]. destruct (mem_call _ m) as [r' m']. destruct Hs as (Hans & _ & Hr'). cbn [snd] in Ha.
  specialize (IH _ _ Hr' Ha). destruct (run_both cs (cn_db conn) m') as [[l d2] m2]. destruct IH as (Hl & Hcs & Hrel).
  split; [by apply list.Forall_cons|]. split; [cbn; by rewrite Hcs|done].
Qed.
End agreement.

(** * Examples *)
(** Runs of both stores, and where they differ. *)
Definition utc (bucket : string) (t : Time) : Time := truncateTo t bucket.
Definition ex_user (email : string) : User :=
  {| us_ID := ""; us_Email := email; us_Name := "Ann"; us_AvatarURL := ""; us_OAuthProvider := ""; us_CreatedAt := 0 |}.
Definition ex_org : Org :=
  {| og_ID := "org_1"; og_Name := "Ann's org"; og_Plan := ""; og_StripeCustomerID := ""; og_CreatedAt := 0; og_PlanExpiresAt := None |}.
Definition ex_name (id : string) : ReservedSubdomain :=
  {| rs_ID := id; rs_OrgID := "org_1"; rs_Subdomain := "demo"; rs_CreatedAt := 0 |}.
Definition ex_key : APIKey :=
  {| ak_ID := ""; ak_OrgID := "org_1"; ak_Name := "ci"; ak_Prefix := "tq_abc"; ak_Hash := "h"; ak_LastUsedAt := None;
     ak_RevokedAt := None; ak_CreatedAt := 0 |}.
(** A name is reserved twice, and taken again after its release. *)
Definition ex_calls : list store_call :=
  [CDo (SCreateOrg 1000 [1] ex_org); CDo (SCreateUser 2000 [2] (ex_user "ann@x.io"));
   CDo (SAddOrgMember {| om_OrgID := "org_1"; om_UserID := "user_02"; om_Role := "owner" |});
   CDo (SCreateAPIKey 3000 [3] ex_key);
   CDo (SReserveSubdomain 4000 [] (ex_name "sub_1")); CDo (SReserveSubdomain 5000 [] (ex_name "sub_2"));
   CIsSubdomainReserved "org_1" "DEMO"; CDo (SReleaseSubdomain "sub_1" "org_2"); CDo (SReleaseSubdomain "sub_1" "org_1");
   CDo (SReserveSubdomain 6000 [] (ex_name "sub_2")); CGetUserByEmail "Ann@X.io"; COrgsForUser "user_02"; CGetOrg "org_9"].

Lemma postgres_refines_memory_witness :
  let '(answers, d, m) := run_both sorted_range sorted_range utc ex_calls empty_db NewMemStore in
  rel d m ∧ (λ a, is_ok a.1.2) <$> answers =
    [true; true; true; true; true; false; true; false; true; true; true; true; false].
Proof.
  assert (Ha : agreed_calls sorted_range sorted_range utc ex_calls empty_db NewMemStore).
  { cbn [agreed_calls ex_calls].
    repeat match goal with
    | |- _ ∧ _ => split
    | |- agreed _ _ (CDo (SCreateUser _ _ _)) => split; [vm_compute; reflexivity|split; [vm_compute; reflexivity|]]
    | |- ∀ _, _ => intros ? ? Hv; exfalso; vm_compute in Hv; discriminate
    | |- agreed _ _ _ => vm_compute; repeat split; try reflexivity; by eexists
    | |- True => exact I
    end. }
  pose proof (postgres_refines_memory sorted_range sorted_range utc ex_calls empty_db NewMemStore
                (λ _ _ _, eq_refl) rel_empty Ha) as Hrun.
  destruct (run_both _ _ _ _ _ _) as [[answers d] m] eqn:E. destruct Hrun as (_ & _ & Hrel). split; [exact Hrel|].
  apply (f_equal (λ x, (λ a, is_ok a.1.2) <$> x.1.1)) in E. cbn [fst] in E. rewrite <-E. vm_compute. reflexivity.
Defined.

(** * Differences *)
Definition on_pg {A} (f : PgM A) (d : Db) : result PgErr A * Db := let '(r, c) := f (quiet d) in (r, cn_db c).
#[local] Existing Instance sorted_range.
Definition ann_db : Db := (on_pg (pg_CreateUser 2000 [2] (ex_user "ann@x.io")) empty_db).2.
Definition ann_mem : MemStore := (CreateUser 2000 [2] (ex_user "ann@x.io") NewMemStore).2.

(** The email column is unique as it is spelled, the in-memory store's in any case: a
    second account for the same address appears in PostgreSQL, where a lookup, which
    ignores case, finds either.  And an exact duplicate is the server's error there,
    not ErrConflict. *)
Example case_makes_two_users :
  is_ok (on_pg (pg_CreateUser 3000 [3] (ex_user "Ann@x.io")) ann_db).1 = true ∧
  (CreateUser 3000 [3] (ex_user "Ann@x.io") ann_mem).1 = Err ErrConflict ∧
  (on_pg (pg_CreateUser 3000 [3] (ex_user "ann@x.io")) ann_db).1 = Err (PSql unique_violation).
Proof. vm_compute. done. Qed.

(** An underscore in a search matches any character. *)
Example search_has_wildcards :
  length <$> (match (on_pg (pg_ListUsers 10 0 "a__@x") ann_db).1 with Ok l => Some l | Err _ => None end) = Some 1%nat ∧
  (ListUsers 10 0 "a__@x" ann_mem).1 = Ok [].
Proof. vm_compute. done. Qed.

Definition granted_org : Org :=
  {| og_ID := "org_1"; og_Name := "o"; og_Plan := "pro"; og_StripeCustomerID := ""; og_CreatedAt := 0; og_PlanExpiresAt := Some 9000 |}.
(** An org created with an expiry is stored without one. *)
Example created_expiry_is_dropped :
  og_PlanExpiresAt <$> (match (on_pg (pg_GetOrg "org_1") (on_pg (pg_CreateOrg 1000 [] granted_org) empty_db).2).1 with Ok o => Some o | Err _ => None end)
    = Some None ∧
  og_PlanExpiresAt <$> (match (GetOrg "org_1" (CreateOrg 1000 [] granted_org NewMemStore).2).1 with Ok o => Some o | Err _ => None end)
    = Some (Some 9000).
Proof. vm_compute. done. Qed.

Definition subscribed (org stripe : string) : Subscription :=
  {| sb_ID := ""; sb_OrgID := org; sb_StripeSubID := stripe; sb_StripeCustomerID := "cus"; sb_Plan := "pro"; sb_Status := "active";
     sb_CurrentPeriodEnd := 0; sb_CancelAtPeriodEnd := false; sb_CreatedAt := 0; sb_UpdatedAt := 0 |}.
Definition other_org : Org :=
  {| og_ID := "org_2"; og_Name := "o"; og_Plan := ""; og_StripeCustomerID := ""; og_CreatedAt := 0; og_PlanExpiresAt := None |}.
Definition orgs_db : Db := (on_pg (pg_CreateOrg 2000 [] other_org) (on_pg (pg_CreateOrg 1000 [] ex_org) empty_db).2).2.
Definition replaced_db : Db :=
  (on_pg (pg_UpsertSubscription 4000 [2] (subscribed "org_1" "sub_new"))
    (on_pg (pg_UpsertSubscription 3000 [1] (subscribed "org_1" "sub_old")) orgs_db).2).2.
Definition replaced_mem : MemStore :=
  (UpsertSubscription 4000 [2] (subscribed "org_1" "sub_new") (UpsertSubscription 3000 [1] (subscribed "org_1" "sub_old") NewMemStore).2).2.
(** The end of a replaced subscription removes the current row of the org in memory and
    nothing in PostgreSQL; and there an org whose subscription has no Stripe id excludes
    any other such org. *)
Example replaced_subscription_differs :
  (on_pg (pg_DeleteSubscription "sub_old") replaced_db).1 = Err PNotFound ∧
  is_ok (on_pg (pg_GetSubscriptionForOrg "org_1") replaced_db).1 = true ∧
  (GetSubscriptionForOrg "org_1" (DeleteSubscription "sub_old" replaced_mem).2).1 = Err ErrNotFound ∧
  (on_pg (pg_UpsertSubscription 4000 [2] (subscribed "org_2" ""))
    (on_pg (pg_UpsertSubscription 3000 [1] (subscribed "org_1" "")) orgs_db).2).1 = Err (PSql unique_violation).
Proof. vm_compute. done. Qed.

(** A statement whose answer is lost took effect: the repeated call is refused. *)
Example lost_answer_took_effect :
  let c := mkConn orgs_db [Lost "connection reset"; Through] in
  let '(r, c) := pg_ReserveSubdomain 1000 [7] (ex_name "") c in
  let '(r', _) := pg_ReserveSubdomain 1000 [8] (ex_name "") c in
  r = Err (PSql (DriverErr "connection reset")) ∧ r' = Err PConflict.
Proof. vm_compute. done. Qed.
