(* ===== verification/Upstream.v ===== *)
(** The reverse proxy of the edge to the control-plane services
    (internal/server/ingress_http.go and ingress_h3.go): the request it sends, the
    response it relays, hop-by-hop headers, the answers it writes itself, and the
    protocol a public connection is served with.  [http.Client] and [url.Parse] are
    third parties: what they answer is an argument. *)
From S2P Require Import Prelude GoStrings GoText Wire Authz Registry EdgeConfig Ports Hub Usage Edge Ingress ApiConfig RateLimit Geo.
From Stdlib Require Import Ascii.

Open Scope Z_scope.

Definition CRLF : string := String (Ascii.ascii_of_nat 13) (String (Ascii.ascii_of_nat 10) EmptyString).
Definition LF : string := String (Ascii.ascii_of_nat 10) EmptyString.
Definition quote : string := String (Ascii.ascii_of_nat 34) EmptyString.

(** * Headers *)
(** [Header.Del] of a name as written. *)
Definition DelName (h : Header) (name : string) : Header := Del h (CanonicalHeaderKey name).
Definition hopByHopHeaders : list string :=
  ["Connection"; "Proxy-Connection"; "Keep-Alive"; "Proxy-Authenticate"; "Proxy-Authorization"; "Te"; "Trailer";
   "Transfer-Encoding"; "Upgrade"].
(** The names a Connection header lists. *)
Definition connection_names (h : Header) : list string :=
  List.filter (λ sf, negb (String.eqb sf "")) (TrimSpace <$> mjoin ((λ f, Split f ","%char) <$> default [] (h !! "Connection"))).
Definition removeHopByHopHeaders (h : Header) : Header :=
  foldl Del (foldl DelName h (connection_names h)) hopByHopHeaders.
(** [Header.Add] for every value of every key, in the order of the map. *)
Definition Add (h : Header) (name v : string) : Header :=
  let k := CanonicalHeaderKey name in <[k := default [] (h !! k) ++ [v]]> h.
Definition copyHeader `{RangeOrder} (dst src : Header) : Header :=
  foldl (λ h kv, foldl (λ h v, Add h kv.1 v) h kv.2) dst (range_map src).
(** The value advertised while HTTP/3 is up. *)
Definition alt_svc (advPort : Z) : string := "h3=" +:+ quote +:+ ":" +:+ Itoa advPort +:+ quote +:+ "; ma=86400".
Definition advertise_port (boundPort configured : Z) : Z := if configured >? 0 then configured else boundPort.
Definition setAltSvc (altSvc : option string) (h : Header) : Header :=
  match altSvc with Some v => if String.eqb v "" then h else Set_ h "Alt-Svc" v | None => h end.
Definition hsts (scheme : string) (h : Header) : Header :=
  if String.eqb scheme "https" then Set_ h "Strict-Transport-Security" "max-age=31536000; includeSubDomains" else h.

(** * Answers the edge writes *)
Definition http_head (status : string) (headers : list (string * string)) : string :=
  "HTTP/1.1 " +:+ status +:+ CRLF +:+ foldr (λ kv s, kv.1 +:+ ": " +:+ kv.2 +:+ CRLF +:+ s) CRLF headers.
Definition len_text (s : string) : string := Itoa (Z.of_nat (String.length s)).
Definition redirectToHTTPS (host requestURI : string) : string :=
  let target := "https://" +:+ host +:+ requestURI in
  let body := "Redirecting to " +:+ target +:+ LF in
  http_head "301 Moved Permanently"
    [("Location", target); ("Content-Type", "text/plain; charset=utf-8"); ("Content-Length", len_text body); ("Connection", "close")] +:+ body.
Definition writeUnauthorized : string :=
  let body := "401 unauthorized" +:+ LF in
  http_head "401 Unauthorized"
    [("WWW-Authenticate", "Basic realm=" +:+ quote +:+ "trqsh" +:+ quote); ("Content-Type", "text/plain");
     ("Content-Length", len_text body); ("Connection", "keep-alive")] +:+ body.

(** * The exchange with an upstream *)
Record OutRequest := { ou_Scheme : string; ou_URLHost : string; ou_Host : string; ou_URI : string; ou_Header : Header }.
Record UpResponse := { up_Status : Z; up_Header : Header; up_Close : bool; up_Body : string }.
Inductive DoResult := DoOk (r : UpResponse) | DoDial | DoFailed.
(** What the client gets: an error page of the edge or a response. *)
Inductive Reply := RError (status : Z) (body : string) | RResponse (r : UpResponse).
Record ProxyExchange := { ex_sent : option OutRequest; ex_reply : Reply; ex_keep : bool }.

Section proxy.
  (** [url.Parse]: scheme and host. *)
  Context (parse : string → option (string * string)) (altSvc : option string).
Definition parse_upstream (upstream : string) : option (string * string) :=
  match parse upstream with Some (sc, host) => if String.eqb host "" then None else Some (sc, host) | None => None end.
Definition forwarded (xff : option string) (scheme : string) (req : Request) : Header :=
  let h := removeHopByHopHeaders (rq_Header req) in
  let h := Set_ h "X-Forwarded-Proto" scheme in
  let h := Set_ h "X-Forwarded-Host" (rq_Host req) in
  match xff with Some ip => Set_ h "X-Forwarded-For" ip | None => h end.
Definition out_request (sc host : string) (h : Header) (req : Request) : OutRequest :=
  {| ou_Scheme := sc; ou_URLHost := host; ou_Host := rq_Host req; ou_URI := rq_URI req; ou_Header := h |}.
Definition do_error (r : DoResult) : string :=
  match r with DoDial => "502 upstream unreachable" | _ => "502 upstream bad response" end.

(** [written]: whether the response could be written to the client. *)
Definition proxyToUpstream (remote : string) (req : Request) (scheme upstream : string) (answer : OutRequest → DoResult) (written : bool) : ProxyExchange :=
  match parse_upstream upstream with
  | None => {| ex_sent := None; ex_reply := RError 502 ("502 upstream misconfigured" +:+ LF); ex_keep := false |}
  | Some (sc, host) =>
      let xff := match SplitHostPort remote with Some (ip, _) => ip | None => remote end in
      let out := out_request sc host (forwarded (Some xff) scheme req) req in
      match answer out with
      | DoOk resp =>
          let h := setAltSvc altSvc (hsts scheme (up_Header resp)) in
          {| ex_sent := Some out;
             ex_reply := RResponse {| up_Status := up_Status resp; up_Header := h; up_Close := up_Close resp; up_Body := up_Body resp |};
             ex_keep := written && negb (rq_Close req) && negb (up_Close resp) |}
      | e => {| ex_sent := Some out; ex_reply := RError 502 (do_error e +:+ LF); ex_keep := false |}
      end
  end.
(** Over HTTP/2 and HTTP/3; the connection outlives the exchange. *)
Definition proxyToUpstreamH3 `{RangeOrder} (remote : string) (req : Request) (scheme upstream : string) (answer : OutRequest → DoResult) : ProxyExchange :=
  match parse_upstream upstream with
  | None => {| ex_sent := None; ex_reply := RError 502 ("502 upstream misconfigured" +:+ LF); ex_keep := true |}
  | Some (sc, host) =>
      let xff := match SplitHostPort remote with
                 | Some (ip, _) => Some ip
                 | None => if String.eqb remote "" then None else Some remote
                 end in
      let out := out_request sc host (forwarded xff scheme req) req in
      match answer out with
      | DoOk resp =>
          let h := setAltSvc altSvc (copyHeader ∅ (removeHopByHopHeaders (hsts scheme (up_Header resp)))) in
          {| ex_sent := Some out;
             ex_reply := RResponse {| up_Status := up_Status resp; up_Header := h; up_Close := up_Close resp; up_Body := up_Body resp |};
             ex_keep := true |}
      | e => {| ex_sent := Some out; ex_reply := RError 502 (do_error e +:+ LF); ex_keep := true |}
      end
  end.
End proxy.

(** * The protocol of a public connection *)
(** What the handshake of a TLS connection ends with. *)
Inductive Handshake := NotTLS | HFailed | HDone (alpn : string).
Inductive ServedBy := SClosed | SHttp1 | SHttp2.
Definition serveMaybeH2 (h : Handshake) : ServedBy :=
  match h with
  | NotTLS => SHttp1
  | HFailed => SClosed
  | HDone alpn => if String.eqb alpn "h2" then SHttp2 else SHttp1
  end.
Definition served_by (enableH2 : bool) (h : Handshake) : ServedBy := if enableH2 then serveMaybeH2 h else SHttp1.
(** The protocols the HTTPS listener offers, and those of the HTTP/3 one. *)
Definition https_protos (enableH2 : bool) (base : list string) : list string := if enableH2 then "h2" :: base else base.

(** * The theorem *)
Lemma foldl_Del_lookup l (h : Header) k : foldl Del h l !! k = if bool_decide (k ∈ l) then None else h !! k.
Proof.
  revert h. induction l as [|a l IH]; intros h; cbn [foldl]; [by rewrite bool_decide_eq_false_2 by apply not_elem_of_nil|].
  rewrite IH. unfold Del. destruct (decide (k = a)) as [->|Hne].
  - rewrite lookup_delete_eq. rewrite (bool_decide_eq_true_2 (a ∈ a :: l)) by left. by case_bool_decide.
  - rewrite lookup_delete_ne by done. repeat case_bool_decide; try done; [by destruct (H0 ltac:(by right))|].
    apply elem_of_cons in H0 as [|]; done.
Qed.
Lemma foldl_DelName l h : foldl DelName h l = foldl Del h (CanonicalHeaderKey <$> l).
Proof. revert h. induction l as [|a l IH]; intros h; [done|]. cbn. apply IH. Qed.
(** The headers that do not pass a hop. *)
Definition hop_by_hop (h : Header) (k : string) : Prop := k ∈ hopByHopHeaders ∨ k ∈ (CanonicalHeaderKey <$> connection_names h).
Lemma removeHopByHop_lookup h k : removeHopByHopHeaders h !! k = if bool_decide (k ∈ hopByHopHeaders ∨ k ∈ (CanonicalHeaderKey <$> connection_names h)) then None else h !! k.
Proof.
  unfold removeHopByHopHeaders. rewrite foldl_DelName, !foldl_Del_lookup. repeat case_bool_decide; naive_solver.
Qed.

(** An address as the kernel gives it: not empty, no comma, no surrounding space. *)
Definition plain_ip (ip : string) : Prop := ip ≠ "" ∧ has_byte ip ","%char = false ∧ TrimSpace ip = ip.
Lemma clientIP_forwarded h ip remote : h !! "X-Forwarded-For" = Some [ip] → plain_ip ip → clientIP h remote true = ip.
Proof.
  intros Hh (Hne & Hc & Ht). unfold clientIP, Get. rewrite Hh. destruct (String.eqb_spec ip "") as [|_]; [done|].
  rewrite Split_whole by done. change (default "" (head [ip])) with ip. rewrite Ht. by destruct (String.eqb_spec ip "").
Qed.

Definition forwarded_names : list string := ["X-Forwarded-Proto"; "X-Forwarded-Host"; "X-Forwarded-For"].
Lemma forwarded_lookup ip scheme req :
  let h := forwarded (Some ip) scheme req in
  h !! "X-Forwarded-Proto" = Some [scheme] ∧ h !! "X-Forwarded-Host" = Some [rq_Host req] ∧ h !! "X-Forwarded-For" = Some [ip] ∧
  ∀ k, k ∉ forwarded_names → h !! k =
    if bool_decide (k ∈ hopByHopHeaders ∨ k ∈ (CanonicalHeaderKey <$> connection_names (rq_Header req))) then None else rq_Header req !! k.
Proof.
  cbv zeta. unfold forwarded, Set_. split_and!.
  - by rewrite !lookup_insert_ne, lookup_insert_eq by done.
  - by rewrite lookup_insert_ne, lookup_insert_eq by done.
  - by rewrite lookup_insert_eq.
  - intros k Hk. unfold forwarded_names in Hk. rewrite !not_elem_of_cons in Hk. destruct Hk as (H1 & H2 & H3 & _).
    by rewrite !lookup_insert_ne, removeHopByHop_lookup by done.
Qed.

(** Whatever the upstream answers, what was sent is what was built. *)
Lemma sent_is_out (a : DoResult) (o out : OutRequest) (f : UpResponse → ProxyExchange) (e1 e2 : ProxyExchange) :
  (∀ r, ex_sent (f r) = Some o) → ex_sent e1 = Some o → ex_sent e2 = Some o →
  ex_sent match a with DoOk r => f r | DoDial => e1 | DoFailed => e2 end = Some out → out = o.
Proof. intros Hf H1 H2. destruct a; rewrite ?Hf, ?H1, ?H2; by intros [= ->]. Qed.

(** C33: what a control-plane service is told about a public request is true. Over
    HTTP/1.1, HTTP/2 and HTTP/3, whatever headers the client sends, the request the edge
    sends to the upstream has the client's host and URI and all its headers but the
    hop-by-hop ones, among them those its Connection header names, and the three that
    describe the hop, which say the scheme, the host and the address the connection
    came from; so that the API, when it trusts the proxy, counts the request against that
    address, whatever X-Forwarded-For or X-Real-Ip the client made up. *)
Theorem proxied_requests_are_honest `{RangeOrder} parse altSvc remote req scheme upstream answer written out : remote ≠ "" →
  ex_sent (proxyToUpstream parse altSvc remote req scheme upstream answer written) = Some out ∨
  ex_sent (proxyToUpstreamH3 parse altSvc remote req scheme upstream answer) = Some out →
  parse_upstream parse upstream = Some (ou_Scheme out, ou_URLHost out) ∧ ou_Host out = rq_Host req ∧ ou_URI out = rq_URI req ∧
  ou_Header out !! "X-Forwarded-Proto" = Some [scheme] ∧ ou_Header out !! "X-Forwarded-Host" = Some [rq_Host req] ∧
  ou_Header out !! "X-Forwarded-For" = Some [peer_ip remote] ∧
  (∀ k, k ∉ forwarded_names → hop_by_hop (rq_Header req) k → ou_Header out !! k = None) ∧
  (∀ k, k ∉ forwarded_names → ¬ hop_by_hop (rq_Header req) k → ou_Header out !! k = rq_Header req !! k) ∧
  (plain_ip (peer_ip remote) → ∀ addr, clientIP (ou_Header out) addr true = peer_ip remote).
Proof.
  intros Hrem Hsent.
  assert (Hout : ∃ sc host, parse_upstream parse upstream = Some (sc, host) ∧ out = out_request sc host (forwarded (Some (peer_ip remote)) scheme req) req).
  { unfold proxyToUpstream, proxyToUpstreamH3, peer_ip in *. destruct (parse_upstream parse upstream) as [[sc host]|]; [|by destruct Hsent].
    exists sc, host. split; [done|]. destruct Hsent as [Hs|Hs].
    - eapply sent_is_out; [..|exact Hs]; reflexivity.
    - destruct (String.eqb_spec remote "") as [|_]; [done|].
      destruct (SplitHostPort remote) as [[ip port]|]; (eapply sent_is_out; [..|exact Hs]; reflexivity). }
  destruct Hout as (sc & host & -> & ->). cbn [out_request ou_Scheme ou_URLHost ou_Host ou_URI ou_Header].
  destruct (forwarded_lookup (peer_ip remote) scheme req) as (H1 & H2 & H3 & H4). split_and!; try done.
  - intros k Hk Hh. rewrite H4 by done. by rewrite bool_decide_eq_true_2.
  - intros k Hk Hh. rewrite H4 by done. by rewrite bool_decide_eq_false_2.
  - intros Hip addr. by apply clientIP_forwarded.
Qed.

(** A client that names the address header in Connection and sends a list of its own. *)
Definition ex_spoof : Request :=
  {| rq_Host := "api.trqsh.uz"; rq_URI := "/v1/plans/public";
     rq_Header := list_to_map [("X-Forwarded-For", ["1.1.1.1, 2.2.2.2"]); ("X-Real-Ip", ["3.3.3.3"]); ("Connection", ["close, x-forwarded-for"; "X-Secret"]);
                               ("X-Secret", ["s"]); ("Accept", ["text/html"])];
     rq_ContentLength := 0; rq_Close := false |}.
Definition ex_parse (s : string) : option (string * string) := Some ("http", "api:8080").
Definition ex_out : OutRequest := out_request "http" "api:8080" (forwarded (Some "203.0.113.7") "https" ex_spoof) ex_spoof.
Lemma proxied_requests_are_honest_witness :
  ex_sent (proxyToUpstream ex_parse None "203.0.113.7:5555" ex_spoof "https" "http://api:8080" (λ _, DoFailed) true) = Some ex_out ∧
  clientIP (ou_Header ex_out) "172.17.0.1:9" true = "203.0.113.7" ∧
  ou_Header ex_out !! "X-Secret" = None ∧ ou_Header ex_out !! "Accept" = Some ["text/html"].
Proof.
  assert (Hs : ex_sent (proxyToUpstream ex_parse None "203.0.113.7:5555" ex_spoof "https" "http://api:8080" (λ _, DoFailed) true) = Some ex_out)
    by (vm_compute; reflexivity).
  split; [exact Hs|].
  destruct (proxied_requests_are_honest (H := sorted_range) ex_parse None "203.0.113.7:5555" ex_spoof "https" "http://api:8080" (λ _, DoFailed) true ex_out
              ltac:(discriminate) (or_introl Hs)) as (_ & _ & _ & _ & _ & _ & Hhop & Hkeep & Hip).
  replace (peer_ip "203.0.113.7:5555") with "203.0.113.7" in Hip by (vm_compute; reflexivity).
  split; [|split].
  - apply Hip. split; [discriminate|split; vm_compute; reflexivity].
  - apply Hhop; [refine (bool_decide_eq_true_1 _ _); vm_compute; reflexivity|].
    right. refine (bool_decide_eq_true_1 _ _); vm_compute; reflexivity.
  - rewrite Hkeep; [vm_compute; reflexivity|refine (bool_decide_eq_true_1 _ _); vm_compute; reflexivity|].
    intros [Hin|Hin]; pose proof (bool_decide_eq_true_2 _ Hin) as Hb; vm_compute in Hb; discriminate Hb.
Defined.
