(* ===== verification/Transport.v ===== *)
(** The transports (pkg/tunnel): the dialer of the agent with its fallback, and the
    listener of the edge, whose two accept loops and handshake goroutines hand sessions
    to one [Accept].  QUIC, TLS and yamux are third parties: what they answer is an
    argument of the dialer and an event of the listener. *)
From S2P Require Import Prelude GoStrings.

Open Scope Z_scope.

(** * Kinds and tuning *)
Definition Kind : Type := string.
Definition KindQUIC : Kind := "quic".
Definition KindTCP : Kind := "tcp".
Definition ALPNProto : string := "trqsh/1".
Definition defaultDialTimeout : Duration := 10 * Second.
Definition defaultKeepAlive : Duration := 15 * Second.
Definition defaultMaxIdle : Duration := 30 * Second.

Record QuicConfig := {
  qc_KeepAlivePeriod : Duration; qc_MaxIdleTimeout : Duration; qc_EnableDatagrams : bool;
  qc_InitialStreamReceiveWindow : Z; qc_MaxStreamReceiveWindow : Z;
  qc_InitialConnectionReceiveWindow : Z; qc_MaxConnectionReceiveWindow : Z; qc_MaxIncomingStreams : Z;
}.
Definition quicConfig (keepAlive : Duration) : QuicConfig :=
  {| qc_KeepAlivePeriod := if keepAlive <=? 0 then defaultKeepAlive else keepAlive;
     qc_MaxIdleTimeout := defaultMaxIdle; qc_EnableDatagrams := true;
     qc_InitialStreamReceiveWindow := Z.shiftl 4 20; qc_MaxStreamReceiveWindow := Z.shiftl 16 20;
     qc_InitialConnectionReceiveWindow := Z.shiftl 8 20; qc_MaxConnectionReceiveWindow := Z.shiftl 64 20;
     qc_MaxIncomingStreams := 4096 |}.

(** A connection of the operating system, open until someone closes it. *)
Definition conn := nat.
Record Session := { ss_Kind : Kind; ss_conn : conn }.

(** * The dialer *)
Record Dialer := {
  dl_NextProtos : option (list string); (* of TLSConfig, [None] when it is nil *)
  dl_Prefer : Kind; dl_ForceKind : Kind; dl_DialTimeout : Duration; dl_KeepAlive : Duration;
}.
Definition attemptOrder (d : Dialer) : list Kind :=
  if String.eqb (dl_ForceKind d) KindQUIC || String.eqb (dl_ForceKind d) KindTCP then [dl_ForceKind d]
  else
    let primary := if String.eqb (dl_Prefer d) "" then KindQUIC else dl_Prefer d in
    if String.eqb primary KindTCP then [KindTCP; KindQUIC] else [KindQUIC; KindTCP].
Definition dialTimeout (d : Dialer) : Duration := if dl_DialTimeout d >? 0 then dl_DialTimeout d else defaultDialTimeout.
Definition keepAlive (d : Dialer) : Duration := if dl_KeepAlive d >? 0 then dl_KeepAlive d else defaultKeepAlive.
(** The protocols of the clone. *)
Definition tlsClone (protos : option (list string)) : list string :=
  match default [] protos with [] => [ALPNProto] | l => l end.

(** What the network answers to an attempt, within its timeout. *)
Inductive QuicAnswer := QFail (err : string) | QConn (c : conn).
Inductive TcpAnswer := TFail (err : string) | THandshake (c : conn) (err : string) | TMux (c : conn) (err : string) | TConn (c : conn).
Record Net := { net_quic : list string → Duration → QuicConfig → QuicAnswer; net_tcp : list string → Duration → TcpAnswer }.

(** [open]: the connections that are open. *)
Definition dialQUIC (d : Dialer) (n : Net) (open : gset conn) : result string Session * gset conn :=
  match net_quic n (tlsClone (dl_NextProtos d)) (dialTimeout d) (quicConfig (keepAlive d)) with
  | QFail e => (Err e, open)
  | QConn c => (Ok {| ss_Kind := KindQUIC; ss_conn := c |}, {[c]} ∪ open)
  end.
Definition dialTCP (d : Dialer) (n : Net) (open : gset conn) : result string Session * gset conn :=
  match net_tcp n (tlsClone (dl_NextProtos d)) (dialTimeout d) with
  | TFail e => (Err e, open)
  | THandshake c e => (Err e, ({[c]} ∪ open) ∖ {[c]}) (* raw.Close() *)
  | TMux c e => (Err e, ({[c]} ∪ open) ∖ {[c]}) (* tlsConn.Close() *)
  | TConn c => (Ok {| ss_Kind := KindTCP; ss_conn := c |}, {[c]} ∪ open)
  end.
(** One turn of the loop: an unknown kind leaves a nil session and a nil error. *)
Definition dial_one (d : Dialer) (n : Net) (k : Kind) (open : gset conn) : result string (option Session) * gset conn :=
  let some r := match r with Ok s => Ok (Some s) | Err e => Err e end in
  if String.eqb k KindQUIC then let '(r, open) := dialQUIC d n open in (some r, open)
  else if String.eqb k KindTCP then let '(r, open) := dialTCP d n open in (some r, open)
  else (Ok None, open).
(** [cancelled i]: whether the caller's context is done after attempt [i]. *)
Fixpoint dial_loop (d : Dialer) (n : Net) (cancelled : nat → bool) (i : nat) (order : list Kind) (errs : list (Kind * string)) (open : gset conn)
    : result (list (Kind * string)) (option Session) * gset conn :=
  match order with
  | [] => (Err errs, open)
  | k :: order =>
      match dial_one d n k open with
      | (Ok s, open) => (Ok s, open)
      | (Err e, open) =>
          let errs := errs ++ [(k, e)] in
          if cancelled i then (Err errs, open) else dial_loop d n cancelled (S i) order errs open
      end
  end.
Definition Dial (d : Dialer) (n : Net) (cancelled : nat → bool) (open : gset conn) : result (list (Kind * string)) (option Session) * gset conn :=
  dial_loop d n cancelled 0 (attemptOrder d) [] open.

(** * The listener *)
(** An accept loop waits in Accept, or in [push] with a session or an error. *)
Inductive Loop := LIdle | LPush (r : option conn) | LExit.
Inductive Transport := TQuic | TTcp.
Inductive Phase := PHandshake | PPush (t : Transport) | PDelivered | PClosed.
#[export] Instance Transport_eq_dec : EqDecision Transport.
Proof. solve_decision. Defined.
#[export] Instance Phase_eq_dec : EqDecision Phase.
Proof. solve_decision. Defined.

(** A quic.Listener; a closed one still hands out the connections that are queued in it. *)
Inductive QuicLn := QOpen | QClosed (queued : nat).
Record multiListener := {
  ml_done : bool; (* m.ctx *)
  ml_quicLn : option QuicLn; (* if there is one *)
  ml_tcpLn : option bool; (* it is open *)
  ml_quic : Loop; (* the goroutine of acceptQUIC *)
  ml_tcp : Loop;
  ml_conns : gmap conn Phase; (* the connections it accepted *)
  ml_out : list (option conn); (* what Accept returned: a session or an error *)
}.

(** Who is in [push]. *)
Inductive Pusher := ByQuic | ByTcp | ByConn (c : conn).
Inductive ListenerEvent :=
| EQuicAccept (r : option conn) | ETcpAccept (r : option conn)
| EHandshake (c : conn) (ok : bool) (* the handshake and the multiplexer of serveTCP *)
| EDeliver (p : Pusher) (* a caller is in Accept *)
| EDrop (p : Pusher)
| ECancel | ECloseQuic (queued : nat) | ECloseTcp. (* Close *)

Definition set_quic (l : Loop) (s : multiListener) : multiListener :=
  {| ml_done := ml_done s; ml_quicLn := ml_quicLn s; ml_tcpLn := ml_tcpLn s; ml_quic := l; ml_tcp := ml_tcp s; ml_conns := ml_conns s; ml_out := ml_out s |}.
Definition set_tcp (l : Loop) (s : multiListener) : multiListener :=
  {| ml_done := ml_done s; ml_quicLn := ml_quicLn s; ml_tcpLn := ml_tcpLn s; ml_quic := ml_quic s; ml_tcp := l; ml_conns := ml_conns s; ml_out := ml_out s |}.
Definition set_conn (c : conn) (p : Phase) (s : multiListener) : multiListener :=
  {| ml_done := ml_done s; ml_quicLn := ml_quicLn s; ml_tcpLn := ml_tcpLn s; ml_quic := ml_quic s; ml_tcp := ml_tcp s; ml_conns := <[c := p]> (ml_conns s); ml_out := ml_out s |}.
Definition put_out (r : option conn) (s : multiListener) : multiListener :=
  {| ml_done := ml_done s; ml_quicLn := ml_quicLn s; ml_tcpLn := ml_tcpLn s; ml_quic := ml_quic s; ml_tcp := ml_tcp s; ml_conns := ml_conns s; ml_out := ml_out s ++ [r] |}.
Definition set_ctx (done : bool) (q : option QuicLn) (t : option bool) (s : multiListener) : multiListener :=
  {| ml_done := done; ml_quicLn := q; ml_tcpLn := t; ml_quic := ml_quic s; ml_tcp := ml_tcp s; ml_conns := ml_conns s; ml_out := ml_out s |}.

(** An accept that failed: the loop ends when the listener is closing. *)
Definition accept_failed (s : multiListener) : Loop := if ml_done s then LExit else LPush None.
Definition fresh (c : conn) (s : multiListener) : bool := bool_decide (ml_conns s !! c = None).
(** [push] is over: the result, and the loop waits again. *)
Definition pushed (p : Pusher) (s : multiListener) : option (option conn * multiListener) :=
  match p with
  | ByQuic => match ml_quic s with LPush r => Some (r, set_quic LIdle s) | _ => None end
  | ByTcp => match ml_tcp s with LPush r => Some (r, set_tcp LIdle s) | _ => None end
  | ByConn c => if bool_decide (ml_conns s !! c = Some (PPush TTcp)) then Some (Some c, s) else None
  end.
Definition settle_conn (r : option conn) (p : Phase) (s : multiListener) : multiListener :=
  match r with Some c => set_conn c p s | None => s end.

Definition step (s : multiListener) (e : ListenerEvent) : option multiListener :=
  match e with
  | EQuicAccept (Some c) =>
      let accept s := if fresh c s then Some (set_quic (LPush (Some c)) (set_conn c (PPush TQuic) s)) else None in
      match ml_quic s, ml_quicLn s with
      | LIdle, Some QOpen => accept s
      | LIdle, Some (QClosed (S n)) => accept (set_ctx (ml_done s) (Some (QClosed n)) (ml_tcpLn s) s)
      | _, _ => None
      end
  | EQuicAccept None => match ml_quic s with LIdle => Some (set_quic (accept_failed s) s) | _ => None end
  | ETcpAccept (Some c) =>
      match ml_tcp s, ml_tcpLn s with
      | LIdle, Some true => if fresh c s then Some (set_conn c PHandshake s) else None
      | _, _ => None
      end
  | ETcpAccept None => match ml_tcp s with LIdle => Some (set_tcp (accept_failed s) s) | _ => None end
  | EHandshake c ok =>
      if bool_decide (ml_conns s !! c = Some PHandshake) then Some (set_conn c (if ok then PPush TTcp else PClosed) s) else None
  | EDeliver p => '(r, s) ← pushed p s; Some (put_out r (settle_conn r PDelivered s))
  | EDrop p => if ml_done s then '(r, s) ← pushed p s; Some (settle_conn r PClosed s) else None
  | ECancel => if ml_done s then None else Some (set_ctx true (ml_quicLn s) (ml_tcpLn s) s)
  | ECloseQuic n => match ml_done s, ml_quicLn s with true, Some QOpen => Some (set_ctx true (Some (QClosed n)) (ml_tcpLn s) s) | _, _ => None end
  | ECloseTcp => match ml_done s, ml_tcpLn s with true, Some true => Some (set_ctx true (ml_quicLn s) (Some false) s) | _, _ => None end
  end.
Fixpoint steps (s : multiListener) (es : list ListenerEvent) : option multiListener :=
  match es with [] => Some s | e :: es => s ← step s e; steps s es end.

(** [Listen]: what the operating system answers to the two listens.  When the second
    fails, the loop of the first has been running [meanwhile], and [queued] connections
    wait in its listener. *)
Definition started (quic tcp : bool) : multiListener :=
  {| ml_done := false; ml_quicLn := if quic then Some QOpen else None; ml_tcpLn := if tcp then Some true else None;
     ml_quic := if quic then LIdle else LExit; ml_tcp := if tcp then LIdle else LExit; ml_conns := ∅; ml_out := [] |}.
Definition Listen (quicAddr tcpAddr : string) (listenQuic listenTcp : result string unit) (meanwhile : list ListenerEvent) (queued : nat)
    : result string unit * option multiListener :=
  let q := negb (String.eqb quicAddr "") in
  let t := negb (String.eqb tcpAddr "") in
  if negb q && negb t then (Err "tunnel: Listen requires at least one of quicAddr/tcpAddr", None)
  else
    match (if q then listenQuic else Ok tt) with
    | Err e => (Err e, None)
    | Ok _ =>
        match (if t then listenTcp else Ok tt) with
        | Err e =>
            (Err e, s ← steps (started q false) meanwhile; s ← step s ECancel; if q then step s (ECloseQuic queued) else Some s)
        | Ok _ => (Ok tt, Some (started q t))
        end
    end.
(** The address it reports. *)
Definition Addr (s : multiListener) : option Transport :=
  match ml_quicLn s, ml_tcpLn s with Some _, _ => Some TQuic | None, Some _ => Some TTcp | None, None => None end.

(** * Sessions over yamux *)
(** yamux has no context of its own: a goroutine cancels the session's when the
    multiplexer closes. *)
Record YamuxConfig := { yc_EnableKeepAlive : bool; yc_KeepAliveInterval : Duration }.
(** [dflt]: yamux.DefaultConfig. *)
Definition yamuxConfig (dflt : YamuxConfig) (keepAlive : Duration) : YamuxConfig :=
  if keepAlive >? 0 then {| yc_EnableKeepAlive := true; yc_KeepAliveInterval := keepAlive |} else dflt.
Record yamuxSession := { ys_closed : bool; ys_done : bool; ys_watching : bool }.
Definition newYamuxSession (closed : bool) : yamuxSession := {| ys_closed := closed; ys_done := false; ys_watching := true |}.
Inductive YamuxEvent := YMuxClosed (* the peer or the keepalive *) | YCloseWithError | YWatcher.
Definition yamux_step (s : yamuxSession) (e : YamuxEvent) : option yamuxSession :=
  match e with
  | YMuxClosed => Some {| ys_closed := true; ys_done := ys_done s; ys_watching := ys_watching s |}
  | YCloseWithError => Some {| ys_closed := true; ys_done := true; ys_watching := ys_watching s |}
  | YWatcher => if ys_closed s && ys_watching s then Some {| ys_closed := true; ys_done := true; ys_watching := false |} else None
  end.
Definition yamux_steps (s : yamuxSession) (es : list YamuxEvent) : option yamuxSession :=
  foldl (λ s e, s ← s; yamux_step s e) (Some s) es.
