(* ===== verification/TransportSafety.v ===== *)
(** Theorems about the transports: the dialer falls back and leaks nothing; the listener
    hands every session over once, or closes it, and comes to rest after Close. *)
From S2P Require Import Prelude GoStrings Transport.

Open Scope Z_scope.

(** * The listener *)
Lemma steps_app s es es' : steps s (es ++ es') = s' ← steps s es; steps s' es'.
Proof. revert s. induction es as [|e es IH]; intros s; [done|]. cbn [steps app]. destruct (step s e) as [s1|]; [apply IH|done]. Qed.
Lemma steps_snoc s es e s'' : steps s (es ++ [e]) = Some s'' ↔ ∃ s', steps s es = Some s' ∧ step s' e = Some s''.
Proof.
  rewrite steps_app. destruct (steps s es) as [s'|]; cbn; [|naive_solver].
  destruct (step s' e) eqn:He; cbn; naive_solver.
Qed.

Record inv (s : multiListener) : Prop := {
  inv_quic : ∀ c, ml_quic s = LPush (Some c) ↔ ml_conns s !! c = Some (PPush TQuic);
  inv_tcp : ∀ c, ml_tcp s ≠ LPush (Some c);
  inv_out : ∀ c, Some c ∈ ml_out s ↔ ml_conns s !! c = Some PDelivered;
  inv_nodup : NoDup (omap id (ml_out s));
}.
Lemma inv_started q t : inv (started q t).
Proof. destruct q, t; split; cbn; intros; rewrite ?lookup_empty; try done; (split; [done|]) || constructor; intros Hin; set_solver. Qed.

(** A connection moves to a phase in which it is not held by the QUIC loop. *)
Lemma lookup_set_conn c p s c' : ml_conns (set_conn c p s) !! c' = if decide (c = c') then Some p else ml_conns s !! c'.
Proof. cbn. destruct (decide (c = c')) as [->|]; [apply lookup_insert_eq|by apply lookup_insert_ne]. Qed.

Lemma pushed_conn p s r s' : inv s → pushed p s = Some (Some r, s') →
  (ml_conns s !! r = Some (PPush TQuic) ∧ p = ByQuic ∧ s' = set_quic LIdle s) ∨ (ml_conns s !! r = Some (PPush TTcp) ∧ s' = s).
Proof.
  intros Hi. destruct p as [| |c]; cbn.
  - destruct (ml_quic s) eqn:Hq; [done| |done]. intros [= -> <-]. left. by rewrite <- (inv_quic s Hi).
  - destruct (ml_tcp s) eqn:Hq; [done| |done]. intros [= -> <-]. by destruct (inv_tcp s Hi r).
  - case_bool_decide; [|done]. intros [= -> <-]. by right.
Qed.
Lemma pushed_error p s s' : pushed p s = Some (None, s') → (p = ByQuic ∧ ml_quic s = LPush None ∧ s' = set_quic LIdle s) ∨ (p = ByTcp ∧ ml_tcp s = LPush None ∧ s' = set_tcp LIdle s).
Proof.
  destruct p as [| |c]; cbn; [destruct (ml_quic s)|destruct (ml_tcp s)|by case_bool_decide]; intros; simplify_eq; auto.
Qed.

Definition set_weight (p : Phase) : nat := match p with PHandshake => 2 | PPush _ => 1 | _ => 0 end.
Definition loop_weight (l : Loop) : nat := match l with LIdle => 1 | LPush _ => 2 | LExit => 0 end.
Definition conns_weight (m : gmap conn Phase) : nat := map_fold (λ _ p n, set_weight p + n)%nat 0%nat m.
(** What is left to do once the listener is closed. *)
Definition queue_weight (s : multiListener) : nat := match ml_quicLn s with Some (QClosed n) => 3 * n | _ => 0 end.
Definition work_left (s : multiListener) : nat :=
  (loop_weight (ml_quic s) + loop_weight (ml_tcp s) + conns_weight (ml_conns s) + queue_weight s)%nat.
Lemma conns_weight_new m c p : m !! c = None → conns_weight (<[c := p]> m) = (set_weight p + conns_weight m)%nat.
Proof. intros Hc. apply (map_fold_insert_L (λ _ p n, set_weight p + n)%nat); [intros; lia|done]. Qed.
Lemma conns_weight_insert m c p p' : m !! c = Some p → (conns_weight (<[c := p']> m) + set_weight p = conns_weight m + set_weight p')%nat.
Proof.
  intros Hc. unfold conns_weight.
  assert (Hins : ∀ q, map_fold (λ _ p n, set_weight p + n)%nat 0%nat (<[c := q]> (delete c m)) = (set_weight q + map_fold (λ _ p n, set_weight p + n)%nat 0%nat (delete c m))%nat).
  { intros q. apply (map_fold_insert_L (λ _ p n, set_weight p + n)%nat); [intros; lia|apply lookup_delete_eq]. }
  rewrite <- (insert_delete_id m c p Hc) at 2. rewrite <- (insert_delete_eq m c p'), !Hins. lia.
Qed.

(** The connection [c] a step moves, from where and to where. *)
Inductive moves (m : gmap conn Phase) : ListenerEvent → gmap conn Phase → Prop :=
| m_same (e : ListenerEvent) : (∀ c, e ≠ EQuicAccept (Some c) ∧ e ≠ ETcpAccept (Some c)) → moves m e m
| m_quic (c : conn) : m !! c = None → moves m (EQuicAccept (Some c)) (<[c := PPush TQuic]> m)
| m_tcp (c : conn) : m !! c = None → moves m (ETcpAccept (Some c)) (<[c := PHandshake]> m)
| m_handshake (c : conn) (ok : bool) : m !! c = Some PHandshake → moves m (EHandshake c ok) (<[c := if ok then PPush TTcp else PClosed]> m)
| m_deliver (p : Pusher) (t : Transport) (c : conn) : m !! c = Some (PPush t) → moves m (EDeliver p) (<[c := PDelivered]> m)
| m_drop (p : Pusher) (t : Transport) (c : conn) : m !! c = Some (PPush t) → moves m (EDrop p) (<[c := PClosed]> m).
Lemma pushed_settle p s r s' ph : inv s → pushed p s = Some (r, s') →
  ml_conns (settle_conn r ph s') = match r with Some c => <[c := ph]> (ml_conns s) | None => ml_conns s end ∧
  match r with Some c => ∃ t, ml_conns s !! c = Some (PPush t) | None => True end.
Proof.
  intros Hi Hp. destruct r as [c|].
  - apply pushed_conn in Hp as [(Hc & _ & ->)|(Hc & ->)]; cbn; eauto.
  - apply pushed_error in Hp as [(_ & _ & ->)|(_ & _ & ->)]; done.
Qed.
Ltac step_cases H := repeat (case_match || case_bool_decide); simplify_eq/=.
Lemma step_moves s e s' : inv s → step s e = Some s' → moves (ml_conns s) e (ml_conns s').
Proof.
  intros Hi. destruct e as [r|r|c ok|p|p| |n|]; cbn [step].
  - destruct r as [c|]; unfold fresh; intros Hs; step_cases Hs; constructor; done.
  - destruct r as [c|]; unfold fresh; intros Hs; step_cases Hs; constructor; done.
  - case_bool_decide; [|done]. intros [= <-]. by constructor.
  - destruct (pushed p s) as [[r s1]|] eqn:Hp; cbn; [|done]. intros [= <-]. destruct (pushed_settle p s r s1 PDelivered Hi Hp) as [Hm Hr].
    cbn. rewrite Hm. destruct r as [c|]; [|by constructor]. destruct Hr as [t Hr]. by eapply m_deliver.
  - destruct (ml_done s); [|done]. destruct (pushed p s) as [[r s1]|] eqn:Hp; cbn; [|done]. intros [= <-].
    destruct (pushed_settle p s r s1 PClosed Hi Hp) as [Hm Hr].
    rewrite Hm. destruct r as [c|]; [|by constructor]. destruct Hr as [t Hr]. by eapply m_drop.
  - destruct (ml_done s); intros [= <-]. by constructor.
  - destruct (ml_done s), (ml_quicLn s) as [[|]|]; intros [= <-]. by constructor.
  - destruct (ml_done s), (ml_tcpLn s) as [[]|]; intros [= <-]. by constructor.
Qed.

Lemma omap_snoc (l : list (option conn)) r : omap id (l ++ [r]) = omap id l ++ option_list r.
Proof. rewrite omap_app. by destruct r. Qed.

(** [set_conn] of a connection outside the QUIC loop keeps what the loop holds. *)
Lemma inv_set_conn c p s : inv s → ml_conns s !! c ≠ Some PDelivered → ml_conns s !! c ≠ Some (PPush TQuic) →
  p ≠ PDelivered → p ≠ PPush TQuic → inv (set_conn c p s).
Proof.
  intros [Hq Ht Ho Hn] H1 H2 H3 H4. split; try done.
  - intros c'. rewrite lookup_set_conn. cbn [set_conn ml_quic]. rewrite Hq. case_decide; naive_solver.
  - intros c'. rewrite lookup_set_conn. cbn [set_conn ml_out]. rewrite Ho. case_decide; naive_solver.
Qed.
Lemma inv_same s s' : inv s → ml_conns s' = ml_conns s → ml_out s' = ml_out s →
  (∀ c, ml_quic s' = LPush (Some c) ↔ ml_quic s = LPush (Some c)) → (∀ c, ml_tcp s' = LPush (Some c) ↔ ml_tcp s = LPush (Some c)) → inv s'.
Proof. intros [Hq Ht Ho Hn] Hc Hout H1 H2. split; intros; rewrite ?Hc, ?Hout, ?H1, ?H2; auto. Qed.
(** A pushed session is delivered or closed, and its loop, if any, waits again. *)
Lemma inv_settle p s r s' ph : inv s → pushed p s = Some (r, s') → ph ≠ PPush TQuic →
  let s'' := settle_conn r ph s' in
  (∀ c, ml_quic s'' = LPush (Some c) ↔ ml_conns s'' !! c = Some (PPush TQuic)) ∧ (∀ c, ml_tcp s'' ≠ LPush (Some c)) ∧ ml_out s'' = ml_out s.
Proof.
  intros Hi Hp Hph. pose proof Hi as [Hq Ht Ho Hn]. destruct r as [c|]; cbv zeta; cbn [settle_conn].
  - destruct (pushed_conn p s c s' Hi Hp) as [(Hc & _ & ->)|(Hc & ->)].
    + split_and!; [|done|done]. intros c'. rewrite lookup_set_conn. cbn. rewrite <- Hq in Hc.
      split; [done|]. case_decide; [naive_solver|]. rewrite <- Hq, Hc. naive_solver.
    + split_and!; [|done|done]. intros c'. rewrite lookup_set_conn. cbn. rewrite Hq. case_decide; naive_solver.
  - apply pushed_error in Hp as [(_ & Hl & ->)|(_ & Hl & ->)]; cbn; split_and!; try done.
    intros c. rewrite <- Hq, Hl. naive_solver.
Qed.
Lemma inv_deliver p s r s1 : inv s → pushed p s = Some (r, s1) → inv (put_out r (settle_conn r PDelivered s1)).
Proof.
  intros Hi Hp. pose proof Hi as [Hq Ht Ho Hn].
  destruct (inv_settle p s r s1 PDelivered Hi Hp ltac:(done)) as (H1 & H2 & H3).
  destruct (pushed_settle p s r s1 PDelivered Hi Hp) as [Hm Hr].
  split; cbn [put_out ml_quic ml_tcp ml_out ml_conns]; try done; rewrite H3.
  + intros c. rewrite elem_of_app, list_elem_of_singleton, Ho, Hm. destruct r as [c'|]; [|naive_solver].
    destruct (decide (c' = c)) as [->|]; [rewrite lookup_insert_eq|rewrite lookup_insert_ne by done]; naive_solver.
  + rewrite omap_snoc. apply list.NoDup_app. split; [done|]. split; [|destruct r; repeat constructor; set_solver].
    intros c Hin. apply list_elem_of_omap in Hin as (y & Hin & Hy). destruct r as [c'|]; cbn; [|apply not_elem_of_nil].
    destruct Hr as [t Hr]. intros ->%list_elem_of_singleton. cbn in Hy. subst y. apply Ho in Hin. congruence.
Qed.
Lemma inv_drop p s r s1 : inv s → pushed p s = Some (r, s1) → inv (settle_conn r PClosed s1).
Proof.
  intros Hi Hp. pose proof Hi as [Hq Ht Ho Hn].
  destruct (inv_settle p s r s1 PClosed Hi Hp ltac:(done)) as (H1 & H2 & H3).
  destruct (pushed_settle p s r s1 PClosed Hi Hp) as [Hm Hr].
  split; try done; rewrite H3; [|done]. intros c. rewrite Ho, Hm. destruct r as [c'|]; [|done]. destruct Hr as [t Hr].
  destruct (decide (c' = c)) as [->|]; [rewrite lookup_insert_eq|rewrite lookup_insert_ne by done]; naive_solver.
Qed.
Lemma inv_step s e s' : inv s → step s e = Some s' → inv s'.
Proof.
  intros Hi. pose proof Hi as [Hq Ht Ho Hn]. destruct e as [r|r|c ok|p|p| |n|]; cbn [step].
  - destruct r as [c|]; unfold fresh.
    + intros Hs. assert (Hacc : ml_quic s = LIdle ∧ ml_conns s !! c = None ∧ ml_quic s' = LPush (Some c) ∧ ml_tcp s' = ml_tcp s ∧
        ml_conns s' = <[c := PPush TQuic]> (ml_conns s) ∧ ml_out s' = ml_out s)
        by (step_cases Hs; done).
      clear Hs. destruct Hacc as (Hl & Hf & H1 & H2 & H3 & H4). split; rewrite ?H1, ?H2, ?H3, ?H4; try done.
      all: intros c'; destruct (decide (c = c')) as [->|Hne].
      * rewrite lookup_insert_eq. naive_solver.
      * rewrite lookup_insert_ne, <- Hq, Hl by done. naive_solver.
      * rewrite lookup_insert_eq, Ho. naive_solver.
      * by rewrite lookup_insert_ne.
    + destruct (ml_quic s) eqn:Hl; [|done..]. intros [= <-]. apply (inv_same s); cbn; try done.
      unfold accept_failed. rewrite Hl. by destruct (ml_done s).
  - destruct r as [c|]; unfold fresh.
    + destruct (ml_tcp s) eqn:Hl; [|done..]. destruct (ml_tcpLn s) as [[]|]; [|done..]. case_bool_decide as Hf; [|done]. intros [= <-].
      by apply inv_set_conn; rewrite ?Hf.
    + destruct (ml_tcp s) eqn:Hl; [|done..]. intros [= <-]. apply (inv_same s); cbn; try done.
      unfold accept_failed. rewrite Hl. by destruct (ml_done s).
  - case_bool_decide as Hc; [|done]. intros [= <-]. apply inv_set_conn; rewrite ?Hc; try done; by destruct ok.
  - destruct (pushed p s) as [[r s1]|] eqn:Hp; cbn; [|done]. intros [= <-].
    by eapply inv_deliver.
  - destruct (ml_done s); [|done]. destruct (pushed p s) as [[r s1]|] eqn:Hp; cbn; [|done]. intros [= <-].
    by eapply inv_drop.
  - destruct (ml_done s); intros [= <-]. by apply (inv_same s).
  - destruct (ml_done s), (ml_quicLn s) as [[|]|]; intros [= <-]. by apply (inv_same s).
  - destruct (ml_done s), (ml_tcpLn s) as [[]|]; intros [= <-]. by apply (inv_same s).
Qed.

(** * Traces *)
Definition accepted (es : list ListenerEvent) (c : conn) : Prop := EQuicAccept (Some c) ∈ es ∨ ETcpAccept (Some c) ∈ es.
Lemma pushed_ctx p s r s' : pushed p s = Some (r, s') → ml_done s' = ml_done s ∧ ml_quicLn s' = ml_quicLn s ∧ ml_tcpLn s' = ml_tcpLn s.
Proof. destruct p; cbn; intros; repeat (case_match || case_bool_decide); by simplify_eq/=. Qed.
Lemma settle_ctx r ph s : ml_done (settle_conn r ph s) = ml_done s ∧ ml_quicLn (settle_conn r ph s) = ml_quicLn s ∧ ml_tcpLn (settle_conn r ph s) = ml_tcpLn s.
Proof. by destruct r. Qed.
(** Closing is final: what is done stays done, what is closed stays closed. *)
Lemma step_ctx s e s' : step s e = Some s' →
  (ml_done s = true → ml_done s' = true) ∧ (ml_quicLn s ≠ Some QOpen → ml_quicLn s' ≠ Some QOpen) ∧ (ml_tcpLn s ≠ Some true → ml_tcpLn s' ≠ Some true).
Proof.
  destruct e as [[c|]|[c|]|c ok|p|p| |n|]; cbn [step]; intros Hs.
  6: destruct (pushed p s) as [[r s1]|] eqn:Hp; cbn in Hs; [|done]; destruct (pushed_ctx p s r s1 Hp), (settle_ctx r PDelivered s1); simplify_eq; cbn; naive_solver congruence.
  6: destruct (ml_done s) eqn:Hd; [|done]; destruct (pushed p s) as [[r s1]|] eqn:Hp; cbn in Hs; [|done];
     destruct (pushed_ctx p s r s1 Hp), (settle_ctx r PClosed s1); simplify_eq; naive_solver congruence.
  all: repeat (case_match || case_bool_decide); simplify_eq/=; split_and!; try done; congruence.
Qed.
Lemma moves_domain m e m' c : moves m e m' → is_Some (m' !! c) ↔ is_Some (m !! c) ∨ e = EQuicAccept (Some c) ∨ e = ETcpAccept (Some c).
Proof.
  destruct 1 as [e He|c' Hc|c' Hc|c' ok Hc|p t c' Hc|p t c' Hc]; [naive_solver|rewrite lookup_insert_is_Some'..]; naive_solver.
Qed.
Lemma moves_closed m e m' c : moves m e m' → m' !! c = Some PClosed → m !! c = Some PClosed ∨ e = EHandshake c false ∨ ∃ p, e = EDrop p.
Proof.
  destruct 1 as [e He|c' Hc|c' Hc|c' ok Hc|p t c' Hc|p t c' Hc]; intros Hl; [by left|destruct (decide (c' = c)) as [->|Hne]..].
  all: rewrite ?lookup_insert_eq, ?lookup_insert_ne in Hl by done; try by left.
  all: simplify_eq; eauto. destruct ok; [done|auto].
Qed.
Lemma reach q t es s : steps (started q t) es = Some s →
  inv s ∧ (∀ c, is_Some (ml_conns s !! c) ↔ accepted es c) ∧ (∀ c, ml_conns s !! c = Some PClosed → EHandshake c false ∈ es ∨ ml_done s = true).
Proof.
  revert s. induction es as [|e es IH] using rev_ind; intros s.
  - intros [= <-]. split_and!; [apply inv_started|..]; intros c; unfold accepted; destruct q, t; cbn; rewrite lookup_empty; try done;
      (split; [intros []; done|set_solver]).
  - intros (s1 & Hes & He)%steps_snoc. destruct (IH s1 Hes) as (Hi & Ha & Hc). pose proof (step_moves s1 e s Hi He) as Hm.
    split_and!; [by eapply inv_step|intros c..].
    + rewrite (moves_domain _ _ _ c Hm), Ha. unfold accepted. set_solver.
    + intros Hcl. destruct (moves_closed _ _ _ c Hm Hcl) as [H|[->|[p ->]]]; [|set_solver|].
      * destruct (Hc c H) as [|Hd]; [set_solver|]. right. by apply (step_ctx s1 e s He).
      * right. apply (step_ctx s1 (EDrop p) s He). cbn in He. by destruct (ml_done s1).
Qed.

(** * After Close *)
Definition closed (s : multiListener) : Prop := ml_done s = true ∧ ml_quicLn s ≠ Some QOpen ∧ ml_tcpLn s ≠ Some true.
(** The steps its goroutines take by themselves: a listener that is closed fails its
    accept, a handshake whose context is done fails, a push gives up. *)
Definition own (e : ListenerEvent) : Prop :=
  match e with EQuicAccept None | ETcpAccept None | EHandshake _ false | EDrop _ => True | _ => False end.
(** At rest: no goroutine is left, every session has been handed over or closed. *)
Definition at_rest (s : multiListener) : Prop :=
  ml_quic s = LExit ∧ ml_tcp s = LExit ∧ ∀ c p, ml_conns s !! c = Some p → p = PDelivered ∨ p = PClosed.

Lemma pushed_pending p s r s' ph : inv s → pushed p s = Some (r, s') → set_weight ph = 0%nat → (work_left (settle_conn r ph s') < work_left s)%nat.
Proof.
  intros Hi Hp Hw. unfold work_left, queue_weight. destruct r as [c|].
  - destruct (pushed_conn p s c s' Hi Hp) as [(Hc & _ & ->)|(Hc & ->)]; pose proof (conns_weight_insert _ _ _ ph Hc) as Hi'; cbn in *.
    + rewrite <- (inv_quic s Hi) in Hc. rewrite Hc. cbn. lia.
    + lia.
  - apply pushed_error in Hp as [(_ & Hl & ->)|(_ & Hl & ->)]; cbn; rewrite Hl; cbn; lia.
Qed.
Lemma step_pending s e s' : inv s → closed s → step s e = Some s' → closed s' ∧ (work_left s' < work_left s)%nat.
Proof.
  intros Hi (Hd & Hq & Ht) Hs. split; [split_and!; by apply (step_ctx s e s' Hs)|].
  destruct e as [[c|]|[c|]|c ok|p|p| |n|]; cbn [step] in Hs; unfold accept_failed in Hs; rewrite ?Hd in Hs.
  - destruct (ml_quic s) eqn:Hl; [|done..]. destruct (ml_quicLn s) as [[|[|n]]|] eqn:Hln; [done..| |done].
    cbv zeta in Hs. unfold fresh in Hs. cbn [set_ctx ml_conns] in Hs. case_bool_decide as Hf; [|done]. injection Hs as <-.
    unfold work_left, queue_weight. cbn. rewrite conns_weight_new, Hl, Hln by done. cbn. lia.
  - destruct (ml_quic s) eqn:Hl; simplify_eq. unfold work_left, queue_weight. cbn. rewrite Hl. cbn. lia.
  - destruct (ml_tcp s), (ml_tcpLn s) as [[]|]; done.
  - destruct (ml_tcp s) eqn:Hl; simplify_eq. unfold work_left, queue_weight. cbn. rewrite Hl. cbn. lia.
  - case_bool_decide as Hc; simplify_eq. pose proof (conns_weight_insert _ _ _ (if ok then PPush TTcp else PClosed) Hc) as Hw.
    unfold work_left, queue_weight. cbn. destruct ok; cbn in Hw; lia.
  - destruct (pushed p s) as [[r s1]|] eqn:Hp; cbn in Hs; simplify_eq. by apply (pushed_pending p s r s1 PDelivered).
  - destruct (pushed p s) as [[r s1]|] eqn:Hp; cbn in Hs; simplify_eq. by apply (pushed_pending p s r s1 PClosed).
  - done.
  - destruct (ml_quicLn s) as [[]|]; done.
  - destruct (ml_tcpLn s) as [[]|]; done.
Qed.
Lemma steps_pending s es s' : inv s → closed s → steps s es = Some s' → inv s' ∧ closed s' ∧ (length es + work_left s' ≤ work_left s)%nat.
Proof.
  revert s. induction es as [|e es IH]; intros s Hi Hc; cbn [steps].
  - intros [= <-]. cbn. auto with lia.
  - destruct (step s e) as [s1|] eqn:He; cbn; [|done]. destruct (step_pending s e s1 Hi Hc He) as [Hc1 Hlt]. intros Hes.
    destruct (IH s1 (inv_step s e s1 Hi He) Hc1 Hes) as (? & ? & ?). split_and!; [done..|lia].
Qed.
Lemma stuck_at_rest s : inv s → closed s → (∀ e, own e → step s e = None) → at_rest s.
Proof.
  intros Hi (Hd & _ & _) Hst. split_and!.
  - pose proof (Hst (EQuicAccept None) I) as H1. pose proof (Hst (EDrop ByQuic) I) as H2. cbn in H1, H2. rewrite Hd in H2. by destruct (ml_quic s).
  - pose proof (Hst (ETcpAccept None) I) as H1. pose proof (Hst (EDrop ByTcp) I) as H2. cbn in H1, H2. rewrite Hd in H2. by destruct (ml_tcp s).
  - intros c p Hc. destruct p as [|[]| |]; auto; exfalso.
    + pose proof (Hst (EHandshake c false) I) as H1. cbn in H1. by rewrite bool_decide_eq_true_2 in H1.
    + pose proof (Hst (EDrop ByQuic) I) as H1. cbn in H1. rewrite <- (inv_quic s Hi) in Hc. by rewrite Hd, Hc in H1.
    + pose proof (Hst (EDrop (ByConn c)) I) as H1. cbn in H1. by rewrite Hd, bool_decide_eq_true_2 in H1.
Qed.

(** A listener that was not returned: the loop that was started finds it closed. *)
Lemma steps_ctx s es s' : steps s es = Some s' → (ml_quicLn s = None → ml_quicLn s' = None) ∧ (ml_tcpLn s = None → ml_tcpLn s' = None).
Proof.
  revert s. induction es as [|e es IH]; intros s; cbn [steps]; [by intros [= <-]|].
  destruct (step s e) as [s1|] eqn:He; cbn; [|done]. intros Hes. destruct (IH s1 Hes) as [H1 H2].
  assert (Hln : (ml_quicLn s = None → ml_quicLn s1 = None) ∧ (ml_tcpLn s = None → ml_tcpLn s1 = None)); [|naive_solver].
  clear IH Hes H1 H2. destruct e as [[c|]|[c|]|c ok|p|p| |n|]; cbn [step] in He.
  6: destruct (pushed p s) as [[r s2]|] eqn:Hp; cbn in He; [|done]; destruct (pushed_ctx p s r s2 Hp), (settle_ctx r PDelivered s2); simplify_eq; cbn; naive_solver congruence.
  6: destruct (ml_done s) eqn:Hd; [|done]; destruct (pushed p s) as [[r s2]|] eqn:Hp; cbn in He; [|done];
     destruct (pushed_ctx p s r s2 Hp), (settle_ctx r PClosed s2); simplify_eq; naive_solver congruence.
  all: repeat (case_match || case_bool_decide); simplify_eq/=; split_and!; try done; congruence.
Qed.
Lemma failed_listen_closed quicAddr tcpAddr lq lt meanwhile queued err s :
  Listen quicAddr tcpAddr lq lt meanwhile queued = (Err err, Some s) →
  closed s ∧ ∃ q es, steps (started q false) es = Some s.
Proof.
  unfold Listen. set (q := negb (String.eqb quicAddr "")). set (t := negb (String.eqb tcpAddr "")).
  destruct (negb q && negb t); [done|]. destruct (if q then lq else Ok tt); [|done]. destruct (if t then lt else Ok tt); [done|].
  destruct (steps (started q false) meanwhile) as [s0|] eqn:Hs; cbn [mbind option_bind]; [|done].
  destruct (steps_ctx _ _ _ Hs) as [H1 H2]. destruct (step s0 ECancel) as [s1|] eqn:Hca; cbn [mbind option_bind]; [|done].
  assert (s1 = set_ctx true (ml_quicLn s0) (ml_tcpLn s0) s0) as Hs1 by (cbn in Hca; destruct (ml_done s0); [discriminate Hca|injection Hca as <-; reflexivity]).
  destruct q eqn:Hq; intros Hl.
  - apply pair_equal_spec in Hl as [_ Hl]. split.
    + subst s1. cbn in Hl. destruct (ml_quicLn s0) as [[|]|]; simplify_eq/=. split_and!; cbn; try done. by rewrite H2.
    + exists true, (meanwhile ++ [ECancel; ECloseQuic queued]). rewrite steps_app, Hs. cbn [mbind option_bind steps]. rewrite Hca. cbn [mbind option_bind steps]. by rewrite Hl.
  - injection Hl as <- ->. split.
    + subst s. split_and!; cbn; [done|by rewrite H1|by rewrite H2].
    + exists false, (meanwhile ++ [ECancel]). rewrite steps_app, Hs. cbn [mbind option_bind steps]. by rewrite Hca.
Qed.

(** C16: sessions are handed over once and none is forgotten. In every interleaving of
    the two accept loops, the handshakes and the callers of Accept, the connections the
    listener knows are those it accepted; Accept has returned each delivered one exactly
    once and nothing else; a connection is closed only because its handshake failed or
    the listener is closing.  And once Close has closed the listeners, its goroutines
    take at most [work_left] further steps, whatever the callers do (three for each
    connection that was queued in the QUIC listener, which still hands it out), and cannot stop before
    they have exited and every connection has been handed over or closed; the same holds
    of what Listen leaves behind when it fails. *)
Theorem sessions_handed_over_once q t es s : steps (started q t) es = Some s →
  (∀ c, is_Some (ml_conns s !! c) ↔ accepted es c) ∧
  (∀ c, Some c ∈ ml_out s ↔ ml_conns s !! c = Some PDelivered) ∧ NoDup (omap id (ml_out s)) ∧
  (∀ c, ml_conns s !! c = Some PClosed → EHandshake c false ∈ es ∨ ml_done s = true) ∧
  (closed s → ∀ es' s', steps s es' = Some s' →
    (length es' ≤ work_left s)%nat ∧ ((∀ e, own e → step s' e = None) → at_rest s')) ∧
  (∀ quicAddr tcpAddr lq lt meanwhile queued err left_, Listen quicAddr tcpAddr lq lt meanwhile queued = (Err err, Some left_) →
    closed left_ ∧ ∃ q' es', steps (started q' false) es' = Some left_).
Proof.
  intros Hes. destruct (reach q t es s Hes) as (Hi & Ha & Hc). split_and!; [done|apply (inv_out s Hi)|apply (inv_nodup s Hi)|done|..].
  - intros Hcl es' s' Hs. destruct (steps_pending s es' s' Hi Hcl Hs) as (Hi' & Hcl' & Hlen). split; [lia|]. by apply stuck_at_rest.
  - intros qa ta lq lt mw qd err s0. apply failed_listen_closed.
Qed.

(** A QUIC session, a TCP one whose handshake fails, one that waits in push while Close
    comes, a QUIC connection that was queued then, and a caller that still takes the first. *)
Definition ex_listener_trace : list ListenerEvent :=
  [EQuicAccept (Some 1%nat); ETcpAccept (Some 2%nat); ETcpAccept (Some 3%nat); EHandshake 2%nat false; EHandshake 3%nat true; EDeliver ByQuic; ECancel; ECloseQuic 1%nat; ECloseTcp].
Definition ex_listener_left : multiListener := default (started true true) (steps (started true true) ex_listener_trace).
Definition ex_listener_rest : list ListenerEvent := [EDrop (ByConn 3%nat); EQuicAccept (Some 4%nat); EDrop ByQuic; EQuicAccept None; ETcpAccept None].
Definition ex_listener_end : multiListener := default (started true true) (steps ex_listener_left ex_listener_rest).
Lemma sessions_handed_over_once_witness :
  ml_out ex_listener_left = [Some 1%nat] ∧ NoDup (omap id (ml_out ex_listener_left)) ∧ work_left ex_listener_left = 6%nat ∧
  steps ex_listener_left ex_listener_rest = Some ex_listener_end ∧ at_rest ex_listener_end ∧ ml_conns ex_listener_end !! 3%nat = Some PClosed.
Proof.
  destruct (sessions_handed_over_once true true ex_listener_trace ex_listener_left eq_refl) as (_ & _ & Hn & _ & Hrest & _).
  split; [reflexivity|]. split; [exact Hn|]. split; [reflexivity|]. split; [reflexivity|]. split; [|reflexivity].
  assert (Hall : map_Forall (λ _ p, p = PDelivered ∨ p = PClosed) (ml_conns ex_listener_end)).
  { refine (bool_decide_eq_true_1 _ _). vm_compute. reflexivity. }
  eapply (Hrest ltac:(by vm_compute) ex_listener_rest _ eq_refl).
  intros e He. destruct e as [[c|]|[c|]|c [|]|p|p| |n|]; try (by destruct He); try reflexivity.
  - cbn [step]. case_bool_decide as Hc; [|done]. by destruct (Hall _ _ Hc).
  - destruct p as [| |c]; [reflexivity..|]. unfold step, pushed. case_bool_decide as Hc; [|by destruct (ml_done _)]. by destruct (Hall _ _ Hc).
Defined.

(** The context of a session over yamux is done only when the multiplexer is closed, and
    is done once the goroutine that watches it has nothing left to do. *)
Lemma yamux_context closed es s : yamux_steps (newYamuxSession closed) es = Some s →
  (ys_done s = true → ys_closed s = true) ∧ (ys_watching s = false → ys_done s = true) ∧
  (ys_closed s = true → yamux_step s YWatcher = None → ys_done s = true).
Proof.
  intros Hs. assert (Hinv : (ys_done s = true → ys_closed s = true) ∧ (ys_watching s = false → ys_done s = true)).
  { unfold yamux_steps in Hs. revert s Hs. induction es as [|e es IH] using rev_ind; intros s; [by intros [= <-]|].
    rewrite foldl_app. cbn. destruct (foldl _ _ es) as [s1|]; cbn; [|done]. destruct (IH s1 eq_refl) as [H1 H2].
    destruct e; cbn; [..|destruct (ys_closed s1 && ys_watching s1); [|done]]; by intros [= <-]. }
  destruct Hinv as [H1 H2]. split_and!; [done..|]. cbn. intros ->. cbn. destruct (ys_watching s); [done|]. intros _. by apply H2.
Qed.

(** * The dialer *)
Section dial.
  Context (d : Dialer) (n : Net).
Definition quic_answer : QuicAnswer := net_quic n (tlsClone (dl_NextProtos d)) (dialTimeout d) (quicConfig (keepAlive d)).
Definition tcp_answer : TcpAnswer := net_tcp n (tlsClone (dl_NextProtos d)) (dialTimeout d).
(** The transport [k] gets a session on connection [c]. *)
Definition reaches (k : Kind) (c : conn) : Prop :=
  (k = KindQUIC ∧ quic_answer = QConn c) ∨ (k = KindTCP ∧ tcp_answer = TConn c).
(** The network hands out connections that are not in use. *)
Definition new_conns (open : gset conn) : Prop :=
  (∀ c, quic_answer = QConn c → c ∉ open) ∧ (∀ c, tcp_answer = TConn c ∨ (∃ e, tcp_answer = THandshake c e ∨ tcp_answer = TMux c e) → c ∉ open).

Lemma dial_one_spec k open : new_conns open → k = KindQUIC ∨ k = KindTCP →
  (∃ c, dial_one d n k open = (Ok (Some {| ss_Kind := k; ss_conn := c |}), {[c]} ∪ open) ∧ reaches k c ∧ c ∉ open) ∨
  (∃ e, dial_one d n k open = (Err e, open) ∧ ∀ c, ¬ reaches k c).
Proof.
  intros [Hq Ht] [->| ->]; unfold dial_one, dialQUIC, dialTCP, reaches.
  - cbn [String.eqb KindQUIC]. fold quic_answer. destruct quic_answer as [e|c] eqn:Ha; [right; naive_solver|].
    left. exists c. split_and!; [done|auto|by apply Hq].
  - cbn [String.eqb KindTCP KindQUIC]. fold tcp_answer. destruct tcp_answer as [e|c e|c e|c] eqn:Ha.
    1: right; naive_solver.
    3: left; exists c; split_and!; [done|auto|apply Ht; auto].
    all: right; exists e; assert (c ∉ open) by (apply Ht; eauto); split; [|naive_solver].
    all: replace (({[c]} ∪ open) ∖ {[c]}) with open by set_solver; done.
Qed.
Lemma attemptOrder_cases : attemptOrder d = [KindQUIC] ∨ attemptOrder d = [KindTCP] ∨ attemptOrder d = [KindQUIC; KindTCP] ∨ attemptOrder d = [KindTCP; KindQUIC].
Proof.
  unfold attemptOrder. destruct (String.eqb_spec (dl_ForceKind d) KindQUIC) as [->|]; [auto|].
  destruct (String.eqb_spec (dl_ForceKind d) KindTCP) as [->|]; [auto|]. cbn. repeat case_match; auto.
Qed.
Lemma attemptOrder_free : dl_ForceKind d ≠ KindQUIC → dl_ForceKind d ≠ KindTCP → KindQUIC ∈ attemptOrder d ∧ KindTCP ∈ attemptOrder d.
Proof.
  intros H1 H2. unfold attemptOrder. rewrite (proj2 (String.eqb_neq _ _) H1), (proj2 (String.eqb_neq _ _) H2). cbn. repeat case_match; set_solver.
Qed.

(** The loop: the first transport that answers, or an error for each that was tried. *)
Lemma dial_loop_spec cancelled open : new_conns open → ∀ order i errs r open',
  Forall (λ k, k = KindQUIC ∨ k = KindTCP) order → dial_loop d n cancelled i order errs open = (r, open') →
  match r with
  | Ok s => ∃ k c pre post, s = Some {| ss_Kind := k; ss_conn := c |} ∧ order = pre ++ k :: post ∧ reaches k c ∧
      (∀ k' c', k' ∈ pre → ¬ reaches k' c') ∧ c ∉ open ∧ open' = {[c]} ∪ open
  | Err errs' => open' = open ∧ ∃ m, fmap fst errs' = fmap fst errs ++ take m order ∧ (∀ k c, k ∈ take m order → ¬ reaches k c) ∧
      (take m order = order ∨ (m ≠ 0)%nat ∧ cancelled (i + m - 1)%nat = true)
  end.
Proof.
  intros Hn. induction order as [|k order IH]; intros i errs r open' Hf; cbn [dial_loop].
  - intros [= <- <-]. split; [done|]. exists 0%nat. rewrite app_nil_r. split_and!; [done|set_solver|by left].
  - inversion_clear Hf as [|? ? Hk Hf']. destruct (dial_one_spec k open Hn Hk) as [(c & -> & Hr & Hc)|(e & -> & Hno)].
    + intros [= <- <-]. exists k, c, [], order. split_and!; try done. set_solver.
    + destruct (cancelled i) eqn:Hci.
      * intros [= <- <-]. split; [done|]. exists 1%nat. rewrite fmap_app. cbn [take]. rewrite take_0. split_and!; [done|set_solver|].
        right. split; [done|]. by replace (i + 1 - 1)%nat with i by lia.
      * intros Hl. specialize (IH _ _ _ _ Hf' Hl). destruct r as [s|errs'].
        -- destruct IH as (k' & c & pre & post & -> & -> & Hr & Hpre & Hc & ->). exists k', c, (k :: pre), post. split_and!; try done.
           intros k1 c1 [->|Hin]%elem_of_cons; [apply Hno|by apply Hpre].
        -- destruct IH as [-> (m & Hm & Hnr & Hend)]. split; [done|]. exists (S m). rewrite Hm, fmap_app, <- app_assoc. cbn [take].
           split_and!; [done| |].
           ++ intros k1 c1 [->|Hin]%elem_of_cons; [apply Hno|by apply Hnr].
           ++ destruct Hend as [->|[Hm0 Hcm]]; [by left|]. right. split; [done|]. by replace (i + S m - 1)%nat with (S i + m - 1)%nat by lia.
Qed.
End dial.

(** Dialling falls back and leaks nothing. A dialer tries the transports in its
    order; it returns the session of the first that answers, on the only connection that
    is left open, and on an error it has closed every connection it opened and reports
    one error per transport, all of them unless the caller gave up; so an agent that is
    not pinned to a transport and does not give up connects whenever one of the two
    works, and a pinned one never uses the other; each attempt has a positive timeout. *)
Theorem dial_falls_back d n cancelled open r open' : new_conns d n open → Dial d n cancelled open = (r, open') →
  match r with
  | Ok s => ∃ k c pre post, s = Some {| ss_Kind := k; ss_conn := c |} ∧ attemptOrder d = pre ++ k :: post ∧ reaches d n k c ∧
      (∀ k' c', k' ∈ pre → ¬ reaches d n k' c') ∧ c ∉ open ∧ open' = {[c]} ∪ open
  | Err errs => open' = open ∧ (∀ k c, k ∈ fmap fst errs → ¬ reaches d n k c) ∧
      (fmap fst errs = attemptOrder d ∨ ∃ i, cancelled i = true ∧ fmap fst errs = take (S i) (attemptOrder d))
  end ∧
  (dl_ForceKind d ≠ KindQUIC → dl_ForceKind d ≠ KindTCP → (∀ i, cancelled i = false) →
    (∃ k c, reaches d n k c) → is_ok r = true) ∧
  (∀ k s, (k = KindQUIC ∨ k = KindTCP) → dl_ForceKind d = k → r = Ok (Some s) → ss_Kind s = k) ∧ 0 < dialTimeout d.
Proof.
  intros Hn Hd. assert (Hf : Forall (λ k, k = KindQUIC ∨ k = KindTCP) (attemptOrder d)).
  { destruct (attemptOrder_cases d) as [->|[->|[->| ->]]]; rewrite list.Forall_forall; set_solver. }
  pose proof (dial_loop_spec d n cancelled open Hn _ _ _ _ _ Hf Hd) as Hs. split_and!.
  - destruct r as [s|errs]; [exact Hs|]. destruct Hs as [-> (m & Hm & Hno & Hend)]. cbn in Hm. split_and!; [done|by rewrite Hm|].
    destruct Hend as [Hall|[Hm0 Hc]]; [left; by rewrite Hm|right]. exists (m - 1)%nat. replace (S (m - 1)) with m by lia. by replace (0 + m - 1)%nat with (m - 1)%nat in Hc by lia.
  - intros H1 H2 Hnc (k & c & Hr). destruct r as [s|errs]; [done|]. exfalso. destruct Hs as [_ (m & _ & Hno & Hend)].
    destruct Hend as [Hall|[_ Hc]]; [|by rewrite Hnc in Hc]. destruct (attemptOrder_free d H1 H2) as [Hq Ht].
    apply (Hno k c); [|done]. rewrite Hall. by destruct Hr as [[-> _]|[-> _]].
  - intros k s Hk Hfk ->. destruct Hs as (k' & c & pre & post & [= ->] & Ho & _). cbn.
    unfold attemptOrder in Ho. assert (Hb : String.eqb (dl_ForceKind d) KindQUIC || String.eqb (dl_ForceKind d) KindTCP = true)
      by (rewrite Hfk; by destruct Hk as [-> | ->]). rewrite Hb, Hfk in Ho. destruct pre as [|x [|]]; by simplify_eq/=.
  - unfold dialTimeout, defaultDialTimeout. destruct (Z.gtb_spec (dl_DialTimeout d) 0); [lia|done].
Qed.

Definition ex_dialer : Dialer := {| dl_NextProtos := None; dl_Prefer := ""; dl_ForceKind := ""; dl_DialTimeout := 0; dl_KeepAlive := 0 |}.
(** UDP is blocked. *)
Definition ex_net : Net := {| net_quic := λ _ _ _, QFail "timeout: no recent network activity"; net_tcp := λ _ _, TConn 7%nat |}.
Lemma dial_falls_back_witness :
  Dial ex_dialer ex_net (λ _, false) ∅ = (Ok (Some {| ss_Kind := KindTCP; ss_conn := 7%nat |}), {[7%nat]}) ∧
  is_ok (fst (Dial ex_dialer ex_net (λ _, false) ∅)) = true.
Proof.
  assert (Hd : Dial ex_dialer ex_net (λ _, false) ∅ = (Ok (Some {| ss_Kind := KindTCP; ss_conn := 7%nat |}), {[7%nat]})) by (vm_compute; reflexivity).
  split; [exact Hd|]. rewrite Hd.
  apply (dial_falls_back ex_dialer ex_net (λ _, false) ∅ _ _ ltac:(split; intros; apply not_elem_of_empty) Hd); try discriminate; try done.
  exists KindTCP, 7%nat. right. split; reflexivity.
Defined.
