(* ===== verification/ControlStream.v ===== *)
(** The control stream of a session as its goroutines write it: [writeControl] of the
    edge (internal/server/hub.go) and of the agent (internal/agent/core.go) puts a frame,
    which takes two writes, under a mutex; [drain] (internal/server/server.go) writes to
    the stream itself.  A trace interleaves the writes of any number of goroutines. *)
From S2P Require Import Prelude Wire.
From Stdlib Require Import Strings.Byte.

Open Scope Z_scope.

Section control.
  Context {Msg : Type} (Marshal : Msg → option (list byte)).

(** A goroutine inside [writeFramed]: before the header, before the body, returning. *)
Inductive WriterAt := AtHeader (m : Msg) | AtBody (m : Msg) (b : list byte) | AtReturn (r : result IOErr unit).
Record ControlStream := {
  cs_mutex : option nat; (* the goroutine that holds writeMu *)
  cs_stream : Writer;
  cs_writers : gmap nat (bool * WriterAt); (* whether it went through writeControl *)
  cs_sent : list Msg; (* whose frames are complete *)
}.
Inductive WriteEvent :=
| WCall (w : nat) (locked : bool) (m : Msg) (* writeControl, or WriteMsg on the stream itself *)
| WWrite (w : nat) | WReturn (w : nat).

Definition with_writer (w : nat) (x : bool * WriterAt) (st : Writer) (sent : list Msg) (s : ControlStream) : ControlStream :=
  {| cs_mutex := cs_mutex s; cs_stream := st; cs_writers := <[w := x]> (cs_writers s); cs_sent := sent |}.
Definition begin_write (w : nat) (locked : bool) (m : Msg) (s : ControlStream) : ControlStream :=
  {| cs_mutex := if locked then Some w else cs_mutex s; cs_stream := cs_stream s; cs_writers := <[w := (locked, AtHeader m)]> (cs_writers s); cs_sent := cs_sent s |}.
(** The next write of [writeFramed]. *)
Definition write_next (w : nat) (locked : bool) (at_ : WriterAt) (s : ControlStream) : option ControlStream :=
  match at_ with
  | AtHeader m =>
      match Marshal m with
      | None => Some (with_writer w (locked, AtReturn (Err ErrMarshal)) (cs_stream s) (cs_sent s) s)
      | Some b =>
          if Z.of_nat (length b) >? MaxFrameSize then Some (with_writer w (locked, AtReturn (Err ErrFrameTooLarge)) (cs_stream s) (cs_sent s) s)
          else
            match Write (PutUint32 (Z.of_nat (length b))) (cs_stream s) with
            | (Ok _, st) => Some (with_writer w (locked, AtBody m b) st (cs_sent s) s)
            | (Err e, st) => Some (with_writer w (locked, AtReturn (Err e)) st (cs_sent s) s)
            end
      end
  | AtBody m b =>
      match Write b (cs_stream s) with
      | (Ok _, st) => Some (with_writer w (locked, AtReturn (Ok tt)) st (cs_sent s ++ [m]) s)
      | (Err e, st) => Some (with_writer w (locked, AtReturn (Err e)) st (cs_sent s) s)
      end
  | AtReturn _ => None
  end.
Definition write_step (s : ControlStream) (e : WriteEvent) : option ControlStream :=
  match e with
  | WCall w locked m =>
      match cs_writers s !! w with
      | Some _ => None
      | None => if locked && bool_decide (is_Some (cs_mutex s)) then None else Some (begin_write w locked m s)
      end
  | WWrite w => match cs_writers s !! w with Some (locked, at_) => write_next w locked at_ s | None => None end
  | WReturn w =>
      match (cs_writers s !! w : option (bool * WriterAt)) with
      | Some (locked, AtReturn _) =>
          Some {| cs_mutex := if locked then None else cs_mutex s; cs_stream := cs_stream s; cs_writers := delete w (cs_writers s); cs_sent := cs_sent s |}
      | _ => None
      end
  end.
Fixpoint write_steps (s : ControlStream) (es : list WriteEvent) : option ControlStream :=
  match es with [] => Some s | e :: es => s ← write_step s e; write_steps s es end.
Definition new_stream (room : option nat) : ControlStream :=
  {| cs_mutex := None; cs_stream := {| w_out := []; w_room := room |}; cs_writers := ∅; cs_sent := [] |}.
Definition uses_mutex (e : WriteEvent) : Prop := match e with WCall _ locked _ => locked = true | _ => True end.

(** * Under the mutex *)
(** A frame that broke off: less than the whole of it. *)
Definition torn (tail : list byte) : Prop :=
  ∃ m b k, Marshal m = Some b ∧ Z.of_nat (length b) <= MaxFrameSize ∧ (k < length (frame b))%nat ∧ tail = take k (frame b).
(** What is on the stream after the last complete frame. *)
Definition tail_ok (s : ControlStream) (tail : list byte) : Prop :=
  (∃ w m b, cs_writers s !! w = Some (true, AtBody m b) ∧ Marshal m = Some b ∧ Z.of_nat (length b) <= MaxFrameSize ∧ tail = PutUint32 (Z.of_nat (length b))) ∨
  ((∀ w m b l, cs_writers s !! w ≠ Some (l, AtBody m b)) ∧ (tail = [] ∨ (w_room (cs_stream s) = Some 0%nat ∧ torn tail))).
Definition sent_as (ms : list Msg) (bs : list (list byte)) : Prop :=
  Forall2 (λ m b, Marshal m = Some b ∧ Z.of_nat (length b) <= MaxFrameSize) ms bs.
Record cs_inv (s : ControlStream) : Prop := {
  ci_mutex : ∀ w l a, cs_writers s !! w = Some (l, a) → l = true ∧ cs_mutex s = Some w;
  ci_bytes : ∃ bs tail, w_out (cs_stream s) = concat (frame <$> bs) ++ tail ∧ sent_as (cs_sent s) bs ∧ tail_ok s tail;
}.
Lemma cs_inv_new room : cs_inv (new_stream room).
Proof.
  split; cbn.
  - intros w l a. by rewrite lookup_empty.
  - exists [], []. split_and!; [done|constructor|]. right. split; [|by left]. intros w m b l Hw. cbn in Hw. by rewrite lookup_empty in Hw.
Qed.
(** Only the holder of the mutex is writing. *)
Lemma only_holder s w l a w' x : cs_inv s → cs_writers s !! w = Some (l, a) → w' ≠ w → cs_writers s !! w' ≠ Some x.
Proof. intros [Hm _] Hw Hne Hw'. destruct x as [l' a']. destruct (Hm _ _ _ Hw), (Hm _ _ _ Hw'). congruence. Qed.
Lemma tail_ok_idle s w x st sent tail : cs_inv s → is_Some (cs_writers s !! w) → (∀ l m b, x ≠ (l, AtBody m b)) →
  tail = [] ∨ (w_room st = Some 0%nat ∧ torn tail) → tail_ok (with_writer w x st sent s) tail.
Proof.
  intros Hi [[l a] Hw] Hx Ht. right. split; [|done]. intros w' m b l'. cbn. destruct (decide (w = w')) as [->|Hne].
  - rewrite lookup_insert_eq. intros [= ->]. by destruct (Hx l' m b).
  - rewrite lookup_insert_ne by done. eapply only_holder; eauto.
Qed.
Lemma mutex_kept s w l a x st sent : cs_inv s → cs_writers s !! w = Some (l, a) →
  ∀ w' l' a', cs_writers (with_writer w (l, x) st sent s) !! w' = Some (l', a') →
    l' = true ∧ cs_mutex (with_writer w (l, x) st sent s) = Some w'.
Proof.
  intros [Hm _] Hw w' l' a'. cbn. destruct (decide (w = w')) as [->|Hne].
  - rewrite lookup_insert_eq. intros [= <- <-]. by apply (Hm w' l a).
  - rewrite lookup_insert_ne by done. apply Hm.
Qed.
(** A write that breaks off leaves the stream without room. *)
Lemma Write_fails p st e st' : Write p st = (Err e, st') →
  w_room st' = Some 0%nat ∧ ∃ k, (k < length p)%nat ∧ w_out st' = w_out st ++ take k p ∧ (w_room st = Some 0%nat → k = 0%nat).
Proof.
  unfold Write. destruct (w_room st) as [k|]; [|done]. destruct (decide _) as [|Hk]; [done|]. intros [= <- <-]. cbn. split; [done|].
  exists k. split; [lia|]. split; [done|]. congruence.
Qed.
Lemma torn_header m b k : Marshal m = Some b → Z.of_nat (length b) <= MaxFrameSize → (k < 4)%nat → torn (take k (PutUint32 (Z.of_nat (length b)))).
Proof.
  intros Hm Hb Hk. exists m, b, k. split_and!; [done..| |].
  - unfold frame. rewrite length_app, length_PutUint32. lia.
  - unfold frame. rewrite take_app_le; [done|]. rewrite length_PutUint32. lia.
Qed.
Lemma torn_body m b k : Marshal m = Some b → Z.of_nat (length b) <= MaxFrameSize → (k < length b)%nat → torn (PutUint32 (Z.of_nat (length b)) ++ take k b).
Proof.
  intros Hm Hb Hk. exists m, b, (4 + k)%nat. split_and!; [done..| |].
  - unfold frame. rewrite length_app, length_PutUint32. lia.
  - unfold frame. rewrite take_app, length_PutUint32, (take_ge (PutUint32 _)) by (rewrite length_PutUint32; lia).
    by replace (4 + k - 4)%nat with k by lia.
Qed.
Lemma Write_full p st st' : Write p st = (Ok tt, st') → w_out st' = w_out st ++ p ∧ (w_room st = Some 0%nat → p = [] ∧ w_room st' = Some 0%nat).
Proof.
  unfold Write. destruct (w_room st) as [k|]; [|by intros [= <-]]. destruct (decide _) as [Hk|]; [|done]. intros [= <-]. split; [done|].
  intros [= ->]. destruct p; [done|cbn in Hk; lia].
Qed.
Lemma inv_begin s w m : cs_inv s → cs_writers s !! w = None → cs_mutex s = None → cs_inv (begin_write w true m s).
Proof.
  intros [Hm (bs & tail & Hout & Hs & Ht)] Hw Hmu. split; cbn.
  - intros w' l a. destruct (decide (w = w')) as [->|Hne]; [rewrite lookup_insert_eq; by intros [= <- <-]|].
    rewrite lookup_insert_ne by done. intros Hl. destruct (Hm _ _ _ Hl). congruence.
  - exists bs, tail. split_and!; [done..|]. destruct Ht as [(w' & m' & b & Hl & _)|[Hno Ht]]; [destruct (Hm _ _ _ Hl); congruence|].
    right. split; [|done]. cbn. intros w' m' b l. destruct (decide (w = w')) as [->|Hne]; [by rewrite lookup_insert_eq|by rewrite lookup_insert_ne].
Qed.
Lemma inv_write s w l a s' : cs_inv s → cs_writers s !! w = Some (l, a) → write_next w l a s = Some s' → cs_inv s'.
Proof.
  intros Hi Hw. pose proof Hi as [Hm (bs & tail & Hout & Hs & Ht)]. destruct (Hm _ _ _ Hw) as [-> Hmu].
  assert (Hsome : is_Some (cs_writers s !! w)) by eauto. destruct a as [m|m b|r]; cbn [write_next]; [| |done].
  - assert (Htl : tail = [] ∨ (w_room (cs_stream s) = Some 0%nat ∧ torn tail)).
    { destruct Ht as [(w' & m' & b & Hl & _)|[_ Ht]]; [|done]. destruct (Hm _ _ _ Hl). simplify_eq. }
    destruct (Marshal m) as [b|] eqn:Hb; [destruct (Z.gtb_spec (Z.of_nat (length b)) MaxFrameSize) as [|Hsz]; [|destruct (Write _ _) as [[[]|e] st] eqn:Hwr]|].
    2: { intros [= <-]. split; [by eapply mutex_kept|]. apply Write_full in Hwr as [Hst Hroom].
         assert (tail = []) as -> by (destruct Htl as [|[H0 _]]; [done|destruct (Hroom H0) as [Hp _]; by apply (f_equal length) in Hp; rewrite length_PutUint32 in Hp]).
         exists bs, (PutUint32 (Z.of_nat (length b))). cbn. rewrite Hst, Hout, app_nil_r. split_and!; [done..|].
         left. exists w, m, b. cbn. rewrite lookup_insert_eq. by split_and!. }
    2: { intros [= <-]. split; [by eapply mutex_kept|]. apply Write_fails in Hwr as [Hroom (k & Hk & Hq & H0)].
         rewrite length_PutUint32 in Hk. exists bs, (tail ++ take k (PutUint32 (Z.of_nat (length b)))). cbn. rewrite Hq, Hout, app_assoc.
         split_and!; [done..|]. apply tail_ok_idle; [done..|]. right. split; [done|].
         destruct Htl as [->|[Hr Htorn]]; [by apply (torn_header m)|]. rewrite (H0 Hr), take_0, app_nil_r. done. }
    all: intros [= <-]; split; [by eapply mutex_kept|exists bs, tail; cbn; split_and!; [done..|by apply tail_ok_idle]].
  - destruct Ht as [(w' & m' & b' & Hl & Hb & Hsz & ->)|[Hno _]]; [|by destruct (Hno w m b true)].
    destruct (Hm _ _ _ Hl) as [_ Hmu']. rewrite Hmu in Hmu'. simplify_eq.
    destruct (Write b (cs_stream s)) as [[[]|e] st] eqn:Hwr; intros [= <-]; (split; [by eapply mutex_kept|]).
    + apply Write_full in Hwr as [Hst _]. exists (bs ++ [b]), []. cbn. rewrite Hst, Hout, fmap_app, concat_app. cbn. rewrite !app_nil_r, <- app_assoc.
      split_and!; [done|apply Forall2_app; [done|by repeat constructor]|by apply tail_ok_idle; [..|left]].
    + apply Write_fails in Hwr as [Hroom (k & Hk & Hq & _)]. exists bs, (PutUint32 (Z.of_nat (length b)) ++ take k b). cbn. rewrite Hq, Hout, <- app_assoc.
      split_and!; [done..|]. apply tail_ok_idle; [done..|]. right. split; [done|]. by apply (torn_body m).
Qed.
Lemma inv_return s w r : cs_inv s → cs_writers s !! w = Some (true, AtReturn r) →
  cs_inv {| cs_mutex := None; cs_stream := cs_stream s; cs_writers := delete w (cs_writers s); cs_sent := cs_sent s |}.
Proof.
  intros Hi Hw. pose proof Hi as [Hm (bs & tail & Hout & Hs & Ht)].
  assert (Hno : ∀ w' x, delete w (cs_writers s) !! w' ≠ Some x).
  { intros w' x. destruct (decide (w = w')) as [->|Hne]; [by rewrite lookup_delete_eq|]. rewrite lookup_delete_ne by done. eapply only_holder; eauto. }
  split; cbn.
  - intros w' l a Hl. by destruct (Hno _ _ Hl).
  - exists bs, tail. split_and!; [done..|]. right. split; [intros; apply Hno|]. cbn.
    destruct Ht as [(w' & m' & b & Hl & _)|[_ Ht]]; [|done]. destruct (Hm _ _ _ Hl), (Hm _ _ _ Hw). simplify_eq.
Qed.
Lemma cs_inv_step s e s' : cs_inv s → uses_mutex e → write_step s e = Some s' → cs_inv s'.
Proof.
  intros Hi He. destruct e as [w locked m|w|w]; cbn [write_step].
  - cbn in He. subst locked. destruct (cs_writers s !! w) eqn:Hw; [done|]. cbn [andb]. case_bool_decide as Hmu; [done|]. intros [= <-].
    apply inv_begin; [done..|]. destruct (cs_mutex s); [by destruct Hmu; eexists|done].
  - destruct (cs_writers s !! w) as [[l a]|] eqn:Hw; [|done]. by apply inv_write.
  - destruct (cs_writers s !! w) as [[l [| |r]]|] eqn:Hw; [done..| |done]. destruct (ci_mutex s Hi _ _ _ Hw) as [-> _].
    intros [= <-]. by eapply inv_return.
Qed.
Lemma cs_inv_steps s es s' : cs_inv s → Forall uses_mutex es → write_steps s es = Some s' → cs_inv s'.
Proof.
  intros Hi Hf. revert s Hi. induction Hf as [|e es He _ IH]; intros s Hi; cbn [write_steps]; [by intros [= <-]|].
  destruct (write_step s e) as [s1|] eqn:Hs; [|done]. cbn. apply IH. by eapply cs_inv_step.
Qed.

(** * The order *)
Definition called (e : WriteEvent) : list Msg := match e with WCall _ _ m => [m] | _ => [] end.
Definition calls (es : list WriteEvent) : list Msg := es ≫= called.
(** What was sent, and what is being sent, are among the calls, in their order. *)
Definition in_order (s : ControlStream) (l : list Msg) : Prop :=
  cs_sent s `sublist_of` l ∧
  ∀ w lo m, (cs_writers s !! w = Some (lo, AtHeader m) ∨ ∃ b, cs_writers s !! w = Some (lo, AtBody m b)) → (cs_sent s ++ [m]) `sublist_of` l.
Lemma in_order_step s e s' l : cs_inv s → uses_mutex e → in_order s l → write_step s e = Some s' → in_order s' (l ++ called e).
Proof.
  intros Hi He [Hs Hc]. destruct e as [w locked m|w|w]; cbn [write_step called].
  - cbn in He. subst locked. destruct (cs_writers s !! w) eqn:Hw; [done|]. cbn [andb]. case_bool_decide as Hmu; [done|]. intros [= <-]. split; cbn.
    + by apply sublist_inserts_r.
    + intros w' lo m' Hw'. destruct (decide (w = w')) as [<-|Hne].
      * rewrite lookup_insert_eq in Hw'. destruct Hw' as [[= _ ->]|[b [=]]]. by apply sublist_app.
      * rewrite lookup_insert_ne in Hw' by done. apply sublist_inserts_r. eapply Hc; eauto.
  - rewrite app_nil_r. destruct (cs_writers s !! w) as [[l0 a]|] eqn:Hw; [|done].
    assert (Hoth : ∀ x w' lo m, is_Some (<[w := x]> (cs_writers s) !! w') → w' ≠ w → (<[w := x]> (cs_writers s) !! w' = Some (lo, AtHeader m) ∨ ∃ b, <[w := x]> (cs_writers s) !! w' = Some (lo, AtBody m b)) → False).
    { intros x w' lo m Hx Hne Hw'. rewrite lookup_insert_ne in Hx, Hw' by done. destruct Hx as [y Hy]. by apply (only_holder s w l0 a w' y Hi Hw Hne). }
    assert (Hstep : ∀ x st, (∀ lo m, (x = (lo, AtHeader m) ∨ ∃ b, x = (lo, AtBody m b)) → cs_sent s ++ [m] `sublist_of` l) → in_order (with_writer w x st (cs_sent s) s) l).
    { intros x st Hx. split; [done|]. cbn. intros w' lo m Hw'. destruct (decide (w' = w)) as [->|Hne].
      - rewrite lookup_insert_eq in Hw'. apply (Hx lo). destruct Hw' as [[= ->]|[b [= ->]]]; eauto.
      - exfalso. eapply Hoth; [|done|done]. destruct Hw' as [->|[b ->]]; eauto. }
    destruct a as [m|m b|r]; cbn [write_next]; [| |done].
    + destruct (Marshal m) as [b|]; [destruct (_ >? _); [|destruct (Write _ _) as [[[]|e] st]]|]; intros [= <-]; apply Hstep; intros lo m'.
      2: intros [[=]|[b' [= _ -> _]]]; eapply Hc; eauto.
      all: by intros [[=]|[b' [=]]].
    + destruct (Write b _) as [[[]|e] st]; intros [= <-].
      * split; cbn; [eapply (Hc w); eauto|]. intros w' lo m' Hw'. exfalso. destruct (decide (w' = w)) as [->|Hne].
        -- rewrite lookup_insert_eq in Hw'. by destruct Hw' as [[=]|[b' [=]]].
        -- eapply Hoth; [|done|done]. destruct Hw' as [->|[b' ->]]; eauto.
      * apply Hstep. by intros lo m' [[=]|[b' [=]]].
  - rewrite app_nil_r. destruct (cs_writers s !! w) as [[l0 [| |r]]|] eqn:Hw; [done..| |done]. intros [= <-]. split; [done|]. cbn.
    intros w' lo m Hw'. apply (Hc w' lo m). destruct (decide (w = w')) as [<-|Hne].
    + rewrite lookup_delete_eq in Hw'. by destruct Hw' as [|[]].
    + by rewrite lookup_delete_ne in Hw'.
Qed.
Lemma in_order_steps s es s' l : cs_inv s → Forall uses_mutex es → in_order s l → write_steps s es = Some s' → in_order s' (l ++ calls es).
Proof.
  intros Hi Hf. revert s l Hi. induction Hf as [|e es He Hf IH]; intros s l Hi Ho; cbn [write_steps].
  - intros [= <-]. by rewrite app_nil_r.
  - destruct (write_step s e) as [s1|] eqn:Hs; cbn [mbind option_bind]; [|done]. intros Hes. unfold calls. cbn. rewrite app_assoc.
    apply (IH s1); [by eapply cs_inv_step|by eapply in_order_step|done].
Qed.
(** A stream that does not break does not break later. *)
Lemma room_kept s e s' : write_step s e = Some s' → w_room (cs_stream s) = None → w_room (cs_stream s') = None.
Proof.
  intros Hs Hr. destruct e as [w locked m|w|w]; cbn [write_step] in Hs.
  - by repeat case_match; simplify_eq/=.
  - destruct (cs_writers s !! w) as [[l a]|]; [|done]. unfold write_next in Hs. destruct a as [m|m b|r]; [| |done].
    + destruct (Marshal m); [|by simplify_eq/=]. destruct (_ >? _); [by simplify_eq/=|]. rewrite Write_healthy in Hs by done. by simplify_eq/=.
    + rewrite Write_healthy in Hs by done. by simplify_eq/=.
  - by repeat case_match; simplify_eq/=.
Qed.
Lemma room_kept_steps s es s' : write_steps s es = Some s' → w_room (cs_stream s) = None → w_room (cs_stream s') = None.
Proof.
  revert s. induction es as [|e es IH]; intros s; cbn [write_steps]; [by intros [= <-]|].
  destruct (write_step s e) as [s1|] eqn:Hs; cbn [mbind option_bind]; [|done]. intros Hes Hr. apply (IH s1 Hes). by eapply room_kept.
Qed.
End control.
Arguments WriterAt : clear implicits. Arguments ControlStream : clear implicits. Arguments WriteEvent : clear implicits.

(** A goroutine that has the stream for itself does what [writeFramed] does. *)
Lemma writer_alone {Msg} (Marshal : Msg → option (list byte)) w m s :
  cs_writers s !! w = None → cs_mutex s = None →
  ∃ es s', write_steps Marshal s (WCall w true m :: es ++ [WReturn w]) = Some s' ∧ (length es ≤ 2)%nat ∧
    cs_stream s' = (writeFramed Marshal m (cs_stream s)).2 ∧ cs_writers s' = cs_writers s ∧ cs_mutex s' = None ∧
    cs_sent s' = if is_ok (writeFramed Marshal m (cs_stream s)).1 then cs_sent s ++ [m] else cs_sent s.
Proof.
  intros Hw Hm. unfold writeFramed.
  assert (Hcall : write_step Marshal s (WCall w true m) = Some (begin_write w true m s)).
  { cbn. by rewrite Hw, Hm. }
  destruct (Marshal m) as [b|] eqn:Hb; [destruct (Z.of_nat (length b) >? MaxFrameSize) eqn:Hsz; [|destruct (Write (PutUint32 (Z.of_nat (length b))) (cs_stream s)) as [[[]|e] st] eqn:Hh; [destruct (Write b st) as [[[]|e] st'] eqn:Hbd|]]|].
  1,4,5: exists [WWrite w].
  4,5: exists [WWrite w; WWrite w].
  all: eexists; cbn [write_steps app]; rewrite Hcall; cbn [mbind option_bind write_step begin_write cs_writers]; rewrite lookup_insert_eq; cbn [write_next begin_write cs_stream]; rewrite Hb, ?Hsz, ?Hh;
    cbn [mbind option_bind write_steps write_step with_writer cs_writers cs_stream]; rewrite !lookup_insert_eq; cbn [write_next cs_stream with_writer]; rewrite ?Hbd; cbn [mbind option_bind write_steps write_step with_writer cs_writers cs_stream];
    rewrite ?lookup_insert_eq; (split; [reflexivity|]); cbn.
  all: rewrite ?insert_insert_eq, ?delete_insert_eq, ?(delete_id _ _ Hw); unfold mbind, M_bind; rewrite ?Hh; cbn; rewrite ?Hbd; cbn; split_and!; try lia; try done.
Qed.

(** The frame of an empty message is complete with its header, before the empty body is written. *)
Definition completing {Msg} (s : ControlStream Msg) (m : Msg) : Prop := ∃ w, cs_writers s !! w = Some (true, AtBody m []).
(** What follows the last frame that was counted is nothing, a torn frame or the frame of such a message. *)
Lemma tail_torn {Msg} (Marshal : Msg → option (list byte)) s tail : tail_ok Marshal s tail →
  tail = [] ∨ torn Marshal tail ∨ ∃ m, completing s m ∧ Marshal m = Some [] ∧ tail = frame [].
Proof.
  intros [(w & m & b & Hw & Hm & Hb & ->)|[_ [->|[_ Ht]]]]; [|by left|by right; left]. right.
  destruct b as [|x b]; [right; by exists m; split; [exists w|]|left].
  rewrite <- (app_nil_r (PutUint32 _)). change [] with (take 0 (x :: b)). by apply (torn_body Marshal m); cbn; [..|lia].
Qed.
Lemma torn_unread {Msg} (Marshal : Msg → option (list byte)) (Unmarshal : list byte → option Msg) tail m : torn Marshal tail → fst (readFramed Unmarshal tail) ≠ Ok m.
Proof. intros (m' & b & k & _ & Hb & Hk & ->). by destruct (truncated_frame_fails Unmarshal b k Hb Hk) as [-> | ->]. Qed.

(** C11: frames on a control stream are never torn. However the goroutines of one end
    interleave, as long as each goes through writeControl, the reader of the other end gets the messages
    whose frames were completed, each exactly and in the order in which the goroutines
    obtained the mutex; what follows the last of these frames is at most a proper beginning of the
    frame of one more message, from which the reader gets an error and no message (an empty
    message, whose frame is its header, is read as soon as that is written), and it is
    nothing at all on a stream that does not break and on which nobody is writing. *)
Theorem control_frames_intact {Msg} (Marshal : Msg → option (list byte)) (Unmarshal : list byte → option Msg)
    (Hcodec : CodecOk Marshal Unmarshal) room es s :
  Forall uses_mutex es → write_steps Marshal (new_stream room) es = Some s →
  cs_sent s `sublist_of` calls es ∧
  ∃ rest, read_n Unmarshal (length (cs_sent s)) (w_out (cs_stream s)) = (Ok (cs_sent s), rest) ∧
    (rest = [] ∨ torn Marshal rest ∨ ∃ m, completing s m ∧ Marshal m = Some [] ∧ rest = frame []) ∧
    (∀ m, fst (readFramed Unmarshal rest) = Ok m → completing s m ∧ Marshal m = Some []) ∧
    (room = None → cs_writers s = ∅ → rest = []).
Proof.
  intros Hf Hs. pose proof (cs_inv_steps Marshal _ _ _ (cs_inv_new Marshal room) Hf Hs) as [_ (bs & tail & Hout & Hsent & Ht)]. split.
  - assert (Ho : in_order (new_stream room) ([] : list Msg)).
    { split; [done|]. intros w lo m. cbn. rewrite lookup_empty. by intros [|[]]. }
    apply (in_order_steps Marshal _ _ _ [] (cs_inv_new Marshal room) Hf Ho Hs).
  - exists tail. pose proof (tail_torn Marshal s tail Ht) as Htorn. split_and!; [|done| |].
    + rewrite Hout. apply read_n_frames. eapply Forall2_impl; [|exact Hsent]. intros m b [Hm Hlen]. split; [|done]. by apply unmarshal_marshal.
    + intros m Hr. destruct Htorn as [->|[Htorn|(m' & Hc & Hm & ->)]]; [done|by destruct (torn_unread Marshal Unmarshal tail m Htorn)|].
      assert (Hu : Unmarshal [] = Some m') by (by apply unmarshal_marshal).
      rewrite <- (app_nil_r (frame [])), (readFramed_frame Unmarshal m' []) in Hr by done. by injection Hr as <-.
    + intros -> Hw. pose proof (room_kept_steps Marshal _ _ _ Hs eq_refl) as Hr. destruct Ht as [(w & m & b & Hl & _)|[_ [|[H0 _]]]]; [|done|congruence].
      by rewrite Hw, lookup_empty in Hl.
Qed.

(** A heartbeat and a bind response that is written while the former waits for the mutex. *)
Definition ex_ping : list byte := [x01; x02; x0a].
Definition ex_resp : list byte := [x03; x04; x05].
Definition ex_writes : list (WriteEvent (list byte)) :=
  [WCall 1%nat true ex_ping; WWrite 1%nat; WWrite 1%nat; WReturn 1%nat; WCall 2%nat true ex_resp; WWrite 2%nat; WReturn 2%nat].
(** Each on a stream with room for two bytes of the second frame. *)
Definition ex_written : ControlStream (list byte) := default (new_stream None) (write_steps bytes_marshal (new_stream (Some 9%nat)) ex_writes).
Lemma control_frames_intact_witness :
  cs_sent ex_written = [ex_ping] ∧
  ∃ rest, read_n Some 1 (w_out (cs_stream ex_written)) = (Ok [ex_ping], rest) ∧ ∀ m, fst (readFramed Some rest) ≠ Ok m.
Proof.
  split; [reflexivity|].
  destruct (control_frames_intact bytes_marshal Some ltac:(intros m b [= ->]; reflexivity) (Some 9%nat) ex_writes ex_written ltac:(repeat constructor) eq_refl)
    as (_ & rest & Hr & _ & Hm & _).
  exists rest. split; [exact Hr|]. intros m Hx. destruct (Hm m Hx) as [[w Hw] _]. vm_compute in Hw. destruct w as [|[]]; discriminate Hw.
Defined.

(** The shutdown notice of [drain] is written to the stream itself: when a heartbeat is
    between its two writes, the agent reads neither message. *)
Definition ex_shutdown : list byte := [x07; x08; x09].
Definition ex_drain_writes : list (WriteEvent (list byte)) :=
  [WCall 1%nat true ex_ping; WWrite 1%nat; WCall 2%nat false ex_shutdown; WWrite 2%nat; WWrite 1%nat; WWrite 2%nat; WReturn 1%nat; WReturn 2%nat].
Definition ex_torn : ControlStream (list byte) := default (new_stream None) (write_steps bytes_marshal (new_stream None) ex_drain_writes).
Example drain_tears_frames :
  write_steps bytes_marshal (new_stream None) ex_drain_writes = Some ex_torn ∧ cs_sent ex_torn = [ex_ping; ex_shutdown] ∧
  readFramed Some (w_out (cs_stream ex_torn)) = (Ok [x00; x00; x00], [x03; x01; x02; x0a; x07; x08; x09]) ∧
  (readFramed Some [x03; x01; x02; x0a; x07; x08; x09] : result IOErr (list byte) * list byte) = (Err ErrFrameTooLarge, [x07; x08; x09]).
Proof. split_and!; [reflexivity..|]. by apply (oversized_frame_refused Some [x03; x01; x02; x0a] [x07; x08; x09]). Qed.
