(* ===== verification/Certs.v ===== *)
(** The certificate managers of the edge (internal/server/tls.go and tls_acme.go): the
    self-signed certificates of development with their cache, and what the ACME library
    is set up with in production.  Signing and CertMagic are third parties: whether a
    signature succeeds is an argument, and what CertMagic is given is a record. *)
From S2P Require Import Prelude GoStrings Wire Authz Registry EdgeConfig Ports Hub Usage Edge Inspect Ingress Upstream.

Open Scope Z_scope.

(** * Self-signed certificates *)
Record Certificate := {
  ct_SerialNumber : Z; ct_CommonName : string; ct_NotBefore : Time; ct_NotAfter : Time;
  ct_IPAddresses : list (list Z); ct_DNSNames : list string;
}.
Record devCertManager := { dev_baseDomain : string; dev_cache : gmap string Certificate }.
Definition NewDevCertManager (baseDomain : string) (keyOk : bool) : result string devCertManager :=
  if keyOk then Ok {| dev_baseDomain := baseDomain; dev_cache := ∅ |} else Err "tls: gen key".
Definition dev_template (now : Time) (name : string) : Certificate :=
  let ip := ParseIP name in
  {| ct_SerialNumber := now - 62135596800 * Second; ct_CommonName := name; ct_NotBefore := now - Hour; ct_NotAfter := now + 90 * 24 * Hour;
     ct_IPAddresses := match ip with Some ip => [ip] | None => [] end;
     ct_DNSNames := match ip with Some _ => [] | None => [name] end |}.
(** [sign]: whether x509.CreateCertificate succeeds. *)
Definition certFor (now : Time) (name : string) (sign : Certificate → bool) (d : devCertManager) : result string Certificate * devCertManager :=
  match dev_cache d !! name with
  | Some c => (Ok c, d)
  | None =>
      let c := dev_template now name in
      if sign c then (Ok c, {| dev_baseDomain := dev_baseDomain d; dev_cache := <[name := c]> (dev_cache d) |})
      else (Err ("tls: create cert for " +:+ name), d)
  end.
Definition dev_name (serverName : string) (d : devCertManager) : string :=
  if String.eqb serverName "" then "*." +:+ dev_baseDomain d else serverName.
Definition dev_GetCertificate (now : Time) (serverName : string) (sign : Certificate → bool) (d : devCertManager) : result string Certificate * devCertManager :=
  certFor now (dev_name serverName d) sign d.

(** * Production *)
Inductive CertStorage := RedisCerts (url : string) | FileCerts (path : string) | DefaultCerts.
(** [redisOk]: whether NewRedisStorage succeeds. *)
Definition buildCertStorage (c : Config) (redisOk : string → bool) : result string CertStorage :=
  if negb (String.eqb (RedisURL c) "") then if redisOk (RedisURL c) then Ok (RedisCerts (RedisURL c)) else Err "redis"
  else if negb (String.eqb (TLSStorageDir c) "") then Ok (FileCerts (TLSStorageDir c))
  else Ok DefaultCerts.
(** The directories the library names. *)
Inductive LetsEncryptCA := LetsEncryptProductionCA | LetsEncryptStagingCA.
Definition acmeTLSALPNProto : string := "acme-tls/1".
Record prodCertManager := {
  pc_DefaultServerName : string; pc_Storage : CertStorage;
  pc_CA : LetsEncryptCA; pc_Email : string; pc_Agreed : bool; pc_DNS01Token : option string; (* the issuer *)
  pc_base : string; pc_manageWildcard : bool;
}.
Definition newACMECertManager (c : Config) (redisOk : string → bool) : result string prodCertManager :=
  match buildCertStorage c redisOk with
  | Err e => Err e
  | Ok st =>
      Ok {| pc_DefaultServerName := BaseDomain c; pc_Storage := st;
            pc_CA := if ACMEStaging c then LetsEncryptStagingCA else LetsEncryptProductionCA;
            pc_Email := ACMEEmail c; pc_Agreed := true;
            pc_DNS01Token := if negb (String.eqb (CloudflareToken c) "") then Some (CloudflareToken c) else None;
            pc_base := BaseDomain c; pc_manageWildcard := negb (String.eqb (CloudflareToken c) "") |}
  end.
(** The names it asks for at the start, and whether it closes its storage at the end. *)
Definition Warm (p : prodCertManager) : list string := if pc_manageWildcard p then [pc_base p; "*." +:+ pc_base p] else [].
Definition prod_Close (p : prodCertManager) : bool := match pc_Storage p with RedisCerts _ => true | _ => false end.

(** * The one in use *)
Inductive CertManager := DevCerts (d : devCertManager) | ProdCerts (p : prodCertManager).
Definition buildCertManager (c : Config) (keyOk : bool) (redisOk : string → bool) : result string CertManager :=
  if String.eqb (ACMEEmail c) "" then match NewDevCertManager (BaseDomain c) keyOk with Ok d => Ok (DevCerts d) | Err e => Err e end
  else match newACMECertManager c redisOk with Ok p => Ok (ProdCerts p) | Err e => Err e end.
(** The protocols of [TLSConfig]. *)
Definition NextProtos (m : CertManager) : list string :=
  match m with DevCerts _ => ["http/1.1"] | ProdCerts _ => ["http/1.1"; acmeTLSALPNProto] end.

(** * Theorems *)
Section dev.
  Context (sign : Certificate → bool).
(** Handshakes, one after the other. *)
Fixpoint dev_run (d : devCertManager) (hellos : list (Time * string)) : devCertManager :=
  match hellos with [] => d | (now, sni) :: hellos => dev_run (snd (dev_GetCertificate now sni sign d)) hellos end.
Definition covers (c : Certificate) (name : string) : Prop :=
  ct_CommonName c = name ∧ match ParseIP name with Some ip => ct_IPAddresses c = [ip] | None => ct_DNSNames c = [name] end.
Lemma template_covers now name : covers (dev_template now name) name.
Proof. unfold covers, dev_template. cbn. by destruct (ParseIP name). Qed.
Definition cache_ok (d : devCertManager) : Prop := map_Forall (λ name c, covers c name ∧ sign c = true) (dev_cache d).
Lemma dev_step now sni d r d' : cache_ok d → dev_GetCertificate now sni sign d = (r, d') →
  cache_ok d' ∧ dev_baseDomain d' = dev_baseDomain d ∧ dev_cache d ⊆ dev_cache d' ∧
  match r with Ok c => dev_cache d' !! dev_name sni d = Some c | Err _ => d' = d end.
Proof.
  intros Hok. unfold dev_GetCertificate, certFor. destruct (dev_cache d !! dev_name sni d) as [c|] eqn:Hc.
  - by intros [= <- <-].
  - destruct (sign (dev_template now (dev_name sni d))) eqn:Hs; intros [= <- <-]; split_and!; try done; cbn.
    + apply map_Forall_insert; [done|]. split; [|done]. split; [apply template_covers|done].
    + by apply insert_subseteq.
    + by rewrite lookup_insert_eq.
Qed.
Lemma dev_run_ok d hellos : cache_ok d → cache_ok (dev_run d hellos) ∧ dev_baseDomain (dev_run d hellos) = dev_baseDomain d ∧ dev_cache d ⊆ dev_cache (dev_run d hellos).
Proof.
  revert d. induction hellos as [|[now sni] hellos IH]; intros d Hok; [done|]. cbn [dev_run].
  destruct (dev_GetCertificate now sni sign d) as [r d1] eqn:Hg. destruct (dev_step now sni d r d1 Hok Hg) as (Hok1 & Hb & Hsub & _). cbn [snd].
  destruct (IH d1 Hok1) as (H1 & H2 & H3). split_and!; [done|congruence|by etrans].
Qed.
End dev.

(** A handshake gets a certificate for the name it asks for, the one that name got before. *)
Theorem dev_certificates_stable sign base hellos now sni r d' later now' r' d'' :
  let d := dev_run sign {| dev_baseDomain := base; dev_cache := ∅ |} hellos in
  dev_GetCertificate now sni sign d = (Ok r, d') → dev_GetCertificate now' sni sign (dev_run sign d' later) = (r', d'') →
  covers r (if String.eqb sni "" then "*." +:+ base else sni) ∧ sign r = true ∧ r' = Ok r.
Proof.
  cbv zeta. intros Hg Hg'. destruct (dev_run_ok sign {| dev_baseDomain := base; dev_cache := ∅ |} hellos) as (Hok & Hb & _); [apply map_Forall_empty|].
  destruct (dev_step sign _ _ _ _ _ Hok Hg) as (Hok1 & Hb1 & _ & Hc). destruct (dev_run_ok sign d' later Hok1) as (_ & Hb2 & Hsub).
  assert (Hn : ∀ d, dev_baseDomain d = base → dev_name sni d = if String.eqb sni "" then "*." +:+ base else sni) by (intros d Hd; unfold dev_name; by rewrite Hd).
  rewrite (Hn _ Hb) in Hc. destruct (Hok1 _ _ Hc) as [Hcov Hs]. split_and!; [done..|].
  unfold dev_GetCertificate, certFor in Hg'. rewrite (Hn (dev_run sign d' later)) in Hg' by (rewrite Hb2, Hb1; done).
  rewrite (lookup_weaken _ _ _ _ Hc Hsub) in Hg'. by injection Hg' as <- <-.
Qed.

(** A certificate that is cached is never replaced: after ninety days the development
    edge serves an expired one until it restarts. *)
Example dev_certificate_expires :
  let d := snd (dev_GetCertificate 0 "x.lvh.me" (λ _, true) {| dev_baseDomain := "lvh.me"; dev_cache := ∅ |}) in
  let later := 91 * 24 * Hour in
  ∃ c, fst (dev_GetCertificate later "x.lvh.me" (λ _, true) d) = Ok c ∧ ct_NotAfter c < later.
Proof. eexists. split; [reflexivity|]. vm_compute. reflexivity. Qed.

(** The protocol a client agreed on is the one its connection is served with: without
    HTTP/2 no certificate manager offers it. *)
Theorem alpn_is_what_is_served (m : CertManager) (enableH2 : bool) (alpn : string) :
  alpn = "" ∨ alpn ∈ https_protos enableH2 (NextProtos m) → served_by enableH2 (HDone alpn) = if String.eqb alpn "h2" then SHttp2 else SHttp1.
Proof.
  destruct enableH2; cbn; [done|]. intros [->|Hin]; [done|]. destruct (String.eqb_spec alpn "h2") as [->|]; [|done].
  exfalso. destruct m; cbn in Hin; unfold acmeTLSALPNProto in Hin; set_solver.
Qed.
Lemma alpn_is_what_is_served_witness :
  served_by false (HDone "acme-tls/1") = SHttp1 ∧ served_by true (HDone "h2") = SHttp2.
Proof.
  split.
  - apply (alpn_is_what_is_served (ProdCerts {| pc_DefaultServerName := "trqsh.uz"; pc_Storage := DefaultCerts; pc_CA := LetsEncryptStagingCA; pc_Email := "a@b";
      pc_Agreed := true; pc_DNS01Token := None; pc_base := "trqsh.uz"; pc_manageWildcard := false |}) false "acme-tls/1").
    right. cbn. right. left.
  - apply (alpn_is_what_is_served (DevCerts {| dev_baseDomain := "lvh.me"; dev_cache := ∅ |}) true "h2"). right. left.
Defined.
