(* ===== verification/EdgeRun.v ===== *)
(** The process of the edge (internal/server/server.go, cmd/trqshd/main.go): what Run
    starts and in which order, the heartbeat of a session, the loop that accepts agents,
    the operations endpoint, and drain, as the effects they have in their order; and what
    drain does to the state of the edge.  Sockets are third parties: whether a listen
    succeeds is an argument. *)
From S2P Require Import Prelude GoStrings Wire Authz Registry EdgeConfig Ports Hub Usage Edge EdgeSafety Ingress Transport TransportSafety Inspect Upstream Certs EdgeExamples.

Open Scope Z_scope.

(** * Construction *)
Inductive EntChoice := EntStub | EntAPI (url token : string).
Definition buildEntitlements (c : Config) : result string EntChoice :=
  if String.eqb (EntitlementsMode c) "" || String.eqb (EntitlementsMode c) "stub" then Ok EntStub
  else if String.eqb (EntitlementsMode c) "api" then Ok (EntAPI (APIURL c) (InternalToken c))
  else Err ("server: unknown TRQSH_ENTITLEMENTS=" +:+ EntitlementsMode c).
Inductive RegChoice := RegMemory | RegRedis (url : string).
Definition buildRegistry (c : Config) (redisOk : string → bool) : result string RegChoice :=
  if String.eqb (RedisURL c) "" then Ok RegMemory else if redisOk (RedisURL c) then Ok (RegRedis (RedisURL c)) else Err "redis".
Record Parts := { pt_ent : EntChoice; pt_reg : RegChoice; pt_certs : CertManager; pt_reporter : bool }.
(** The history reporter is what the real entitlements client adds. *)
Definition edge_New (c : Config) (keyOk : bool) (redisOk : string → bool) : result string Parts :=
  match buildEntitlements c with
  | Err e => Err e
  | Ok ent =>
      match buildRegistry c redisOk with
      | Err e => Err e
      | Ok rg =>
          match buildCertManager c keyOk redisOk with
          | Err e => Err e
          | Ok certs => Ok {| pt_ent := ent; pt_reg := rg; pt_certs := certs; pt_reporter := match ent with EntAPI _ _ => true | EntStub => false end |}
          end
      end
  end.
(** The flags of the command, after the environment. *)
Record Flags := { fl_base_domain : string; fl_quic_addr : string; fl_tcp_addr : string; fl_http_addr : string; fl_https_addr : string }.
Definition overrideStr (dst v : string) : string := if negb (String.eqb v "") then v else dst.
Definition main_config (f : Flags) (c : Config) : Config :=
  {| Env := Env c; QUICAddr := overrideStr (QUICAddr c) (fl_quic_addr f); TCPAddr := overrideStr (TCPAddr c) (fl_tcp_addr f);
     HTTPAddr := overrideStr (HTTPAddr c) (fl_http_addr f); HTTPSAddr := overrideStr (HTTPSAddr c) (fl_https_addr f);
     H3Addr := H3Addr c; H3AdvertisePort := H3AdvertisePort c; EnableH2 := EnableH2 c;
     BaseDomain := overrideStr (BaseDomain c) (fl_base_domain f); cfg_Region := cfg_Region c; cfg_EdgeID := cfg_EdgeID c;
     RedisURL := RedisURL c; EntitlementsMode := EntitlementsMode c; APIURL := APIURL c; InternalToken := InternalToken c;
     ACMEStaging := ACMEStaging c; ACMEEmail := ACMEEmail c; CloudflareToken := CloudflareToken c; TLSStorageDir := TLSStorageDir c;
     PortMin := PortMin c; PortMax := PortMax c; MetricsAddr := MetricsAddr c; ForwardAddr := ForwardAddr c;
     ForwardAdvertiseAddr := ForwardAdvertiseAddr c; SiteUpstream := SiteUpstream c; AppUpstream := AppUpstream c; APIUpstream := APIUpstream c;
     HeartbeatInterval := HeartbeatInterval c; SessionIdle := SessionIdle c; DrainTimeout := DrainTimeout c |}.
(** The container's check: the address it asks, and the exit code for the status it gets. *)
Definition healthcheck_addr (env : Environ) (key dflt : string) : string :=
  let addr := default "" (env !! key) in
  let addr := if String.eqb addr "" then dflt else addr in
  if HasPrefix addr ":" then "localhost" +:+ addr else addr.
Definition healthcheck (env : Environ) (key dflt : string) (get : string → option Z) : Z :=
  match get ("http://" +:+ healthcheck_addr env key dflt +:+ "/healthz") with Some st => if st =? 200 then 0 else 1 | None => 1 end.

(** * Start and drain *)
Inductive Lst := LAgent | LHTTP | LHTTPS | LH3 | LForward.
#[export] Instance Lst_eq_dec : EqDecision Lst.
Proof. solve_decision. Defined.
Inductive Goro := GHTTP | GHTTPS | GH3 | GForward | GPresence | GOps | GUsage | GAgents.
Inductive RunEffect :=
| FListen (l : Lst) | FClose (l : Lst) | FGo (g : Goro) | FRegister | FWarm (names : list string) | FReady
| FDraining | FUnregister | FNotify (a : sref) | FOpsShutdown | FPortsClosed | FUsageStopped | FRegistryClosed | FCertsClosed | FWait.
Definition Run_M := M (list RunEffect) string.
Definition run_emit (e : RunEffect) : Run_M unit := modify (λ l, l ++ [e]).
Definition listen_on (ok : Lst → bool) (l : Lst) (err : string) : Run_M unit := if ok l then run_emit (FListen l) else throw err.
Definition startHTTP (c : Config) (ok : Lst → bool) : Run_M unit :=
  _ ← listen_on ok LHTTP ("server: http listen " +:+ HTTPAddr c); run_emit (FGo GHTTP).
Definition startHTTPS (c : Config) (ok : Lst → bool) : Run_M unit :=
  _ ← listen_on ok LHTTPS ("server: https listen " +:+ HTTPSAddr c); run_emit (FGo GHTTPS).
Definition startH3 (c : Config) (ok : Lst → bool) : Run_M unit :=
  _ ← listen_on ok LH3 ("server: h3 udp listen " +:+ H3Addr c); run_emit (FGo GH3).
Definition startForward (c : Config) (ok : Lst → bool) : Run_M unit :=
  _ ← listen_on ok LForward ("server: forward listen " +:+ ForwardAddr c); _ ← run_emit FRegister; run_emit (FGo GForward).
(** Run, up to the point where it waits for the end of its context. *)
Definition Run_start (c : Config) (certs : CertManager) (ok : Lst → bool) : Run_M unit :=
  _ ← listen_on ok LAgent "server: agent listen";
  _ ← startHTTP c ok;
  _ ← startHTTPS c ok;
  _ ← (if String.eqb (H3Addr c) "" then mret tt else _ ← try (F := string) (startH3 c ok); mret tt);
  _ ← (if forwardingEnabled c then _ ← startForward c ok; run_emit (FGo GPresence) else mret tt);
  _ ← (match certs with ProdCerts p => run_emit (FWarm (Warm p)) | DevCerts _ => mret tt end);
  _ ← run_emit (FGo GOps);
  _ ← run_emit (FGo GUsage);
  _ ← run_emit (FGo GAgents);
  run_emit FReady.
(** A field is set when its listen succeeded. *)
Definition is_set (l : Lst) (effs : list RunEffect) : bool := existsb (λ e, match e with FListen l' => bool_decide (l' = l) | _ => false end) effs.
Definition close_if (l : Lst) (effs : list RunEffect) : list RunEffect := if is_set l effs then [FClose l] else [].
Definition drain (c : Config) (certs : CertManager) (sessions : list sref) (effs : list RunEffect) : list RunEffect :=
  [FDraining] ++
  (if forwardingEnabled c then FUnregister :: close_if LForward effs else []) ++
  (FNotify <$> sessions) ++
  [FOpsShutdown] ++ close_if LHTTP effs ++ close_if LHTTPS effs ++ close_if LH3 effs ++ close_if LAgent effs ++
  [FPortsClosed; FUsageStopped; FRegistryClosed] ++
  (match certs with ProdCerts p => if prod_Close p then [FCertsClosed] else [] | DevCerts _ => [] end) ++
  [FWait].
(** The whole of Run. *)
Definition Run (c : Config) (certs : CertManager) (ok : Lst → bool) (sessions : list sref) : result string unit * list RunEffect :=
  match Run_start c certs ok [] with
  | (Ok _, effs) => (Ok tt, effs ++ drain c certs sessions effs)
  | (Err e, effs) => (Err e, effs)
  end.

(** * The operations endpoint *)
Definition draining_at (effs : list RunEffect) : bool := existsb (λ e, match e with FDraining => true | _ => false end) effs.
Definition ops_serve (path : string) (draining : bool) (metrics : string) : Z * string :=
  if String.eqb path "/metrics" then (200, metrics)
  else if String.eqb path "/healthz" then (200, "ok")
  else if String.eqb path "/readyz" then if draining then (503, "draining" +:+ LF) else (200, "ready")
  else (404, "404 page not found" +:+ LF).

(** * Agents *)
(** A ticker and a context; whether the ping could be written. *)
Inductive HbEvent := HbCancel | HbTick (written : bool).
Inductive HbEffect := HbPing | HbClose.
Fixpoint heartbeat_loop (evs : list HbEvent) : list HbEffect :=
  match evs with
  | [] => []
  | HbCancel :: _ => []
  | HbTick true :: evs => HbPing :: heartbeat_loop evs
  | HbTick false :: _ => [HbPing; HbClose]
  end.
Definition heartbeat (c : Config) (evs : list HbEvent) : list HbEffect := if HeartbeatInterval c <=? 0 then [] else heartbeat_loop evs.
(** What Accept returns, and on an error whether the context is done. *)
Inductive AcceptResult := AcSession (s : conn) | AcError (cancelled : bool).
Fixpoint acceptAgents (rs : list AcceptResult) : list conn :=
  match rs with
  | [] => []
  | AcSession s :: rs => s :: acceptAgents rs
  | AcError true :: _ => []
  | AcError false :: rs => acceptAgents rs
  end.

Section state.
  Context `{RangeOrder} {R : Type} `{Registry R} {E : Type} `{Entitlements E}.
(** What drain does to the state; usage.Stop waits for the last flush. *)
Definition drain_server (now : Time) (s : Server R E) : Server R E :=
  let s := if forwardingEnabled (cfg s) then with_reg (snd (reg_UnregisterEdge now (cfg_EdgeID (cfg s)) (reg s))) s else s in
  let s := with_ports (closeAll (ports s)) s in
  let '(u, e) := flush now (usage s, ent s) in
  with_ent e (with_usage u s).
End state.

(** * Theorems *)
(** Theorems about the process of the edge: what Run opens it closes, the state that
    drain leaves, and what can still happen in the drain window. *)
(** * Listeners *)
Definition opened (effs : list RunEffect) : list Lst := omap (λ e, match e with FListen l => Some l | _ => None end) effs.
Definition closed_ (effs : list RunEffect) : list Lst := omap (λ e, match e with FClose l => Some l | _ => None end) effs.
Definition notified (effs : list RunEffect) : list sref := omap (λ e, match e with FNotify a => Some a | _ => None end) effs.
Definition was_ready (effs : list RunEffect) : bool := existsb (λ e, match e with FReady => true | _ => false end) effs.
(** The listeners a configuration asks for. *)
Definition wanted (c : Config) (ok : Lst → bool) : list Lst :=
  [LAgent; LHTTP; LHTTPS] ++ (if negb (String.eqb (H3Addr c) "") && ok LH3 then [LH3] else []) ++ (if forwardingEnabled c then [LForward] else []).
Definition can_start (c : Config) (ok : Lst → bool) : bool := ok LAgent && ok LHTTP && ok LHTTPS && (negb (forwardingEnabled c) || ok LForward).

Lemma omap_notices {A} (f : RunEffect → option A) l : (∀ a, f (FNotify a) = None) → omap f (FNotify <$> l) = [].
Proof. intros Hf. induction l as [|a l IH]; [done|]. cbn. by rewrite Hf. Qed.
Lemma notified_notices l : notified (FNotify <$> l) = l.
Proof. unfold notified. induction l as [|a l IH]; [done|]. cbn. by f_equal. Qed.
Lemma opened_app l l' : opened (l ++ l') = opened l ++ opened l'. Proof. apply omap_app. Qed.
Lemma closed_app l l' : closed_ (l ++ l') = closed_ l ++ closed_ l'. Proof. apply omap_app. Qed.
Lemma notified_app l l' : notified (l ++ l') = notified l ++ notified l'. Proof. apply omap_app. Qed.
Lemma is_set_opened l effs : is_set l effs = bool_decide (l ∈ opened effs).
Proof.
  unfold is_set, opened in *. induction effs as [|e effs IH]; [done|]. cbn. rewrite IH. destruct e; cbn; try done. repeat case_bool_decide; set_solver.
Qed.

Lemma Run_start_spec c certs ok : match Run_start c certs ok [] with
  | (Ok _, effs) => can_start c ok = true ∧ opened effs = wanted c ok ∧ closed_ effs = [] ∧ notified effs = [] ∧ draining_at effs = false ∧ list.last effs = Some FReady
  | (Err _, effs) => can_start c ok = false ∧ closed_ effs = [] ∧ was_ready effs = false
  end.
Proof.
  unfold Run_start, startHTTP, startHTTPS, startH3, startForward, wanted, can_start, listen_on.
  destruct (ok LAgent); [|done]. destruct (ok LHTTP); [|done]. destruct (ok LHTTPS); [|done].
  destruct (String.eqb (H3Addr c) "") eqn:Hh; [|destruct (ok LH3)]; (destruct (forwardingEnabled c); [destruct (ok LForward)|]); destruct certs as [d|p];
    vm_compute; split_and!; reflexivity.
Qed.

(** Run ends without an error exactly when the listeners it cannot do without can be
    opened; then it has opened what the configuration asks for, the HTTP/3 one only if
    it could, was ready after the last of them, and drain has closed each of them once and
    nothing else, told every session, and not earlier than /readyz began to answer 503. *)
Theorem edge_closes_what_it_opened c certs ok sessions r effs : Run c certs ok sessions = (r, effs) →
  is_ok r = can_start c ok ∧
  (is_ok r = false → was_ready effs = false) ∧
  (is_ok r = true →
    opened effs = wanted c ok ∧ closed_ effs ≡ₚ wanted c ok ∧ NoDup (wanted c ok) ∧ notified effs = sessions ∧
    ∃ up down, effs = up ++ FDraining :: down ∧ list.last up = Some FReady ∧ draining_at up = false ∧ closed_ up = [] ∧ notified up = [] ∧
      ∀ metrics, ops_serve "/readyz" (draining_at up) metrics = (200, "ready") ∧ ops_serve "/readyz" (draining_at effs) metrics = (503, "draining" +:+ LF)).
Proof.
  unfold Run. pose proof (Run_start_spec c certs ok) as Hs. destruct (Run_start c certs ok []) as [[[]|e] up].
  2: { intros [= <- <-]. cbn. naive_solver. }
  destruct Hs as (Hc & Ho & Hcl & Hn & Hdr & Hlast). intros [= <- <-]. cbn [is_ok]. split_and!; [done..|]. intros _.
  assert (Hset : ∀ l, close_if l up = if bool_decide (l ∈ wanted c ok) then [FClose l] else []).
  { intros l. unfold close_if. by rewrite is_set_opened, Ho. }
  assert (Hdc : closed_ (drain c certs sessions up) ≡ₚ wanted c ok ∧ opened (drain c certs sessions up) = [] ∧ notified (drain c certs sessions up) = sessions).
  { unfold drain. rewrite !Hset, !closed_app, !opened_app, !notified_app, notified_notices.
    unfold closed_ at 3, opened at 3. rewrite !omap_notices by done. unfold wanted.
    destruct (forwardingEnabled c), (String.eqb (H3Addr c) ""), (ok LH3), certs as [d|p]; try destruct (prod_Close p); vm_compute; rewrite ?app_nil_r; split_and!; try done.
    all: first [exact (app_nil_r sessions)|apply list.NoDup_Permutation; [repeat (constructor; [set_solver|]); constructor..|set_solver]]. }
  destruct Hdc as (Hd1 & Hd2 & Hd3). rewrite opened_app, closed_app, notified_app, Ho, Hcl, Hn, Hd2, Hd3, app_nil_r. split_and!; [done|done| |done|].
  - unfold wanted. destruct (forwardingEnabled c), (negb _ && _); vm_compute; repeat (constructor; [set_solver|]); constructor.
  - exists up, (tail (drain c certs sessions up)). split_and!; try done. intros metrics. rewrite Hdr. split; [done|].
    unfold draining_at, ops_serve. rewrite existsb_app. cbn. by rewrite orb_true_r.
Qed.

(** * The state that drain leaves *)
Section state.
  Context `{RangeOrder} {R : Type} `{RegistryLaws R} {E : Type} `{Entitlements E}.
(** Every public port is closed, everything recorded so far is reported, the sessions
    and their tunnels are as they were, and no peer finds the address of this edge. *)
Theorem drained_state now (s : Server R E) : let s' := drain_server now s in
  world s' = world s ∧ open_ports "tcp" (ports s') = ∅ ∧ open_ports "udp" (ports s') = ∅ ∧
  windows (usage s') = ∅ ∧ ent s' = report_all now (flush_reports now (usage s)) (ent s) ∧
  (forwardingEnabled (cfg s) = true → fst (reg_UnregisterEdge now (cfg_EdgeID (cfg s)) (reg s)) = Ok tt →
    ∀ t, now <= t → edge_view (reg s') t (cfg_EdgeID (cfg s)) = None).
Proof.
  cbv zeta. unfold drain_server, flush. destruct (forwardingEnabled (cfg s)); cbn; split_and!; try done.
  intros _ Hok t Ht. destruct (reg_UnregisterEdge now (cfg_EdgeID (cfg s)) (reg s)) as [r rg] eqn:Hu. cbn in *. subst r.
  by eapply law_edge_unregister.
Qed.
End state.

(** * The drain window *)
#[local] Existing Instance sorted_range.
(** A request that ends while drain waits is recorded after the last flush: its bytes
    are in a window that nothing reports. *)
Example drain_window_unbilled :
  let s := recordUsage 3000 0%nat 10 20 1 (drain_server 2000 dev4) in
  flush_reports 4000 (usage s) ≠ [] ∧ (snd <$> map_to_list (windows (usage (drain_server 2000 dev4)))) = [].
Proof. split; [vm_compute; discriminate|vm_compute; reflexivity]. Qed.
(** A session may still bind: its port is opened after [closeAll] and is not closed by
    drain any more. *)
Example drain_window_opens_port :
  open_ports "tcp" (ports (drain_server 2000 dev4)) = ∅ ∧
  size (open_ports "tcp" (ports (do_bind 1%nat (ex_bind "t9" TCP "") (drain_server 2000 dev4)))) = 1%nat.
Proof. split; vm_compute; reflexivity. Qed.
(** A presence tick that began before the context ended registers with a context of its
    own: after drain has withdrawn the address, peers find it again. *)
Definition mesh_cfg : Config :=
  let c := ex_cfg in
  {| Env := Env c; QUICAddr := QUICAddr c; TCPAddr := TCPAddr c; HTTPAddr := HTTPAddr c; HTTPSAddr := HTTPSAddr c; H3Addr := H3Addr c;
     H3AdvertisePort := 0; EnableH2 := false; BaseDomain := BaseDomain c; cfg_Region := cfg_Region c; cfg_EdgeID := "edge1"; RedisURL := "redis://r";
     EntitlementsMode := "api"; APIURL := "http://api"; InternalToken := "tok"; ACMEStaging := false; ACMEEmail := ""; CloudflareToken := "";
     TLSStorageDir := ""; PortMin := PortMin c; PortMax := PortMax c; MetricsAddr := MetricsAddr c; ForwardAddr := ":7000";
     ForwardAdvertiseAddr := "10.0.0.1:7000"; SiteUpstream := ""; AppUpstream := ""; APIUpstream := "";
     HeartbeatInterval := HeartbeatInterval c; SessionIdle := SessionIdle c; DrainTimeout := DrainTimeout c |}.
Definition mesh0 : DevServer := NewServer mesh_cfg tt NewInMemoryRegistry false.
Example late_presence_readvertises :
  let up := presence_tick 1000 "10.0.0.1:7000" mesh0 in
  let drained := drain_server 2000 up in
  fst (reg_LookupEdge 1500 "edge1" (reg up)) = Ok (Some "10.0.0.1:7000") ∧
  fst (reg_LookupEdge 2500 "edge1" (reg drained)) = Ok None ∧
  fst (reg_LookupEdge 2500 "edge1" (reg (presence_tick 2100 "10.0.0.1:7000" drained))) = Ok (Some "10.0.0.1:7000").
Proof. split_and!; vm_compute; reflexivity. Qed.
(** Run returns an error and leaves open what it has opened. *)
Example failed_start_keeps_listeners d :
  Run ex_cfg (DevCerts d) (λ l, bool_decide (l ≠ LHTTPS)) [] = (Err "server: https listen :443", [FListen LAgent; FListen LHTTP; FGo GHTTP]).
Proof. reflexivity. Qed.

(** * Configuration and agents *)
(** The flags that come after the checks of LoadConfig do not undo them. *)
Lemma flags_keep_production_checks f c : BaseDomain c ≠ "" → production_problems (main_config f c) = production_problems c ∧ BaseDomain (main_config f c) ≠ "".
Proof. intros Hb. split; [done|]. cbn. unfold overrideStr. by destruct (String.eqb_spec (fl_base_domain f) ""). Qed.
(** An edge that demands entitlements has the real client and the reporter. *)
Lemma production_edge_authenticates c keyOk redisOk p : production_problems c = [] → edge_New c keyOk redisOk = Ok p →
  pt_ent p = EntAPI (APIURL c) (InternalToken c) ∧ pt_reporter p = true ∧ ∃ m, pt_certs p = ProdCerts m ∧ pc_Email m = ACMEEmail c ∧ pc_base m = BaseDomain c.
Proof.
  intros Hp. assert (Hm : EntitlementsMode c = "api" ∧ ACMEEmail c ≠ "").
  { unfold production_problems in Hp. destruct (String.eqb_spec (EntitlementsMode c) "api"); [|done].
    destruct (String.eqb_spec (ACMEEmail c) ""); [|done]. by repeat case_match. }
  destruct Hm as [Hm He]. unfold edge_New, buildEntitlements, buildCertManager, newACMECertManager. rewrite Hm, (proj2 (String.eqb_neq _ _) He). cbn.
  destruct (buildRegistry c redisOk); [|done]. destruct (buildCertStorage c redisOk); [|done]. intros [= <-]. cbn.
  split; [done|]. split; [done|]. eexists. by split.
Qed.
(** The session is closed exactly when a ping could not be written, by the last effect. *)
Lemma heartbeat_closes c evs : HbClose ∈ heartbeat c evs ↔ 0 < HeartbeatInterval c ∧ ∃ pre post, evs = pre ++ HbTick false :: post ∧ Forall (λ e, e = HbTick true) pre.
Proof.
  unfold heartbeat. destruct (Z.leb_spec (HeartbeatInterval c) 0); [split; [set_solver|lia]|].
  transitivity (∃ pre post, evs = pre ++ HbTick false :: post ∧ Forall (λ e, e = HbTick true) pre); [|naive_solver].
  induction evs as [|e evs IH]; cbn [heartbeat_loop].
  - split; [set_solver|]. by intros ([] & post & [=] & _).
  - destruct e as [|[|]].
    + split; [set_solver|]. intros ([|x pre] & post & [=] & Hf). subst. by inversion Hf.
    + rewrite elem_of_cons, IH. split.
      * intros [[=]|(pre & post & -> & Hf)]. exists (HbTick true :: pre), post. split; [done|by constructor].
      * intros ([|x pre] & post & [=] & Hf). subst. right. exists pre, post. split; [done|by inversion Hf].
    + split; [|set_solver]. intros _. by exists [], evs.
Qed.
(** Every session the listener hands over is served, once. *)
Definition accept_result (r : option conn) : AcceptResult := match r with Some c => AcSession c | None => AcError false end.
Lemma sessions_served_once q t es s : steps (started q t) es = Some s →
  acceptAgents (accept_result <$> ml_out s) = omap id (ml_out s) ∧ NoDup (acceptAgents (accept_result <$> ml_out s)).
Proof.
  intros Hs. destruct (reach q t es s Hs) as (Hi & _). assert (Heq : acceptAgents (accept_result <$> ml_out s) = omap id (ml_out s)).
  { induction (ml_out s) as [|[c|] l IH]; [done|..]; cbn; [by f_equal|done]. }
  split; [done|]. rewrite Heq. apply (inv_nodup s Hi).
Qed.
