(* ===== verification/Weld.v ===== *)
(** Raw public connections (internal/server/ingress_tcp.go) and what the edge writes to a
    connection itself (internal/server/weld.go): the two copies between a public connection
    and the agent's stream in any interleaving, the loop that accepts connections of a
    public port, and the pages and responses of the edge. *)
From S2P Require Import Prelude GoStrings GoText Wire Authz Registry EdgeConfig Ports Hub Usage Edge EdgeInv EdgeBind EdgeSafety EdgeExamples Ingress Upstream.
From Stdlib Require Import Ascii.

Open Scope Z_scope.

(** * rawJoin *)
(** Bytes that a copy has written, and the end of a copy, which closes both sides. *)
Inductive JoinEvent := JUp (n : Z) | JDown (n : Z) | JUpEnd | JDownEnd.
Record JoinState := { jn_up : Z; jn_down : Z; jn_upDone : bool; jn_downDone : bool; jn_open : bool }.
Definition join0 : JoinState := {| jn_up := 0; jn_down := 0; jn_upDone := false; jn_downDone := false; jn_open := true |}.
Definition join_step (j : JoinState) (e : JoinEvent) : option JoinState :=
  match e with
  | JUp n => if jn_open j && negb (jn_upDone j) then Some {| jn_up := add64 (jn_up j) n; jn_down := jn_down j; jn_upDone := jn_upDone j; jn_downDone := jn_downDone j; jn_open := true |} else None
  | JDown n => if jn_open j && negb (jn_downDone j) then Some {| jn_up := jn_up j; jn_down := add64 (jn_down j) n; jn_upDone := jn_upDone j; jn_downDone := jn_downDone j; jn_open := true |} else None
  | JUpEnd => if jn_upDone j then None else Some {| jn_up := jn_up j; jn_down := jn_down j; jn_upDone := true; jn_downDone := jn_downDone j; jn_open := false |}
  | JDownEnd => if jn_downDone j then None else Some {| jn_up := jn_up j; jn_down := jn_down j; jn_upDone := jn_upDone j; jn_downDone := true; jn_open := false |}
  end.
Fixpoint join_steps (j : JoinState) (es : list JoinEvent) : option JoinState :=
  match es with [] => Some j | e :: es => j ← join_step j e; join_steps j es end.
(** It returns when both copies have ended. *)
Definition rawJoin (es : list JoinEvent) : option (Z * Z) :=
  match join_steps join0 es with
  | Some j => if jn_upDone j && jn_downDone j then Some (jn_up j, jn_down j) else None
  | None => None
  end.

(** * Connections of a public port *)
Definition raw_init (bt : boundTunnel) (remote ptype : string) : StreamInit :=
  {| si_client_tunnel_id := clientTunnelID bt; si_remote_addr := remote; si_proto := ptype; si_meta := ∅ |}.
(** The counters of the metrics. *)
Definition countBytes (up down : Z) (m : Z * Z) : Z * Z :=
  (if up >? 0 then m.1 + up else m.1, if down >? 0 then m.2 + down else m.2).
Section weld.
  Context `{RangeOrder} {R : Type} `{Registry R} {E : Type} `{Entitlements E}.
(** [opens]: whether the data stream could be opened; [es]: what the copies did.  The
    result is the header written to the agent, [None] when the connection was closed. *)
Definition weldRawConn (now : Time) (t : tref) (bt : boundTunnel) (remote ptype : string) (opens : bool) (es : list JoinEvent) (s : Server R E)
    : option StreamInit * Server R E :=
  if opens then
    (Some (raw_init bt remote ptype), match rawJoin es with Some (up, down) => recordUsage now t up down 1 s | None => s end)
  else (None, s).
(** One connection the listener of [port] accepted. *)
Definition acceptTCPTunnel (now : Time) (port : Z) (remote : string) (opens : bool) (es : list JoinEvent) (s : Server R E) : option StreamInit * Server R E :=
  match LookupPort "tcp" port (world s) with
  | None => (None, s)
  | Some t => match tuns (world s) !! t with Some bt => weldRawConn now t bt remote "tcp" opens es s | None => (None, s) end
  end.
End weld.

(** * What the edge writes *)
(** [html.EscapeString]. *)
Definition escape_byte (a : ascii) : string :=
  if Ascii.eqb a "&" then "&amp;" else if Ascii.eqb a (Ascii.ascii_of_nat 39) then "&#39;"
  else if Ascii.eqb a "<" then "&lt;" else if Ascii.eqb a ">" then "&gt;" else if Ascii.eqb a (Ascii.ascii_of_nat 34) then "&#34;"
  else String a EmptyString.
Fixpoint EscapeString (s : string) : string := match s with EmptyString => EmptyString | String a s => escape_byte a +:+ EscapeString s end.
Definition quoted (s : string) : string := quote +:+ s +:+ quote.
Definition page_head : string :=
  "<!doctype html>" +:+ LF +:+ "<html><head><meta charset=" +:+ quoted "utf-8" +:+ "><title>Tunnel offline · trqsh</title>" +:+ LF +:+
  "<style>body{font-family:ui-sans-serif,system-ui,sans-serif;background:#0b0d12;color:#e6e8ee;" +:+ LF +:+
  "display:grid;place-items:center;height:100vh;margin:0}main{max-width:32rem;text-align:center;padding:2rem}" +:+ LF +:+
  "h1{font-size:1.5rem;margin:0 0 .5rem}code{background:#181b22;padding:.15rem .4rem;border-radius:.35rem}" +:+ LF +:+
  "p{color:#9aa3b2;line-height:1.5}a{color:#7aa2ff}</style></head>" +:+ LF +:+
  "<body><main><h1>This tunnel is offline</h1>" +:+ LF +:+ "<p>No active tunnel is serving <code>".
Definition page_tail : string :=
  "</code>. If this is your tunnel, make sure the" +:+ LF +:+ "trqsh agent is running and connected.</p>" +:+ LF +:+
  "<p><a href=" +:+ quoted "https://trqsh.uz" +:+ ">trqsh.uz</a></p></main></body></html>".
Definition branded404 (host : string) : string := page_head +:+ EscapeString host +:+ page_tail.
Definition writeHTTPResponse (status : Z) (reason contentType body : string) : string :=
  http_head (Itoa status +:+ " " +:+ reason) [("Content-Type", contentType); ("Content-Length", len_text body); ("Connection", "close")] +:+ body.

(** * Theorems *)
Fixpoint ups (es : list JoinEvent) : list Z := match es with [] => [] | JUp n :: es => n :: ups es | _ :: es => ups es end.
Fixpoint downs (es : list JoinEvent) : list Z := match es with [] => [] | JDown n :: es => n :: downs es | _ :: es => downs es end.
Definition total (l : list Z) : Z := foldl add64 0 l.
Lemma join_steps_spec es j j' : join_steps j es = Some j' →
  jn_up j' = foldl add64 (jn_up j) (ups es) ∧ jn_down j' = foldl add64 (jn_down j) (downs es) ∧
  (jn_open j = negb (jn_upDone j || jn_downDone j) → jn_open j' = negb (jn_upDone j' || jn_downDone j')).
Proof.
  revert j. induction es as [|e es IH]; intros j; cbn [join_steps]; [by intros [= <-]|].
  destruct (join_step j e) as [j1|] eqn:He; [|done]. cbn [mbind option_bind]. intros Hs. destruct (IH j1 Hs) as (H1 & H2 & H3). rewrite H1, H2.
  destruct e; cbn in He; repeat case_match; simplify_eq/=; split_and!; try done; intros Ho; apply H3; try done.
  all: rewrite ?orb_true_r; try done.
  all: apply andb_prop in H as [Hop Hd]; by rewrite Ho in Hop.
Qed.
(** Whichever side ends first, both connections are closed, the other copy can end, and
    nothing but its end can follow. *)
Lemma join_ends es j : join_steps join0 es = Some j → jn_upDone j || jn_downDone j = true →
  jn_open j = false ∧ (∀ n, join_step j (JUp n) = None ∧ join_step j (JDown n) = None) ∧
  (jn_upDone j = false → is_Some (join_step j JUpEnd)) ∧ (jn_downDone j = false → is_Some (join_step j JDownEnd)).
Proof.
  intros Hs Hd. destruct (join_steps_spec es join0 j Hs) as (_ & _ & Ho). specialize (Ho eq_refl). rewrite Hd in Ho. cbn in Ho.
  split_and!; [done|intros n; cbn; by rewrite Ho|cbn; intros ->; eauto|cbn; intros ->; eauto].
Qed.

Section billing.
  Context `{RangeOrder} {R : Type} `{RegistryLaws R} {E : Type} `{Entitlements E}.
(** C8: a raw connection reaches the tunnel that owns its port, and is billed to it. In
    every reachable state of the edge, a connection to a public TCP port is welded only
    to a live TCP tunnel bound to exactly that port, by a stream that names this tunnel
    and the address the connection came from; when both copies have ended, however
    they interleaved, the window of the tunnel's account holds what the two copied and
    one request more, and nobody else's window has changed; a connection to a port
    without a tunnel, or whose stream cannot be opened, is closed and costs nothing. *)
Theorem raw_connections_reach_their_tunnel cf e r rep (s : Server R E) now port_ remote opens es init s' :
  0 < PortMin cf → reachable (NewServer cf e r rep) s → acceptTCPTunnel now port_ remote opens es s = (init, s') →
  match init with
  | None => s' = s
  | Some hdr => opens = true ∧ ∃ a id t bt,
      tracked (world s) a id t ∧ tuns (world s) !! t = Some bt ∧ session bt = a ∧ ttype bt = TCP ∧ port bt = port_ ∧
      si_client_tunnel_id hdr = id ∧ si_remote_addr hdr = remote ∧ si_proto hdr = "tcp" ∧
      (is_Some (rawJoin es) → bt_accountID bt ≠ "" → ∀ k,
        let w c s := in_window c k (windows (usage s)) in
        if bool_decide (k = (bt_accountID bt, id)) then
          w BytesIn s' = add64 (w BytesIn s) (total (ups es)) ∧ w BytesOut s' = add64 (w BytesOut s) (total (downs es)) ∧ w Requests s' = add64 (w Requests s) 1
        else ∀ c, w c s' = w c s)
  end.
Proof.
  intros Hmin Hr. destruct (reachable_ok cf e r rep s Hmin Hr) as [Hok _]. unfold acceptTCPTunnel, LookupPort.
  destruct (byPort (hub (world s)) !! portKey "tcp" port_) as [t|] eqn:Hl; [|by intros [= <- <-]].
  destruct (ro_port _ _ _ Hok _ _ Hl) as ([(a & id & Hi)|Hn] & bt & Hbt & Hkey & Hk); [|by apply not_elem_of_nil in Hn].
  destruct (ro_tracked _ _ _ Hok _ _ _ Hi) as (_ & bt' & Hbt' & Hs & Hid). simplify_eq.
  apply portKey_inj in Hkey as [Hp Hport]; [|by apply port_tunnel_net|by left].
  rewrite Hbt. unfold weldRawConn. destruct opens; [|by intros [= <- <-]]. intros [= <- <-]. split; [done|].
  exists (session bt), (clientTunnelID bt), t, bt. split_and!; try done.
  { destruct Hk as (_ & _ & [->|Hu]); [done|]. by rewrite Hu in Hp. }
  intros [[up down] Hj] Hacc k. cbv zeta. rewrite Hj. unfold recordUsage. rewrite Hbt. cbn [with_world with_usage usage].
  assert (up = total (ups es) ∧ down = total (downs es)) as [-> ->].
  { unfold rawJoin in Hj. destruct (join_steps join0 es) as [j|] eqn:Hjs; [|done]. destruct (_ && _); [|done]. injection Hj as <- <-.
    by destruct (join_steps_spec es join0 j Hjs) as (-> & -> & _). }
  case_bool_decide as Hkk; [subst k; split_and!|intros c].
  all: rewrite record_in_window by done; cbn [usage].
  1,2,3: unfold event_amount; by rewrite !bool_decide_eq_true_2.
  rewrite bool_decide_eq_false_2; [done|]. intros Heq. by destruct Hkk.
Qed.
End billing.

(** A port tunnel of the first session of [dev4], and a connection that sends ten bytes,
    gets thirty and hangs up. *)
Definition ex_join : list JoinEvent := [JUp 4; JDown 30; JUp 6; JUpEnd; JDownEnd].
Lemma raw_connections_reach_their_tunnel_witness :
  ∃ hdr, fst (acceptTCPTunnel (R := InMemoryRegistry) (E := unit) 3000 20000 "203.0.113.7:40000" true ex_join dev4) = Some hdr ∧
    si_client_tunnel_id hdr = "t1" ∧ si_remote_addr hdr = "203.0.113.7:40000" ∧ rawJoin ex_join = Some (10, 30).
Proof.
  destruct (acceptTCPTunnel (R := InMemoryRegistry) (E := unit) 3000 20000 "203.0.113.7:40000" true ex_join dev4) as [init s'] eqn:Ha.
  pose proof (raw_connections_reach_their_tunnel (H := sorted_range) ex_cfg tt NewInMemoryRegistry false dev4 3000 20000 "203.0.113.7:40000" true ex_join init s'
    ltac:(vm_compute; reflexivity) dev4_reachable Ha) as Hspec.
  assert (Hi : init = Some {| si_client_tunnel_id := "t1"; si_remote_addr := "203.0.113.7:40000"; si_proto := "tcp"; si_meta := ∅ |}).
  { apply (f_equal fst) in Ha. vm_compute in Ha. rewrite <- Ha. vm_compute. reflexivity. }
  rewrite Hi in Hspec |- *. destruct Hspec as [_ (a & id & t & bt & _ & _ & _ & _ & _ & _ & Hrem & _)].
  eexists. split; [reflexivity|]. split; [reflexivity|]. split; [exact Hrem|vm_compute; reflexivity].
Defined.

(** * The offline page *)
(** The bytes that HTML gives a meaning. *)
Definition is_markup (a : ascii) : bool :=
  Ascii.eqb a "<" || Ascii.eqb a ">" || Ascii.eqb a (Ascii.ascii_of_nat 34) || Ascii.eqb a (Ascii.ascii_of_nat 39).
Fixpoint markup (s : string) : list ascii := match s with EmptyString => [] | String a s => if is_markup a then a :: markup s else markup s end.
Lemma markup_app s s' : markup (s +:+ s') = markup s ++ markup s'.
Proof. induction s as [|a s IH]; [done|]. change (String a s +:+ s') with (String a (s +:+ s')). cbn. rewrite IH. by destruct (is_markup a). Qed.
Lemma markup_escaped s : markup (EscapeString s) = [].
Proof.
  induction s as [|a s IH]; [done|]. cbn [EscapeString]. rewrite markup_app, IH, app_nil_r. unfold escape_byte.
  destruct (Ascii.eqb_spec a "&"); [done|]. destruct (Ascii.eqb_spec a (Ascii.ascii_of_nat 39)); [done|]. destruct (Ascii.eqb_spec a "<"); [done|].
  destruct (Ascii.eqb_spec a ">"); [done|]. destruct (Ascii.eqb_spec a (Ascii.ascii_of_nat 34)); [done|]. cbn. unfold is_markup.
  by rewrite !(proj2 (Ascii.eqb_neq _ _)).
Qed.
(** Whatever host a client asks for, it adds no markup to the page. *)
Theorem offline_page_not_injectable host : markup (branded404 host) = markup page_head ++ markup page_tail.
Proof. unfold branded404. by rewrite !markup_app, markup_escaped. Qed.
Example offline_page_escapes : EscapeString ("<b>" +:+ quote) = "&lt;b&gt;&#34;".
Proof. reflexivity. Qed.
