(* ===== verification/Rpc.v ===== *)
(** The internal RPC of the edge over the wire (internal/entitlerpc/entitlerpc.go and
    internal/api/rpc.go): the JSON of its requests and responses, the token that guards
    it, and the client's calls as HTTP exchanges with the handlers of the control plane.
    The client of [Entitle] calls the service itself; here it is shown to be what these
    exchanges amount to. *)
From S2P Require Import Prelude GoStrings Authz Edge Store Listings Billing Entitle Ingress Login ApiConfig ApiResources ApiRouter EntitleSafety.

Open Scope Z_scope.

(** * JSON *)
Section json.
  Context (IDKey : string → list Z → Z → Z → Z → Z → list Z).
(** The field of an object under the name the encoder gives it. *)
Fixpoint jfield (k : string) (l : list (string * Json)) : option Json :=
  match l with [] => None | (k', v) :: l => if String.eqb k' k then Some v else jfield k l end.
Definition jget (k : string) (j : Json) : option (option Json) := match j with JObj l => Some (jfield k l) | _ => None end.
(** A missing field and null leave the zero value; another type is an error. *)
Definition get_str (k : string) (j : Json) : option string :=
  match jget k j with Some None | Some (Some JNull) => Some "" | Some (Some (JStr s)) => Some s | _ => None end.
Definition get_num (k : string) (j : Json) : option Z :=
  match jget k j with Some None | Some (Some JNull) => Some 0 | Some (Some (JNum n)) => Some n | _ => None end.
Definition get_bool (k : string) (j : Json) : option bool :=
  match jget k j with Some None | Some (Some JNull) => Some false | Some (Some (JBool b)) => Some b | _ => None end.
Definition get_time (k : string) (j : Json) : option Time :=
  match jget k j with Some None | Some (Some JNull) => Some zero_time | Some (Some (JTime t)) => Some t | _ => None end.

Definition auth_request_json (key : string) : Json := JObj [("api_key", JStr key)].
Definition bind_request_json (r : BindRequest) : Json :=
  JObj [("api_key", JStr (Authz.APIKey r)); ("type", JStr (Type_ r)); ("subdomain", JStr (Subdomain r)); ("custom_host", JStr (CustomHost r));
        ("remote_port", JNum (RemotePort r)); ("region", JStr (Region r))].
Definition usage_request_json (u : Usage) : Json :=
  JObj [("account_id", JStr (u_AccountID u)); ("tunnel_id", JStr (u_TunnelID u)); ("bytes_in", JNum (u_BytesIn u)); ("bytes_out", JNum (u_BytesOut u));
        ("requests", JNum (u_Requests u)); ("window_start", JTime (u_WindowStart u)); ("window_end", JTime (u_WindowEnd u))].
Definition report_json (r : Edge.TunnelReport) : Json :=
  JObj ([("action", JStr (Edge.tr_Action r)); ("edge_id", JStr (Edge.tr_EdgeID r)); ("session_id", JStr (Edge.tr_SessionID r));
         ("tunnel_id", JStr (Edge.tr_TunnelID r)); ("account_id", JStr (Edge.tr_AccountID r)); ("type", JStr (Edge.tr_Type r))] ++
        omit_str "public_url" (Edge.tr_PublicURL r) ++ omit_str "host" (Edge.tr_Host r) ++ omit_num "port" (Edge.tr_Port r) ++
        omit_str "region" (Edge.tr_Region r) ++ omit_str "client_ip" (Edge.tr_ClientIP r) ++ omit_num "bytes_in" (Edge.tr_BytesIn r) ++
        omit_num "bytes_out" (Edge.tr_BytesOut r) ++ omit_num "requests" (Edge.tr_Requests r) ++ [("at", JTime (Edge.tr_At r))]).

Definition decode_auth (j : Json) : option string := get_str "api_key" j.
Definition decode_bind (j : Json) : option BindRequest :=
  key ← get_str "api_key" j; ty ← get_str "type" j; sub ← get_str "subdomain" j; cust ← get_str "custom_host" j; p ← get_num "remote_port" j;
  reg ← get_str "region" j;
  Some {| Authz.APIKey := key; Type_ := ty; Subdomain := sub; CustomHost := cust; RemotePort := p; Region := reg |}.
Definition decode_usage (j : Json) : option Usage :=
  a ← get_str "account_id" j; t ← get_str "tunnel_id" j; i ← get_num "bytes_in" j; o ← get_num "bytes_out" j; r ← get_num "requests" j;
  ws ← get_time "window_start" j; we ← get_time "window_end" j;
  Some {| u_AccountID := a; u_TunnelID := t; u_BytesIn := i; u_BytesOut := o; u_Requests := r; u_WindowStart := ws; u_WindowEnd := we |}.
Definition decode_report (j : Json) : option ApiResources.TunnelReport :=
  ac ← get_str "action" j; e ← get_str "edge_id" j; se ← get_str "session_id" j; t ← get_str "tunnel_id" j; a ← get_str "account_id" j;
  ty ← get_str "type" j; pu ← get_str "public_url" j; h ← get_str "host" j; p ← get_num "port" j; rg ← get_str "region" j; ip ← get_str "client_ip" j;
  i ← get_num "bytes_in" j; o ← get_num "bytes_out" j; r ← get_num "requests" j; at_ ← get_time "at" j;
  Some {| tr_Action := ac; tr_AccountID := a; tr_EdgeID := e; tr_SessionID := se; tr_TunnelID := t; tr_Type := ty; tr_PublicURL := pu; tr_Host := h;
          tr_Port := p; tr_Region := rg; tr_ClientIP := ip; tr_BytesIn := i; tr_BytesOut := o; tr_Requests := r; tr_At := at_ |}.
(** Responses: the account, plan and error of an authentication; a decision. *)
Definition decode_auth_response (j : Json) : option (string * string * string) :=
  a ← get_str "account_id" j; p ← get_str "plan" j; e ← get_str "error" j; Some (a, p, e).
Definition decode_limits (j : Json) : option Limits :=
  a ← get_num "MaxConcurrentTunnels" j; b ← get_num "MaxBandwidthBytesMo" j; c ← get_num "MaxRequestsMo" j; d ← get_bool "AllowCustomDomains" j;
  e ← get_bool "AllowReservedSubdomain" j; f ← get_bool "AllowTCP" j; g ← get_bool "AllowUDP" j; h ← get_num "RateLimitRPS" j;
  Some {| MaxConcurrentTunnels := a; MaxBandwidthBytesMo := b; MaxRequestsMo := c; AllowCustomDomains := d; AllowReservedSubdomain := e; AllowTCP := f;
          AllowUDP := g; RateLimitRPS := h |}.
Definition decode_decision (j : Json) : option Decision :=
  al ← get_bool "allow" j; a ← get_str "account_id" j; p ← get_str "plan" j;
  l ← match jget "limits" j with Some None | Some (Some JNull) => Some no_limits | Some (Some l) => decode_limits l | None => None end;
  s ← get_str "assigned_subdomain" j; c ← get_str "error_code" j; m ← get_str "error_message" j;
  Some {| Allow := al; d_AccountID := a; d_Plan := p; d_Limits := l; AssignedSubdomain := s; ErrorCode := c; ErrorMessage := m |}.

(** * The exchange *)
(** [fits]: bodies of at most a megabyte, which is what [decode] reads. *)
Context (fits : Json → bool) (fromIP : string → string * string) (rnd : list Z) (draw : Time → list Z).
Definition body_of {A} (decode : Json → option A) (j : Json) : option A := if fits j then decode j else None.
(** The handler of a path behind the guard. *)
Definition rpc_serve (token : string) (now : Time) (path : string) (h : Header) (j : Json) : Handler :=
  internalTokenGuard token h (λ m,
    if String.eqb path PathAuthenticate then rpcAuthenticate IDKey now (body_of decode_auth j) m
    else if String.eqb path PathCheckBind then rpcCheckBind IDKey true (draw now) now (body_of decode_bind j) m
    else if String.eqb path PathReportUsage then rpcReportUsage (body_of decode_usage j) m
    else if String.eqb path PathReportTunnel then rpcReportTunnel fromIP now rnd (body_of decode_report j) m
    else (writeError 404 "", m)).
Record RpcConfig := { rc_clientToken : string; rc_apiToken : string; rc_delivered : Time → bool (* the request reaches the API *);
  rc_answered : Time → bool (* and its response the edge *) }.
Definition rpc_header (token : string) : Header := Set_ (Set_ ∅ "Content-Type" "application/json") HeaderToken token.
(** The body of a 200, or an error. *)
Definition post (rc : RpcConfig) (now : Time) (path : string) (j : Json) (m : MemStore) : result unit Json * MemStore :=
  if rc_delivered rc now then
    let '(resp, m) := rpc_serve (rc_apiToken rc) now path (rpc_header (rc_clientToken rc)) j m in
    (if rc_answered rc now && (rs_Status resp =? 200) then Ok (rs_Body resp) else Err tt, m)
  else (Err tt, m).

Definition wire_Authenticate (rc : RpcConfig) (now now2 : Time) (apiKey : string) : M (Client MemStore) unit (string * string) := λ c,
  match auth_hit now apiKey c with
  | Some r => (Ok r, c)
  | None =>
      match post rc now PathAuthenticate (auth_request_json apiKey) (service c) with
      | (Err _, m) => (Err tt, mkClient (authCache c) m)
      | (Ok body, m) =>
          match decode_auth_response body with
          | None => (Err tt, mkClient (authCache c) m)
          | Some (acct, pl, e) =>
              if negb (String.eqb e "") then (Err tt, mkClient (authCache c) m)
              else (Ok (acct, pl), auth_remember now2 apiKey (acct, pl) (mkClient (authCache c) m))
          end
      end
  end.
Definition wire_CheckBind (rc : RpcConfig) (now : Time) (req : BindRequest) : M (Client MemStore) unit Decision := λ c,
  match post rc now PathCheckBind (bind_request_json req) (service c) with
  | (Err _, m) => (Err tt, mkClient (authCache c) m)
  | (Ok body, m) => (match decode_decision body with Some d => Ok d | None => Err tt end, mkClient (authCache c) m)
  end.
Definition wire_ReportUsage (rc : RpcConfig) (now : Time) (u : Usage) : M (Client MemStore) unit unit := λ c,
  let '(r, m) := post rc now PathReportUsage (usage_request_json u) (service c) in
  (match r with Ok _ => Ok tt | Err _ => Err tt end, mkClient (authCache c) m).
Definition wire_ReportTunnel (rc : RpcConfig) (now : Time) (r : Edge.TunnelReport) : M (Client MemStore) unit unit := λ c,
  let '(r, m) := post rc now PathReportTunnel (report_json r) (service c) in
  (match r with Ok _ => Ok tt | Err _ => Err tt end, mkClient (authCache c) m).

(** * Theorems *)
(** Every message arrives as it was sent. *)
Definition arrived (r : Edge.TunnelReport) : ApiResources.TunnelReport :=
  {| tr_Action := Edge.tr_Action r; tr_AccountID := Edge.tr_AccountID r; tr_EdgeID := Edge.tr_EdgeID r; tr_SessionID := Edge.tr_SessionID r;
     tr_TunnelID := Edge.tr_TunnelID r; tr_Type := Edge.tr_Type r; tr_PublicURL := Edge.tr_PublicURL r; tr_Host := Edge.tr_Host r; tr_Port := Edge.tr_Port r;
     tr_Region := Edge.tr_Region r; tr_ClientIP := Edge.tr_ClientIP r; tr_BytesIn := Edge.tr_BytesIn r; tr_BytesOut := Edge.tr_BytesOut r;
     tr_Requests := Edge.tr_Requests r; tr_At := Edge.tr_At r |}.
Lemma bind_roundtrip r : decode_bind (bind_request_json r) = Some r.
Proof. by destruct r. Qed.
Lemma usage_roundtrip u : decode_usage (usage_request_json u) = Some u.
Proof. by destruct u. Qed.
Lemma decision_roundtrip d : decode_decision (decision_json d) = Some d.
Proof. by destruct d as [? ? ? [] ? ? ?]. Qed.
Lemma jfield_app k l l' : jfield k (l ++ l') = match jfield k l with Some v => Some v | None => jfield k l' end.
Proof. induction l as [|[k' v] l IH]; [done|]. cbn. by destruct (String.eqb k' k). Qed.
Lemma jfield_omit_str k k' v : jfield k (omit_str k' v) = if String.eqb k' k && negb (String.eqb v "") then Some (JStr v) else None.
Proof. unfold omit_str. destruct (String.eqb v ""); cbn; [by rewrite andb_false_r|]. by destruct (String.eqb k' k). Qed.
Lemma jfield_omit_num k k' v : jfield k (omit_num k' v) = if String.eqb k' k && negb (v =? 0) then Some (JNum v) else None.
Proof. unfold omit_num. destruct (v =? 0); cbn; [by rewrite andb_false_r|]. by destruct (String.eqb k' k). Qed.
(** A field of a report: the others are passed over by their names. *)
Ltac report_field :=
  unfold get_str, get_num, get_time, jget, report_json;
  rewrite ?jfield_app, ?jfield_omit_str, ?jfield_omit_num; cbn [jfield String.eqb Ascii.eqb Bool.eqb andb];
  match goal with
  | |- context [String.eqb ?v ""] => by destruct (String.eqb_spec v "") as [->|]
  | |- context [?v =? 0] => by destruct (Z.eqb_spec v 0) as [->|]
  | |- _ => reflexivity
  end.
Lemma report_roundtrip r : decode_report (report_json r) = Some (arrived r).
Proof.
  assert (H1 : get_str "public_url" (report_json r) = Some (Edge.tr_PublicURL r)) by report_field.
  assert (H2 : get_str "host" (report_json r) = Some (Edge.tr_Host r)) by report_field.
  assert (H3 : get_num "port" (report_json r) = Some (Edge.tr_Port r)) by report_field.
  assert (H4 : get_str "region" (report_json r) = Some (Edge.tr_Region r)) by report_field.
  assert (H5 : get_str "client_ip" (report_json r) = Some (Edge.tr_ClientIP r)) by report_field.
  assert (H6 : get_num "bytes_in" (report_json r) = Some (Edge.tr_BytesIn r)) by report_field.
  assert (H7 : get_num "bytes_out" (report_json r) = Some (Edge.tr_BytesOut r)) by report_field.
  assert (H8 : get_num "requests" (report_json r) = Some (Edge.tr_Requests r)) by report_field.
  assert (H9 : get_time "at" (report_json r) = Some (Edge.tr_At r)) by report_field.
  unfold decode_report. rewrite H1, H2, H3, H4, H5, H6, H7, H8, H9. reflexivity.
Qed.

Lemma post_unanswered rc now path j m : rc_answered rc now = false → fst (post rc now path j m) = Err tt.
Proof. intros Ha. unfold post. destruct (rc_delivered rc now); [|done]. destruct (rpc_serve _ _ _ _ _ _). by rewrite Ha. Qed.
(** The guard lets the client through when, and only when, both know the same token. *)
Lemma post_refused rc now path j m : rc_apiToken rc = "" ∨ rc_clientToken rc ≠ rc_apiToken rc → post rc now path j m = (Err tt, m).
Proof.
  intros Ht. unfold post. destruct (rc_delivered rc now); [|done]. unfold rpc_serve, internalTokenGuard.
  replace (Get (rpc_header (rc_clientToken rc)) HeaderToken) with (rc_clientToken rc) by (unfold Get, rpc_header, Set_; by rewrite lookup_insert_eq).
  destruct (String.eqb_spec (rc_apiToken rc) ""); [by destruct (rc_answered rc now)|].
  destruct (String.eqb_spec (rc_clientToken rc) (rc_apiToken rc)); [|by destruct (rc_answered rc now)]. naive_solver.
Qed.
Lemma post_served rc now path j m : rc_apiToken rc ≠ "" → rc_clientToken rc = rc_apiToken rc → rc_delivered rc now = true →
  post rc now path j m =
    let '(resp, m) :=
      (if String.eqb path PathAuthenticate then rpcAuthenticate IDKey now (body_of decode_auth j) m
       else if String.eqb path PathCheckBind then rpcCheckBind IDKey true (draw now) now (body_of decode_bind j) m
       else if String.eqb path PathReportUsage then rpcReportUsage (body_of decode_usage j) m
       else if String.eqb path PathReportTunnel then rpcReportTunnel fromIP now rnd (body_of decode_report j) m
       else (writeError 404 "", m)) in
    (if rc_answered rc now && (rs_Status resp =? 200) then Ok (rs_Body resp) else Err tt, m).
Proof.
  intros Hne Heq Hd. unfold post. rewrite Hd. unfold rpc_serve, internalTokenGuard.
  replace (Get (rpc_header (rc_clientToken rc)) HeaderToken) with (rc_clientToken rc) by (unfold Get, rpc_header, Set_; by rewrite lookup_insert_eq).
  by rewrite (proj2 (String.eqb_neq _ _) Hne), Heq, String.eqb_refl.
Qed.

Section served.
  Context (rc : RpcConfig) (now : Time) (Hne : rc_apiToken rc ≠ "") (Heq : rc_clientToken rc = rc_apiToken rc) (Hans : rc_answered rc now = true) (c : Client MemStore).
Lemma auth_transparent now2 key : fits (auth_request_json key) = true →
  wire_Authenticate rc now now2 key c = client_Authenticate (H := ApiEntitlements IDKey true draw) (rc_delivered rc) now now2 key c.
Proof.
  intros Hfit. unfold wire_Authenticate, client_Authenticate, auth_call. destruct (auth_hit now key c); [done|]. destruct (rc_delivered rc now) eqn:Hd; cbn [negb].
  - rewrite post_served, Hans by done. change (String.eqb PathAuthenticate PathAuthenticate) with true. unfold body_of. rewrite Hfit.
    change (decode_auth (auth_request_json key)) with (Some key). unfold rpcAuthenticate. cbn [decode_then Authenticate ApiEntitlements].
    by destruct (ent_Authenticate IDKey now key (service c)) as [[[acct pl]|e] m].
  - unfold post. rewrite Hd. by destruct c.
Qed.
Lemma bind_transparent req : fits (bind_request_json req) = true →
  wire_CheckBind rc now req c = client_CheckBind (H := ApiEntitlements IDKey true draw) (rc_delivered rc) now req c.
Proof.
  intros Hfit. unfold wire_CheckBind, client_CheckBind. destruct (rc_delivered rc now) eqn:Hd; cbn [negb].
  - rewrite post_served, Hans by done. change (String.eqb PathCheckBind PathAuthenticate) with false. change (String.eqb PathCheckBind PathCheckBind) with true.
    unfold body_of. rewrite Hfit, bind_roundtrip. unfold rpcCheckBind. cbn [decode_then CheckBind ApiEntitlements].
    destruct (ent_CheckBind IDKey true (draw now) now req (service c)) as [[d|[]] m]; [|done]. cbn [writeJSON rs_Status rs_Body Z.eqb Pos.eqb andb]. by rewrite decision_roundtrip.
  - unfold post. rewrite Hd. by destruct c.
Qed.
Lemma usage_transparent u : fits (usage_request_json u) = true →
  wire_ReportUsage rc now u c = client_ReportUsage (H := ApiEntitlements IDKey true draw) (rc_delivered rc) now u c.
Proof.
  intros Hfit. unfold wire_ReportUsage, client_ReportUsage. destruct (rc_delivered rc now) eqn:Hd; cbn [negb].
  - rewrite post_served, Hans by done. change (String.eqb PathReportUsage PathAuthenticate) with false. change (String.eqb PathReportUsage PathCheckBind) with false.
    change (String.eqb PathReportUsage PathReportUsage) with true. unfold body_of. rewrite Hfit, usage_roundtrip. done.
  - unfold post. rewrite Hd. by destruct c.
Qed.
Lemma report_transparent r : fits (report_json r) = true → rc_delivered rc now = true →
  wire_ReportTunnel rc now r c = (Ok tt, mkClient (authCache c) (rpcReportTunnel fromIP now rnd (Some (arrived r)) (service c)).2).
Proof.
  intros Hfit Hd. unfold wire_ReportTunnel. rewrite post_served, Hans by done. change (String.eqb PathReportTunnel PathAuthenticate) with false.
  change (String.eqb PathReportTunnel PathCheckBind) with false. change (String.eqb PathReportTunnel PathReportUsage) with false.
  change (String.eqb PathReportTunnel PathReportTunnel) with true. unfold body_of. rewrite Hfit, report_roundtrip.
  unfold rpcReportTunnel. cbn [decode_then]. destruct (fromIP _) as [co ci]. repeat case_match; simplify_eq/=; done.
Qed.
End served.

(** C13: the wire between the edge and the control plane is transparent. With a shared
    token, and as long as the requests fit what the server reads, every call of the
    edge's client, cache included, over JSON and HTTP gives exactly the result and the
    effect that the client of [Entitle] has on the entitlements service itself: a
    request that does not get through is an error without effect, and every decision
    with all its limits, every usage window and every report of a tunnel arrives as it
    was sent.  A response that is lost is an error and leaves the cache as it was, and
    with another token, or none, every call is an error and nothing happens; except that
    a key whose authentication is still cached is authenticated without a call. *)
Theorem rpc_is_transparent (rc : RpcConfig) now now2 (c : Client MemStore) :
  (rc_apiToken rc ≠ "" → rc_clientToken rc = rc_apiToken rc → rc_answered rc now = true →
    (∀ key, fits (auth_request_json key) = true →
      wire_Authenticate rc now now2 key c = client_Authenticate (H := ApiEntitlements IDKey true draw) (rc_delivered rc) now now2 key c) ∧
    (∀ req, fits (bind_request_json req) = true →
      wire_CheckBind rc now req c = client_CheckBind (H := ApiEntitlements IDKey true draw) (rc_delivered rc) now req c) ∧
    (∀ u, fits (usage_request_json u) = true →
      wire_ReportUsage rc now u c = client_ReportUsage (H := ApiEntitlements IDKey true draw) (rc_delivered rc) now u c) ∧
    (∀ r, fits (report_json r) = true → rc_delivered rc now = true →
      wire_ReportTunnel rc now r c = (Ok tt, mkClient (authCache c) (rpcReportTunnel fromIP now rnd (Some (arrived r)) (service c)).2))) ∧
  (rc_answered rc now = false →
    let lost {A} (r : result unit A * Client MemStore) := fst r = Err tt ∧ authCache (snd r) = authCache c in
    (∀ key, auth_hit now key c = None → lost (wire_Authenticate rc now now2 key c)) ∧
    (∀ req, lost (wire_CheckBind rc now req c)) ∧ (∀ u, lost (wire_ReportUsage rc now u c)) ∧ (∀ r, lost (wire_ReportTunnel rc now r c))) ∧
  (rc_apiToken rc = "" ∨ rc_clientToken rc ≠ rc_apiToken rc →
    (∀ key, auth_hit now key c = None → wire_Authenticate rc now now2 key c = (Err tt, c)) ∧ (∀ req, wire_CheckBind rc now req c = (Err tt, c)) ∧
    (∀ u, wire_ReportUsage rc now u c = (Err tt, c)) ∧ (∀ r, wire_ReportTunnel rc now r c = (Err tt, c))) ∧
  (∀ key e, authCache c !! key = Some e → now < ce_expiry e → wire_Authenticate rc now now2 key c = (Ok (ce_accountID e, ce_plan e), c)).
Proof.
  assert (Hc : mkClient (authCache c) (service c) = c) by (by destruct c).
  split_and!.
  2: { intros Ha. cbn zeta. split_and!; intros x; [intros Hx|..]; unfold wire_Authenticate, wire_CheckBind, wire_ReportUsage, wire_ReportTunnel; [rewrite Hx|..];
       lazymatch goal with |- context [post rc now ?p ?j ?m] => pose proof (post_unanswered rc now p j m Ha) as Hp; by destruct (post rc now p j m) as [[?|[]] ?] end. }
  2: { intros Ht. split_and!; intros x; [intros Hx|..]; unfold wire_Authenticate, wire_CheckBind, wire_ReportUsage, wire_ReportTunnel; rewrite ?post_refused by done; [rewrite Hx|..]; by rewrite Hc. }
  2: { intros key e He Hlt. unfold wire_Authenticate, auth_hit, Before. rewrite He. by apply Z.ltb_lt in Hlt as ->. }
  intros Hne Heq Hans. split_and!; intros x; [by apply auth_transparent|by apply bind_transparent|by apply usage_transparent|by apply report_transparent].
Qed.
End json.

(** The key of [keyed_store] over the wire; an edge with another token gets nothing. *)
Definition ex_rpc (token : string) : RpcConfig := {| rc_clientToken := token; rc_apiToken := "s3cret"; rc_delivered := λ _, true; rc_answered := λ _, true |}.
Definition ex_rpc_client : Client MemStore := mkClient ∅ keyed_store.
Lemma rpc_is_transparent_witness :
  is_ok (fst (wire_Authenticate ex_idkey (λ _, true) (λ _, ("", "")) [] (λ _, []) (ex_rpc "s3cret") 100 101 (gk_Full ex_gk) ex_rpc_client)) = true ∧
  wire_Authenticate ex_idkey (λ _, true) (λ _, ("", "")) [] (λ _, []) (ex_rpc "guess") 100 101 (gk_Full ex_gk) ex_rpc_client = (Err tt, ex_rpc_client).
Proof.
  split.
  - destruct (rpc_is_transparent ex_idkey (λ _, true) (λ _, ("", "")) [] (λ _, []) (ex_rpc "s3cret") 100 101 ex_rpc_client) as [Hok _].
    destruct (Hok ltac:(discriminate) eq_refl eq_refl) as [Ha _]. rewrite (Ha (gk_Full ex_gk) eq_refl). vm_compute. reflexivity.
  - destruct (rpc_is_transparent ex_idkey (λ _, true) (λ _, ("", "")) [] (λ _, []) (ex_rpc "guess") 100 101 ex_rpc_client) as (_ & _ & Hno & _).
    destruct (Hno ltac:(right; discriminate)) as [Ha _]. apply Ha. reflexivity.
Defined.
