(* ===== verification/StripeClient.v ===== *)
(** The Stripe client and the configuration of billing (internal/billing/stripe/stripe.go,
    internal/billing/config.go): the request each call sends, as the form it encodes, and
    what becomes of the answer; how the environment sets billing up.  Stripe is a third
    party: its answer to a request is an argument, as is the decoding of its JSON. *)
From S2P Require Import Prelude GoStrings Authz EdgeConfig Store Listings Billing Entitle Ingress Login ApiConfig ApiResources ApiAuth.
From Stdlib Require Import Ascii.

Open Scope Z_scope.

(** * Requests *)
Abbreviation Form := (gmap string string).
Definition set_if (b : bool) (k v : string) (f : Form) : Form := if b then <[k := v]> f else f.
Definition customer_form (p : CustomerParams) : Form :=
  set_if (negb (String.eqb (cp_OrgID p) "")) "metadata[org_id]" (cp_OrgID p)
    (set_if (negb (String.eqb (cp_Name p) "")) "name" (cp_Name p) (set_if (negb (String.eqb (cp_Email p) "")) "email" (cp_Email p) ∅)).
Definition checkout_form (p : CheckoutParams) : Form :=
  let f : Form := <["mode" := "subscription"]> ∅ in
  let f := <["customer" := co_CustomerID p]> f in
  let f := <["line_items[0][price]" := co_PriceID p]> f in
  let f := set_if (negb (co_MeteredPrice p)) "line_items[0][quantity]" "1" f in
  let f := <["success_url" := co_SuccessURL p]> f in
  let f := <["cancel_url" := co_CancelURL p]> f in
  let hasOrg := negb (String.eqb (co_OrgID p) "") in
  let f := set_if hasOrg "subscription_data[metadata][org_id]" (co_OrgID p) (set_if hasOrg "client_reference_id" (co_OrgID p) f) in
  let f := set_if (co_TrialDays p >? 0) "subscription_data[trial_period_days]" (Itoa (co_TrialDays p)) f in
  set_if (co_AllowPromoCodes p) "allow_promotion_codes" "true" f.
Definition portal_form (customerID returnURL : string) : Form := <["return_url" := returnURL]> (<["customer" := customerID]> ∅).
Definition meter_form (e : MeterEvent) : Form :=
  let f : Form := <["event_name" := me_name e]> ∅ in
  let f := <["payload[stripe_customer_id]" := me_customer e]> f in
  let f := <["payload[value]" := Itoa (me_value e)]> f in
  let f := set_if (negb (IsZero (me_timestamp e))) "timestamp" (Itoa (me_timestamp e / Second - 62135596800)) f in
  set_if (negb (String.eqb (me_identifier e) "")) "identifier" (me_identifier e) f.

Record StripeClient := { sc_secretKey : string; sc_baseURL : string }.
Definition stripe_New (secretKey : string) : StripeClient := {| sc_secretKey := secretKey; sc_baseURL := "https://api.stripe.com" |}.
Fixpoint trim_slashes (s : string) : string :=
  match s with
  | EmptyString => EmptyString
  | String a r => let r := trim_slashes r in if Ascii.eqb a "/" && String.eqb r "" then "" else String a r
  end.
Definition WithBaseURL (c : StripeClient) (u : string) : StripeClient := {| sc_secretKey := sc_secretKey c; sc_baseURL := trim_slashes u |}.
Record StripeRequest := {
  sq_URL : string; sq_Username : string; sq_ContentType : string; sq_IdempotencyKey : option string; sq_Body : string;
}.
Definition stripe_request (c : StripeClient) (path : string) (form : Form) (idempotencyKey : string) : StripeRequest :=
  {| sq_URL := sc_baseURL c +:+ path; sq_Username := sc_secretKey c; sq_ContentType := "application/x-www-form-urlencoded";
     sq_IdempotencyKey := if negb (String.eqb idempotencyKey "") then Some idempotencyKey else None; sq_Body := Encode form |}.
Section client.
  (** Stripe: no answer, or a status and a body; the id and url of a decoded body. *)
  Context (answer : StripeRequest → option (Z * string)) (decode_session : string → option (string * string)).
Definition stripe_post (c : StripeClient) (path : string) (form : Form) (idempotencyKey : string) : result string string :=
  match answer (stripe_request c path form idempotencyKey) with
  | None => Err "stripe: request failed"
  | Some (status, body) =>
      if (status <? 200) || (status >=? 300) then Err ("stripe: status " +:+ Itoa status +:+ ": " +:+ body) else Ok body
  end.
Definition decoded (r : result string string) : result string (string * string) :=
  match r with
  | Err e => Err e
  | Ok body => match decode_session body with Some s => Ok s | None => Err "invalid JSON" end
  end.
Definition CreateCustomer (c : StripeClient) (p : CustomerParams) : result string string :=
  match decoded (stripe_post c "/v1/customers" (customer_form p) "") with Ok (id, _) => Ok id | Err e => Err e end.
Definition CreateCheckoutSession (c : StripeClient) (p : CheckoutParams) : result string (string * string) :=
  decoded (stripe_post c "/v1/checkout/sessions" (checkout_form p) "").
Definition CreatePortalSession (c : StripeClient) (customerID returnURL : string) : result string string :=
  match decoded (stripe_post c "/v1/billing_portal/sessions" (portal_form customerID returnURL) "") with Ok (_, url) => Ok url | Err e => Err e end.
Definition CreateMeterEvent (c : StripeClient) (e : MeterEvent) : bool :=
  is_ok (stripe_post c "/v1/billing/meter_events" (meter_form e) (me_identifier e)).
(** The client is what the billing handlers call, and what the metering loop pushes to. *)
Definition stripe_api (c : StripeClient) : StripeAPI :=
  {| sa_CreateCustomer := CreateCustomer c; sa_CreateCheckoutSession := CreateCheckoutSession c; sa_CreatePortalSession := CreatePortalSession c |}.
End client.

(** * Configuration *)
Record BillingSettings := { bs_config : BillingConfig; bs_checkout : CheckoutConfig; bs_DunningGrace : Duration; bs_MeteringInterval : Duration }.
Definition billing_DefaultConfig : BillingSettings :=
  {| bs_config := {| bc_SecretKey := ""; bc_WebhookSecret := ""; bc_Prices := ∅; bc_MeterBandwidth := ""; bc_MeterRequests := ""; bc_WebhookTolerance := 5 * Minute |};
     bs_checkout := {| cc_SuccessURL := "http://localhost:3000/billing?status=success"; cc_CancelURL := "http://localhost:3000/billing?status=cancel";
                       cc_PortalReturnURL := "http://localhost:3000/billing"; cc_TrialDays := 14 |};
     bs_DunningGrace := 72 * Hour; bs_MeteringInterval := 0 |}.
Definition Getenv (env : Environ) (key : string) : string := default "" (env !! key).
(** [time.ParseDuration]: it computes fractions in floating point. *)
Definition env_parsed {A} (parse : string → option A) (env : Environ) (key : string) (dflt : A) : A :=
  let v := Getenv env key in if negb (String.eqb v "") then default dflt (parse v) else dflt.
Definition env_prices (env : Environ) : gmap string StripePrices :=
  list_to_map
    [(PlanPro, {| Monthly := Getenv env "TRQSH_STRIPE_PRICE_PRO_MONTHLY"; Annual := Getenv env "TRQSH_STRIPE_PRICE_PRO_ANNUAL"; Metered_ := "" |});
     (PlanTeam, {| Monthly := Getenv env "TRQSH_STRIPE_PRICE_TEAM_MONTHLY"; Annual := Getenv env "TRQSH_STRIPE_PRICE_TEAM_ANNUAL"; Metered_ := "" |});
     (PlanPAYG, {| Monthly := ""; Annual := ""; Metered_ := Getenv env "TRQSH_STRIPE_PRICE_PAYG_METERED" |})].
Definition billing_LoadConfig (ParseDuration : string → option Duration) (env : Environ) : BillingSettings :=
  let d := billing_DefaultConfig in
  let b := bs_config d in
  let c := bs_checkout d in
  {| bs_config := {| bc_SecretKey := envStr env "TRQSH_STRIPE_SECRET_KEY" (bc_SecretKey b); bc_WebhookSecret := envStr env "TRQSH_STRIPE_WEBHOOK_SECRET" (bc_WebhookSecret b);
                     bc_Prices := env_prices env; bc_MeterBandwidth := envStr env "TRQSH_STRIPE_METER_BANDWIDTH" (bc_MeterBandwidth b);
                     bc_MeterRequests := envStr env "TRQSH_STRIPE_METER_REQUESTS" (bc_MeterRequests b); bc_WebhookTolerance := bc_WebhookTolerance b |};
     bs_checkout := {| cc_SuccessURL := envStr env "TRQSH_BILLING_SUCCESS_URL" (cc_SuccessURL c); cc_CancelURL := envStr env "TRQSH_BILLING_CANCEL_URL" (cc_CancelURL c);
                       cc_PortalReturnURL := envStr env "TRQSH_BILLING_PORTAL_RETURN_URL" (cc_PortalReturnURL c);
                       cc_TrialDays := env_parsed Atoi env "TRQSH_BILLING_TRIAL_DAYS" (cc_TrialDays c) |};
     bs_DunningGrace := env_parsed ParseDuration env "TRQSH_BILLING_DUNNING_GRACE" (bs_DunningGrace d);
     bs_MeteringInterval := env_parsed ParseDuration env "TRQSH_BILLING_METERING_INTERVAL" (bs_MeteringInterval d) |}.

(** * What Stripe reads *)
(** Decoding a form: pairs between ampersands, names before the first equals sign, plus
    signs and percent escapes undone. *)
Definition unhex (a : ascii) : nat :=
  let n := nat_of_ascii a in if (n <=? 57)%nat then (n - 48)%nat else (n - 55)%nat.
Fixpoint QueryUnescape (s : string) : string :=
  match s with
  | String "%" (String h (String l r)) => String (ascii_of_nat (unhex h * 16 + unhex l)) (QueryUnescape r)
  | String "+" r => String " " (QueryUnescape r)
  | String a r => String a (QueryUnescape r)
  | EmptyString => EmptyString
  end.
Fixpoint cut_equals (s : string) : string * string :=
  match s with
  | EmptyString => ("", "")
  | String a r => if Ascii.eqb a "=" then ("", r) else let '(k, v) := cut_equals r in (String a k, v)
  end.
Definition parse_pair (s : string) : string * string := let '(k, v) := cut_equals s in (QueryUnescape k, QueryUnescape v).
Definition parse_form (s : string) : Form := if String.eqb s "" then ∅ else list_to_map (parse_pair <$> Split s "&").

Definition escape_onto (a : ascii) (t : string) : string :=
  if unreserved a then String a t
  else if Ascii.eqb a " " then String "+" t
  else let n := Z.of_N (N_of_ascii a) in String "%" (String (hex_upper (n / 16)) (String (hex_upper n) t)).
Lemma unescape_onto a t : QueryUnescape (escape_onto a t) = String a (QueryUnescape t).
Proof. by destruct a as [[] [] [] [] [] [] [] []]. Qed.
Lemma escape_onto_bytes a t c : c = "&"%char ∨ c = "="%char → has_byte (escape_onto a t) c = has_byte t c.
Proof. intros [->| ->]; by destruct a as [[] [] [] [] [] [] [] []]. Qed.
Lemma QueryEscape_cons a s : QueryEscape (String a s) = escape_onto a (QueryEscape s).
Proof. done. Qed.
Lemma unescape_escape s : QueryUnescape (QueryEscape s) = s.
Proof. induction s as [|a s IH]; [done|]. by rewrite QueryEscape_cons, unescape_onto, IH. Qed.
Lemma escape_no_sep s c : c = "&"%char ∨ c = "="%char → has_byte (QueryEscape s) c = false.
Proof. intros Hc. induction s as [|a s IH]; [done|]. by rewrite QueryEscape_cons, escape_onto_bytes. Qed.

Definition pair_text (kv : string * string) : string := QueryEscape kv.1 +:+ "=" +:+ QueryEscape kv.2.
Lemma cut_equals_app k v : has_byte k "=" = false → cut_equals (k +:+ "=" +:+ v) = (k, v).
Proof.
  induction k as [|a k IH]; [done|]. cbn [has_byte]. intros [Ha Hk]%orb_false_iff.
  change (String a k +:+ "=" +:+ v) with (String a (k +:+ "=" +:+ v)). cbn [cut_equals]. by rewrite Ha, (IH Hk).
Qed.
Lemma parse_pair_text kv : parse_pair (pair_text kv) = kv.
Proof.
  unfold parse_pair, pair_text. rewrite cut_equals_app by (apply escape_no_sep; auto). rewrite !unescape_escape. by destruct kv.
Qed.
Lemma pair_text_plain kv : has_byte (pair_text kv) "&" = false ∧ pair_text kv ≠ "".
Proof.
  unfold pair_text. split; [rewrite !has_byte_app, !escape_no_sep by auto; done|]. intros Heq.
  apply (f_equal (λ s, has_byte s "=")) in Heq. rewrite !has_byte_app in Heq. cbn in Heq. by rewrite orb_true_r in Heq.
Qed.
Lemma Split_Join l : l ≠ [] → Forall (λ s, has_byte s "&" = false) l → Split (Join "&" l) "&" = l.
Proof.
  intros Hne Hf. induction Hf as [|x l Hx Hf IH]; [done|]. destruct l as [|y l]; [by apply Split_whole|].
  change (Join "&" (x :: y :: l)) with (x +:+ String "&" (Join "&" (y :: l))). by rewrite Split_app, IH.
Qed.
Lemma insert_sorted_perm x l : insert_sorted x l ≡ₚ x :: l.
Proof. induction l as [|y l IH]; [done|]. cbn. destruct (str_leb x y); [done|]. rewrite IH. apply Permutation_swap. Qed.
Lemma sort_params_perm (q : Form) : sort_params q ≡ₚ map_to_list q.
Proof. unfold sort_params. induction (map_to_list q) as [|x l IH]; [done|]. cbn. by rewrite insert_sorted_perm, IH. Qed.
(** A form is read back as it was set, whatever bytes its values have. *)
Lemma parse_Encode (f : Form) : parse_form (Encode f) = f.
Proof.
  unfold parse_form, Encode. replace (map _ (sort_params f)) with (pair_text <$> sort_params f) by (apply map_ext; by intros []).
  destruct (sort_params f) as [|kv l] eqn:Hs.
  - cbn. pose proof (sort_params_perm f) as Hp. rewrite Hs in Hp. apply Permutation_nil_l in Hp. symmetry in Hp. by apply map_to_list_empty_iff in Hp as ->.
  - assert (Hf : Forall (λ s, has_byte s "&" = false) (pair_text <$> kv :: l)).
    { apply list.Forall_forall. intros s (x & -> & _)%list_elem_of_fmap. apply pair_text_plain. }
    destruct (String.eqb_spec (Join "&" (pair_text <$> kv :: l)) "") as [He|_].
    + exfalso. apply (f_equal (λ s, Split s "&")) in He. rewrite Split_Join in He by done. cbn in He. injection He as He _. by apply pair_text_plain in He.
    + rewrite Split_Join by done. rewrite <- list_fmap_compose. rewrite (list_fmap_ext _ id) by (intros; apply parse_pair_text). rewrite list_fmap_id, <- Hs.
      transitivity (list_to_map (map_to_list f) : Form); [|apply list_to_map_to_list].
      apply list_to_map_proper; [|apply sort_params_perm]. rewrite sort_params_perm. apply NoDup_fst_map_to_list.
Qed.

(** The value of an optional field. *)
Lemma lookup_set_if b k v k' (f : Form) : set_if b k v f !! k' = if b && bool_decide (k = k') then Some v else f !! k'.
Proof. unfold set_if. destruct b; [|done]. case_bool_decide as Hk; [subst; apply lookup_insert_eq|by apply lookup_insert_ne]. Qed.
Ltac form_field :=
  unfold checkout_form, meter_form;
  repeat first [rewrite lookup_set_if | rewrite bool_decide_eq_false_2 by discriminate | rewrite bool_decide_eq_true_2 by reflexivity
    | rewrite andb_false_r | rewrite andb_true_r | rewrite lookup_insert_ne by discriminate | rewrite lookup_insert_eq | rewrite lookup_empty].

(** Stripe reads what the code means. Whatever bytes the identifiers, names and
    addresses have, the form that arrives is the form that was set, so no value can add or
    change a field: a checkout is for the customer, the price and the org it was asked
    for, with a quantity unless the price is metered and a trial only if one is
    configured; a metered amount is for its customer, with its value and its identifier,
    which is also the idempotency key of the request; the key of the account is sent as
    the user name of the configured address only; and a call succeeds only on an
    answer between 200 and 299. *)
Theorem stripe_reads_what_is_meant (c : StripeClient) (p : CheckoutParams) (e : MeterEvent) (path : string) (f : Form) (key : string) :
  (let q := stripe_request c path f key in
   parse_form (sq_Body q) = f ∧ sq_URL q = sc_baseURL c +:+ path ∧ sq_Username q = sc_secretKey c ∧ (sq_IdempotencyKey q = if String.eqb key "" then None else Some key)) ∧
  (let g := parse_form (sq_Body (stripe_request c "/v1/checkout/sessions" (checkout_form p) "")) in
   g !! "customer" = Some (co_CustomerID p) ∧ g !! "line_items[0][price]" = Some (co_PriceID p) ∧ g !! "mode" = Some "subscription" ∧
   g !! "line_items[0][quantity]" = (if co_MeteredPrice p then None else Some "1") ∧
   g !! "client_reference_id" = (if String.eqb (co_OrgID p) "" then None else Some (co_OrgID p)) ∧
   g !! "subscription_data[trial_period_days]" = (if co_TrialDays p >? 0 then Some (Itoa (co_TrialDays p)) else None)) ∧
  (let q := stripe_request c "/v1/billing/meter_events" (meter_form e) (me_identifier e) in
   let g := parse_form (sq_Body q) in
   g !! "event_name" = Some (me_name e) ∧ g !! "payload[stripe_customer_id]" = Some (me_customer e) ∧ g !! "payload[value]" = Some (Itoa (me_value e)) ∧
   g !! "identifier" = sq_IdempotencyKey q) ∧
  (∀ answer body, stripe_post answer c path f key = Ok body →
    ∃ status, answer (stripe_request c path f key) = Some (status, body) ∧ 200 <= status < 300).
Proof.
  cbv zeta. cbn [stripe_request sq_Body sq_URL sq_Username sq_IdempotencyKey]. rewrite !parse_Encode. split_and!; try done.
  1: by destruct (String.eqb key "").
  1-10: form_field; try done.
  - by destruct (co_MeteredPrice p).
  - by destruct (String.eqb (co_OrgID p) "").
  - intros answer body. unfold stripe_post. destruct (answer _) as [[st b]|]; [|done].
    destruct (Z.ltb_spec st 200); [done|]. rewrite Z.geb_leb. destruct (Z.leb_spec 300 st); [done|]. cbn. intros [= ->]. exists st. split; [done|lia].
Qed.

(** An org whose id tries to set another price. *)
Definition ex_checkout : CheckoutParams :=
  {| co_CustomerID := "cus_1"; co_PriceID := "price_pro"; co_SuccessURL := "https://app/ok?a=1&b=2"; co_CancelURL := "https://app/no"; co_OrgID := "o&line_items[0][price]=free";
     co_TrialDays := 14; co_AllowPromoCodes := true; co_MeteredPrice := false |}.
Definition ex_meter : MeterEvent := {| me_name := "trqsh_bandwidth"; me_customer := "cus_1"; me_value := 42; me_identifier := "mu_1"; me_timestamp := 0 |}.
Lemma stripe_reads_what_is_meant_witness :
  parse_form (sq_Body (stripe_request (stripe_New "sk") "/v1/checkout/sessions" (checkout_form ex_checkout) "")) !! "line_items[0][price]" = Some "price_pro" ∧
  sq_IdempotencyKey (stripe_request (stripe_New "sk") "/v1/billing/meter_events" (meter_form ex_meter) (me_identifier ex_meter)) = Some "mu_1" ∧
  ∃ status, 200 <= status < 300.
Proof.
  destruct (stripe_reads_what_is_meant (stripe_New "sk") ex_checkout ex_meter "/v1/customers" ∅ "") as (_ & Hc & _ & Ha). cbv zeta in Hc.
  destruct Hc as (_ & Hp & _). split; [exact Hp|]. split; [reflexivity|].
  destruct (Ha (λ _, Some (201, "{}")) "{}" eq_refl) as (st & _ & Hst). exists st. exact Hst.
Defined.
