(* ===== verification/Uninstall.v ===== *)
(** Uninstallation (internal/agent/cli/uninstall.go, dashboard.go): removing the local
    data of the program from a file system of paths.  A path is the list of its
    components; symbolic links are not represented. *)
From S2P Require Import Prelude GoStrings GoText EdgeConfig.
From Stdlib Require Import Ascii.

Open Scope Z_scope.

(** * Paths *)
Abbreviation Path := (list string).
(** [filepath.Clean] of a rooted path, by components. *)
Definition clean_step (acc : Path) (x : string) : Path :=
  if String.eqb x "" || String.eqb x "." then acc else if String.eqb x ".." then removelast acc else acc ++ [x].
Definition Clean (xs : list string) : Path := foldl clean_step [] xs.
(** Where a name leads, from a working directory. *)
Definition path_of (cwd : Path) (name : string) : Path := Clean ((if HasPrefix name "/" then [] else cwd) ++ Split name "/").
(** [filepath.Dir]: what comes before the last slash. *)
Definition dir_part (name : string) : string := match LastIndexByte name "/" with Some i => take_string (S i) name | None => "" end.
Definition Dir (cwd : Path) (name : string) : Path := path_of cwd (dir_part name).
(** [filepath.Clean] of a relative path is a dot when its components cancel out. *)
Definition rel_step (acc : Path) (x : string) : Path :=
  if String.eqb x "" || String.eqb x "." then acc
  else if String.eqb x ".." then match list.last acc with None => [x] | Some y => if String.eqb y ".." then acc ++ [x] else removelast acc end
  else acc ++ [x].
Definition is_dot (name : string) : bool := negb (HasPrefix name "/") && bool_decide (foldl rel_step [] (Split (dir_part name) "/") = []).

Record Disk := {
  dk_entries : gset Path; dk_files : gset Path (* those that are not directories *); dk_denied : gset Path (* those the user may not delete *)
}.
Definition lies_under (p q : Path) : bool := bool_decide (p `prefix_of` q).
Definition exists_on (p : Path) (d : Disk) : bool := bool_decide (p ∈ dk_entries d).
Definition keep_entries (f : Path → bool) (d : Disk) : Disk :=
  {| dk_entries := filter (λ q, f q = true) (dk_entries d); dk_files := dk_files d; dk_denied := dk_denied d |}.
(** Entries that stay whatever is deleted: the denied ones and the directories above. *)
Definition stays (d : Disk) (q : Path) : bool := bool_decide (set_Exists (λ r, lies_under q r = true) (dk_entries d ∩ dk_denied d)).
(** [os.RemoveAll]: what may be deleted below [p]; whether all of it was. *)
Definition RemoveAll (p : Path) (d : Disk) : bool * Disk :=
  (bool_decide (filter (λ q, lies_under p q = true) (dk_entries d ∩ dk_denied d) = ∅),
   keep_entries (λ q, negb (lies_under p q) || stays d q) d).
(** [os.Remove]: an entry without entries below it. *)
Definition Remove (p : Path) (d : Disk) : Disk :=
  if bool_decide (filter (λ q, lies_under p q = true) (dk_entries d) = {[p]}) && negb (bool_decide (p ∈ dk_denied d))
  then keep_entries (λ q, negb (bool_decide (q = p))) d else d.

(** * The operations *)
(** [dot]: the directory is written as a dot, which [RemoveAll] refuses. *)
Definition removePath (dot : bool) (p : Path) (d : Disk) : bool * Disk :=
  if exists_on p d then (true, if dot then d else snd (RemoveAll p d)) else (false, d).
Definition DefaultConfigPath (env : Environ) (home : option string) : string :=
  let p := default "" (env !! "TRQSH_CONFIG") in
  if negb (String.eqb p "") then p else match home with Some h => h +:+ "/.trqsh/trqsh.yml" | None => "trqsh.yml" end.
Definition pypiCacheDir (env : Environ) (home : option string) : option string :=
  let x := default "" (env !! "XDG_CACHE_HOME") in
  if negb (String.eqb x "") then Some (x +:+ "/trqsh") else match home with Some h => Some (h +:+ "/.cache/trqsh") | None => None end.
(** The entries of a directory; their order does not matter. *)
Definition children (p : Path) (d : Disk) : list Path := List.filter (λ q, bool_decide (removelast q = p) && negb (bool_decide (q = [])) ) (elements (dk_entries d)).
(** The comparison ignores case. *)
Definition lower_path (p : Path) : Path := ToLower <$> p.
Definition runs_inside (self p : Path) : bool := bool_decide (lower_path p `prefix_of` lower_path self) && negb (bool_decide (lower_path p = lower_path self)).
Fixpoint remove_versions (self : option Path) (ps : list Path) (removed : bool) (selfDir : option Path) (d : Disk) : bool * option Path * Disk :=
  match ps with
  | [] => (removed, selfDir, d)
  | p :: ps =>
      if match self with Some s => runs_inside s p | None => false end then remove_versions self ps removed (Some p) d
      else let '(ok, d) := RemoveAll p d in remove_versions self ps (removed || ok) selfDir d
  end.
(** On Windows a helper removes the directory of the running program once it has ended. *)
Definition removeSelfDir (windows : bool) (dir parent : Path) (d : Disk) : list Path * Disk :=
  if windows then ([dir; parent], d) else ([], Remove parent (snd (RemoveAll dir d))).
Definition removeBinaryCacheSelf (windows : bool) (cache : Path) (self : option Path) (d : Disk) : bool * list Path * Disk :=
  if exists_on cache d && negb (bool_decide (cache ∈ dk_files d)) then
    match remove_versions self (children cache d) false None d with
    | (_, Some dir, d) => let '(later, d) := removeSelfDir windows dir cache d in (true, later, d)
    | (removed, None, d) => (removed, [], Remove cache d)
    end
  else (false, [], d).
(** A relative cache directory is never the beginning of the program's absolute path.
    The summary, the directories left to the helper, and the disk. *)
Definition removeLocalData (windows : bool) (env : Environ) (home : option string) (cwd : Path) (self : option Path) (d : Disk) : string * list Path * Disk :=
  let config := DefaultConfigPath env home in
  let '(r1, d) := removePath (is_dot config) (Dir cwd config) d in
  let '(r2, later, d) := match pypiCacheDir env home with
                         | Some c => removeBinaryCacheSelf windows (path_of cwd c) (if HasPrefix c "/" then self else None) d
                         | None => (false, [], d)
                         end in
  (if r1 || r2 then "removed local data — to remove the program: `npm rm -g @trqsh-uz/trqsh`, `pip uninstall trqsh`, or `scoop uninstall trqsh`" else "no local trqsh data found", later, d).

(** * Theorems *)
Lemma elem_keep f d q : q ∈ dk_entries (keep_entries f d) ↔ f q = true ∧ q ∈ dk_entries d.
Proof. unfold keep_entries. cbn. by rewrite elem_of_filter. Qed.
(** What an operation may remove: [only P d d'] says nothing else is gone, nothing new. *)
Definition only (P : Path → Prop) (d d' : Disk) : Prop :=
  dk_denied d' = dk_denied d ∧ dk_entries d' ⊆ dk_entries d ∧ ∀ q, q ∈ dk_entries d → q ∉ dk_entries d' → P q.
Lemma only_refl P d : only P d d.
Proof. by repeat split. Qed.
Lemma only_trans (P : Path → Prop) d1 d2 d3 : only P d1 d2 → only P d2 d3 → only P d1 d3.
Proof.
  intros (H1 & H2 & H3) (H4 & H5 & H6). split; [congruence|]. split; [set_solver|]. intros q Hq Hn.
  destruct (decide (q ∈ dk_entries d2)); auto.
Qed.
Lemma only_weaken (P Q : Path → Prop) d d' : (∀ q, P q → Q q) → only P d d' → only Q d d'.
Proof. intros HPQ (H1 & H2 & H3). repeat split; eauto. Qed.
Lemma RemoveAll_only (p : Path) d : only (λ q, p `prefix_of` q) d (snd (RemoveAll p d)).
Proof.
  split; [done|]. split; [intros q; cbn; rewrite elem_of_filter; naive_solver|]. intros q Hq Hn. cbn in Hn. rewrite elem_of_filter in Hn.
  unfold lies_under in Hn. destruct (decide (p `prefix_of` q)); [done|]. exfalso. apply Hn. split; [|done]. by rewrite bool_decide_eq_false_2.
Qed.
Lemma Remove_only (p : Path) d : only (λ q, q = p) d (Remove p d).
Proof.
  unfold Remove. destruct (_ && _); [|apply only_refl]. split; [done|]. split; [intros q; cbn; rewrite elem_of_filter; naive_solver|].
  intros q Hq Hn. cbn in Hn. rewrite elem_of_filter in Hn. destruct (decide (q = p)); [done|]. exfalso. apply Hn. by rewrite bool_decide_eq_false_2.
Qed.
Lemma elem_children p d q : q ∈ children p d → removelast q = p ∧ q ≠ [] ∧ q ∈ dk_entries d.
Proof.
  unfold children. rewrite list_elem_of_In, filter_In, <- list_elem_of_In, elem_of_elements. intros [Hq [H1 H2]%andb_prop].
  apply bool_decide_eq_true_1 in H1. split; [done|]. split; [|done]. intros ->. done.
Qed.
Lemma child_prefix (p q : Path) : removelast q = p → q ≠ [] → p `prefix_of` q.
Proof. intros <- Hq. exists [List.last q ""]. by apply app_removelast_last. Qed.
Lemma remove_versions_only (cache : Path) self ps removed sd d r sd' d' : Forall (λ p, cache `prefix_of` p) ps → (∀ p, sd = Some p → cache `prefix_of` p) →
  remove_versions self ps removed sd d = (r, sd', d') → only (λ q, cache `prefix_of` q) d d' ∧ ∀ p, sd' = Some p → cache `prefix_of` p.
Proof.
  intros Hps. revert removed sd d. induction Hps as [|p ps Hp _ IH]; intros removed sd d Hsd; cbn [remove_versions].
  - intros [= <- <- <-]. split; [apply only_refl|done].
  - destruct (match self with Some s => runs_inside s p | None => false end); [intros Hr; eapply IH; [|exact Hr]; by intros ? [= <-]|].
    destruct (RemoveAll p d) as [ok d1] eqn:Hra. intros Hr. destruct (IH _ _ _ Hsd Hr) as [Ho Hs]. split; [|done].
    eapply only_trans; [|exact Ho]. pose proof (RemoveAll_only p d) as Hro. rewrite Hra in Hro. eapply only_weaken; [|exact Hro]. intros q Hq. by etrans.
Qed.
Lemma removeBinaryCache_only windows (cache : Path) self d r later d' : removeBinaryCacheSelf windows cache self d = (r, later, d') →
  only (λ q, cache `prefix_of` q) d d' ∧ Forall (λ q, cache `prefix_of` q) later.
Proof.
  unfold removeBinaryCacheSelf. destruct (exists_on cache d && _); [|intros [= <- <- <-]; split; [apply only_refl|constructor]].
  destruct (remove_versions self (children cache d) false None d) as [[rem sd] d1] eqn:Hv.
  destruct (remove_versions_only cache self (children cache d) false None d rem sd d1) as [Ho Hs]; [|done..|].
  { apply list.Forall_forall. intros q (H1 & H2 & _)%elem_children. by apply child_prefix. }
  destruct sd as [dir|].
  - specialize (Hs dir eq_refl). unfold removeSelfDir. destruct windows; intros [= <- <- <-]; split; [done|by repeat constructor| |constructor].
    apply (only_trans _ _ d1); [exact Ho|]. apply (only_trans _ _ (snd (RemoveAll dir d1))).
    + apply (only_weaken (λ q, dir `prefix_of` q)); [intros q Hq; by etrans|apply RemoveAll_only].
    + apply (only_weaken (λ q, q = cache)); [by intros q ->|apply Remove_only].
  - intros [= <- <- <-]. split; [|constructor]. eapply only_trans; [exact Ho|]. eapply only_weaken; [|apply Remove_only]. by intros q ->.
Qed.

(** ** The directory of the configuration *)
Lemma foldl_clean_app acc xs ys : foldl clean_step acc (xs ++ ys) = foldl clean_step (foldl clean_step acc xs) ys.
Proof. apply foldl_app. Qed.
Lemma Split_slash s t : ∃ xs, Split (s +:+ String "/" t) "/" = xs ++ Split t "/" ∧ Split s "/" = xs.
Proof.
  induction s as [|a s (xs & IH & Hs)].
  - exists [""]. done.
  - change (String a s +:+ String "/" t) with (String a (s +:+ String "/" t)). cbn [Split]. rewrite IH, Hs. destruct (Ascii.eqb a "/"); [by exists ("" :: xs)|].
    destruct xs as [|x xs]; [by destruct (Split_ne s "/")|]. by exists (String a x :: xs).
Qed.
Lemma path_of_slash cwd s t : s ≠ "" → path_of cwd (s +:+ String "/" t) = foldl clean_step (path_of cwd s) (Split t "/").
Proof.
  intros Hs. unfold path_of, Clean. assert (HasPrefix (s +:+ String "/" t) "/" = HasPrefix s "/") as ->.
  { destruct s as [|a s]; [done|]. change (String a s +:+ String "/" t) with (String a (s +:+ String "/" t)). unfold HasPrefix.
    generalize (s +:+ String "/" t). intros u. by destruct u, s. }
  destruct (Split_slash s t) as (xs & -> & Hxs). by rewrite app_assoc, foldl_app, Hxs.
Qed.
Lemma default_config_dir cwd h : h ≠ "" → Dir cwd (h +:+ "/.trqsh/trqsh.yml") = path_of cwd h ++ [".trqsh"].
Proof.
  intros Hh. unfold Dir, dir_part.
  assert (Heq : h +:+ "/.trqsh/trqsh.yml" = (h +:+ "/.trqsh") +:+ String "/" "trqsh.yml") by (by rewrite app_string_assoc).
  rewrite Heq, LastIndexByte_app by done.
  assert (Hlen : S (String.length (h +:+ "/.trqsh")) = String.length (h +:+ "/.trqsh/")).
  { clear. induction h as [|a h IH]; [done|]. change (String a h +:+ "/.trqsh") with (String a (h +:+ "/.trqsh")). change (String a h +:+ "/.trqsh/") with (String a (h +:+ "/.trqsh/")). cbn. by rewrite IH. }
  assert (Hsplit : (h +:+ "/.trqsh") +:+ String "/" "trqsh.yml" = (h +:+ "/.trqsh/") +:+ "trqsh.yml") by (by rewrite !app_string_assoc).
  rewrite Hlen, Hsplit, take_string_app. change "/.trqsh/" with (String "/" ".trqsh/"). by rewrite path_of_slash.
Qed.
Lemma cache_dir cwd h : h ≠ "" → path_of cwd (h +:+ "/.cache/trqsh") = path_of cwd h ++ [".cache"; "trqsh"].
Proof.
  intros Hh. change "/.cache/trqsh" with (String "/" ".cache/trqsh"). rewrite path_of_slash by done. cbn. by rewrite <- app_assoc.
Qed.

(** Uninstalling removes the program's data and nothing else, as long as the
    configuration is where the program puts it. Without TRQSH_CONFIG and
    XDG_CACHE_HOME, for every disk and home directory, an entry that is gone afterwards
    was in .trqsh or .cache/trqsh of the home directory, nothing new appears, and what a
    helper is left to remove is in the latter; and of .trqsh nothing remains but
    what the user may not delete and the directories it is in. *)
Theorem uninstall_removes_its_own windows env h cwd self d msg later d' : h ≠ "" →
  default "" (env !! "TRQSH_CONFIG") = "" → default "" (env !! "XDG_CACHE_HOME") = "" →
  removeLocalData windows env (Some h) cwd self d = (msg, later, d') →
  let conf := path_of cwd h ++ [".trqsh"] in
  let cache := path_of cwd h ++ [".cache"; "trqsh"] in
  dk_entries d' ⊆ dk_entries d ∧
  (∀ q, q ∈ dk_entries d → q ∉ dk_entries d' → conf `prefix_of` q ∨ cache `prefix_of` q) ∧
  Forall (λ q, cache `prefix_of` q) later ∧
  (is_dot (h +:+ "/.trqsh/trqsh.yml") = false → conf ∈ dk_entries d → ∀ q, conf `prefix_of` q → q ∈ dk_entries d' → ∃ r, q `prefix_of` r ∧ r ∈ dk_entries d ∧ r ∈ dk_denied d).
Proof.
  intros Hh Hc Hx. unfold removeLocalData, DefaultConfigPath, pypiCacheDir. rewrite Hc, Hx. cbn [negb String.eqb].
  rewrite default_config_dir, cache_dir by done. set (conf := path_of cwd h ++ [".trqsh"]). set (cache := path_of cwd h ++ [".cache"; "trqsh"]).
  destruct (removePath (is_dot (h +:+ "/.trqsh/trqsh.yml")) conf d) as [r1 d1] eqn:H1.
  set (self' := if HasPrefix _ "/" then self else None).
  destruct (removeBinaryCacheSelf windows cache self' d1) as [[r2 l2] d2] eqn:H2. intros [= _ <- <-]. cbv zeta.
  destruct (removeBinaryCache_only windows cache self' d1 r2 l2 d2 H2) as [Ho2 Hl].
  assert (Ho1 : only (λ q, conf `prefix_of` q) d d1).
  { unfold removePath in H1. destruct (exists_on conf d); [|injection H1 as _ <-; apply only_refl].
    destruct (is_dot _); injection H1 as _ <-; [apply only_refl|]. apply RemoveAll_only. }
  destruct Ho1 as (_ & Hs1 & Hr1), Ho2 as (_ & Hs2 & Hr2). split_and!; [set_solver| |done|].
  - intros q Hq Hn. destruct (decide (q ∈ dk_entries d1)); [right|left]; auto.
  - intros Hdot Hex q Hp Hq. apply Hs2 in Hq. unfold removePath in H1. rewrite Hdot in H1. unfold exists_on in H1. rewrite bool_decide_eq_true_2 in H1 by done.
    injection H1 as _ <-. cbn in Hq. apply elem_of_filter in Hq as [Hq _]. unfold lies_under in Hq. rewrite (bool_decide_eq_true_2 (conf `prefix_of` q)) in Hq by done.
    unfold stays in Hq. apply bool_decide_eq_true_1 in Hq as (r & [Hr1' Hr2']%elem_of_intersection & Hr3). apply bool_decide_eq_true_1 in Hr3. eauto.
Qed.

(** The home directory of a user, with the program's data, its cache and a document. *)
Definition ex_home : Path := ["home"; "u"].
Definition ex_disk : Disk :=
  {| dk_entries := list_to_set [["home"]; ex_home; ["home"; "u"; "thesis.tex"]; ["home"; "u"; "trqsh.yml"]; ["home"; "u"; ".trqsh"]; ["home"; "u"; ".trqsh"; "trqsh.yml"];
       ["home"; "u"; ".trqsh"; "token"]; ["home"; "u"; ".cache"]; ["home"; "u"; ".cache"; "trqsh"]; ["home"; "u"; ".cache"; "trqsh"; "1.2.0"];
       ["home"; "u"; ".cache"; "trqsh"; "1.2.0"; "trqsh"]; ["home"; "u"; ".cache"; "trqsh"; "1.1.0"]];
     dk_files := list_to_set [["home"; "u"; "thesis.tex"]]; dk_denied := ∅ |}.
Definition ex_self : Path := ["home"; "u"; ".cache"; "trqsh"; "1.2.0"; "trqsh"].
Definition ex_uninstalled : string * list Path * Disk := removeLocalData false ∅ (Some "/home/u") ["tmp"] (Some ex_self) ex_disk.
Lemma uninstall_removes_its_own_witness :
  dk_entries ex_uninstalled.2 = list_to_set [["home"]; ex_home; ["home"; "u"; "thesis.tex"]; ["home"; "u"; "trqsh.yml"]; ["home"; "u"; ".cache"]] ∧
  ["home"; "u"; ".trqsh"; "token"] ∉ dk_entries ex_uninstalled.2.
Proof.
  split; [refine (bool_decide_eq_true_1 _ _); vm_compute; reflexivity|]. destruct ex_uninstalled as [[msg later] d'] eqn:He.
  destruct (uninstall_removes_its_own false ∅ "/home/u" ["tmp"] (Some ex_self) ex_disk msg later d' ltac:(discriminate) eq_refl eq_refl He) as (_ & _ & _ & Hall).
  intros Hin. specialize (Hall eq_refl ltac:(refine (bool_decide_eq_true_1 _ _); vm_compute; reflexivity) ["home"; "u"; ".trqsh"; "token"]).
  apply Hall in Hin as (r & _ & _ & Hr); [|refine (bool_decide_eq_true_1 _ _); vm_compute; reflexivity].
  apply (not_elem_of_empty (C := gset Path)) in Hr. exact Hr.
Defined.
(** With the configuration file in the home directory itself, the whole directory is
    deleted, documents included. *)
Example uninstall_deletes_config_directory :
  let d' := (removeLocalData false {["TRQSH_CONFIG" := "/home/u/trqsh.yml"]} (Some "/home/u") ["tmp"] (Some ex_self) ex_disk).2 in
  dk_entries d' = {[ ["home"] ]}.
Proof. refine (bool_decide_eq_true_1 _ _). vm_compute. reflexivity. Qed.
