(* ===== verification/ApiProcess.v ===== *)
(** The process of the control plane (internal/api/server.go, metrics.go, remote.go,
    cmd/trqshapi/main.go): the loops that serve the streams of the relay under the
    timeout every request has, the metrics around the router, the operations endpoint,
    and what the program starts. *)
From S2P Require Import Prelude GoStrings EdgeConfig Store Listings Billing Ingress Login ApiConfig ApiAuth Remote RemoteSafety ApiRouter EdgeRun StripeClient.

Open Scope Z_scope.

(** * Streams of the relay *)
(** [middleware.Timeout]: when the context of a request ends. *)
Definition requestTimeout : Duration := 30 * Second.
Definition keepalivePeriod : Duration := 25 * Second.
Inductive SelectCase := CDone | CKeepalive | CRecv.
Inductive Chunk := KConnected | KKeepalive | KData (ev : remoteEvent).
(** [sm_viewer]: the id of a viewer, [None] for the stream of the console. *)
Record Stream := {
  sm_sess : nat; sm_chan : nat; sm_viewer : option Z; sm_start : Time; sm_ticked : Time; sm_out : list Chunk; sm_open : bool;
}.
Definition open_stream (now : Time) (l c : nat) (viewer : option Z) : Stream :=
  {| sm_sess := l; sm_chan := c; sm_viewer := viewer; sm_start := now; sm_ticked := now; sm_out := [KConnected]; sm_open := true |}.
Definition say (k : Chunk) (st : Stream) : Stream :=
  {| sm_sess := sm_sess st; sm_chan := sm_chan st; sm_viewer := sm_viewer st; sm_start := sm_start st; sm_ticked := sm_ticked st;
     sm_out := sm_out st ++ [k]; sm_open := sm_open st |}.
Definition ticked (now : Time) (st : Stream) : Stream :=
  {| sm_sess := sm_sess st; sm_chan := sm_chan st; sm_viewer := sm_viewer st; sm_start := sm_start st; sm_ticked := now;
     sm_out := sm_out st; sm_open := sm_open st |}.
Definition returned (st : Stream) : Stream :=
  {| sm_sess := sm_sess st; sm_chan := sm_chan st; sm_viewer := sm_viewer st; sm_start := sm_start st; sm_ticked := sm_ticked st;
     sm_out := sm_out st; sm_open := false |}.

Section streams.
  Context `{RangeOrder}.
(** Which cases of the select can be taken; [gone]: the client has hung up. *)
Definition sel_ready (gone : bool) (now : Time) (c : SelectCase) (st : Stream) (r : Relay) : bool :=
  sm_open st &&
  match c with
  | CDone => gone || (sm_start st + requestTimeout <=? now)
  | CKeepalive => sm_ticked st + keepalivePeriod <=? now
  | CRecv => match recv (sm_chan st) r with Some _ => true | None => false end
  end.
(** The deferred call of the handler. *)
Definition stream_return (st : Stream) (r : Relay) : option (Stream * Relay) :=
  r ← match sm_viewer st with None => detachAgent (sm_sess st) (sm_chan st) r | Some id => removeViewer (sm_sess st) id r end;
  Some (returned st, r).
(** One turn of the loop; [None] is a panic. *)
Definition stream_turn (now : Time) (c : SelectCase) (st : Stream) (r : Relay) : option (Stream * Relay) :=
  match c with
  | CDone => stream_return st r
  | CKeepalive => Some (ticked now (say KKeepalive st), r)
  | CRecv =>
      x ← recv (sm_chan st) r;
      match x with
      | (None, r) => stream_return st r
      | (Some ev, r) => if String.eqb (ev_Type ev) "ended" then stream_return (say (KData ev) st) r else Some (say (KData ev) st, r)
      end
  end.
End streams.

(** * Metrics *)
Record ApiMetrics := {
  am_inFlight : Z; am_requests : gmap (string * string * Z) Z; (* by route, method and status *) am_durations : gmap (string * string) Z;
}.
Definition newMetrics : ApiMetrics := {| am_inFlight := 0; am_requests := ∅; am_durations := ∅ |}.
Definition count_up {K} `{Countable K} (k : K) (m : gmap K Z) : gmap K Z := <[k := default 0 (m !! k) + 1]> m.
Definition routePattern (RoutePattern : string) : string := if negb (String.eqb RoutePattern "") then RoutePattern else "unmatched".
(** The middleware around a request: its start, and its end, or its panic, which
    the recovery outside of the middleware answers. *)
Inductive MetricEvent := MBegin | MServed (pattern method : string) (status : Z) | MPanicked.
Definition metrics_middleware (m : ApiMetrics) (e : MetricEvent) : ApiMetrics :=
  match e with
  | MBegin => {| am_inFlight := am_inFlight m + 1; am_requests := am_requests m; am_durations := am_durations m |}
  | MServed pattern method status =>
      let route := routePattern pattern in
      {| am_inFlight := am_inFlight m - 1; am_requests := count_up (route, method, status) (am_requests m);
         am_durations := count_up (route, method) (am_durations m) |}
  | MPanicked => {| am_inFlight := am_inFlight m - 1; am_requests := am_requests m; am_durations := am_durations m |}
  end.

(** * The process *)
Inductive OpsPage := OpsMetrics | OpsHealth | OpsNotFound.
Definition opsHandler (path : string) : OpsPage :=
  if String.eqb path "/metrics" then OpsMetrics else if String.eqb path "/healthz" then OpsHealth else OpsNotFound.
Inductive ApiEffect := StartMetering (every : Duration) | ServeOps (addr : string) | ServeApi (addr : string).
(** What [ListenAndServe] returns for an address; the text of [http.ErrServerClosed]
    ends both servers without an error, and no error of the operations server ends the
    process. *)
Definition ErrServerClosed : string := "http: Server closed".
Definition api_Run (cfg : ApiConfig) (bs : BillingSettings) (serve : string → string) : list ApiEffect * option string :=
  ((if Enabled (bs_config bs) && (bs_MeteringInterval bs >? 0) then [StartMetering (bs_MeteringInterval bs)] else []) ++
   (if negb (String.eqb (ac_MetricsAddr cfg) "") then [ServeOps (ac_MetricsAddr cfg)] else []) ++
   [ServeApi (ac_Addr cfg)],
   if String.eqb (serve (ac_Addr cfg)) ErrServerClosed then None else Some (serve (ac_Addr cfg))).
(** The exit status of trqshapi; [construct] is what [api.New] ends in. *)
Definition trqshapi_main (args : list string) (env : Environ) (get : string → option Z) (construct : ApiConfig → option string)
    (bs : BillingSettings) (serve : string → string) : Z * list ApiEffect :=
  match args with
  | _ :: "healthcheck" :: _ => (healthcheck env "TRQSH_API_ADDR" ":8080" get, [])
  | _ =>
      match api_LoadConfig env with
      | Err _ => (1, [])
      | Ok cfg =>
          match construct cfg with
          | Some _ => (1, [])
          | None => let '(effs, err) := api_Run cfg bs serve in (match err with Some _ => 1 | None => 0 end, effs)
          end
      end
  end.

(** * Theorems *)
Section stream_theorems.
  Context `{RangeOrder}.
Definition return_op (st : Stream) : relay_op :=
  match sm_viewer st with None => ODetach (sm_sess st) (sm_chan st) | Some id => ORemove (sm_sess st) id end.
(** No session refers to the stream any more. *)
Definition forgotten (st : Stream) (r : Relay) : Prop :=
  ∀ s, re_sess r !! sm_sess st = Some s →
    match sm_viewer st with None => se_agentCh s ≠ Some (sm_chan st) | Some id => se_viewers s !! id = None end.
Lemma detach_forgets l c r r' : detachAgent l c r = Some r' → ∀ s, re_sess r' !! l = Some s → se_agentCh s ≠ Some c.
Proof.
  unfold detachAgent. destruct (re_sess r !! l) as [s|] eqn:Hs; [|done]. cbn [mbind option_bind].
  destruct (decide (se_agentCh s = Some c)) as [He|Hne]; [rewrite bool_decide_eq_true_2 by done|rewrite bool_decide_eq_false_2 by done].
  - intros Hb s'. unfold broadcastViewersLocked in Hb. apply send_each_sess in Hb as [Hb _]. rewrite Hb. cbn. rewrite lookup_insert_eq. by intros [= <-].
  - intros [= <-] s'. rewrite Hs. by intros [= <-].
Qed.
Lemma remove_forgets l id r r' : removeViewer l id r = Some r' → ∀ s, re_sess r' !! l = Some s → se_viewers s !! id = None.
Proof.
  unfold removeViewer. destruct (re_sess r !! l) as [s|] eqn:Hs; [|done]. cbn [mbind option_bind].
  destruct (se_viewers s !! id) as [c|] eqn:Hv.
  - intros [Hc _]%close_sess s'. rewrite Hc. cbn. rewrite lookup_insert_eq. intros [= <-]. cbn. by rewrite lookup_delete_eq.
  - intros [= <-] s'. rewrite Hs. by intros [= <-].
Qed.
Lemma return_runs ops st r : relay_run ops r → is_Some (re_sess r !! sm_sess st) →
  ∃ r', stream_return st r = Some (returned st, r') ∧ relay_run (ops ++ [return_op st]) r' ∧ forgotten st r'.
Proof.
  intros Hrun Hs. pose proof (run_relay_ok _ _ Hrun) as Hok. unfold stream_return, return_op, forgotten. destruct (sm_viewer st) as [id|].
  - destruct (remove_ok r (sm_sess st) id Hok Hs) as (r' & Hr & _). rewrite Hr. exists r'. split; [done|]. split; [by eapply run_op|by eapply remove_forgets].
  - destruct (detach_agent_ok r (sm_sess st) (sm_chan st) Hok Hs) as (r' & Hr & _). rewrite Hr. exists r'. split; [done|]. split; [by eapply run_op|by eapply detach_forgets].
Qed.
Lemma recv_sess c r x r' : recv c r = Some (x, r') → re_sess r' = re_sess r.
Proof. unfold recv. destruct (re_chan r !! c) as [y|]; [|done]. cbn. destruct (ch_buf y); [destruct (ch_closed y); [|done]|]; by intros [= _ <-]. Qed.

(** The streams of the relay: in every state that any interleaving of handlers, streams
    and the sweeper has reached, a turn of a stream's loop does not panic and is again
    such a step; it writes the oldest event of its own channel and nothing else, stops
    exactly at the end of its context, a closed channel or the event that ends the
    session, and then leaves no reference to itself in the session.  Thirty seconds after it was opened it can always be ended, whatever its
    client does. *)
Theorem relay_streams_sound ops r st gone now c : relay_run ops r → is_Some (re_sess r !! sm_sess st) → sel_ready gone now c st r = true →
  (∃ st' r' os, stream_turn now c st r = Some (st', r') ∧ relay_run (ops ++ os) r' ∧
    (sm_open st' = false → forgotten st r') ∧
    match c with
    | CDone => sm_open st' = false ∧ sm_out st' = sm_out st
    | CKeepalive => r' = r ∧ sm_open st' = true ∧ sm_out st' = sm_out st ++ [KKeepalive]
    | CRecv => ∃ x, re_chan r !! sm_chan st = Some x ∧
        match ch_buf x with
        | [] => ch_closed x = true ∧ sm_open st' = false ∧ sm_out st' = sm_out st
        | ev :: _ => sm_out st' = sm_out st ++ [KData ev] ∧ (sm_open st' = false ↔ ev_Type ev = "ended")
        end
    end) ∧
  (sm_start st + requestTimeout <= now → sel_ready gone now CDone st r = true).
Proof.
  intros Hrun Hs Hready. unfold sel_ready in *. destruct (sm_open st) eqn:Ho; [|done]. cbn [andb] in *. split.
  2: { intros Ht. apply orb_true_iff. right. by apply Z.leb_le. }
  destruct c; cbn [stream_turn].
  - destruct (return_runs ops st r Hrun Hs) as (r' & -> & ? & ?). by exists (returned st), r', [return_op st].
  - exists (ticked now (say KKeepalive st)), r, []. rewrite app_nil_r. cbn. rewrite Ho. by split_and!.
  - destruct (recv (sm_chan st) r) as [[x r1]|] eqn:Hrecv; [|done]. cbn [mbind option_bind].
    assert (Hrun1 : relay_run (ops ++ [ORecv (sm_chan st)]) r1).
    { eapply run_op; [done| |]; cbn; rewrite Hrecv; [by eexists|done]. }
    assert (Hs1 : is_Some (re_sess r1 !! sm_sess st)) by (by rewrite (recv_sess _ _ _ _ Hrecv)).
    unfold recv in Hrecv. destruct (re_chan r !! sm_chan st) as [y|] eqn:Hc; [|done]. cbn in Hrecv.
    destruct (ch_buf y) as [|ev buf] eqn:Hb.
    + destruct (ch_closed y) eqn:Hcl; [|done]. injection Hrecv as <- <-.
      destruct (return_runs _ st r Hrun1 Hs1) as (r' & -> & Hr & ?). rewrite <- app_assoc in Hr.
      do 3 eexists. split; [done|]. split; [exact Hr|]. split; [done|]. exists y. by rewrite Hb.
    + injection Hrecv as <- <-. destruct (String.eqb_spec (ev_Type ev) "ended") as [He|He].
      * destruct (return_runs _ (say (KData ev) st) _ Hrun1 Hs1) as (r' & -> & Hr & ?). rewrite <- app_assoc in Hr.
        do 3 eexists. split; [done|]. split; [exact Hr|]. split; [done|]. exists y. by rewrite Hb.
      * do 3 eexists. split; [done|]. split; [exact Hrun1|]. cbn. rewrite Ho. split; [done|]. exists y. rewrite Hb. by repeat split.
Qed.
End stream_theorems.

(** ** Metrics *)
Section metrics.
  (** chi's [RoutePattern] after routing: the pattern of the route that was found, the one
      of the mounted router when none below it was, or nothing. *)
  Context (production : bool).
Definition route_labels : list string := "unmatched" :: "/v1/*" :: (en_Pattern <$> Router production).
Definition pattern_known (e : MetricEvent) : Prop :=
  match e with MServed p _ _ => p = "" ∨ p = "/v1/*" ∨ ∃ en, en ∈ Router production ∧ p = en_Pattern en | _ => True end.
Definition is_begin (e : MetricEvent) : bool := match e with MBegin => true | _ => false end.
Definition served_as (k : string * string * Z) (e : MetricEvent) : bool :=
  match e with MServed p m s => bool_decide (k = (routePattern p, m, s)) | _ => false end.
Definition tally (f : MetricEvent → bool) (es : list MetricEvent) : Z := Z.of_nat (length (List.filter f es)).
Lemma tally_app f es e : tally f (es ++ [e]) = tally f es + (if f e then 1 else 0).
Proof. unfold tally. rewrite List.filter_app, length_app. cbn [List.filter]. destruct (f e); cbn; lia. Qed.
Lemma count_up_lookup `{Countable K} (k k' : K) m : default 0 (count_up k m !! k') = default 0 (m !! k') + (if bool_decide (k' = k) then 1 else 0).
Proof.
  unfold count_up. case_bool_decide as Hk; [subst; by rewrite lookup_insert_eq|]. rewrite lookup_insert_ne by done. lia.
Qed.

(** The metrics of the API are right in every interleaving of requests: the gauge is the
    number of requests begun and not ended, a counter is the number of requests served
    with its labels, and the routes among the labels are those of the router and two
    more, whatever paths are asked for. *)
Theorem api_metrics_exact es : Forall pattern_known es →
  let m := foldl metrics_middleware newMetrics es in
  am_inFlight m = tally is_begin es - tally (λ e, negb (is_begin e)) es ∧
  (∀ k, default 0 (am_requests m !! k) = tally (served_as k) es) ∧
  (∀ route method status n, am_requests m !! (route, method, status) = Some n → route ∈ route_labels).
Proof.
  induction es as [|e es IH] using rev_ind; intros Hk; [by split_and!|]. apply list.Forall_app in Hk as [Hk He]. inversion_clear He as [|? ? He' _]. rename He' into He.
  specialize (IH Hk) as (I1 & I2 & I3). cbv zeta. rewrite foldl_app. cbn [foldl]. set (m := foldl metrics_middleware newMetrics es) in *.
  rewrite !tally_app. split_and!.
  - destruct e; cbn; lia.
  - intros k. rewrite tally_app, <- I2. destruct e as [|p method status|]; cbn; [lia| |lia]. by rewrite count_up_lookup.
  - destruct e as [|p method status|]; cbn [metrics_middleware am_requests]; [done| |done]. unfold count_up. intros route meth st n Hl. apply lookup_insert_Some in Hl as [[Hl _]|[_ Hl]]; [|eauto].
    injection Hl as <- _ _. cbn in He.
    unfold routePattern, route_labels. destruct (String.eqb_spec p ""); cbn [negb]; [left|]. destruct He as [?|[->|(en & Hen & ->)]]; [done|right; left|].
    right. right. by apply list_elem_of_fmap_2.
Qed.
(** The operations pages are on their own server: no route of the public one answers for
    the path of the metrics. *)
Lemma metrics_not_public e : e ∈ Router production → match_pattern (en_Pattern e) "/metrics" = None.
Proof.
  assert (Hall : forallb (λ e, match match_pattern (en_Pattern e) "/metrics" with None => true | Some _ => false end) (Router production) = true)
    by (destruct production; vm_compute; reflexivity).
  rewrite list_elem_of_In. intros Hin. rewrite forallb_forall in Hall. specialize (Hall e Hin). by destruct (match_pattern _ _).
Qed.
End metrics.

(** * Examples *)
#[local] Existing Instance sorted_range.
(** A console and a phone, paired at time 0 and both well, half a minute later. *)
Definition ex_paired : Relay := default newRemoteHub (play [OCreate 0 ex_rnd "org_1"; OAttach 0; OAdd 0] newRemoteHub).
Definition ex_console : Stream := open_stream 0 0 0 None.
Definition ex_cut : option (Stream * Relay) := stream_turn requestTimeout CDone ex_console ex_paired.
Lemma relay_streams_sound_witness : ∃ st' r', ex_cut = Some (st', r') ∧ sm_open st' = false ∧ forgotten ex_console r'.
Proof.
  assert (Hrun : relay_run ([] ++ [OCreate 0 ex_rnd "org_1"; OAttach 0; OAdd 0]) ex_paired)
    by (apply (play_run [] _ newRemoteHub); [exact run_new|vm_compute; reflexivity]).
  destruct (relay_streams_sound _ ex_paired ex_console false requestTimeout CDone Hrun) as [(st' & r' & os & Hst & _ & Hf & Ho & _) _];
    [vm_compute; eauto|reflexivity|]. exists st', r'. split; [exact Hst|]. split; [exact Ho|]. exact (Hf Ho).
Defined.
(** The timeout of ordinary requests ends the console's stream although nobody hung up:
    the phone is told that the console has disconnected, and what it sends before the
    console is back is refused. *)
Example relay_cut_after_half_a_minute :
  sel_ready false requestTimeout CDone ex_console ex_paired = true ∧
  (λ x : Stream * Relay, ch_buf <$> re_chan x.2 !! 1%nat) <$> ex_cut = Some (Some [presence true; presence false]) ∧
  (x ← ex_cut; y ← handleRemoteCommand requestTimeout (newRemoteCode ex_rnd) (Some "status") x.2; Some (rs_Status y.1)) = Some 409.
Proof. split_and!; vm_compute; reflexivity. Qed.
(** The method is a label too, and the client chooses it. *)
Example methods_are_unbounded :
  size (am_requests (foldl metrics_middleware newMetrics [MServed "" "A" 405; MServed "" "B" 405; MServed "" "C" 405])) = 3%nat.
Proof. vm_compute. reflexivity. Qed.
(** A failing operations server does not end the process, a failing API does. *)
Example ops_failure_is_not_fatal :
  let serve addr := if String.eqb addr ":9090" then "address already in use" else ErrServerClosed in
  trqshapi_main ["trqshapi"] ∅ (λ _, None) (λ _, None) billing_DefaultConfig serve = (0, [ServeOps ":9090"; ServeApi ":8080"]) ∧
  (trqshapi_main ["trqshapi"] ∅ (λ _, None) (λ _, None) billing_DefaultConfig (λ _, "address already in use")).1 = 1.
Proof. split; vm_compute; reflexivity. Qed.
