(* ===== verification/CliUi.v ===== *)
(** The printed side of the command line (internal/agent/cli/help.go, ui/ui.go,
    ui/spinner.go): styled text, the help screens and the progress indicator.  The
    command tree is cobra's: a command is the texts and answers the code asks it for. *)
From S2P Require Import Prelude GoStrings GoText EdgeConfig.
From Stdlib Require Import Ascii.

Open Scope Z_scope.

(** Texts printed one after the other. *)
Fixpoint concat_strings (l : list string) : string := match l with [] => "" | x :: l => x +:+ concat_strings l end.

(** * Styles *)
Definition ESC : ascii := "027".
Definition getenv (env : Environ) (key : string) : string := default "" (env !! key).
Definition decideColor (env : Environ) (terminal : bool) : bool :=
  let set_ key := negb (String.eqb (getenv env key) "") in
  if set_ "NO_COLOR" || set_ "TRQSH_NO_COLOR" then false
  else if EqualFold (getenv env "TERM") "dumb" then false
  else if set_ "FORCE_COLOR" || String.eqb (getenv env "CLICOLOR_FORCE") "1" then true
  else terminal.
Definition ui_IsInteractive (stdin stdout : bool) : bool := stdin && stdout.
Definition ui_reset : string := String ESC "[0m".
Section ui.
  Context (enabled : bool).
Definition style (code s : string) : string :=
  if negb enabled || String.eqb s "" then s else String ESC ("[" +:+ code +:+ "m" +:+ s +:+ ui_reset).
Definition ui_Bold := style "1".
Definition ui_Underline := style "4".
Definition ui_Red := style "31".
Definition ui_Green := style "32".
Definition ui_Yellow := style "33".
Definition ui_Cyan := style "36".
Definition ui_Gray := style "90".
Definition ui_Accent := style "38;2;45;212;191".
Definition ui_AccentBold := style "1;38;2;45;212;191".
Definition ui_Link (s : string) : string := ui_Underline (ui_Cyan s).
Definition ui_Title := ui_AccentBold.
(** The line printers: the stream they print to and the line. *)
Inductive Sink := Stdout | Stderr.
Definition icon_line (icon msg : string) : string := "  " +:+ icon +:+ " " +:+ msg +:+ nl.
Definition ui_Success (msg : string) : Sink * string := (Stdout, icon_line (ui_Green "✓") msg).
Definition ui_Fail (msg : string) : Sink * string := (Stderr, icon_line (ui_Red "✗") msg).
Definition ui_Warn (msg : string) : Sink * string := (Stderr, icon_line (ui_Yellow "⚠") msg).
Definition ui_Info (msg : string) : Sink * string := (Stdout, icon_line (ui_Gray "•") msg).
Definition ui_Step (msg : string) : Sink * string := (Stdout, icon_line (ui_Accent "→") msg).
Definition ui_Pad (s : string) (n : nat) : string :=
  if (n <=? String.length s)%nat then s else s +:+ Repeat " " (n - String.length s).
(** [printErr]: the message of an error, and the hint of one of the agent's. *)
Definition printErr (agentError : bool) (message hint : string) : string :=
  nl +:+ snd (ui_Fail message) +:+ (if agentError && negb (String.eqb hint "") then "    " +:+ ui_Gray hint +:+ nl else "").

(** * Help *)
Record Command := {
  cd_Name : string; cd_Short : string; cd_Long : string; cd_Example : string; cd_UseLine : string; cd_CommandPath : string;
  cd_Hidden : bool; cd_IsAvailable : bool; cd_HasParent : bool;
  cd_PersistentFlags : string; cd_LocalFlags : string; cd_InheritedFlags : string; (* their FlagUsages *)
}.
Definition helpGroups : list (string * list string) :=
  [("CONSOLE", ["ui"]); ("TUNNELS", ["http"; "tcp"; "udp"; "start"; "ls"; "open"; "stop"; "down"]);
   ("ACCOUNT", ["login"; "logout"; "whoami"; "subdomains"; "domains"]); ("SYSTEM", ["status"; "config"; "update"; "version"; "uninstall"])].
Definition rootExamples : list string :=
  ["trqsh                        open the console"; "trqsh http 3000              expose port 3000, then keep working";
   "trqsh http 8080 --subdomain myapp"; "trqsh login                  sign in"].
Definition nameColWidth : nat := 11.
Definition commandIndex (cmds : list Command) : gmap string Command := foldl (λ m c, <[cd_Name c := c]> m) ∅ cmds.
(** [strings.TrimSpace(l) == ""] decides which lines stay blank. *)
Definition indentLines (s prefix : string) : string :=
  unlines ((λ l, if String.eqb (TrimSpace l) "" then "" else prefix +:+ l) <$> lines_of s).

Definition showable (c : Command) : bool := negb (cd_Hidden c) && cd_IsAvailable c.
(** The commands a group prints, and the names shown after it. *)
Fixpoint group_cmds (names : list string) (byName : gmap string Command) (shown : gset string) : list Command * gset string :=
  match names with
  | [] => ([], shown)
  | n :: names =>
      match byName !! n with
      | Some c =>
          if bool_decide (n ∈ shown) || negb (showable c) then group_cmds names byName shown
          else let '(cs, shown) := group_cmds names byName ({[n]} ∪ shown) in (c :: cs, shown)
      | None => group_cmds names byName shown
      end
  end.
Definition command_line (c : Command) : string := "    " +:+ ui_Bold (ui_Pad (cd_Name c) nameColWidth) +:+ "  " +:+ cd_Short c +:+ nl.
Definition group_text (g : string * list Command) : string :=
  match g.2 with [] => "" | _ => "  " +:+ ui_Title g.1 +:+ nl +:+ concat_strings (command_line <$> g.2) +:+ nl end.
Fixpoint help_groups_of (gs : list (string * list string)) (byName : gmap string Command) (shown : gset string)
    : list (string * list Command) * gset string :=
  match gs with
  | [] => ([], shown)
  | (title, names) :: gs =>
      let '(cs, shown) := group_cmds names byName shown in
      let '(r, shown) := help_groups_of gs byName shown in
      ((title, cs) :: r, shown)
  end.
Definition is_extra (shown : gset string) (c : Command) : bool :=
  negb (bool_decide (cd_Name c ∈ shown) || negb (showable c) || String.eqb (cd_Name c) "help" || String.eqb (cd_Name c) "completion").
(** The sections of the root help: the groups, then the commands in none of them. *)
Definition root_sections (cmds : list Command) : list (string * list Command) :=
  let byName := commandIndex cmds in
  let '(gs, shown) := help_groups_of helpGroups byName ∅ in
  gs ++ [("OTHER", (group_cmds (cd_Name <$> List.filter (is_extra shown) cmds) byName shown).1)].
Definition flag_section (title before after flags : string) : string :=
  let fu := TrimRight flags newline in
  if String.eqb fu "" then "" else before +:+ "  " +:+ ui_Title title +:+ nl +:+ indentLines fu "  " +:+ after.
Definition printRootHelp (version : string) (root : Command) (cmds : list Command) : string :=
  nl +:+ "  " +:+ ui_AccentBold "trqsh" +:+ " " +:+ ui_Gray version +:+ nl +:+
  "  " +:+ cd_Short root +:+ nl +:+
  "  " +:+ ui_Gray "An interactive console — run trqsh to open it; everything happens inside." +:+ nl +:+ nl +:+
  "  " +:+ ui_Title "USAGE" +:+ nl +:+ "    " +:+ ui_Bold "trqsh" +:+ " " +:+
    ui_Gray "[command …]   (opens the console, running any command you pass)" +:+ nl +:+ nl +:+
  concat_strings (group_text <$> root_sections cmds) +:+
  flag_section "GLOBAL FLAGS" "" (nl +:+ nl) (cd_PersistentFlags root) +:+
  "  " +:+ ui_Title "EXAMPLES" +:+ nl +:+ concat_strings ((λ ex, "    " +:+ ui_Gray "$ " +:+ ex +:+ nl) <$> rootExamples) +:+ nl +:+
  "  Inside the console, type " +:+ ui_Accent "/help" +:+ " for all commands (" +:+ ui_Accent "/" +:+ " to autocomplete)." +:+ nl +:+
  "  Docs: " +:+ ui_Link "https://trqsh.uz/docs" +:+ nl +:+ nl.
Definition printCommandHelp (cmd : Command) (cmds : list Command) : string :=
  let desc := if String.eqb (cd_Long cmd) "" then cd_Short cmd else cd_Long cmd in
  nl +:+ indentLines desc "  " +:+ nl +:+ nl +:+
  "  " +:+ ui_Title "USAGE" +:+ nl +:+ "    " +:+ cd_UseLine cmd +:+ nl +:+ nl +:+
  (if existsb cd_IsAvailable cmds
   then "  " +:+ ui_Title "COMMANDS" +:+ nl +:+
        concat_strings (command_line <$> List.filter (λ c, cd_IsAvailable c && negb (String.eqb (cd_Name c) "help")) cmds) +:+ nl
   else "") +:+
  (if String.eqb (cd_Example cmd) "" then ""
   else "  " +:+ ui_Title "EXAMPLES" +:+ nl +:+ indentLines (TrimRight (cd_Example cmd) newline) "    " +:+ nl +:+ nl) +:+
  flag_section "FLAGS" "" nl (cd_LocalFlags cmd) +:+
  flag_section "GLOBAL FLAGS" nl nl (cd_InheritedFlags cmd).
Definition brandedHelp (version : string) (cmd : Command) (cmds : list Command) : string :=
  if cd_HasParent cmd then printCommandHelp cmd cmds else printRootHelp version cmd cmds.
Definition brandedUsage (cmd : Command) : string :=
  nl +:+ "  " +:+ ui_Gray "Usage:" +:+ " " +:+ cd_UseLine cmd +:+ nl +:+
  "  " +:+ ui_Gray "Help: " +:+ " " +:+ ui_Accent (cd_CommandPath cmd +:+ " --help") +:+ nl.
End ui.

(** * The progress indicator
    One caller and the goroutine that draws.  [sp_goroutine]: the frame it draws next;
    [sp_waiting]: the caller is in [halt], waiting for it to return. *)
Record Spinner := {
  sp_msg : string; sp_active : bool; sp_goroutine : option nat; sp_stop : bool; sp_waiting : bool; sp_err : list string; (* on stderr *)
}.
Inductive SpinnerEvent := SpStart | SpUpdate (msg : string) | SpHalt | SpHalted | SpTick | SpExit.
Definition spinFrames : list string := ["⠋"; "⠙"; "⠹"; "⠸"; "⠼"; "⠴"; "⠦"; "⠧"; "⠇"; "⠏"].
Definition clear_line : string := String "013" (String ESC "[2K").
Definition NewSpinner (msg : string) : Spinner :=
  {| sp_msg := msg; sp_active := false; sp_goroutine := None; sp_stop := false; sp_waiting := false; sp_err := [] |}.
Definition spin_frame (enabled : bool) (i : nat) (msg : string) : string :=
  clear_line +:+ "  " +:+ ui_Accent enabled (default "" (spinFrames !! (i mod length spinFrames)%nat)) +:+ " " +:+ msg.
Definition sp_print (line : string) (s : Spinner) : Spinner :=
  {| sp_msg := sp_msg s; sp_active := sp_active s; sp_goroutine := sp_goroutine s; sp_stop := sp_stop s; sp_waiting := sp_waiting s;
     sp_err := sp_err s ++ [line] |}.
Definition spinner_step (enabled : bool) (s : Spinner) (e : SpinnerEvent) : option Spinner :=
  match e with
  | SpStart =>
      if sp_waiting s then None
      else if sp_active s then Some s
      else if negb enabled then Some (sp_print ("  " +:+ sp_msg s +:+ "…" +:+ nl) s)
      else Some {| sp_msg := sp_msg s; sp_active := true; sp_goroutine := Some 0%nat; sp_stop := false; sp_waiting := false; sp_err := sp_err s |}
  | SpUpdate msg =>
      if sp_waiting s then None
      else
        let s := {| sp_msg := msg; sp_active := sp_active s; sp_goroutine := sp_goroutine s; sp_stop := sp_stop s; sp_waiting := false; sp_err := sp_err s |} in
        Some (if sp_active s then s else sp_print ("  " +:+ msg +:+ "…" +:+ nl) s)
  | SpHalt =>
      if sp_waiting s then None
      else if sp_active s
      then Some {| sp_msg := sp_msg s; sp_active := false; sp_goroutine := sp_goroutine s; sp_stop := true; sp_waiting := true; sp_err := sp_err s |}
      else Some s
  | SpHalted =>
      match sp_waiting s, sp_goroutine s with
      | true, None =>
          Some {| sp_msg := sp_msg s; sp_active := sp_active s; sp_goroutine := None; sp_stop := sp_stop s; sp_waiting := false;
                  sp_err := sp_err s ++ [clear_line] |}
      | _, _ => None
      end
  | SpTick =>
      match sp_goroutine s with
      | Some i =>
          Some {| sp_msg := sp_msg s; sp_active := sp_active s; sp_goroutine := Some (S i); sp_stop := sp_stop s; sp_waiting := sp_waiting s;
                  sp_err := sp_err s ++ [spin_frame enabled i (sp_msg s)] |}
      | None => None
      end
  | SpExit =>
      match sp_goroutine s with
      | Some _ =>
          if sp_stop s
          then Some {| sp_msg := sp_msg s; sp_active := sp_active s; sp_goroutine := None; sp_stop := true; sp_waiting := sp_waiting s; sp_err := sp_err s |}
          else None
      | None => None
      end
  end.
Fixpoint spinner_steps (enabled : bool) (s : Spinner) (es : list SpinnerEvent) : option Spinner :=
  match es with [] => Some s | e :: es => s ← spinner_step enabled s e; spinner_steps enabled s es end.

(** * Theorems *)
(** ** The indicator *)
Definition spinner_ok (enabled : bool) (s : Spinner) : Prop :=
  (is_Some (sp_goroutine s) → sp_active s = true ∨ sp_waiting s = true) ∧
  (sp_active s = true → is_Some (sp_goroutine s) ∧ sp_waiting s = false ∧ sp_stop s = false ∧ enabled = true) ∧
  (sp_waiting s = true → sp_stop s = true ∧ enabled = true).
Lemma spinner_step_ok en s e s' : spinner_ok en s → spinner_step en s e = Some s' → spinner_ok en s'.
Proof.
  destruct s as [msg act g stop wait err]. intros (H1 & H2 & H3) Hs. unfold spinner_ok in *. cbn in *.
  destruct e, act, wait, g as [i|], stop, en; cbn in *; simplify_eq; cbn in *; split_and!; naive_solver eauto.
Qed.
Lemma spinner_steps_ok en s es s' : spinner_ok en s → spinner_steps en s es = Some s' → spinner_ok en s'.
Proof.
  revert s. induction es as [|e es IH]; intros s Hok; cbn; [by intros [= <-]|]. destruct (spinner_step en s e) as [s1|] eqn:H1; [|done].
  apply IH. by eapply spinner_step_ok.
Qed.

(** The frame a line could be; without colours nothing is ever animated. *)
Definition animates (line : string) : bool := HasPrefix line (String "013" "").
Lemma plain_lines s es s' : spinner_ok false s → Forall (λ l, animates l = false) (sp_err s) → spinner_steps false s es = Some s' →
  Forall (λ l, animates l = false) (sp_err s').
Proof.
  revert s. induction es as [|e es IH]; intros s Hok Hf; cbn; [by intros [= <-]|]. destruct (spinner_step false s e) as [s1|] eqn:H1; [|done].
  apply IH; [by eapply spinner_step_ok|]. destruct s as [msg act g stop wait err]. destruct Hok as (A & B & C). cbn in *.
  destruct e, act, wait, g as [i|], stop; cbn in *; simplify_eq; cbn in *; try done; try (apply list.Forall_app; split; [done|by repeat constructor]);
    naive_solver.
Qed.
(** The indicator leaves a clean line: whatever the caller does and however the drawing
    goroutine is scheduled, once Success, Fail or Stop has halted it no goroutine is left
    to draw over what is printed next; a caller that waits can always go on, after at
    most the goroutine's return; and without colours no line is ever redrawn. *)
Theorem spinner_leaves_clean_line enabled msg es s : spinner_steps enabled (NewSpinner msg) es = Some s →
  (sp_active s = false → sp_waiting s = false → sp_goroutine s = None) ∧
  (sp_waiting s = true → ∃ es', (es' = [SpHalted] ∨ es' = [SpExit; SpHalted]) ∧
     ∃ s', spinner_steps enabled s es' = Some s' ∧ sp_waiting s' = false ∧ sp_goroutine s' = None ∧ list.last (sp_err s') = Some clear_line) ∧
  (enabled = false → Forall (λ l, animates l = false) (sp_err s)).
Proof.
  intros Hs. assert (Hnew : spinner_ok enabled (NewSpinner msg)) by (by split_and!; cbn; naive_solver).
  pose proof (spinner_steps_ok _ _ _ _ Hnew Hs) as (H1 & H2 & H3). split_and!.
  - intros Ha Hw. destruct (sp_goroutine s); [|done]. destruct (H1 ltac:(eauto)); congruence.
  - intros Hw. destruct (H3 Hw) as [Hstop _]. destruct s as [m act g stop wait err]. cbn in *. subst. destruct g as [i|].
    + exists [SpExit; SpHalted]. split; [by right|]. eexists. split; [done|]. cbn. split_and!; [done..|]. apply last_snoc.
    + exists [SpHalted]. split; [by left|]. eexists. split; [done|]. cbn. split_and!; [done..|]. apply last_snoc.
  - intros ->. eapply plain_lines; [exact Hnew| |exact Hs]. constructor.
Qed.

(** ** The sections of the help *)
Lemma commandIndex_lookup cmds n c : NoDup (cd_Name <$> cmds) → commandIndex cmds !! n = Some c ↔ c ∈ cmds ∧ cd_Name c = n.
Proof.
  unfold commandIndex. revert n c. induction cmds as [|x cmds IH] using rev_ind; intros n c Hnd; [cbn; split; [done|intros [[]%not_elem_of_nil _]]|].
  rewrite fmap_app in Hnd. apply list.NoDup_app in Hnd as (Hnd & Hx & _). rewrite foldl_app. cbn. rewrite elem_of_app, list_elem_of_singleton.
  rewrite lookup_insert_Some, IH by done. split.
  - intros [[<- ->]|[Hne [Hc Hn]]]; auto.
  - intros [[Hc| ->] Hn]; [|auto]. right. split; [|done]. intros Heq. apply (Hx n); [subst n; by apply list_elem_of_fmap_2|]. rewrite <- Heq. by left.
Qed.
Lemma group_cmds_spec names byName shown cs shown' : (∀ n c, byName !! n = Some c → cd_Name c = n) →
  group_cmds names byName shown = (cs, shown') →
  NoDup cs ∧ shown' = list_to_set (cd_Name <$> cs) ∪ shown ∧
  (∀ c, c ∈ cs ↔ cd_Name c ∈ names ∧ byName !! cd_Name c = Some c ∧ cd_Name c ∉ shown ∧ showable c = true).
Proof.
  intros Hname. revert shown cs shown'. induction names as [|n names IH]; intros shown cs shown'; cbn [group_cmds].
  { intros [= <- <-]. split_and!; [constructor|set_solver|set_solver]. }
  assert (Hskip : (∀ c, byName !! n = Some c → n ∈ shown ∨ showable c = false) → group_cmds names byName shown = (cs, shown') →
    NoDup cs ∧ shown' = list_to_set (cd_Name <$> cs) ∪ shown ∧
    (∀ c, c ∈ cs ↔ cd_Name c ∈ n :: names ∧ byName !! cd_Name c = Some c ∧ cd_Name c ∉ shown ∧ showable c = true)).
  { intros Hs Hg. destruct (IH _ _ _ Hg) as (I1 & I2 & I3). split_and!; [done..|]. intros c. rewrite I3, elem_of_cons. split; [naive_solver|].
    intros ([Hn|Hn] & Hb & Hsh & Hok); [|done]. rewrite Hn in Hb. destruct (Hs c Hb); [congruence|congruence]. }
  destruct (byName !! n) as [c0|] eqn:Hc0; [|apply Hskip; naive_solver].
  destruct (bool_decide (n ∈ shown) || negb (showable c0)) eqn:Hskipped.
  { apply Hskip. intros c [= <-]. apply orb_true_iff in Hskipped as [?%bool_decide_eq_true_1|?%negb_true_iff]; auto. }
  apply orb_false_iff in Hskipped as [Hnew%bool_decide_eq_false_1 Hok%negb_false_iff].
  destruct (group_cmds names byName ({[n]} ∪ shown)) as [cs1 sh1] eqn:Hg. intros [= <- <-]. destruct (IH _ _ _ Hg) as (I1 & I2 & I3).
  pose proof (Hname _ _ Hc0) as Hn0. split_and!.
  - constructor; [|done]. rewrite I3. set_solver.
  - rewrite I2, fmap_cons, list_to_set_cons, Hn0. set_solver.
  - intros c. rewrite !elem_of_cons, I3. split.
    + intros [->|(? & ? & ? & ?)]; [rewrite Hn0; auto|]. set_solver.
    + intros (Hin & Hb & Hsh & Hs). destruct (decide (cd_Name c = n)) as [Heq|Hne]; [left; rewrite Heq in Hb; congruence|]. right. set_solver.
Qed.
Lemma help_groups_spec gs byName shown r shown' : (∀ n c, byName !! n = Some c → cd_Name c = n) →
  help_groups_of gs byName shown = (r, shown') →
  let cs := mjoin (snd <$> r) in
  NoDup cs ∧ shown' = list_to_set (cd_Name <$> cs) ∪ shown ∧
  (∀ c, c ∈ cs ↔ cd_Name c ∈ mjoin (snd <$> gs) ∧ byName !! cd_Name c = Some c ∧ cd_Name c ∉ shown ∧ showable c = true).
Proof.
  intros Hname. revert shown r shown'. induction gs as [|[title names] gs IH]; intros shown r shown'; cbn [help_groups_of].
  { intros [= <- <-]. cbn. split_and!; [constructor|set_solver|set_solver]. }
  destruct (group_cmds names byName shown) as [cs sh1] eqn:Hg. destruct (help_groups_of gs byName sh1) as [r1 sh2] eqn:Hr. intros [= <- <-].
  destruct (group_cmds_spec _ _ _ _ _ Hname Hg) as (G1 & G2 & G3). destruct (IH _ _ _ Hr) as (I1 & I2 & I3). cbv zeta. rewrite !fmap_cons. cbn [mjoin list_join snd].
  split_and!.
  - apply list.NoDup_app. split_and!; [done| |done]. intros c Hc Hc'. apply I3 in Hc' as (_ & _ & Hn & _). apply Hn. rewrite G2, elem_of_union, elem_of_list_to_set. left. by apply list_elem_of_fmap_2.
  - rewrite I2, G2, fmap_app, list_to_set_app_L. set_solver.
  - intros c. rewrite !elem_of_app, G3, I3, G2. split; [set_solver|]. intros (Hn & Hb & Hs & Hok). destruct (decide (cd_Name c ∈ names)); [by left|]. right.
    split_and!; [set_solver|done| |done]. rewrite elem_of_union, elem_of_list_to_set. intros [(c' & Hc1 & Hc2)%list_elem_of_fmap|?]; [|done].
    apply G3 in Hc2 as (Hin & _). by rewrite <- Hc1 in Hin.
Qed.

(** The root help is complete: with distinct names, every command of the tree that is
    available and not hidden is listed in exactly one section and once in it, whether or
    not a group names it; what is not listed is hidden, unavailable or one of cobra's own
    two. *)
Theorem help_lists_every_command cmds : NoDup (cd_Name <$> cmds) →
  let listed := mjoin (snd <$> root_sections cmds) in
  NoDup listed ∧
  ∀ c, c ∈ listed ↔ c ∈ cmds ∧ showable c = true ∧
    (cd_Name c ∈ mjoin (snd <$> helpGroups) ∨ (cd_Name c ≠ "help" ∧ cd_Name c ≠ "completion")).
Proof.
  intros Hnd. pose proof (λ n c, commandIndex_lookup cmds n c Hnd) as Hidx.
  assert (Hname : ∀ n c, commandIndex cmds !! n = Some c → cd_Name c = n) by (intros n c Hc; by apply Hidx in Hc as [_ ?]).
  assert (Hself : ∀ c, commandIndex cmds !! cd_Name c = Some c ↔ c ∈ cmds) by (intros c; rewrite Hidx; naive_solver).
  unfold root_sections. destruct (help_groups_of helpGroups (commandIndex cmds) ∅) as [gs shown] eqn:Hg.
  destruct (help_groups_spec _ _ _ _ _ Hname Hg) as (G1 & G2 & G3).
  clear Hg. generalize dependent (mjoin (snd <$> helpGroups)). intros grouped G3.
  destruct (group_cmds (cd_Name <$> List.filter (is_extra shown) cmds) (commandIndex cmds) shown) as [ex sh] eqn:He.
  destruct (group_cmds_spec _ _ _ _ _ Hname He) as (E1 & _ & E3). cbv zeta. rewrite fmap_app, list.join_app. cbn [fmap list_fmap mjoin list_join snd fst]. rewrite app_nil_r.
  assert (Hshown : ∀ c, c ∈ cmds → cd_Name c ∈ shown ↔ c ∈ mjoin (snd <$> gs)).
  { intros c Hc. rewrite G2, elem_of_union, elem_of_list_to_set. split; [|intros ?; left; by apply list_elem_of_fmap_2].
    intros [(c' & Hn & Hc')%list_elem_of_fmap|?]; [|set_solver]. pose proof Hc' as (_ & Hb & _)%G3. rewrite <- Hn in Hb. apply Hself in Hc. congruence. }
  split.
  - apply list.NoDup_app. split_and!; [done| |done]. intros c Hc Hc'. apply E3 in Hc' as (_ & Hb & Hn & _). apply Hself in Hb. by apply Hn, Hshown.
  - intros c. rewrite elem_of_app, G3, E3, Hself. split.
    + intros [(Hn & Hc & _ & Hs)|(Hn & Hc & _ & Hs)]; split_and!; try done; [by left|]. right.
      apply list_elem_of_fmap in Hn as (c' & Hn & Hin). rewrite list_elem_of_In, filter_In in Hin. destruct Hin as [_ Hx]. rewrite Hn. unfold is_extra in Hx.
      apply negb_true_iff in Hx. repeat (apply orb_false_iff in Hx as [Hx ?]). by split; apply String.eqb_neq.
    + intros (Hc & Hs & Hn). destruct (decide (cd_Name c ∈ shown)) as [Hsh|Hsh].
      * left. apply Hshown in Hsh; [|done]. apply G3 in Hsh as (? & _ & _ & _). split_and!; [done..|set_solver|done].
      * right. split_and!; [|done..]. apply list_elem_of_fmap_2. rewrite list_elem_of_In, filter_In, <- list_elem_of_In. split; [done|].
        unfold is_extra. rewrite bool_decide_eq_false_2, Hs by done. cbn. destruct Hn as [Hg'|[H1 H2]].
        -- exfalso. apply Hsh, Hshown; [done|]. apply G3. split_and!; [done|by apply Hself|set_solver|done].
        -- apply String.eqb_neq in H1 as ->. by apply String.eqb_neq in H2 as ->.
Qed.

(** ** Colours *)
(** Text without its escape sequences. *)
Fixpoint strip (inside : bool) (s : string) : string :=
  match s with
  | EmptyString => EmptyString
  | String a r =>
      if inside then strip (negb (Ascii.eqb a "m")) r
      else if Ascii.eqb a ESC then strip true r else String a (strip false r)
  end.
Fixpoint free_of (c : ascii) (s : string) : bool :=
  match s with EmptyString => true | String a r => negb (Ascii.eqb a c) && free_of c r end.
(** [s] is the plain text [t] with sequences that it closes itself. *)
Definition styled (s t : string) : Prop := ∀ rest, strip false (s +:+ rest) = t +:+ strip false rest.
Lemma styled_plain s : free_of ESC s = true → styled s s.
Proof.
  intros Hs rest. induction s as [|a s IH]; [done|]. cbn in Hs. apply andb_prop in Hs as [Ha%negb_true_iff Hs].
  change (String a s +:+ rest) with (String a (s +:+ rest)). cbn. rewrite Ha, IH by done. done.
Qed.
Lemma styled_app s t s' t' : styled s t → styled s' t' → styled (s +:+ s') (t +:+ t').
Proof. intros H1 H2 rest. by rewrite app_string_assoc, H1, H2, app_string_assoc. Qed.
Lemma strip_code code rest : free_of "m" code = true → strip true (code +:+ String "m" rest) = strip false rest.
Proof.
  induction code as [|a code IH]; intros Hc; [done|]. cbn in Hc. apply andb_prop in Hc as [Ha%negb_true_iff Hc].
  change (String a code +:+ String "m" rest) with (String a (code +:+ String "m" rest)). cbn. rewrite Ha. by apply IH.
Qed.
Lemma styled_style code s t : free_of "m" code = true → styled s t → styled (style true code s) t.
Proof.
  intros Hc Hs rest. unfold style. cbn [negb orb]. destruct (String.eqb s "") eqn:He; [apply Hs|].
  change (String ESC ("[" +:+ code +:+ "m" +:+ s +:+ ui_reset) +:+ rest) with (String ESC (String "[" ((code +:+ "m" +:+ s +:+ ui_reset) +:+ rest))).
  cbn [strip]. change (Ascii.eqb ESC ESC) with true. cbn [negb Ascii.eqb]. change (Ascii.eqb "[" "m") with false. cbn [negb].
  rewrite app_string_assoc. change ("m" +:+ s +:+ ui_reset) with (String "m" (s +:+ ui_reset)).
  change (String "m" (s +:+ ui_reset) +:+ rest) with (String "m" ((s +:+ ui_reset) +:+ rest)).
  rewrite strip_code, app_string_assoc, Hs by done. done.
Qed.
Lemma style_off code s : style false code s = s.
Proof. done. Qed.
Lemma styled_concat {A} (f g : A → string) l : Forall (λ x, styled (f x) (g x)) l → styled (concat_strings (f <$> l)) (concat_strings (g <$> l)).
Proof. induction 1; cbn; [by apply styled_plain|]. by apply styled_app. Qed.
Lemma free_app c s t : free_of c (s +:+ t) = free_of c s && free_of c t.
Proof. induction s as [|a s IH]; [done|]. change (String a s +:+ t) with (String a (s +:+ t)). cbn. by rewrite IH, andb_assoc. Qed.
Lemma free_trim c s d : free_of c s = true → free_of c (TrimRight s d) = true.
Proof.
  induction s as [|a s IH]; [done|]. cbn. intros [Ha Hs]%andb_prop. specialize (IH Hs).
  destruct (TrimRight s d) as [|b r]; [destruct (Ascii.eqb a d); cbn; [done|by rewrite Ha]|]. cbn in *. by rewrite Ha.
Qed.
Lemma free_split c s d : free_of c s = true → Forall (λ l, free_of c l = true) (Split s d).
Proof.
  induction s as [|a s IH]; cbn; [by repeat constructor|]. intros [Ha Hs]%andb_prop. specialize (IH Hs). destruct (Ascii.eqb a d); [by constructor|].
  destruct IH as [|x xs Hx Hxs]; [by repeat constructor; cbn; rewrite Ha|]. constructor; [|done]. cbn. by rewrite Ha, Hx.
Qed.
Lemma free_join c sep l : free_of c sep = true → Forall (λ x, free_of c x = true) l → free_of c (Join sep l) = true.
Proof.
  intros Hsep. induction 1 as [|x l Hx Hl IH]; [done|]. destruct l as [|y l]; [done|]. change (Join sep (x :: y :: l)) with (x +:+ sep +:+ Join sep (y :: l)).
  by rewrite !free_app, Hx, Hsep.
Qed.
Lemma free_indent c s prefix : free_of c nl = true → free_of c prefix = true → free_of c s = true → free_of c (indentLines s prefix) = true.
Proof.
  intros Hnl Hp Hs. unfold indentLines, unlines, lines_of. apply free_join; [done|]. apply list.Forall_fmap. eapply list.Forall_impl; [by apply free_split|].
  intros l Hl. cbn. destruct (String.eqb (TrimSpace l) ""); [done|]. by rewrite free_app, Hp.
Qed.
Lemma free_repeat c n : free_of c " " = true → free_of c (Repeat " " n) = true.
Proof. intros Hc. induction n as [|n IH]; [done|]. cbn [Repeat]. by rewrite free_app, Hc. Qed.
Lemma free_pad c s n : free_of c " " = true → free_of c s = true → free_of c (ui_Pad s n) = true.
Proof. intros Hc Hs. unfold ui_Pad. destruct (_ <=? _)%nat; [done|]. rewrite free_app, Hs. by apply free_repeat. Qed.

(** The texts of a command hold no escape sequences of their own. *)
Definition clean_command (c : Command) : Prop :=
  Forall (λ s, free_of ESC s = true)
    [cd_Name c; cd_Short c; cd_Long c; cd_Example c; cd_UseLine c; cd_CommandPath c; cd_PersistentFlags c; cd_LocalFlags c; cd_InheritedFlags c].
Ltac styled_step :=
  lazymatch goal with
  | |- styled (?a +:+ ?b) (?c +:+ ?d) => apply (styled_app a c b d)
  | |- styled (style true _ _) _ => apply styled_style; [reflexivity|]
  | |- styled ?s ?s => apply styled_plain; first [reflexivity | assumption]
  end.
Ltac styled_all :=
  cbv [ui_Bold ui_Gray ui_Accent ui_Title ui_AccentBold ui_Link ui_Underline ui_Cyan]; rewrite ?style_off; repeat styled_step.
Lemma styled_command_line c : clean_command c → styled (command_line true c) (command_line false c).
Proof.
  intros Hc. inversion_clear Hc as [|? ? Hn Hr]. inversion_clear Hr as [|? ? Hs _]. unfold command_line. styled_all. apply styled_plain. by apply free_pad.
Qed.
Lemma styled_flags title before after flags : free_of ESC title = true → free_of ESC before = true → free_of ESC after = true → free_of ESC flags = true →
  styled (flag_section true title before after flags) (flag_section false title before after flags).
Proof.
  intros Ht Hb Ha Hf. unfold flag_section. cbv zeta. destruct (String.eqb (TrimRight flags newline) ""); [by apply styled_plain|]. styled_all.
  apply styled_plain, free_indent; [done..|]. by apply free_trim.
Qed.
Lemma styled_group title cs : free_of ESC title = true → Forall clean_command cs → styled (group_text true (title, cs)) (group_text false (title, cs)).
Proof.
  intros Ht Hcs. unfold group_text. cbn [fst snd]. destruct cs as [|c cs]; [by apply styled_plain|]. styled_all.
  apply styled_concat. eapply list.Forall_impl; [exact Hcs|]. apply styled_command_line.
Qed.
Lemma group_cmds_incl names byName shown : Forall (λ c, ∃ n, byName !! n = Some c) (group_cmds names byName shown).1.
Proof.
  revert shown. induction names as [|n names IH]; intros shown; cbn [group_cmds]; [constructor|]. destruct (byName !! n) as [c|] eqn:Hn; [|apply IH].
  destruct (_ || _); [apply IH|]. specialize (IH ({[n]} ∪ shown)). destruct (group_cmds names byName ({[n]} ∪ shown)). constructor; [by eauto|exact IH].
Qed.
Lemma help_groups_incl gs byName shown :
  Forall (λ g, Forall (λ c, ∃ n, byName !! n = Some c) g.2 ∧ g.1 ∈ fst <$> gs) (help_groups_of gs byName shown).1.
Proof.
  revert shown. induction gs as [|[title names] gs IH]; intros shown; cbn [help_groups_of]; [constructor|].
  pose proof (group_cmds_incl names byName shown) as Hg. destruct (group_cmds names byName shown) as [cs sh]. specialize (IH sh).
  destruct (help_groups_of gs byName sh) as [r sh']. cbn in *. constructor; [by split; [|left]|]. eapply list.Forall_impl; [exact IH|].
  intros g [? ?]. split; [done|by right].
Qed.
Lemma commandIndex_incl cmds n c : commandIndex cmds !! n = Some c → c ∈ cmds.
Proof.
  unfold commandIndex. induction cmds as [|x cmds IH] using rev_ind; [done|]. rewrite foldl_app. cbn. rewrite elem_of_app, list_elem_of_singleton.
  intros [[_ ->]|[_ Hc]]%lookup_insert_Some; auto.
Qed.
Lemma sections_clean cmds : Forall clean_command cmds → Forall (λ g, free_of ESC g.1 = true ∧ Forall clean_command g.2) (root_sections cmds).
Proof.
  intros Hc. assert (Hin : ∀ cs, Forall (λ c, ∃ n, commandIndex cmds !! n = Some c) cs → Forall clean_command cs).
  { intros cs Hcs. eapply list.Forall_impl; [exact Hcs|]. intros c (n & Hn%commandIndex_incl). rewrite list.Forall_forall in Hc. by apply Hc. }
  unfold root_sections. pose proof (help_groups_incl helpGroups (commandIndex cmds) ∅) as Hg.
  destruct (help_groups_of helpGroups (commandIndex cmds) ∅) as [gs shown]. apply list.Forall_app. split.
  - eapply list.Forall_impl; [exact Hg|]. intros g [Hcs Ht]. split; [|by apply Hin]. cbn in Ht. repeat (apply elem_of_cons in Ht as [->|Ht]; [done|]). by apply not_elem_of_nil in Ht.
  - constructor; [|constructor]. split; [done|]. apply Hin, group_cmds_incl.
Qed.
Lemma styled_indent s prefix : free_of ESC s = true → free_of ESC prefix = true → styled (indentLines s prefix) (indentLines s prefix).
Proof. intros. apply styled_plain. by apply free_indent. Qed.
Lemma styled_root_help v c cmds : free_of ESC v = true → clean_command c → Forall clean_command cmds →
  styled (printRootHelp true v c cmds) (printRootHelp false v c cmds).
Proof.
  intros Hv Hc Hcs. unfold clean_command in Hc. rewrite !list.Forall_cons in Hc. destruct Hc as (? & ? & ? & ? & ? & ? & ? & ? & ? & _).
  unfold printRootHelp. styled_all.
  - apply styled_concat. eapply list.Forall_impl; [by apply sections_clean|]. intros [t cs] [? ?]. by apply styled_group.
  - by apply styled_flags.
  - apply styled_concat. repeat constructor; intros; styled_all.
Qed.
Lemma styled_command_help c cmds : clean_command c → Forall clean_command cmds → styled (printCommandHelp true c cmds) (printCommandHelp false c cmds).
Proof.
  intros Hc Hcs. unfold clean_command in Hc. rewrite !list.Forall_cons in Hc. destruct Hc as (? & ? & ? & ? & ? & ? & ? & ? & ? & _).
  unfold printCommandHelp. cbv zeta. styled_all.
  - apply styled_indent; [|done]. by destruct (String.eqb (cd_Long c) "").
  - destruct (existsb cd_IsAvailable cmds); [|by apply styled_plain]. styled_all. apply styled_concat. apply list.Forall_forall. intros x Hx.
    rewrite list_elem_of_In, filter_In, <- list_elem_of_In in Hx. apply styled_command_line. rewrite list.Forall_forall in Hcs. destruct Hx. by apply Hcs.
  - destruct (String.eqb (cd_Example c) ""); [by apply styled_plain|]. styled_all. apply styled_indent; [by apply free_trim|done].
  - by apply styled_flags.
  - by apply styled_flags.
Qed.

(** Colours change nothing but colours: whatever the commands are called and say, as long
    as they hold no escape sequence of their own, the help and usage screens on a
    terminal are, without the escape sequences, byte for byte those written to a file, and
    no sequence is left open at their end. *)
Theorem colours_change_nothing v c cmds : free_of ESC v = true → clean_command c → Forall clean_command cmds →
  styled (brandedHelp true v c cmds) (brandedHelp false v c cmds) ∧ styled (brandedUsage true c) (brandedUsage false c).
Proof.
  intros Hv Hc Hcs. split.
  - unfold brandedHelp. destruct (cd_HasParent c); [by apply styled_command_help|by apply styled_root_help].
  - unfold clean_command in Hc. rewrite !list.Forall_cons in Hc. destruct Hc as (? & ? & ? & ? & ? & ? & ? & ? & ? & _). unfold brandedUsage. styled_all.
Qed.

(** * Examples *)
Definition ex_command (name : string) (hidden : bool) : Command :=
  {| cd_Name := name; cd_Short := "run " +:+ name; cd_Long := ""; cd_Example := ""; cd_UseLine := "trqsh " +:+ name; cd_CommandPath := "trqsh " +:+ name;
     cd_Hidden := hidden; cd_IsAvailable := negb hidden; cd_HasParent := true; cd_PersistentFlags := ""; cd_LocalFlags := ""; cd_InheritedFlags := "" |}.
(** A new command is listed although no group names it; the tree the program builds has
    the hidden daemon only, so none of its groups is ever printed. *)
Example help_sections :
  (λ g : string * list Command, (g.1, cd_Name <$> g.2)) <$> root_sections [ex_command "daemon" true; ex_command "http" false; ex_command "new" false; ex_command "help" false] =
    [("CONSOLE", []); ("TUNNELS", ["http"]); ("ACCOUNT", []); ("SYSTEM", []); ("OTHER", ["new"])] ∧
  concat_strings (group_text true <$> root_sections [ex_command "daemon" true; ex_command "help" false; ex_command "completion" false]) = "".
Proof. split; vm_compute; reflexivity. Qed.
Example spinner_run :
  sp_err <$> spinner_steps true (NewSpinner "checking") [SpStart; SpTick; SpHalt; SpTick; SpExit; SpHalted] =
    Some [spin_frame true 0 "checking"; spin_frame true 1 "checking"; clear_line].
Proof. vm_compute. reflexivity. Qed.
